(* ===== verification/_CoqProject ===== *)
-Q . S2P
Prelude.v
Sums.v
GoFloat.v
GoFloatInt.v
GoFloatOrder.v
GoFloatRound.v
GoRandom.v
BlockCache.v
BlockCacheProps.v
Lora.v
Scheduler.v
SchedulerInv.v
SchedulerProps.v
TraceFormat.v
TraceAccumulator.v
TraceFile.v
TraceProps.v
TraceReader.v
KVEvents.v
KVEventsProps.v
Moe.v
MoePlacement.v
MoeRouting.v
MoeEplb.v
MoeProps.v
Requests.v
RequestsProps.v
Dataset.v
DatasetProps.v
Latencies.v
LatenciesProps.v
FakeMetrics.v
Metrics.v
MetricsProps.v
Config.v
ConfigProps.v
MetricsRegistry.v
Tools.v
ToolsProps.v
Logprobs.v
Response.v
Streaming.v
StreamingProps.v
Embeddings.v
Server.v
ServerProps.v
TraceText.v
TraceWorkload.v
TraceWorkloadProps.v
TraceFidelity.v
TraceExecution.v
TraceVirtual.v
TraceVirtualInv.v
TraceVirtualProps.v
TraceRouting.v
TraceConserve.v
TraceDistributed.v
TraceForward.v
TraceBenchmark.v
TraceRegistry.v
TraceRegistryInv.v
TraceRegistryProps.v
TraceRegistryServed.v
TracePrefill.v
TracePrefillProps.v
Wire.v
ApiRequests.v
ApiRequestsProps.v
Tokenizer.v
TokenizerProps.v
Grpc.v
MoeProfile.v
MoeProfileProps.v
MoeProfileDecode.v
DatasetTool.v
DatasetToolProps.v
StartOptions.v
StartOptionsProps.v
BenchClient.v
BenchClientProps.v
