(* ===== verification/Prelude.v ===== *)
(** * Verification of the llm-d inference simulator

    The program ([src/pkg]) simulates a vLLM server: it accepts completion requests over
    HTTP, schedules them on a bounded number of workers, makes up responses and delays,
    and keeps the state a real server would expose (KV cache and its events, LoRA
    adapters, Prometheus metrics).  It can model mixture-of-experts latencies and replay
    recorded expert routing.

    ** How the parts interact

    A request is decoded and checked (Wire, ApiRequests), its text turned into tokens
    (Tokenizer), and enters through [handleHTTP] (Server) or the gRPC server (Grpc), which
    may refuse it or inject a failure, and is submitted to the scheduler (Scheduler), whose dispatcher hands it to a
    worker, loading LoRA adapters on the way (Lora).  The worker processes it (Requests):
    the prompt starts in the block cache (BlockCache), whose events are batched,
    numbered, published and replayed (KVEvents); a dataset (Dataset) or the tool-call
    generator (Tools) makes up the response, a latency calculator (Latencies, with Moe for
    mixture-of-experts models) the delays; the messages of the response go through a
    channel to the delivery (Streaming), which builds the payloads of the endpoint
    (Response, Logprobs), at once or as a stream.  Metrics counts what happens;
    FakeMetrics replaces the counts by configured ones; Config validates, merges and
    updates the configuration all of them read.  With a trace, TraceFormat to TraceReader
    are the files, TraceWorkload binds requests to recorded prompts, TraceRegistry and
    TracePrefill batch the decoding and the prefill of concurrent requests, TraceFidelity
    and TraceExecution are the cost of one forward pass, MoeProfile draws the forwards as
    a timeline, and TraceVirtual is the offline benchmark over the same cost model.
    StartOptions reads the options of the trace and installs it on the ranks;
    DatasetTool writes the database of the custom dataset; BenchClient are the clients
    that measure the server by its chat streams.

    ** Files

    - Prelude, Sums: results, channels, machine integers, lists; GoFloat, GoFloatInt,
      GoFloatOrder, GoFloatRound: [float64] with its exactness and rounding lemmas;
      GoRandom: the draws of [common/utils.go].
    - BlockCache, BlockCacheProps: [kvcache/block_cache.go].
      KVEvents, KVEventsProps: [kvcache/kv_cache_sender.go], [kv_events_replayer.go],
      [kv_cache.go], [common/publisher.go].
    - Lora: [simulator/lora.go].  Scheduler, SchedulerInv, SchedulerProps:
      [simulator/simulator.go], [worker.go].  Requests, RequestsProps:
      [simulator/request.go], [helpers.go], [text_completion.go], [chat_completion.go].
    - TraceFormat, TraceAccumulator, TraceFile, TraceProps, TraceReader: [moetrace/].
    - Moe, MoePlacement, MoeRouting, MoeEplb, MoeProps: [simulator/moe.go].
    - Dataset, DatasetProps: [dataset/dataset.go], [histogram_helper.go],
      [custom_dataset.go].  Latencies, LatenciesProps: [simulator/latencies.go],
      [context.go].  Tools, ToolsProps: [simulator/tools_utils.go].
    - FakeMetrics, Metrics, MetricsProps, MetricsRegistry:
      [common/config_fake_metrics.go], [simulator/fake_metrics.go], [metrics.go].
    - Config, ConfigProps: [common/config.go], [parser.go], [publisher.go], and the ranks of
      [simulator/simulator.go].
    - Logprobs, Response, Streaming, StreamingProps: [common/logprobs_utils.go],
      [api/response.go], [communication/response_builder.go], [http.go] and the messages
      of a response: [simulateResponseProcessing] of [simulator/simulator.go] and, for a
      replayed request, [simulateTraceResponseProcessing] of
      [simulator/moe_trace_runtime.go].
    - Server, ServerProps: [communication/http.go], [communication.go],
      [simulator/failures.go].  Embeddings: [api/embeddings.go] and its handler.
    - TraceText, TraceWorkload, TraceWorkloadProps, TraceRegistry, TraceRegistryInv,
      TraceRegistryProps, TraceRegistryServed: [simulator/moe_trace_runtime.go].
    - TraceFidelity, TraceExecution, TraceRouting, TraceConserve, TraceDistributed,
      TraceForward, TracePrefill, TracePrefillProps: [simulator/moe_trace_fidelity.go].
    - TraceVirtual, TraceVirtualInv, TraceVirtualProps, TraceBenchmark:
      [simulator/moe_trace_virtual.go].
    - Wire: JSON trees and the decoding of [encoding/json].  ApiRequests,
      ApiRequestsProps: [api/request.go], [tool_choice.go], the JSON forms of
      [api/response.go], and the request kinds of [simulator/] ([chat_completion.go],
      [text_completion.go], [responses.go], [messages.go], [generate.go],
      [generation.go]).  Tokenizer, TokenizerProps: [tokenizer/].
      Grpc: [communication/grpc.go] and the gRPC builder.
    - MoeProfile, MoeProfileProps, MoeProfileDecode: [simulator/moe_profile.go],
      [moe_profile_decode.go].
    - DatasetTool, DatasetToolProps: [dataset/ds_tool.go], [ds_tool_config.go],
      [sqlite_helper.go], [utils.go].  StartOptions, StartOptionsProps:
      [simulator/start_options.go] and [Start] of [simulator/simulator.go].  BenchClient, BenchClientProps:
      [scripts/moe_trace_all_prompts_benchmark] and
      [scripts/moe_simulated_expert_mapping_benchmark], with the JSON forms of the chunks
      of [api/response.go].

    The state of a component is a record with the fields of the Go struct, an operation a
    function on it with the name of the Go function, a loop body its own definition.

    ** What is shown

    Each theorem states its conditions in its comment; the main ones are repeated here.

    - The cache keeps exact reference counts within its capacity on every reachable state,
      each operation does what its branches promise, and a subscriber of the events holds
      the contents of the cache, as long as the clock ticks between a completion and the
      next start and no event is dropped; sleeping empties and disables it.
    - Every request is answered exactly once: the front refuses it without a trace or
      submits one sub-request per choice; the scheduler conserves, never blocks, wakes up
      and drains, until it is stopped and as long as no adapter is unregistered while
      requests run with it or wait for it; a failed choice fails its request; the channel
      of a response loses nothing; and the text of a stream is the text of the plain
      response, where there is at least one token.
    - Processing a request leaves the cache registrations as they were, unless the dataset
      returns nil tokens, which crashes the worker.
    - LoRA slots and ids are consistent, and the listed models are those served.
    - Responses, tool calls, embeddings, delays and injected failures are within what the
      request, the schema, the documentation and the configuration ask for; for tool calls
      where the configured ranges fit the schema, for delays where no load factor is at
      work.
    - An accepted configuration has the listed properties (not all that the components
      need), is accepted again unchanged, stays accepted under admin updates, and places
      the ranks on distinct ports.
    - Metrics show the backlog of the updates that were sent, every collector stays
      registered once, and no counter panics unless a negative total is configured.
    - A converted trace reads back; whatever file opens can be read without a panic; a
      bound request replays its prompt.
    - MoE placements are valid and balanced, routing conserves tokens, and runs do not
      panic, but where the concentrate router meets an expert none of whose holders has a
      finite cost; concurrent trace requests share decode steps without deadlock, loss or
      divergence; the prefill batcher and the offline benchmark process every token exactly
      once and terminate.
    - Requests survive the formats: a completions request is read back as written, a
      Messages request keeps its conversation, and the tokens of a conversation extend
      those of its beginning; the gRPC stream and its plain answer agree.
    - Execution profiles draw every forward once, without overlap and in any order of
      recording; decode forwards that follow the trace carry the recorded routes.
    - Answers stored by the dataset tool are found for their prompts; the start-up options
      are accepted exactly when each is given once and fits the others, and a start gives
      every rank the trace or stops the ranks it started, unless a rank cannot be
      initialised, where the ranks before it are left running.
    - The benchmark clients count and time exactly the tokens that the server streams for
      a chat request without an image, and summarize a run independently of the order of
      the answers.

    Theorems that show a defect say so in their comment ([clock_tie_exceeds_capacity],
    [unload_in_use_starves], [OpenRequests_misses_new], [file_threshold_lost],
    [direct_dispatch_undercounts], [failed_start_leaks], [sleep_without_cache_panics],
    [negative_total_panics], [limits_ignored], ...).

    ** Bounds, fuel and parameters

    Integers are [Z]; an operation that can leave 64 (or 32) bits is wrapped by [i64],
    [u64], [u32], and theorems give the bounds under which nothing wraps.  A panic or nil
    dereference is [None] (or [Panics]).  Fuel occurs where Go loops without a bound:
    the rejection sampling of response lengths (its theorem asks for an accepted sample
    within the fuel), the nesting of JSON schemas (fuel above the depth of the schema),
    bucket construction (19 rounds suffice below 10^18) and the offline scheduler (its
    theorem gives a fuel that always suffices); none of the theorems is vacuous for lack
    of fuel.

    Parameters stand for code outside the repository or for the environment: random
    draws, clocks, the order in which a map is ranged over, JSON, YAML and msgpack
    codecs, the flag library, Prometheus (a record of calls, and a registration that
    refuses taken names), the render service, the token processor, SHA-256, the SQL engine,
    [math.Pow] and [math.Sin], environment variables, files, measured router times.  A section under a
    mutex is one atomic step; channels are bounded buffers; goroutines interleave in any
    order.  A handler reads one configuration.  Writes to files succeed.  Floats are
    rounded after every operation and converted to integers as on amd64.  A null list
    and an empty list of log probabilities are not told apart.

    ** Not modelled

    TLS and certificates, and generated protocol code (sockets and files); downloads of
    datasets, the data card and the in-memory copy of a database (calls on libraries);
    commands, report formats and flags of the scripts (drivers of the modelled packages); the
    construction and shutdown of the process; the HTTP log and route table; retries and
    timeouts of the render client; the JSON-schema validator of tools and the encoders of
    msgpack and YAML (libraries). *)

From Stdlib Require Export ZArith Lia.
From stdpp Require Export base gmap strings list fin_maps sets sorting.

(** * Results: fallible Go code returning [(T, error)] *)

(** [Ok a] is a return with a nil error, [Err e] a return whose error is [e]. *)
Inductive result (E A : Type) : Type :=
| Ok (a : A)
| Err (e : E).
Arguments Ok {E A} a.
Arguments Err {E A} e.

Definition res_bind {E A B} (m : result E A) (k : A → result E B) : result E B :=
  match m with
  | Ok a => k a
  | Err e => Err e
  end.

Declare Scope go_scope.
Delimit Scope go_scope with go.
Notation "'let!' x ':=' m 'in' k" := (res_bind m (λ x, k))
  (at level 10, x name, m at level 100, k at level 200) : go_scope.
Notation "'check!' b 'else' e 'in' k" := (if b : bool then k else Err e)
  (at level 10, b at level 100, e at level 100, k at level 200) : go_scope.
Open Scope go_scope.

Definition is_ok {E A} (m : result E A) : bool :=
  match m with Ok _ => true | Err _ => false end.

Lemma Ok_inj {E A} (a b : A) : @Ok E A a = Ok b → a = b.
Proof. congruence. Qed.

(** Follow the successful path of a fallible computation [H : m = Ok _]. *)
Ltac inv_ok H :=
  repeat (cbn [res_bind] in H;
    lazymatch type of H with
    | res_bind ?m _ = Ok _ => let E := fresh "E" in destruct m eqn:E; [|discriminate H]
    | (if ?b then _ else _) = Ok _ => let E := fresh "E" in destruct b eqn:E; try discriminate H
    | match ?o with _ => _ end = Ok _ => let E := fresh "E" in destruct o eqn:E; try discriminate H
    end).

(** * Machine integers: values are [Z], the width is written out where it matters *)

Definition max_u64 : Z := 2 ^ 64 - 1.
Definition max_u32 : Z := 2 ^ 32 - 1.
Definition u64 (z : Z) : Z := z mod 2 ^ 64.
Definition u32 (z : Z) : Z := z mod 2 ^ 32.
Definition u16 (z : Z) : Z := z mod 2 ^ 16.
Definition u8 (z : Z) : Z := z mod 2 ^ 8.
(** Two's complement wrap of Go's 64-bit [int] and [int64]. *)
Definition i64 (z : Z) : Z := (z + 2 ^ 63) mod 2 ^ 64 - 2 ^ 63.

Lemma u64_small z : (0 ≤ z ≤ max_u64)%Z → u64 z = z.
Proof. unfold u64, max_u64. intros. apply Z.mod_small. lia. Qed.
Lemma u32_small z : (0 ≤ z ≤ max_u32)%Z → u32 z = z.
Proof. unfold u32, max_u32. intros. apply Z.mod_small. lia. Qed.
Lemma u16_small z : (0 ≤ z < 2 ^ 16)%Z → u16 z = z.
Proof. unfold u16. intros. apply Z.mod_small. lia. Qed.
Lemma u8_small z : (0 ≤ z < 2 ^ 8)%Z → u8 z = z.
Proof. unfold u8. intros. apply Z.mod_small. lia. Qed.
Lemma i64_small z : (- 2 ^ 63 ≤ z < 2 ^ 63)%Z → i64 z = z.
Proof. unfold i64. intros. rewrite Z.mod_small; lia. Qed.
Lemma i64_i64_add x y : i64 (i64 x + y) = i64 (x + y).
Proof.
  unfold i64. f_equal. replace ((x + 2 ^ 63) mod 2 ^ 64 - 2 ^ 63 + y + 2 ^ 63)%Z with ((x + 2 ^ 63) mod 2 ^ 64 + y)%Z by lia.
  rewrite Zplus_mod_idemp_l. f_equal. lia.
Qed.
Lemma u64_range z : (0 ≤ u64 z ≤ max_u64)%Z.
Proof. unfold u64, max_u64. pose proof (Z.mod_pos_bound z (2 ^ 64)). lia. Qed.
Lemma u32_range z : (0 ≤ u32 z ≤ max_u32)%Z.
Proof. unfold u32, max_u32. pose proof (Z.mod_pos_bound z (2 ^ 32)). lia. Qed.

(** * Buffered Go channels *)

Record Chan (A : Type) := mkChan { chan_buf : list A; chan_cap : nat }.
Arguments mkChan {A} _ _.
Arguments chan_buf {A} _.
Arguments chan_cap {A} _.

(** [common.WriteToChannelWithError]: a non-blocking send. A send on a full
    buffer is dropped; the drop is an error unless [Done] is closed. *)
Definition WriteToChannelWithError {A} (done_closed : bool) (c : Chan A) (x : A)
  : Chan A * option string :=
  if length (chan_buf c) <? chan_cap c then
    (mkChan (chan_buf c ++ [x]) (chan_cap c), None)
  else if done_closed then (c, None)
  else (c, Some "channel is full"%string).

(** [common.WriteToChannel]: as above, the error is only logged. *)
Definition WriteToChannel {A} (c : Chan A) (x : A) : Chan A :=
  fst (WriteToChannelWithError false c x).

(** A receive from the buffer. *)
Definition chan_recv {A} (c : Chan A) : option (A * Chan A) :=
  match chan_buf c with
  | [] => None
  | x :: r => Some (x, mkChan r (chan_cap c))
  end.

Definition chan_room {A} (c : Chan A) (n : nat) : Prop :=
  length (chan_buf c) + n ≤ chan_cap c.

Lemma WriteToChannel_cap {A} (c : Chan A) x : chan_cap (WriteToChannel c x) = chan_cap c.
Proof. unfold WriteToChannel, WriteToChannelWithError. by destruct (_ <? _). Qed.

Lemma WriteToChannel_room {A} (c : Chan A) x :
  chan_room c 1 → WriteToChannel c x = mkChan (chan_buf c ++ [x]) (chan_cap c).
Proof.
  unfold chan_room, WriteToChannel, WriteToChannelWithError. intros.
  destruct (Nat.ltb_spec (length (chan_buf c)) (chan_cap c)); [done | lia].
Qed.

Lemma WriteToChannel_full {A} (c : Chan A) x :
  chan_cap c ≤ length (chan_buf c) → WriteToChannel c x = c.
Proof.
  unfold WriteToChannel, WriteToChannelWithError. intros.
  destruct (Nat.ltb_spec (length (chan_buf c)) (chan_cap c)); [lia | done].
Qed.

(** A buffer never exceeds its capacity. *)
Definition chan_wf {A} (c : Chan A) : Prop := length (chan_buf c) ≤ chan_cap c.

Lemma WriteToChannel_wf {A} (c : Chan A) x : chan_wf c → chan_wf (WriteToChannel c x).
Proof.
  unfold chan_wf, WriteToChannel, WriteToChannelWithError. intros.
  destruct (Nat.ltb_spec (length (chan_buf c)) (chan_cap c)); simpl;
    [rewrite length_app; simpl; lia | done].
Qed.

Create HintDb simdb.
Create Rewrite HintDb simdb_rw.
#[export] Hint Resolve WriteToChannel_wf : simdb.
#[export] Hint Rewrite @WriteToChannel_cap : simdb_rw.

(** * First minimum of a keyed list *)

Section FirstMin.
Context {K : Type}.

(** Replace the candidate by a strictly smaller entry. *)
Definition minStep (acc e : K * Z) : K * Z := if (e.2 <? acc.2)%Z then e else acc.

Lemma foldl_minStep_le (l : list (K * Z)) acc :
  ((foldl minStep acc l).2 ≤ acc.2)%Z ∧ ∀ e, e ∈ l → ((foldl minStep acc l).2 ≤ e.2)%Z.
Proof.
  revert acc. induction l as [|x l IH]; intros acc; simpl; [set_solver by lia|].
  destruct (IH (minStep acc x)) as [H1 H2]. unfold minStep in *.
  destruct (Z.ltb_spec x.2 acc.2); (split; [lia|]); intros e [->|He]%elem_of_cons; auto; lia.
Qed.

Lemma foldl_minStep_elem (l : list (K * Z)) acc :
  foldl minStep acc l = acc ∨ foldl minStep acc l ∈ l.
Proof.
  revert acc. induction l as [|x l IH]; intros acc; simpl; [by left|].
  destruct (IH (minStep acc x)) as [->|]; [|right; by right].
  unfold minStep. destruct (_ <? _)%Z; [right; by left|by left].
Qed.

(** When every entry is below the initial candidate, the result is an entry. *)
Lemma foldl_minStep_in (l : list (K * Z)) acc :
  l ≠ [] → (∀ e, e ∈ l → (e.2 < acc.2)%Z) → foldl minStep acc l ∈ l.
Proof.
  intros Hne Hlt. destruct (foldl_minStep_elem l acc) as [E|]; [|done]. exfalso.
  destruct l as [|x l]; [done|].
  pose proof (proj2 (foldl_minStep_le (x :: l) acc) x ltac:(left)) as H.
  rewrite E in H. specialize (Hlt x ltac:(left)). lia.
Qed.
End FirstMin.

(** * Loops that may panic *)

(** [for _, x := range l { b = f(b, x) }] where [None] is a panic of the body. *)
Fixpoint foldM {A B} (f : B → A → option B) (b : B) (l : list A) : option B :=
  match l with
  | [] => Some b
  | x :: r => match f b x with Some b => foldM f b r | None => None end
  end.

(** [for i, x := range l]. *)
Definition enumerate {A} (l : list A) : list (nat * A) := imap pair l.

Lemma foldM_app {A B} (f : B → A → option B) b l1 l2 :
  foldM f b (l1 ++ l2) = foldM f b l1 ≫= λ b, foldM f b l2.
Proof. revert b. induction l1 as [|x l1 IH]; intros b; simpl; [done|]. by destruct (f b x). Qed.

(** A loop with an invariant indexed by the processed prefix, where the body may
    panic for the reason [Q]. *)
Lemma foldM_inv_or {A B} (f : B → A → option B) (I : list A → B → Prop) (Q : Prop) l b :
  I [] b →
  (∀ done x rest b, l = done ++ x :: rest → I done b → (∃ b', f b x = Some b' ∧ I (done ++ [x]) b') ∨ (f b x = None ∧ Q)) →
  (∃ b', foldM f b l = Some b' ∧ I l b') ∨ (foldM f b l = None ∧ Q).
Proof.
  intros H0 Hstep.
  assert (∀ rest done b, l = done ++ rest → I done b →
    (∃ b', foldM f b rest = Some b' ∧ I l b') ∨ (foldM f b rest = None ∧ Q)) as H.
  { induction rest as [|x rest IH]; intros done b0 El HI; [rewrite app_nil_r in El; subst; eauto|].
    simpl. destruct (Hstep done x rest b0 El HI) as [(b1 & -> & HI1)|[-> HQ]]; [|by right].
    apply (IH (done ++ [x])); [by rewrite <- app_assoc|done]. }
  by apply (H l []).
Qed.

(** The same, saying where the loop panics: the processed prefix, the element and
    the state the body is given. *)
Lemma foldM_inv_at {A B} (f : B → A → option B) (I : list A → B → Prop) (Q : B → A → Prop) l b :
  I [] b →
  (∀ done x rest b, l = done ++ x :: rest → I done b → (∃ b', f b x = Some b' ∧ I (done ++ [x]) b') ∨ (f b x = None ∧ Q b x)) →
  (∃ b', foldM f b l = Some b' ∧ I l b') ∨
  (foldM f b l = None ∧ ∃ done x rest b', l = done ++ x :: rest ∧ foldM f b done = Some b' ∧ I done b' ∧ Q b' x).
Proof.
  intros H0 Hstep. destruct (foldM_inv_or f (λ done b', I done b' ∧ foldM f b done = Some b')
    (∃ done x rest b', l = done ++ x :: rest ∧ foldM f b done = Some b' ∧ I done b' ∧ Q b' x) l b) as [(b' & E & HI & _)|H]; eauto.
  intros done x rest b0 El [HI E]. destruct (Hstep done x rest b0 El HI) as [(b1 & E1 & HI1)|[E1 HQ]].
  - left. exists b1. rewrite foldM_app, E. cbn [mbind option_bind foldM]. by rewrite E1.
  - right. split; [done|]. by exists done, x, rest, b0.
Qed.

(** A loop panics where its body does. *)
Lemma foldM_stuck {A B} (f : B → A → option B) b done x rest b' :
  foldM f b done = Some b' → f b' x = None → foldM f b (done ++ x :: rest) = None.
Proof. intros E H. rewrite foldM_app, E. cbn [mbind option_bind foldM]. by rewrite H. Qed.

(** A loop whose body does not panic under the invariant. *)
Lemma foldM_inv {A B} (f : B → A → option B) (I : list A → B → Prop) l b :
  I [] b → (∀ done x rest b, l = done ++ x :: rest → I done b → ∃ b', f b x = Some b' ∧ I (done ++ [x]) b') →
  ∃ b', foldM f b l = Some b' ∧ I l b'.
Proof.
  intros H0 Hstep. destruct (foldM_inv_or f I False l b H0) as [H|[_ []]]; [|done].
  intros done x rest b0 El HI. left. by eapply Hstep.
Qed.

(** What every successful iteration preserves, the loop preserves. *)
Lemma foldM_preserves {A B} (f : B → A → option B) (P : B → Prop) l b b' :
  (∀ b x b', f b x = Some b' → P b → P b') → foldM f b l = Some b' → P b → P b'.
Proof.
  intros Hf. revert b. induction l as [|x l IH]; intros b; simpl; [congruence|].
  destruct (f b x) eqn:E; [|done]. intros H Hb. by eapply IH; [|eapply Hf].
Qed.

(** The same with an invariant indexed by the processed prefix. *)
Lemma foldM_history {A B} (f : B → A → option B) (I : list A → B → Prop) l b b' :
  foldM f b l = Some b' → I [] b →
  (∀ done x rest b b1, l = done ++ x :: rest → f b x = Some b1 → I done b → I (done ++ [x]) b1) → I l b'.
Proof.
  intros E H0 Hstep. destruct (foldM_inv_or f I True l b H0) as [(b1 & E1 & H1)|[E1 _]]; [|congruence..].
  intros done x rest b0 El HI. destruct (f b0 x) as [b1|] eqn:E1; [left; exists b1; split; [done|by eapply Hstep]|by right].
Qed.

Lemma enumerate_lookup {A} (l : list A) i : enumerate l !! i = pair i <$> l !! i.
Proof. unfold enumerate. rewrite list_lookup_imap. done. Qed.

Lemma elem_of_enumerate {A} (l : list A) i x : (i, x) ∈ enumerate l ↔ l !! i = Some x.
Proof.
  rewrite list_elem_of_lookup. split.
  - intros [j Hj]. rewrite enumerate_lookup in Hj. destruct (l !! j) eqn:E; naive_solver.
  - intros H. exists i. by rewrite enumerate_lookup, H.
Qed.

Lemma enumerate_fst {A} (l : list A) : fst <$> enumerate l = seq 0 (length l).
Proof.
  apply list_eq. intros i. rewrite list_lookup_fmap, enumerate_lookup. destruct (l !! i) eqn:E; cbn; symmetry.
  - apply lookup_seq_lt. by eapply lookup_lt_Some.
  - apply lookup_ge_None. rewrite length_seq. by apply lookup_ge_None.
Qed.

Lemma length_enumerate {A} (l : list A) : length (enumerate l) = length l.
Proof. apply length_imap. Qed.

(** * Sorting *)

(** [sort.SliceStable]: insertion sort from the right, as Go does within a block;
    under a strict weak order every stable sort returns the same list. *)
Section SliceStable.
Context {A : Type} (less : A → A → bool).

(** [sorted] is the sorted prefix, last element first. *)
Fixpoint insertBack (x : A) (sorted : list A) : list A :=
  match sorted with
  | [] => [x]
  | y :: r => if less x y then y :: insertBack x r else x :: y :: r
  end.

Definition SliceStable (l : list A) : list A := rev (foldl (λ acc x, insertBack x acc) [] l).

Lemma insertBack_perm x l : insertBack x l ≡ₚ x :: l.
Proof. induction l as [|y l IH]; simpl; [done|]. destruct (less x y); [|done]. rewrite IH. apply perm_swap. Qed.

Lemma SliceStable_perm l : SliceStable l ≡ₚ l.
Proof.
  unfold SliceStable. rewrite <- Permutation_rev.
  assert (∀ acc, foldl (λ acc x, insertBack x acc) acc l ≡ₚ l ++ acc) as H.
  { induction l as [|x l IH]; intros acc; simpl; [done|]. rewrite IH, insertBack_perm. by rewrite Permutation_middle. }
  rewrite H. by rewrite app_nil_r.
Qed.
End SliceStable.

(** Sorting by an integer key puts smaller keys first. *)
Lemma SliceStable_sorted {A} (key : A → Z) l :
  let s := SliceStable (λ x y, key x <? key y)%Z l in
  ∀ i j x y, i < j → s !! i = Some x → s !! j = Some y → (key x ≤ key y)%Z.
Proof.
  cbv zeta. unfold SliceStable. set (less := λ x y, (key x <? key y)%Z).
  assert (∀ x acc, StronglySorted (λ a b, key b ≤ key a)%Z acc → StronglySorted (λ a b, key b ≤ key a)%Z (insertBack less x acc)) as Hins.
  { intros x acc. induction 1 as [|y acc Hs IH Hy]; simpl; [repeat constructor|]. unfold less at 1.
    destruct (Z.ltb_spec (key x) (key y)).
    - constructor; [done|]. rewrite insertBack_perm. constructor; [lia|done].
    - constructor; [by constructor|]. constructor; [lia|]. eapply Forall_impl; [done|]. simpl. lia. }
  assert (∀ acc, StronglySorted (λ a b, key b ≤ key a)%Z acc →
    StronglySorted (λ a b, key b ≤ key a)%Z (foldl (λ acc x, insertBack less x acc) acc l)) as Hf.
  { induction l as [|x l IH]; intros acc Hacc; simpl; [done|]. apply IH. by apply Hins. }
  specialize (Hf [] (SSorted_nil _)). revert Hf. generalize (foldl (λ acc x, insertBack less x acc) [] l).
  clear. intros s. induction 1 as [|x s Hs IH Hx]; intros i j a b Hij; simpl; [by rewrite lookup_nil|].
  intros Ha Hb. apply lookup_snoc_Some in Hb as [[Hj Hb]|[Hj <-]].
  - rewrite lookup_app_l in Ha by lia. exact (IH i j a b Hij Ha Hb).
  - rewrite lookup_app_l in Ha by lia. rewrite Forall_forall in Hx. apply Hx.
    apply list_elem_of_lookup_2 in Ha. by rewrite <- Permutation_rev in Ha.
Qed.

(** * Lists *)

Lemma elem_of_middle {A} (l k : list A) x : x ∈ l ++ x :: k.
Proof. apply elem_of_app. right. left. Qed.

(** The last [n] elements. *)
Definition lastn {A} (n : nat) (l : list A) : list A := drop (length l - n) l.

Lemma lastn_length {A} n (l : list A) : length (lastn n l) = Nat.min n (length l).
Proof. unfold lastn. rewrite length_drop. lia. Qed.

Lemma lastn_snoc {A} n (l : list A) x : lastn (S n) (l ++ [x]) = lastn n l ++ [x].
Proof.
  unfold lastn. rewrite length_app. simpl. rewrite drop_app_le by lia. do 2 f_equal. lia.
Qed.

Lemma lastn_app_r {A} n (k l : list A) : n ≤ length l → lastn n (k ++ l) = lastn n l.
Proof. intros. unfold lastn. rewrite length_app, drop_app_ge by lia. f_equal. lia. Qed.

Lemma lastn_all {A} (l : list A) : lastn (length l) l = l.
Proof. unfold lastn. by rewrite Nat.sub_diag. Qed.

Lemma lastn_fmap {A B} (f : A → B) n l : lastn n (f <$> l) = f <$> lastn n l.
Proof. unfold lastn. by rewrite length_fmap, fmap_drop. Qed.

Lemma lastn_0 {A} (l : list A) : lastn 0 l = [].
Proof. unfold lastn. by rewrite Nat.sub_0_r, drop_all. Qed.

Lemma lastn_lastn {A} n (l : list A) : lastn n (lastn n l) = lastn n l.
Proof.
  unfold lastn. rewrite length_drop, drop_drop. f_equal. lia.
Qed.

(** A sliding window of [n] elements: the oldest one goes. *)
Lemma lastn_snoc_tail {A} n (l : list A) x : 0 < n ≤ length l → lastn n (l ++ [x]) = tail (lastn n l) ++ [x].
Proof.
  intros [Hn Hl]. destruct n as [|n]; [lia|]. rewrite lastn_snoc. f_equal. unfold lastn.
  replace (length l - n) with (S (length l - S n)) by lia. generalize (length l - S n). clear.
  induction l as [|y l IH]; intros [|i]; simpl; [done..|]. apply IH.
Qed.

(** The ring buffer that holds the window [l], with [w] the next index to write. *)
Definition ring {A} (w : nat) (l : list A) : list A := drop (length l - w) l ++ take (length l - w) l.

Lemma ring_length {A} w (l : list A) : length (ring w l) = length l.
Proof. unfold ring. rewrite length_app, length_drop, length_take. lia. Qed.

Lemma ring_write {A} w (l : list A) x : w < length l → <[w := x]> (ring w l) = ring (S w) (tail l ++ [x]).
Proof.
  intros Hw. destruct l as [|y l]; [simpl in Hw; lia|]. unfold ring. rewrite length_app. cbn [tail length] in *.
  replace (S (length l) - w) with (S (length l - w)) by lia. replace (length l + 1 - S w) with (length l - w) by lia.
  cbn [drop take]. rewrite drop_app_le, take_app_le, <- app_assoc by lia. cbn [app].
  replace w with (length (drop (length l - w) l) + 0) at 1 by (rewrite length_drop; lia).
  by rewrite insert_app_r.
Qed.

Lemma ring_0 {A} (l : list A) : ring 0 l = l.
Proof. unfold ring. by rewrite Nat.sub_0_r, drop_all, firstn_all. Qed.

Lemma ring_wrap {A} (l : list A) : ring (length l) l = ring 0 l.
Proof. unfold ring. rewrite Nat.sub_diag, Nat.sub_0_r, drop_0, take_0, app_nil_r, drop_all, firstn_all. done. Qed.

Lemma list_filter_all {A} (P : A → Prop) `{!∀ x, Decision (P x)} (l : list A) :
  (∀ x, x ∈ l → P x) → filter P l = l.
Proof.
  induction l as [|x l IH]; intros Hall; [done|].
  rewrite filter_cons_True by (apply Hall; left). f_equal. apply IH. intros. apply Hall. by right.
Qed.

(** Case analysis on membership in a cons cell, for the loops over key lists. *)
Lemma decide_elem_of_cons {K A} `{EqDecision K} (k x : K) (l : list K) (a b : A) :
  (if decide (k ∈ x :: l) then a else b) =
  (if decide (k = x) then a else if decide (k ∈ l) then a else b).
Proof. repeat case_decide; set_solver. Qed.

(** A decidable goal about concrete values, by computation. *)
Ltac by_decision := apply (bool_decide_unpack _); vm_compute; exact I.

(** * Strings *)

Lemma append_assoc (a b c : string) : a +:+ (b +:+ c) = (a +:+ b) +:+ c.
Proof. induction a as [|x a IH]; [done|]. exact (f_equal (String x) IH). Qed.
Lemma append_inj_l (a b c : string) : (a +:+ b = a +:+ c)%string → b = c.
Proof. induction a as [|x a IH]; [done|]. intros [= E]. by apply IH. Qed.
Lemma append_inj_r (a b c : string) : (a +:+ c = b +:+ c)%string → a = b.
Proof.
  intros E. apply (f_equal String.list_ascii_of_string) in E. assert (∀ x y, String.list_ascii_of_string (x +:+ y) = String.list_ascii_of_string x ++ String.list_ascii_of_string y) as Happ.
  { intros x y. induction x as [|u x IH]; [done|]. exact (f_equal (cons u) IH). }
  rewrite !Happ in E. apply app_inj_2 in E as [E _]; [|done]. rewrite <- (String.string_of_list_ascii_of_string a), E. apply String.string_of_list_ascii_of_string.
Qed.
Lemma append_empty (a : string) : a +:+ "" = a.
Proof. induction a as [|x a IH]; [done|]. exact (f_equal (String x) IH). Qed.

(** [strings.Join(l, "")]. *)
Definition join (l : list string) : string := foldr String.append ""%string l.

Lemma join_app l k : join (l ++ k) = join l +:+ join k.
Proof. induction l as [|x l IH]; [done|]. change (x +:+ join (l ++ k) = (x +:+ join l) +:+ join k). rewrite IH. apply append_assoc. Qed.
