(* ===== verification/Sums.v ===== *)
(** Sums of integers over lists, and how updates of the list change them. *)

From S2P Require Import Prelude.
Open Scope nat_scope.

Definition sumZ (l : list Z) : Z := foldr Z.add 0%Z l.

Lemma sumZ_nonneg l : (∀ x, x ∈ l → 0 ≤ x)%Z → (0 ≤ sumZ l)%Z.
Proof.
  induction l as [|x l IH]; intros H; cbn; [lia|]. pose proof (H x ltac:(left)). pose proof (IH ltac:(intros; apply H; by right)). unfold sumZ in *. lia.
Qed.

Definition total {A} (F : A → Z) (l : list A) : Z := sumZ (F <$> l).

Lemma total_cons {A} (F : A → Z) x l : total F (x :: l) = (F x + total F l)%Z.
Proof. done. Qed.

Lemma total_app {A} (F : A → Z) l k : total F (l ++ k) = (total F l + total F k)%Z.
Proof. induction l as [|x l IH]; [done|]. cbn [app]. rewrite !total_cons, IH. lia. Qed.

Lemma total_ext {A} (F G : A → Z) l : (∀ x, x ∈ l → F x = G x) → total F l = total G l.
Proof.
  induction l as [|x l IH]; intros H; [done|]. rewrite !total_cons, (H x ltac:(left)), IH; [done|]. intros. apply H. by right.
Qed.

Lemma total_fmap {A B} (F : B → Z) (g : A → B) l : total F (g <$> l) = total (λ x, F (g x)) l.
Proof. unfold total. by rewrite <- list_fmap_compose. Qed.

Lemma total_alter {A} (F : A → Z) (g : A → A) (l : list A) i x :
  l !! i = Some x → total F (alter g i l) = (total F l + (F (g x) - F x))%Z.
Proof.
  revert i. induction l as [|y l IH]; intros [|i] H; [done..| |]; cbn in H.
  - injection H as ->. change (alter g 0 (x :: l)) with (g x :: l). rewrite !total_cons. lia.
  - change (alter g (S i) (y :: l)) with (y :: alter g i l). rewrite !total_cons, (IH i) by done. lia.
Qed.

Lemma total_insert {A} (F : A → Z) (l : list A) i x y :
  l !! i = Some x → total F (<[i := y]> l) = (total F l + (F y - F x))%Z.
Proof.
  intros H. replace (<[i := y]> l) with (alter (λ _, y) i l); [by apply (total_alter F (λ _, y))|].
  revert i H. induction l as [|z l IH]; intros [|i] H; [done..|]. change (z :: alter (λ _, y) i l = z :: <[i := y]> l). f_equal. by apply IH.
Qed.

Lemma total_nonneg {A} (F : A → Z) l : (∀ x, x ∈ l → 0 ≤ F x)%Z → (0 ≤ total F l)%Z.
Proof.
  induction l as [|x l IH]; intros H; [done|]. rewrite total_cons. pose proof (H x ltac:(left)). pose proof (IH ltac:(intros; apply H; by right)). lia.
Qed.

(** Updates at distinct indices. *)
Lemma alter_all_lookup {A} (g : A → A) (idx : list nat) (l : list A) j :
  NoDup idx → foldl (λ l i, alter g i l) l idx !! j = if decide (j ∈ idx) then g <$> l !! j else l !! j.
Proof.
  revert l. induction idx as [|i idx IH]; intros l Hnd; [cbn; by rewrite decide_False by apply not_elem_of_nil|].
  apply NoDup_cons in Hnd as [Hi Hnd]. cbn [foldl]. rewrite IH by done. destruct (decide (j = i)) as [->|Hne].
  - rewrite decide_False by done. rewrite list_lookup_alter_eq. by rewrite decide_True by left.
  - rewrite list_lookup_alter_ne by done. repeat case_decide; set_solver.
Qed.

Lemma alter_all_length {A} (g : A → A) (idx : list nat) (l : list A) : length (foldl (λ l i, alter g i l) l idx) = length l.
Proof. revert l. induction idx as [|i idx IH]; intros l; [done|]. cbn [foldl]. rewrite IH. apply length_alter. Qed.

(** What distinct updates add to a sum. *)
Lemma total_alter_all {A} (F : A → Z) (g : A → A) (idx : list nat) (l : list A) :
  NoDup idx → (∀ i, i ∈ idx → i < length l) →
  total F (foldl (λ l i, alter g i l) l idx) =
  (total F l + total (λ i, match l !! i with Some x => F (g x) - F x | None => 0 end) idx)%Z.
Proof.
  revert l. induction idx as [|i idx IH]; intros l Hnd Hlt; [symmetry; apply Z.add_0_r|]. apply NoDup_cons in Hnd as [Hi Hnd]. cbn [foldl].
  destruct (lookup_lt_is_Some_2 l i) as [x Hx]; [apply Hlt; left|].
  rewrite IH; [|done|intros j Hj; rewrite length_alter; apply Hlt; by right]. rewrite (total_alter F g l i x) by done.
  rewrite total_cons, Hx. rewrite (total_ext _ (λ j, match l !! j with Some x => (F (g x) - F x)%Z | None => 0%Z end) idx); [lia|].
  intros j Hj. rewrite list_lookup_alter_ne; [done|]. intros ->. done.
Qed.

Lemma total_le {A} (F G : A → Z) l : (∀ x, x ∈ l → F x ≤ G x)%Z → (total F l ≤ total G l)%Z.
Proof.
  induction l as [|x l IH]; intros H; [done|]. rewrite !total_cons. pose proof (H x ltac:(left)). pose proof (IH ltac:(intros; apply H; by right)). lia.
Qed.

Lemma total_elem_le {A} (F : A → Z) l x : (∀ y, y ∈ l → 0 ≤ F y)%Z → x ∈ l → (F x ≤ total F l)%Z.
Proof.
  induction l as [|y l IH]; intros H Hx; [by apply not_elem_of_nil in Hx|]. rewrite total_cons. pose proof (H y ltac:(left)) as Hy.
  assert (∀ z, z ∈ l → 0 ≤ F z)%Z as Hl by (intros; apply H; by right). pose proof (total_nonneg F l Hl).
  apply elem_of_cons in Hx as [->|Hx]; [lia|]. pose proof (IH Hl Hx). lia.
Qed.

Lemma total_zero {A} (F : A → Z) l : (∀ x, x ∈ l → F x = 0%Z) → total F l = 0%Z.
Proof. induction l as [|x l IH]; intros H; [done|]. rewrite total_cons, (H x ltac:(left)), IH; [done|]. intros. apply H. by right. Qed.

Lemma total_add {A} (F G : A → Z) l : total (λ x, F x + G x)%Z l = (total F l + total G l)%Z.
Proof. induction l as [|x l IH]; [done|]. rewrite !total_cons, IH. lia. Qed.

(** One point of a function changed. *)
Lemma total_point {A} `{EqDecision A} (b : Z) l (a : A) :
  NoDup l → total (λ x, if decide (x = a) then b else 0%Z) l = if decide (a ∈ l) then b else 0%Z.
Proof.
  induction 1 as [|x l Hx Hnd IH]; [by rewrite decide_False by apply not_elem_of_nil|]. rewrite total_cons, IH.
  destruct (decide (x = a)) as [->|Hne]; [rewrite decide_False, decide_True by (done || left); lia|].
  destruct (decide (a ∈ l)); [rewrite decide_True by (by right); lia|]. rewrite decide_False; [lia|]. by intros [->|?]%elem_of_cons.
Qed.

(** The sum over the indices of a list. *)
Lemma total_seq_shift (F : nat → Z) a n : total F (seq (S a) n) = total (λ i, F (S i)) (seq a n).
Proof. revert a. induction n as [|n IH]; intros a; [done|]. cbn [seq]. by rewrite !total_cons, IH. Qed.

Lemma total_lookup (l : list Z) : total (λ i, l !!! i) (seq 0 (length l)) = sumZ l.
Proof. induction l as [|x l IH]; [done|]. cbn [length seq]. rewrite total_cons, total_seq_shift. change (sumZ (x :: l)) with (x + sumZ l)%Z. by rewrite <- IH. Qed.

(** Sums of sums do not depend on the order. *)
Lemma total_swap {A B} (F : A → B → Z) l k : total (λ x, total (F x) k) l = total (λ y, total (λ x, F x y) l) k.
Proof.
  induction l as [|x l IH]; [symmetry; by apply total_zero|]. rewrite total_cons, IH, <- total_add. by apply total_ext.
Qed.

Lemma total_bounded {A} (F : A → Z) (c : Z) l : (∀ x, x ∈ l → 0 ≤ F x ≤ c)%Z → (0 ≤ total F l ≤ Z.of_nat (length l) * c)%Z.
Proof.
  induction l as [|x l IH]; intros H; [cbn; lia|]. rewrite total_cons. cbn [length]. pose proof (IH ltac:(intros; apply H; by right)).
  pose proof (H x ltac:(left)). lia.
Qed.

Lemma total_pos {A} (F : A → Z) l : (0 < total F l)%Z → ∃ x, x ∈ l ∧ (0 < F x)%Z.
Proof.
  induction l as [|x l IH]; [done|]. rewrite total_cons. intros H. destruct (decide (0 < F x)%Z); [exists x; split; [left|done]|].
  destruct IH as (y & Hy & Hp); [lia|]. exists y. split; [by right|done].
Qed.

(** A sum does not depend on the order. *)
#[global] Instance total_perm {A} (F : A → Z) : Proper ((≡ₚ) ==> (=)) (total F).
Proof. induction 1 as [|x l k _ IH|x y l|l k j _ IH1 _ IH2]; [done| | |congruence]; rewrite ?total_cons; lia. Qed.
