(* ===== verification/GoFloat.v ===== *)
(** Go's [float64]: IEEE-754 binary64, round to nearest even, computed on the
    kernel-reducible [spec_float] of the Standard Library.  Every operation the
    simulator uses on floats is here: arithmetic, comparison, conversion from
    and to integers, [math.Max], [math.RoundToEven].  (The Go compiler may fuse
    a multiply with an add on some architectures; the model rounds after each
    operation, as it does on amd64.) *)

From Stdlib Require Import Floats.SpecFloat.
From S2P Require Import Prelude.

Definition f64 : Type := spec_float.
Definition f64_prec : Z := 53.
Definition f64_emax : Z := 1024.

Definition fadd (x y : f64) : f64 := SFadd f64_prec f64_emax x y.
Definition fsub (x y : f64) : f64 := SFsub f64_prec f64_emax x y.
Definition fmul (x y : f64) : f64 := SFmul f64_prec f64_emax x y.
Definition fdiv (x y : f64) : f64 := SFdiv f64_prec f64_emax x y.
Definition flt (x y : f64) : bool := SFltb x y.
Definition fle (x y : f64) : bool := SFleb x y.
Definition feq (x y : f64) : bool := SFeqb x y.

(** [float64(z)]: the nearest double. *)
Definition f_of_Z (z : Z) : f64 := binary_normalize f64_prec f64_emax z 0 false.
(** A decimal constant [n / d] with [n], [d] exactly representable: the nearest double. *)
Definition f_const (n d : Z) : f64 := fdiv (f_of_Z n) (f_of_Z d).
Definition f_zero : f64 := S754_zero false.
#[global] Instance f64_inhabited : Inhabited f64 := populate f_zero.
Definition f_inf : f64 := S754_infinity false.
Definition f_neg_inf : f64 := S754_infinity true.

(** The integer part, truncated toward zero, of a finite double.  Out of the
    [int64] range and for infinities and NaN the conversion [int64(x)] is
    implementation specific in Go; [None] marks it. *)
Definition f_trunc (x : f64) : option Z :=
  match x with
  | S754_zero _ => Some 0%Z
  | S754_finite s m e =>
      let a := (if (0 <=? e)%Z then Z.shiftl (Z.pos m) e else Z.shiftr (Z.pos m) (- e))%Z in
      let v := (if s then - a else a)%Z in
      if ((- 2 ^ 63 <=? v) && (v <? 2 ^ 63))%Z then Some v else None
  | _ => None
  end.

(** [math.Max]: +Inf and NaN take precedence, and [max(-0,+0) = +0]. *)
Definition f_is_nan (x : f64) : bool := match x with S754_nan => true | _ => false end.
Definition f_max (x y : f64) : f64 :=
  match x, y with
  | S754_infinity false, _ | _, S754_infinity false => f_inf
  | S754_nan, _ | _, S754_nan => S754_nan
  | S754_zero sx, S754_zero sy => if sx then y else x
  | _, _ => if flt y x then x else y
  end.

(** [math.RoundToEven] of a nonnegative or negative finite double. *)
Definition f_round_even (x : f64) : f64 :=
  match x with
  | S754_finite s m e =>
      if (0 <=? e)%Z then x
      else
        let d := (2 ^ (- e))%Z in
        let q := (Z.pos m / d)%Z in
        let r := (Z.pos m mod d)%Z in
        let up := ((d <? 2 * r) || ((2 * r =? d) && Z.odd q))%Z in
        let a := (if up then q + 1 else q)%Z in
        if (a =? 0)%Z then S754_zero s
        else binary_normalize f64_prec f64_emax (if s then - a else a)%Z 0 s
  | _ => x
  end.

(** [math.Round]: halves away from zero. *)
Definition f_round (x : f64) : f64 :=
  match x with
  | S754_finite s m e =>
      if (0 <=? e)%Z then x
      else
        let d := (2 ^ (- e))%Z in
        let q := (Z.pos m / d)%Z in
        let r := (Z.pos m mod d)%Z in
        let a := (if (d <=? 2 * r)%Z then q + 1 else q)%Z in
        if (a =? 0)%Z then S754_zero s
        else binary_normalize f64_prec f64_emax (if s then - a else a)%Z 0 s
  | _ => x
  end.

(** [math.Ceil]. *)
Definition f_ceil (x : f64) : f64 :=
  match x with
  | S754_finite s m e =>
      if (0 <=? e)%Z then x
      else
        let d := (2 ^ (- e))%Z in
        let q := (Z.pos m / d)%Z in
        let r := (Z.pos m mod d)%Z in
        let a := (if s then q else if (r =? 0)%Z then q else q + 1)%Z in
        if (a =? 0)%Z then S754_zero s
        else binary_normalize f64_prec f64_emax (if s then - a else a)%Z 0 s
  | _ => x
  end.

(** Negation: the sign bit is flipped. *)
Definition f_opp (x : f64) : f64 := SFopp x.
(** [math.Abs]. *)
Definition f_abs (x : f64) : f64 := SFabs x.

(** [int(x)] and [time.Duration(x)]; out of range the value is that of amd64. *)
Definition f_to_int (x : f64) : Z := default (- 2 ^ 63)%Z (f_trunc x).

Example f_round_half : f_round (f_const 5 2) = f_of_Z 3.
Proof. reflexivity. Qed.
Example f_ceil_half : f_ceil (f_const 5 2) = f_of_Z 3.
Proof. reflexivity. Qed.
Example f_const_03 : f_const 3 10 = S754_finite false 5404319552844595 (-54).
Proof. reflexivity. Qed.
Example f_round_even_half : f_round_even (f_const 5 2) = f_of_Z 2.
Proof. reflexivity. Qed.
