(* ===== verification/GoFloatInt.v ===== *)
(** Exact integers in [float64]: on the naturals below 2^53 the conversion, the
    sum, the difference, the comparisons, [math.Round] and the conversion back
    are those of the integers.  The token counts of the MoE trace replay are
    such numbers. *)

From Stdlib Require Import Floats.SpecFloat.
From S2P Require Import Prelude GoFloat.
Open Scope Z_scope.

(** * Digits and shifts *)

Lemma digits2_log2 p : Z.pos (digits2_pos p) = Z.log2 (Z.pos p) + 1.
Proof.
  induction p as [p IH|p IH|]; [| |reflexivity]; simpl digits2_pos; rewrite Pos2Z.inj_succ, IH.
  - rewrite Pos2Z.inj_xI, Z.log2_succ_double by lia. lia.
  - rewrite Pos2Z.inj_xO, Z.log2_double by lia. lia.
Qed.

Lemma iter_xO p d : Z.pos (Pos.iter xO p d) = Z.pos p * 2 ^ Z.pos d.
Proof.
  induction d as [|d IH] using Pos.peano_ind; [simpl Pos.iter; lia|].
  rewrite Pos.iter_succ, Pos2Z.inj_xO, IH, Pos2Z.inj_succ, Z.pow_succ_r by lia. lia.
Qed.

(** [shl_align] to a smaller exponent multiplies the mantissa. *)
Lemma shl_align_lower m e e' : e' ≤ e → Z.pos (shl_align m e e').1 = Z.pos m * 2 ^ (e - e').
Proof.
  intros He. unfold shl_align. destruct (e' - e) eqn:E; cbn [fst].
  - replace (e - e') with 0 by lia. lia.
  - lia.
  - rewrite iter_xO. do 2 f_equal. lia.
Qed.

Lemma shr_1_double x : 0 < x → shr_1 (Build_shr_record (2 * x) false false) = Build_shr_record x false false.
Proof. by destruct x. Qed.

Lemma iter_pos_iter {A} (f : A → A) n x : SpecFloat.iter_pos f n x = Pos.iter f x n.
Proof.
  revert x. induction n as [n IH|n IH|]; intros x; simpl; [|by rewrite !IH|done].
  rewrite !IH. by rewrite <- !Pos.iter_swap.
Qed.

(** Shifting out zeros is exact. *)
Lemma shr_exact x p :
  0 < x → SpecFloat.iter_pos shr_1 p (Build_shr_record (x * 2 ^ Z.pos p) false false) = Build_shr_record x false false.
Proof.
  intros Hx. rewrite iter_pos_iter. revert x Hx. induction p as [|p IH] using Pos.peano_ind; intros x Hx.
  - change (2 ^ 1) with 2. rewrite Z.mul_comm. by apply shr_1_double.
  - rewrite Pos.iter_succ, Pos2Z.inj_succ, Z.pow_succ_r by lia.
    replace (x * (2 * 2 ^ Z.pos p)) with (2 * x * 2 ^ Z.pos p) by lia. rewrite IH by lia. by apply shr_1_double.
Qed.

(** * The canonical double of an integer *)

(** The 53-bit mantissa of [n] and its exponent. *)
Definition int_mantissa (n : Z) : Z := n * 2 ^ (52 - Z.log2 n).
Definition int_exponent (n : Z) : Z := Z.log2 n - 52.

(** The integers a double counts exactly. *)
Definition ExactInt (n : Z) : Prop := 0 ≤ n < 2 ^ 53.

Lemma log2_exact n : 0 < n < 2 ^ 53 → 0 ≤ Z.log2 n ≤ 52.
Proof.
  intros H. split; [apply Z.log2_nonneg|]. assert (Z.log2 n < 53); [apply Z.log2_lt_pow2; lia|lia].
Qed.

Lemma int_mantissa_pos n : 0 < n < 2 ^ 53 → 0 < int_mantissa n.
Proof. intros H. unfold int_mantissa. pose proof (log2_exact n H). nia. Qed.

Lemma log2_scaled n k : 0 < n → 0 ≤ k → Z.log2 (n * 2 ^ k) = Z.log2 n + k.
Proof. intros. rewrite Z.log2_mul_pow2; lia. Qed.

Lemma shr_fexp_canonical n : 0 < n < 2 ^ 53 →
  shr_fexp f64_prec f64_emax (int_mantissa n) (int_exponent n) loc_Exact =
  (Build_shr_record (int_mantissa n) false false, int_exponent n).
Proof.
  intros H. pose proof (log2_exact n H). pose proof (int_mantissa_pos n H) as Hm. unfold shr_fexp.
  assert (Z.log2 (int_mantissa n) = 52) as Hd by (unfold int_mantissa; rewrite log2_scaled by lia; lia).
  destruct (int_mantissa n) as [|p|p] eqn:E; [lia| |lia]. cbn [Zdigits2]. rewrite digits2_log2, Hd. unfold fexp, emin, f64_prec, f64_emax, int_exponent.
  match goal with |- shr _ _ ?z = _ => replace z with 0 by lia end. done.
Qed.

Lemma round_aux_canonical n m e : 0 < n < 2 ^ 53 →
  shr_fexp f64_prec f64_emax m e loc_Exact = (Build_shr_record (int_mantissa n) false false, int_exponent n) →
  binary_round_aux f64_prec f64_emax false m e loc_Exact = S754_finite false (Z.to_pos (int_mantissa n)) (int_exponent n).
Proof.
  intros H E. unfold binary_round_aux. rewrite E. cbn [shr_m loc_of_shr_record round_nearest_even].
  rewrite shr_fexp_canonical by done. cbn [shr_m]. pose proof (int_mantissa_pos n H). pose proof (log2_exact n H).
  destruct (int_mantissa n) as [|p|p] eqn:Em; [lia| |lia].
  destruct (Z.leb_spec (int_exponent n) (f64_emax - f64_prec)) as [|Hbad]; [done|].
  unfold int_exponent, f64_emax, f64_prec in Hbad. lia.
Qed.

(** An integer scaled by any power of two rounds to its canonical double. *)
Lemma round_scaled n k : 0 < n < 2 ^ 53 → 0 ≤ k →
  binary_normalize f64_prec f64_emax (n * 2 ^ k) (- k) false =
  S754_finite false (Z.to_pos (int_mantissa n)) (int_exponent n).
Proof.
  intros H Hk. pose proof (log2_exact n H) as Hl.
  destruct (n * 2 ^ k) as [|p|p] eqn:E; [nia| |nia]. cbn [binary_normalize]. unfold binary_round.
  assert (fexp f64_prec f64_emax (Z.pos (digits2_pos p) + - k) = int_exponent n) as He.
  { rewrite digits2_log2, <- E, log2_scaled by lia. unfold fexp, emin, f64_prec, f64_emax, int_exponent. lia. }
  rewrite He. destruct (shl_align p (- k) (int_exponent n)) as [mz ez] eqn:Ea.
  apply round_aux_canonical; [done|]. destruct (Z.lt_ge_cases (int_exponent n) (- k)) as [Hlt|Hge].
  - pose proof (shl_align_lower p (- k) (int_exponent n) ltac:(lia)) as Hm. rewrite Ea in Hm. cbn [fst] in Hm.
    assert (ez = int_exponent n) as ->.
    { unfold shl_align in Ea. destruct (int_exponent n - - k) eqn:Ed; [lia|lia|congruence]. }
    rewrite Hm, <- E. replace (n * 2 ^ k * 2 ^ (- k - int_exponent n)) with (int_mantissa n); [by apply shr_fexp_canonical|].
    unfold int_mantissa. rewrite <- Z.mul_assoc, <- Z.pow_add_r by (unfold int_exponent in *; lia). do 2 f_equal.
    unfold int_exponent. lia.
  - assert (mz = p ∧ ez = - k) as [-> ->].
    { unfold shl_align in Ea. destruct (int_exponent n - - k) eqn:Ed; [|injection Ea as <- <-; done|lia]. by injection Ea as <- <-. }
    unfold shr_fexp. cbn [Zdigits2]. rewrite He, <- E. cbn [shr_record_of_loc]. unfold shr.
    destruct (int_exponent n - - k) as [|j|j] eqn:Ej; [| |lia].
    + f_equal; [|lia]. f_equal. unfold int_mantissa. do 2 f_equal. unfold int_exponent in Ej. lia.
    + replace (n * 2 ^ k) with (int_mantissa n * 2 ^ Z.pos j).
      * rewrite shr_exact by by apply int_mantissa_pos. f_equal. lia.
      * unfold int_mantissa. rewrite <- Z.mul_assoc, <- Z.pow_add_r by lia. do 2 f_equal. unfold int_exponent in Ej. lia.
Qed.

Lemma f_of_Z_canonical n : 0 < n < 2 ^ 53 →
  f_of_Z n = S754_finite false (Z.to_pos (int_mantissa n)) (int_exponent n).
Proof. intros H. rewrite <- (round_scaled n 0) by lia. unfold f_of_Z. by rewrite Z.mul_1_r. Qed.

(** A count is not below zero, however it is rounded. *)
Lemma f_of_Z_not_negative n : 0 ≤ n → flt (f_of_Z n) f_zero = false.
Proof.
  intros Hn. unfold f_of_Z, binary_normalize. destruct n as [|p|p]; [done| |lia]. unfold binary_round. destruct (shl_align _ _ _) as [mz ez].
  unfold binary_round_aux. destruct (shr_fexp _ _ _ _ _) as [r1 e1]. destruct (shr_fexp _ _ _ _ _) as [r2 e2].
  destruct (shr_m r2); [done| |done]. by destruct (_ <=? _).
Qed.

Lemma f_of_Z_0 : f_of_Z 0 = f_zero.
Proof. done. Qed.

(** * Arithmetic *)

(** The aligned mantissas of two integers. *)
Lemma aligned_mantissa n e : 0 < n < 2 ^ 53 → e ≤ int_exponent n →
  Z.pos (shl_align (Z.to_pos (int_mantissa n)) (int_exponent n) e).1 = n * 2 ^ (- e).
Proof.
  intros H He. rewrite shl_align_lower, Z2Pos.id by (done || by apply int_mantissa_pos).
  pose proof (log2_exact n H). unfold int_mantissa. rewrite <- Z.mul_assoc, <- Z.pow_add_r by (unfold int_exponent in *; lia).
  do 2 f_equal. unfold int_exponent. lia.
Qed.

Lemma fadd_int a b : 0 ≤ a → 0 ≤ b → a + b < 2 ^ 53 → fadd (f_of_Z a) (f_of_Z b) = f_of_Z (a + b).
Proof.
  intros Ha Hb Hs. destruct (decide (a = 0)) as [->|]; [|destruct (decide (b = 0)) as [->|]].
  - rewrite Z.add_0_l, f_of_Z_0. destruct (decide (b = 0)) as [->|]; [done|]. by rewrite f_of_Z_canonical by lia.
  - rewrite Z.add_0_r, f_of_Z_0, f_of_Z_canonical by lia. done.
  - rewrite (f_of_Z_canonical a), (f_of_Z_canonical b), (f_of_Z_canonical (a + b)) by lia. unfold fadd, SFadd.
    rewrite !aligned_mantissa by lia. cbn [cond_Zopp]. rewrite <- Z.mul_add_distr_r.
    rewrite <- (Z.opp_involutive (Z.min _ _)) at 2. apply round_scaled; [lia|].
    pose proof (log2_exact a ltac:(lia)). unfold int_exponent. lia.
Qed.

Lemma fsub_int a b : 0 ≤ b ≤ a → a < 2 ^ 53 → fsub (f_of_Z a) (f_of_Z b) = f_of_Z (a - b).
Proof.
  intros Hb Ha. destruct (decide (b = 0)) as [->|]; [|destruct (decide (a = b)) as [->|]].
  - rewrite Z.sub_0_r, f_of_Z_0. destruct (decide (a = 0)) as [->|]; [done|]. by rewrite f_of_Z_canonical by lia.
  - rewrite Z.sub_diag, (f_of_Z_canonical b) by lia. unfold fsub, SFsub. by rewrite Z.sub_diag.
  - rewrite (f_of_Z_canonical a), (f_of_Z_canonical b), (f_of_Z_canonical (a - b)) by lia. unfold fsub, SFsub.
    rewrite !aligned_mantissa by lia. cbn [cond_Zopp]. rewrite <- Z.mul_sub_distr_r.
    rewrite <- (Z.opp_involutive (Z.min _ _)) at 2. apply round_scaled; [lia|].
    pose proof (log2_exact a ltac:(lia)). unfold int_exponent. lia.
Qed.

(** * Comparisons *)

Lemma SFcompare_int a b : ExactInt a → ExactInt b → SFcompare (f_of_Z a) (f_of_Z b) = Some (a ?= b).
Proof.
  unfold ExactInt. intros Ha Hb. destruct (decide (a = 0)) as [->|]; destruct (decide (b = 0)) as [->|]; [done| | |].
  - rewrite (f_of_Z_canonical b) by lia. cbn [SFcompare f_of_Z binary_normalize]. f_equal. symmetry. apply Z.compare_lt_iff. lia.
  - rewrite (f_of_Z_canonical a) by lia. cbn [SFcompare f_of_Z binary_normalize]. f_equal. symmetry. apply Z.compare_gt_iff. lia.
  - rewrite (f_of_Z_canonical a), (f_of_Z_canonical b) by lia. cbn [SFcompare]. f_equal.
    pose proof (log2_exact a ltac:(lia)). pose proof (log2_exact b ltac:(lia)).
    pose proof (Z.log2_spec a ltac:(lia)) as [La Ua]. pose proof (Z.log2_spec b ltac:(lia)) as [Lb Ub].
    destruct (int_exponent a ?= int_exponent b) eqn:E; unfold int_exponent in E.
    + apply Z.compare_eq in E. change (Pos.compare_cont Eq ?x ?y) with (Pos.compare x y).
      rewrite Pos2Z.inj_compare, !Z2Pos.id by (apply int_mantissa_pos; lia).
      unfold int_mantissa. replace (Z.log2 b) with (Z.log2 a) by lia. symmetry. apply Zmult_compare_compat_r. lia.
    + rewrite Z.compare_lt_iff in E. symmetry. apply Z.compare_lt_iff.
      eapply Z.lt_le_trans; [exact Ua|]. etrans; [|exact Lb]. apply Z.pow_le_mono_r; lia.
    + rewrite Z.compare_gt_iff in E. symmetry. apply Z.compare_gt_iff.
      eapply Z.lt_le_trans; [exact Ub|]. etrans; [|exact La]. apply Z.pow_le_mono_r; lia.
Qed.

Lemma flt_int a b : ExactInt a → ExactInt b → flt (f_of_Z a) (f_of_Z b) = (a <? b).
Proof. intros Ha Hb. unfold flt, SFltb. rewrite SFcompare_int by done. unfold Z.ltb. by destruct (a ?= b). Qed.

Lemma fle_int a b : ExactInt a → ExactInt b → fle (f_of_Z a) (f_of_Z b) = (a <=? b).
Proof. intros Ha Hb. unfold fle, SFleb. rewrite SFcompare_int by done. unfold Z.leb. by destruct (a ?= b). Qed.

(** * Rounding and conversion back *)

Lemma int_mantissa_split n : 0 < n < 2 ^ 53 →
  (int_exponent n = 0 ∧ int_mantissa n = n) ∨
  (int_exponent n < 0 ∧ int_mantissa n = n * 2 ^ (- int_exponent n)).
Proof.
  intros H. pose proof (log2_exact n H). unfold int_exponent, int_mantissa.
  destruct (decide (Z.log2 n = 52)) as [->|]; [left; split; [done|lia]|right]. split; [lia|]. do 2 f_equal. lia.
Qed.

Lemma f_round_int n : ExactInt n → f_round (f_of_Z n) = f_of_Z n.
Proof.
  unfold ExactInt. intros H. destruct (decide (n = 0)) as [->|]; [done|]. assert (0 < n < 2 ^ 53) as Hn by lia.
  rewrite (f_of_Z_canonical n) at 1 by done. unfold f_round. pose proof (int_mantissa_pos n Hn).
  destruct (int_mantissa_split n Hn) as [[He Em]|[He Em]].
  - destruct (Z.leb_spec 0 (int_exponent n)); [by rewrite f_of_Z_canonical|lia].
  - destruct (Z.leb_spec 0 (int_exponent n)); [lia|]. rewrite Z2Pos.id by done.
    set (d := 2 ^ (- int_exponent n)). assert (0 < d) by (apply Z.pow_pos_nonneg; lia).
    rewrite Em. fold d. rewrite Z.div_mul, Z_mod_mult by lia.
    destruct (Z.leb_spec d (2 * 0)); [lia|]. destruct (Z.eqb_spec n 0); [lia|]. done.
Qed.

Lemma f_to_int_int n : ExactInt n → f_to_int (f_of_Z n) = n.
Proof.
  unfold ExactInt. intros H. destruct (decide (n = 0)) as [->|]; [done|]. assert (0 < n < 2 ^ 53) as Hn by lia.
  rewrite (f_of_Z_canonical n) by done. unfold f_to_int, f_trunc. rewrite Z2Pos.id by by apply int_mantissa_pos.
  assert ((if 0 <=? int_exponent n then Z.shiftl (int_mantissa n) (int_exponent n)
           else Z.shiftr (int_mantissa n) (- int_exponent n)) = n) as ->.
  { destruct (int_mantissa_split n Hn) as [[-> ->]|[He ->]]; [by rewrite Z.shiftl_0_r|].
    destruct (Z.leb_spec 0 (int_exponent n)); [lia|]. rewrite Z.shiftr_div_pow2 by lia.
    apply Z.div_mul. apply Z.pow_nonzero; lia. }
  destruct (Z.leb_spec (- 2 ^ 63) n); [|lia]. destruct (Z.ltb_spec n (2 ^ 63)); [done|lia].
Qed.

Lemma f_of_Z_inj a b : ExactInt a → ExactInt b → f_of_Z a = f_of_Z b → a = b.
Proof. intros Ha Hb E. by rewrite <- (f_to_int_int a), E, f_to_int_int. Qed.

(** The distance of an integer from its rounding is zero. *)
Lemma rounding_gap n : ExactInt n → flt (f_abs (fsub (f_of_Z n) (f_round (f_of_Z n)))) (f_const 1 (10 ^ 9)) = true.
Proof. intros H. rewrite f_round_int, fsub_int, Z.sub_diag by (done || unfold ExactInt in H; lia). vm_compute. reflexivity. Qed.

(** Sums of integers. *)
Lemma foldl_fadd_int (l : list Z) a :
  0 ≤ a → (∀ x, x ∈ l → 0 ≤ x) → a + foldr Z.add 0 l < 2 ^ 53 →
  foldl fadd (f_of_Z a) (f_of_Z <$> l) = f_of_Z (a + foldr Z.add 0 l).
Proof.
  revert a. induction l as [|x l IH]; intros a Ha Hl Hs; simpl in *; [by rewrite Z.add_0_r|].
  assert (0 ≤ foldr Z.add 0 l).
  { clear IH Hs. assert (∀ y, y ∈ l → 0 ≤ y) as H by (intros; apply Hl; by right). clear Hl.
    induction l as [|y l IH]; simpl; [lia|]. pose proof (H y ltac:(left)). pose proof (IH ltac:(intros; apply H; by right)). lia. }
  pose proof (Hl x ltac:(left)). rewrite fadd_int by lia. rewrite IH; [f_equal; lia|lia| |lia]. intros. apply Hl. by right.
Qed.
