(* ===== verification/GoFloatOrder.v ===== *)
(** Order and rounding of doubles that are not exact integers. *)

From Stdlib Require Import Floats.SpecFloat.
From S2P Require Import Prelude GoFloat GoFloatInt.
Open Scope Z_scope.

Lemma SFcompare_swap x y : SFcompare y x = CompOpp <$> SFcompare x y.
Proof.
  destruct x as [sx|sx| |sx mx ex], y as [sy|sy| |sy my ey]; try (by destruct sx, sy); try (by destruct sx); try (by destruct sy); try done.
  unfold SFcompare. destruct sx, sy; try done; rewrite (Z.compare_antisym ex ey); destruct (ex ?= ey) eqn:E; cbn; try done;
    change (Pos.compare_cont Eq mx my) with (Pos.compare mx my); change (Pos.compare_cont Eq my mx) with (Pos.compare my mx); rewrite (Pos.compare_antisym mx my); by destruct (mx ?= my)%positive.
Qed.

(** Comparisons with numbers are total. *)
Lemma SFcompare_total x y : f_is_nan x = false → f_is_nan y = false → is_Some (SFcompare x y).
Proof. destruct x as [sx|sx| |sx mx ex], y as [sy|sy| |sy my ey]; intros; try done; cbn; repeat case_match; eauto. Qed.

Lemma not_flt_fle x y : f_is_nan x = false → f_is_nan y = false → flt x y = false → fle y x = true.
Proof.
  intros Hx Hy H. unfold flt, fle, SFltb, SFleb in *. rewrite SFcompare_swap. destruct (SFcompare_total x y Hx Hy) as [c Hc]. rewrite Hc in *. by destruct c.
Qed.

(** A double as the hardware represents it. *)
Definition Representable (x : f64) : Prop := valid_binary f64_prec f64_emax x = true.

(** Its mantissa is full, or its exponent minimal. *)
Lemma representable_finite s m e : Representable (S754_finite s m e) → Z.pos m < 2 ^ 53 ∧ (-1074 < e → 2 ^ 52 ≤ Z.pos m) ∧ -1074 ≤ e.
Proof.
  unfold Representable. cbn. unfold bounded, canonical_mantissa. intros [H1%Z.eqb_eq H2%Z.leb_le]%andb_true_iff.
  rewrite digits2_log2 in H1. unfold fexp, emin, f64_prec, f64_emax in H1. pose proof (Z.log2_spec (Z.pos m) ltac:(lia)) as [L1 L2].
  assert (Z.log2 (Z.pos m) ≤ 52) as Hl by lia. split_and!.
  - eapply Z.lt_le_trans; [exact L2|]. apply Z.pow_le_mono_r; lia.
  - intros He. assert (Z.log2 (Z.pos m) = 52) as Hx by lia. by rewrite Hx in L1.
  - lia.
Qed.

(** A representable double between two positive integers. *)
Lemma between_ints x b :
  Representable x → 0 < b < 2 ^ 53 → fle (f_of_Z 1) x = true → fle x (f_of_Z b) = true →
  ∃ m e, x = S754_finite false m e ∧ -52 ≤ e ≤ 0 ∧ 2 ^ (- e) ≤ Z.pos m ≤ b * 2 ^ (- e).
Proof.
  intros Hr Hb H1 H2. pose proof (log2_exact b Hb) as Hlb. rewrite (f_of_Z_canonical b Hb) in H2. rewrite (f_of_Z_canonical 1) in H1 by lia.
  change (int_exponent 1) with (-52) in H1. change (Z.to_pos (int_mantissa 1)) with 4503599627370496%positive in H1.
  destruct x as [s|s| |s m e]; [done|by destruct s|done|]. destruct s; [done|]. apply representable_finite in Hr as (R1 & R2 & R3).
  exists m, e. split; [done|]. unfold fle, SFleb in H1, H2. cbn [SFcompare] in H1, H2.
  assert (-52 ≤ e ∧ 2 ^ 52 ≤ Z.pos m) as [He Hm].
  { destruct (Z.compare_spec (-52) e) as [<-|Hlt|Hgt]; [|split; [lia|apply R2; lia]|done]. split; [lia|apply R2; lia]. }
  assert (e ≤ int_exponent b ∧ (e = int_exponent b → Z.pos m ≤ int_mantissa b)) as [He' Hm'].
  { destruct (Z.compare_spec e (int_exponent b)) as [->|Hlt|Hgt]; [|split; lia|done]. split; [lia|]. intros _. change (Pos.compare_cont Eq m (Z.to_pos (int_mantissa b))) with (m ?= Z.to_pos (int_mantissa b))%positive in H2.
    destruct (Pos.compare_spec m (Z.to_pos (int_mantissa b))); [lia| |done]. pose proof (int_mantissa_pos b Hb). lia. }
  assert (int_exponent b ≤ 0) as Hib by (unfold int_exponent; lia). split; [lia|]. split.
  - transitivity (2 ^ 52); [apply Z.pow_le_mono_r; lia|done].
  - destruct (Z.eq_dec e (int_exponent b)) as [->|Hne].
    + rewrite (Hm' eq_refl) by done. unfold int_mantissa, int_exponent. replace (- (Z.log2 b - 52)) with (52 - Z.log2 b) by lia. lia.
    + pose proof (Z.log2_spec b ltac:(lia)) as [Hl _]. transitivity (2 ^ Z.log2 b * 2 ^ (- e)); [|apply Z.mul_le_mono_nonneg_r; [apply Z.pow_nonneg; lia|done]].
      rewrite <- Z.pow_add_r by lia. transitivity (2 ^ 53); [lia|]. apply Z.pow_le_mono_r; [lia|]. unfold int_exponent in *. lia.
Qed.

(** Rounded and converted, it stays between them. *)
Lemma round_between x b :
  Representable x → 0 < b < 2 ^ 53 → fle (f_of_Z 1) x = true → fle x (f_of_Z b) = true → 1 ≤ f_to_int (f_round x) ≤ b.
Proof.
  intros Hr Hb H1 H2. destruct (between_ints x b Hr Hb H1 H2) as (m & e & -> & He & Hm). unfold f_round. destruct (Z.leb_spec 0 e).
  - assert (e = 0) as -> by lia. cbn in Hm. unfold f_to_int, f_trunc. cbn [Z.leb Z.compare]. rewrite Z.shiftl_0_r.
    destruct (Z.leb_spec (- 2 ^ 63) (Z.pos m)); [|lia]. destruct (Z.ltb_spec (Z.pos m) (2 ^ 63)); [cbn|]; lia.
  - set (d := 2 ^ (- e)) in *. assert (0 < d) by (apply Z.pow_pos_nonneg; lia). pose proof (Z.div_mod (Z.pos m) d ltac:(lia)) as Hdm. pose proof (Z.mod_pos_bound (Z.pos m) d ltac:(lia)) as Hmod.
    set (q := Z.pos m / d) in *. set (r := Z.pos m mod d) in *. assert (1 ≤ q) by nia. assert (q ≤ b) by nia.
    set (a := if d <=? 2 * r then q + 1 else q). assert (1 ≤ a ≤ b) as Ha by (unfold a; destruct (Z.leb_spec d (2 * r)); nia).
    destruct (Z.eqb_spec a 0); [lia|]. fold (f_of_Z a). rewrite f_to_int_int by (unfold ExactInt; lia). done.
Qed.
