(* ===== verification/GoFloatRound.v ===== *)
(** The rounding of doubles, in general: the rounded mantissa is within half a unit of the
    exact one, the result is representable, and a product with a count is as exact as
    the durations that are computed from it need. *)

From Stdlib Require Import Floats.SpecFloat.
From S2P Require Import Prelude GoFloat GoFloatInt GoFloatOrder.
Open Scope Z_scope.

(** * Shifts *)

(** The round and sticky bits of a remainder [ρ] below [D]. *)
Definition bits_of (r s : bool) (ρ D : Z) : Prop :=
  match r, s with
  | false, false => ρ = 0
  | false, true => 0 < ρ ∧ 2 * ρ < D
  | true, false => 2 * ρ = D
  | true, true => D < 2 * ρ ∧ ρ < D
  end.

Lemma shr_1_spec x r s ρ D :
  0 ≤ x → 0 < D → bits_of r s ρ D → ∃ x' r' s' b,
    shr_1 (Build_shr_record x r s) = Build_shr_record x' r' s' ∧ 0 ≤ x' ∧ 0 ≤ b ∧ x = 2 * x' + b ∧ bits_of r' s' (b * D + ρ) (2 * D).
Proof.
  intros Hx HD Hb. destruct x as [|[p|p|]|p]; [| | | |lia]; cbn.
  - exists 0, false, (r || s), 0. split_and!; [done..|]. destruct r, s; cbn in *; lia.
  - exists (Z.pos p), true, (r || s), 1. split_and!; [done|lia|lia|lia|]. destruct r, s; cbn in *; lia.
  - exists (Z.pos p), false, (r || s), 0. split_and!; [done|lia|lia|lia|]. destruct r, s; cbn in *; lia.
  - exists 0, true, (r || s), 1. split_and!; [done|lia|lia|lia|]. destruct r, s; cbn in *; lia.
Qed.

Lemma shr_iter_spec m p :
  0 ≤ m → ∃ x r s ρ, SpecFloat.iter_pos shr_1 p (Build_shr_record m false false) = Build_shr_record x r s ∧
    0 ≤ x ∧ 0 ≤ ρ < 2 ^ Z.pos p ∧ m = x * 2 ^ Z.pos p + ρ ∧ bits_of r s ρ (2 ^ Z.pos p).
Proof.
  intros Hm. rewrite iter_pos_iter. induction p as [|p IH] using Pos.peano_ind.
  - destruct (shr_1_spec m false false 0 1) as (x & r & s & b & E & H1 & H2 & H3 & H4); [done|lia|done|]. cbn [Pos.iter]. rewrite E.
    exists x, r, s, b. rewrite Z.mul_1_r, Z.add_0_r in H4. split_and!; [done..| |lia|done]. destruct r, s; cbn in H4; lia.
  - destruct IH as (x & r & s & ρ & E & H1 & H2 & H3 & H4). rewrite Pos.iter_succ, E.
    destruct (shr_1_spec x r s ρ (2 ^ Z.pos p)) as (x' & r' & s' & b & E' & G1 & G2 & G3 & G4); [done|lia|done|]. rewrite E'.
    exists x', r', s', (b * 2 ^ Z.pos p + ρ). rewrite Pos2Z.inj_succ, Z.pow_succ_r by lia. split_and!; [done|done|nia| |nia|done].
    destruct r', s'; cbn in G4; nia.
Qed.

(** The quotient rounded to nearest. *)
Lemma round_nearest_spec x r s ρ D :
  0 ≤ x → 0 < D → 0 ≤ ρ < D → bits_of r s ρ D →
  let q := round_nearest_even x (loc_of_shr_record (Build_shr_record x r s)) in x ≤ q ≤ x + 1 ∧ 2 * Z.abs (q * D - (x * D + ρ)) ≤ D.
Proof.
  intros Hx HD Hρ Hb. destruct r, s; cbn in *; [| |lia|lia].
  - lia.
  - destruct (Z.even x); lia.
Qed.

Lemma shr_fexp_spec m e n :
  0 ≤ m → n = fexp f64_prec f64_emax (Zdigits2 m + e) - e → 0 ≤ n →
  ∃ x r s ρ, shr_fexp f64_prec f64_emax m e loc_Exact = (Build_shr_record x r s, e + n) ∧
    0 ≤ x ∧ 0 ≤ ρ < 2 ^ n ∧ m = x * 2 ^ n + ρ ∧ bits_of r s ρ (2 ^ n).
Proof.
  intros Hm -> Hn. unfold shr_fexp. cbn [shr_record_of_loc]. set (n := fexp _ _ _ - e) in *. destruct n as [|p|p]; [| |lia]; cbn [shr].
  - exists m, false, false, 0. rewrite Z.add_0_r. cbn. split_and!; [done|lia..].
  - destruct (shr_iter_spec m p Hm) as (x & r & s & ρ & -> & H). by exists x, r, s, ρ.
Qed.

(** * Rounding *)

(** The unit of the last place of [m * 2 ^ e] is [2 ^ (e + ulp_shift m e)]. *)
Definition ulp_shift (m e : Z) : Z := Z.max (Z.log2 m + 1 + e - 53) (-1074) - e.

Lemma fexp_eq e : fexp f64_prec f64_emax e = Z.max (e - 53) (-1074).
Proof. done. Qed.

Lemma Zdigits2_log2 m : 0 < m → Zdigits2 m = Z.log2 m + 1.
Proof. destruct m as [|p|p]; [lia| |lia]. intros _. apply digits2_log2. Qed.

(** A mantissa rounded to [q], with its carry, its overflow and its underflow. *)
Definition rounded (sx : bool) (q e : Z) : f64 :=
  if q =? 0 then S754_zero sx
  else let '(q, e) := if q =? 2 ^ 53 then (2 ^ 52, e + 1) else (q, e) in
       if e <=? 971 then S754_finite sx (Z.to_pos q) e else S754_infinity sx.

Lemma shr_fexp_idle q e : 0 ≤ q < 2 ^ 53 → -1074 ≤ e → shr_fexp f64_prec f64_emax q e loc_Exact = (Build_shr_record q false false, e).
Proof.
  intros Hq He. unfold shr_fexp. cbn [shr_record_of_loc]. rewrite fexp_eq. assert (Z.max (Zdigits2 q + e - 53) (-1074) - e ≤ 0) as Hn.
  { destruct (decide (q = 0)) as [->|]; [cbn; lia|]. rewrite Zdigits2_log2 by lia. pose proof (log2_exact q ltac:(lia)). lia. }
  by destruct (Z.max _ _ - e) as [|p|p]; [|lia|].
Qed.

Lemma shr_fexp_carry e : -1074 ≤ e → shr_fexp f64_prec f64_emax (2 ^ 53) e loc_Exact = (Build_shr_record (2 ^ 52) false false, e + 1).
Proof.
  intros He. unfold shr_fexp. rewrite fexp_eq. change (Zdigits2 (2 ^ 53)) with 54. replace (Z.max (54 + e - 53) (-1074) - e) with 1 by lia. done.
Qed.

Lemma round_aux_spec sx m e :
  0 < m → let n := ulp_shift m e in 0 ≤ n → ∃ q, binary_round_aux f64_prec f64_emax sx m e loc_Exact = rounded sx q (e + n) ∧
    2 * Z.abs (q * 2 ^ n - m) ≤ 2 ^ n ∧ 0 ≤ q ≤ 2 ^ 53 ∧ (-1074 < e + n → 2 ^ 52 ≤ q).
Proof.
  intros Hm n Hn. unfold binary_round_aux.
  destruct (shr_fexp_spec m e n) as (x & r & s & ρ & -> & Hx & Hρ & Hmx & Hb); [lia|by rewrite fexp_eq, Zdigits2_log2|done|].
  destruct (round_nearest_spec x r s ρ (2 ^ n) Hx ltac:(lia) Hρ Hb) as [Hq Hd]. rewrite <- Hmx in Hd. cbn [shr_m].
  set (q := round_nearest_even _ _) in *. exists q. pose proof (Z.log2_spec m Hm) as [L1 L2]. pose proof (Z.log2_nonneg m) as L0.
  assert (x < 2 ^ 53 ∧ (-1074 < e + n → 2 ^ 52 ≤ x)) as [Hx1 Hx2].
  { assert (Z.log2 m - n ≤ 52) as Hl by (unfold n, ulp_shift; lia). split.
    - assert (m < 2 ^ n * 2 ^ 53); [|nia]. rewrite <- Z.pow_add_r by lia. eapply Z.lt_le_trans; [exact L2|]. apply Z.pow_le_mono_r; lia.
    - intros He. assert (Z.log2 m = n + 52) as Hl2 by (unfold n, ulp_shift in *; lia). rewrite Hl2, Z.pow_add_r in L1 by lia. nia. }
  assert (-1074 ≤ e + n) as He by (unfold n, ulp_shift; lia). split; [|split_and!; [done|lia|lia|intros; lia]]. unfold rounded.
  destruct (decide (q = 2 ^ 53)) as [->|Hne]; [by rewrite shr_fexp_carry|]. rewrite shr_fexp_idle by lia. cbn [shr_m].
  destruct (Z.eqb_spec q (2 ^ 53)) as [|_]; [done|]. destruct q as [|p|p]; [done|done|lia].
Qed.

Lemma rounded_representable sx q e : 0 ≤ q ≤ 2 ^ 53 → -1074 ≤ e → (-1074 < e → 2 ^ 52 ≤ q) → Representable (rounded sx q e).
Proof.
  intros Hq He Hn. unfold rounded. destruct (Z.eqb_spec q 0); [done|].
  assert (∀ q e, 0 < q < 2 ^ 53 → -1074 ≤ e → (-1074 < e → 2 ^ 52 ≤ q) → Representable (if e <=? 971 then S754_finite sx (Z.to_pos q) e else S754_infinity sx)) as Hgen.
  { clear. intros q e Hq He Hn. destruct (Z.leb_spec e 971); [|done]. unfold Representable. cbn. unfold bounded, canonical_mantissa. rewrite digits2_log2, fexp_eq, Z2Pos.id by lia.
    apply andb_true_iff. split; [apply Z.eqb_eq|by apply Z.leb_le]. pose proof (log2_exact q Hq). destruct (decide (e = -1074)) as [->|]; [lia|].
    assert (52 ≤ Z.log2 q); [|lia]. apply Z.log2_le_pow2; [lia|]. apply Hn. lia. }
  destruct (Z.eqb_spec q (2 ^ 53)); apply Hgen; lia.
Qed.

Lemma round_aux_representable sx m e : 0 < m → 0 ≤ ulp_shift m e → Representable (binary_round_aux f64_prec f64_emax sx m e loc_Exact).
Proof.
  intros Hm Hn. destruct (round_aux_spec sx m e Hm Hn) as (q & -> & _ & H1 & H2). apply rounded_representable; [done| |done]. unfold ulp_shift. lia.
Qed.

Lemma binary_round_shifted p e sx : ∃ m e', 0 < m ∧ 0 ≤ ulp_shift m e' ∧ binary_round f64_prec f64_emax sx p e = binary_round_aux f64_prec f64_emax sx m e' loc_Exact.
Proof.
  unfold binary_round. rewrite digits2_log2, fexp_eq. set (e' := Z.max _ _). destruct (Z.leb_spec e' e) as [Hle|Hgt].
  - pose proof (shl_align_lower p e e' Hle) as Hs. assert ((shl_align p e e').2 = e') as He.
    { unfold shl_align. destruct (e' - e) eqn:E; cbn; lia. }
    destruct (shl_align p e e') as [mz ez]. cbn [fst snd] in *. subst ez. exists (Z.pos mz), e'. split_and!; [done| |done]. unfold ulp_shift. rewrite Hs, log2_scaled by lia. subst e'. lia.
  - unfold shl_align. destruct (e' - e) eqn:E; [lia| |lia]. exists (Z.pos p), e. split_and!; [done| |done]. unfold ulp_shift. subst e'. lia.
Qed.

Lemma binary_round_representable sx p e : Representable (binary_round f64_prec f64_emax sx p e).
Proof. destruct (binary_round_shifted p e sx) as (m & e' & H1 & H2 & ->). by apply round_aux_representable. Qed.

Lemma normalize_representable m e sz : Representable (binary_normalize f64_prec f64_emax m e sz).
Proof. destruct m; [done|apply binary_round_representable..]. Qed.

Lemma fadd_representable x y : Representable x → Representable y → Representable (fadd x y).
Proof.
  intros Hx Hy. destruct x as [sx|sx| |sx mx ex], y as [sy|sy| |sy my ey]; try done; try (by destruct sx, sy). apply normalize_representable.
Qed.

Lemma product_ulp sx mx ex sy my ey :
  Representable (S754_finite sx mx ex) → Representable (S754_finite sy my ey) → 0 ≤ ulp_shift (Z.pos (mx * my)) (ex + ey).
Proof.
  intros (X1 & X2 & X3)%representable_finite (Y1 & Y2 & Y3)%representable_finite. unfold ulp_shift. rewrite Pos2Z.inj_mul.
  destruct (decide (52 ≤ Z.log2 (Z.pos mx * Z.pos my))); [lia|]. assert (Z.pos mx * Z.pos my < 2 ^ 52) as Hp by (apply Z.log2_lt_pow2; lia).
  assert (ex ≤ -1074) by (apply Z.le_ngt; intros ?%X2; nia). assert (ey ≤ -1074) by (apply Z.le_ngt; intros ?%Y2; nia). lia.
Qed.

Lemma fmul_representable x y : Representable x → Representable y → Representable (fmul x y).
Proof.
  intros Hx Hy. destruct x as [sx|sx| |sx mx ex], y as [sy|sy| |sy my ey]; try done. apply round_aux_representable; [done|by eapply product_ulp].
Qed.

Lemma f_of_Z_representable z : Representable (f_of_Z z).
Proof. apply normalize_representable. Qed.

(** A rounding is a number. *)
Lemma round_aux_number sx m e : 0 < m → 0 ≤ ulp_shift m e → f_is_nan (binary_round_aux f64_prec f64_emax sx m e loc_Exact) = false.
Proof.
  intros Hm Hn. destruct (round_aux_spec sx m e Hm Hn) as (q & -> & _). unfold rounded. destruct (q =? 0); [done|]. destruct (q =? 2 ^ 53); by case_match.
Qed.

Lemma binary_round_number sx p e : f_is_nan (binary_round f64_prec f64_emax sx p e) = false.
Proof. destruct (binary_round_shifted p e sx) as (m & e' & H1 & H2 & ->). by apply round_aux_number. Qed.

(** A double that is neither an infinity nor NaN. *)
Definition Finite (x : f64) : Prop := match x with S754_zero _ | S754_finite _ _ _ => True | _ => False end.

Lemma f_of_Z_finite z : ExactInt z → Finite (f_of_Z z).
Proof. intros [H1 H2]. destruct (decide (z = 0)) as [->|]; [done|]. by rewrite f_of_Z_canonical by lia. Qed.

Lemma fmul_number x y : Representable x → Representable y → Finite x → Finite y → f_is_nan (fmul x y) = false.
Proof.
  intros Hx Hy Fx Fy. destruct x as [sx|sx| |sx mx ex], y as [sy|sy| |sy my ey]; try done. apply round_aux_number; [done|by eapply product_ulp].
Qed.

Lemma normalize_number m e sz : f_is_nan (binary_normalize f64_prec f64_emax m e sz) = false.
Proof. destruct m; [done|apply binary_round_number..]. Qed.

(** A number plus a finite one. *)
Lemma fadd_number x y : f_is_nan x = false → Finite y → f_is_nan (fadd x y) = false.
Proof. intros Hx Fy. destruct x as [sx|sx| |sx mx ex], y as [sy|sy| |sy my ey]; try done; try (by destruct sx, sy). apply normalize_number. Qed.

(** * Order *)

(** The value of a nonnegative double, in units of [2 ^ -1074]. *)
Definition units (x : f64) : Z := match x with S754_finite false m e => Z.pos m * 2 ^ (e + 1074) | _ => 0 end.
Definition Nonneg (x : f64) : Prop := match x with S754_zero _ | S754_finite false _ _ => True | _ => False end.

Lemma fle_units x y : Representable x → Representable y → Nonneg x → Nonneg y → fle x y = true → units x ≤ units y.
Proof.
  destruct x as [sx|sx| |[] mx ex], y as [sy|sy| |[] my ey]; intros Hx Hy Nx Ny H; try done; cbn [units]; [apply Z.mul_nonneg_nonneg; [lia|apply Z.pow_nonneg; lia]|].
  apply representable_finite in Hx as (X1 & X2 & X3), Hy as (Y1 & Y2 & Y3). unfold fle, SFleb in H. cbn [SFcompare] in H.
  destruct (Z.compare_spec ex ey) as [->|Hlt|Hgt]; [| |done].
  - change (Pos.compare_cont Eq mx my) with (mx ?= my)%positive in H. apply Z.mul_le_mono_nonneg_r; [apply Z.pow_nonneg; lia|]. destruct (Pos.compare_spec mx my); [lia|lia|done].
  - transitivity (2 ^ 53 * 2 ^ (ex + 1074)); [apply Z.mul_le_mono_nonneg_r; [apply Z.pow_nonneg; lia|lia]|]. rewrite <- Z.pow_add_r by lia.
    transitivity (2 ^ 52 * 2 ^ (ey + 1074)); [rewrite <- Z.pow_add_r by lia; apply Z.pow_le_mono_r; lia|]. apply Z.mul_le_mono_nonneg_r; [apply Z.pow_nonneg; lia|]. apply Y2. lia.
Qed.

(** The conversion truncates. *)
Lemma f_to_int_units x : Representable x → Nonneg x → units x < 2 ^ (63 + 1074) → f_to_int x = units x / 2 ^ 1074.
Proof.
  destruct x as [sx|sx| |[] m e]; intros Hx Nx H; try done. apply representable_finite in Hx as (X1 & X2 & X3). unfold f_to_int, f_trunc, units in *.
  assert ((if 0 <=? e then Z.shiftl (Z.pos m) e else Z.shiftr (Z.pos m) (- e)) = Z.pos m * 2 ^ (e + 1074) / 2 ^ 1074) as ->.
  { destruct (Z.leb_spec 0 e).
    - rewrite Z.shiftl_mul_pow2, Z.pow_add_r, Z.mul_assoc by lia. symmetry. apply Z.div_mul. lia.
    - rewrite Z.shiftr_div_pow2 by lia. replace 1074 with ((e + 1074) + - e) at 2 by lia. rewrite (Z.pow_add_r 2 (e + 1074)) by lia.
      rewrite (Z.mul_comm (2 ^ (e + 1074))), Z.div_mul_cancel_r; [done|..]; apply Z.pow_nonzero; lia. }
  assert (0 ≤ Z.pos m * 2 ^ (e + 1074) / 2 ^ 1074 < 2 ^ 63) as [H1 H2].
  { assert (0 < 2 ^ 1074) as HD by (apply Z.pow_pos_nonneg; lia). split.
    - apply Z.div_pos; [|done]. apply Z.mul_nonneg_nonneg; [lia|apply Z.pow_nonneg; lia].
    - apply Z.div_lt_upper_bound; [done|]. by rewrite (Z.add_comm 63), (Z.pow_add_r 2 1074 63) in H by lia. }
  destruct (Z.leb_spec (- 2 ^ 63) (Z.pos m * 2 ^ (e + 1074) / 2 ^ 1074)); [|lia]. by destruct (Z.ltb_spec (Z.pos m * 2 ^ (e + 1074) / 2 ^ 1074) (2 ^ 63)); [|lia].
Qed.

(** * Products with a count *)

Lemma rounded_units q e : 0 ≤ q ≤ 2 ^ 53 → -1074 ≤ e ≤ 970 → Nonneg (rounded false q e) ∧ units (rounded false q e) = q * 2 ^ (e + 1074).
Proof.
  intros Hq He. unfold rounded. destruct (Z.eqb_spec q 0) as [->|]; [done|]. destruct (Z.eqb_spec q (2 ^ 53)) as [->|].
  - destruct (Z.leb_spec (e + 1) 971); [|lia]. split; [done|]. cbn [units]. rewrite Z2Pos.id by lia. replace (e + 1 + 1074) with (Z.succ (e + 1074)) by lia. rewrite Z.pow_succ_r by lia. lia.
  - destruct (Z.leb_spec e 971); [|lia]. split; [done|]. cbn [units]. by rewrite Z2Pos.id by lia.
Qed.

(** The product of a constant with a count, [p / D] exactly, is [q * 2 ^ n / D], within half of [2 ^ n]. *)
Lemma fmul_count mc ec m :
  2 ^ 52 ≤ Z.pos mc < 2 ^ 53 → -60 ≤ ec ≤ -52 → 0 < m < 2 ^ 48 →
  let k := Z.log2 m in let x := fmul (S754_finite false mc ec) (f_of_Z m) in
  ∃ q n, (n = 52 ∨ n = 53) ∧ Nonneg x ∧ Representable x ∧ 0 ≤ k < 48 ∧
    2 * Z.abs (q * 2 ^ n - Z.pos mc * m * 2 ^ (52 - k)) ≤ 2 ^ n ∧ f_to_int x = q * 2 ^ n / 2 ^ (52 - ec - k) ∧ units x < 2 ^ (63 + 1074) ∧
    units x = q * 2 ^ (ec + (k - 52) + n + 1074).
Proof.
  intros Hc He Hm k x. assert (0 ≤ k < 48) as Hk by (split; [apply Z.log2_nonneg|apply Z.log2_lt_pow2; lia]).
  unfold x. rewrite (f_of_Z_canonical m) by lia. unfold fmul. cbn [SFmul xorb]. rewrite Pos2Z.inj_mul, Z2Pos.id by (apply int_mantissa_pos; lia).
  unfold int_mantissa, int_exponent. fold k. rewrite Z.mul_assoc. set (p := Z.pos mc * m * 2 ^ (52 - k)). set (e := ec + (k - 52)).
  pose proof (Z.log2_spec m ltac:(lia)) as [M1 M2]. fold k in M1, M2. rewrite Z.pow_succ_r in M2 by lia.
  assert (2 ^ 52 ≤ m * 2 ^ (52 - k) < 2 ^ 53) as Hmk.
  { assert (2 ^ k * 2 ^ (52 - k) = 2 ^ 52) as Hs by (rewrite <- Z.pow_add_r by lia; f_equal; lia). assert (0 < 2 ^ (52 - k)) by (apply Z.pow_pos_nonneg; lia). nia. }
  assert (2 ^ 52 * 2 ^ 52 ≤ p < 2 ^ 53 * 2 ^ 53) as Hp by (unfold p; rewrite <- Z.mul_assoc; nia).
  assert (104 ≤ Z.log2 p ≤ 105) as Hl by (split; [apply Z.log2_le_pow2; lia|apply Z.lt_succ_r, Z.log2_lt_pow2; lia]).
  assert (ulp_shift p e = Z.log2 p - 52) as Hn by (unfold ulp_shift; lia).
  destruct (round_aux_spec false p e) as (q & -> & Hd & Hq & Hq2); [lia|lia|]. pose proof (round_aux_representable false p e ltac:(lia) ltac:(lia)) as Hr.
  rewrite Hn in *. set (n := Z.log2 p - 52) in *. exists q, n. assert (n = 52 ∨ n = 53) as Hn' by lia.
  destruct (rounded_units q (e + n) Hq ltac:(lia)) as [U1 U2].
  assert (Representable (rounded false q (e + n))) as Hr' by (apply rounded_representable; [done|lia|done]).
  assert (units (rounded false q (e + n)) < 2 ^ (63 + 1074)) as Hu.
  { rewrite U2. eapply Z.le_lt_trans; [apply (Z.mul_le_mono_nonneg_r q (2 ^ 53)); [apply Z.pow_nonneg; lia|lia]|]. rewrite <- Z.pow_add_r by lia. apply Z.pow_lt_mono_r; lia. }
  split_and!; [done|done|done|lia|lia|done| |done|exact U2]. rewrite f_to_int_units, U2 by done.
  replace (e + n + 1074) with (n + (e + 1074)) by lia. replace 1074 with ((52 - ec - k) + (e + 1074)) at 2 by lia.
  rewrite (Z.pow_add_r 2 n), (Z.pow_add_r 2 (52 - ec - k)), Z.mul_assoc by lia. apply Z.div_mul_cancel_r; apply Z.pow_nonzero; lia.
Qed.

(** A constant whose tenfold is [2] units of its last place below [a] counts [a] tenths of [m] exactly. *)
Lemma fmul_tenths a mc ec m :
  2 ^ 52 ≤ Z.pos mc < 2 ^ 53 → -60 ≤ ec ≤ -52 → 10 * Z.pos mc = a * 2 ^ (- ec) - 2 → 0 < m < 2 ^ 48 →
  f_to_int (fmul (S754_finite false mc ec) (f_of_Z m)) = a * m / 10.
Proof.
  intros Hc He Ha Hm. destruct (fmul_count mc ec m Hc He Hm) as (q & n & Hn & _ & _ & Hk & Hd & -> & _). set (k := Z.log2 m) in *. set (D := 2 ^ (52 - ec - k)).
  set (j := 2 ^ (52 - ec - k - n)). assert (16 ≤ j) as Hj by (apply (Z.pow_le_mono_r 2 4); lia). set (N := 2 ^ n) in *.
  assert (D = N * j) as HD by (unfold D, N, j; rewrite <- Z.pow_add_r by lia; f_equal; lia).
  assert (2 ^ 52 ≤ N) as HN by (apply (Z.pow_le_mono_r 2 52); lia).
  set (E := m * 2 ^ (52 - k)). assert (2 * E < 4 * N ∧ 0 < E) as [HE HE'].
  { pose proof (Z.log2_spec m ltac:(lia)) as [_ M2]. fold k in M2. assert (0 < 2 ^ (52 - k)) by (apply Z.pow_pos_nonneg; lia).
    assert (2 ^ Z.succ k * 2 ^ (52 - k) = 2 ^ 53) as Hs by (rewrite <- Z.pow_add_r by lia; f_equal; lia). unfold E. nia. }
  pose proof (Z.div_mod (a * m) 10 ltac:(lia)) as Hdm. pose proof (Z.mod_pos_bound (a * m) 10 ltac:(lia)) as Hr. set (K := a * m / 10) in *. set (r := (a * m) mod 10) in *.
  assert (10 * (Z.pos mc * m * 2 ^ (52 - k)) = (10 * K + r) * (N * j) - 2 * E) as Hp.
  { rewrite <- Hdm, <- HD. unfold D, E. replace (52 - ec - k) with (- ec + (52 - k)) by lia. rewrite Z.pow_add_r by lia.
    transitivity (10 * Z.pos mc * (m * 2 ^ (52 - k))); [lia|]. rewrite Ha. lia. }
  set (p := Z.pos mc * m * 2 ^ (52 - k)) in *. clearbody p E K r j N. rewrite HD. clear D HD.
  assert (K * j ≤ q < (K + 1) * j) as [H1 H2].
  { split.
    - assert (20 * (K * j) - 20 < 20 * q); [|lia]. apply (Z.mul_lt_mono_pos_r N); [lia|]. nia.
    - assert (20 * q < 20 * ((K + 1) * j)); [|lia]. apply (Z.mul_lt_mono_pos_r N); [lia|]. nia. }
  symmetry. apply (Z.div_unique _ _ _ ((q - K * j) * N)); [left; nia|lia].
Qed.

Lemma tenths_3 : f_const 3 10 = S754_finite false 5404319552844595 (-54).
Proof. vm_compute. reflexivity. Qed.
Lemma tenths_17 : f_const 17 10 = S754_finite false 7656119366529843 (-52).
Proof. vm_compute. reflexivity. Qed.
Lemma fmul_3_tenths m : 0 < m < 2 ^ 48 → f_to_int (fmul (f_const 3 10) (f_of_Z m)) = 3 * m / 10.
Proof. intros. rewrite tenths_3. by apply fmul_tenths. Qed.
Lemma fmul_17_tenths m : 0 < m < 2 ^ 48 → f_to_int (fmul (f_const 17 10) (f_of_Z m)) = 17 * m / 10.
Proof. intros. rewrite tenths_17. by apply fmul_tenths. Qed.

(** A double between the two products truncates between the tenths. *)
Lemma truncated_between m v :
  0 < m < 2 ^ 48 → Representable v → fle (fmul (f_const 3 10) (f_of_Z m)) v = true → fle v (fmul (f_const 17 10) (f_of_Z m)) = true →
  3 * m / 10 ≤ f_to_int v ≤ 17 * m / 10.
Proof.
  intros Hm Hv H1 H2. rewrite <- fmul_3_tenths, <- fmul_17_tenths by done. revert H1 H2. rewrite tenths_3, tenths_17.
  destruct (fmul_count 5404319552844595 (-54) m) as (q & n & _ & A1 & A2 & _ & _ & _ & A3 & _); [done|done|done|].
  destruct (fmul_count 7656119366529843 (-52) m) as (q' & n' & _ & B1 & B2 & _ & _ & _ & B3 & _); [done|done|done|].
  set (x := fmul (S754_finite false 5404319552844595 (-54)) _) in *. set (y := fmul (S754_finite false 7656119366529843 (-52)) _) in *. clearbody x y. intros H1 H2.
  assert (Nonneg v) as Hn.
  { clear A2 A3 B2 B3. destruct x as [sx|sx| |[] mx ex], y as [sy|sy| |[] my ey], v as [sv|[]| |[] mv ev]; done. }
  pose proof (fle_units x v A2 Hv A1 Hn H1). pose proof (fle_units v y Hv B2 Hn B1 H2). rewrite !f_to_int_units by (done || lia).
  split; apply Z.div_le_mono; (apply Z.pow_pos_nonneg; lia) || done.
Qed.

(** * Shares of a count *)

(** A share below one of a count is at most the count. *)
Lemma fmul_share mc m : 2 ^ 52 ≤ Z.pos mc < 2 ^ 53 → 0 < m < 2 ^ 48 →
  let x := fmul (S754_finite false mc (-53)) (f_of_Z m) in Nonneg x ∧ Representable x ∧ units x ≤ m * 2 ^ 1074.
Proof.
  intros Hc Hm x. destruct (fmul_count mc (-53) m Hc ltac:(lia) Hm) as (q & n & Hn & H1 & H2 & Hk & Hd & _ & _ & Hu). fold x in H1, H2, Hu. split_and!; [done|done|].
  set (k := Z.log2 m) in *. rewrite Hu. replace 1074 with (1021 - (52 - k) + (105 - k)) at 2 by lia. rewrite (Z.pow_add_r 2 (1021 - (52 - k))) by lia.
  replace (-53 + (k - 52) + n + 1074) with (n + (1021 - (52 - k))) by lia. rewrite (Z.pow_add_r 2 n) by lia. rewrite Z.mul_assoc, (Z.mul_comm (2 ^ (1021 - (52 - k)))), Z.mul_assoc.
  apply Z.mul_le_mono_nonneg_r; [apply Z.pow_nonneg; lia|]. replace (105 - k) with ((52 - k) + 53) by lia. rewrite (Z.pow_add_r 2 (52 - k)), Z.mul_assoc by lia.
  set (E := m * 2 ^ (52 - k)) in *. assert (0 < E) as HE by (unfold E; assert (0 < 2 ^ (52 - k)) by (apply Z.pow_pos_nonneg; lia); nia).
  replace (Z.pos mc * m * 2 ^ (52 - k)) with (Z.pos mc * E) in Hd by (unfold E; lia).
  destruct Hn as [-> | ->]; [assert (q < 2 * E + 1); [|lia]; change (2 ^ 53) with (2 * 2 ^ 52) in *|assert (q < E + 1); [|lia]]; nia.
Qed.

Lemma round_opp m e l : f_opp (binary_round_aux f64_prec f64_emax true m e l) = binary_round_aux f64_prec f64_emax false m e l.
Proof. unfold binary_round_aux. destruct (shr_fexp _ _ _ _ _) as [mrs e']. destruct (shr_fexp _ _ _ _ _) as [mrs' e'']. destruct (shr_m mrs'); [done| |done]. by destruct (_ <=? _). Qed.
Lemma opp_negative q : 0 < q → f_opp (binary_normalize f64_prec f64_emax (- q) 0 true) = f_of_Z q.
Proof.
  intros Hq. destruct q as [|p|p]; [lia| |lia]. unfold f_of_Z. change (- Z.pos p) with (Z.neg p). unfold binary_normalize, binary_round. destruct (shl_align _ _ _) as [mz ez]. apply round_opp.
Qed.

(** Rounded down and up, a double stays between zero and an integer above it. *)
Lemma floor_ceil_between x b : Representable x → Nonneg x → 0 < b < 2 ^ 53 → units x ≤ b * 2 ^ 1074 →
  0 ≤ f_to_int (f_opp (f_ceil (f_opp x))) ≤ f_to_int (f_ceil x) ∧ f_to_int (f_ceil x) ≤ b.
Proof.
  intros Hr Hn Hb Hu. destruct x as [s|s| |[] m e]; [by destruct s; cbn; lia|done|done|done|]. pose proof Hr as (R1 & R2 & R3)%representable_finite. cbn [units] in Hu. unfold f_ceil, f_opp. cbn [SFopp negb].
  destruct (Z.leb_spec 0 e) as [He|He].
  - cbn [SFopp negb]. rewrite f_to_int_units; [|done|done|].
    + cbn [units]. split; [split; [|lia]|]; [apply Z.div_pos; [apply Z.mul_nonneg_nonneg; [lia|apply Z.pow_nonneg; lia]|apply Z.pow_pos_nonneg; lia]|].
      apply Z.div_le_upper_bound; [apply Z.pow_pos_nonneg; lia|]. lia.
    + cbn [units]. eapply Z.le_lt_trans; [exact Hu|]. rewrite Z.pow_add_r by lia. apply Z.mul_lt_mono_pos_r; [apply Z.pow_pos_nonneg; lia|lia].
  - set (d := 2 ^ (- e)). assert (0 < d) as Hd by (apply Z.pow_pos_nonneg; lia). assert (Z.pos m ≤ b * d) as Hm.
    { unfold d. replace 1074 with (- e + (e + 1074)) in Hu at 2 by lia. rewrite (Z.pow_add_r 2 (- e)), Z.mul_assoc in Hu by lia. apply Z.mul_le_mono_pos_r in Hu; [done|apply Z.pow_pos_nonneg; lia]. }
    pose proof (Z.div_mod (Z.pos m) d ltac:(lia)) as Hdm. pose proof (Z.mod_pos_bound (Z.pos m) d ltac:(lia)) as Hmod. set (q := Z.pos m / d) in *. set (r := Z.pos m mod d) in *.
    assert (0 ≤ q ≤ b) as Hq by (split; [apply Z.div_pos; lia|nia]).
    set (a := if r =? 0 then q else q + 1). assert (q ≤ a ≤ b ∧ 0 < a) as Ha by (unfold a; destruct (Z.eqb_spec r 0); nia).
    destruct (Z.eqb_spec a 0); [lia|]. fold (f_of_Z a). rewrite (f_to_int_int a) by (unfold ExactInt; lia).
    destruct (Z.eqb_spec q 0) as [->|]; [cbn; lia|]. fold (f_opp (binary_normalize f64_prec f64_emax (- q) 0 true)). rewrite opp_negative, f_to_int_int by (unfold ExactInt; lia). lia.
Qed.
