(* ===== verification/GoRandom.v ===== *)
(** The random generator of [pkg/common/utils.go].  The draws of Go's [math/rand] are a
    parameter; a computation that draws is a function of the number of draws so far.  It
    returns, panics ([Intn] of a number that is not positive, an index out of range), or
    has used up its fuel. *)

From S2P Require Import Prelude GoFloat GoFloatInt GoFloatOrder GoFloatRound.
Open Scope Z_scope.

Module GoRandom.

(** The [k]-th draw, by the method called. *)
Record generator := mkGenerator { Intn : nat → Z → Z; Float64 : nat → f64; NormFloat64 : nat → f64 }.

(** The documented ranges: [0, n), [0.0, 1.0) and the finite doubles. *)
Class GeneratorOk (g : generator) : Prop := mkGeneratorOk {
  intn_range : ∀ k n, 0 < n → 0 ≤ Intn g k n < n;
  float_range : ∀ k, Representable (Float64 g k) ∧ Nonneg (Float64 g k) ∧ flt (Float64 g k) (f_of_Z 1) = true;
  norm_range : ∀ k, Representable (NormFloat64 g k) ∧ Finite (NormFloat64 g k)
}.

Inductive outcome (A : Type) := Returns (a : A) (drawn : nat) | Panics | OutOfFuel.
Arguments Returns {A} a drawn.
Arguments Panics {A}.
Arguments OutOfFuel {A}.

Definition drawing (A : Type) : Type := nat → outcome A.

Definition ret {A} (a : A) : drawing A := λ k, Returns a k.
Definition panic {A} : drawing A := λ _, Panics.
Definition bind {A B} (m : drawing A) (f : A → drawing B) : drawing B :=
  λ k, match m k with Returns a k => f a k | Panics => Panics | OutOfFuel => OutOfFuel end.

Declare Scope random_scope.
Delimit Scope random_scope with rnd.
Notation "x <- m ; f" := (bind m (λ x, f)) (at level 100, m at next level, f at level 200, right associativity) : random_scope.

Section Random.
Variable g : generator.
Local Open Scope random_scope.

(** A list access, which panics out of range. *)
Definition index {A} (l : list A) (i : Z) : drawing A :=
  if i <? 0 then panic else match l !! Z.to_nat i with Some x => ret x | None => panic end.

Definition RandomInt (min max : Z) : drawing Z :=
  λ k, let n := i64 (max - min + 1) in if n <=? 0 then Panics else Returns (i64 (Intn g k n + min)) (S k).

Definition FlipCoin : drawing bool := x <- RandomInt 0 1; ret (negb (x =? 0)).

Definition RandomBool (probability : Z) : drawing bool :=
  λ k, Returns (flt (Float64 g k) (fdiv (f_of_Z probability) (f_of_Z 100))) (S k).

Definition RandomFloat (min max : f64) : drawing f64 :=
  λ k, Returns (fadd (fmul (Float64 g k) (fsub max min)) min) (S k).

Definition RandomNorm (mean stddev : Z) : drawing f64 :=
  λ k, if stddev =? 0 then Returns (f_of_Z mean) k
       else Returns (fadd (fmul (NormFloat64 g k) (f_of_Z stddev)) (f_of_Z mean)) (S k).

(** The value, or the bound of [0.3 mean, 1.7 mean] it exceeds. *)
Definition clampToMean (mean : Z) (value : f64) : f64 :=
  let m := f_of_Z mean in
  if flt value (fmul (f_const 3 10) m) then fmul (f_const 3 10) m
  else if flt (fmul (f_const 17 10) m) value then fmul (f_const 17 10) m
  else value.

Definition RandomNormTruncated (mean stddev : Z) : drawing Z := value <- RandomNorm mean stddev; ret (f_to_int (clampToMean mean value)).

(** [Duration.Milliseconds]: truncated. *)
Definition millisecond : Z := 10 ^ 6.
Definition Milliseconds (d : Z) : Z := Z.quot d millisecond.

Definition RandomNormDuration (mean stddev : Z) : drawing Z :=
  value <- RandomNorm (Milliseconds mean) (Milliseconds stddev);
  ret (i64 (millisecond * f_to_int (clampToMean (Milliseconds mean) value))).

Definition digits : list Z := seqZ 48 10.
Fixpoint numericBytes (length : nat) : drawing (list Z) :=
  match length with
  | O => ret []
  | S n => num <- RandomInt 0 9; d <- index digits num; rest <- numericBytes n; ret (d :: rest)
  end.

(** A string of that many decimal digits, as bytes; a negative length panics. *)
Definition RandomNumericString (length : Z) : drawing (list Z) := if length <? 0 then panic else numericBytes (Z.to_nat length).

(** * Lemmas *)

Context `{!GeneratorOk g}.

Lemma RandomInt_ok min max k :
  min ≤ max → - 2 ^ 63 ≤ min → max < 2 ^ 63 → max - min + 1 < 2 ^ 63 → ∃ x, RandomInt min max k = Returns x (S k) ∧ min ≤ x ≤ max.
Proof.
  intros H1 H2 H3 H4. unfold RandomInt. rewrite i64_small by lia. destruct (Z.leb_spec (max - min + 1) 0); [lia|]. eexists. split; [done|].
  pose proof (intn_range k (max - min + 1) ltac:(lia)). rewrite i64_small by lia. lia.
Qed.

Lemma RandomInt_empty min max k : max < min → - 2 ^ 62 ≤ max → min ≤ 2 ^ 62 → RandomInt min max k = Panics.
Proof. intros H1 H2 H3. unfold RandomInt. rewrite i64_small by lia. by destruct (Z.leb_spec (max - min + 1) 0); [|lia]. Qed.

Lemma index_ok {A} (l : list A) i k : 0 ≤ i < Z.of_nat (length l) → ∃ x, index l i k = Returns x k ∧ x ∈ l.
Proof.
  intros Hi. unfold index. destruct (Z.ltb_spec i 0); [lia|]. destruct (lookup_lt_is_Some_2 l (Z.to_nat i)) as [x Hx]; [lia|]. rewrite Hx. exists x. split; [done|].
  by eapply list_elem_of_lookup_2.
Qed.

Lemma RandomFloat_unit k : ∃ x, RandomFloat f_zero (f_of_Z 1) k = Returns x (S k) ∧ f_is_nan x = false ∧ Representable x.
Proof.
  unfold RandomFloat. eexists. split; [done|]. change (fsub (f_of_Z 1) f_zero) with (f_of_Z 1). destruct (float_range k) as (H1 & H2 & _).
  assert (Finite (Float64 g k)) as Hf by (by destruct (Float64 g k) as [| | |[]]). pose proof (f_of_Z_representable 1). split.
  - apply fadd_number; [|done]. by apply fmul_number.
  - apply fadd_representable; [by apply fmul_representable|done].
Qed.

(** A normal sample is a number. *)
Lemma RandomNorm_ok mean stddev k : ExactInt mean → ExactInt stddev → ∃ x k', RandomNorm mean stddev k = Returns x k' ∧ f_is_nan x = false ∧ Representable x.
Proof.
  intros Hm Hs. unfold RandomNorm. destruct (norm_range k) as [H1 H2]. pose proof (f_of_Z_representable mean). pose proof (f_of_Z_representable stddev). pose proof (f_of_Z_finite mean Hm) as Fm. pose proof (f_of_Z_finite stddev Hs).
  destruct (stddev =? 0); eexists _, _; (split; [done|]).
  - split; [by destruct (f_of_Z mean)|done].
  - split; [apply fadd_number; [by apply fmul_number|done]|apply fadd_representable; [by apply fmul_representable|done]].
Qed.

(** What the clamp leaves of a number truncates between three and seventeen tenths of the mean. *)
Lemma clamp_tenths m v :
  0 ≤ m < 2 ^ 48 → f_is_nan v = false → Representable v → 3 * m / 10 ≤ f_to_int (clampToMean m v) ≤ 17 * m / 10.
Proof.
  intros Hm Hn Hr. destruct (decide (m = 0)) as [->|Hm0].
  { unfold clampToMean. change (fmul _ (f_of_Z 0)) with f_zero at 1 2. change (fmul (f_const 17 10) (f_of_Z 0)) with f_zero. destruct v as [[]|[]| |[]]; done. }
  unfold clampToMean. destruct (flt v _) eqn:E1; [rewrite fmul_3_tenths by lia; split; [lia|apply Z.div_le_mono; lia]|].
  destruct (flt _ v) eqn:E2; [rewrite fmul_17_tenths by lia; split; [apply Z.div_le_mono; lia|lia]|].
  assert (∀ c, c = f_const 3 10 ∨ c = f_const 17 10 → f_is_nan (fmul c (f_of_Z m)) = false) as Hc.
  { intros c [-> | ->]; (apply fmul_number; [done|apply f_of_Z_representable|done|apply f_of_Z_finite; unfold ExactInt; lia]). }
  apply truncated_between; [lia|done|apply not_flt_fle; auto..].
Qed.

Lemma RandomNumericString_ok n k : ∃ s, numericBytes n k = Returns s (k + n)%nat ∧ length s = n ∧ Forall (λ b, 48 ≤ b < 58) s.
Proof.
  revert k. induction n as [|n IH]; intros k; [exists []; cbn; rewrite Nat.add_0_r; split_and!; done|]. cbn [numericBytes]. unfold bind.
  destruct (RandomInt_ok 0 9 k ltac:(lia) ltac:(lia) ltac:(lia) ltac:(lia)) as (x & -> & Hx). destruct (index_ok digits x (S k)) as (d & -> & Hd); [change (length digits) with 10%nat; lia|].
  destruct (IH (S k)) as (s & -> & Hs & Hf). exists (d :: s). cbn. split_and!; [f_equal; lia|by rewrite Hs|]. constructor; [|done]. apply elem_of_seqZ in Hd. lia.
Qed.

End Random.

(** A generator that counts. *)
Definition generator_ex : generator := mkGenerator (λ k n, if n <=? 0 then 0 else Z.of_nat k mod n) (λ _, f_const 1 2) (λ _, f_zero).
Lemma generator_ex_ok : GeneratorOk generator_ex.
Proof.
  constructor; [|done|done]. intros k n Hn. unfold generator_ex. cbn. destruct (Z.leb_spec n 0); [lia|]. apply Z.mod_pos_bound. lia.
Qed.

End GoRandom.
