(* ===== verification/BlockCache.v ===== *)
(** The KV block cache of [pkg/kvcache/block_cache.go].

    Every method of [blockCache] holds the cache's mutex from its first
    statement to its return, so an operation is a function from the cache
    before it to the cache after it.  What the operation observes of the outside world
    (the clock, the order in which Go ranges over a map) is its [Env]
    argument.  Events leave through the bounded channel [eventChan], which
    drops what does not fit, exactly as [common.WriteToChannel] does. *)

From S2P Require Import Prelude GoFloat.

Module BlockCache.

(** * Data *)

(** A block is identified by its chained hash (a [uint64]) and its model. *)
Record blockKey := mkBlockKey { bk_hash : Z; bk_modelName : string }.

#[global] Instance blockKey_eq_dec : EqDecision blockKey.
Proof. solve_decision. Defined.
#[global] Instance blockKey_countable : Countable blockKey.
Proof.
  refine (inj_countable' (λ k, (bk_hash k, bk_modelName k)) (λ p, mkBlockKey p.1 p.2) _).
  by intros [].
Defined.

(** The zero value of the struct, [blockKey{}]. *)
Definition zeroKey : blockKey := mkBlockKey 0 "".

Definition EventAction : Type := Z.
Definition eventActionStore : EventAction := 0%Z.
Definition eventActionRemove : EventAction := 1%Z.
Definition eventActionAllBlocksCleared : EventAction := 2%Z.

Record EventData := mkEventData {
  ev_action : EventAction;
  ev_tokens : list Z;
  ev_hashes : list Z;
  ev_parentHash : option Z;
  ev_loraName : option string;
  ev_loraID : option Z }.

Record MetricInfo := mkMetricInfo { mi_Value : f64; mi_IsFake : bool }.

(** The request interface the cache reads. *)
Record Request := mkRequest {
  GetRequestID : string;
  GetDisplayedModel : string;
  GetLoraName : option string;
  GetLoraID : option Z }.

Record blockCache := mkBlockCache {
  requestToBlocks : gmap string (list blockKey);
  usedBlocks : gmap blockKey Z;
  unusedBlocks : gmap blockKey Z;
  blockToTokens : gmap blockKey (list Z);
  loadedModels : gset string;
  maxBlocks : Z;
  eventChan : Chan EventData;
  usageChan : option (Chan MetricInfo);
  disabled : bool }.

(** Assignments to one field of the struct. *)
Definition set_requestToBlocks (f : gmap string (list blockKey)) (c : blockCache) : blockCache :=
  mkBlockCache f (usedBlocks c) (unusedBlocks c) (blockToTokens c) (loadedModels c)
    (maxBlocks c) (eventChan c) (usageChan c) (disabled c).
Definition set_usedBlocks (f : gmap blockKey Z) (c : blockCache) : blockCache :=
  mkBlockCache (requestToBlocks c) f (unusedBlocks c) (blockToTokens c) (loadedModels c)
    (maxBlocks c) (eventChan c) (usageChan c) (disabled c).
Definition set_unusedBlocks (f : gmap blockKey Z) (c : blockCache) : blockCache :=
  mkBlockCache (requestToBlocks c) (usedBlocks c) f (blockToTokens c) (loadedModels c)
    (maxBlocks c) (eventChan c) (usageChan c) (disabled c).
Definition set_blockToTokens (f : gmap blockKey (list Z)) (c : blockCache) : blockCache :=
  mkBlockCache (requestToBlocks c) (usedBlocks c) (unusedBlocks c) f (loadedModels c)
    (maxBlocks c) (eventChan c) (usageChan c) (disabled c).
Definition set_loadedModels (f : gset string) (c : blockCache) : blockCache :=
  mkBlockCache (requestToBlocks c) (usedBlocks c) (unusedBlocks c) (blockToTokens c) f
    (maxBlocks c) (eventChan c) (usageChan c) (disabled c).
Definition set_eventChan (f : Chan EventData) (c : blockCache) : blockCache :=
  mkBlockCache (requestToBlocks c) (usedBlocks c) (unusedBlocks c) (blockToTokens c)
    (loadedModels c) (maxBlocks c) f (usageChan c) (disabled c).
Definition set_usageChan (f : option (Chan MetricInfo)) (c : blockCache) : blockCache :=
  mkBlockCache (requestToBlocks c) (usedBlocks c) (unusedBlocks c) (blockToTokens c)
    (loadedModels c) (maxBlocks c) (eventChan c) f (disabled c).
Definition set_disabled (f : bool) (c : blockCache) : blockCache :=
  mkBlockCache (requestToBlocks c) (usedBlocks c) (unusedBlocks c) (blockToTokens c)
    (loadedModels c) (maxBlocks c) (eventChan c) (usageChan c) f.

(** What an operation observes: [now i] is the reading of the [i]-th call of
    [time.Now], [range_unused i m] the order of the [i]-th [range] over [m]. *)
Record Env := mkEnv {
  now : nat → Z;
  range_unused : nat → gmap blockKey Z → list (blockKey * Z) }.

(** A [range] visits every entry of the map once. *)
Definition EnvOk (env : Env) : Prop :=
  ∀ i m, range_unused env i m ≡ₚ map_to_list m.

Inductive bcError :=
| ErrNoIP
| ErrPublisher (message : string)
| ErrRequestExists (id : string)
| ErrInvalidInput (nHashes nTokens : nat)
| ErrCapacity
| ErrNotExistingBlocks (blocks : list blockKey) (id : string).

(** * Operations *)

Definition setModelLoaded (model : string) (bc : blockCache) : blockCache :=
  set_loadedModels ({[model]} ∪ loadedModels bc) bc.

Definition setModelUnloaded (model : string) (bc : blockCache) : blockCache :=
  set_loadedModels (loadedModels bc ∖ {[model]}) bc.

(** The part of the configuration [newBlockCache] reads for the cache itself. *)
Record Config := mkConfig {
  cfg_IP : string;
  cfg_ZMQEndpoint : string;
  cfg_KVCacheSize : nat;
  cfg_Model : string;
  cfg_ServedModelNames : list string }.

(** [common.NewPublisher]: the socket is dialled in the background, and no error is returned. *)
Definition NewPublisher (endpoint : string) : result string string := Ok endpoint.

Definition newBlockCache (config : Config) (uc : option (Chan MetricInfo))
  : result bcError blockCache :=
  if bool_decide (cfg_IP config = ""%string) then Err ErrNoIP
  else match (if bool_decide (cfg_ZMQEndpoint config = ""%string) then Ok ""%string else NewPublisher (cfg_ZMQEndpoint config)) with
  | Err e => Err (ErrPublisher e)
  | Ok _ =>
    let bc := mkBlockCache ∅ ∅ ∅ ∅ ∅ (Z.of_nat (cfg_KVCacheSize config))
                (mkChan [] (10 * cfg_KVCacheSize config)) uc false in
    Ok (foldl (λ b m, setModelLoaded m b) (setModelLoaded (cfg_Model config) bc)
          (cfg_ServedModelNames config))
  end.

Definition discard (bc : blockCache) : blockCache :=
  let bc := set_disabled true bc in
  let bc := set_requestToBlocks ∅ bc in
  let bc := set_usedBlocks ∅ bc in
  let bc := set_unusedBlocks ∅ bc in
  let bc := set_blockToTokens ∅ bc in
  set_eventChan (WriteToChannel (eventChan bc)
    (mkEventData eventActionAllBlocksCleared [] [] None None None)) bc.

Definition activate (bc : blockCache) : blockCache := set_disabled false bc.

(** One iteration of [pickBlockToEvict]'s loop; the accumulator is
    [(bestLoadedHash, bestLoadedTime, bestUnloadedHash, bestUnloadedTime,
    hasUnloadedCandidate)]. *)
Record evictAcc := mkEvictAcc {
  bestLoadedHash : blockKey;
  bestLoadedTime : Z;
  bestUnloadedHash : blockKey;
  bestUnloadedTime : Z;
  hasUnloadedCandidate : bool }.

Definition evictStep (loaded : gset string) (a : evictAcc) (e : blockKey * Z) : evictAcc :=
  let '(k, t) := e in
  if bool_decide (bk_modelName k ∈ loaded) then
    if (t <? bestLoadedTime a)%Z then
      mkEvictAcc k t (bestUnloadedHash a) (bestUnloadedTime a) (hasUnloadedCandidate a)
    else a
  else
    if (t <? bestUnloadedTime a)%Z then
      mkEvictAcc (bestLoadedHash a) (bestLoadedTime a) k t true
    else a.

Definition pickBlockToEvict (tnow : Z) (order : list (blockKey * Z)) (bc : blockCache) : blockKey :=
  let a := foldl (evictStep (loadedModels bc))
             (mkEvictAcc zeroKey tnow zeroKey tnow false) order in
  if hasUnloadedCandidate a then bestUnloadedHash a else bestLoadedHash a.

(** The classification loop of [startRequest]. *)
Record classes := mkClasses {
  blocksToAdd : list (blockKey * nat);
  blockToMoveToUsed : list blockKey;
  blockAlreadyInUse : list blockKey;
  lastCachedIdx : Z }.

Definition classifyStep (bc : blockCache) (model : string) (i : nat) (c : classes) (h : Z) : classes :=
  let k := mkBlockKey h model in
  match unusedBlocks bc !! k with
  | Some _ => mkClasses (blocksToAdd c) (blockToMoveToUsed c ++ [k]) (blockAlreadyInUse c) (Z.of_nat i)
  | None =>
      match usedBlocks bc !! k with
      | None => mkClasses (blocksToAdd c ++ [(k, i)]) (blockToMoveToUsed c) (blockAlreadyInUse c) (lastCachedIdx c)
      | Some _ => mkClasses (blocksToAdd c) (blockToMoveToUsed c) (blockAlreadyInUse c ++ [k]) (Z.of_nat i)
      end
  end.

Fixpoint classifyFrom (bc : blockCache) (model : string) (i : nat) (hs : list Z) (c : classes) : classes :=
  match hs with
  | [] => c
  | h :: r => classifyFrom bc model (S i) r (classifyStep bc model i c h)
  end.

Definition classify (bc : blockCache) (model : string) (hs : list Z) : classes :=
  classifyFrom bc model 0 hs (mkClasses [] [] [] (-1)).

(** [bc.usedBlocks[block] += 1]. *)
Definition incUsed (m : gmap blockKey Z) (k : blockKey) : gmap blockKey Z :=
  <[k := (default 0 (m !! k) + 1)%Z]> m.

(** The loop over [blockToMoveToUsed]. *)
Definition moveToUsed (bc : blockCache) (ks : list blockKey) : blockCache :=
  foldl (λ b k, set_unusedBlocks (delete k (unusedBlocks b))
                  (set_usedBlocks (<[k := 1%Z]> (usedBlocks b)) b)) bc ks.

(** The two loops over the blocks that are already in the cache. *)
Definition reuseBlocks (c : classes) (bc : blockCache) : blockCache :=
  let bc := set_usedBlocks (foldl incUsed (usedBlocks bc) (blockAlreadyInUse c)) bc in
  moveToUsed bc (blockToMoveToUsed c).

(** Evict one block: pick, delete, emit the remove event, drop the tokens. *)
Definition evictOne (env : Env) (i : nat) (bc : blockCache) : blockCache :=
  let evictHash := pickBlockToEvict (now env i) (range_unused env i (unusedBlocks bc)) bc in
  let bc := set_unusedBlocks (delete evictHash (unusedBlocks bc)) bc in
  let bc := set_eventChan (WriteToChannel (eventChan bc)
              (mkEventData eventActionRemove (default [] (blockToTokens bc !! evictHash))
                 [bk_hash evictHash] None None None)) bc in
  set_blockToTokens (delete evictHash (blockToTokens bc)) bc.

(** One iteration of the loop over [blocksToAdd]. *)
Definition addBlock (env : Env) (toks : list (list Z)) (i : nat)
    (s : blockCache * list Z * list Z) (b : blockKey * nat) : blockCache * list Z * list Z :=
  let '(bc, hashes, tokens) := s in
  let bc := if bool_decide (Z.of_nat (size (usedBlocks bc)) + Z.of_nat (size (unusedBlocks bc))
                              = maxBlocks bc)%Z
            then evictOne env i bc else bc in
  let blockTokens := default [] (toks !! b.2) in
  let bc := set_blockToTokens (<[b.1 := blockTokens]> (blockToTokens bc)) bc in
  let bc := set_usedBlocks (<[b.1 := 1%Z]> (usedBlocks bc)) bc in
  (bc, hashes ++ [bk_hash b.1], tokens ++ blockTokens).

Fixpoint addBlocks (env : Env) (toks : list (list Z)) (i : nat) (bs : list (blockKey * nat))
    (s : blockCache * list Z * list Z) : blockCache * list Z * list Z :=
  match bs with
  | [] => s
  | b :: r => addBlocks env toks (S i) r (addBlock env toks i s b)
  end.

(** [float64(len(bc.usedBlocks)) / float64(bc.maxBlocks)] to the usage channel, if there is one. *)
Definition reportUsage (bc : blockCache) : blockCache :=
  match usageChan bc with
  | None => bc
  | Some c =>
      set_usageChan (Some (WriteToChannel c
        (mkMetricInfo (fdiv (f_of_Z (Z.of_nat (size (usedBlocks bc)))) (f_of_Z (maxBlocks bc)))
           false))) bc
  end.

(** The store event of the new blocks, if there are any. *)
Definition emitStore (req : Request) (hs : list Z) (c : classes) (hashes tokens : list Z)
    (bc : blockCache) : blockCache :=
  match hashes with
  | [] => bc
  | _ =>
      let parentHash :=
        if (0 <=? lastCachedIdx c)%Z then hs !! Z.to_nat (lastCachedIdx c) else None in
      set_eventChan (WriteToChannel (eventChan bc)
        (mkEventData eventActionStore tokens hashes parentHash
           (GetLoraName req) (GetLoraID req))) bc
  end.

Definition startRequest (env : Env) (req : Request) (hs : list Z) (toks : list (list Z))
    (bc : blockCache) : blockCache * result bcError Z :=
  if disabled bc then (bc, Ok 0%Z)
  else if bool_decide (is_Some (requestToBlocks bc !! GetRequestID req)) then
    (bc, Err (ErrRequestExists (GetRequestID req)))
  else if negb (length hs =? length toks) then
    (bc, Err (ErrInvalidInput (length hs) (length toks)))
  else
    let model := GetDisplayedModel req in
    let c := classify bc model hs in
    if (maxBlocks bc <? Z.of_nat (size (usedBlocks bc)) + Z.of_nat (length (blocksToAdd c))
                        + Z.of_nat (length (blockToMoveToUsed c)))%Z
    then (bc, Err ErrCapacity)
    else
      let bc := reuseBlocks c bc in
      let '(bc, hashes, tokens) := addBlocks env toks 0 (blocksToAdd c) (bc, [], []) in
      let bc := emitStore req hs c hashes tokens bc in
      let bc := set_requestToBlocks
                  (<[GetRequestID req := (λ h, mkBlockKey h model) <$> hs]> (requestToBlocks bc)) bc in
      let bc := reportUsage bc in
      (bc, Ok (Z.of_nat (length (blockAlreadyInUse c)) + Z.of_nat (length (blockToMoveToUsed c)))%Z).

(** One iteration of [finishRequest]'s loop; the accumulator ends with [errBlocks]. *)
Definition releaseBlock (tnow : Z) (s : blockCache * list blockKey) (k : blockKey)
  : blockCache * list blockKey :=
  let '(bc, errBlocks) := s in
  match usedBlocks bc !! k with
  | Some refCount =>
      if (1 <? refCount)%Z then (set_usedBlocks (<[k := (refCount - 1)%Z]> (usedBlocks bc)) bc, errBlocks)
      else (set_usedBlocks (delete k (usedBlocks bc))
              (set_unusedBlocks (<[k := tnow]> (unusedBlocks bc)) bc), errBlocks)
  | None => (bc, errBlocks ++ [k])
  end.

Definition finishRequest (tnow : Z) (requestID : string) (bc : blockCache)
  : blockCache * result bcError unit :=
  if disabled bc then (bc, Ok tt)
  else
    match requestToBlocks bc !! requestID with
    | None => (bc, Ok tt)
    | Some blocks =>
        let '(bc, errBlocks) := foldl (releaseBlock tnow) (bc, []) blocks in
        let bc := reportUsage bc in
        let bc := set_requestToBlocks (delete requestID (requestToBlocks bc)) bc in
        match errBlocks with
        | [] => (bc, Ok tt)
        | _ => (bc, Err (ErrNotExistingBlocks errBlocks requestID))
        end
    end.

Definition getStats (bc : blockCache) : nat * nat * nat :=
  (size (requestToBlocks bc), size (usedBlocks bc) + size (unusedBlocks bc),
   size (unusedBlocks bc)).

Definition getBlockInfo (k : blockKey) (bc : blockCache) : Z * bool :=
  match usedBlocks bc !! k with
  | Some refCount => (refCount, true)
  | None => match unusedBlocks bc !! k with
            | Some _ => (0%Z, true)
            | None => (0%Z, false)
            end
  end.

Fixpoint countPrefix (bc : blockCache) (model : string) (hs : list Z) (count : nat) : nat :=
  match hs with
  | [] => count
  | h :: r =>
      let k := mkBlockKey h model in
      match usedBlocks bc !! k with
      | Some _ => countPrefix bc model r (S count)
      | None => match unusedBlocks bc !! k with
                | Some _ => countPrefix bc model r (S count)
                | None => count
                end
      end
  end.

Definition countCachedBlockPrefix (hs : list Z) (model : string) (bc : blockCache) : nat :=
  if disabled bc then 0 else countPrefix bc model hs 0.

#[global] Arguments evictOne : simpl never.
#[global] Arguments addBlock : simpl never.

(** * Specification *)

(** [k] may be evicted: it is unused, and no other candidate precedes it
    in the order "unloaded models first, then oldest first". *)
Definition lru_victim (loaded : gset string) (unused : gmap blockKey Z) (k : blockKey) : Prop :=
  ∃ t, unused !! k = Some t ∧
    (((bk_modelName k ∉ loaded) ∧
      ∀ k' t', unused !! k' = Some t' → bk_modelName k' ∉ loaded → (t ≤ t')%Z) ∨
     ((∀ k' t', unused !! k' = Some t' → bk_modelName k' ∈ loaded) ∧
      ∀ k' t', unused !! k' = Some t' → (t ≤ t')%Z)).

(** The number of running requests that hold block [k]. *)
Definition holders (k : blockKey) (reqs : gmap string (list blockKey)) : nat :=
  size (filter (λ p : string * list blockKey, k ∈ p.2) reqs).

Definition refcount (n : nat) : option Z := if decide (n = 0) then None else Some (Z.of_nat n).

(** The set of blocks in the cache. *)
Definition cached (bc : blockCache) : gset blockKey := dom (usedBlocks bc) ∪ dom (unusedBlocks bc).

(** The representation invariant; [T] bounds every recorded release time. *)
Record Inv (T : Z) (bc : blockCache) : Prop := mkInv {
  inv_ref : ∀ k, usedBlocks bc !! k = refcount (holders k (requestToBlocks bc));
  inv_nodup : ∀ id bs, requestToBlocks bc !! id = Some bs → NoDup bs;
  inv_disj : usedBlocks bc ##ₘ unusedBlocks bc;
  inv_tokens : dom (blockToTokens bc) = cached bc;
  inv_cap : (Z.of_nat (size (usedBlocks bc)) + Z.of_nat (size (unusedBlocks bc)) ≤ maxBlocks bc)%Z;
  inv_time : ∀ k t, unusedBlocks bc !! k = Some t → (t ≤ T)%Z;
  inv_disabled : disabled bc = true →
    requestToBlocks bc = ∅ ∧ unusedBlocks bc = ∅;
  inv_chan : chan_wf (eventChan bc) }.

(** ** Eviction order *)

(** The loop is two independent searches for the first minimum. *)
Definition unloaded_of (loaded : gset string) (l : list (blockKey * Z)) : list (blockKey * Z) :=
  filter (λ e, bk_modelName e.1 ∉ loaded) l.
Definition loaded_of (loaded : gset string) (l : list (blockKey * Z)) : list (blockKey * Z) :=
  filter (λ e, bk_modelName e.1 ∈ loaded) l.

Lemma foldl_evictStep loaded l a :
  let r := foldl (evictStep loaded) a l in
  (bestLoadedHash r, bestLoadedTime r) =
    foldl minStep (bestLoadedHash a, bestLoadedTime a) (loaded_of loaded l) ∧
  (bestUnloadedHash r, bestUnloadedTime r) =
    foldl minStep (bestUnloadedHash a, bestUnloadedTime a) (unloaded_of loaded l).
Proof.
  revert a. induction l as [|[k t] l IH]; intros a; [done|].
  cbn [foldl]. destruct (IH (evictStep loaded a (k, t))) as [E1 E2]. cbv zeta. rewrite E1, E2.
  unfold evictStep, loaded_of, unloaded_of. rewrite !filter_cons. simpl.
  case_bool_decide; repeat case_decide; try done; simpl; unfold minStep; simpl;
    by destruct (_ <? _)%Z.
Qed.

Lemma foldl_evictStep_has_mono loaded l a :
  hasUnloadedCandidate a = true → hasUnloadedCandidate (foldl (evictStep loaded) a l) = true.
Proof.
  revert a. induction l as [|[k t] l IH]; intros a Ha; [done|]. simpl. apply IH.
  unfold evictStep. case_bool_decide; by destruct (_ <? _)%Z.
Qed.

Lemma foldl_evictStep_has loaded l a :
  (∀ e, e ∈ l → (e.2 < bestUnloadedTime a)%Z) →
  hasUnloadedCandidate (foldl (evictStep loaded) a l) =
    (hasUnloadedCandidate a || bool_decide (unloaded_of loaded l ≠ [])).
Proof.
  revert a. induction l as [|[k t] l IH]; intros a Hlt; simpl; [by rewrite orb_false_r|].
  unfold unloaded_of. rewrite filter_cons. simpl.
  assert (t < bestUnloadedTime a)%Z by (apply (Hlt (k, t)); left).
  destruct (decide (bk_modelName k ∈ loaded)) as [Hk|Hk];
    [rewrite (bool_decide_true (_ ∈ _)) by done | rewrite (bool_decide_false (_ ∈ _)) by done];
    case_decide; try done.
  - destruct (_ <? bestLoadedTime a)%Z; (rewrite IH; [done|]); intros e He; apply Hlt; by right.
  - rewrite (bool_decide_true (_ ≠ _)) by done. rewrite orb_true_r.
    destruct (Z.ltb_spec t (bestUnloadedTime a)); [|lia]. by apply foldl_evictStep_has_mono.
Qed.

Lemma pickBlockToEvict_victim tnow order bc :
  order ≡ₚ map_to_list (unusedBlocks bc) →
  unusedBlocks bc ≠ ∅ →
  (∀ k t, unusedBlocks bc !! k = Some t → (t < tnow)%Z) →
  lru_victim (loadedModels bc) (unusedBlocks bc) (pickBlockToEvict tnow order bc).
Proof.
  intros Hperm Hne Hlt. unfold pickBlockToEvict.
  set (a0 := mkEvictAcc zeroKey tnow zeroKey tnow false).
  assert (Hin : ∀ e, e ∈ order ↔ unusedBlocks bc !! e.1 = Some e.2).
  { intros [k t]. rewrite Hperm. apply elem_of_map_to_list. }
  assert (Hlo : ∀ e, e ∈ order → (e.2 < tnow)%Z) by (intros [k t] ?%Hin; eauto).
  destruct (foldl_evictStep (loadedModels bc) order a0) as [EL EU].
  rewrite (foldl_evictStep_has _ _ a0) by done. simpl.
  set (r := foldl _ a0 order) in *. case_bool_decide as Hu; simpl in EL, EU.
  - pose proof (foldl_minStep_in (unloaded_of (loadedModels bc) order) (zeroKey, tnow) Hu
      ltac:(intros e [? ?]%list_elem_of_filter; eauto)) as [Hm1 Hm2]%list_elem_of_filter.
    rewrite <- EU in Hm1, Hm2. exists (bestUnloadedTime r). split; [by apply Hin in Hm2|]. left.
    split; [done|]. intros k' t' Hk' Hun.
    pose proof (proj2 (foldl_minStep_le (unloaded_of (loadedModels bc) order) (zeroKey, tnow)) (k', t')) as Hle.
    rewrite <- EU in Hle. apply Hle. apply list_elem_of_filter. by rewrite Hin.
  - assert (Hall : ∀ e, e ∈ order → bk_modelName e.1 ∈ loadedModels bc).
    { intros e He. destruct (decide (bk_modelName e.1 ∈ loadedModels bc)); [done|].
      assert (e ∈ unloaded_of (loadedModels bc) order) as Hx by (by apply list_elem_of_filter).
      rewrite Hu in Hx. by apply not_elem_of_nil in Hx. }
    assert (loaded_of (loadedModels bc) order = order) as E.
    { by apply list_filter_all. }
    rewrite E in EL.
    assert (order ≠ []) as Hone.
    { intros ->. apply Hne, map_to_list_empty_iff. symmetry. by apply Permutation_nil_l. }
    pose proof (foldl_minStep_in order (zeroKey, tnow) Hone Hlo) as Hm. rewrite <- EL in Hm.
    exists (bestLoadedTime r). split; [by apply Hin in Hm|]. right. split.
    + intros k' t' Hk'. by apply (Hall (k', t')), Hin.
    + intros k' t' Hk'. pose proof (proj2 (foldl_minStep_le order (zeroKey, tnow)) (k', t')) as Hle.
      rewrite <- EL in Hle. by apply Hle, Hin.
Qed.

(** ** Classification *)

Definition keysOf (model : string) (hs : list Z) : list blockKey := (λ h, mkBlockKey h model) <$> hs.

Lemma keysOf_NoDup model hs : NoDup hs → NoDup (keysOf model hs).
Proof. apply NoDup_fmap_2. intros x y [=]. done. Qed.

Definition isNew (bc : blockCache) (k : blockKey) : Prop := unusedBlocks bc !! k = None ∧ usedBlocks bc !! k = None.
Definition isIdle (bc : blockCache) (k : blockKey) : Prop := is_Some (unusedBlocks bc !! k).
Definition isBusy (bc : blockCache) (k : blockKey) : Prop := unusedBlocks bc !! k = None ∧ is_Some (usedBlocks bc !! k).

Lemma classifyFrom_spec bc model i hs c :
  let c' := classifyFrom bc model i hs c in
  (blocksToAdd c').*1 = (blocksToAdd c).*1 ++ filter (isNew bc) (keysOf model hs) ∧
  blockToMoveToUsed c' = blockToMoveToUsed c ++ filter (isIdle bc) (keysOf model hs) ∧
  blockAlreadyInUse c' = blockAlreadyInUse c ++ filter (isBusy bc) (keysOf model hs).
Proof.
  revert i c. induction hs as [|h hs IH]; intros i c; cbn [classifyFrom]; cbv zeta.
  { by rewrite !app_nil_r. }
  destruct (IH (S i) (classifyStep bc model i c h)) as (-> & -> & ->).
  unfold classifyStep, keysOf. rewrite fmap_cons, !filter_cons. unfold isNew, isIdle, isBusy.
  destruct (unusedBlocks bc !! mkBlockKey h model) eqn:E1; [|destruct (usedBlocks bc !! mkBlockKey h model) eqn:E2];
    repeat case_decide; simpl; rewrite ?fmap_app, <- ?app_assoc; simpl; try done;
    exfalso; clear IH; naive_solver.
Qed.

Lemma classify_spec bc model hs :
  let c := classify bc model hs in
  (blocksToAdd c).*1 = filter (isNew bc) (keysOf model hs) ∧
  blockToMoveToUsed c = filter (isIdle bc) (keysOf model hs) ∧
  blockAlreadyInUse c = filter (isBusy bc) (keysOf model hs).
Proof. apply (classifyFrom_spec bc model 0 hs). Qed.

(** ** Reference counting *)

Lemma foldl_incUsed_lookup ks (m : gmap blockKey Z) k :
  NoDup ks → (∀ k, k ∈ ks → is_Some (m !! k)) →
  foldl incUsed m ks !! k = if decide (k ∈ ks) then (λ n, n + 1)%Z <$> m !! k else m !! k.
Proof.
  revert m. induction ks as [|x ks IH]; intros m Hnd Hin; simpl; [done|].
  apply NoDup_cons in Hnd as [Hx Hnd]. rewrite IH; [|done|].
  - rewrite decide_elem_of_cons. unfold incUsed. destruct (decide (k = x)) as [->|Hne].
    + destruct (Hin x ltac:(left)) as [n Hn]. rewrite lookup_insert_eq, Hn.
      by rewrite decide_False by done.
    + by rewrite lookup_insert_ne by done.
  - intros y Hy. unfold incUsed. rewrite lookup_insert_is_Some'. right. apply Hin. by right.
Qed.

Lemma foldl_insert_lookup (ks : list blockKey) (m : gmap blockKey Z) k :
  foldl (λ m k, <[k := 1%Z]> m) m ks !! k = if decide (k ∈ ks) then Some 1%Z else m !! k.
Proof.
  revert m. induction ks as [|x ks IH]; intros m; simpl; [done|].
  rewrite IH, decide_elem_of_cons, lookup_insert. repeat case_decide; congruence.
Qed.

Lemma foldl_delete_lookup {A} (ks : list blockKey) (m : gmap blockKey A) k :
  foldl (λ m k, delete k m) m ks !! k = if decide (k ∈ ks) then None else m !! k.
Proof.
  revert m. induction ks as [|x ks IH]; intros m; simpl; [done|].
  rewrite IH, decide_elem_of_cons, lookup_delete. repeat case_decide; congruence.
Qed.

(** The loop over [blockToMoveToUsed] as two independent map updates. *)
Lemma moveToUsed_eq bc ks :
  moveToUsed bc ks =
    set_unusedBlocks (foldl (λ m k, delete k m) (unusedBlocks bc) ks)
      (set_usedBlocks (foldl (λ m k, <[k := 1%Z]> m) (usedBlocks bc) ks) bc).
Proof.
  unfold moveToUsed. revert bc. induction ks as [|k ks IH]; intros bc; [by destruct bc|].
  cbn [foldl]. by rewrite IH.
Qed.

Lemma holders_insert k id bs reqs :
  reqs !! id = None →
  holders k (<[id := bs]> reqs) = (if decide (k ∈ bs) then 1 else 0) + holders k reqs.
Proof.
  intros Hid. unfold holders. case_decide as Hk.
  - rewrite map_filter_insert_True by done. rewrite map_size_insert_None; [done|].
    apply map_lookup_filter_None. left. done.
  - rewrite map_filter_insert_False by done. rewrite delete_id by done. done.
Qed.

Lemma holders_delete k id bs reqs :
  reqs !! id = Some bs →
  holders k reqs = (if decide (k ∈ bs) then 1 else 0) + holders k (delete id reqs).
Proof.
  intros Hid. rewrite <- (insert_id reqs id bs) at 1 by done.
  rewrite <- insert_delete_eq. apply holders_insert. apply lookup_delete_eq.
Qed.

Lemma holders_pos k id bs reqs : reqs !! id = Some bs → k ∈ bs → holders k reqs ≠ 0.
Proof. intros H Hk. rewrite (holders_delete _ _ _ _ H). rewrite decide_True by done. lia. Qed.

(** ** Adding blocks *)

Definition insertAll (m : gmap blockKey Z) (ks : list blockKey) : gmap blockKey Z :=
  foldl (λ m k, <[k := 1%Z]> m) m ks.
Definition deleteAll {A} (m : gmap blockKey A) (ks : list blockKey) : gmap blockKey A :=
  foldl (λ m k, delete k m) m ks.

(** [e] tells the listeners that block [v] left the cache. *)
Definition removeEventOf (v : blockKey) (e : EventData) : Prop :=
  ev_action e = eventActionRemove ∧ ev_hashes e = [bk_hash v].

(** The caches before and after a run of evictions [vs] and insertions [ks],
    which emits the events [evs]. *)
Record Added (ks vs : list blockKey) (evs : list EventData) (bc bc' : blockCache) : Prop := mkAdded {
  ad_used : usedBlocks bc' = insertAll (usedBlocks bc) ks;
  ad_unused : unusedBlocks bc' = deleteAll (unusedBlocks bc) vs;
  ad_nodup : NoDup vs;
  ad_victims : ∀ v, v ∈ vs → is_Some (unusedBlocks bc !! v);
  ad_evs : Forall2 removeEventOf vs evs;
  ad_chan : chan_room (eventChan bc) (length evs) →
            chan_buf (eventChan bc') = chan_buf (eventChan bc) ++ evs;
  ad_chan_cap : chan_cap (eventChan bc') = chan_cap (eventChan bc);
  ad_chan_wf : chan_wf (eventChan bc) → chan_wf (eventChan bc');
  ad_reqs : requestToBlocks bc' = requestToBlocks bc;
  ad_loaded : loadedModels bc' = loadedModels bc;
  ad_max : maxBlocks bc' = maxBlocks bc;
  ad_usage : usageChan bc' = usageChan bc;
  ad_disabled : disabled bc' = disabled bc }.

Lemma Added_refl bc : Added [] [] [] bc bc.
Proof. by constructor; rewrite ?app_nil_r; try constructor; set_solver. Qed.

Lemma Added_trans ks1 vs1 evs1 ks2 vs2 evs2 bc bc1 bc2 :
  Added ks1 vs1 evs1 bc bc1 → Added ks2 vs2 evs2 bc1 bc2 →
  Added (ks1 ++ ks2) (vs1 ++ vs2) (evs1 ++ evs2) bc bc2.
Proof.
  intros [] [].
  assert (∀ v, v ∈ vs2 → (v ∉ vs1) ∧ is_Some (unusedBlocks bc !! v)) as Hvs2.
  { intros v Hv. specialize (ad_victims1 v Hv). rewrite ad_unused0 in ad_victims1.
    unfold deleteAll in ad_victims1. rewrite foldl_delete_lookup in ad_victims1.
    case_decide; [by destruct ad_victims1|done]. }
  constructor; try congruence; auto.
  - unfold insertAll in *. rewrite foldl_app. congruence.
  - unfold deleteAll in *. rewrite foldl_app. congruence.
  - apply NoDup_app. naive_solver.
  - intros v [|]%elem_of_app; naive_solver.
  - by apply Forall2_app.
  - unfold chan_room in *. rewrite length_app. intros Hroom.
    rewrite ad_chan1 by (rewrite ad_chan_cap0, ad_chan0, ?length_app by lia; lia).
    rewrite ad_chan0 by lia. by rewrite app_assoc.
Qed.

Lemma evictOne_added env i bc :
  EnvOk env → unusedBlocks bc ≠ ∅ →
  (∀ k t, unusedBlocks bc !! k = Some t → (t < now env i)%Z) →
  ∃ v e, lru_victim (loadedModels bc) (unusedBlocks bc) v ∧
    Added [] [v] [e] bc (evictOne env i bc) ∧
    blockToTokens (evictOne env i bc) = delete v (blockToTokens bc).
Proof.
  intros Henv Hne Hlt.
  pose proof (pickBlockToEvict_victim _ _ bc (Henv i _) Hne Hlt) as Hv.
  set (v := pickBlockToEvict _ _ bc) in *.
  exists v, (mkEventData eventActionRemove (default [] (blockToTokens bc !! v)) [bk_hash v] None None None).
  split; [done|]. split; [|done].
  unfold evictOne. constructor; simpl; rewrite ?WriteToChannel_cap; auto with simdb.
  - apply NoDup_singleton.
  - intros ? ->%list_elem_of_singleton. destruct Hv as (t & Ht & _). eauto.
  - by constructor.
  - intros Hroom. by rewrite WriteToChannel_room.
Qed.

(** The part of the invariant the insertion loop maintains. *)
Record Body (bc : blockCache) : Prop := mkBody {
  body_disj : usedBlocks bc ##ₘ unusedBlocks bc;
  body_tokens : dom (blockToTokens bc) = cached bc;
  body_cap : (Z.of_nat (size (usedBlocks bc)) + Z.of_nat (size (unusedBlocks bc)) ≤ maxBlocks bc)%Z }.

Lemma evictOne_body env i bc v e :
  Body bc → Added [] [v] [e] bc (evictOne env i bc) →
  blockToTokens (evictOne env i bc) = delete v (blockToTokens bc) →
  Body (evictOne env i bc) ∧
  S (size (unusedBlocks (evictOne env i bc))) = size (unusedBlocks bc).
Proof.
  intros [Hd Ht Hc] [Hu Hun _ Hv _ _ _ _ _ _ Hm _ _] Htok. cbn [insertAll deleteAll foldl] in Hu, Hun.
  destruct (Hv v ltac:(left)) as [t Hvt].
  assert (Hs : S (size (delete v (unusedBlocks bc))) = size (unusedBlocks bc)).
  { rewrite map_size_delete_Some by eauto. assert (size (unusedBlocks bc) ≠ 0); [|lia].
    intros E%map_size_empty_iff. by rewrite E, lookup_empty in Hvt. }
  rewrite Hun. split; [|exact Hs]. constructor.
  - rewrite Hu, Hun. by apply map_disjoint_delete_r.
  - unfold cached in *. rewrite Htok, Hu, Hun, !dom_delete_L, Ht.
    assert (v ∉ dom (usedBlocks bc)) by (apply not_elem_of_dom; by eapply map_disjoint_Some_r).
    set_solver.
  - rewrite Hu, Hun, Hm. lia.
Qed.

Lemma insertBlock_body k ts bc :
  Body bc → usedBlocks bc !! k = None → unusedBlocks bc !! k = None →
  (Z.of_nat (size (usedBlocks bc)) + Z.of_nat (size (unusedBlocks bc)) < maxBlocks bc)%Z →
  Body (set_usedBlocks (<[k := 1%Z]> (usedBlocks bc))
          (set_blockToTokens (<[k := ts]> (blockToTokens bc)) bc)).
Proof.
  intros [Hd Ht Hc] Hk1 Hk2 Hlt. constructor; simpl.
  - by apply map_disjoint_insert_l_2.
  - unfold cached in *. simpl. rewrite !dom_insert_L, Ht. set_solver.
  - rewrite map_size_insert_None by done. lia.
Qed.

Lemma addBlock_spec env toks i bc hs ts k idx :
  EnvOk env → Body bc → usedBlocks bc !! k = None → unusedBlocks bc !! k = None →
  (Z.of_nat (size (usedBlocks bc)) < maxBlocks bc)%Z →
  (∀ k t, unusedBlocks bc !! k = Some t → (t < now env i)%Z) →
  ∃ bc' vs evs,
    addBlock env toks i (bc, hs, ts) (k, idx) = (bc', hs ++ [bk_hash k], ts ++ default [] (toks !! idx)) ∧
    Added [k] vs evs bc bc' ∧ length vs ≤ 1 ∧ Body bc'.
Proof.
  intros Henv Hb Hk1 Hk2 Hroom Htime. unfold addBlock. simpl. case_bool_decide as Hfull.
  - assert (unusedBlocks bc ≠ ∅) as Hne by (intros E; rewrite E, map_size_empty in Hfull; lia).
    destruct (evictOne_added env i bc Henv Hne Htime) as (v & e & _ & Had & Htok).
    destruct (evictOne_body env i bc v e Hb Had Htok) as [Hb' Hsz].
    eexists _, [v], [e]. split; [done|]. split; [|split; [done|]].
    + apply (Added_trans [] [v] [e] [k] [] [] bc (evictOne env i bc) _ Had).
      constructor; simpl; rewrite ?app_nil_r; try done; set_solver by constructor.
    + apply insertBlock_body; rewrite ?(ad_used _ _ _ _ _ Had), ?(ad_max _ _ _ _ _ Had); try done;
        [|cbn [insertAll foldl]; lia].
      rewrite (ad_unused _ _ _ _ _ Had). cbn [deleteAll foldl]. by apply lookup_delete_None; right.
  - eexists _, [], []. split; [done|]. split; [|split; [simpl; lia|]].
    + constructor; simpl; rewrite ?app_nil_r; try done; set_solver by constructor.
    + apply insertBlock_body; try done. pose proof (body_cap _ Hb). lia.
Qed.

Lemma addBlocks_spec env toks i bs bc hs ts :
  EnvOk env → Body bc → NoDup bs.*1 →
  (∀ k, k ∈ bs.*1 → usedBlocks bc !! k = None ∧ unusedBlocks bc !! k = None) →
  (Z.of_nat (size (usedBlocks bc)) + Z.of_nat (length bs) ≤ maxBlocks bc)%Z →
  (∀ i k t, unusedBlocks bc !! k = Some t → (t < now env i)%Z) →
  ∃ bc' ts' vs evs,
    addBlocks env toks i bs (bc, hs, ts) = (bc', hs ++ (bk_hash <$> bs.*1), ts') ∧
    Added bs.*1 vs evs bc bc' ∧ length vs ≤ length bs ∧ Body bc'.
Proof.
  intros Henv. revert i bc hs ts. induction bs as [|[k idx] bs IH]; intros i bc hs ts Hb Hnd Hfr Hroom Htime.
  { exists bc, ts, [], []. rewrite app_nil_r. split; [done|]. split; [apply Added_refl|done]. }
  cbn [addBlocks]. simpl in Hnd, Hroom. apply NoDup_cons in Hnd as [Hk Hnd].
  destruct (Hfr k ltac:(left)) as [Hk1 Hk2].
  destruct (addBlock_spec env toks i bc hs ts k idx) as (bc1 & vs1 & evs1 & -> & Had1 & Hlen1 & Hb1);
    eauto; [lia|].
  destruct (IH (S i) bc1 (hs ++ [bk_hash k]) (ts ++ default [] (toks !! idx)))
    as (bc2 & ts2 & vs2 & evs2 & -> & Had2 & Hlen2 & Hb2); auto.
  - intros k' Hk'. destruct (Hfr k' ltac:(by right)) as [H1 H2].
    rewrite (ad_used _ _ _ _ _ Had1), (ad_unused _ _ _ _ _ Had1). simpl. unfold deleteAll.
    rewrite lookup_insert_ne by set_solver. rewrite foldl_delete_lookup. by case_decide.
  - rewrite (ad_used _ _ _ _ _ Had1), (ad_max _ _ _ _ _ Had1). simpl.
    rewrite map_size_insert_None by done. lia.
  - intros i' k' t'. rewrite (ad_unused _ _ _ _ _ Had1). unfold deleteAll.
    rewrite foldl_delete_lookup. case_decide; [done|]. apply Htime.
  - exists bc2, ts2, (vs1 ++ vs2), (evs1 ++ evs2). simpl. rewrite <- app_assoc. split; [done|].
    split; [|split; [rewrite length_app; lia|done]].
    apply (Added_trans [k] vs1 evs1 bs.*1 vs2 evs2 bc bc1 bc2 Had1 Had2).
Qed.

(** ** Reusing cached blocks *)

Lemma refcount_None n : refcount n = None ↔ n = 0.
Proof. unfold refcount. case_decide; naive_solver. Qed.

Lemma reuse_used bc model hs k :
  NoDup hs → usedBlocks bc ##ₘ unusedBlocks bc →
  usedBlocks (reuseBlocks (classify bc model hs) bc) !! k =
    if decide (k ∈ keysOf model hs ∧ ¬ isNew bc k)
    then Some (default 0 (usedBlocks bc !! k) + 1)%Z else usedBlocks bc !! k.
Proof.
  intros Hnd Hdis. pose proof (keysOf_NoDup model hs Hnd) as Hk.
  destruct (classify_spec bc model hs) as (_ & Hmv & Hin).
  unfold reuseBlocks. rewrite moveToUsed_eq. simpl. rewrite foldl_insert_lookup, foldl_incUsed_lookup.
  - rewrite Hmv, Hin. rewrite map_disjoint_spec in Hdis.
    repeat case_decide; rewrite ?list_elem_of_filter in *; unfold isNew, isIdle, isBusy in *;
      destruct (unusedBlocks bc !! k) eqn:E1, (usedBlocks bc !! k) eqn:E2;
      simpl; try done; exfalso; naive_solver.
  - rewrite Hin. by apply NoDup_filter.
  - intros k'. rewrite Hin. intros [[_ ?] _]%list_elem_of_filter. done.
Qed.

Lemma reuse_unused bc model hs k :
  unusedBlocks (reuseBlocks (classify bc model hs) bc) !! k =
    if decide (k ∈ keysOf model hs) then None else unusedBlocks bc !! k.
Proof.
  destruct (classify_spec bc model hs) as (_ & Hmv & Hin).
  unfold reuseBlocks. rewrite moveToUsed_eq. simpl. rewrite foldl_delete_lookup, Hmv.
  repeat case_decide; rewrite ?list_elem_of_filter in *; unfold isIdle in *;
    destruct (unusedBlocks bc !! k) eqn:E; naive_solver.
Qed.

Lemma reuse_frame c bc :
  requestToBlocks (reuseBlocks c bc) = requestToBlocks bc ∧
  blockToTokens (reuseBlocks c bc) = blockToTokens bc ∧
  loadedModels (reuseBlocks c bc) = loadedModels bc ∧
  maxBlocks (reuseBlocks c bc) = maxBlocks bc ∧
  eventChan (reuseBlocks c bc) = eventChan bc ∧
  usageChan (reuseBlocks c bc) = usageChan bc ∧
  disabled (reuseBlocks c bc) = disabled bc.
Proof. unfold reuseBlocks. by rewrite moveToUsed_eq. Qed.

Lemma cached_size bc :
  usedBlocks bc ##ₘ unusedBlocks bc →
  size (cached bc) = size (usedBlocks bc) + size (unusedBlocks bc).
Proof.
  intros Hd. unfold cached. rewrite size_union by (by apply map_disjoint_dom).
  by rewrite !size_dom.
Qed.

Lemma reuse_cached bc model hs :
  NoDup hs → usedBlocks bc ##ₘ unusedBlocks bc →
  cached (reuseBlocks (classify bc model hs) bc) = cached bc.
Proof.
  intros Hnd Hd. apply set_eq. intros k. unfold cached. rewrite !elem_of_union, !elem_of_dom.
  rewrite (reuse_used _ _ _ _ Hnd Hd), reuse_unused. unfold isNew.
  repeat case_decide; destruct (usedBlocks bc !! k) eqn:E1, (unusedBlocks bc !! k) eqn:E2; naive_solver.
Qed.

Lemma reuse_body bc model hs : NoDup hs → Body bc → Body (reuseBlocks (classify bc model hs) bc).
Proof.
  intros Hnd [Hd Ht Hc]. set (c := classify bc model hs).
  destruct (reuse_frame c bc) as (_ & Etok & _ & Emax & _).
  assert (Hd' : usedBlocks (reuseBlocks c bc) ##ₘ unusedBlocks (reuseBlocks c bc)).
  { apply map_disjoint_spec. intros k x y. unfold c. rewrite (reuse_used _ _ _ _ Hnd Hd), reuse_unused.
    rewrite map_disjoint_spec in Hd. repeat case_decide; naive_solver. }
  constructor; [done| |].
  - rewrite Etok, Ht. unfold c. by rewrite reuse_cached.
  - pose proof (cached_size _ Hd). pose proof (cached_size _ Hd') as E. unfold c in E.
    rewrite reuse_cached in E by done. rewrite Emax. unfold c. lia.
Qed.

Lemma reuse_size bc model hs :
  NoDup hs → usedBlocks bc ##ₘ unusedBlocks bc →
  size (usedBlocks (reuseBlocks (classify bc model hs) bc)) =
    size (usedBlocks bc) + length (blockToMoveToUsed (classify bc model hs)).
Proof.
  intros Hnd Hd. destruct (classify_spec bc model hs) as (_ & Hmv & _).
  rewrite <- !size_dom, Hmv.
  rewrite <- (size_list_to_set (C := gset blockKey) (filter _ _)) by (apply NoDup_filter, keysOf_NoDup; done).
  rewrite <- size_union.
  - f_equal. apply set_eq. intros k. rewrite elem_of_union, elem_of_list_to_set, list_elem_of_filter, !elem_of_dom.
    rewrite (reuse_used _ _ _ _ Hnd Hd). unfold isNew, isIdle. rewrite map_disjoint_spec in Hd.
    repeat case_decide; destruct (usedBlocks bc !! k) eqn:E1, (unusedBlocks bc !! k) eqn:E2; naive_solver.
  - intros k. rewrite elem_of_list_to_set, list_elem_of_filter, elem_of_dom. intros [x Hx] [[y Hy] _].
    rewrite map_disjoint_spec in Hd. naive_solver.
Qed.

(** ** [startRequest] *)

Lemma reportUsage_frame bc :
  requestToBlocks (reportUsage bc) = requestToBlocks bc ∧
  usedBlocks (reportUsage bc) = usedBlocks bc ∧
  unusedBlocks (reportUsage bc) = unusedBlocks bc ∧
  blockToTokens (reportUsage bc) = blockToTokens bc ∧
  loadedModels (reportUsage bc) = loadedModels bc ∧
  maxBlocks (reportUsage bc) = maxBlocks bc ∧
  eventChan (reportUsage bc) = eventChan bc ∧
  disabled (reportUsage bc) = disabled bc.
Proof. unfold reportUsage. by destruct (usageChan bc). Qed.

(** The blocks of a request that are in the cache before it starts. *)
Definition reused (bc : blockCache) (model : string) (hs : list Z) : list blockKey :=
  filter (λ k, ¬ isNew bc k) (keysOf model hs).
(** The blocks of a request that are not. *)
Definition fresh (bc : blockCache) (model : string) (hs : list Z) : list blockKey :=
  filter (isNew bc) (keysOf model hs).

(** The store event of a request with at least one new block. *)
Definition storeEventOf (req : Request) (ks : list blockKey) (e : EventData) : Prop :=
  ev_action e = eventActionStore ∧ ev_hashes e = bk_hash <$> ks ∧
  ev_loraName e = GetLoraName req ∧ ev_loraID e = GetLoraID req.

(** What a successful [startRequest] does to the cache. *)
Record Started (req : Request) (hs : list Z) (bc bc' : blockCache) : Prop := mkStarted {
  st_reqs : requestToBlocks bc' =
    <[GetRequestID req := keysOf (GetDisplayedModel req) hs]> (requestToBlocks bc);
  st_used : ∀ k, usedBlocks bc' !! k =
    if decide (k ∈ keysOf (GetDisplayedModel req) hs)
    then Some (default 0 (usedBlocks bc !! k) + 1)%Z else usedBlocks bc !! k;
  st_body : Body bc';
  st_frame : loadedModels bc' = loadedModels bc ∧ maxBlocks bc' = maxBlocks bc ∧
    disabled bc' = disabled bc ∧ chan_cap (eventChan bc') = chan_cap (eventChan bc) ∧
    (chan_wf (eventChan bc) → chan_wf (eventChan bc'));
  st_evict : ∃ vs evs,
    NoDup vs ∧ length vs ≤ length (fresh bc (GetDisplayedModel req) hs) ∧
    (∀ v, v ∈ vs → is_Some (unusedBlocks bc !! v) ∧ (v ∉ keysOf (GetDisplayedModel req) hs)) ∧
    (∀ k, unusedBlocks bc' !! k =
       if decide (k ∈ keysOf (GetDisplayedModel req) hs ∨ k ∈ vs) then None else unusedBlocks bc !! k) ∧
    Forall2 removeEventOf vs evs ∧
    match fresh bc (GetDisplayedModel req) hs with
    | [] => chan_buf (eventChan bc') = chan_buf (eventChan bc)
    | ks => ∃ e, storeEventOf req ks e ∧
              (chan_room (eventChan bc) (S (length evs)) →
               chan_buf (eventChan bc') = chan_buf (eventChan bc) ++ evs ++ [e])
    end }.

(** The clock has moved past every recorded release, and a [range] is a permutation. *)
Definition FreshEnv (env : Env) (bc : blockCache) : Prop :=
  EnvOk env ∧ ∀ i k t, unusedBlocks bc !! k = Some t → (t < now env i)%Z.

(** The capacity test of [startRequest]. *)
Definition fits (bc : blockCache) (model : string) (hs : list Z) : Prop :=
  (Z.of_nat (size (usedBlocks bc)) + Z.of_nat (length (fresh bc model hs))
   + Z.of_nat (length (filter (isIdle bc) (keysOf model hs))) ≤ maxBlocks bc)%Z.

#[global] Instance fits_dec bc model hs : Decision (fits bc model hs).
Proof. unfold fits. apply _. Defined.

Lemma reused_length bc model hs :
  let c := classify bc model hs in
  length (blockAlreadyInUse c) + length (blockToMoveToUsed c) = length (reused bc model hs).
Proof.
  cbv zeta. destruct (classify_spec bc model hs) as (_ & -> & ->). unfold reused.
  induction (keysOf model hs) as [|k ks IH]; [done|].
  rewrite !filter_cons. repeat case_decide; simpl; unfold isNew, isIdle, isBusy in *;
    try lia; exfalso; clear IH; destruct (unusedBlocks bc !! k), (usedBlocks bc !! k); naive_solver.
Qed.

Lemma fits_classify bc model hs :
  let c := classify bc model hs in
  fits bc model hs ↔
  (Z.of_nat (size (usedBlocks bc)) + Z.of_nat (length (blocksToAdd c))
   + Z.of_nat (length (blockToMoveToUsed c)) ≤ maxBlocks bc)%Z.
Proof.
  cbv zeta. destruct (classify_spec bc model hs) as (Ha & -> & _). unfold fits, fresh.
  by rewrite <- Ha, length_fmap.
Qed.

Lemma reuse_pre env bc model hs :
  NoDup hs → Body bc → FreshEnv env bc → fits bc model hs →
  let c := classify bc model hs in
  let bc1 := reuseBlocks c bc in
  Body bc1 ∧ NoDup (blocksToAdd c).*1 ∧
  (∀ k, k ∈ (blocksToAdd c).*1 → usedBlocks bc1 !! k = None ∧ unusedBlocks bc1 !! k = None) ∧
  (Z.of_nat (size (usedBlocks bc1)) + Z.of_nat (length (blocksToAdd c)) ≤ maxBlocks bc1)%Z ∧
  (∀ i k t, unusedBlocks bc1 !! k = Some t → (t < now env i)%Z).
Proof.
  intros Hnd Hb [_ Ht] Hfit. cbv zeta.
  destruct (classify_spec bc model hs) as (Ha & Hm & _). pose proof (body_disj _ Hb) as Hd.
  split; [by apply reuse_body|]. rewrite Ha. split; [by apply NoDup_filter, keysOf_NoDup|]. split; [|split].
  - intros k [Hnew Hk]%list_elem_of_filter. rewrite reuse_used, reuse_unused by done.
    unfold isNew in *. destruct Hnew as [E1 E2]. rewrite E1, E2. repeat case_decide; naive_solver.
  - rewrite reuse_size by done. destruct (reuse_frame (classify bc model hs) bc) as (_ & _ & _ & -> & _).
    apply fits_classify in Hfit. lia.
  - intros i k t. rewrite reuse_unused. case_decide; [done|]. apply Ht.
Qed.

Lemma Added_started req hs bc vs evs bc2 ts :
  let model := GetDisplayedModel req in
  let c := classify bc model hs in
  NoDup hs → Body bc → chan_wf (eventChan bc) → Body bc2 →
  Added (fresh bc model hs) vs evs (reuseBlocks c bc) bc2 →
  length vs ≤ length (fresh bc model hs) →
  let bc3 := emitStore req hs c (bk_hash <$> fresh bc model hs) ts bc2 in
  Started req hs bc (reportUsage (set_requestToBlocks
    (<[GetRequestID req := keysOf model hs]> (requestToBlocks bc3)) bc3)).
Proof.
  intros model c Hnd Hb Hwf Hb2 Had Hlen bc3.
  destruct (reuse_frame c bc) as (Er & _ & El & Em & Ee & _ & Edis). pose proof (body_disj _ Hb) as Hd.
  destruct Had as [Au Aun And Avs Aev Ach Acap Awf Ar Alo Am _ Adis].
  rewrite Ee in Ach, Acap, Awf.
  assert (Hbc3 : requestToBlocks bc3 = requestToBlocks bc2 ∧ usedBlocks bc3 = usedBlocks bc2 ∧
    unusedBlocks bc3 = unusedBlocks bc2 ∧ blockToTokens bc3 = blockToTokens bc2 ∧
    loadedModels bc3 = loadedModels bc2 ∧ maxBlocks bc3 = maxBlocks bc2 ∧ disabled bc3 = disabled bc2 ∧
    chan_cap (eventChan bc3) = chan_cap (eventChan bc2) ∧
    (chan_wf (eventChan bc2) → chan_wf (eventChan bc3))).
  { unfold bc3, emitStore. destruct (_ <$> _); simpl; rewrite ?WriteToChannel_cap; auto 10 with simdb. }
  destruct Hbc3 as (B1 & B2 & B3 & B4 & B5 & B6 & B7 & B8 & B9).
  set (bc4 := set_requestToBlocks _ bc3).
  destruct (reportUsage_frame bc4) as (R1 & R2 & R3 & R4 & R5 & R6 & R7 & R8).
  assert (Hunused : ∀ k, unusedBlocks bc2 !! k =
    if decide (k ∈ keysOf model hs ∨ k ∈ vs) then None else unusedBlocks bc !! k).
  { intros k. rewrite Aun. unfold deleteAll. rewrite foldl_delete_lookup. unfold c. rewrite reuse_unused.
    repeat case_decide; naive_solver. }
  constructor.
  - rewrite R1. simpl. by rewrite B1, Ar, Er.
  - intros k. rewrite R2. simpl. rewrite B2, Au. unfold insertAll, c. rewrite foldl_insert_lookup.
    rewrite reuse_used by done. unfold fresh. repeat case_decide;
      rewrite ?list_elem_of_filter in *; try done; try (exfalso; naive_solver).
    unfold isNew in *. destruct (usedBlocks bc !! k) eqn:E; [exfalso; naive_solver|done].
  - destruct Hb2 as [? Htk ?]. constructor; unfold cached in *; rewrite ?R2, ?R3, ?R4, ?R6; simpl;
      rewrite ?B2, ?B3, ?B4, ?B6; done.
  - rewrite R5, R6, R7, R8. simpl. rewrite B5, B6, B7, B8. split_and!; try congruence. auto.
  - exists vs, evs. split; [done|]. split; [done|]. split; [|split; [|split; [done|]]].
    + intros v Hv. specialize (Avs v Hv). unfold c in Avs. rewrite reuse_unused in Avs.
      case_decide; [by destruct Avs|done].
    + intros k. rewrite R3. simpl. by rewrite B3.
    + rewrite R7. simpl. unfold bc3, emitStore. fold model. destruct (fresh bc model hs) as [|k ks]; simpl.
      * destruct vs; [|simpl in Hlen; lia]. inversion Aev; subst. rewrite Ach; [by rewrite app_nil_r|].
        unfold chan_room, chan_wf in *. simpl. lia.
      * eexists. split; cycle 1; [intros Hroom; rewrite WriteToChannel_room|].
        -- simpl. rewrite Ach; [by rewrite app_assoc|]. unfold chan_room in *. lia.
        -- unfold chan_room in *. rewrite Acap, Ach; [rewrite length_app; lia|]. unfold chan_room. lia.
        -- done.
Qed.

Lemma startRequest_started env req hs toks bc :
  disabled bc = false → requestToBlocks bc !! GetRequestID req = None →
  length hs = length toks → NoDup hs → Body bc → chan_wf (eventChan bc) → FreshEnv env bc →
  fits bc (GetDisplayedModel req) hs →
  ∃ bc', startRequest env req hs toks bc =
           (bc', Ok (Z.of_nat (length (reused bc (GetDisplayedModel req) hs)))) ∧
         Started req hs bc bc'.
Proof.
  intros Hdis Hid Hlen Hnd Hb Hwf Henv Hfit. set (model := GetDisplayedModel req) in *.
  destruct (reuse_pre env bc model hs Hnd Hb Henv Hfit) as (P1 & P2 & P3 & P4 & P5).
  destruct (addBlocks_spec env toks 0 _ _ [] [] (proj1 Henv) P1 P2 P3 P4 P5)
    as (bc2 & ts & vs & evs & Eadd & Had & Hvs & Hb2).
  destruct (classify_spec bc model hs) as (Ha & Hm & _).
  unfold startRequest. rewrite Hdis, Hid. rewrite bool_decide_false by (by intros []).
  rewrite (proj2 (Nat.eqb_eq _ _) Hlen). cbn [negb]. cbv zeta. fold model.
  apply fits_classify in Hfit. rewrite (proj2 (Z.ltb_ge _ _)) by lia. rewrite Eadd. cbn [app].
  rewrite <- Nat2Z.inj_add, reused_length. eexists. split; [done|]. fold model.
  rewrite <- (length_fmap fst), Ha in Hvs. rewrite Ha in *.
  apply (Added_started req hs bc vs evs bc2 ts Hnd Hb Hwf Hb2 Had Hvs).
Qed.

(** ** [finishRequest] *)

(** What releasing the blocks [ks] at time [tnow] does to the cache. *)
Record Released (tnow : Z) (ks : list blockKey) (bc bc' : blockCache) : Prop := mkReleased {
  rl_used : ∀ k, usedBlocks bc' !! k =
    if decide (k ∈ ks) then
      match usedBlocks bc !! k with
      | Some n => if (1 <? n)%Z then Some (n - 1)%Z else None
      | None => None
      end
    else usedBlocks bc !! k;
  rl_unused : ∀ k, unusedBlocks bc' !! k =
    if decide (k ∈ ks) then
      match usedBlocks bc !! k with
      | Some n => if (1 <? n)%Z then unusedBlocks bc !! k else Some tnow
      | None => unusedBlocks bc !! k
      end
    else unusedBlocks bc !! k;
  rl_frame : requestToBlocks bc' = requestToBlocks bc ∧ blockToTokens bc' = blockToTokens bc ∧
    loadedModels bc' = loadedModels bc ∧ maxBlocks bc' = maxBlocks bc ∧
    eventChan bc' = eventChan bc ∧ usageChan bc' = usageChan bc ∧ disabled bc' = disabled bc }.

Lemma foldl_releaseBlock tnow ks bc errs :
  NoDup ks → (∀ k, k ∈ ks → is_Some (usedBlocks bc !! k)) →
  ∃ bc', foldl (releaseBlock tnow) (bc, errs) ks = (bc', errs) ∧ Released tnow ks bc bc'.
Proof.
  revert bc. induction ks as [|x ks IH]; intros bc Hnd Hin; [by exists bc|].
  apply NoDup_cons in Hnd as [Hx Hnd]. destruct (Hin x ltac:(left)) as [n Hn].
  assert (∃ bc1, releaseBlock tnow (bc, errs) x = (bc1, errs) ∧ Released tnow [x] bc bc1) as (bc1 & E1 & R1).
  { unfold releaseBlock. rewrite Hn. destruct (1 <? n)%Z eqn:El; (eexists; split; [done|]); constructor; simpl; try done;
      intros k; rewrite decide_elem_of_cons; destruct (decide (k = x)) as [->|];
      rewrite ?lookup_insert_eq, ?lookup_insert_ne, ?lookup_delete_eq, ?lookup_delete_ne, ?Hn, ?El by done; done. }
  cbn [foldl]. rewrite E1. destruct R1 as [U1 N1 F1].
  destruct (IH bc1 Hnd) as (bc2 & E2 & [U2 N2 F2]).
  { intros k Hk. rewrite U1, decide_False by set_solver. apply Hin. by right. }
  exists bc2. split; [done|].
  assert (Hxks : ∀ k, k ∈ ks → usedBlocks bc1 !! k = usedBlocks bc !! k ∧ unusedBlocks bc1 !! k = unusedBlocks bc !! k).
  { intros k Hk. rewrite U1, N1, !decide_False by set_solver. done. }
  constructor; [intros k; rewrite U2 | intros k; rewrite N2 | destruct_and!; split_and!; congruence];
    rewrite decide_elem_of_cons; destruct (decide (k ∈ ks)) as [Hk|Hk];
    try (destruct (Hxks k Hk) as [-> ->]); try (rewrite U1); try (rewrite N1);
    repeat case_decide; set_solver.
Qed.

Lemma Released_cached tnow ks bc bc' :
  (∀ k, k ∈ ks → is_Some (usedBlocks bc !! k)) → Released tnow ks bc bc' → cached bc' = cached bc.
Proof.
  intros Hin [U N _]. apply set_eq. intros k. unfold cached. rewrite !elem_of_union, !elem_of_dom, U, N.
  case_decide as Hk; [|done]. destruct (Hin k Hk) as [n ->]. destruct (1 <? n)%Z; naive_solver.
Qed.

Lemma Released_disj tnow ks bc bc' :
  usedBlocks bc ##ₘ unusedBlocks bc → Released tnow ks bc bc' → usedBlocks bc' ##ₘ unusedBlocks bc'.
Proof.
  rewrite !map_disjoint_spec. intros Hd [U N _] k x y. rewrite U, N. specialize (Hd k).
  destruct (usedBlocks bc !! k) as [n|]; repeat case_decide; try destruct (1 <? n)%Z; naive_solver.
Qed.

Lemma Inv_body T bc : Inv T bc → Body bc.
Proof. intros []. by constructor. Qed.

Lemma Inv_in_use T bc id ks :
  Inv T bc → requestToBlocks bc !! id = Some ks → ∀ k, k ∈ ks → is_Some (usedBlocks bc !! k).
Proof.
  intros HI Hid k Hk. rewrite (inv_ref _ _ HI). unfold refcount.
  rewrite decide_False; [eauto|]. by eapply holders_pos.
Qed.

(** The invariant survives a release followed by the removal of the request. *)
Lemma finish_inv T tnow id ks bc bc' :
  Inv T bc → (T ≤ tnow)%Z → requestToBlocks bc !! id = Some ks → Released tnow ks bc bc' →
  Inv tnow (set_requestToBlocks (delete id (requestToBlocks bc)) bc').
Proof.
  intros HI HT Hid HR. pose proof (Inv_in_use _ _ _ _ HI Hid) as Hin.
  pose proof (Released_cached _ _ _ _ Hin HR) as Hc.
  pose proof (Released_disj _ _ _ _ (inv_disj _ _ HI) HR) as Hd.
  destruct HI as [Href Hnd Hdis Htok Hcap Htime Hdsb Hch], HR as [U N (F1 & F2 & F3 & F4 & F5 & F6 & F7)].
  constructor; simpl.
  - intros k. rewrite U. specialize (Href k). rewrite (holders_delete k id ks _ Hid) in Href.
    case_decide as Hk; [|by rewrite Href]. rewrite Href. unfold refcount.
    rewrite decide_False by lia. case_decide as Hz; [by rewrite Hz|].
    destruct (Z.ltb_spec 1 (Z.of_nat (1 + holders k (delete id (requestToBlocks bc))))); [f_equal; lia|lia].
  - intros id' bs. rewrite lookup_delete. case_decide; [done|]. apply Hnd.
  - done.
  - unfold cached in *. simpl. by rewrite F2, Htok, Hc.
  - pose proof (cached_size _ Hd) as E1. pose proof (cached_size _ Hdis) as E2. rewrite Hc in E1. rewrite F4. lia.
  - intros k t. rewrite N. specialize (Htime k t).
    destruct (usedBlocks bc !! k) as [n|]; repeat case_decide; try destruct (1 <? n)%Z;
      intros; simplify_eq; try lia; assert (t ≤ T)%Z by auto; lia.
  - rewrite F7. intros [Hr Hu]%Hdsb. by rewrite Hr, lookup_empty in Hid.
  - by rewrite F5.
Qed.
End BlockCache.
