(* ===== verification/BlockCacheProps.v ===== *)
(** Properties of the KV block cache: the invariant of every reachable cache,
    the outcome of each operation on every branch, the eviction policy, and
    the agreement of the emitted event stream with the cache's contents. *)

From S2P Require Import Prelude GoFloat BlockCache.
Import BlockCache.

Module BlockCacheProps.

(** * Histories of a cache *)

(** The operations other components call on the cache. *)
Inductive op :=
| OpStart (env : Env) (req : Request) (hs : list Z) (toks : list (list Z))
| OpFinish (tnow : Z) (id : string)
| OpDiscard
| OpActivate
| OpSetLoaded (model : string)
| OpSetUnloaded (model : string).

Definition run (o : op) (bc : blockCache) : blockCache :=
  match o with
  | OpStart env req hs toks => (startRequest env req hs toks bc).1
  | OpFinish tnow id => (finishRequest tnow id bc).1
  | OpDiscard => discard bc
  | OpActivate => activate bc
  | OpSetLoaded m => setModelLoaded m bc
  | OpSetUnloaded m => setModelUnloaded m bc
  end.

(** What holds of the world around an operation when the last release was at [T]:
    the clock does not run backwards, it has ticked since that release when
    a block is evicted, and the blocks of one request are distinct (they
    are a chain of prefix hashes). *)
Definition op_ok (T : Z) (o : op) : Prop :=
  match o with
  | OpStart env _ hs _ => EnvOk env ∧ (∀ i, (T < now env i)%Z) ∧ NoDup hs
  | OpFinish tnow _ => (T ≤ tnow)%Z
  | _ => True
  end.

Definition op_time (T : Z) (o : op) : Z :=
  match o with OpFinish tnow _ => tnow | _ => T end.

(** The caches a simulator can reach; [T] is the time of the last release.
    [reach_recv] is the event sender's goroutine taking an event. *)
Inductive reachable (cfg : Config) : Z → blockCache → Prop :=
| reach_new T uc bc : newBlockCache cfg uc = Ok bc → reachable cfg T bc
| reach_step T bc o : reachable cfg T bc → op_ok T o → reachable cfg (op_time T o) (run o bc)
| reach_recv T bc e c : reachable cfg T bc → chan_recv (eventChan bc) = Some (e, c) →
    reachable cfg T (set_eventChan c bc).

(** * Preservation of the invariant *)

Lemma foldl_setModelLoaded ms bc :
  foldl (λ b m, setModelLoaded m b) bc ms =
    set_loadedModels (foldl (λ s m, {[m]} ∪ s) (loadedModels bc) ms) bc.
Proof. revert bc. induction ms as [|m ms IH]; intros bc; [by destruct bc|]. simpl. by rewrite IH. Qed.

Lemma Inv_set_loadedModels T f bc : Inv T bc → Inv T (set_loadedModels f bc).
Proof. by intros []. Qed.

Lemma Inv_empty T loaded mx ch uc dis :
  (0 ≤ mx)%Z → chan_wf ch → Inv T (mkBlockCache ∅ ∅ ∅ ∅ loaded mx ch uc dis).
Proof.
  intros. by constructor.
Qed.

Lemma newBlockCache_inv cfg uc bc T : newBlockCache cfg uc = Ok bc → Inv T bc.
Proof.
  unfold newBlockCache, NewPublisher. case_bool_decide; [done|]. destruct (if bool_decide _ then _ else _); [|done]. intros [= <-]. rewrite foldl_setModelLoaded.
  apply Inv_set_loadedModels. apply Inv_empty; [simpl; lia|]. unfold chan_wf. simpl. lia.
Qed.

Lemma Started_inv T req hs bc bc' :
  Inv T bc → disabled bc = false → NoDup hs → requestToBlocks bc !! GetRequestID req = None →
  Started req hs bc bc' → Inv T bc'.
Proof.
  intros [Href Hnd Hdis Htok Hcap Htime Hdsb Hch] Hdb Hhs Hid [Sr Su [Sd St Sc] (Fl & Fm & Fd & Fc & Fw) Sev].
  destruct Sev as (vs & evs & _ & _ & _ & Sun & _).
  constructor; auto.
  - intros k. rewrite Su, Sr, holders_insert by done. rewrite Href. unfold refcount.
    repeat case_decide; simpl; first [done | f_equal; lia | exfalso; lia].
  - intros id bs. rewrite Sr, lookup_insert. case_decide; [|apply Hnd].
    intros [= <-]. by apply keysOf_NoDup.
  - intros k t. rewrite Sun. case_decide; [done|]. apply Htime.
  - rewrite Fd, Hdb. done.
Qed.

Lemma FreshEnv_of T env bc : Inv T bc → EnvOk env → (∀ i, (T < now env i)%Z) → FreshEnv env bc.
Proof. intros HI He Ht. split; [done|]. intros i k t Hk%(inv_time _ _ HI). specialize (Ht i). lia. Qed.

(** The outcome of [startRequest] on every branch. *)
Lemma startRequest_cases T env req hs toks bc :
  Inv T bc → op_ok T (OpStart env req hs toks) →
  let r := startRequest env req hs toks bc in
  (disabled bc = true ∧ r = (bc, Ok 0%Z)) ∨
  (disabled bc = false ∧
   ((is_Some (requestToBlocks bc !! GetRequestID req) ∧ r = (bc, Err (ErrRequestExists (GetRequestID req)))) ∨
    (requestToBlocks bc !! GetRequestID req = None ∧
     ((length hs ≠ length toks ∧ r = (bc, Err (ErrInvalidInput (length hs) (length toks)))) ∨
      (length hs = length toks ∧
       ((¬ fits bc (GetDisplayedModel req) hs ∧ r = (bc, Err ErrCapacity)) ∨
        (fits bc (GetDisplayedModel req) hs ∧ ∃ bc', Started req hs bc bc' ∧
           r = (bc', Ok (Z.of_nat (length (reused bc (GetDisplayedModel req) hs))))))))))).
Proof.
  intros HI (He & Ht & Hnd). cbv zeta. destruct (disabled bc) eqn:Ed.
  { left. unfold startRequest. by rewrite Ed. }
  right. split; [done|]. destruct (requestToBlocks bc !! GetRequestID req) eqn:Eid.
  { left. split; [eauto|]. unfold startRequest. rewrite Ed, Eid. by rewrite bool_decide_true by eauto. }
  right. split; [done|]. destruct (decide (length hs = length toks)) as [El|El]; [right|left]; (split; [done|]).
  - destruct (decide (fits bc (GetDisplayedModel req) hs)) as [Hf|Hf]; [right|left]; (split; [done|]).
    + destruct (startRequest_started env req hs toks bc) as (bc' & E & HS);
        eauto using Inv_body, inv_chan, FreshEnv_of.
    + rewrite fits_classify in Hf. unfold startRequest. rewrite Ed, Eid.
      rewrite bool_decide_false by (by intros []). rewrite (proj2 (Nat.eqb_eq _ _) El).
      cbn [negb]. cbv zeta. by rewrite (proj2 (Z.ltb_lt _ _)) by lia.
  - unfold startRequest. rewrite Ed, Eid. rewrite bool_decide_false by (by intros []).
    by rewrite (proj2 (Nat.eqb_neq _ _) El).
Qed.

Lemma finishRequest_cases T tnow id bc :
  Inv T bc → (T ≤ tnow)%Z →
  (finishRequest tnow id bc).2 = Ok tt ∧
  (((disabled bc = true ∨ requestToBlocks bc !! id = None) ∧ (finishRequest tnow id bc).1 = bc) ∨
   (∃ ks bc', requestToBlocks bc !! id = Some ks ∧ Released tnow ks bc bc' ∧
      (finishRequest tnow id bc).1 =
        set_requestToBlocks (delete id (requestToBlocks bc)) (reportUsage bc'))).
Proof.
  intros HI HT. unfold finishRequest. destruct (disabled bc) eqn:Ed; [naive_solver|].
  destruct (requestToBlocks bc !! id) as [ks|] eqn:Eid; [|naive_solver].
  destruct (foldl_releaseBlock tnow ks bc []) as (bc' & -> & HR).
  { by eapply inv_nodup. } { by eapply Inv_in_use. }
  split; [done|]. right. exists ks, bc'. split; [done|]. split; [done|]. simpl.
  destruct (reportUsage_frame bc') as (-> & _). destruct HR as [_ _ (-> & _)]. done.
Qed.

Lemma Inv_reportUsage T reqs bc : Inv T (set_requestToBlocks reqs bc) → Inv T (set_requestToBlocks reqs (reportUsage bc)).
Proof. unfold reportUsage. destruct (usageChan bc); [|done]. by intros []. Qed.

Lemma Inv_mono T T' bc : (T ≤ T')%Z → Inv T bc → Inv T' bc.
Proof. intros ? []. constructor; auto. intros k t Hk. assert (t ≤ T)%Z by eauto. lia. Qed.

Lemma discard_inv T bc : Inv T bc → Inv T (discard bc).
Proof.
  intros HI. apply Inv_empty; [|apply WriteToChannel_wf, HI].
  pose proof (inv_cap _ _ HI). simpl. lia.
Qed.

Lemma activate_inv T bc : Inv T bc → Inv T (activate bc).
Proof. intros []. by constructor. Qed.

Lemma run_inv T o bc : Inv T bc → op_ok T o → Inv (op_time T o) (run o bc).
Proof.
  intros HI Hok. destruct o as [env req hs toks|tnow id| | |m|m]; simpl in *.
  - destruct Hok as (He & Ht & Hnd).
    destruct (startRequest_cases T env req hs toks bc HI (conj He (conj Ht Hnd)))
      as [(_ & ->)|(Ed & [(_ & ->)|(Eid & [(_ & ->)|(_ & [(_ & ->)|(_ & bc' & HS & ->)])])])]; try done.
    by eapply Started_inv.
  - destruct (finishRequest_cases T tnow id bc HI Hok) as [_ [(_ & ->)|(ks & bc' & Eid & HR & ->)]].
    + by eapply Inv_mono.
    + apply Inv_reportUsage. by eapply finish_inv.
  - by apply discard_inv.
  - by apply activate_inv.
  - by apply Inv_set_loadedModels.
  - by apply Inv_set_loadedModels.
Qed.

Lemma reachable_inv cfg T bc : reachable cfg T bc → Inv T bc.
Proof.
  induction 1 as [| |T bc e c Hr IH E].
  - by eapply newBlockCache_inv.
  - by apply run_inv.
  - destruct IH. constructor; auto. simpl. unfold chan_recv, chan_wf in *.
    destruct (chan_buf (eventChan bc)); simplify_eq/=. lia.
Qed.

(** * The event stream *)

(** What a listener that applies the events to a set of block hashes holds. *)
Definition mirror_apply (s : gset Z) (e : EventData) : gset Z :=
  if bool_decide (ev_action e = eventActionStore) then list_to_set (ev_hashes e) ∪ s
  else if bool_decide (ev_action e = eventActionRemove) then s ∖ list_to_set (ev_hashes e)
  else if bool_decide (ev_action e = eventActionAllBlocksCleared) then ∅
  else s.

Definition mirror (evs : list EventData) : gset Z := foldl mirror_apply ∅ evs.

Definition cachedHashes (bc : blockCache) : gset Z := set_map bk_hash (cached bc).

(** The channel has room for what the operation may emit. *)
Definition op_room (o : op) (bc : blockCache) : Prop :=
  match o with
  | OpStart _ _ hs _ => chan_room (eventChan bc) (S (length hs))
  | OpDiscard => chan_room (eventChan bc) 1
  | _ => True
  end.

(** [model_of] recovers the model from a block hash: the hash chain is
    seeded with the model name, so two models do not share a hash. *)
Definition op_coherent (model_of : Z → string) (o : op) : Prop :=
  match o with
  | OpStart _ req hs _ => ∀ h, h ∈ hs → model_of h = GetDisplayedModel req
  | _ => True
  end.

(** Histories in which no event is dropped; [seen] is what the sender has taken so far. *)
Inductive observed (model_of : Z → string) (cfg : Config) : Z → list EventData → blockCache → Prop :=
| obs_new T uc bc : newBlockCache cfg uc = Ok bc → observed model_of cfg T [] bc
| obs_step T seen bc o : observed model_of cfg T seen bc → op_ok T o → op_room o bc →
    op_coherent model_of o → observed model_of cfg (op_time T o) seen (run o bc)
| obs_recv T seen bc e c : observed model_of cfg T seen bc →
    chan_recv (eventChan bc) = Some (e, c) →
    observed model_of cfg T (seen ++ [e]) (set_eventChan c bc).

Lemma observed_reachable model_of cfg T seen bc : observed model_of cfg T seen bc → reachable cfg T bc.
Proof. induction 1; eauto using reachable. Qed.

Definition coherent (model_of : Z → string) (bc : blockCache) : Prop :=
  ∀ k, k ∈ cached bc → bk_modelName k = model_of (bk_hash k).

Lemma mirror_app a b : mirror (a ++ b) = foldl mirror_apply (mirror a) b.
Proof. apply foldl_app. Qed.

Lemma foldl_mirror_remove vs evs s :
  Forall2 removeEventOf vs evs → foldl mirror_apply s evs = s ∖ list_to_set (bk_hash <$> vs).
Proof.
  intros HF. revert s. induction HF as [|v e vs evs [Ha Hh] _ IH]; intros s; simpl; [set_solver|].
  rewrite IH. unfold mirror_apply. rewrite Ha, Hh. simpl. set_solver.
Qed.

Lemma Started_cached req hs bc bc' :
  usedBlocks bc ##ₘ unusedBlocks bc → Started req hs bc bc' →
  ∃ vs evs, (∀ v, v ∈ vs → v ∈ cached bc ∧ (v ∉ keysOf (GetDisplayedModel req) hs)) ∧
    Forall2 removeEventOf vs evs ∧
    length evs ≤ length hs ∧
    cached bc' = (cached bc ∖ list_to_set vs) ∪ list_to_set (keysOf (GetDisplayedModel req) hs) ∧
    match fresh bc (GetDisplayedModel req) hs with
    | [] => chan_buf (eventChan bc') = chan_buf (eventChan bc) ∧ vs = []
    | ks => ∃ e, storeEventOf req ks e ∧
              (chan_room (eventChan bc) (S (length evs)) →
               chan_buf (eventChan bc') = chan_buf (eventChan bc) ++ evs ++ [e])
    end.
Proof.
  intros Hd [_ Su _ _ (vs & evs & _ & Hlen & Hvs & Sun & HF & Hev)].
  exists vs, evs. split; [|split; [done|split; [|split]]].
  - intros v Hv. destruct (Hvs v Hv) as [? ?]. unfold cached. rewrite elem_of_union, !elem_of_dom. auto.
  - rewrite <- (Forall2_length _ _ _ HF). etrans; [exact Hlen|]. unfold fresh.
    etrans; [apply length_filter|]. unfold keysOf. by rewrite length_fmap.
  - apply set_eq. intros k. unfold cached.
    rewrite !elem_of_union, elem_of_difference, elem_of_union, !elem_of_list_to_set, !elem_of_dom, Su, Sun.
    rewrite map_disjoint_spec in Hd. specialize (Hd k). specialize (Hvs k). unfold is_Some in *.
    repeat case_decide; naive_solver.
  - destruct (fresh bc (GetDisplayedModel req) hs); [|done]. split; [done|].
    destruct vs; [done|simpl in Hlen; lia].
Qed.

Lemma set_map_hash_diff model_of (X : gset blockKey) vs :
  (∀ k, k ∈ X → bk_modelName k = model_of (bk_hash k)) → (∀ v, v ∈ vs → v ∈ X) →
  set_map bk_hash (X ∖ list_to_set vs) =@{gset Z} set_map bk_hash X ∖ list_to_set (bk_hash <$> vs).
Proof.
  intros Hco Hvs. apply set_eq. intros h. rewrite elem_of_difference, !elem_of_map, elem_of_list_to_set, list_elem_of_fmap.
  setoid_rewrite elem_of_difference. setoid_rewrite elem_of_list_to_set. split.
  - intros (k & -> & Hk & Hn). split; [eauto|]. intros (v & E & Hv). apply Hn.
    assert (k = v) as ->; [|done]. destruct k, v. simpl in *. f_equal; [done|].
    pose proof (Hco _ Hk). pose proof (Hco _ (Hvs _ Hv)). simpl in *. congruence.
  - intros [(k & -> & Hk) Hn]. exists k. split_and!; try done. intros Hv. apply Hn. eauto.
Qed.

Lemma elem_of_keysOf k model hs : k ∈ keysOf model hs ↔ bk_modelName k = model ∧ bk_hash k ∈ hs.
Proof.
  unfold keysOf. rewrite list_elem_of_fmap. split; [by intros (h & -> & Hh)|].
  intros [E1 E2]. exists (bk_hash k). split; [|done]. destruct k. simpl in *. by subst.
Qed.

Lemma cachedHashes_add (X : gset blockKey) model hs :
  set_map bk_hash (X ∪ list_to_set (keysOf model hs)) =@{gset Z} list_to_set hs ∪ set_map bk_hash X.
Proof.
  apply set_eq. intros h. rewrite elem_of_union, elem_of_map, elem_of_list_to_set, elem_of_map.
  setoid_rewrite elem_of_union. setoid_rewrite elem_of_list_to_set. setoid_rewrite elem_of_keysOf.
  split; [naive_solver|]. intros [Hh|(k & -> & Hk)]; [exists (mkBlockKey h model)|exists k]; naive_solver.
Qed.

(** Starting a request keeps a listener in step. *)
Lemma Started_mirror model_of req hs bc bc' past :
  usedBlocks bc ##ₘ unusedBlocks bc → coherent model_of bc →
  chan_room (eventChan bc) (S (length hs)) → Started req hs bc bc' →
  mirror (past ++ chan_buf (eventChan bc)) = cachedHashes bc →
  mirror (past ++ chan_buf (eventChan bc')) = cachedHashes bc'.
Proof.
  intros Hd Hco Hroom HS Hm.
  destruct (Started_cached _ _ _ _ Hd HS) as (vs & evs & Hvs & HF & Hlen & Hc & Hev).
  set (model := GetDisplayedModel req) in *.
  assert (Hold : ∀ k, k ∈ keysOf model hs → k ∈ fresh bc model hs ∨ (k ∈ cached bc ∧ k ∉ vs)).
  { intros k Hk. unfold fresh. rewrite list_elem_of_filter. destruct (decide (isNew bc k)) as [|Hn]; [by left|right].
    split; [|intros Hv; by destruct (Hvs k Hv)]. unfold cached. rewrite elem_of_union, !elem_of_dom.
    unfold isNew in Hn. destruct (usedBlocks bc !! k), (unusedBlocks bc !! k); naive_solver. }
  assert (Hch : cachedHashes bc' = list_to_set hs ∪ (cachedHashes bc ∖ list_to_set (bk_hash <$> vs))).
  { unfold cachedHashes. rewrite Hc, cachedHashes_add.
    rewrite (set_map_hash_diff model_of) by naive_solver. done. }
  assert (Hhs : ∀ h, h ∈ hs → h ∈ bk_hash <$> fresh bc model hs ∨
                  h ∈ (cachedHashes bc ∖ list_to_set (bk_hash <$> vs) : gset Z)).
  { intros h Hh. destruct (Hold (mkBlockKey h model)) as [Hf|[Hf1 Hf2]]; [by apply elem_of_keysOf|left|right].
    - apply list_elem_of_fmap. by exists (mkBlockKey h model).
    - unfold cachedHashes. rewrite <- (set_map_hash_diff model_of) by naive_solver.
      apply elem_of_map. exists (mkBlockKey h model). set_solver. }
  rewrite Hch. destruct (fresh bc model hs) as [|k ks] eqn:Ef.
  - destruct Hev as [-> ->]. rewrite Hm. simpl in *. set_solver.
  - destruct Hev as (e & (Ha & Hh & _) & Hbuf). rewrite Hbuf by (unfold chan_room in *; lia).
    rewrite app_assoc, mirror_app, Hm, foldl_app, (foldl_mirror_remove vs evs) by done.
    cbn [foldl]. unfold mirror_apply. rewrite Ha, Hh.
    change (bool_decide (eventActionStore = eventActionStore)) with true. cbv iota.
    assert (Hsub : ∀ h, h ∈ bk_hash <$> k :: ks → h ∈ hs).
    { intros h (k' & -> & Hk')%list_elem_of_fmap. rewrite <- Ef in Hk'. unfold fresh in Hk'.
      apply list_elem_of_filter in Hk' as [_ [_ ?]%elem_of_keysOf]. done. }
    set_solver.
Qed.

Lemma Started_coherent model_of req hs bc bc' :
  usedBlocks bc ##ₘ unusedBlocks bc → coherent model_of bc →
  (∀ h, h ∈ hs → model_of h = GetDisplayedModel req) → Started req hs bc bc' → coherent model_of bc'.
Proof.
  intros Hd Hco Hreq HS k. destruct (Started_cached _ _ _ _ Hd HS) as (vs & evs & _ & _ & _ & -> & _).
  rewrite elem_of_union, elem_of_difference, !elem_of_list_to_set, elem_of_keysOf.
  intros [[Hk _]|[-> Hk]]; [by apply Hco|symmetry; by apply Hreq].
Qed.

Lemma finishRequest_keeps T tnow id bc :
  Inv T bc → (T ≤ tnow)%Z →
  cached (finishRequest tnow id bc).1 = cached bc ∧
  eventChan (finishRequest tnow id bc).1 = eventChan bc.
Proof.
  intros HI HT. destruct (finishRequest_cases T tnow id bc HI HT) as [_ [(_ & ->)|(ks & bc' & Eid & HR & ->)]]; [done|].
  destruct (reportUsage_frame bc') as (_ & E1 & E2 & _ & _ & _ & E3 & _). unfold cached. simpl. rewrite E1, E2, E3.
  split; [by apply (Released_cached tnow ks); [eapply Inv_in_use|]|]. by destruct HR as [_ _ (_ & _ & _ & _ & ? & _)].
Qed.

Lemma observed_sync model_of cfg T seen bc :
  observed model_of cfg T seen bc →
  mirror (seen ++ chan_buf (eventChan bc)) = cachedHashes bc ∧ coherent model_of bc.
Proof.
  induction 1 as [T uc bc Hnew|T seen bc o Hobs [IHm IHc] Hok Hroom Hop|T seen bc e c Hobs [IHm IHc] E].
  - unfold newBlockCache, NewPublisher in Hnew. case_bool_decide; [done|]. destruct (if bool_decide _ then _ else _); [|done]. injection Hnew as <-.
    rewrite foldl_setModelLoaded. split; [done|]. by intros k.
  - pose proof (reachable_inv _ _ _ (observed_reachable _ _ _ _ _ Hobs)) as HI.
    destruct o as [env req hs toks|tnow id| | |m|m]; simpl in *; try done.
    + destruct (startRequest_cases T env req hs toks bc HI Hok)
        as [(_ & ->)|(Ed & [(_ & ->)|(Eid & [(_ & ->)|(_ & [(_ & ->)|(_ & bc' & HS & ->)])])])]; try done.
      split; [eapply Started_mirror|eapply Started_coherent]; eauto using inv_disj.
    + destruct (finishRequest_keeps T tnow id bc HI Hok) as [E1 E2].
      unfold cachedHashes, coherent in *. by rewrite E1, E2.
    + unfold discard. simpl. rewrite WriteToChannel_room by done. simpl.
      rewrite app_assoc, mirror_app. split; [done|]. by intros k.
  - unfold chan_recv in E. destruct (chan_buf (eventChan bc)) as [|e' l]; simplify_eq.
    simpl. rewrite <- app_assoc. done.
Qed.

(** * Prefix length *)

Lemma elem_of_cached k bc : k ∈ cached bc ↔ is_Some (usedBlocks bc !! k) ∨ is_Some (unusedBlocks bc !! k).
Proof. unfold cached. by rewrite elem_of_union, !elem_of_dom. Qed.

Lemma countPrefix_spec bc model hs n :
  ∃ m, countPrefix bc model hs n = n + m ∧ m ≤ length hs ∧
    (∀ i h, i < m → hs !! i = Some h → mkBlockKey h model ∈ cached bc) ∧
    (∀ h, hs !! m = Some h → mkBlockKey h model ∉ cached bc).
Proof.
  revert n. induction hs as [|h hs IH]; intros n; simpl.
  { exists 0. split_and!; try lia; try done. }
  destruct (decide (mkBlockKey h model ∈ cached bc)) as [Hc|Hc].
  - destruct (IH (S n)) as (m & E & Hm & H1 & H2). exists (S m). split_and!; [|lia| |done].
    + rewrite elem_of_cached in Hc. destruct (usedBlocks bc !! _); [rewrite E; lia|].
      destruct (unusedBlocks bc !! _); [rewrite E; lia|]. by destruct Hc as [[? ?]|[? ?]].
    + intros [|i] h' Hi Hh; simplify_eq/=; [done|]. apply (H1 i); [lia|done].
  - exists 0. split_and!; [|lia|intros; lia|by intros ? [= <-]].
    rewrite elem_of_cached in Hc. unfold is_Some in Hc.
    destruct (usedBlocks bc !! _); [naive_solver|]. destruct (unusedBlocks bc !! _); [naive_solver|lia].
Qed.

(** * Concrete histories, for the witnesses *)

Definition cfg_ex : Config := mkConfig "10.0.0.1" "tcp://localhost:5557" 2 "base" ["base"].
Definition env_ex (t : Z) : Env := mkEnv (λ _, t) (λ _ m, map_to_list m).
Definition req_ex (id : string) : Request := mkRequest id "base" None None.
Definition bc_new : blockCache :=
  mkBlockCache ∅ ∅ ∅ ∅ {["base"]} 2 (mkChan [] 20) None false.
Definition bc_started : blockCache := run (OpStart (env_ex 1) (req_ex "a") [11; 12]%Z [[1]; [2]]%Z) bc_new.
Definition bc_idle : blockCache := run (OpFinish 10 "a") bc_started.
Definition bc_evicted : blockCache := run (OpStart (env_ex 11) (req_ex "b") [13]%Z [[3]]%Z) bc_idle.
Definition bc_idle2 : blockCache := run (OpFinish 20 "b") bc_evicted.

Lemma env_ex_ok T t hs : (T < t)%Z → bool_decide (NoDup hs) = true →
  ∀ req toks, op_ok T (OpStart (env_ex t) req hs toks).
Proof. intros Ht Hnd%bool_decide_eq_true req toks. split; [by intros i m|]. by split. Qed.

Lemma observed_new : observed (λ _, "base") cfg_ex 0 [] bc_new.
Proof. by eapply (obs_new _ _ 0 None). Qed.
Lemma observed_started : observed (λ _, "base") cfg_ex 0 [] bc_started.
Proof.
  apply (obs_step _ _ 0 [] bc_new (OpStart _ _ _ _) observed_new); [by apply env_ex_ok| |done].
  vm_compute. lia.
Qed.
Lemma observed_idle : observed (λ _, "base") cfg_ex 10 [] bc_idle.
Proof. by apply (obs_step _ _ 0 [] bc_started (OpFinish 10 "a") observed_started). Qed.
Lemma observed_evicted : observed (λ _, "base") cfg_ex 10 [] bc_evicted.
Proof.
  apply (obs_step _ _ 10 [] bc_idle (OpStart _ _ _ _) observed_idle); [by apply env_ex_ok| |done].
  vm_compute. lia.
Qed.
Lemma observed_idle2 : observed (λ _, "base") cfg_ex 20 [] bc_idle2.
Proof. by apply (obs_step _ _ 10 [] bc_evicted (OpFinish 20 "b") observed_evicted). Qed.

Lemma reachable_evicted : reachable cfg_ex 10 bc_evicted.
Proof. exact (observed_reachable _ _ _ _ _ observed_evicted). Qed.
Lemma reachable_idle2 : reachable cfg_ex 20 bc_idle2.
Proof. exact (observed_reachable _ _ _ _ _ observed_idle2). Qed.

(** * Claims *)

(** C1: Every cache reached from [newBlockCache] by any sequence of requests,
    completions, discards, activations, model loads and event deliveries satisfies the
    representation invariant: a block's reference count is the number of
    running requests that hold it, no block is both used and unused, tokens
    are stored for exactly the cached blocks, the number of blocks never
    exceeds [maxBlocks], and a disabled cache is empty.  The conditions are those of
    [op_ok]: the hashes of one request are distinct, the clock does not run backwards,
    and it has advanced since the last completion when a request starts.  The last one
    is needed: a block released at the very time of the eviction is not evicted, and the
    cache then grows beyond [maxBlocks] ([clock_tie_exceeds_capacity]). *)
Theorem block_cache_invariant cfg T bc : reachable cfg T bc → Inv T bc.
Proof. apply reachable_inv. Qed.

Lemma block_cache_invariant_witness : Inv 10 bc_evicted.
Proof. apply (block_cache_invariant cfg_ex 10). exact reachable_evicted. Defined.

(** C11: The outcome of [startRequest] on a reachable cache, branch by branch:
    disabled caches ignore the request; a duplicate id, mismatched inputs
    and insufficient capacity are errors that leave the cache unchanged; and
    otherwise the request is recorded, each of its blocks gains exactly one
    reference, only unused blocks outside the request are evicted (at most one
    per new block), the events describe the change, and the result is the
    number of its blocks that were already cached.  As for the invariant, the hashes of
    the request are distinct and the clock has advanced since the last completion;
    without that, an eviction may find no victim ([clock_tie_exceeds_capacity]). *)
Theorem startRequest_outcome cfg T bc env req hs toks :
  reachable cfg T bc → op_ok T (OpStart env req hs toks) →
  let r := startRequest env req hs toks bc in
  (disabled bc = true ∧ r = (bc, Ok 0%Z)) ∨
  (disabled bc = false ∧
   ((is_Some (requestToBlocks bc !! GetRequestID req) ∧ r = (bc, Err (ErrRequestExists (GetRequestID req)))) ∨
    (requestToBlocks bc !! GetRequestID req = None ∧
     ((length hs ≠ length toks ∧ r = (bc, Err (ErrInvalidInput (length hs) (length toks)))) ∨
      (length hs = length toks ∧
       ((¬ fits bc (GetDisplayedModel req) hs ∧ r = (bc, Err ErrCapacity)) ∨
        (fits bc (GetDisplayedModel req) hs ∧ ∃ bc', Started req hs bc bc' ∧
           r = (bc', Ok (Z.of_nat (length (reused bc (GetDisplayedModel req) hs))))))))))).
Proof. intros HI%reachable_inv. by apply startRequest_cases. Qed.

Lemma startRequest_outcome_witness :
  (startRequest (env_ex 21) (req_ex "c") [12; 14]%Z [[2]; [4]]%Z bc_idle2).2 = Ok 1%Z ∧
  let r := startRequest (env_ex 21) (req_ex "c") [12; 14]%Z [[2]; [4]]%Z bc_idle2 in
  fits bc_idle2 "base" [12; 14]%Z ∧ ∃ bc', Started (req_ex "c") [12; 14]%Z bc_idle2 bc' ∧
    r = (bc', Ok (Z.of_nat (length (reused bc_idle2 "base" [12; 14]%Z)))).
Proof.
  split; [vm_compute; reflexivity|].
  destruct (startRequest_outcome cfg_ex 20 bc_idle2 (env_ex 21) (req_ex "c") [12; 14]%Z [[2]; [4]]%Z
    reachable_idle2 ltac:(by apply env_ex_ok))
    as [(E & _)|(_ & [(E & _)|(_ & [(E & _)|(_ & [(E & _)|Hok])])])]; [..|exact Hok].
  - vm_compute in E. discriminate E.
  - vm_compute in E. destruct E as [? E]. discriminate E.
  - by destruct E.
  - exfalso. apply E. vm_compute. discriminate.
Defined.

(** [finishRequest] never fails on a reachable cache. It keeps every block cached
    and, when the request is running, removes its record and takes exactly one
    reference from each of its blocks, the last reference moving the
    block to the unused set stamped with the completion time. *)
Theorem finishRequest_releases cfg T bc tnow id :
  reachable cfg T bc → (T ≤ tnow)%Z →
  let '(bc', r) := finishRequest tnow id bc in
  r = Ok tt ∧ cached bc' = cached bc ∧
  (disabled bc = false → requestToBlocks bc' = delete id (requestToBlocks bc)) ∧
  (∀ ks k, requestToBlocks bc !! id = Some ks → k ∈ ks → disabled bc = false →
     getBlockInfo k bc' = ((getBlockInfo k bc).1 - 1, true)%Z ∧
     ((getBlockInfo k bc).1 = 1%Z → unusedBlocks bc' !! k = Some tnow)).
Proof.
  intros Hr HT. pose proof (reachable_inv _ _ _ Hr) as HI.
  destruct (finishRequest_cases T tnow id bc HI HT) as [Er Hcase].
  destruct (finishRequest_keeps T tnow id bc HI HT) as [Ec _].
  destruct (finishRequest tnow id bc) as [bc' r] eqn:E. simpl in *.
  split; [done|]. split; [done|].
  destruct Hcase as [([Hd|Hid] & ->)|(ks & bc1 & Hid & HR & ->)].
  - split; [by rewrite Hd|]. intros; congruence.
  - split; [by rewrite delete_id|]. intros ks k E'. by rewrite Hid in E'.
  - split; [done|]. intros ks' k E' Hk _. simplify_eq.
    destruct (Inv_in_use _ _ _ _ HI Hid k Hk) as [n Hn].
    assert (1 ≤ n)%Z.
    { rewrite (inv_ref _ _ HI) in Hn. unfold refcount in Hn. case_decide; simplify_eq. lia. }
    destruct (reportUsage_frame bc1) as (_ & E1 & E2 & _). destruct HR as [U N _].
    unfold getBlockInfo. simpl. rewrite E1, E2, U, N, Hn, !decide_True by done.
    destruct (Z.ltb_spec 1 n); simpl; [split; [done|lia]|]. split; [|done]. f_equal. lia.
Qed.

Lemma finishRequest_releases_witness :
  getBlockInfo (mkBlockKey 13 "base") (finishRequest 20 "b" bc_evicted).1 = (0%Z, true).
Proof.
  pose proof (finishRequest_releases cfg_ex 10 bc_evicted 20 "b" reachable_evicted ltac:(lia)) as H.
  destruct (finishRequest 20 "b" bc_evicted) as [bc' r] eqn:E. destruct H as (_ & _ & _ & H).
  destruct (H [mkBlockKey 13 "base"] (mkBlockKey 13 "base")) as [H1 _];
    [vm_compute; reflexivity|left|vm_compute; reflexivity|]. exact H1.
Defined.

(** Start and finish of one request, on any cache with the invariant. *)
Lemma start_finish_neutral T bc env req hs toks bc' n tnow :
  Inv T bc → op_ok T (OpStart env req hs toks) → disabled bc = false → (T ≤ tnow)%Z →
  startRequest env req hs toks bc = (bc', Ok n) →
  let bc'' := (finishRequest tnow (GetRequestID req) bc').1 in
  requestToBlocks bc'' = requestToBlocks bc ∧ usedBlocks bc'' = usedBlocks bc.
Proof.
  intros HI Hok Hdis HT E.
  pose proof (run_inv _ (OpStart env req hs toks) bc HI Hok) as HI'. simpl in HI'. rewrite E in HI'. simpl in HI'.
  pose proof (run_inv _ (OpFinish tnow (GetRequestID req)) bc' HI' HT) as HI''. simpl in HI''. cbv zeta.
  assert (Hreqs : requestToBlocks (finishRequest tnow (GetRequestID req) bc').1 = requestToBlocks bc).
  { destruct (startRequest_cases T env req hs toks bc HI Hok)
      as [(Ed & _)|(_ & [(_ & E')|(Eid & [(_ & E')|(_ & [(_ & E')|(_ & b & HS & E')])])])]; [congruence..|]. rewrite E in E'. injection E' as <- _.
    destruct HS as [Sr _ _ (_ & _ & Sdis & _) _].
    destruct (finishRequest_cases T tnow (GetRequestID req) bc' HI' HT) as [_ [([Hd|Hid] & _)|(ks & b' & _ & _ & ->)]].
    - congruence.
    - by rewrite Sr, lookup_insert_eq in Hid.
    - simpl. rewrite Sr. by rewrite delete_insert_id. }
  split; [done|]. apply map_eq. intros k. by rewrite (inv_ref _ _ HI''), (inv_ref _ _ HI), Hreqs.
Qed.

(** Starting a request and finishing it is neutral for the other requests:
    the request table and every reference count are what they were before. *)
Theorem start_finish_roundtrip cfg T bc env req hs toks bc' n tnow :
  reachable cfg T bc → op_ok T (OpStart env req hs toks) → disabled bc = false → (T ≤ tnow)%Z →
  startRequest env req hs toks bc = (bc', Ok n) →
  let bc'' := (finishRequest tnow (GetRequestID req) bc').1 in
  requestToBlocks bc'' = requestToBlocks bc ∧ usedBlocks bc'' = usedBlocks bc.
Proof. intros Hr%reachable_inv. by apply start_finish_neutral. Qed.

Lemma start_finish_roundtrip_witness :
  let bc' := (startRequest (env_ex 11) (req_ex "c") [12]%Z [[2]]%Z bc_started).1 in
  usedBlocks (finishRequest 12 "c" bc').1 = usedBlocks bc_started.
Proof.
  apply (start_finish_roundtrip cfg_ex 0 bc_started (env_ex 11) (req_ex "c") [12]%Z [[2]]%Z _ 1%Z 12).
  - exact (observed_reachable _ _ _ _ _ observed_started).
  - by apply env_ex_ok.
  - reflexivity.
  - lia.
  - vm_compute. reflexivity.
Defined.

(** The clock is past every recorded release. *)
Definition clockPast (tnow : Z) (bc : blockCache) : Prop := ∀ k t, unusedBlocks bc !! k = Some t → (t < tnow)%Z.

(** The eviction policy: whatever the iteration order of the map, as long as the clock is past
    every recorded release, the victim is an unused block; it belongs to an unloaded
    model if any unused block does, and is then the oldest of those,
    and otherwise is the oldest unused block. *)
Theorem eviction_policy tnow order bc :
  order ≡ₚ map_to_list (unusedBlocks bc) → unusedBlocks bc ≠ ∅ →
  clockPast tnow bc →
  lru_victim (loadedModels bc) (unusedBlocks bc) (pickBlockToEvict tnow order bc).
Proof. apply pickBlockToEvict_victim. Qed.

Lemma eviction_policy_witness :
  let order := reverse (map_to_list (unusedBlocks bc_idle)) in
  pickBlockToEvict 11 order bc_idle = mkBlockKey 12 "base" ∧
  lru_victim (loadedModels bc_idle) (unusedBlocks bc_idle) (pickBlockToEvict 11 order bc_idle).
Proof.
  split; [vm_compute; reflexivity|].
  apply (eviction_policy 11 (reverse (map_to_list (unusedBlocks bc_idle))) bc_idle).
  - apply reverse_Permutation.
  - intros E. assert (unusedBlocks bc_idle !! mkBlockKey 12 "base" = Some 10%Z) as E' by (vm_compute; reflexivity).
    by rewrite E, lookup_empty in E'.
  - pose proof (inv_time _ _ (reachable_inv _ _ _ (observed_reachable _ _ _ _ _ observed_idle))) as H.
    intros k t Hk%H. lia.
Defined.

(** C12: The event stream refines the cache: in every history in which no event is dropped, a listener that has applied
    the events taken by the sender and those still in the channel holds exactly
    the hashes of the cached blocks. The operations are as for the invariant ([op_ok]), and
    a hash belongs to one model, which is an input of the token processor that computes it. *)
Theorem events_mirror_cache model_of cfg T seen bc :
  observed model_of cfg T seen bc →
  mirror (seen ++ chan_buf (eventChan bc)) = cachedHashes bc.
Proof. intros H. by apply (observed_sync _ _ _ _ _ H). Qed.

Lemma events_mirror_cache_witness :
  mirror (chan_buf (eventChan bc_evicted)) = cachedHashes bc_evicted ∧
  mirror (chan_buf (eventChan bc_evicted)) = {[12; 13]}%Z.
Proof.
  split; [apply (events_mirror_cache (λ _, "base") cfg_ex 10 [] bc_evicted observed_evicted)|].
  vm_compute. reflexivity.
Defined.

(** [countCachedBlockPrefix] is the length of the longest cached prefix, and zero when the cache is
    disabled; directly after a successful [startRequest] every block of the request is
    counted. *)
Theorem cached_prefix_longest hs model bc :
  let n := countCachedBlockPrefix hs model bc in
  (disabled bc = true → n = 0) ∧ n ≤ length hs ∧
  (∀ i h, i < n → hs !! i = Some h → mkBlockKey h model ∈ cached bc) ∧
  (∀ h, disabled bc = false → hs !! n = Some h → mkBlockKey h model ∉ cached bc) ∧
  (∀ cfg T env req toks bc0 m, reachable cfg T bc0 → op_ok T (OpStart env req hs toks) →
     disabled bc0 = false → GetDisplayedModel req = model →
     startRequest env req hs toks bc0 = (bc, Ok m) → n = length hs).
Proof.
  cbv zeta. unfold countCachedBlockPrefix. destruct (countPrefix_spec bc model hs 0) as (m & -> & Hm & H1 & H2).
  split_and!.
  - by intros ->.
  - destruct (disabled bc); simpl; lia.
  - destruct (disabled bc); [intros; lia|done].
  - intros h ->. apply H2.
  - intros cfg T env req toks bc0 m' Hr Hok Hdis Hmod E.
    destruct (startRequest_cases T env req hs toks bc0 (reachable_inv _ _ _ Hr) Hok)
      as [(Ed & _)|(_ & [(_ & E')|(Eid & [(_ & E')|(_ & [(_ & E')|(_ & b & HS & E')])])])]; [congruence..|].
    rewrite E in E'. injection E' as <- _.
    destruct (st_frame _ _ _ _ HS) as (_ & _ & -> & _). rewrite Hdis. simpl.
    destruct (decide (m < length hs)) as [Hlt|]; [|lia].
    destruct (lookup_lt_is_Some_2 hs m Hlt) as [h Hh]. exfalso. apply (H2 h Hh).
    apply elem_of_cached. left. rewrite (st_used _ _ _ _ HS).
    rewrite decide_True; [eauto|]. apply elem_of_keysOf. split; [done|]. by eapply list_elem_of_lookup_2.
Qed.

(** Discarding empties and disables the cache and announces it; until it is
    activated again the cache ignores requests, completions of requests that
    were running succeed without effect, and no prefix is reported. *)
Theorem discard_disables bc env req hs toks tnow id model :
  let d := discard bc in
  cached d = ∅ ∧ requestToBlocks d = ∅ ∧ blockToTokens d = ∅ ∧
  (chan_room (eventChan bc) 1 → mirror (chan_buf (eventChan d)) = ∅) ∧
  startRequest env req hs toks d = (d, Ok 0%Z) ∧ finishRequest tnow id d = (d, Ok tt) ∧
  finishRequest tnow id (activate d) = (activate d, Ok tt) ∧
  countCachedBlockPrefix hs model d = 0.
Proof.
  cbv zeta. split_and!; try done.
  intros Hroom. unfold discard. simpl. rewrite WriteToChannel_room by done. simpl. by rewrite mirror_app.
Qed.

(** The blocks a request finds in the cache need not be a prefix of it. The blocks of a finished
    request carry one release time, so eviction may drop the first block of a
    chain and keep the second. A later request for the chain is then told
    that one block is cached although its cached prefix is empty, and the store event
    names the second block as the parent of the first. *)
Theorem cached_blocks_not_a_prefix :
  ∃ cfg T bc env req hs toks bc' e,
    reachable cfg T bc ∧ op_ok T (OpStart env req hs toks) ∧ hs = [11; 12]%Z ∧
    countCachedBlockPrefix hs (GetDisplayedModel req) bc = 0 ∧
    startRequest env req hs toks bc = (bc', Ok 1%Z) ∧
    last (chan_buf (eventChan bc')) = Some e ∧
    ev_action e = eventActionStore ∧ ev_hashes e = [11]%Z ∧ ev_parentHash e = Some 12%Z.
Proof.
  exists cfg_ex, 20%Z, bc_idle2, (env_ex 21), (req_ex "c"), [11; 12]%Z, [[1]; [2]]%Z.
  eexists _, _. split; [exact reachable_idle2|]. split; [by apply env_ex_ok|].
  split; [done|]. split; [vm_compute; reflexivity|]. split; [vm_compute; reflexivity|].
  split; [vm_compute; reflexivity|]. done.
Qed.

(** The capacity bound needs the clock to have ticked: when [time.Now] still reads the release time of the
    unused blocks, [pickBlockToEvict] returns the zero key, nothing is evicted, and the cache
    grows past [maxBlocks]. *)
Theorem clock_tie_exceeds_capacity :
  ∃ cfg T bc env req hs toks,
    reachable cfg T bc ∧ EnvOk env ∧ (∀ i, now env i = T) ∧ NoDup hs ∧
    pickBlockToEvict (now env 0) (range_unused env 0 (unusedBlocks bc)) bc = zeroKey ∧
    let bc' := (startRequest env req hs toks bc).1 in
    (maxBlocks bc' < Z.of_nat (size (usedBlocks bc')) + Z.of_nat (size (unusedBlocks bc')))%Z.
Proof.
  exists cfg_ex, 10%Z, bc_idle, (env_ex 10), (req_ex "b"), [13]%Z, [[3]]%Z.
  split; [exact (observed_reachable _ _ _ _ _ observed_idle)|]. split; [by intros i m|].
  split; [done|]. split; [apply NoDup_singleton|]. split; vm_compute; reflexivity.
Qed.

End BlockCacheProps.
