(* ===== verification/Lora.v ===== *)
(** LoRA adapters of [pkg/simulator/lora.go]: the registry of available
    adapters, the reference-counted table of loaded ones, the adapter ids, and
    the metrics and cache calls made on the way.  The mutex of
    [lorasUsageInfo] makes each operation atomic. *)

From S2P Require Import Prelude GoFloat BlockCache.

Module Lora.

(** * Data *)

Inductive loraUsageState := waitingUsageState | runningUsageState | doneUsageState.

(** [SimContext] with [lorasUsageInfo] and the scheduler's metric channels in line.
    [loadedLoras] counts the running requests of each loaded adapter; element [i] of
    [loraIDs] is the adapter with id [i+1], empty when the id is free. *)
Record SimContext := mkSimContext {
  ServedModelNames : list string;
  loraAdaptors : gmap string string;
  loadedLoras : gmap string Z;
  loraIDs : list string;
  loraRemovable : Chan Z;
  maxLoras : nat;
  kvcacheHelper : option BlockCache.blockCache;
  waitingReqChan : Chan Z;
  lorasChan : Chan (string * loraUsageState);
  reqQueueTimeChan : Chan f64;
  runReqChan : Chan Z }.

Definition set_loraAdaptors (f : gmap string string) (c : SimContext) : SimContext :=
  mkSimContext (ServedModelNames c) f (loadedLoras c) (loraIDs c) (loraRemovable c) (maxLoras c)
    (kvcacheHelper c) (waitingReqChan c) (lorasChan c) (reqQueueTimeChan c) (runReqChan c).
Definition set_loadedLoras (f : gmap string Z) (c : SimContext) : SimContext :=
  mkSimContext (ServedModelNames c) (loraAdaptors c) f (loraIDs c) (loraRemovable c) (maxLoras c)
    (kvcacheHelper c) (waitingReqChan c) (lorasChan c) (reqQueueTimeChan c) (runReqChan c).
Definition set_loraIDs (f : list string) (c : SimContext) : SimContext :=
  mkSimContext (ServedModelNames c) (loraAdaptors c) (loadedLoras c) f (loraRemovable c) (maxLoras c)
    (kvcacheHelper c) (waitingReqChan c) (lorasChan c) (reqQueueTimeChan c) (runReqChan c).
Definition set_loraRemovable (f : Chan Z) (c : SimContext) : SimContext :=
  mkSimContext (ServedModelNames c) (loraAdaptors c) (loadedLoras c) (loraIDs c) f (maxLoras c)
    (kvcacheHelper c) (waitingReqChan c) (lorasChan c) (reqQueueTimeChan c) (runReqChan c).
Definition set_kvcacheHelper (f : option BlockCache.blockCache) (c : SimContext) : SimContext :=
  mkSimContext (ServedModelNames c) (loraAdaptors c) (loadedLoras c) (loraIDs c) (loraRemovable c)
    (maxLoras c) f (waitingReqChan c) (lorasChan c) (reqQueueTimeChan c) (runReqChan c).
Definition set_waitingReqChan (f : Chan Z) (c : SimContext) : SimContext :=
  mkSimContext (ServedModelNames c) (loraAdaptors c) (loadedLoras c) (loraIDs c) (loraRemovable c)
    (maxLoras c) (kvcacheHelper c) f (lorasChan c) (reqQueueTimeChan c) (runReqChan c).
Definition set_lorasChan (f : Chan (string * loraUsageState)) (c : SimContext) : SimContext :=
  mkSimContext (ServedModelNames c) (loraAdaptors c) (loadedLoras c) (loraIDs c) (loraRemovable c)
    (maxLoras c) (kvcacheHelper c) (waitingReqChan c) f (reqQueueTimeChan c) (runReqChan c).
Definition set_reqQueueTimeChan (f : Chan f64) (c : SimContext) : SimContext :=
  mkSimContext (ServedModelNames c) (loraAdaptors c) (loadedLoras c) (loraIDs c) (loraRemovable c)
    (maxLoras c) (kvcacheHelper c) (waitingReqChan c) (lorasChan c) f (runReqChan c).
Definition set_runReqChan (f : Chan Z) (c : SimContext) : SimContext :=
  mkSimContext (ServedModelNames c) (loraAdaptors c) (loadedLoras c) (loraIDs c) (loraRemovable c)
    (maxLoras c) (kvcacheHelper c) (waitingReqChan c) (lorasChan c) (reqQueueTimeChan c) f.

(** The order in which Go ranges over [loadedLoras]. *)
Definition LoraRange : Type := gmap string Z → list (string * Z).
Definition LoraRangeOk (rng : LoraRange) : Prop := ∀ m, rng m ≡ₚ map_to_list m.

(** * The registry *)

Definition getLoras (s : SimContext) : list string := (map_to_list (loraAdaptors s)).*1.

Definition getLoraPath (name : string) (s : SimContext) : string :=
  match loraAdaptors s !! name with
  | None => name
  | Some path => if bool_decide (path ≠ ""%string) then path else name
  end.

(** The decoded body of a load or unload call, or the decoding error. *)
Definition LoadLoraAdaptor (body : result string (string * string)) (s : SimContext)
  : SimContext * option string :=
  match body with
  | Err e => (s, Some e)
  | Ok (loraName, loraPath) => (set_loraAdaptors (<[loraName := loraPath]> (loraAdaptors s)) s, None)
  end.

Definition UnloadLoraAdaptor (body : result string string) (s : SimContext)
  : SimContext * option string :=
  match body with
  | Err e => (s, Some e)
  | Ok loraName => (set_loraAdaptors (delete loraName (loraAdaptors s)) s, None)
  end.

(** [isLora] compares the model with every registered name. *)
Definition isLora (model : string) (s : SimContext) : bool :=
  existsb (λ lora, bool_decide (model = lora)) (getLoras s).

Definition getDisplayedModelName (reqModel : string) (s : SimContext) : option string :=
  if isLora reqModel s then Some reqModel else head (ServedModelNames s).

Definition isValidModel (model : string) (s : SimContext) : bool :=
  existsb (λ name, bool_decide (model = name)) (ServedModelNames s) ||
  existsb (λ lora, bool_decide (model = lora)) (getLoras s).

(** * Adapter ids *)

Fixpoint assignLoraID (lora : string) (ids : list string) : list string :=
  match ids with
  | [] => []
  | name :: r =>
      if bool_decide (name = lora) then name :: r
      else if bool_decide (name = ""%string) then lora :: r
      else name :: assignLoraID lora r
  end.

Fixpoint freeLoraID (lora : string) (ids : list string) : list string :=
  match ids with
  | [] => []
  | name :: r => if bool_decide (name = lora) then ""%string :: r else name :: freeLoraID lora r
  end.

Fixpoint loraIDFrom (lora : string) (i : nat) (ids : list string) : nat :=
  match ids with
  | [] => 0
  | name :: r => if bool_decide (name = lora) then S i else loraIDFrom lora (S i) r
  end.

Definition GetLoraID (lora : string) (s : SimContext) : nat := loraIDFrom lora 0 (loraIDs s).

(** * Loading and reference counts *)

Definition loraIsLoaded (model : string) (s : SimContext) : bool :=
  if negb (isLora model s) then true
  else bool_decide (is_Some (loadedLoras s !! model)).

(** [s.loras.loadedLoras[model] += d]. *)
Definition addLoaded (model : string) (d : Z) (s : SimContext) : SimContext :=
  set_loadedLoras (<[model := (default 0 (loadedLoras s !! model) + d)%Z]> (loadedLoras s)) s.

Definition onCache (f : BlockCache.blockCache → BlockCache.blockCache) (s : SimContext) : SimContext :=
  set_kvcacheHelper (f <$> kvcacheHelper s) s.

(** Unload the first adapter with no running request, in iteration order. *)
Definition unloadIdle (rng : LoraRange) (s : SimContext) : SimContext * bool :=
  match list_find (λ p, p.2 = 0%Z) (rng (loadedLoras s)) with
  | None => (s, false)
  | Some (_, (lora, _)) =>
      let s := set_loraIDs (freeLoraID lora (loraIDs s)) s in
      let s := onCache (BlockCache.setModelUnloaded lora) s in
      (set_loadedLoras (delete lora (loadedLoras s)) s, true)
  end.

Definition loadLora (rng : LoraRange) (model : string) (s : SimContext) : SimContext * bool :=
  if negb (isLora model s) then (s, true)
  else
    let ok := bool_decide (is_Some (loadedLoras s !! model)) || (size (loadedLoras s) <? maxLoras s) in
    let '(s, ok) := if ok then (s, true) else unloadIdle rng s in
    if ok then
      let s := addLoaded model 1 s in
      let s := set_loraIDs (assignLoraID model (loraIDs s)) s in
      (onCache (BlockCache.setModelLoaded model) s, true)
    else (s, false).

Definition incrementLora (model : string) (s : SimContext) : SimContext :=
  if negb (isLora model s) then s else addLoaded model 1 s.

Definition decrementLora (model : string) (s : SimContext) : SimContext :=
  if bool_decide (model = ""%string) || negb (isLora model s) then s
  else
    let s := addLoaded model (-1) s in
    if (default 0 (loadedLoras s !! model) <=? 0)%Z
    then set_loraRemovable (WriteToChannel (loraRemovable s) 1%Z) s
    else s.

(** * Specification *)

(** The ids in use are the first ones, each held by one loaded adapter. *)
Definition IdsOk (ids : list string) (loaded : gset string) : Prop :=
  ∃ names k, ids = names ++ replicate k ""%string ∧ NoDup names ∧ (""%string ∉ names) ∧
             list_to_set names = loaded.

(** Consistency of the table with the running requests: [active m] of them use [m].  An
    adapter that was unregistered may keep its slot, with a count of zero. *)
Record LoraInv (active : string → nat) (s : SimContext) : Prop := mkLoraInv {
  li_names : loraAdaptors s !! ""%string = None;
  li_count : ∀ m n, loadedLoras s !! m = Some n → n = Z.of_nat (if isLora m s then active m else 0);
  li_loaded : ∀ m, isLora m s = true → active m ≠ 0 → is_Some (loadedLoras s !! m);
  li_max : size (loadedLoras s) ≤ maxLoras s;
  li_ids : IdsOk (loraIDs s) (dom (loadedLoras s));
  li_ids_len : length (loraIDs s) = maxLoras s }.

(** A request for [m] can neither run at once nor displace an idle adapter. *)
Definition blocked (m : string) (s : SimContext) : Prop :=
  isLora m s = true ∧ loadedLoras s !! m = None ∧ maxLoras s ≤ size (loadedLoras s) ∧
  ∀ l n, loadedLoras s !! l = Some n → n ≠ 0%Z.

Lemma isLora_spec m s : isLora m s = true ↔ is_Some (loraAdaptors s !! m).
Proof.
  unfold isLora, getLoras. rewrite existsb_exists. split.
  - intros (x & Hin & ->%bool_decide_eq_true). apply list_elem_of_In, list_elem_of_fmap in Hin as ([k v] & -> & Hin).
    apply elem_of_map_to_list in Hin. eauto.
  - intros [v Hv]. exists m. rewrite bool_decide_eq_true. split; [|done].
    apply list_elem_of_In, list_elem_of_fmap. exists (m, v). split; [done|]. by apply elem_of_map_to_list.
Qed.

Lemma loraIsLoaded_spec m s : loraIsLoaded m s = false ↔ isLora m s = true ∧ loadedLoras s !! m = None.
Proof.
  unfold loraIsLoaded. destruct (isLora m s); simpl; [|naive_solver].
  destruct (loadedLoras s !! m); case_bool_decide as H; naive_solver.
Qed.

(** ** Ids *)

Lemma assignLoraID_present lora names r :
  (""%string ∉ names) → lora ∈ names → assignLoraID lora (names ++ r) = names ++ r.
Proof.
  induction names as [|x names IH]; intros Hne Hin; [by apply not_elem_of_nil in Hin|].
  simpl. case_bool_decide; [done|]. rewrite bool_decide_false by set_solver.
  f_equal. apply IH; set_solver.
Qed.

Lemma assignLoraID_fresh lora names r :
  (""%string ∉ names) → (lora ∉ names) → lora ≠ ""%string →
  assignLoraID lora (names ++ ""%string :: r) = names ++ lora :: r.
Proof.
  induction names as [|x names IH]; intros Hne Hin Hl; simpl.
  - rewrite bool_decide_false by done. done.
  - rewrite !bool_decide_false by set_solver. f_equal. apply IH; set_solver.
Qed.

Lemma freeLoraID_app lora pre post : (lora ∉ pre) → freeLoraID lora (pre ++ lora :: post) = pre ++ ""%string :: post.
Proof.
  induction pre as [|x pre IH]; intros Hin; simpl; [by rewrite bool_decide_true|].
  rewrite bool_decide_false by set_solver. f_equal. apply IH. set_solver.
Qed.

Lemma loraIDFrom_app lora i pre post :
  (lora ∉ pre) → loraIDFrom lora i (pre ++ lora :: post) = S (i + length pre).
Proof.
  revert i. induction pre as [|x pre IH]; intros i Hin; simpl; [rewrite bool_decide_true by done; lia|].
  rewrite bool_decide_false by set_solver. rewrite IH by set_solver. lia.
Qed.

Lemma IdsOk_size ids loaded : IdsOk ids loaded → size loaded ≤ length ids.
Proof.
  intros (names & k & -> & Hnd & _ & <-). rewrite size_list_to_set by done. rewrite length_app. lia.
Qed.

Lemma IdsOk_assign_present lora ids loaded : IdsOk ids loaded → lora ∈ loaded → assignLoraID lora ids = ids.
Proof.
  intros (names & k & -> & Hnd & Hne & <-) Hin. apply assignLoraID_present; [done|].
  by apply elem_of_list_to_set in Hin.
Qed.

Lemma IdsOk_assign_fresh lora ids loaded :
  IdsOk ids loaded → (lora ∉ loaded) → lora ≠ ""%string → size loaded < length ids →
  IdsOk (assignLoraID lora ids) ({[lora]} ∪ loaded) ∧ length (assignLoraID lora ids) = length ids.
Proof.
  intros (names & k & -> & Hnd & Hne & <-) Hin Hl Hlt.
  rewrite size_list_to_set, length_app, length_replicate in Hlt by done.
  destruct k as [|k]; [lia|]. rewrite elem_of_list_to_set in Hin. simpl.
  rewrite assignLoraID_fresh by done. split; [|by rewrite !length_app].
  exists (names ++ [lora]), k. rewrite <- app_assoc. split; [done|]. split.
  - apply NoDup_app. split_and!; [done|set_solver|apply NoDup_singleton].
  - split; set_solver.
Qed.

(** With every id in use, the freed id goes to the newly loaded adapter. *)
Lemma IdsOk_replace old new ids loaded :
  IdsOk ids loaded → old ∈ loaded → (new ∉ loaded) → new ≠ ""%string → length ids = size loaded →
  IdsOk (assignLoraID new (freeLoraID old ids)) ({[new]} ∪ (loaded ∖ {[old]})) ∧
  length (assignLoraID new (freeLoraID old ids)) = length ids.
Proof.
  intros (names & k & -> & Hnd & Hne & <-) Hold Hnew Hn Hlen.
  rewrite size_list_to_set, length_app, length_replicate in Hlen by done.
  assert (k = 0) as -> by lia. simpl. rewrite app_nil_r.
  rewrite elem_of_list_to_set in Hold, Hnew.
  apply list_elem_of_split in Hold as (pre & post & ->).
  apply NoDup_app in Hnd as (Hpre & Hdis & [Ho Hpost]%NoDup_cons).
  assert (Hop : old ∉ pre) by (intros H; apply (Hdis _ H); left).
  rewrite freeLoraID_app by done. rewrite assignLoraID_fresh by set_solver.
  split; [|by rewrite !length_app]. exists (pre ++ new :: post), 0. rewrite app_nil_r. split; [done|].
  split; [|split; set_solver]. apply NoDup_app. split_and!; [done| |apply NoDup_cons; set_solver].
  intros x Hx [->|Hx']%elem_of_cons; [set_solver|]. apply (Hdis x Hx). by right.
Qed.

(** ** Effects on the table *)

Definition bump (m : string) (f : string → nat) : string → nat :=
  λ x, if decide (x = m) then S (f x) else f x.

Lemma bump_eq m f : bump m f m = S (f m).
Proof. unfold bump. by rewrite decide_True. Qed.
Lemma bump_ne m x f : x ≠ m → bump m f x = f x.
Proof. intros. unfold bump. by rewrite decide_False. Qed.

(** The fields [loadLora] does not touch. *)
Definition same_frame (s s' : SimContext) : Prop :=
  ServedModelNames s' = ServedModelNames s ∧ loraAdaptors s' = loraAdaptors s ∧
  loraRemovable s' = loraRemovable s ∧ maxLoras s' = maxLoras s ∧
  waitingReqChan s' = waitingReqChan s ∧ lorasChan s' = lorasChan s.

Lemma same_frame_isLora s s' m : loraAdaptors s' = loraAdaptors s → isLora m s' = isLora m s.
Proof. unfold isLora, getLoras. by intros ->. Qed.

Lemma loraName_nonempty active s m : LoraInv active s → isLora m s = true → m ≠ ""%string.
Proof. intros HI [v Hv]%isLora_spec ->. by rewrite (li_names _ _ HI) in Hv. Qed.

Lemma unloadIdle_spec rng s :
  LoraRangeOk rng →
  match unloadIdle rng s with
  | (s', false) => s' = s ∧ ∀ l n, loadedLoras s !! l = Some n → n ≠ 0%Z
  | (s', true) => ∃ l, loadedLoras s !! l = Some 0%Z ∧ loadedLoras s' = delete l (loadedLoras s) ∧
      loraIDs s' = freeLoraID l (loraIDs s) ∧ same_frame s s' ∧ reqQueueTimeChan s' = reqQueueTimeChan s
  end.
Proof.
  intros Hr. unfold unloadIdle. destruct (list_find _ _) as [[i [l n]]|] eqn:E.
  - apply list_find_Some in E as (Hi & Hn & _). simpl in Hn. subst n. exists l. split_and!; try done.
    apply elem_of_map_to_list. rewrite <- (Hr (loadedLoras s)). by eapply list_elem_of_lookup_2.
  - split; [done|]. intros l n Hl ->. apply list_find_None in E. rewrite Forall_forall in E.
    apply (E (l, 0%Z)); [|done]. rewrite (Hr (loadedLoras s)). by apply elem_of_map_to_list.
Qed.

Lemma LoraInv_add active s m ids :
  LoraInv active s → isLora m s = true → size (<[m := 0%Z]> (loadedLoras s)) ≤ maxLoras s →
  IdsOk ids ({[m]} ∪ dom (loadedLoras s)) → length ids = maxLoras s →
  ∀ s', loadedLoras s' = <[m := (default 0 (loadedLoras s !! m) + 1)%Z]> (loadedLoras s) →
    loraIDs s' = ids → loraAdaptors s' = loraAdaptors s → maxLoras s' = maxLoras s →
    active m = 0 ∨ is_Some (loadedLoras s !! m) → LoraInv (bump m active) s'.
Proof.
  intros [Hn Hc Hl Hm Hi Hil] Hlo Hsz Hids Hlen s' E1 E2 E3 E4 Hact.
  constructor; rewrite ?E1, ?E2, ?E3, ?E4; try done.
  - intros x n. rewrite (same_frame_isLora s) by done. destruct (decide (x = m)) as [->|Hx].
    + rewrite lookup_insert_eq, bump_eq, Hlo. intros [= <-].
      destruct (loadedLoras s !! m) eqn:E; simpl; [pose proof (Hc m z E) as Hz; rewrite Hlo in Hz; lia|]. destruct Hact as [|[? ?]]; [lia|done].
    + rewrite lookup_insert_ne, bump_ne by done. apply Hc.
  - intros x. rewrite (same_frame_isLora s) by done. destruct (decide (x = m)) as [->|Hx].
    + intros _ _. rewrite lookup_insert_eq. eauto.
    + rewrite lookup_insert_ne, bump_ne by done. apply Hl.
  - etrans; [|exact Hsz]. by rewrite <- !size_dom, !dom_insert_L.
  - by rewrite dom_insert_L.
Qed.

Lemma not_loaded_inactive active s m :
  LoraInv active s → isLora m s = true → loadedLoras s !! m = None → active m = 0.
Proof.
  intros HI Hlo Hnone. destruct (active m) as [|n] eqn:E; [done|].
  destruct (li_loaded _ _ HI m Hlo ltac:(lia)) as [? ?]. congruence.
Qed.

Lemma LoraInv_bump_base active s m : LoraInv active s → isLora m s = false → LoraInv (bump m active) s.
Proof.
  intros [Hn Hc Hl Hm Hi Hil] Hb. constructor; try done.
  - intros x n E. rewrite (Hc x n E). destruct (decide (x = m)) as [->|Hx]; [by rewrite Hb|by rewrite bump_ne].
  - intros x Hx. rewrite bump_ne by congruence. by apply Hl.
Qed.

(** The table after an idle adapter made room for [m]. *)
Lemma LoraInv_evict active s l m ids :
  LoraInv active s → isLora m s = true → loadedLoras s !! m = None → loadedLoras s !! l = Some 0%Z →
  IdsOk ids ({[m]} ∪ (dom (loadedLoras s) ∖ {[l]})) → length ids = maxLoras s →
  ∀ s', loadedLoras s' = <[m := 1%Z]> (delete l (loadedLoras s)) →
    loraIDs s' = ids → loraAdaptors s' = loraAdaptors s → maxLoras s' = maxLoras s → LoraInv (bump m active) s'.
Proof.
  intros HI Hlo Em El Hids Hlen s' E1 E2 E3 E4. pose proof (not_loaded_inactive _ _ _ HI Hlo Em) as H0.
  destruct HI as [Hn Hc Hl Hm Hi Hil].
  constructor; rewrite ?E1, ?E2, ?E3, ?E4; try done.
  - intros x n. rewrite (same_frame_isLora s) by done. destruct (decide (x = m)) as [->|Hx].
    + rewrite lookup_insert_eq, bump_eq, H0, Hlo. intros [= <-]. done.
    + rewrite lookup_insert_ne, bump_ne by done. intros [_ E]%lookup_delete_Some. by apply Hc.
  - intros x. rewrite (same_frame_isLora s) by done. destruct (decide (x = m)) as [->|Hx].
    + intros _ _. rewrite lookup_insert_eq. eauto.
    + rewrite lookup_insert_ne, bump_ne by done. intros Hx' Ha. rewrite lookup_delete_ne; [by apply Hl|].
      intros ->. pose proof (Hc _ _ El) as Hz. rewrite Hx' in Hz. lia.
  - rewrite map_size_insert_None by (rewrite lookup_delete_None; by right).
    rewrite map_size_delete_Some by eauto.
    assert (size (loadedLoras s) ≠ 0); [|lia]. intros Hz%map_size_empty_inv. by rewrite Hz, lookup_empty in El.
  - by rewrite dom_insert_L, dom_delete_L.
Qed.

(** [loadLora] either admits one more request for the model, or changes
    nothing because the model is blocked. *)
Lemma loadLora_spec active rng m s :
  LoraRangeOk rng → LoraInv active s →
  match loadLora rng m s with
  | (s', true) => LoraInv (bump m active) s' ∧ same_frame s s' ∧ reqQueueTimeChan s' = reqQueueTimeChan s ∧
                  ¬ blocked m s ∧ (isLora m s = true → is_Some (loadedLoras s' !! m))
  | (s', false) => s' = s ∧ blocked m s
  end.
Proof.
  intros Hr HI. unfold loadLora, blocked. destruct (isLora m s) eqn:Hlo; simpl.
  2:{ split; [by apply LoraInv_bump_base|]. split; [done|]. split; [done|]. split; naive_solver. }
  pose proof (loraName_nonempty _ _ _ HI Hlo) as Hne.
  destruct (loadedLoras s !! m) as [n|] eqn:Em; simpl.
  - split; [|split; [done|split; [done|split; [naive_solver|]]]].
    + eapply (LoraInv_add active s m (loraIDs s)); simpl; rewrite ?Em; eauto.
      * rewrite <- size_dom, dom_insert_lookup_L by eauto. rewrite size_dom. apply HI.
      * replace ({[m]} ∪ dom (loadedLoras s)) with (dom (loadedLoras s)); [apply HI|].
        apply elem_of_dom_2 in Em. set_solver.
      * apply HI.
      * apply (IdsOk_assign_present _ _ (dom (loadedLoras s))); [apply HI|by eapply elem_of_dom_2].
    + intros _. simpl. rewrite lookup_insert_eq. eauto.
  - destruct (Nat.ltb_spec (size (loadedLoras s)) (maxLoras s)) as [Hlt|Hge].
    + destruct (IdsOk_assign_fresh m (loraIDs s) (dom (loadedLoras s))) as [Hi Hil];
        [apply HI|by apply not_elem_of_dom|done|rewrite size_dom, (li_ids_len _ _ HI); lia|].
      split; [|split; [done|split; [done|split; [intros (_ & _ & ? & _); lia|]]]].
      * eapply (LoraInv_add active s m); simpl; rewrite ?Em; eauto using not_loaded_inactive.
        -- rewrite map_size_insert_None by done. lia.
        -- rewrite Hil. apply HI.
      * intros _. simpl. rewrite lookup_insert_eq. eauto.
    + pose proof (unloadIdle_spec rng s Hr) as Hu. destruct (unloadIdle rng s) as [s1 [|]]; [|naive_solver].
      destruct Hu as (l & Hl & E1 & E2 & (F1 & F2 & F3 & F4 & F5 & F6) & F7).
      assert (Hlm : l ≠ m) by congruence.
      destruct (IdsOk_replace l m (loraIDs s) (dom (loadedLoras s))) as [Hi Hil];
        [apply HI|by eapply elem_of_dom_2|by apply not_elem_of_dom|done
        |rewrite size_dom, (li_ids_len _ _ HI); pose proof (li_max _ _ HI); lia|].
      assert (Em1 : loadedLoras s1 !! m = None) by (by rewrite E1, lookup_delete_ne).
      split; [|split; [|split; [done|split; [naive_solver|]]]].
      * eapply (LoraInv_evict active s l m); simpl; rewrite ?E1, ?E2, ?lookup_delete_ne, ?Em; try done.
        rewrite Hil. apply HI.
      * split_and!; simpl; congruence.
      * intros _. simpl. rewrite lookup_insert_eq. eauto.
Qed.

Lemma incrementLora_spec active m s :
  LoraInv active s → loraIsLoaded m s = true →
  LoraInv (bump m active) (incrementLora m s) ∧ same_frame s (incrementLora m s) ∧
  reqQueueTimeChan (incrementLora m s) = reqQueueTimeChan s.
Proof.
  intros HI Hl. unfold incrementLora, loraIsLoaded in *. destruct (isLora m s) eqn:Hlo; simpl in *.
  2:{ split; [by apply LoraInv_bump_base|done]. }
  apply bool_decide_eq_true in Hl as [n Em]. split; [|done].
  eapply (LoraInv_add active s m (loraIDs s)); simpl; rewrite ?Em; eauto; try apply HI.
  - rewrite <- size_dom, dom_insert_lookup_L by eauto. rewrite size_dom. apply HI.
  - replace ({[m]} ∪ dom (loadedLoras s)) with (dom (loadedLoras s)); [apply HI|].
    apply elem_of_dom_2 in Em. set_solver.
Qed.

(** A request for [m] ends: the adapter stays loaded with one reference less,
    and an adapter that becomes idle leaves a token in [loraRemovable]. *)
Lemma decrementLora_spec active m s :
  LoraInv (bump m active) s →
  let s' := decrementLora m s in
  LoraInv active s' ∧ ServedModelNames s' = ServedModelNames s ∧ loraAdaptors s' = loraAdaptors s ∧
  maxLoras s' = maxLoras s ∧ dom (loadedLoras s') = dom (loadedLoras s) ∧
  waitingReqChan s' = waitingReqChan s ∧ lorasChan s' = lorasChan s ∧
  (loraRemovable s' = loraRemovable s ∧ (∀ l, loadedLoras s' !! l = Some 0%Z → loadedLoras s !! l = Some 0%Z) ∨
   loraRemovable s' = WriteToChannel (loraRemovable s) 1%Z).
Proof.
  intros HI s'. subst s'. unfold decrementLora. destruct (isLora m s) eqn:Hlo; simpl.
  2:{ rewrite orb_true_r. split; [|naive_solver]. destruct HI as [Hn Hc Hl Hm Hi Hil]. constructor; try done.
      - intros x n E. rewrite (Hc x n E). destruct (decide (x = m)) as [->|Hx]; [by rewrite Hlo|by rewrite bump_ne].
      - intros x Hx. specialize (Hl x Hx). rewrite bump_ne in Hl by congruence. done. }
  rewrite bool_decide_false by (by eapply loraName_nonempty). simpl.
  destruct (li_loaded _ _ HI m Hlo ltac:(rewrite bump_eq; lia)) as [n Em].
  pose proof (li_count _ _ HI m n Em) as Hn. rewrite Hlo, bump_eq in Hn. rewrite lookup_insert_eq, Em. simpl.
  assert (HD : dom (<[m:=(n + -1)%Z]> (loadedLoras s)) = dom (loadedLoras s)) by (by rewrite dom_insert_lookup_L by eauto).
  assert (HI' : ∀ c, LoraInv active (set_loraRemovable c (addLoaded m (-1) s))).
  { intros c. unfold addLoaded. rewrite Em. destruct HI as [Hnm Hc Hl Hm Hi Hil]. constructor; simpl; rewrite ?HD; try done.
    - intros x z. destruct (decide (x = m)) as [->|Hx].
      + rewrite lookup_insert_eq. intros [= <-]. rewrite (same_frame_isLora s), Hlo by done. lia.
      + rewrite lookup_insert_ne by done. intros E. by rewrite (Hc x z E), bump_ne.
    - intros x Hx Ha. destruct (decide (x = m)) as [->|Hne]; [rewrite lookup_insert_eq; eauto|].
      rewrite lookup_insert_ne by done. apply (Hl x Hx). by rewrite bump_ne.
    - rewrite <- size_dom, HD, size_dom. done. }
  destruct (Z.leb_spec (n + -1) 0) as [Hz|Hz]; simpl; rewrite ?Em; simpl.
  - split; [apply HI'|]. rewrite HD. naive_solver.
  - split; [apply (HI' (loraRemovable s))|]. rewrite HD. split_and!; try done. left. split; [done|].
    intros l. destruct (decide (l = m)) as [->|Hx]; [rewrite lookup_insert_eq; naive_solver lia|].
    by rewrite lookup_insert_ne.
Qed.

(** ** Registering *)

Lemma isLora_insert name path m s :
  isLora m (set_loraAdaptors (<[name := path]> (loraAdaptors s)) s) = bool_decide (m = name) || isLora m s.
Proof.
  apply eq_bool_prop_intro. rewrite !Is_true_true, orb_true_iff, bool_decide_eq_true, !isLora_spec. simpl.
  destruct (decide (m = name)) as [->|]; [rewrite lookup_insert_eq; naive_solver|rewrite lookup_insert_ne by done; naive_solver].
Qed.

Lemma isLora_delete name m s :
  isLora m (set_loraAdaptors (delete name (loraAdaptors s)) s) = negb (bool_decide (m = name)) && isLora m s.
Proof.
  apply eq_bool_prop_intro. rewrite !Is_true_true, andb_true_iff, negb_true_iff, bool_decide_eq_false, !isLora_spec. simpl.
  destruct (decide (m = name)) as [->|]; [rewrite lookup_delete_eq; split; [by intros []|naive_solver]|rewrite lookup_delete_ne by done; naive_solver].
Qed.

(** A new adapter must not take the name of a model that requests are using. *)
Lemma LoraInv_register active s name path :
  LoraInv active s → name ≠ ""%string → isLora name s = true ∨ active name = 0 →
  LoraInv active (set_loraAdaptors (<[name := path]> (loraAdaptors s)) s).
Proof.
  intros [Hn Hc Hl Hm Hi Hil] Hne Hact. constructor; try done.
  - simpl. by rewrite lookup_insert_ne.
  - intros m n E. rewrite isLora_insert. simpl in E. pose proof (Hc m n E) as Hz. case_bool_decide as Em; [|done]. subst m. simpl.
    destruct Hact as [Hlo|H0]; [by rewrite Hlo in Hz|]. rewrite H0. destruct (isLora name s); [by rewrite H0 in Hz|done].
  - intros m. rewrite isLora_insert. case_bool_decide as Em; [|apply Hl]. subst m. intros _ Ha. destruct Hact as [Hlo|H0]; [by apply Hl|done].
Qed.

(** An adapter that no request is using can be unregistered. *)
Lemma LoraInv_unregister active s name :
  LoraInv active s → active name = 0 → LoraInv active (set_loraAdaptors (delete name (loraAdaptors s)) s).
Proof.
  intros [Hn Hc Hl Hm Hi Hil] H0. constructor; try done.
  - simpl. rewrite lookup_delete_None. by right.
  - intros m n E. rewrite isLora_delete. simpl in E. rewrite (Hc m n E). case_bool_decide as Em; [|done]. subst m. simpl. by destruct (isLora name s); rewrite ?H0.
  - intros m. rewrite isLora_delete. intros [_ Hx]%andb_true_iff. by apply Hl.
Qed.

Lemma blocked_register name path m s : blocked m s → blocked m (set_loraAdaptors (<[name := path]> (loraAdaptors s)) s).
Proof. unfold blocked. rewrite isLora_insert. intros (-> & H). split; [by rewrite orb_true_r|done]. Qed.
Lemma blocked_unregister name m s : m ≠ name → blocked m s → blocked m (set_loraAdaptors (delete name (loraAdaptors s)) s).
Proof. unfold blocked. rewrite isLora_delete. intros Hne (-> & H). rewrite bool_decide_false by done. done. Qed.
End Lora.
