(* ===== verification/Scheduler.v ===== *)
(** Request scheduling of [pkg/simulator/simulator.go] and [worker.go]: the
    dispatcher goroutine [processing], the workers, the waiting queue, and the
    entry point [HandleRequest].  Channels are buffers with a capacity; a
    non-blocking write to a full buffer is dropped, a blocking send to a full
    buffer is [None].  The goroutines interact only through these channels, so
    one case of the dispatcher's select is one atomic step. *)

From S2P Require Import Prelude GoFloat BlockCache Lora.
Import Lora.

(** * Errors of the API ([pkg/api/response.go]) *)
Module Api.

Record Error := mkError { Message_ : string; errorType : string; Param : option string; Code : Z }.
Definition ErrorCodeToType (code : Z) : string :=
  (if code =? 400 then "BadRequestError" else if code =? 401 then "AuthenticationError" else if code =? 403 then "PermissionDeniedError" else if code =? 404 then "NotFoundError"
   else if code =? 422 then "UnprocessableEntityError" else if code =? 429 then "RateLimitError" else if 500 <=? code then "InternalServerError" else "APIConnectionError")%Z.
Definition NewErrorFor (param : option string) (message : string) (code : Z) : Error := mkError message (ErrorCodeToType code) param code.
Definition NewError : string → Z → Error := NewErrorFor None.

End Api.

Module Scheduler.

(** * Data *)

(** A sub-request: its request id, choice index, displayed model, and whether
    its routing trace could not be resolved. *)
Record requestContext := mkReqCtx {
  requestID : string;
  choiceIndex : nat;
  displayedModel : string;
  traceErr : bool }.

#[export] Instance requestContext_eq_dec : EqDecision requestContext.
Proof. solve_decision. Defined.

Record waitingQueueItem := mkItem { item_reqCtx : requestContext; enqueueTime : Z }.

(** A worker: its request channel and the request [processRequest] is running. *)
Record worker := mkWorker { reqChan : Chan requestContext; current : option requestContext }.

(** How a sub-request was answered when it signalled completion. *)
Inductive outcome := Rejected (e : Api.Error) | Processed.

(** [Simulator]; a worker is named by its id.  [signalled] logs every call of
    [signalDone] and [submitted] every sub-request built by [HandleRequest]. *)
Record Simulator := mkSim {
  Context : SimContext;
  freeWorkers : Chan nat;
  workerFinished : Chan (nat * string);
  waitingQueue : list waitingQueueItem;
  queueCapacity : nat;
  newRequests : Chan requestContext;
  workers : gmap nat worker;
  drainDone : bool;
  signalled : list (requestContext * outcome);
  submitted : list requestContext }.

Definition set_Context (v : SimContext) (s : Simulator) : Simulator :=
  mkSim v (freeWorkers s) (workerFinished s) (waitingQueue s) (queueCapacity s) (newRequests s)
    (workers s) (drainDone s) (signalled s) (submitted s).
Definition set_freeWorkers (v : Chan nat) (s : Simulator) : Simulator :=
  mkSim (Context s) v (workerFinished s) (waitingQueue s) (queueCapacity s) (newRequests s)
    (workers s) (drainDone s) (signalled s) (submitted s).
Definition set_workerFinished (v : Chan (nat * string)) (s : Simulator) : Simulator :=
  mkSim (Context s) (freeWorkers s) v (waitingQueue s) (queueCapacity s) (newRequests s)
    (workers s) (drainDone s) (signalled s) (submitted s).
Definition set_waitingQueue (v : list waitingQueueItem) (s : Simulator) : Simulator :=
  mkSim (Context s) (freeWorkers s) (workerFinished s) v (queueCapacity s) (newRequests s)
    (workers s) (drainDone s) (signalled s) (submitted s).
Definition set_newRequests (v : Chan requestContext) (s : Simulator) : Simulator :=
  mkSim (Context s) (freeWorkers s) (workerFinished s) (waitingQueue s) (queueCapacity s) v
    (workers s) (drainDone s) (signalled s) (submitted s).
Definition set_workers (v : gmap nat worker) (s : Simulator) : Simulator :=
  mkSim (Context s) (freeWorkers s) (workerFinished s) (waitingQueue s) (queueCapacity s) (newRequests s)
    v (drainDone s) (signalled s) (submitted s).
Definition set_drainDone (v : bool) (s : Simulator) : Simulator :=
  mkSim (Context s) (freeWorkers s) (workerFinished s) (waitingQueue s) (queueCapacity s) (newRequests s)
    (workers s) v (signalled s) (submitted s).
Definition set_signalled (v : list (requestContext * outcome)) (s : Simulator) : Simulator :=
  mkSim (Context s) (freeWorkers s) (workerFinished s) (waitingQueue s) (queueCapacity s) (newRequests s)
    (workers s) (drainDone s) v (submitted s).
Definition set_submitted (v : list requestContext) (s : Simulator) : Simulator :=
  mkSim (Context s) (freeWorkers s) (workerFinished s) (waitingQueue s) (queueCapacity s) (newRequests s)
    (workers s) (drainDone s) (signalled s) v.

(** * Start-up *)

(** The configuration the scheduler reads. *)
Record Configuration := mkConfiguration {
  cfg_ServedModelNames : list string;
  cfg_LoraModules : list (string * string);
  cfg_MaxLoras : nat;
  cfg_MaxNumSeqs : nat;
  cfg_MaxWaitingQueueLength : nat }.

(** [SimContext.initialize]: the LoRA tables and the metric channels, given the
    started cache helper. *)
Definition initialize (cfg : Configuration) (cache : option BlockCache.blockCache) : SimContext :=
  mkSimContext (cfg_ServedModelNames cfg)
    (foldl (λ m lora, <[lora.1 := lora.2]> m) ∅ (cfg_LoraModules cfg))
    ∅ (replicate (cfg_MaxLoras cfg) ""%string) (mkChan [] (cfg_MaxNumSeqs cfg)) (cfg_MaxLoras cfg) cache
    (mkChan [] (cfg_MaxWaitingQueueLength cfg * 2))
    (mkChan [] ((cfg_MaxNumSeqs cfg + cfg_MaxWaitingQueueLength cfg) * 2))
    (mkChan [] (cfg_MaxWaitingQueueLength cfg * 2))
    (mkChan [] (cfg_MaxNumSeqs cfg * 2)).

(** [s.freeWorkers <- worker]: a blocking send. *)
Definition sendFree (w : nat) (s : Simulator) : option Simulator :=
  if length (chan_buf (freeWorkers s)) <? chan_cap (freeWorkers s)
  then Some (set_freeWorkers (mkChan (chan_buf (freeWorkers s) ++ [w]) (chan_cap (freeWorkers s))) s)
  else None.

(** The body of the loop that starts worker [i]. *)
Definition startWorker (i : nat) (s : Simulator) : option Simulator :=
  sendFree i (set_workers (<[i := mkWorker (mkChan [] 1) None]> (workers s)) s).

Fixpoint startWorkers (ids : list nat) (s : Simulator) : option Simulator :=
  match ids with
  | [] => Some s
  | i :: r => match startWorker i s with None => None | Some s => startWorkers r s end
  end.

Definition InitializeSim (cfg : Configuration) (cache : option BlockCache.blockCache) : option Simulator :=
  startWorkers (seq 1 (cfg_MaxNumSeqs cfg))
    (mkSim (initialize cfg cache)
       (mkChan [] (cfg_MaxNumSeqs cfg)) (mkChan [] (cfg_MaxNumSeqs cfg)) []
       (cfg_MaxWaitingQueueLength cfg)
       (mkChan [] (cfg_MaxNumSeqs cfg * 2 + cfg_MaxWaitingQueueLength cfg))
       ∅ false [] []).

(** * The waiting queue *)

(** [time.Since(t).Seconds()] for a duration of [d] nanoseconds. *)
Definition Seconds (d : Z) : f64 :=
  fadd (f_of_Z (Z.quot d 1000000000)) (fdiv (f_of_Z (Z.rem d 1000000000)) (f_of_Z 1000000000)).

Definition enqueue (now : Z) (req : requestContext) (s : Simulator) : result string Simulator :=
  if queueCapacity s <=? length (waitingQueue s) then Err "waiting requests queue is full"%string
  else Ok (set_waitingQueue (waitingQueue s ++ [mkItem req now]) s).

(** The first loop of [dequeue]: the first request whose adapter is loaded. *)
Fixpoint findLoaded (c : SimContext) (q : list waitingQueueItem)
  : option (waitingQueueItem * list waitingQueueItem) :=
  match q with
  | [] => None
  | item :: r =>
      if loraIsLoaded (displayedModel (item_reqCtx item)) c then Some (item, r)
      else match findLoaded c r with
           | None => None
           | Some (found, r') => Some (found, item :: r')
           end
  end.

(** The second loop: the first request whose adapter can be loaded now. *)
Fixpoint findLoadable (rng : LoraRange) (c : SimContext) (q : list waitingQueueItem)
  : SimContext * option (waitingQueueItem * list waitingQueueItem) :=
  match q with
  | [] => (c, None)
  | item :: r =>
      let '(c, ok) := loadLora rng (displayedModel (item_reqCtx item)) c in
      if ok then (c, Some (item, r))
      else match findLoadable rng c r with
           | (c, None) => (c, None)
           | (c, Some (found, r')) => (c, Some (found, item :: r'))
           end
  end.

Definition reportQueueTime (now : Z) (item : waitingQueueItem) (c : SimContext) : SimContext :=
  set_reqQueueTimeChan (WriteToChannel (reqQueueTimeChan c) (Seconds (now - enqueueTime item))) c.

Definition dequeue (rng : LoraRange) (now : Z) (s : Simulator) : Simulator * option requestContext :=
  match findLoaded (Context s) (waitingQueue s) with
  | Some (item, rest) =>
      let s := set_waitingQueue rest s in
      let s := set_Context (incrementLora (displayedModel (item_reqCtx item)) (Context s)) s in
      (set_Context (reportQueueTime now item (Context s)) s, Some (item_reqCtx item))
  | None =>
      match findLoadable rng (Context s) (waitingQueue s) with
      | (c, Some (item, rest)) =>
          let s := set_waitingQueue rest (set_Context c s) in
          (set_Context (reportQueueTime now item (Context s)) s, Some (item_reqCtx item))
      | (c, None) => (set_Context c s, None)
      end
  end.

(** * The dispatcher *)

(** [common.WriteToChannel(worker.reqChan, ...)]. *)
Definition sendToWorker (w : nat) (r : requestContext) (s : Simulator) : Simulator :=
  set_workers (alter (λ wk, mkWorker (WriteToChannel (reqChan wk) r) (current wk)) w (workers s)) s.

(** A write to the waiting-requests metric. *)
Definition reportWaiting (d : Z) (s : Simulator) : Simulator :=
  set_Context (set_waitingReqChan (WriteToChannel (waitingReqChan (Context s)) d) (Context s)) s.

Definition reportLora (model : string) (st : loraUsageState) (s : Simulator) : Simulator :=
  set_Context (set_lorasChan (WriteToChannel (lorasChan (Context s)) (model, st)) (Context s)) s.

(** The response channel gets the error, then the sub-request signals completion. *)
Definition rejectRequest (msg : string) (r : requestContext) (s : Simulator) : Simulator :=
  set_signalled (signalled s ++
    [(r, Rejected (Api.NewError ("Failed to enqueue request, " +:+ msg) 429))]) s.

Definition addRequestToQueue (now : Z) (r : requestContext) (s : Simulator) : Simulator :=
  match enqueue now r s with
  | Err e => rejectRequest e r s
  | Ok s =>
      let s := reportWaiting 1 s in
      if isLora (displayedModel r) (Context s) then reportLora (displayedModel r) waitingUsageState s else s
  end.

Definition findRequestAndSendToProcess (rng : LoraRange) (now : Z) (w : nat) (s : Simulator)
  : option (Simulator * bool) :=
  match dequeue rng now s with
  | (s, Some nextReq) => Some (reportWaiting (-1) (sendToWorker w nextReq s), true)
  | (s, None) => match sendFree w s with None => None | Some s => Some (s, false) end
  end.

Definition getFreeWorker (s : Simulator) : Simulator * option nat :=
  match chan_recv (freeWorkers s) with
  | None => (s, None)
  | Some (w, c) => (set_freeWorkers c s, Some w)
  end.

(** [case completedReq := <-s.workerFinished]. *)
Definition onWorkerFinished (rng : LoraRange) (now : Z) (completedReq : nat * string) (s : Simulator)
  : option Simulator :=
  let s := set_Context (decrementLora completedReq.2 (Context s)) s in
  fst <$> findRequestAndSendToProcess rng now completedReq.1 s.

(** [case <-loraRemovable]: hand queued requests to free workers. *)
Fixpoint onLoraRemovable (fuel : nat) (rng : LoraRange) (now : Z) (s : Simulator) : option Simulator :=
  match fuel with
  | 0 => None
  | S fuel =>
      match getFreeWorker s with
      | (s, None) => Some s
      | (s, Some w) =>
          match findRequestAndSendToProcess rng now w s with
          | None => None
          | Some (s, requestFound) => if requestFound then onLoraRemovable fuel rng now s else Some s
          end
      end
  end.

(** [case reqCtx := <-s.newRequests.Channel]. *)
Definition onNewRequest (rng : LoraRange) (now : Z) (r : requestContext) (s : Simulator) : option Simulator :=
  match getFreeWorker s with
  | (s, None) => Some (addRequestToQueue now r s)
  | (s, Some w) =>
      let '(c, canRun) :=
        if isLora (displayedModel r) (Context s) then loadLora rng (displayedModel r) (Context s)
        else (Context s, true) in
      let s := set_Context c s in
      if canRun then Some (sendToWorker w r s)
      else addRequestToQueue now r <$> sendFree w s
  end.

(** The case of [processing]'s select that is taken. *)
Inductive selectCase := caseWorkerFinished | caseLoraRemovable | caseNewRequest.

(** One iteration of [processing]: receive on the chosen channel and run the
    case.  [None] when the channel is empty or a blocking send blocks. *)
Definition processing (rng : LoraRange) (now : Z) (case : selectCase) (s : Simulator) : option Simulator :=
  match case with
  | caseWorkerFinished =>
      match chan_recv (workerFinished s) with
      | None => None
      | Some (x, c) => onWorkerFinished rng now x (set_workerFinished c s)
      end
  | caseLoraRemovable =>
      match chan_recv (loraRemovable (Context s)) with
      | None => None
      | Some (_, c) =>
          let s := set_Context (set_loraRemovable c (Context s)) s in
          onLoraRemovable (S (length (chan_buf (freeWorkers s)))) rng now s
      end
  | caseNewRequest =>
      match chan_recv (newRequests s) with
      | None => None
      | Some (r, c) => onNewRequest rng now r (set_newRequests c s)
      end
  end.

(** * The workers *)

(** [waitForRequests] receives a request and starts [processRequest]. *)
Definition workerTake (w : nat) (s : Simulator) : option Simulator :=
  match workers s !! w with
  | Some (mkWorker c None) =>
      match chan_recv c with
      | Some (r, c) => Some (set_workers (<[w := mkWorker c (Some r)]> (workers s)) s)
      | None => None
      end
  | _ => None
  end.

Definition reportRunning (d : Z) (s : Simulator) : Simulator :=
  set_Context (set_runReqChan (WriteToChannel (runReqChan (Context s)) d) (Context s)) s.

(** A failure of [finishRequest] is only logged. *)
Definition kvCacheOnRequestEnd (now : Z) (r : requestContext) (c : SimContext) : SimContext :=
  if traceErr r then c
  else onCache (λ bc, fst (BlockCache.finishRequest now (requestID r) bc)) c.

(** The deferred end of [processRequest]. *)
Definition onResponseProcessingFinished (now : Z) (r : requestContext) (s : Simulator) : Simulator :=
  let s := reportRunning (-1) s in
  let s := if isLora (displayedModel r) (Context s)
           then reportLora (displayedModel r) doneUsageState s else s in
  let s := set_Context (kvCacheOnRequestEnd now r (Context s)) s in
  set_signalled (signalled s ++ [(r, Processed)]) s.

(** [processRequest] returns and the worker reports to the dispatcher (a blocking send). *)
Definition workerDone (now : Z) (w : nat) (s : Simulator) : option Simulator :=
  match workers s !! w with
  | Some (mkWorker c (Some r)) =>
      let s := onResponseProcessingFinished now r s in
      let s := set_workers (<[w := mkWorker c None]> (workers s)) s in
      let f := workerFinished s in
      if length (chan_buf f) <? chan_cap f
      then Some (set_workerFinished (mkChan (chan_buf f ++ [(w, displayedModel r)]) (chan_cap f)) s)
      else None
  | _ => None
  end.

(** * Entry points *)

(** What [HandleRequest] reads of a request: its model, the error of [validate]
    (given the displayed model), the ids of the parts [split] makes, the stream flag,
    and whether its routing trace fails to resolve. *)
Record Request := mkRequest {
  req_model : string;
  req_validate : string → option Api.Error;
  req_split : list string;
  req_stream : bool;
  req_traceErr : bool }.

(** One iteration of the loop over the sub-requests. *)
Definition submitOne (r : requestContext) (s : Simulator) : Simulator :=
  let s := set_submitted (submitted s ++ [r]) s in
  match WriteToChannelWithError (drainDone s) (newRequests s) r with
  | (c, None) => set_newRequests c s
  | (_, Some e) => rejectRequest ("failed to write to channel newRequests: " +:+ e) r s
  end.

Inductive handled := Accepted (numChoices : nat) (isStream : bool) | Failed (e : Api.Error) (errInjected : bool).

(** [failure] is the injected failure, if any.  [None]: indexing an empty
    [ServedModelNames] panics. *)
Definition HandleRequest (failure : option Api.Error) (req : Request) (s : Simulator)
  : option (Simulator * handled) :=
  match failure with
  | Some e => Some (s, Failed e true)
  | None =>
      if negb (isValidModel (req_model req) (Context s)) then
        Some (s, Failed (Api.NewError ("The model `" +:+ req_model req +:+ "` does not exist.") 404) false)
      else
        match getDisplayedModelName (req_model req) (Context s) with
        | None => None
        | Some displayed =>
            match req_validate req displayed with
            | Some e => Some (s, Failed e false)
            | None =>
                let subReqs := imap (λ i id, mkReqCtx id i displayed (req_traceErr req)) (req_split req) in
                Some (foldl (λ s r, submitOne r s) s subReqs, Accepted (length subReqs) (req_stream req))
            end
        end
  end.

Definition OpenRequests (s : Simulator) : nat :=
  length (waitingQueue s) + (chan_cap (freeWorkers s) - length (chan_buf (freeWorkers s))).

Definition Stop (s : Simulator) : Simulator := set_drainDone true s.

End Scheduler.
