(* ===== verification/SchedulerInv.v ===== *)
(** The invariant of the scheduler and the lemmas that every step preserves it. *)

From S2P Require Import Prelude GoFloat BlockCache Lora Scheduler.
Import Lora Scheduler.

Module SchedulerInv.

(** * Requests held by workers *)

Definition load (w : worker) : list requestContext := chan_buf (reqChan w) ++ option_list (current w).

Definition heldBy (ws : gmap nat worker) : list requestContext :=
  concat ((λ p, load p.2) <$> map_to_list ws).

Lemma heldBy_lookup ws i w : ws !! i = Some w → heldBy ws ≡ₚ load w ++ heldBy (delete i ws).
Proof.
  intros H. unfold heldBy. rewrite <- (insert_delete_id ws i w H) at 1.
  rewrite map_to_list_insert by apply lookup_delete_eq. done.
Qed.

Lemma heldBy_insert ws i w : heldBy (<[i := w]> ws) ≡ₚ load w ++ heldBy (delete i ws).
Proof.
  rewrite (heldBy_lookup _ i w) by apply lookup_insert_eq. by rewrite delete_insert_eq.
Qed.

Lemma heldBy_nil ws : (∀ i w, ws !! i = Some w → load w = []) → heldBy ws = [].
Proof.
  intros H. unfold heldBy. apply concat_nil_Forall. rewrite Forall_fmap, Forall_forall.
  intros [i w] Hin. apply (H i). by apply elem_of_map_to_list.
Qed.


(** Remaining work of the workers: a waiting request weighs 4, a running one 3. *)
Definition weight (w : worker) : nat := 4 * length (chan_buf (reqChan w)) + 3 * length (option_list (current w)).
Definition workersWeight (ws : gmap nat worker) : nat := sum_list ((λ p, weight p.2) <$> map_to_list ws).

Lemma workersWeight_insert ws i w w' :
  ws !! i = Some w → workersWeight (<[i := w']> ws) + weight w = workersWeight ws + weight w'.
Proof.
  intros H. unfold workersWeight. rewrite <- (insert_delete_id ws i w H) at 2.
  rewrite <- insert_delete_eq. rewrite !map_to_list_insert by apply lookup_delete_eq. simpl. lia.
Qed.

(** * Adapter use *)

(** How many of the listed models are [m]. *)
Definition uses (l : list string) (m : string) : nat := length (filter (λ x, x = m) l).

Lemma uses_perm l l' m : l ≡ₚ l' → uses l m = uses l' m.
Proof. intros H. unfold uses. by rewrite H. Qed.

Lemma uses_cons x l m : uses (x :: l) m = bump x (uses l) m.
Proof.
  unfold uses, bump. rewrite filter_cons. destruct (decide (x = m)) as [->|].
  - by rewrite decide_True.
  - by rewrite decide_False.
Qed.

Lemma uses_pos l m : uses l m ≠ 0 → m ∈ l.
Proof.
  unfold uses. intros H. destruct (filter _ l) as [|x r] eqn:E; [done|].
  assert (x ∈ filter (λ x, x = m) l) as [-> ?]%list_elem_of_filter by (rewrite E; left). done.
Qed.

#[export] Instance LoraInv_proper : Proper (pointwise_relation _ eq ==> eq ==> iff) LoraInv.
Proof.
  assert (∀ f g s, (∀ m, f m = g m) → LoraInv f s → LoraInv g s) as H.
  { intros f g s E [? Hc Hl ? ? ?]. constructor; try done; intros m; rewrite <- E; auto. }
  intros f g E s ? <-. split; apply H; [done|]. intros m. symmetry. apply E.
Qed.

Lemma LoraInv_perm l l' c : l ≡ₚ l' → LoraInv (uses l) c → LoraInv (uses l') c.
Proof. intros H. apply LoraInv_proper; [|done]. intros m. by apply uses_perm. Qed.

Lemma LoraInv_uses_cons m l c : LoraInv (uses (m :: l)) c ↔ LoraInv (bump m (uses l)) c.
Proof. apply LoraInv_proper; [|done]. intros x. apply uses_cons. Qed.

(** Contexts that agree on the adapters; metrics and the block cache may differ. *)
Record same_loras (c c' : SimContext) : Prop := mkSameLoras {
  sl_adaptors : loraAdaptors c' = loraAdaptors c;
  sl_loaded : loadedLoras c' = loadedLoras c;
  sl_ids : loraIDs c' = loraIDs c;
  sl_removable : loraRemovable c' = loraRemovable c;
  sl_max : maxLoras c' = maxLoras c }.

Lemma same_loras_inv f c c' : same_loras c c' → LoraInv f c → LoraInv f c'.
Proof.
  intros [E1 E2 E3 E4 E5] [? Hc Hl ? ? ?].
  assert (HL : ∀ m, isLora m c' = isLora m c) by (intros; by apply same_frame_isLora).
  constructor; rewrite ?E1, ?E2, ?E3, ?E5; try done; intros; rewrite ?HL in *; auto.
Qed.

Lemma same_loras_blocked m c c' : same_loras c c' → blocked m c → blocked m c'.
Proof.
  intros [E1 E2 E3 E4 E5]. unfold blocked. by rewrite (same_frame_isLora c c'), E2, E5 by done.
Qed.

#[export] Hint Constructors same_loras : simdb.

(** * The invariant *)

Section Invariant.
Context (N : nat).

(** Workers known to be idle: waiting in a channel, or in the dispatcher's hand. *)
Definition idle (hole : option nat) (s : Simulator) : list nat :=
  chan_buf (freeWorkers s) ++ (chan_buf (workerFinished s)).*1 ++ option_list hole.

(** Models of the requests that hold an adapter: [run] is in the dispatcher's hand. *)
Definition inUse (run : list requestContext) (s : Simulator) : list string :=
  (displayedModel <$> run ++ heldBy (workers s)) ++ (chan_buf (workerFinished s)).*2.

(** [pend] and [run] are the requests the dispatcher holds before and after
    their adapter was acquired. *)
Record Core (hole : option nat) (pend run : list requestContext) (s : Simulator) : Prop := mkCore {
  c_pos : 1 ≤ N;
  c_free_cap : chan_cap (freeWorkers s) = N;
  c_fin_cap : chan_cap (workerFinished s) = N;
  c_rem_cap : 1 ≤ chan_cap (loraRemovable (Context s));
  c_max : 1 ≤ maxLoras (Context s);
  c_dom : ∀ i, is_Some (workers s !! i) ↔ i ∈ seq 1 N;
  c_nodup : NoDup (idle hole s);
  c_idle : ∀ i, i ∈ idle hole s → i ∈ seq 1 N;
  c_worker : ∀ i w, workers s !! i = Some w →
    chan_cap (reqChan w) = 1 ∧ length (load w) = if decide (i ∈ idle hole s) then 0 else 1;
  c_queue : length (waitingQueue s) ≤ queueCapacity s;
  c_new : chan_wf (newRequests s);
  c_drain : drainDone s = false;
  c_conserve : submitted s ≡ₚ pend ++ run ++ chan_buf (newRequests s) ++ (item_reqCtx <$> waitingQueue s)
                 ++ heldBy (workers s) ++ (signalled s).*1;
  c_lora : LoraInv (uses (inUse run s)) (Context s) }.

(** Every queued request is blocked. *)
Definition allBlocked (s : Simulator) : Prop :=
  ∀ item, item ∈ waitingQueue s → blocked (displayedModel (item_reqCtx item)) (Context s).

(** Work conservation: with a free worker and no pending removal event, no
    queued request could run. *)
Definition Work (s : Simulator) : Prop :=
  chan_buf (freeWorkers s) ≠ [] → chan_buf (loraRemovable (Context s)) = [] → allBlocked s.

Definition Inv (s : Simulator) : Prop := Core None [] [] s ∧ Work s.

(** Remaining work of the system; every internal step decreases it. *)
Definition measure (s : Simulator) : nat :=
  6 * length (chan_buf (newRequests s)) + 5 * length (waitingQueue s) + workersWeight (workers s)
  + 2 * length (chan_buf (workerFinished s)) + length (chan_buf (loraRemovable (Context s))).

Lemma idle_length hole pend run s : Core hole pend run s → length (idle hole s) ≤ N.
Proof.
  intros HC. rewrite <- (length_seq N 1). apply submseteq_length, NoDup_submseteq; [apply HC|].
  intros i Hi. by apply (c_idle _ _ _ _ HC).
Qed.

Lemma Core_context hole pend run s c :
  Core hole pend run s → same_loras (Context s) c → Core hole pend run (set_Context c s).
Proof.
  intros [] Hs. pose proof Hs as [E1 E2 E3 E4 E5].
  constructor; simpl; try done; rewrite ?E4, ?E5; try done. by eapply same_loras_inv.
Qed.

(** ** Free workers *)

(** Moving an idle worker between the channel and the dispatcher's hand. *)
Lemma Core_freeWorkers hole hole' pend run s v :
  Core hole pend run s → chan_cap v = N → idle hole' (set_freeWorkers v s) ≡ₚ idle hole s →
  Core hole' pend run (set_freeWorkers v s).
Proof.
  intros [] Hc HP. constructor; try done.
  - by rewrite HP.
  - intros i. rewrite HP. auto.
  - intros i wk Hi. destruct (c_worker0 i wk Hi) as [? ->]. split; [done|].
    repeat case_decide; try done; exfalso; rewrite HP in *; done.
Qed.

Lemma Core_sendFree w pend run s :
  Core (Some w) pend run s →
  ∃ s', sendFree w s = Some s' ∧ Core None pend run s' ∧ Context s' = Context s ∧
        waitingQueue s' = waitingQueue s ∧ measure s' = measure s.
Proof.
  intros HC. pose proof (idle_length _ _ _ _ HC) as Hl. unfold idle in Hl. rewrite !length_app in Hl. simpl in Hl.
  unfold sendFree. destruct (Nat.ltb_spec (length (chan_buf (freeWorkers s))) (chan_cap (freeWorkers s))) as [_|Hge];
    [|rewrite (c_free_cap _ _ _ _ HC) in Hge; lia].
  eexists. split; [done|]. split; [|done]. eapply Core_freeWorkers; [done|apply HC|].
  unfold idle. simpl. rewrite app_nil_r. solve_Permutation.
Qed.

Lemma Core_getFree pend run s :
  Core None pend run s →
  match getFreeWorker s with
  | (s', None) => s' = s ∧ chan_buf (freeWorkers s) = []
  | (s', Some w) => Core (Some w) pend run s' ∧ Context s' = Context s ∧ waitingQueue s' = waitingQueue s ∧
                    chan_buf (freeWorkers s) = w :: chan_buf (freeWorkers s') ∧ measure s' = measure s
  end.
Proof.
  intros HC. unfold getFreeWorker, chan_recv. destruct (chan_buf (freeWorkers s)) as [|w r] eqn:E; [done|].
  split; [|done]. eapply Core_freeWorkers; [done|apply HC|].
  unfold idle. simpl. rewrite E, app_nil_r. solve_Permutation.
Qed.

(** ** Sending to a worker *)

Lemma alter_known {A} (f : A → A) (m : gmap nat A) i x : m !! i = Some x → alter f i m = <[i := f x]> m.
Proof.
  intros H. apply map_eq. intros j. destruct (decide (j = i)) as [->|].
  - by rewrite lookup_alter_eq, lookup_insert_eq, H.
  - by rewrite lookup_alter_ne, lookup_insert_ne.
Qed.

(** The worker in the dispatcher's hand is idle, so the write is not dropped. *)
Lemma Core_hand w pend run r s :
  Core (Some w) pend run s →
  ∃ wk, workers s !! w = Some wk ∧ load wk = [] ∧
        sendToWorker w r s = set_workers (<[w := mkWorker (mkChan [r] 1) None]> (workers s)) s.
Proof.
  intros []. unfold sendToWorker.
  assert (Hw : w ∈ idle (Some w) s) by (unfold idle; set_solver).
  destruct (proj2 (c_dom0 w) (c_idle0 w Hw)) as [wk Hwk]. exists wk.
  destruct (c_worker0 w wk Hwk) as [Hcap Hload]. rewrite decide_True in Hload by done.
  apply nil_length_inv in Hload. pose proof Hload as [Hbuf Hcur]%app_eq_nil.
  split; [done|]. split; [done|]. rewrite (alter_known _ _ _ _ Hwk).
  rewrite WriteToChannel_room by (unfold chan_room; rewrite Hbuf; simpl; lia).
  rewrite Hbuf, Hcap. by destruct (current wk).
Qed.

Lemma Core_sendToWorker w r pend run s :
  Core (Some w) pend (r :: run) s →
  Core None pend run (sendToWorker w r s) ∧ measure (sendToWorker w r s) = measure s + 4.
Proof.
  intros HC. destruct (Core_hand w _ _ r _ HC) as (wk & Hwk & Hload & ->). destruct HC.
  set (ws := <[w := _]> (workers s)).
  assert (Hheld : heldBy ws ≡ₚ r :: heldBy (workers s)).
  { unfold ws. by rewrite heldBy_insert, (heldBy_lookup _ _ _ Hwk), Hload. }
  assert (Hidle : ∀ i, i ∈ idle None (set_workers ws s) ↔ i ∈ idle (Some w) s ∧ i ≠ w).
  { intros i. unfold idle in *. simpl in *. rewrite app_nil_r.
    rewrite app_assoc in c_nodup0. apply NoDup_app in c_nodup0 as (_ & Hd & _). set_solver. }
  split.
  2:{ unfold measure. simpl. pose proof (workersWeight_insert _ _ _ (mkWorker (mkChan [r] 1) None) Hwk) as Hm.
      unfold ws, weight in *. apply app_eq_nil in Hload as [H1 H2]. rewrite H1, H2 in Hm. simpl in *. lia. }
  constructor; simpl; try done.
  - intros i. rewrite <- c_dom0. unfold ws. rewrite lookup_insert. case_decide; subst; naive_solver.
  - unfold idle in *. simpl in *. rewrite app_nil_r. rewrite app_assoc in c_nodup0. by apply NoDup_app in c_nodup0 as [? _].
  - intros i Hi%Hidle. apply c_idle0, Hi.
  - intros i x. unfold ws. rewrite lookup_insert. case_decide as E.
    + intros [= <-]. split; [done|]. rewrite decide_False; [done|]. rewrite Hidle. naive_solver.
    + intros Hx. destruct (c_worker0 i x Hx) as [? ->]. split; [done|].
      pose proof (Hidle i). repeat case_decide; naive_solver.
  - rewrite c_conserve0, Hheld. solve_Permutation.
  - eapply LoraInv_perm; [|exact c_lora0]. unfold inUse. simpl.
    rewrite Hheld, !fmap_app. simpl. solve_Permutation.
Qed.

(** ** The queue *)

Lemma reportQueueTime_same now item c : same_loras c (reportQueueTime now item c).
Proof. by constructor. Qed.

Lemma findLoaded_spec c q :
  match findLoaded c q with
  | Some (item, rest) => loraIsLoaded (displayedModel (item_reqCtx item)) c = true ∧
      ∃ pre post, q = pre ++ item :: post ∧ rest = pre ++ post ∧
        Forall (λ i, loraIsLoaded (displayedModel (item_reqCtx i)) c = false) pre
  | None => Forall (λ i, loraIsLoaded (displayedModel (item_reqCtx i)) c = false) q
  end.
Proof.
  induction q as [|x q IH]; simpl; [done|]. destruct (loraIsLoaded _ c) eqn:E.
  - split; [done|]. by exists [], q.
  - destruct (findLoaded c q) as [[item rest]|]; [|by constructor].
    destruct IH as (Hl & pre & post & -> & -> & Hp). split; [done|].
    exists (x :: pre), post. split; [done|]. split; [done|]. by constructor.
Qed.

Lemma findLoadable_spec rng active c q :
  LoraRangeOk rng → LoraInv active c →
  match findLoadable rng c q with
  | (c', Some (item, rest)) => loadLora rng (displayedModel (item_reqCtx item)) c = (c', true) ∧
      ∃ pre post, q = pre ++ item :: post ∧ rest = pre ++ post ∧
        Forall (λ i, blocked (displayedModel (item_reqCtx i)) c) pre
  | (c', None) => c' = c ∧ Forall (λ i, blocked (displayedModel (item_reqCtx i)) c) q
  end.
Proof.
  intros Hr HI. induction q as [|x q IH]; simpl; [done|].
  pose proof (loadLora_spec active rng (displayedModel (item_reqCtx x)) c Hr HI) as Hx.
  destruct (loadLora rng _ c) as [c1 [|]] eqn:E.
  - split; [done|]. by exists [], q.
  - destruct Hx as [-> Hb]. destruct (findLoadable rng c q) as [c2 [[item rest]|]].
    + destruct IH as (Hl & pre & post & -> & -> & Hp). split; [done|].
      exists (x :: pre), post. split; [done|]. split; [done|]. by constructor.
    + destruct IH as [-> Hq]. split; [done|]. by constructor.
Qed.

(** A dequeued request keeps its place in the accounts: it moves from the
    queue to the dispatcher's hand, with its adapter acquired. *)
Lemma Core_take hole pend s item pre post c :
  Core hole pend [] s → waitingQueue s = pre ++ item :: post →
  LoraInv (bump (displayedModel (item_reqCtx item)) (uses (inUse [] s))) c →
  chan_cap (loraRemovable c) = chan_cap (loraRemovable (Context s)) → maxLoras c = maxLoras (Context s) →
  Core hole pend [item_reqCtx item] (set_Context c (set_waitingQueue (pre ++ post) s)).
Proof.
  intros [] Hq HL E1 E2. rewrite Hq, ?fmap_app, ?length_app in *. simpl in *.
  constructor; simpl; rewrite ?E1, ?E2; try done.
  - rewrite length_app. lia.
  - rewrite c_conserve0, fmap_app. solve_Permutation.
  - unfold inUse in *. simpl in *. by apply LoraInv_uses_cons.
Qed.

Lemma Core_dequeue rng now hole pend s :
  LoraRangeOk rng → Core hole pend [] s →
  match dequeue rng now s with
  | (s', Some r) => Core hole pend [r] s' ∧ freeWorkers s' = freeWorkers s ∧
      loraRemovable (Context s') = loraRemovable (Context s) ∧ ¬ allBlocked s ∧
      measure s = measure s' + 5
  | (s', None) => s' = s ∧ allBlocked s
  end.
Proof.
  intros Hr HC. unfold dequeue, allBlocked. pose proof (findLoaded_spec (Context s) (waitingQueue s)) as Hf.
  destruct (findLoaded _ _) as [[item rest]|].
  - destruct Hf as (Hl & pre & post & Hq & -> & _).
    destruct (incrementLora_spec _ _ _ (c_lora _ _ _ _ HC) Hl) as (HI & (F1 & F2 & F3 & F4 & F5 & F6) & F7).
    split_and!; simpl; try done.
    + apply (Core_context _ _ _ (set_Context _ _)); [|apply reportQueueTime_same]. by apply Core_take; simpl; rewrite ?F3.
    + intros Hb. destruct (Hb item) as (? & ? & _); [rewrite Hq; set_solver|].
      assert (loraIsLoaded (displayedModel (item_reqCtx item)) (Context s) = false) by (by apply loraIsLoaded_spec).
      congruence.
    + unfold measure. simpl. rewrite F3, Hq, !length_app. simpl. lia.
  - pose proof (findLoadable_spec rng _ _ (waitingQueue s) Hr (c_lora _ _ _ _ HC)) as Hg.
    destruct (findLoadable _ _ _) as [c [[item rest]|]].
    + destruct Hg as (Hl & pre & post & Hq & -> & _).
      pose proof (loadLora_spec _ rng (displayedModel (item_reqCtx item)) _ Hr (c_lora _ _ _ _ HC)) as Hs.
      rewrite Hl in Hs. destruct Hs as (HI & (F1 & F2 & F3 & F4 & F5 & F6) & F7 & Hnb & _).
      split_and!; simpl; try done.
      * apply (Core_context _ _ _ (set_Context _ (set_waitingQueue _ s))); [|apply reportQueueTime_same].
        by apply Core_take; simpl; rewrite ?F3.
      * intros Hb. apply Hnb, Hb. rewrite Hq. set_solver.
      * unfold measure. simpl. rewrite F3, Hq, !length_app. simpl. lia.
    + destruct Hg as [-> Hq]. split; [by destruct s|]. intros i Hi. by rewrite Forall_forall in Hq; apply Hq.
Qed.

(** ** The dispatcher's cases *)

Lemma Core_reportWaiting hole pend run d s : Core hole pend run s → Core hole pend run (reportWaiting d s).
Proof. intros HC. by apply Core_context. Qed.

Lemma Core_reportLora hole pend run m st s : Core hole pend run s → Core hole pend run (reportLora m st s).
Proof. intros HC. by apply Core_context. Qed.

(** With a worker in hand: either it gets a queued request, or every queued
    request is blocked and it becomes free.  The blocking send never blocks. *)
Lemma Core_find rng now w s :
  LoraRangeOk rng → Core (Some w) [] [] s →
  ∃ s' found, findRequestAndSendToProcess rng now w s = Some (s', found) ∧ Core None [] [] s' ∧
    loraRemovable (Context s') = loraRemovable (Context s) ∧
    measure s' ≤ measure s ∧
    if found : bool then ¬ allBlocked s ∧ freeWorkers s' = freeWorkers s else allBlocked s'.
Proof.
  intros Hr HC. unfold findRequestAndSendToProcess. pose proof (Core_dequeue rng now _ _ _ Hr HC) as Hd.
  destruct (dequeue rng now s) as [s1 [r|]].
  - destruct Hd as (HC1 & E1 & E2 & Hnb & Hlen). exists (reportWaiting (-1) (sendToWorker w r s1)), true.
    split; [done|]. destruct (Core_sendToWorker _ _ _ _ _ HC1) as [HC2 Hm].
    split; [by apply Core_reportWaiting|]. split; [done|]. split; [|done].
    change (measure (reportWaiting _ ?x)) with (measure x). lia.
  - destruct Hd as [-> Hb]. destruct (Core_sendFree _ _ _ _ HC) as (s2 & -> & HC2 & E1 & E2 & E3).
    exists s2, false. split; [done|]. split; [done|]. rewrite E1. split; [done|]. split; [lia|].
    unfold allBlocked. by rewrite E1, E2.
Qed.

Lemma allBlocked_Work s : allBlocked s → Work s.
Proof. by intros ? ??. Qed.

(** Receiving a completion moves the worker to the dispatcher's hand and
    releases its adapter. *)
Lemma Core_finished w m c s :
  Core None [] [] s → chan_recv (workerFinished s) = Some ((w, m), c) →
  LoraInv (bump m (uses (inUse [] (set_workerFinished c s)))) (Context s) ∧
  Core (Some w) [] [] (set_Context (decrementLora m (Context s)) (set_workerFinished c s)).
Proof.
  intros HC Hrc. unfold chan_recv in Hrc. destruct (chan_buf (workerFinished s)) as [|x r] eqn:Eb; [done|].
  injection Hrc as -> <-. pose proof HC as [].
  assert (HL : LoraInv (bump m (uses (inUse [] (set_workerFinished (mkChan r (chan_cap (workerFinished s))) s)))) (Context s)).
  { apply LoraInv_uses_cons. eapply LoraInv_perm; [|exact c_lora0]. unfold inUse. simpl. rewrite Eb. simpl. solve_Permutation. }
  split; [done|]. destruct (decrementLora_spec _ _ _ HL) as (HI & _ & E1 & E2 & _ & _ & _ & Hrem).
  assert (HP : idle (Some w) (set_Context (decrementLora m (Context s))
            (set_workerFinished (mkChan r (chan_cap (workerFinished s))) s)) ≡ₚ idle None s).
  { unfold idle. simpl. rewrite Eb. simpl. rewrite app_nil_r. solve_Permutation. }
  constructor; simpl; rewrite ?E2; try done.
  - destruct Hrem as [[-> _]| ->]; [done|]. by rewrite WriteToChannel_cap.
  - by rewrite HP.
  - intros i. rewrite HP. auto.
  - intros i wk Hi. destruct (c_worker0 i wk Hi) as [? ->]. split; [done|].
    repeat case_decide; try done; exfalso; rewrite HP in *; done.
Qed.

Lemma WriteToChannel_length {A} (c : Chan A) x : length (chan_buf (WriteToChannel c x)) ≤ S (length (chan_buf c)).
Proof.
  unfold WriteToChannel, WriteToChannelWithError. destruct (_ <? _); simpl; rewrite ?length_app; simpl; lia.
Qed.

Lemma measure_finished w m c s :
  LoraInv (bump m (uses (inUse [] (set_workerFinished c s)))) (Context s) →
  chan_recv (workerFinished s) = Some ((w, m), c) →
  measure (set_Context (decrementLora m (Context s)) (set_workerFinished c s)) < measure s.
Proof.
  intros HL Hrc. destruct (decrementLora_spec _ _ _ HL) as (_ & _ & _ & _ & _ & _ & _ & Hrem).
  unfold chan_recv in Hrc. destruct (chan_buf (workerFinished s)) eqn:Eb; [done|]. injection Hrc as -> <-.
  unfold measure. simpl. rewrite Eb. simpl. pose proof (WriteToChannel_length (loraRemovable (Context s)) 1%Z).
  destruct Hrem as [[-> _]| ->]; lia.
Qed.

Lemma WriteToChannel_nonempty {A} (c : Chan A) x : 1 ≤ chan_cap c → chan_buf (WriteToChannel c x) ≠ [].
Proof.
  intros Hc. unfold WriteToChannel, WriteToChannelWithError.
  destruct (Nat.ltb_spec (length (chan_buf c)) (chan_cap c)) as [|H]; simpl.
  - by destruct (chan_buf c).
  - destruct (chan_buf c); simpl in *; [lia|done].
Qed.

Lemma Inv_workerFinished rng now x c s :
  LoraRangeOk rng → Inv s → chan_recv (workerFinished s) = Some (x, c) →
  ∃ s', onWorkerFinished rng now x (set_workerFinished c s) = Some s' ∧ Inv s' ∧ measure s' < measure s.
Proof.
  destruct x as [w m]. intros Hr [HC HW] Hrc. destruct (Core_finished w m c s HC Hrc) as [HL HC1].
  unfold onWorkerFinished. cbn [fst snd]. cbn [Context set_workerFinished].
  destruct (Core_find rng now w _ Hr HC1) as (s2 & found & Ef & HC2 & Er & Hm & Hf). rewrite Ef. simpl.
  exists s2. split; [done|]. split; [split; [done|]|pose proof (measure_finished w m c s HL Hrc); lia].
  destruct found; [|by apply allBlocked_Work]. destruct Hf as (Hnb & Efree). intros Hfree Hrem. exfalso. simpl in *. rewrite Efree in Hfree. rewrite Er in Hrem.
  destruct (decrementLora_spec _ _ _ HL) as (_ & _ & E1 & E2 & E3 & _ & _ & [[E4 Hz]|E4]).
  - rewrite E4 in Hrem. apply Hnb. intros i Hi. destruct (HW Hfree Hrem i Hi) as (H1 & H2 & H3 & H4). simpl.
    unfold blocked. rewrite (same_frame_isLora (Context s)), E2 by done. split; [done|].
    rewrite <- !size_dom, E3, size_dom. rewrite <- !not_elem_of_dom, E3, not_elem_of_dom in *.
    split_and!; try done. intros l n Hl ->. apply (H4 l 0%Z); [by apply Hz|done].
  - rewrite E4 in Hrem. eapply WriteToChannel_nonempty; [|exact Hrem]. apply HC.
Qed.

Lemma Inv_loraRemovable rng now fuel s :
  LoraRangeOk rng → Core None [] [] s → length (chan_buf (freeWorkers s)) < fuel →
  ∃ s', onLoraRemovable fuel rng now s = Some s' ∧ Inv s' ∧ measure s' ≤ measure s.
Proof.
  intros Hr. revert s. induction fuel as [|fuel IH]; intros s HC Hlt; [lia|]. cbn [onLoraRemovable].
  pose proof (Core_getFree _ _ _ HC) as Hg. destruct (getFreeWorker s) as [s1 [w|]].
  - destruct Hg as (HC1 & E1 & E2 & E3 & Hm1). rewrite E3 in Hlt. simpl in Hlt.
    destruct (Core_find rng now w _ Hr HC1) as (s2 & found & -> & HC2 & Er & Hm2 & Hf). destruct found.
    + destruct Hf as (_ & Ef). destruct (IH s2 HC2) as (s3 & -> & HI & Hm3); [rewrite Ef; lia|].
      exists s3. split; [done|]. split; [done|]. lia.
    + exists s2. split; [done|]. split; [split; [done|by apply allBlocked_Work]|lia].
  - destruct Hg as [-> Ef]. exists s. split; [done|]. split; [split; [done|]|lia]. intros H. by rewrite Ef in H.
Qed.

Lemma Core_removable c s :
  Core None [] [] s → chan_cap c = chan_cap (loraRemovable (Context s)) →
  Core None [] [] (set_Context (set_loraRemovable c (Context s)) s).
Proof.
  intros [] E. constructor; simpl; rewrite ?E; try done.
  by destruct c_lora0; constructor.
Qed.

(** ** New requests *)

(** The new request waits, or is rejected when the queue is full; either way it is accounted for. *)
Lemma Core_addRequest now hole r s :
  Core hole [r] [] s →
  let s' := addRequestToQueue now r s in
  Core hole [] [] s' ∧ same_loras (Context s) (Context s') ∧ freeWorkers s' = freeWorkers s ∧
  measure s' ≤ measure s + 5 ∧
  (waitingQueue s' = waitingQueue s ∨ waitingQueue s' = waitingQueue s ++ [mkItem r now]).
Proof.
  intros HC s'. subst s'. unfold addRequestToQueue, enqueue.
  destruct (Nat.leb_spec (queueCapacity s) (length (waitingQueue s))) as [Hfull|Hroom].
  - split; [|split; [done|split; [done|split; [unfold measure; simpl; lia|by left]]]].
    destruct HC. constructor; try done. simpl. rewrite c_conserve0, fmap_app. simpl. solve_Permutation.
  - assert (HC1 : Core hole [] [] (set_waitingQueue (waitingQueue s ++ [mkItem r now]) s)).
    { destruct HC. constructor; try done; simpl.
      - rewrite length_app. simpl. lia.
      - rewrite c_conserve0, fmap_app. simpl. solve_Permutation. }
    assert (Hm : measure (set_waitingQueue (waitingQueue s ++ [mkItem r now]) s) ≤ measure s + 5)
      by (unfold measure; simpl; rewrite length_app; simpl; lia).
    destruct (isLora _ _); (split; [eauto using Core_reportWaiting, Core_reportLora|]);
      (split; [done|split; [done|split; [exact Hm|by right]]]).
Qed.

(** A request that is already loaded, or finds a slot, cannot unblock a queued one. *)
Lemma loadLora_keeps_blocked active rng m q c c' :
  LoraRangeOk rng → LoraInv active c → loadLora rng m c = (c', true) → blocked q c → blocked q c'.
Proof.
  intros Hr HI Hl (H1 & H2 & H3 & H4). unfold loadLora in Hl. destruct (isLora m c) eqn:Hlo; [|by simplify_eq/=].
  simpl in Hl. destruct (loadedLoras c !! m) as [n|] eqn:Em; simpl in Hl.
  - injection Hl as <-. unfold blocked. simpl. rewrite Em. split; [done|].
    assert (q ≠ m) by congruence. rewrite lookup_insert_ne by done. split; [done|].
    rewrite <- size_dom, dom_insert_lookup_L, size_dom by eauto. split; [done|].
    intros l x. rewrite lookup_insert. case_decide; [|by apply H4].
    intros [= <-]. pose proof (li_count _ _ HI m n Em) as Hz. rewrite Hlo in Hz. simpl. lia.
  - destruct (Nat.ltb_spec (size (loadedLoras c)) (maxLoras c)); [lia|].
    pose proof (unloadIdle_spec rng c Hr) as Hu. destruct (unloadIdle rng c) as [c1 [|]]; [|by simplify_eq/=].
    destruct Hu as (l & Hz & _). by apply H4 in Hz.
Qed.

Lemma Core_acquire hole r s c :
  Core hole [r] [] s → LoraInv (bump (displayedModel r) (uses (inUse [] s))) c →
  loraRemovable c = loraRemovable (Context s) → maxLoras c = maxLoras (Context s) →
  Core hole [] [r] (set_Context c s).
Proof.
  intros [] HL E1 E2. constructor; simpl; rewrite ?E1, ?E2; try done.
  unfold inUse in *. simpl in *. by apply LoraInv_uses_cons.
Qed.

Lemma Inv_newRequest rng now r c s :
  LoraRangeOk rng → Inv s → chan_recv (newRequests s) = Some (r, c) →
  ∃ s', onNewRequest rng now r (set_newRequests c s) = Some s' ∧ Inv s' ∧ measure s' < measure s.
Proof.
  intros Hr [HC HW] Hrc. set (s0 := set_newRequests c s).
  assert (HC0 : Core None [r] [] s0 ∧ measure s0 + 6 = measure s).
  { unfold s0, chan_recv in *. destruct (chan_buf (newRequests s)) as [|x b] eqn:Eb; [done|]. injection Hrc as -> <-.
    destruct HC. split; [|unfold measure; simpl; rewrite Eb; simpl; lia]. constructor; try done; simpl.
    - unfold chan_wf in *. rewrite Eb in *. simpl in *. lia.
    - rewrite c_conserve0, Eb. simpl. solve_Permutation. }
  destruct HC0 as [HC0 Hm0]. unfold onNewRequest. pose proof (Core_getFree _ _ _ HC0) as Hg.
  destruct (getFreeWorker s0) as [s1 [w|]].
  2:{ destruct Hg as [-> Ef]. destruct (Core_addRequest now _ _ _ HC0) as (HC1 & _ & E2 & Hm & _).
      eexists. split; [done|]. split; [split; [done|]|lia]. intros H. by rewrite E2, Ef in H. }
  destruct Hg as (HC1 & E1 & E2 & E3 & Hm1).
  assert (HB : chan_buf (loraRemovable (Context s1)) = [] → allBlocked s1).
  { intros Hrem i Hi. rewrite E1 in *. rewrite E2 in Hi. apply HW; [|done|done]. change (freeWorkers s) with (freeWorkers s0).
    by rewrite E3. }
  pose proof (loadLora_spec _ rng (displayedModel r) _ Hr (c_lora _ _ _ _ HC1)) as Hl.
  assert (Hd : (if isLora (displayedModel r) (Context s1) then loadLora rng (displayedModel r) (Context s1)
                else (Context s1, true)) = loadLora rng (displayedModel r) (Context s1))
    by (unfold loadLora; by destruct (isLora _ _)).
  rewrite Hd. destruct (loadLora rng _ _) as [c1 [|]] eqn:El.
  - destruct Hl as (HI & (F1 & F2 & F3 & F4 & F5 & F6) & F7 & Hnb & _). eexists. split; [done|].
    assert (HC2 : Core (Some w) [] [r] (set_Context c1 s1)) by (by apply Core_acquire).
    destruct (Core_sendToWorker _ _ _ _ _ HC2) as [HC3 Hm3].
    assert (measure (set_Context c1 s1) = measure s1) by (unfold measure; simpl; by rewrite F3).
    split; [split; [done|]|lia]. intros _ Hrem i Hi. simpl in *. rewrite F3 in Hrem.
    eapply loadLora_keeps_blocked; [done|apply HC1|done|]. by apply HB.
  - destruct Hl as [-> Hb]. assert (HC2 : Core (Some w) [r] [] (set_Context (Context s1) s1)) by (by destruct s1).
    destruct (Core_sendFree _ _ _ _ HC2) as (s2 & -> & HC3 & E4 & E5 & Hm2). simpl in *. eexists. split; [done|].
    change (measure (set_Context (Context s1) s1)) with (measure s1) in Hm2.
    destruct (Core_addRequest now _ _ _ HC3) as (HC4 & Hsl & E6 & Hm4 & Hq). split; [split; [done|]|lia].
    intros _ Hrem i Hi. eapply same_loras_blocked; [done|]. rewrite E4.
    rewrite (sl_removable _ _ Hsl), E4 in Hrem. rewrite E5 in Hq.
    destruct Hq as [Hq|Hq]; rewrite Hq in Hi; [by apply HB|].
    apply elem_of_app in Hi as [Hi|Hi%list_elem_of_singleton]; [by apply HB|]. by subst i.
Qed.

(** ** Workers *)

Lemma Inv_workerTake w s s' : Inv s → workerTake w s = Some s' → Inv s' ∧ measure s' < measure s.
Proof.
  intros [HC HW] Ht. unfold workerTake in Ht. destruct (workers s !! w) as [[c [r|]]|] eqn:Hwk; try done.
  unfold chan_recv in Ht. destruct c as [[|r b] k]; simpl in Ht; [done|]. injection Ht as <-.
  destruct HC. destruct (c_worker0 w _ Hwk) as [Hcap Hload]. unfold load in Hload.
  cbn [current reqChan option_list chan_buf chan_cap] in *. rewrite app_nil_r in Hload.
  assert (Hb : b = []) by (destruct b; [done|simpl in Hload; case_decide; lia]). subst b.
  set (wk' := mkWorker (mkChan [] k) (Some r)). set (ws := <[w := wk']> (workers s)).
  assert (Hheld : heldBy ws ≡ₚ heldBy (workers s)).
  { unfold ws. by rewrite heldBy_insert, (heldBy_lookup _ _ _ Hwk). }
  split; [split; [|done]|].
  - constructor; try done; simpl.
    + intros i. rewrite <- c_dom0. unfold ws. rewrite lookup_insert. destruct (decide (w = i)); subst; naive_solver.
    + intros i x. unfold ws. rewrite lookup_insert. destruct (decide (w = i)) as [E|E]; [|apply c_worker0].
      intros [= <-]. subst i. simpl. split; [done|]. unfold load. simpl. exact Hload.
    + by rewrite c_conserve0, Hheld.
    + eapply LoraInv_perm; [|exact c_lora0]. unfold inUse. simpl. by rewrite Hheld.
  - unfold measure. simpl. pose proof (workersWeight_insert _ _ _ wk' Hwk) as Hm.
    unfold ws, wk', weight in *. simpl in *. lia.
Qed.

(** A worker that finishes finds room in [workerFinished]. *)
Lemma Inv_workerDone now w c r s :
  Inv s → workers s !! w = Some (mkWorker c (Some r)) →
  ∃ s', workerDone now w s = Some s' ∧ Inv s' ∧ measure s' < measure s ∧ signalled s' = signalled s ++ [(r, Processed)].
Proof.
  intros [HC HW] Hwk. pose proof (idle_length _ _ _ _ HC) as Hil.
  unfold workerDone. rewrite Hwk.
  set (s1 := onResponseProcessingFinished now r s).
  assert (Hs1 : same_loras (Context s) (Context s1) ∧ freeWorkers s1 = freeWorkers s ∧
    workerFinished s1 = workerFinished s ∧ waitingQueue s1 = waitingQueue s ∧ queueCapacity s1 = queueCapacity s ∧
    newRequests s1 = newRequests s ∧ workers s1 = workers s ∧ drainDone s1 = drainDone s ∧
    signalled s1 = signalled s ++ [(r, Processed)] ∧ submitted s1 = submitted s).
  { unfold s1, onResponseProcessingFinished, kvCacheOnRequestEnd. destruct (traceErr r); by destruct (isLora _ _). }
  clearbody s1. destruct Hs1 as (Hsl & S1 & S2 & S3 & S4 & S5 & S6 & S7 & S8 & S9). pose proof Hsl as [L1 L2 L3 L4 L5].
  pose proof HC as []. destruct (c_worker0 w _ Hwk) as [Hcap Hload]. unfold load in Hload.
  rewrite length_app in Hload. cbn [current reqChan option_list length] in Hload.
  destruct (decide (w ∈ idle None s)) as [|Hni]; simpl in Hload; [lia|].
  assert (Hbuf : chan_buf c = []) by (destruct (chan_buf c); [done|simpl in Hload; lia]).
  assert (Hroom : S (length (idle None s)) ≤ N).
  { change (length (w :: idle None s) ≤ N). rewrite <- (length_seq N 1). apply submseteq_length, NoDup_submseteq.
    - by constructor.
    - intros i [->|Hi]%elem_of_cons; [|by apply c_idle0]. apply c_dom0. eauto. }
  simpl. rewrite S2.
  destruct (Nat.ltb_spec (length (chan_buf (workerFinished s))) (chan_cap (workerFinished s))) as [_|Hge].
  2:{ unfold idle in Hroom. rewrite !length_app, length_fmap in Hroom. lia. }
  eexists. split; [done|]. rewrite S6.
  set (wk' := mkWorker c None). set (ws := <[w := wk']> (workers s)).
  assert (Hheld : heldBy (workers s) ≡ₚ r :: heldBy ws).
  { unfold ws. rewrite heldBy_insert, (heldBy_lookup _ _ _ Hwk). unfold load, wk'. simpl. by rewrite Hbuf. }
  set (s2 := set_workerFinished _ _).
  assert (Hidle : idle None s2 ≡ₚ w :: idle None s).
  { unfold idle, s2. simpl. rewrite S1, fmap_app, !app_nil_r. simpl. solve_Permutation. }
  split; [split|].
  - constructor; simpl; rewrite ?S1, ?S3, ?S4, ?S5, ?S7, ?S8, ?S9, ?L4, ?L5; try done.
    + intros i. rewrite <- c_dom0. unfold ws. rewrite lookup_insert. destruct (decide (w = i)); subst; naive_solver.
    + rewrite Hidle. by constructor.
    + intros i. rewrite Hidle. intros [->|Hi]%elem_of_cons; [|by apply c_idle0]. apply c_dom0. eauto.
    + intros i x. unfold ws. rewrite lookup_insert. destruct (decide (w = i)) as [E|E].
      * intros [= <-]. subst i. split; [done|]. rewrite decide_True by (rewrite Hidle; left). unfold load. simpl. by rewrite Hbuf.
      * intros Hx. destruct (c_worker0 i x Hx) as [? ->]. split; [done|].
        assert (i ∈ idle None s2 ↔ i ∈ idle None s) by (rewrite Hidle; set_solver).
        repeat case_decide; naive_solver.
    + rewrite c_conserve0, Hheld, fmap_app. simpl. solve_Permutation.
    + eapply same_loras_inv; [done|]. eapply LoraInv_perm; [|exact c_lora0]. unfold inUse. simpl.
      rewrite Hheld, !fmap_app. simpl. solve_Permutation.
  - intros Hf Hrem i Hi. simpl in *. rewrite S1 in Hf. rewrite S3 in Hi. rewrite L4 in Hrem.
    eapply same_loras_blocked; [done|]. by apply HW.
  - split; [|done]. unfold measure. simpl. rewrite S3, S5, L4, length_app. simpl.
    pose proof (workersWeight_insert _ _ _ wk' Hwk) as Hm. unfold ws, wk', weight in *. simpl in *. rewrite Hbuf in *. simpl in *. lia.
Qed.

(** ** Submission *)

Lemma Inv_submitOne r s : Inv s → Inv (submitOne r s).
Proof.
  intros [HC HW]. unfold submitOne, WriteToChannelWithError. simpl. rewrite (c_drain _ _ _ _ HC).
  destruct (Nat.ltb_spec (length (chan_buf (newRequests s))) (chan_cap (newRequests s))); (split; [|done]);
    destruct HC; constructor; try done; simpl.
  - unfold chan_wf. simpl. rewrite length_app. simpl. lia.
  - rewrite c_conserve0. simpl. solve_Permutation.
  - rewrite c_conserve0, fmap_app. simpl. solve_Permutation.
Qed.

Lemma Inv_HandleRequest failure req s s' h : Inv s → HandleRequest failure req s = Some (s', h) → Inv s'.
Proof.
  intros HI. unfold HandleRequest. destruct failure; [naive_solver|].
  destruct (negb _); [naive_solver|]. destruct (getDisplayedModelName _ _) as [d|]; [|done].
  destruct (req_validate _ _); [naive_solver|]. intros [= <- _].
  generalize (imap (λ i id, mkReqCtx id i d (req_traceErr req)) (req_split req)). intros l.
  revert s HI. induction l as [|r l IH]; intros s HI; simpl; [done|]. by apply IH, Inv_submitOne.
Qed.

Lemma Inv_context s c : Inv s → same_loras (Context s) c → Inv (set_Context c s).
Proof.
  intros [HC HW] Hs. split; [by apply Core_context|]. intros Hf Hrem i Hi. simpl in *.
  rewrite (sl_removable _ _ Hs) in Hrem. eapply same_loras_blocked; [done|]. by apply HW.
Qed.

End Invariant.

End SchedulerInv.
