(* ===== verification/SchedulerProps.v ===== *)
(** Properties of the scheduler: runs of the dispatcher, the workers and the
    callers in any interleaving, from start-up to the drained state. *)

From S2P Require Import Prelude GoFloat BlockCache Lora Scheduler SchedulerInv.
Import Lora Scheduler SchedulerInv.

Module SchedulerProps.

(** * Start-up *)

Definition idleWorker : worker := mkWorker (mkChan [] 1) None.

Lemma startWorkers_spec ids s :
  length (chan_buf (freeWorkers s)) + length ids ≤ chan_cap (freeWorkers s) →
  startWorkers ids s =
    Some (set_workers (foldl (λ m i, <[i := idleWorker]> m) (workers s) ids)
           (set_freeWorkers (mkChan (chan_buf (freeWorkers s) ++ ids) (chan_cap (freeWorkers s))) s)).
Proof.
  revert s. induction ids as [|i ids IH]; intros s Hle; simpl in *.
  - rewrite app_nil_r. by destruct s as [? []].
  - unfold startWorker, sendFree. simpl.
    destruct (Nat.ltb_spec (length (chan_buf (freeWorkers s))) (chan_cap (freeWorkers s))); [|lia].
    rewrite IH; simpl; [by rewrite <- app_assoc|]. rewrite length_app. simpl. lia.
Qed.

Lemma foldl_idle_lookup (ids : list nat) (m : gmap nat worker) (i : nat) :
  foldl (λ m i, <[i := idleWorker]> m) m ids !! i = if decide (i ∈ ids) then Some idleWorker else m !! i.
Proof.
  revert m. induction ids as [|x ids IH]; intros m; simpl; [done|].
  rewrite IH, decide_elem_of_cons, lookup_insert. repeat case_decide; subst; done.
Qed.

Lemma foldl_adaptors_lookup (l : list (string * string)) (m : gmap string string) :
  m !! ""%string = None → Forall (λ p, p.1 ≠ ""%string) l →
  foldl (λ m lora, <[lora.1 := lora.2]> m) m l !! ""%string = None.
Proof.
  revert m. induction l as [|[n p] l IH]; intros m Hm Hf; simpl; [done|].
  inversion Hf; subst. apply IH; [|done]. by rewrite lookup_insert_ne.
Qed.

(** The checks of [Configuration.validate] the scheduler depends on. *)
Definition ValidConfig (cfg : Configuration) : Prop :=
  1 ≤ cfg_MaxNumSeqs cfg ∧ 1 ≤ cfg_MaxLoras cfg ∧ Forall (λ p, p.1 ≠ ""%string) (cfg_LoraModules cfg).

Lemma Inv_init cfg cache :
  ValidConfig cfg → ∃ s, InitializeSim cfg cache = Some s ∧ Inv (cfg_MaxNumSeqs cfg) s.
Proof.
  intros (HN & HL & Hn). unfold InitializeSim. rewrite startWorkers_spec by (simpl; rewrite length_seq; lia).
  eexists. split; [done|]. simpl. set (N := cfg_MaxNumSeqs cfg) in *.
  assert (Hh : heldBy (foldl (λ m i, <[i := idleWorker]> m) ∅ (seq 1 N)) = []).
  { apply heldBy_nil. intros i w. rewrite foldl_idle_lookup, lookup_empty. case_decide; naive_solver. }
  split; [|by intros ?? i ?%not_elem_of_nil].
  constructor; simpl; try done; unfold idle; simpl; rewrite ?app_nil_r.
  - intros i. rewrite foldl_idle_lookup, lookup_empty. case_decide; [naive_solver|].
    split; [by intros []|done].
  - apply NoDup_seq.
  - done.
  - intros i w. rewrite foldl_idle_lookup, lookup_empty. case_decide; [|done]. by intros [= <-].
  - lia.
  - unfold chan_wf. simpl. lia.
  - by rewrite Hh.
  - unfold inUse. simpl. rewrite Hh. constructor; simpl; try done.
    + by apply foldl_adaptors_lookup.
    + rewrite map_size_empty. lia.
    + exists [], (cfg_MaxLoras cfg). split; [done|]. split; [constructor|]. split; [by intros ?%not_elem_of_nil|]. set_solver.
    + by rewrite length_replicate.
Qed.

(** * Steps *)

(** Internal progress: a select case of the dispatcher, or a worker. *)
Inductive internal : Simulator → Simulator → Prop :=
| internal_processing rng now case s s' :
    LoraRangeOk rng → processing rng now case s = Some s' → internal s s'
| internal_take w s s' : workerTake w s = Some s' → internal s s'
| internal_done now w s s' : workerDone now w s = Some s' → internal s s'.

(** An adapter may be registered under a name that is not empty and, if it is a new
    adapter, is not the model of a request that runs (or has finished and is not
    accounted for yet). *)
Definition LoadAllowed (body : result string (string * string)) (s : Simulator) : Prop :=
  match body with
  | Err _ => True
  | Ok (name, _) => name ≠ ""%string ∧ (isLora name (Context s) = true ∨ name ∉ inUse [] s)
  end.

(** An adapter may be unregistered that no running request uses and no queued request
    waits for.  The server does not check it ([unload_in_use_starves]). *)
Definition UnloadAllowed (body : result string string) (s : Simulator) : Prop :=
  match body with
  | Err _ => True
  | Ok name => name ∉ inUse [] s ∧ ∀ item, item ∈ waitingQueue s → displayedModel (item_reqCtx item) ≠ name
  end.

(** A step of a system that is not shut down: also a call of [HandleRequest], the load or
    unload of an adapter, an operation on the block cache, or a receive by the metric
    updaters. *)
Inductive step : Simulator → Simulator → Prop :=
| step_internal s s' : internal s s' → step s s'
| step_handle failure req h s s' : HandleRequest failure req s = Some (s', h) → step s s'
| step_load body s : LoadAllowed body s → step s (set_Context (LoadLoraAdaptor body (Context s)).1 s)
| step_unload body s : UnloadAllowed body s → step s (set_Context (UnloadLoraAdaptor body (Context s)).1 s)
| step_cache f s : step s (set_Context (onCache f (Context s)) s)
| step_metrics a b c d s :
    step s (set_Context (set_waitingReqChan a (set_lorasChan b (set_reqQueueTimeChan c (set_runReqChan d (Context s))))) s).

Inductive reachable (cfg : Configuration) : Simulator → Prop :=
| reach_init cache s : InitializeSim cfg cache = Some s → reachable cfg s
| reach_step s s' : reachable cfg s → step s s' → reachable cfg s'.

(** The channel of a select case. *)
Definition ready (case : selectCase) (s : Simulator) : Prop :=
  match case with
  | caseWorkerFinished => chan_buf (workerFinished s) ≠ []
  | caseLoraRemovable => chan_buf (loraRemovable (Context s)) ≠ []
  | caseNewRequest => chan_buf (newRequests s) ≠ []
  end.

Lemma chan_recv_ready {A} (c : Chan A) : chan_buf c ≠ [] → ∃ x c', chan_recv c = Some (x, c').
Proof. unfold chan_recv. destruct (chan_buf c); naive_solver. Qed.

(** A ready case runs to completion, keeps the invariant and reduces the remaining work. *)
Lemma processing_ready N rng now case s :
  LoraRangeOk rng → Inv N s → ready case s →
  ∃ s', processing rng now case s = Some s' ∧ Inv N s' ∧ measure s' < measure s.
Proof.
  intros Hr HI Hrd. destruct case; simpl in *; destruct (chan_recv_ready _ Hrd) as (x & c & E); rewrite E.
  - by apply Inv_workerFinished.
  - unfold chan_recv in E. destruct (chan_buf (loraRemovable (Context s))) as [|y b] eqn:Eb; [done|]. injection E as -> <-.
    destruct (Inv_loraRemovable N rng now (S (length (chan_buf (freeWorkers s))))
      (set_Context (set_loraRemovable (mkChan b (chan_cap (loraRemovable (Context s)))) (Context s)) s)) as (s' & E' & HI' & Hm);
      [done|apply Core_removable; [apply HI|done]|simpl; lia|].
    exists s'. split; [exact E'|]. split; [done|]. unfold measure in *. simpl in *. rewrite Eb. simpl. lia.
  - by apply Inv_newRequest.
Qed.

Lemma processing_Some_ready rng now case s s' : processing rng now case s = Some s' → ready case s.
Proof. destruct case; simpl; unfold chan_recv; by destruct (chan_buf _). Qed.

Lemma internal_inv N s s' : Inv N s → internal s s' → Inv N s' ∧ measure s' < measure s.
Proof.
  intros HI Hs. destruct Hs as [rng now case s0 s1 Hr E|w s0 s1 E|now w s0 s1 E].
  - destruct (processing_ready N rng now case s0 Hr HI (processing_Some_ready _ _ _ _ _ E)) as (? & ? & ?). naive_solver.
  - by eapply Inv_workerTake.
  - pose proof E as E'. unfold workerDone in E. destruct (workers s0 !! w) as [[c [r|]]|] eqn:Hw; try done.
    destruct (Inv_workerDone N now w c r s0 HI Hw) as (? & ? & ? & ? & _). naive_solver.
Qed.

(** A change of the registry that keeps the table consistent and unblocks no queued request. *)
Lemma Inv_registry N s a :
  Inv N s → LoraInv (uses (inUse [] s)) (set_loraAdaptors a (Context s)) →
  (∀ item, item ∈ waitingQueue s → blocked (displayedModel (item_reqCtx item)) (Context s) →
     blocked (displayedModel (item_reqCtx item)) (set_loraAdaptors a (Context s))) →
  Inv N (set_Context (set_loraAdaptors a (Context s)) s).
Proof.
  intros [[] HW] HL Hb. split; [by constructor|]. intros Hf Hr item Hi. apply Hb; [done|]. by apply HW.
Qed.

Lemma uses_absent l m : m ∉ l → uses l m = 0.
Proof. intros Hm. destruct (decide (uses l m = 0)) as [|Hu]; [done|]. by apply uses_pos in Hu. Qed.

Lemma set_Context_same s : set_Context (Context s) s = s.
Proof. by destruct s. Qed.

Lemma Inv_load N body s : Inv N s → LoadAllowed body s → Inv N (set_Context (LoadLoraAdaptor body (Context s)).1 s).
Proof.
  intros HI Ha. destruct body as [[name path]|e]; [|simpl; by rewrite set_Context_same]. destruct Ha as [Hne Hu]. apply Inv_registry; [done| |].
  - apply LoraInv_register; [apply HI|done|]. destruct Hu as [?|Hu]; [by left|right; by apply uses_absent].
  - intros item _. apply blocked_register.
Qed.

Lemma Inv_unload N body s : Inv N s → UnloadAllowed body s → Inv N (set_Context (UnloadLoraAdaptor body (Context s)).1 s).
Proof.
  intros HI Ha. destruct body as [name|e]; [|simpl; by rewrite set_Context_same]. destruct Ha as [Hu Hq]. apply Inv_registry; [done| |].
  - apply LoraInv_unregister; [apply HI|by apply uses_absent].
  - intros item Hi. by apply blocked_unregister, Hq.
Qed.

Lemma step_inv N s s' : Inv N s → step s s' → Inv N s'.
Proof.
  intros HI Hst. destruct Hst as [s0 s1 Hs|? ? ? s0 s1 Hh|body s0 Ha|body s0 Ha|f s0|a b c d s0].
  - by eapply internal_inv.
  - by eapply Inv_HandleRequest.
  - by apply Inv_load.
  - by apply Inv_unload.
  - by apply Inv_context.
  - by apply Inv_context.
Qed.

Lemma sched_reachable_inv cfg s : ValidConfig cfg → reachable cfg s → Inv (cfg_MaxNumSeqs cfg) s.
Proof.
  intros Hv. induction 1 as [cache s E|s s' _ IH Hs].
  - destruct (Inv_init cfg cache Hv) as (? & ? & ?). naive_solver.
  - by eapply step_inv.
Qed.

(** * Consequences of the invariant *)

Lemma sum_list_le (l : list nat) : Forall (λ n, n ≤ 1) l → sum_list l ≤ length l.
Proof. induction 1; simpl; lia. Qed.

Lemma held_length N s : Core N None [] [] s → length (heldBy (workers s)) ≤ N.
Proof.
  intros []. unfold heldBy. rewrite length_concat. etrans; [apply sum_list_le|].
  - rewrite Forall_forall. intros n (l & -> & ([i w] & -> & Hin%elem_of_map_to_list)%list_elem_of_fmap)%list_elem_of_fmap.
    destruct (c_worker0 i w Hin) as [_ E]. simpl. rewrite E. case_decide; lia.
  - rewrite !length_fmap, length_map_to_list, <- size_dom.
    rewrite <- (length_seq N 1), <- (size_list_to_set (C := gset nat) (seq 1 N)) by apply NoDup_seq.
    apply subseteq_size. intros i Hi%elem_of_dom%c_dom0. by apply elem_of_list_to_set.
Qed.

Lemma uses_elem m l : m ∈ l → uses l m ≠ 0.
Proof.
  intros Hm. unfold uses. assert (m ∈ filter (λ x, x = m) l) as H by (by apply list_elem_of_filter).
  destruct (filter _ l); [by apply not_elem_of_nil in H|done].
Qed.

Lemma GetLoraID_split f c m :
  LoraInv f c → is_Some (loadedLoras c !! m) →
  ∃ pre post, loraIDs c = pre ++ m :: post ∧ GetLoraID m c = S (length pre).
Proof.
  intros HL Hm%elem_of_dom. destruct (li_ids _ _ HL) as (names & k & E & Hnd & _ & Hset).
  rewrite <- Hset, elem_of_list_to_set in Hm. apply list_elem_of_split in Hm as (pre & post & ->).
  exists pre, (post ++ replicate k ""%string). rewrite <- app_assoc in E. split; [done|].
  unfold GetLoraID. rewrite E. apply loraIDFrom_app. apply NoDup_app in Hnd as (_ & Hd & _). intros Hin. apply (Hd m Hin). left.
Qed.

Lemma GetLoraID_range f c m :
  LoraInv f c → is_Some (loadedLoras c !! m) → 1 ≤ GetLoraID m c ≤ maxLoras c.
Proof.
  intros HL Hm. destruct (GetLoraID_split f c m HL Hm) as (pre & post & E & ->).
  rewrite <- (li_ids_len _ _ HL), E, length_app. simpl. lia.
Qed.

Lemma GetLoraID_inj f c m m' :
  LoraInv f c → is_Some (loadedLoras c !! m) → is_Some (loadedLoras c !! m') →
  GetLoraID m c = GetLoraID m' c → m = m'.
Proof.
  intros HL Hm Hm' E. destruct (GetLoraID_split f c m HL Hm) as (pre & post & E1 & F1).
  destruct (GetLoraID_split f c m' HL Hm') as (pre' & post' & E2 & F2). rewrite E1 in E2.
  assert (length pre = length pre') by lia. apply app_inj_1 in E2 as [_ E2]; [|done]. by injection E2.
Qed.

Lemma nsteps_measure N n s s' : Inv N s → nsteps internal n s s' → n + measure s' ≤ measure s.
Proof.
  intros HI Hn. induction Hn as [|n a b c Hab _ IH]; [lia|].
  destruct (internal_inv _ _ _ HI Hab) as [HI' Hm]. specialize (IH HI'). lia.
Qed.

Definition anyRange : LoraRange := map_to_list.
Lemma anyRange_ok : LoraRangeOk anyRange.
Proof. intros m. reflexivity. Qed.

Lemma quiescent_ready N s case : Inv N s → (∀ s', ¬ internal s s') → ¬ ready case s.
Proof.
  intros HI Hq Hr. destruct (processing_ready N anyRange 0 case s anyRange_ok HI Hr) as (s' & E & _).
  eapply Hq, internal_processing; [apply anyRange_ok|done].
Qed.

Lemma quiescent_workers N s : Inv N s → (∀ s', ¬ internal s s') → ∀ i w, workers s !! i = Some w → load w = [].
Proof.
  intros HI Hq i w Hw. destruct w as [c [r|]].
  - destruct (Inv_workerDone N 0 i c r s HI Hw) as (s' & E & _). exfalso. by eapply Hq, internal_done.
  - unfold load. simpl. rewrite app_nil_r. destruct (chan_buf c) as [|r b] eqn:Eb; [done|]. exfalso.
    eapply Hq, (internal_take i). unfold workerTake. rewrite Hw. unfold chan_recv. by rewrite Eb.
Qed.

Lemma quiescent_free N s : Inv N s → (∀ s', ¬ internal s s') → ∀ i, i ∈ seq 1 N → i ∈ chan_buf (freeWorkers s).
Proof.
  intros HI Hq i Hi. pose proof HI as [[] _]. destruct (proj2 (c_dom0 i) Hi) as [w Hw].
  destruct (c_worker0 i w Hw) as [_ Hl]. rewrite (quiescent_workers N s HI Hq i w Hw) in Hl.
  destruct (decide (i ∈ idle None s)) as [Hin|]; [|done]. unfold idle in Hin.
  pose proof (quiescent_ready N s caseWorkerFinished HI Hq) as Hf. simpl in Hf.
  destruct (chan_buf (workerFinished s)); [|by destruct Hf]. simpl in Hin. by rewrite app_nil_r in Hin.
Qed.

Lemma quiescent_empty N s :
  Inv N s → (∀ s', ¬ internal s s') →
  submitted s ≡ₚ (signalled s).*1 ∧ waitingQueue s = [] ∧ chan_buf (newRequests s) = [] ∧
  chan_buf (workerFinished s) = [] ∧ heldBy (workers s) = [] ∧ OpenRequests s = 0.
Proof.
  intros HI Hq. pose proof (quiescent_workers N s HI Hq) as Hw. pose proof (quiescent_free N s HI Hq) as Hfree.
  assert (Hempty : ∀ case, ¬ ready case s) by (intros; by eapply quiescent_ready).
  pose proof (Hempty caseWorkerFinished) as Hf%dec_stable. pose proof (Hempty caseLoraRemovable) as Hr%dec_stable.
  pose proof (Hempty caseNewRequest) as Hn%dec_stable. pose proof HI as [HC HW]. pose proof HC as [].
  assert (Hheld : heldBy (workers s) = []) by (by apply heldBy_nil).
  assert (Hqueue : waitingQueue s = []).
  { destruct (waitingQueue s) as [|item q] eqn:Eq; [done|]. exfalso.
    assert (Hne : chan_buf (freeWorkers s) ≠ []).
    { intros E. specialize (Hfree 1). rewrite E in Hfree. apply not_elem_of_nil in Hfree; [done|]. apply elem_of_seq. lia. }
    destruct (HW Hne Hr item) as (_ & _ & Hsz & Hnz); [rewrite Eq; left|].
    destruct (map_choose (loadedLoras (Context s))) as (l & n & Hl); [intros E; rewrite E, map_size_empty in Hsz; lia|].
    apply (Hnz l n Hl). rewrite (li_count _ _ c_lora0 l n Hl). unfold inUse. rewrite Hheld, Hf. by destruct (isLora l (Context s)). }
  rewrite Hqueue, Hn, Hf, Hheld in *. split_and!; try done.
  unfold OpenRequests. rewrite Hqueue, c_free_cap0.
  assert (N ≤ length (chan_buf (freeWorkers s))); [|simpl; lia].
  rewrite <- (length_seq N 1) at 1. apply submseteq_length, NoDup_submseteq; [apply NoDup_seq|done].
Qed.

Definition fullError : outcome := Rejected (Api.NewError
  "Failed to enqueue request, failed to write to channel newRequests: channel is full" 429).

Lemma submitAll_spec subs s :
  drainDone s = false → chan_wf (newRequests s) →
  let s' := foldl (λ s r, submitOne r s) s subs in
  let k := min (length subs) (chan_cap (newRequests s) - length (chan_buf (newRequests s))) in
  chan_buf (newRequests s') = chan_buf (newRequests s) ++ take k subs ∧
  signalled s' = signalled s ++ ((λ r, (r, fullError)) <$> drop k subs) ∧
  submitted s' = submitted s ++ subs ∧
  (Context s', waitingQueue s', workers s') = (Context s, waitingQueue s, workers s).
Proof.
  revert s. induction subs as [|r subs IH]; intros s Hd Hwf; [simpl; by rewrite !app_nil_r|].
  cbn [foldl length]. unfold chan_wf in Hwf.
  assert (E : submitOne r s =
    if length (chan_buf (newRequests s)) <? chan_cap (newRequests s)
    then set_newRequests (mkChan (chan_buf (newRequests s) ++ [r]) (chan_cap (newRequests s))) (set_submitted (submitted s ++ [r]) s)
    else set_signalled (signalled s ++ [(r, fullError)]) (set_submitted (submitted s ++ [r]) s)).
  { unfold submitOne, WriteToChannelWithError. simpl. rewrite Hd. by destruct (_ <? _). }
  rewrite E. destruct (Nat.ltb_spec (length (chan_buf (newRequests s))) (chan_cap (newRequests s))) as [Hlt|Hge].
  - assert (Hk : min (S (length subs)) (chan_cap (newRequests s) - length (chan_buf (newRequests s))) =
      S (min (length subs) (chan_cap (newRequests s) - (length (chan_buf (newRequests s)) + 1)))) by lia.
    rewrite Hk. edestruct IH as (E1 & E2 & E3 & E4); [|unfold chan_wf|rewrite E1, E2, E3, E4]; simpl;
      [done|rewrite length_app; simpl; lia|].
    rewrite length_app. simpl. by rewrite <- !app_assoc.
  - assert (Hk : chan_cap (newRequests s) - length (chan_buf (newRequests s)) = 0) by lia.
    edestruct IH as (E1 & E2 & E3 & E4); [|unfold chan_wf|rewrite E1, E2, E3, E4]; cbn [newRequests set_signalled set_submitted]; [done|done|].
    rewrite Hk, !Nat.min_0_r. simpl. by rewrite <- !app_assoc.
Qed.

Lemma all_free N s :
  Core N None [] [] s → N ≤ length (chan_buf (freeWorkers s)) →
  heldBy (workers s) = [] ∧ chan_buf (workerFinished s) = [].
Proof.
  intros HC HN. pose proof (idle_length _ _ _ _ _ HC) as Hl. destruct HC.
  assert (Hf : chan_buf (workerFinished s) = []).
  { unfold idle in Hl. rewrite !length_app, length_fmap in Hl. apply nil_length_inv. lia. }
  split; [|done]. apply heldBy_nil. intros i w Hi. destruct (c_worker0 i w Hi) as [_ Hw].
  assert (Hp : idle None s ≡ₚ seq 1 N).
  { apply submseteq_length_Permutation; [apply NoDup_submseteq; [done|exact c_idle0]|].
    unfold idle. rewrite length_app, length_seq. lia. }
  rewrite decide_True in Hw; [by apply nil_length_inv|]. rewrite Hp. apply c_dom0. eauto.
Qed.

Lemma no_worker_step now s w :
  map_Forall (λ _ wk, load wk = []) (workers s) → ¬ (is_Some (workerTake w s) ∨ is_Some (workerDone now w s)).
Proof.
  intros Hm. unfold workerTake, workerDone. destruct (workers s !! w) as [[c cur]|] eqn:E; [|by intros [[]|[]]].
  pose proof (Hm _ _ E) as [Hb Hc]%app_eq_nil. simpl in *. unfold chan_recv. rewrite Hb.
  destruct cur; [done|]. by intros [[]|[]].
Qed.

(** * A concrete run: two workers, one adapter slot *)

Definition wcfg : Configuration := mkConfiguration ["base"%string] [("a", "")]%string 1 2 2.
Definition wreq (ids : list string) (model : string) : Request := mkRequest model (λ _, None) ids false false.

(** A script of operations, for concrete runs. *)
Inductive action := aHandle (req : Request) | aCase (case : selectCase) | aTake (w : nat) | aDone (w : nat) | aLoad (name : string).

Definition act (a : action) (s : Simulator) : option Simulator :=
  match a with
  | aHandle req => fst <$> HandleRequest None req s
  | aCase case => processing anyRange 0 case s
  | aTake w => workerTake w s
  | aDone w => workerDone 0 w s
  | aLoad name => if bool_decide (name ≠ ""%string ∧ name ∉ inUse [] s) then Some (set_Context (LoadLoraAdaptor (Ok (name, ""%string)) (Context s)).1 s) else None
  end.

Definition script (l : list action) : option Simulator :=
  foldl (λ o a, match o with None => None | Some s => act a s end) (InitializeSim wcfg None) l.

Lemma script_reachable l s : script l = Some s → reachable wcfg s.
Proof.
  revert s. unfold script. induction l as [|a l IH] using rev_ind; intros s; [apply reach_init|].
  rewrite foldl_app. simpl. destruct (foldl _ _ l) as [s0|]; [|done]. intros E.
  eapply reach_step; [by apply IH|]. destruct a as [req|case|w|w|name]; cbn [act] in E.
  - destruct (HandleRequest None req s0) as [[s1 h]|] eqn:Eh; [|done]. injection E as <-. by eapply step_handle.
  - eapply step_internal, internal_processing; [apply anyRange_ok|done].
  - by eapply step_internal, internal_take.
  - by eapply step_internal, internal_done.
  - case_bool_decide as Ha; [|done]. injection E as <-. apply (step_load (Ok (name, EmptyString))). destruct Ha. split; [done|by right].
Qed.

(** A request for [b], which was registered after the start, waits while [a] holds the only slot and worker 2 is free. *)
Definition blockedScript : list action :=
  [aLoad "b"; aHandle (wreq ["r1"] "a"); aHandle (wreq ["r2"] "b"); aCase caseNewRequest; aCase caseNewRequest; aTake 1].
Definition blockedState : Simulator := Eval vm_compute in match script blockedScript with Some s => s | None => mkSim (initialize wcfg None) (mkChan [] 0) (mkChan [] 0) [] 0 (mkChan [] 0) ∅ true [] [] end.

Lemma blockedState_reachable : reachable wcfg blockedState.
Proof. apply (script_reachable blockedScript). by vm_compute. Qed.

Lemma wcfg_valid : ValidConfig wcfg.
Proof. split_and!; simpl; [lia|lia|]. by repeat constructor. Qed.

(** * Theorems *)

(** C2: in every reachable state the sub-requests built by [HandleRequest] are,
    as a multiset, those still in the new-request channel, in the waiting queue,
    held by a worker, or already signalled complete: none is lost, none is
    answered twice.  At most [MaxNumSeqs] run, each on its own worker, and the
    queue never exceeds its capacity.  The steps are those of a simulator that is not
    shut down, with adapters registered and unregistered while they are not in use
    ([LoadAllowed], [UnloadAllowed]). *)
Theorem requests_conserved cfg s :
  ValidConfig cfg → reachable cfg s →
  submitted s ≡ₚ chan_buf (newRequests s) ++ (item_reqCtx <$> waitingQueue s)
                   ++ heldBy (workers s) ++ (signalled s).*1 ∧
  length (heldBy (workers s)) ≤ cfg_MaxNumSeqs cfg ∧
  (∀ i w, workers s !! i = Some w → length (load w) ≤ 1) ∧
  length (waitingQueue s) ≤ queueCapacity s.
Proof.
  intros Hv Hs. destruct (sched_reachable_inv _ _ Hv Hs) as [HC _].
  pose proof (held_length _ _ HC). destruct HC. split; [done|]. split; [done|]. split; [|done].
  intros i w Hi. destruct (c_worker0 i w Hi) as [_ ->]. by case_decide; lia.
Qed.

Lemma requests_conserved_witness :
  waitingQueue blockedState ≠ [] ∧ length (waitingQueue blockedState) ≤ queueCapacity blockedState.
Proof. split; [done|]. apply (requests_conserved wcfg blockedState wcfg_valid blockedState_reachable). Defined.

(** C15: at most [MaxLoras] adapters are loaded; the count of a loaded adapter is
    the number of requests that hold it (on a worker, or finished and not yet
    received by the dispatcher), or zero if it was unregistered since; every registered
    adapter in use is loaded, and loaded adapters have distinct ids in [1..MaxLoras].
    This holds from start-up to [Stop], with requests arriving and adapters being
    registered and unregistered at any time, where an adapter is only unregistered while
    no request runs with it or waits for it (the server does not check it, and the count
    is then never released: [unload_in_use_starves]), and a new one does not take the
    name of a model in use or the empty name. *)
Theorem loras_consistent cfg s :
  ValidConfig cfg → reachable cfg s →
  size (loadedLoras (Context s)) ≤ maxLoras (Context s) ∧
  (∀ m n, loadedLoras (Context s) !! m = Some n → n = Z.of_nat (if isLora m (Context s) then uses (inUse [] s) m else 0)) ∧
  (∀ r, r ∈ heldBy (workers s) → isLora (displayedModel r) (Context s) = true →
        is_Some (loadedLoras (Context s) !! displayedModel r)) ∧
  (∀ m, is_Some (loadedLoras (Context s) !! m) → 1 ≤ GetLoraID m (Context s) ≤ maxLoras (Context s)) ∧
  (∀ m m', is_Some (loadedLoras (Context s) !! m) → is_Some (loadedLoras (Context s) !! m') →
           GetLoraID m (Context s) = GetLoraID m' (Context s) → m = m').
Proof.
  intros Hv Hs. destruct (sched_reachable_inv _ _ Hv Hs) as [HC _]. pose proof (c_lora _ _ _ _ _ HC) as HL.
  split; [apply HL|]. split; [intros m n Hm; by apply (li_count _ _ HL)|]. split.
  - intros r Hr Hlo. apply (li_loaded _ _ HL); [done|]. apply uses_elem. unfold inUse. simpl. set_solver.
  - split; intros; [by eapply GetLoraID_range|by eapply GetLoraID_inj].
Qed.

Lemma loras_consistent_witness : size (loadedLoras (Context blockedState)) ≤ maxLoras (Context blockedState).
Proof. apply (loras_consistent wcfg blockedState wcfg_valid blockedState_reachable). Defined.

(** C13: no lost wake-up.  When a worker is free and no adapter-removal event is
    pending, every queued request is blocked: its adapter is not loaded, all
    [MaxLoras] slots are taken and every loaded adapter is in use.  Requests arrive, and
    adapters are registered and unregistered, at any time from start-up to [Stop]; an
    adapter is only unregistered while no request runs with it or waits for it
    ([UnloadAllowed]; otherwise a request of it would stay in the queue with workers free),
    and registered under a name that no running request has ([LoadAllowed]). *)
Theorem work_conserving cfg s :
  ValidConfig cfg → reachable cfg s →
  chan_buf (freeWorkers s) ≠ [] → chan_buf (loraRemovable (Context s)) = [] →
  ∀ item, item ∈ waitingQueue s → blocked (displayedModel (item_reqCtx item)) (Context s).
Proof. intros Hv Hs. apply (sched_reachable_inv _ _ Hv Hs). Qed.

Lemma work_conserving_witness : blocked "b" (Context blockedState).
Proof.
  refine (work_conserving wcfg blockedState wcfg_valid blockedState_reachable _ _ (mkItem (mkReqCtx "r2" 0 "b" false) 0) _);
    [done|done|by left].
Defined.

(** Nothing blocks.  In a reachable state every ready case of the
    dispatcher's select runs to completion (its blocking sends find room), and a
    worker that finishes its request can report it at once. *)
Theorem dispatcher_never_blocks cfg s :
  ValidConfig cfg → reachable cfg s →
  (∀ rng now case, LoraRangeOk rng → ready case s → is_Some (processing rng now case s)) ∧
  (∀ now w c r, workers s !! w = Some (mkWorker c (Some r)) → is_Some (workerDone now w s)).
Proof.
  intros Hv Hs. pose proof (sched_reachable_inv _ _ Hv Hs) as HI. split.
  - intros rng now case Hr Hrd. destruct (processing_ready _ rng now case s Hr HI Hrd) as (s' & -> & _). eauto.
  - intros now w c r Hw. destruct (Inv_workerDone _ now w c r s HI Hw) as (s' & -> & _). eauto.
Qed.

Lemma dispatcher_never_blocks_witness : is_Some (workerDone 0 1 blockedState).
Proof.
  eapply (proj2 (dispatcher_never_blocks wcfg blockedState wcfg_valid blockedState_reachable)). reflexivity.
Defined.

(** C14: draining.  Without new calls every run of internal steps from a reachable
    state is finite, of at most [measure s] steps; and where no internal step is
    possible, every submitted sub-request has signalled completion exactly once
    and the queue, the channels and the workers are empty.  The reachable states are
    those before [Stop], with adapters registered and unregistered at any time, but
    unregistered only while no request runs with them or waits for them
    ([UnloadAllowed]): without that the drain fails ([unload_in_use_starves]). *)
Theorem drains cfg s :
  ValidConfig cfg → reachable cfg s →
  (∀ n s', nsteps internal n s s' → n ≤ measure s) ∧
  (∀ s', rtc internal s s' → (∀ s'', ¬ internal s' s'') →
     submitted s' ≡ₚ (signalled s').*1 ∧ waitingQueue s' = [] ∧ chan_buf (newRequests s') = [] ∧
     chan_buf (workerFinished s') = [] ∧ heldBy (workers s') = [] ∧ OpenRequests s' = 0).
Proof.
  intros Hv Hs. pose proof (sched_reachable_inv _ _ Hv Hs) as HI. split.
  - intros n s' Hn. pose proof (nsteps_measure _ _ _ _ HI Hn). lia.
  - intros s' Hr Hq. eapply quiescent_empty; [|done]. clear Hq. induction Hr as [|a b c Hab _ IH]; [done|].
    apply IH; [by eapply reach_step; [|apply step_internal]|]. by eapply internal_inv.
Qed.

Lemma drains_witness : measure blockedState = 8 ∧ ((∃ s', nsteps internal 9 blockedState s') ↔ False).
Proof.
  split; [done|]. split; [|done]. intros [s' Hn].
  pose proof (proj1 (drains wcfg blockedState wcfg_valid blockedState_reachable) 9 s' Hn) as H.
  vm_compute in H. lia.
Defined.

(** The outcome of [HandleRequest] on every branch before shutdown.  An
    injected failure, an unknown model or a validation error leave the system
    unchanged.  Otherwise the request is split; the sub-requests that find room
    in the new-request channel are queued there in order, and each of the others
    is answered at once with a 429 error. *)
Theorem HandleRequest_outcome failure req s s' h :
  drainDone s = false → chan_wf (newRequests s) → HandleRequest failure req s = Some (s', h) →
  match h with
  | Failed e injected => s' = s ∧
      if injected then failure = Some e
      else failure = None ∧
           ((isValidModel (req_model req) (Context s) = false ∧ Api.Code e = 404%Z) ∨
            (isValidModel (req_model req) (Context s) = true ∧
             ∃ d, getDisplayedModelName (req_model req) (Context s) = Some d ∧ req_validate req d = Some e))
  | Accepted n st => failure = None ∧ n = length (req_split req) ∧ st = req_stream req ∧
      isValidModel (req_model req) (Context s) = true ∧
      ∃ d subs k, getDisplayedModelName (req_model req) (Context s) = Some d ∧
        subs = imap (λ i id, mkReqCtx id i d (req_traceErr req)) (req_split req) ∧
        k = min n (chan_cap (newRequests s) - length (chan_buf (newRequests s))) ∧
        chan_buf (newRequests s') = chan_buf (newRequests s) ++ take k subs ∧
        signalled s' = signalled s ++
          ((λ r, (r, fullError)) <$> drop k subs) ∧
        submitted s' = submitted s ++ subs ∧
        (Context s', waitingQueue s', workers s') = (Context s, waitingQueue s, workers s)
  end.
Proof.
  intros Hd Hwf. unfold HandleRequest. destruct failure as [e|]; [naive_solver|].
  destruct (isValidModel _ _) eqn:Ev; simpl; [|intros [= <- <-]; naive_solver].
  destruct (getDisplayedModelName _ _) as [d|] eqn:Ed; [|done].
  destruct (req_validate req d) as [e|] eqn:Er; [naive_solver|]. intros [= <- <-].
  rewrite length_imap. split_and!; try done.
  eexists d, _, _. split; [done|]. split; [done|]. split; [done|].
  set (subs := imap _ (req_split req)).
  assert (length subs = length (req_split req)) as <- by apply length_imap.
  apply (submitAll_spec subs s Hd Hwf).
Qed.

Lemma HandleRequest_outcome_witness :
  ∃ s', HandleRequest None (wreq ["c"; "d"; "e"] "b") blockedState = Some (s', Accepted 3 false) ∧
        length (chan_buf (newRequests s')) = 3.
Proof.
  eexists. split; [reflexivity|].
  refine (match HandleRequest_outcome None (wreq ["c"; "d"; "e"] "b") blockedState _ (Accepted 3 false) _ _ eq_refl with
          | conj _ _ => _ end); [reflexivity|vm_compute; lia|reflexivity].
Defined.

(** The order of service.  [dequeue] hands out the first queued request whose
    model is loaded (base models always are); only when there is none, the first
    one whose adapter can be loaded; and nothing exactly when every queued
    request is blocked.  The other requests keep their order. *)
Theorem dequeue_policy cfg rng now s :
  ValidConfig cfg → reachable cfg s → LoraRangeOk rng →
  let loaded i := loraIsLoaded (displayedModel (item_reqCtx i)) (Context s) in
  match dequeue rng now s with
  | (s', Some r) => ∃ pre item post,
      waitingQueue s = pre ++ item :: post ∧ waitingQueue s' = pre ++ post ∧ r = item_reqCtx item ∧
      Forall (λ i, loaded i = false) pre ∧
      (loaded item = true ∨
       Forall (λ i, loaded i = false) (waitingQueue s) ∧
       Forall (λ i, blocked (displayedModel (item_reqCtx i)) (Context s)) pre ∧
       ¬ blocked (displayedModel r) (Context s))
  | (s', None) => s' = s ∧ ∀ i, i ∈ waitingQueue s → blocked (displayedModel (item_reqCtx i)) (Context s)
  end.
Proof.
  intros Hv Hs Hr loaded. destruct (sched_reachable_inv _ _ Hv Hs) as [HC _]. pose proof (c_lora _ _ _ _ _ HC) as HL.
  unfold dequeue. pose proof (findLoaded_spec (Context s) (waitingQueue s)) as Hf.
  destruct (findLoaded _ _) as [[item rest]|].
  { destruct Hf as (Hl & pre & post & Hq & -> & Hp). exists pre, item, post. naive_solver. }
  pose proof (findLoadable_spec rng _ _ (waitingQueue s) Hr HL) as Hg.
  destruct (findLoadable _ _ _) as [c [[item rest]|]].
  - destruct Hg as (Hl & pre & post & Hq & -> & Hp). exists pre, item, post.
    pose proof (loadLora_spec _ rng (displayedModel (item_reqCtx item)) _ Hr HL) as Hsp. rewrite Hl in Hsp.
    split_and!; try done; [|right; naive_solver]. rewrite Hq in Hf. by apply Forall_app in Hf as [? _].
  - destruct Hg as [-> Hq]. split; [by destruct s|]. intros i Hi. by rewrite Forall_forall in Hq; apply Hq.
Qed.

Lemma dequeue_policy_witness : snd (dequeue anyRange 0 blockedState) = None ∧ blocked "b" (Context blockedState).
Proof.
  pose proof (dequeue_policy wcfg anyRange 0 blockedState wcfg_valid blockedState_reachable anyRange_ok) as H.
  vm_compute dequeue in H. split; [by vm_compute|].
  apply (proj2 H (mkItem (mkReqCtx "r2" 0 "b" false) 0)). by left.
Defined.

(** What the shutdown drain may conclude.  When [OpenRequests] is zero, no
    request waits, runs, or has an unreported completion: everything submitted
    has been answered, except what is still in the new-request channel. *)
Theorem OpenRequests_zero cfg s :
  ValidConfig cfg → reachable cfg s → OpenRequests s = 0 →
  waitingQueue s = [] ∧ heldBy (workers s) = [] ∧ chan_buf (workerFinished s) = [] ∧
  submitted s ≡ₚ chan_buf (newRequests s) ++ (signalled s).*1.
Proof.
  intros Hv Hs Ho. destruct (sched_reachable_inv _ _ Hv Hs) as [HC _].
  unfold OpenRequests in Ho. rewrite (c_free_cap _ _ _ _ _ HC) in Ho.
  destruct (all_free _ _ HC ltac:(lia)) as [Hh Hf]. destruct HC.
  assert (Hq : waitingQueue s = []) by (apply nil_length_inv; lia).
  split_and!; try done. rewrite c_conserve0, Hq, Hh. done.
Qed.

Definition idleState : Simulator := Eval vm_compute in
  match script [aHandle (wreq ["r1"] "base"); aCase caseNewRequest; aTake 1; aDone 1; aCase caseWorkerFinished] with
  | Some s => s | None => blockedState end.

Lemma idleState_reachable : reachable wcfg idleState.
Proof.
  apply (script_reachable [aHandle (wreq ["r1"] "base"); aCase caseNewRequest; aTake 1; aDone 1; aCase caseWorkerFinished]).
  by vm_compute.
Qed.

Lemma OpenRequests_zero_witness : length (submitted idleState) = 1 ∧ heldBy (workers idleState) = [].
Proof.
  split; [done|]. apply (OpenRequests_zero wcfg idleState wcfg_valid idleState_reachable). reflexivity.
Defined.

(** [OpenRequests] does not see accepted requests the dispatcher has not
    received yet: a reachable state with no open request in which a submitted
    sub-request is unanswered.  The shutdown loop calls [Stop] in this state. *)
Theorem OpenRequests_misses_new :
  ∃ s r, reachable wcfg s ∧ OpenRequests s = 0 ∧ chan_buf (newRequests s) = [r] ∧
         submitted s = [r] ∧ signalled s = [].
Proof.
  destruct (script [aHandle (wreq ["r1"] "base")]) as [s|] eqn:E; [|by vm_compute in E].
  exists s, (mkReqCtx "r1" 0 "base" false). split; [by eapply script_reachable|].
  vm_compute in E. injection E as <-. by vm_compute.
Qed.

Definition unloadedState : Simulator := Eval vm_compute in
  set_Context (fst (UnloadLoraAdaptor (Ok "a"%string) (Context blockedState))) blockedState.
Definition leakedState : Simulator := Eval vm_compute in
  match workerDone 0 1 unloadedState with
  | Some s => match processing anyRange 0 caseWorkerFinished s with Some s => s | None => s end
  | None => unloadedState
  end.

(** Unloading an adapter that a request is using leaks its slot.  From
    [blockedState] the client unloads [a] and its request then completes:
    [decrementLora] does nothing for an unregistered name, the slot stays taken
    for ever, and the request for [b] is left in the queue with both workers free
    and no step possible. *)
Theorem unload_in_use_starves :
  unloadedState = set_Context (fst (UnloadLoraAdaptor (Ok "a"%string) (Context blockedState))) blockedState ∧
  (workerDone 0 1 unloadedState ≫= processing anyRange 0 caseWorkerFinished) = Some leakedState ∧
  chan_buf (freeWorkers leakedState) = [2; 1] ∧
  item_reqCtx <$> waitingQueue leakedState = [mkReqCtx "r2" 0 "b" false] ∧
  loadedLoras (Context leakedState) !! "a"%string = Some 1%Z ∧
  ∀ s', ¬ internal leakedState s'.
Proof.
  split; [by vm_compute|]. split; [by vm_compute|]. split; [done|]. split; [done|]. split; [by vm_compute|].
  assert (Hm : map_Forall (λ _ wk, load wk = []) (workers leakedState)) by (apply (bool_decide_unpack _); by vm_compute).
  intros s' Hi. remember leakedState as s eqn:Es.
  destruct Hi as [rng now case s s' _ E|w s s' E|now w s s' E].
  - apply processing_Some_ready in E. subst s. destruct case; by apply E.
  - eapply (no_worker_step 0); [exact Hm|]. left. eauto.
  - eapply no_worker_step; [exact Hm|]. right. eauto.
Qed.

End SchedulerProps.
