(* ===== verification/TraceFormat.v ===== *)
(** The binary MoE trace format of [pkg/moetrace/format.go]: little-endian
    encoding, the file header, index entries, and the overflow-checked block
    length.  A file or buffer is a list of bytes, each a [Z] in [0, 256). *)

From S2P Require Import Prelude.
Open Scope Z_scope.

Module TraceFormat.

(** * Little-endian encoding ([encoding/binary]) *)

Definition bytes : Type := list Z.
Definition byte_ok (b : Z) : Prop := 0 ≤ b < 256.
#[export] Instance byte_ok_dec b : Decision (byte_ok b).
Proof. unfold byte_ok. apply _. Defined.

(** [PutUint16], [PutUint32], [PutUint64] for [n] = 2, 4, 8. *)
Fixpoint putUint (n : nat) (v : Z) : bytes :=
  match n with
  | O => []
  | S n => v mod 256 :: putUint n (v / 256)
  end.

Fixpoint getUint (b : bytes) : Z :=
  match b with
  | [] => 0
  | x :: r => x + 256 * getUint r
  end.

(** [buf[lo:hi]]. *)
Definition sub (lo hi : nat) (b : bytes) : bytes := take (hi - lo) (drop lo b).

(** [r.ReadAt(buf, off)] with [len(buf) = n]: an error unless all bytes are there. *)
Definition readAt (off n : nat) (file : bytes) : option bytes :=
  if (off + n <=? length file)%nat then Some (take n (drop off file)) else None.

(** * Constants and data *)

Definition FormatVersion : Z := 1.
Definition maxSupportedFormatVersion : Z := 2.
Definition sourceGPUBytes : Z := 1.
Definition unknownSourceGPU : Z := 255.
Definition maxSourceGPU : Z := 127.
Definition headerSize : nat := 112.
Definition indexEntrySize : nat := 32.
Definition promptBlockHeaderSize : nat := 32.
(** ['M','O','E','T','R','C','0','1'] *)
Definition fileMagic : bytes := [77; 79; 69; 84; 82; 67; 48; 49].

Record PromptMetadata := mkPromptMetadata {
  Index : Z; Prompt : string; InputTokens : Z; DecodeTokens : Z; GeneratedText : string }.

Record Metadata := mkMetadata {
  m_FormatVersion : Z; m_Model : string; m_NumExperts : Z; m_TopK : Z; m_SparseLayers : list Z;
  m_NumPrompts : Z; m_ExpertIDBytes : Z; m_SourceGPUBytes : Z; m_Prompts : list PromptMetadata }.

Record fileHeader := mkFileHeader {
  h_Version : Z; h_MetadataOffset : Z; h_MetadataLength : Z; h_DataOffset : Z; h_IndexOffset : Z;
  h_IndexLength : Z; h_SourceSize : Z; h_NumPrompts : Z; h_ExpertIDBytes : Z; h_SourceSHA256 : bytes }.

Record indexEntry := mkIndexEntry {
  e_PromptID : Z; e_Offset : Z; e_Length : Z; e_InputTokens : Z; e_DecodeTokens : Z }.

(** One constructor per error message of the package, with the values it reports. *)
Inductive traceError :=
| ErrNumExpertsPositive | ErrNumExpertsLimit (n : Z) | ErrOverflow
| ErrReadHeader | ErrMagic (m : bytes) | ErrHeaderSize (n : Z) | ErrIndexEntrySize (n : Z)
| ErrVersion (v : Z) | ErrExpertWidth (n : Z) | ErrReadIndex (i : nat)
(** an index or slice expression out of range *)
| ErrPanic
(** accumulator *)
| ErrNegativeTokens (p : Z) | ErrNonSparseLayer (p layer : Z) | ErrTokenID (p id : Z)
| ErrExpertCount (p layer pos n : Z) | ErrGateCount (p layer pos n : Z) | ErrExpertRange (p e : Z)
| ErrExpertRepeat (p layer pos e : Z) | ErrPrefillPosition (p pos : Z) | ErrPrefillDuplicate (p layer pos : Z)
| ErrPrefillToken (p pos a b : Z) | ErrCountOverflow (p e : Z) | ErrDecodePosition (p pos : Z)
| ErrDecodeDuplicate (p layer pos : Z) | ErrDecodeToken (p pos a b : Z) | ErrPhase (p : Z) (phase : string)
| ErrMissingPrefillToken (p : Z) (i : nat) | ErrMissingDecodeToken (p : Z) (i : nat)
| ErrMissingPrefillRoute (p : Z) (i : nat) | ErrMissingDecodeRoute (p : Z) (i : nat)
(** writer *)
| ErrExpectedPrompt (expected got : Z) | ErrBlockMismatch (wrote expected : Z) | ErrExpertByte (v : Z)
| ErrPromptTotal (wrote expected : Z)
(** reader *)
| ErrShortFile | ErrRegion (name : string) | ErrMetadataOffset (o : Z) | ErrDataOffset | ErrIndexLength (l n : Z)
| ErrReadMetadata | ErrDecodeMetadata | ErrMetadataHeader | ErrSourceWidth (n : Z) | ErrMetadataInvalid
| ErrExpertWidthCount | ErrIndexPromptID (i : nat) (id : Z) | ErrDataAfterIndex | ErrPromptStart (i : nat)
| ErrPromptOverlap (i : nat) | ErrReadPromptHeader (i : nat) | ErrPromptHeader (i : nat) | ErrPromptDims (i : nat)
| ErrPromptLength (i : nat) | ErrPromptMetadata (i : nat) | ErrDataEnd | ErrTrailing | ErrPromptID (p : Z)
| ErrReadPrompt (p : Z) | ErrSourceGPU (v : Z) | ErrUnread (p : Z) | ErrAccess
(** source *)
| ErrModelEmpty | ErrNumExperts (n : Z) | ErrTopK (k n : Z) | ErrNumSparse | ErrSparseLayer (l : Z)
| ErrSparseDuplicate (l : Z) | ErrNumPrompts | ErrPromptIndex (i : nat) (idx : Z) | ErrTokenLimit (p : Z)
| ErrDecodeRecord (i : Z) | ErrRecordPrompt (i p : Z) | ErrNotGrouped (p q : Z) | ErrMissingRecords (p : Z)
| ErrTraceArray | ErrRecordTotal (n expected : Z) | ErrMetadataAfterTrace | ErrMultipleTraces | ErrField
| ErrNoTrace.

Abbreviation res := (result traceError).

Definition expertIDBytes (numExperts : Z) : res Z :=
  if numExperts <? 1 then Err ErrNumExpertsPositive
  else if numExperts <=? 256 then Ok 1
  else if numExperts <=? 65536 then Ok 2
  else Err (ErrNumExpertsLimit numExperts).

(** * The header *)

Definition writeHeader (h : fileHeader) : bytes :=
  fileMagic ++ putUint 4 (h_Version h) ++ putUint 4 (Z.of_nat headerSize)
  ++ putUint 8 (h_MetadataOffset h) ++ putUint 8 (h_MetadataLength h) ++ putUint 8 (h_DataOffset h)
  ++ putUint 8 (h_IndexOffset h) ++ putUint 8 (h_IndexLength h) ++ putUint 8 (h_SourceSize h)
  ++ putUint 4 (h_NumPrompts h) ++ putUint 4 (h_ExpertIDBytes h) ++ putUint 4 (Z.of_nat indexEntrySize)
  ++ [0; 0; 0; 0] ++ h_SourceSHA256 h.

Definition readHeader (file : bytes) : res fileHeader :=
  match readAt 0 headerSize file with
  | None => Err ErrReadHeader
  | Some buf =>
      if negb (bool_decide (sub 0 8 buf = fileMagic)) then Err (ErrMagic (sub 0 8 buf))
      else if negb (getUint (sub 12 16 buf) =? Z.of_nat headerSize) then Err (ErrHeaderSize (getUint (sub 12 16 buf)))
      else if negb (getUint (sub 72 76 buf) =? Z.of_nat indexEntrySize) then Err (ErrIndexEntrySize (getUint (sub 72 76 buf)))
      else
        let h := mkFileHeader (getUint (sub 8 12 buf)) (getUint (sub 16 24 buf)) (getUint (sub 24 32 buf))
          (getUint (sub 32 40 buf)) (getUint (sub 40 48 buf)) (getUint (sub 48 56 buf)) (getUint (sub 56 64 buf))
          (getUint (sub 64 68 buf)) (getUint (sub 68 72 buf)) (sub 80 112 buf) in
        if (h_Version h <? FormatVersion) || (maxSupportedFormatVersion <? h_Version h) then Err (ErrVersion (h_Version h))
        else if negb (h_ExpertIDBytes h =? 1) && negb (h_ExpertIDBytes h =? 2) then Err (ErrExpertWidth (h_ExpertIDBytes h))
        else Ok h
  end.

(** * Index entries *)

Definition writeIndexEntry (e : indexEntry) : bytes :=
  putUint 4 (e_PromptID e) ++ [0; 0; 0; 0] ++ putUint 8 (e_Offset e) ++ putUint 8 (e_Length e)
  ++ putUint 4 (e_InputTokens e) ++ putUint 4 (e_DecodeTokens e).

Definition readIndexEntry (file : bytes) (offset : nat) : option indexEntry :=
  match readAt offset indexEntrySize file with
  | None => None
  | Some buf => Some (mkIndexEntry (getUint (sub 0 4 buf)) (getUint (sub 8 16 buf)) (getUint (sub 16 24 buf))
                        (getUint (sub 24 28 buf)) (getUint (sub 28 32 buf)))
  end.

(** * Checked sizes *)

Definition checkedMul (a b : Z) : res Z :=
  if negb (a =? 0) && (max_u64 / a <? b) then Err ErrOverflow else Ok (u64 (a * b)).

Definition checkedAdd (a b : Z) : res Z :=
  if u64 (max_u64 - a) <? b then Err ErrOverflow else Ok (u64 (a + b)).

Fixpoint checkedSum (total : Z) (ns : list Z) : res Z :=
  match ns with
  | [] => Ok total
  | n :: r => let! t := checkedAdd total n in checkedSum t r
  end.

Definition promptBlockLengthForVersion (inputTokens decodeTokens numLayers numExperts topK expertBytes version sourceBytes : Z)
  : res Z :=
  let! inputBytes := checkedMul inputTokens 4 in
  let! decodeBytes := checkedMul decodeTokens 4 in
  let! countEntries := checkedMul numLayers numExperts in
  let! countBytes := checkedMul countEntries 4 in
  let! allTokens := checkedAdd inputTokens decodeTokens in
  let! routeEntries := checkedMul allTokens numLayers in
  let! routeEntries := checkedMul routeEntries topK in
  let! routeBytes := checkedMul routeEntries expertBytes in
  let! total := checkedSum (Z.of_nat promptBlockHeaderSize) [inputBytes; decodeBytes; countBytes; routeBytes] in
  if 2 <=? version then
    let! sourceEntries := checkedMul allTokens numLayers in
    let! sourceDataBytes := checkedMul sourceEntries sourceBytes in
    checkedAdd total sourceDataBytes
  else Ok total.

Definition promptBlockLength (inputTokens decodeTokens numLayers numExperts topK expertBytes : Z) : res Z :=
  promptBlockLengthForVersion inputTokens decodeTokens numLayers numExperts topK expertBytes FormatVersion 0.

(** * Lemmas *)

Lemma putUint_length n v : length (putUint n v) = n.
Proof. revert v. induction n; intros; simpl; auto. Qed.

Lemma putUint_bytes n v : Forall byte_ok (putUint n v).
Proof.
  revert v. induction n; intros v; simpl; constructor; auto.
  unfold byte_ok. pose proof (Z.mod_pos_bound v 256). lia.
Qed.

Lemma getUint_putUint n v : 0 ≤ v < 256 ^ Z.of_nat n → getUint (putUint n v) = v.
Proof.
  revert v. induction n as [|n IH]; intros v Hv; simpl in *; [lia|].
  rewrite Nat2Z.inj_succ, Z.pow_succ_r in Hv by lia.
  rewrite IH; [pose proof (Z.div_mod v 256); lia|].
  split; [apply Z.div_pos; lia|apply Z.div_lt_upper_bound; lia].
Qed.

Lemma getUint_bound b : Forall byte_ok b → 0 ≤ getUint b < 256 ^ Z.of_nat (length b).
Proof.
  induction 1 as [|x b Hx _ IH]; simpl; [lia|].
  rewrite Nat2Z.inj_succ, Z.pow_succ_r by lia. unfold byte_ok in Hx. lia.
Qed.

Lemma readAt_app pre mid post n :
  length mid = n → readAt (length pre) n (pre ++ mid ++ post) = Some mid.
Proof.
  intros <-. unfold readAt. rewrite !length_app. destruct (Nat.leb_spec (length pre + length mid) (length pre + (length mid + length post))); [|lia].
  by rewrite drop_app_length, take_app_length.
Qed.

Lemma readAt_some off n file : (off + n ≤ length file)%nat →
  ∃ b, readAt off n file = Some b ∧ length b = n ∧ b = take n (drop off file).
Proof.
  intros H. unfold readAt. destruct (Nat.leb_spec (off + n) (length file)); [|lia].
  eexists. split; [done|]. split; [|done]. rewrite length_take, length_drop. lia.
Qed.

Lemma sub_bytes lo hi b : Forall byte_ok b → Forall byte_ok (sub lo hi b).
Proof. intros. by apply Forall_take, Forall_drop. Qed.

(** Field ranges of a header: [uint32], [uint64] and a 32-byte digest. *)
Record headerOk (h : fileHeader) : Prop := mkHeaderOk {
  ho_version : FormatVersion ≤ h_Version h ≤ maxSupportedFormatVersion;
  ho_width : h_ExpertIDBytes h = 1 ∨ h_ExpertIDBytes h = 2;
  ho_u64 : Forall (λ v, 0 ≤ v ≤ max_u64) [h_MetadataOffset h; h_MetadataLength h; h_DataOffset h;
             h_IndexOffset h; h_IndexLength h; h_SourceSize h];
  ho_prompts : 0 ≤ h_NumPrompts h ≤ max_u32;
  ho_sha : length (h_SourceSHA256 h) = 32%nat }.

Lemma writeHeader_length h : length (h_SourceSHA256 h) = 32%nat → length (writeHeader h) = headerSize.
Proof. intros H. unfold writeHeader. rewrite !length_app, !putUint_length, H. reflexivity. Qed.

Lemma header_roundtrip_gen h rest : headerOk h → readHeader (writeHeader h ++ rest) = Ok h.
Proof.
  intros [Hv Hw Hu Hp Hs]. unfold readHeader.
  pose proof (readAt_app [] (writeHeader h) rest headerSize (writeHeader_length h Hs)) as Hr.
  rewrite app_nil_l in Hr. change (length []) with 0%nat in Hr. rewrite Hr. clear Hr.
  rewrite !Forall_cons in Hu. destruct Hu as (U1 & U2 & U3 & U4 & U5 & U6 & _).
  unfold max_u64, max_u32, FormatVersion, maxSupportedFormatVersion in *.
  change (sub 0 8 (writeHeader h)) with fileMagic. rewrite bool_decide_true by done.
  change (getUint (sub 12 16 (writeHeader h))) with 112. change (getUint (sub 72 76 (writeHeader h))) with 32.
  assert (sub 80 112 (writeHeader h) = h_SourceSHA256 h) as ->.
  { change (sub 80 112 (writeHeader h)) with (take 32 (h_SourceSHA256 h)). apply take_ge. lia. }
  pose proof (getUint_putUint 4 (h_Version h)) as E1. pose proof (getUint_putUint 4 (h_NumPrompts h)) as E2.
  pose proof (getUint_putUint 4 (h_ExpertIDBytes h)) as E3. pose proof (getUint_putUint 8) as E.
  change (sub 8 12 (writeHeader h)) with (putUint 4 (h_Version h)).
  change (sub 16 24 (writeHeader h)) with (putUint 8 (h_MetadataOffset h)).
  change (sub 24 32 (writeHeader h)) with (putUint 8 (h_MetadataLength h)).
  change (sub 32 40 (writeHeader h)) with (putUint 8 (h_DataOffset h)).
  change (sub 40 48 (writeHeader h)) with (putUint 8 (h_IndexOffset h)).
  change (sub 48 56 (writeHeader h)) with (putUint 8 (h_IndexLength h)).
  change (sub 56 64 (writeHeader h)) with (putUint 8 (h_SourceSize h)).
  change (sub 64 68 (writeHeader h)) with (putUint 4 (h_NumPrompts h)).
  change (sub 68 72 (writeHeader h)) with (putUint 4 (h_ExpertIDBytes h)).
  rewrite E1, E2, E3, !E by lia. simpl.
  destruct (Z.ltb_spec (h_Version h) 1); [lia|]. destruct (Z.ltb_spec 2 (h_Version h)); [lia|]. simpl.
  destruct Hw as [Hw|Hw]; rewrite Hw; simpl; rewrite <- Hw; by destruct h.
Qed.

Record entryOk (e : indexEntry) : Prop := mkEntryOk {
  eo_u32 : Forall (λ v, 0 ≤ v ≤ max_u32) [e_PromptID e; e_InputTokens e; e_DecodeTokens e];
  eo_u64 : Forall (λ v, 0 ≤ v ≤ max_u64) [e_Offset e; e_Length e] }.

Lemma entry_length e : length (writeIndexEntry e) = indexEntrySize.
Proof. unfold writeIndexEntry. by rewrite !length_app, !putUint_length. Qed.

Lemma entry_roundtrip e pre post :
  entryOk e → readIndexEntry (pre ++ writeIndexEntry e ++ post) (length pre) = Some e.
Proof.
  intros [H1 H2]. unfold readIndexEntry. rewrite (readAt_app _ _ _ _ (entry_length e)).
  rewrite !Forall_cons in H1. rewrite !Forall_cons in H2. unfold max_u32, max_u64 in *.
  change (sub 0 4 (writeIndexEntry e)) with (putUint 4 (e_PromptID e)).
  change (sub 8 16 (writeIndexEntry e)) with (putUint 8 (e_Offset e)).
  change (sub 16 24 (writeIndexEntry e)) with (putUint 8 (e_Length e)).
  change (sub 24 28 (writeIndexEntry e)) with (putUint 4 (e_InputTokens e)).
  change (sub 28 32 (writeIndexEntry e)) with (putUint 4 (e_DecodeTokens e)).
  rewrite !getUint_putUint by (simpl; lia). by destruct e.
Qed.

(** ** Checked arithmetic *)

Lemma checkedMul_spec a b : 0 ≤ a → 0 ≤ b →
  checkedMul a b = if a * b <=? max_u64 then Ok (a * b) else Err ErrOverflow.
Proof.
  intros Ha Hb. unfold checkedMul. destruct (Z.eqb_spec a 0) as [->|Hne]; simpl.
  - by rewrite Z.mul_0_l.
  - destruct (Z.ltb_spec (max_u64 / a) b) as [Hlt|Hge], (Z.leb_spec (a * b) max_u64) as [Hle|Hgt]; try done.
    + exfalso. assert (b ≤ max_u64 / a) by (apply Z.div_le_lower_bound; lia). lia.
    + f_equal. apply u64_small. lia.
    + exfalso. pose proof (Z.mul_div_le max_u64 a). nia.
Qed.

Lemma checkedAdd_spec a b : 0 ≤ a ≤ max_u64 → 0 ≤ b →
  checkedAdd a b = if a + b <=? max_u64 then Ok (a + b) else Err ErrOverflow.
Proof.
  intros Ha Hb. unfold checkedAdd. rewrite u64_small by lia.
  destruct (Z.ltb_spec (max_u64 - a) b), (Z.leb_spec (a + b) max_u64); try lia; try done.
  f_equal. apply u64_small. lia.
Qed.

(** The length of a block, as a number. *)
Definition blockSize (i d l e k b version s : Z) : Z :=
  32 + 4 * i + 4 * d + 4 * (l * e) + (i + d) * l * k * b + (if 2 <=? version then (i + d) * l * s else 0).

(** One checked operation: it is exact, or the total overflows. *)
Ltac checked_step :=
  let go x :=
    lazymatch x with
    | checkedMul ?a ?b => rewrite (checkedMul_spec a b) by lia
    | checkedAdd ?a ?b => rewrite (checkedAdd_spec a b) by lia
    end in
  lazymatch goal with
  | |- res_bind (res_bind ?x _) _ = _ => go x
  | |- res_bind ?x _ = _ => go x
  | |- ?x = _ => go x
  end;
  match goal with
  | |- context [if ?x <=? max_u64 then Ok ?x else _] =>
      destruct (Z.leb_spec x max_u64); cbn [res_bind];
      [|match goal with |- _ = if ?y <=? max_u64 then _ else _ => destruct (Z.leb_spec y max_u64); [lia|done] end]
  end.

Lemma promptBlockLength_exact i d l e k b version s :
  0 ≤ i → 0 ≤ d → 0 ≤ l → 0 ≤ e → 1 ≤ k → 1 ≤ b → 0 ≤ s →
  promptBlockLengthForVersion i d l e k b version s =
    if blockSize i d l e k b version s <=? max_u64 then Ok (blockSize i d l e k b version s) else Err ErrOverflow.
Proof.
  intros Hi Hd Hl He Hk Hb Hs. unfold promptBlockLengthForVersion, checkedSum, blockSize.
  assert (H1 : 0 ≤ l * e) by nia. assert (H2 : 0 ≤ (i + d) * l) by nia.
  assert (H3 : (i + d) * l ≤ (i + d) * l * k) by nia. assert (H4 : (i + d) * l * k ≤ (i + d) * l * k * b) by nia.
  assert (H5 : 0 ≤ (i + d) * l * s) by nia. assert (Hmax : 32 ≤ max_u64) by done. change (Z.of_nat promptBlockHeaderSize) with 32.
  destruct (2 <=? version); cbn [checkedSum]; repeat checked_step; cbn [res_bind];
    (match goal with |- _ = if ?y <=? max_u64 then _ else _ => destruct (Z.leb_spec y max_u64) end); try lia; f_equal; lia.
Qed.

(** * Theorems *)

(** Header round trip: a header with fields in range is read back from any
    file that starts with it. *)
Theorem header_roundtrip h rest :
  headerOk h → readHeader (writeHeader h ++ rest) = Ok h ∧ length (writeHeader h) = headerSize.
Proof. intros H. split; [by apply header_roundtrip_gen|]. apply writeHeader_length, H. Qed.

Definition exHeader : fileHeader := mkFileHeader 1 112 3 115 115 0 9 0 2 (replicate 32 5%Z).

Lemma header_roundtrip_witness : readHeader (writeHeader exHeader ++ [1; 2]%Z) = Ok exHeader.
Proof.
  apply (header_roundtrip exHeader [1; 2]%Z). constructor; try done; [by right|].
  repeat (apply Forall_cons; split; [vm_compute; split; discriminate|]). apply Forall_nil_2.
Defined.

(** The block length is the exact size or the overflow error, never a wrapped
    number: for every version and all dimensions with at least one expert per
    token of at least one byte. *)
Theorem promptBlockLength_no_wrap i d l e k b version s :
  (0 ≤ i → 0 ≤ d → 0 ≤ l → 0 ≤ e → 1 ≤ k → 1 ≤ b → 0 ≤ s →
  promptBlockLengthForVersion i d l e k b version s =
    let n := 32 + 4 * i + 4 * d + 4 * (l * e) + (i + d) * l * k * b + (if 2 <=? version then (i + d) * l * s else 0) in
    if n <=? max_u64 then Ok n else Err ErrOverflow)%Z.
Proof. apply promptBlockLength_exact. Qed.

Lemma promptBlockLength_no_wrap_witness :
  promptBlockLengthForVersion 10 5 2 128 8 1 2 1 = Ok 1386%Z ∧
  promptBlockLengthForVersion (2 ^ 32) 0 (2 ^ 32) 1 1 1 1 0 = Err ErrOverflow.
Proof. split; rewrite promptBlockLength_no_wrap by lia; reflexivity. Defined.

End TraceFormat.
