(* ===== verification/TraceAccumulator.v ===== *)
(** The per-prompt accumulator of [pkg/moetrace/accumulator.go] and the source
    records and metadata of [source.go]: each routing record of the input is
    stored in dense arrays indexed by layer slot and position. *)

From S2P Require Import Prelude GoFloat TraceFormat.
Import TraceFormat.
Open Scope Z_scope.

Module TraceAccumulator.

(** * Data *)

(** [sourcePromptMetadata] has the fields of [PromptMetadata]. *)
Abbreviation sourcePromptMetadata := PromptMetadata.

Record sourceTraceRecord := mkRecord {
  r_Prompt : Z; r_Phase : string; r_Position : Z; r_TokenID : Z; r_Layer : Z;
  r_Experts : list Z; r_GateWeights : list f64 }.

Record sourceMetadata := mkSource {
  Model : string; NumExperts : Z; TopK : Z; SparseLayers : list Z; NumSparseLayers : Z;
  NumPrompts : Z; Prompts : list sourcePromptMetadata }.

(** Slices are lists; [numLayers], [numExperts] and [topK] are the lengths the
    slices were made with. *)
Record promptAccumulator := mkAcc {
  meta : PromptMetadata;
  numLayers : nat; numExperts : nat; topK : nat;
  layerSlots : gmap Z nat;
  inputTokenIDs : list Z; decodeTokenIDs : list Z;
  inputTokenSeen : list bool; decodeTokenSeen : list bool;
  prefillSeen : list bool; decodeSeen : list bool;
  prefillCounts : list Z; prefillRoutes : list Z; decodeRoutes : list Z }.

(** * Construction *)

Definition newPromptAccumulator (m : sourcePromptMetadata) (source : sourceMetadata) (slots : gmap Z nat)
  : res promptAccumulator :=
  if (InputTokens m <? 0) || (DecodeTokens m <? 0) then Err (ErrNegativeTokens (Index m))
  else
    let p := Z.to_nat (InputTokens m) in let d := Z.to_nat (DecodeTokens m) in
    let l := Z.to_nat (NumSparseLayers source) in let k := Z.to_nat (TopK source) in
    let e := Z.to_nat (NumExperts source) in
    Ok (mkAcc (mkPromptMetadata (Index m) (Prompt m) (InputTokens m) (DecodeTokens m) (GeneratedText m))
          l e k slots (replicate p 0) (replicate d 0) (replicate p false) (replicate d false)
          (replicate (p * l) false) (replicate (d * l) false) (replicate (l * e) 0)
          (replicate (l * p * k) 0) (replicate (d * l * k) 0)).

Definition expectedRecords (p : promptAccumulator) : Z :=
  (InputTokens (meta p) + DecodeTokens (meta p)) * Z.of_nat (numLayers p).

(** * Adding a record *)

(** The loop over [record.Experts]: in range and distinct; narrowed to [uint16]. *)
Fixpoint checkExperts (p : promptAccumulator) (record : sourceTraceRecord) (expertSeen : gset Z) (es : list Z)
  : res (list Z) :=
  match es with
  | [] => Ok []
  | expert :: r =>
      if (expert <? 0) || (Z.of_nat (numExperts p) <=? expert) then Err (ErrExpertRange (Index (meta p)) expert)
      else if bool_decide (expert ∈ expertSeen)
      then Err (ErrExpertRepeat (Index (meta p)) (r_Layer record) (r_Position record) expert)
      else let! rest := checkExperts p record ({[expert]} ∪ expertSeen) r in Ok (u16 expert :: rest)
  end.

(** The loop that counts the experts of a prefill record. *)
Fixpoint countExperts (p : promptAccumulator) (countBase : nat) (es : list Z) (counts : list Z) : res (list Z) :=
  match es with
  | [] => Ok counts
  | expert :: r =>
      let i := (countBase + Z.to_nat expert)%nat in
      match counts !! i with
      | None => Err ErrPanic
      | Some c => if c =? max_u32 then Err (ErrCountOverflow (Index (meta p)) expert)
                  else countExperts p countBase r (<[i := u32 (c + 1)]> counts)
      end
  end.

(** [copy(routes[base:base+topK], experts)]. *)
Definition copyRoutes (p : promptAccumulator) (base : nat) (experts routes : list Z) : res (list Z) :=
  if (base + topK p <=? length routes)%nat then Ok (list_inserts base (take (topK p) experts) routes) else Err ErrPanic.

Definition addPrefill (layerSlot : nat) (record : sourceTraceRecord) (experts : list Z) (tokenID : Z)
    (p : promptAccumulator) : res promptAccumulator :=
  if (r_Position record <? 0) || (InputTokens (meta p) <=? r_Position record)
  then Err (ErrPrefillPosition (Index (meta p)) (r_Position record))
  else
    let pos := Z.to_nat (r_Position record) in
    let seenIndex := (layerSlot * Z.to_nat (InputTokens (meta p)) + pos)%nat in
    match prefillSeen p !! seenIndex, inputTokenSeen p !! pos, inputTokenIDs p !! pos with
    | Some seen, Some tokenSeen, Some id =>
        if seen : bool then Err (ErrPrefillDuplicate (Index (meta p)) (r_Layer record) (r_Position record))
        else if tokenSeen && negb (id =? tokenID)
        then Err (ErrPrefillToken (Index (meta p)) (r_Position record) id tokenID)
        else
          let! routes := copyRoutes p (seenIndex * topK p) experts (prefillRoutes p) in
          let! counts := countExperts p (layerSlot * numExperts p) (r_Experts record) (prefillCounts p) in
          Ok (mkAcc (meta p) (numLayers p) (numExperts p) (topK p) (layerSlots p)
                (<[pos := tokenID]> (inputTokenIDs p)) (decodeTokenIDs p)
                (<[pos := true]> (inputTokenSeen p)) (decodeTokenSeen p)
                (<[seenIndex := true]> (prefillSeen p)) (decodeSeen p) counts routes (decodeRoutes p))
    | _, _, _ => Err ErrPanic
    end.

Definition addDecode (layerSlot : nat) (record : sourceTraceRecord) (experts : list Z) (tokenID : Z)
    (p : promptAccumulator) : res promptAccumulator :=
  let decodePosition := r_Position record - InputTokens (meta p) in
  if (decodePosition <? 0) || (DecodeTokens (meta p) <=? decodePosition)
  then Err (ErrDecodePosition (Index (meta p)) (r_Position record))
  else
    let pos := Z.to_nat decodePosition in
    let seenIndex := (pos * numLayers p + layerSlot)%nat in
    match decodeSeen p !! seenIndex, decodeTokenSeen p !! pos, decodeTokenIDs p !! pos with
    | Some seen, Some tokenSeen, Some id =>
        if seen : bool then Err (ErrDecodeDuplicate (Index (meta p)) (r_Layer record) (r_Position record))
        else if tokenSeen && negb (id =? tokenID)
        then Err (ErrDecodeToken (Index (meta p)) (r_Position record) id tokenID)
        else
          let! routes := copyRoutes p (seenIndex * topK p) experts (decodeRoutes p) in
          Ok (mkAcc (meta p) (numLayers p) (numExperts p) (topK p) (layerSlots p)
                (inputTokenIDs p) (<[pos := tokenID]> (decodeTokenIDs p))
                (inputTokenSeen p) (<[pos := true]> (decodeTokenSeen p))
                (prefillSeen p) (<[seenIndex := true]> (decodeSeen p)) (prefillCounts p) (prefillRoutes p) routes)
    | _, _, _ => Err ErrPanic
    end.

Definition add (record : sourceTraceRecord) (p : promptAccumulator) : res promptAccumulator :=
  match layerSlots p !! r_Layer record with
  | None => Err (ErrNonSparseLayer (Index (meta p)) (r_Layer record))
  | Some layerSlot =>
      if (r_TokenID record <? 0) || (max_u32 <? r_TokenID record) then Err (ErrTokenID (Index (meta p)) (r_TokenID record))
      else if negb (length (r_Experts record) =? topK p)%nat
      then Err (ErrExpertCount (Index (meta p)) (r_Layer record) (r_Position record) (Z.of_nat (length (r_Experts record))))
      else if negb (length (r_GateWeights record) =? 0)%nat && negb (length (r_GateWeights record) =? topK p)%nat
      then Err (ErrGateCount (Index (meta p)) (r_Layer record) (r_Position record) (Z.of_nat (length (r_GateWeights record))))
      else
        let! experts := checkExperts p record ∅ (r_Experts record) in
        let tokenID := u32 (r_TokenID record) in
        if bool_decide (r_Phase record = "prefill"%string) then addPrefill layerSlot record experts tokenID p
        else if bool_decide (r_Phase record = "decode"%string) then addDecode layerSlot record experts tokenID p
        else Err (ErrPhase (Index (meta p)) (r_Phase record))
  end.

(** * Completeness *)

(** The first [false] of a slice. *)
Fixpoint firstUnseen (i : nat) (seen : list bool) : option nat :=
  match seen with
  | [] => None
  | true :: r => firstUnseen (S i) r
  | false :: _ => Some i
  end.

Definition validateComplete (p : promptAccumulator) : res unit :=
  match firstUnseen 0 (inputTokenSeen p) with
  | Some i => Err (ErrMissingPrefillToken (Index (meta p)) i)
  | None =>
  match firstUnseen 0 (decodeTokenSeen p) with
  | Some i => Err (ErrMissingDecodeToken (Index (meta p)) i)
  | None =>
  match firstUnseen 0 (prefillSeen p) with
  | Some i => Err (ErrMissingPrefillRoute (Index (meta p)) i)
  | None =>
  match firstUnseen 0 (decodeSeen p) with
  | Some i => Err (ErrMissingDecodeRoute (Index (meta p)) i)
  | None => Ok tt
  end end end end.

(** * Validation of the source metadata *)

Fixpoint checkLayers (layerSeen : gset Z) (ls : list Z) : res unit :=
  match ls with
  | [] => Ok tt
  | layer :: r => if layer <? 0 then Err (ErrSparseLayer layer)
                  else if bool_decide (layer ∈ layerSeen) then Err (ErrSparseDuplicate layer)
                  else checkLayers ({[layer]} ∪ layerSeen) r
  end.

Fixpoint checkPrompts (i : nat) (ps : list sourcePromptMetadata) : res unit :=
  match ps with
  | [] => Ok tt
  | p :: r =>
      if negb (Index p =? Z.of_nat i) then Err (ErrPromptIndex i (Index p))
      else if (InputTokens p <? 0) || (DecodeTokens p <? 0) then Err (ErrNegativeTokens (Index p))
      else if (max_u32 <? InputTokens p) || (max_u32 <? DecodeTokens p) then Err (ErrTokenLimit (Index p))
      else checkPrompts (S i) r
  end.

Definition validateSourceMetadata (m : sourceMetadata) : res unit :=
  if bool_decide (Model m = ""%string) then Err ErrModelEmpty
  else if (NumExperts m <? 1) || (65536 <? NumExperts m) then Err (ErrNumExperts (NumExperts m))
  else if (TopK m <? 1) || (NumExperts m <? TopK m) then Err (ErrTopK (TopK m) (NumExperts m))
  else if negb (NumSparseLayers m =? Z.of_nat (length (SparseLayers m))) || (NumSparseLayers m <? 1) then Err ErrNumSparse
  else
    let! _ := checkLayers ∅ (SparseLayers m) in
    if negb (NumPrompts m =? Z.of_nat (length (Prompts m))) || (NumPrompts m <? 1) then Err ErrNumPrompts
    else checkPrompts 0 (Prompts m).

(** [layerSlots]: the slot of each sparse layer. *)
Definition mkLayerSlots (layers : list Z) : gmap Z nat :=
  foldl (λ m p, <[p.2 := p.1]> m) ∅ (imap pair layers).

(** * Specification *)

Open Scope nat_scope.

(** The [i]-th group of [k] entries. *)
Definition seg (k i : nat) (l : list Z) : list Z := take k (drop (i * k) l).

Definition P_of (p : promptAccumulator) : nat := Z.to_nat (InputTokens (meta p)).
Definition D_of (p : promptAccumulator) : nat := Z.to_nat (DecodeTokens (meta p)).

Definition isPrefill (r : sourceTraceRecord) : Prop := r_Phase r = "prefill"%string.
Definition isDecode (r : sourceTraceRecord) : Prop := r_Phase r = "decode"%string.

(** The record [r] is stored at its slot and position. *)
Definition storedPrefill (p : promptAccumulator) (r : sourceTraceRecord) : Prop :=
  ∃ slot pos, layerSlots p !! r_Layer r = Some slot ∧ r_Position r = Z.of_nat pos ∧ pos < P_of p ∧
    prefillSeen p !! (slot * P_of p + pos) = Some true ∧
    seg (topK p) (slot * P_of p + pos) (prefillRoutes p) = r_Experts r ∧
    inputTokenIDs p !! pos = Some (r_TokenID r) ∧ inputTokenSeen p !! pos = Some true.

Definition storedDecode (p : promptAccumulator) (r : sourceTraceRecord) : Prop :=
  ∃ slot pos, layerSlots p !! r_Layer r = Some slot ∧
    r_Position r = (InputTokens (meta p) + Z.of_nat pos)%Z ∧ pos < D_of p ∧
    decodeSeen p !! (pos * numLayers p + slot) = Some true ∧
    seg (topK p) (pos * numLayers p + slot) (decodeRoutes p) = r_Experts r ∧
    decodeTokenIDs p !! pos = Some (r_TokenID r) ∧ decodeTokenSeen p !! pos = Some true.

(** The prefill records of a slot that use an expert. *)
Definition prefillUses (p : promptAccumulator) (rs : list sourceTraceRecord) (slot e : nat) : nat :=
  length (filter (λ r, isPrefill r ∧ layerSlots p !! r_Layer r = Some slot ∧ Z.of_nat e ∈ r_Experts r) rs).

Record dimsOk (p : promptAccumulator) : Prop := mkDimsOk {
  do_meta : (0 ≤ InputTokens (meta p) ∧ 0 ≤ DecodeTokens (meta p))%Z;
  do_experts : 1 ≤ numExperts p ≤ Pos.to_nat 65536;
  do_slots : ∀ layer slot, layerSlots p !! layer = Some slot → slot < numLayers p;
  do_in : length (inputTokenIDs p) = P_of p ∧ length (inputTokenSeen p) = P_of p;
  do_dec : length (decodeTokenIDs p) = D_of p ∧ length (decodeTokenSeen p) = D_of p;
  do_pseen : length (prefillSeen p) = numLayers p * P_of p;
  do_dseen : length (decodeSeen p) = D_of p * numLayers p;
  do_counts : length (prefillCounts p) = numLayers p * numExperts p;
  do_proutes : length (prefillRoutes p) = numLayers p * P_of p * topK p;
  do_droutes : length (decodeRoutes p) = D_of p * numLayers p * topK p;
  do_range_p : Forall (λ x, 0 ≤ x < Z.of_nat (numExperts p))%Z (prefillRoutes p);
  do_range_d : Forall (λ x, 0 ≤ x < Z.of_nat (numExperts p))%Z (decodeRoutes p);
  do_range_c : Forall (λ x, 0 ≤ x ≤ max_u32)%Z (prefillCounts p);
  do_range_i : Forall (λ x, 0 ≤ x ≤ max_u32)%Z (inputTokenIDs p);
  do_range_t : Forall (λ x, 0 ≤ x ≤ max_u32)%Z (decodeTokenIDs p) }.

(** The accumulator holds exactly the records [rs]. *)
Record AccOk (p : promptAccumulator) (rs : list sourceTraceRecord) : Prop := mkAccOk {
  ao_dims : dimsOk p;
  ao_prefill : ∀ r, r ∈ rs → isPrefill r → storedPrefill p r;
  ao_decode : ∀ r, r ∈ rs → isDecode r → storedDecode p r;
  ao_phase : ∀ r, r ∈ rs → isPrefill r ∨ isDecode r;
  ao_count : ∀ slot e, slot < numLayers p → e < numExperts p →
    prefillCounts p !! (slot * numExperts p + e) = Some (Z.of_nat (prefillUses p rs slot e)) }.

(** * Lemmas *)

Lemma seg_inserts_eq k j xs l :
  length xs = k → j * k + k ≤ length l → seg k j (list_inserts (j * k) xs l) = xs.
Proof.
  intros Hx Hl. unfold seg. apply list_eq. intros i. rewrite lookup_take, lookup_drop. case_decide as Hi.
  - rewrite list_lookup_inserts by lia. f_equal. lia.
  - symmetry. apply lookup_ge_None. lia.
Qed.

Lemma seg_inserts_ne k i j xs l :
  length xs = k → i ≠ j → seg k i (list_inserts (j * k) xs l) = seg k i l.
Proof.
  intros Hx Hij. unfold seg. apply list_eq. intros n. rewrite !lookup_take, !lookup_drop.
  case_decide as Hn; [|done]. destruct (decide (i < j)).
  - apply list_lookup_inserts_lt. nia.
  - apply list_lookup_inserts_ge. nia.
Qed.

Lemma Forall_inserts (Q : Z → Prop) i xs l : Forall Q xs → Forall Q l → Forall Q (list_inserts i xs l).
Proof.
  intros Hx Hl. rewrite Forall_lookup in *. intros j y Hj.
  apply list_lookup_inserts_Some in Hj. naive_solver.
Qed.

Lemma checkExperts_spec p record seen es experts :
  numExperts p ≤ Pos.to_nat 65536 → checkExperts p record seen es = Ok experts →
  experts = es ∧ Forall (λ x, 0 ≤ x < Z.of_nat (numExperts p))%Z es ∧ NoDup es ∧ (∀ x, x ∈ es → x ∉ seen).
Proof.
  intros HE. revert seen experts. induction es as [|e es IH]; intros seen experts; simpl.
  - intros [= <-]. split_and!; [done|constructor|constructor|set_solver].
  - destruct (Z.ltb_spec e 0); [done|]. destruct (Z.leb_spec (Z.of_nat (numExperts p)) e); [done|]. simpl.
    case_bool_decide as Hs; [done|]. destruct (checkExperts _ _ _ es) as [rest|] eqn:Er; [|done]. simpl.
    intros [= <-]. destruct (IH _ _ Er) as (-> & H1 & H2 & H3). split_and!.
    + f_equal. apply u16_small. lia.
    + constructor; [lia|done].
    + constructor; [|done]. intros Hin. by apply (H3 e Hin); set_solver.
    + intros x [->|Hx]%elem_of_cons; [done|]. specialize (H3 x Hx). set_solver.
Qed.

Lemma countExperts_spec p base es counts counts' :
  Forall (λ x, 0 ≤ x ≤ max_u32)%Z counts → Forall (λ x, 0 ≤ x)%Z es → NoDup es →
  countExperts p base es counts = Ok counts' →
  length counts' = length counts ∧ Forall (λ x, 0 ≤ x ≤ max_u32)%Z counts' ∧
  ∀ j, counts' !! j = if decide ((Z.of_nat j - Z.of_nat base)%Z ∈ es) then (λ c, c + 1)%Z <$> counts !! j else counts !! j.
Proof.
  intros Hc He Hnd. revert counts counts' Hc. induction es as [|x es IH]; intros counts counts' Hc; cbn [countExperts].
  { intros [= <-]. split_and!; [done|done|]. intros j. rewrite decide_False; [done|apply not_elem_of_nil]. }
  apply NoDup_cons in Hnd as [Hx Hnd]. apply Forall_cons in He as [Hx0 He].
  destruct (counts !! _) as [c|] eqn:Ec; [|done]. destruct (Z.eqb_spec c max_u32) as [|Hm]; [done|]. intros Hr.
  assert (Hcr : (0 ≤ c ≤ max_u32)%Z) by (by eapply (proj1 (Forall_lookup _ _) Hc)).
  rewrite u32_small in Hr by lia.
  destruct (IH He Hnd (<[base + Z.to_nat x := (c + 1)%Z]> counts) counts') as (H1 & H2 & H3);
    [apply Forall_insert; [done|lia]|done|].
  rewrite length_insert in H1. split_and!; [done|done|]. intros j. rewrite H3.
  destruct (decide (j = base + Z.to_nat x)) as [->|Hne].
  - replace (Z.of_nat (base + Z.to_nat x) - Z.of_nat base)%Z with x by lia.
    rewrite decide_False by done. rewrite decide_True by left.
    rewrite Ec, list_lookup_insert_eq; [done|]. by eapply lookup_lt_Some.
  - rewrite list_lookup_insert_ne by lia. rewrite decide_elem_of_cons.
    destruct (decide ((Z.of_nat j - Z.of_nat base)%Z = x)); [lia|]. done.
Qed.

Lemma firstUnseen_None i l : firstUnseen i l = None → ∀ j b, l !! j = Some b → b = true.
Proof.
  revert i. induction l as [|[|] l IH]; intros i H j b Hj; simpl in H; [done| |done].
  destruct j; [by injection Hj|]. by eapply IH.
Qed.

(** The shape that [add] never changes. *)
Definition shape (p : promptAccumulator) : PromptMetadata * (nat * nat * nat) * gmap Z nat :=
  (meta p, (numLayers p, numExperts p, topK p), layerSlots p).

Lemma AccOk_new m source slots p :
  newPromptAccumulator m source slots = Ok p →
  (1 ≤ NumExperts source ≤ 65536)%Z →
  (∀ layer slot, slots !! layer = Some slot → slot < Z.to_nat (NumSparseLayers source)) →
  AccOk p [] ∧ shape p = (m, (Z.to_nat (NumSparseLayers source), Z.to_nat (NumExperts source), Z.to_nat (TopK source)), slots).
Proof.
  unfold newPromptAccumulator. intros Hn HE Hs.
  destruct (Z.ltb_spec (InputTokens m) 0), (Z.ltb_spec (DecodeTokens m) 0); try done. simpl in Hn. injection Hn as <-.
  split; [|by destruct m]. constructor; try (intros r Hr; by apply not_elem_of_nil in Hr).
  - constructor; simpl; rewrite ?length_replicate; try done; unfold P_of, D_of; simpl; try lia;
      apply Forall_replicate; unfold max_u32; lia.
  - intros slot e Hsl He. simpl in *. rewrite lookup_replicate_2; [done|]. nia.
Qed.

Lemma grid_inj w a b c d : b < w → d < w → a * w + b = c * w + d → a = c ∧ b = d.
Proof. intros. assert (a = c) by nia. subst. lia. Qed.

Lemma prefillUses_app p rs r slot e :
  prefillUses p (rs ++ [r]) slot e =
  prefillUses p rs slot e + if decide (isPrefill r ∧ layerSlots p !! r_Layer r = Some slot ∧ Z.of_nat e ∈ r_Experts r) then 1 else 0.
Proof. unfold prefillUses. rewrite filter_app, length_app. f_equal. rewrite filter_cons. by case_decide. Qed.

(** [add] computes [prefillUses] through the layer slots only. *)
Lemma prefillUses_slots p p' rs slot e : layerSlots p' = layerSlots p → prefillUses p' rs slot e = prefillUses p rs slot e.
Proof. unfold prefillUses. by intros ->. Qed.

Lemma addPrefill_ok slot r p p' rs :
  AccOk p rs → layerSlots p !! r_Layer r = Some slot → isPrefill r →
  length (r_Experts r) = topK p → Forall (λ x, 0 ≤ x < Z.of_nat (numExperts p))%Z (r_Experts r) → NoDup (r_Experts r) →
  (0 ≤ r_TokenID r ≤ max_u32)%Z →
  addPrefill slot r (r_Experts r) (r_TokenID r) p = Ok p' → AccOk p' (rs ++ [r]) ∧ shape p' = shape p.
Proof.
  intros [Hd Hp Hdc Hph Hcnt] Hslot Hpre Hlen Hrange Hnd Htok. unfold addPrefill, copyRoutes.
  destruct (Z.ltb_spec (r_Position r) 0) as [|Hpos0]; [done|].
  destruct (Z.leb_spec (InputTokens (meta p)) (r_Position r)) as [|HposP]; [done|]. simpl.
  fold (P_of p). set (pos := Z.to_nat (r_Position r)). set (ix := slot * P_of p + pos).
  destruct (prefillSeen p !! ix) as [[|]|] eqn:Eseen; try done;
    destruct (inputTokenSeen p !! pos) as [ts|] eqn:Ets; try done;
    destruct (inputTokenIDs p !! pos) as [id|] eqn:Eid; try done.
  destruct (ts && negb (id =? r_TokenID r)%Z) eqn:Etok; [done|].
  destruct (Nat.leb_spec (ix * topK p + topK p) (length (prefillRoutes p))) as [Hroom|]; [|done]. simpl.
  destruct (countExperts _ _ _ _) as [counts|] eqn:Ecnt; [|done]. intros [= <-]. split; [|done].
  rewrite take_ge by lia. assert (HposP' : pos < P_of p) by (unfold pos, P_of; lia).
  assert (Hposz : r_Position r = Z.of_nat pos) by (unfold pos; lia).
  assert (Hsl : slot < numLayers p) by (by eapply do_slots).
  apply countExperts_spec in Ecnt as (C1 & C2 & C3); [|apply Hd|by eapply Forall_impl; [exact Hrange|]; simpl; lia|done].
  assert (Hpl : pos < length (inputTokenIDs p)) by (by eapply lookup_lt_Some).
  assert (Hsl' : pos < length (inputTokenSeen p)) by (by eapply lookup_lt_Some).
  constructor; unfold storedPrefill, storedDecode, P_of, D_of in *; simpl.
  - destruct Hd. constructor; unfold P_of, D_of in *; simpl; rewrite ?length_insert, ?length_inserts, ?C1; try done.
    + by apply Forall_inserts.
    + apply Forall_insert; [done|lia].
  - intros x [Hx| ->%list_elem_of_singleton]%elem_of_app Hxp.
    + destruct (Hp x Hx Hxp) as (sl & ps & A1 & A2 & A3 & A4 & A5 & A6 & A7). exists sl, ps.
      assert (Hix : sl * Z.to_nat (InputTokens (meta p)) + ps ≠ ix) by congruence.
      rewrite list_lookup_insert_ne by done. rewrite seg_inserts_ne by done. split_and!; try done.
      * destruct (decide (ps = pos)) as [->|]; [|by rewrite list_lookup_insert_ne].
        rewrite list_lookup_insert_eq by done. rewrite Ets in A7. injection A7 as ->. rewrite Eid in A6. injection A6 as ->.
        simpl in Etok. destruct (Z.eqb_spec (r_TokenID x) (r_TokenID r)); [congruence|done].
      * destruct (decide (ps = pos)) as [->|]; [by rewrite list_lookup_insert_eq|by rewrite list_lookup_insert_ne].
    + exists slot, pos. fold ix. rewrite !list_lookup_insert_eq by (done || by eapply lookup_lt_Some).
      rewrite seg_inserts_eq by done. done.
  - intros x [Hx| ->%list_elem_of_singleton]%elem_of_app Hxd; [by apply Hdc|].
    unfold isPrefill, isDecode in *. congruence.
  - intros x [Hx| ->%list_elem_of_singleton]%elem_of_app; [by apply Hph|by left].
  - intros sl e Hsl2 He2. rewrite (prefillUses_slots p), prefillUses_app by done.
    destruct (decide (sl = slot)) as [->|Hne].
    + rewrite C3, (Hcnt slot e Hsl He2). simpl.
      replace (Z.of_nat (slot * numExperts p + e) - Z.of_nat (slot * numExperts p))%Z with (Z.of_nat e) by lia.
      repeat case_decide; simpl; f_equal; naive_solver lia.
    + rewrite (decide_False (P := isPrefill r ∧ _)) by naive_solver. rewrite Nat.add_0_r, <- (Hcnt sl e Hsl2 He2), C3.
      rewrite decide_False; [done|]. intros Hin. rewrite Forall_forall in Hrange. apply Hrange in Hin. simpl in *. nia.
Qed.

Lemma addDecode_ok slot r p p' rs :
  AccOk p rs → layerSlots p !! r_Layer r = Some slot → isDecode r →
  length (r_Experts r) = topK p → Forall (λ x, 0 ≤ x < Z.of_nat (numExperts p))%Z (r_Experts r) →
  (0 ≤ r_TokenID r ≤ max_u32)%Z →
  addDecode slot r (r_Experts r) (r_TokenID r) p = Ok p' → AccOk p' (rs ++ [r]) ∧ shape p' = shape p.
Proof.
  intros [Hd Hp Hdc Hph Hcnt] Hslot Hdec Hlen Hrange Htok. unfold addDecode, copyRoutes.
  set (dp := (r_Position r - InputTokens (meta p))%Z).
  destruct (Z.ltb_spec dp 0) as [|Hpos0]; [done|]. destruct (Z.leb_spec (DecodeTokens (meta p)) dp) as [|HposD]; [done|]. simpl.
  set (pos := Z.to_nat dp). set (ix := pos * numLayers p + slot).
  destruct (decodeSeen p !! ix) as [[|]|] eqn:Eseen; try done;
    destruct (decodeTokenSeen p !! pos) as [ts|] eqn:Ets; try done;
    destruct (decodeTokenIDs p !! pos) as [id|] eqn:Eid; try done.
  destruct (ts && negb (id =? r_TokenID r)%Z) eqn:Etok; [done|].
  destruct (Nat.leb_spec (ix * topK p + topK p) (length (decodeRoutes p))) as [Hroom|]; [|done]. simpl.
  intros [= <-]. split; [|done]. rewrite take_ge by lia.
  assert (HposD' : pos < D_of p) by (unfold pos, D_of; lia).
  assert (Hposz : r_Position r = (InputTokens (meta p) + Z.of_nat pos)%Z) by (unfold pos, dp in *; lia).
  assert (Hpl : pos < length (decodeTokenIDs p)) by (by eapply lookup_lt_Some).
  assert (Hsl' : pos < length (decodeTokenSeen p)) by (by eapply lookup_lt_Some).
  constructor; unfold storedPrefill, storedDecode, P_of, D_of in *; simpl.
  - destruct Hd. constructor; unfold P_of, D_of in *; simpl; rewrite ?length_insert, ?length_inserts; try done.
    + by apply Forall_inserts.
    + apply Forall_insert; [done|lia].
  - intros x [Hx| ->%list_elem_of_singleton]%elem_of_app Hxp; [by apply Hp|].
    unfold isPrefill, isDecode in *. congruence.
  - intros x [Hx| ->%list_elem_of_singleton]%elem_of_app Hxd.
    + destruct (Hdc x Hx Hxd) as (sl & ps & A1 & A2 & A3 & A4 & A5 & A6 & A7). exists sl, ps.
      assert (Hix : ps * numLayers p + sl ≠ ix) by congruence.
      rewrite list_lookup_insert_ne by done. rewrite seg_inserts_ne by done. split_and!; try done.
      * destruct (decide (ps = pos)) as [->|]; [|by rewrite list_lookup_insert_ne].
        rewrite list_lookup_insert_eq by done. rewrite Ets in A7. injection A7 as ->. rewrite Eid in A6. injection A6 as ->.
        simpl in Etok. destruct (Z.eqb_spec (r_TokenID x) (r_TokenID r)); [congruence|done].
      * destruct (decide (ps = pos)) as [->|]; [by rewrite list_lookup_insert_eq|by rewrite list_lookup_insert_ne].
    + exists slot, pos. fold ix. rewrite !list_lookup_insert_eq by (done || by eapply lookup_lt_Some).
      rewrite seg_inserts_eq by done. done.
  - intros x [Hx| ->%list_elem_of_singleton]%elem_of_app; [by apply Hph|by right].
  - intros sl e Hsl2 He2. rewrite (prefillUses_slots p), prefillUses_app by done.
    rewrite decide_False by (unfold isPrefill, isDecode in *; intros [? _]; congruence).
    by rewrite Nat.add_0_r, <- (Hcnt sl e Hsl2 He2).
Qed.

(** [add] stores the record and keeps all earlier ones. *)
Lemma AccOk_add r p p' rs : AccOk p rs → add r p = Ok p' → AccOk p' (rs ++ [r]) ∧ shape p' = shape p.
Proof.
  intros HA. unfold add. destruct (layerSlots p !! r_Layer r) as [slot|] eqn:Hslot; [|done].
  destruct (Z.ltb_spec (r_TokenID r) 0); [done|]. destruct (Z.ltb_spec max_u32 (r_TokenID r)); [done|]. simpl.
  destruct (Nat.eqb_spec (length (r_Experts r)) (topK p)) as [Hlen|]; [|done]. simpl.
  destruct (negb _ && negb _); [done|]. destruct (checkExperts _ _ _ _) as [experts|] eqn:Ee; [|done]. simpl.
  apply checkExperts_spec in Ee as (-> & Hr & Hnd & _); [|apply HA].
  rewrite u32_small by lia. case_bool_decide; [by eapply addPrefill_ok|].
  case_bool_decide; [by eapply addDecode_ok|done].
Qed.

(** Every slot and position has been seen. *)
Lemma validateComplete_ok p :
  validateComplete p = Ok tt →
  Forall (eq true) (inputTokenSeen p) ∧ Forall (eq true) (decodeTokenSeen p) ∧
  Forall (eq true) (prefillSeen p) ∧ Forall (eq true) (decodeSeen p).
Proof.
  unfold validateComplete. destruct (firstUnseen 0 (inputTokenSeen p)) eqn:E1; [done|].
  destruct (firstUnseen 0 (decodeTokenSeen p)) eqn:E2; [done|].
  destruct (firstUnseen 0 (prefillSeen p)) eqn:E3; [done|].
  destruct (firstUnseen 0 (decodeSeen p)) eqn:E4; [done|]. intros _.
  split_and!; apply Forall_lookup; intros j b Hj; symmetry; eauto using firstUnseen_None.
Qed.

(** Feeding a list of records. *)
Fixpoint addAll (rs : list sourceTraceRecord) (p : promptAccumulator) : res promptAccumulator :=
  match rs with
  | [] => Ok p
  | r :: rest => let! p := add r p in addAll rest p
  end.

Lemma AccOk_addAll rs p p' rs0 : AccOk p rs0 → addAll rs p = Ok p' → AccOk p' (rs0 ++ rs) ∧ shape p' = shape p.
Proof.
  revert p rs0. induction rs as [|r rs IH]; intros p rs0 HA; simpl.
  - intros [= <-]. by rewrite app_nil_r.
  - destruct (add r p) as [p1|] eqn:E; [|done]. simpl. intros H.
    destruct (AccOk_add _ _ _ _ HA E) as [HA1 Hs1]. destruct (IH _ _ HA1 H) as [HA2 Hs2].
    rewrite <- app_assoc in HA2. split; [done|congruence].
Qed.

End TraceAccumulator.
