(* ===== verification/TraceFile.v ===== *)
(** Writing and reading MoE trace files: [pkg/moetrace/writer.go], [reader.go]
    and the conversion of [source.go] and [converter.go].  Writes to the output
    file succeed; the JSON decoder is modelled by the values it yields, and the
    JSON form of the metadata by the functions [marshal] and [unmarshal]. *)

From S2P Require Import Prelude GoFloat TraceFormat TraceAccumulator.
Import TraceFormat TraceAccumulator.
Open Scope Z_scope.

Module TraceFile.

Section Codec.
Context (marshal : Metadata → bytes) (unmarshal : bytes → option Metadata).

(** * The writer *)

Record traceWriter := mkWriter {
  w_file : bytes; w_offset : Z; w_metadata : Metadata; w_metadataBytes : bytes;
  w_expertBytes : Z; w_index : list indexEntry }.

Definition newTraceWriter (source : sourceMetadata) : res traceWriter :=
  let! expertBytes := expertIDBytes (NumExperts source) in
  let prompts := (λ p, mkPromptMetadata (Index p) (Prompt p) (InputTokens p) (DecodeTokens p) (GeneratedText p))
                   <$> Prompts source in
  let metadata := mkMetadata FormatVersion (Model source) (NumExperts source) (TopK source) (SparseLayers source)
                    (NumPrompts source) expertBytes 0 prompts in
  let metadataBytes := marshal metadata in
  Ok (mkWriter (replicate headerSize 0 ++ metadataBytes) (u64 (Z.of_nat (headerSize + length metadataBytes)))
        metadata metadataBytes expertBytes []).

(** [w.write]: append and advance the offset. *)
Definition write (data : bytes) (w : traceWriter) : traceWriter :=
  mkWriter (w_file w ++ data) (u64 (w_offset w + Z.of_nat (length data))) (w_metadata w) (w_metadataBytes w)
    (w_expertBytes w) (w_index w).

Definition encodeUints (width : nat) (values : list Z) : bytes := concat (putUint width <$> values).

Definition writeUint32Slice (values : list Z) (w : traceWriter) : traceWriter := write (encodeUints 4 values) w.

(** One byte per expert id, which must fit; or two. *)
Fixpoint expertBuf (values : list Z) : res bytes :=
  match values with
  | [] => Ok []
  | v :: r => if 255 <? v then Err (ErrExpertByte v) else let! b := expertBuf r in Ok (u8 v :: b)
  end.

Definition writeExpertSlice (values : list Z) (w : traceWriter) : res traceWriter :=
  if w_expertBytes w =? 1 then let! buf := expertBuf values in Ok (write buf w)
  else Ok (write (encodeUints 2 values) w).

Definition promptHeader (w : traceWriter) (p : promptAccumulator) : bytes :=
  putUint 4 (u32 (Index (meta p))) ++ putUint 4 (u32 (InputTokens (meta p))) ++ putUint 4 (u32 (DecodeTokens (meta p)))
  ++ putUint 4 (u32 (Z.of_nat (numLayers p))) ++ putUint 4 (u32 (Z.of_nat (numExperts p)))
  ++ putUint 4 (u32 (Z.of_nat (topK p))) ++ putUint 4 (u32 (w_expertBytes w)) ++ [0; 0; 0; 0].

Definition writePrompt (p : promptAccumulator) (w : traceWriter) : res traceWriter :=
  let! _ := validateComplete p in
  let expectedID := Z.of_nat (length (w_index w)) in
  if negb (Index (meta p) =? expectedID) then Err (ErrExpectedPrompt expectedID (Index (meta p)))
  else
    let start := w_offset w in
    let w := write (promptHeader w p) w in
    let w := writeUint32Slice (inputTokenIDs p) w in
    let w := writeUint32Slice (decodeTokenIDs p) w in
    let w := writeUint32Slice (prefillCounts p) w in
    let! w := writeExpertSlice (prefillRoutes p) w in
    let! w := writeExpertSlice (decodeRoutes p) w in
    let len := u64 (w_offset w - start) in
    let! expectedLength := promptBlockLength (InputTokens (meta p)) (DecodeTokens (meta p)) (Z.of_nat (numLayers p))
                             (Z.of_nat (numExperts p)) (Z.of_nat (topK p)) (w_expertBytes w) in
    if negb (len =? expectedLength) then Err (ErrBlockMismatch len expectedLength)
    else Ok (mkWriter (w_file w) (w_offset w) (w_metadata w) (w_metadataBytes w) (w_expertBytes w)
               (w_index w ++ [mkIndexEntry (u32 (Index (meta p))) start len (u32 (InputTokens (meta p))) (u32 (DecodeTokens (meta p)))])).

(** The index is appended, then the header overwrites the placeholder. *)
Definition finish (sourceSize : Z) (sourceHash : bytes) (w : traceWriter) : res bytes :=
  let indexOffset := w_offset w in
  let w := foldl (λ w e, write (writeIndexEntry e) w) w (w_index w) in
  if negb (Z.of_nat (length (w_index w)) =? m_NumPrompts (w_metadata w))
  then Err (ErrPromptTotal (Z.of_nat (length (w_index w))) (m_NumPrompts (w_metadata w)))
  else
    let h := mkFileHeader FormatVersion (Z.of_nat headerSize) (Z.of_nat (length (w_metadataBytes w)))
               (u64 (Z.of_nat (headerSize + length (w_metadataBytes w)))) indexOffset
               (u64 (Z.of_nat (length (w_index w) * indexEntrySize))) sourceSize
               (u32 (m_NumPrompts (w_metadata w))) (u32 (w_expertBytes w)) sourceHash in
    Ok (writeHeader h ++ drop headerSize (w_file w)).

(** * Conversion *)

Record ConversionSummary := mkSummary {
  s_Model : string; s_NumPrompts : Z; s_NumExperts : Z; s_TopK : Z; s_NumLayers : Z;
  s_TraceRecords : Z; s_PrefillTokens : Z; s_DecodeTokens : Z }.

(** Prompts without records are written empty, up to prompt [target]; they must expect none. *)
Fixpoint writeEmpty (fuel : nat) (source : sourceMetadata) (slots : gmap Z nat) (nextPrompt target : Z) (w : traceWriter)
  : res (Z * traceWriter) :=
  match fuel with
  | O => Ok (nextPrompt, w)
  | S fuel =>
      if nextPrompt <? target then
        match Prompts source !! Z.to_nat nextPrompt with
        | None => Err ErrPanic
        | Some m =>
            let! empty := newPromptAccumulator m source slots in
            if negb (expectedRecords empty =? 0) then Err (ErrMissingRecords nextPrompt)
            else let! w := writePrompt empty w in writeEmpty fuel source slots (nextPrompt + 1) target w
        end
      else Ok (nextPrompt, w)
  end.

(** The state of the record loop. *)
Record convState := mkConv {
  cv_writer : traceWriter; cv_next : Z; cv_current : option promptAccumulator; cv_records : Z }.

(** One iteration of [for decoder.More()]; [decoded] is the decoded record or the decoding error. *)
Definition convertRecord (source : sourceMetadata) (slots : gmap Z nat) (st : convState) (decoded : option sourceTraceRecord)
  : res convState :=
  match decoded with
  | None => Err (ErrDecodeRecord (cv_records st))
  | Some record =>
      if (r_Prompt record <? 0) || (NumPrompts source <=? r_Prompt record)
      then Err (ErrRecordPrompt (cv_records st) (r_Prompt record))
      else
        let! st' :=
          match cv_current st with
          | Some current =>
              if r_Prompt record =? Index (meta current) then Ok (cv_writer st, cv_next st, Some current)
              else if r_Prompt record <? Index (meta current)
              then Err (ErrNotGrouped (r_Prompt record) (Index (meta current)))
              else let! w := writePrompt current (cv_writer st) in Ok (w, Index (meta current) + 1, None)
          | None => Ok (cv_writer st, cv_next st, None)
          end in
        let '(w, next, current) := st' in
        let! st'' :=
          match current with
          | Some current => Ok (w, next, current)
          | None =>
              let! nw := writeEmpty (length (Prompts source)) source slots next (r_Prompt record) w in
              let '(next, w) := nw in
              if negb (r_Prompt record =? next) then Err (ErrNotGrouped next (r_Prompt record))
              else match Prompts source !! Z.to_nat (r_Prompt record) with
                   | None => Err ErrPanic
                   | Some m => let! acc := newPromptAccumulator m source slots in Ok (w, next, acc)
                   end
          end in
        let '(w, next, current) := st'' in
        let! current := add record current in
        Ok (mkConv w next (Some current) (u64 (cv_records st + 1)))
  end.

Fixpoint convertRecords (source : sourceMetadata) (slots : gmap Z nat) (st : convState) (rs : list (option sourceTraceRecord))
  : res convState :=
  match rs with
  | [] => Ok st
  | r :: rest => let! st := convertRecord source slots st r in convertRecords source slots st rest
  end.

(** The JSON array as the decoder yields it: whether it opens with [[], its records, whether it closes. *)
Record traceArray := mkArray { ta_open : bool; ta_records : list (option sourceTraceRecord); ta_close : bool }.

Definition sumTokens (f : PromptMetadata → Z) (ps : list PromptMetadata) : Z :=
  foldl (λ acc p, u64 (acc + f p)) 0 ps.

Definition convertTraceArray (a : traceArray) (w : traceWriter) (source : sourceMetadata)
  : res (ConversionSummary * traceWriter) :=
  if negb (ta_open a) then Err ErrTraceArray
  else
    let slots := mkLayerSlots (SparseLayers source) in
    let! st := convertRecords source slots (mkConv w 0 None 0) (ta_records a) in
    if negb (ta_close a) then Err ErrTraceArray
    else
      let! wn := match cv_current st with
                 | Some current => let! w := writePrompt current (cv_writer st) in Ok (w, Index (meta current) + 1)
                 | None => Ok (cv_writer st, cv_next st)
                 end in
      let! nw := writeEmpty (length (Prompts source)) source slots (snd wn) (NumPrompts source) (fst wn) in
      let expected := sumTokens (λ p, u64 ((InputTokens p + DecodeTokens p) * NumSparseLayers source)) (Prompts source) in
      if negb (cv_records st =? expected) then Err (ErrRecordTotal (cv_records st) expected)
      else Ok (mkSummary (Model source) (NumPrompts source) (NumExperts source) (TopK source) (NumSparseLayers source)
                 (cv_records st) (sumTokens InputTokens (Prompts source)) (sumTokens DecodeTokens (Prompts source)),
               snd nw).

(** The fields of the top-level object in input order; [None] is a decoding error. *)
Inductive topField :=
| fModel (v : option string) | fNumExperts (v : option Z) | fTopK (v : option Z) | fSparseLayers (v : option (list Z))
| fNumSparseLayers (v : option Z) | fNumPrompts (v : option Z) | fPrompts (v : option (list sourcePromptMetadata))
| fTrace (a : traceArray) | fOther (ok : bool).

Record fieldState := mkFields { fs_meta : sourceMetadata; fs_result : option (ConversionSummary * traceWriter) }.

(** A metadata field must precede the trace and decode. *)
Definition setField {A} (st : fieldState) (v : option A) (f : A → sourceMetadata) : res fieldState :=
  match fs_result st with
  | Some _ => Err ErrMetadataAfterTrace
  | None => match v with None => Err ErrField | Some a => Ok (mkFields (f a) None) end
  end.

Definition convertField (st : fieldState) (f : topField) : res fieldState :=
  let m := fs_meta st in
  match f with
  | fModel v => setField st v (λ x, mkSource x (NumExperts m) (TopK m) (SparseLayers m) (NumSparseLayers m) (NumPrompts m) (Prompts m))
  | fNumExperts v => setField st v (λ x, mkSource (Model m) x (TopK m) (SparseLayers m) (NumSparseLayers m) (NumPrompts m) (Prompts m))
  | fTopK v => setField st v (λ x, mkSource (Model m) (NumExperts m) x (SparseLayers m) (NumSparseLayers m) (NumPrompts m) (Prompts m))
  | fSparseLayers v => setField st v (λ x, mkSource (Model m) (NumExperts m) (TopK m) x (NumSparseLayers m) (NumPrompts m) (Prompts m))
  | fNumSparseLayers v => setField st v (λ x, mkSource (Model m) (NumExperts m) (TopK m) (SparseLayers m) x (NumPrompts m) (Prompts m))
  | fNumPrompts v => setField st v (λ x, mkSource (Model m) (NumExperts m) (TopK m) (SparseLayers m) (NumSparseLayers m) x (Prompts m))
  | fPrompts v => setField st v (λ x, mkSource (Model m) (NumExperts m) (TopK m) (SparseLayers m) (NumSparseLayers m) (NumPrompts m) x)
  | fTrace a =>
      match fs_result st with
      | Some _ => Err ErrMultipleTraces
      | None =>
          let! _ := validateSourceMetadata m in
          let! w := newTraceWriter m in
          let! sw := convertTraceArray a w m in
          Ok (mkFields m (Some sw))
      end
  | fOther ok => if ok : bool then Ok st else Err ErrField
  end.

Fixpoint convertFields (st : fieldState) (fs : list topField) : res fieldState :=
  match fs with
  | [] => Ok st
  | f :: r => let! st := convertField st f in convertFields st r
  end.

(** The conversion of a decoded input: the output file and the summary. *)
Definition Convert (fields : list topField) (sourceSize : Z) (sourceHash : bytes) : res (bytes * ConversionSummary) :=
  let! st := convertFields (mkFields (mkSource "" 0 0 [] 0 0 []) None) fields in
  match fs_result st with
  | None => Err ErrNoTrace
  | Some (summary, w) => let! file := finish sourceSize sourceHash w in Ok (file, summary)
  end.

(** * The reader *)

Record Reader := mkReader {
  rd_file : bytes; rd_fileSize : Z; rd_header : fileHeader; rd_metadata : Metadata; rd_index : list indexEntry }.

Definition validateRegion (offset len fileSize : Z) (name : string) : res unit :=
  if (fileSize <? offset) || (u64 (fileSize - offset) <? len) then Err (ErrRegion name) else Ok tt.

Fixpoint readIndex (file : bytes) (base : nat) (i n : nat) : res (list indexEntry) :=
  match n with
  | O => Ok []
  | S n =>
      match readIndexEntry file (base + i * indexEntrySize) with
      | None => Err (ErrReadIndex i)
      | Some entry =>
          if negb (e_PromptID entry =? u32 (Z.of_nat i)) then Err (ErrIndexPromptID i (e_PromptID entry))
          else let! rest := readIndex file base (S i) n in Ok (entry :: rest)
      end
  end.

(** The block of prompt [i] checked against its index entry and the metadata. *)
Definition validatePrompt (r : Reader) (i : nat) (entry : indexEntry) : res unit :=
  let! _ := validateRegion (e_Offset entry) (e_Length entry) (rd_fileSize r) "prompt" in
  if h_IndexOffset (rd_header r) <? u64 (e_Offset entry + e_Length entry) then Err (ErrPromptOverlap i)
  else
    match readAt (Z.to_nat (e_Offset entry)) promptBlockHeaderSize (rd_file r) with
    | None => Err (ErrReadPromptHeader i)
    | Some hd =>
        let promptID := getUint (sub 0 4 hd) in
        let inputTokens := getUint (sub 4 8 hd) in
        let decodeTokens := getUint (sub 8 12 hd) in
        let nLayers := getUint (sub 12 16 hd) in
        let nExperts := getUint (sub 16 20 hd) in
        let k := getUint (sub 20 24 hd) in
        let expertBytes := getUint (sub 24 28 hd) in
        let m := rd_metadata r in
        if negb (promptID =? u32 (Z.of_nat i)) || negb (inputTokens =? e_InputTokens entry)
           || negb (decodeTokens =? e_DecodeTokens entry) then Err (ErrPromptHeader i)
        else if negb (nLayers =? Z.of_nat (length (m_SparseLayers m))) || negb (nExperts =? m_NumExperts m)
           || negb (k =? m_TopK m) || negb (expertBytes =? m_ExpertIDBytes m) then Err (ErrPromptDims i)
        else
          let! expectedLength := promptBlockLengthForVersion inputTokens decodeTokens nLayers nExperts k expertBytes
                                   (h_Version (rd_header r)) (m_SourceGPUBytes m) in
          if negb (e_Length entry =? expectedLength) then Err (ErrPromptLength i)
          else match m_Prompts m !! i with
               | None => Err ErrPanic
               | Some pm => if negb (Index pm =? Z.of_nat i) || negb (InputTokens pm =? inputTokens)
                               || negb (DecodeTokens pm =? decodeTokens) then Err (ErrPromptMetadata i)
                            else Ok tt
               end
    end.

Fixpoint validatePrompts (r : Reader) (i : nat) (expectedOffset : Z) (es : list indexEntry) : res Z :=
  match es with
  | [] => Ok expectedOffset
  | entry :: rest =>
      if negb (e_Offset entry =? expectedOffset) then Err (ErrPromptStart i)
      else let! _ := validatePrompt r i entry in
           validatePrompts r (S i) (u64 (expectedOffset + e_Length entry)) rest
  end.

Definition Validate (r : Reader) : res unit :=
  let h := rd_header r in
  if h_IndexOffset h <? h_DataOffset h then Err ErrDataAfterIndex
  else
    let! expectedOffset := validatePrompts r 0 (h_DataOffset h) (rd_index r) in
    if negb (expectedOffset =? h_IndexOffset h) then Err ErrDataEnd
    else if negb (u64 (h_IndexOffset h + h_IndexLength h) =? rd_fileSize r) then Err ErrTrailing
    else Ok tt.

(** Version 1 has no source GPUs; version 2 has one byte for each. *)
Definition normalizeSourceGPU (h : fileHeader) (m : Metadata) : res Metadata :=
  if h_Version h =? FormatVersion then
    Ok (mkMetadata (m_FormatVersion m) (m_Model m) (m_NumExperts m) (m_TopK m) (m_SparseLayers m) (m_NumPrompts m)
          (m_ExpertIDBytes m) 0 (m_Prompts m))
  else if negb (m_SourceGPUBytes m =? sourceGPUBytes) then Err (ErrSourceWidth (m_SourceGPUBytes m))
  else Ok m.

Definition Open (file : bytes) : res Reader :=
  if (length file <? headerSize)%nat then Err ErrShortFile
  else
    let! h := readHeader file in
    let size := Z.of_nat (length file) in
    let! _ := validateRegion (h_MetadataOffset h) (h_MetadataLength h) size "metadata" in
    let! _ := validateRegion (h_IndexOffset h) (h_IndexLength h) size "index" in
    if negb (h_MetadataOffset h =? Z.of_nat headerSize) then Err (ErrMetadataOffset (h_MetadataOffset h))
    else if negb (h_DataOffset h =? u64 (h_MetadataOffset h + h_MetadataLength h)) then Err ErrDataOffset
    else if negb (h_IndexLength h =? u64 (h_NumPrompts h * Z.of_nat indexEntrySize))
    then Err (ErrIndexLength (h_IndexLength h) (h_NumPrompts h))
    else
      match readAt (Z.to_nat (h_MetadataOffset h)) (Z.to_nat (h_MetadataLength h)) file with
      | None => Err ErrReadMetadata
      | Some metadataBytes =>
          match unmarshal metadataBytes with
          | None => Err ErrDecodeMetadata
          | Some m =>
              if negb (m_FormatVersion m =? h_Version h) || negb (m_NumPrompts m =? h_NumPrompts h)
                 || negb (m_ExpertIDBytes m =? h_ExpertIDBytes h) then Err ErrMetadataHeader
              else
                let! m := normalizeSourceGPU h m in
                if negb (Z.of_nat (length (m_Prompts m)) =? m_NumPrompts m) || (length (m_SparseLayers m) =? 0)%nat
                then Err ErrMetadataInvalid
                else
                  let! expected := expertIDBytes (m_NumExperts m) in
                  if negb (expected =? m_ExpertIDBytes m) then Err ErrExpertWidthCount
                  else
                    let! index := readIndex file (Z.to_nat (h_IndexOffset h)) 0 (Z.to_nat (h_NumPrompts h)) in
                    let r := mkReader file size h m index in
                    let! _ := Validate r in
                    Ok r
          end
      end.

(** ** Reading a prompt *)

Record PromptData := mkPromptData {
  pd_Metadata : PromptMetadata;
  pd_InputTokenIDs : list Z; pd_DecodeTokenIDs : list Z; pd_PrefillCounts : list Z;
  pd_PrefillRoutes : list Z; pd_DecodeRoutes : list Z;
  pd_PrefillSourceGPUs : list Z; pd_DecodeSourceGPUs : list Z;
  pd_numLayers : nat; pd_numExperts : Z; pd_topK : nat; pd_formatVersion : Z }.

(** [io.ReadFull] from the section reader. *)
Definition readFull (n : nat) (section : bytes) : option (bytes * bytes) :=
  if (n <=? length section)%nat then Some (take n section, drop n section) else None.

Fixpoint decodeUints (width n : nat) (buf : bytes) : list Z :=
  match n with
  | O => []
  | S n => getUint (take width buf) :: decodeUints width n (drop width buf)
  end.

Definition readUint32Slice (p : Z) (n : nat) (section : bytes) : res (list Z * bytes) :=
  match readFull (n * 4) section with
  | None => Err (ErrReadPrompt p)
  | Some (buf, rest) => Ok (decodeUints 4 n buf, rest)
  end.

Definition readExpertSlice (p : Z) (n : nat) (width : Z) (section : bytes) : res (list Z * bytes) :=
  if width =? 1 then
    match readFull n section with
    | None => Err (ErrReadPrompt p)
    | Some (buf, rest) => Ok (buf, rest)
    end
  else
    match readFull (n * 2) section with
    | None => Err (ErrReadPrompt p)
    | Some (buf, rest) => Ok (decodeUints 2 n buf, rest)
    end.

Fixpoint validateSourceGPUs (values : list Z) : res unit :=
  match values with
  | [] => Ok tt
  | v :: r => if v =? unknownSourceGPU then validateSourceGPUs r
              else if maxSourceGPU <? v then Err (ErrSourceGPU v) else validateSourceGPUs r
  end.

(** The source GPU arrays of a version 2 block. *)
Definition readSourceGPUs (version : Z) (p : Z) (nPrefill nDecode : nat) (section : bytes) : res (list Z * list Z * bytes) :=
  if 2 <=? version then
    match readFull nPrefill section with
    | None => Err (ErrReadPrompt p)
    | Some (a, section) =>
        match readFull nDecode section with
        | None => Err (ErrReadPrompt p)
        | Some (b, section) =>
            let! _ := validateSourceGPUs a in
            let! _ := validateSourceGPUs b in
            Ok (a, b, section)
        end
    end
  else Ok ([], [], section).

Definition ReadPrompt (promptID : Z) (r : Reader) : res PromptData :=
  if (promptID <? 0) || (Z.of_nat (length (rd_index r)) <=? promptID) then Err (ErrPromptID promptID)
  else
    match rd_index r !! Z.to_nat promptID, m_Prompts (rd_metadata r) !! Z.to_nat promptID with
    | Some entry, Some pm =>
        let m := rd_metadata r in
        let start := u64 (e_Offset entry + Z.of_nat promptBlockHeaderSize) in
        let size := u64 (e_Length entry - Z.of_nat promptBlockHeaderSize) in
        let section := take (Z.to_nat size) (drop (Z.to_nat start) (rd_file r)) in
        let l := length (m_SparseLayers m) in
        let i := Z.to_nat (e_InputTokens entry) in
        let d := Z.to_nat (e_DecodeTokens entry) in
        let k := Z.to_nat (m_TopK m) in
        let! x := readUint32Slice promptID i section in let '(inputIDs, section) := x in
        let! x := readUint32Slice promptID d section in let '(decodeIDs, section) := x in
        let! x := readUint32Slice promptID (l * Z.to_nat (m_NumExperts m)) section in let '(counts, section) := x in
        let! x := readExpertSlice promptID (l * i * k) (m_ExpertIDBytes m) section in let '(proutes, section) := x in
        let! x := readExpertSlice promptID (d * l * k) (m_ExpertIDBytes m) section in let '(droutes, section) := x in
        let! x := readSourceGPUs (h_Version (rd_header r)) promptID (l * i) (d * l) section in
        let '(pgpus, dgpus, section) := x in
        if negb (length section =? 0)%nat then Err (ErrUnread promptID)
        else Ok (mkPromptData pm inputIDs decodeIDs counts proutes droutes pgpus dgpus l (m_NumExperts m) k
                   (h_Version (rd_header r)))
    | _, _ => Err ErrPanic
    end.

(** ** Accessors: out of range arguments are errors *)

Definition inRange (x : Z) (n : nat) : bool := (0 <=? x) && (x <? Z.of_nat n).

Definition PrefillExpertCount (layerSlot expert : Z) (p : PromptData) : res Z :=
  if inRange layerSlot (pd_numLayers p) && ((0 <=? expert) && (expert <? pd_numExperts p)) then
    match pd_PrefillCounts p !! Z.to_nat (layerSlot * pd_numExperts p + expert) with
    | Some c => Ok c
    | None => Err ErrPanic
    end
  else Err ErrAccess.

(** [routes[base:base+topK]]. *)
Definition sliceRoutes (base k : nat) (routes : list Z) : res (list Z) :=
  if (base + k <=? length routes)%nat then Ok (take k (drop base routes)) else Err ErrPanic.

Definition PrefillExperts (layerSlot position : Z) (p : PromptData) : res (list Z) :=
  if inRange layerSlot (pd_numLayers p) && inRange position (length (pd_InputTokenIDs p)) then
    sliceRoutes ((Z.to_nat layerSlot * length (pd_InputTokenIDs p) + Z.to_nat position) * pd_topK p) (pd_topK p) (pd_PrefillRoutes p)
  else Err ErrAccess.

Definition DecodeExperts (position layerSlot : Z) (p : PromptData) : res (list Z) :=
  if inRange position (length (pd_DecodeTokenIDs p)) && inRange layerSlot (pd_numLayers p) then
    sliceRoutes ((Z.to_nat position * pd_numLayers p + Z.to_nat layerSlot) * pd_topK p) (pd_topK p) (pd_DecodeRoutes p)
  else Err ErrAccess.

(** The GPU a token came from, when the file records it. *)
Definition sourceGPUAt (version : Z) (gpus : list Z) (i : nat) : res (option Z) :=
  if (version <? 2) || (length gpus =? 0)%nat then Ok None
  else match gpus !! i with
       | None => Err ErrPanic
       | Some v => if v =? unknownSourceGPU then Ok None else Ok (Some v)
       end.

Definition PrefillSourceGPU (layerSlot position : Z) (p : PromptData) : res (option Z) :=
  if inRange layerSlot (pd_numLayers p) && inRange position (length (pd_InputTokenIDs p)) then
    sourceGPUAt (pd_formatVersion p) (pd_PrefillSourceGPUs p)
      (Z.to_nat layerSlot * length (pd_InputTokenIDs p) + Z.to_nat position)
  else Err ErrAccess.

Definition DecodeSourceGPU (position layerSlot : Z) (p : PromptData) : res (option Z) :=
  if inRange position (length (pd_DecodeTokenIDs p)) && inRange layerSlot (pd_numLayers p) then
    sourceGPUAt (pd_formatVersion p) (pd_DecodeSourceGPUs p)
      (Z.to_nat position * pd_numLayers p + Z.to_nat layerSlot)
  else Err ErrAccess.

End Codec.

End TraceFile.
