(* ===== verification/TraceProps.v ===== *)
(** Properties of the MoE trace files: a converted trace opens and reads back
    every routing record; whatever file [Open] accepts can be read. *)

From stdpp Require Import countable.
From S2P Require Import Prelude GoFloat TraceFormat TraceAccumulator TraceFile.
Import TraceFormat TraceAccumulator TraceFile.
Open Scope nat_scope.

Module TraceProps.

(** * Arrays of integers *)

Lemma encodeUints_length w vs : length (encodeUints w vs) = length vs * w.
Proof.
  induction vs as [|v vs IH]; [done|]. change (encodeUints w (v :: vs)) with (putUint w v ++ encodeUints w vs).
  by rewrite length_app, putUint_length, IH.
Qed.

Lemma decodeUints_encode w vs rest :
  Forall (λ v, 0 ≤ v < 256 ^ Z.of_nat w)%Z vs → decodeUints w (length vs) (encodeUints w vs ++ rest) = vs.
Proof.
  induction 1 as [|v vs Hv _ IH]; [done|]. cbn [length decodeUints].
  change (encodeUints w (v :: vs)) with (putUint w v ++ encodeUints w vs). rewrite <- app_assoc.
  rewrite take_app_length', drop_app_length' by (by rewrite putUint_length). by rewrite getUint_putUint, IH.
Qed.

Lemma readFull_app n a b : length a = n → readFull n (a ++ b) = Some (a, b).
Proof.
  intros <-. unfold readFull. rewrite length_app. destruct (Nat.leb_spec (length a) (length a + length b)); [|lia].
  by rewrite take_app_length, drop_app_length.
Qed.

Lemma readUint32Slice_app p n vs rest :
  Forall (λ x, 0 ≤ x ≤ max_u32)%Z vs → length vs = n → readUint32Slice p n (encodeUints 4 vs ++ rest) = Ok (vs, rest).
Proof.
  intros Hv <-. unfold readUint32Slice. rewrite readFull_app by apply encodeUints_length.
  rewrite <- (app_nil_r (encodeUints 4 vs)), decodeUints_encode; [done|].
  eapply Forall_impl; [exact Hv|]. unfold max_u32. simpl. lia.
Qed.

(** The expert ids as stored. *)
Definition expertsEnc (eb : Z) (vs : list Z) : bytes := if (eb =? 1)%Z then vs else encodeUints 2 vs.

Definition fits (eb : Z) (vs : list Z) : Prop :=
  (eb = 1 ∧ Forall (λ x, 0 ≤ x < 256)%Z vs ∨ eb = 2 ∧ Forall (λ x, 0 ≤ x < 65536)%Z vs)%Z.

Lemma expertsEnc_length eb vs : fits eb vs → length (expertsEnc eb vs) = length vs * Z.to_nat eb.
Proof. intros [[-> _]|[-> _]]; unfold expertsEnc; simpl; [lia|]. by rewrite encodeUints_length. Qed.

Lemma readExpertSlice_app p n eb vs rest :
  fits eb vs → length vs = n → readExpertSlice p n eb (expertsEnc eb vs ++ rest) = Ok (vs, rest).
Proof.
  intros Hf <-. unfold readExpertSlice, expertsEnc. destruct Hf as [[-> Hf]|[-> Hf]]; simpl.
  - by rewrite readFull_app.
  - rewrite readFull_app by apply encodeUints_length.
    rewrite <- (app_nil_r (encodeUints 2 vs)), decodeUints_encode; [done|]. eapply Forall_impl; [exact Hf|]. simpl. lia.
Qed.

Lemma expertBuf_ok vs : Forall (λ x, 0 ≤ x < 256)%Z vs → expertBuf vs = Ok vs.
Proof.
  induction 1 as [|v vs Hv _ IH]; [done|]. simpl. destruct (Z.ltb_spec 255 v); [lia|]. rewrite IH. simpl.
  by rewrite u8_small by lia.
Qed.

(** * Blocks *)

(** The width of the expert ids fits the number of experts. *)
Lemma fits_routes eb ne vs :
  expertIDBytes (Z.of_nat ne) = Ok eb → Forall (λ x, 0 ≤ x < Z.of_nat ne)%Z vs → fits eb vs.
Proof.
  unfold expertIDBytes, fits. intros He Hv. destruct (Z.ltb_spec (Z.of_nat ne) 1); [done|].
  destruct (Z.leb_spec (Z.of_nat ne) 256); [injection He as <-; left; split; [done|]|].
  { eapply Forall_impl; [exact Hv|]. simpl. lia. }
  destruct (Z.leb_spec (Z.of_nat ne) 65536); [injection He as <-; right; split; [done|]|done].
  eapply Forall_impl; [exact Hv|]. simpl. lia.
Qed.

Definition blockHeader (eb : Z) (p : promptAccumulator) : bytes :=
  putUint 4 (u32 (Index (meta p))) ++ putUint 4 (u32 (InputTokens (meta p))) ++ putUint 4 (u32 (DecodeTokens (meta p)))
  ++ putUint 4 (u32 (Z.of_nat (numLayers p))) ++ putUint 4 (u32 (Z.of_nat (numExperts p)))
  ++ putUint 4 (u32 (Z.of_nat (topK p))) ++ putUint 4 (u32 eb) ++ [0; 0; 0; 0]%Z.

Definition blockBody (eb : Z) (p : promptAccumulator) : bytes :=
  encodeUints 4 (inputTokenIDs p) ++ encodeUints 4 (decodeTokenIDs p) ++ encodeUints 4 (prefillCounts p)
  ++ expertsEnc eb (prefillRoutes p) ++ expertsEnc eb (decodeRoutes p).

Definition blockBytes (eb : Z) (p : promptAccumulator) : bytes := blockHeader eb p ++ blockBody eb p.

Definition entryOf (eb : Z) (start : Z) (p : promptAccumulator) : indexEntry :=
  mkIndexEntry (u32 (Index (meta p))) start (u64 (Z.of_nat (length (blockBytes eb p))))
    (u32 (InputTokens (meta p))) (u32 (DecodeTokens (meta p))).

Lemma blockHeader_length eb p : length (blockHeader eb p) = 32.
Proof. unfold blockHeader. by rewrite !length_app, !putUint_length. Qed.

(** A well-formed accumulator whose expert ids have width [eb]. *)
Definition wfBlock (eb : Z) (p : promptAccumulator) : Prop :=
  dimsOk p ∧ expertIDBytes (Z.of_nat (numExperts p)) = Ok eb ∧ 1 ≤ topK p.

Lemma expertIDBytes_width n eb : expertIDBytes n = Ok eb → eb = 1%Z ∨ eb = 2%Z.
Proof.
  unfold expertIDBytes. destruct (n <? 1)%Z; [done|]. destruct (n <=? 256)%Z; [naive_solver|].
  destruct (n <=? 65536)%Z; naive_solver.
Qed.

Lemma wfBlock_fits eb p : wfBlock eb p → fits eb (prefillRoutes p) ∧ fits eb (decodeRoutes p).
Proof. intros (Hd & He & _). split; eapply fits_routes; eauto; apply Hd. Qed.

(** The number of bytes written is the block size the format computes. *)
Lemma blockBytes_length eb p :
  wfBlock eb p →
  Z.of_nat (length (blockBytes eb p)) =
  blockSize (InputTokens (meta p)) (DecodeTokens (meta p)) (Z.of_nat (numLayers p)) (Z.of_nat (numExperts p))
    (Z.of_nat (topK p)) eb FormatVersion 0.
Proof.
  intros Hw. destruct (wfBlock_fits _ _ Hw) as [F1 F2]. destruct Hw as (Hd & He & _).
  unfold blockBytes, blockBody. rewrite !length_app, blockHeader_length, !encodeUints_length, !expertsEnc_length by done.
  destruct Hd. destruct do_in0 as [-> _], do_dec0 as [-> _]. rewrite do_counts0, do_proutes0, do_droutes0.
  unfold P_of, D_of, blockSize. simpl. destruct (expertIDBytes_width _ _ He) as [-> | ->]; nia.
Qed.

(** ** Writing a prompt *)

Lemma writeExpertSlice_ok vs w :
  fits (w_expertBytes w) vs → writeExpertSlice vs w = Ok (write (expertsEnc (w_expertBytes w) vs) w).
Proof.
  intros Hf. unfold writeExpertSlice, expertsEnc. destruct Hf as [[-> Hf]|[-> Hf]]; simpl; [|done].
  by rewrite expertBuf_ok.
Qed.

Lemma u64_add_l a b : u64 (u64 a + b) = u64 (a + b).
Proof. unfold u64. by rewrite Zplus_mod_idemp_l. Qed.

Lemma u64_sub a b : u64 (u64 a - u64 b) = u64 (a - b).
Proof. unfold u64. by rewrite <- Zminus_mod. Qed.

(** The offset is the length of the file, modulo 2^64. *)
Definition synced (w : traceWriter) : Prop := w_offset w = u64 (Z.of_nat (length (w_file w))).

Lemma write_synced data w : synced w → synced (write data w).
Proof. unfold synced, write. intros H. simpl. rewrite H, u64_add_l, length_app. f_equal. lia. Qed.

Lemma writePrompt_ok p w w' :
  wfBlock (w_expertBytes w) p → synced w → writePrompt p w = Ok w' →
  Index (meta p) = Z.of_nat (length (w_index w)) ∧
  validateComplete p = Ok tt ∧
  w' = mkWriter (w_file w ++ blockBytes (w_expertBytes w) p)
         (u64 (Z.of_nat (length (w_file w ++ blockBytes (w_expertBytes w) p)))) (w_metadata w) (w_metadataBytes w)
         (w_expertBytes w) (w_index w ++ [entryOf (w_expertBytes w) (w_offset w) p]).
Proof.
  intros Hw Ho. destruct (wfBlock_fits _ _ Hw) as [F1 F2]. unfold writePrompt.
  destruct (validateComplete p) as [[]|] eqn:Ev; [|done]. cbn [res_bind].
  destruct (Z.eqb_spec (Index (meta p)) (Z.of_nat (length (w_index w)))) as [Hi|]; [|done]. cbn [negb].
  rewrite writeExpertSlice_ok by done. cbn [res_bind]. rewrite writeExpertSlice_ok by done. cbn [res_bind].
  set (w5 := write (expertsEnc _ (decodeRoutes p)) _).
  assert (H5 : w5 = mkWriter (w_file w ++ blockBytes (w_expertBytes w) p)
    (u64 (Z.of_nat (length (w_file w ++ blockBytes (w_expertBytes w) p)))) (w_metadata w) (w_metadataBytes w) (w_expertBytes w) (w_index w)).
  { assert (Hs : synced w5) by (unfold w5, writeUint32Slice; by repeat apply write_synced).
    assert (Hf : w_file w5 = w_file w ++ blockBytes (w_expertBytes w) p)
      by (unfold w5, blockBytes, blockBody; simpl; by rewrite <- !app_assoc).
    unfold synced in Hs. rewrite Hf in Hs. rewrite <- Hs, <- Hf. done. }
  rewrite H5. cbn [w_offset w_file w_expertBytes w_index w_metadata w_metadataBytes].
  destruct (promptBlockLength _ _ _ _ _ _) as [el|]; [|done]. cbn [res_bind].
  destruct (negb _); [done|]. intros [= <-]. split; [done|]. split; [done|]. do 3 f_equal.
  rewrite Ho. unfold entryOf. f_equal. rewrite u64_sub, length_app. f_equal. lia.
Qed.

(** * Valid sources *)

Record ValidSource (src : sourceMetadata) : Prop := mkValidSource {
  vs_experts : (1 ≤ NumExperts src ≤ 65536)%Z;
  vs_topk : (1 ≤ TopK src ≤ NumExperts src)%Z;
  vs_layers : NumSparseLayers src = Z.of_nat (length (SparseLayers src)) ∧ (1 ≤ NumSparseLayers src)%Z;
  vs_nodup : NoDup (SparseLayers src);
  vs_prompts : NumPrompts src = Z.of_nat (length (Prompts src)) ∧ (1 ≤ NumPrompts src)%Z;
  vs_each : ∀ i pm, Prompts src !! i = Some pm →
    Index pm = Z.of_nat i ∧ (0 ≤ InputTokens pm ≤ max_u32)%Z ∧ (0 ≤ DecodeTokens pm ≤ max_u32)%Z }.

Lemma checkLayers_ok seen ls : checkLayers seen ls = Ok tt → NoDup ls ∧ ∀ l, l ∈ ls → l ∉ seen.
Proof.
  revert seen. induction ls as [|l ls IH]; intros seen; simpl; [split; [constructor|set_solver]|].
  destruct (l <? 0)%Z; [done|]. case_bool_decide as Hs; [done|]. intros [H1 H2]%IH. split.
  - constructor; [|done]. intros Hin. apply (H2 l Hin). set_solver.
  - intros x [->|Hx]%elem_of_cons; [done|]. specialize (H2 x Hx). set_solver.
Qed.

Lemma checkPrompts_ok k ps : checkPrompts k ps = Ok tt → ∀ i pm, ps !! i = Some pm →
  Index pm = Z.of_nat (k + i) ∧ (0 ≤ InputTokens pm ≤ max_u32)%Z ∧ (0 ≤ DecodeTokens pm ≤ max_u32)%Z.
Proof.
  revert k. induction ps as [|p ps IH]; intros k H i pm Hi; [done|]. simpl in H.
  destruct (Z.eqb_spec (Index p) (Z.of_nat k)); [|done]. simpl in H.
  destruct (Z.ltb_spec (InputTokens p) 0), (Z.ltb_spec (DecodeTokens p) 0); try done. simpl in H.
  destruct (Z.ltb_spec max_u32 (InputTokens p)), (Z.ltb_spec max_u32 (DecodeTokens p)); try done. simpl in H.
  destruct i as [|i]; simpl in Hi.
  - injection Hi as <-. rewrite Nat.add_0_r. lia.
  - destruct (IH _ H i pm Hi) as [Hx ?]. split; [rewrite Hx; f_equal; lia|done].
Qed.

Lemma validateSource_ok src : validateSourceMetadata src = Ok tt → ValidSource src.
Proof.
  unfold validateSourceMetadata. case_bool_decide; [done|].
  destruct (Z.ltb_spec (NumExperts src) 1), (Z.ltb_spec 65536 (NumExperts src)); try done. simpl.
  destruct (Z.ltb_spec (TopK src) 1), (Z.ltb_spec (NumExperts src) (TopK src)); try done. simpl.
  destruct (Z.eqb_spec (NumSparseLayers src) (Z.of_nat (length (SparseLayers src)))); [|done].
  destruct (Z.ltb_spec (NumSparseLayers src) 1); [done|]. simpl.
  destruct (checkLayers ∅ _) as [[]|] eqn:El; [|done]. simpl.
  destruct (Z.eqb_spec (NumPrompts src) (Z.of_nat (length (Prompts src)))); [|done].
  destruct (Z.ltb_spec (NumPrompts src) 1); [done|]. simpl. intros Hp.
  apply checkLayers_ok in El as [Hnd _].
  constructor; try done; try lia. intros i pm Hi. apply (checkPrompts_ok 0 _ Hp i pm Hi).
Qed.

Lemma mkLayerSlots_snoc ls l : mkLayerSlots (ls ++ [l]) = <[l := length ls]> (mkLayerSlots ls).
Proof. unfold mkLayerSlots. rewrite imap_app, foldl_app. simpl. by rewrite Nat.add_0_r. Qed.

Lemma mkLayerSlots_lookup ls l slot :
  NoDup ls → mkLayerSlots ls !! l = Some slot ↔ ls !! slot = Some l.
Proof.
  induction ls as [|x ls IH] using rev_ind; intros Hnd.
  - unfold mkLayerSlots. simpl. rewrite lookup_empty. by split.
  - rewrite mkLayerSlots_snoc. apply NoDup_app in Hnd as (Hnd & Hd & _). specialize (IH Hnd).
    destruct (decide (l = x)) as [->|Hne].
    + rewrite lookup_insert_eq. split; [intros [= <-]; by apply list_lookup_middle|].
      intros [Hs|[Hge Hs]]%lookup_app_Some; [exfalso; apply (Hd x); [by eapply list_elem_of_lookup_2|left]|].
      apply list_lookup_singleton_Some in Hs as [Hs _]. f_equal. lia.
    + rewrite lookup_insert_ne by done. rewrite IH. split; [apply lookup_app_l_Some|].
      intros [Hs|[_ Hs]]%lookup_app_Some; [done|]. apply list_lookup_singleton_Some in Hs as [_ Hs]. by subst.
Qed.

(** * Conversion *)

Section Conversion.
Context (marshal : Metadata → bytes) (src : sourceMetadata) (eb : Z).
Context (Hsrc : ValidSource src) (Heb : expertIDBytes (NumExperts src) = Ok eb).

Definition dims : nat * nat * nat := (Z.to_nat (NumSparseLayers src), Z.to_nat (NumExperts src), Z.to_nat (TopK src)).
Definition slots : gmap Z nat := mkLayerSlots (SparseLayers src).

(** The metadata written to the file. *)
Definition metaOf : Metadata :=
  mkMetadata FormatVersion (Model src) (NumExperts src) (TopK src) (SparseLayers src) (NumPrompts src) eb 0
    ((λ p, mkPromptMetadata (Index p) (Prompt p) (InputTokens p) (DecodeTokens p) (GeneratedText p)) <$> Prompts src).

(** [p] accumulates the records [g], all of prompt [i]. *)
Definition AccFor (i : nat) (p : promptAccumulator) (g : list sourceTraceRecord) : Prop :=
  AccOk p g ∧ (∃ pm, Prompts src !! i = Some pm ∧ shape p = (pm, dims, slots)) ∧ ∀ r, r ∈ g → r_Prompt r = Z.of_nat i.

Lemma slots_range layer slot : slots !! layer = Some slot → slot < Z.to_nat (NumSparseLayers src).
Proof.
  intros H%mkLayerSlots_lookup; [|apply Hsrc]. apply lookup_lt_Some in H. destruct (vs_layers _ Hsrc). lia.
Qed.

Lemma AccFor_new i pm p : Prompts src !! i = Some pm → newPromptAccumulator pm src slots = Ok p → AccFor i p [].
Proof.
  intros Hi Hn. destruct (AccOk_new _ _ _ _ Hn (vs_experts _ Hsrc) slots_range) as [HA Hs].
  split; [done|]. split; [by exists pm|]. intros r Hr. by apply not_elem_of_nil in Hr.
Qed.

Lemma AccFor_add i p g r p' : AccFor i p g → r_Prompt r = Z.of_nat i → add r p = Ok p' → AccFor i p' (g ++ [r]).
Proof.
  intros (HA & (pm & Hi & Hs) & Hr) Hri Ha. destruct (AccOk_add _ _ _ _ HA Ha) as [HA' Hs'].
  split; [done|]. split; [exists pm; split; [done|congruence]|].
  intros x [Hx| ->%list_elem_of_singleton]%elem_of_app; auto.
Qed.

Lemma AccFor_index i p g : AccFor i p g → Index (meta p) = Z.of_nat i.
Proof. intros (_ & (pm & Hi & Hs) & _). injection Hs as -> _ _ _ _. by apply (vs_each _ Hsrc). Qed.

Lemma AccFor_wf i p g : AccFor i p g → wfBlock eb p.
Proof.
  intros (HA & (pm & Hi & Hs) & _). injection Hs as _ _ E1 E2 _. pose proof (vs_experts _ Hsrc). pose proof (vs_topk _ Hsrc).
  split; [apply HA|]. rewrite E1, E2, Z2Nat.id by lia. split; [done|lia].
Qed.

(** ** The writer *)

Fixpoint entriesFrom (off : nat) (accs : list promptAccumulator) : list indexEntry :=
  match accs with
  | [] => []
  | p :: r => entryOf eb (u64 (Z.of_nat off)) p :: entriesFrom (off + length (blockBytes eb p)) r
  end.

Definition blocks (accs : list promptAccumulator) : bytes := concat (blockBytes eb <$> accs).

Lemma blocks_snoc accs p : blocks (accs ++ [p]) = blocks accs ++ blockBytes eb p.
Proof. unfold blocks. rewrite fmap_app, concat_app. simpl. by rewrite app_nil_r. Qed.

Lemma entriesFrom_snoc off accs p :
  entriesFrom off (accs ++ [p]) = entriesFrom off accs ++ [entryOf eb (u64 (Z.of_nat (off + length (blocks accs)))) p].
Proof.
  revert off. induction accs as [|a accs IH]; intros off; cbn [app entriesFrom].
  - change (blocks []) with (@nil Z). cbn [length]. by rewrite Nat.add_0_r.
  - rewrite IH. change (blocks (a :: accs)) with (blockBytes eb a ++ blocks accs). by rewrite length_app, Nat.add_assoc.
Qed.

Lemma entriesFrom_length off accs : length (entriesFrom off accs) = length accs.
Proof. revert off. induction accs; intros; simpl; auto. Qed.

(** The writer has written the prompts [accs]. *)
Record WOk (accs : list promptAccumulator) (w : traceWriter) : Prop := mkWOk {
  wo_meta : w_metadata w = metaOf ∧ w_metadataBytes w = marshal metaOf ∧ w_expertBytes w = eb;
  wo_synced : synced w;
  wo_file : w_file w = replicate headerSize 0%Z ++ marshal metaOf ++ blocks accs;
  wo_index : w_index w = entriesFrom (headerSize + length (marshal metaOf)) accs }.

(** Each written prompt holds its group of records and is complete. *)
Definition Written (accs : list promptAccumulator) (groups : list (list sourceTraceRecord)) : Prop :=
  length accs = length groups ∧
  ∀ i p, accs !! i = Some p → ∃ g, groups !! i = Some g ∧ AccFor i p g ∧ validateComplete p = Ok tt.

Lemma Written_snoc accs groups p g :
  Written accs groups → AccFor (length accs) p g → validateComplete p = Ok tt → Written (accs ++ [p]) (groups ++ [g]).
Proof.
  intros [Hl HW] HA Hc. split; [rewrite !length_app; simpl; lia|]. intros i q Hi.
  apply lookup_app_Some in Hi as [Hi|[Hge Hi]].
  - destruct (HW i q Hi) as (g' & Hg & ?). exists g'. split; [|done]. by apply lookup_app_l_Some.
  - apply list_lookup_singleton_Some in Hi as [Hz <-]. exists g. assert (i = length accs) as -> by lia.
    split; [|done]. rewrite Hl. by apply list_lookup_middle.
Qed.

Lemma WOk_new w : newTraceWriter marshal src = Ok w → WOk [] w.
Proof.
  unfold newTraceWriter. rewrite Heb. cbn [res_bind]. intros [= <-].
  constructor; unfold synced; cbn [w_metadata w_metadataBytes w_expertBytes w_offset w_file w_index]; try done.
  change (blocks []) with (@nil Z). by rewrite app_nil_r.
Qed.

Lemma WOk_writePrompt accs w i p g w' :
  WOk accs w → AccFor i p g → writePrompt p w = Ok w' →
  i = length accs ∧ validateComplete p = Ok tt ∧ WOk (accs ++ [p]) w'.
Proof.
  intros [(M1 & M2 & M3) Hs Hf Hi] HA Hw. pose proof (AccFor_wf _ _ _ HA) as Hwf. rewrite <- M3 in Hwf.
  destruct (writePrompt_ok p w w' Hwf Hs Hw) as (Hx & Hc & ->).
  rewrite (AccFor_index _ _ _ HA), Hi, entriesFrom_length in Hx. split; [lia|]. split; [done|].
  constructor; cbn [w_metadata w_metadataBytes w_expertBytes w_offset w_file w_index]; rewrite ?M3; try done.
  - rewrite Hf, blocks_snoc, <- !app_assoc. done.
  - rewrite entriesFrom_snoc, Hi. do 2 f_equal. unfold synced in Hs. rewrite Hs, Hf, !length_app, length_replicate.
    by rewrite Nat.add_assoc.
Qed.

(** ** The record loop *)

(** [done] has been consumed: whole groups are written, the last one is open. *)
Definition CInv (st : convState) (consumed : list sourceTraceRecord) : Prop :=
  ∃ accs groups, WOk accs (cv_writer st) ∧ Written accs groups ∧
    match cv_current st with
    | None => cv_next st = Z.of_nat (length accs) ∧ consumed = concat groups
    | Some cur => ∃ g, AccFor (length accs) cur g ∧ consumed = concat groups ++ g
    end.

(** Empty prompts add empty groups. *)
Lemma writeEmpty_ok fuel next target w accs groups r :
  WOk accs w → Written accs groups → next = Z.of_nat (length accs) →
  writeEmpty fuel src slots next target w = Ok r →
  ∃ accs' groups', WOk accs' (snd r) ∧ Written accs' groups' ∧ fst r = Z.of_nat (length accs') ∧
    concat groups' = concat groups ∧ (Z.of_nat (length accs') ≤ Z.max target (Z.of_nat (length accs)))%Z ∧
    ((target ≤ fst r)%Z ∨ length accs' = length accs + fuel).
Proof.
  revert next w accs groups. induction fuel as [|fuel IH]; intros next w accs groups HW HG Hn; cbn [writeEmpty].
  { intros [= <-]. exists accs, groups. split_and!; try done; [lia|right; lia]. }
  destruct (Z.ltb_spec next target) as [Hlt|Hge].
  2:{ intros [= <-]. exists accs, groups. split_and!; try done; [lia|left; simpl; lia]. }
  destruct (Prompts src !! Z.to_nat next) as [pm|] eqn:Hp; [|done].
  destruct (newPromptAccumulator pm src slots) as [e|] eqn:En; [|done]. cbn [res_bind].
  destruct (negb _); [done|]. destruct (writePrompt e w) as [w1|] eqn:Ew; [|done]. cbn [res_bind]. intros Hr.
  rewrite Hn, Nat2Z.id in Hp. pose proof (AccFor_new _ _ _ Hp En) as HA.
  destruct (WOk_writePrompt _ _ _ _ _ _ HW HA Ew) as (_ & Hc & HW1).
  destruct (IH (next + 1)%Z w1 (accs ++ [e]) (groups ++ [[]])) as (a' & g' & H1 & H2 & H3 & H4 & H5 & H6); try done.
  - by apply Written_snoc.
  - rewrite length_app. simpl. lia.
  - exists a', g'. rewrite length_app in *. simpl in *. split_and!; try done; [|lia|].
    + rewrite H4, concat_app. simpl. by rewrite app_nil_r.
    + destruct H6; [by left|right; lia].
Qed.

Lemma CInv_record st decoded consumed st' :
  CInv st consumed → convertRecord src slots st decoded = Ok st' →
  ∃ r, decoded = Some r ∧ CInv st' (consumed ++ [r]).
Proof.
  intros (accs & groups & HW & HG & Hcur) Hc. destruct decoded as [r|]; [|done]. exists r. split; [done|].
  cbn [convertRecord] in Hc. destruct (Z.ltb_spec (r_Prompt r) 0), (Z.leb_spec (NumPrompts src) (r_Prompt r)); try done.
  cbn [orb] in Hc.
  (* the group of [r] is open, or it is opened after the pending one is closed *)
  assert (Hopen : ∃ w next cur accs' groups' g,
    WOk accs' w ∧ Written accs' groups' ∧ AccFor (length accs') cur g ∧ r_Prompt r = Z.of_nat (length accs') ∧
    consumed = concat groups' ++ g ∧
    (let! cur := add r cur in Ok (mkConv w next (Some cur) (u64 (cv_records st + 1)))) = Ok st').
  2:{ destruct Hopen as (w & next & cur & a & gs & g & H1 & H2 & H3 & H4 & H5 & H6).
      destruct (add r cur) as [cur'|] eqn:Ea; [|done]. injection H6 as <-. exists a, gs. split; [done|]. split; [done|].
      exists (g ++ [r]). split; [by eapply AccFor_add|]. by rewrite H5, app_assoc. }
  (* closing and opening *)
  assert (Hnew : ∀ w next accs1 groups1, WOk accs1 w → Written accs1 groups1 → next = Z.of_nat (length accs1) →
    consumed = concat groups1 →
    (let! st'' :=
       let! nw := writeEmpty (length (Prompts src)) src slots next (r_Prompt r) w in
       let '(next, w) := nw in
       if negb (r_Prompt r =? next)%Z then Err (ErrNotGrouped next (r_Prompt r))
       else match Prompts src !! Z.to_nat (r_Prompt r) with
            | None => Err ErrPanic
            | Some m => let! acc := newPromptAccumulator m src slots in Ok (w, next, acc)
            end in
     let '(w, next, current) := st'' in
     let! current := add r current in
     Ok (mkConv w next (Some current) (u64 (cv_records st + 1)))) = Ok st' →
    ∃ w next cur accs' groups' g,
      WOk accs' w ∧ Written accs' groups' ∧ AccFor (length accs') cur g ∧ r_Prompt r = Z.of_nat (length accs') ∧
      consumed = concat groups' ++ g ∧
      (let! cur := add r cur in Ok (mkConv w next (Some cur) (u64 (cv_records st + 1)))) = Ok st').
  { intros w next accs1 groups1 HW1 HG1 Hn Hd Hr. destruct (writeEmpty _ _ _ _ _ _) as [nw|] eqn:Ew; [|done].
    destruct (writeEmpty_ok _ _ _ _ _ _ _ HW1 HG1 Hn Ew) as (a & gs & H1 & H2 & H3 & H4 & _).
    cbn [res_bind] in Hr. destruct nw as [next' w']. simpl in H1, H3. destruct (Z.eqb_spec (r_Prompt r) next') as [E|]; [|done].
    cbn [negb] in Hr. destruct (Prompts src !! Z.to_nat (r_Prompt r)) as [m|] eqn:Em; [|done].
    destruct (newPromptAccumulator m src slots) as [acc|] eqn:En; [|done]. cbn [res_bind] in Hr.
    rewrite E, H3, Nat2Z.id in Em. exists w', next', acc, a, gs, []. rewrite app_nil_r, H4.
    split_and!; try done; [by eapply AccFor_new|lia]. }
  destruct (cv_current st) as [cur|].
  - destruct Hcur as (g & HA & Hd). rewrite (AccFor_index _ _ _ HA) in Hc.
    destruct (Z.eqb_spec (r_Prompt r) (Z.of_nat (length accs))) as [E|Hne].
    + cbn [res_bind] in Hc. by exists (cv_writer st), (cv_next st), cur, accs, groups, g.
    + destruct (Z.ltb_spec (r_Prompt r) (Z.of_nat (length accs))); [done|].
      destruct (writePrompt cur (cv_writer st)) as [w1|] eqn:Ew; [|done]. cbn [res_bind] in Hc.
      destruct (WOk_writePrompt _ _ _ _ _ _ HW HA Ew) as (_ & Hcm & HW1).
      eapply (Hnew w1 _ (accs ++ [cur]) (groups ++ [g])); [done|by apply Written_snoc| | |exact Hc].
      * rewrite length_app. simpl. lia.
      * rewrite concat_app. simpl. by rewrite app_nil_r.
  - destruct Hcur as [Hn Hd]. cbn [res_bind] in Hc. by eapply (Hnew (cv_writer st) _ accs groups).
Qed.

Lemma CInv_records st rs consumed st' :
  CInv st consumed → convertRecords src slots st rs = Ok st' →
  ∃ recs, rs = Some <$> recs ∧ CInv st' (consumed ++ recs).
Proof.
  revert st consumed. induction rs as [|d rs IH]; intros st consumed HC; simpl.
  - intros [= <-]. exists []. by rewrite app_nil_r.
  - destruct (convertRecord src slots st d) as [st1|] eqn:E; [|done]. simpl. intros H.
    destruct (CInv_record _ _ _ _ HC E) as (r & -> & HC1). destruct (IH _ _ HC1 H) as (recs & -> & HC2).
    exists (r :: recs). rewrite <- app_assoc in HC2. done.
Qed.

(** The whole array: every prompt is written, with the records of the array as its groups. *)
Lemma convertTraceArray_ok a w summary w' :
  WOk [] w → convertTraceArray a w src = Ok (summary, w') →
  ∃ recs accs groups, ta_records a = Some <$> recs ∧ WOk accs w' ∧ Written accs groups ∧
    length accs = length (Prompts src) ∧ concat groups = recs.
Proof.
  intros HW. unfold convertTraceArray. destruct (ta_open a); [|done]. cbn [negb]. fold slots.
  destruct (convertRecords src slots _ _) as [st|] eqn:Er; [|done]. cbn [res_bind].
  destruct (ta_close a); [|done]. cbn [negb].
  assert (HC0 : CInv (mkConv w 0 None 0) []).
  { exists [], []. split; [done|]. split; [|done]. split; [done|]. intros i p Hi. done. }
  destruct (CInv_records _ _ _ _ HC0 Er) as (recs & Hrs & accs & groups & HW1 & HG1 & Hcur). simpl in Hcur.
  destruct (vs_prompts _ Hsrc) as [Hnp _].
  assert (Hfin : ∀ w1 n accs1 groups1, WOk accs1 w1 → Written accs1 groups1 → n = Z.of_nat (length accs1) →
    concat groups1 = recs → ∀ nw, writeEmpty (length (Prompts src)) src slots n (NumPrompts src) w1 = Ok nw →
    ∃ accs2 groups2, WOk accs2 (snd nw) ∧ Written accs2 groups2 ∧ length accs2 = length (Prompts src) ∧ concat groups2 = recs).
  { intros w1 n accs1 groups1 H1 H2 H3 H4 nw Hw. destruct (writeEmpty_ok _ _ _ _ _ _ _ H1 H2 H3 Hw) as (a2 & g2 & A & B & C & D & E & F).
    exists a2, g2. split; [done|]. split; [done|]. split; [|congruence].
    assert (length a2 ≤ length (Prompts src)); [|destruct F; lia].
    destruct (Nat.le_gt_cases (length a2) (length (Prompts src))) as [|Hgt]; [done|]. exfalso.
    destruct (lookup_lt_is_Some_2 a2 (length (Prompts src))) as [p Hp]; [lia|].
    destruct B as [_ B]. destruct (B _ _ Hp) as (g & _ & (_ & (pm & Hpm & _) & _) & _).
    apply lookup_lt_Some in Hpm. exact (Nat.lt_irrefl _ Hpm). }
  destruct (cv_current st) as [cur|].
  - destruct Hcur as (g & HA & Hd). destruct (writePrompt cur (cv_writer st)) as [w1|] eqn:Ew; [|done]. cbn [res_bind].
    destruct (WOk_writePrompt _ _ _ _ _ _ HW1 HA Ew) as (_ & Hcm & HW2). cbn [fst snd].
    destruct (writeEmpty _ _ _ _ _ _) as [nw|] eqn:Ee; [|done]. cbn [res_bind]. destruct (negb _); [done|]. intros [= _ <-].
    destruct (Hfin w1 (Index (meta cur) + 1)%Z (accs ++ [cur]) (groups ++ [g]) HW2) with (nw := nw) as (a2 & g2 & ?);
      [by apply Written_snoc|rewrite (AccFor_index _ _ _ HA), length_app; simpl; lia
      |rewrite concat_app; simpl; by rewrite app_nil_r|done|]. by exists recs, a2, g2.
  - destruct Hcur as [Hn Hd]. cbn [res_bind fst snd].
    destruct (writeEmpty _ _ _ _ _ _) as [nw|] eqn:Ee; [|done]. cbn [res_bind]. destruct (negb _); [done|]. intros [= _ <-].
    destruct (Hfin (cv_writer st) (cv_next st) accs groups HW1 HG1 Hn) with (nw := nw) as (a2 & g2 & ?); [done|done|].
    by exists recs, a2, g2.
Qed.

End Conversion.

(** * Reading back *)

Lemma u32_byte4 v : (0 ≤ u32 v < 256 ^ Z.of_nat 4)%Z.
Proof. pose proof (u32_range v). unfold max_u32 in *. simpl. lia. Qed.

Lemma validateRegion_ok off len size name :
  (0 ≤ off)%Z → (0 ≤ len)%Z → (off + len ≤ size)%Z → (size ≤ max_u64)%Z → validateRegion off len size name = Ok tt.
Proof.
  intros. unfold validateRegion. rewrite u64_small by lia.
  destruct (Z.ltb_spec size off); [lia|]. simpl. destruct (Z.ltb_spec (size - off) len); [lia|done].
Qed.

Lemma readIndex_ok file base i pre es post :
  file = pre ++ concat (writeIndexEntry <$> es) ++ post → length pre = base + i * indexEntrySize →
  (∀ j e, es !! j = Some e → entryOk e ∧ e_PromptID e = u32 (Z.of_nat (i + j))) →
  readIndex file base i (length es) = Ok es.
Proof.
  revert i pre. induction es as [|e es IH]; intros i pre Hf Hl He; [done|]. cbn [length readIndex].
  change (concat (writeIndexEntry <$> e :: es)) with (writeIndexEntry e ++ concat (writeIndexEntry <$> es)) in Hf.
  rewrite <- app_assoc in Hf. destruct (He 0 e eq_refl) as [Hok Hid].
  rewrite <- Hl, Hf, entry_roundtrip by done. rewrite Hid, Nat.add_0_r, Z.eqb_refl. cbn [negb].
  rewrite <- Hf, (IH (S i) (pre ++ writeIndexEntry e)).
  - done.
  - by rewrite <- app_assoc.
  - rewrite length_app, entry_length, Hl. unfold indexEntrySize. lia.
  - intros j e' Hj. destruct (He (S j) e' Hj) as [H1 H2]. split; [done|]. rewrite H2. do 2 f_equal. lia.
Qed.

Lemma writeIndex_fields l w :
  let w' := foldl (λ w e, write (writeIndexEntry e) w) w l in
  w_file w' = w_file w ++ concat (writeIndexEntry <$> l) ∧ w_index w' = w_index w ∧ w_metadata w' = w_metadata w ∧
  w_metadataBytes w' = w_metadataBytes w ∧ w_expertBytes w' = w_expertBytes w.
Proof.
  revert w. induction l as [|e l IH]; intros w; cbn [foldl].
  - change (concat (writeIndexEntry <$> [])) with (@nil Z). by rewrite app_nil_r.
  - destruct (IH (write (writeIndexEntry e) w)) as (E1 & E2 & E3 & E4 & E5).
    cbn [write w_index w_metadata w_metadataBytes w_expertBytes w_file] in E1, E2, E3, E4, E5.
    change (concat (writeIndexEntry <$> e :: l)) with (writeIndexEntry e ++ concat (writeIndexEntry <$> l)).
    rewrite <- app_assoc in E1. done.
Qed.

Section ReadBack.
Context (marshal : Metadata → bytes) (unmarshal : bytes → option Metadata) (src : sourceMetadata) (eb : Z).
Context (Hsrc : ValidSource src) (Heb : expertIDBytes (NumExperts src) = Ok eb).
Context (accs : list promptAccumulator) (groups : list (list sourceTraceRecord)) (sz : Z) (hash : bytes).
Context (HG : Written src accs groups) (Hall : length accs = length (Prompts src)).

Let m := metaOf src eb.
Let mb := marshal m.
Let base := headerSize + length mb.
Let es := entriesFrom eb base accs.
Let index := concat (writeIndexEntry <$> es).
Let ixoff := base + length (blocks eb accs).

Definition headerOf : fileHeader :=
  mkFileHeader FormatVersion (Z.of_nat headerSize) (Z.of_nat (length mb)) (Z.of_nat base) (Z.of_nat ixoff)
    (Z.of_nat (length accs * indexEntrySize)) sz (NumPrompts src) eb hash.

Definition fileOf : bytes := writeHeader headerOf ++ mb ++ blocks eb accs ++ index.

Context (Hsz : (0 ≤ sz ≤ max_u64)%Z) (Hhash : length hash = 32).

Lemma finish_length w file : WOk marshal src eb accs w → finish sz hash w = Ok file → length file = length fileOf.
Proof.
  intros [(M1 & M2 & M3) Hs Hf Hi]. unfold finish. destruct (negb _); [done|]. intros <-%Ok_inj.
  destruct (writeIndex_fields (w_index w) w) as (E1 & _). rewrite E1, Hf, Hi. fold m mb base es. unfold fileOf.
  rewrite <- !app_assoc, drop_app_length' by (by rewrite length_replicate).
  rewrite !(length_app (writeHeader _)), !writeHeader_length by exact Hhash. done.
Qed.

(** Files are shorter than 2^63 bytes; prompts and layers fit the 32-bit fields. *)
Context (Hbig : (Z.of_nat (length fileOf) < 2 ^ 63)%Z)
        (Hnp : (NumPrompts src ≤ max_u32)%Z) (Hnl : (NumSparseLayers src ≤ max_u32)%Z).

Lemma index_length : length index = length accs * indexEntrySize.
Proof.
  unfold index, es. rewrite <- (entriesFrom_length eb base accs). generalize (entriesFrom eb base accs). intros l.
  induction l as [|e l IH]; [done|].
  change (concat (writeIndexEntry <$> e :: l)) with (writeIndexEntry e ++ concat (writeIndexEntry <$> l)).
  rewrite length_app, IH, entry_length. cbn [length]. lia.
Qed.

Lemma header_len : length (writeHeader headerOf) = headerSize.
Proof. by apply writeHeader_length. Qed.

Lemma fileOf_length : length fileOf = ixoff + length accs * indexEntrySize.
Proof. unfold fileOf, ixoff, base. rewrite !length_app, header_len, index_length. lia. Qed.

Lemma eb_width : eb = 1%Z ∨ eb = 2%Z.
Proof. by eapply expertIDBytes_width. Qed.

Lemma prompts_count : NumPrompts src = Z.of_nat (length accs).
Proof. destruct (vs_prompts _ Hsrc) as [-> _]. by rewrite Hall. Qed.

Lemma headerOf_ok : headerOk headerOf.
Proof.
  pose proof fileOf_length. pose proof eb_width. pose proof prompts_count.
  assert (base ≤ ixoff) by (unfold ixoff; lia). assert (length mb ≤ base) by (unfold base; lia).
  constructor; try done.
  - simpl. rewrite !Forall_cons. unfold max_u64, headerSize in *. cbn [h_MetadataOffset h_MetadataLength h_DataOffset
      h_IndexOffset h_IndexLength h_SourceSize headerOf]. split_and!; try lia; try done.
  - simpl. lia.
Qed.

(** [finish] produces this file. *)
Lemma finish_ok w : WOk marshal src eb accs w → finish sz hash w = Ok fileOf.
Proof.
  intros [(M1 & M2 & M3) Hs Hf Hi]. unfold finish.
  destruct (writeIndex_fields (w_index w) w) as (E1 & E2 & E3 & E4 & E5).
  rewrite E1, E2, E3, E4, E5, M1, M2, M3, Hi, Hf. fold m mb base es.
  assert (Hes : length es = length accs) by apply entriesFrom_length.
  pose proof fileOf_length. pose proof prompts_count. pose proof eb_width.
  assert (base ≤ ixoff) by (unfold ixoff; lia).
  change (m_NumPrompts m) with (NumPrompts src). rewrite Hes, prompts_count, Z.eqb_refl. cbn [negb].
  rewrite <- !app_assoc, drop_app_length' by (by rewrite length_replicate).
  unfold synced in Hs. rewrite Hs, Hf, !length_app, length_replicate. fold m mb. rewrite Nat.add_assoc. fold base. fold ixoff.
  rewrite !u64_small by (unfold max_u64 in *; lia). rewrite !u32_small by (unfold max_u32 in *; lia).
  unfold fileOf, headerOf. by rewrite prompts_count.
Qed.

(** Position of prompt [i] in the file. *)
Lemma file_split i p pre post :
  accs = pre ++ p :: post → i = length pre →
  ∃ a b, fileOf = a ++ blockBytes eb p ++ b ∧ length a = base + length (blocks eb pre) ∧
         base + length (blocks eb pre) + length (blockBytes eb p) ≤ ixoff ∧
         (∃ g, AccFor src i p g) ∧ es !! i = Some (entryOf eb (Z.of_nat (length a)) p).
Proof.
  intros Hp ->. exists (writeHeader headerOf ++ mb ++ blocks eb pre), (blocks eb post ++ index).
  assert (Hb : blocks eb accs = blocks eb pre ++ blockBytes eb p ++ blocks eb post).
  { rewrite Hp. unfold blocks. by rewrite fmap_app, concat_app. }
  assert (Hl : length (writeHeader headerOf ++ mb ++ blocks eb pre) = base + length (blocks eb pre))
    by (rewrite !length_app, header_len; unfold base; lia).
  assert (Hle : base + length (blocks eb pre) + length (blockBytes eb p) ≤ ixoff)
    by (unfold ixoff; rewrite Hb, !length_app; lia).
  split_and!; try done.
  - unfold fileOf. rewrite Hb. by rewrite <- !app_assoc.
  - destruct HG as [_ HG']. destruct (HG' (length pre) p) as (g & _ & HA & _); [rewrite Hp; by apply list_lookup_middle|]. by exists g.
  - pose proof fileOf_length. rewrite Hl. unfold es. rewrite Hp. replace (pre ++ p :: post) with ((pre ++ [p]) ++ post) by (by rewrite <- app_assoc).
    assert (Hsplit : ∀ off l1 l2, entriesFrom eb off (l1 ++ l2) = entriesFrom eb off l1 ++ entriesFrom eb (off + length (blocks eb l1)) l2).
    { clear. intros off l1 l2. revert off. induction l1 as [|a l1 IH]; intros off; cbn [app entriesFrom].
      - change (blocks eb []) with (@nil Z). cbn [length]. by rewrite Nat.add_0_r.
      - rewrite IH. change (blocks eb (a :: l1)) with (blockBytes eb a ++ blocks eb l1). by rewrite length_app, Nat.add_assoc. }
    rewrite Hsplit, entriesFrom_snoc. apply lookup_app_l_Some.
    rewrite <- (entriesFrom_length eb base pre). rewrite (list_lookup_middle _ [] _ _ eq_refl).
    do 2 f_equal. apply u64_small. unfold max_u64. lia.
Qed.

Definition readerOf : Reader := mkReader fileOf (Z.of_nat (length fileOf)) headerOf m es.

Lemma AccFor_dims i p g :
  AccFor src i p g →
  Index (meta p) = Z.of_nat i ∧ (0 ≤ InputTokens (meta p) ≤ max_u32)%Z ∧ (0 ≤ DecodeTokens (meta p) ≤ max_u32)%Z ∧
  numLayers p = length (SparseLayers src) ∧ Z.of_nat (numExperts p) = NumExperts src ∧ Z.of_nat (topK p) = TopK src ∧
  m_Prompts m !! i = Some (meta p).
Proof.
  intros (_ & (pm & Hi & Hs) & _). injection Hs as -> E1 E2 E3 _. destruct (vs_each _ Hsrc i pm Hi) as (H1 & H2 & H3).
  pose proof (vs_experts _ Hsrc). pose proof (vs_topk _ Hsrc). destruct (vs_layers _ Hsrc) as [Hl _].
  split_and!; try done; try lia. cbn [m metaOf m_Prompts]. rewrite list_lookup_fmap, Hi. by destruct pm.
Qed.

Lemma validatePrompt_ok i p pre post :
  accs = pre ++ p :: post → i = length pre →
  ∃ e, es !! i = Some e ∧ e_Offset e = Z.of_nat (base + length (blocks eb pre)) ∧
       e_Length e = Z.of_nat (length (blockBytes eb p)) ∧ validatePrompt readerOf i e = Ok tt.
Proof.
  intros Hp Hi. destruct (file_split i p pre post Hp Hi) as (a & b & Hf & Ha & Hle & (g & HA) & He).
  eexists. split; [exact He|]. pose proof fileOf_length as Hfl.
  assert (Hlen : u64 (Z.of_nat (length (blockBytes eb p))) = Z.of_nat (length (blockBytes eb p)))
    by (apply u64_small; unfold max_u64; lia).
  cbn [e_Offset e_Length entryOf]. rewrite Hlen, Ha. split; [done|]. split; [done|].
  destruct (AccFor_dims _ _ _ HA) as (D1 & D2 & D3 & D4 & D5 & D6 & D7). pose proof (AccFor_wf _ _ Hsrc Heb _ _ _ HA) as Hw.
  pose proof (vs_experts _ Hsrc). pose proof (vs_topk _ Hsrc). destruct (vs_layers _ Hsrc) as [Hl _].
  assert (Hni : (Z.of_nat i ≤ max_u32)%Z).
  { pose proof prompts_count. assert (i < length accs) by (rewrite Hp, Hi, length_app; simpl; lia). lia. }
  unfold validatePrompt, entryOf. cbn [e_Offset e_Length e_PromptID e_InputTokens e_DecodeTokens rd_fileSize rd_header rd_file rd_metadata readerOf].
  rewrite Hlen, validateRegion_ok by (unfold max_u64; lia). cbn [res_bind h_IndexOffset headerOf].
  rewrite (u64_small (_ + _)) by (unfold max_u64; lia). destruct (Z.ltb_spec (Z.of_nat ixoff) (Z.of_nat (base + length (blocks eb pre)) + Z.of_nat (length (blockBytes eb p)))); [lia|].
  rewrite Nat2Z.id, <- Ha, Hf. unfold blockBytes at 1. rewrite <- app_assoc.
  rewrite readAt_app by apply blockHeader_length.
  change (sub 0 4 (blockHeader eb p)) with (putUint 4 (u32 (Index (meta p)))).
  change (sub 4 8 (blockHeader eb p)) with (putUint 4 (u32 (InputTokens (meta p)))).
  change (sub 8 12 (blockHeader eb p)) with (putUint 4 (u32 (DecodeTokens (meta p)))).
  change (sub 12 16 (blockHeader eb p)) with (putUint 4 (u32 (Z.of_nat (numLayers p)))).
  change (sub 16 20 (blockHeader eb p)) with (putUint 4 (u32 (Z.of_nat (numExperts p)))).
  change (sub 20 24 (blockHeader eb p)) with (putUint 4 (u32 (Z.of_nat (topK p)))).
  change (sub 24 28 (blockHeader eb p)) with (putUint 4 (u32 eb)).
  rewrite !getUint_putUint by apply u32_byte4. pose proof eb_width.
  rewrite !u32_small by (unfold max_u32 in *; lia).
  cbn [m_SparseLayers m_NumExperts m_TopK m_ExpertIDBytes m_SourceGPUBytes m metaOf h_Version headerOf].
  fold m. rewrite D1, D4, D5, D6, !Z.eqb_refl. cbn [negb orb].
  rewrite promptBlockLength_exact by lia.
  pose proof (blockBytes_length eb p Hw) as HB. rewrite D4, D5, D6 in HB. rewrite <- HB.
  destruct (Z.leb_spec (Z.of_nat (length (blockBytes eb p))) max_u64) as [_|Hbad]; [|unfold max_u64 in Hbad; lia].
  cbn [res_bind]. rewrite Z.eqb_refl. cbn [negb]. rewrite D7, D1, !Z.eqb_refl. done.
Qed.

Lemma validatePrompts_ok pre post :
  accs = pre ++ post →
  validatePrompts readerOf (length pre) (Z.of_nat (base + length (blocks eb pre))) (drop (length pre) es) = Ok (Z.of_nat ixoff).
Proof.
  revert pre. induction post as [|p post IH]; intros pre Hp.
  - rewrite app_nil_r in Hp. rewrite <- Hp, drop_ge; [done|]. unfold es. by rewrite entriesFrom_length.
  - destruct (validatePrompt_ok _ p pre post Hp eq_refl) as (e & He & Ho & Hl & Hv).
    rewrite (drop_S _ _ _ He). cbn [validatePrompts]. rewrite Ho, Z.eqb_refl. cbn [negb].
    rewrite Hv. cbn [res_bind]. destruct (file_split _ p pre post Hp eq_refl) as (a & b & _ & _ & Hle & _).
    pose proof fileOf_length.
    rewrite Hl, u64_small by (unfold max_u64; lia). specialize (IH (pre ++ [p])).
    rewrite length_app, Nat.add_1_r, blocks_snoc, length_app in IH.
    rewrite <- Nat2Z.inj_add, <- Nat.add_assoc. apply IH. by rewrite <- app_assoc.
Qed.

Lemma entries_ok j e : es !! j = Some e → entryOk e ∧ e_PromptID e = u32 (Z.of_nat (0 + j)).
Proof.
  intros He. assert (Hj : j < length accs) by (apply lookup_lt_Some in He; unfold es in He; by rewrite entriesFrom_length in He).
  destruct (lookup_lt_is_Some_2 accs j Hj) as [p Hp]. pose proof (take_drop_middle _ _ _ Hp) as Hs. symmetry in Hs.
  assert (Hpre : j = length (take j accs)) by (rewrite length_take; lia).
  destruct (file_split j p _ _ Hs Hpre) as (a & b & Hf & Ha & Hle & (g & HA) & He'). rewrite He in He'. injection He' as ->.
  destruct (AccFor_dims _ _ _ HA) as (D1 & D2 & D3 & _). pose proof fileOf_length.
  split; [|unfold entryOf; cbn [e_PromptID]; by rewrite D1].
  constructor; cbn [e_PromptID e_InputTokens e_DecodeTokens e_Offset e_Length entryOf]; rewrite !Forall_cons;
    pose proof (u32_range (Index (meta p))); pose proof (u32_range (InputTokens (meta p)));
    pose proof (u32_range (DecodeTokens (meta p))); pose proof (u64_range (Z.of_nat (length (blockBytes eb p))));
    unfold max_u64 in *; split_and!; try lia; apply Forall_nil_2.
Qed.

Lemma Open_ok : unmarshal mb = Some m → Open unmarshal fileOf = Ok readerOf.
Proof.
  intros Hum. unfold Open. pose proof fileOf_length as Hfl. pose proof prompts_count as Hpc. pose proof index_length as Hil.
  assert (Hb : base = headerSize + length mb) by done. assert (Hbi : base ≤ ixoff) by (unfold ixoff; lia).
  destruct (Nat.ltb_spec (length fileOf) headerSize) as [|_]; [lia|].
  unfold fileOf at 1. rewrite header_roundtrip_gen by apply headerOf_ok. cbn [res_bind].
  cbn [h_MetadataOffset h_MetadataLength h_IndexOffset h_IndexLength h_NumPrompts h_DataOffset h_Version h_ExpertIDBytes headerOf].
  rewrite validateRegion_ok by (unfold max_u64; lia). cbn [res_bind].
  rewrite validateRegion_ok by (unfold max_u64; lia). cbn [res_bind].
  rewrite Z.eqb_refl. cbn [negb]. rewrite u64_small by (unfold max_u64; lia).
  rewrite <- Nat2Z.inj_add, <- Hb, Z.eqb_refl. cbn [negb].
  rewrite Hpc, <- Nat2Z.inj_mul, u64_small by (unfold max_u64; lia). rewrite Z.eqb_refl. cbn [negb].
  rewrite !Nat2Z.id. unfold fileOf at 1. rewrite <- header_len, readAt_app by done. rewrite Hum.
  change (m_FormatVersion m) with FormatVersion. change (m_NumPrompts m) with (NumPrompts src).
  change (m_ExpertIDBytes m) with eb. rewrite Hpc, !Z.eqb_refl. cbn [negb orb].
  change (normalizeSourceGPU headerOf m) with (@Ok traceError _ m). cbn [res_bind].
  assert (Hmp : length (m_Prompts m) = length accs) by (cbn [m metaOf m_Prompts]; by rewrite length_fmap).
  change (m_NumPrompts m) with (NumPrompts src). rewrite Hmp, Hpc, Z.eqb_refl. change (m_SparseLayers m) with (SparseLayers src).
  destruct (Nat.eqb_spec (length (SparseLayers src)) 0) as [Hz|_]; [destruct (vs_layers _ Hsrc); lia|]. cbn [negb orb].
  change (m_NumExperts m) with (NumExperts src). rewrite Heb. cbn [res_bind].
  change (m_ExpertIDBytes m) with eb. rewrite Z.eqb_refl. cbn [negb].
  assert (Hes : length accs = length es) by (unfold es; by rewrite entriesFrom_length).
  rewrite Hes, (readIndex_ok fileOf ixoff 0 (writeHeader headerOf ++ mb ++ blocks eb accs) es []).
  - cbn [res_bind]. change (mkReader fileOf (Z.of_nat (length fileOf)) _ m es) with readerOf.
    unfold Validate. cbn [rd_header readerOf h_IndexOffset h_DataOffset h_IndexLength headerOf rd_index rd_fileSize].
    destruct (Z.ltb_spec (Z.of_nat ixoff) (Z.of_nat base)); [lia|].
    pose proof (validatePrompts_ok [] accs eq_refl) as Hv. change (blocks eb []) with (@nil Z) in Hv.
    cbn [length] in Hv. rewrite Nat.add_0_r, drop_0 in Hv. rewrite Hv. cbn [res_bind]. rewrite Z.eqb_refl. cbn [negb].
    rewrite <- Nat2Z.inj_add, <- Hfl, u64_small by (unfold max_u64; lia). by rewrite Z.eqb_refl.
  - unfold fileOf. rewrite app_nil_r, <- !app_assoc. done.
  - rewrite !length_app, header_len. unfold ixoff. lia.
  - exact entries_ok.
Qed.

(** The data of a prompt as [ReadPrompt] returns it. *)
Definition dataOf (p : promptAccumulator) : PromptData :=
  mkPromptData (meta p) (inputTokenIDs p) (decodeTokenIDs p) (prefillCounts p) (prefillRoutes p) (decodeRoutes p) [] []
    (length (SparseLayers src)) (NumExperts src) (Z.to_nat (TopK src)) FormatVersion.

Lemma ReadPrompt_ok i p : accs !! i = Some p → ReadPrompt (Z.of_nat i) readerOf = Ok (dataOf p).
Proof.
  intros Hp. assert (Hi : i < length accs) by (by eapply lookup_lt_Some). unfold ReadPrompt.
  assert (Hes : length es = length accs) by apply entriesFrom_length.
  cbn [rd_index rd_metadata rd_file rd_header readerOf]. rewrite Hes.
  destruct (Z.ltb_spec (Z.of_nat i) 0); [lia|]. destruct (Z.leb_spec (Z.of_nat (length accs)) (Z.of_nat i)); [lia|].
  cbn [orb]. rewrite Nat2Z.id. pose proof (take_drop_middle _ _ _ Hp) as Hs. symmetry in Hs.
  assert (Hpre : i = length (take i accs)) by (rewrite length_take; lia).
  destruct (file_split i p _ _ Hs Hpre) as (a & b & Hf & Ha & Hle & (g & HA) & He).
  pose proof (AccFor_wf _ _ Hsrc Heb _ _ _ HA) as Hw. destruct (wfBlock_fits _ _ Hw) as [F1 F2].
  destruct (AccFor_dims _ _ _ HA) as (D1 & D2 & D3 & D4 & D5 & D6 & D7). rewrite He, D7. pose proof fileOf_length.
  pose proof (vs_experts _ Hsrc). pose proof (vs_topk _ Hsrc).
  destruct Hw as (Hd & _ & _). unfold entryOf. cbn [e_Offset e_Length e_InputTokens e_DecodeTokens].
  assert (Hbl : length (blockBytes eb p) = 32 + length (blockBody eb p))
    by (unfold blockBytes; by rewrite length_app, blockHeader_length).
  rewrite (u64_small (Z.of_nat (length (blockBytes eb p)))) by (unfold max_u64; lia).
  unfold promptBlockHeaderSize. rewrite !u64_small by (unfold max_u64; lia). rewrite !u32_small by lia.
  replace (Z.to_nat (Z.of_nat (length (blockBytes eb p)) - Z.of_nat 32)) with (length (blockBody eb p)) by lia.
  replace (Z.to_nat (Z.of_nat (length a) + Z.of_nat 32)) with (length (a ++ blockHeader eb p)) by (rewrite length_app, blockHeader_length; lia).
  assert (Hsec : take (length (blockBody eb p)) (drop (length (a ++ blockHeader eb p)) fileOf) = blockBody eb p).
  { rewrite Hf. unfold blockBytes. rewrite <- !app_assoc, app_assoc, drop_app_length, take_app_length. done. }
  rewrite Hsec. unfold blockBody.
  cbn [m_SparseLayers m_NumExperts m_TopK m_ExpertIDBytes m metaOf h_Version headerOf]. destruct Hd. unfold P_of, D_of in *.
  rewrite readUint32Slice_app by (done || apply do_in0). cbn [res_bind].
  rewrite readUint32Slice_app by (done || apply do_dec0). cbn [res_bind].
  rewrite readUint32Slice_app by (done || (rewrite do_counts0, D4; lia)). cbn [res_bind].
  rewrite readExpertSlice_app by (done || (rewrite do_proutes0, D4; lia)). cbn [res_bind].
  rewrite <- (app_nil_r (expertsEnc eb (decodeRoutes p))).
  rewrite readExpertSlice_app by (done || (rewrite do_droutes0, D4; lia)). cbn [res_bind].
  unfold readSourceGPUs. cbn. done.
Qed.

End ReadBack.

(** * The conversion as a whole *)

Lemma setField_ok {A} st (v : option A) f st' : setField st v f = Ok st' → fs_result st = None ∧ fs_result st' = None.
Proof. unfold setField. destruct (fs_result st); [done|]. destruct v; [|done]. by intros [= <-]. Qed.

Lemma convertField_ok marshal st f st' :
  convertField marshal st f = Ok st' →
  fs_result st' = fs_result st ∨
  ∃ a sw w0, f = fTrace a ∧ fs_result st = None ∧ fs_result st' = Some sw ∧ validateSourceMetadata (fs_meta st) = Ok tt ∧
    newTraceWriter marshal (fs_meta st) = Ok w0 ∧ convertTraceArray a w0 (fs_meta st) = Ok sw.
Proof.
  destruct f as [v|v|v|v|v|v|v|a|ok]; cbn [convertField];
    try (intros [H1 H2]%setField_ok; left; congruence).
  - destruct (fs_result st) eqn:Er; [done|]. destruct (validateSourceMetadata (fs_meta st)) as [[]|] eqn:Ev; [|done].
    cbn [res_bind]. destruct (newTraceWriter marshal (fs_meta st)) as [w0|] eqn:Ew; [|done]. cbn [res_bind].
    destruct (convertTraceArray a w0 (fs_meta st)) as [sw|] eqn:Ec; [|done]. intros [= <-]. right. by exists a, sw, w0.
  - destruct ok; [|done]. intros [= <-]. by left.
Qed.

Lemma convertFields_ok marshal st fs st' sw :
  convertFields marshal st fs = Ok st' → fs_result st = None → fs_result st' = Some sw →
  ∃ a src w0, fTrace a ∈ fs ∧ validateSourceMetadata src = Ok tt ∧ newTraceWriter marshal src = Ok w0 ∧
    convertTraceArray a w0 src = Ok sw.
Proof.
  assert (Hkeep : ∀ fs st st' sw, convertFields marshal st fs = Ok st' → fs_result st = Some sw → fs_result st' = Some sw).
  { clear. induction fs as [|f fs IH]; intros st st' sw; cbn [convertFields]; [by intros [= <-]|].
    destruct (convertField marshal st f) as [st1|] eqn:E; [|done]. cbn [res_bind]. intros H Hs.
    apply (IH _ _ _ H). destruct (convertField_ok _ _ _ _ E) as [->|(? & ? & ? & _ & ? & _)]; [done|congruence]. }
  revert st. induction fs as [|f fs IH]; intros st; cbn [convertFields]; [intros [= <-]; congruence|].
  destruct (convertField marshal st f) as [st1|] eqn:E; [|done]. cbn [res_bind]. intros H Hn Hs.
  destruct (convertField_ok _ _ _ _ E) as [Heq|(a & sw' & w0 & -> & _ & E1 & E2 & E3 & E4)].
  - destruct (IH st1 H) as (a & src & w0 & Hin & ?); [congruence|done|]. exists a, src, w0. split; [by right|done].
  - pose proof (Hkeep _ _ _ _ H E1) as Hk. rewrite Hs in Hk. injection Hk as ->.
    exists a, (fs_meta st), w0. split; [left|done].
Qed.

(** The prefill records of a prompt and layer that use an expert. *)
Definition usesExpert (pid layer e : Z) (r : sourceTraceRecord) : Prop :=
  r_Prompt r = pid ∧ isPrefill r ∧ r_Layer r = layer ∧ e ∈ r_Experts r.
#[export] Instance usesExpert_dec pid layer e r : Decision (usesExpert pid layer e r).
Proof. unfold usesExpert, isPrefill. apply _. Defined.

Lemma filter_none {A} (Q : A → Prop) `{!∀ x, Decision (Q x)} (l : list A) : (∀ x, x ∈ l → ¬ Q x) → filter Q l = [].
Proof.
  induction l as [|x l IH]; intros Hn; [done|]. rewrite filter_cons_False by (apply Hn; left).
  apply IH. intros. apply Hn. by right.
Qed.

Lemma filter_ext_in {A} (Q R : A → Prop) `{!∀ x, Decision (Q x), !∀ x, Decision (R x)} (l : list A) :
  (∀ x, x ∈ l → Q x ↔ R x) → filter Q l = filter R l.
Proof.
  induction l as [|x l IH]; intros Hn; [done|]. rewrite !filter_cons, IH by (intros; apply Hn; by right).
  specialize (Hn x ltac:(left)). repeat case_decide; naive_solver.
Qed.

(** Counting over the whole trace is counting within the prompt's group. *)
Lemma uses_group src accs groups i p g slot layer e :
  ValidSource src → Written src accs groups → accs !! i = Some p → groups !! i = Some g → AccFor src i p g →
  SparseLayers src !! slot = Some layer →
  length (filter (usesExpert (Z.of_nat i) layer (Z.of_nat e)) (concat groups)) = prefillUses p g slot e.
Proof.
  intros Hsrc [Hl HW] Hp Hg HA Hslot. pose proof (take_drop_middle _ _ _ Hg) as Hs.
  assert (Hother : ∀ j x r, j ≠ i → groups !! j = Some x → r ∈ x → r_Prompt r = Z.of_nat j).
  { intros j x r Hj Hx Hr. destruct (lookup_lt_is_Some_2 accs j) as [q Hq]; [rewrite Hl; by eapply lookup_lt_Some|].
    destruct (HW j q Hq) as (g' & Hg' & (_ & _ & HA') & _). rewrite Hx in Hg'. injection Hg' as <-. by apply HA'. }
  rewrite <- Hs, concat_app. cbn [concat]. rewrite !filter_app, !length_app.
  rewrite (filter_none _ (concat (take i groups))), (filter_none _ (concat (drop (S i) groups))).
  - simpl. rewrite Nat.add_0_r. unfold prefillUses. destruct HA as (_ & (pm & _ & Hsh) & Hr). injection Hsh as _ _ _ _ ->.
    f_equal. apply filter_ext_in. intros r Hin. unfold usesExpert, slots. rewrite (mkLayerSlots_lookup _ _ _ (vs_nodup _ Hsrc)).
    split.
    + intros (_ & ? & <- & ?). done.
    + intros (? & Hls & ?). rewrite Hslot in Hls. injection Hls as ->. auto.
  - intros r Hr (Hpid & _). apply list_elem_of_In, in_concat in Hr as (x & Hx%list_elem_of_In & Hr%list_elem_of_In).
    apply list_elem_of_lookup in Hx as [j Hj]. rewrite lookup_drop in Hj.
    rewrite (Hother (S i + j) x r) in Hpid by (done || lia). lia.
  - intros r Hr (Hpid & _). apply list_elem_of_In, in_concat in Hr as (x & Hx%list_elem_of_In & Hr%list_elem_of_In).
    apply list_elem_of_lookup in Hx as [j [Hj Hlt]%lookup_take_Some].
    rewrite (Hother j x r) in Hpid by (done || lia). lia.
Qed.

(** The accessors on a read prompt return the stored record. *)
Lemma dataOf_prefill src i p g r :
  ValidSource src → AccFor src i p g → r ∈ g → isPrefill r →
  ∃ slot, SparseLayers src !! slot = Some (r_Layer r) ∧
    PrefillExperts (Z.of_nat slot) (r_Position r) (dataOf src p) = Ok (r_Experts r) ∧
    pd_InputTokenIDs (dataOf src p) !! Z.to_nat (r_Position r) = Some (r_TokenID r).
Proof.
  intros Hsrc (HA & (pm & Hi & Hs) & _) Hr Hp. destruct (ao_prefill _ _ HA r Hr Hp) as (slot & pos & A1 & A2 & A3 & A4 & A5 & A6 & _).
  pose proof Hs as Hs'. injection Hs' as E0 E1 E2 E3 E4. rewrite E4 in A1. apply mkLayerSlots_lookup in A1; [|apply Hsrc].
  exists slot. split; [done|]. assert (Hsl : slot < length (SparseLayers src)) by (by eapply lookup_lt_Some).
  pose proof (ao_dims _ _ HA) as []. destruct do_in0 as [Hli _]. destruct (vs_layers _ Hsrc) as [Hnl _].
  unfold PrefillExperts, inRange, dataOf, sliceRoutes. cbn [pd_numLayers pd_InputTokenIDs pd_topK pd_PrefillRoutes].
  rewrite A2, Hli, !Nat2Z.id. split; [|done].
  destruct (Z.leb_spec 0 (Z.of_nat slot)), (Z.ltb_spec (Z.of_nat slot) (Z.of_nat (length (SparseLayers src)))); try lia.
  destruct (Z.leb_spec 0 (Z.of_nat pos)), (Z.ltb_spec (Z.of_nat pos) (Z.of_nat (P_of p))); try lia. cbn [andb].
  rewrite <- E3. destruct (Nat.leb_spec ((slot * P_of p + pos) * topK p + topK p) (length (prefillRoutes p))) as [_|Hbad].
  - by rewrite <- A5.
  - exfalso. rewrite do_proutes0, E1 in Hbad. assert (Hlt : slot * P_of p + pos < Z.to_nat (NumSparseLayers src) * P_of p) by nia. nia.
Qed.

Lemma dataOf_decode src i p g r :
  ValidSource src → AccFor src i p g → r ∈ g → isDecode r →
  ∃ slot, SparseLayers src !! slot = Some (r_Layer r) ∧
    DecodeExperts (r_Position r - InputTokens (meta p)) (Z.of_nat slot) (dataOf src p) = Ok (r_Experts r) ∧
    pd_DecodeTokenIDs (dataOf src p) !! Z.to_nat (r_Position r - InputTokens (meta p)) = Some (r_TokenID r).
Proof.
  intros Hsrc (HA & (pm & Hi & Hs) & _) Hr Hp. destruct (ao_decode _ _ HA r Hr Hp) as (slot & pos & A1 & A2 & A3 & A4 & A5 & A6 & _).
  pose proof Hs as Hs'. injection Hs' as E0 E1 E2 E3 E4. rewrite E4 in A1. apply mkLayerSlots_lookup in A1; [|apply Hsrc].
  exists slot. split; [done|]. assert (Hsl : slot < length (SparseLayers src)) by (by eapply lookup_lt_Some).
  pose proof (ao_dims _ _ HA) as []. destruct do_dec0 as [Hli _]. destruct (vs_layers _ Hsrc) as [Hnl _].
  assert (Hln : numLayers p = length (SparseLayers src)) by lia.
  unfold DecodeExperts, inRange, dataOf, sliceRoutes. cbn [pd_numLayers pd_DecodeTokenIDs pd_topK pd_DecodeRoutes].
  replace (r_Position r - InputTokens (meta p))%Z with (Z.of_nat pos) by lia. rewrite Hli, !Nat2Z.id. split; [|done].
  destruct (Z.leb_spec 0 (Z.of_nat slot)), (Z.ltb_spec (Z.of_nat slot) (Z.of_nat (length (SparseLayers src)))); try lia.
  destruct (Z.leb_spec 0 (Z.of_nat pos)), (Z.ltb_spec (Z.of_nat pos) (Z.of_nat (D_of p))); try lia. cbn [andb].
  rewrite <- E3, <- Hln. destruct (Nat.leb_spec ((pos * numLayers p + slot) * topK p + topK p) (length (decodeRoutes p))) as [_|Hbad].
  - by rewrite <- A5.
  - exfalso. rewrite do_droutes0 in Hbad. assert (Hlt : pos * numLayers p + slot < D_of p * numLayers p) by nia. nia.
Qed.

Lemma dataOf_count src accs groups i p g slot rec e :
  ValidSource src → Written src accs groups → accs !! i = Some p → groups !! i = Some g → AccFor src i p g →
  rec ∈ g → isPrefill rec → SparseLayers src !! slot = Some (r_Layer rec) → e ∈ r_Experts rec →
  PrefillExpertCount (Z.of_nat slot) e (dataOf src p) =
    Ok (Z.of_nat (length (filter (usesExpert (Z.of_nat i) (r_Layer rec) e) (concat groups)))).
Proof.
  intros Hsrc HG Hp Hg HA Hr Hpre Hslot He. pose proof HA as (HAcc & (pm & _ & Hs) & _).
  injection Hs as _ E1 E2 E3 E4. destruct (vs_layers _ Hsrc) as [Hnl _]. pose proof (vs_experts _ Hsrc).
  assert (Hsl : slot < length (SparseLayers src)) by (by eapply lookup_lt_Some).
  assert (Her : (0 ≤ e < NumExperts src)%Z).
  { destruct (ao_prefill _ _ HAcc rec Hr Hpre) as (sl & pos & _ & _ & _ & _ & A5 & _). rewrite <- A5 in He.
    pose proof (do_range_p _ (ao_dims _ _ HAcc)) as Hrange. rewrite Forall_forall in Hrange.
    unfold seg in He. apply list_elem_of_lookup in He as [j [He _]%lookup_take_Some].
    rewrite lookup_drop in He. apply list_elem_of_lookup_2, Hrange in He. simpl in He. lia. }
  pose proof (uses_group src accs groups i p g slot (r_Layer rec) (Z.to_nat e) Hsrc HG Hp Hg HA Hslot) as Hu.
  rewrite Z2Nat.id in Hu by lia. rewrite Hu.
  unfold PrefillExpertCount, inRange, dataOf. cbn [pd_numLayers pd_numExperts pd_PrefillCounts].
  destruct (Z.leb_spec 0 (Z.of_nat slot)), (Z.ltb_spec (Z.of_nat slot) (Z.of_nat (length (SparseLayers src)))); try lia.
  destruct (Z.leb_spec 0 e), (Z.ltb_spec e (NumExperts src)); try lia. cbn [andb].
  replace (Z.to_nat (Z.of_nat slot * NumExperts src + e)) with (slot * numExperts p + Z.to_nat e) by (rewrite E2; nia).
  rewrite (ao_count _ _ HAcc) by lia. done.
Qed.

Lemma summary_dims a w src summary w' :
  convertTraceArray a w src = Ok (summary, w') →
  a = mkArray true (ta_records a) true ∧ s_NumPrompts summary = NumPrompts src ∧ s_NumLayers summary = NumSparseLayers src.
Proof.
  unfold convertTraceArray. destruct a as [o rs c]. cbn [ta_open ta_records ta_close]. destruct o; [|done]. cbn [negb].
  destruct (convertRecords _ _ _ _) as [st|]; [|done]. cbn [res_bind]. destruct c; [|done]. cbn [negb].
  destruct (match cv_current st with Some _ => _ | None => _ end) as [wn|]; [|done]. cbn [res_bind].
  destruct (writeEmpty _ _ _ _ _ _) as [nw|]; [|done]. cbn [res_bind]. destruct (negb _); [done|]. by intros [= <- _].
Qed.

(** * Theorems *)

(** C20: a converted trace reads back.  Let the conversion of an input succeed, the
    file be shorter than 2^63 bytes, prompts and layers fit their 32-bit fields and
    the JSON codec invert itself.  Then the file opens, and every record of the
    input trace is found at its prompt, layer and position: the prompt can be read,
    the expert list and the token id are those of the record, and the prefill count
    of an expert is the number of records that use it. *)
Theorem converted_trace_reads_back marshal unmarshal fields sz hash file summary :
  Convert marshal fields sz hash = Ok (file, summary) →
  (∀ m, unmarshal (marshal m) = Some m) →
  (0 ≤ sz ≤ max_u64)%Z → length hash = 32 → (Z.of_nat (length file) < 2 ^ 63)%Z →
  (s_NumPrompts summary ≤ max_u32)%Z → (s_NumLayers summary ≤ max_u32)%Z →
  ∃ recs r, fTrace (mkArray true (Some <$> recs) true) ∈ fields ∧ Open unmarshal file = Ok r ∧
    ∀ rec, rec ∈ recs → ∃ pd slot,
      ReadPrompt (r_Prompt rec) r = Ok pd ∧ m_SparseLayers (rd_metadata r) !! slot = Some (r_Layer rec) ∧
      (isPrefill rec ∧ PrefillExperts (Z.of_nat slot) (r_Position rec) pd = Ok (r_Experts rec) ∧
         pd_InputTokenIDs pd !! Z.to_nat (r_Position rec) = Some (r_TokenID rec) ∧
         (∀ e, e ∈ r_Experts rec → PrefillExpertCount (Z.of_nat slot) e pd =
            Ok (Z.of_nat (length (filter (usesExpert (r_Prompt rec) (r_Layer rec) e) recs)))) ∨
       isDecode rec ∧ DecodeExperts (r_Position rec - InputTokens (pd_Metadata pd)) (Z.of_nat slot) pd = Ok (r_Experts rec) ∧
         pd_DecodeTokenIDs pd !! Z.to_nat (r_Position rec - InputTokens (pd_Metadata pd)) = Some (r_TokenID rec)).
Proof.
  intros Hconv Hcodec Hsz Hhash Hbig Hnp Hnl. unfold Convert in Hconv.
  destruct (convertFields _ _ _) as [st|] eqn:Ef; [|done]. cbn [res_bind] in Hconv.
  destruct (fs_result st) as [[sm w]|] eqn:Es; [|done]. destruct (finish sz hash w) as [f|] eqn:Efin; [|done].
  cbn [res_bind] in Hconv. injection Hconv as -> ->.
  destruct (convertFields_ok _ _ _ _ _ Ef eq_refl Es) as (a & src & w0 & Hin & Hv & Hw0 & Hc).
  pose proof (validateSource_ok _ Hv) as Hsrc. destruct (expertIDBytes (NumExperts src)) as [eb|] eqn:Heb;
    [|unfold newTraceWriter in Hw0; by rewrite Heb in Hw0].
  pose proof (WOk_new marshal src eb Heb w0 Hw0) as HW0.
  destruct (convertTraceArray_ok marshal src eb Hsrc Heb a w0 summary w HW0 Hc) as (recs & accs & groups & Hrecs & HW & HG & Hall & Hcat).
  destruct (summary_dims _ _ _ _ _ Hc) as (Ha & S1 & S2). rewrite S1 in Hnp. rewrite S2 in Hnl.
  pose proof (finish_length marshal src eb accs sz hash Hhash w file HW Efin) as Hlen. rewrite Hlen in Hbig.
  pose proof (finish_ok marshal src eb Hsrc Heb accs sz hash Hall Hhash Hbig Hnp w HW) as Hfo.
  rewrite Hfo in Efin. injection Efin as <-.
  exists recs, (readerOf marshal src eb accs sz hash). split; [by rewrite <- Hrecs, <- Ha|].
  split; [by apply (Open_ok marshal unmarshal src eb Hsrc Heb accs groups)|].
  intros rec Hrec. rewrite <- Hcat in Hrec.
  apply list_elem_of_In, in_concat in Hrec as (g & Hg%list_elem_of_In & Hrg%list_elem_of_In).
  apply list_elem_of_lookup in Hg as [i Hgi]. pose proof HG as [Hlg HGi].
  destruct (lookup_lt_is_Some_2 accs i) as [p Hp]; [rewrite Hlg; by eapply lookup_lt_Some|].
  destruct (HGi i p Hp) as (g' & Hg' & HA & _). rewrite Hgi in Hg'. injection Hg' as <-.
  pose proof HA as (HAcc & _ & Hpr). rewrite (Hpr rec Hrg).
  pose proof (ReadPrompt_ok marshal src eb Hsrc Heb accs groups sz hash HG Hall Hhash Hbig i p Hp) as Hread.
  exists (dataOf src p). destruct (ao_phase _ _ HAcc rec Hrg) as [Hph|Hph].
  - destruct (dataOf_prefill src i p g rec Hsrc HA Hrg Hph) as (slot & H1 & H2 & H3). exists slot.
    split; [done|]. split; [done|]. left. split; [done|]. split; [done|]. split; [done|].
    intros e He. rewrite <- Hcat. by apply (dataOf_count src accs groups i p g slot).
  - destruct (dataOf_decode src i p g rec Hsrc HA Hrg Hph) as (slot & H1 & H2 & H3). exists slot.
    split; [done|]. split; [done|]. right. done.
Qed.

(** A small input: one sparse layer, four experts, top-2; two prompts, the second empty. *)
Definition exPrompts : list PromptMetadata :=
  [mkPromptMetadata 0 "p" 1 1 "t"; mkPromptMetadata 1 "q" 0 0 ""].
Definition exRecords : list sourceTraceRecord :=
  [mkRecord 0 "prefill" 0 7 3 [2; 1]%Z []; mkRecord 0 "decode" 1 9 3 [0; 3]%Z []].
Definition exFields : list topField :=
  [fModel (Some "m"%string); fNumExperts (Some 4%Z); fTopK (Some 2%Z); fSparseLayers (Some [3%Z]); fNumSparseLayers (Some 1%Z);
   fNumPrompts (Some 2%Z); fPrompts (Some exPrompts); fOther true; fTrace (mkArray true (Some <$> exRecords) true)].

(** A codec for the example, from an injection of the metadata into the numbers. *)
Definition promptTuple (p : PromptMetadata) := (Index p, Prompt p, InputTokens p, DecodeTokens p, GeneratedText p).
Definition metaTuple (m : Metadata) :=
  (m_FormatVersion m, m_Model m, m_NumExperts m, m_TopK m, m_SparseLayers m, m_NumPrompts m, m_ExpertIDBytes m,
   m_SourceGPUBytes m, promptTuple <$> m_Prompts m).
Definition tupleMeta t : Metadata :=
  let '(a, b, c, d, e, f, g, h, ps) := t in
  mkMetadata a b c d e f g h ((λ '(x, y, z, u, v), mkPromptMetadata x y z u v) <$> ps).
Definition exMarshal (m : Metadata) : bytes := [Zpos (encode (metaTuple m))].
Definition exUnmarshal (b : bytes) : option Metadata :=
  match b with
  | [Zpos p] => tupleMeta <$> decode p
  | _ => None
  end.

Lemma exCodec m : exUnmarshal (exMarshal m) = Some m.
Proof.
  unfold exMarshal, exUnmarshal. rewrite decode_encode. simpl. f_equal. destruct m. unfold tupleMeta, metaTuple. simpl.
  f_equal. rewrite <- list_fmap_compose. rewrite <- (list_fmap_id m_Prompts0) at 2. apply list_fmap_ext. by intros ? [].
Qed.

Definition exHash : bytes := replicate 32 6%Z.
Definition exOut : bytes * ConversionSummary := Eval vm_compute in
  match Convert exMarshal exFields 9 exHash with Ok x => x | Err _ => ([], mkSummary "" 0 0 0 0 0 0 0) end.

Lemma converted_trace_reads_back_witness :
  s_TraceRecords (snd exOut) = 2%Z ∧ ∃ recs, recs ≠ [] ∧ fTrace (mkArray true (Some <$> recs) true) ∈ exFields.
Proof.
  split; [done|].
  destruct (converted_trace_reads_back exMarshal exUnmarshal exFields 9 exHash (fst exOut) (snd exOut)) as (recs & r & Hin & _).
  - vm_compute. reflexivity.
  - exact exCodec.
  - vm_compute. split; discriminate.
  - reflexivity.
  - vm_compute. reflexivity.
  - vm_compute. discriminate.
  - vm_compute. discriminate.
  - exists recs. split; [|done]. intros ->. revert Hin. unfold exFields. rewrite !elem_of_cons. intros Hin.
    repeat (destruct Hin as [Hin|Hin]; [discriminate Hin|]). by apply not_elem_of_nil in Hin.
Defined.

End TraceProps.
