(* ===== verification/TraceReader.v ===== *)
(** Safety of [pkg/moetrace/reader.go] on arbitrary files: whatever [Open]
    accepts, [ReadPrompt] reads without running out of data, and the accessors
    never index out of range. *)

From S2P Require Import Prelude GoFloat TraceFormat TraceAccumulator TraceFile TraceProps.
Import TraceFormat TraceAccumulator TraceFile.
Open Scope Z_scope.

Module TraceReader.

(** * What [Open] establishes *)

Lemma checkedMul_exact a b c : 0 ≤ a → 0 ≤ b → checkedMul a b = Ok c → c = a * b ∧ c ≤ max_u64.
Proof. intros Ha Hb. rewrite checkedMul_spec by done. destruct (Z.leb_spec (a * b) max_u64); [|done]. intros <-%Ok_inj. lia. Qed.

Lemma checkedAdd_exact a b c : 0 ≤ a ≤ max_u64 → 0 ≤ b → checkedAdd a b = Ok c → c = a + b ∧ c ≤ max_u64.
Proof. intros Ha Hb. rewrite checkedAdd_spec by done. destruct (Z.leb_spec (a + b) max_u64); [|done]. intros <-%Ok_inj. lia. Qed.

Lemma checkedSum_exact ns t c :
  0 ≤ t ≤ max_u64 → Forall (λ n, 0 ≤ n) ns → checkedSum t ns = Ok c → c = foldl Z.add t ns ∧ t ≤ c ≤ max_u64.
Proof.
  revert t. induction ns as [|n ns IH]; intros t Ht Hn; cbn [checkedSum foldl].
  - intros <-%Ok_inj. lia.
  - apply Forall_cons in Hn as [Hn Hns]. destruct (checkedAdd t n) as [t'|] eqn:E; [|done]. cbn [res_bind]. intros H.
    apply checkedAdd_exact in E as [-> Hle]; [|done|done]. destruct (IH (t + n)) as [-> ?]; [lia|done|done|]. lia.
Qed.

(** An accepted length is the exact size of the block. *)
Lemma blockLength_exact i d l e k b version s n :
  0 ≤ i → 0 ≤ d → 0 ≤ l → 0 ≤ e → 0 ≤ k → 0 ≤ b → 0 ≤ s →
  promptBlockLengthForVersion i d l e k b version s = Ok n → n = blockSize i d l e k b version s.
Proof.
  intros Hi Hd Hl He Hk Hb Hs H. unfold promptBlockLengthForVersion in H. unfold blockSize.
  destruct (checkedMul i 4) as [ib|] eqn:E1; [|done]. apply checkedMul_exact in E1 as [-> M1]; [|lia..]. cbn [res_bind] in H.
  destruct (checkedMul d 4) as [db|] eqn:E2; [|done]. apply checkedMul_exact in E2 as [-> M2]; [|lia..]. cbn [res_bind] in H.
  destruct (checkedMul l e) as [ce|] eqn:E3; [|done]. apply checkedMul_exact in E3 as [-> M3]; [|lia..]. cbn [res_bind] in H.
  assert (P1 : 0 ≤ l * e) by nia.
  destruct (checkedMul (l * e) 4) as [cb|] eqn:E4; [|done]. apply checkedMul_exact in E4 as [-> M4]; [|lia..]. cbn [res_bind] in H.
  destruct (checkedAdd i d) as [a|] eqn:E5; [|done]. apply checkedAdd_exact in E5 as [-> M5]; [|lia..]. cbn [res_bind] in H.
  destruct (checkedMul (i + d) l) as [r1|] eqn:E6; [|done]. apply checkedMul_exact in E6 as [-> M6]; [|lia..]. cbn [res_bind] in H.
  assert (P2 : 0 ≤ (i + d) * l) by nia.
  destruct (checkedMul ((i + d) * l) k) as [r2|] eqn:E7; [|done]. apply checkedMul_exact in E7 as [-> M7]; [|lia..]. cbn [res_bind] in H.
  assert (P3 : 0 ≤ (i + d) * l * k) by nia.
  destruct (checkedMul ((i + d) * l * k) b) as [rb|] eqn:E8; [|done]. apply checkedMul_exact in E8 as [-> M8]; [|lia..]. cbn [res_bind] in H.
  assert (P4 : 0 ≤ (i + d) * l * k * b) by nia.
  destruct (checkedSum _ _) as [t|] eqn:E9; [|done]. cbn [res_bind] in H.
  apply checkedSum_exact in E9 as [-> M9]; [|unfold promptBlockHeaderSize, max_u64; lia|repeat (apply Forall_cons; split; [lia|]); apply Forall_nil_2].
  cbn [foldl] in *. change (Z.of_nat promptBlockHeaderSize) with 32 in *.
  destruct (2 <=? version).
  - destruct (checkedMul ((i + d) * l) s) as [sb|] eqn:E10; [|done]. apply checkedMul_exact in E10 as [-> M10]; [|lia..]. cbn [res_bind] in H.
    apply checkedAdd_exact in H as [-> _]; [lia|lia|nia].
  - apply Ok_inj in H. lia.
Qed.

(** ** Reads *)

Lemma readFull_ok n sec : (n ≤ length sec)%nat → readFull n sec = Some (take n sec, drop n sec).
Proof. intros H. unfold readFull. by destruct (Nat.leb_spec n (length sec)); [|lia]. Qed.

Lemma decodeUints_length w n b : length (decodeUints w n b) = n.
Proof. revert b. induction n; intros b; simpl; auto. Qed.

Lemma readUint32Slice_len p n sec :
  (n * 4 ≤ length sec)%nat → ∃ vs, readUint32Slice p n sec = Ok (vs, drop (n * 4) sec) ∧ length vs = n.
Proof. intros H. unfold readUint32Slice. rewrite readFull_ok by done. eexists. split; [done|]. apply decodeUints_length. Qed.

Lemma readExpertSlice_len p n b sec :
  b = 1 ∨ b = 2 → (n * Z.to_nat b ≤ length sec)%nat →
  ∃ vs, readExpertSlice p n b sec = Ok (vs, drop (n * Z.to_nat b) sec) ∧ length vs = n.
Proof.
  intros Hb H. unfold readExpertSlice. destruct Hb as [-> | ->]; simpl in *.
  - rewrite readFull_ok by lia. rewrite Nat.mul_1_r in *. eexists. split; [done|]. rewrite length_take. lia.
  - rewrite readFull_ok by lia. eexists. split; [done|]. apply decodeUints_length.
Qed.

Lemma validateSourceGPUs_err vs e : validateSourceGPUs vs = Err e → ∃ v, e = ErrSourceGPU v.
Proof.
  induction vs as [|v vs IH]; simpl; [done|]. destruct (v =? unknownSourceGPU); [done|].
  destruct (maxSourceGPU <? v); [|done]. intros [= <-]. eauto.
Qed.

(** The source GPU arrays end the block: they are read, or hold an invalid GPU. *)
Lemma readSourceGPUs_len version p n1 n2 sec :
  length sec = (if 2 <=? version then (n1 + n2)%nat else 0%nat) →
  match readSourceGPUs version p n1 n2 sec with
  | Ok (a, b, rest) => rest = [] ∧ length a = (if 2 <=? version then n1 else 0%nat) ∧
                       length b = (if 2 <=? version then n2 else 0%nat)
  | Err e => 2 ≤ version ∧ ∃ v, e = ErrSourceGPU v
  end.
Proof.
  intros H. unfold readSourceGPUs. destruct (Z.leb_spec 2 version).
  - rewrite readFull_ok by lia. rewrite readFull_ok by (rewrite length_drop; lia).
    destruct (validateSourceGPUs (take n1 sec)) as [[]|e] eqn:E1; cbn [res_bind]; [|by apply validateSourceGPUs_err in E1].
    destruct (validateSourceGPUs (take n2 _)) as [[]|e] eqn:E2; cbn [res_bind]; [|by apply validateSourceGPUs_err in E2].
    rewrite !length_take, !length_drop. split; [|lia]. apply nil_length_inv. rewrite !length_drop. lia.
  - apply nil_length_inv in H. by subst.
Qed.

(** * Opened files *)

(** The facts [Open] checked for prompt [i]. *)
Record promptOk (r : Reader) (i : nat) (e : indexEntry) (pm : PromptMetadata) : Prop := mkPromptOk {
  po_entry : rd_index r !! i = Some e;
  po_meta : m_Prompts (rd_metadata r) !! i = Some pm;
  po_dims : 0 ≤ e_InputTokens e ∧ 0 ≤ e_DecodeTokens e ∧ 0 ≤ m_NumExperts (rd_metadata r) ∧ 0 ≤ m_TopK (rd_metadata r);
  po_bytes : m_ExpertIDBytes (rd_metadata r) = 1 ∨ m_ExpertIDBytes (rd_metadata r) = 2;
  po_tokens : InputTokens pm = e_InputTokens e ∧ DecodeTokens pm = e_DecodeTokens e;
  po_region : 0 ≤ e_Offset e ∧ e_Offset e + e_Length e ≤ Z.of_nat (length (rd_file r)) ∧ Z.of_nat (length (rd_file r)) < 2 ^ 63;
  po_length : e_Length e = blockSize (e_InputTokens e) (e_DecodeTokens e) (Z.of_nat (length (m_SparseLayers (rd_metadata r))))
    (m_NumExperts (rd_metadata r)) (m_TopK (rd_metadata r)) (m_ExpertIDBytes (rd_metadata r))
    (h_Version (rd_header r)) (if 2 <=? h_Version (rd_header r) then 1 else 0) }.

(** The shape of the data of a prompt: every array has the length its accessors assume. *)
Record dataOk (r : Reader) (e : indexEntry) (pm : PromptMetadata) (pd : PromptData) : Prop := mkDataOk {
  dk_meta : pd_Metadata pd = pm;
  dk_layers : pd_numLayers pd = length (m_SparseLayers (rd_metadata r));
  dk_experts : pd_numExperts pd = m_NumExperts (rd_metadata r);
  dk_topk : pd_topK pd = Z.to_nat (m_TopK (rd_metadata r));
  dk_version : pd_formatVersion pd = h_Version (rd_header r);
  dk_in : length (pd_InputTokenIDs pd) = Z.to_nat (e_InputTokens e);
  dk_dec : length (pd_DecodeTokenIDs pd) = Z.to_nat (e_DecodeTokens e);
  dk_counts : length (pd_PrefillCounts pd) = (pd_numLayers pd * Z.to_nat (pd_numExperts pd))%nat;
  dk_proutes : length (pd_PrefillRoutes pd) = (pd_numLayers pd * length (pd_InputTokenIDs pd) * pd_topK pd)%nat;
  dk_droutes : length (pd_DecodeRoutes pd) = (length (pd_DecodeTokenIDs pd) * pd_numLayers pd * pd_topK pd)%nat;
  dk_pgpus : 2 ≤ h_Version (rd_header r) → length (pd_PrefillSourceGPUs pd) = (pd_numLayers pd * length (pd_InputTokenIDs pd))%nat;
  dk_dgpus : 2 ≤ h_Version (rd_header r) → length (pd_DecodeSourceGPUs pd) = (length (pd_DecodeTokenIDs pd) * pd_numLayers pd)%nat }.

Lemma blockSize_min i d l e k b version s :
  0 ≤ i → 0 ≤ d → 0 ≤ l → 0 ≤ e → 0 ≤ k → 0 ≤ b → 32 ≤ blockSize i d l e k b version (if 2 <=? version then s else 0) ∨ s < 0.
Proof.
  intros. destruct (Z.ltb_spec s 0); [by right|left]. unfold blockSize.
  assert (0 ≤ l * e) by nia. assert (0 ≤ (i + d) * l) by nia. assert (0 ≤ (i + d) * l * k) by nia.
  assert (0 ≤ (i + d) * l * k * b) by nia. destruct (2 <=? version); nia.
Qed.

Lemma ReadPrompt_total r i e pm :
  promptOk r i e pm →
  match ReadPrompt (Z.of_nat i) r with
  | Ok pd => dataOk r e pm pd
  | Err err => 2 ≤ h_Version (rd_header r) ∧ ∃ v, err = ErrSourceGPU v
  end.
Proof.
  intros [He Hm (D1 & D2 & D3 & D4) Hb Ht (R1 & R2 & R3) Hlen]. unfold ReadPrompt.
  assert (Hi : (i < length (rd_index r))%nat) by (by eapply lookup_lt_Some).
  destruct (Z.ltb_spec (Z.of_nat i) 0); [lia|]. destruct (Z.leb_spec (Z.of_nat (length (rd_index r))) (Z.of_nat i)); [lia|].
  cbn [orb]. rewrite Nat2Z.id, He, Hm. change (Z.of_nat promptBlockHeaderSize) with 32.
  set (m := rd_metadata r) in *. set (L := length (m_SparseLayers m)) in *. set (v := h_Version (rd_header r)) in *.
  set (I := Z.to_nat (e_InputTokens e)). set (D := Z.to_nat (e_DecodeTokens e)).
  set (K := Z.to_nat (m_TopK m)). set (E := Z.to_nat (m_NumExperts m)). set (b := Z.to_nat (m_ExpertIDBytes m)).
  set (sec := take _ _).
  assert (Hsec : length sec = (I * 4 + (D * 4 + (L * E * 4 + (L * I * K * b + (D * L * K * b + if (2 <=? v)%Z then L * I + D * L else 0)))))%nat).
  { assert (Hle : 32 ≤ e_Length e) by (rewrite Hlen; destruct (blockSize_min (e_InputTokens e) (e_DecodeTokens e)
      (Z.of_nat L) (m_NumExperts m) (m_TopK m) (m_ExpertIDBytes m) v 1) as [Hx|]; try lia; exact Hx).
    unfold sec. rewrite length_take, length_drop. rewrite !u64_small by (unfold max_u64; lia).
    apply Nat2Z.inj. rewrite Nat2Z.inj_min, Nat2Z.inj_sub, !Z2Nat.id by lia. rewrite Z.min_l by lia. rewrite Hlen. unfold blockSize.
    assert (0 ≤ m_ExpertIDBytes m) by lia. unfold I, D, K, E, b.
    destruct (2 <=? v); rewrite ?Nat2Z.inj_add, ?Nat2Z.inj_mul, ?Z2Nat.id by lia; change (Z.of_nat 4) with 4; ring. }
  clearbody sec.
  destruct (readUint32Slice_len (Z.of_nat i) I sec) as (v1 & -> & L1); [lia|]. cbn [res_bind].
  destruct (readUint32Slice_len (Z.of_nat i) D (drop (I * 4) sec)) as (v2 & -> & L2); [rewrite length_drop; lia|]. cbn [res_bind].
  rewrite drop_drop.
  destruct (readUint32Slice_len (Z.of_nat i) (L * E) (drop (I * 4 + D * 4) sec)) as (v3 & -> & L3); [rewrite length_drop; lia|]. cbn [res_bind].
  rewrite drop_drop.
  destruct (readExpertSlice_len (Z.of_nat i) (L * I * K) (m_ExpertIDBytes m) (drop (I * 4 + D * 4 + L * E * 4) sec)) as (v4 & -> & L4);
    [done|fold b; rewrite length_drop; lia|]. cbn [res_bind]. fold b. rewrite drop_drop.
  destruct (readExpertSlice_len (Z.of_nat i) (D * L * K) (m_ExpertIDBytes m) (drop (I * 4 + D * 4 + L * E * 4 + L * I * K * b) sec)) as (v5 & -> & L5);
    [done|fold b; rewrite length_drop; lia|]. cbn [res_bind]. fold b. rewrite drop_drop.
  pose proof (readSourceGPUs_len v (Z.of_nat i) (L * I) (D * L) (drop (I * 4 + D * 4 + L * E * 4 + L * I * K * b + D * L * K * b) sec)) as Hg.
  destruct (readSourceGPUs _ _ _ _ _) as [[[ga gb] rest]|err]; cbn [res_bind].
  - destruct Hg as (-> & G1 & G2); [rewrite length_drop; lia|]. cbn [length Nat.eqb negb].
    constructor; cbn [pd_Metadata pd_numLayers pd_numExperts pd_topK pd_formatVersion pd_InputTokenIDs pd_DecodeTokenIDs
      pd_PrefillCounts pd_PrefillRoutes pd_DecodeRoutes pd_PrefillSourceGPUs pd_DecodeSourceGPUs]; fold m; try done; try congruence.
    + intros H2. rewrite L1, G1. destruct (Z.leb_spec 2 v); [done|lia].
    + intros H2. rewrite L2, G2. destruct (Z.leb_spec 2 v); [done|lia].
  - apply Hg. rewrite length_drop. lia.
Qed.

(** ** From [Open] *)

Lemma readIndex_nth file base i n es :
  readIndex file base i n = Ok es → length es = n ∧
  ∀ j e, es !! j = Some e → ∃ b, readAt (base + (i + j) * indexEntrySize) indexEntrySize file = Some b ∧
    e_InputTokens e = getUint (sub 24 28 b) ∧ e_DecodeTokens e = getUint (sub 28 32 b) ∧ e_Offset e = getUint (sub 8 16 b) ∧
    e_Length e = getUint (sub 16 24 b).
Proof.
  revert i es. induction n as [|n IH]; intros i es; cbn [readIndex].
  - intros <-%Ok_inj. split; [done|]. intros j e Hj. done.
  - unfold readIndexEntry. destruct (readAt _ _ _) as [b|] eqn:Eb; [|done].
    destruct (negb _); [done|]. destruct (readIndex file base (S i) n) as [rest|] eqn:Er; [|done]. cbn [res_bind].
    intros <-%Ok_inj. destruct (IH _ _ Er) as [Hl Hn]. split; [simpl; lia|]. intros [|j] e Hj.
    + injection Hj as <-. exists b. rewrite Nat.add_0_r. done.
    + destruct (Hn j e Hj) as (b' & Hb & ?). exists b'. rewrite Nat.add_succ_r. done.
Qed.

Lemma validatePrompts_nth r i off es z :
  validatePrompts r i off es = Ok z → ∀ j e, es !! j = Some e → validatePrompt r (i + j) e = Ok tt.
Proof.
  revert i off. induction es as [|e0 es IH]; intros i off H j e Hj; [done|]. cbn [validatePrompts] in H.
  destruct (negb _); [done|]. destruct (validatePrompt r i e0) as [[]|] eqn:Ev; [|done]. cbn [res_bind] in H.
  destruct j as [|j]; [injection Hj as <-; by rewrite Nat.add_0_r|]. rewrite Nat.add_succ_r. by apply (IH (S i) _ H).
Qed.

Lemma validateRegion_inv off len size name :
  0 ≤ off → 0 ≤ len → 0 ≤ size ≤ max_u64 → validateRegion off len size name = Ok tt → off + len ≤ size.
Proof.
  intros Ho Hl Hs. unfold validateRegion. destruct (Z.ltb_spec size off); [done|]. rewrite u64_small by lia. simpl.
  destruct (Z.ltb_spec (size - off) len); [done|]. lia.
Qed.

Lemma readAt_bytes off n file b : Forall byte_ok file → readAt off n file = Some b → Forall byte_ok b.
Proof. intros Hf. unfold readAt. destruct (_ <=? _)%nat; [|done]. intros [= <-]. by apply Forall_take, Forall_drop. Qed.

Lemma getUint_sub_nonneg lo hi b : Forall byte_ok b → 0 ≤ getUint (sub lo hi b).
Proof. intros Hb. apply getUint_bound. by apply sub_bytes. Qed.

(** The checks of [validatePrompt] on a well-formed entry. *)
Lemma validatePrompt_inv r i e :
  Forall byte_ok (rd_file r) → Z.of_nat (length (rd_file r)) < 2 ^ 63 → rd_fileSize r = Z.of_nat (length (rd_file r)) →
  rd_index r !! i = Some e → 0 ≤ e_Offset e → 0 ≤ e_Length e → 0 ≤ e_InputTokens e → 0 ≤ e_DecodeTokens e →
  (m_ExpertIDBytes (rd_metadata r) = 1 ∨ m_ExpertIDBytes (rd_metadata r) = 2) →
  m_SourceGPUBytes (rd_metadata r) = (if 2 <=? h_Version (rd_header r) then 1 else 0) →
  validatePrompt r i e = Ok tt → ∃ pm, promptOk r i e pm.
Proof.
  intros Hby Hbig Hsize Hidx Ho Hl Hi Hd Hb Hs Hv. unfold validatePrompt in Hv. rewrite Hsize in Hv.
  destruct (validateRegion _ _ _ _) as [[]|] eqn:Er; [|done]. cbn [res_bind] in Hv.
  apply validateRegion_inv in Er; [|lia|lia|unfold max_u64; lia].
  destruct (_ <? _) in Hv; [done|]. destruct (readAt _ _ _) as [hd|] eqn:Ea; [|done]. apply readAt_bytes in Ea; [|done].
  destruct (negb (_ =? u32 _) || _ || _) eqn:E1 in Hv; [done|]. destruct (negb _ || _ || _ || _) eqn:E2 in Hv; [done|].
  destruct (promptBlockLengthForVersion _ _ _ _ _ _ _ _) as [n|] eqn:E3; [|done]. cbn [res_bind] in Hv.
  destruct (negb (_ =? n)) eqn:E4; [done|]. destruct (m_Prompts (rd_metadata r) !! i) as [pm|] eqn:E5; [|done].
  destruct (negb _ || _ || _) eqn:E6 in Hv; [done|]. clear Hv. rewrite !orb_false_iff, !negb_false_iff, !Z.eqb_eq in *.
  destruct E1 as [[_ I1] I2], E2 as [[[J1 J2] J3] J4], E6 as [[_ K1] K2].
  exists pm. rewrite I1, I2, J1, J2, J3, J4, Hs in E3.
  apply blockLength_exact in E3; try lia.
  2,3: rewrite <- ?J2, <- ?J3; by apply getUint_sub_nonneg.
  2: destruct (2 <=? _); lia.
  constructor; try done.
  - rewrite <- J2, <- J3. split_and!; try done; by apply getUint_sub_nonneg.
  - split; congruence.
  - congruence.
Qed.

Lemma readHeader_inv file h :
  readHeader file = Ok h → (h_Version h = 1 ∨ h_Version h = 2) ∧ (h_ExpertIDBytes h = 1 ∨ h_ExpertIDBytes h = 2).
Proof.
  unfold readHeader. destruct (readAt _ _ _) as [b|]; [|done]. do 3 (destruct (negb _); [done|]).
  set (h0 := mkFileHeader _ _ _ _ _ _ _ _ _ _). destruct (_ || _) eqn:E1; [done|]. destruct (_ && _) eqn:E2; [done|].
  intros <-%Ok_inj. unfold FormatVersion, maxSupportedFormatVersion in E1. split; lia.
Qed.

Lemma Open_version unmarshal file r : Open unmarshal file = Ok r → h_Version (rd_header r) = 1 ∨ h_Version (rd_header r) = 2.
Proof.
  intros Ho. unfold Open in Ho. destruct (_ <? _)%nat; [done|].
  destruct (readHeader file) as [h|] eqn:Eh; [|done]. apply readHeader_inv in Eh as [Hv _].
  inv_ok Ho. apply Ok_inj in Ho. by subst r.
Qed.

Lemma Open_inv unmarshal file r :
  Open unmarshal file = Ok r →
  rd_file r = file ∧ rd_fileSize r = Z.of_nat (length file) ∧
  (m_ExpertIDBytes (rd_metadata r) = 1 ∨ m_ExpertIDBytes (rd_metadata r) = 2) ∧
  m_SourceGPUBytes (rd_metadata r) = (if 2 <=? h_Version (rd_header r) then 1 else 0) ∧
  m_NumPrompts (rd_metadata r) = Z.of_nat (length (rd_index r)) ∧
  readIndex file (Z.to_nat (h_IndexOffset (rd_header r))) 0 (length (rd_index r)) = Ok (rd_index r) ∧
  Validate r = Ok tt.
Proof.
  intros Ho. unfold Open in Ho. destruct (_ <? _)%nat; [done|].
  destruct (readHeader file) as [h|] eqn:Eh; [|done]. apply readHeader_inv in Eh as [Hv Hw]. cbn [res_bind] in Ho.
  inv_ok Ho. apply Ok_inj in Ho. subst r.
  cbn [rd_file rd_fileSize rd_metadata rd_header rd_index] in *. rename a1 into m', a3 into ix.
  assert (Hm : m_NumPrompts m' = m_NumPrompts m ∧ m_ExpertIDBytes m' = m_ExpertIDBytes m ∧
               m_SourceGPUBytes m' = if 2 <=? h_Version h then 1 else 0).
  { unfold normalizeSourceGPU, FormatVersion, sourceGPUBytes in E7. destruct Hv as [Hv|Hv]; rewrite Hv in *; simpl in E7.
    - apply Ok_inj in E7. by subst m'.
    - destruct (Z.eqb_spec (m_SourceGPUBytes m) 1); [|done]. apply Ok_inj in E7. by subst m'. }
  destruct Hm as (N1 & N2 & N3). destruct (readIndex_nth _ _ _ _ _ E11) as [Hl _]. rewrite Hl.
  rewrite !orb_false_iff, !negb_false_iff, !Z.eqb_eq in E6. destruct E6 as [[_ M2] M3].
  apply orb_false_iff in E8 as [E8 _]. rewrite negb_false_iff, Z.eqb_eq in E8.
  split_and!; try done; [rewrite N2, M3; done|lia|]. by destruct a4.
Qed.

Lemma Open_prompt unmarshal file r i e :
  Forall byte_ok file → Z.of_nat (length file) < 2 ^ 63 → Open unmarshal file = Ok r →
  rd_index r !! i = Some e → ∃ pm, promptOk r i e pm.
Proof.
  intros Hby Hbig Ho He. destruct (Open_inv _ _ _ Ho) as (F1 & F2 & F3 & F4 & F5 & F6 & F7).
  destruct (readIndex_nth _ _ _ _ _ F6) as [_ Hn]. destruct (Hn i e He) as (b & Hb & I1 & I2 & I3 & I4).
  apply readAt_bytes in Hb; [|done]. unfold Validate in F7. destruct (_ <? _) in F7; [done|].
  destruct (validatePrompts r 0 _ _) as [z|] eqn:Ev; [|done].
  apply validatePrompt_inv; rewrite ?F1, ?F2, ?I1, ?I2, ?I3, ?I4; try done; try (by apply getUint_sub_nonneg).
  apply (validatePrompts_nth _ _ _ _ _ Ev i e He).
Qed.

(** * Accessors *)

Lemma sliceRoutes_ok base k routes : (base + k ≤ length routes)%nat → ∃ es, sliceRoutes base k routes = Ok es ∧ length es = k.
Proof.
  intros H. unfold sliceRoutes. destruct (Nat.leb_spec (base + k) (length routes)); [|lia].
  eexists. split; [done|]. rewrite length_take, length_drop. lia.
Qed.

(** No accessor panics: within range it returns a value, out of range the access error. *)
Definition noPanic {A} (x : res A) : Prop := match x with Err ErrPanic => False | _ => True end.

Lemma accessors_ok r e pm pd :
  dataOk r e pm pd → 0 ≤ m_NumExperts (rd_metadata r) → ∀ x y,
  noPanic (PrefillExperts x y pd) ∧ noPanic (DecodeExperts x y pd) ∧ noPanic (PrefillExpertCount x y pd) ∧
  noPanic (PrefillSourceGPU x y pd) ∧ noPanic (DecodeSourceGPU x y pd).
Proof.
  intros [] HE x y. unfold PrefillExperts, DecodeExperts, PrefillExpertCount, PrefillSourceGPU, DecodeSourceGPU, inRange, sourceGPUAt.
  rewrite dk_experts0, dk_version0 in *.
  assert (Hidx : ∀ a b n m, 0 ≤ a < Z.of_nat n → 0 ≤ b < Z.of_nat m → (Z.to_nat a * m + Z.to_nat b < n * m)%nat).
  { intros a b n m Ha Hb. assert (Z.to_nat a < n)%nat by lia. assert (Z.to_nat b < m)%nat by lia. nia. }
  split_and!.
  - destruct (_ && _) eqn:E; [|done]. destruct (sliceRoutes_ok ((Z.to_nat x * length (pd_InputTokenIDs pd) + Z.to_nat y) * pd_topK pd)
      (pd_topK pd) (pd_PrefillRoutes pd)) as (es & -> & _); [|done].
    rewrite dk_proutes0. specialize (Hidx x y (pd_numLayers pd) (length (pd_InputTokenIDs pd))). nia.
  - destruct (_ && _) eqn:E; [|done]. destruct (sliceRoutes_ok ((Z.to_nat x * pd_numLayers pd + Z.to_nat y) * pd_topK pd)
      (pd_topK pd) (pd_DecodeRoutes pd)) as (es & -> & _); [|done].
    rewrite dk_droutes0. specialize (Hidx x y (length (pd_DecodeTokenIDs pd)) (pd_numLayers pd)). nia.
  - destruct (_ && _) eqn:E; [|done]. destruct (pd_PrefillCounts pd !! _) eqn:El; [done|]. apply lookup_ge_None in El.
    rewrite dk_counts0 in El. nia.
  - destruct (_ && _) eqn:E; [|done]. destruct ((_ <? 2) || _) eqn:E2; [done|].
    destruct (pd_PrefillSourceGPUs pd !! _) as [v|] eqn:El; [by destruct (v =? _)|]. apply lookup_ge_None in El.
    rewrite dk_pgpus0 in El by lia. specialize (Hidx x y (pd_numLayers pd) (length (pd_InputTokenIDs pd))). lia.
  - destruct (_ && _) eqn:E; [|done]. destruct ((_ <? 2) || _) eqn:E2; [done|].
    destruct (pd_DecodeSourceGPUs pd !! _) as [v|] eqn:El; [by destruct (v =? _)|]. apply lookup_ge_None in El.
    rewrite dk_dgpus0 in El by lia. specialize (Hidx x y (length (pd_DecodeTokenIDs pd)) (pd_numLayers pd)). lia.
Qed.

(** * Theorem *)

(** Whatever file [Open] accepts can be read.  For every prompt id below the
    number of prompts of the metadata, [ReadPrompt] returns the prompt's data, and
    no accessor of it panics for any arguments; the only error possible is a source
    GPU out of range in a version 2 file.  Nothing is assumed of the file except
    that it consists of bytes and is shorter than 2^63. *)
Theorem opened_prompts_readable unmarshal file r i :
  Forall byte_ok file → Z.of_nat (length file) < 2 ^ 63 → Open unmarshal file = Ok r →
  0 ≤ i < m_NumPrompts (rd_metadata r) →
  match ReadPrompt i r with
  | Ok pd => m_Prompts (rd_metadata r) !! Z.to_nat i = Some (pd_Metadata pd) ∧
      Z.of_nat (length (pd_InputTokenIDs pd)) = InputTokens (pd_Metadata pd) ∧
      Z.of_nat (length (pd_DecodeTokenIDs pd)) = DecodeTokens (pd_Metadata pd) ∧
      ∀ x y, noPanic (PrefillExperts x y pd) ∧ noPanic (DecodeExperts x y pd) ∧ noPanic (PrefillExpertCount x y pd) ∧
             noPanic (PrefillSourceGPU x y pd) ∧ noPanic (DecodeSourceGPU x y pd)
  | Err e => h_Version (rd_header r) = 2 ∧ ∃ v, e = ErrSourceGPU v
  end.
Proof.
  intros Hby Hbig Ho Hi. destruct (Open_inv _ _ _ Ho) as (_ & _ & _ & _ & F5 & _).
  destruct (lookup_lt_is_Some_2 (rd_index r) (Z.to_nat i)) as [e He]; [lia|].
  destruct (Open_prompt _ _ _ _ _ Hby Hbig Ho He) as [pm Hp]. pose proof (ReadPrompt_total _ _ _ _ Hp) as Hr.
  rewrite Z2Nat.id in Hr by lia. destruct (ReadPrompt i r) as [pd|err].
  - pose proof Hp as [_ Hm (D1 & D2 & D3 & D4) _ [T1 T2] _ _]. pose proof Hr as [].
    rewrite dk_meta0, dk_in0, dk_dec0, T1, T2, !Z2Nat.id by lia. split_and!; try done. by eapply accessors_ok.
  - destruct Hr as [H2 Hv]. split; [|done]. pose proof (Open_version _ _ _ Ho). lia.
Qed.

(** The example input of the round trip, with its metadata document abbreviated to one byte. *)
Definition exDoc : Metadata := mkMetadata 1 "m" 4 2 [3] 2 1 0 TraceProps.exPrompts.
Definition exBytes : bytes := Eval vm_compute in
  match Convert (λ _, [123]) TraceProps.exFields 9 TraceProps.exHash with Ok x => fst x | Err _ => [] end.
Definition exReader : Reader := Eval vm_compute in
  match Open (λ _, Some exDoc) exBytes with
  | Ok r => r
  | Err _ => mkReader [] 0 (mkFileHeader 0 0 0 0 0 0 0 0 0 []) exDoc []
  end.

Lemma opened_prompts_readable_witness :
  ∃ pd, ReadPrompt 0 exReader = Ok pd ∧ PrefillExperts 0 0 pd = Ok [2; 1] ∧ noPanic (PrefillExperts 7 7 pd).
Proof.
  assert (H : match ReadPrompt 0 exReader with
    | Ok pd => m_Prompts (rd_metadata exReader) !! Z.to_nat 0 = Some (pd_Metadata pd) ∧
        Z.of_nat (length (pd_InputTokenIDs pd)) = InputTokens (pd_Metadata pd) ∧
        Z.of_nat (length (pd_DecodeTokenIDs pd)) = DecodeTokens (pd_Metadata pd) ∧
        ∀ x y, noPanic (PrefillExperts x y pd) ∧ noPanic (DecodeExperts x y pd) ∧ noPanic (PrefillExpertCount x y pd) ∧
               noPanic (PrefillSourceGPU x y pd) ∧ noPanic (DecodeSourceGPU x y pd)
    | Err e => h_Version (rd_header exReader) = 2 ∧ ∃ v, e = ErrSourceGPU v
    end).
  { apply (opened_prompts_readable (λ _, Some exDoc) exBytes exReader 0).
    - apply (bool_decide_unpack (Forall byte_ok exBytes)). vm_compute. exact I.
    - vm_compute. reflexivity.
    - vm_compute. reflexivity.
    - vm_compute. split; [discriminate|reflexivity]. }
  destruct (ReadPrompt 0 exReader) as [pd|] eqn:E; [|vm_compute in E; discriminate E].
  exists pd. split; [reflexivity|]. split; [|apply H]. vm_compute in E. injection E as <-. vm_compute. reflexivity.
Defined.

End TraceReader.
