(* ===== verification/KVEvents.v ===== *)
(** Publication of KV cache events: [pkg/kvcache/kv_cache_sender.go],
    [kv_events_replayer.go], the publisher of [pkg/common/publisher.go], and
    [OnRequestStart] of [kv_cache.go].  The msgpack encoder is an interface. *)

From S2P Require Import Prelude GoFloat BlockCache TraceFormat.
Import BlockCache.
Open Scope nat_scope.

Module KVEvents.

Abbreviation bytes := TraceFormat.bytes.

(** * Events *)

Definition GPU : string := "GPU".

(** [kvevents.GenericEvent]. *)
Inductive GenericEvent :=
| BlockStoredEvent (BlockHashes : list Z) (Tokens : list Z) (DeviceTier : string) (ParentHash : Z)
    (LoraID : option Z) (LoraName : option string)
| BlockRemovedEvent (BlockHashes : list Z) (DeviceTier : string)
| AllBlocksClearedEvent (DeviceTier : string).

Record batchEntry := mkEntry { be_event : GenericEvent; be_parentHash : option Z }.

(** The msgpack-ready structs: named-field maps and positional arrays.  The
    constructor stands for the tag. *)
Inductive wireEvent :=
| blockStoredEvent (BlockHashes : list Z) (ParentBlockHash : option Z) (TokenIds : list Z) (BlockSize : Z)
    (LoraID : option Z) (Medium : option string) (LoraName : option string)
| msgpackBlockStoredEvent (BlockHashes : list Z) (ParentBlockHash : Z) (TokenIds : list Z) (BlockSize : Z)
    (LoraID : option Z) (Medium : option string) (LoraName : option string)
| blockRemovedEvent (BlockHashes : list Z) (Medium : option string)
| msgpackBlockRemovedEvent (BlockHashes : list Z) (Medium : option string)
| allBlocksClearedEvent
| msgpackAllBlocksClearedEvent.

Record msgpackEventBatch := mkBatch { TS : f64; Events : list bytes; DataParallelRank : option Z }.

(** The msgpack library: encoders that may fail. *)
Class Msgpack := mkMsgpack {
  MarshalEvent : wireEvent → result string bytes;
  MarshalBatch : msgpackEventBatch → result string bytes }.

(** * The publisher *)

(** [binary.BigEndian]. *)
Definition EncodeSeq (seq : Z) : bytes := rev (TraceFormat.putUint 8 seq).
Definition DecodeSeq (b : bytes) : Z := TraceFormat.getUint (rev (take 8 b)).

(** [sent] logs the messages given to the socket. *)
Record Publisher := mkPublisher { seqNum : Z; sent : list (string * bytes * bytes) }.

Section Sender.
Context `{Msgpack}.

(** The sequence number is consumed even if the socket refuses the message. *)
Definition PublishEvent (sendOk : bool) (topic : string) (batch : msgpackEventBatch) (p : Publisher)
  : Publisher * result string (Z * bytes) :=
  match MarshalBatch batch with
  | Err e => (p, Err ("failed to marshal event batch: " +:+ e))
  | Ok payload =>
      let seq := u64 (seqNum p + 1) in
      if sendOk then (mkPublisher seq (sent p ++ [(topic, EncodeSeq seq, payload)]), Ok (seq, payload))
      else (mkPublisher seq (sent p), Err ("failed to send message to topic " +:+ topic))
  end.

(** * The replay queue *)

Record replayEntry := mkReplayEntry { re_seq : Z; re_payload : bytes }.
Record replayQueue := mkQueue { rq_buf : list replayEntry; rq_capacity : nat }.

Definition newReplayQueue (capacity : nat) : replayQueue := mkQueue [] capacity.

(** A full queue first drops its oldest entry. *)
Definition push (entry : replayEntry) (q : replayQueue) : replayQueue :=
  let buf := if length (rq_buf q) =? rq_capacity q then tail (rq_buf q) else rq_buf q in
  mkQueue (buf ++ [entry]) (rq_capacity q).

(** The first index with [seq >= startSeq], or the length. *)
Fixpoint sinceStart (startSeq : Z) (i : nat) (buf : list replayEntry) : nat :=
  match buf with
  | [] => i
  | e :: r => if (startSeq <=? re_seq e)%Z then i else sinceStart startSeq (S i) r
  end.

Definition since (startSeq : Z) (q : replayQueue) : list replayEntry :=
  drop (sinceStart startSeq 0 (rq_buf q)) (rq_buf q).

Definition store (seq : Z) (payload : bytes) (q : replayQueue) : replayQueue := push (mkReplayEntry seq payload) q.

Definition replaySentinel : Z := max_u64.

(** The replies to a replay request: [identity, empty, topic, seq, payload] for
    each batch and the sentinel; a short frame is ignored. *)
Definition handleReplayRequest (topic : bytes) (identity frame : bytes) (q : replayQueue) : list (list bytes) :=
  if length frame <? 8 then []
  else
    let startSeq := DecodeSeq frame in
    ((λ b, [identity; []; topic; EncodeSeq (re_seq b); re_payload b]) <$> since startSeq q)
    ++ [[identity; []; []; EncodeSeq replaySentinel; []]].

(** A received message is a request only with three frames. *)
Definition serveMessage (topic : bytes) (frames : list bytes) (q : replayQueue) : list (list bytes) :=
  match frames with
  | [identity; _; payload] => handleReplayRequest topic identity payload q
  | _ => []
  end.

(** * The sender *)

Record KVEventSender := mkSender {
  publisher : option Publisher; topic : string; maxBatchSize : nat; blockSize : Z; batch : list batchEntry;
  useVllmMapEventFormat : bool; dpRank : Z; replayer : option replayQueue }.

Definition NewKVEventSender (p : option Publisher) (topic : string) (maxBatchSize : nat) (blockSize : Z)
    (mapFormat : bool) (dpRank : Z) (r : option replayQueue) : KVEventSender :=
  mkSender p topic maxBatchSize blockSize [] mapFormat dpRank r.

Definition encodeEvent (entry : batchEntry) (mapFormat : bool) (blockSize : Z) : wireEvent :=
  match be_event entry with
  | BlockStoredEvent hashes tokens tier parent loraID loraName =>
      if mapFormat
      then blockStoredEvent hashes (be_parentHash entry) tokens blockSize loraID (Some tier) loraName
      else msgpackBlockStoredEvent hashes parent tokens blockSize loraID (Some tier) loraName
  | BlockRemovedEvent hashes _ =>
      if mapFormat then blockRemovedEvent hashes (Some GPU) else msgpackBlockRemovedEvent hashes (Some GPU)
  | AllBlocksClearedEvent _ => if mapFormat then allBlocksClearedEvent else msgpackAllBlocksClearedEvent
  end.

Fixpoint encodeBatch (entries : list batchEntry) (mapFormat : bool) (blockSize : Z) : result string (list bytes) :=
  match entries with
  | [] => Ok []
  | e :: r =>
      match MarshalEvent (encodeEvent e mapFormat blockSize) with
      | Err err => Err ("failed to marshal event: " +:+ err)
      | Ok b => let! rest := encodeBatch r mapFormat blockSize in Ok (b :: rest)
      end
  end.

Definition set_batch (b : list batchEntry) (s : KVEventSender) : KVEventSender :=
  mkSender (publisher s) (topic s) (maxBatchSize s) (blockSize s) b (useVllmMapEventFormat s) (dpRank s) (replayer s).
Definition set_publisher (p : Publisher) (s : KVEventSender) : KVEventSender :=
  mkSender (Some p) (topic s) (maxBatchSize s) (blockSize s) (batch s) (useVllmMapEventFormat s) (dpRank s) (replayer s).
Definition set_replayer (q : replayQueue) (s : KVEventSender) : KVEventSender :=
  mkSender (publisher s) (topic s) (maxBatchSize s) (blockSize s) (batch s) (useVllmMapEventFormat s) (dpRank s) (Some q).

(** [publishHelper]; [ts] is the batch's timestamp. *)
Definition publishHelper (ts : f64) (sendOk : bool) (s : KVEventSender) : KVEventSender * result string unit :=
  match batch s, publisher s with
  | [], _ => (s, Ok tt)
  | _, None => (s, Ok tt)
  | entries, Some p =>
      match encodeBatch entries (useVllmMapEventFormat s) (blockSize s) with
      | Err e => (s, Err e)
      | Ok events =>
          let '(p, r) := PublishEvent sendOk (topic s) (mkBatch ts events (Some (dpRank s))) p in
          let s := set_publisher p s in
          match r with
          | Ok (seq, payload) =>
              let s := match replayer s with Some q => set_replayer (store seq payload q) s | None => s end in
              (set_batch [] s, Ok tt)
          | Err e => (set_batch [] s, Err e)
          end
      end
  end.

(** The batch entry of an event; [EmptyBlockHash] is 0. *)
Definition toEntry (ev : EventData) : option batchEntry :=
  if (ev_action ev =? eventActionStore)%Z then
    Some (mkEntry (BlockStoredEvent (ev_hashes ev) (ev_tokens ev) GPU (default 0%Z (ev_parentHash ev)) (ev_loraID ev) (ev_loraName ev))
            (ev_parentHash ev))
  else if (ev_action ev =? eventActionRemove)%Z then Some (mkEntry (BlockRemovedEvent (ev_hashes ev) GPU) None)
  else if (ev_action ev =? eventActionAllBlocksCleared)%Z then Some (mkEntry (AllBlocksClearedEvent GPU) None)
  else None.

(** What wakes [Run]: an event from the channel, or the timer. *)
Inductive input := inEvent (ev : EventData) (ts : f64) (sendOk : bool) | inTimer (ts : f64) (sendOk : bool).

(** One iteration of [Run]; an error ends it. *)
Definition Run (i : input) (s : KVEventSender) : KVEventSender * result string unit :=
  match publisher s with
  | None => (s, Ok tt)
  | Some _ =>
      match i with
      | inEvent ev ts sendOk =>
          match toEntry ev with
          | None => (s, Err "invalid event action"%string)
          | Some entry =>
              let s := set_batch (batch s ++ [entry]) s in
              if maxBatchSize s <=? length (batch s) then publishHelper ts sendOk s else (s, Ok tt)
          end
      | inTimer ts sendOk => publishHelper ts sendOk s
      end
  end.

Fixpoint RunAll (inputs : list input) (s : KVEventSender) : KVEventSender * result string unit :=
  match inputs with
  | [] => (s, Ok tt)
  | i :: r => match Run i s with
              | (s, Ok _) => RunAll r s
              | (s, Err e) => (s, Err e)
              end
  end.

(** The start of a request: token blocks keyed by the token processor.  [None]: a
    slice out of range panics. *)
Fixpoint blockTokensOf (bs : nat) (i : nat) (keys : list Z) (tokens : list Z) : option (list (list Z)) :=
  match keys with
  | [] => Some []
  | _ :: r => if (i * bs + bs <=? length tokens) then cons (take bs (drop (i * bs) tokens)) <$> blockTokensOf bs (S i) r tokens
              else None
  end.

Record PrefixCacheStats := mkStats { QueriedTokens : Z; CachedTokens : Z }.

Inductive helperError := ErrBlockKeys (e : string) | ErrCache (e : bcError).

Record KVCacheHelper := mkHelper { kh_cache : blockCache; kh_blockSize : nat; kh_stats : Chan PrefixCacheStats }.

Section OnRequestStart.
(** The router library: the token processor and the extra features of multimodal
    blocks. *)
Context {MM Extra : Type}.
Variable ComputeBlockExtraFeatures : MM → nat → nat → Extra.
Variable TokensToKVBlockKeys : list Z → string → option Extra → result string (list Z).

(** The stats' [CachedTokens] is also set on the request. *)
Definition OnRequestStart (env : Env) (req : Request) (tokens : list Z) (mmFeatures : option MM)
    (h : KVCacheHelper) : option (KVCacheHelper * result helperError PrefixCacheStats) :=
  let extraFeatures := (λ mm, ComputeBlockExtraFeatures mm (kh_blockSize h) (length tokens)) <$> mmFeatures in
  match TokensToKVBlockKeys tokens (GetDisplayedModel req) extraFeatures with
  | Err e => Some (h, Err (ErrBlockKeys e))
  | Ok blockKeys =>
      match blockTokensOf (kh_blockSize h) 0 blockKeys tokens with
      | None => None
      | Some blockTokens =>
          match startRequest env req (u64 <$> blockKeys) blockTokens (kh_cache h) with
          | (bc, Err e) => Some (mkHelper bc (kh_blockSize h) (kh_stats h), Err (ErrCache e))
          | (bc, Ok n) =>
              let stats := mkStats (Z.of_nat (length tokens)) (n * Z.of_nat (kh_blockSize h))%Z in
              Some (mkHelper bc (kh_blockSize h) (WriteToChannel (kh_stats h) stats), Ok stats)
          end
      end
  end.
End OnRequestStart.

(** [OnRequestEnd]. *)
Definition OnRequestEnd (tnow : Z) (requestID : string) (h : KVCacheHelper) : KVCacheHelper * result bcError unit :=
  let '(bc, r) := finishRequest tnow requestID (kh_cache h) in (mkHelper bc (kh_blockSize h) (kh_stats h), r).

End Sender.
End KVEvents.
