(* ===== verification/KVEventsProps.v ===== *)
(** Theorems on the publication of KV cache events: batching, sequence numbers,
    replay, the wire format and the start of a request. *)

From Stdlib Require Import Floats.SpecFloat.
From stdpp Require Import countable.
From S2P Require Import Prelude GoFloat BlockCache BlockCacheProps TraceFormat KVEvents.
Import BlockCache KVEvents.
Open Scope nat_scope.

Module KVEventsProps.

(** * The sliding window of the replay queue *)

Lemma push_lastn e log n :
  1 ≤ n → push e (mkQueue (lastn n log) n) = mkQueue (lastn n (log ++ [e])) n.
Proof.
  intros Hn. unfold push. cbn [rq_buf rq_capacity]. f_equal. rewrite lastn_length.
  unfold lastn. rewrite length_app. simpl.
  destruct (Nat.eqb_spec (Nat.min n (length log)) n) as [E|E].
  - rewrite drop_app_le by lia. f_equal.
    replace (length log + 1 - n) with (length log - n + 1) by lia. rewrite <- drop_drop. by destruct (drop _ log).
  - replace (length log - n) with 0 by lia. replace (length log + 1 - n) with 0 by lia. done.
Qed.

Lemma sinceStart_shift z i buf : sinceStart z i buf = i + sinceStart z 0 buf.
Proof.
  revert i. induction buf as [|e r IH]; intros i; simpl; [lia|].
  destruct (_ <=? _)%Z; [lia|]. rewrite (IH (S i)), (IH 1). lia.
Qed.

(** The entries carry consecutive sequence numbers from [base + 1]. *)
Definition consecutive (base : nat) (l : list replayEntry) : Prop :=
  ∀ i e, l !! i = Some e → re_seq e = Z.of_nat (base + i + 1).

Lemma sinceStart_consecutive z base l :
  (0 ≤ z)%Z → consecutive base l → sinceStart z 0 l = Nat.min (length l) (Z.to_nat z - 1 - base).
Proof.
  intros Hz. revert base. induction l as [|x l IH]; intros base Hl; [done|]. cbn [sinceStart length].
  pose proof (Hl 0 x eq_refl) as Hx. destruct (Z.leb_spec z (re_seq x)); [lia|].
  rewrite sinceStart_shift, (IH (S base)); [lia|].
  intros i e Hi. rewrite (Hl (S i) e Hi). lia.
Qed.

Lemma since_lastn z n l :
  (0 ≤ z)%Z → consecutive 0 l →
  since z (mkQueue (lastn n l) n) = drop (Nat.max (Z.to_nat z - 1) (length l - n)) l.
Proof.
  intros Hz Hl. unfold since. cbn [rq_buf].
  rewrite (sinceStart_consecutive z (length l - n)); [|done|].
  - rewrite lastn_length. unfold lastn. rewrite drop_drop.
    destruct (decide (Z.to_nat z - 1 ≤ length l)); [f_equal; lia|].
    rewrite !drop_ge by lia. done.
  - unfold lastn. intros i e Hi. rewrite lookup_drop in Hi. rewrite (Hl _ _ Hi). lia.
Qed.

Lemma DecodeSeq_EncodeSeq z tl : (0 ≤ z ≤ max_u64)%Z → DecodeSeq (EncodeSeq z ++ tl) = z.
Proof.
  intros Hz. unfold DecodeSeq, EncodeSeq.
  rewrite take_app_length' by (by rewrite length_rev, TraceFormat.putUint_length).
  rewrite rev_involutive. apply TraceFormat.getUint_putUint. unfold max_u64 in Hz. simpl. lia.
Qed.

(** * Batches *)

Section Sender.
Context `{Msgpack}.

(** The batch entries of the events among the inputs, in order. *)
Definition entriesOf (inputs : list input) : list batchEntry :=
  omap (λ i, match i with inEvent ev _ _ => toEntry ev | inTimer _ _ => None end) inputs.

Abbreviation logged := (list batchEntry * bytes)%type.

(** What a subscriber receives: the batches of [log] with sequence numbers from 1. *)
Definition published (topic : string) (log : list logged) : list (string * bytes * bytes) :=
  imap (λ i x, (topic, EncodeSeq (Z.of_nat (S i)), x.2)) log.

Definition replayLog (log : list logged) : list replayEntry :=
  imap (λ i x, mkReplayEntry (Z.of_nat (S i)) x.2) log.

(** A published batch: not empty, not too long, and the encoding of its entries. *)
Definition batchOk (s : KVEventSender) (x : logged) : Prop :=
  1 ≤ length x.1 ≤ maxBatchSize s ∧
  ∃ ts events, encodeBatch x.1 (useVllmMapEventFormat s) (blockSize s) = Ok events ∧
    MarshalBatch (mkBatch ts events (Some (dpRank s))) = Ok x.2.

Definition SentOk (s : KVEventSender) (log : list logged) : Prop :=
  (∃ n, publisher s = Some (mkPublisher n (published (topic s) log))) ∧
  Forall (batchOk s) log ∧
  ∀ q, replayer s = Some q → q = mkQueue (lastn (rq_capacity q) (replayLog log)) (rq_capacity q) ∧ 1 ≤ rq_capacity q.

(** The sender between two iterations of [Run]. *)
Definition SenderInv (es : list batchEntry) (s : KVEventSender) (log : list logged) : Prop :=
  SentOk s log ∧ (seqNum <$> publisher s) = Some (Z.of_nat (length log)) ∧
  concat log.*1 ++ batch s = es.

Definition sameConfig (s s' : KVEventSender) : Prop :=
  topic s' = topic s ∧ maxBatchSize s' = maxBatchSize s ∧ blockSize s' = blockSize s ∧
  useVllmMapEventFormat s' = useVllmMapEventFormat s ∧ dpRank s' = dpRank s ∧
  (rq_capacity <$> replayer s') = (rq_capacity <$> replayer s).

Lemma published_snoc t log x :
  published t (log ++ [x]) = published t log ++ [(t, EncodeSeq (Z.of_nat (length log) + 1), x.2)].
Proof. unfold published. rewrite imap_app. cbn [imap compose]. by rewrite Nat2Z.inj_succ, Nat.add_0_r. Qed.

Lemma replayLog_snoc log x :
  replayLog (log ++ [x]) = replayLog log ++ [mkReplayEntry (Z.of_nat (length log) + 1) x.2].
Proof. unfold replayLog. rewrite imap_app. cbn [imap compose]. by rewrite Nat2Z.inj_succ, Nat.add_0_r. Qed.

Lemma batchOk_config s s' x : sameConfig s s' → batchOk s x → batchOk s' x.
Proof. intros (_&E1&E2&E3&E4&_). unfold batchOk. by rewrite E1, E2, E3, E4. Qed.

Lemma sameConfig_trans s1 s2 s3 : sameConfig s1 s2 → sameConfig s2 s3 → sameConfig s1 s3.
Proof. unfold sameConfig. intuition congruence. Qed.

(** [publishHelper] sends the whole batch as the next message, or fails. *)
Lemma publishHelper_spec ts ok es s log s' r :
  SenderInv es s log → length (batch s) ≤ maxBatchSize s → (Z.of_nat (length log) < max_u64)%Z →
  publishHelper ts ok s = (s', r) →
  sameConfig s s' ∧
  match r with
  | Ok _ => ∃ log', SenderInv es s' log' ∧ batch s' = [] ∧ length log ≤ length log' ≤ S (length log)
  | Err _ => SentOk s' log
  end.
Proof.
  intros HI Hlen Hmax. pose proof HI as (((n & Ep) & Hlog & Hrep) & Hseq & Hes). unfold publishHelper.
  rewrite Ep in Hseq. cbn in Hseq. injection Hseq as ->.
  destruct (batch s) as [|b0 bs] eqn:Eb.
  { intros [= <- <-]. split; [done|]. exists log. rewrite Eb. split; [done|]. split; [done|lia]. }
  rewrite Ep. destruct (encodeBatch _ _ _) as [events|e] eqn:Ee.
  2: { intros [= <- <-]. split; [done|]. apply HI. }
  unfold PublishEvent. destruct (MarshalBatch _) as [payload|e] eqn:Em.
  2: { intros [= <- <-]. split; [done|]. split; [by eexists|]. by split. }
  cbn [seqNum sent]. rewrite u64_small by lia.
  destruct ok.
  2: { intros [= <- <-]. split; [done|]. split; [by eexists|]. by split. }
  set (x := (b0 :: bs, payload) : logged).
  assert (Hx : batchOk s x) by (split; [simpl in *; lia|]; eauto).
  intros Hs'. assert (Hr : r = Ok tt) by (cbn in Hs'; by destruct (replayer s); injection Hs' as <- <-). subst r.
  assert (sameConfig s s' ∧ publisher s' = Some (mkPublisher (Z.of_nat (length log) + 1) (published (topic s) (log ++ [x]))) ∧
     batch s' = [] ∧ replayer s' = store (Z.of_nat (length log) + 1) payload <$> replayer s) as (Hc & Hp & Hb & Hq).
  { rewrite published_snoc. unfold sameConfig. cbn in Hs'. destruct (replayer s) eqn:Er; injection Hs' as <-; cbn; by rewrite ?Er. }
  split; [done|]. exists (log ++ [x]). rewrite length_app. cbn [length]. split; [|split; [done|lia]].
  split; [split; [|split]|split].
  - eexists. by rewrite Hp, (proj1 Hc).
  - apply Forall_app. split; [|constructor; [|done]]; [eapply Forall_impl; [done|]; intros y|]; by apply (batchOk_config s).
  - intros q Eq. rewrite Hq in Eq. destruct (replayer s) as [q0|] eqn:Eq0; [|done].
    destruct (Hrep _ eq_refl) as [E0 Hcap]. injection Eq as <-. rewrite E0. unfold store.
    rewrite push_lastn by done. rewrite replayLog_snoc. done.
  - rewrite Hp, length_app. cbn. f_equal. lia.
  - rewrite Hb, app_nil_r, fmap_app, concat_app. cbn. by rewrite app_nil_r.
Qed.

(** One iteration of [Run]. *)
Lemma Run_spec i es s log s' r :
  SenderInv es s log → length (batch s) < maxBatchSize s → (Z.of_nat (length log) < max_u64)%Z →
  Run i s = (s', r) →
  sameConfig s s' ∧
  match r with
  | Ok _ => ∃ log', SenderInv (es ++ entriesOf [i]) s' log' ∧ length (batch s') < maxBatchSize s' ∧
      length log ≤ length log' ≤ S (length log)
  | Err _ => SentOk s' log
  end.
Proof.
  intros HI Hlen Hmax. unfold Run. pose proof HI as (((n & Ep) & Hlog & Hrep) & Hseq & Hes). rewrite Ep.
  assert (Hstep : ∀ ts ok es0 s0, SenderInv es0 s0 log → length (batch s0) ≤ maxBatchSize s0 → sameConfig s s0 →
    publishHelper ts ok s0 = (s', r) → es0 = es ++ entriesOf [i] → sameConfig s s' ∧
    match r with Ok _ => ∃ log', SenderInv (es ++ entriesOf [i]) s' log' ∧ length (batch s') < maxBatchSize s' ∧
      length log ≤ length log' ≤ S (length log) | Err _ => SentOk s' log end).
  { intros ts ok es0 s0 HI0 Hl0 Hc0 E ->. destruct (publishHelper_spec _ _ _ _ _ _ _ HI0 Hl0 Hmax E) as [Hc Hr].
    pose proof (sameConfig_trans _ _ _ Hc0 Hc) as Hss. split; [done|]. destruct r; [|done]. destruct Hr as (log' & Hi & Hb & Hl). exists log'.
    split; [done|]. split; [|done]. rewrite Hb, (proj1 (proj2 Hss)). simpl. lia. }
  destruct i as [ev ts ok|ts ok].
  - cbn [entriesOf omap list_omap] in *. destruct (toEntry ev) as [entry|] eqn:Ee.
    2: { intros [= <- <-]. split; [done|]. apply HI. }
    set (s1 := set_batch (batch s ++ [entry]) s). cbv zeta.
    assert (SenderInv (es ++ [entry]) s1 log) as HI1.
    { split; [|split]; [apply HI|done|]. cbn. by rewrite <- Hes, app_assoc. }
    assert (Hb1 : length (batch s1) = S (length (batch s))) by (cbn; rewrite length_app; simpl; lia).
    destruct (Nat.leb_spec (maxBatchSize s1) (length (batch s1))) as [Hf|Hf].
    + intros E. apply (Hstep ts ok (es ++ [entry]) s1); try done. cbn [maxBatchSize s1 set_batch] in *. lia.
    + intros [= <- <-]. split; [done|]. exists log. split; [done|]. split; [done|lia].
  - intros E. apply (Hstep ts ok es s); try done; [lia|]. cbn. by rewrite app_nil_r.
Qed.

Lemma RunAll_spec inputs es s log s' r :
  SenderInv es s log → length (batch s) < maxBatchSize s → (Z.of_nat (length log + length inputs) ≤ max_u64)%Z →
  RunAll inputs s = (s', r) →
  sameConfig s s' ∧ ∃ log', SentOk s' log' ∧ concat log'.*1 `prefix_of` es ++ entriesOf inputs ∧
    length log' ≤ length log + length inputs ∧
    (r = Ok tt → SenderInv (es ++ entriesOf inputs) s' log' ∧ length (batch s') < maxBatchSize s').
Proof.
  revert es s log. induction inputs as [|i inputs IH]; intros es s log HI Hlen Hmax.
  - intros [= <- <-]. split; [done|]. exists log. rewrite app_nil_r. split; [apply HI|].
    split; [|split; [simpl; lia|done]]. destruct HI as (_&_&<-). by eexists.
  - cbn [RunAll length] in *. destruct (Run i s) as [s1 [[]|e]] eqn:E.
    + destruct (Run_spec _ _ _ _ _ _ HI Hlen ltac:(lia) E) as (Hc & log1 & HI1 & Hl1 & Hlog1).
      intros E'. destruct (IH _ _ _ HI1 Hl1 ltac:(lia) E') as (Hc' & log' & ?).
      split; [by eapply sameConfig_trans|]. exists log'.
      replace (es ++ entriesOf (i :: inputs)) with ((es ++ entriesOf [i]) ++ entriesOf inputs).
      { intuition; lia. }
      rewrite <- app_assoc. unfold entriesOf. by rewrite <- omap_app.
    + destruct (Run_spec _ _ _ _ _ _ HI Hlen ltac:(lia) E) as (Hc & HS).
      intros [= <- <-]. split; [done|]. exists log. split; [done|]. split; [|split; [lia|done]].
      destruct HI as (_&_&<-). rewrite <- app_assoc. by eexists.
Qed.

(** A subscriber of the event topic sees sequence numbers 1, 2, 3, … without
    gaps, and batches that are non-empty, at most [maxBatchSize] long and encode,
    concatenated, a prefix of the events the cache emitted; while the sender
    runs, the only events not yet published are the fewer than [maxBatchSize] of
    the pending batch.  The replay queue holds the last published batches. *)
Theorem events_published_in_order (t : string) (maxB : nat) (bs : Z) (fmt : bool) (dp : Z) (cap : option nat) inputs s r :
  1 ≤ maxB → (∀ c, cap = Some c → 1 ≤ c) → (Z.of_nat (length inputs) ≤ max_u64)%Z →
  RunAll inputs (NewKVEventSender (Some (mkPublisher 0 [])) t maxB bs fmt dp (newReplayQueue <$> cap)) = (s, r) →
  ∃ log : list (list batchEntry * bytes),
    (sent <$> publisher s) = Some (published t log) ∧ Forall (batchOk s) log ∧ maxBatchSize s = maxB ∧
    concat log.*1 `prefix_of` entriesOf inputs ∧
    (r = Ok tt → concat log.*1 ++ batch s = entriesOf inputs ∧ length (batch s) < maxB) ∧
    rq_buf <$> replayer s = (λ c, lastn c (replayLog log)) <$> cap.
Proof.
  intros HmB Hcap Hin E.
  apply (RunAll_spec _ [] _ []) in E as (Hc & log & ((n & Hp) & Hok & Hrep) & Hpre & _ & Hr).
  - exists log. destruct Hc as (Et & Em & _ & _ & _ & Ecap). rewrite Hp, Em, Et. repeat split; try done.
    + match goal with H : r = _ |- _ => apply Hr in H as [HI _] end. apply HI.
    + match goal with H : r = _ |- _ => apply Hr in H as [_ Hl] end. by rewrite Em in Hl.
    + cbn in Ecap. destruct cap, (replayer s) as [q|] eqn:Eq; try done. injection Ecap as <-. 
      destruct (Hrep q eq_refl) as [-> _]. done.
  - split; [|done]. split; [eexists; done|]. split; [done|]. cbn. intros q Eq. destruct cap as [c|]; [|done].
    injection Eq as <-. cbn. split; [|by apply Hcap]. unfold newReplayQueue. by rewrite drop_nil.
  - done.
  - done.
Qed.

Lemma replayLog_consecutive log : consecutive 0 (replayLog log).
Proof.
  intros i e. unfold replayLog. rewrite list_lookup_imap.
  intros (x & _ & ->)%fmap_Some_1. cbn [re_seq]. f_equal. lia.
Qed.

(** The replies to a replay request, as frames of published messages. *)
Definition replyOf (identity t : bytes) (m : string * bytes * bytes) : list bytes := [identity; []; t; m.1.2; m.2].

Lemma replies_published tn identity tb k log :
  (λ b, [identity; []; tb; EncodeSeq (re_seq b); re_payload b]) <$> drop k (replayLog log) =
  replyOf identity tb <$> drop k (published tn log).
Proof.
  rewrite !fmap_drop. f_equal. apply list_eq. intros i. unfold replayLog, published.
  rewrite !list_lookup_fmap, !list_lookup_imap. by destruct (log !! i).
Qed.

(** A replay request for sequence number [start] is answered with exactly the
    published messages from [start] on that are among the last [capacity], in
    order, with their original sequence frames and payloads, then the sentinel,
    whose sequence number no batch carries.  A request frame under 8 bytes or a
    message without three frames gets no answer. *)
Theorem replay_exact (t : string) (maxB : nat) (bs : Z) (fmt : bool) (dp : Z) (cap : nat) inputs s r start identity tb tl :
  1 ≤ maxB → 1 ≤ cap → (Z.of_nat (length inputs) < max_u64)%Z → (0 ≤ start ≤ max_u64)%Z →
  RunAll inputs (NewKVEventSender (Some (mkPublisher 0 [])) t maxB bs fmt dp (Some (newReplayQueue cap))) = (s, r) →
  ∃ q msgs, replayer s = Some q ∧ sent <$> publisher s = Some msgs ∧
    handleReplayRequest tb identity (EncodeSeq start ++ tl) q =
      (replyOf identity tb <$> drop (Nat.max (Z.to_nat start - 1) (length msgs - cap)) msgs)
      ++ [[identity; []; []; EncodeSeq replaySentinel; []]] ∧
    (∀ m, m ∈ msgs → m.1.2 ≠ EncodeSeq replaySentinel) ∧
    (∀ frame, length frame < 8 → handleReplayRequest tb identity frame q = []) ∧
    (∀ frames, length frames ≠ 3 → serveMessage tb frames q = []).
Proof.
  intros HmB Hcap Hin Hstart E.
  apply (RunAll_spec _ [] _ []) in E as (Hc & log & ((n & Hp) & _ & Hrep) & _ & Hlen & _); [|..|done|simpl; lia].
  2: { split; [|done]. split; [eexists; done|]. split; [done|]. cbn. intros q [= <-]. cbn. by rewrite drop_nil. }
  destruct Hc as (_&_&_&_&_&Ecap). cbn in Ecap. destruct (replayer s) as [q|]; [|done]. injection Ecap as <-.
  destruct (Hrep q eq_refl) as [Eq _]. exists q, (published (topic s) log). rewrite Hp.
  split; [done|]. split; [done|]. split; [|split; [|split]].
  - unfold handleReplayRequest. destruct (Nat.ltb_spec (length (EncodeSeq start ++ tl)) 8) as [Hl|_].
    { rewrite length_app in Hl. unfold EncodeSeq in Hl. rewrite length_rev, TraceFormat.putUint_length in Hl. lia. }
    rewrite DecodeSeq_EncodeSeq by done. rewrite Eq at 1. cbn [rq_capacity].
    rewrite since_lastn; [|lia|apply replayLog_consecutive].
    rewrite (replies_published (topic s)). unfold published, replayLog. by rewrite !length_imap.
  - intros m (i & Hi)%list_elem_of_lookup. unfold published in Hi. rewrite list_lookup_imap in Hi.
    apply fmap_Some_1 in Hi as (x & Hx%lookup_lt_Some & ->). cbn [fst snd]. intros HE.
    apply (f_equal (λ b, DecodeSeq (b ++ []))) in HE.
    rewrite !DecodeSeq_EncodeSeq in HE; unfold replaySentinel, max_u64 in *; simpl in *; lia.
  - intros frame Hf. unfold handleReplayRequest. by rewrite (proj2 (Nat.ltb_lt _ _) Hf).
  - intros [|? [|? [|? [|]]]]; done.
Qed.

(** * A subscriber *)

Section Subscriber.
(** Decoders of the msgpack library, inverse to its encoders. *)
Variable UnmarshalEvent : bytes → option wireEvent.
Variable UnmarshalBatch : bytes → option msgpackEventBatch.
Hypothesis event_codec : ∀ w b, MarshalEvent w = Ok b → UnmarshalEvent b = Some w.
Hypothesis batch_codec : ∀ x b, MarshalBatch x = Ok b → UnmarshalBatch b = Some x.

(** The set of block hashes a subscriber holds. *)
Definition sub_apply (s : gset Z) (w : wireEvent) : gset Z :=
  match w with
  | blockStoredEvent hs _ _ _ _ _ _ | msgpackBlockStoredEvent hs _ _ _ _ _ _ => list_to_set hs ∪ s
  | blockRemovedEvent hs _ | msgpackBlockRemovedEvent hs _ => s ∖ list_to_set hs
  | allBlocksClearedEvent | msgpackAllBlocksClearedEvent => ∅
  end.

Definition sub_event (s : gset Z) (b : bytes) : gset Z :=
  match UnmarshalEvent b with Some w => sub_apply s w | None => s end.

Definition sub_message (s : gset Z) (m : string * bytes * bytes) : gset Z :=
  match UnmarshalBatch m.2 with Some b => foldl sub_event s (Events b) | None => s end.

Definition subscriber (msgs : list (string * bytes * bytes)) : gset Z := foldl sub_message ∅ msgs.

Definition eventsOf (inputs : list input) : list EventData :=
  omap (λ i, match i with inEvent ev _ _ => Some ev | inTimer _ _ => None end) inputs.

Abbreviation apply_entry fmt bs := (λ s e, sub_apply s (encodeEvent e fmt bs)).

Lemma sub_entry ev s fmt bs :
  match toEntry ev with Some e => apply_entry fmt bs s e | None => s end = BlockCacheProps.mirror_apply s ev.
Proof.
  unfold toEntry, BlockCacheProps.mirror_apply, encodeEvent.
  destruct (Z.eqb_spec (ev_action ev) eventActionStore) as [->|]; [by destruct fmt|rewrite bool_decide_false by done].
  destruct (Z.eqb_spec (ev_action ev) eventActionRemove) as [->|]; [by destruct fmt|rewrite bool_decide_false by done].
  destruct (Z.eqb_spec (ev_action ev) eventActionAllBlocksCleared) as [->|]; [by destruct fmt|by rewrite bool_decide_false].
Qed.

Lemma sub_entries fmt bs inputs s :
  foldl (apply_entry fmt bs) s (entriesOf inputs) = foldl BlockCacheProps.mirror_apply s (eventsOf inputs).
Proof.
  revert s. induction inputs as [|[ev ts ok|ts ok] inputs IH]; intros s; [done| |apply IH].
  unfold entriesOf, eventsOf in *. cbn [omap list_omap foldl]. rewrite <- (sub_entry ev s fmt bs).
  destruct (toEntry ev); cbn [foldl]; apply IH.
Qed.

Lemma sub_encoded fmt bs es events s :
  encodeBatch es fmt bs = Ok events → foldl sub_event s events = foldl (apply_entry fmt bs) s es.
Proof.
  revert s events. induction es as [|e es IH]; intros s events; cbn [encodeBatch].
  { by intros <-%Ok_inj. }
  destruct (MarshalEvent _) as [b|] eqn:E; [|done]. destruct (encodeBatch es fmt bs) as [r|] eqn:Er; [|done].
  cbn [res_bind]. intros <-%Ok_inj. cbn [foldl]. unfold sub_event at 2. by rewrite (event_codec _ _ E), (IH _ r).
Qed.

Lemma subscriber_log s t log S0 :
  Forall (batchOk s) log →
  foldl sub_message S0 (published t log) =
  foldl (apply_entry (useVllmMapEventFormat s) (blockSize s)) S0 (concat log.*1).
Proof.
  induction log as [|x log IH] using rev_ind; [done|]. intros [Hl Hx]%Forall_app.
  apply Forall_inv in Hx as (_ & ts & events & Ee & Em).
  rewrite published_snoc, foldl_app, fmap_app, concat_app, foldl_app, IH by done. cbn.
  unfold sub_message. cbn [snd]. rewrite (batch_codec _ _ Em), app_nil_r. by apply sub_encoded.
Qed.

(** C37: end to end, from the cache to the wire: when the sender has taken and
    published every event of the cache, a subscriber that decodes the messages
    and applies them in order holds exactly the hashes of the cached blocks,
    in both wire formats. The history of the cache is one in which no event was dropped,
    with the operations of [op_ok] (distinct hashes, a clock that ticks). *)
Theorem subscriber_mirrors_cache model_of cfg T seen bc (t : string) (maxB : nat) (bs : Z) (fmt : bool) (dp : Z) inputs s :
  1 ≤ maxB → (Z.of_nat (length inputs) ≤ max_u64)%Z →
  BlockCacheProps.observed model_of cfg T seen bc → chan_buf (eventChan bc) = [] → eventsOf inputs = seen →
  RunAll inputs (NewKVEventSender (Some (mkPublisher 0 [])) t maxB bs fmt dp None) = (s, Ok tt) → batch s = [] →
  subscriber <$> (sent <$> publisher s) = Some (BlockCacheProps.cachedHashes bc).
Proof.
  intros HmB Hin Hobs Hch Hseen E Hb.
  apply (RunAll_spec _ [] _ []) in E as (Hc & log & ((n & Hp) & Hok & _) & _ & _ & Hr); [|..|done|done].
  2: { split; [|done]. split; [by eexists|]. done. }
  destruct (Hr eq_refl) as ((_ & _ & Hes) & _). rewrite Hb, app_nil_r in Hes. rewrite Hp. cbn. f_equal.
  unfold subscriber. rewrite (subscriber_log s) by done. rewrite Hes. cbn [app]. rewrite sub_entries, Hseen.
  destruct (BlockCacheProps.observed_sync _ _ _ _ _ Hobs) as [Hm _]. rewrite Hch, app_nil_r in Hm. apply Hm.
Qed.
End Subscriber.

End Sender.

(** * The start of a request *)

Lemma blockTokensOf_spec bs i keys tokens :
  (i + length keys) * bs ≤ length tokens →
  blockTokensOf bs i keys tokens = Some ((λ j, take bs (drop (j * bs) tokens)) <$> seq i (length keys)).
Proof.
  revert i. induction keys as [|k keys IH]; intros i Hl; [done|]. cbn [blockTokensOf length seq fmap list_fmap] in *.
  assert (i * bs + bs ≤ length tokens) by nia. rewrite (proj2 (Nat.leb_le _ _)) by done.
  rewrite IH by lia. done.
Qed.

(** The token blocks of the first [n] keys. *)
Definition tokenBlocks (bs n : nat) (tokens : list Z) : list (list Z) :=
  (λ j, take bs (drop (j * bs) tokens)) <$> seq 0 n.

(** The outcome of [OnRequestStart] on any cache with the invariant. *)
Lemma OnRequestStart_cases {MM Extra} (compute : MM → nat → nat → Extra) toKeys T env req tokens mm h :
  Inv T (kh_cache h) →
  (∀ e keys, toKeys tokens (GetDisplayedModel req) e = Ok keys → length keys * kh_blockSize h ≤ length tokens ∧
     BlockCacheProps.op_ok T (BlockCacheProps.OpStart env req (u64 <$> keys) [])) →
  ∃ h' r, OnRequestStart compute toKeys env req tokens mm h = Some (h', r) ∧
  match r with
  | Err _ => h' = h
  | Ok st =>
      ∃ keys n, toKeys tokens (GetDisplayedModel req) ((λ m, compute m (kh_blockSize h) (length tokens)) <$> mm) = Ok keys ∧
      QueriedTokens st = Z.of_nat (length tokens) ∧ (0 ≤ CachedTokens st ≤ QueriedTokens st)%Z ∧
      kh_stats h' = WriteToChannel (kh_stats h) st ∧
      CachedTokens st = (n * Z.of_nat (kh_blockSize h))%Z ∧
      startRequest env req (u64 <$> keys) (tokenBlocks (kh_blockSize h) (length keys) tokens) (kh_cache h) = (kh_cache h', Ok n)
  end.
Proof.
  intros HI Hkeys. unfold OnRequestStart. cbv zeta.
  set (extra := _ <$> mm). specialize (Hkeys extra). destruct (toKeys _ _ extra) as [keys|e] eqn:Ek; [|by eexists _, _].
  destruct (Hkeys keys eq_refl) as (Hlen & Hop). rewrite blockTokensOf_spec by lia.
  set (toks := _ <$> seq 0 _).
  assert (BlockCacheProps.op_ok T (BlockCacheProps.OpStart env req (u64 <$> keys) toks)) as Hop' by exact Hop.
  destruct (BlockCacheProps.startRequest_cases T env req (u64 <$> keys) toks (kh_cache h) HI Hop')
    as [(_ & E)|(_ & [(_ & E)|(_ & [(_ & E)|(_ & [(_ & E)|(_ & b & _ & E)])])])]; rewrite E;
    (eexists _, _; split; [reflexivity|]); cbn; try by destruct h.
  - exists keys, 0%Z. repeat split; lia || done.
  - set (n := length (reused _ _ _)) in *. exists keys, (Z.of_nat n).
    assert (n ≤ length keys).
    { unfold n, reused. etrans; [apply length_filter|]. unfold keysOf. by rewrite !length_fmap. }
    repeat split; try done; nia.
Qed.

(** The start of a request never slices out of range when the token processor
    returns at most one key per full block, which is its contract; an error leaves
    the cache as it was and reports nothing; a success registers the blocks, and
    reports all prompt tokens as queried and the reused blocks' tokens, never more
    than those, as cached. *)
Theorem OnRequestStart_outcome {MM Extra} (compute : MM → nat → nat → Extra) toKeys cfg T env req tokens mm h :
  BlockCacheProps.reachable cfg T (kh_cache h) →
  (∀ e keys, toKeys tokens (GetDisplayedModel req) e = Ok keys → length keys * kh_blockSize h ≤ length tokens ∧
     BlockCacheProps.op_ok T (BlockCacheProps.OpStart env req (u64 <$> keys) [])) →
  ∃ h' r, OnRequestStart compute toKeys env req tokens mm h = Some (h', r) ∧
  match r with
  | Err _ => h' = h
  | Ok st =>
      ∃ keys n, toKeys tokens (GetDisplayedModel req) ((λ m, compute m (kh_blockSize h) (length tokens)) <$> mm) = Ok keys ∧
      QueriedTokens st = Z.of_nat (length tokens) ∧ (0 ≤ CachedTokens st ≤ QueriedTokens st)%Z ∧
      kh_stats h' = WriteToChannel (kh_stats h) st ∧
      CachedTokens st = (n * Z.of_nat (kh_blockSize h))%Z ∧
      startRequest env req (u64 <$> keys) (tokenBlocks (kh_blockSize h) (length keys) tokens) (kh_cache h) = (kh_cache h', Ok n)
  end.
Proof. intros HI%BlockCacheProps.reachable_inv. by apply OnRequestStart_cases. Qed.

(** * Instances for the examples *)

(** A codec: any injection into bytes will do. *)
Definition wire_flat (w : wireEvent) : nat * list Z * option Z * list Z * Z * option Z * option string * option string :=
  match w with
  | blockStoredEvent h p t b i m n => (0, h, p, t, b, i, m, n)
  | msgpackBlockStoredEvent h p t b i m n => (1, h, Some p, t, b, i, m, n)
  | blockRemovedEvent h m => (2, h, None, [], 0%Z, None, m, None)
  | msgpackBlockRemovedEvent h m => (3, h, None, [], 0%Z, None, m, None)
  | allBlocksClearedEvent => (4, [], None, [], 0%Z, None, None, None)
  | msgpackAllBlocksClearedEvent => (5, [], None, [], 0%Z, None, None, None)
  end.

Definition wire_unflat (x : nat * list Z * option Z * list Z * Z * option Z * option string * option string) : wireEvent :=
  match x with
  | (0, h, p, t, b, i, m, n) => blockStoredEvent h p t b i m n
  | (1, h, p, t, b, i, m, n) => msgpackBlockStoredEvent h (default 0%Z p) t b i m n
  | (2, h, _, _, _, _, m, _) => blockRemovedEvent h m
  | (3, h, _, _, _, _, m, _) => msgpackBlockRemovedEvent h m
  | (4, _, _, _, _, _, _, _) => allBlocksClearedEvent
  | _ => msgpackAllBlocksClearedEvent
  end.

Definition f64_flat (x : f64) : nat * bool * positive * Z :=
  match x with
  | S754_zero b => (0, b, 1%positive, 0%Z)
  | S754_infinity b => (1, b, 1%positive, 0%Z)
  | S754_nan => (2, false, 1%positive, 0%Z)
  | S754_finite b m e => (3, b, m, e)
  end.

Definition f64_unflat (x : nat * bool * positive * Z) : f64 :=
  match x with
  | (0, b, _, _) => S754_zero b
  | (1, b, _, _) => S754_infinity b
  | (2, _, _, _) => S754_nan
  | (_, b, m, e) => S754_finite b m e
  end.

Definition batch_flat (b : msgpackEventBatch) := (f64_flat (TS b), Events b, DataParallelRank b).

#[local] Instance codec_ex : Msgpack :=
  mkMsgpack (λ w, Ok [Zpos (encode (wire_flat w))]) (λ b, Ok [Zpos (encode (batch_flat b))]).

Definition decodeEvent_ex (b : bytes) : option wireEvent :=
  match b with [Zpos p] => wire_unflat <$> decode p | _ => None end.

Definition decodeBatch_ex (b : bytes) : option msgpackEventBatch :=
  match b with [Zpos p] => (λ x, mkBatch (f64_unflat x.1.1) x.1.2 x.2) <$> decode p | _ => None end.

Lemma decodeEvent_ex_ok w b : MarshalEvent w = Ok b → decodeEvent_ex b = Some w.
Proof. cbn. intros [= <-]. unfold decodeEvent_ex. rewrite decode_encode. by destruct w. Qed.

Lemma decodeBatch_ex_ok x b : MarshalBatch x = Ok b → decodeBatch_ex b = Some x.
Proof. cbn. intros [= <-]. unfold decodeBatch_ex. rewrite decode_encode. by destruct x as [[] ? ?]. Qed.

(** The events of the example cache: store 11 and 12, remove 11, store 13. *)
Definition evs_ex : list EventData := Eval vm_compute in chan_buf (eventChan BlockCacheProps.bc_evicted).
Definition inputs_ex : list input := ((λ e, inEvent e f_zero true) <$> evs_ex) ++ [inTimer f_zero true].
Definition run_ex (fmt : bool) (cap : option nat) : KVEventSender * result string unit :=
  RunAll inputs_ex (NewKVEventSender (Some (mkPublisher 0 [])) "kv" 2 16 fmt 0 (newReplayQueue <$> cap)).

Lemma events_published_in_order_witness :
  length inputs_ex = 4 ∧ (run_ex true (Some 1)).2 = Ok tt ∧ batch (run_ex true (Some 1)).1 = [] ∧
  (λ q, length (rq_buf q)) <$> replayer (run_ex true (Some 1)).1 = Some 1 ∧
  ∃ log : list (list batchEntry * bytes), concat log.*1 ++ [] = entriesOf inputs_ex.
Proof.
  split; [reflexivity|]. split; [vm_compute; reflexivity|]. split; [vm_compute; reflexivity|].
  split; [vm_compute; reflexivity|].
  destruct (events_published_in_order "kv" 2 16 true 0 (Some 1) inputs_ex (run_ex true (Some 1)).1 (run_ex true (Some 1)).2)
    as (log & _ & _ & _ & _ & Hr & _).
  - lia.
  - intros c [= <-]. lia.
  - vm_compute. discriminate.
  - apply surjective_pairing.
  - exists log. destruct (Hr ltac:(vm_compute; reflexivity)) as [E _]. exact E.
Defined.

Lemma replay_exact_witness :
  ∃ q, replayer (run_ex false (Some 5)).1 = Some q ∧ length (handleReplayRequest [107%Z] [1%Z] (EncodeSeq 2) q) = 2.
Proof.
  destruct (replay_exact "kv" 2 16 false 0 5 inputs_ex (run_ex false (Some 5)).1 (run_ex false (Some 5)).2 2 [1%Z] [107%Z] [])
    as (q & msgs & Eq & Em & E & _).
  - lia.
  - lia.
  - vm_compute. reflexivity.
  - unfold max_u64. lia.
  - apply surjective_pairing.
  - exists q. split; [exact Eq|]. rewrite app_nil_r in E. rewrite E.
    assert (length <$> (sent <$> publisher (run_ex false (Some 5)).1) = Some 2) as Hl by (vm_compute; reflexivity).
    rewrite Em in Hl. injection Hl as Hl. rewrite length_app, length_fmap, length_drop, Hl. reflexivity.
Defined.

(** The sender takes everything that is in the channel. *)
Lemma observed_drain model_of cfg T l : ∀ seen bc,
  BlockCacheProps.observed model_of cfg T seen bc → chan_buf (eventChan bc) = l →
  BlockCacheProps.observed model_of cfg T (seen ++ l) (set_eventChan (mkChan [] (chan_cap (eventChan bc))) bc).
Proof.
  induction l as [|e l IH]; intros seen bc Hobs Hl.
  - rewrite app_nil_r. destruct bc as [? ? ? ? ? ? [b c] ? ?]. cbn in *. by subst b.
  - replace (seen ++ e :: l) with ((seen ++ [e]) ++ l) by (by rewrite <- app_assoc).
    apply (IH (seen ++ [e]) (set_eventChan (mkChan l (chan_cap (eventChan bc))) bc)); [|done].
    apply BlockCacheProps.obs_recv; [done|]. unfold chan_recv. by rewrite Hl.
Qed.

Definition bc_drained : blockCache := set_eventChan (mkChan [] 20) BlockCacheProps.bc_evicted.

Lemma observed_drained : BlockCacheProps.observed (λ _, "base") BlockCacheProps.cfg_ex 10 evs_ex bc_drained.
Proof.
  replace evs_ex with ([] ++ chan_buf (eventChan BlockCacheProps.bc_evicted)) by (vm_compute; reflexivity).
  unfold bc_drained. replace 20 with (chan_cap (eventChan BlockCacheProps.bc_evicted)) by (vm_compute; reflexivity).
  apply observed_drain; [exact BlockCacheProps.observed_evicted|done].
Qed.

Lemma subscriber_mirrors_cache_witness :
  subscriber decodeEvent_ex decodeBatch_ex <$> (sent <$> publisher (run_ex false None).1) =
    Some (BlockCacheProps.cachedHashes bc_drained) ∧ BlockCacheProps.cachedHashes bc_drained = {[12; 13]}%Z.
Proof.
  split; [|vm_compute; reflexivity].
  apply (subscriber_mirrors_cache decodeEvent_ex decodeBatch_ex decodeEvent_ex_ok decodeBatch_ex_ok
    (λ _, "base") BlockCacheProps.cfg_ex 10 evs_ex bc_drained "kv" 2 16 false 0 inputs_ex).
  - lia.
  - vm_compute. discriminate.
  - exact observed_drained.
  - vm_compute. reflexivity.
  - vm_compute. reflexivity.
  - etransitivity; [exact (surjective_pairing (run_ex false None))|]. f_equal; vm_compute; reflexivity.
  - vm_compute. reflexivity.
Defined.

(** A processor with one key per full block of two tokens. *)
Definition toKeys_ex (tokens : list Z) (model : string) (e : option unit) : result string (list Z) :=
  Ok (Z.of_nat <$> seq 40 (length tokens / 2)).
Definition helper_ex : KVCacheHelper := mkHelper BlockCacheProps.bc_new 2 (mkChan [] 10).

Lemma OnRequestStart_outcome_witness :
  (snd <$> OnRequestStart (λ (_ : unit) _ _, tt) toKeys_ex (BlockCacheProps.env_ex 1) (BlockCacheProps.req_ex "a") [7; 8; 9]%Z None helper_ex)
    = Some (Ok (mkStats 3 0)) ∧
  ∃ h' r, OnRequestStart (λ (_ : unit) _ _, tt) toKeys_ex (BlockCacheProps.env_ex 1) (BlockCacheProps.req_ex "a") [7; 8; 9]%Z None helper_ex
    = Some (h', r).
Proof.
  split; [vm_compute; reflexivity|].
  destruct (OnRequestStart_outcome (λ (_ : unit) _ _, tt) toKeys_ex BlockCacheProps.cfg_ex 0 (BlockCacheProps.env_ex 1)
    (BlockCacheProps.req_ex "a") [7; 8; 9]%Z None helper_ex) as (h' & r & E & _).
  - exact (BlockCacheProps.observed_reachable _ _ _ _ _ BlockCacheProps.observed_new).
  - intros e keys [= <-]. split; [cbn; lia|]. apply BlockCacheProps.env_ex_ok; [lia|vm_compute; reflexivity].
  - exists h', r. exact E.
Defined.

End KVEventsProps.
