(* ===== verification/Moe.v ===== *)
(** The expert-parallel latency model of [pkg/simulator/moe.go]: expert placement,
    the replica routers, the cost model, and vLLM's expert load balancing
    (EPLB).  A panic of the Go code is [None].  [math.Pow] is a parameter. *)

From S2P Require Import Prelude GoFloat.
Open Scope nat_scope.

Module Moe.

Definition vllmEPLBWindowSize : nat := 1000.
Definition vllmEPLBStepInterval : nat := 3000.

Definition MoERouterSplit : string := "split".
Definition MoERouterConcentrate : string := "concentrate".
Definition MoERouterHeuristic : string := "heuristic".

(** * Configuration *)

(** The MoE fields of [common.Configuration]. *)
Record Configuration := mkConfiguration {
  EnableMoE : bool; MoEExpertParallelSize : Z; MoENumExperts : Z; MoEPhysicalExpertSlots : Z; MoETopK : Z;
  MoENumLayers : Z; MoERouter : string; UseDistributedRouting : bool; MoEExpertPopularityAlpha : f64;
  MoEHiddenSize : Z; MoEIntermediateSize : Z; MoEBytesPerElement : Z; MoEGPUFlops : f64;
  MoEGPUMemoryBandwidth : f64; MoEInterconnectBandwidth : f64; MoEInterconnectLatency : Z }.

(** The MoE part of [Configuration.validate]. *)
Definition validateMoE (c : Configuration) : result string unit :=
  if negb (EnableMoE c) then Ok tt
  else if (MoEExpertParallelSize c <? 1)%Z then Err "moe expert parallel size must be at least 1"%string
  else if (MoENumExperts c <? 1)%Z then Err "moe number of experts must be at least 1"%string
  else if (MoEPhysicalExpertSlots c <? MoENumExperts c)%Z
  then Err "moe physical expert slots cannot be less than the number of logical experts"%string
  else if (i64 (MoENumExperts c * MoEExpertParallelSize c) <? MoEPhysicalExpertSlots c)%Z
  then Err "moe physical expert slots cannot exceed experts times expert parallel size"%string
  else if ((MoETopK c <? 1) || (MoENumExperts c <? MoETopK c))%Z then Err "moe top-k must be between 1 and the number of experts"%string
  else if (MoENumLayers c <? 1)%Z then Err "moe number of layers must be at least 1"%string
  else if negb (bool_decide (MoERouter c = MoERouterSplit)) && negb (bool_decide (MoERouter c = MoERouterConcentrate))
       && negb (bool_decide (MoERouter c = MoERouterHeuristic)) then Err "unknown moe router"%string
  else if flt (MoEExpertPopularityAlpha c) f_zero then Err "moe expert popularity alpha cannot be negative"%string
  else if ((MoEHiddenSize c <? 1) || (MoEIntermediateSize c <? 1))%Z then Err "moe hidden and intermediate sizes must be at least 1"%string
  else if (MoEBytesPerElement c <? 1)%Z then Err "moe bytes per element must be at least 1"%string
  else if fle (MoEGPUFlops c) f_zero || fle (MoEGPUMemoryBandwidth c) f_zero
  then Err "moe GPU FLOPS and memory bandwidth must be positive"%string
  else if (1 <? MoEExpertParallelSize c)%Z && fle (MoEInterconnectBandwidth c) f_zero
  then Err "moe interconnect bandwidth must be positive for expert parallel size greater than 1"%string
  else if (MoEInterconnectLatency c <? 0)%Z then Err "moe interconnect latency cannot be negative"%string
  else Ok tt.

(** * Expert placement *)

(** [placement !! expert]: the EP ranks that hold a copy, in order. *)
Abbreviation placement := (list (list nat)).

(** [placement[expert] = append(placement[expert], rank)]. *)
Definition appendRank (p : placement) (expert rank : nat) : option placement :=
  ranks ← p !! expert; Some (<[expert := ranks ++ [rank]]> p).

(** The logical expert of a physical slot. *)
Definition physicalToLogical (numExperts slot : nat) : nat :=
  if slot <? numExperts then slot else (slot - numExperts) mod numExperts.

Definition vllmInitialPlacementOneLayer (numExperts physicalSlots numGPUs : nat) : option placement :=
  if (numExperts <? 1) || (physicalSlots <? numExperts) || (numGPUs <? 1) then None
  else if negb (physicalSlots mod numGPUs =? 0) then None
  else if numExperts * numGPUs <? physicalSlots then None
  else
    let slotsPerRank := physicalSlots / numGPUs in
    foldM (λ p slot, appendRank p (physicalToLogical numExperts slot) (slot / slotsPerRank))
      (replicate numExperts []) (seq 0 physicalSlots).

(** One visit of the search for the best D'Hondt score; [None] is [bestExpert = -1]. *)
Definition scoreStep (numGPUs : nat) (replicaCount : list nat) (best : option (nat * f64)) (x : nat * f64)
  : option (option (nat * f64)) :=
  let '(expert, expertLoad) := x in
  rc ← replicaCount !! expert;
  if numGPUs <=? rc then Some best
  else
    let score := fdiv expertLoad (f_of_Z (Z.of_nat rc + 1)) in
    match best with
    | None => Some (Some (expert, score))
    | Some (_, bestScore) => if flt bestScore score then Some (Some (expert, score)) else Some best
    end.

Fixpoint allocateReplicas (remaining : nat) (load : list f64) (numGPUs : nat) (replicaCount : list nat) : option (list nat) :=
  match remaining with
  | 0 => Some replicaCount
  | S remaining =>
      best ← foldM (scoreStep numGPUs replicaCount) None (enumerate load);
      match best with
      | None => None
      | Some (bestExpert, _) => allocateReplicas remaining load numGPUs (alter S bestExpert replicaCount)
      end
  end.

(** One copy of the expert goes to [rank]. *)
Definition placeCopy (expert : nat) (st : placement * list nat) (rank : nat) : option (placement * list nat) :=
  p ← appendRank st.1 expert rank; Some (p, alter S rank st.2).

Definition placeExpert (numGPUs : nat) (replicaCount : list nat) (st : placement * list nat) (expert : nat)
  : option (placement * list nat) :=
  let rankSlots := st.2 in
  let ranks := SliceStable (λ i j, (Z.of_nat (rankSlots !!! i) <? Z.of_nat (rankSlots !!! j))%Z) (seq 0 numGPUs) in
  rc ← replicaCount !! expert;
  if numGPUs <? rc then None else foldM (placeCopy expert) st (take rc ranks).

Definition dhondtPlaceOneLayer (load : list f64) (physicalSlots numGPUs : nat) : option (placement * list nat) :=
  let numExperts := length load in
  if physicalSlots <? numExperts then None
  else if (numGPUs =? 0) || negb (physicalSlots mod numGPUs =? 0) then None
  else if numExperts * numGPUs <? physicalSlots then None
  else
    replicaCount ← allocateReplicas (physicalSlots - numExperts) load numGPUs (replicate numExperts 1);
    let experts := SliceStable (λ i j, (- Z.of_nat (replicaCount !!! i) <? - Z.of_nat (replicaCount !!! j))%Z) (seq 0 numExperts) in
    st ← foldM (placeExpert numGPUs replicaCount) (replicate numExperts [], replicate numGPUs 0) experts;
    if forallb (λ slots, slots =? physicalSlots / numGPUs) st.2 then Some (st.1, replicaCount) else None.

(** * The simulator *)

(** The fields that never change after construction. *)
Record moeParams := mkParams {
  numGPUs : nat; numExperts : nat; physicalSlots : nat; topK : Z; numLayers : nat; router : string;
  useDistributedRouting : bool; gpuFlops : f64; gpuBandwidth : f64; interconnectBW : f64; interconnectLatency : Z;
  expertWeightBytes : f64; flopsPerAssignment : f64; activationBytes : f64; networkBytes : f64; probabilities : list f64 }.

Record moeSimulator := mkMoe {
  params : moeParams; placements : list placement; eplbLoadWindow : list f64; eplbLoadWindowStep : nat;
  expertRearrangementStep : nat; placementGeneration : Z; lastReplacementMoves : nat; latencyCache : gmap (Z * Z) Z }.

Record moeRoutingState := mkState {
  active : list (gset nat); loads : list f64; sourceToDestination : option (list (list f64)) }.

Definition powerLawProbabilities (Pow : f64 → f64 → f64) (n : nat) (alpha : f64) : list f64 :=
  let weights := (λ e, Pow (f_of_Z (Z.of_nat (e + 1))) (f_opp alpha)) <$> seq 0 n in
  let total := foldl fadd f_zero weights in
  (λ w, fdiv w total) <$> weights.

Definition newMoESimulator (Pow : f64 → f64 → f64) (c : Configuration) : option moeSimulator :=
  let d := f_of_Z (MoEHiddenSize c) in
  let dff := f_of_Z (MoEIntermediateSize c) in
  let bytesPerElement := f_of_Z (MoEBytesPerElement c) in
  let n := Z.to_nat (MoENumExperts c) in
  let layers := Z.to_nat (MoENumLayers c) in
  let p := mkParams (Z.to_nat (MoEExpertParallelSize c)) n (Z.to_nat (MoEPhysicalExpertSlots c)) (MoETopK c) layers
    (MoERouter c) (UseDistributedRouting c) (MoEGPUFlops c) (MoEGPUMemoryBandwidth c) (MoEInterconnectBandwidth c)
    (MoEInterconnectLatency c)
    (fmul (fmul (fmul (f_of_Z 3) d) dff) bytesPerElement)
    (fmul (fmul (f_of_Z 6) d) dff)
    (fmul (fadd (fmul (f_of_Z 2) d) dff) bytesPerElement)
    (fmul d bytesPerElement)
    (powerLawProbabilities Pow n (MoEExpertPopularityAlpha c)) in
  initial ← vllmInitialPlacementOneLayer n (physicalSlots p) (numGPUs p);
  Some (mkMoe p (replicate layers initial) (replicate (vllmEPLBWindowSize * layers * n) f_zero) 0
          (vllmEPLBStepInterval - vllmEPLBStepInterval / 4) 0 0 ∅).

(** * Routing *)

Definition newMoERoutingState (n : nat) : moeRoutingState := mkState (replicate n ∅) (replicate n f_zero) None.

(** [expertOrder]: by decreasing value, then by id. *)
Definition expertOrder (values : list f64) : list nat :=
  let v i := values !!! i in
  SliceStable (λ i j, if feq (v i) (v j) then i <? j else flt (v j) (v i)) (seq 0 (length values)).

Section Routing.
Variable m : moeParams.

Definition gpuCost (activeExperts : Z) (assignments : f64) : f64 :=
  let memorySeconds := fdiv (fadd (fmul (f_of_Z activeExperts) (expertWeightBytes m)) (fmul assignments (activationBytes m))) (gpuBandwidth m) in
  let computeSeconds := fdiv (fmul assignments (flopsPerAssignment m)) (gpuFlops m) in
  f_max memorySeconds computeSeconds.

(** The cost of a GPU in a state. *)
Definition stateCost (st : moeRoutingState) (gpu : nat) : option f64 :=
  a ← active st !! gpu; l ← loads st !! gpu; Some (gpuCost (Z.of_nat (size a)) l).

Definition maxGPUCost (st : moeRoutingState) : option f64 :=
  foldM (λ maxCost gpu, cost ← stateCost st gpu; Some (if flt maxCost cost then cost else maxCost)) f_zero (seq 0 (numGPUs m)).

(** [state.active[gpu][expert] = struct{}{}; state.loads[gpu] += tokens]. *)
Definition assign (expert : nat) (tokens : f64) (st : moeRoutingState) (gpu : nat) : option moeRoutingState :=
  a ← active st !! gpu; l ← loads st !! gpu;
  Some (mkState (<[gpu := {[expert]} ∪ a]> (active st)) (<[gpu := fadd l tokens]> (loads st)) (sourceToDestination st)).

Definition routeSplit (counts : list f64) (p : placement) : option moeRoutingState :=
  foldM (λ st x, let '(expert, count) := x in
    if fle count f_zero then Some st
    else ranks ← p !! expert; foldM (assign expert (fdiv count (f_of_Z (Z.of_nat (length ranks))))) st ranks)
    (newMoERoutingState (numGPUs m)) (enumerate counts).

(** The cheapest holder; [None] is [bestGPU = -1] with [bestCost = +Inf]. *)
Definition cheapest (st : moeRoutingState) (expert : nat) (count : f64) (best : option (nat * f64)) (gpu : nat)
  : option (option (nat * f64)) :=
  a ← active st !! gpu; l ← loads st !! gpu;
  let activeExperts := if bool_decide (expert ∈ (a : gset nat)) then size a else S (size a) in
  let cost := gpuCost (Z.of_nat activeExperts) (fadd l count) in
  Some (if flt cost (match best with Some (_, bestCost) => bestCost | None => f_inf end) then Some (gpu, cost) else best).

(** One expert of the loop; indexing with [bestGPU = -1] panics. *)
Definition concentrateOne (counts : list f64) (p : placement) (st : moeRoutingState) (expert : nat) : option moeRoutingState :=
  count ← counts !! expert;
  if fle count f_zero then Some st
  else
    ranks ← p !! expert;
    best ← foldM (cheapest st expert count) None ranks;
    match best with
    | Some (bestGPU, _) => assign expert count st bestGPU
    | None => None
    end.

Definition routeConcentrate (counts : list f64) (p : placement) : option moeRoutingState :=
  foldM (concentrateOne counts p) (newMoERoutingState (numGPUs m)) (expertOrder counts).

Definition heuristicExpertOrder (counts : list f64) : list nat :=
  let solo i := gpuCost 1 (counts !!! i) in
  SliceStable (λ i j, if feq (solo i) (solo j) then i <? j else flt (solo j) (solo i))
    (filter (λ i, flt f_zero (counts !!! i) = true) (seq 0 (length counts))).

Definition heuristicReplicaCount (count : f64) (availableReplicas : nat) : nat :=
  let weightSeconds := fdiv (expertWeightBytes m) (gpuBandwidth m) in
  let computeSeconds := fdiv (fmul count (flopsPerAssignment m)) (gpuFlops m) in
  if fle computeSeconds weightSeconds then 1
  else
    let replicas := f_to_int (f_round_even (fdiv computeSeconds weightSeconds)) in
    let replicas := if (replicas <? 1)%Z then 1%Z else replicas in
    if (Z.of_nat availableReplicas <? replicas)%Z then availableReplicas else Z.to_nat replicas.

(** [chunks !! expert !! gpu]: the tokens of the expert on the GPU. *)
Abbreviation chunkMap := (gmap nat (gmap nat f64)).

(** [chunks[expert][gpu] += tokens]. *)
Definition addChunk (expert gpu : nat) (tokens : f64) (chunks : chunkMap) : chunkMap :=
  let c := default ∅ (chunks !! expert) in
  <[expert := <[gpu := fadd (default f_zero (c !! gpu)) tokens]> c]> chunks.

(** The initial split of one expert over its least loaded holders. *)
Definition heuristicSplit (counts : list f64) (p : placement) (acc : moeRoutingState * chunkMap) (expert : nat)
  : option (moeRoutingState * chunkMap) :=
  let '(st, chunks) := acc in
  count ← counts !! expert;
  ranks ← p !! expert;
  let replicaCount := heuristicReplicaCount count (length ranks) in
  let cost i := default f_zero (stateCost st i) in
  let candidates := SliceStable (λ i j, flt (cost i) (cost j)) ranks in
  let share := fdiv count (f_of_Z (Z.of_nat replicaCount)) in
  if length ranks <? replicaCount then None
  else
    foldM (λ acc gpu, st ← assign expert share acc.1 gpu; Some (st, addChunk expert gpu share acc.2))
      (st, <[expert := ∅]> chunks) (take replicaCount candidates).

(** The bottleneck GPU and its cost. *)
Definition slowest (st : moeRoutingState) : option (nat * f64) :=
  base ← stateCost st 0;
  foldM (λ acc gpu, cost ← stateCost st gpu; Some (if flt acc.2 cost then (gpu, cost) else acc)) (0, base) (seq 1 (numGPUs m - 1)).

Record move := mkMove { mv_expert : nat; mv_destination : nat; mv_tokens : f64; mv_hadExpert : bool }.

(** The largest cost of the GPUs a move does not touch. *)
Definition otherCost (st : moeRoutingState) (slow destination : nat) : option f64 :=
  foldM (λ other gpu, if (gpu =? slow) || (gpu =? destination) then Some other
                      else cost ← stateCost st gpu; Some (if flt other cost then cost else other)) f_zero (seq 0 (numGPUs m)).

(** One destination for the chunk [tokens] of [expert] on the slow GPU. *)
Definition tryMove (st : moeRoutingState) (expertChunks : gmap nat f64) (slow : nat) (base tokens : f64) (expert : nat)
    (best : f64 * option move) (destination : nat) : option (f64 * option move) :=
  if destination =? slow then Some best
  else
    let had := bool_decide (is_Some (expertChunks !! destination)) in
    sa ← active st !! slow; sl ← loads st !! slow;
    da ← active st !! destination; dl ← loads st !! destination;
    let sourceCost := gpuCost (Z.of_nat (size sa) - 1) (fsub sl tokens) in
    let destinationCost := gpuCost (Z.of_nat (size da) + (if had then 0 else 1)) (fadd dl tokens) in
    other ← otherCost st slow destination;
    let after := f_max sourceCost (f_max destinationCost other) in
    let gain := fsub base after in
    Some (if flt best.1 gain then (gain, Some (mkMove expert destination tokens had)) else best).

Definition bestMove (st : moeRoutingState) (chunks : chunkMap) (p : placement) (order : list nat) (slow : nat) (base : f64)
  : option (f64 * option move) :=
  foldM (λ best expert,
    let expertChunks := default ∅ (chunks !! expert) in
    match expertChunks !! slow with
    | None => Some best
    | Some tokens =>
        if fle tokens f_zero then Some best
        else ranks ← p !! expert; foldM (tryMove st expertChunks slow base tokens expert) best ranks
    end) (f_const 1 (10 ^ 12), None) order.

Definition applyMove (slow : nat) (mv : move) (st : moeRoutingState) (chunks : chunkMap) : option (moeRoutingState * chunkMap) :=
  let e := mv_expert mv in
  let chunks := <[e := delete slow (default ∅ (chunks !! e))]> chunks in
  sa ← active st !! slow; sl ← loads st !! slow;
  let st := mkState (<[slow := sa ∖ {[e]}]> (active st)) (<[slow := fsub sl (mv_tokens mv)]> (loads st)) (sourceToDestination st) in
  let chunks := addChunk e (mv_destination mv) (mv_tokens mv) chunks in
  da ← active st !! mv_destination mv; dl ← loads st !! mv_destination mv;
  let act := if mv_hadExpert mv then active st else <[mv_destination mv := {[e]} ∪ da]> (active st) in
  Some (mkState act (<[mv_destination mv := fadd dl (mv_tokens mv)]> (loads st)) (sourceToDestination st), chunks).

(** At most [n] improving moves. *)
Fixpoint localSearch (n : nat) (p : placement) (order : list nat) (acc : moeRoutingState * chunkMap)
  : option (moeRoutingState * chunkMap) :=
  match n with
  | 0 => Some acc
  | S n =>
      slow ← slowest acc.1;
      best ← bestMove acc.1 acc.2 p order slow.1 slow.2;
      match best.2 with
      | None => Some acc
      | Some mv => acc ← applyMove slow.1 mv acc.1 acc.2; localSearch n p order acc
      end
  end.

Definition routeHeuristic (counts : list f64) (p : placement) : option moeRoutingState :=
  let order := heuristicExpertOrder counts in
  acc ← foldM (heuristicSplit counts p) (newMoERoutingState (numGPUs m), ∅) order;
  acc ← localSearch 20 p order acc;
  Some acc.1.

Definition routeCentral (counts : list f64) (p : placement) : option moeRoutingState :=
  if bool_decide (router m = MoERouterConcentrate) then routeConcentrate counts p
  else if bool_decide (router m = MoERouterHeuristic) then routeHeuristic counts p
  else routeSplit counts p.

(** [distributeReplicaTokens]: integer counts are dealt out round robin. *)
Definition distributeReplicaTokens (tokens : f64) (replicas : nat) : list f64 :=
  if (replicas =? 0) || fle tokens f_zero then replicate replicas f_zero
  else
    let rounded := f_round tokens in
    if flt (f_abs (fsub tokens rounded)) (f_const 1 (10 ^ 9)) then
      let n := f_to_int rounded in
      let base := Z.quot n (Z.of_nat replicas) in
      let remainder := Z.rem n (Z.of_nat replicas) in
      (λ r, if (Z.of_nat r <? remainder)%Z then fadd (f_of_Z base) (f_of_Z 1) else f_of_Z base) <$> seq 0 replicas
    else replicate replicas (fdiv tokens (f_of_Z (Z.of_nat replicas))).

(** [bySource !! source !! expert]. *)
Definition splitCountsBySource (counts : list f64) (n : nat) : list (list f64) :=
  let chunks := (λ count, distributeReplicaTokens count n) <$> counts in
  (λ source, (λ c, c !!! source) <$> chunks) <$> seq 0 n.

(** One source's row: its loads are added and recorded, its active experts merged. *)
Definition aggregateSource (n : nat) (states : list moeRoutingState) (acc : moeRoutingState) (source : nat)
  : option moeRoutingState :=
  let rows := default [] (sourceToDestination acc) in
  match states !! source with
  | None => Some (mkState (active acc) (loads acc) (Some (rows ++ [replicate n f_zero])))
  | Some st =>
      if (length (loads st) <? n) || (length (active st) <? n) then None
      else Some (mkState (zip_with (∪) (active acc) (take n (active st))) (zip_with fadd (loads acc) (take n (loads st)))
                  (Some (rows ++ [take n (loads st)])))
  end.

Definition aggregateDistributedRouting (states : list moeRoutingState) (n : nat) : option moeRoutingState :=
  let st := newMoERoutingState n in
  foldM (aggregateSource n states) (mkState (active st) (loads st) (Some [])) (seq 0 n).

Definition routeDistributed (counts : list f64) (p : placement) : option moeRoutingState :=
  states ← mapM (λ c, routeCentral c p) (splitCountsBySource counts (numGPUs m));
  aggregateDistributedRouting states (numGPUs m).

Definition route (counts : list f64) (p : placement) : option moeRoutingState :=
  if useDistributedRouting m && (1 <? numGPUs m) then routeDistributed counts p else routeCentral counts p.

(** * Costs *)

(** [time.Duration.Seconds]. *)
Definition Seconds (d : Z) : f64 :=
  fadd (f_of_Z (Z.quot d (10 ^ 9))) (fdiv (f_of_Z (Z.rem d (10 ^ 9))) (f_of_Z (10 ^ 9))).

(** [time.Duration(seconds * float64(time.Second))]. *)
Definition durationOf (seconds : f64) : Z := f_to_int (fmul seconds (f_of_Z (10 ^ 9))).

(** The sum of a row without its own entry. *)
Definition remoteSum (self : nat) (row : list f64) : f64 :=
  foldl (λ acc x, if x.1 =? self then acc else fadd acc x.2) f_zero (enumerate row).

Definition communicationCost (st : moeRoutingState) : option f64 :=
  if numGPUs m <=? 1 then Some f_zero
  else
    match sourceToDestination st with
    | Some rows =>
        let maxSend := foldl (λ acc x, f_max acc (remoteSum x.1 x.2)) f_zero (enumerate rows) in
        maxRemote ← foldM (λ acc destination,
          column ← mapM (λ row : list f64, row !! destination) rows;
          Some (f_max acc (remoteSum destination column))) maxSend (seq 0 (numGPUs m));
        if feq maxRemote f_zero then Some f_zero
        else
          let phaseSeconds := fadd (fdiv (fmul maxRemote (networkBytes m)) (interconnectBW m)) (Seconds (interconnectLatency m)) in
          Some (fmul (f_of_Z 2) phaseSeconds)
    | None =>
        let maxAssignments := foldl f_max f_zero (loads st) in
        if feq maxAssignments f_zero then Some f_zero
        else
          let remoteFraction := fsub (f_of_Z 1) (fdiv (f_of_Z 1) (f_of_Z (Z.of_nat (numGPUs m)))) in
          let bytesPerPhase := fmul (fmul maxAssignments remoteFraction) (networkBytes m) in
          let phaseSeconds := fadd (fdiv bytesPerPhase (interconnectBW m)) (Seconds (interconnectLatency m)) in
          Some (fmul (f_of_Z 2) phaseSeconds)
    end.

(** The latency of one forward pass, computed layer by layer. *)
Definition forwardLatency (counts : list f64) (ps : list placement) : option Z :=
  total ← foldM (λ total layer,
    p ← ps !! layer;
    st ← route counts p;
    gpu ← maxGPUCost st;
    comm ← communicationCost st;
    Some (fadd total (fadd gpu comm))) f_zero (seq 0 (numLayers m));
  Some (durationOf total).

(** * Replacement of experts *)

(** The copies of a layer's new placement a GPU does not hold yet. *)
Definition inboundMoves (old new : placement) : option (list nat) :=
  foldM (λ moves x, let '(expert, newRanks) := x in
    oldRanks ← old !! expert;
    foldM (λ moves rank, if bool_decide (rank ∈ (oldRanks : list nat)) then Some moves
                         else if rank <? numGPUs m then Some (alter S rank moves) else None) moves newRanks)
    (replicate (numGPUs m) 0) (enumerate new).

Definition layerCost (old new : list placement) (acc : f64 * nat) (layer : nat) : option (f64 * nat) :=
  o ← old !! layer; n ← new !! layer;
  moves ← inboundMoves o n;
  let maxInbound := max_list moves in
  let seconds := if 0 <? maxInbound
    then fadd acc.1 (fadd (Seconds (interconnectLatency m)) (fdiv (fmul (f_of_Z (Z.of_nat maxInbound)) (expertWeightBytes m)) (interconnectBW m)))
    else acc.1 in
  Some (seconds, acc.2 + sum_list moves).

Definition replacementCost (old new : list placement) : option (Z * nat) :=
  if numGPUs m <=? 1 then Some (0%Z, 0)
  else acc ← foldM (layerCost old new) (f_zero, 0) (seq 0 (numLayers m)); Some (durationOf acc.1, acc.2).

End Routing.

(** * Load balancing *)

Definition shouldRecordEPLBLoad (s : moeSimulator) : bool :=
  (Z.of_nat vllmEPLBStepInterval - Z.of_nat (expertRearrangementStep s) <=? Z.of_nat vllmEPLBWindowSize)%Z.

(** [copy(w[off:off+n], src)]. *)
Definition copyInto (off n : nat) (src w : list f64) : option (list f64) :=
  if off + n <=? length w then Some (take off w ++ take n src ++ drop (off + length (take n src)) w) else None.

Definition recordEPLBLoad (counts : list f64) (s : moeSimulator) : option moeSimulator :=
  let m := params s in
  let stride := numLayers m * numExperts m in
  let base := eplbLoadWindowStep s * stride in
  w ← foldM (λ w layer, copyInto (base + layer * numExperts m) (numExperts m) counts w) (eplbLoadWindow s) (seq 0 (numLayers m));
  let step := S (eplbLoadWindowStep s) in
  Some (mkMoe m (placements s) w (if vllmEPLBWindowSize <=? step then 0 else step) (expertRearrangementStep s)
          (placementGeneration s) (lastReplacementMoves s) (latencyCache s)).

(** Each cell adds its entries in window order. *)
Definition summedEPLBLogicalLoad (s : moeSimulator) : option (list (list f64)) :=
  let m := params s in
  let stride := numLayers m * numExperts m in
  mapM (λ layer, mapM (λ expert,
    foldM (λ acc windowStep, x ← eplbLoadWindow s !! (windowStep * stride + layer * numExperts m + expert); Some (fadd acc x))
      f_zero (seq 0 vllmEPLBWindowSize)) (seq 0 (numExperts m))) (seq 0 (numLayers m)).

Definition rebalanceExperts (s : moeSimulator) : option (moeSimulator * Z) :=
  let m := params s in
  logicalLoads ← summedEPLBLogicalLoad s;
  newPlacements ← mapM (λ load, fst <$> dhondtPlaceOneLayer load (physicalSlots m) (numGPUs m)) logicalLoads;
  cost ← replacementCost m (placements s) newPlacements;
  Some (mkMoe m newPlacements (eplbLoadWindow s) (eplbLoadWindowStep s) (expertRearrangementStep s)
          (u64 (placementGeneration s + 1)) cost.2 (latencyCache s), cost.1).

Definition set_rearrangementStep (n : nat) (s : moeSimulator) : moeSimulator :=
  mkMoe (params s) (placements s) (eplbLoadWindow s) (eplbLoadWindowStep s) n (placementGeneration s) (lastReplacementMoves s) (latencyCache s).
Definition set_latencyCache (c : gmap (Z * Z) Z) (s : moeSimulator) : moeSimulator :=
  mkMoe (params s) (placements s) (eplbLoadWindow s) (eplbLoadWindowStep s) (expertRearrangementStep s) (placementGeneration s)
    (lastReplacementMoves s) c.

Definition advanceEPLBStep (counts : list f64) (s : moeSimulator) : option (moeSimulator * Z) :=
  s ← (if shouldRecordEPLBLoad s then recordEPLBLoad counts s else Some s);
  let s := set_rearrangementStep (S (expertRearrangementStep s)) s in
  if expertRearrangementStep s <? vllmEPLBStepInterval then Some (s, 0%Z)
  else rebalanceExperts (set_rearrangementStep 0 s).

(** The logical load of a forward over [tokens] tokens. *)
Definition countsOf (m : moeParams) (tokens : Z) : list f64 :=
  (λ probability, fmul (f_of_Z (i64 (tokens * topK m))) probability) <$> probabilities m.

Definition latencyForTokens (tokens : Z) (s : moeSimulator) : option (moeSimulator * Z) :=
  if (tokens <=? 0)%Z then Some (s, 0%Z)
  else
    let counts := countsOf (params s) tokens in
    let cacheKey := (placementGeneration s, tokens) in
    r ← match latencyCache s !! cacheKey with
        | Some latency => Some (s, latency)
        | None =>
            latency ← forwardLatency (params s) counts (placements s);
            Some (set_latencyCache (<[cacheKey := latency]> (latencyCache s)) s, latency)
        end;
    let '(s, latency) := r : moeSimulator * Z in
    a ← advanceEPLBStep counts s;
    Some (a.1, i64 (latency + a.2)).

(** * Hooks of the latency calculators *)

Record TTFTParams := mkTTFT { PromptTokens : Z; CachedPromptTokens : Z; DoRemotePrefill : bool; RunningReqs : Z }.

Definition moePrefillLatency (params : TTFTParams) (moe : option moeSimulator) : option (option moeSimulator * Z) :=
  match moe with
  | None => Some (None, 0%Z)
  | Some s =>
      if DoRemotePrefill params then Some (Some s, 0%Z)
      else
        let tokens := i64 (PromptTokens params - CachedPromptTokens params) in
        r ← latencyForTokens (if (tokens <? 0)%Z then 0%Z else tokens) s; Some (Some r.1, r.2)
  end.

Definition moeDecodeLatency (running : Z) (moe : option moeSimulator) : option (option moeSimulator * Z) :=
  match moe with
  | None => Some (None, 0%Z)
  | Some s => r ← latencyForTokens (if (running <? 1)%Z then 1%Z else running) s; Some (Some r.1, r.2)
  end.

End Moe.
