(* ===== verification/MoePlacement.v ===== *)
(** Expert placement: vLLM's initial placement and the D'Hondt placement give
    every expert at least one copy, no rank two copies of one expert, and every
    rank the same number of copies; none of the panics is reachable. *)

From S2P Require Import Prelude GoFloat Moe.
Import Moe.
Open Scope nat_scope.

Module MoePlacement.

(** * Occupancy of a rank *)

(** The number of experts with a copy on [rank]. *)
Definition occupancy (p : placement) (rank : nat) : nat := length (filter (λ ranks, rank ∈ ranks) p).

(** A placement of [n] experts in which every one of [g] ranks has [k] slots. *)
Record ValidPlacement (n g k : nat) (p : placement) : Prop := mkValid {
  vp_experts : length p = n;
  vp_distinct : ∀ e ranks, p !! e = Some ranks → NoDup ranks;
  vp_copy : ∀ e ranks, p !! e = Some ranks → ranks ≠ [];
  vp_ranks : ∀ e ranks r, p !! e = Some ranks → r ∈ ranks → r < g;
  vp_slots : ∀ r, r < g → occupancy p r = k }.

Lemma occupancy_app p q r : occupancy (p ++ q) r = occupancy p r + occupancy q r.
Proof. unfold occupancy. by rewrite filter_app, length_app. Qed.

Lemma occupancy_empty n r : occupancy (replicate n []) r = 0.
Proof. unfold occupancy. induction n; [done|]. simpl. rewrite filter_cons_False; [done|]. apply not_elem_of_nil. Qed.

(** Appending a new rank to one expert's list. *)
Lemma occupancy_append p e ranks rank r :
  p !! e = Some ranks → rank ∉ ranks →
  occupancy (<[e := ranks ++ [rank]]> p) r = occupancy p r + (if decide (r = rank) then 1 else 0).
Proof.
  intros He Hn. apply take_drop_middle in He as E. rewrite <- E at 2.
  rewrite insert_take_drop by (by eapply lookup_lt_Some). rewrite !occupancy_app. rewrite <- Nat.add_assoc. f_equal.
  unfold occupancy. rewrite !filter_cons.
  destruct (decide (r ∈ ranks ++ [rank])) as [H1|H1], (decide (r ∈ ranks)) as [H2|H2], (decide (r = rank)) as [->|];
    simpl; try lia; exfalso; set_solver.
Qed.

(** * The initial placement *)

(** After [s] slots: expert [e] has the ranks of the slots below [s] it owns. *)
Record InitInv (n k s : nat) (p : placement) : Prop := mkInit {
  ii_length : length p = n;
  ii_distinct : ∀ e ranks, p !! e = Some ranks → NoDup ranks;
  ii_ranks : ∀ e ranks x, p !! e = Some ranks → x ∈ ranks → ∃ t, t < s ∧ t mod n = e ∧ x = t / k;
  ii_copy : ∀ e ranks, p !! e = Some ranks → e < s → ranks ≠ [];
  ii_slots : ∀ r, occupancy p r = Nat.min k (s - r * k) }.

Lemma physicalToLogical_mod n slot : 0 < n → physicalToLogical n slot = slot mod n.
Proof.
  intros Hn. unfold physicalToLogical. destruct (Nat.ltb_spec slot n); [by rewrite Nat.mod_small|].
  rewrite <- (Nat.Div0.mod_add (slot - n) 1 n). f_equal. lia.
Qed.

(** Two slots of one expert are at least [n] apart, so they lie on different ranks. *)
Lemma slots_apart n k s t : 0 < k ≤ n → t < s → t mod n = s mod n → t / k < s / k.
Proof.
  intros Hk Hts Hmod. assert (t + n ≤ s) as Hle.
  { pose proof (Nat.div_mod t n ltac:(lia)) as Et. pose proof (Nat.div_mod s n ltac:(lia)) as Es. rewrite Hmod in Et.
    assert (t / n < s / n) by (apply (Nat.mul_lt_mono_pos_l n); lia). nia. }
  assert (t / k + 1 ≤ s / k); [|lia]. rewrite <- Nat.div_add by lia. apply Nat.Div0.div_le_mono. lia.
Qed.

Lemma InitInv_step n k s p :
  0 < k ≤ n → InitInv n k s p →
  ∃ p', appendRank p (physicalToLogical n s) (s / k) = Some p' ∧ InitInv n k (S s) p'.
Proof.
  intros Hk [Hlen Hd Hr Hc Ho]. rewrite physicalToLogical_mod by lia.
  assert (s mod n < n) as Hmod by (apply Nat.mod_upper_bound; lia).
  destruct (lookup_lt_is_Some_2 p (s mod n) ltac:(lia)) as [ranks E].
  unfold appendRank. rewrite E. cbn [mbind option_bind]. eexists. split; [reflexivity|].
  assert (s / k ∉ ranks) as Hnew.
  { intros Hin. destruct (Hr _ _ _ E Hin) as (t & Ht & Hmt & Hdt). pose proof (slots_apart n k s t Hk Ht Hmt). lia. }
  assert (∀ e l, <[s mod n := ranks ++ [s / k]]> p !! e = Some l →
    (e = s mod n ∧ l = ranks ++ [s / k]) ∨ (e ≠ s mod n ∧ p !! e = Some l)) as Hl.
  { intros e l. destruct (decide (e = s mod n)) as [->|]; [rewrite list_lookup_insert_eq by lia; naive_solver|].
    rewrite list_lookup_insert_ne by done. naive_solver. }
  constructor.
  - by rewrite length_insert.
  - intros e l [[-> ->]|[_ H]]%Hl; [|by eapply Hd]. apply NoDup_app.
    split; [by eapply Hd|]. split; [set_solver|apply NoDup_singleton].
  - intros e l x [[-> ->]|[_ H]]%Hl Hx.
    + apply elem_of_app in Hx as [Hx|Hx]; [|apply list_elem_of_singleton in Hx as ->; exists s; auto].
      destruct (Hr _ _ _ E Hx) as (t & ? & ? & ?). exists t. auto.
    + destruct (Hr _ _ _ H Hx) as (t & ? & ? & ?). exists t. auto.
  - intros e l [[-> ->]|[Hne H]]%Hl Hs; [by destruct ranks|]. apply (Hc e); [done|].
    destruct (decide (e = s)) as [->|]; [|lia]. rewrite Nat.mod_small in Hne; [done|].
    apply lookup_lt_Some in H. lia.
  - intros r. rewrite (occupancy_append _ _ ranks) by done. rewrite Ho.
    pose proof (Nat.div_mod s k ltac:(lia)). pose proof (Nat.mod_upper_bound s k ltac:(lia)).
    destruct (decide (r = s / k)) as [->|Hne]; [nia|].
    destruct (decide (r < s / k)); nia.
Qed.

Lemma initial_placement_valid n p g :
  1 ≤ n ≤ p → p ≤ n * g → p mod g = 0 →
  ∃ pl, vllmInitialPlacementOneLayer n p g = Some pl ∧ ValidPlacement n g (p / g) pl.
Proof.
  intros Hn Hp Hmod. assert (0 < g) by lia. unfold vllmInitialPlacementOneLayer.
  rewrite (proj2 (Nat.ltb_ge n 1)), (proj2 (Nat.ltb_ge p n)), (proj2 (Nat.ltb_ge g 1)) by lia. simpl.
  rewrite Hmod, (proj2 (Nat.ltb_ge (n * g) p)) by lia. simpl.
  pose proof (Nat.div_mod p g ltac:(lia)) as Hdiv. rewrite Hmod in Hdiv. set (k := p / g) in *.
  assert (0 < k ≤ n) as Hk by nia.
  destruct (foldM_inv (λ pl slot, appendRank pl (physicalToLogical n slot) (slot / k))
    (λ l pl, InitInv n k (length l) pl) (seq 0 p) (replicate n [])) as (pl & E & HI).
  - constructor.
    + apply length_replicate.
    + intros e ranks [-> _]%lookup_replicate. constructor.
    + intros e ranks x [-> _]%lookup_replicate. set_solver.
    + simpl. lia.
    + intros r. rewrite occupancy_empty. simpl. lia.
  - intros done x rest pl El HI.
    assert (x = length done) as -> by
      (pose proof (list_lookup_middle done rest x _ eq_refl) as Hx; rewrite <- El, lookup_seq in Hx; lia).
    rewrite length_app, Nat.add_1_r. by apply InitInv_step.
  - exists pl. split; [done|]. rewrite length_seq in HI. destruct HI as [Hlen Hd Hr Hc Ho]. constructor; auto.
    + intros e ranks E'. apply (Hc e); [done|]. apply lookup_lt_Some in E'. lia.
    + intros e ranks r E' Hin. destruct (Hr _ _ _ E' Hin) as (t & Ht & _ & ->).
      apply Nat.Div0.div_lt_upper_bound. nia.
    + intros r Hr'. rewrite Ho. nia.
Qed.

(** * The D'Hondt allocation *)

(** Sums of lists of bounded numbers. *)
Lemma sum_list_cons x l : sum_list (x :: l) = x + sum_list l.
Proof. done. Qed.

Lemma sum_list_alter_S l i : i < length l → sum_list (alter S i l) = S (sum_list l).
Proof.
  revert i. induction l as [|x l IH]; intros [|i] Hi; [simpl in Hi; lia..|done|].
  change (x + sum_list (alter S i l) = S (x + sum_list l)). rewrite IH; simpl in Hi; lia.
Qed.

Lemma sum_list_at_most l b : (∀ x, x ∈ l → x ≤ b) → sum_list l ≤ length l * b.
Proof. induction l as [|x l IH]; intros H; [done|]. rewrite sum_list_cons. pose proof (H x ltac:(left)). specialize (IH ltac:(set_solver)). simpl. lia. Qed.

Lemma sum_list_at_least l b : (∀ x, x ∈ l → b ≤ x) → length l * b ≤ sum_list l.
Proof. induction l as [|x l IH]; intros H; [done|]. rewrite sum_list_cons. pose proof (H x ltac:(left)). specialize (IH ltac:(set_solver)). simpl. lia. Qed.

Lemma sum_list_tight_ge l b : (∀ x, x ∈ l → b ≤ x) → sum_list l = length l * b → ∀ x, x ∈ l → x = b.
Proof.
  induction l as [|y l IH]; intros H Hs x Hx; [set_solver|]. rewrite sum_list_cons in Hs. simpl in Hs.
  pose proof (H y ltac:(left)). pose proof (sum_list_at_least l b ltac:(set_solver)).
  apply elem_of_cons in Hx as [->|Hx]; [lia|]. apply IH; [set_solver|lia|done].
Qed.

Lemma sum_list_tight_le l b : (∀ x, x ∈ l → x ≤ b) → sum_list l = length l * b → ∀ x, x ∈ l → x = b.
Proof.
  induction l as [|y l IH]; intros H Hs x Hx; [set_solver|]. rewrite sum_list_cons in Hs. simpl in Hs.
  pose proof (H y ltac:(left)). pose proof (sum_list_at_most l b ltac:(set_solver)).
  apply elem_of_cons in Hx as [->|Hx]; [lia|]. apply IH; [set_solver|lia|done].
Qed.

(** Numbers that differ by at most one and sum to a multiple of their count are equal. *)
Lemma balanced_equal l m q :
  (∀ x, x ∈ l → m ≤ x ≤ m + 1) → sum_list l = length l * q → ∀ x, x ∈ l → x = q.
Proof.
  intros H Hs x Hx. assert (0 < length l) by (destruct l; [set_solver|simpl; lia]).
  pose proof (sum_list_at_least l m ltac:(intros; by apply H)). pose proof (sum_list_at_most l (m + 1) ltac:(intros; by apply H)).
  assert (q = m ∨ q = m + 1) as [-> | ->] by nia.
  - apply (sum_list_tight_ge l m); auto. intros. by apply H.
  - apply (sum_list_tight_le l (m + 1)); auto. intros. by apply H.
Qed.

Definition replicasOk (n g sum : nat) (rc : list nat) : Prop :=
  length rc = n ∧ (∀ c, c ∈ rc → 1 ≤ c ≤ g) ∧ sum_list rc = sum.

(** The search visits every expert without a panic and returns one below the cap, if any. *)
Lemma scoreSearch g rc load :
  length load = length rc →
  ∃ best, foldM (scoreStep g rc) None (enumerate load) = Some best ∧
    match best with
    | Some (b, _) => ∃ c, rc !! b = Some c ∧ c < g
    | None => ∀ c, c ∈ rc → g ≤ c
    end.
Proof.
  intros Hlen.
  destruct (foldM_inv (scoreStep g rc) (λ visited best, match best with
    | Some (b, _) => ∃ c, rc !! b = Some c ∧ c < g
    | None => ∀ e l, (e, l) ∈ visited → ∃ c, rc !! e = Some c ∧ g ≤ c end) (enumerate load) None) as (best & E & HI).
  - intros e l H. by apply not_elem_of_nil in H.
  - intros visited [e l] rest best El HI. unfold scoreStep.
    assert (Hel : (e, l) ∈ enumerate load) by (rewrite El; set_solver).
    apply elem_of_enumerate, lookup_lt_Some in Hel. rewrite Hlen in Hel.
    destruct (lookup_lt_is_Some_2 rc e Hel) as [c Ec]. rewrite Ec. cbn [mbind option_bind].
    destruct (Nat.leb_spec g c).
    + eexists. split; [reflexivity|]. destruct best as [[b s]|]; [done|].
      intros e' l' [H'|H']%elem_of_app; [by eapply HI|]. apply list_elem_of_singleton in H'. naive_solver.
    + destruct best as [[b s]|]; [destruct (flt _ _)|]; eexists; (split; [reflexivity|]); cbn; eauto.
  - exists best. split; [done|]. destruct best as [[b s]|]; [done|].
    intros c [e He]%list_elem_of_lookup. destruct (lookup_lt_is_Some_2 load e) as [l Hl].
    { rewrite Hlen. by eapply lookup_lt_Some. }
    destruct (HI e l ltac:(by apply elem_of_enumerate)) as (c' & Hc' & ?). congruence.
Qed.

Lemma replicasOk_bump n g sum rc b c :
  replicasOk n g sum rc → rc !! b = Some c → c < g → replicasOk n g (S sum) (alter S b rc).
Proof.
  intros (Hl & Hc & Hs) Hb Hlt. split; [by rewrite length_alter|]. split.
  - intros x [i Hi]%list_elem_of_lookup. destruct (decide (i = b)) as [->|].
    + rewrite list_lookup_alter_eq, Hb in Hi. simplify_eq/=. lia.
    + rewrite list_lookup_alter_ne in Hi by done. apply Hc. by eapply list_elem_of_lookup_2.
  - rewrite sum_list_alter_S by (by eapply lookup_lt_Some). lia.
Qed.

(** All slots are allocated: the cap leaves room as long as [sum < n * g]. *)
Lemma allocateReplicas_ok load g n remaining sum rc :
  length load = n → replicasOk n g sum rc → sum + remaining ≤ n * g →
  ∃ rc', allocateReplicas remaining load g rc = Some rc' ∧ replicasOk n g (sum + remaining) rc'.
Proof.
  revert sum rc. induction remaining as [|k IH]; intros sum rc Hn Hrc Hle; cbn [allocateReplicas].
  { exists rc. by rewrite Nat.add_0_r. }
  pose proof Hrc as (Hl & Hc & Hs).
  destruct (scoreSearch g rc load ltac:(lia)) as (best & E & Hbest). rewrite E. cbn [mbind option_bind].
  destruct best as [[b s]|].
  - destruct Hbest as (c & Hb & Hlt).
    destruct (IH (S sum) (alter S b rc) Hn (replicasOk_bump _ _ _ _ _ _ Hrc Hb Hlt) ltac:(lia)) as (rc' & E' & H').
    exists rc'. split; [done|]. by rewrite Nat.add_succ_r.
  - pose proof (sum_list_at_least rc g Hbest). lia.
Qed.

(** * Filling the ranks *)

(** One more copy on each of the chosen ranks. *)
Definition bump (rs : list nat) (chosen : list nat) : list nat := foldl (λ rs r, alter S r rs) rs chosen.

Lemma occupancy_fill p e chosen r :
  p !! e = Some [] → occupancy (<[e := chosen]> p) r = occupancy p r + (if decide (r ∈ chosen) then 1 else 0).
Proof.
  intros He. apply take_drop_middle in He as E. rewrite <- E at 2.
  rewrite insert_take_drop by (by eapply lookup_lt_Some). rewrite !occupancy_app. rewrite <- Nat.add_assoc. f_equal.
  unfold occupancy. rewrite !filter_cons. destruct (decide (r ∈ [])); [set_solver|].
  destruct (decide (r ∈ chosen)); simpl; lia.
Qed.

Lemma placeCopies e chosen p rs ranks :
  p !! e = Some ranks →
  foldM (placeCopy e) (p, rs) chosen = Some (<[e := ranks ++ chosen]> p, bump rs chosen).
Proof.
  revert p rs ranks. induction chosen as [|r chosen IH]; intros p rs ranks He; cbn [foldM].
  { by rewrite app_nil_r, list_insert_id. }
  unfold placeCopy at 1, appendRank. cbn [fst snd]. rewrite He. cbn [mbind option_bind].
  rewrite (IH _ _ (ranks ++ [r])) by (apply list_lookup_insert_eq; by eapply lookup_lt_Some).
  by rewrite list_insert_insert_eq, <- app_assoc.
Qed.

Lemma bump_lookup chosen rs r v :
  NoDup chosen → rs !! r = Some v →
  bump rs chosen !! r = Some (v + (if decide (r ∈ chosen) then 1 else 0)).
Proof.
  revert rs v. induction chosen as [|x chosen IH]; intros rs v Hnd Hr; unfold bump in *; cbn [foldl].
  { by rewrite decide_False, Nat.add_0_r by set_solver. }
  apply NoDup_cons in Hnd as [Hx Hnd]. destruct (decide (r = x)) as [->|Hne].
  - rewrite (IH _ (S v)) by (done || by rewrite list_lookup_alter_eq, Hr).
    rewrite decide_False by done. rewrite decide_True by set_solver. f_equal. lia.
  - rewrite (IH _ v) by (done || by rewrite list_lookup_alter_ne). f_equal. f_equal. repeat case_decide; set_solver.
Qed.

Lemma bump_length chosen rs : length (bump rs chosen) = length rs.
Proof. unfold bump. revert rs. induction chosen as [|x c IH]; intros rs; [done|]. simpl. by rewrite IH, length_alter. Qed.

Lemma bump_sum chosen rs :
  (∀ r, r ∈ chosen → r < length rs) → sum_list (bump rs chosen) = sum_list rs + length chosen.
Proof.
  unfold bump. revert rs. induction chosen as [|x c IH]; intros rs H; simpl; [lia|].
  rewrite IH by (intros; rewrite length_alter; set_solver). rewrite sum_list_alter_S by set_solver. lia.
Qed.

(** Incrementing the least occupied ranks keeps the occupancies within one of each other. *)
Lemma fill_balanced rs chosen m :
  (∀ r v, rs !! r = Some v → m ≤ v ≤ m + 1) → NoDup chosen → (∀ r, r ∈ chosen → r < length rs) →
  (∀ r r', r ∈ chosen → r' < length rs → (r' ∉ chosen) → rs !!! r ≤ rs !!! r') →
  ∃ m', ∀ r v, bump rs chosen !! r = Some v → m' ≤ v ≤ m' + 1.
Proof.
  intros Hm Hnd Hlt Hleast.
  destruct (decide (Exists (λ r, rs !!! r = m + 1) chosen)) as [Hex|Hex].
  - apply Exists_exists in Hex as (r1 & Hr1 & E1). exists (m + 1). intros r v Hv.
    assert (r < length rs) as Hr by (apply lookup_lt_Some in Hv; by rewrite bump_length in Hv).
    destruct (lookup_lt_is_Some_2 rs r Hr) as [v0 E0]. rewrite (bump_lookup _ _ _ v0) in Hv by done.
    injection Hv as <-. specialize (Hm _ _ E0). destruct (decide (r ∈ chosen)) as [|Hn]; [lia|].
    specialize (Hleast r1 r Hr1 Hr Hn). rewrite E1, (list_lookup_total_correct _ _ _ E0) in Hleast. lia.
  - exists m. intros r v Hv.
    assert (r < length rs) as Hr by (apply lookup_lt_Some in Hv; by rewrite bump_length in Hv).
    destruct (lookup_lt_is_Some_2 rs r Hr) as [v0 E0]. rewrite (bump_lookup _ _ _ v0) in Hv by done.
    injection Hv as <-. specialize (Hm _ _ E0). destruct (decide (r ∈ chosen)) as [Hin|]; [|lia].
    destruct (decide (v0 = m + 1)) as [->|]; [|lia]. exfalso. apply Hex, Exists_exists. exists r.
    by rewrite (list_lookup_total_correct _ _ _ E0).
Qed.

(** After the experts [placed]: the others have no copies yet. *)
Record FillInv (n g : nat) (rc placed : list nat) (st : placement * list nat) : Prop := mkFill {
  fi_experts : length st.1 = n;
  fi_ranks_len : length st.2 = g;
  fi_todo : ∀ e, e < n → (e ∉ placed) → st.1 !! e = Some [];
  fi_done : ∀ e ranks, st.1 !! e = Some ranks →
    NoDup ranks ∧ (∀ r, r ∈ ranks → r < g) ∧ (e ∈ placed → length ranks = rc !!! e);
  fi_slots : ∀ r, r < g → st.2 !! r = Some (occupancy st.1 r);
  fi_sum : sum_list st.2 = sum_list ((rc !!!.) <$> placed);
  fi_balanced : ∃ m, ∀ r v, st.2 !! r = Some v → m ≤ v ≤ m + 1 }.

(** The ranks an expert goes to: the least occupied ones. *)
Lemma chosen_ranks g (rs : list nat) k :
  length rs = g → k ≤ g →
  let chosen := take k (SliceStable (λ i j, (Z.of_nat (rs !!! i) <? Z.of_nat (rs !!! j))%Z) (seq 0 g)) in
  NoDup chosen ∧ length chosen = k ∧ (∀ r, r ∈ chosen → r < g) ∧
  (∀ r r', r ∈ chosen → r' < g → (r' ∉ chosen) → rs !!! r ≤ rs !!! r').
Proof.
  intros Hg Hk. cbv zeta. set (sorted := SliceStable _ _).
  assert (Hp : sorted ≡ₚ seq 0 g) by apply SliceStable_perm.
  assert (Hnd : NoDup sorted) by (rewrite Hp; apply NoDup_seq).
  assert (Hlen : length sorted = g) by (rewrite Hp; apply length_seq).
  split; [by eapply sublist_NoDup, sublist_take|]. split; [rewrite length_take; lia|]. split.
  - intros r Hr. assert (r ∈ sorted) as H' by (apply list_elem_of_lookup in Hr as [i [Hi _]%lookup_take_Some]; by eapply list_elem_of_lookup_2).
    rewrite Hp in H'. apply elem_of_seq in H'. lia.
  - intros r r' Hr Hr' Hn. apply list_elem_of_lookup in Hr as [i Hi].
    apply lookup_take_Some in Hi as [Hi Hik].
    assert (r' ∈ sorted) as [j Hj]%list_elem_of_lookup by (rewrite Hp; apply elem_of_seq; lia).
    assert (k ≤ j) as Hkj.
    { destruct (decide (j < k)); [|lia]. exfalso. apply Hn, list_elem_of_lookup. exists j. by apply lookup_take_Some. }
    pose proof (SliceStable_sorted (λ i, Z.of_nat (rs !!! i)) (seq 0 g) i j r r' ltac:(lia) Hi Hj). simpl in *. lia.
Qed.

Lemma placeExpert_ok n g rc placed st e :
  length rc = n → (∀ c, c ∈ rc → 1 ≤ c ≤ g) → e < n → (e ∉ placed) → FillInv n g rc placed st →
  ∃ st', placeExpert g rc st e = Some st' ∧ FillInv n g rc (placed ++ [e]) st'.
Proof.
  intros Hrc Hc He Hne [Hl Hg Htodo Hdone Hslots Hsum [m Hm]]. destruct st as [p rs]. cbn [fst snd] in *.
  unfold placeExpert. cbn [snd]. destruct (lookup_lt_is_Some_2 rc e ltac:(lia)) as [k Ek]. rewrite Ek. cbn [mbind option_bind].
  pose proof (Hc k ltac:(by eapply list_elem_of_lookup_2)) as Hk. rewrite (proj2 (Nat.ltb_ge g k)) by lia.
  destruct (chosen_ranks g rs k Hg ltac:(lia)) as (Hnd & Hlen & Hlt & Hleast).
  set (chosen := take k _) in *. pose proof (Htodo e He Hne) as Epe.
  rewrite (placeCopies e chosen p rs [] Epe). eexists. split; [reflexivity|]. cbn [app].
  change (foldl (λ rs r, alter S r rs) rs chosen) with (bump rs chosen).
  constructor; cbn [fst snd].
  - by rewrite length_insert.
  - by rewrite bump_length.
  - intros e' He' [H1 H2]%not_elem_of_app. rewrite list_lookup_insert_ne by set_solver. by apply Htodo.
  - intros e' ranks. destruct (decide (e' = e)) as [->|Hne'].
    + rewrite list_lookup_insert_eq by lia. intros [= <-]. split; [done|]. split; [done|].
      intros _. by rewrite (list_lookup_total_correct _ _ _ Ek).
    + rewrite list_lookup_insert_ne by done. intros E. destruct (Hdone _ _ E) as (? & ? & Hd). split; [done|]. split; [done|].
      intros [?|?]%elem_of_app; [by apply Hd|set_solver].
  - intros r Hr. rewrite (occupancy_fill _ _ _ _ Epe). apply bump_lookup; [done|]. by apply Hslots.
  - rewrite bump_sum by (intros; rewrite Hg; by apply Hlt). rewrite fmap_app, sum_list_with_app, Hsum, Hlen.
    cbn. rewrite (list_lookup_total_correct _ _ _ Ek). unfold id. lia.
  - apply (fill_balanced rs chosen m); auto; [intros; rewrite Hg; by apply Hlt|]. intros r r' Hr Hr'. rewrite Hg in Hr'. by apply Hleast.
Qed.

Lemma fmap_lookup_total_seq (rc : list nat) : (rc !!!.) <$> seq 0 (length rc) = rc.
Proof.
  apply list_eq. intros i. rewrite list_lookup_fmap. destruct (decide (i < length rc)) as [Hi|Hi].
  - rewrite lookup_seq_lt by done. simpl. destruct (lookup_lt_is_Some_2 rc i Hi) as [x Hx].
    by rewrite (list_lookup_total_correct _ _ _ Hx), Hx.
  - rewrite lookup_seq_ge by lia. by rewrite lookup_ge_None_2 by lia.
Qed.

(** The D'Hondt placement of any load vector, NaNs and infinities included. *)
Lemma dhondt_valid load p g :
  length load ≤ p → p ≤ length load * g → p mod g = 0 → 1 ≤ g →
  ∃ pl rc, dhondtPlaceOneLayer load p g = Some (pl, rc) ∧ ValidPlacement (length load) g (p / g) pl ∧
    replicasOk (length load) g p rc ∧ length <$> pl = rc.
Proof.
  intros Hp Hle Hmod Hg. set (n := length load) in *. unfold dhondtPlaceOneLayer. fold n.
  rewrite (proj2 (Nat.ltb_ge p n)), (proj2 (Nat.eqb_neq g 0)), Hmod, (proj2 (Nat.ltb_ge (n * g) p)) by lia. cbn [orb negb Nat.eqb].
  destruct (allocateReplicas_ok load g n (p - n) n (replicate n 1)) as (rc & Erc & Hrc); [done| |lia|].
  { split; [apply length_replicate|]. split; [intros c [-> _]%elem_of_replicate; lia|]. rewrite sum_list_replicate. lia. }
  rewrite Erc. cbn [mbind option_bind]. replace (n + (p - n)) with p in Hrc by lia. pose proof Hrc as (Hl & Hc & Hs).
  set (experts := SliceStable _ (seq 0 n)). assert (Hperm : experts ≡ₚ seq 0 n) by apply SliceStable_perm.
  destruct (foldM_inv (placeExpert g rc) (λ placed st, FillInv n g rc placed st) experts (replicate n [], replicate g 0)) as (st & E & HF).
  - constructor; cbn [fst snd]; try by rewrite ?length_replicate.
    + intros e He _. apply lookup_replicate. auto.
    + intros e ranks [-> _]%lookup_replicate. split; [constructor|]. split; set_solver.
    + intros r Hr. rewrite occupancy_empty. apply lookup_replicate. auto.
    + by rewrite sum_list_replicate, Nat.mul_0_r.
    + exists 0. intros r v [-> _]%lookup_replicate. lia.
  - intros placed e rest st El HI. apply placeExpert_ok; auto.
    + assert (e ∈ seq 0 n) as H%elem_of_seq; [|lia]. rewrite <- Hperm, El. set_solver.
    + assert (NoDup experts) as Hnd by (rewrite Hperm; apply NoDup_seq). rewrite El in Hnd.
      apply NoDup_app in Hnd. set_solver.
  - rewrite E. cbn [mbind option_bind]. destruct HF as [Hn Hgl _ Hd Hsl Hsum [m Hm]].
    rewrite Hperm in Hsum. rewrite <- Hl, fmap_lookup_total_seq, Hs in Hsum.
    pose proof (Nat.div_mod p g ltac:(lia)) as Hdiv. rewrite Hmod in Hdiv.
    assert (∀ v, v ∈ st.2 → v = p / g) as Heq.
    { apply (balanced_equal _ m); [|rewrite Hgl; lia]. intros v [r Hr]%list_elem_of_lookup. by eapply Hm. }
    rewrite (proj2 (forallb_forall _ _)).
    2: { intros v Hv%list_elem_of_In. apply Nat.eqb_eq. by apply Heq. }
    assert (∀ e ranks, st.1 !! e = Some ranks → length ranks = rc !!! e) as Hlenr.
    { intros e ranks Ee. apply (Hd _ _ Ee). rewrite Hperm. apply elem_of_seq. apply lookup_lt_Some in Ee. lia. }
    exists st.1, rc. split; [done|]. split; [|split; [done|]].
    + constructor; [done|..].
      * intros e ranks Ee. by apply (Hd _ _ Ee).
      * intros e ranks Ee ->. specialize (Hlenr _ _ Ee). apply lookup_lt_Some in Ee.
        destruct (lookup_lt_is_Some_2 rc e ltac:(lia)) as [c Ec]. rewrite (list_lookup_total_correct _ _ _ Ec) in Hlenr.
        specialize (Hc c ltac:(by eapply list_elem_of_lookup_2)). simpl in *. lia.
      * intros e ranks r Ee Hr. destruct (Hd _ _ Ee) as (_ & H & _). auto.
      * intros r Hr. apply Heq. by eapply list_elem_of_lookup_2, Hsl.
    + rewrite <- (fmap_lookup_total_seq rc). apply list_eq. intros e. rewrite !list_lookup_fmap, Hl, <- Hn.
      destruct (st.1 !! e) as [ranks|] eqn:Ee.
      * rewrite lookup_seq_lt by (by eapply lookup_lt_Some). simpl. f_equal. by apply Hlenr.
      * apply lookup_ge_None in Ee. by rewrite lookup_seq_ge by lia.
Qed.

(** * Theorems *)

(** C40: the D'Hondt placement of any load vector, whatever its values, is defined
    whenever the slots are divisible by the ranks and within the replica cap (the
    panic for unequal ranks is unreachable): every expert gets between one
    and one copy per rank, on distinct ranks, the copies add up to the
    slots, and every rank holds the same number of copies. *)
Theorem dhondt_placement_balanced load slots gpus :
  1 ≤ gpus → length load ≤ slots ≤ length load * gpus → slots mod gpus = 0 →
  ∃ pl rc, dhondtPlaceOneLayer load slots gpus = Some (pl, rc) ∧
    ValidPlacement (length load) gpus (slots / gpus) pl ∧ replicasOk (length load) gpus slots rc ∧ length <$> pl = rc.
Proof. intros Hg [Hl Hu] Hm. by apply dhondt_valid. Qed.

Lemma dhondt_placement_balanced_witness :
  dhondtPlaceOneLayer (f_of_Z <$> [100; 50; 25; 10]%Z) 6 2 = Some ([[0; 1]; [0; 1]; [0]; [1]], [2; 2; 1; 1]) ∧
  ∃ pl rc, dhondtPlaceOneLayer (f_of_Z <$> [100; 50; 25; 10]%Z) 6 2 = Some (pl, rc) ∧ ValidPlacement 4 2 3 pl.
Proof.
  split; [vm_compute; reflexivity|].
  destruct (dhondt_placement_balanced (f_of_Z <$> [100; 50; 25; 10]%Z) 6 2) as (pl & rc & E & HV & _).
  - lia.
  - rewrite length_fmap. simpl. lia.
  - reflexivity.
  - exists pl, rc. split; [exact E|exact HV].
Defined.

(** VLLM's initial placement is defined under the same conditions and is valid
    in the same sense. *)
Theorem initial_placement_balanced experts slots gpus :
  1 ≤ experts ≤ slots → slots ≤ experts * gpus → slots mod gpus = 0 →
  ∃ pl, vllmInitialPlacementOneLayer experts slots gpus = Some pl ∧ ValidPlacement experts gpus (slots / gpus) pl.
Proof. apply initial_placement_valid. Qed.

Lemma initial_placement_balanced_witness :
  vllmInitialPlacementOneLayer 8 12 4 = Some [[0; 2]; [0; 3]; [0; 3]; [1; 3]; [1]; [1]; [2]; [2]] ∧
  ∃ pl, vllmInitialPlacementOneLayer 8 12 4 = Some pl ∧ ValidPlacement 8 4 3 pl.
Proof.
  split; [vm_compute; reflexivity|]. apply (initial_placement_balanced 8 12 4); [lia|lia|reflexivity].
Defined.

End MoePlacement.
