(* ===== verification/MoeRouting.v ===== *)
(** Replica routing: whatever the router, assignments go only to GPUs that hold a
    copy of the expert, every loaded expert is served, and no index is out of
    range on a valid placement. *)

From S2P Require Import Prelude GoFloat Moe MoePlacement.
From Stdlib Require Import Floats.SpecFloat.
Import Moe MoePlacement.
Open Scope nat_scope.

Module MoeRouting.

(** [expert] is active on [gpu]. *)
Definition Active (st : moeRoutingState) (gpu expert : nat) : Prop :=
  ∃ a, active st !! gpu = Some a ∧ expert ∈ a.

Definition Shape (g : nat) (st : moeRoutingState) : Prop :=
  length (active st) = g ∧ length (loads st) = g.

Lemma new_shape g : Shape g (newMoERoutingState g).
Proof. split; apply length_replicate. Qed.

Lemma new_inactive g gpu e : ¬ Active (newMoERoutingState g) gpu e.
Proof. intros (a & [-> _]%lookup_replicate & H). set_solver. Qed.

Lemma flt_not_fle c : flt f_zero c = true → fle c f_zero = false.
Proof. destruct c as [[]|[]| |[] ? ?]; done. Qed.

Lemma assign_spec g e t st gpu :
  Shape g st → gpu < g →
  ∃ st', assign e t st gpu = Some st' ∧ Shape g st' ∧
    ∀ gpu' e', Active st' gpu' e' ↔ Active st gpu' e' ∨ (gpu' = gpu ∧ e' = e).
Proof.
  intros [Ha Hl] Hg. unfold assign. destruct (lookup_lt_is_Some_2 (active st) gpu ltac:(lia)) as [a Ea].
  destruct (lookup_lt_is_Some_2 (loads st) gpu ltac:(lia)) as [l El]. rewrite Ea, El. cbn [mbind option_bind].
  eexists. split; [reflexivity|]. split; [split; cbn; by rewrite length_insert|].
  intros gpu' e'. unfold Active. cbn [active]. destruct (decide (gpu' = gpu)) as [->|Hne].
  - rewrite list_lookup_insert_eq by lia. rewrite Ea. split.
    + intros (a' & [= <-] & [H%elem_of_singleton|H]%elem_of_union); [by right|left; eauto].
    + intros [(a' & [= <-] & H)|[_ ->]]; eexists; (split; [reflexivity|]); set_solver.
  - rewrite list_lookup_insert_ne by done. naive_solver.
Qed.

(** An expert's share goes to every rank of a list. *)
Lemma assign_all g e t ranks st :
  Shape g st → (∀ r, r ∈ ranks → r < g) →
  ∃ st', foldM (assign e t) st ranks = Some st' ∧ Shape g st' ∧
    ∀ gpu' e', Active st' gpu' e' ↔ Active st gpu' e' ∨ (gpu' ∈ ranks ∧ e' = e).
Proof.
  intros Hs Hr. destruct (foldM_inv (assign e t) (λ done st', Shape g st' ∧
    ∀ gpu' e', Active st' gpu' e' ↔ Active st gpu' e' ∨ (gpu' ∈ done ∧ e' = e)) ranks st) as (st' & E & H); [|..|eauto].
  - split; [done|]. set_solver.
  - intros done x rest st1 El [Hs1 H1].
    destruct (assign_spec g e t st1 x Hs1) as (st2 & E2 & Hs2 & H2); [apply Hr; rewrite El; set_solver|].
    exists st2. split; [done|]. split; [done|]. intros gpu' e'. rewrite H2, H1, elem_of_app, list_elem_of_singleton. naive_solver.
Qed.

Section Routers.
Variable m : moeParams.
Variable counts : list f64.
Variable p : placement.
Variable k : nat.
Hypothesis HG : 1 ≤ numGPUs m.
Hypothesis Hp : ValidPlacement (length counts) (numGPUs m) k p.

(** [gpu] holds a copy of an expert with load. *)
Definition Holder (gpu expert : nat) : Prop :=
  ∃ ranks count, p !! expert = Some ranks ∧ gpu ∈ ranks ∧ counts !! expert = Some count ∧ fle count f_zero = false.

(** What every router guarantees. *)
Definition Routed (st : moeRoutingState) : Prop :=
  Shape (numGPUs m) st ∧ (∀ gpu e, Active st gpu e → Holder gpu e) ∧
  ∀ e count, counts !! e = Some count → flt f_zero count = true → ∃ gpu, Active st gpu e.

Lemma counts_placed e count : counts !! e = Some count → ∃ ranks, p !! e = Some ranks ∧ ranks ≠ [].
Proof.
  intros Hc%lookup_lt_Some. rewrite <- (vp_experts _ _ _ _ Hp) in Hc.
  destruct (lookup_lt_is_Some_2 p e Hc) as [ranks E]. exists ranks. split; [done|]. by apply (vp_copy _ _ _ _ Hp e).
Qed.

Lemma ranks_lt e ranks r : p !! e = Some ranks → r ∈ ranks → r < numGPUs m.
Proof. apply (vp_ranks _ _ _ _ Hp). Qed.

(** ** Split *)

Lemma routeSplit_ok :
  ∃ st, routeSplit m counts p = Some st ∧ Shape (numGPUs m) st ∧ ∀ gpu e, Active st gpu e ↔ Holder gpu e.
Proof.
  unfold routeSplit.
  destruct (foldM_inv (λ st x, let '(expert, count) := x in
    if fle count f_zero then Some st
    else ranks ← p !! expert; foldM (assign expert (fdiv count (f_of_Z (Z.of_nat (length ranks))))) st ranks)
    (λ visited st, Shape (numGPUs m) st ∧
      ∀ gpu e, Active st gpu e ↔ Holder gpu e ∧ ∃ c, (e, c) ∈ visited) (enumerate counts) (newMoERoutingState (numGPUs m)))
    as (st & E & Hs & H).
  - split; [apply new_shape|]. intros gpu e. split; [intros H; by apply new_inactive in H|]. set_solver.
  - intros visited [e c] rest st El [Hs H].
    assert (counts !! e = Some c) as Ec by (apply elem_of_enumerate; rewrite El; set_solver).
    destruct (counts_placed e c Ec) as (ranks & Er & _).
    destruct (fle c f_zero) eqn:Ef.
    + exists st. split; [done|]. split; [done|]. intros gpu e'. rewrite H. split.
      * intros [? [c' ?]]. split; [done|]. exists c'. set_solver.
      * intros [Hh [c' [Hc|Hc]%elem_of_app]]; [split; eauto|]. exfalso.
        apply list_elem_of_singleton in Hc as [= -> ->]. destruct Hh as (? & ? & ? & ? & ? & ?). congruence.
    + rewrite Er. cbn [mbind option_bind].
      destruct (assign_all (numGPUs m) e (fdiv c (f_of_Z (Z.of_nat (length ranks)))) ranks st Hs) as (st' & E' & Hs' & H').
      { intros r. by apply ranks_lt with e. }
      exists st'. split; [done|]. split; [done|]. intros gpu e'. rewrite H', H. split.
      * intros [[? [c' ?]]|[? ->]]; [split; [done|]; exists c'; set_solver|].
        split; [by exists ranks, c|]. exists c. set_solver.
      * intros [Hh [c' [Hc|Hc]%elem_of_app]]; [left; eauto|]. right.
        apply list_elem_of_singleton in Hc as [= -> ->]. destruct Hh as (? & ? & ? & ? & ?). split; [congruence|done].
  - exists st. split; [done|]. split; [done|]. intros gpu e. rewrite H. split; [tauto|]. intros Hh. split; [done|].
    destruct Hh as (ranks & c & _ & _ & Hc & _). exists c. by apply elem_of_enumerate.
Qed.

Lemma routeSplit_routed : ∃ st, routeSplit m counts p = Some st ∧ Routed st.
Proof.
  destruct routeSplit_ok as (st & E & Hs & H). exists st. split; [done|]. split; [done|].
  split; [intros gpu e; apply H|]. intros e c Hc Hpos. destruct (counts_placed e c Hc) as (ranks & Er & Hne).
  destruct ranks as [|r ranks]; [done|]. exists r. apply H. exists (r :: ranks), c.
  repeat split; auto; [left|by apply flt_not_fle].
Qed.

(** ** Concentrate *)

(** The cost of [gpu] if the [c] tokens of expert [e] went to it. *)
Definition costWith (st : moeRoutingState) (e : nat) (c : f64) (gpu : nat) : option f64 :=
  a ← active st !! gpu; l ← loads st !! gpu; Some (gpuCost m (Z.of_nat (size ({[e]} ∪ a))) (fadd l c)).

(** Every GPU that could take the tokens has a cost that is not below +Inf. *)
Definition NoFiniteCost (cost : nat → option f64) (ranks : list nat) : Prop :=
  ∀ gpu, gpu ∈ ranks → ∃ x, cost gpu = Some x ∧ flt x f_inf = false.

(** The run of the concentrate router on these counts and this placement meets an
    expert with load, in the state [st] it has then reached, for which none of the
    holders has a finite cost: the cost model overflows on every one of them. *)
Definition costOverflow : Prop :=
  ∃ met e rest st c ranks, expertOrder counts = met ++ e :: rest ∧
    foldM (concentrateOne m counts p) (newMoERoutingState (numGPUs m)) met = Some st ∧
    counts !! e = Some c ∧ fle c f_zero = false ∧ p !! e = Some ranks ∧ NoFiniteCost (costWith st e c) ranks.

Lemma cheapest_cost st e c best gpu :
  cheapest m st e c best gpu = (cost ← costWith st e c gpu;
    Some (if flt cost (match best with Some (_, bestCost) => bestCost | None => f_inf end) then Some (gpu, cost) else best)).
Proof.
  unfold cheapest, costWith. destruct (active st !! gpu) as [a|]; [|done]. cbn [mbind option_bind].
  destruct (loads st !! gpu) as [l|]; [|done]. cbn [mbind option_bind]. cbv zeta.
  destruct (decide (e ∈ a)) as [H|H]; [rewrite bool_decide_true by done|rewrite bool_decide_false by done].
  - by rewrite subseteq_union_1_L by set_solver.
  - by rewrite size_union, size_singleton by set_solver.
Qed.

(** The search ends with a holder, unless every holder's cost overflows. *)
Lemma cheapest_ok st e c ranks :
  Shape (numGPUs m) st → (∀ r, r ∈ ranks → r < numGPUs m) →
  ∃ best, foldM (cheapest m st e c) None ranks = Some best ∧
    match best with Some (gpu, _) => gpu ∈ ranks | None => NoFiniteCost (costWith st e c) ranks end.
Proof.
  intros [Ha Hl] Hr.
  destruct (foldM_inv (cheapest m st e c) (λ visited best, match best with Some (gpu, _) => gpu ∈ ranks
    | None => NoFiniteCost (costWith st e c) visited end) ranks None) as (best & E & H).
  - by intros gpu ?%elem_of_nil.
  - intros visited gpu rest best El H. assert (gpu ∈ ranks) as Hin by (rewrite El; set_solver). rewrite cheapest_cost.
    assert (∃ x, costWith st e c gpu = Some x) as [x Ex].
    { unfold costWith. destruct (lookup_lt_is_Some_2 (active st) gpu) as [a ->]; [rewrite Ha; auto|].
      destruct (lookup_lt_is_Some_2 (loads st) gpu) as [l ->]; [rewrite Hl; auto|]. by eexists. }
    rewrite Ex. cbn [mbind option_bind]. eexists. split; [reflexivity|]. destruct (flt _ _) eqn:E; [done|].
    destruct best as [[g0 c0]|]; [done|]. intros gpu' [H'|H']%elem_of_app; [by apply H|].
    apply list_elem_of_singleton in H' as ->. eauto.
  - by exists best.
Qed.

Lemma cheapest_none st e c ranks : NoFiniteCost (costWith st e c) ranks → foldM (cheapest m st e c) None ranks = Some None.
Proof.
  induction ranks as [|r ranks IH]; intros H; [done|]. cbn [foldM]. rewrite cheapest_cost.
  destruct (H r) as (x & -> & Hx); [left|]. cbn [mbind option_bind]. rewrite Hx. apply IH. intros gpu Hg. apply H. by right.
Qed.

(** An overflow does stop the router: [costOverflow] is exactly its panic. *)
Lemma costOverflow_panics : costOverflow → routeConcentrate m counts p = None.
Proof.
  intros (met & e & rest & st & c & ranks & Eo & Est & Ec & Hpos & Er & Hn). unfold routeConcentrate. rewrite Eo.
  apply (foldM_stuck _ _ _ _ _ st Est). unfold concentrateOne. rewrite Ec. cbn [mbind option_bind]. rewrite Hpos, Er.
  cbn [mbind option_bind]. by rewrite cheapest_none.
Qed.

(** Each loaded expert is active on exactly one of its holders. *)
Lemma routeConcentrate_ok :
  (∃ st, routeConcentrate m counts p = Some st ∧ Routed st ∧
     ∀ e gpu gpu', Active st gpu e → Active st gpu' e → gpu = gpu') ∨
  (routeConcentrate m counts p = None ∧ costOverflow).
Proof.
  unfold routeConcentrate. set (order := expertOrder counts).
  assert (Hperm : order ≡ₚ seq 0 (length counts)) by apply SliceStable_perm.
  destruct (foldM_inv_at (concentrateOne m counts p) (λ visited st, Shape (numGPUs m) st ∧
      (∀ gpu e, Active st gpu e → Holder gpu e ∧ e ∈ visited) ∧
      (∀ e c, e ∈ visited → counts !! e = Some c → fle c f_zero = false → ∃ gpu, Active st gpu e) ∧
      (∀ e gpu gpu', Active st gpu e → Active st gpu' e → gpu = gpu'))
      (λ st e, ∃ c ranks, counts !! e = Some c ∧ fle c f_zero = false ∧ p !! e = Some ranks ∧ NoFiniteCost (costWith st e c) ranks)
      order (newMoERoutingState (numGPUs m)))
    as [(st & E & Hs & Hsound & Hcov & Huniq)|[E (met & e & rest & st & El & Est & _ & c & ranks & H)]].
  - split; [apply new_shape|]. split; [intros gpu e H; by apply new_inactive in H|]. split; [set_solver|].
    intros e gpu gpu' H. by apply new_inactive in H.
  - intros visited e rest st El (Hs & Hsound & Hcov & Huniq). unfold concentrateOne.
    assert (e < length counts) as Hlt.
    { assert (e ∈ seq 0 (length counts)) as H%elem_of_seq; [|lia]. rewrite <- Hperm, El. set_solver. }
    destruct (lookup_lt_is_Some_2 counts e Hlt) as [c Ec]. rewrite Ec. cbn [mbind option_bind].
    assert (e ∉ visited) as Hnew.
    { assert (NoDup order) as Hnd by (rewrite Hperm; apply NoDup_seq). rewrite El in Hnd. apply NoDup_app in Hnd. set_solver. }
    destruct (fle c f_zero) eqn:Ef.
    { left. exists st. split; [done|]. split; [done|]. split; [intros gpu e' H; apply Hsound in H; set_solver|].
      split; [|done]. intros e' c' [H|H]%elem_of_app Ec' Hpos; [eauto|]. apply list_elem_of_singleton in H as ->. congruence. }
    destruct (counts_placed e c Ec) as (ranks & Er & Hne). rewrite Er. cbn [mbind option_bind].
    destruct (cheapest_ok st e c ranks Hs) as (best & Eb & Hb); [intros r; by apply ranks_lt with e|].
    rewrite Eb. cbn [mbind option_bind]. destruct best as [[gpu cost]|]; [left|right; by eauto 10].
    destruct (assign_spec (numGPUs m) e c st gpu Hs) as (st' & E' & Hs' & H'); [by eapply ranks_lt|].
    exists st'. split; [done|]. split; [done|]. split; [|split].
    + intros gpu' e' [H|[-> ->]]%H'; [apply Hsound in H; set_solver|]. split; [by exists ranks, c|set_solver].
    + intros e' c' [H|H]%elem_of_app Ec' Hpos.
      * destruct (Hcov _ _ H Ec' Hpos) as [g Hg]. exists g. apply H'. by left.
      * apply list_elem_of_singleton in H as ->. exists gpu. apply H'. by right.
    + intros e' g1 g2 [H1|[-> ->]]%H' [H2|[? ?]]%H'; subst; eauto; exfalso; apply Hnew; by eapply Hsound.
  - left. exists st. split; [done|]. split; [|done]. split; [done|]. split; [intros gpu e H; by apply Hsound|].
    intros e c Hc Hpos. apply (Hcov e c); [|done|by apply flt_not_fle]. rewrite Hperm. apply elem_of_seq.
    apply lookup_lt_Some in Hc. lia.
  - right. split; [done|]. by exists met, e, rest, st, c, ranks.
Qed.

(** ** Heuristic *)

Lemma heuristicReplicaCount_bounds c n : 1 ≤ n → 1 ≤ heuristicReplicaCount m c n ≤ n.
Proof.
  intros Hn. unfold heuristicReplicaCount. destruct (fle _ _); [lia|]. set (r := f_to_int _).
  destruct (Z.ltb_spec r 1); [destruct (Z.ltb_spec (Z.of_nat n) 1)|destruct (Z.ltb_spec (Z.of_nat n) r)]; lia.
Qed.

(** The tokens of [expert] on [gpu] are recorded in the chunk table. *)
Definition HasChunk (chunks : gmap nat (gmap nat f64)) (expert gpu : nat) : Prop :=
  ∃ c, chunks !! expert = Some c ∧ is_Some (c !! gpu).

Lemma addChunk_spec e gpu t chunks e' gpu' :
  HasChunk (addChunk e gpu t chunks) e' gpu' ↔ HasChunk chunks e' gpu' ∨ (e' = e ∧ gpu' = gpu).
Proof.
  unfold HasChunk, addChunk. destruct (decide (e' = e)) as [->|Hne].
  - rewrite lookup_insert_eq. destruct (chunks !! e) as [c|] eqn:E; cbn [default].
    + split.
      * intros (c' & [= <-] & H). destruct (decide (gpu' = gpu)) as [->|]; [by right|]. rewrite lookup_insert_ne in H by done. left; eauto.
      * intros [(c' & [= <-] & H)|[_ ->]]; eexists; (split; [reflexivity|]); [|by rewrite lookup_insert_eq].
        destruct (decide (gpu' = gpu)) as [->|]; [by rewrite lookup_insert_eq|by rewrite lookup_insert_ne].
    + split.
      * intros (c' & [= <-] & H). destruct (decide (gpu' = gpu)) as [->|]; [by right|].
        rewrite lookup_insert_ne, lookup_empty in H by done. by destruct H.
      * intros [(c' & ? & H)|[_ ->]]; [done|]. eexists. split; [reflexivity|]. by rewrite lookup_insert_eq.
  - rewrite lookup_insert_ne by done. naive_solver.
Qed.

(** The state and the chunk table agree; only placed experts are active, on their holders. *)
Record HeurInv (placed : list nat) (acc : moeRoutingState * gmap nat (gmap nat f64)) : Prop := mkHeur {
  hi_shape : Shape (numGPUs m) acc.1;
  hi_chunks : ∀ gpu e, Active acc.1 gpu e ↔ HasChunk acc.2 e gpu;
  hi_holder : ∀ gpu e, Active acc.1 gpu e → Holder gpu e ∧ e ∈ placed;
  hi_covered : ∀ e, e ∈ placed → ∃ gpu, Active acc.1 gpu e }.

Lemma heuristicSplit_ok placed acc e :
  HeurInv placed acc → (e ∉ placed) → (∃ c, counts !! e = Some c ∧ flt f_zero c = true) →
  ∃ acc', heuristicSplit m counts p acc e = Some acc' ∧ HeurInv (placed ++ [e]) acc'.
Proof.
  intros [Hs Hch Hh Hcov] Hnew (c & Ec & Hpos). destruct acc as [st chunks]. cbn [fst snd] in *.
  unfold heuristicSplit. rewrite Ec. cbn [mbind option_bind]. destruct (counts_placed e c Ec) as (ranks & Er & Hne).
  rewrite Er. cbn [mbind option_bind]. cbv zeta. set (n := heuristicReplicaCount m c (length ranks)).
  assert (1 ≤ n ≤ length ranks) as Hn by (apply heuristicReplicaCount_bounds; destruct ranks; [done|simpl; lia]).
  rewrite (proj2 (Nat.ltb_ge _ _)) by lia. set (cands := SliceStable _ ranks). set (share := fdiv _ _).
  assert (Hperm : cands ≡ₚ ranks) by apply SliceStable_perm. set (chosen := take n cands).
  assert (∀ r, r ∈ chosen → r ∈ ranks) as Hsub.
  { intros r Hr. rewrite <- Hperm. apply list_elem_of_lookup in Hr as [i [Hi _]%lookup_take_Some]. by eapply list_elem_of_lookup_2. }
  assert (HholdE : ∀ r, r ∈ chosen → Holder r e) by (intros r Hr; exists ranks, c; auto using flt_not_fle).
  assert (HnoA : ∀ gpu, ¬ Active st gpu e) by (intros gpu H; apply Hnew; by eapply Hh).
  match goal with |- context [foldM ?f _ _] => set (body := f) end.
  destruct (foldM_inv body (λ done acc', Shape (numGPUs m) acc'.1 ∧
      (∀ gpu' e', Active acc'.1 gpu' e' ↔ Active st gpu' e' ∨ (gpu' ∈ done ∧ e' = e)) ∧
      (∀ gpu' e', HasChunk acc'.2 e' gpu' ↔ (e' ≠ e ∧ HasChunk chunks e' gpu') ∨ (gpu' ∈ done ∧ e' = e)))
    chosen (st, <[e := ∅]> chunks)) as ([st' ch'] & E & Hs' & HA & HC).
  - cbn [fst snd]. split; [done|]. split; [set_solver|]. intros gpu' e'. unfold HasChunk.
    destruct (decide (e' = e)) as [->|Hn']; [rewrite lookup_insert_eq|rewrite lookup_insert_ne by done; set_solver].
    split; [intros (x & [= <-] & H); rewrite lookup_empty in H; by destruct H|set_solver].
  - intros done gpu rest [st1 ch1] El (Hs1 & HA1 & HC1). unfold body. cbn [fst snd] in *.
    destruct (assign_spec (numGPUs m) e share st1 gpu Hs1) as (st2 & E2 & Hs2 & H2).
    { apply ranks_lt with e ranks; [done|]. apply Hsub. rewrite El. set_solver. }
    rewrite E2. cbn [mbind option_bind]. eexists. split; [reflexivity|]. cbn [fst snd]. split; [done|]. split.
    + intros gpu' e'. rewrite H2, HA1, elem_of_app, list_elem_of_singleton. naive_solver.
    + intros gpu' e'. rewrite addChunk_spec, HC1, elem_of_app, list_elem_of_singleton. naive_solver.
  - exists (st', ch'). split; [done|]. constructor; cbn [fst snd] in *.
    + done.
    + intros gpu e'. rewrite HA, HC, Hch. destruct (decide (e' = e)) as [->|]; [|naive_solver].
      split; [intros [H|H]; [exfalso; apply (HnoA gpu); by apply Hch|by right]|naive_solver].
    + intros gpu e' [H|[H ->]]%HA; [apply Hh in H; set_solver|]. split; [by apply HholdE|set_solver].
    + intros e' [H|H]%elem_of_app; [destruct (Hcov _ H) as [g Hg]; exists g; apply HA; by left|].
      apply list_elem_of_singleton in H as ->. destruct chosen as [|g0 rest] eqn:Ech.
      * apply (f_equal length) in Ech. unfold chosen in Ech. rewrite length_take, Hperm in Ech. simpl in Ech. lia.
      * exists g0. apply HA. right. split; [left|done].
Qed.

Lemma stateCost_ok st gpu : Shape (numGPUs m) st → gpu < numGPUs m → ∃ c, stateCost m st gpu = Some c.
Proof.
  intros [Ha Hl] Hg. unfold stateCost. destruct (lookup_lt_is_Some_2 (active st) gpu) as [a ->]; [lia|].
  destruct (lookup_lt_is_Some_2 (loads st) gpu) as [l ->]; [lia|]. by eexists.
Qed.

Lemma slowest_ok st : Shape (numGPUs m) st → ∃ s, slowest m st = Some s ∧ s.1 < numGPUs m.
Proof.
  intros Hs. unfold slowest. destruct (stateCost_ok st 0 Hs ltac:(lia)) as [c0 ->]. cbn [mbind option_bind].
  apply (foldM_inv _ (λ _ acc, acc.1 < numGPUs m)); [simpl; lia|].
  intros done gpu rest acc El Hacc. assert (gpu ∈ seq 1 (numGPUs m - 1)) as H%elem_of_seq by (rewrite El; set_solver).
  destruct (stateCost_ok st gpu Hs ltac:(lia)) as [c ->]. cbn [mbind option_bind]. eexists. split; [reflexivity|].
  destruct (flt _ _); simpl; lia.
Qed.

Lemma otherCost_ok st slow dest : Shape (numGPUs m) st → ∃ c, otherCost m st slow dest = Some c.
Proof.
  intros Hs. unfold otherCost.
  match goal with |- context [foldM ?f ?b ?l] => destruct (foldM_inv f (λ _ _, True) l b I) as (c & -> & _); [|eauto] end.
  intros done gpu rest acc El _. assert (gpu ∈ seq 0 (numGPUs m)) as H%elem_of_seq by (rewrite El; set_solver).
  destruct (_ || _); [eauto|]. destruct (stateCost_ok st gpu Hs ltac:(lia)) as [c ->]. cbn [mbind option_bind]. eauto.
Qed.

(** A move of a chunk from the slow GPU to another holder of the expert. *)
Definition ValidMove (slow : nat) (chunks : gmap nat (gmap nat f64)) (mv : move) : Prop :=
  HasChunk chunks (mv_expert mv) slow ∧ mv_destination mv ≠ slow ∧
  (∃ ranks, p !! mv_expert mv = Some ranks ∧ mv_destination mv ∈ ranks) ∧
  (mv_hadExpert mv = true ↔ HasChunk chunks (mv_expert mv) (mv_destination mv)).

Lemma bestMove_ok st chunks order slow base :
  Shape (numGPUs m) st → slow < numGPUs m → (∀ e, e ∈ order → is_Some (p !! e)) →
  ∃ best, bestMove m st chunks p order slow base = Some best ∧ ∀ mv, best.2 = Some mv → ValidMove slow chunks mv.
Proof.
  intros Hs Hslow Hord. pose proof Hs as [Ha Hl]. unfold bestMove.
  apply (foldM_inv _ (λ _ best, ∀ mv, best.2 = Some mv → ValidMove slow chunks mv)); [done|].
  intros done e rest best El Hbest.
  destruct (chunks !! e) as [c|] eqn:Ec; [change (default ∅ (Some c)) with c|by exists best].
  destruct (c !! slow) as [tokens|] eqn:Et; [|eauto]. destruct (fle tokens f_zero); [eauto|].
  destruct (Hord e ltac:(rewrite El; set_solver)) as [ranks Er]. rewrite Er. cbn [mbind option_bind].
  apply (foldM_inv _ (λ _ best, ∀ mv, best.2 = Some mv → ValidMove slow chunks mv)); [done|].
  intros done' dest rest' best' El' Hbest'. assert (dest ∈ ranks) as Hin by (rewrite El'; set_solver).
  unfold tryMove. destruct (Nat.eqb_spec dest slow) as [->|Hne]; [eauto|]. pose proof (ranks_lt _ _ _ Er Hin).
  destruct (lookup_lt_is_Some_2 (active st) slow) as [sa ->]; [lia|]. destruct (lookup_lt_is_Some_2 (loads st) slow) as [sl ->]; [lia|].
  destruct (lookup_lt_is_Some_2 (active st) dest) as [da ->]; [lia|]. destruct (lookup_lt_is_Some_2 (loads st) dest) as [dl ->]; [lia|].
  destruct (otherCost_ok st slow dest Hs) as [o ->]. cbn [mbind option_bind]. eexists. split; [reflexivity|].
  destruct (flt _ _); [|done]. intros mv [= <-]. split; [|split; [done|split]]; cbn.
  - exists c. split; [done|]. by exists tokens.
  - by exists ranks.
  - rewrite bool_decide_eq_true. unfold HasChunk. rewrite Ec. naive_solver.
Qed.

Lemma applyMove_ok placed acc slow mv :
  HeurInv placed acc → slow < numGPUs m → ValidMove slow acc.2 mv →
  ∃ acc', applyMove slow mv acc.1 acc.2 = Some acc' ∧ HeurInv placed acc'.
Proof.
  intros [[Ha Hl] Hch Hh Hcov] Hslow (Hc & Hne & (ranks & Er & Hin) & Hhad). destruct acc as [st chunks]. cbn [fst snd] in *.
  set (e := mv_expert mv) in *. set (dest := mv_destination mv) in *.
  pose proof (ranks_lt _ _ _ Er Hin) as Hdest. unfold applyMove. fold e dest.
  destruct (lookup_lt_is_Some_2 (active st) slow) as [sa Esa]; [lia|]. destruct (lookup_lt_is_Some_2 (loads st) slow) as [sl Esl]; [lia|].
  rewrite Esa, Esl. cbn [mbind option_bind active loads]. rewrite !list_lookup_insert_ne by done.
  destruct (lookup_lt_is_Some_2 (active st) dest) as [da Eda]; [lia|]. destruct (lookup_lt_is_Some_2 (loads st) dest) as [dl Edl]; [lia|].
  rewrite Eda, Edl. cbn [mbind option_bind]. eexists. split; [reflexivity|].
  set (act := if mv_hadExpert mv then _ else _). set (ch' := addChunk e dest _ _).
  assert (HA : ∀ gpu e', (∃ a, act !! gpu = Some a ∧ e' ∈ a) ↔
     (Active st gpu e' ∧ (e' ≠ e ∨ gpu ≠ slow)) ∨ (gpu = dest ∧ e' = e)).
  { intros gpu e'. assert (Hact : act !! gpu = if decide (gpu = slow) then Some (sa ∖ {[e]})
      else if decide (gpu = dest) then Some (if mv_hadExpert mv then da else {[e]} ∪ da) else active st !! gpu).
    { unfold act. destruct (mv_hadExpert mv); repeat case_decide; subst; try done;
        rewrite ?list_lookup_insert_eq by (rewrite ?length_insert; lia); try done;
        rewrite ?list_lookup_insert_ne by done; rewrite ?list_lookup_insert_eq by (rewrite ?length_insert; lia); done. }
    rewrite Hact. unfold Active. destruct (decide (gpu = slow)) as [->|Hs].
    { rewrite Esa. split; [intros (a & [= <-] & H); left; set_solver|].
      intros [[(a & [= <-] & H) [H'|H']]|[H' _]]; [|done|congruence]. eexists. split; [reflexivity|]. set_solver. }
    destruct (decide (gpu = dest)) as [->|Hd]; [|naive_solver]. rewrite Eda. split.
    - intros (a & [= <-] & H). destruct (mv_hadExpert mv); [left; eauto|]. apply elem_of_union in H as [H%elem_of_singleton|H]; [by right|left; eauto].
    - intros [[(a & [= <-] & H) _]|[_ ->]]; eexists; (split; [reflexivity|]).
      + destruct (mv_hadExpert mv); [done|set_solver].
      + destruct (mv_hadExpert mv); [|set_solver]. destruct (proj2 (Hch dest e)) as (a & Ea & H); [by apply Hhad|]. congruence. }
  assert (HD : ∀ gpu e', HasChunk (<[e := delete slow (default ∅ (chunks !! e))]> chunks) e' gpu ↔
     HasChunk chunks e' gpu ∧ (e' ≠ e ∨ gpu ≠ slow)).
  { intros gpu e'. unfold HasChunk. destruct (decide (e' = e)) as [->|]; [|rewrite lookup_insert_ne by done; naive_solver].
    rewrite lookup_insert_eq. destruct Hc as (c & Ec & _). rewrite Ec. cbn [default]. split.
    - intros (x & [= <-] & H). destruct (decide (gpu = slow)) as [->|]; [rewrite lookup_delete_eq in H; by destruct H|].
      rewrite lookup_delete_ne in H by done. eauto.
    - intros [(x & [= <-] & H) [?|?]]; [done|]. eexists. split; [reflexivity|]. by rewrite lookup_delete_ne. }
  constructor; cbn [fst snd].
  - split; cbn; [|by rewrite !length_insert]. unfold act. destruct (mv_hadExpert mv); by rewrite !length_insert.
  - intros gpu e'. unfold ch'. rewrite addChunk_spec, HD, <- Hch. unfold Active at 1. cbn [active]. rewrite HA. naive_solver.
  - intros gpu e' H. unfold Active in H. cbn [active] in H. apply HA in H as [[H _]|[-> ->]]; [by apply Hh|].
    destruct (proj2 (Hch slow e)) as (a & Ea & Hea); [done|].
    destruct (Hh slow e) as [(r' & c & Er' & _ & Ecnt & Hpos) Hpl]; [by exists a|]. split; [|done].
    exists ranks, c. auto.
  - intros e' He'. destruct (decide (e' = e)) as [->|Hn]; [exists dest; apply HA; by right|].
    destruct (Hcov _ He') as [gpu Hg]. exists gpu. apply HA. left. auto.
Qed.

Lemma localSearch_ok n placed order acc :
  HeurInv placed acc → (∀ e, e ∈ order → is_Some (p !! e)) →
  ∃ acc', localSearch m n p order acc = Some acc' ∧ HeurInv placed acc'.
Proof.
  intros HI Hord. revert acc HI. induction n as [|n IH]; intros acc HI; cbn [localSearch]; [eauto|].
  destruct (slowest_ok acc.1 (hi_shape _ _ HI)) as (s & -> & Hs). cbn [mbind option_bind].
  destruct (bestMove_ok acc.1 acc.2 order s.1 s.2 (hi_shape _ _ HI) Hs Hord) as (best & -> & Hb). cbn [mbind option_bind].
  destruct best.2 as [mv|]; [|eauto].
  destruct (applyMove_ok placed acc s.1 mv HI Hs (Hb mv eq_refl)) as (acc1 & -> & HI1). cbn [mbind option_bind]. by apply IH.
Qed.

Lemma routeHeuristic_ok : ∃ st, routeHeuristic m counts p = Some st ∧ Routed st.
Proof.
  unfold routeHeuristic. cbv zeta. set (order := heuristicExpertOrder m counts).
  assert (Hperm : order ≡ₚ filter (λ i, flt f_zero (counts !!! i) = true) (seq 0 (length counts))) by apply SliceStable_perm.
  assert (Hord : ∀ e, e ∈ order ↔ ∃ c, counts !! e = Some c ∧ flt f_zero c = true).
  { intros e. rewrite Hperm, list_elem_of_filter, elem_of_seq. split.
    - intros [Hf [_ Hlt]]. destruct (lookup_lt_is_Some_2 counts e Hlt) as [c Ec]. rewrite (list_lookup_total_correct _ _ _ Ec) in Hf. eauto.
    - intros (c & Ec & Hf). rewrite (list_lookup_total_correct _ _ _ Ec). apply lookup_lt_Some in Ec. split; [done|lia]. }
  destruct (foldM_inv (heuristicSplit m counts p) HeurInv order (newMoERoutingState (numGPUs m), ∅)) as (acc & -> & HI).
  - constructor; cbn [fst snd]; [apply new_shape|..].
    + intros gpu e. split; [intros H; by apply new_inactive in H|]. intros (c & H & _). by rewrite lookup_empty in H.
    + intros gpu e H. by apply new_inactive in H.
    + set_solver.
  - intros placed e rest acc El HI. apply heuristicSplit_ok; [done| |].
    + assert (NoDup order) as Hnd by (rewrite Hperm; apply NoDup_filter, NoDup_seq). rewrite El in Hnd. apply NoDup_app in Hnd. set_solver.
    + apply Hord. rewrite El. set_solver.
  - cbn [mbind option_bind]. destruct (localSearch_ok 20 order order acc HI) as (acc' & -> & HI').
    { intros e (c & Ec & _)%Hord. destruct (counts_placed e c Ec) as (ranks & -> & _). eauto. }
    cbn [mbind option_bind]. exists acc'.1. split; [done|]. destruct HI' as [Hs _ Hh Hcov]. split; [done|].
    split; [intros gpu e H; by apply Hh|]. intros e c Ec Hpos. apply Hcov, Hord. eauto.
Qed.

Lemma routeCentral_ok :
  (∃ st, routeCentral m counts p = Some st ∧ Routed st) ∨
  (routeCentral m counts p = None ∧ router m = MoERouterConcentrate ∧ costOverflow).
Proof.
  unfold routeCentral. case_bool_decide.
  - destruct routeConcentrate_ok as [(st & E & H' & _)|[E H']]; [left; eauto|by right].
  - left. case_bool_decide; [apply routeHeuristic_ok|apply routeSplit_routed].
Qed.

End Routers.

(** ** Distributed routing *)

Lemma splitCountsBySource_row counts n row : row ∈ splitCountsBySource counts n → length row = length counts.
Proof.
  unfold splitCountsBySource. intros (i & -> & _)%list_elem_of_fmap. by rewrite !length_fmap.
Qed.

Lemma splitCountsBySource_length counts n : length (splitCountsBySource counts n) = n.
Proof. unfold splitCountsBySource. by rewrite length_fmap, length_seq. Qed.

(** The aggregate holds the union of the sources' active experts, one row of loads
    per source, and as loads the exact column sums, added in source order. *)
Lemma aggregate_ok n states :
  length states = n → (∀ st, st ∈ states → Shape n st) →
  ∃ agg, aggregateDistributedRouting states n = Some agg ∧ Shape n agg ∧
    sourceToDestination agg = Some (loads <$> states) ∧
    loads agg = foldl (zip_with fadd) (replicate n f_zero) (loads <$> states) ∧
    ∀ gpu e, Active agg gpu e ↔ ∃ st, st ∈ states ∧ Active st gpu e.
Proof.
  intros Hlen Hst. unfold aggregateDistributedRouting.
  destruct (foldM_inv (aggregateSource n states) (λ done acc, Shape n acc ∧
      sourceToDestination acc = Some (loads <$> take (length done) states) ∧
      loads acc = foldl (zip_with fadd) (replicate n f_zero) (loads <$> take (length done) states) ∧
      ∀ gpu e, Active acc gpu e ↔ ∃ st, st ∈ take (length done) states ∧ Active st gpu e) (seq 0 n)
      (mkState (active (newMoERoutingState n)) (loads (newMoERoutingState n)) (Some []))) as (agg & E & Hs & Hrows & Hl & HA).
  - split; [apply new_shape|]. split; [done|]. split; [done|]. intros gpu e. split; [|set_solver].
    intros H. by apply (new_inactive n) in H.
  - intros done i rest acc El ([Ha1 Hl1] & Hrows & Hl & HA).
    assert (i = length done ∧ i < n) as [-> Hi].
    { pose proof (list_lookup_middle done rest i _ eq_refl) as Hx. rewrite <- El, lookup_seq in Hx. lia. }
    destruct (lookup_lt_is_Some_2 states (length done) ltac:(lia)) as [st Est]. unfold aggregateSource. rewrite Est.
    destruct (Hst st ltac:(by eapply list_elem_of_lookup_2)) as [Ha Hll].
    rewrite Ha, Hll, (proj2 (Nat.ltb_ge n n)) by lia. cbn [orb]. eexists. split; [reflexivity|].
    rewrite length_app, Nat.add_1_r, (take_S_r _ _ st) by done. rewrite !take_ge by lia.
    split; [split; cbn; rewrite length_zip_with; lia|]. rewrite fmap_app, Hrows. cbn [sourceToDestination default]. split; [done|].
    cbn [loads]. split; [by rewrite foldl_app, Hl|].
    intros gpu e. unfold Active. cbn [active]. rewrite lookup_zip_with. split.
    + intros (a & Hz & He). destruct (active acc !! gpu) as [a1|] eqn:E1; [|done].
      destruct (active st !! gpu) as [a2|] eqn:E2; [|done]. injection Hz as <-. apply elem_of_union in He as [He|He].
      * destruct (proj1 (HA gpu e)) as (s' & ? & ?); [by exists a1|]. exists s'. set_solver.
      * exists st. split; [set_solver|by exists a2].
    + intros (s' & [Hin|Hin]%elem_of_app & a & Ea & He).
      * destruct (proj2 (HA gpu e)) as (a1 & E1 & He1); [exists s'; split; [done|by exists a]|].
        destruct (lookup_lt_is_Some_2 (active st) gpu) as [a2 E2]; [apply lookup_lt_Some in E1; lia|].
        rewrite E1, E2. cbn. eexists. split; [reflexivity|]. set_solver.
      * apply list_elem_of_singleton in Hin as ->. destruct (lookup_lt_is_Some_2 (active acc) gpu) as [a1 E1].
        { apply lookup_lt_Some in Ea. lia. }
        rewrite E1, Ea. cbn. eexists. split; [reflexivity|]. set_solver.
  - exists agg. rewrite length_seq, take_ge in * by lia. eauto.
Qed.

(** ** The dispatching router *)

Definition RowsOk (n : nat) (st : moeRoutingState) : Prop :=
  ∀ rows, sourceToDestination st = Some rows →
    length rows = n ∧ (∀ row, row ∈ rows → length row = n) ∧ loads st = foldl (zip_with fadd) (replicate n f_zero) rows.

(** [gpu] holds a copy of [e]. *)
Definition Holds (p : placement) (gpu e : nat) : Prop := ∃ ranks, p !! e = Some ranks ∧ gpu ∈ ranks.

(** The loads the experts have, as one list for the central routers and as one per
    source GPU for distributed routing. *)
Definition demands (m : moeParams) (counts : list f64) : list (list f64) :=
  if useDistributedRouting m && (1 <? numGPUs m) then splitCountsBySource counts (numGPUs m) else [counts].

(** The central routers record no source rows. *)
Definition Sourceless (st : moeRoutingState) : Prop := sourceToDestination st = None.

Lemma assign_sourceless e t st gpu st' : assign e t st gpu = Some st' → Sourceless st → Sourceless st'.
Proof. unfold assign. intros H. by simplify_option_eq. Qed.

Lemma heuristicSplit_sourceless m counts p acc e acc' :
  heuristicSplit m counts p acc e = Some acc' → Sourceless acc.1 → Sourceless acc'.1.
Proof.
  unfold heuristicSplit. destruct acc as [st chunks]. destruct (counts !! e); [|done]. destruct (p !! e); [|done].
  cbn [mbind option_bind]. cbv zeta. destruct (_ <? _); [done|].
  intros H Hst. eapply (foldM_preserves _ (λ acc, Sourceless acc.1)); [|exact H|done].
  intros [st1 ch1] gpu acc2. cbn [fst snd]. destruct (assign _ _ _ _) as [st2|] eqn:E; [|done].
  cbn [mbind option_bind]. intros [= <-]. by eapply assign_sourceless.
Qed.

Lemma localSearch_sourceless m n p order acc acc' :
  localSearch m n p order acc = Some acc' → Sourceless acc.1 → Sourceless acc'.1.
Proof.
  revert acc. induction n as [|n IH]; intros acc; cbn [localSearch]; [congruence|].
  destruct (slowest m acc.1); [|done]. cbn [mbind option_bind]. destruct (bestMove _ _ _ _ _ _ _) as [[g [mv|]]|]; cbn [mbind option_bind snd]; [|congruence|done].
  destruct (applyMove _ _ _ _) as [acc1|] eqn:E; [|done]. cbn [mbind option_bind]. intros H Hs. apply (IH acc1 H).
  unfold applyMove in E. by simplify_option_eq.
Qed.

Lemma routeCentral_sourceless m counts p st : routeCentral m counts p = Some st → Sourceless st.
Proof.
  unfold routeCentral. destruct (bool_decide _); [|destruct (bool_decide _)].
  - unfold routeConcentrate. intros H. eapply (foldM_preserves _ Sourceless); [|exact H|done].
    intros st1 e st2. unfold concentrateOne. destruct (counts !! e); [|done]. cbn [mbind option_bind]. destruct (fle _ _); [congruence|].
    destruct (p !! e); [|done]. cbn [mbind option_bind]. destruct (foldM (cheapest _ _ _ _) _ _) as [[[g c]|]|]; [|done..].
    cbn [mbind option_bind]. apply assign_sourceless.
  - unfold routeHeuristic. destruct (foldM _ _ _) as [acc|] eqn:E1; [|done]. cbn [mbind option_bind].
    destruct (localSearch _ _ _ _ _) as [acc2|] eqn:E2; [|done]. cbn [mbind option_bind]. intros [= <-].
    eapply localSearch_sourceless; [exact E2|].
    eapply (foldM_preserves _ (λ acc, Sourceless acc.1)); [|exact E1|done]. intros b x b'. apply heuristicSplit_sourceless.
  - unfold routeSplit. intros H. eapply (foldM_preserves _ Sourceless); [|exact H|done].
    intros st1 [e c] st2. cbn beta iota. destruct (fle _ _); [congruence|]. destruct (p !! e); [|done]. cbn [mbind option_bind].
    intros H' Hs. eapply (foldM_preserves _ Sourceless); [|exact H'|done]. intros b x b'. apply assign_sourceless.
Qed.

(** One of the routings, the central one or a source GPU's, meets only infinite costs. *)
Definition routeOverflow (m : moeParams) (counts : list f64) (p : placement) : Prop :=
  router m = MoERouterConcentrate ∧ ∃ d, d ∈ demands m counts ∧ costOverflow m d p.

(** What [route] returns on a valid placement. *)
Record RouteOk (m : moeParams) (counts : list f64) (p : placement) (st : moeRoutingState) : Prop := mkRouteOk {
  ro_shape : Shape (numGPUs m) st;
  ro_rows : RowsOk (numGPUs m) st;
  ro_sound : ∀ gpu e, Active st gpu e → Holds p gpu e;
  ro_served : ∀ d e c, d ∈ demands m counts → d !! e = Some c → flt f_zero c = true → ∃ gpu, Active st gpu e }.

Lemma route_cases m counts p k :
  1 ≤ numGPUs m → ValidPlacement (length counts) (numGPUs m) k p →
  (∃ st, route m counts p = Some st ∧ RouteOk m counts p st) ∨
  (route m counts p = None ∧ routeOverflow m counts p).
Proof.
  intros HG Hp.
  assert (Hcentral : ∀ c, length c = length counts →
    (∃ st, routeCentral m c p = Some st ∧ Routed m c p st) ∨
    (routeCentral m c p = None ∧ router m = MoERouterConcentrate ∧ costOverflow m c p)).
  { intros c Hc. apply (routeCentral_ok m c p k HG). by rewrite Hc. }
  assert (Hsound : ∀ c st gpu e, Routed m c p st → Active st gpu e → Holds p gpu e).
  { intros c st gpu e (_ & H & _) HA. destruct (H _ _ HA) as (ranks & _ & ? & ? & _). by exists ranks. }
  unfold route. destruct (useDistributedRouting m && (1 <? numGPUs m)) eqn:Ed.
  - unfold routeDistributed. destruct (mapM _ _) as [states|] eqn:Em.
    + left. cbn [mbind option_bind]. apply mapM_Some_1 in Em.
      assert (Hst : ∀ i c st, splitCountsBySource counts (numGPUs m) !! i = Some c → states !! i = Some st → Routed m c p st).
      { intros i c st Hi Hsi. pose proof (Forall2_lookup_lr _ _ _ _ _ _ Em Hi Hsi) as E. cbn beta in E.
        destruct (Hcentral c) as [(st' & E' & H)|(E' & _)]; [|congruence..].
        by eapply splitCountsBySource_row, list_elem_of_lookup_2. }
      assert (Hall : ∀ st, st ∈ states → ∃ c, c ∈ splitCountsBySource counts (numGPUs m) ∧ Routed m c p st).
      { intros st [i Hi]%list_elem_of_lookup. destruct (Forall2_lookup_r _ _ _ _ _ Em Hi) as (c & Hci & _).
        exists c. split; [by eapply list_elem_of_lookup_2|by eapply Hst]. }
      destruct (aggregate_ok (numGPUs m) states) as (agg & -> & Hs & Hrows & Hl & HA).
      { rewrite <- (Forall2_length _ _ _ Em). apply splitCountsBySource_length. }
      { intros st (c & _ & H & _)%Hall. done. }
      exists agg. split; [done|]. constructor; [done|..].
      * intros rows Er. rewrite Hrows in Er. injection Er as <-. rewrite length_fmap, <- (Forall2_length _ _ _ Em).
        split; [apply splitCountsBySource_length|]. split; [|done].
        intros row (st & -> & (c & _ & (_ & H) & _)%Hall)%list_elem_of_fmap. done.
      * intros gpu e (st & (c & _ & H)%Hall & Hact)%HA. by eapply Hsound.
      * intros d e c Hd Hc Hpos. unfold demands in Hd. rewrite Ed in Hd. apply list_elem_of_lookup in Hd as [i Hi].
        destruct (Forall2_lookup_l _ _ _ _ _ Em Hi) as (st & Hsi & _).
        destruct (Hst i d st Hi Hsi) as (_ & _ & Hserved). destruct (Hserved e c Hc Hpos) as [gpu Hg].
        exists gpu. apply HA. exists st. split; [by eapply list_elem_of_lookup_2|done].
    + right. split; [done|]. apply mapM_None_1, Exists_exists in Em as (c & Hc & E).
      destruct (Hcentral c) as [(st & E' & _)|(_ & Hr & H)]; [by eapply splitCountsBySource_row|congruence|].
      split; [done|]. exists c. unfold demands. by rewrite Ed.
  - destruct (Hcentral counts eq_refl) as [(st & E & H)|(E & Hr & H)]; [left|right; split; [done|]; split; [done|];
      exists counts; unfold demands; rewrite Ed; split; [left|done]]. exists st. split; [done|].
    constructor; [apply H|..].
    + intros rows Er. apply routeCentral_sourceless in E. unfold Sourceless in E. congruence.
    + intros gpu e. by eapply Hsound.
    + intros d e c Hd. unfold demands in Hd. rewrite Ed in Hd. apply list_elem_of_singleton in Hd as ->. apply H.
Qed.

(** ** Costs are defined *)

Lemma maxGPUCost_ok m st : Shape (numGPUs m) st → ∃ c, maxGPUCost m st = Some c.
Proof.
  intros Hs. unfold maxGPUCost.
  match goal with |- context [foldM ?f ?b ?l] => destruct (foldM_inv f (λ _ _, True) l b I) as (c & -> & _); [|eauto] end.
  intros done gpu rest acc El _. assert (gpu ∈ seq 0 (numGPUs m)) as H%elem_of_seq by (rewrite El; set_solver).
  destruct (stateCost_ok m ltac:(lia) st gpu Hs ltac:(lia)) as [c ->]. cbn [mbind option_bind]. eauto.
Qed.

Lemma communicationCost_ok m st : RowsOk (numGPUs m) st → ∃ c, communicationCost m st = Some c.
Proof.
  intros Hr. unfold communicationCost. destruct (_ <=? _); [eauto|]. destruct (sourceToDestination st) as [rows|] eqn:E.
  2: { destruct (feq _ _); eauto. }
  destruct (Hr rows E) as (_ & Hrow & _).
  match goal with |- context [foldM ?f ?b ?l] => destruct (foldM_inv f (λ _ _, True) l b I) as (c & -> & _) end.
  - intros done d rest acc El _. assert (d ∈ seq 0 (numGPUs m)) as H%elem_of_seq by (rewrite El; set_solver).
    destruct (mapM_is_Some_2 (λ row : list f64, row !! d) rows) as [col ->].
    { apply Forall_forall. intros row Hin. apply lookup_lt_is_Some_2. rewrite Hrow by done. lia. }
    cbn [mbind option_bind]. eauto.
  - cbn [mbind option_bind]. destruct (feq _ _); eauto.
Qed.

(** The routing of one of the layers meets only infinite costs. *)
Definition forwardOverflow (m : moeParams) (counts : list f64) (ps : list placement) : Prop :=
  ∃ p, p ∈ ps ∧ routeOverflow m counts p.

Lemma forwardLatency_ok m counts ps k :
  1 ≤ numGPUs m → length ps = numLayers m → (∀ p, p ∈ ps → ValidPlacement (length counts) (numGPUs m) k p) →
  (∃ d, forwardLatency m counts ps = Some d) ∨
  (forwardLatency m counts ps = None ∧ forwardOverflow m counts ps).
Proof.
  intros HG Hl Hp. unfold forwardLatency.
  match goal with |- context [foldM ?f ?b ?l] => destruct (foldM_inv_or f (λ _ _, True)
    (forwardOverflow m counts ps) l b I) as [(c & -> & _)|[-> H]] end; [|left; eexists; reflexivity|by right].
  intros done layer rest acc El _. assert (layer ∈ seq 0 (numLayers m)) as H%elem_of_seq by (rewrite El; set_solver).
  destruct (lookup_lt_is_Some_2 ps layer) as [p E]; [lia|]. rewrite E. cbn [mbind option_bind].
  destruct (route_cases m counts p k HG) as [(st & -> & Hst)|[-> Hov]]; [apply Hp; by eapply list_elem_of_lookup_2| |right; split; [done|]; exists p; split; [by eapply list_elem_of_lookup_2|done]].
  left. cbn [mbind option_bind]. destruct (maxGPUCost_ok m st (ro_shape _ _ _ _ Hst)) as [g ->].
  destruct (communicationCost_ok m st (ro_rows _ _ _ _ Hst)) as [c ->]. cbn [mbind option_bind]. eauto.
Qed.

(** * An example: three experts with four copies on two GPUs *)

Definition params_ex : moeParams :=
  mkParams 2 3 4 2 1 MoERouterHeuristic false (f_of_Z (10 ^ 12)) (f_of_Z (10 ^ 11)) (f_of_Z (10 ^ 10)) 5000
    (f_of_Z 12288) (f_of_Z 12288) (f_of_Z 320) (f_of_Z 128) [].

Definition placement_ex : placement := [[0; 1]; [0]; [1]].

Lemma placement_ex_ok : ValidPlacement 3 2 2 placement_ex.
Proof.
  constructor; [done|..].
  - intros [|[|[|]]] ranks [= <-]; repeat constructor; set_solver.
  - intros [|[|[|]]] ranks [= <-]; done.
  - intros [|[|[|]]] ranks r [= <-]; set_solver by lia.
  - intros [|[|]] ?; [vm_compute; reflexivity..|lia].
Qed.


(** * Theorems *)

(** On a valid placement every router, central or distributed, assigns an
    expert's tokens only to GPUs that hold a copy of it, serves every expert with
    load (of every source GPU), and reports per-destination loads that are exactly
    the sums of the sources' rows.  The only panic is the concentrate router's,
    when it meets an expert all of whose holders have a cost that is not below +Inf. *)
Theorem routing_respects_placement m counts p k :
  1 ≤ numGPUs m → ValidPlacement (length counts) (numGPUs m) k p →
  (∃ st, route m counts p = Some st ∧ RouteOk m counts p st) ∨
  (route m counts p = None ∧ routeOverflow m counts p).
Proof. apply route_cases. Qed.

Definition counts_ex : list f64 := f_of_Z <$> [8; 4; 2]%Z.

Lemma routing_respects_placement_witness :
  (active <$> route params_ex counts_ex placement_ex) = Some [{[1]}; {[0; 2]}] ∧
  ∃ st, route params_ex counts_ex placement_ex = Some st ∧ RouteOk params_ex counts_ex placement_ex st.
Proof.
  split; [vm_compute; reflexivity|].
  destruct (routing_respects_placement params_ex counts_ex placement_ex 2) as [H|(E & _)]; [..|exact H|].
  - vm_compute. lia.
  - exact placement_ex_ok.
  - vm_compute in E. discriminate E.
Defined.

(** The routers differ as their names say: split uses every copy of every
    loaded expert, concentrate exactly one. *)
Theorem split_and_concentrate m counts p k :
  1 ≤ numGPUs m → ValidPlacement (length counts) (numGPUs m) k p →
  (∃ st, routeSplit m counts p = Some st ∧ ∀ gpu e, Active st gpu e ↔ Holder counts p gpu e) ∧
  (∀ st, routeConcentrate m counts p = Some st →
     (∀ gpu e, Active st gpu e → Holder counts p gpu e) ∧
     ∀ e c, counts !! e = Some c → flt f_zero c = true → ∃ gpu, ∀ gpu', Active st gpu' e ↔ gpu' = gpu).
Proof.
  intros HG Hp. split.
  - destruct (routeSplit_ok m counts p k HG Hp) as (st & E & _ & H). by exists st.
  - intros st E. destruct (routeConcentrate_ok m counts p k HG Hp) as [(st' & E' & (_ & Hs & Hc) & Hu)|[E' _]]; [|congruence].
    rewrite E in E'. injection E' as <-. split; [done|]. intros e c Ec Hpos. destruct (Hc e c Ec Hpos) as [gpu Hg].
    exists gpu. intros gpu'. split; [intros H; by eapply Hu|by intros ->].
Qed.

Lemma split_and_concentrate_witness :
  (active <$> routeSplit params_ex counts_ex placement_ex) = Some [{[0; 1]}; {[0; 2]}] ∧
  (active <$> routeConcentrate params_ex counts_ex placement_ex) = Some [{[0; 1]}; {[2]}] ∧
  ∃ st, routeSplit params_ex counts_ex placement_ex = Some st ∧ ∀ gpu e, Active st gpu e ↔ Holder counts_ex placement_ex gpu e.
Proof.
  split; [vm_compute; reflexivity|]. split; [vm_compute; reflexivity|].
  apply (split_and_concentrate params_ex counts_ex placement_ex 2); [vm_compute; lia|exact placement_ex_ok].
Defined.

End MoeRouting.
