(* ===== verification/MoeEplb.v ===== *)
(** Expert load balancing over time: the load window, the rearrangement schedule,
    the latency cache and the placements of a running simulator. *)

From S2P Require Import Prelude GoFloat Moe MoePlacement MoeRouting.
Import Moe MoePlacement MoeRouting.
Open Scope nat_scope.

Module MoeEplb.

(** The constants, in quarters of the window. *)
Definition quarter : nat := 250.

Lemma eplb_constants :
  0 < quarter ∧ vllmEPLBWindowSize = 4 * quarter ∧ vllmEPLBStepInterval = 12 * quarter ∧
  vllmEPLBStepInterval - vllmEPLBStepInterval / 4 = 9 * quarter.
Proof. unfold quarter. split; [lia|]. repeat split; vm_compute; reflexivity. Qed.

(** * The load window *)

(** What a forward writes: its counts once per layer. *)
Definition rowOf (m : moeParams) (counts : list f64) : list f64 := concat (replicate (numLayers m) counts).

Definition zeroRow (m : moeParams) : list f64 := replicate (numLayers m * numExperts m) f_zero.

Lemma rowOf_length m counts : length counts = numExperts m → length (rowOf m counts) = numLayers m * numExperts m.
Proof. intros H. unfold rowOf. induction (numLayers m) as [|n IH]; simpl; [done|]. rewrite length_app. lia. Qed.

(** Copying the counts layer by layer overwrites exactly one row. *)
Lemma copy_layers n (counts pre row post : list f64) L :
  length counts = n → length row = L * n →
  foldM (λ w layer, copyInto (length pre + layer * n) n counts w) (pre ++ row ++ post) (seq 0 L) =
  Some (pre ++ concat (replicate L counts) ++ post).
Proof.
  intros Hc Hrow.
  destruct (foldM_inv (λ w layer, copyInto (length pre + layer * n) n counts w)
    (λ done w, length done ≤ L ∧ w = pre ++ concat (replicate (length done) counts) ++ drop (length done * n) row ++ post)
    (seq 0 L) (pre ++ row ++ post)) as (w & -> & _ & ->).
  - simpl. split; [lia|]. by rewrite drop_0.
  - intros done layer rest w El [_ ->].
    assert (layer = length done ∧ layer < L) as [-> Hl].
    { pose proof (list_lookup_middle done rest layer _ eq_refl) as Hx. rewrite <- El, lookup_seq in Hx. lia. }
    assert (Hcl : length (concat (replicate (length done) counts)) = length done * n).
    { clear -Hc. induction (length done) as [|k IH]; simpl; [done|]. rewrite length_app. lia. }
    unfold copyInto. rewrite (proj2 (Nat.leb_le _ _)) by (rewrite !length_app, Hcl, length_drop, Hrow; nia).
    eexists. split; [reflexivity|]. rewrite length_app, Nat.add_1_r. split; [lia|].
    rewrite (take_ge counts) by lia. rewrite replicate_S_end, concat_app. cbn [concat]. rewrite app_nil_r, Hc.
    rewrite !app_assoc, <- (app_assoc (pre ++ _) (drop _ _)).
    rewrite take_app_length' by (rewrite length_app, Hcl; lia).
    rewrite (drop_app_ge (pre ++ _)) by (rewrite length_app, Hcl; lia). rewrite length_app, Hcl.
    replace (length pre + length done * n + n - (length pre + length done * n)) with n by lia.
    rewrite <- !app_assoc. do 3 f_equal. rewrite drop_app_le by (rewrite length_drop, Hrow; nia).
    rewrite drop_drop. do 2 f_equal. lia.
  - rewrite length_seq, drop_ge by lia. done.
Qed.

Lemma concat_insert (rows : list (list f64)) i row x :
  rows !! i = Some row → concat rows = concat (take i rows) ++ row ++ concat (drop (S i) rows) ∧
  concat (<[i := x]> rows) = concat (take i rows) ++ x ++ concat (drop (S i) rows).
Proof.
  intros Hi. pose proof (lookup_lt_Some _ _ _ Hi). apply take_drop_middle in Hi as E. split.
  - rewrite <- E at 1. by rewrite concat_app.
  - rewrite insert_take_drop by done. by rewrite concat_app.
Qed.

Lemma concat_take_length (rows : list (list f64)) i n :
  (∀ r, r ∈ rows → length r = n) → i ≤ length rows → length (concat (take i rows)) = i * n.
Proof.
  revert i. induction rows as [|r rows IH]; intros [|i] H Hi; simpl in *; try lia.
  rewrite length_app, IH by (set_solver || lia). rewrite (H r) by set_solver. lia.
Qed.

(** The window holds the last [W] of the recorded rows, zero rows at first. *)
Definition windowOf (m : moeParams) (recorded : list (list f64)) : list (list f64) :=
  lastn vllmEPLBWindowSize (replicate vllmEPLBWindowSize (zeroRow m) ++ (rowOf m <$> recorded)).

Lemma windowOf_nil m : windowOf m [] = replicate vllmEPLBWindowSize (zeroRow m).
Proof.
  unfold windowOf. cbn [fmap list_fmap]. rewrite app_nil_r. unfold lastn. by rewrite length_replicate, Nat.sub_diag, drop_0.
Qed.

Lemma windowOf_length m recorded : length (windowOf m recorded) = vllmEPLBWindowSize.
Proof. unfold windowOf. rewrite lastn_length, length_app, length_replicate. lia. Qed.

Lemma windowOf_snoc m recorded c : windowOf m (recorded ++ [c]) = tail (windowOf m recorded) ++ [rowOf m c].
Proof.
  unfold windowOf. rewrite fmap_app, app_assoc. apply lastn_snoc_tail.
  destruct eplb_constants as (? & -> & _). rewrite length_app, length_replicate. lia.
Qed.

Lemma windowOf_rows m recorded row :
  (∀ c, c ∈ recorded → length c = numExperts m) → row ∈ windowOf m recorded → length row = numLayers m * numExperts m.
Proof.
  intros Hc Hrow. unfold windowOf, lastn in Hrow.
  assert (row ∈ replicate vllmEPLBWindowSize (zeroRow m) ++ (rowOf m <$> recorded)) as H.
  { apply list_elem_of_lookup in Hrow as [i Hi]. rewrite lookup_drop in Hi. by eapply list_elem_of_lookup_2. }
  apply elem_of_app in H as [[-> _]%elem_of_replicate|(c & -> & Hin)%list_elem_of_fmap]; [apply length_replicate|].
  apply rowOf_length. auto.
Qed.

(** The ring buffer of a simulator that recorded the given forwards. *)
Record WindowOk (s : moeSimulator) (recorded : list (list f64)) : Prop := mkWindow {
  wo_counts : ∀ c, c ∈ recorded → length c = numExperts (params s);
  wo_step : eplbLoadWindowStep s = length recorded mod vllmEPLBWindowSize;
  wo_window : eplbLoadWindow s = concat (ring (eplbLoadWindowStep s) (windowOf (params s) recorded)) }.

Lemma WindowOk_frame s s' recorded :
  params s' = params s → eplbLoadWindowStep s' = eplbLoadWindowStep s → eplbLoadWindow s' = eplbLoadWindow s →
  WindowOk s recorded → WindowOk s' recorded.
Proof. intros E1 E2 E3 [H1 H2 H3]. constructor; rewrite ?E1, ?E2, ?E3; auto. Qed.

Lemma ring_elem {A} w (l : list A) x : x ∈ ring w l → x ∈ l.
Proof.
  unfold ring. rewrite <- (take_drop (length l - w) l) at 5. rewrite !elem_of_app. tauto.
Qed.

Lemma recordEPLBLoad_ok s recorded counts :
  WindowOk s recorded → length counts = numExperts (params s) →
  ∃ s', recordEPLBLoad counts s = Some s' ∧ WindowOk s' (recorded ++ [counts]) ∧
    params s' = params s ∧ placements s' = placements s ∧ expertRearrangementStep s' = expertRearrangementStep s ∧
    placementGeneration s' = placementGeneration s ∧ latencyCache s' = latencyCache s.
Proof.
  intros [Hc Hstep Hwin] Hlen. destruct eplb_constants as (Hq & HW & _). unfold recordEPLBLoad. cbv zeta.
  set (m := params s) in *. set (w := eplbLoadWindowStep s) in *.
  assert (w < vllmEPLBWindowSize) as Hw by (rewrite Hstep; apply Nat.mod_upper_bound; lia).
  set (rows := ring w (windowOf m recorded)) in *.
  assert (length rows = vllmEPLBWindowSize) as Hrl by (unfold rows; by rewrite ring_length, windowOf_length).
  assert (∀ r, r ∈ rows → length r = numLayers m * numExperts m) as Hrows.
  { intros r Hr%ring_elem. by eapply windowOf_rows. }
  destruct (lookup_lt_is_Some_2 rows w ltac:(lia)) as [row Erow].
  destruct (concat_insert rows w row (rowOf m counts) Erow) as [E1 E2].
  rewrite Hwin, E1. replace (w * (numLayers m * numExperts m)) with (length (concat (take w rows)))
    by (apply concat_take_length; [done|lia]).
  rewrite (copy_layers (numExperts m) counts (concat (take w rows)) row) by (try done; apply Hrows; by eapply list_elem_of_lookup_2).
  change (concat (replicate (numLayers m) counts)) with (rowOf m counts). rewrite <- E2. cbn [mbind option_bind].
  eexists. split; [reflexivity|]. repeat split; cbn [params eplbLoadWindowStep eplbLoadWindow].
  - intros c [H|H]%elem_of_app; [by apply Hc|]. by apply list_elem_of_singleton in H as ->.
  - rewrite length_app, Nat.add_1_r. rewrite Hstep in *. destruct (Nat.leb_spec vllmEPLBWindowSize (S (length recorded mod vllmEPLBWindowSize))).
    + pose proof (Nat.div_mod (length recorded) vllmEPLBWindowSize ltac:(lia)).
      replace (S (length recorded)) with ((length recorded / vllmEPLBWindowSize + 1) * vllmEPLBWindowSize) by lia.
      by rewrite Nat.Div0.mod_mul.
    + pose proof (Nat.div_mod (length recorded) vllmEPLBWindowSize ltac:(lia)).
      replace (S (length recorded)) with (S (length recorded mod vllmEPLBWindowSize) + (length recorded / vllmEPLBWindowSize) * vllmEPLBWindowSize) by lia.
      rewrite Nat.Div0.mod_add. symmetry. by apply Nat.mod_small.
  - f_equal. fold m. unfold rows. rewrite ring_write by (by rewrite windowOf_length). rewrite <- windowOf_snoc.
    destruct (Nat.leb_spec vllmEPLBWindowSize (S w)); [|done].
    replace (S w) with (length (windowOf m (recorded ++ [counts]))) by (rewrite windowOf_length; lia). apply ring_wrap.
Qed.

(** * Rearrangement *)

(** Dimensions the constructor accepts. *)
Record ParamsOk (m : moeParams) : Prop := mkParamsOk {
  po_gpus : 1 ≤ numGPUs m;
  po_slots : numExperts m ≤ physicalSlots m ≤ numExperts m * numGPUs m;
  po_equal : physicalSlots m mod numGPUs m = 0;
  po_probs : length (probabilities m) = numExperts m }.

Definition slotsPerRank (m : moeParams) : nat := physicalSlots m / numGPUs m.

Definition PlacementsOk (m : moeParams) (ps : list placement) : Prop :=
  length ps = numLayers m ∧ ∀ p, p ∈ ps → ValidPlacement (numExperts m) (numGPUs m) (slotsPerRank m) p.

Lemma mapM_total {A B} (f : A → option B) (P : B → Prop) l :
  (∀ x, x ∈ l → ∃ y, f x = Some y ∧ P y) → ∃ k, mapM f l = Some k ∧ length k = length l ∧ ∀ y, y ∈ k → P y.
Proof.
  intros H. destruct (mapM_is_Some_2 f l) as [k E].
  { apply Forall_forall. intros x Hx. destruct (H x Hx) as (y & E & _). cbn. rewrite E. eauto. }
  exists k. split; [done|]. apply mapM_Some_1 in E. split; [by rewrite (Forall2_length _ _ _ E)|].
  intros y [i Hi]%list_elem_of_lookup. destruct (Forall2_lookup_r _ _ _ _ _ E Hi) as (x & Hx & Exy).
  destruct (H x) as (y' & E' & HP); [by eapply list_elem_of_lookup_2|]. cbn in Exy. congruence.
Qed.

(** The window has a cell per step, layer and expert. *)
Definition WindowLen (s : moeSimulator) : Prop :=
  length (eplbLoadWindow s) = vllmEPLBWindowSize * (numLayers (params s) * numExperts (params s)).

Lemma WindowOk_length s recorded : WindowOk s recorded → WindowLen s.
Proof.
  intros [Hc _ Hw]. unfold WindowLen. rewrite Hw. set (rows := ring _ _).
  rewrite <- (firstn_all rows), (concat_take_length rows (length rows) (numLayers (params s) * numExperts (params s))).
  - unfold rows. by rewrite ring_length, windowOf_length.
  - intros r Hr%ring_elem. by eapply windowOf_rows.
  - done.
Qed.

Lemma summed_ok s :
  WindowLen s →
  ∃ ls, summedEPLBLogicalLoad s = Some ls ∧ length ls = numLayers (params s) ∧ ∀ l, l ∈ ls → length l = numExperts (params s).
Proof.
  unfold WindowLen. intros HW. unfold summedEPLBLogicalLoad. cbv zeta. set (m := params s) in *.
  match goal with |- context [mapM ?f (seq 0 (numLayers m))] =>
    destruct (mapM_total f (λ l, length l = numExperts m) (seq 0 (numLayers m))) as (ls & E & Hls & H) end.
  2: { exists ls. split; [exact E|]. by rewrite Hls, length_seq. }
  intros layer Hlayer%elem_of_seq.
  destruct (mapM_total (λ expert, foldM (λ acc windowStep, x ← eplbLoadWindow s !! (windowStep * (numLayers m * numExperts m) + layer * numExperts m + expert);
      Some (fadd acc x)) f_zero (seq 0 vllmEPLBWindowSize)) (λ _, True) (seq 0 (numExperts m))) as (l & E & Hl & _).
  2: { exists l. split; [exact E|]. by rewrite Hl, length_seq. }
  intros expert Hexpert%elem_of_seq.
  match goal with |- context [foldM ?f ?b ?l] => destruct (foldM_inv f (λ _ _, True) l b I) as (c & E & _); [|eauto] end.
  intros done step rest acc El _. assert (step ∈ seq 0 vllmEPLBWindowSize) as Hs%elem_of_seq by (rewrite El; apply elem_of_middle).
  destruct (lookup_lt_is_Some_2 (eplbLoadWindow s) (step * (numLayers m * numExperts m) + layer * numExperts m + expert)) as [x ->]; [|cbn; eauto].
  rewrite HW. clear -Hlayer Hexpert Hs. revert Hs. generalize vllmEPLBWindowSize. intros W Hs.
  assert (layer * numExperts m + expert < numLayers m * numExperts m) by nia.
  assert (S step * (numLayers m * numExperts m) ≤ W * (numLayers m * numExperts m)) by (apply Nat.mul_le_mono_r; lia). lia.
Qed.

(** D'Hondt placements for the loads of every layer. *)
Definition rebalanced (s : moeSimulator) : option (list placement) :=
  logicalLoads ← summedEPLBLogicalLoad s;
  mapM (λ load, fst <$> dhondtPlaceOneLayer load (physicalSlots (params s)) (numGPUs (params s))) logicalLoads.

Lemma rebalanced_ok s :
  ParamsOk (params s) → WindowLen s → ∃ ps, rebalanced s = Some ps ∧ PlacementsOk (params s) ps.
Proof.
  intros [Hg Hsl Heq _] HW. destruct (summed_ok s HW) as (ls & E & Hl & Hlen). unfold rebalanced. rewrite E.
  cbn [mbind option_bind]. destruct (mapM_total (λ load, fst <$> dhondtPlaceOneLayer load (physicalSlots (params s)) (numGPUs (params s)))
    (ValidPlacement (numExperts (params s)) (numGPUs (params s)) (slotsPerRank (params s))) ls) as (ps & Eps & Hps & HV).
  - intros load Hload%Hlen. destruct (dhondt_valid load (physicalSlots (params s)) (numGPUs (params s))) as (pl & rc & -> & HV & _); try lia.
    exists pl. rewrite Hload in HV. by split.
  - exists ps. split; [done|]. split; [lia|done].
Qed.

Lemma inboundMoves_ok m (old new : placement) :
  length old = length new → (∀ e ranks r, new !! e = Some ranks → r ∈ ranks → r < numGPUs m) → ∃ mv, inboundMoves m old new = Some mv.
Proof.
  intros Hl Hr. unfold inboundMoves.
  match goal with |- context [foldM ?f ?b ?l] => destruct (foldM_inv f (λ _ _, True) l b I) as (c & -> & _); [|eauto] end.
  intros done [e ranks] rest acc El _. assert (new !! e = Some ranks) as Ee by (apply elem_of_enumerate; rewrite El; set_solver).
  destruct (lookup_lt_is_Some_2 old e) as [o ->]; [rewrite Hl; by eapply lookup_lt_Some|]. cbn [mbind option_bind].
  match goal with |- context [foldM ?f ?b ?l] => destruct (foldM_inv f (λ _ _, True) l b I) as (c & -> & _); [|eauto] end.
  intros done' r rest' acc' El' _. case_bool_decide; [eauto|].
  rewrite (proj2 (Nat.ltb_lt _ _)) by (apply (Hr e ranks); [done|rewrite El'; set_solver]). eauto.
Qed.

Lemma replacementCost_ok m old new : PlacementsOk m old → PlacementsOk m new → ∃ c, replacementCost m old new = Some c.
Proof.
  intros [Ho Hov] [Hn Hnv]. unfold replacementCost. destruct (_ <=? _); [eauto|].
  destruct (foldM_inv (layerCost m old new) (λ _ _, True) (seq 0 (numLayers m)) (f_zero, 0) I) as (c & -> & _); [|cbn; eauto].
  intros done layer rest acc El _. assert (layer ∈ seq 0 (numLayers m)) as H%elem_of_seq by (rewrite El; set_solver).
  unfold layerCost. destruct (lookup_lt_is_Some_2 old layer) as [o Eo]; [lia|]. destruct (lookup_lt_is_Some_2 new layer) as [n En]; [lia|].
  rewrite Eo, En. cbn [mbind option_bind]. pose proof (Hov o ltac:(by eapply list_elem_of_lookup_2)) as HVo.
  pose proof (Hnv n ltac:(by eapply list_elem_of_lookup_2)) as HVn.
  destruct (inboundMoves_ok m o n) as [mv ->]; [|apply (vp_ranks _ _ _ _ HVn)|cbn; eauto].
  by rewrite (vp_experts _ _ _ _ HVo), (vp_experts _ _ _ _ HVn).
Qed.

Lemma rebalanceExperts_total s :
  ParamsOk (params s) → WindowLen s → PlacementsOk (params s) (placements s) →
  ∃ s' d, rebalanceExperts s = Some (s', d) ∧ eplbLoadWindow s' = eplbLoadWindow s ∧ eplbLoadWindowStep s' = eplbLoadWindowStep s ∧
    PlacementsOk (params s) (placements s') ∧
    rebalanced s' = Some (placements s') ∧ params s' = params s ∧
    expertRearrangementStep s' = expertRearrangementStep s ∧
    placementGeneration s' = u64 (placementGeneration s + 1) ∧ latencyCache s' = latencyCache s.
Proof.
  intros HP HW HO. destruct (rebalanced_ok s HP HW) as (ps & E & Hps).
  destruct (replacementCost_ok (params s) (placements s) ps HO Hps) as [c Ec].
  unfold rebalanceExperts. unfold rebalanced in E. destruct (summedEPLBLogicalLoad s) as [ls|] eqn:Els; [|done].
  cbn [mbind option_bind] in E |- *. rewrite E. cbn [mbind option_bind]. rewrite Ec. cbn [mbind option_bind].
  eexists _, _. split; [reflexivity|]. do 3 (split; [done|]). split; [|done].
  cbn [placements]. rewrite <- E. unfold rebalanced. cbn [params].
  replace (summedEPLBLogicalLoad _) with (summedEPLBLogicalLoad s) by done. by rewrite Els.
Qed.

Lemma rebalanceExperts_ok s recorded :
  ParamsOk (params s) → WindowOk s recorded → PlacementsOk (params s) (placements s) →
  ∃ s' d, rebalanceExperts s = Some (s', d) ∧ WindowOk s' recorded ∧ PlacementsOk (params s) (placements s') ∧
    rebalanced s' = Some (placements s') ∧ params s' = params s ∧
    expertRearrangementStep s' = expertRearrangementStep s ∧
    placementGeneration s' = u64 (placementGeneration s + 1) ∧ latencyCache s' = latencyCache s.
Proof.
  intros HP HW HO. destruct (rebalanceExperts_total s HP (WindowOk_length s recorded HW) HO) as (s' & d & E & H1 & H2 & H3 & H4 & H5 & H6 & H7 & H8).
  exists s', d. split_and!; try done. by apply (WindowOk_frame s).
Qed.

(** * A running simulator *)

(** The forwards recorded after the history [h], in rearrangement interval [g] at
    step [step]: all of them in the first interval, afterwards the last third of each. *)
Definition Recorded (h : list (list f64)) (g step : nat) (recorded : list (list f64)) : Prop :=
  match g with
  | 0 => recorded = h
  | S g => ∃ older, recorded = older ++ lastn (step - 8 * quarter) h ∧ length older = 3 * quarter + 4 * quarter * g
  end.

(** The simulator after the forwards [h]; [g] rearrangements have happened. *)
Record RunInv (m : moeParams) (h : list (list f64)) (g : nat) (s : moeSimulator) : Prop := mkRun {
  ri_params : params s = m;
  ri_ok : ParamsOk m;
  ri_placements : PlacementsOk m (placements s);
  ri_clock : 9 * quarter + length h = 12 * quarter * g + expertRearrangementStep s ∧ expertRearrangementStep s < 12 * quarter;
  ri_generation : placementGeneration s = Z.of_nat g;
  ri_window : ∃ recorded, WindowOk s recorded ∧ Recorded h g (expertRearrangementStep s) recorded ∧
    (expertRearrangementStep s = 0 → windowOf m recorded = windowOf m h);
  ri_fresh : expertRearrangementStep s = 0 → rebalanced s = Some (placements s) ∧ eplbLoadWindowStep s = 3 * quarter;
  ri_cache : ∀ gen t d, latencyCache s !! (gen, t) = Some d →
    (gen ≤ Z.of_nat g)%Z ∧ (gen = Z.of_nat g → forwardLatency m (countsOf m t) (placements s) = Some d) }.

Lemma Recorded_next h g step recorded c :
  step < 12 * quarter → 9 * quarter + length h = 12 * quarter * g + step → Recorded h g step recorded →
  Recorded (h ++ [c]) g (S step) (if 8 * quarter <=? step then recorded ++ [c] else recorded).
Proof.
  intros Hs Hc HR. destruct eplb_constants as (Hq & _). destruct g as [|g]; cbn [Recorded] in *.
  - rewrite (proj2 (Nat.leb_le _ _)) by lia. by subst.
  - destruct HR as (older & -> & Hl). exists older. split; [|done]. destruct (Nat.leb_spec (8 * quarter) step).
    + rewrite Nat.sub_succ_l, lastn_snoc by done. by rewrite app_assoc.
    + replace (step - 8 * quarter) with 0 by lia. replace (S step - 8 * quarter) with 0 by lia.
      by rewrite !lastn_0.
Qed.

(** At the end of an interval the window holds the last [W] forwards. *)
Lemma Recorded_full m h g recorded :
  9 * quarter + length h = 12 * quarter * g + 12 * quarter → Recorded h g (12 * quarter) recorded →
  windowOf m recorded = windowOf m h ∧ length recorded = 3 * quarter + 4 * quarter * g ∧ Recorded h (S g) 0 recorded.
Proof.
  intros Hc HR. destruct eplb_constants as (Hq & HW & _).
  assert (windowOf m recorded = windowOf m h ∧ length recorded = 3 * quarter + 4 * quarter * g) as [H1 H2].
  { destruct g as [|g]; cbn [Recorded] in HR; [subst; split; [done|lia]|].
    destruct HR as (older & -> & Hl). replace (12 * quarter - 8 * quarter) with (4 * quarter) by lia.
    rewrite length_app, lastn_length. assert (4 * quarter ≤ length h) by nia. split; [|nia].
    unfold windowOf. rewrite HW. rewrite fmap_app, app_assoc.
    rewrite lastn_app_r by (rewrite length_fmap, lastn_length; lia).
    rewrite (lastn_app_r (4 * quarter)) by (by rewrite length_fmap). by rewrite !lastn_fmap, lastn_lastn. }
  split; [done|]. split; [done|]. exists recorded. split; [|lia].
  by rewrite lastn_0, app_nil_r.
Qed.

Lemma countsOf_length m t : length (countsOf m t) = length (probabilities m).
Proof. apply length_fmap. Qed.

Lemma shouldRecord_spec s : shouldRecordEPLBLoad s = (8 * quarter <=? expertRearrangementStep s).
Proof.
  destruct eplb_constants as (_ & HW & HI & _). unfold shouldRecordEPLBLoad. rewrite HW, HI.
  destruct (Nat.leb_spec (8 * quarter) (expertRearrangementStep s)); [apply Z.leb_le|apply Z.leb_gt]; lia.
Qed.

(** The cache lookup or the computation of [latencyForTokens]. *)
Definition memoLatency (t : Z) (s : moeSimulator) : option (moeSimulator * Z) :=
  match latencyCache s !! (placementGeneration s, t) with
  | Some latency => Some (s, latency)
  | None =>
      latency ← forwardLatency (params s) (countsOf (params s) t) (placements s);
      Some (set_latencyCache (<[(placementGeneration s, t) := latency]> (latencyCache s)) s, latency)
  end.

Lemma memoLatency_ok m h g s t :
  RunInv m h g s →
  (∃ s' d, memoLatency t s = Some (s', d) ∧ RunInv m h g s' ∧ placements s' = placements s ∧
     forwardLatency m (countsOf m t) (placements s) = Some d) ∨
  (memoLatency t s = None ∧ forwardOverflow m (countsOf m t) (placements s)).
Proof.
  intros HI. pose proof HI as [Hm Hok Hpl Hclk Hgen HW Hfr Hca]. unfold memoLatency. rewrite Hm, Hgen.
  destruct (latencyCache s !! (Z.of_nat g, t)) as [d|] eqn:E.
  { left. exists s, d. split; [done|]. split; [done|]. split; [done|]. destruct (Hca _ _ _ E) as [_ H]. auto. }
  destruct Hpl as [Hpl1 Hpl2].
  destruct (forwardLatency_ok m (countsOf m t) (placements s) (slotsPerRank m)) as [[d Ed]|[Ed H]].
  - apply Hok.
  - done.
  - by rewrite countsOf_length, (po_probs _ Hok).
  - left. rewrite Ed. cbn [mbind option_bind]. eexists _, _. split; [reflexivity|]. split; [|done].
    constructor; try done.
    { destruct HW as (recorded & HW & HR). exists recorded. split; [by apply (WindowOk_frame s)|done]. }
    intros gen t' d'. cbn [set_latencyCache latencyCache placements]. destruct (decide ((Z.of_nat g, t) = (gen, t'))) as [[= <- <-]|Hne].
    + rewrite lookup_insert_eq. intros [= <-]. split; [lia|done].
    + rewrite lookup_insert_ne by done. apply Hca.
  - right. rewrite Ed. done.
Qed.

(** Recording, or not, keeps everything but the window. *)
Lemma record_ok m h g s c :
  RunInv m h g s → length c = numExperts m →
  ∃ s' recorded, (if shouldRecordEPLBLoad s then recordEPLBLoad c s else Some s) = Some s' ∧
    WindowOk s' recorded ∧ Recorded (h ++ [c]) g (S (expertRearrangementStep s)) recorded ∧
    params s' = m ∧ placements s' = placements s ∧ expertRearrangementStep s' = expertRearrangementStep s ∧
    placementGeneration s' = placementGeneration s ∧ latencyCache s' = latencyCache s.
Proof.
  intros [Hm Hok Hpl [Hclk Hlt] Hgen (R & HW & HR & _) _ _] Hc. pose proof (Recorded_next h g _ R c Hlt Hclk HR) as HR'.
  rewrite shouldRecord_spec. destruct (8 * quarter <=? expertRearrangementStep s) eqn:E.
  - destruct (recordEPLBLoad_ok s R c HW ltac:(by rewrite Hm)) as (s' & -> & HW' & Hp' & H'). exists s', (R ++ [c]).
    rewrite Hp', Hm. done.
  - by exists s, R.
Qed.

Lemma advanceEPLBStep_ok m h g s c :
  RunInv m h g s → length c = numExperts m → (Z.of_nat g < max_u64)%Z →
  ∃ s' d g', advanceEPLBStep c s = Some (s', d) ∧ RunInv m (h ++ [c]) g' s' ∧
    ((g' = g ∧ d = 0%Z ∧ placements s' = placements s) ∨ g' = S g).
Proof.
  intros HI Hc Hmax. destruct (record_ok m h g s c HI Hc) as (s1 & R & E1 & HW1 & HR1 & Hp1 & Hpl1 & Hst1 & Hg1 & Hca1).
  destruct HI as [Hm Hok Hpl [Hclk Hlt] Hgen _ _ Hca]. destruct eplb_constants as (Hq & HWs & HIn & _).
  unfold advanceEPLBStep. rewrite E1. cbn [mbind option_bind]. cbv zeta. cbn [set_rearrangementStep expertRearrangementStep].
  rewrite Hst1, HIn. set (step := expertRearrangementStep s) in *.
  assert (Hclk' : 9 * quarter + length (h ++ [c]) = 12 * quarter * g + S step) by (rewrite length_app; cbn [length]; lia).
  destruct (Nat.ltb_spec (S step) (12 * quarter)) as [Hs|Hs].
  - eexists _, _, g. split; [reflexivity|]. split; [|by left]. constructor; cbn [set_rearrangementStep expertRearrangementStep params placements placementGeneration latencyCache].
    + done.
    + done.
    + by rewrite Hpl1.
    + done.
    + congruence.
    + exists R. split; [by apply (WindowOk_frame s1)|]. split; [done|lia].
    + lia.
    + rewrite Hpl1, Hca1. done.
  - assert (S step = 12 * quarter) as Es by lia. rewrite Es in *.
    destruct (Recorded_full m (h ++ [c]) g R Hclk' HR1) as (Hwin & Hlen & HR').
    destruct (rebalanceExperts_ok (set_rearrangementStep 0 (set_rearrangementStep (12 * quarter) s1)) R) as (s' & d & E & HW' & Hpl' & Hreb & Hp' & Hst' & Hg' & Hca').
    + by rewrite <- Hp1 in Hok.
    + by apply (WindowOk_frame s1).
    + cbn. by rewrite Hpl1, Hp1.
    + cbn [set_rearrangementStep params placements expertRearrangementStep placementGeneration latencyCache] in *.
      exists s', d, (S g). split; [done|]. split; [|by right]. rewrite Hg1, Hgen in Hg'. rewrite Hp1 in *.
      constructor; auto.
      * rewrite Hst'. lia.
      * rewrite Hg', u64_small by lia. lia.
      * exists R. rewrite Hst'. done.
      * intros _. split; [done|]. rewrite (wo_step _ _ HW'), Hlen, HWs.
        replace (3 * quarter + 4 * quarter * g) with (3 * quarter + g * (4 * quarter)) by lia.
        rewrite Nat.Div0.mod_add. apply Nat.mod_small. lia.
      * rewrite Hca', Hca1. intros gen t dd Hin. destruct (Hca _ _ _ Hin) as [Hle _]. split; lia.
Qed.

(** One call of [latencyForTokens]: the cached or computed latency of the forward
    on the current placements, plus the cost of the rearrangement it triggers. *)
Lemma latencyForTokens_ok m h g s t :
  RunInv m h g s → (0 < t)%Z → (Z.of_nat g < max_u64)%Z →
  (∃ s' d ref mig g', latencyForTokens t s = Some (s', d) ∧ d = i64 (ref + mig) ∧
     forwardLatency m (countsOf m t) (placements s) = Some ref ∧
     RunInv m (h ++ [countsOf m t]) g' s' ∧ ((g' = g ∧ mig = 0%Z ∧ placements s' = placements s) ∨ g' = S g)) ∨
  (latencyForTokens t s = None ∧ forwardOverflow m (countsOf m t) (placements s)).
Proof.
  intros HI Ht Hmax.
  assert (E : latencyForTokens t s = memoLatency t s ≫= λ r, advanceEPLBStep (countsOf m t) r.1 ≫= λ a, Some (a.1, i64 (r.2 + a.2))).
  { unfold latencyForTokens, memoLatency. rewrite (proj2 (Z.leb_gt _ _)) by done. rewrite (ri_params _ _ _ _ HI).
    destruct (latencyCache s !! _); [done|]. by destruct (forwardLatency _ _ _). }
  rewrite E. clear E. destruct (memoLatency_ok m h g s t HI) as [(s1 & ref & -> & HI1 & Hpl1 & Href)|[-> H]]; [left|by right].
  cbn [mbind option_bind fst snd].
  destruct (advanceEPLBStep_ok m h g s1 (countsOf m t) HI1) as (s' & mig & g' & -> & HI' & Hcase).
  { rewrite countsOf_length. apply (po_probs _ (ri_ok _ _ _ _ HI)). }
  { done. }
  cbn [mbind option_bind fst snd]. exists s', (i64 (ref + mig)), ref, mig, g'. rewrite Hpl1 in Hcase. done.
Qed.

(** The forwards of a sequence of calls; a call with no tokens is not one. *)
Definition forwards (s : moeSimulator) (tokens : list Z) : option moeSimulator :=
  foldM (λ s t, fst <$> latencyForTokens t s) s tokens.

Definition history (m : moeParams) (tokens : list Z) : list (list f64) := countsOf m <$> filter (λ t, (0 < t)%Z) tokens.

Lemma RunInv_generation m h g s : RunInv m h g s → g ≤ length h.
Proof. intros [_ _ _ [H Hlt] _ _ _ _]. destruct eplb_constants as (Hq & _). destruct g as [|g]; [lia|]. nia. Qed.

(** A forward of the sequence, on the placements of the state it finds, has a layer
    whose concentrate routing meets only infinite costs. *)
Definition runOverflow (s0 : moeSimulator) (tokens : list Z) : Prop :=
  ∃ before t rest s, tokens = before ++ t :: rest ∧ forwards s0 before = Some s ∧ (0 < t)%Z ∧
    forwardOverflow (params s0) (countsOf (params s0) t) (placements s).

Lemma forwards_ok m s0 tokens :
  RunInv m [] 0 s0 → (Z.of_nat (length tokens) ≤ max_u64)%Z →
  (∃ s g, forwards s0 tokens = Some s ∧ RunInv m (history m tokens) g s) ∨
  (forwards s0 tokens = None ∧ runOverflow s0 tokens).
Proof.
  intros H0 Hmax. unfold forwards.
  destruct (foldM_inv_at (λ s t, fst <$> latencyForTokens t s) (λ done s, ∃ g, RunInv m (history m done) g s)
    (λ s t, (0 < t)%Z ∧ forwardOverflow m (countsOf m t) (placements s)) tokens s0)
    as [(s & E & g & HI)|[E (before & t & rest & s & El & Es & [g HI] & H)]]; [by exists 0| |left; eauto|].
  2: { right. split; [done|]. exists before, t, rest, s. by rewrite (ri_params _ _ _ _ H0). }
  intros done t rest s El [g HI]. unfold history in *. rewrite filter_app, fmap_app.
  destruct (decide (0 < t)%Z) as [Ht|Ht].
  - rewrite filter_cons_True by done.
    destruct (latencyForTokens_ok m _ g s t HI Ht) as [(s' & d & ref & mig & g' & -> & _ & _ & HI' & _)|[-> H]]; [|left|by right].
    + pose proof (RunInv_generation _ _ _ _ HI) as Hg. rewrite length_fmap in Hg.
      pose proof (length_filter (λ t, (0 < t)%Z) done). rewrite El, length_app in Hmax. cbn [length] in Hmax. lia.
    + cbn. eauto.
  - rewrite filter_cons_False by done. left. exists s. unfold latencyForTokens. rewrite (proj2 (Z.leb_le _ _)) by lia.
    cbn. rewrite app_nil_r. eauto.
Qed.

(** * The constructor *)

Lemma concat_replicate_zero n k : concat (replicate n (replicate k f_zero)) = replicate (n * k) f_zero.
Proof. induction n as [|n IH]; simpl; [done|]. by rewrite IH, replicate_add. Qed.

Lemma powerLaw_length Pow n a : length (powerLawProbabilities Pow n a) = n.
Proof. unfold powerLawProbabilities. by rewrite !length_fmap, length_seq. Qed.

(** Slots that fit and are divisible by the ranks are accepted. *)
Lemma newMoESimulator_dims Pow c :
  (1 ≤ MoENumExperts c ≤ MoEPhysicalExpertSlots c)%Z → (1 ≤ MoEExpertParallelSize c)%Z →
  (MoEPhysicalExpertSlots c ≤ MoENumExperts c * MoEExpertParallelSize c)%Z → (MoEPhysicalExpertSlots c mod MoEExpertParallelSize c = 0)%Z →
  ∃ s, newMoESimulator Pow c = Some s ∧ RunInv (params s) [] 0 s ∧ router (params s) = MoERouter c.
Proof.
  intros Hexp Hep Hslots Hdiv.
  set (g := Z.to_nat (MoEExpertParallelSize c)). set (n := Z.to_nat (MoENumExperts c)). set (p := Z.to_nat (MoEPhysicalExpertSlots c)).
  assert (1 ≤ n ≤ p ∧ p ≤ n * g ∧ 1 ≤ g) as (Hn & Hp & Hg) by (unfold n, p, g; nia).
  assert (p mod g = 0) as Hmod.
  { unfold p, g. rewrite <- Z2Nat.inj_mod by lia. by rewrite Hdiv. }
  destruct (initial_placement_valid n p g Hn Hp Hmod) as (pl & Epl & HV).
  unfold newMoESimulator. cbv zeta. fold n g p. cbn [physicalSlots numGPUs]. rewrite Epl. cbn [mbind option_bind].
  eexists. split; [reflexivity|]. destruct eplb_constants as (Hq & HW & _ & Hst). split; [|done].
  constructor; cbn [params placements expertRearrangementStep placementGeneration latencyCache].
  - done.
  - constructor; cbn; [lia|lia|done|apply powerLaw_length].
  - split; [apply length_replicate|]. intros p' [-> _]%elem_of_replicate. done.
  - rewrite Hst. cbn [length]. lia.
  - done.
  - exists []. split; [|split; [done|rewrite Hst; lia]]. constructor; cbn [params eplbLoadWindowStep eplbLoadWindow].
    + set_solver.
    + cbn [length]. by rewrite Nat.Div0.mod_0_l.
    + rewrite windowOf_nil, ring_0. unfold zeroRow. rewrite concat_replicate_zero. cbn [numLayers numExperts]. f_equal. lia.
  - rewrite Hst. lia.
  - intros gen t d H. by rewrite lookup_empty in H.
Qed.

(** A validated configuration with slots divisible by the ranks is accepted. *)
Lemma newMoESimulator_ok Pow c :
  EnableMoE c = true → validateMoE c = Ok tt → (MoENumExperts c * MoEExpertParallelSize c < 2 ^ 63)%Z →
  (MoEPhysicalExpertSlots c mod MoEExpertParallelSize c = 0)%Z →
  ∃ s, newMoESimulator Pow c = Some s ∧ RunInv (params s) [] 0 s ∧ router (params s) = MoERouter c.
Proof.
  intros Hen Hval Hov Hdiv. unfold validateMoE in Hval. rewrite Hen in Hval. cbn [negb] in Hval.
  inv_ok Hval. rewrite i64_small in *
    by (repeat match goal with H : (_ <? _)%Z = false |- _ => apply Z.ltb_ge in H end; nia).
  repeat match goal with H : (_ <? _)%Z = false |- _ => apply Z.ltb_ge in H end.
  apply newMoESimulator_dims; [lia|lia|lia|done].
Qed.

End MoeEplb.
