(* ===== verification/MoeProps.v ===== *)
(** The main theorems on the MoE latency model. *)

From S2P Require Import Prelude GoFloat Moe MoePlacement MoeRouting MoeEplb.
Import Moe MoePlacement MoeRouting MoeEplb.
Open Scope nat_scope.

Module MoeProps.

(** * An example *)

(** Three experts with four copies on two GPUs, one layer. *)
Definition config_ex (router : string) (gpus : Z) : Configuration :=
  mkConfiguration true gpus 3 4 2 1 router false (f_const 8 10) 64 32 2 (f_of_Z (10 ^ 12)) (f_of_Z (10 ^ 11))
    (f_of_Z (10 ^ 10)) 5000.

(** A stand-in for [math.Pow] on the exponents used. *)
Definition Pow_ex (x _ : f64) : f64 := fdiv (f_of_Z 1) x.

Definition sim_ex : moeSimulator := default (mkMoe (mkParams 0 0 0 0 0 "" false f_zero f_zero f_zero 0 f_zero f_zero f_zero f_zero [])
  [] [] 0 0 0 0 ∅) (newMoESimulator Pow_ex (config_ex MoERouterHeuristic 2)).

Lemma sim_ex_new : newMoESimulator Pow_ex (config_ex MoERouterHeuristic 2) = Some sim_ex.
Proof. vm_compute. reflexivity. Qed.

(** * The running simulator *)

(** The configuration passes validation. *)
Definition Accepted (c : Configuration) : Prop := EnableMoE c = true ∧ validateMoE c = Ok tt.

(** It also meets the documented divisibility rule, which the validation does not
    check, and the product of its dimensions fits an [int]. *)
Definition Sound (c : Configuration) : Prop :=
  Accepted c ∧ (MoENumExperts c * MoEExpertParallelSize c < 2 ^ 63)%Z ∧
  (MoEPhysicalExpertSlots c mod MoEExpertParallelSize c = 0)%Z.

Lemma Sound_run Pow c s0 tokens :
  Sound c → newMoESimulator Pow c = Some s0 → (Z.of_nat (length tokens) ≤ max_u64)%Z →
  router (params s0) = MoERouter c ∧
  ((∃ s g, forwards s0 tokens = Some s ∧ RunInv (params s0) (history (params s0) tokens) g s) ∨
   (forwards s0 tokens = None ∧ runOverflow s0 tokens)).
Proof.
  intros ((He & Hv) & Ho & Hd) E Hl. destruct (newMoESimulator_ok Pow c He Hv Ho Hd) as (s & E' & HI & Hr).
  rewrite E in E'. injection E' as <-. split; [done|]. by apply forwards_ok.
Qed.

Lemma Sound_run_Some Pow c s0 tokens s :
  Sound c → newMoESimulator Pow c = Some s0 → (Z.of_nat (length tokens) ≤ max_u64)%Z → forwards s0 tokens = Some s →
  ∃ g, RunInv (params s0) (history (params s0) tokens) g s.
Proof.
  intros Hc E Hl Es. destruct (Sound_run Pow c s0 tokens Hc E Hl) as (_ & [(s' & g & E' & HI)|(E' & _)]); [|congruence].
  rewrite Es in E'. injection E' as <-. by exists g.
Qed.

(** C39: from every validated configuration whose slots divide evenly over the
    GPUs (the validation does not check it; [validated_config_panics]) and whose
    dimensions do not overflow an [int], a simulator is built that serves any sequence
    of forwards without a panic and always has a valid placement in every layer.  The
    one exception is the concentrate router, which panics only where a forward of the
    sequence, on the placements it finds, has a layer in which an expert with load has
    no holder with a cost below +Inf in the routing state reached then. *)
Theorem moe_run_safe Pow c tokens :
  Sound c → (Z.of_nat (length tokens) ≤ max_u64)%Z →
  ∃ s0, newMoESimulator Pow c = Some s0 ∧
  ((∃ s, forwards s0 tokens = Some s ∧ params s = params s0 ∧ PlacementsOk (params s) (placements s)) ∨
   (forwards s0 tokens = None ∧ MoERouter c = MoERouterConcentrate ∧ runOverflow s0 tokens)).
Proof.
  intros Hc Hl. pose proof Hc as ((He & Hv) & Ho & Hd).
  destruct (newMoESimulator_ok Pow c He Hv Ho Hd) as (s0 & E & _). exists s0. split; [done|].
  destruct (Sound_run Pow c s0 tokens Hc E Hl) as (Hr & [(s & g & Es & HI)|(Es & Hov)]).
  - left. exists s. split; [done|]. rewrite (ri_params _ _ _ _ HI). split; [done|]. apply (ri_placements _ _ _ _ HI).
  - right. split; [done|]. split; [|done]. rewrite <- Hr. by destruct Hov as (? & ? & ? & ? & _ & _ & _ & ? & _ & ? & _).
Qed.

Lemma config_ex_sound : Sound (config_ex MoERouterHeuristic 2).
Proof. split; [split; [reflexivity|vm_compute; reflexivity]|]. split; vm_compute; reflexivity. Qed.

Lemma moe_run_safe_witness :
  ∃ s0, newMoESimulator Pow_ex (config_ex MoERouterHeuristic 2) = Some s0 ∧
  ∃ s, forwards s0 [64; 0; 64; 1]%Z = Some s ∧ params s = params s0 ∧ PlacementsOk (params s) (placements s).
Proof.
  destruct (moe_run_safe Pow_ex (config_ex MoERouterHeuristic 2) [64; 0; 64; 1]%Z) as (s0 & E0 & [H|(_ & E & _)]).
  - exact config_ex_sound.
  - vm_compute. discriminate.
  - exists s0. split; [exact E0|exact H].
  - discriminate E.
Defined.

(** The schedule of load balancing is vLLM's: the first rearrangement after 750
    forwards, then one every 3000; at each, the placements are the D'Hondt
    placements of the summed loads of exactly the last 1000 forwards (zero where
    there were fewer), which the ring buffer then holds. *)
Theorem eplb_schedule Pow c s0 tokens s :
  Sound c → (Z.of_nat (length tokens) ≤ max_u64)%Z → newMoESimulator Pow c = Some s0 → forwards s0 tokens = Some s →
  let h := history (params s0) tokens in
  expertRearrangementStep s = (2250 + length h) mod 3000 ∧
  placementGeneration s = Z.of_nat ((2250 + length h) / 3000) ∧
  (∀ k, length h = 750 + 3000 * k →
     eplbLoadWindow s = concat (ring 750 (windowOf (params s0) h)) ∧ rebalanced s = Some (placements s)).
Proof.
  intros Hc Hl E Es. cbv zeta. destruct (Sound_run_Some Pow c s0 tokens s Hc E Hl Es) as [g HI'].
  destruct HI' as [Hm _ _ [Hclk Hlt] Hgen (R & HW & _ & Hwin) Hfr _].
  set (n := length (history (params s0) tokens)) in *. change quarter with 250 in *.
  assert (2250 + n = 3000 * g + expertRearrangementStep s ∧ expertRearrangementStep s < 3000) as [Hn Hs] by lia.
  rewrite Hn. split; [|split].
  - rewrite Nat.add_comm, Nat.mul_comm, Nat.Div0.mod_add. by rewrite Nat.mod_small.
  - rewrite Hgen. f_equal. rewrite Nat.mul_comm, Nat.div_add_l, (Nat.div_small (expertRearrangementStep s)); lia.
  - intros k Hk. assert (expertRearrangementStep s = 0) as H0 by lia. destruct (Hfr H0) as [Hr Hst]. split; [|done].
    rewrite (wo_window _ _ HW), Hst, Hm, Hwin by done. done.
Qed.

(** The 750th forward rearranges. *)
Lemma eplb_schedule_witness :
  ∃ s, forwards sim_ex (replicate 750 64%Z) = Some s ∧ expertRearrangementStep s = 0 ∧ placementGeneration s = 1%Z ∧
    rebalanced s = Some (placements s).
Proof.
  assert (is_Some (forwards sim_ex (replicate 750 64%Z))) as [s Es] by (vm_compute; eauto).
  exists s. split; [exact Es|].
  destruct (eplb_schedule Pow_ex (config_ex MoERouterHeuristic 2) sim_ex (replicate 750 64%Z) s) as (H1 & H2 & H3).
  - exact config_ex_sound.
  - vm_compute. discriminate.
  - exact sim_ex_new.
  - exact Es.
  - split; [rewrite H1; vm_compute; reflexivity|]. split; [rewrite H2; vm_compute; reflexivity|].
    apply (H3 0). vm_compute. reflexivity.
Defined.

(** The latency cache is transparent: in every reachable state a call returns
    the latency computed afresh on the current placements, plus the migration
    time of the rearrangement it triggers; without a rearrangement nothing is
    added and the placements do not change. *)
Theorem latency_cache_transparent Pow c s0 tokens s t s' d :
  Sound c → (Z.of_nat (length tokens) < max_u64)%Z → newMoESimulator Pow c = Some s0 → forwards s0 tokens = Some s → (0 < t)%Z → latencyForTokens t s = Some (s', d) →
  ∃ ref mig, forwardLatency (params s) (countsOf (params s) t) (placements s) = Some ref ∧ d = i64 (ref + mig) ∧
    (placementGeneration s' = placementGeneration s → mig = 0%Z ∧ placements s' = placements s).
Proof.
  intros Hc Hl E Es Ht Elat. destruct (Sound_run_Some Pow c s0 tokens s Hc E ltac:(lia) Es) as [g HI'].
  pose proof (RunInv_generation _ _ _ _ HI') as Hg.
  assert (length (history (params s0) tokens) ≤ length tokens) as Hh.
  { unfold history. rewrite length_fmap. apply length_filter. }
  destruct (latencyForTokens_ok _ _ g s t HI' Ht ltac:(lia)) as [(s1 & d1 & ref & mig & g' & E1 & -> & Hf & HI1 & Hcase)|[E1 _]]; [|congruence].
  rewrite Elat in E1. injection E1 as -> ->. exists ref, mig. rewrite (ri_params _ _ _ _ HI'). split; [done|]. split; [done|].
  rewrite (ri_generation _ _ _ _ HI'), (ri_generation _ _ _ _ HI1). destruct Hcase as [(_ & ? & ?)|Hcase]; [done|lia].
Qed.

Lemma latency_cache_transparent_witness :
  ∃ s s' d ref, forwards sim_ex [64; 64]%Z = Some s ∧ latencyForTokens 64 s = Some (s', d) ∧ d = 11751%Z ∧
    forwardLatency (params s) (countsOf (params s) 64) (placements s) = Some ref.
Proof.
  assert (is_Some (forwards sim_ex [64; 64]%Z)) as [s Es] by (vm_compute; eauto).
  assert ((forwards sim_ex [64; 64]%Z ≫= λ s, snd <$> latencyForTokens 64 s) = Some 11751%Z) as El by (vm_compute; reflexivity).
  rewrite Es in El. cbn [mbind option_bind] in El. destruct (latencyForTokens 64 s) as [[s' d]|] eqn:E; [|discriminate El].
  destruct (latency_cache_transparent Pow_ex (config_ex MoERouterHeuristic 2) sim_ex [64; 64]%Z s 64 s' d) as (ref & mig & H & _).
  - exact config_ex_sound.
  - vm_compute. reflexivity.
  - exact sim_ex_new.
  - exact Es.
  - lia.
  - exact E.
  - exists s, s', d, ref. split; [exact Es|]. split; [exact E|]. split; [|exact H].
    change (Some d = Some 11751%Z) in El. injection El as El. exact El.
Defined.

(** The validation accepts a configuration, four slots on three GPUs, on which
    the constructor panics, whatever the popularity function. *)
Theorem validated_config_panics Pow :
  ∃ c, Accepted c ∧ newMoESimulator Pow c = None.
Proof. exists (config_ex MoERouterSplit 3). split; [|reflexivity]. split; [done|]. vm_compute. reflexivity. Qed.

End MoeProps.
