(* ===== verification/Requests.v ===== *)
(** Processing of one request: [pkg/simulator/request.go], [helpers.go], the
    splitting of a request into choices, and [processRequest] of
    [worker.go].  The tokenizer, the tool-call generator and the
    dataset are parameters.  A nil dereference is [None]. *)

From stdpp Require Import pretty.
From S2P Require Import Prelude GoFloat BlockCache Lora KVEvents.
Import BlockCache KVEvents.
Open Scope Z_scope.

Module Requests.

(** * Requests *)

(** The fields of an API request the simulator reads. *)
Record Req := mkReq {
  RequestID : string; DisplayedModel : string; Model : string; loraID : Z; N : option Z; MaxTokens : option Z;
  Stream : bool; StreamIncludeUsage : bool; DoRemoteDecode : bool; DoRemotePrefill : bool; IgnoreEOS : bool;
  CacheThresholdFinishReason : bool; CacheHitThreshold : option f64; tokenizedPrompt : option (list Z) }.

Definition set_RequestID (id : string) (r : Req) : Req :=
  mkReq id (DisplayedModel r) (Model r) (loraID r) (N r) (MaxTokens r) (Stream r) (StreamIncludeUsage r) (DoRemoteDecode r)
    (DoRemotePrefill r) (IgnoreEOS r) (CacheThresholdFinishReason r) (CacheHitThreshold r) (tokenizedPrompt r).
Definition SetModelLoraID (i : Z) (r : Req) : Req :=
  mkReq (RequestID r) (DisplayedModel r) (Model r) i (N r) (MaxTokens r) (Stream r) (StreamIncludeUsage r) (DoRemoteDecode r)
    (DoRemotePrefill r) (IgnoreEOS r) (CacheThresholdFinishReason r) (CacheHitThreshold r) (tokenizedPrompt r).
Definition SetTokenizedPrompt (t : option (list Z)) (r : Req) : Req :=
  mkReq (RequestID r) (DisplayedModel r) (Model r) (loraID r) (N r) (MaxTokens r) (Stream r) (StreamIncludeUsage r) (DoRemoteDecode r)
    (DoRemotePrefill r) (IgnoreEOS r) (CacheThresholdFinishReason r) (CacheHitThreshold r) t.

Definition GetN (r : Req) : Z :=
  match N r with Some n => if n <=? 0 then 1 else n | None => 1 end.

Definition IncludeUsage (r : Req) : bool := negb (Stream r) || StreamIncludeUsage r.

(** The view of the block cache. *)
Definition cacheRequest (r : Req) : BlockCache.Request :=
  mkRequest (RequestID r) (DisplayedModel r)
    (if 0 <? loraID r then Some (Model r) else None) (if 0 <? loraID r then Some (loraID r) else None).

Inductive reqError :=
| ErrN | ErrMaxTokens | ErrPrefillStreaming | ErrIgnoreEOS
| ErrTokenize (e : string) | ErrEcho (e : string) | ErrContextWindow (maxModelLen promptTokens : Z)
| ErrEchoMaxTokens (maxTokens promptTokens : Z) | ErrKVCache (e : helperError) | ErrResponse (e : string).

(** The HTTP status of an error. *)
Definition errorCode (e : reqError) : Z :=
  match e with ErrTokenize _ | ErrEcho _ | ErrKVCache _ | ErrResponse _ => 500 | _ => 400 end.

Definition validateRequest (r : Req) : option reqError :=
  match N r with
  | Some n => if n <=? 0 then Some ErrN else None
  | None => None
  end ∪
  match MaxTokens r with
  | Some m => if m <=? 0 then Some ErrMaxTokens else None
  | None => None
  end ∪
  (if DoRemoteDecode r && Stream r then Some ErrPrefillStreaming else None) ∪
  (if IgnoreEOS r && negb (bool_decide (is_Some (MaxTokens r))) then Some ErrIgnoreEOS else None).

(** ** Splitting into choices *)

Inductive PromptInput := PromptText (t : string) | PromptTokens (ts : list Z).

Record TextCompletionsParsedRequest := mkParsed { tp_base : Req; tp_Prompt : list PromptInput }.

(** [fmt.Sprintf("%s-%d", id, index)], and a pre-tokenized prompt is kept. *)
Definition AsSingle (t : TextCompletionsParsedRequest) (index : nat) (p : PromptInput) : Req :=
  let sub := set_RequestID (RequestID (tp_base t) +:+ "-" +:+ pretty index) (tp_base t) in
  match p with PromptTokens ts => SetTokenizedPrompt (Some ts) sub | PromptText _ => sub end.

Definition splitText (t : TextCompletionsParsedRequest) : list Req :=
  concat (imap (λ i p, replicate (Z.to_nat (GetN (tp_base t))) (AsSingle t i p)) (tp_Prompt t)).

(** [ChatCompletionsRequest.split] and [MessagesRequest.split]: plain copies. *)
Definition splitChat (r : Req) : list Req := replicate (Z.to_nat (GetN r)) r.

(** * One request *)

Definition ValidateContextWindow (promptTokens maxModelLen : Z) (echo : bool) : bool :=
  if echo then i64 (promptTokens * 2) <=? maxModelLen else i64 (promptTokens + 1) <=? maxModelLen.

Definition StopFinishReason : string := "stop".
Definition LengthFinishReason : string := "length".
Definition RemoteDecodeFinishReason : string := "remote_decode".
Definition CacheThresholdReason : string := "cache_threshold".

Definition FinishReason (maxTokens : option Z) (respLen : Z) : string :=
  match maxTokens with
  | Some m => if m <=? respLen then LengthFinishReason else StopFinishReason
  | None => StopFinishReason
  end.

Record Config := mkConfig { MaxModelLen : Z; ModeEcho : bool; EnableKVCache : bool; GlobalCacheHitThreshold : f64 }.

(** [api.Usage] and what else the response context carries. *)
Record Response := mkResponse {
  rs_finishReason : string; rs_PromptTokens : Z; rs_CompletionTokens : Z; rs_TotalTokens : Z; rs_CachedTokens : option Z;
  rs_sendUsageData : bool; rs_toolCalls : bool; rs_tokens : option (list Z) }.

(** The state a request changes. *)
Record HState := mkHState { hs_sim : Lora.SimContext; hs_helper : option KVCacheHelper }.

Section Processing.
(** The tokenizer, the echo text, the tool-call generator ([nil] or calls,
    tokens used, finish reason) and the dataset ([nil] or tokens, finish reason, error). *)
Variable encode : Req → result string (list Z).
Variable tokenizedPromptForEcho : Req → result string (list Z).
Variable createToolCalls : Req → result string (bool * Z * string).
Variable GetResponseTokens : Req → option (list Z) * string * option string.
(** The router library. *)
Context {Extra : Type}.
Variable TokensToKVBlockKeys : list Z → string → option Extra → result string (list Z).
Variable extraFeatures : Req → nat → nat → Extra.
Variable hasFeatures : Req → bool.

Definition tokenize (cfg : Config) (r : Req) : result reqError Req :=
  let! r := match tokenizedPrompt r with
            | Some _ => Ok r
            | None => match encode r with
                      | Ok tokens => Ok (SetTokenizedPrompt (Some tokens) r)
                      | Err e => Err (ErrTokenize e)
                      end
            end in
  if ModeEcho cfg then
    match tokenizedPromptForEcho r with Ok _ => Ok r | Err e => Err (ErrEcho e) end
  else Ok r.

Definition getNumberOfPromptTokens (r : Req) : Z := Z.of_nat (length (default [] (tokenizedPrompt r))).

Definition validateTokenizedRequest (cfg : Config) (r : Req) : option reqError :=
  let promptTokens := getNumberOfPromptTokens r in
  if negb (ValidateContextWindow promptTokens (MaxModelLen cfg) (ModeEcho cfg))
  then Some (ErrContextWindow (MaxModelLen cfg) promptTokens)
  else if ModeEcho cfg then
    match MaxTokens r with
    | Some m => if m <? promptTokens then Some (ErrEchoMaxTokens m promptTokens) else None
    | None => None
    end
  else None.

(** [None]: the helper is nil, or a slice is out of range. *)
Definition kvCacheOnRequestStart (env : Env) (cfg : Config) (r : Req) (st : HState)
  : option (HState * result reqError PrefixCacheStats) :=
  if EnableKVCache cfg then
    h ← hs_helper st;
    out ← OnRequestStart (λ _ : unit, extraFeatures r) TokensToKVBlockKeys env (cacheRequest r) (default [] (tokenizedPrompt r))
            (if hasFeatures r then Some tt else None) h;
    Some (mkHState (hs_sim st) (Some out.1),
          match out.2 with Ok stats => Ok stats | Err e => Err (ErrKVCache e) end)
  else Some (st, Ok (mkStats 0 0)).

Definition shouldReturnCacheThresholdFinishReason (cfg : Config) (r : Req) (hitRate : f64) : bool :=
  if CacheThresholdFinishReason r then true
  else if EnableKVCache cfg then
    let cacheHitThreshold :=
      match CacheHitThreshold r with
      | Some t => if fle f_zero t && fle t (f_of_Z 1) then Some t
                  else if flt f_zero (GlobalCacheHitThreshold cfg) then Some (GlobalCacheHitThreshold cfg) else None
      | None => if flt f_zero (GlobalCacheHitThreshold cfg) then Some (GlobalCacheHitThreshold cfg) else None
      end in
    match cacheHitThreshold with Some t => flt hitRate t | None => false end
  else false.

(** The response after the cache was consulted: [None] is the call of [Length] on
    nil tokens. *)
Definition createResponse (cfg : Config) (r : Req) (stats : PrefixCacheStats) : option (result reqError Response) :=
  let hitRate := if 0 <? QueriedTokens stats then fdiv (f_of_Z (CachedTokens stats)) (f_of_Z (QueriedTokens stats)) else f_zero in
  let prompt := getNumberOfPromptTokens r in
  if shouldReturnCacheThresholdFinishReason cfg r hitRate then
    Some (Ok (mkResponse CacheThresholdReason prompt 0 prompt None (negb (Stream r) || IncludeUsage r) false (Some [])))
  else
    let finish (toolCalls : bool) (completion : Z) (reason : string) (tokens : option (list Z)) :=
      let sendUsage := if Stream r then IncludeUsage r else true in
      let reason := if negb (Stream r) && DoRemoteDecode r then RemoteDecodeFinishReason else reason in
      Ok (mkResponse reason prompt completion (prompt + completion) (Some (CachedTokens stats)) sendUsage toolCalls tokens) in
    match createToolCalls r with
    | Err e => Some (Err (ErrResponse e))
    | Ok (true, completion, reason) => Some (finish true completion reason None)
    | Ok (false, completion, _) =>
        let '(tokens, reason, err) := GetResponseTokens r in
        match tokens with
        | None => None
        | Some ts =>
            match err with
            | Some e => Some (Err (ErrResponse e))
            | None => Some (finish false (completion + Z.of_nat (length ts)) reason (Some ts))
            end
        end
    end.

Definition handleRequest (env : Env) (cfg : Config) (r : Req) (st : HState) : option (HState * Req * result reqError Response) :=
  let model := DisplayedModel r in
  let sim := hs_sim st in
  let sim := Lora.set_runReqChan (WriteToChannel (Lora.runReqChan sim) 1) sim in
  let '(r, sim) :=
    if Lora.isLora model sim
    then (SetModelLoraID (Z.of_nat (Lora.GetLoraID model sim)) r,
          Lora.set_lorasChan (WriteToChannel (Lora.lorasChan sim) (model, Lora.runningUsageState)) sim)
    else (r, sim) in
  let st := mkHState sim (hs_helper st) in
  match tokenize cfg r with
  | Err e => Some (st, r, Err e)
  | Ok r =>
      match validateTokenizedRequest cfg r with
      | Some e => Some (st, r, Err e)
      | None =>
          out ← kvCacheOnRequestStart env cfg r st;
          let '(st, stats) := out in
          match stats with
          | Err e => Some (st, r, Err e)
          | Ok stats => resp ← createResponse cfg r stats; Some (st, r, resp)
          end
      end
  end.

(** [kvCacheOnRequestEnd]; an error of the cache is only logged. *)
Definition releaseKVCache (cfg : Config) (tnow : Z) (r : Req) (st : HState) : option HState :=
  if EnableKVCache cfg then
    h ← hs_helper st; Some (mkHState (hs_sim st) (Some (OnRequestEnd tnow (RequestID r) h).1))
  else Some st.

(** [processRequest]: the deferred call releases the cache on every path. *)
Definition processRequest (env : Env) (cfg : Config) (tnow : Z) (r : Req) (st : HState)
  : option (HState * result reqError Response) :=
  out ← handleRequest env cfg r st;
  let '(st, r', resp) := out in
  let sim := hs_sim st in
  let sim := Lora.set_runReqChan (WriteToChannel (Lora.runReqChan sim) (-1)) sim in
  let sim := if Lora.isLora (DisplayedModel r') sim
             then Lora.set_lorasChan (WriteToChannel (Lora.lorasChan sim) (DisplayedModel r', Lora.doneUsageState)) sim else sim in
  st ← releaseKVCache cfg tnow r' (mkHState sim (hs_helper st));
  Some (st, resp).

End Processing.
End Requests.
