(* ===== verification/RequestsProps.v ===== *)
(** Theorems on the processing of requests: the ids of choices, the release of the
    cache on every path, and the two nil dereferences. *)

From stdpp Require Import pretty.
From S2P Require Import Prelude GoFloat BlockCache BlockCacheProps Lora KVEvents KVEventsProps Requests.
Import BlockCache BlockCacheProps KVEvents Requests.
Open Scope Z_scope.

Module RequestsProps.

(** * The ids of choices *)

Lemma GetN_pos r : 1 ≤ GetN r.
Proof. unfold GetN. destruct (N r) as [n|]; [|lia]. destruct (Z.leb_spec n 0); lia. Qed.

Lemma AsSingle_id t i p : RequestID (AsSingle t i p) = RequestID (tp_base t) +:+ "-" +:+ pretty i.
Proof. by destruct p. Qed.

Lemma string_app_inj (a b c : string) : a +:+ b = a +:+ c → b = c.
Proof. induction a as [|x a IH]; [done|]. simpl. intros [= H]. auto. Qed.

Definition ids (rs : list Req) : list string := RequestID <$> rs.

(** The ids of the choices of the prompts from index [i] on. *)
Lemma ids_from t n i ps id :
  id ∈ ids (concat (imap (λ j p, replicate n (AsSingle t (i + j) p)) ps)) →
  ∃ j, (i ≤ j)%nat ∧ id = RequestID (tp_base t) +:+ "-" +:+ pretty j.
Proof.
  revert i. induction ps as [|p ps IH]; intros i; [by intros ?%not_elem_of_nil|].
  cbn [imap concat]. unfold ids in *. rewrite fmap_app, elem_of_app. intros [H|H].
  - apply list_elem_of_fmap in H as (x & -> & [-> _]%elem_of_replicate). exists (i + 0)%nat. split; [lia|]. apply AsSingle_id.
  - destruct (IH (S i)) as (j & Hj & ->); [|exists j; split; [lia|done]].
    replace (imap (λ j p, replicate n (AsSingle t (S i + j) p)) ps) with (imap ((λ j p, replicate n (AsSingle t (i + j) p)) ∘ S) ps); [done|].
    apply imap_ext. intros j q _. cbn. do 2 f_equal. lia.
Qed.

Lemma splitText_nodup t i ps :
  NoDup (ids (concat (imap (λ j p, replicate 1 (AsSingle t (i + j) p)) ps))).
Proof.
  revert i. induction ps as [|p ps IH]; intros i; [constructor|]. cbn [imap concat].
  replace (imap ((λ j p, replicate 1 (AsSingle t (i + j) p)) ∘ S) ps) with (imap (λ j p, replicate 1 (AsSingle t (S i + j) p)) ps).
  2: { apply imap_ext. intros j q _. cbn. do 2 f_equal. lia. }
  unfold ids in *. rewrite fmap_app. apply NoDup_app. split; [apply NoDup_singleton|]. split; [|apply IH].
  intros id Hid (j & Hj & ->)%ids_from. apply list_elem_of_singleton in Hid. rewrite AsSingle_id in Hid.
  apply string_app_inj, (string_app_inj "-"), (inj pretty) in Hid. lia.
Qed.

(** The sub-requests of a text completion carry distinct ids exactly when one
    choice is asked for: with [n] of two or more, the [n] choices of a prompt
    all have the id of the prompt. *)
Theorem split_ids_unique_iff t :
  NoDup (ids (splitText t)) ↔ GetN (tp_base t) = 1 ∨ tp_Prompt t = [].
Proof.
  unfold splitText. split.
  - intros Hnd. destruct (tp_Prompt t) as [|p ps]; [by right|]. left. pose proof (GetN_pos (tp_base t)).
    destruct (decide (GetN (tp_base t) = 1)); [done|]. exfalso.
    destruct (Z.to_nat (GetN (tp_base t))) as [|[|k]] eqn:E; [lia..|].
    cbn [imap concat replicate app] in Hnd. unfold ids in Hnd. cbn [fmap list_fmap] in Hnd.
    apply NoDup_cons_1_1 in Hnd. apply Hnd. left.
  - intros [-> | ->]; [|constructor]. apply (splitText_nodup t 0).
Qed.

Definition parsed_ex (n : option Z) : TextCompletionsParsedRequest :=
  mkParsed (mkReq "r" "base" "base" 0 n None false false false false false false None None) [PromptText "a"; PromptTokens [1; 2]].

Example split_ids_ex :
  ids (splitText (parsed_ex None)) = ["r-0"; "r-1"]%string ∧ ids (splitText (parsed_ex (Some 2))) = ["r-0"; "r-0"; "r-1"; "r-1"]%string.
Proof. split; vm_compute; reflexivity. Qed.

(** Two choices of one request in the cache at the same time: the choices of a
    chat request share its id, so the start of the second one fails with
    "request already exists" while the first one runs, and the end of the failed one
    removes the registration of the first. *)
Theorem concurrent_choices_collide r cfg T bc env env' hs toks hs' toks' bc' n tnow :
  2 ≤ GetN r → reachable cfg T bc → disabled bc = false → op_ok T (OpStart env (cacheRequest r) hs toks) → T ≤ tnow →
  startRequest env (cacheRequest r) hs toks bc = (bc', Ok n) →
  ∃ a b rest, splitChat r = a :: b :: rest ∧ RequestID a = RequestID b ∧ is_Some (requestToBlocks bc' !! RequestID a) ∧
    startRequest env' (cacheRequest b) hs' toks' bc' = (bc', Err (ErrRequestExists (RequestID a))) ∧
    requestToBlocks (finishRequest tnow (RequestID b) bc').1 !! RequestID a = None.
Proof.
  intros Hn Hr Hdis Hok HT E. unfold splitChat. destruct (Z.to_nat (GetN r)) as [|[|k]] eqn:Ek; [lia..|].
  exists r, r, (replicate k r). split; [done|]. split; [done|]. pose proof (reachable_inv _ _ _ Hr) as HI.
  destruct (startRequest_cases T env (cacheRequest r) hs toks bc HI Hok)
    as [(Ed & _)|(_ & [(_ & E')|(Eid & [(_ & E')|(_ & [(_ & E')|(_ & b & HS & E')])])])]; [congruence..|].
  rewrite E in E'. injection E' as <- _. destruct HS as [Sr _ _ (_ & _ & Sdis & _) _].
  assert (Hsome : is_Some (requestToBlocks bc' !! RequestID r)) by (rewrite Sr; cbn; by rewrite lookup_insert_eq).
  split; [done|]. split.
  - unfold startRequest. rewrite Sdis, Hdis. cbn [GetRequestID cacheRequest]. by rewrite bool_decide_true.
  - pose proof (run_inv _ (OpStart env (cacheRequest r) hs toks) bc HI Hok) as HI'. cbn in HI'. rewrite E in HI'. cbn in HI'.
    destruct (finishRequest_cases T tnow (RequestID r) bc' HI' HT) as [_ [([Hd|Hid] & _)|(ks & b' & _ & _ & ->)]].
    + congruence.
    + rewrite Hid in Hsome. by destruct Hsome.
    + cbn. by rewrite lookup_delete_eq.
Qed.

Definition chat_ex : Req := mkReq "c" "base" "base" 0 (Some 2) None false false false false false false None None.

Lemma concurrent_choices_collide_witness :
  (startRequest (env_ex 2) (cacheRequest chat_ex) [12] [[2]] (startRequest (env_ex 1) (cacheRequest chat_ex) [12] [[2]] bc_new).1).2
    = Err (ErrRequestExists "c") ∧
  ∃ a b rest, splitChat chat_ex = a :: b :: rest ∧ RequestID a = RequestID b.
Proof.
  split; [vm_compute; reflexivity|].
  destruct (concurrent_choices_collide chat_ex cfg_ex 0 bc_new (env_ex 1) (env_ex 2) [12] [[2]] [12] [[2]]
    (startRequest (env_ex 1) (cacheRequest chat_ex) [12] [[2]] bc_new).1 0 3) as (a & b & rest & E & Eid & _).
  - vm_compute. discriminate.
  - exact (observed_reachable _ _ _ _ _ observed_new).
  - reflexivity.
  - apply env_ex_ok; [lia|vm_compute; reflexivity].
  - lia.
  - etransitivity; [apply surjective_pairing|]. f_equal.
  - exists a, b, rest. split; [exact E|exact Eid].
Defined.

(** * Processing *)

Section Processing.
Variable encode : Req → result string (list Z).
Variable tokenizedPromptForEcho : Req → result string (list Z).
Variable createToolCalls : Req → result string (bool * Z * string).
Variable GetResponseTokens : Req → option (list Z) * string * option string.
Context {Extra : Type}.
Variable TokensToKVBlockKeys : list Z → string → option Extra → result string (list Z).
Variable extraFeatures : Req → nat → nat → Extra.
Variable hasFeatures : Req → bool.

(** The contract of the token processor: at most one key per full block, and the
    keys of one prompt are distinct (each key hashes the previous one). *)
Definition KeysOk (bs : nat) : Prop :=
  ∀ tokens model e keys, TokensToKVBlockKeys tokens model e = Ok keys →
    (length keys * bs ≤ length tokens)%nat ∧ NoDup (u64 <$> keys).

(** The dataset returns nil tokens for a request with the id of [r] (the request with its
    adapter and its tokenized prompt set). The custom dataset does so next to every error. *)
Definition NilTokens (r : Req) : Prop := ∃ r', RequestID r' = RequestID r ∧ (GetResponseTokens r').1.1 = None.

Abbreviation handle := (handleRequest encode tokenizedPromptForEcho createToolCalls GetResponseTokens TokensToKVBlockKeys extraFeatures hasFeatures).
Abbreviation process := (processRequest encode tokenizedPromptForEcho createToolCalls GetResponseTokens TokensToKVBlockKeys extraFeatures hasFeatures).

Lemma createResponse_cases cfg r stats :
  match createResponse createToolCalls GetResponseTokens cfg r stats with
  | None => (GetResponseTokens r).1.1 = None
  | Some resp => ∀ rs, resp = Ok rs → rs_TotalTokens rs = rs_PromptTokens rs + rs_CompletionTokens rs
  end.
Proof.
  unfold createResponse. cbv zeta. destruct (shouldReturnCacheThresholdFinishReason _ _ _); [intros rs [= <-]; cbn; lia|].
  destruct (createToolCalls r) as [[[[] c] reason]|e]; [by intros rs [= <-]| |done].
  destruct (GetResponseTokens r) as [[[ts|] fr] [e|]]; [done| |done|done]. by intros rs [= <-].
Qed.

(** Tokenizing changes neither the id nor the model. *)
Lemma tokenize_id cfg r r' : tokenize encode tokenizedPromptForEcho cfg r = Ok r' → RequestID r' = RequestID r.
Proof.
  unfold tokenize. destruct (tokenizedPrompt r) as [ts|]; [|destruct (encode r); [|done]]; cbn [res_bind];
    (destruct (ModeEcho cfg); [destruct (tokenizedPromptForEcho _); [|done]|]); by intros <-%Ok_inj.
Qed.

(** What [handleRequest] does to the cache: nothing, or the start of the request. *)
Lemma handle_cases env cfg r st h T :
  EnableKVCache cfg = true → hs_helper st = Some h → Inv T (kh_cache h) → EnvOk env → (∀ i, T < now env i) →
  KeysOk (kh_blockSize h) →
  (handle env cfg r st = None ∧ NilTokens r) ∨
  ∃ st' r' resp h', handle env cfg r st = Some (st', r', resp) ∧ hs_helper st' = Some h' ∧ RequestID r' = RequestID r ∧
    (∀ rs, resp = Ok rs → rs_TotalTokens rs = rs_PromptTokens rs + rs_CompletionTokens rs) ∧
    (h' = h ∨ ∃ hs toks n, op_ok T (OpStart env (cacheRequest r') hs toks) ∧
       startRequest env (cacheRequest r') hs toks (kh_cache h) = (kh_cache h', Ok n)).
Proof.
  intros Hen Hh HI He Hnow HK. unfold handleRequest. cbv zeta.
  set (sim1 := Lora.set_runReqChan _ _). destruct (if Lora.isLora _ _ then _ else _) as [r1 sim2] eqn:E1.
  assert (RequestID r1 = RequestID r) as Hid1 by (destruct (Lora.isLora _ _); by injection E1 as <- <-).
  destruct (tokenize _ _ cfg r1) as [r2|e] eqn:Et; [|right; eexists _, _, _, h; repeat split; [done..|by left]].
  apply tokenize_id in Et. rewrite Hid1 in Et.
  destruct (validateTokenizedRequest cfg r2); [right; eexists _, _, _, h; repeat split; [done..|by left]|].
  unfold kvCacheOnRequestStart. rewrite Hen. cbn [hs_helper]. rewrite Hh. cbn [mbind option_bind].
  destruct (KVEventsProps.OnRequestStart_cases (λ _ : unit, extraFeatures r2) TokensToKVBlockKeys T env (cacheRequest r2)
    (default [] (tokenizedPrompt r2)) (if hasFeatures r2 then Some tt else None) h HI) as (h' & out & Eo & Hout).
  { intros e keys Hk. apply HK in Hk as [Hlen Hnd]. split; [done|]. by split. }
  rewrite Eo. cbn [mbind option_bind fst snd]. destruct out as [stats|e].
  - destruct Hout as (keys & n & Hk & _ & _ & _ & _ & Hst).
    pose proof (createResponse_cases cfg r2 stats) as Hresp. destruct (createResponse _ _ cfg r2 stats) as [resp|]; [|left; split; [done|by exists r2]].
    cbn [mbind option_bind]. right. eexists _, _, _, h'. repeat split; [done..|right]. eexists _, _, n. split; [|exact Hst].
    apply HK in Hk as [_ Hnd]. by split.
  - subst h'. right. eexists _, _, _, h. repeat split; [done..|by left].
Qed.

(** C38: processing a request with the KV cache enabled either crashes the worker, and then
    the dataset returned nil tokens for it (as the custom dataset does next to every
    error), or ends, on every path, errors included, with a cache that has the
    registrations and reference counts it had before; a response's total is then its
    prompt plus its completion tokens. The conditions: the cache helper was created (in
    encoder-only mode it is nil and the request crashes, [handleRequest_panics]); the
    cache is reachable and does not know the id of the request (the choices of one
    request share their id, [concurrent_choices_collide]); the clock has ticked since
    the last operation of the cache and does not go back; and the token processor
    returns at most one key per full block, all distinct ([KeysOk]). *)
Theorem processRequest_releases env cfg bcfg tnow r st h T :
  EnableKVCache cfg = true → hs_helper st = Some h → reachable bcfg T (kh_cache h) →
  requestToBlocks (kh_cache h) !! RequestID r = None →
  EnvOk env → (∀ i, T < now env i) → T ≤ tnow → KeysOk (kh_blockSize h) →
  (process env cfg tnow r st = None ∧ NilTokens r) ∨
  ∃ st' resp h', process env cfg tnow r st = Some (st', resp) ∧ hs_helper st' = Some h' ∧
    requestToBlocks (kh_cache h') = requestToBlocks (kh_cache h) ∧ usedBlocks (kh_cache h') = usedBlocks (kh_cache h) ∧
    ∀ rs, resp = Ok rs → rs_TotalTokens rs = rs_PromptTokens rs + rs_CompletionTokens rs.
Proof.
  intros Hen Hh HI%reachable_inv Hnew He Hnow HT HK.
  destruct (handle_cases env cfg r st h T Hen Hh HI He Hnow HK) as [[E HN]|(st1 & r' & resp & h1 & E & Hh1 & Hid & Hresp & Hcase)].
  { left. split; [|done]. unfold processRequest. by rewrite E. }
  right.
  unfold processRequest. rewrite E. cbn [mbind option_bind]. cbv zeta. unfold releaseKVCache. rewrite Hen. cbn [hs_helper].
  rewrite Hh1. cbn [mbind option_bind]. unfold OnRequestEnd. rewrite Hid.
  destruct (finishRequest tnow (RequestID r) (kh_cache h1)) as [bc2 fr] eqn:Ef. cbn [fst].
  eexists _, resp, _. split; [reflexivity|]. split; [reflexivity|]. cbn [kh_cache].
  assert (requestToBlocks bc2 = requestToBlocks (kh_cache h) ∧ usedBlocks bc2 = usedBlocks (kh_cache h)) as [H1 H2]; [|done].
  destruct Hcase as [->|(hs & toks & n & Hok & Es)].
  - unfold finishRequest in Ef. rewrite Hnew in Ef. by destruct (disabled (kh_cache h)); injection Ef as <- _.
  - destruct (disabled (kh_cache h)) eqn:Ed.
    + unfold startRequest in Es. rewrite Ed in Es. injection Es as Ec _. rewrite <- Ec in Ef.
      unfold finishRequest in Ef. rewrite Ed in Ef. by injection Ef as <- _.
    + pose proof (start_finish_neutral T (kh_cache h) env (cacheRequest r') hs toks (kh_cache h1) n tnow HI Hok Ed HT Es) as H.
      cbn [GetRequestID cacheRequest] in H. rewrite Hid, Ef in H. exact H.
Qed.

(** The request once its adapter id is set. *)
Definition withLora (r : Req) (st : HState) : Req :=
  if Lora.isLora (DisplayedModel r) (hs_sim st)
  then SetModelLoraID (Z.of_nat (Lora.GetLoraID (DisplayedModel r) (hs_sim st))) r else r.

(** The two crashes: an accepted request dereferences a nil cache helper when the
    KV cache is enabled but was not created (as in encoder-only mode), and the
    nil tokens of a dataset that failed, before its error is looked at. *)
Theorem handleRequest_panics env cfg r st r1 :
  tokenize encode tokenizedPromptForEcho cfg (withLora r st) = Ok r1 → validateTokenizedRequest cfg r1 = None →
  (EnableKVCache cfg = true ∧ hs_helper st = None ∨
   EnableKVCache cfg = false ∧ CacheThresholdFinishReason r1 = false ∧
   (∃ n f e, createToolCalls r1 = Ok (false, n, f) ∧ GetResponseTokens r1 = (None, "", Some e))) →
  handle env cfg r st = None.
Proof.
  intros Et Ev Hcase. unfold handleRequest. cbv zeta.
  set (sim1 := Lora.set_runReqChan _ _).
  assert (∃ sim2, (if Lora.isLora (DisplayedModel r) sim1
    then (SetModelLoraID (Z.of_nat (Lora.GetLoraID (DisplayedModel r) sim1)) r,
          Lora.set_lorasChan (WriteToChannel (Lora.lorasChan sim1) (DisplayedModel r, Lora.runningUsageState)) sim1)
    else (r, sim1)) = (withLora r st, sim2)) as [sim2 ->].
  { unfold withLora. change (Lora.isLora (DisplayedModel r) sim1) with (Lora.isLora (DisplayedModel r) (hs_sim st)).
    destruct (Lora.isLora _ _); by eexists. }
  rewrite Et, Ev. unfold kvCacheOnRequestStart. destruct Hcase as [[-> ->]|(Hen & Hth & n & f & e & Htc & Hgr)]; [done|]. rewrite Hen.
  cbn [mbind option_bind]. unfold createResponse. cbv zeta. cbn [QueriedTokens]. unfold shouldReturnCacheThresholdFinishReason.
  by rewrite Hth, Hen, Htc, Hgr.
Qed.

End Processing.

(** * Examples *)

Definition sim_ex : Lora.SimContext :=
  Lora.mkSimContext ["base"]%string ∅ ∅ [] (mkChan [] 1) 0 None (mkChan [] 1) (mkChan [] 1) (mkChan [] 1) (mkChan [] 1).
Definition cfg_req : Requests.Config := Requests.mkConfig 1024 false true f_zero.
Definition st_ex (h : option KVCacheHelper) : HState := mkHState sim_ex h.

(** A tokenizer, a generator without tool calls and a one-token dataset. *)
Definition encode_ex (_ : Req) : result string (list Z) := Ok [7; 8; 9].
Definition noTools_ex (_ : Req) : result string (bool * Z * string) := Ok (false, 0, "").
Definition answer_ex (_ : Req) : option (list Z) * string * option string := (Some [5], "stop"%string, None).
Definition failing_ex (_ : Req) : option (list Z) * string * option string := (None, ""%string, Some "Dataset is empty"%string).

(** A processor that keys only the first block. *)
Definition oneKey_ex (tokens : list Z) (model : string) (e : option unit) : result string (list Z) :=
  match tokens with _ :: _ :: _ => Ok [40] | _ => Ok [] end.

Abbreviation process_ex := (processRequest encode_ex encode_ex noTools_ex answer_ex oneKey_ex (λ _ _ _, tt) (λ _, false)).

Lemma processRequest_releases_witness :
  (snd <$> process_ex (env_ex 1) cfg_req 2 chat_ex (st_ex (Some KVEventsProps.helper_ex)))
    = Some (Ok (mkResponse "stop" 3 1 4 (Some 0) true false (Some [5]))) ∧
  ∃ st' resp h', process_ex (env_ex 1) cfg_req 2 chat_ex (st_ex (Some KVEventsProps.helper_ex)) = Some (st', resp) ∧
    hs_helper st' = Some h' ∧ requestToBlocks (kh_cache h') = requestToBlocks bc_new.
Proof.
  split; [vm_compute; reflexivity|].
  destruct (processRequest_releases encode_ex encode_ex noTools_ex answer_ex oneKey_ex (λ _ _ _, tt) (λ _, false)
    (env_ex 1) cfg_req cfg_ex 2 chat_ex (st_ex (Some KVEventsProps.helper_ex)) KVEventsProps.helper_ex 0)
    as [[_ (r' & _ & [=])]|(st' & resp & h' & E & Eh & Er & _)].
  - reflexivity.
  - reflexivity.
  - exact (observed_reachable _ _ _ _ _ observed_new).
  - reflexivity.
  - intros i m. reflexivity.
  - intros i. cbn. lia.
  - lia.
  - intros [|x [|y tokens]] model e keys [= <-]; (split; [cbn; lia|]); [apply NoDup_nil_2..|apply NoDup_singleton].
  - exists st', resp, h'. split; [exact E|]. split; [exact Eh|exact Er].
Defined.

Lemma handleRequest_panics_witness :
  handleRequest encode_ex encode_ex noTools_ex answer_ex oneKey_ex (λ _ _ _, tt) (λ _, false) (env_ex 1) cfg_req chat_ex (st_ex None) = None ∧
  handleRequest encode_ex encode_ex noTools_ex failing_ex oneKey_ex (λ _ _ _, tt) (λ _, false) (env_ex 1)
    (Requests.mkConfig 1024 false false f_zero) chat_ex (st_ex None) = None.
Proof.
  split; apply (handleRequest_panics encode_ex encode_ex noTools_ex _ oneKey_ex (λ _ _ _, tt) (λ _, false) (env_ex 1) _ chat_ex
    (st_ex None) (SetTokenizedPrompt (Some [7; 8; 9]) chat_ex)); try (vm_compute; reflexivity).
  - left. split; reflexivity.
  - right. split; [reflexivity|]. split; [reflexivity|]. exists 0, ""%string, "Dataset is empty"%string. split; reflexivity.
Defined.

End RequestsProps.
