(* ===== verification/Dataset.v ===== *)
(** The sources of response tokens: [pkg/dataset/dataset.go], [histogram_helper.go] and
    [custom_dataset.go].  The tokenizer, the hash of a prompt and the queries of the
    database are parameters.  A slice is cut within its length. *)

From Stdlib Require Import Ascii.
From S2P Require Import Prelude GoFloat GoRandom BlockCache Lora KVEvents Requests.
Import GoRandom Requests.
Open Scope Z_scope.

Module Dataset.

(** * Tokenized text ([api.Tokenized]) *)

Record Tokenized := mkTokenized { Tokens : list Z; Strings : list string }.

Definition Length (t : Tokenized) : Z := if (length (Tokens t) =? 0)%nat then Z.of_nat (length (Strings t)) else Z.of_nat (length (Tokens t)).

(** [s[:n]] where [len(s) > n]; a negative bound panics. *)
Definition cutTo {A} (n : Z) (l : list A) : option (list A) :=
  if n <? Z.of_nat (length l) then if n <? 0 then None else Some (take (Z.to_nat n) l) else Some l.

Definition Trim (maxLen : Z) (t : Tokenized) : drawing Tokenized :=
  match cutTo maxLen (Tokens t), cutTo maxLen (Strings t) with
  | Some ts, Some ss => ret (mkTokenized ts ss)
  | _, _ => panic
  end.

Definition Append (t other : Tokenized) : Tokenized := mkTokenized (Tokens t ++ Tokens other) (Strings t ++ Strings other).

(** * Echo and encoder-only mode *)

(** [EchoDataset.GetResponseTokens], with the prompt to echo. *)
Definition echoResponse (prompt : Tokenized) (r : Req) : Tokenized * string := (prompt, FinishReason (MaxTokens r) (Length prompt)).

(** [MMEncoderOnlyDataset.GetResponseTokens]: a repeated token. *)
Definition encoderResponse (mm : Tokenized) (r : Req) : drawing (Tokenized * string) :=
  let numOfTokens := default 1 (MaxTokens r) in
  match Tokens mm, Strings mm with
  | token :: _, str :: _ =>
      if numOfTokens <? 0 then panic
      else ret (mkTokenized (replicate (Z.to_nat numOfTokens) token) (replicate (Z.to_nat numOfTokens) str), LengthFinishReason)
  | _, _ => panic
  end.

(** * The length of a response *)

Definition responseLenMean : Z := 40.
Definition responseLenStddev : Z := 20.
Definition flexBucketIndex : Z := 3.
Definition maxFixedBucketSize : Z := 20.
Definition respLenBucketsProbabilities : list f64 := [f_const 2 10; f_const 3 10; f_const 2 10; f_const 5 100; f_const 1 10; f_const 15 100].

(** The running sums. *)
Definition cumulative (l : list f64) : list f64 := (foldl (λ acc val, let sum := fadd acc.1 val in (sum, acc.2 ++ [sum])) (f_zero, []) l).2.
Definition cumulativeBucketsProbabilities : list f64 := Eval vm_compute in cumulative respLenBucketsProbabilities.
Definition numBuckets : Z := Z.of_nat (length cumulativeBucketsProbabilities).

Definition calcBucketBoundaries (maxTokens bucketIndex : Z) : Z * Z :=
  let maxEquallyBucketsSz := maxFixedBucketSize * (numBuckets - 1) + 1 in
  let '(start, stop) :=
    if (maxTokens <=? maxEquallyBucketsSz) || (flexBucketIndex <? 0) || (numBuckets - 1 <=? flexBucketIndex) then
      let bucketSize := fdiv (f_of_Z (maxTokens - 1)) (f_of_Z (numBuckets - 1)) in
      (f_to_int (fmul bucketSize (f_of_Z bucketIndex)) + 1, f_to_int (fmul bucketSize (f_of_Z (bucketIndex + 1))))
    else if bucketIndex <? flexBucketIndex then (maxFixedBucketSize * bucketIndex + 1, maxFixedBucketSize * (bucketIndex + 1))
    else
      let flexBucketSize := maxTokens - maxFixedBucketSize * (numBuckets - 2) in
      if bucketIndex =? flexBucketIndex then
        (f_to_int (fmul (f_of_Z maxFixedBucketSize) (f_of_Z bucketIndex)) + 1, maxFixedBucketSize * bucketIndex + flexBucketSize)
      else (f_to_int (fmul (f_of_Z maxFixedBucketSize) (f_of_Z (bucketIndex - 1))) + flexBucketSize + 1, maxFixedBucketSize * bucketIndex + flexBucketSize) in
  (start, if maxTokens <=? stop then maxTokens - 1 else stop).

(** The first bucket whose cumulative probability reaches [r]; the last one else. *)
Definition bucketOf (r : f64) : Z :=
  match list_find (λ c, fle r c = true) cumulativeBucketsProbabilities with
  | Some (i, _) => Z.of_nat i
  | None => numBuckets - 1
  end.

Section Datasets.
Variable g : generator.
Local Open Scope random_scope.

Definition getResponseLengthByHistogram (maxTokens : Z) : drawing Z :=
  if maxTokens <=? 1 then ret maxTokens
  else if maxTokens <=? numBuckets then RandomInt g 1 maxTokens
  else
    r <- RandomFloat g f_zero (f_of_Z 1);
    match cumulativeBucketsProbabilities !! Z.to_nat (numBuckets - 2) with
    | None => panic
    | Some lastFixed =>
        if flt lastFixed r then ret maxTokens
        else let '(start, stop) := calcBucketBoundaries maxTokens (bucketOf r) in RandomInt g start stop
    end.

(** Rejection sampling; each sample uses one unit of fuel. *)
Fixpoint getRandomResponseLenByGaussian (fuel : nat) (maxLen : Z) : drawing Z :=
  match fuel with
  | O => λ _, OutOfFuel
  | S fuel =>
      val <- RandomNorm g responseLenMean responseLenStddev;
      if fle (f_of_Z 1) val && fle val (f_of_Z maxLen) then ret (f_to_int (f_round val))
      else getRandomResponseLenByGaussian fuel maxLen
  end.

Definition getRandomResponseLenByUniform (maxLen : Z) : drawing Z := RandomInt g 1 maxLen.

Definition getRandomResponseLen (fuel : nat) (maxLen : Z) : drawing Z :=
  if maxLen <? responseLenMean - responseLenStddev then getRandomResponseLenByUniform maxLen
  else getRandomResponseLenByGaussian fuel maxLen.

(** * The default dataset *)

(** The preset sentences, as in the source. *)
Definition completionFakeResponses : list string :=
  ["Testing@, #testing 1$ ,2%,3^, [4&*5], 6~, 7-_ + (8 : 9) / \ < > . "; "Testing, testing 1,2,3. "; "I am fine, how are you today? ";
   "I am your AI assistant, how can I help you today? "; "Today is a nice sunny day. "; "The temperature here is twenty-five degrees centigrade. ";
   "Today it is partially cloudy and raining. "; "To be or not to be that is the question. "; "Alas, poor Yorick! I knew him, Horatio: A fellow of infinite jest ";
   "The rest is silence. "; "Give a man a fish and you feed him for a day; teach a man to fish and you feed him for a lifetime "]%string.

Record DefaultDataset := mkDefault { maxModelLen : Z; tokenizedResponses : list Tokenized }.

(** [DefaultDataset.Init]: the preset sentences are tokenized. *)
Fixpoint renderAll {E} (RenderText : string → result E Tokenized) (l : list string) : result E (list Tokenized) :=
  match l with
  | [] => Ok []
  | s :: l => match RenderText s with Err e => Err e | Ok t => match renderAll RenderText l with Err e => Err e | Ok ts => Ok (t :: ts) end end
  end.
Definition initDefault {E} (RenderText : string → result E Tokenized) (modelLen : Z) : result E DefaultDataset :=
  match renderAll RenderText completionFakeResponses with Ok ts => Ok (mkDefault modelLen ts) | Err e => Err e end.

(** One round of [generatePresetRandomTokens]: a random sentence, cut to what is missing. *)
Definition presetRound (d : DefaultDataset) (numOfTokens : Z) (res : Tokenized) : drawing Tokenized :=
  i <- RandomInt g 0 (Z.of_nat (length completionFakeResponses) - 1);
  t <- index (tokenizedResponses d) i;
  let remaining := numOfTokens - Z.of_nat (length (Tokens res)) in
  if remaining <? Z.of_nat (length (Tokens t)) then
    if Z.of_nat (length (Strings t)) <? remaining then panic
    else ret (Append res (mkTokenized (take (Z.to_nat remaining) (Tokens t)) (take (Z.to_nat remaining) (Strings t))))
  else ret (Append res t).

Fixpoint presetLoop (fuel : nat) (d : DefaultDataset) (numOfTokens : Z) (res : Tokenized) : drawing Tokenized :=
  if Z.of_nat (length (Tokens res)) <? numOfTokens then
    match fuel with
    | O => λ _, OutOfFuel
    | S fuel => res <- presetRound d numOfTokens res; presetLoop fuel d numOfTokens res
    end
  else ret res.

(** Every round adds a token when no preset sentence is empty. *)
Definition generatePresetRandomTokens (d : DefaultDataset) (numOfTokens : Z) : drawing Tokenized :=
  presetLoop (Z.to_nat numOfTokens) d numOfTokens (mkTokenized [] []).

Definition promptLength (r : Req) : Z := Z.of_nat (length (default [] (tokenizedPrompt r))).

Definition calculateResponseMaxLen (d : DefaultDataset) (r : Req) : Z * bool :=
  let remaining := i64 (maxModelLen d - promptLength r) in
  match MaxTokens r with
  | Some maxTokens => (if maxTokens <? remaining then maxTokens else remaining, true)
  | None => (remaining, false)
  end.

Definition finishReasonFor (n maxLen : Z) : string := if n =? maxLen then LengthFinishReason else StopFinishReason.

(** [DefaultDataset.GetResponseTokens]. *)
Definition defaultResponse (fuel : nat) (d : DefaultDataset) (r : Req) : drawing (Tokenized * string) :=
  let '(maxRespTokens, isMaxTokensInReq) := calculateResponseMaxLen d r in
  n <- (if IgnoreEOS r then ret maxRespTokens
        else if isMaxTokensInReq then getResponseLengthByHistogram maxRespTokens
        else getRandomResponseLen fuel maxRespTokens);
  ts <- generatePresetRandomTokens d n;
  ret (ts, finishReasonFor n maxRespTokens).

(** * The custom dataset *)

Definition categorizeResponses (responses : list Tokenized) (maxLen : Z) : list Tokenized * list Tokenized * list Tokenized :=
  (filter (λ t, Length t ≤ maxLen) responses, filter (λ t, Length t = maxLen) responses, filter (λ t, maxLen < Length t) responses).

Definition getRandomResponse (responses : list Tokenized) : drawing Tokenized :=
  i <- RandomInt g 0 (Z.of_nat (length responses) - 1); index responses i.

(** Padding with preset tokens up to [maxLen]. *)
Definition padTo (d : DefaultDataset) (maxLen : Z) (t : Tokenized) : drawing Tokenized :=
  more <- generatePresetRandomTokens d (maxLen - Length t); ret (Append t more).

(** A response of the prompt itself. *)
Definition matchedResponse (d : DefaultDataset) (ignoreEOS : bool) (maxLen : Z) (responses : list Tokenized) : drawing Tokenized :=
  let '(shorterOrEq, equal, longer) := categorizeResponses responses maxLen in
  let trimmed := t <- getRandomResponse longer; Trim maxLen t in
  if ignoreEOS then
    match equal, longer with
    | _ :: _, _ => getRandomResponse equal
    | [], _ :: _ => trimmed
    | [], [] => t <- getRandomResponse shorterOrEq; padTo d maxLen t
    end
  else match shorterOrEq with _ :: _ => getRandomResponse shorterOrEq | [] => trimmed end.

(** A response of another prompt. *)
Definition fallbackResponse (d : DefaultDataset) (ignoreEOS : bool) (maxLen : Z) (t : Tokenized) : drawing Tokenized :=
  if maxLen <? Length t then Trim maxLen t
  else if ignoreEOS then padTo d maxLen t else ret t.

Section Custom.
Context {E : Type}.
(** The queries: the responses of a prompt, one response of at most (or exactly) a
    length, and any response. *)
Variable getResponsesForPrompt : list Z → result E (list Tokenized).
Variable getResponsesForLen : Z → bool → result E (list Tokenized).
Variable getAnyResponse : result E (list Tokenized).

Inductive customError := ErrQuery (e : E) | ErrEmptyDataset.

(** [CustomDataset.GetResponseTokens]; an error comes with nil tokens. *)
Definition customResponse (d : DefaultDataset) (r : Req) : drawing (result customError (Tokenized * string)) :=
  let '(maxLen, _) := calculateResponseMaxLen d r in
  let finish (t : Tokenized) : drawing (result customError (Tokenized * string)) := ret (Ok (t, finishReasonFor (Length t) maxLen)) in
  match getResponsesForPrompt (default [] (tokenizedPrompt r)) with
  | Err e => ret (Err (ErrQuery e))
  | Ok ((_ :: _) as responses) => t <- matchedResponse d (IgnoreEOS r) maxLen responses; finish t
  | Ok [] =>
      match getResponsesForLen maxLen (IgnoreEOS r) with
      | Err e => ret (Err (ErrQuery e))
      | Ok (t :: _) => t <- fallbackResponse d (IgnoreEOS r) maxLen t; finish t
      | Ok [] =>
          match getAnyResponse with
          | Err e => ret (Err (ErrQuery e))
          | Ok (t :: _) => t <- fallbackResponse d (IgnoreEOS r) maxLen t; finish t
          | Ok [] => ret (Err ErrEmptyDataset)
          end
      end
  end.

End Custom.
End Datasets.

End Dataset.
