(* ===== verification/DatasetProps.v ===== *)
(** The responses of the datasets have the promised number of tokens. *)

From S2P Require Import Prelude Sums GoFloat GoFloatInt GoFloatOrder GoFloatRound GoRandom BlockCache Lora KVEvents Requests Dataset.
Import GoRandom Requests Dataset.
Open Scope Z_scope.

Module DatasetProps.

(** * The buckets of the response length *)

(** The boundaries of consecutive buckets fit together, checked by evaluation where
    the buckets are computed with doubles. *)
Definition bucketsFit (maxTokens : Z) : bool :=
  bool_decide ((calcBucketBoundaries maxTokens 0).1 = 1 ∧ (calcBucketBoundaries maxTokens 4).2 = maxTokens - 1) &&
  forallb (λ i, bool_decide ((calcBucketBoundaries maxTokens i).1 ≤ (calcBucketBoundaries maxTokens i).2)) [0; 1; 2; 3; 4] &&
  forallb (λ i, bool_decide ((calcBucketBoundaries maxTokens (i + 1)).1 = (calcBucketBoundaries maxTokens i).2 + 1)) [0; 1; 2; 3].

Lemma small_buckets_fit : forallb bucketsFit (seqZ 7 95) = true.
Proof. vm_compute. reflexivity. Qed.

(** The five buckets partition [1, maxTokens - 1]. *)
Record Buckets (maxTokens : Z) : Prop := mkBuckets {
  bk_first : (calcBucketBoundaries maxTokens 0).1 = 1;
  bk_last : (calcBucketBoundaries maxTokens 4).2 = maxTokens - 1;
  bk_order : ∀ i, 0 ≤ i ≤ 4 → (calcBucketBoundaries maxTokens i).1 ≤ (calcBucketBoundaries maxTokens i).2;
  bk_next : ∀ i, 0 ≤ i ≤ 3 → (calcBucketBoundaries maxTokens (i + 1)).1 = (calcBucketBoundaries maxTokens i).2 + 1 }.

Lemma large_bucket maxTokens i : 101 < maxTokens → 0 ≤ i ≤ 4 →
  calcBucketBoundaries maxTokens i =
    (if i <? 4 then 20 * i + 1 else maxTokens - 19, if i <? 3 then 20 * i + 20 else if i =? 3 then maxTokens - 20 else maxTokens - 1).
Proof.
  intros Hm Hi. unfold calcBucketBoundaries. change numBuckets with 6. change maxFixedBucketSize with 20. change flexBucketIndex with 3.
  destruct (Z.leb_spec maxTokens (20 * (6 - 1) + 1)); [lia|]. change (3 <? 0) with false. change (6 - 1 <=? 3) with false. cbn [orb].
  assert (i = 0 ∨ i = 1 ∨ i = 2 ∨ i = 3 ∨ i = 4) as [->|[->|[->|[->| ->]]]] by lia; cbn [Z.ltb Z.compare Pos.compare Pos.compare_cont Z.eqb Pos.eqb].
  1-3: match goal with |- context [?y <=? ?x] => destruct (Z.leb_spec y x); [lia|] end; f_equal; lia.
  - assert (f_to_int (fmul (f_of_Z 20) (f_of_Z 3)) = 60) as -> by (vm_compute; reflexivity). match goal with |- context [maxTokens <=? ?x] => destruct (Z.leb_spec maxTokens x); [lia|] end. f_equal; lia.
  - assert (f_to_int (fmul (f_of_Z 20) (f_of_Z (4 - 1))) = 60) as -> by (vm_compute; reflexivity). match goal with |- context [maxTokens <=? ?x] => destruct (Z.leb_spec maxTokens x); [|lia] end. f_equal; lia.
Qed.

Lemma buckets_partition maxTokens : 7 ≤ maxTokens → Buckets maxTokens.
Proof.
  intros H7. destruct (Z.le_gt_cases maxTokens 101) as [Hle|Hgt].
  - pose proof small_buckets_fit as H. rewrite forallb_forall in H. specialize (H maxTokens ltac:(apply list_elem_of_In, elem_of_seqZ; lia)).
    unfold bucketsFit in H. apply andb_true_iff in H as [[[H1 H2]%bool_decide_eq_true H3]%andb_true_iff H4]. rewrite forallb_forall in H3, H4. constructor; [done|done|..].
    + intros i Hi. refine (proj1 (bool_decide_eq_true _) (H3 i _)). assert (i = 0 ∨ i = 1 ∨ i = 2 ∨ i = 3 ∨ i = 4) as Hx by lia. cbn [In]. naive_solver.
    + intros i Hi. refine (proj1 (bool_decide_eq_true _) (H4 i _)). assert (i = 0 ∨ i = 1 ∨ i = 2 ∨ i = 3) as Hx by lia. cbn [In]. naive_solver.
  - constructor; [rewrite large_bucket by lia; done|rewrite large_bucket by lia; done|..].
    + intros i Hi. rewrite large_bucket by lia. cbn [fst snd]. destruct (Z.ltb_spec i 4), (Z.ltb_spec i 3), (Z.eqb_spec i 3); lia.
    + intros i Hi. rewrite !large_bucket by lia. cbn [fst snd]. destruct (Z.ltb_spec (i + 1) 4), (Z.ltb_spec i 3), (Z.eqb_spec i 3); lia.
Qed.

(** Every bucket lies within [1, maxTokens - 1]. *)
Lemma bucket_range maxTokens i : 7 ≤ maxTokens → 0 ≤ i ≤ 4 →
  1 ≤ (calcBucketBoundaries maxTokens i).1 ≤ (calcBucketBoundaries maxTokens i).2 ∧ (calcBucketBoundaries maxTokens i).2 ≤ maxTokens - 1.
Proof.
  intros H7 Hi. destruct (buckets_partition maxTokens H7) as [B1 B2 B3 B4]. pose proof (B3 0 ltac:(lia)). pose proof (B3 1 ltac:(lia)). pose proof (B3 2 ltac:(lia)). pose proof (B3 3 ltac:(lia)). pose proof (B3 4 ltac:(lia)).
  pose proof (B4 0 ltac:(lia)) as N0. pose proof (B4 1 ltac:(lia)) as N1. pose proof (B4 2 ltac:(lia)) as N2. pose proof (B4 3 ltac:(lia)) as N3.
  change (0 + 1) with 1 in N0. change (1 + 1) with 2 in N1. change (2 + 1) with 3 in N2. change (3 + 1) with 4 in N3.
  assert (i = 0 ∨ i = 1 ∨ i = 2 ∨ i = 3 ∨ i = 4) as [->|[->|[->|[->| ->]]]] by lia; lia.
Qed.

(** A number up to the last fixed probability falls into one of the five buckets. *)
Lemma bucketOf_range r c : f_is_nan r = false → cumulativeBucketsProbabilities !! 4%nat = Some c → flt c r = false → 0 ≤ bucketOf r ≤ 4.
Proof.
  intros Hn Hc Hf. assert (fle r c = true) as Hle by (apply not_flt_fle; [vm_compute in Hc; by injection Hc as <-|done|done]).
  unfold bucketOf. destruct (list_find (λ c, fle r c = true) cumulativeBucketsProbabilities) as [[i x]|] eqn:E.
  - apply list_find_Some in E as (Hi & _ & Hmin). destruct (decide (i ≤ 4)%nat) as [|Hgt]; [lia|]. exfalso. apply (Hmin 4%nat c); [done|lia|done].
  - exfalso. apply list_find_None in E. rewrite Forall_forall in E. apply (E c); [by eapply list_elem_of_lookup_2|done].
Qed.

Section Lengths.
Variable g : generator.
Context `{!GeneratorOk g}.

Lemma histogram_range maxTokens k :
  1 ≤ maxTokens < 2 ^ 62 → ∃ n k', getResponseLengthByHistogram g maxTokens k = Returns n k' ∧ 1 ≤ n ≤ maxTokens.
Proof using GeneratorOk0.
  intros Hm. unfold getResponseLengthByHistogram. destruct (Z.leb_spec maxTokens 1); [eexists _, _; split; [done|lia]|]. change numBuckets with 6.
  destruct (Z.leb_spec maxTokens 6).
  - destruct (RandomInt_ok g 1 maxTokens k) as (x & -> & Hx); [lia..|]. eauto.
  - unfold bind. destruct (RandomFloat_unit g k) as (r & -> & Hf & _). destruct (cumulativeBucketsProbabilities !! Z.to_nat (6 - 2)) as [c|] eqn:Ec; [|vm_compute in Ec; discriminate Ec].
    destruct (flt c r) eqn:Efl; [eexists _, _; split; [done|lia]|]. pose proof (bucketOf_range r c Hf Ec Efl) as Hb.
    destruct (bucket_range maxTokens (bucketOf r) ltac:(lia) Hb) as [H1 H2]. destruct (calcBucketBoundaries maxTokens (bucketOf r)) as [start stop]. cbn [fst snd] in *.
    destruct (RandomInt_ok g start stop (S k)) as (x & -> & Hx); [lia..|]. eexists _, _. split; [done|lia].
Qed.

(** The sample at a draw. *)
Definition gaussianSample (k : nat) : f64 := fadd (fmul (NormFloat64 g k) (f_of_Z responseLenStddev)) (f_of_Z responseLenMean).
Definition accepts (maxLen : Z) (k : nat) : bool := fle (f_of_Z 1) (gaussianSample k) && fle (gaussianSample k) (f_of_Z maxLen).

Lemma gaussianSample_representable k : Representable (gaussianSample k).
Proof using GeneratorOk0.
  destruct (norm_range k) as [H _]. apply fadd_representable; [apply fmul_representable; [done|]|]; apply f_of_Z_representable.
Qed.

(** Rejection sampling returns with the first sample that is accepted. *)
Lemma gaussian_range maxLen j k :
  0 < maxLen < 2 ^ 53 → accepts maxLen (k + j) = true →
  ∃ n k', ∀ fuel, (j < fuel)%nat → getRandomResponseLenByGaussian g fuel maxLen k = Returns n k' ∧ 1 ≤ n ≤ maxLen.
Proof using GeneratorOk0.
  intros Hm. pose proof gaussianSample_representable as Hr. revert k. induction j as [|j IH]; intros k Ha.
  - rewrite Nat.add_0_r in Ha. exists (f_to_int (f_round (gaussianSample k))), (S k). intros [|fuel] Hf; [lia|]. cbn [getRandomResponseLenByGaussian]. unfold bind, RandomNorm.
    change (responseLenStddev =? 0) with false. cbn match. fold (gaussianSample k). fold (accepts maxLen k). rewrite Ha. split; [done|]. apply andb_true_iff in Ha as [H1 H2]. by apply round_between.
  - destruct (accepts maxLen k) eqn:Ek.
    + exists (f_to_int (f_round (gaussianSample k))), (S k). intros [|fuel] Hf; [lia|]. cbn [getRandomResponseLenByGaussian]. unfold bind, RandomNorm.
      change (responseLenStddev =? 0) with false. cbn match. fold (gaussianSample k). fold (accepts maxLen k). rewrite Ek. split; [done|]. apply andb_true_iff in Ek as [H1 H2]. by apply round_between.
    + destruct (IH (S k)) as (n & k' & H); [by replace (S k + j)%nat with (k + S j)%nat by lia|]. exists n, k'. intros [|fuel] Hf; [lia|]. cbn [getRandomResponseLenByGaussian]. unfold bind, RandomNorm.
      change (responseLenStddev =? 0) with false. cbn match. fold (gaussianSample k). fold (accepts maxLen k). rewrite Ek. apply H. lia.
Qed.

(** * Preset tokens *)

(** A token has its string. *)
Definition Paired (t : Tokenized) : Prop := length (Strings t) = length (Tokens t).

Definition PresetsOk (d : DefaultDataset) : Prop :=
  length (tokenizedResponses d) = length completionFakeResponses ∧ ∀ t, t ∈ tokenizedResponses d → Paired t ∧ Tokens t ≠ [].

Lemma presetRound_ok d n res k :
  PresetsOk d → Paired res → Z.of_nat (length (Tokens res)) < n →
  ∃ res', presetRound g d n res k = Returns res' (S k) ∧ Paired res' ∧ Z.of_nat (length (Tokens res)) < Z.of_nat (length (Tokens res')) ≤ n.
Proof using GeneratorOk0.
  intros [Hl Hp] Hr Hn. unfold presetRound, bind. change (Z.of_nat (length completionFakeResponses)) with 11.
  destruct (RandomInt_ok g 0 (11 - 1) k) as (i & -> & Hi); [lia..|]. destruct (index_ok (tokenizedResponses d) i (S k)) as (t & -> & Ht); [rewrite Hl; cbn; lia|].
  destruct (Hp t Ht) as [Hpt Hne]. assert (0 < length (Tokens t))%nat as Hpos by (destruct (Tokens t); [done|cbn; lia]). unfold Paired in *.
  destruct (Z.ltb_spec (n - Z.of_nat (length (Tokens res))) (Z.of_nat (length (Tokens t)))) as [Hlt|Hge].
  - rewrite Hpt. destruct (Z.ltb_spec (Z.of_nat (length (Tokens t))) (n - Z.of_nat (length (Tokens res)))); [lia|]. eexists. split; [done|]. cbn. rewrite !length_app, !length_take. lia.
  - eexists. split; [done|]. cbn. rewrite !length_app. lia.
Qed.

Lemma presetLoop_ok d n fuel res k :
  PresetsOk d → Paired res → Z.of_nat (length (Tokens res)) ≤ n → n ≤ Z.of_nat (length (Tokens res)) + Z.of_nat fuel →
  ∃ res' k', presetLoop g fuel d n res k = Returns res' k' ∧ Paired res' ∧ Z.of_nat (length (Tokens res')) = n.
Proof using GeneratorOk0.
  intros Hd. revert res k. induction fuel as [|fuel IH]; intros res k Hp Hle Hf; cbn [presetLoop]; destruct (Z.ltb_spec (Z.of_nat (length (Tokens res))) n) as [Hlt|Hge].
  - lia.
  - eexists _, _. split; [done|]. split; [done|lia].
  - unfold bind. destruct (presetRound_ok d n res k Hd Hp Hlt) as (res' & -> & Hp' & Hn). apply IH; [done|lia|lia].
  - eexists _, _. split; [done|]. split; [done|lia].
Qed.

Lemma preset_exact d n k : PresetsOk d → 0 ≤ n → ∃ t k', generatePresetRandomTokens g d n k = Returns t k' ∧ Paired t ∧ Z.of_nat (length (Tokens t)) = n.
Proof using GeneratorOk0. intros Hd Hn. apply presetLoop_ok; [done|done|cbn; lia|cbn; lia]. Qed.

(** * The default dataset *)

(** What passed validation leaves room for a token. *)
Lemma response_room d r :
  validateRequest r = None → ValidateContextWindow (promptLength r) (maxModelLen d) false = true → maxModelLen d < 2 ^ 53 → promptLength r < 2 ^ 62 →
  1 ≤ (calculateResponseMaxLen d r).1 ≤ maxModelLen d - promptLength r ∧ ∀ m, MaxTokens r = Some m → (calculateResponseMaxLen d r).1 ≤ m.
Proof.
  intros Hv Hw Hm Hp1. assert (0 ≤ promptLength r) as Hp by (unfold promptLength; lia). unfold ValidateContextWindow in Hw. apply Z.leb_le in Hw. rewrite i64_small in Hw by lia.
  unfold calculateResponseMaxLen. rewrite i64_small by lia. destruct (MaxTokens r) as [m|] eqn:Em; cbn [fst]; [|split; [lia|done]].
  assert (1 ≤ m) as H1.
  { unfold validateRequest in Hv. rewrite Em in Hv. destruct (Z.leb_spec m 0); [|lia]. destruct (N r) as [n|]; [destruct (n <=? 0)|]; destruct (DoRemoteDecode r && Stream r), (IgnoreEOS r && _); done. }
  destruct (Z.ltb_spec m (maxModelLen d - promptLength r)); (split; [lia|intros ? [= <-]; lia]).
Qed.

(** Whether a fresh length needs a Gaussian sample. *)
Definition needsSample (d : DefaultDataset) (r : Req) : Prop := MaxTokens r = None ∧ 20 ≤ (calculateResponseMaxLen d r).1.

Lemma response_length fuel d r k :
  1 ≤ (calculateResponseMaxLen d r).1 < 2 ^ 53 → (IgnoreEOS r = true → MaxTokens r ≠ None) →
  (needsSample d r → ∃ j, (j < fuel)%nat ∧ accepts (calculateResponseMaxLen d r).1 (k + j) = true) →
  ∃ n k', (if IgnoreEOS r then ret (calculateResponseMaxLen d r).1
     else if (calculateResponseMaxLen d r).2 then getResponseLengthByHistogram g (calculateResponseMaxLen d r).1
     else getRandomResponseLen g fuel (calculateResponseMaxLen d r).1) k = Returns n k' ∧
    1 ≤ n ≤ (calculateResponseMaxLen d r).1 ∧ (IgnoreEOS r = true → n = (calculateResponseMaxLen d r).1).
Proof using GeneratorOk0.
  intros Hm Hig Hacc. set (maxLen := (calculateResponseMaxLen d r).1) in *. destruct (IgnoreEOS r); [eexists _, _; split; [done|]; split; [lia|done]|].
  destruct (calculateResponseMaxLen d r).2 eqn:E2.
  - destruct (histogram_range maxLen k ltac:(lia)) as (n & k' & -> & Hn). exists n, k'. split; [done|]. split; [lia|done].
  - assert (MaxTokens r = None) as Hno by (unfold calculateResponseMaxLen in E2; destruct (MaxTokens r); [done|done]). unfold getRandomResponseLen. change (responseLenMean - responseLenStddev) with 20.
    destruct (Z.ltb_spec maxLen 20) as [Hlt|Hge].
    + unfold getRandomResponseLenByUniform. destruct (RandomInt_ok g 1 maxLen k) as (x & -> & Hx); [lia..|]. eexists x, _. split; [done|]. split; [lia|done].
    + destruct (Hacc (conj Hno Hge)) as (j & Hj & Ha). destruct (gaussian_range maxLen j k ltac:(lia) Ha) as (n & k' & H). destruct (H fuel Hj) as [-> Hn]. exists n, k'. split; [done|]. split; [lia|done].
Qed.

(** * The custom dataset *)

Lemma Length_paired t : Paired t → Length t = Z.of_nat (length (Tokens t)).
Proof. unfold Paired, Length. intros ->. by destruct (Nat.eqb_spec (length (Tokens t)) 0). Qed.

Lemma Trim_ok maxLen t k : Paired t → 0 ≤ maxLen < Length t → ∃ t', Trim maxLen t k = Returns t' k ∧ Paired t' ∧ Length t' = maxLen.
Proof.
  intros Hp Hm. rewrite Length_paired in Hm by done. unfold Trim, cutTo. unfold Paired in Hp. rewrite Hp.
  destruct (Z.ltb_spec maxLen (Z.of_nat (length (Tokens t)))); [|lia]. destruct (Z.ltb_spec maxLen 0); [lia|]. eexists. split; [done|].
  assert (Paired (mkTokenized (take (Z.to_nat maxLen) (Tokens t)) (take (Z.to_nat maxLen) (Strings t)))) as Hp' by (unfold Paired; cbn; rewrite !length_take; lia).
  split; [done|]. rewrite Length_paired by done. cbn. rewrite length_take. lia.
Qed.

Lemma getRandomResponse_ok l k : l ≠ [] → Z.of_nat (length l) < 2 ^ 62 → ∃ t, getRandomResponse g l k = Returns t (S k) ∧ t ∈ l.
Proof using GeneratorOk0.
  intros Hne Hl. assert (0 < length l)%nat by (destruct l; [done|cbn; lia]). unfold getRandomResponse, bind.
  destruct (RandomInt_ok g 0 (Z.of_nat (length l) - 1) k) as (i & -> & Hi); [lia..|]. apply index_ok. lia.
Qed.

Lemma padTo_ok d maxLen t k : PresetsOk d → Paired t → Length t ≤ maxLen → ∃ t' k', padTo g d maxLen t k = Returns t' k' ∧ Paired t' ∧ Length t' = maxLen.
Proof using GeneratorOk0.
  intros Hd Hp Hl. unfold padTo, bind. destruct (preset_exact d (maxLen - Length t) k Hd ltac:(lia)) as (m & k' & -> & Hpm & Hlm). eexists _, _. split; [done|].
  assert (Paired (Append t m)) as Hp' by (unfold Paired in *; cbn; rewrite !length_app; lia). split; [done|]. rewrite Length_paired in * by done. cbn. rewrite length_app. lia.
Qed.

(** What a response must be. *)
Definition Fitting (ignoreEOS : bool) (maxLen : Z) (t : Tokenized) : Prop := Paired t ∧ Length t ≤ maxLen ∧ (ignoreEOS = true → Length t = maxLen).

(** The contract of a query: every token has its string. *)
Definition ResponsesOk (l : list Tokenized) : Prop := Z.of_nat (length l) < 2 ^ 62 ∧ ∀ t, t ∈ l → Paired t.

Lemma matched_fits d ignoreEOS maxLen responses k :
  PresetsOk d → 0 ≤ maxLen → ResponsesOk responses → responses ≠ [] →
  ∃ t k', matchedResponse g d ignoreEOS maxLen responses k = Returns t k' ∧ Fitting ignoreEOS maxLen t.
Proof using GeneratorOk0.
  intros Hd Hm [Hs Hp] Hne. unfold matchedResponse, categorizeResponses.
  assert (∀ P `{!∀ t, Decision (P t)}, filter P responses ≠ [] → ∀ k, ∃ t, getRandomResponse g (filter P responses) k = Returns t (S k) ∧ P t ∧ Paired t) as Hget.
  { intros P HP Hn k0. destruct (getRandomResponse_ok (filter P responses) k0 Hn) as (t & E & Ht); [pose proof (length_filter P responses); lia|]. apply list_elem_of_filter in Ht as [HPt Ht]. eauto. }
  assert (filter (λ t, Length t ≤ maxLen) responses = [] → filter (λ t, maxLen < Length t) responses ≠ []) as Hsplit.
  { intros H1 H2. destruct responses as [|t l]; [done|]. destruct (Z.le_gt_cases (Length t) maxLen); [rewrite filter_cons_True in H1 by done|rewrite filter_cons_True in H2 by lia]; done. }
  assert (∀ k0, filter (λ t, maxLen < Length t) responses ≠ [] →
    ∃ t k', bind (getRandomResponse g (filter (λ t, maxLen < Length t) responses)) (λ t, Trim maxLen t) k0 = Returns t k' ∧ Fitting ignoreEOS maxLen t) as Htrim.
  { intros k0 Hn. destruct (Hget _ _ Hn k0) as (t & E & Ht & Hpt). unfold bind. rewrite E. destruct (Trim_ok maxLen t (S k0) Hpt ltac:(lia)) as (t' & -> & Hp' & Hl'). eexists _, _. split; [done|]. split_and!; [done|lia|done]. }
  destruct ignoreEOS.
  - destruct (filter (λ t, Length t = maxLen) responses) as [|e es] eqn:Ee; [destruct (filter (λ t, maxLen < Length t) responses) as [|x xs] eqn:El|].
    + assert (filter (λ t, Length t ≤ maxLen) responses ≠ []) as Hn by (intros H; by apply Hsplit in H). destruct (Hget _ _ Hn k) as (t & E & Ht & Hpt). unfold bind. rewrite E.
      destruct (padTo_ok d maxLen t (S k) Hd Hpt Ht) as (t' & k' & -> & Hp' & Hl'). eexists _, _. split; [done|]. split_and!; [done|lia|done].
    + by apply Htrim.
    + rewrite <- Ee. destruct (Hget (λ t, Length t = maxLen) _ ltac:(by rewrite Ee) k) as (t & -> & Ht & Hpt). eexists _, _. split; [done|]. split_and!; [done|lia|done].
  - destruct (filter (λ t, Length t ≤ maxLen) responses) as [|e es] eqn:Ee; [by apply Htrim, Hsplit|]. rewrite <- Ee. destruct (Hget (λ t, Length t ≤ maxLen) _ ltac:(by rewrite Ee) k) as (t & -> & Ht & Hpt).
    eexists _, _. split; [done|]. split_and!; [done|lia|done].
Qed.

Lemma fallback_fits d ignoreEOS maxLen t k :
  PresetsOk d → 0 ≤ maxLen → Paired t → ∃ t' k', fallbackResponse g d ignoreEOS maxLen t k = Returns t' k' ∧ Fitting ignoreEOS maxLen t'.
Proof using GeneratorOk0.
  intros Hd Hm Hp. unfold fallbackResponse. destruct (Z.ltb_spec maxLen (Length t)) as [Hlt|Hle].
  - destruct (Trim_ok maxLen t k Hp ltac:(lia)) as (t' & -> & Hp' & Hl'). eexists _, _. split; [done|]. split_and!; [done|lia|done].
  - destruct ignoreEOS.
    + destruct (padTo_ok d maxLen t k Hd Hp ltac:(lia)) as (t' & k' & -> & Hp' & Hl'). eexists _, _. split; [done|]. split_and!; [done|lia|done].
    + eexists _, _. split; [done|]. split_and!; [done|lia|done].
Qed.

End Lengths.

(** ** An example dataset and request *)

Definition default_ex : DefaultDataset := mkDefault 100 (replicate 11 (mkTokenized [1; 2] ["a"; "b"]%string)).
Definition ask_ex (max : option Z) (ignoreEOS : bool) : Req := mkReq "r" "m" "m" 0 None max false false false false ignoreEOS false None (Some [5; 6; 7]).

Lemma default_ex_ok : PresetsOk default_ex.
Proof. split; [done|]. intros t [-> _]%elem_of_replicate. done. Qed.

(** * Theorems *)

(** For a request that passed validation, and whenever the rejection sampling of
    the length accepts one of the first [fuel] samples, the default dataset returns (it
    neither panics nor loops) between one token and the room that is left: at most
    max-tokens, and prompt and response fit the context window.  Every token has its
    string, ignore-eos gives the maximum, and the finish reason is "length" exactly at
    the maximum. *)
Theorem default_response_fits g fuel d r k :
  GeneratorOk g → PresetsOk d →
  validateRequest r = None → ValidateContextWindow (promptLength r) (maxModelLen d) false = true → maxModelLen d < 2 ^ 53 → promptLength r < 2 ^ 62 →
  (needsSample d r → ∃ j, (j < fuel)%nat ∧ accepts g (calculateResponseMaxLen d r).1 (k + j) = true) →
  ∃ t reason k', defaultResponse g fuel d r k = Returns (t, reason) k' ∧ Paired t ∧
    1 ≤ Z.of_nat (length (Tokens t)) ∧ promptLength r + Z.of_nat (length (Tokens t)) ≤ maxModelLen d ∧
    (∀ m, MaxTokens r = Some m → Z.of_nat (length (Tokens t)) ≤ m) ∧
    (IgnoreEOS r = true → Z.of_nat (length (Tokens t)) = (calculateResponseMaxLen d r).1) ∧
    (reason = "length"%string ↔ Z.of_nat (length (Tokens t)) = (calculateResponseMaxLen d r).1).
Proof.
  intros Hg Hd Hv Hw Hm Hp Hacc. destruct (response_room d r Hv Hw Hm Hp) as [Hroom Hmax]. assert (0 ≤ promptLength r) by (unfold promptLength; lia).
  assert (IgnoreEOS r = true → MaxTokens r ≠ None) as Hig.
  { intros Hi Hn. unfold validateRequest in Hv. rewrite Hi, Hn in Hv. destruct (N r) as [n|]; [destruct (n <=? 0)|]; destruct (DoRemoteDecode r && Stream r); done. }
  destruct (response_length g fuel d r k ltac:(lia) Hig Hacc) as (n & k1 & E1 & Hn & Hi). destruct (preset_exact g d n k1 Hd ltac:(lia)) as (t & k2 & E2 & Hpair & Hlen).
  exists t, (finishReasonFor n (calculateResponseMaxLen d r).1), k2. split.
  { unfold defaultResponse. destruct (calculateResponseMaxLen d r) as [maxLen isMax]. cbn [fst snd] in *. unfold bind. rewrite E1, E2. done. }
  rewrite Hlen. split_and!; [done|lia|lia| |done|].
  - intros m Hx. specialize (Hmax m Hx). lia.
  - unfold finishReasonFor. destruct (Z.eqb_spec n (calculateResponseMaxLen d r).1); [done|]. split; [done|lia].
Qed.

Lemma default_response_fits_witness :
  ∃ t reason k', defaultResponse generator_ex 1%nat default_ex (ask_ex None false) 0%nat = Returns (t, reason) k' ∧ Paired t ∧ Z.of_nat (length (Tokens t)) = 40 ∧ reason = "stop"%string.
Proof.
  destruct (default_response_fits generator_ex 1%nat default_ex (ask_ex None false) 0%nat) as (t & reason & k' & E & Hp & H).
  - exact generator_ex_ok.
  - exact default_ex_ok.
  - reflexivity.
  - reflexivity.
  - vm_compute. reflexivity.
  - vm_compute. reflexivity.
  - intros _. exists 0%nat. split; [lia|]. vm_compute. reflexivity.
  - exists t, reason, k'. split; [exact E|]. split; [exact Hp|].
    assert (match defaultResponse generator_ex 1%nat default_ex (ask_ex None false) 0%nat with Returns (t, r) _ => Some (Z.of_nat (length (Tokens t)), r) | _ => None end = Some (40, "stop"%string)) as Hc by (vm_compute; reflexivity).
    rewrite E in Hc. injection Hc as H1 H2. split; [exact H1|exact H2].
Defined.

(** When every stored response has a string per token, the custom dataset returns,
    without a panic, an error of the database, "Dataset is empty", or a response of at
    most the maximum length, of exactly the maximum with ignore-eos (trimmed, or padded
    with preset tokens), with finish reason "length" exactly at the maximum. *)
Theorem custom_response_fits {E} g byPrompt byLen (any : result E (list Tokenized)) d r k :
  GeneratorOk g → PresetsOk d → 0 ≤ (calculateResponseMaxLen d r).1 →
  (∀ p l, byPrompt p = Ok l → ResponsesOk l) → (∀ n b l, byLen n b = Ok l → ResponsesOk l) → (∀ l, any = Ok l → ResponsesOk l) →
  ∃ res k', customResponse g byPrompt byLen any d r k = Returns res k' ∧
    match res with
    | Ok (t, reason) => Fitting (IgnoreEOS r) (calculateResponseMaxLen d r).1 t ∧ (reason = "length"%string ↔ Length t = (calculateResponseMaxLen d r).1)
    | Err (ErrQuery e) => byPrompt (default [] (tokenizedPrompt r)) = Err e ∨ (∃ n b, byLen n b = Err e) ∨ any = Err e
    | Err ErrEmptyDataset => any = Ok []
    end.
Proof.
  intros Hg Hd Hm H1 H2 H3. unfold customResponse. destruct (calculateResponseMaxLen d r) as [maxLen isMax]. cbn [fst] in *.
  assert (∀ n : Z, finishReasonFor n maxLen = "length"%string ↔ n = maxLen) as Hfin by (intros n; unfold finishReasonFor; destruct (Z.eqb_spec n maxLen); split; done).
  assert (∀ t, Paired t → ∃ t' k', fallbackResponse g d (IgnoreEOS r) maxLen t k = Returns t' k' ∧ Fitting (IgnoreEOS r) maxLen t') as Hfb by (intros t Ht; by apply fallback_fits).
  destruct (byPrompt _) as [[|t l]|e] eqn:Ep; [|destruct (matched_fits g d (IgnoreEOS r) maxLen (t :: l) k Hd Hm ltac:(eauto) ltac:(done)) as (t' & k' & Er & Hf)|eexists _, _; split; [done|]; by left].
  2: { cbv beta iota zeta delta [bind]. rewrite Er. eexists _, _. split; [done|]. by split. }
  destruct (byLen maxLen (IgnoreEOS r)) as [[|t l]|e] eqn:El; [|destruct (Hfb t) as (t' & k' & Er & Hf); [apply (H2 _ _ _ El); by left|]|eexists _, _; split; [done|]; right; left; eauto].
  2: { cbv beta iota zeta delta [bind]. rewrite Er. eexists _, _. split; [done|]. by split. }
  destruct any as [[|t l]|e] eqn:Ea; [eexists _, _; by split|destruct (Hfb t) as (t' & k' & Er & Hf); [apply (H3 _ eq_refl); by left|]|eexists _, _; split; [done|]; by right; right].
  cbv beta iota zeta delta [bind]. rewrite Er. eexists _, _. split; [done|]. by split.
Qed.

Lemma custom_response_fits_witness :
  ∃ t reason k', customResponse generator_ex (λ _, Ok []) (λ _ _, Ok [mkTokenized [9] ["z"%string]]) (Err tt) default_ex (ask_ex (Some 4) true) 0%nat = Returns (Ok (t, reason)) k' ∧
    Paired t ∧ Length t = 4 ∧ reason = "length"%string.
Proof.
  destruct (custom_response_fits generator_ex (λ _, Ok []) (λ _ _, Ok [mkTokenized [9] ["z"%string]]) (Err tt) default_ex (ask_ex (Some 4) true) 0%nat) as (res & k' & E & H).
  - exact generator_ex_ok.
  - exact default_ex_ok.
  - vm_compute. discriminate.
  - intros p l [= <-]. split; [vm_compute; reflexivity|]. intros t []%not_elem_of_nil.
  - intros n b l [= <-]. split; [vm_compute; reflexivity|]. intros t ->%list_elem_of_singleton. reflexivity.
  - intros l [=].
  - destruct res as [[t reason]|[e|]].
    + destruct H as [(Hp & _ & Hl) Hr]. exists t, reason, k'. split; [exact E|]. split; [exact Hp|]. specialize (Hl eq_refl). split; [exact Hl|]. apply Hr. exact Hl.
    + vm_compute in E. discriminate E.
    + vm_compute in E. discriminate E.
Defined.

End DatasetProps.
