(* ===== verification/Latencies.v ===== *)
(** The latency calculators of [pkg/simulator/latencies.go], how the simulator chooses
    one and how long it sleeps before a token ([pkg/simulator/context.go]).  Durations
    are [int64] nanoseconds. *)

From S2P Require Import Prelude GoFloat GoRandom Moe.
Import GoRandom Moe.
Open Scope Z_scope.

Module Latencies.

(** The latency fields of the configuration. *)
Record Config := mkConfig {
  LatencyCalculator : string;
  InterTokenLatency : Z; InterTokenLatencyStdDev : Z;
  TimeToFirstToken : Z; TimeToFirstTokenStdDev : Z;
  KVCacheTransferLatency : Z; KVCacheTransferLatencyStdDev : Z;
  KVCacheTransferTimePerToken : Z; KVCacheTransferTimeStdDev : Z;
  PrefillOverhead : Z; PrefillTimePerToken : Z; PrefillTimeStdDev : Z;
  TimeToGenerateImage : Z; TimeToGenerateImageStdDev : Z;
  TimeFactorUnderLoad : f64; MaxNumSeqs : Z
}.

Definition DefaultLatencyCalculator : string := "".
Definition ConstantLatencyCalculator : string := "constant".
Definition PerPromptTokenLatencyCalculator : string := "per-token".

Record baseCalculator := mkBase {
  interTokenLatency : Z; interTokenLatencyStdDev : Z; timeFactorUnderLoad : f64; maxNumSeqs : Z
}.

Definition newBase (c : Config) : baseCalculator := mkBase (InterTokenLatency c) (InterTokenLatencyStdDev c) (TimeFactorUnderLoad c) (MaxNumSeqs c).

Definition getCurrLoadFactor (b : baseCalculator) (nRunningReqs : Z) : f64 :=
  if maxNumSeqs b <=? 1 then f_of_Z 1
  else fadd (f_of_Z 1) (fdiv (fmul (fsub (timeFactorUnderLoad b) (f_of_Z 1)) (f_of_Z (i64 (nRunningReqs - 1)))) (f_of_Z (i64 (maxNumSeqs b - 1)))).

(** [time.Duration(float64(d) * factor)]. *)
Definition scaled (d : Z) (factor : f64) : Z := f_to_int (fmul (f_of_Z d) factor).

Record constantCalculator := mkConstant {
  c_base : baseCalculator; c_timeToFirstToken : Z; c_timeToFirstTokenStdDev : Z; c_kVCacheTransferLatency : Z; c_kVCacheTransferLatencyStdDev : Z
}.
Record perTokenCalculator := mkPerToken {
  p_base : baseCalculator; p_kVCacheTransferTimePerToken : Z; p_kVCacheTransferTimeStdDev : Z; p_prefillOverhead : Z; p_prefillTimePerToken : Z; p_prefillTimeStdDev : Z
}.
Record defaultCalculator := mkDefaultCalculator {
  d_base : baseCalculator; d_timeToFirstToken : Z; d_timeToFirstTokenStdDev : Z; d_kVCacheTransferLatency : Z; d_kVCacheTransferLatencyStdDev : Z;
  d_kVCacheTransferTimePerToken : Z; d_kVCacheTransferTimeStdDev : Z; d_prefillOverhead : Z; d_prefillTimePerToken : Z; d_prefillTimeStdDev : Z
}.

Definition newDefaultCalculator (c : Config) : defaultCalculator :=
  mkDefaultCalculator (newBase c) (TimeToFirstToken c) (TimeToFirstTokenStdDev c) (KVCacheTransferLatency c) (KVCacheTransferLatencyStdDev c)
    (KVCacheTransferTimePerToken c) (KVCacheTransferTimeStdDev c) (PrefillOverhead c) (PrefillTimePerToken c) (PrefillTimeStdDev c).
Definition newConstantCalculator (c : Config) : constantCalculator :=
  mkConstant (newBase c) (TimeToFirstToken c) (TimeToFirstTokenStdDev c) (KVCacheTransferLatency c) (KVCacheTransferLatencyStdDev c).
Definition newPerTokenCalculator (c : Config) : perTokenCalculator :=
  mkPerToken (newBase c) (KVCacheTransferTimePerToken c) (KVCacheTransferTimeStdDev c) (PrefillOverhead c) (PrefillTimePerToken c) (PrefillTimeStdDev c).

Section Calculators.
Variable g : generator.
Local Open Scope random_scope.

Definition GetInterTokenLatency (b : baseCalculator) (running : Z) : drawing Z :=
  RandomNormDuration g (scaled (interTokenLatency b) (getCurrLoadFactor b running)) (interTokenLatencyStdDev b).

Definition defaultTTFT (d : defaultCalculator) (params : TTFTParams) : drawing Z :=
  if DoRemotePrefill params then
    if (d_kVCacheTransferLatency d =? 0) && (d_kVCacheTransferLatencyStdDev d =? 0) then
      RandomNormDuration g (i64 (d_kVCacheTransferTimePerToken d * PromptTokens params)) (d_kVCacheTransferTimeStdDev d)
    else RandomNormDuration g (d_kVCacheTransferLatency d) (d_kVCacheTransferLatencyStdDev d)
  else if (d_timeToFirstToken d =? 0) && (d_timeToFirstTokenStdDev d =? 0) then
    let prefillOverhead := scaled (d_prefillOverhead d) (getCurrLoadFactor (d_base d) (RunningReqs params)) in
    let prefillTimePerToken := scaled (d_prefillTimePerToken d) (getCurrLoadFactor (d_base d) (RunningReqs params)) in
    let prefillTime := i64 (prefillOverhead + i64 (i64 (PromptTokens params - CachedPromptTokens params) * prefillTimePerToken)) in
    RandomNormDuration g prefillTime (d_prefillTimeStdDev d)
  else RandomNormDuration g (scaled (d_timeToFirstToken d) (getCurrLoadFactor (d_base d) (RunningReqs params))) (d_timeToFirstTokenStdDev d).

Definition constantTTFT (c : constantCalculator) (params : TTFTParams) : drawing Z :=
  if DoRemotePrefill params then RandomNormDuration g (c_kVCacheTransferLatency c) (c_kVCacheTransferLatencyStdDev c)
  else RandomNormDuration g (scaled (c_timeToFirstToken c) (getCurrLoadFactor (c_base c) (RunningReqs params))) (c_timeToFirstTokenStdDev c).

(** The time to prefill the prompt tokens that are not cached. *)
Definition prefillMean (p : perTokenCalculator) (params : TTFTParams) : Z :=
  let prefillOverhead := scaled (p_prefillOverhead p) (getCurrLoadFactor (p_base p) (RunningReqs params)) in
  let prefillTimePerToken := scaled (p_prefillTimePerToken p) (getCurrLoadFactor (p_base p) (RunningReqs params)) in
  i64 (prefillOverhead + i64 (i64 (PromptTokens params - CachedPromptTokens params) * prefillTimePerToken)).

Definition perTokenTTFT (p : perTokenCalculator) (params : TTFTParams) : drawing Z :=
  if DoRemotePrefill params then RandomNormDuration g (i64 (p_kVCacheTransferTimePerToken p * PromptTokens params)) (p_kVCacheTransferTimeStdDev p)
  else RandomNormDuration g (prefillMean p params) (p_prefillTimeStdDev p).

(** The interface, and its implementations. *)
Record latencyCalculator := mkCalculator { ttftOf : TTFTParams → drawing Z; interTokenOf : Z → drawing Z }.
Definition asDefault (d : defaultCalculator) : latencyCalculator := mkCalculator (defaultTTFT d) (GetInterTokenLatency (d_base d)).
Definition asConstant (c : constantCalculator) : latencyCalculator := mkCalculator (constantTTFT c) (GetInterTokenLatency (c_base c)).
Definition asPerToken (p : perTokenCalculator) : latencyCalculator := mkCalculator (perTokenTTFT p) (GetInterTokenLatency (p_base p)).

(** [None] is the nil interface. *)
Definition rebuildLatencyCalculator (c : Config) : option latencyCalculator :=
  if String.eqb (LatencyCalculator c) DefaultLatencyCalculator then Some (asDefault (newDefaultCalculator c))
  else if String.eqb (LatencyCalculator c) ConstantLatencyCalculator then Some (asConstant (newConstantCalculator c))
  else if String.eqb (LatencyCalculator c) PerPromptTokenLatencyCalculator then Some (asPerToken (newPerTokenCalculator c))
  else None.

(** What is slept before the first token, and the MoE simulator afterwards; a nil
    calculator panics, and so does a forward of the MoE simulator that does. *)
Definition withMoe (moe : option (option moeSimulator * Z)) (latency : Z) : drawing (option moeSimulator * Z) :=
  match moe with Some (moe, extra) => ret (moe, i64 (latency + extra)) | None => panic end.

Definition simulateTTFT (calc : option latencyCalculator) (params : TTFTParams) (moe : option moeSimulator) : drawing (option moeSimulator * Z) :=
  match calc with
  | None => panic
  | Some calc => ttft <- ttftOf calc params; withMoe (moePrefillLatency params moe) ttft
  end.

Definition simulateInterTokenLatency (calc : option latencyCalculator) (running : Z) (moe : option moeSimulator) : drawing (option moeSimulator * Z) :=
  match calc with
  | None => panic
  | Some calc => perTokenLatency <- interTokenOf calc running; withMoe (moeDecodeLatency running moe) perTokenLatency
  end.

Definition simulateImageGenerationLatency (c : Config) : drawing (option Z) :=
  if 0 <? TimeToGenerateImage c then d <- RandomNormDuration g (TimeToGenerateImage c) (TimeToGenerateImageStdDev c); ret (Some d) else ret None.

End Calculators.

End Latencies.
