(* ===== verification/LatenciesProps.v ===== *)
(** The sampled latencies against the formulas of the documentation. *)

From Stdlib Require Import Floats.SpecFloat.
From S2P Require Import Prelude GoFloat GoFloatInt GoFloatOrder GoFloatRound GoRandom Moe Latencies.
Import GoRandom Moe Latencies.
Open Scope Z_scope.

Module LatenciesProps.

(** * Sampling *)

(** Within 70% of the mean: never above, below by less than 1.2 milliseconds. *)
Definition Within (mean d : Z) : Prop := 3 * mean - 12 * millisecond < 10 * d ≤ 17 * mean ∧ d mod millisecond = 0.

Lemma Milliseconds_range d : 0 ≤ d → Milliseconds d * millisecond ≤ d < Milliseconds d * millisecond + millisecond ∧ 0 ≤ Milliseconds d.
Proof.
  intros Hd. unfold Milliseconds, millisecond. pose proof (Z.quot_rem' d (10 ^ 6)). pose proof (Z.rem_bound_pos d (10 ^ 6) Hd ltac:(lia)). lia.
Qed.

Lemma sample_within g mean stddev k :
  GeneratorOk g → 0 ≤ mean < 2 ^ 62 → 0 ≤ stddev < 2 ^ 63 → ∃ d k', RandomNormDuration g mean stddev k = Returns d k' ∧ Within mean d.
Proof.
  intros Hg Hm Hs. pose proof (Milliseconds_range mean ltac:(lia)) as [M1 M2]. pose proof (Milliseconds_range stddev ltac:(lia)) as [S1 S2].
  set (m := Milliseconds mean) in *. unfold RandomNormDuration, bind, millisecond in *. fold m.
  destruct (RandomNorm_ok g m (Milliseconds stddev) k) as (x & k' & -> & Hn & Hr); [unfold ExactInt; lia..|]. unfold ret. eexists _, _. split; [done|].
  pose proof (clamp_tenths m x ltac:(lia) Hn Hr) as Hc. set (t := f_to_int _) in *. pose proof (Z.div_mod (3 * m) 10 ltac:(lia)). pose proof (Z.mod_pos_bound (3 * m) 10 ltac:(lia)).
  pose proof (Z.div_mod (17 * m) 10 ltac:(lia)). pose proof (Z.mod_pos_bound (17 * m) 10 ltac:(lia)).
  rewrite i64_small by lia. unfold Within, millisecond. split; [lia|]. rewrite Z.mul_comm. apply Z.mod_mul. lia.
Qed.

(** A sample is never rounded up: below a millisecond nothing is left. *)
Lemma sample_submillisecond g mean stddev k :
  GeneratorOk g → 0 ≤ mean < millisecond → 0 ≤ stddev < 2 ^ 63 → ∃ k', RandomNormDuration g mean stddev k = Returns 0 k'.
Proof.
  intros Hg Hm Hs. pose proof (Milliseconds_range stddev ltac:(lia)) as [S1 S2]. assert (Milliseconds mean = 0) as Hz by (by apply Z.quot_small).
  unfold RandomNormDuration, bind. rewrite Hz. destruct (RandomNorm_ok g 0 (Milliseconds stddev) k) as (x & k' & -> & Hn & Hr); [unfold ExactInt, millisecond in *; lia..|].
  pose proof (clamp_tenths 0 x ltac:(lia) Hn Hr) as Hc. change (3 * 0 / 10) with 0 in Hc. change (17 * 0 / 10) with 0 in Hc. exists k'. unfold ret. by replace (f_to_int (clampToMean 0 x)) with 0 by lia.
Qed.

(** * The load factor *)

(** No other request counts: one sequence at most, no factor, or a single running request. *)
Definition Unloaded (b : baseCalculator) (running : Z) : Prop :=
  maxNumSeqs b ≤ 1 ∨ timeFactorUnderLoad b = f_of_Z 1 ∨ (running = 1 ∧ Finite (fsub (timeFactorUnderLoad b) (f_of_Z 1))).

Lemma factor_zero x n d : Finite x → 0 < d < 2 ^ 53 → ExactInt n → x = f_zero ∨ n = 0 → fadd (f_of_Z 1) (fdiv (fmul x (f_of_Z n)) (f_of_Z d)) = f_of_Z 1.
Proof.
  intros Hx Hd Hn Hz. rewrite (f_of_Z_canonical d Hd). assert (∃ s, fmul x (f_of_Z n) = S754_zero s) as [s ->].
  { destruct Hz as [-> | ->]; [pose proof (f_of_Z_finite n Hn)|]; [destruct (f_of_Z n)|destruct x]; cbn; eauto; done. }
  by destruct s.
Qed.

Lemma factor_none n d : 0 < d < 2 ^ 53 → - 1 ≤ n < 2 ^ 53 → fadd (f_of_Z 1) (fdiv (fmul f_zero (f_of_Z n)) (f_of_Z d)) = f_of_Z 1.
Proof.
  intros Hd Hn. destruct (decide (n = - 1)) as [->|]; [by rewrite (f_of_Z_canonical d Hd)|]. apply factor_zero; [done|done|unfold ExactInt; lia|by left].
Qed.

Lemma load_factor_one b running :
  maxNumSeqs b < 2 ^ 53 → 0 ≤ running < 2 ^ 53 → Unloaded b running → getCurrLoadFactor b running = f_of_Z 1.
Proof.
  intros Hm Hr Hu. unfold getCurrLoadFactor. destruct (Z.leb_spec (maxNumSeqs b) 1); [done|]. rewrite !i64_small by lia.
  destruct Hu as [?|[->|[-> Hf]]]; [lia|apply factor_none; lia|]. apply factor_zero; [done|lia|unfold ExactInt; lia|auto].
Qed.

(** A product with one is exact. *)
Lemma fmul_one n : ExactInt n → fmul (f_of_Z n) (f_of_Z 1) = f_of_Z n.
Proof.
  intros [H1 H2]. destruct (decide (n = 0)) as [->|]; [done|]. rewrite (f_of_Z_canonical n), (f_of_Z_canonical 1) by lia. unfold fmul. cbn [SFmul xorb].
  assert (0 < n < 2 ^ 53) as Hn by lia. pose proof (log2_exact n Hn) as Hl. pose proof (int_mantissa_pos n Hn) as Hp. rewrite Pos2Z.inj_mul, Z2Pos.id by done.
  change (Z.pos (Z.to_pos (int_mantissa 1))) with (2 ^ 52). change (int_exponent 1) with (-52). apply round_aux_canonical; [done|].
  unfold shr_fexp. cbn [shr_record_of_loc]. rewrite fexp_eq, Zdigits2_log2 by lia. assert (Z.log2 (int_mantissa n) = 52) as Hlm by (unfold int_mantissa; rewrite log2_scaled; lia). rewrite log2_scaled, Hlm by lia.
  unfold int_exponent. replace (Z.max _ _ - _) with 52 by lia. cbn [shr]. rewrite (shr_exact (int_mantissa n) 52 Hp). f_equal. lia.
Qed.

Lemma scaled_one d : ExactInt d → scaled d (f_of_Z 1) = d.
Proof. intros Hd. unfold scaled. rewrite fmul_one by done. by apply f_to_int_int. Qed.

(** * The documented formulas *)

Definition constantForm (c : Config) (p : TTFTParams) : Z := if DoRemotePrefill p then KVCacheTransferLatency c else TimeToFirstToken c.
Definition perTokenForm (c : Config) (p : TTFTParams) : Z :=
  if DoRemotePrefill p then PromptTokens p * KVCacheTransferTimePerToken c
  else PrefillOverhead c + (PromptTokens p - CachedPromptTokens p) * PrefillTimePerToken c.

(** Unset: the constant form when its time or its standard deviation is given. *)
Definition unsetForm (c : Config) (p : TTFTParams) : bool :=
  if DoRemotePrefill p then (KVCacheTransferLatency c =? 0) && (KVCacheTransferLatencyStdDev c =? 0)
  else (TimeToFirstToken c =? 0) && (TimeToFirstTokenStdDev c =? 0).

Definition nominalTTFT (c : Config) (p : TTFTParams) : Z :=
  if String.eqb (LatencyCalculator c) ConstantLatencyCalculator then constantForm c p
  else if String.eqb (LatencyCalculator c) PerPromptTokenLatencyCalculator then perTokenForm c p
  else if unsetForm c p then perTokenForm c p else constantForm c p.

(** What validation leaves, up to the sizes of the durations (below 104 days). *)
Record ConfigOk (c : Config) : Prop := mkConfigOk {
  co_name : LatencyCalculator c = DefaultLatencyCalculator ∨ LatencyCalculator c = ConstantLatencyCalculator ∨ LatencyCalculator c = PerPromptTokenLatencyCalculator;
  co_times : Forall ExactInt [InterTokenLatency c; TimeToFirstToken c; KVCacheTransferLatency c; KVCacheTransferTimePerToken c; PrefillOverhead c; PrefillTimePerToken c];
  co_devs : Forall ExactInt [InterTokenLatencyStdDev c; TimeToFirstTokenStdDev c; KVCacheTransferLatencyStdDev c; KVCacheTransferTimeStdDev c; PrefillTimeStdDev c];
  co_seqs : MaxNumSeqs c < 2 ^ 53
}.

(** A request that is timed: the cached tokens are tokens of the prompt, the counter of
    running requests is not negative (it may be 0: it is updated asynchronously, and
    never with fake metrics), and the documented time is below 146 years. *)
Record ParamsOk (c : Config) (p : TTFTParams) : Prop := mkParamsOk {
  po_tokens : 0 ≤ CachedPromptTokens p ≤ PromptTokens p; po_prompt : PromptTokens p < 2 ^ 53;
  po_running : 0 ≤ RunningReqs p < 2 ^ 53; po_nominal : nominalTTFT c p < 2 ^ 62
}.

Lemma default_dispatch g c p :
  defaultTTFT g (newDefaultCalculator c) p = if unsetForm c p then perTokenTTFT g (newPerTokenCalculator c) p else constantTTFT g (newConstantCalculator c) p.
Proof. unfold defaultTTFT, perTokenTTFT, constantTTFT, unsetForm. cbn. destruct (DoRemotePrefill p); cbn; by case_match. Qed.

Section Forms.
Variables (g : generator) (c : Config) (p : TTFTParams).
Context (Hg : GeneratorOk g) (Hc : ConfigOk c) (Htok : 0 ≤ CachedPromptTokens p ≤ PromptTokens p) (Hprompt : PromptTokens p < 2 ^ 53).
Context (Hrun : 0 ≤ RunningReqs p < 2 ^ 53) (Hload : Unloaded (newBase c) (RunningReqs p)).

Lemma constant_samples k : ∃ d k', constantTTFT g (newConstantCalculator c) p k = Returns d k' ∧ Within (constantForm c p) d.
Proof using All.
  destruct Hc as [_ Ht Hd Hs]. unfold constantTTFT, constantForm. cbn. repeat (apply Forall_cons in Ht as [? Ht]). repeat (apply Forall_cons in Hd as [? Hd]). unfold ExactInt in *.
  destruct (DoRemotePrefill p); [apply sample_within; [done|lia..]|]. rewrite load_factor_one, scaled_one by done. apply sample_within; [done|lia..].
Qed.

Lemma per_token_samples k : perTokenForm c p < 2 ^ 62 → ∃ d k', perTokenTTFT g (newPerTokenCalculator c) p k = Returns d k' ∧ Within (perTokenForm c p) d.
Proof using All.
  intros Hn. destruct Hc as [_ Ht Hd Hs]. unfold perTokenTTFT, perTokenForm, prefillMean in *. cbn in *. repeat (apply Forall_cons in Ht as [? Ht]). repeat (apply Forall_cons in Hd as [? Hd]). unfold ExactInt in *.
  destruct (DoRemotePrefill p).
  - rewrite i64_small, Z.mul_comm by nia. apply sample_within; [done|nia|lia].
  - rewrite load_factor_one, !scaled_one by done. rewrite (i64_small (_ - _)) by lia. rewrite (i64_small (_ * _)) by nia. rewrite i64_small by nia. apply sample_within; [done|nia|lia].
Qed.

End Forms.

Lemma inter_token_samples g c running k :
  GeneratorOk g → ConfigOk c → 0 ≤ running < 2 ^ 53 → Unloaded (newBase c) running →
  ∃ d k', GetInterTokenLatency g (newBase c) running k = Returns d k' ∧ Within (InterTokenLatency c) d.
Proof.
  intros Hg [_ Ht Hd Hs] Hr Hu. unfold GetInterTokenLatency. cbn. repeat (apply Forall_cons in Ht as [? Ht]). repeat (apply Forall_cons in Hd as [? Hd]). unfold ExactInt in *.
  rewrite load_factor_one, scaled_one by done. apply sample_within; [done|lia..].
Qed.

Lemma interTokenOf_base g c calc : rebuildLatencyCalculator g c = Some calc → interTokenOf calc = GetInterTokenLatency g (newBase c).
Proof. unfold rebuildLatencyCalculator. intros H. by repeat (case_match; simplify_eq/=). Qed.

Lemma ttftOf_form g c calc p :
  rebuildLatencyCalculator g c = Some calc →
  ttftOf calc p = perTokenTTFT g (newPerTokenCalculator c) p ∧ nominalTTFT c p = perTokenForm c p ∨
  ttftOf calc p = constantTTFT g (newConstantCalculator c) p ∧ nominalTTFT c p = constantForm c p.
Proof.
  unfold rebuildLatencyCalculator, nominalTTFT. intros H. destruct (String.eqb_spec (LatencyCalculator c) DefaultLatencyCalculator) as [E|_].
  - rewrite E. injection H as <-. cbn [asDefault ttftOf]. rewrite default_dispatch. cbn. destruct (unsetForm c p); auto.
  - case_match; [injection H as <-; by right|]. case_match; [injection H as <-; by left|done].
Qed.

Lemma rebuild_known g c : ConfigOk c → is_Some (rebuildLatencyCalculator g c).
Proof. intros [Hn _ _ _]. unfold rebuildLatencyCalculator. destruct Hn as [->|[->| ->]]; cbn; eauto. Qed.

(** The sum with the time of the MoE model does not wrap around. *)
Lemma within_sum nominal d x : 0 ≤ nominal < 2 ^ 62 → Within nominal d → 0 ≤ x < 2 ^ 60 → i64 (d + x) = d + x.
Proof. intros Hn [? _] Hx. unfold millisecond in *. apply i64_small. lia. Qed.

Lemma nominal_nonneg c p : ConfigOk c → 0 ≤ CachedPromptTokens p ≤ PromptTokens p → 0 ≤ nominalTTFT c p.
Proof.
  intros [_ Ht _ _] Hp. repeat (apply Forall_cons in Ht as [? Ht]). unfold ExactInt, nominalTTFT, perTokenForm, constantForm in *. destruct (DoRemotePrefill p); repeat case_match; nia.
Qed.

(** * Theorems *)

(** C30: with a configuration that validation accepts (durations below 104 days) and no
    load factor at work, the calculator that is installed makes the simulator sleep
    within 70% of the documented formula: the flat time or transfer latency, or the
    overhead plus the time of the uncached tokens (the whole prompt for a transfer),
    chosen by the name or, when it is unset, by which fields are set; and between tokens
    within 70% of the inter-token latency. Below the mean there is up to 1.2 ms more,
    because times are cut to milliseconds. The time of the MoE model, when it is on and
    its forward does not panic, is added to both, and not to a transfer. No load factor
    is at work ([Unloaded]) when the factor is 1, when there is one sequence at most, or
    when the counter of running requests reads exactly 1 and the factor is finite; the
    claim says nothing of a loaded simulator, nor of a counter that reads 0 with a
    factor other than 1, as with fake metrics, where the time can be negative. *)
Theorem latencies_as_documented g c p k moe moe1 x moe2 y :
  GeneratorOk g → ConfigOk c → ParamsOk c p → Unloaded (newBase c) (RunningReqs p) →
  moePrefillLatency p moe = Some (moe1, x) → moeDecodeLatency (RunningReqs p) moe = Some (moe2, y) → 0 ≤ x < 2 ^ 60 → 0 ≤ y < 2 ^ 60 →
  ∃ calc, rebuildLatencyCalculator g c = Some calc ∧
    (∃ d k', simulateTTFT (Some calc) p moe k = Returns (moe1, d + x) k' ∧ Within (nominalTTFT c p) d) ∧
    (∃ d k', simulateInterTokenLatency (Some calc) (RunningReqs p) moe k = Returns (moe2, d + y) k' ∧ Within (InterTokenLatency c) d) ∧
    (DoRemotePrefill p = true ∨ moe = None → x = 0).
Proof.
  intros Hg Hc [Htok Hp Hr Hn] Hu Hx Hy Bx By. destruct (rebuild_known g c Hc) as [calc Hcalc]. exists calc. split; [done|].
  assert (0 ≤ nominalTTFT c p) as Hpos by (by apply nominal_nonneg). destruct (inter_token_samples g c (RunningReqs p) k Hg Hc Hr Hu) as (d & k' & E & Hw).
  assert (∃ d k', ttftOf calc p k = Returns d k' ∧ Within (nominalTTFT c p) d) as (d1 & k1 & E1 & Hw1).
  { destruct (ttftOf_form g c calc p Hcalc) as [[-> Ef]|[-> Ef]]; rewrite Ef in *; [by apply per_token_samples|by apply constant_samples]. }
  split_and!.
  - exists d1, k1. split; [|done]. unfold simulateTTFT, bind. rewrite E1, Hx. cbn [withMoe]. unfold ret. by rewrite (within_sum (nominalTTFT c p)).
  - exists d, k'. split; [|done]. unfold simulateInterTokenLatency, bind. rewrite (interTokenOf_base g c calc Hcalc), E, Hy. cbn [withMoe]. unfold ret.
    destruct Hc as [_ Ht _ _]. apply Forall_cons in Ht as [Ht _]. unfold ExactInt in Ht. rewrite (within_sum (InterTokenLatency c)); [done|lia|done|done].
  - intros [Hrem| ->]; unfold moePrefillLatency in Hx; [rewrite Hrem in Hx; by destruct moe; injection Hx|by injection Hx].
Qed.

Ltac exact_ints := repeat (apply Forall_cons; split; [vm_compute; split; congruence|]); apply Forall_nil; exact I.

(** An unset calculator with 20 ms of overhead and 1.5 ms per token; 7 of 10 tokens cached. *)
Definition config_ex : Config := mkConfig "" (5 * millisecond) millisecond 0 0 0 0 0 0 (20 * millisecond) 1500000 (3 * millisecond) 0 0 (f_of_Z 1) 5.
Definition params_ex : TTFTParams := mkTTFT 10 7 false 3.
Lemma config_ex_ok : ConfigOk config_ex.
Proof. split; [by left|exact_ints|exact_ints|done]. Qed.

Lemma latencies_as_documented_witness :
  ∃ calc d k', rebuildLatencyCalculator generator_ex config_ex = Some calc ∧ simulateTTFT (Some calc) params_ex None 0%nat = Returns (None, d) k' ∧ Within 24500000 d.
Proof.
  destruct (latencies_as_documented generator_ex config_ex params_ex 0%nat None None 0 None 0) as (calc & E & (d & k' & H1 & H2) & _).
  - exact generator_ex_ok.
  - exact config_ex_ok.
  - split; vm_compute; repeat split; congruence.
  - right. left. reflexivity.
  - reflexivity.
  - reflexivity.
  - lia.
  - lia.
  - exists calc, d, k'. split; [exact E|]. split; [rewrite Z.add_0_r in H1; exact H1|]. exact H2.
Defined.

(** An inter-token latency below a millisecond is lost: whatever its standard
    deviation and whatever is drawn, the simulator sleeps 0 ns between tokens, although
    the documentation offers microsecond durations and a deviation of at most 70%. *)
Theorem submillisecond_latency_lost g c running k :
  GeneratorOk g → ConfigOk c → 0 ≤ running < 2 ^ 53 → Unloaded (newBase c) running → InterTokenLatency c < millisecond →
  ∃ calc k', rebuildLatencyCalculator g c = Some calc ∧ simulateInterTokenLatency (Some calc) running None k = Returns (None, 0) k'.
Proof.
  intros Hg Hc Hr Hu Hlow. destruct (rebuild_known g c Hc) as [calc Hcalc]. destruct Hc as [_ Ht Hd Hs]. repeat (apply Forall_cons in Ht as [? Ht]). repeat (apply Forall_cons in Hd as [? Hd]). unfold ExactInt in *.
  destruct (sample_submillisecond g (InterTokenLatency c) (InterTokenLatencyStdDev c) k Hg) as (k' & E); [lia..|]. exists calc, k'. split; [done|].
  unfold simulateInterTokenLatency, bind. rewrite (interTokenOf_base g c calc Hcalc). unfold GetInterTokenLatency. cbn [newBase interTokenLatency interTokenLatencyStdDev].
  rewrite load_factor_one, scaled_one, E by done. done.
Qed.

Definition fast_ex : Config := mkConfig "constant" 750000 200000 0 0 0 0 0 0 0 0 0 0 0 (f_of_Z 1) 5.

Lemma submillisecond_latency_lost_witness :
  ∃ calc k', rebuildLatencyCalculator generator_ex fast_ex = Some calc ∧ simulateInterTokenLatency (Some calc) 1 None 0%nat = Returns (None, 0) k'.
Proof.
  apply (submillisecond_latency_lost generator_ex fast_ex 1 0%nat).
  - exact generator_ex_ok.
  - split; [by right; left|exact_ints|exact_ints|reflexivity].
  - lia.
  - right. left. reflexivity.
  - reflexivity.
Defined.

End LatenciesProps.
