(* ===== verification/FakeMetrics.v ===== *)
(** Fake metrics: their configuration and its validation ([pkg/common/config_fake_metrics.go]),
    the generator functions, and how they are shown ([pkg/simulator/fake_metrics.go]).
    Prometheus is outside: the code is modelled by the calls it makes on its collectors. *)

From Stdlib Require Import Floats.SpecFloat.
From stdpp Require Import pretty.
From S2P Require Import Prelude GoFloat.
Open Scope Z_scope.

Module FakeMetrics.

(** * Configuration *)

Record FunctionInfo := mkFunction { fi_Name : string; fi_Start : f64; fi_End : f64; fi_Period : Z }.
Record FakeMetricWithFunction := mkFake { FixedValue : f64; Function_ : option FunctionInfo; IsFunction : bool }.
Record LorasMetrics := mkLoras { RunningLoras : string; WaitingLoras : string; Timestamp : f64 }.

(** Pointers, slices and maps that can be nil are options. *)
Record FakeMetrics := mkFakeMetrics {
  LoraMetrics : option (list LorasMetrics);
  RunningRequests : option FakeMetricWithFunction; WaitingRequests : option FakeMetricWithFunction; KVCacheUsagePercentage : option FakeMetricWithFunction;
  TTFTBucketValues : option (list Z); TPOTBucketValues : option (list Z);
  RequestPromptTokens : option (list Z); RequestGenerationTokens : option (list Z); RequestParamsMaxTokens : option (list Z); RequestMaxGenerationTokens : option (list Z);
  RequestSuccessTotal : option (gmap string Z);
  TotalPromptTokens : option Z; TotalGenerationTokens : option Z;
  E2ERequestLatencyBucketValues : option (list Z); ReqQueueTimeBucketValues : option (list Z); ReqInfTimeBucketValues : option (list Z);
  ReqPrefillTimeBucketValues : option (list Z); ReqDecodeTimeBucketValues : option (list Z); ReqTPOTBucketValues : option (list Z);
  PrefixCacheHits : option Z; PrefixCacheQueries : option Z
}.

Definition set_RequestSuccessTotal (m : option (gmap string Z)) (f : FakeMetrics) : FakeMetrics :=
  mkFakeMetrics (LoraMetrics f) (RunningRequests f) (WaitingRequests f) (KVCacheUsagePercentage f) (TTFTBucketValues f) (TPOTBucketValues f)
    (RequestPromptTokens f) (RequestGenerationTokens f) (RequestParamsMaxTokens f) (RequestMaxGenerationTokens f) m (TotalPromptTokens f) (TotalGenerationTokens f)
    (E2ERequestLatencyBucketValues f) (ReqQueueTimeBucketValues f) (ReqInfTimeBucketValues f) (ReqPrefillTimeBucketValues f) (ReqDecodeTimeBucketValues f)
    (ReqTPOTBucketValues f) (PrefixCacheHits f) (PrefixCacheQueries f).

Definition OscillateFuncName : string := "oscillate".
Definition RampFuncName : string := "ramp".
Definition RampWithResetFuncName : string := "rampreset".
Definition SquarewaveFuncName : string := "squarewave".

Definition requiredFinishReasons : list string := ["stop"; "length"; "tool_calls"; "remote_decode"; "cache_threshold"]%string.

(** Upper bounds in seconds, as thousandths. *)
Definition thousandths (l : list Z) : list f64 := (λ n, f_const n 1000) <$> l.
Definition TTFTBucketsBoundaries : list f64 :=
  thousandths [1; 5; 10; 20; 40; 60; 80; 100; 250; 500; 750; 1000; 2500; 5000; 7500; 10000; 20000; 40000; 80000; 160000; 640000; 2560000].
Definition TPOTBucketsBoundaries : list f64 :=
  thousandths [10; 25; 50; 75; 100; 150; 200; 300; 400; 500; 750; 1000; 2500; 5000; 7500; 10000; 20000; 40000; 80000].
Definition RequestLatencyBucketsBoundaries : list f64 :=
  thousandths [300; 500; 800; 1000; 1500; 2000; 2500; 5000; 10000; 15000; 20000; 30000; 40000; 50000; 60000; 120000; 240000; 480000; 960000; 1920000; 7680000].

(** ** Reading and writing *)

Section Parsing.
(** [strconv.ParseFloat] and [time.ParseDuration]; [%g] of a number and [String] of a duration. *)
Variable ParseFloat : string → result string f64.
Variable ParseDuration : string → result string Z.
Variable formatG : f64 → string.
Variable formatDuration : Z → string.

Definition parseFunc (parts : list string) : result string FunctionInfo :=
  match parts with
  | [name; s; e; p] =>
      let! start := ParseFloat s in
      let! stop := ParseFloat e in
      let! period := ParseDuration p in
      Ok (mkFunction name start stop period)
  | _ => Err "need func:start:end:period in fake metric generation function"%string
  end.

(** [strings.Split(s, ":")]. *)
Fixpoint splitColon (s : string) : list string :=
  match s with
  | EmptyString => [EmptyString]
  | String c s =>
      if Ascii.eqb c (Ascii.ascii_of_nat 58) then EmptyString :: splitColon s
      else match splitColon s with [] => [String c EmptyString] | part :: parts => String c part :: parts end
  end.

Definition parseFunction (s : string) (f : FakeMetricWithFunction) : result string FakeMetricWithFunction :=
  match parseFunc (splitColon s) with
  | Err e => Err ("unknown format in fake metric generation function: " +:+ e)%string
  | Ok fi => Ok (mkFake (FixedValue f) (Some fi) true)
  end.

(** A JSON number, string, or anything else. *)
Inductive json := JNumber (n : f64) | JString (s : string) | JOther (e : string).

(** The receiver keeps what is not assigned. *)
Definition UnmarshalJSON (data : json) (f : FakeMetricWithFunction) : result string FakeMetricWithFunction :=
  match data with
  | JNumber n => Ok (mkFake n (Function_ f) (IsFunction f))
  | JString s => parseFunction s f
  | JOther e => Err e
  end.

Definition MarshalJSON (f : FakeMetricWithFunction) : json :=
  match IsFunction f, Function_ f with
  | true, Some fi => JString (fi_Name fi +:+ ":" +:+ formatG (fi_Start fi) +:+ ":" +:+ formatG (fi_End fi) +:+ ":" +:+ formatDuration (fi_Period fi))
  | _, _ => JNumber (FixedValue f)
  end.

End Parsing.

(** ** Validation *)

Definition validateFunction (g : option FunctionInfo) : result string unit :=
  match g with
  | None => Ok tt
  | Some g =>
      if negb (bool_decide (fi_Name g ∈ [OscillateFuncName; RampFuncName; RampWithResetFuncName; SquarewaveFuncName]))
      then Err ("invalid fake metrics generation function " +:+ fi_Name g +:+ ", must be one of the following: oscillate, ramp, rampreset, squarewave")%string
      else if flt (fi_End g) f_zero || flt (fi_Start g) f_zero || (fi_Period g <? 0)
      then Err "invalid fake metrics generation parameter: start and end must not be negative"%string
      else if fi_Period g <=? 0 then Err "invalid fake metrics generation parameter: period must be positive"%string
      else Ok tt
  end.

(** A metric that is not nil. *)
Definition onMetric (m : option FakeMetricWithFunction) (f : FakeMetricWithFunction → result string unit) : result string unit :=
  match m with None => Ok tt | Some m => f m end.

Definition fixedBelow (m : option FakeMetricWithFunction) : bool := match m with Some m => flt (FixedValue m) f_zero | None => false end.
Definition outsideUnit (x : f64) : bool := flt x f_zero || flt (f_of_Z 1) x.

(** The values of an array, nil or not. *)
Definition nonNegative (msg : string) (l : option (list Z)) : result string unit :=
  if existsb (λ v, v <? 0) (default [] l) then Err msg else Ok tt.

Definition boundedArray (tooLong negative : string) (boundaries : list f64) (l : option (list Z)) : result string unit :=
  match l with
  | None => Ok tt
  | Some values => if (length boundaries + 1 <? length values)%nat then Err tooLong else nonNegative negative l
  end.

(** The first entry, in the order of the iteration, that is refused. *)
Fixpoint validateReasons (entries : list (string * Z)) : result string unit :=
  match entries with
  | [] => Ok tt
  | (reason, count) :: entries =>
      if count <? 0 then Err ("fake metrics request-success-total." +:+ reason +:+ " cannot be negative, got " +:+ pretty count)%string
      else if negb (bool_decide (reason ∈ requiredFinishReasons))
      then Err ("invalid finish reason in request-success-total: " +:+ reason +:+ " (valid reasons: [stop length tool_calls remote_decode cache_threshold])")%string
      else validateReasons entries
  end.

Definition withRequiredReasons (m : gmap string Z) : gmap string Z :=
  foldl (λ m reason, match m !! reason with None => <[reason := 0]> m | Some _ => m end) m requiredFinishReasons.

Section Validation.
(** The order in which a map is ranged over. *)
Variable rangeOrder : gmap string Z → list (string * Z).

(** A nil function that is marked as one is dereferenced. *)
Definition validateKVUsage (m : FakeMetricWithFunction) : option (result string unit) :=
  match validateFunction (Function_ m) with
  | Err e => Some (Err e)
  | Ok _ =>
      if IsFunction m then
        g ← Function_ m;
        Some (if outsideUnit (fi_Start g) || outsideUnit (fi_End g) then Err "fake metrics KV cache usage start and end must be between 0 and 1"%string else Ok tt)
      else Some (Ok tt)
  end.

Definition validateArrays (f : FakeMetrics) : result string unit :=
  let! _ := nonNegative "fake metrics request-prompt-tokens cannot contain negative values" (RequestPromptTokens f) in
  let! _ := nonNegative "fake metrics request-generation-tokens cannot contain negative values" (RequestGenerationTokens f) in
  let! _ := nonNegative "fake metrics request-params-max-tokens cannot contain negative values" (RequestParamsMaxTokens f) in
  let! _ := nonNegative "fake metrics request-max-generation-tokens cannot contain negative values" (RequestMaxGenerationTokens f) in
  let! _ := nonNegative "fake metrics e2erl-buckets-values cannot contain negative values" (E2ERequestLatencyBucketValues f) in
  let! _ := nonNegative "fake metrics queue-time-buckets-values cannot contain negative values" (ReqQueueTimeBucketValues f) in
  let! _ := nonNegative "fake metrics inf-time-buckets-values cannot contain negative values" (ReqInfTimeBucketValues f) in
  let! _ := nonNegative "fake metrics prefill-time-buckets-values cannot contain negative values" (ReqPrefillTimeBucketValues f) in
  let! _ := nonNegative "fake metrics decode-time-buckets-values cannot contain negative values" (ReqDecodeTimeBucketValues f) in
  nonNegative "fake metrics request-tpot-buckets-values cannot contain negative values" (ReqTPOTBucketValues f).

Definition validatePrefixCache (f : FakeMetrics) : result string unit :=
  match PrefixCacheHits f, PrefixCacheQueries f with
  | hits, queries =>
      if match hits with Some h => h <? 0 | None => false end then Err "fake metrics prefix-cache-hits cannot be negative"%string
      else if match queries with Some q => q <? 0 | None => false end then Err "fake metrics prefix-cache-queries cannot be negative"%string
      else match hits, queries with
      | None, None => Ok tt
      | Some h, Some q => if q <? h then Err "fake metrics prefix-cache-hits cannot exceed prefix-cache-queries"%string else Ok tt
      | _, _ => Err "fake metrics prefix-cache-hits and prefix-cache-queries must be specified together"%string
      end
  end.

(** The arrays and totals, and the totals completed. *)
Definition validateValues (f : FakeMetrics) : result string FakeMetrics :=
  let! _ := boundedArray "fake time-to-first-token array is too long" "time-to-first-token fake metrics should contain only non-negative values"
              TTFTBucketsBoundaries (TTFTBucketValues f) in
  let! _ := boundedArray "fake time-per-output-token array is too long" "time-per-output-token fake metrics should contain only non-negative values"
              TPOTBucketsBoundaries (TPOTBucketValues f) in
  let! totals := match RequestSuccessTotal f with
                 | None => Ok None
                 | Some m => let! _ := validateReasons (rangeOrder m) in Ok (Some (withRequiredReasons m))
                 end in
  let! _ := validateArrays f in
  let! _ := validatePrefixCache f in
  Ok (set_RequestSuccessTotal totals f).

Definition validate (f : FakeMetrics) : option (result string FakeMetrics) :=
  if fixedBelow (RunningRequests f) || fixedBelow (WaitingRequests f) then Some (Err "fake metrics request counters cannot be negative"%string)
  else if match KVCacheUsagePercentage f with Some m => outsideUnit (FixedValue m) | None => false end
  then Some (Err "fake metrics KV cache usage must be between 0 and 1"%string)
  else match onMetric (RunningRequests f) (λ m, validateFunction (Function_ m)) with
  | Err e => Some (Err e)
  | Ok _ =>
  match onMetric (WaitingRequests f) (λ m, validateFunction (Function_ m)) with
  | Err e => Some (Err e)
  | Ok _ =>
      r ← match KVCacheUsagePercentage f with None => Some (Ok tt) | Some m => validateKVUsage m end;
      Some (let! _ := r in validateValues f)
  end end.

End Validation.

End FakeMetrics.
