(* ===== verification/Metrics.v ===== *)
(** The metrics of a rank: [pkg/simulator/metrics.go] and [pkg/simulator/fake_metrics.go].
    Prometheus is outside: a run is the list of calls on its collectors, and whether a
    registration succeeds is a parameter.  Every updater goroutine owns its counter, so
    the messages of one channel are handled one after the other. *)

From Stdlib Require Import Floats.SpecFloat.
From stdpp Require Import pretty.
From S2P Require Import Prelude GoFloat FakeMetrics.
Import FakeMetrics.
Open Scope Z_scope.

Module Metrics.

(** * Collectors *)

Inductive metric :=
| loraInfo | runningRequests | waitingRequests | kvCacheUsagePercentage | ttft | tpot | interTokenLatency | e2eReqLatency | reqQueueTime | reqInferenceTime
| reqPrefillTime | reqDecodeTime | reqTpot | requestPromptTokens | requestGenerationTokens | promptTokensTotal | generationTokensTotal | maxNumGenerationTokens
| requestParamsMaxTokens | requestSuccessTotal | prefixCacheHitsTotal | prefixCacheQueriesTotal | cacheConfig.
#[global] Instance metric_eq_dec : EqDecision metric.
Proof. solve_decision. Defined.

(** The calls on a collector, with the values of its labels. *)
Inductive call :=
| Unregister (m : metric) | Register (m : metric)
| Observe (m : metric) (labels : list string) (value : f64)
| Add (m : metric) (labels : list string) (value : f64)
| SetGauge (m : metric) (labels : list string) (value : f64).

(** ** Buckets 1, 2, 5, 10, ... *)

(** [int(math.Pow10(exponent))]. *)
Definition Pow10 (exponent : nat) : f64 := f_of_Z (10 ^ Z.of_nat exponent).
Definition bucketValue (exponent : nat) (m : Z) : Z := i64 (m * f_to_int (Pow10 exponent)).
Definition bucketRound (maxValue : Z) (exponent : nat) : list Z := filter (λ v, v ≤ maxValue) (bucketValue exponent <$> [1; 2; 5]).

(** The rounds from [exponent] on; out of fuel is [None]. *)
Fixpoint bucketRounds (fuel : nat) (maxValue : Z) (exponent : nat) : option (list Z) :=
  match fuel with
  | O => None
  | S fuel =>
      match bucketRound maxValue exponent with
      | [] => Some []
      | values => rest ← bucketRounds fuel maxValue (S exponent); Some (values ++ rest)
      end
  end.

Definition Build125Buckets (fuel : nat) (maxValue : Z) : option (list f64) :=
  if maxValue <=? 0 then Some [] else option_map (map f_of_Z) (bucketRounds fuel maxValue 0).

(** * Generator functions *)

(** [Duration.Seconds]. *)
Definition second : Z := 10 ^ 9.
Definition Seconds (d : Z) : f64 := fadd (f_of_Z (Z.quot d second)) (fdiv (f_of_Z (Z.rem d second)) (f_of_Z second)).

(** [2 * math.Pi]. *)
Definition twoPi : f64 := S754_finite false 7074237752028440 (-50).

Section Generators.
Variable Sin : f64 → f64.

Definition oscillate (p : FunctionInfo) (t : Z) : option f64 :=
  let phase := fdiv (fmul twoPi (Seconds t)) (Seconds (fi_Period p)) in
  let amp := fdiv (fsub (fi_End p) (fi_Start p)) (f_of_Z 2) in
  let mid := fdiv (fadd (fi_Start p) (fi_End p)) (f_of_Z 2) in
  Some (fadd mid (fmul amp (Sin phase))).

Definition ramp (p : FunctionInfo) (t : Z) : option f64 :=
  let frac := fdiv (Seconds t) (Seconds (fi_Period p)) in
  Some (if fle (f_of_Z 1) frac then fi_End p else fadd (fi_Start p) (fmul frac (fsub (fi_End p) (fi_Start p)))).

(** [%] by a zero period panics. *)
Definition rampWithReset (p : FunctionInfo) (t : Z) : option f64 :=
  if fi_Period p =? 0 then None
  else
    let frac := fdiv (Seconds (Z.rem t (fi_Period p))) (Seconds (fi_Period p)) in
    let frac := if flt (f_of_Z 1) frac then f_of_Z 1 else frac in
    Some (fadd (fi_Start p) (fmul frac (fsub (fi_End p) (fi_Start p)))).

Definition squarewave (p : FunctionInfo) (t : Z) : option f64 :=
  if fi_Period p =? 0 then None
  else Some (if Z.rem t (fi_Period p) <? Z.quot (fi_Period p) 2 then fi_Start p else fi_End p).

(** [None] is the nil function. *)
Definition mapFun (name : string) : option (FunctionInfo → Z → option f64) :=
  if String.eqb name OscillateFuncName then Some oscillate
  else if String.eqb name RampFuncName then Some ramp
  else if String.eqb name RampWithResetFuncName then Some rampWithReset
  else if String.eqb name SquarewaveFuncName then Some squarewave
  else None.

End Generators.

(** * State *)

Record generatedFakeMetrics := mkGenerated { gf_params : FunctionInfo; gf_roundToInt : bool }.

Record metricsData := mkMetrics {
  runningLoras : gmap string Z; waitingLoras : gmap string Z; nRunningReqs : Z; nWaitingReqs : Z;
  generated : gmap string generatedFakeMetrics; ticking : bool; calls : list call
}.

Definition set_runningLoras (m : gmap string Z) (s : metricsData) : metricsData := mkMetrics m (waitingLoras s) (nRunningReqs s) (nWaitingReqs s) (generated s) (ticking s) (calls s).
Definition set_waitingLoras (m : gmap string Z) (s : metricsData) : metricsData := mkMetrics (runningLoras s) m (nRunningReqs s) (nWaitingReqs s) (generated s) (ticking s) (calls s).
Definition set_nRunningReqs (n : Z) (s : metricsData) : metricsData := mkMetrics (runningLoras s) (waitingLoras s) n (nWaitingReqs s) (generated s) (ticking s) (calls s).
Definition set_nWaitingReqs (n : Z) (s : metricsData) : metricsData := mkMetrics (runningLoras s) (waitingLoras s) (nRunningReqs s) n (generated s) (ticking s) (calls s).
Definition set_generated (g : gmap string generatedFakeMetrics) (s : metricsData) : metricsData := mkMetrics (runningLoras s) (waitingLoras s) (nRunningReqs s) (nWaitingReqs s) g (ticking s) (calls s).
Definition set_ticking (b : bool) (s : metricsData) : metricsData := mkMetrics (runningLoras s) (waitingLoras s) (nRunningReqs s) (nWaitingReqs s) (generated s) b (calls s).
Definition emit (l : list call) (s : metricsData) : metricsData := mkMetrics (runningLoras s) (waitingLoras s) (nRunningReqs s) (nWaitingReqs s) (generated s) (ticking s) (calls s ++ l).

(** * Updaters *)

Record MetricInfo := mkInfo { mi_Value : f64; mi_IsFake : bool }.
Inductive loraUsageState := waitingUsageState | runningUsageState | doneUsageState.
Record requestSuccessEvent := mkSuccess { promptTokens : Z; generationTokens : Z; genTokensPerChoice : list Z; maxTokens : option Z; finishReason : string }.

(** One message per channel. *)
Inductive message :=
| WaitingReq (upd : MetricInfo) | RunReq (upd : MetricInfo) | KVCacheUsage (value : MetricInfo) | PrefixStats (queriedTokens cachedTokens : Z)
| Latency (m : metric) (value : f64) | TpotValue (value : f64) | LoraUsage (name : string) (state : loraUsageState) | RequestSuccess (event : requestSuccessEvent).

Definition MaxIntSlice (numbers : list Z) : result string Z :=
  match numbers with
  | [] => Err "cannot return maximum of an empty slice"%string
  | n :: ns => Ok (foldl (λ max num, if max <? num then num else max) n ns)
  end.

Definition incrementLoraRefCount (lora : string) (m : gmap string Z) : gmap string Z := <[lora := i64 (default 0 (m !! lora) + 1)]> m.
Definition decrementLoraRefCount (lora : string) (m : gmap string Z) : gmap string Z :=
  match m !! lora with
  | None => m
  | Some count => if 1 <? count then <[lora := count - 1]> m else delete lora m
  end.

Section Rank.
(** The parts of the configuration that are read, and the Unix time. *)
Variable fake : bool.
Variable DisplayModelName : string.
Variable MaxLoras : Z.
Variable now : f64.
(** The order in which a [sync.Map] is ranged over. *)
Variable rangeKeys : gmap string Z → list string.

Definition model : list string := [DisplayModelName].

(** [strings.Join(l, ",")]. *)
Fixpoint join (l : list string) : string :=
  match l with [] => ""%string | [s] => s | s :: l => (s +:+ "," +:+ join l)%string end.

Definition reportLoras (s : metricsData) : metricsData :=
  if fake then s else emit [SetGauge loraInfo [pretty MaxLoras; join (rangeKeys (runningLoras s)); join (rangeKeys (waitingLoras s))] now] s.
Definition reportRunningRequests (s : metricsData) : metricsData := emit [SetGauge runningRequests model (f_of_Z (nRunningReqs s))] s.
Definition reportWaitingRequests (s : metricsData) : metricsData := emit [SetGauge waitingRequests model (f_of_Z (nWaitingReqs s))] s.
Definition reportHistogramValue (m : metric) (val : f64) (s : metricsData) : metricsData := if fake then s else emit [Observe m model val] s.
Definition reportKVCacheUsage (value : f64) (s : metricsData) : metricsData := emit [SetGauge kvCacheUsagePercentage model value] s.
Definition reportPrefixCacheStats (queriedTokens cachedTokens : Z) (s : metricsData) : metricsData :=
  if fake then s else emit [Add prefixCacheQueriesTotal model (f_of_Z queriedTokens); Add prefixCacheHitsTotal model (f_of_Z cachedTokens)] s.

(** A new value of a counter: a fake one replaces it, a real one is added. *)
Definition counted (upd : MetricInfo) (n : Z) : Z := if mi_IsFake upd then f_to_int (mi_Value upd) else i64 (n + f_to_int (mi_Value upd)).

Definition waitingRequestsUpdater (upd : MetricInfo) (s : metricsData) : metricsData :=
  if negb (Bool.eqb fake (mi_IsFake upd)) then s else reportWaitingRequests (set_nWaitingReqs (counted upd (nWaitingReqs s)) s).
Definition runningRequestsUpdater (upd : MetricInfo) (s : metricsData) : metricsData :=
  if negb (Bool.eqb fake (mi_IsFake upd)) then s else reportRunningRequests (set_nRunningReqs (counted upd (nRunningReqs s)) s).
Definition kvCacheUsageUpdater (value : MetricInfo) (s : metricsData) : metricsData :=
  if Bool.eqb fake (mi_IsFake value) then reportKVCacheUsage (mi_Value value) s else s.

Definition lorasUpdater (name : string) (state : loraUsageState) (s : metricsData) : metricsData :=
  reportLoras
    match state with
    | waitingUsageState => set_waitingLoras (incrementLoraRefCount name (waitingLoras s)) s
    | runningUsageState =>
        set_runningLoras (incrementLoraRefCount name (runningLoras s)) (set_waitingLoras (decrementLoraRefCount name (waitingLoras s)) s)
    | doneUsageState => set_runningLoras (decrementLoraRefCount name (runningLoras s)) s
    end.

Definition recordRequestMetricsOnSuccess (e : requestSuccessEvent) (s : metricsData) : metricsData :=
  emit ([Observe requestPromptTokens model (f_of_Z (promptTokens e)); Observe requestGenerationTokens model (f_of_Z (generationTokens e));
         Add promptTokensTotal model (f_of_Z (promptTokens e)); Add generationTokensTotal model (f_of_Z (generationTokens e))] ++
        match maxTokens e with Some m => [Observe requestParamsMaxTokens model (f_of_Z m)] | None => [] end ++
        [Add requestSuccessTotal [DisplayModelName; finishReason e] (f_of_Z 1)] ++
        match MaxIntSlice (genTokensPerChoice e) with Ok m => [Observe maxNumGenerationTokens model (f_of_Z m)] | Err _ => [] end) s.

Definition handle (msg : message) (s : metricsData) : metricsData :=
  match msg with
  | WaitingReq upd => waitingRequestsUpdater upd s
  | RunReq upd => runningRequestsUpdater upd s
  | KVCacheUsage value => kvCacheUsageUpdater value s
  | PrefixStats q c => reportPrefixCacheStats q c s
  | Latency m v => reportHistogramValue m v s
  | TpotValue v => reportHistogramValue interTokenLatency v (reportHistogramValue tpot v s)
  | LoraUsage name state => lorasUpdater name state s
  | RequestSuccess e => recordRequestMetricsOnSuccess e s
  end.

End Rank.

(** * Fake metrics *)

(** The value observed for a bucket: its upper bound, or beyond the last one. *)
Definition observedValue (boundaries : list f64) (i : nat) : f64 :=
  match boundaries !! i with
  | Some b => b
  | None => fadd (default f_zero (last boundaries)) (f_of_Z 1)
  end.

(** The observations, and the total (nil without values or buckets). *)
Definition initFakeHistogram (labels : list string) (m : metric) (boundaries : list f64) (counts : list Z) : list call * option Z :=
  if bool_decide (counts = []) || bool_decide (boundaries = []) then ([], None)
  else
    (concat (imap (λ i count, replicate (Z.to_nat count) (Observe m labels (observedValue boundaries i))) counts),
     Some (foldl (λ total x, i64 (total + i64 (x.2 * f_to_int (observedValue boundaries x.1)))) 0 (imap (λ i count, (i, count)) counts))).

(** A step of the update: it succeeds, fails with the error of a registration, or panics. *)
Inductive outcome := Done (s : metricsData) | Failed (e : string) (s : metricsData) | Panicked.
Definition action : Type := metricsData → outcome.
Definition skip : action := Done.
Definition andThen (a b : action) : action := λ s, match a s with Done s => b s | o => o end.
(** [Counter.Add] panics on a negative value. *)
Definition badAdd (c : call) : bool := match c with Add _ _ value => flt value f_zero | _ => false end.
Definition calling (l : list call) : action := λ s, if existsb badAdd l then Panicked else Done (emit l s).
(** A message as a step: the calls its updater makes, one of which may panic. *)
Definition handling (fake : bool) (display : string) (maxLoras : Z) (now : f64) (rangeKeys : gmap string Z → list string) (msg : message) : action :=
  λ s, let s' := handle fake display maxLoras now rangeKeys msg s in
       if existsb badAdd (drop (length (calls s)) (calls s')) then Panicked else Done s'.

Declare Scope action_scope.
Delimit Scope action_scope with act.
Notation "a >>> b" := (andThen a b) (at level 60, right associativity) : action_scope.

Section Update.
Variable DisplayModelName : string.
Variable MaxLoras : Z.
Variable MaxModelLen : Z.
Variable now : f64.
Variable Sin : f64 → f64.
(** The error of registering a collector, after the calls made so far. *)
Variable register : list call → metric → option string.
(** The order in which a map is ranged over. *)
Variable rangeOrder : gmap string Z → list (string * Z).
Local Open Scope action_scope.

Let labels : list string := [DisplayModelName].
(** [Build125Buckets(MaxModelLen)]; 19 rounds suffice below 10^18. *)
Definition modelBuckets : list f64 := default [] (Build125Buckets 19 MaxModelLen).

(** [createAndRegister...]. *)
Definition create (m : metric) : action :=
  λ s, match register (calls s) m with Some e => Failed e s | None => Done (emit [Register m] s) end.
Definition createAll (ms : list metric) : action := foldr (λ m a, create m >>> a) skip ms.

(** Collectors with values are replaced. *)
Definition recreate (had : bool) (ms : list metric) : action := if had then calling (Unregister <$> ms) >>> createAll ms else skip.

Definition updateHistogram (ms : list metric) (boundaries : list f64) (new old : option (list Z)) : action :=
  match new with
  | None => skip
  | Some counts => recreate (bool_decide (is_Some old)) ms >>> calling (concat ((λ m, (initFakeHistogram labels m boundaries counts).1) <$> ms))
  end.

Definition updateTokenMetrics (hist counter : metric) (buckets : list f64) (newHist oldHist : option (list Z)) (newTotal oldTotal : option Z) : action :=
  let histTotal := match newHist with Some counts => (initFakeHistogram labels hist buckets counts).2 | None => None end in
  updateHistogram [hist] buckets newHist oldHist >>>
  if bool_decide (newHist = None) && bool_decide (newTotal = None) then skip
  else
    recreate (bool_decide (is_Some oldTotal) || bool_decide (is_Some oldHist)) [counter] >>>
    match (match newTotal with Some t => Some t | None => histTotal end) with
    | Some total => calling [Add counter labels (f_of_Z total)]
    | None => skip
    end.

(** A nil function that is marked as one, and an unknown one, panic. *)
Definition setFakeMetricWithFunction (fm : FakeMetricWithFunction) (m : metric) (channel : string) (roundToInt : bool) : action :=
  if IsFunction fm then
    match Function_ fm with
    | None => λ _, Panicked
    | Some p =>
        match mapFun Sin (fi_Name p) with
        | None => λ _, Panicked
        | Some f =>
            match f p 0 with
            | None => λ _, Panicked
            | Some value => λ s, Done (emit [SetGauge m labels value] (set_generated (<[channel := mkGenerated p roundToInt]> (generated s)) s))
            end
        end
    end
  else λ s, Done (emit [SetGauge m labels (FixedValue fm)] (set_generated (delete channel (generated s)) s)).

Definition setOptional (fm : option FakeMetricWithFunction) (m : metric) (channel : string) (roundToInt : bool) : action :=
  match fm with None => skip | Some fm => setFakeMetricWithFunction fm m channel roundToInt end.

Definition setCounter (m : metric) (new old : option Z) : action :=
  match new with None => skip | Some n => recreate (bool_decide (is_Some old)) [m] >>> calling [Add m labels (f_of_Z n)] end.

Definition updateSuccess (new old : option (gmap string Z)) : action :=
  match new with
  | None => skip
  | Some totals =>
      recreate (bool_decide (is_Some old)) [requestSuccessTotal] >>>
      calling ((λ x, Add requestSuccessTotal [DisplayModelName; x.1] (f_of_Z x.2)) <$> rangeOrder totals)
  end.

Definition updateLoras (new : option (list LorasMetrics)) : action :=
  match new with
  | None => skip
  | Some loras =>
      recreate true [loraInfo] >>>
      calling match loras with
              | [] => [SetGauge loraInfo [pretty MaxLoras; ""%string; ""%string] now]
              | _ => (λ l, SetGauge loraInfo [pretty MaxLoras; RunningLoras l; WaitingLoras l] (Timestamp l)) <$> loras
              end
  end.

(** The goroutine that regenerates values runs while there is one. *)
Definition updateTicker (wasEmpty : bool) : action :=
  λ s, if wasEmpty && bool_decide (generated s ≠ ∅) then Done (set_ticking true s)
       else if negb wasEmpty && bool_decide (generated s = ∅) then Done (set_ticking false s)
       else Done s.

Definition updateFakeMetrics (update : FakeMetrics) (old : option FakeMetrics) : action :=
  λ s,
    let buckets := modelBuckets in
    let before {A} (f : FakeMetrics → option A) : option A := match old with Some o => f o | None => None end in
    (setOptional (RunningRequests update) runningRequests "metrics.runReqChan" true >>>
     setOptional (WaitingRequests update) waitingRequests "metrics.waitingReqChan" true >>>
     setOptional (KVCacheUsagePercentage update) kvCacheUsagePercentage "metrics.kvCacheUsageChan" false >>>
     updateHistogram [ttft] TTFTBucketsBoundaries (TTFTBucketValues update) (before TTFTBucketValues) >>>
     updateHistogram [tpot; interTokenLatency] TPOTBucketsBoundaries (TPOTBucketValues update) (before TPOTBucketValues) >>>
     updateHistogram [e2eReqLatency] RequestLatencyBucketsBoundaries (E2ERequestLatencyBucketValues update) (before E2ERequestLatencyBucketValues) >>>
     updateHistogram [reqQueueTime] RequestLatencyBucketsBoundaries (ReqQueueTimeBucketValues update) (before ReqQueueTimeBucketValues) >>>
     updateHistogram [reqInferenceTime] RequestLatencyBucketsBoundaries (ReqInfTimeBucketValues update) (before ReqInfTimeBucketValues) >>>
     updateHistogram [reqPrefillTime] RequestLatencyBucketsBoundaries (ReqPrefillTimeBucketValues update) (before ReqPrefillTimeBucketValues) >>>
     updateHistogram [reqDecodeTime] RequestLatencyBucketsBoundaries (ReqDecodeTimeBucketValues update) (before ReqDecodeTimeBucketValues) >>>
     updateHistogram [reqTpot] TPOTBucketsBoundaries (ReqTPOTBucketValues update) (before ReqTPOTBucketValues) >>>
     updateHistogram [requestParamsMaxTokens] buckets (RequestParamsMaxTokens update) (before RequestParamsMaxTokens) >>>
     updateHistogram [maxNumGenerationTokens] buckets (RequestMaxGenerationTokens update) (before RequestMaxGenerationTokens) >>>
     updateTokenMetrics requestPromptTokens promptTokensTotal buckets (RequestPromptTokens update) (before RequestPromptTokens) (TotalPromptTokens update) (before TotalPromptTokens) >>>
     updateTokenMetrics requestGenerationTokens generationTokensTotal buckets (RequestGenerationTokens update) (before RequestGenerationTokens)
       (TotalGenerationTokens update) (before TotalGenerationTokens) >>>
     setCounter prefixCacheQueriesTotal (PrefixCacheQueries update) (before PrefixCacheQueries) >>>
     setCounter prefixCacheHitsTotal (PrefixCacheHits update) (before PrefixCacheHits) >>>
     updateSuccess (RequestSuccessTotal update) (before RequestSuccessTotal) >>>
     updateLoras (LoraMetrics update) >>>
     updateTicker (bool_decide (generated s = ∅))) s.

(** At startup the LoRA entry is never nil. *)
Definition set_LoraMetrics (l : option (list LorasMetrics)) (f : FakeMetrics) : FakeMetrics :=
  mkFakeMetrics l (RunningRequests f) (WaitingRequests f) (KVCacheUsagePercentage f) (TTFTBucketValues f) (TPOTBucketValues f)
    (RequestPromptTokens f) (RequestGenerationTokens f) (RequestParamsMaxTokens f) (RequestMaxGenerationTokens f) (RequestSuccessTotal f) (TotalPromptTokens f) (TotalGenerationTokens f)
    (E2ERequestLatencyBucketValues f) (ReqQueueTimeBucketValues f) (ReqInfTimeBucketValues f) (ReqPrefillTimeBucketValues f) (ReqDecodeTimeBucketValues f)
    (ReqTPOTBucketValues f) (PrefixCacheHits f) (PrefixCacheQueries f).

Definition setInitialFakeMetrics (initial : FakeMetrics) : action :=
  λ s, updateFakeMetrics (set_LoraMetrics (Some (default [] (LoraMetrics initial))) initial) None (set_generated ∅ s).

(** The initial values of a rank. *)
Definition setInitialPrometheusMetrics (TokenBlockSize KVCacheSize : Z) (initial : option FakeMetrics) : action :=
  calling [SetGauge cacheConfig [pretty TokenBlockSize; pretty KVCacheSize] (f_of_Z 1)] >>>
  match initial with
  | Some initial => setInitialFakeMetrics initial
  | None =>
      calling [SetGauge runningRequests labels f_zero; SetGauge waitingRequests labels f_zero; SetGauge kvCacheUsagePercentage labels f_zero;
               SetGauge loraInfo [pretty MaxLoras; ""%string; ""%string] now]
  end.

(** One tick after [t]: the value sent on the channel of a generated metric. *)
Definition tickValue (g : generatedFakeMetrics) (t : Z) : option f64 :=
  f ← mapFun Sin (fi_Name (gf_params g));
  value ← f (gf_params g) t;
  Some (if gf_roundToInt g then f_of_Z (f_to_int value) else value).

End Update.

End Metrics.
