(* ===== verification/MetricsProps.v ===== *)
(** The metrics count what happened, and the fake ones show what is configured. *)

From Stdlib Require Import Floats.SpecFloat.
From S2P Require Import Prelude GoFloat GoFloatInt GoFloatOrder GoFloatRound GoRandom Moe Latencies FakeMetrics Metrics.
Import GoRandom FakeMetrics Metrics.
Open Scope Z_scope.

Module MetricsProps.

(** * The 1-2-5 buckets *)

Definition rounds : list nat := seq 0 19.

Lemma bucketValue_table : Forall (λ e, bucketValue e <$> [1; 2; 5] = (λ m, m * 10 ^ Z.of_nat e) <$> [1; 2; 5]) rounds.
Proof. apply Forall_forall. intros e He. unfold rounds in He. apply elem_of_seq in He. do 19 (destruct e as [|e]; [vm_compute; reflexivity|]). lia. Qed.

Lemma bucketRound_eq maxValue e : (e ≤ 18)%nat → bucketRound maxValue e = filter (λ v, v ≤ maxValue) ((λ m, m * 10 ^ Z.of_nat e) <$> [1; 2; 5]).
Proof.
  intros He. pose proof bucketValue_table as H. rewrite Forall_forall in H. specialize (H e). unfold bucketRound. rewrite H; [done|]. apply elem_of_seq. lia.
Qed.

(** The values of the sequence from an exponent on. *)
Definition In125 (e : nat) (v : Z) : Prop := ∃ m k, m ∈ [1; 2; 5] ∧ (e ≤ k)%nat ∧ v = m * 10 ^ Z.of_nat k.

Lemma In125_low e v : In125 e v → 10 ^ Z.of_nat e ≤ v.
Proof.
  intros (m & k & Hm & Hk & ->). assert (10 ^ Z.of_nat e ≤ 10 ^ Z.of_nat k) by (apply Z.pow_le_mono_r; lia). assert (1 ≤ m) by (set_unfold in Hm; lia). nia.
Qed.

Lemma In125_step e v : In125 e v ↔ (v ∈ (λ m, m * 10 ^ Z.of_nat e) <$> [1; 2; 5]) ∨ In125 (S e) v.
Proof.
  split.
  - intros (m & k & Hm & Hk & ->). destruct (decide (k = e)) as [->|]; [left; apply list_elem_of_fmap; by exists m|right; exists m, k; split_and!; [done|lia|done]].
  - intros [(m & -> & Hm)%list_elem_of_fmap|(m & k & Hm & Hk & ->)]; [exists m, e|exists m, k]; split_and!; (done || lia).
Qed.

Lemma StronglySorted_filter {A} (R : relation A) (P : A → Prop) `{!∀ x, Decision (P x)} (l : list A) : StronglySorted R l → StronglySorted R (filter P l).
Proof.
  induction 1 as [|x l Hs IH Hx]; [constructor|]. destruct (decide (P x)); [rewrite filter_cons_True by done|by rewrite filter_cons_False by done].
  constructor; [done|]. rewrite Forall_forall in *. intros y [_ Hy]%list_elem_of_filter. auto.
Qed.

Lemma rounds_sorted maxValue e fuel :
  maxValue < 10 ^ 18 → (18 - e < fuel)%nat → (e ≤ 18)%nat →
  ∃ l, bucketRounds fuel maxValue e = Some l ∧ StronglySorted Z.lt l ∧ ∀ v, v ∈ l ↔ v ≤ maxValue ∧ In125 e v.
Proof.
  intros Hmax. revert e. induction fuel as [|fuel IH]; intros e Hf He; [lia|]. cbn [bucketRounds]. rewrite bucketRound_eq by done.
  set (vs := (λ m, m * 10 ^ Z.of_nat e) <$> [1; 2; 5]). assert (0 < 10 ^ Z.of_nat e) as Hp by (apply Z.pow_pos_nonneg; lia). set (p := 10 ^ Z.of_nat e) in *.
  assert (vs = [p; 2 * p; 5 * p]) as Hvs by (unfold vs; cbn [fmap list_fmap]; fold p; by rewrite Z.mul_1_l).
  assert (filter (λ v, v ≤ maxValue) vs = [] ∧ maxValue < p ∨ filter (λ v, v ≤ maxValue) vs ≠ [] ∧ p ≤ maxValue) as [[Hnil Hlow]|[Hcons Hhigh]].
  { destruct (decide (p ≤ maxValue)); [right|left]; (split; [|lia]); rewrite Hvs.
    - rewrite filter_cons_True by done. done.
    - rewrite !filter_cons_False by lia. done. }
  - rewrite Hnil. exists []. split_and!; [done|constructor|]. intros v. split; [by intros ?%not_elem_of_nil|]. intros [H1 H2%In125_low]. fold p in H2. lia.
  - assert (e < 18)%nat as He'. { destruct (decide (e = 18)%nat) as [->|]; [|lia]. unfold p in Hhigh. change (10 ^ Z.of_nat 18) with (10 ^ 18) in Hhigh. lia. }
    destruct (IH (S e)) as (l & El & Hs & Hl); [lia|lia|]. destruct (filter (λ v, v ≤ maxValue) vs) as [|x xs] eqn:Ef; [done|]. rewrite El. rewrite <- Ef. cbn [mbind option_bind].
    exists (filter (λ v, v ≤ maxValue) vs ++ l). split_and!; [by rewrite Ef| |].
    + apply StronglySorted_app. split_and!; [|apply StronglySorted_filter; rewrite Hvs; repeat constructor; lia|done].
      intros v w [_ Hv]%list_elem_of_filter [_ Hw%In125_low]%Hl. rewrite Nat2Z.inj_succ, Z.pow_succ_r in Hw by lia. fold p in Hw.
      rewrite Hvs in Hv. set_unfold in Hv. lia.
    + intros v. rewrite elem_of_app, list_elem_of_filter, Hl, (In125_step e v). fold p. fold vs. tauto.
Qed.

(** * Histograms *)

(** The bucket of a value: the first upper bound that is not below it, or the last one. *)
Definition bucketIndex (boundaries : list f64) (v : f64) : nat :=
  match list_find (λ b, fle v b = true) boundaries with Some (i, _) => i | None => length boundaries end.

(** The value observed for a bucket falls into it. *)
Definition separates (boundaries : list f64) : bool :=
  bool_decide (boundaries ≠ []) && forallb (λ i, bucketIndex boundaries (observedValue boundaries i) =? i)%nat (seq 0 (S (length boundaries))).

Definition observedIn (boundaries : list f64) (i : nat) (c : call) : bool :=
  match c with Observe _ _ v => (bucketIndex boundaries v =? i)%nat | _ => false end.
Definition callsIn (boundaries : list f64) (i : nat) (l : list call) : nat := length (filter (λ c, observedIn boundaries i c = true) l).

Lemma separates_bucket boundaries i : separates boundaries = true → (i ≤ length boundaries)%nat → bucketIndex boundaries (observedValue boundaries i) = i.
Proof.
  intros [_ H]%andb_true_iff Hi. rewrite forallb_forall in H. apply Nat.eqb_eq, H, in_seq. lia.
Qed.

Lemma callsIn_app boundaries i l l' : callsIn boundaries i (l ++ l') = (callsIn boundaries i l + callsIn boundaries i l')%nat.
Proof. unfold callsIn. by rewrite filter_app, length_app. Qed.

Lemma callsIn_replicate boundaries i n c : callsIn boundaries i (replicate n c) = if observedIn boundaries i c then n else 0%nat.
Proof.
  unfold callsIn. induction n as [|n IH]; cbn [replicate]; [by destruct (observedIn _ _ _)|]. destruct (observedIn boundaries i c) eqn:E.
  - rewrite filter_cons_True by done. cbn. by rewrite IH.
  - rewrite filter_cons_False by (by rewrite E). done.
Qed.

Lemma observations_from labels m boundaries counts k i :
  separates boundaries = true → (k + length counts ≤ S (length boundaries))%nat →
  callsIn boundaries i (concat (imap (λ j count, replicate (Z.to_nat count) (Observe m labels (observedValue boundaries (k + j)))) counts)) =
  if (k <=? i)%nat then Z.to_nat (default 0 (counts !! (i - k)%nat)) else 0%nat.
Proof.
  intros Hs. revert k. induction counts as [|c counts IH]; intros k Hk; [by destruct (k <=? i)%nat; rewrite ?lookup_nil|]. cbn in Hk.
  rewrite imap_cons. cbn [concat]. rewrite callsIn_app, callsIn_replicate. cbn [observedIn]. rewrite Nat.add_0_r, separates_bucket by (done || lia).
  rewrite (imap_ext _ (λ j count, replicate (Z.to_nat count) (Observe m labels (observedValue boundaries (S k + j))))) by (intros j y _; cbn; do 3 f_equal; lia).
  rewrite IH by lia. destruct (Nat.eqb_spec k i) as [->|Hne].
  - rewrite Nat.leb_refl, Nat.sub_diag. destruct (Nat.leb_spec (S i) i); [lia|]. cbn. lia.
  - destruct (Nat.leb_spec k i), (Nat.leb_spec (S k) i); try lia. replace (i - k)%nat with (S (i - S k)) by lia. done.
Qed.

Lemma find_index (l : list f64) v i b :
  l !! i = Some b → fle v b = true → (∀ j c, (j < i)%nat → l !! j = Some c → fle v c = false) → bucketIndex l v = i.
Proof.
  intros Hi Hb Hj. unfold bucketIndex. replace (list_find (λ b, fle v b = true) l) with (Some (i, b)); [done|]. symmetry. apply list_find_Some.
  split_and!; [done|done|]. intros j c Hc Hlt. by rewrite (Hj j c Hlt Hc).
Qed.

(** Counts that increase separate. *)
Lemma increasing_separates (l : list Z) :
  l ≠ [] → StronglySorted Z.lt l → (∀ v, v ∈ l → 0 < v < 2 ^ 53 - 1) → separates (f_of_Z <$> l) = true.
Proof.
  intros Hne Hs Hr. unfold separates. apply andb_true_iff. split; [by apply bool_decide_eq_true; destruct l|].
  apply forallb_forall. intros i [_ Hi]%in_seq. rewrite length_fmap in Hi. apply Nat.eqb_eq. unfold observedValue. rewrite list_lookup_fmap.
  assert (∀ j v, l !! j = Some v → ExactInt v) as Hex. { intros j v Hv. destruct (Hr v); [by eapply list_elem_of_lookup_2|]. unfold ExactInt. lia. }
  destruct (l !! i) as [v|] eqn:Ev; cbn [fmap option_fmap option_map].
  - apply (find_index _ _ _ (f_of_Z v)); [by rewrite list_lookup_fmap, Ev|rewrite fle_int by eauto; lia|].
    intros j c Hj Hc. rewrite list_lookup_fmap in Hc. destruct (l !! j) as [w|] eqn:Ew; [|done]. injection Hc as <-. rewrite fle_int by eauto.
    assert (w < v); [|lia]. rewrite <- (take_drop i l) in Hs. apply (StronglySorted_app_1_elem_of Z.lt (take i l) (drop i l)); [done| |].
    + apply (list_elem_of_lookup_2 _ j). by rewrite lookup_take_lt.
    + apply (list_elem_of_lookup_2 _ 0%nat). by rewrite lookup_drop, Nat.add_0_r.
  - apply lookup_ge_None in Ev. assert (i = length l) as -> by lia. destruct (last l) as [w|] eqn:El; [|by apply last_None in El].
    apply last_Some in El as [l' ->]. assert (last (f_of_Z <$> l' ++ [w]) = Some (f_of_Z w)) as -> by (rewrite fmap_app; apply last_snoc). unfold default, from_option, id. destruct (Hr w) as [H1 H2]; [set_solver|]. rewrite fadd_int by lia.
    unfold bucketIndex. replace (list_find _ _) with (@None (nat * f64)); [by rewrite length_fmap|]. symmetry. apply list_find_None. apply Forall_forall.
    intros x Hx. apply list_elem_of_fmap in Hx as (v & -> & Hv). destruct (Hr v Hv). rewrite fle_int by (unfold ExactInt; lia).
    assert (v ≤ w); [|by destruct (Z.leb_spec (w + 1) v); [lia|]]. apply elem_of_app in Hv as [Hv| ->%list_elem_of_singleton]; [|lia].
    apply Z.lt_le_incl, (StronglySorted_app_1_elem_of Z.lt l' [w]); [done|done|by left].
Qed.

(** * Counting *)

Section Counting.
Variables (fake : bool) (display : string) (maxLoras : Z) (now : f64) (rangeKeys : gmap string Z → list string).

Definition initial : metricsData := mkMetrics ∅ ∅ 0 0 ∅ false [].
Definition run (ms : list message) : metricsData := foldl (λ s m, handle fake display maxLoras now rangeKeys m s) initial ms.

Lemma run_snoc ms m : run (ms ++ [m]) = handle fake display maxLoras now rangeKeys m (run ms).
Proof. unfold run. by rewrite foldl_app. Qed.

Definition isUsage (name : string) (st : loraUsageState) (m : message) : bool :=
  match m with
  | LoraUsage name' st' => String.eqb name name' && match st, st' with waitingUsageState, waitingUsageState | runningUsageState, runningUsageState | doneUsageState, doneUsageState => true | _, _ => false end
  | _ => false
  end.
Definition usages (name : string) (st : loraUsageState) (ms : list message) : Z := Z.of_nat (length (filter (λ m, isUsage name st m = true) ms)).

Lemma usages_snoc name st ms m : usages name st (ms ++ [m]) = usages name st ms + (if isUsage name st m then 1 else 0).
Proof.
  unfold usages. rewrite filter_app, length_app. destruct (isUsage name st m) eqn:E; [rewrite filter_cons_True by done|rewrite filter_cons_False by (by rewrite E)]; cbn; lia.
Qed.

(** A map counts [k] uses of a LoRA, without an entry when there are none. *)
Definition Counts (m : gmap string Z) (name : string) (k : Z) : Prop := m !! name = if k =? 0 then None else Some k.

Lemma Counts_incr m name k : Counts m name k → 0 ≤ k < 2 ^ 62 → Counts (incrementLoraRefCount name m) name (k + 1).
Proof.
  unfold Counts, incrementLoraRefCount. intros Hk Hr. rewrite lookup_insert_eq, Hk. destruct (Z.eqb_spec k 0), (Z.eqb_spec (k + 1) 0); cbn; try lia; f_equal; rewrite i64_small; lia.
Qed.
Lemma Counts_decr m name k : Counts m name k → 1 ≤ k → Counts (decrementLoraRefCount name m) name (k - 1).
Proof.
  unfold Counts, decrementLoraRefCount. intros Hk Hr. rewrite Hk. destruct (Z.eqb_spec k 0); [lia|]. destruct (Z.ltb_spec 1 k).
  - rewrite lookup_insert_eq. by destruct (Z.eqb_spec (k - 1) 0); [lia|].
  - rewrite lookup_delete_eq. by destruct (Z.eqb_spec (k - 1) 0); [|lia].
Qed.
Lemma incr_other m name name' : name ≠ name' → incrementLoraRefCount name m !! name' = m !! name'.
Proof. intros. unfold incrementLoraRefCount. by rewrite lookup_insert_ne. Qed.
Lemma decr_other m name name' : name ≠ name' → decrementLoraRefCount name m !! name' = m !! name'.
Proof. intros. unfold decrementLoraRefCount. repeat case_match; by rewrite ?lookup_insert_ne, ?lookup_delete_ne. Qed.

Lemma reportLoras_maps s :
  runningLoras (reportLoras fake maxLoras now rangeKeys s) = runningLoras s ∧ waitingLoras (reportLoras fake maxLoras now rangeKeys s) = waitingLoras s.
Proof. unfold reportLoras. by destruct fake. Qed.

(** What a message does to the maps. *)
Lemma handle_loras m s :
  runningLoras (handle fake display maxLoras now rangeKeys m s) =
    match m with LoraUsage n runningUsageState => incrementLoraRefCount n (runningLoras s) | LoraUsage n doneUsageState => decrementLoraRefCount n (runningLoras s) | _ => runningLoras s end ∧
  waitingLoras (handle fake display maxLoras now rangeKeys m s) =
    match m with LoraUsage n waitingUsageState => incrementLoraRefCount n (waitingLoras s) | LoraUsage n runningUsageState => decrementLoraRefCount n (waitingLoras s) | _ => waitingLoras s end.
Proof.
  destruct m as [upd|upd|upd|q c|h v|v|n st|e]; cbn [handle];
    unfold waitingRequestsUpdater, runningRequestsUpdater, kvCacheUsageUpdater, reportPrefixCacheStats, reportHistogramValue; try (by repeat case_match).
  unfold lorasUpdater. by destruct st; rewrite !(proj1 (reportLoras_maps _)), !(proj2 (reportLoras_maps _)).
Qed.

(** In every prefix, a state is left at most as often as it was entered. *)
Definition Balanced (name : string) (enter leave : loraUsageState) (ms : list message) : Prop :=
  ∀ n, usages name leave (take n ms) ≤ usages name enter (take n ms).

Lemma Balanced_snoc name a b ms m : Balanced name a b (ms ++ [m]) → Balanced name a b ms ∧ usages name b (ms ++ [m]) ≤ usages name a (ms ++ [m]).
Proof.
  intros H. split.
  - intros n. destruct (decide (n ≤ length ms)%nat); [specialize (H n); by rewrite take_app_le in H by lia|]. specialize (H (length ms)). rewrite take_app_length in H. by rewrite take_ge by lia.
  - specialize (H (length (ms ++ [m]))). by rewrite take_ge in H.
Qed.

Lemma usages_bound name st ms : 0 ≤ usages name st ms ≤ Z.of_nat (length ms).
Proof. unfold usages. pose proof (length_filter (λ m, isUsage name st m = true) ms). lia. Qed.

(** How many more updates enter a state than leave it. *)
Definition excess (name : string) (enter leave : loraUsageState) (ms : list message) : Z := usages name enter ms - usages name leave ms.

Lemma excess_app name a b l1 l2 : excess name a b (l1 ++ l2) = excess name a b l1 + excess name a b l2.
Proof. unfold excess, usages. rewrite !filter_app, !length_app. lia. Qed.

(** The backlog of a state that is left too often: the largest excess over the updates
    since some point of the sequence (since now, none). *)
Definition Backlog (name : string) (enter leave : loraUsageState) (ms : list message) (k : Z) : Prop :=
  (∀ n, excess name enter leave (drop n ms) ≤ k) ∧ ∃ n, k = excess name enter leave (drop n ms).

Lemma Backlog_nonneg name a b ms k : Backlog name a b ms k → 0 ≤ k.
Proof. intros [H _]. specialize (H (length ms)). by rewrite drop_ge in H. Qed.

Lemma excess_bound name a b ms : excess name a b ms ≤ Z.of_nat (length ms).
Proof. unfold excess. pose proof (usages_bound name a ms). pose proof (usages_bound name b ms). lia. Qed.

Lemma Backlog_bound name a b ms k : Backlog name a b ms k → k ≤ Z.of_nat (length ms).
Proof. intros [_ [n ->]]. pose proof (excess_bound name a b (drop n ms)) as H. rewrite length_drop in H. lia. Qed.

(** One more update moves the backlog by its excess, never below zero. *)
Lemma Backlog_snoc name a b ms k m : Backlog name a b ms k → Backlog name a b (ms ++ [m]) (Z.max 0 (k + excess name a b [m])).
Proof.
  intros HB. pose proof HB as [Hmax [n Hn]]. set (d := excess name a b [m]).
  assert (∀ i, (i ≤ length ms)%nat → excess name a b (drop i (ms ++ [m])) = excess name a b (drop i ms) + d) as Hd.
  { intros i Hi. by rewrite drop_app_le, excess_app. }
  split.
  - intros i. destruct (decide (i ≤ length ms)%nat) as [Hi|Hi]; [rewrite Hd by done; specialize (Hmax i); lia|].
    rewrite drop_ge by (rewrite length_app; cbn; lia). change (excess name a b []) with 0. lia.
  - destruct (decide (0 ≤ k + d)); [|exists (length (ms ++ [m])); rewrite drop_ge by lia; change (excess name a b []) with 0; lia].
    exists (min n (length ms)). rewrite Hd by lia. destruct (decide (n ≤ length ms)%nat); [rewrite Nat.min_l by done; lia|].
    rewrite Nat.min_r, drop_ge by lia. rewrite drop_ge in Hn by lia. lia.
Qed.

(** Where every leaving update had its entering one, the backlog is the difference. *)
Lemma Backlog_balanced name a b ms : Balanced name a b ms → Backlog name a b ms (excess name a b ms).
Proof.
  intros Hb. split; [|by exists O]. intros n. pose proof (excess_app name a b (take n ms) (drop n ms)) as H. rewrite take_drop in H.
  specialize (Hb n). unfold excess in *. lia.
Qed.

Lemma Backlog_unique name a b ms k k' : Backlog name a b ms k → Backlog name a b ms k' → k = k'.
Proof. intros [H1 [n ->]] [H2 [n' ->]]. specialize (H1 n'). specialize (H2 n). lia. Qed.

Lemma excess_one name a b m :
  excess name a b [m] = (if isUsage name a m then 1 else 0) - (if isUsage name b m then 1 else 0).
Proof. unfold excess. change [m] with ([] ++ [m]). rewrite !usages_snoc. done. Qed.

(** A map that is incremented by the entering updates and decremented, where there is
    something to take away, by the leaving ones counts the backlog. *)
Lemma Counts_step mp name k a b m mp' :
  a ≠ b → Counts mp name k → 0 ≤ k < 2 ^ 62 →
  mp' = match m with LoraUsage n _ => if isUsage n a m then incrementLoraRefCount n mp else if isUsage n b m then decrementLoraRefCount n mp else mp | _ => mp end →
  Counts mp' name (Z.max 0 (k + excess name a b [m])).
Proof.
  intros Hab HC Hk ->. rewrite excess_one.
  assert (Counts mp name (Z.max 0 (k + (0 - 0)))) as H0 by (by replace (Z.max 0 (k + (0 - 0))) with k by lia).
  destruct m as [| | | | | |n st|]; [exact H0..| |exact H0]. cbn [isUsage]. rewrite String.eqb_refl. cbn [andb].
  destruct (String.eqb_spec name n) as [<-|Hne].
  2: { cbn [andb]. destruct a, b, st; unfold Counts; cbn; rewrite ?incr_other, ?decr_other by done; exact H0. }
  assert (Counts (incrementLoraRefCount name mp) name (Z.max 0 (k + (1 - 0)))) as H1.
  { replace (Z.max 0 (k + (1 - 0))) with (k + 1) by lia. by apply Counts_incr. }
  assert (Counts (decrementLoraRefCount name mp) name (Z.max 0 (k + (0 - 1)))) as H2.
  { destruct (decide (k = 0)) as [->|]; [unfold decrementLoraRefCount; unfold Counts in *; by rewrite HC|].
    replace (Z.max 0 (k + (0 - 1))) with (k - 1) by lia. apply Counts_decr; [done|lia]. }
  destruct a, b, st; cbn; done.
Qed.

Lemma lora_counts ms name :
  Z.of_nat (length ms) < 2 ^ 62 →
  (∃ k, Backlog name runningUsageState doneUsageState ms k ∧ Counts (runningLoras (run ms)) name k) ∧
  (∃ k, Backlog name waitingUsageState runningUsageState ms k ∧ Counts (waitingLoras (run ms)) name k).
Proof.
  induction ms as [|m ms IH] using rev_ind; intros Hlen.
  { split; exists 0; (split; [split; [intros n; by rewrite drop_nil|by exists O]|done]). }
  rewrite length_app in Hlen. cbn in Hlen. destruct IH as [(k & Bk & Ck) (k' & Bk' & Ck')]; [lia|].
  destruct (handle_loras m (run ms)) as [E1 E2]. rewrite run_snoc.
  pose proof (Backlog_nonneg _ _ _ _ _ Bk). pose proof (Backlog_bound _ _ _ _ _ Bk).
  pose proof (Backlog_nonneg _ _ _ _ _ Bk'). pose proof (Backlog_bound _ _ _ _ _ Bk'). split.
  - eexists. split; [by apply Backlog_snoc|]. eapply Counts_step; [done|done|lia|]. rewrite E1.
    destruct m as [| | | | | |n st|]; [done..| |done]. cbn [isUsage]. rewrite String.eqb_refl. by destruct st.
  - eexists. split; [by apply Backlog_snoc|]. eapply Counts_step; [done|done|lia|]. rewrite E2.
    destruct m as [| | | | | |n st|]; [done..| |done]. cbn [isUsage]. rewrite String.eqb_refl. by destruct st.
Qed.

(** ** Requests *)

Definition one (sign : bool) : MetricInfo := mkInfo (f_of_Z (if sign then 1 else -1)) false.
(** Only the messages that the simulator itself sends about running requests. *)
Definition RealRuns (ms : list message) : Prop := ∀ upd, RunReq upd ∈ ms → upd = one true ∨ upd = one false.
Definition isRun (sign : bool) (m : message) : bool := match m with RunReq upd => bool_decide (f_to_int (mi_Value upd) = (if sign then 1 else -1)) | _ => false end.
Definition runs (sign : bool) (ms : list message) : Z := Z.of_nat (length (filter (λ m, isRun sign m = true) ms)).

(** The last value of a gauge. *)
Definition gauge (m : metric) (l : list call) : option f64 :=
  foldl (λ acc c, match c with SetGauge m' _ v => if decide (m = m') then Some v else acc | _ => acc end) None l.

Lemma runs_snoc sign ms m : runs sign (ms ++ [m]) = runs sign ms + (if isRun sign m then 1 else 0).
Proof.
  unfold runs. rewrite filter_app, length_app. destruct (isRun sign m) eqn:E; [rewrite filter_cons_True by done|rewrite filter_cons_False by (by rewrite E)]; cbn; lia.
Qed.

Lemma gauge_app m l l' : gauge m (l ++ l') = match gauge m l' with Some v => Some v | None => gauge m l end.
Proof.
  unfold gauge. rewrite foldl_app. generalize (foldl (λ acc c, match c with SetGauge m' _ v => if decide (m = m') then Some v else acc | _ => acc end) None l) as acc.
  induction l' as [|c l' IH] using rev_ind; intros acc; [done|]. rewrite !foldl_app. cbn. rewrite IH. destruct c; try done. by case_decide.
Qed.

(** A message that is not about running requests. *)
Lemma handle_other m s :
  match m with RunReq _ => False | _ => True end →
  nRunningReqs (handle fake display maxLoras now rangeKeys m s) = nRunningReqs s ∧
  gauge runningRequests (calls (handle fake display maxLoras now rangeKeys m s)) = gauge runningRequests (calls s).
Proof.
  destruct m as [upd|upd|upd|q c|h v|v|n st|e]; intros Hm; try done; cbn [handle];
    unfold waitingRequestsUpdater, kvCacheUsageUpdater, reportPrefixCacheStats, reportHistogramValue, reportKVCacheUsage, reportWaitingRequests, lorasUpdater, reportLoras, recordRequestMetricsOnSuccess;
    repeat case_match; (split; [done|]); cbn [calls emit set_nWaitingReqs set_runningLoras set_waitingLoras]; rewrite ?gauge_app; try done; by repeat case_match.
Qed.

Lemma real_runs ms :
  fake = false → Z.of_nat (length ms) < 2 ^ 62 → RealRuns ms →
  nRunningReqs (run ms) = runs true ms - runs false ms ∧
  (gauge runningRequests (calls (run ms)) = if bool_decide (runs true ms + runs false ms = 0) then None else Some (f_of_Z (runs true ms - runs false ms))).
Proof.
  intros Hf. induction ms as [|m ms IH] using rev_ind; intros Hlen Hr; [done|]. rewrite length_app in Hlen. cbn in Hlen.
  destruct IH as [IH1 IH2]; [lia|intros upd Hu; apply Hr; set_solver|]. rewrite run_snoc, !runs_snoc.
  assert (∀ sign, 0 ≤ runs sign ms ≤ Z.of_nat (length ms)) as Hb by (intros sign; unfold runs; pose proof (length_filter (λ m, isRun sign m = true) ms); lia).
  pose proof (Hb true). pose proof (Hb false). destruct m as [upd|upd|upd|q c|h v|v|n st|e];
    try (match goal with |- context[handle _ _ _ _ _ ?m _] => destruct (handle_other m (run ms) I) as [-> ->] end; cbn [isRun]; rewrite !Z.add_0_r; done).
  assert (∃ sign, upd = one sign) as [sign ->] by (destruct (Hr upd) as [-> | ->]; [set_solver|by exists true|by exists false]).
  cbn [handle]. unfold runningRequestsUpdater. rewrite Hf. cbn [negb Bool.eqb mi_IsFake one]. unfold reportRunningRequests. cbn [nRunningReqs set_nRunningReqs emit calls].
  assert (isRun true (RunReq (one sign)) = sign ∧ isRun false (RunReq (one sign)) = negb sign) as [-> ->] by (destruct sign; vm_compute; done).
  assert (counted (one sign) (nRunningReqs (run ms)) = runs true ms + (if sign then 1 else 0) - (runs false ms + (if negb sign then 1 else 0))) as Hc.
  { unfold counted. rewrite IH1. assert (f_to_int (mi_Value (one sign)) = if sign then 1 else -1) as -> by (destruct sign; vm_compute; reflexivity). cbn [mi_IsFake one].
    destruct sign; cbn [negb]; rewrite i64_small; lia. }
  rewrite Hc. split; [done|]. rewrite gauge_app. cbn [gauge foldl]. rewrite decide_True by done. rewrite bool_decide_eq_false_2; [done|]. destruct sign; cbn [negb]; lia.
Qed.

End Counting.

(** * Isolation of the fake metrics *)

(** A message of the simulator itself, not of the generator of fake values. *)
Definition realMessage (m : message) : bool := match m with WaitingReq u | RunReq u | KVCacheUsage u => negb (mi_IsFake u) | _ => true end.
Definition isSuccess (m : message) : bool := match m with RequestSuccess _ => true | _ => false end.

Lemma fake_ignores display maxLoras now rangeKeys m s :
  realMessage m = true → isSuccess m = false →
  calls (handle true display maxLoras now rangeKeys m s) = calls s ∧ nRunningReqs (handle true display maxLoras now rangeKeys m s) = nRunningReqs s.
Proof.
  intros Hm Hs. destruct m as [[v []]|[v []]|[v []]|q c|h v|v|n st|e]; try done. by destruct st.
Qed.

Lemma fake_run_ignores display maxLoras now rangeKeys ms s :
  forallb (λ m, realMessage m && negb (isSuccess m)) ms = true →
  calls (foldl (λ s m, handle true display maxLoras now rangeKeys m s) s ms) = calls s ∧ nRunningReqs (foldl (λ s m, handle true display maxLoras now rangeKeys m s) s ms) = nRunningReqs s.
Proof.
  revert s. induction ms as [|m ms IH]; intros s H; [done|]. cbn in H. apply andb_true_iff in H as [[H1 H2]%andb_true_iff H3]. apply negb_true_iff in H2.
  destruct (IH (handle true display maxLoras now rangeKeys m s) H3) as [E1 E2]. destruct (fake_ignores display maxLoras now rangeKeys m s H1 H2) as [G1 G2]. cbn [foldl].
  split; [by rewrite E1|by rewrite E2].
Qed.

(** * Safety of the fake metrics *)

Section Fake.
Variables (ParseFloat : string → result string f64) (ParseDuration : string → result string Z).

(** What the decoders build: from nothing, or over a value they built. *)
Inductive Parsed : FakeMetricWithFunction → Prop :=
| parsed_zero : Parsed (mkFake f_zero None false)
| parsed_step f data f' : Parsed f → UnmarshalJSON ParseFloat ParseDuration data f = Ok f' → Parsed f'.

Lemma Parsed_function f : Parsed f → IsFunction f = true → is_Some (Function_ f).
Proof.
  induction 1 as [|f data f' Hp IH Hu]; [done|]. destruct data as [n|s|e]; cbn in Hu; [injection Hu as <-; done| |done].
  unfold parseFunction in Hu. case_match; [|done]. injection Hu as <-. eauto.
Qed.

Definition ParsedOpt (o : option FakeMetricWithFunction) : Prop := match o with Some f => Parsed f | None => True end.
Definition ParsedAll (f : FakeMetrics) : Prop := ParsedOpt (RunningRequests f) ∧ ParsedOpt (WaitingRequests f) ∧ ParsedOpt (KVCacheUsagePercentage f).

(** A metric that can be shown: a fixed value, or a known function with a positive period. *)
Definition Showable (f : FakeMetricWithFunction) : Prop :=
  IsFunction f = true → ∃ p, Function_ f = Some p ∧ fi_Name p ∈ [OscillateFuncName; RampFuncName; RampWithResetFuncName; SquarewaveFuncName] ∧ 0 < fi_Period p.

Lemma validated_showable f : Parsed f → validateFunction (Function_ f) = Ok tt → Showable f.
Proof.
  intros Hp Hv Hi. destruct (Parsed_function f Hp Hi) as [p E]. rewrite E in Hv. exists p. split; [done|]. cbn in Hv.
  destruct (bool_decide _) eqn:En in Hv; [|done]. apply bool_decide_eq_true in En. cbn in Hv. case_match; [done|]. split; [done|]. destruct (Z.leb_spec (fi_Period p) 0); [done|lia].
Qed.

(** One metric of an admin update: decoded alone, and decoded over the current value. *)
Definition zeroFake : FakeMetricWithFunction := mkFake f_zero None false.
Definition Decoded (data : json) (current update merged : FakeMetricWithFunction) : Prop :=
  UnmarshalJSON ParseFloat ParseDuration data zeroFake = Ok update ∧ UnmarshalJSON ParseFloat ParseDuration data current = Ok merged.

Lemma decoded_showable data current update merged : Decoded data current update merged → validateFunction (Function_ merged) = Ok tt → Showable update.
Proof.
  intros [Hu Hm] Hv. apply validated_showable; [by eapply parsed_step; [apply parsed_zero|]|]. destruct data as [n|s|e]; cbn in *; [by injection Hu as <-| |done].
  unfold parseFunction in *. destruct (parseFunc _ _ _); [|done]. injection Hu as <-. by injection Hm as <-.
Qed.
End Fake.

(** An action that does not panic. *)
Definition Safe (a : action) : Prop := ∀ s, a s ≠ Panicked.

Lemma Safe_andThen a b : Safe a → Safe b → Safe (andThen a b).
Proof. intros Ha Hb s. unfold andThen. specialize (Ha s). destruct (a s); [apply Hb|done|done]. Qed.

Create HintDb fake_safe.
#[export] Hint Resolve Safe_andThen : fake_safe.

Section Shown.
Variables (display : string) (maxLoras maxModelLen : Z) (now : f64) (Sin : f64 → f64) (register : list call → metric → option string) (rangeOrder : gmap string Z → list (string * Z)).

Lemma Safe_skip : Safe skip.
Proof. done. Qed.
(** Calls none of which is an increment by a negative value. *)
Definition AddsOk (l : list call) : Prop := Forall (λ c, badAdd c = false) l.
Lemma AddsOk_calls l : AddsOk l → existsb badAdd l = false.
Proof. induction 1 as [|c l Hc _ IH]; [done|]. cbn. by rewrite Hc. Qed.
Lemma calling_ok l s : AddsOk l → calling l s = Done (emit l s).
Proof. intros H. unfold calling. by rewrite (AddsOk_calls l H). Qed.
Lemma Safe_calling l : AddsOk l → Safe (calling l).
Proof. intros H s. by rewrite calling_ok. Qed.
Lemma Safe_create ms : Safe (createAll register ms).
Proof.
  induction ms as [|m ms IH]; [done|]. unfold createAll. cbn [foldr]. apply Safe_andThen; [|done]. intros s. unfold create. by destruct (register _ _).
Qed.
#[local] Hint Resolve Safe_skip Safe_calling Safe_create : fake_safe.
Lemma AddsOk_unregister ms : AddsOk (Unregister <$> ms).
Proof. by apply Forall_fmap, Forall_true. Qed.
#[local] Hint Resolve AddsOk_unregister : fake_safe.
Lemma Safe_recreate had ms : Safe (recreate register had ms).
Proof. unfold recreate. destruct had; auto with fake_safe. Qed.
#[local] Hint Resolve Safe_recreate : fake_safe.

Lemma AddsOk_histogram labels m boundaries counts : AddsOk (initFakeHistogram labels m boundaries counts).1.
Proof.
  unfold initFakeHistogram. destruct (_ || _); [constructor|]. cbn [fst]. apply Forall_concat, Forall_forall. intros l Hin.
  apply elem_of_lookup_imap in Hin as (i & x & -> & _). by apply Forall_replicate.
Qed.
Lemma Safe_histogram ms boundaries new old : Safe (updateHistogram display register ms boundaries new old).
Proof.
  unfold updateHistogram. destruct new; [|done]. apply Safe_andThen; [auto with fake_safe|]. apply Safe_calling, Forall_concat, Forall_fmap, Forall_true.
  intros m. apply AddsOk_histogram.
Qed.
#[local] Hint Resolve Safe_histogram : fake_safe.

Lemma AddsOk_total m labels n : 0 ≤ n → AddsOk [Add m labels (f_of_Z n)].
Proof. intros. repeat constructor. by apply f_of_Z_not_negative. Qed.
#[local] Hint Resolve AddsOk_total : fake_safe.

(** What is added to a token counter, given or summed up from a histogram, is not negative. *)
Definition TokenTotalOk (hist : option (list Z)) (total : option Z) : Prop :=
  match total with
  | Some t => 0 ≤ t
  | None => ∀ counts labels m t, hist = Some counts → (initFakeHistogram labels m (modelBuckets maxModelLen) counts).2 = Some t → 0 ≤ t
  end.
Lemma TokenTotalOk_total hist total labels m t :
  TokenTotalOk hist total →
  match total with Some t => Some t | None => match hist with Some counts => (initFakeHistogram labels m (modelBuckets maxModelLen) counts).2 | None => None end end = Some t → 0 ≤ t.
Proof. intros Hok. destruct total; [by intros [= <-]|]. destruct hist; [|done]. by apply Hok. Qed.

Lemma Safe_tokens hist counter newHist oldHist newTotal oldTotal :
  TokenTotalOk newHist newTotal → Safe (updateTokenMetrics display register hist counter (modelBuckets maxModelLen) newHist oldHist newTotal oldTotal).
Proof.
  intros Hok. unfold updateTokenMetrics. apply Safe_andThen; [auto with fake_safe|]. case_match; [done|]. apply Safe_andThen; [auto with fake_safe|].
  match goal with |- Safe match ?x with Some _ => _ | None => _ end => destruct x as [t|] eqn:E; [|done] end.
  apply TokenTotalOk_total in E; [|done]. auto with fake_safe.
Qed.
Lemma Safe_counter m new old : (∀ n, new = Some n → 0 ≤ n) → Safe (setCounter display register m new old).
Proof. unfold setCounter. destruct new; auto with fake_safe. Qed.
Lemma AddsOk_success (l : list (string * Z)) : (∀ x, x ∈ l → 0 ≤ x.2) → AddsOk ((λ x, Add requestSuccessTotal [display; x.1] (f_of_Z x.2)) <$> l).
Proof. intros H. apply Forall_fmap, Forall_forall. intros x Hx. by apply f_of_Z_not_negative, H. Qed.
Lemma Safe_success new old : (∀ totals x, new = Some totals → x ∈ rangeOrder totals → 0 ≤ x.2) → Safe (updateSuccess display register rangeOrder new old).
Proof. unfold updateSuccess. destruct new; [|done]. intros H. apply Safe_andThen; [auto with fake_safe|]. apply Safe_calling, AddsOk_success. eauto. Qed.
Lemma Safe_loras new : Safe (updateLoras maxLoras now register new).
Proof. unfold updateLoras. destruct new as [loras|]; [|done]. apply Safe_andThen; [auto with fake_safe|]. apply Safe_calling. destruct loras; [by repeat constructor|]. by apply Forall_fmap, Forall_true. Qed.
Lemma Safe_ticker b : Safe (updateTicker b).
Proof. intros s. unfold updateTicker. by repeat case_match. Qed.

Lemma Safe_set fm m channel round : (∀ f, fm = Some f → Showable f) → Safe (setOptional display Sin fm m channel round).
Proof.
  intros Hs. destruct fm as [f|]; [|done]. specialize (Hs f eq_refl). cbn. unfold setFakeMetricWithFunction. destruct (IsFunction f) eqn:Ei; [|done].
  destruct (Hs Ei) as (p & -> & Hn & Hp). assert (∃ h v, mapFun Sin (fi_Name p) = Some h ∧ h p 0 = Some v) as (h & v & -> & ->); [|done].
  unfold rampWithReset, squarewave. set_unfold in Hn. destruct Hn as [->|[->|[->|[->|[]]]]]; cbn; eexists _, _; (split; [done|]); unfold rampWithReset, squarewave; try done;
    by destruct (Z.eqb_spec (fi_Period p) 0); [lia|].
Qed.
#[local] Hint Resolve Safe_tokens Safe_counter Safe_success Safe_loras Safe_ticker Safe_set : fake_safe.

Definition ShowableAll (f : FakeMetrics) : Prop :=
  ∀ m, RunningRequests f = Some m ∨ WaitingRequests f = Some m ∨ KVCacheUsagePercentage f = Some m → Showable m.

(** The totals that an update adds to counters are not negative.  The validation
    ensures it for the prefix cache and the success totals, not for the token totals. *)
Record TotalsOk (f : FakeMetrics) : Prop := mkTotalsOk {
  tt_prompt : TokenTotalOk (RequestPromptTokens f) (TotalPromptTokens f);
  tt_generation : TokenTotalOk (RequestGenerationTokens f) (TotalGenerationTokens f);
  tt_queries : ∀ n, PrefixCacheQueries f = Some n → 0 ≤ n;
  tt_hits : ∀ n, PrefixCacheHits f = Some n → 0 ≤ n;
  tt_success : ∀ totals x, RequestSuccessTotal f = Some totals → x ∈ rangeOrder totals → 0 ≤ x.2 }.

Lemma Safe_update update old : ShowableAll update → TotalsOk update → Safe (updateFakeMetrics display maxLoras maxModelLen now Sin register rangeOrder update old).
Proof.
  intros Hs [T1 T2 T3 T4 T5] s. unfold updateFakeMetrics. unfold ShowableAll in Hs. revert s. intros s.
  match goal with |- ?a s ≠ _ => assert (Safe a) as Ha; [|apply Ha] end. repeat (apply Safe_andThen; [auto with fake_safe|]). auto with fake_safe.
Qed.

End Shown.

Lemma validate_metrics rangeOrder f f' :
  validate rangeOrder f = Some (Ok f') →
  (∀ m, RunningRequests f = Some m ∨ WaitingRequests f = Some m ∨ KVCacheUsagePercentage f = Some m → validateFunction (Function_ m) = Ok tt) ∧ ∃ t, f' = set_RequestSuccessTotal t f.
Proof.
  unfold validate. intros H. destruct (fixedBelow _ || _); [done|]. destruct (match KVCacheUsagePercentage f with Some m => _ | None => _ end); [done|].
  destruct (onMetric (RunningRequests f) _) as [[]|] eqn:E1; [|done]. destruct (onMetric (WaitingRequests f) _) as [[]|] eqn:E2; [|done].
  destruct (match KVCacheUsagePercentage f with None => _ | Some m => _ end) as [[[]|e]|] eqn:E3; [|done|done]. cbn in H. split.
  - intros m [Hm|[Hm|Hm]]; rewrite Hm in *; [done|done|]. unfold validateKVUsage in E3. by destruct (validateFunction (Function_ m)) as [[]|].
  - unfold validateValues in H. injection H as H. inv_ok H. injection H as <-. eauto.
Qed.

(** * Theorems *)

(** The buckets of the token histograms: for every context length below 10^18, 19
    rounds suffice, and the buckets are exactly the numbers 1, 2 and 5 times a power of
    ten up to the length, in increasing order. *)
Theorem buckets_125 maxValue fuel :
  0 < maxValue < 10 ^ 18 → (19 ≤ fuel)%nat →
  ∃ l, Build125Buckets fuel maxValue = Some (f_of_Z <$> l) ∧ StronglySorted Z.lt l ∧ ∀ v, v ∈ l ↔ v ≤ maxValue ∧ ∃ m k, m ∈ [1; 2; 5] ∧ v = m * 10 ^ Z.of_nat k.
Proof.
  intros Hm Hf. destruct (rounds_sorted maxValue 0 fuel) as (l & E & Hs & Hl); [lia|lia|lia|]. exists l. unfold Build125Buckets.
  destruct (Z.leb_spec maxValue 0); [lia|]. rewrite E. split_and!; [done|done|]. intros v. rewrite Hl. apply and_iff_compat_l. split; [intros (m & k & ? & _ & ?); eauto|].
  intros (m & k & ? & ?). exists m, k. split_and!; [done|lia|done].
Qed.

Lemma buckets_125_witness : ∃ l, Build125Buckets 19 1024 = Some (f_of_Z <$> l) ∧ 1000 ∈ l.
Proof.
  destruct (buckets_125 1024 19%nat) as (l & E & _ & H); [lia|lia|]. exists l. split; [exact E|]. apply H. split; [lia|]. exists 1, 3%nat. split; [by left|reflexivity].
Defined.

(** Fake histograms show what is configured: with the boundaries of the latency
    histograms or of a token histogram, the number of observations that fall into the
    [i]-th bucket is the [i]-th configured value (none beyond the end of the array),
    whichever collector is filled. *)
Theorem fake_histogram_exact labels m boundaries counts i :
  boundaries = TTFTBucketsBoundaries ∨ boundaries = TPOTBucketsBoundaries ∨ boundaries = RequestLatencyBucketsBoundaries ∨
    (∃ maxModelLen, 0 < maxModelLen < 2 ^ 53 - 1 ∧ boundaries = modelBuckets maxModelLen) →
  (length counts ≤ S (length boundaries))%nat →
  callsIn boundaries i (initFakeHistogram labels m boundaries counts).1 = Z.to_nat (default 0 (counts !! i)).
Proof.
  intros Hb Hl. assert (separates boundaries = true) as Hs.
  { destruct Hb as [->|[->|[->|(n & Hn & ->)]]]; [vm_compute; reflexivity..|]. destruct (rounds_sorted n 0 19) as (l & E & Hsort & Hin); [lia|lia|lia|].
    unfold modelBuckets, Build125Buckets. destruct (Z.leb_spec n 0); [lia|]. rewrite E. cbn. apply increasing_separates; [|done|].
    - intros ->. assert (1 ∈ @nil Z) as Hx by (apply Hin; split; [lia|exists 1, 0%nat; split_and!; [by left|lia|done]]). by apply not_elem_of_nil in Hx.
    - intros v [H1 H2%In125_low]%Hin. change (10 ^ Z.of_nat 0) with 1 in H2. lia. }
  unfold initFakeHistogram. destruct (bool_decide_reflect (counts = [])) as [->|Hc]; [by rewrite lookup_nil|]. destruct (bool_decide_reflect (boundaries = [])) as [->|Hne]; [done|]. cbn [orb fst].
  etransitivity; [apply (observations_from labels m boundaries counts 0 i Hs); lia|]. by rewrite Nat.sub_0_r.
Qed.

Lemma fake_histogram_exact_witness : callsIn TPOTBucketsBoundaries 2 (initFakeHistogram ["m"%string] tpot TPOTBucketsBoundaries [0; 4; 3]).1 = 3%nat.
Proof. apply (fake_histogram_exact ["m"%string] tpot TPOTBucketsBoundaries [0; 4; 3] 2%nat); [by right; left|]. vm_compute. lia. Defined.

(** Fake metrics that were decoded and validated are shown without a panic at
    startup, and so is every admin update whose merged result was validated: a generator
    function that is reached is known and has a positive period.  The totals that are
    added to counters must not be negative, which the validation does not ensure for the
    token totals ([negative_total_panics]).  Registrations may fail, with an error. *)
Theorem fake_metrics_never_panic ParseFloat ParseDuration rangeOrder display maxLoras maxModelLen now Sin register f f' update merged old s :
  ParsedAll ParseFloat ParseDuration f → validate rangeOrder f = Some (Ok f') →
  (∀ get, get ∈ [RunningRequests; WaitingRequests; KVCacheUsagePercentage] → ∀ u, get update = Some u →
     ∃ data current m, get merged = Some m ∧ Decoded ParseFloat ParseDuration data current u m) →
  (∃ merged', validate rangeOrder merged = Some (Ok merged')) → TotalsOk maxModelLen rangeOrder f' → TotalsOk maxModelLen rangeOrder update →
  setInitialFakeMetrics display maxLoras maxModelLen now Sin register rangeOrder f' s ≠ Panicked ∧
  updateFakeMetrics display maxLoras maxModelLen now Sin register rangeOrder update old s ≠ Panicked.
Proof.
  intros (P1 & P2 & P3) Hv Hu [merged' Hm] T1 T2. destruct (validate_metrics _ _ _ Hv) as [Hf [t ->]]. destruct (validate_metrics _ _ _ Hm) as [Hg _]. split.
  - apply (Safe_update display maxLoras maxModelLen now Sin register rangeOrder); [|by destruct T1]. intros m H. cbn in H. eapply validated_showable; [|by apply Hf].
    destruct H as [H|[H|H]]; [rewrite H in P1|rewrite H in P2|rewrite H in P3]; done.
  - apply Safe_update; [|done]. intros u H. assert (∃ get, get ∈ [RunningRequests; WaitingRequests; KVCacheUsagePercentage] ∧ get update = Some u) as (get & Hin & Hget).
    { destruct H as [H|[H|H]]; eexists; (split; [|exact H]); set_solver. }
    destruct (Hu get Hin u Hget) as (data & current & m & Hmerged & Hd). eapply decoded_showable; [exact Hd|]. apply Hg. set_unfold in Hin.
    destruct Hin as [->|[->|[->|[]]]]; auto.
Qed.

(** ** Example: a ramp for the running requests, replaced by a fixed value. *)
Definition parseFloat_ex (s : string) : result string f64 := if String.eqb s "0" then Ok f_zero else Ok (f_of_Z 10).
Definition ramp_ex : FunctionInfo := mkFunction RampFuncName f_zero (f_of_Z 10) (5 * second).
Definition noFakes : FakeMetrics := mkFakeMetrics None None None None None None None None None None None None None None None None None None None None None.
Definition withRunning (m : FakeMetricWithFunction) : FakeMetrics :=
  mkFakeMetrics None (Some m) None None None None None None None None None None None None None None None None None None None.
Definition fakes_ex : FakeMetrics := withRunning (mkFake f_zero (Some ramp_ex) true).

Lemma fakes_ex_decoded : Decoded parseFloat_ex (λ _, Ok (5 * second)) (JString "ramp:0:10:5s") zeroFake (mkFake f_zero (Some ramp_ex) true) (mkFake f_zero (Some ramp_ex) true).
Proof. split; vm_compute; reflexivity. Qed.

Lemma fake_metrics_never_panic_witness :
  setInitialFakeMetrics "m" 1 1024 f_zero (λ x, x) (λ _ _, None) map_to_list fakes_ex initial ≠ Panicked ∧
  updateFakeMetrics "m" 1 1024 f_zero (λ x, x) (λ _ _, None) map_to_list fakes_ex (Some fakes_ex) initial ≠ Panicked.
Proof.
  apply (fake_metrics_never_panic parseFloat_ex (λ _, Ok (5 * second)) map_to_list "m" 1 1024 f_zero (λ x, x) (λ _ _, None) fakes_ex fakes_ex fakes_ex fakes_ex (Some fakes_ex) initial).
  - split; [|split; exact I]. eapply parsed_step; [apply parsed_zero|]. exact (proj1 fakes_ex_decoded).
  - vm_compute. reflexivity.
  - intros get Hget u Hu. exists (JString "ramp:0:10:5s"), zeroFake, (mkFake f_zero (Some ramp_ex) true). set_unfold in Hget.
    destruct Hget as [->|[->|[->|[]]]]; [|discriminate Hu|discriminate Hu]. injection Hu as <-. split; [reflexivity|exact fakes_ex_decoded].
  - exists fakes_ex. vm_compute. reflexivity.
  - by constructor.
  - by constructor.
Defined.

(** C31: what the metrics show after any sequence of updates, with fake metrics off.
    The gauge of running requests shows the requests started minus the requests finished.
    The count of a LoRA in the running (waiting) map is the backlog of the updates that
    enter and leave that state, the largest excess of entering over leaving updates since
    some point of the sequence; it has no entry when the backlog is zero.  Where every
    update that leaves has its entering one before it, as for running and done, the
    backlog is the difference.  For waiting it is not: a request sent directly to a free
    worker leaves a state it never entered ([direct_dispatch_undercounts]).  The updates
    about running requests are those the simulator sends, and there are less than 2^62. *)
Theorem metrics_count_exactly display maxLoras now rangeKeys ms name :
  Z.of_nat (length ms) < 2 ^ 62 → RealRuns ms →
  let s := run false display maxLoras now rangeKeys ms in
  nRunningReqs s = runs true ms - runs false ms ∧
  (0 < runs true ms → gauge runningRequests (calls s) = Some (f_of_Z (runs true ms - runs false ms))) ∧
  (∃ k, Backlog name runningUsageState doneUsageState ms k ∧ Counts (runningLoras s) name k) ∧
  (∃ k, Backlog name waitingUsageState runningUsageState ms k ∧ Counts (waitingLoras s) name k) ∧
  (Balanced name runningUsageState doneUsageState ms →
     Counts (runningLoras s) name (usages name runningUsageState ms - usages name doneUsageState ms)).
Proof.
  intros Hl Hr s. destruct (real_runs false display maxLoras now rangeKeys ms eq_refl Hl Hr) as [E1 E2].
  destruct (lora_counts false display maxLoras now rangeKeys ms name Hl) as [(k & Bk & Ck) Hw]. split_and!; [done| |eauto|done|].
  - intros Hp. unfold s. rewrite E2. rewrite bool_decide_eq_false_2; [done|]. unfold runs in *. lia.
  - intros Hb. rewrite (Backlog_unique _ _ _ _ _ _ Bk (Backlog_balanced _ _ _ _ Hb)) in Ck. exact Ck.
Qed.

Definition messages_ex : list message :=
  [LoraUsage "x" waitingUsageState; RunReq (one true); LoraUsage "x" runningUsageState; LoraUsage "x" waitingUsageState; RunReq (one true); RunReq (one false)].

Lemma metrics_count_exactly_witness :
  let s := run false "m" 1 f_zero (λ m, (map_to_list m).*1) messages_ex in
  nRunningReqs s = 1 ∧ runningLoras s !! "x"%string = Some 1 ∧
  ∃ k, Backlog "x" waitingUsageState runningUsageState messages_ex k ∧ Counts (waitingLoras s) "x" k.
Proof.
  destruct (metrics_count_exactly "m" 1 f_zero (λ m, (map_to_list m).*1) messages_ex "x") as (H1 & _ & _ & H4 & H5).
  - vm_compute. reflexivity.
  - intros upd Hu. unfold messages_ex in Hu. set_unfold in Hu. naive_solver.
  - split; [exact H1|]. split; [apply H5|exact H4].
    intros n. do 6 (destruct n as [|n]; [vm_compute; discriminate|]). rewrite take_ge by (cbn; lia). vm_compute. discriminate.
Defined.

(** A queued request of a LoRA is no longer listed as waiting once another request of the
    LoRA has been sent directly to a free worker: the running update of the second takes
    away the waiting count of the first. *)
Example direct_dispatch_undercounts :
  let s := run false "m" 1 f_zero (λ m, (map_to_list m).*1) [LoraUsage "x" waitingUsageState; LoraUsage "x" runningUsageState] in
  waitingLoras s !! "x"%string = None ∧ runningLoras s !! "x"%string = Some 1.
Proof. split; vm_compute; reflexivity. Qed.

(** Fake metrics are not isolated from the requests: of the messages of the
    simulator all but one kind leave the collectors alone, but every request that
    succeeds is still observed in the token histograms and added to the configured token
    and success totals. *)
Theorem fake_metrics_contaminated display maxLoras now rangeKeys m s :
  realMessage m = true →
  match m with
  | RequestSuccess e =>
      ∃ l, calls (handle true display maxLoras now rangeKeys m s) = calls s ++ l ∧ Add promptTokensTotal [display] (f_of_Z (promptTokens e)) ∈ l ∧
        Add generationTokensTotal [display] (f_of_Z (generationTokens e)) ∈ l ∧ Add requestSuccessTotal [display; finishReason e] (f_of_Z 1) ∈ l
  | _ => calls (handle true display maxLoras now rangeKeys m s) = calls s
  end.
Proof.
  intros Hm. destruct (isSuccess m) eqn:Es; [|destruct (fake_ignores display maxLoras now rangeKeys m s Hm Es) as [E _]; by destruct m].
  destruct m as [| | | | | | |e]; try done. eexists. split; [done|]. set_solver.
Qed.

Lemma fake_metrics_contaminated_witness :
  ∃ l, calls (handle true "m" 1 f_zero (λ m, (map_to_list m).*1) (RequestSuccess (mkSuccess 7 3 [3] None "stop")) initial) = l ∧ Add promptTokensTotal ["m"%string] (f_of_Z 7) ∈ l.
Proof.
  destruct (fake_metrics_contaminated "m" 1 f_zero (λ m, (map_to_list m).*1) (RequestSuccess (mkSuccess 7 3 [3] None "stop")) initial eq_refl) as (l & E & H & _).
  exists ([] ++ l). split; [exact E|exact H].
Defined.

(** An admin update that replaces a generator function by a number is not kept: the
    gauge shows the number and the generator is stopped, but the stored configuration
    still holds the function, and is reported as that function. *)
Theorem fixed_update_keeps_function ParseFloat ParseDuration formatG formatDuration display Sin n current p m channel round s :
  Function_ current = Some p → IsFunction current = true →
  ∃ update merged, Decoded ParseFloat ParseDuration (JNumber n) current update merged ∧
    (∃ s', setFakeMetricWithFunction display Sin update m channel round s = Done s' ∧ calls s' = calls s ++ [SetGauge m [display] n] ∧ generated s' !! channel = None) ∧
    Function_ merged = Some p ∧ IsFunction merged = true ∧ ∃ text, MarshalJSON formatG formatDuration merged = JString text.
Proof.
  intros Hp Hi. exists (mkFake n None false), (mkFake n (Some p) true). split; [split; [done|]; cbn; by rewrite Hp, Hi|]. split.
  - eexists. split; [done|]. split; [done|]. cbn. by rewrite lookup_delete_eq.
  - split_and!; [done..|]. cbn. eauto.
Qed.

Lemma fixed_update_keeps_function_witness :
  ∃ merged text, UnmarshalJSON parseFloat_ex (λ _, Ok 0) (JNumber (f_of_Z 5)) (mkFake f_zero (Some ramp_ex) true) = Ok merged ∧ MarshalJSON (λ _, "x"%string) (λ _, "5s"%string) merged = JString text.
Proof.
  destruct (fixed_update_keeps_function parseFloat_ex (λ _, Ok 0) (λ _, "x"%string) (λ _, "5s"%string) "m" (λ x, x) (f_of_Z 5) (mkFake f_zero (Some ramp_ex) true) ramp_ex runningRequests "c" true initial eq_refl eq_refl)
    as (u & merged & [_ Hd] & _ & _ & _ & text & Ht).
  exists merged, text. split; [exact Hd|exact Ht].
Defined.

(** An explicit token total below zero passes validation, and showing it panics. *)
Definition negative_ex : FakeMetrics :=
  mkFakeMetrics None None None None None None None None None None None (Some (-1)) None None None None None None None None None.
Example negative_total_panics :
  validate map_to_list negative_ex = Some (Ok negative_ex) ∧
  setInitialFakeMetrics "m" 1 1024 f_zero (λ x, x) (λ _ _, None) map_to_list negative_ex initial = Panicked.
Proof. split; vm_compute; reflexivity. Qed.

(** * Load *)

(** With fake metrics the load factor is lost: whatever requests run, the number of
    running requests stays what it was (zero, unless a fake value is generated), and with
    two sequences, a factor of 3 and a time to first token of 100 ms the time that is
    slept is negative. *)
Theorem fake_metrics_lose_load display maxLoras now rangeKeys ms :
  forallb (λ m, realMessage m && negb (isSuccess m)) ms = true →
  let running := nRunningReqs (run true display maxLoras now rangeKeys ms) in
  running = 0 ∧
  ∀ g k, Latencies.constantTTFT g (Latencies.mkConstant (Latencies.mkBase 0 0 (f_of_Z 3) 2) (100 * millisecond) 0 0 0) (Moe.mkTTFT 10 0 false running) k = Returns (-30 * millisecond) k.
Proof.
  intros H running. assert (running = 0) as -> by (unfold running, run; by rewrite (proj2 (fake_run_ignores display maxLoras now rangeKeys ms initial H))).
  split; [done|]. intros g k. vm_compute. reflexivity.
Qed.

Lemma fake_metrics_lose_load_witness : nRunningReqs (run true "m" 1 f_zero (λ m, (map_to_list m).*1) [RunReq (one true); RunReq (one true)]) = 0.
Proof. apply (fake_metrics_lose_load "m" 1 f_zero (λ m, (map_to_list m).*1) [RunReq (one true); RunReq (one true)]). vm_compute. reflexivity. Defined.

End MetricsProps.
