(* ===== verification/Config.v ===== *)
(** The configuration: its validation and admin update ([pkg/common/config.go]), the
    endpoints of the ranks ([pkg/common/publisher.go], [pkg/simulator/simulator.go]) and
    how the command line, the environment and the file are merged
    ([pkg/common/parser.go]).  YAML, JSON and the flag library are parameters. *)

From Stdlib Require Import Floats.SpecFloat.
From stdpp Require Import pretty.
From S2P Require Import Prelude GoFloat GoRandom Moe Latencies FakeMetrics.
Import GoRandom.
Open Scope Z_scope.

Module Config.

(** * Endpoints *)

(** [strconv.Atoi]: an optional sign and decimal digits, in the range of an int. *)
Definition digitOf (c : Ascii.ascii) : option Z :=
  let n := Z.of_nat (Ascii.nat_of_ascii c) in if (48 <=? n) && (n <? 58) then Some (n - 48) else None.
Fixpoint parseDigits (acc : Z) (s : string) : option Z :=
  match s with
  | EmptyString => Some acc
  | String c s => d ← digitOf c; parseDigits (10 * acc + d) s
  end.
Definition inInt (z : Z) : option Z := if (- 2 ^ 63 <=? z) && (z <? 2 ^ 63) then Some z else None.
Definition unsigned (s : string) : option Z := match s with EmptyString => None | _ => parseDigits 0 s end.
Definition Atoi (s : string) : option Z :=
  match s with
  | String c rest =>
      if Ascii.eqb c (Ascii.ascii_of_nat 45) then z ← unsigned rest; inInt (- z)
      else if Ascii.eqb c (Ascii.ascii_of_nat 43) then z ← unsigned rest; inInt z
      else z ← unsigned s; inInt z
  | EmptyString => None
  end.

Definition colon : Ascii.ascii := Ascii.ascii_of_nat 58.
(** The text up to and including the last colon, and the rest. *)
Fixpoint splitLast (s : string) : option (string * string) :=
  match s with
  | EmptyString => None
  | String c s =>
      match splitLast s with
      | Some (prefix, rest) => Some (String c prefix, rest)
      | None => if Ascii.eqb c colon then Some (String colon EmptyString, s) else None
      end
  end.

Definition ParseEndpointPort (endpoint : string) : option (string * Z) :=
  x ← splitLast endpoint; port ← Atoi x.2; Some (x.1, port).

Definition OffsetEndpointPort (endpoint : string) (offset : Z) : string :=
  match ParseEndpointPort endpoint with
  | Some (prefix, port) => prefix +:+ pretty (i64 (port + offset))
  | None => endpoint
  end.

(** * Configuration *)

Record LoraModule := mkLora { Name : string; Path : string; BaseModelName : string }.

Record Configuration := mkConfiguration {
  Port : Z; Model : string; DisplayModelName : string; ServedModelNames : list string; MaxLoras : Z; MaxCPULoras : Z;
  MaxWaitingQueueLength : Z; MaxModelLen : Z; LoraModules : list LoraModule; Mode : string; HashSeed : string;
  latency : Latencies.Config;
  MaxToolCallIntegerParam : Z; MinToolCallIntegerParam : Z; MaxToolCallNumberParam : f64; MinToolCallNumberParam : f64;
  MaxToolCallArrayParamLength : Z; MinToolCallArrayParamLength : Z;
  ToolCallNotRequiredParamProbability : Z; ObjectToolCallNotRequiredParamProbability : Z; ToolCallExtraCallProbability : Z;
  TokenBlockSize : Z; KVCacheSize : Z; EventBatchSize : Z; ZMQEndpoint : string; KVEventsReplayEndpoint : string; KVEventsReplayQueueSize : Z;
  FailureInjectionRate : Z; FailureTypes : list string; ImageEmissionRate : Z;
  fakeMetrics : option FakeMetrics.FakeMetrics; FakeMetricsRefreshInterval : Z;
  DPSize : Z; Rank : Z; moe : Moe.Configuration;
  SSLCertFile : string; SSLKeyFile : string; SelfSignedCerts : bool; DatasetPath : string; DatasetURL : string;
  GlobalCacheHitThreshold : f64; DefaultEmbeddingDimensions : Z; MaxRequestBodySizeMB : Z
}.

(** What validation and the ranks assign. *)
Definition normalized (served : list string) (display : string) (cpuLoras : Z) (fakes : option FakeMetrics.FakeMetrics) (c : Configuration) : Configuration :=
  mkConfiguration (Port c) (Model c) display served (MaxLoras c) cpuLoras (MaxWaitingQueueLength c) (MaxModelLen c) (LoraModules c) (Mode c) (HashSeed c) (latency c)
    (MaxToolCallIntegerParam c) (MinToolCallIntegerParam c) (MaxToolCallNumberParam c) (MinToolCallNumberParam c) (MaxToolCallArrayParamLength c) (MinToolCallArrayParamLength c)
    (ToolCallNotRequiredParamProbability c) (ObjectToolCallNotRequiredParamProbability c) (ToolCallExtraCallProbability c)
    (TokenBlockSize c) (KVCacheSize c) (EventBatchSize c) (ZMQEndpoint c) (KVEventsReplayEndpoint c) (KVEventsReplayQueueSize c)
    (FailureInjectionRate c) (FailureTypes c) (ImageEmissionRate c) fakes (FakeMetricsRefreshInterval c) (DPSize c) (Rank c) (moe c)
    (SSLCertFile c) (SSLKeyFile c) (SelfSignedCerts c) (DatasetPath c) (DatasetURL c) (GlobalCacheHitThreshold c) (DefaultEmbeddingDimensions c) (MaxRequestBodySizeMB c).
Definition placed (port rank : Z) (zmq replay : string) (c : Configuration) : Configuration :=
  mkConfiguration port (Model c) (DisplayModelName c) (ServedModelNames c) (MaxLoras c) (MaxCPULoras c) (MaxWaitingQueueLength c) (MaxModelLen c) (LoraModules c) (Mode c) (HashSeed c) (latency c)
    (MaxToolCallIntegerParam c) (MinToolCallIntegerParam c) (MaxToolCallNumberParam c) (MinToolCallNumberParam c) (MaxToolCallArrayParamLength c) (MinToolCallArrayParamLength c)
    (ToolCallNotRequiredParamProbability c) (ObjectToolCallNotRequiredParamProbability c) (ToolCallExtraCallProbability c)
    (TokenBlockSize c) (KVCacheSize c) (EventBatchSize c) zmq replay (KVEventsReplayQueueSize c)
    (FailureInjectionRate c) (FailureTypes c) (ImageEmissionRate c) (fakeMetrics c) (FakeMetricsRefreshInterval c) (DPSize c) rank (moe c)
    (SSLCertFile c) (SSLKeyFile c) (SelfSignedCerts c) (DatasetPath c) (DatasetURL c) (GlobalCacheHitThreshold c) (DefaultEmbeddingDimensions c) (MaxRequestBodySizeMB c).

(** * Validation *)

Definition ModeRandom : string := "random".
Definition ModeEcho : string := "echo".
Definition failureTypes : list string := ["rate_limit"; "invalid_api_key"; "context_length"; "server_error"; "invalid_request"; "model_not_found"]%string.

(** [float32]: binary32. *)
Definition f32_of_Z (z : Z) : spec_float := binary_normalize 24 128 z 0 false.
Definition f32_mul (x y : spec_float) : spec_float := SFmul 24 128 x y.
Definition f32_03 : spec_float := SFdiv 24 128 (f32_of_Z 3) (f32_of_Z 10).
(** [float32(stddev) > 0.3*float32(mean)]. *)
Definition above30Percent (stddev mean : Z) : bool := SFltb (f32_mul f32_03 (f32_of_Z mean)) (f32_of_Z stddev).

(** A condition under which an error is returned. *)
Definition refuse (b : bool) (e : string) : bool * string := (b, e).
Arguments refuse b%_Z e%_string.

(** A sequence of early returns: the error of the first condition that holds. *)
Definition firstError (checks : list (bool * string)) : result string unit :=
  match list_find (λ x, x.1 = true) checks with Some (_, (_, e)) => Err e | None => Ok tt end.

Definition basicChecks (c : Configuration) : list (bool * string) :=
  [refuse (negb (bool_decide (Mode c = ModeEcho)) && negb (bool_decide (Mode c = ModeRandom))) ("invalid mode '" +:+ Mode c +:+ "', valid values are 'random' and 'echo'");
   refuse (Port c <=? 0) ("invalid port '" +:+ pretty (Port c) +:+ "'")].

Definition latencyChecks (c : Configuration) : list (bool * string) :=
  let l := latency c in
  [refuse (Latencies.InterTokenLatency l <? 0) ("inter token latency cannot be negative");
   refuse (Latencies.InterTokenLatencyStdDev l <? 0) ("inter token latency standard deviation cannot be negative");
   refuse (above30Percent (Latencies.InterTokenLatencyStdDev l) (Latencies.InterTokenLatency l)) ("inter token latency standard deviation cannot be more than 30% of inter token latency");
   refuse (Latencies.TimeToFirstToken l <? 0) ("time to first token cannot be negative");
   refuse (Latencies.TimeToFirstTokenStdDev l <? 0) ("time to first token standard deviation cannot be negative");
   refuse (above30Percent (Latencies.TimeToFirstTokenStdDev l) (Latencies.TimeToFirstToken l)) ("time to first token standard deviation cannot be more than 30% of time to first token");
   refuse (Latencies.TimeToGenerateImage l <? 0) ("time to generate image cannot be negative");
   refuse (Latencies.TimeToGenerateImageStdDev l <? 0) ("time to generate image standard deviation cannot be negative");
   refuse (above30Percent (Latencies.TimeToGenerateImageStdDev l) (Latencies.TimeToGenerateImage l)) ("time to generate image standard deviation cannot be more than 30% of time to generate image");
   refuse (Latencies.PrefillOverhead l <? 0) ("prefill overhead cannot be negative");
   refuse (Latencies.PrefillTimePerToken l <? 0) ("prefill time per token cannot be negative");
   refuse (Latencies.PrefillTimeStdDev l <? 0) ("prefill time standard deviation cannot be negative");
   refuse (Latencies.KVCacheTransferTimePerToken l <? 0) ("kv-cache transfer time per token cannot be negative");
   refuse (Latencies.KVCacheTransferTimeStdDev l <? 0) ("kv-cache transfer time standard deviation cannot be negative");
   refuse (Latencies.KVCacheTransferLatency l <? 0) ("kv-cache transfer time cannot be negative");
   refuse (Latencies.KVCacheTransferLatencyStdDev l <? 0) ("kv-cache transfer time standard deviation cannot be negative");
   refuse (above30Percent (Latencies.KVCacheTransferLatencyStdDev l) (Latencies.KVCacheTransferLatency l)) ("kv-cache transfer standard deviation cannot be more than 30% of kv-cache transfer");
   refuse (flt (Latencies.TimeFactorUnderLoad l) (f_of_Z 1)) ("time factor under load cannot be less than 1.0")].

(** [cpuLoras] is the number of CPU LoRAs after its default. *)
Definition limitChecks (cpuLoras : Z) (c : Configuration) : list (bool * string) :=
  [refuse (MaxLoras c <? 1) ("max LoRAs cannot be less than 1"); refuse (cpuLoras <? MaxLoras c) ("max CPU LoRAs cannot be less than max LoRAs");
   refuse (MaxModelLen c <? 1) ("max model len cannot be less than 1"); refuse (Latencies.MaxNumSeqs (latency c) <? 1) ("max num seqs cannot be less than 1");
   refuse (MaxWaitingQueueLength c <? 0) ("max waiting queue size cannot be less than 0")].

Definition loraChecks (c : Configuration) : list (bool * string) :=
  concat ((λ lora, [refuse (bool_decide (Name lora = "")) ("empty LoRA name");
    refuse (negb (bool_decide (BaseModelName lora = "")) && negb (bool_decide (BaseModelName lora = Model c))) ("unknown base model '" +:+ BaseModelName lora +:+ "' for LoRA '" +:+ Name lora +:+ "'")]) <$> LoraModules c).

Definition outside (lo hi z : Z) : bool := (z <? lo) || (hi <? z).

Definition toolChecks (c : Configuration) : list (bool * string) :=
  [refuse (MaxToolCallIntegerParam c <? MinToolCallIntegerParam c) ("MaxToolCallIntegerParam cannot be less than MinToolCallIntegerParam");
   refuse (flt (MaxToolCallNumberParam c) (MinToolCallNumberParam c)) ("MaxToolCallNumberParam cannot be less than MinToolCallNumberParam");
   refuse (MaxToolCallArrayParamLength c <? MinToolCallArrayParamLength c) ("MaxToolCallArrayParamLength cannot be less than MinToolCallArrayParamLength");
   refuse (MinToolCallArrayParamLength c <? 0) ("MinToolCallArrayParamLength cannot be negative");
   refuse (outside 0 100 (ToolCallNotRequiredParamProbability c)) ("ToolCallNotRequiredParamProbability should be between 0 and 100");
   refuse (outside 0 100 (ObjectToolCallNotRequiredParamProbability c)) ("ObjectToolCallNotRequiredParamProbability should be between 0 and 100");
   refuse (outside 0 100 (ToolCallExtraCallProbability c)) ("ToolCallExtraCallProbability should be between 0 and 100")].

Definition cacheChecks (c : Configuration) : list (bool * string) :=
  [refuse (negb (bool_decide (TokenBlockSize c ∈ [8; 16; 32; 64; 128]))) ("token block size should be one of the following: 8, 16, 32, 64, 128");
   refuse (KVCacheSize c <? 0) ("KV cache size cannot be negative"); refuse (EventBatchSize c <? 1) ("event batch size cannot less than 1");
   refuse (negb (bool_decide (KVEventsReplayEndpoint c = "")) && (KVEventsReplayQueueSize c <? 1)) ("kv-events-replay-queue-size cannot be less than 1");
   refuse (outside 0 100 (FailureInjectionRate c)) ("failure injection rate should be between 0 and 100");
   refuse (outside 0 100 (ImageEmissionRate c)) ("image emission rate should be between 0 and 100")].

Definition failureChecks (c : Configuration) : list (bool * string) :=
  (λ ft, refuse (negb (bool_decide (ft ∈ failureTypes))) ("invalid failure type '" +:+ ft +:+
     "', valid types are: rate_limit, invalid_api_key, context_length, server_error, invalid_request, model_not_found")) <$> FailureTypes c.

Definition validateEndpointPortsDontCollide (c : Configuration) : result string unit :=
  if bool_decide (ZMQEndpoint c = ""%string) || bool_decide (KVEventsReplayEndpoint c = ""%string) then Ok tt
  else match ParseEndpointPort (ZMQEndpoint c), ParseEndpointPort (KVEventsReplayEndpoint c) with
  | Some (_, zmqPort), Some (_, replayPort) =>
      let maxRank := DPSize c - 1 in
      if (zmqPort <=? i64 (replayPort + maxRank)) && (replayPort <=? i64 (zmqPort + maxRank))
      then Err ("zmq-endpoint (" +:+ ZMQEndpoint c +:+ ") and kv-events-replay-endpoint (" +:+ KVEventsReplayEndpoint c +:+ ") ports collide once offset by data-parallel rank")%string
      else Ok tt
  | _, _ => Ok tt
  end.

Definition finalChecks (c : Configuration) : list (bool * string) :=
  let calc := Latencies.LatencyCalculator (latency c) in
  [refuse (xorb (bool_decide (SSLCertFile c = "")) (bool_decide (SSLKeyFile c = ""))) ("both ssl-certfile and ssl-keyfile must be provided together");
   refuse (SelfSignedCerts c && (negb (bool_decide (SSLCertFile c = "")) || negb (bool_decide (SSLKeyFile c = "")))) ("cannot use both self-signed-certs and explicit ssl-certfile/ssl-keyfile");
   refuse (bool_decide (DatasetPath c = "") && negb (bool_decide (DatasetURL c = ""))) ("dataset-path is required when dataset-url is set");
   refuse (bool_decide (Mode c = ModeEcho) && (negb (bool_decide (DatasetPath c = "")) || negb (bool_decide (DatasetURL c = "")))) ("dataset cannot be defined in echo mode");
   refuse (negb (bool_decide (calc = Latencies.DefaultLatencyCalculator)) && negb (bool_decide (calc = Latencies.ConstantLatencyCalculator)) &&
      negb (bool_decide (calc = Latencies.PerPromptTokenLatencyCalculator))) ("unknown latency-calculator " +:+ calc +:+ ", supported calculators are: constant and per-token");
   refuse (flt (GlobalCacheHitThreshold c) f_zero || flt (f_of_Z 1) (GlobalCacheHitThreshold c)) ("global cache hit threshold must be between in range [0, 1]");
   refuse (DefaultEmbeddingDimensions c <? 1) ("default embedding dimensions must be at least 1");
   refuse (outside 1 512 (MaxRequestBodySizeMB c)) ("max-request-body-size-mb must be between 1 MB and 512 MB, got " +:+ pretty (MaxRequestBodySizeMB c))].

Section Validation.
Variable rangeOrder : gmap string Z → list (string * Z).

(** A nil function of a fake metric that is marked as one panics. *)
Definition validateFakes (c : Configuration) : option (result string (option FakeMetrics.FakeMetrics)) :=
  match fakeMetrics c with
  | None => Some (Ok None)
  | Some f =>
      r ← FakeMetrics.validate rangeOrder f;
      Some (let! f := r in if FakeMetricsRefreshInterval c <=? 0 then Err "fake metrics refresh interval must be positive"%string else Ok (Some f))
  end.

Definition earlyChecks (c : Configuration) (cpuLoras : Z) : result string unit :=
  firstError (basicChecks c ++ latencyChecks c ++ limitChecks cpuLoras c ++ loraChecks c ++ toolChecks c ++ cacheChecks c ++ failureChecks c).

Definition lateChecks (c : Configuration) : result string unit :=
  let! _ := firstError [refuse (outside 1 8 (DPSize c)) "data parallel size must be between 1 and 8"] in
  let! _ := Moe.validateMoE (moe c) in
  let! _ := firstError [refuse (7 <? Rank c) "data parallel rank must be between 0 and 7"] in
  let! _ := validateEndpointPortsDontCollide c in
  firstError (finalChecks c).

Definition validate (c : Configuration) : option (result string Configuration) :=
  if bool_decide (Model c = ""%string) then Some (Err "model parameter is empty"%string)
  else
    let served := match ServedModelNames c with [] => [Model c] | l => l end in
    let cpuLoras := if MaxCPULoras c =? 0 then MaxLoras c else MaxCPULoras c in
    match earlyChecks c cpuLoras with
    | Err e => Some (Err e)
    | Ok _ =>
        r ← validateFakes c;
        Some (let! fakes := r in let! _ := lateChecks c in Ok (normalized served (default ""%string (head served)) cpuLoras fakes c))
    end.

(** ** Admin updates *)

(** The keys that can be changed, and whether a change rebuilds the latency calculator. *)
Definition configurableFields : list (string * bool) :=
  [("time-to-first-token", true); ("time-to-first-token-std-dev", true); ("inter-token-latency", true); ("inter-token-latency-std-dev", true);
   ("kv-cache-transfer-latency", true); ("kv-cache-transfer-latency-std-dev", true); ("prefill-overhead", true); ("prefill-time-per-token", true);
   ("prefill-time-std-dev", true); ("kv-cache-transfer-time-per-token", true); ("kv-cache-transfer-time-std-dev", true); ("time-to-generate-image", false);
   ("time-to-generate-image-std-dev", false); ("time-factor-under-load", true); ("fake-metrics", false); ("failure-injection-rate", false); ("failure-types", false);
   ("latency-calculator", true); ("image-emission-rate", false)]%string.
Definition rebuildTag (key : string) : option bool := option_map snd (List.find (λ x, String.eqb x.1 key) configurableFields).

(** A body is its keys in the order of the iteration, or an error. *)
Definition checkKeys (keys : list string) : result string bool :=
  foldl (λ acc key, let! changed := acc in
    match rebuildTag key with None => Err ("field '" +:+ key +:+ "' is not admin-configurable") | Some tag => Ok (changed || tag) end) (Ok false) keys.

(** [overlay]: the body decoded over a copy of the configuration. *)
Definition Update {Body} (keysOf : Body → result string (list string)) (overlay : Body → Configuration → result string Configuration) (body : Body) (c : Configuration)
  : option (result string (Configuration * bool)) :=
  match (let! keys := keysOf body in let! changed := checkKeys keys in let! next := overlay body c in Ok (next, changed)) with
  | Err e => Some (Err e)
  | Ok (next, changed) => r ← validate next; Some (let! next := r in Ok (next, changed))
  end.

End Validation.

(** The part of a rank that an update replaces: the configuration and the latency calculator made from one. *)
Record SimContext := mkSim { config : Configuration; calculator : option Latencies.latencyCalculator }.

Section Apply.
Context {Body : Type}.
Variable g : generator.
Variable rangeOrder : gmap string Z → list (string * Z).
Variable keysOf : Body → result string (list string).
Variable overlay : Body → Configuration → result string Configuration.
(** The fake metrics of the body, and the error of showing them. *)
Variable fakesOf : Body → option FakeMetrics.FakeMetrics.
Variable updateFakeMetrics : FakeMetrics.FakeMetrics → Configuration → option string.

Definition ApplyConfigUpdate (body : Body) (s : SimContext) : option (result string SimContext) :=
  r ← Update rangeOrder keysOf overlay body (config s);
  Some (let! x := r in
    let! _ := match fakesOf body with
              | None => Ok tt
              | Some u =>
                  match fakeMetrics (config s) with
                  | None => Err "the simulator is reporting real metrics; fake metrics cannot be updated"%string
                  | Some _ => match updateFakeMetrics u (config s) with Some e => Err ("failed to update fake metrics: " +:+ e) | None => Ok tt end
                  end
              end in
    Ok (mkSim x.1 (if x.2 : bool then Latencies.rebuildLatencyCalculator g (latency x.1) else calculator s))).
End Apply.

(** * Ranks *)

Definition rankCount (c : Configuration) : Z := if 0 <=? Rank c then 1 else DPSize c.

Definition rankConfig (c : Configuration) (dpRank : Z) : Configuration :=
  let port := if 0 <? dpRank then i64 (Port c + dpRank) else Port c in
  let effectiveRank := if 0 <=? Rank c then Rank c else dpRank in
  let moved endpoint := if (0 <? effectiveRank) && negb (bool_decide (endpoint = ""%string)) then OffsetEndpointPort endpoint effectiveRank else endpoint in
  placed port (if Rank c <? 0 then dpRank else Rank c) (moved (ZMQEndpoint c)) (moved (KVEventsReplayEndpoint c)) c.

Definition rankConfigs (c : Configuration) : list Configuration := rankConfig c <$> seqZ 0 (rankCount c).

(** * Command line *)

(** The values of a parameter: those after [--param] up to the next flag, or the one of
    [--param=value]; nil when it is not given. *)
Fixpoint readValues (args : list string) : list string :=
  match args with
  | [] => []
  | arg :: args => if String.prefix "--" arg then [] else if bool_decide (arg = ""%string) then readValues args else arg :: readValues args
  end.
Fixpoint dropString (n : nat) (s : string) : string := match n, s with S n, String _ s => dropString n s | _, _ => s end.
Fixpoint getParamValueFromArgs (param : string) (args : list string) : option (list string) :=
  match args with
  | [] => None
  | arg :: args =>
      if String.eqb arg ("--" +:+ param) then Some (readValues args)
      else if String.prefix ("--" +:+ param +:+ "=") arg then Some [dropString (String.length ("--" +:+ param +:+ "=")) arg]
      else getParamValueFromArgs param args
  end.

(** Assignments of the merge. *)
Definition merged (model : string) (served : list string) (loras : list LoraModule) (hashSeed : string) (failures : list string) (fakes : option FakeMetrics.FakeMetrics)
    (threshold : f64) (c : Configuration) : Configuration :=
  mkConfiguration (Port c) model (DisplayModelName c) served (MaxLoras c) (MaxCPULoras c) (MaxWaitingQueueLength c) (MaxModelLen c) loras (Mode c) hashSeed (latency c)
    (MaxToolCallIntegerParam c) (MinToolCallIntegerParam c) (MaxToolCallNumberParam c) (MinToolCallNumberParam c) (MaxToolCallArrayParamLength c) (MinToolCallArrayParamLength c)
    (ToolCallNotRequiredParamProbability c) (ObjectToolCallNotRequiredParamProbability c) (ToolCallExtraCallProbability c)
    (TokenBlockSize c) (KVCacheSize c) (EventBatchSize c) (ZMQEndpoint c) (KVEventsReplayEndpoint c) (KVEventsReplayQueueSize c)
    (FailureInjectionRate c) failures (ImageEmissionRate c) fakes (FakeMetricsRefreshInterval c) (DPSize c) (Rank c) (moe c)
    (SSLCertFile c) (SSLKeyFile c) (SelfSignedCerts c) (DatasetPath c) (DatasetURL c) threshold (DefaultEmbeddingDimensions c) (MaxRequestBodySizeMB c).

(** Registering a flag assigns its default: the field's own value, except for the
    cache-hit threshold, whose default is 0. *)
Definition registerFlags (c : Configuration) : Configuration :=
  merged (Model c) (ServedModelNames c) (LoraModules c) (HashSeed c) (FailureTypes c) (fakeMetrics c) f_zero c.

Section CommandLine.
Variable rangeOrder : gmap string Z → list (string * Z).
Variable newConfig : Configuration.
(** The file over the defaults; the flags over the registered values, and which were given. *)
Variable load : string → Configuration → result string Configuration.
Variable parseFlags : list string → Configuration → result string (Configuration * (string → bool)).
Variable env : string → string.
Variable unmarshalLora : string → result string LoraModule.
Variable unmarshalFakeMetrics : string → result string (option FakeMetrics.FakeMetrics).

Fixpoint unmarshalLoras (l : list string) : result string (list LoraModule) :=
  match l with [] => Ok [] | s :: l => let! lora := unmarshalLora s in let! loras := unmarshalLoras l in Ok (lora :: loras) end.

(** A variable that is set wins over the file, a flag over both. *)
Definition fromEnv (given : bool) (variable current : string) : string :=
  if given then current else if bool_decide (env variable = ""%string) then current else env variable.

(** An empty list of fake metrics is indexed out of range. *)
Definition fakesFrom (args : list string) (c : Configuration) : option (result string (option FakeMetrics.FakeMetrics)) :=
  match getParamValueFromArgs "fake-metrics" args with
  | None => Some (Ok (fakeMetrics c))
  | Some [] => None
  | Some (s :: _) => Some (unmarshalFakeMetrics s)
  end.

Definition ParseCommandParamsAndLoadConfig (args : list string) : option (result string Configuration) :=
  match (match getParamValueFromArgs "config" args with Some [file] => load file newConfig | _ => Ok newConfig end) with
  | Err e => Some (Err e)
  | Ok c =>
  match parseFlags args (registerFlags c) with
  | Err e => Some (Err e)
  | Ok (c, changed) =>
  match (match getParamValueFromArgs "lora-modules" args with Some names => unmarshalLoras names | None => Ok (LoraModules c) end) with
  | Err e => Some (Err e)
  | Ok loras =>
      fakes ← fakesFrom args c;
      match fakes with
      | Err e => Some (Err e)
      | Ok fakes =>
          validate rangeOrder
            (merged (fromEnv (changed "model"%string) "SIM_MODEL" (Model c)) (default (ServedModelNames c) (getParamValueFromArgs "served-model-name" args)) loras
               (fromEnv (changed "hash-seed"%string) "PYTHONHASHSEED" (HashSeed c)) (default (FailureTypes c) (getParamValueFromArgs "failure-types" args)) fakes
               (GlobalCacheHitThreshold c) c)
      end
  end end end.
End CommandLine.

End Config.
