(* ===== verification/ConfigProps.v ===== *)
(** What a validated configuration guarantees to the components that read it. *)

From stdpp Require Import pretty.
From S2P Require Import Prelude GoFloat GoRandom Moe Latencies FakeMetrics Config.
Import GoRandom Config.
Open Scope Z_scope.

Module ConfigProps.

(** * Endpoints *)

Lemma digit_char n : (n < 10)%N → digitOf (pretty_N_char n) = Some (Z.of_N n) ∧ Ascii.eqb (pretty_N_char n) colon = false ∧
  Ascii.eqb (pretty_N_char n) (Ascii.ascii_of_nat 45) = false ∧ Ascii.eqb (pretty_N_char n) (Ascii.ascii_of_nat 43) = false.
Proof.
  intros Hn. assert (n = 0 ∨ n = 1 ∨ n = 2 ∨ n = 3 ∨ n = 4 ∨ n = 5 ∨ n = 6 ∨ n = 7 ∨ n = 8 ∨ n = 9)%N as H by lia. by repeat destruct H as [->|H]; [..|subst n].
Qed.

Lemma parse_go n s : parseDigits 0 (pretty_N_go n s) = parseDigits (Z.of_N n) s.
Proof.
  revert s. induction (N.lt_wf_0 n) as [n _ IH]; intros s. assert (n = 0 ∨ 0 < n)%N as [->|Hn] by lia; [by rewrite pretty_N_go_0|].
  rewrite pretty_N_go_step by done. rewrite IH by (by apply N.div_lt). cbn [parseDigits]. pose proof (N.mod_lt n 10 ltac:(lia)) as Hm.
  destruct (digit_char _ Hm) as [-> _]. cbn. f_equal. rewrite N2Z.inj_div, N2Z.inj_mod. pose proof (Z.div_mod (Z.of_N n) 10). lia.
Qed.

Lemma split_go n s : splitLast s = None → splitLast (pretty_N_go n s) = None.
Proof.
  revert s. induction (N.lt_wf_0 n) as [n _ IH]; intros s Hs. assert (n = 0 ∨ 0 < n)%N as [->|Hn] by lia; [by rewrite pretty_N_go_0|].
  rewrite pretty_N_go_step by done. apply IH; [by apply N.div_lt|]. cbn [splitLast]. rewrite Hs. by destruct (digit_char _ (N.mod_lt n 10 ltac:(lia))) as (_ & -> & _).
Qed.

(** The text of a number: it starts with a digit, parses back and has no colon. *)
Lemma pretty_N_text n : parseDigits 0 (pretty n) = Some (Z.of_N n) ∧ splitLast (pretty n) = None ∧
  ∃ c s, pretty n = String c s ∧ Ascii.eqb c (Ascii.ascii_of_nat 45) = false ∧ Ascii.eqb c (Ascii.ascii_of_nat 43) = false.
Proof.
  unfold pretty, pretty_N. destruct (decide (n = 0)%N) as [->|Hn]; [split_and!; [done|done|by eexists _, _]|]. split_and!; [by rewrite parse_go|by apply split_go|].
  assert (∀ s, (∃ c s', s = String c s' ∧ Ascii.eqb c (Ascii.ascii_of_nat 45) = false ∧ Ascii.eqb c (Ascii.ascii_of_nat 43) = false) ∨ (0 < n)%N →
    ∃ c s', pretty_N_go n s = String c s' ∧ Ascii.eqb c (Ascii.ascii_of_nat 45) = false ∧ Ascii.eqb c (Ascii.ascii_of_nat 43) = false) as H; [|apply (H ""%string); right; lia].
  clear Hn. induction (N.lt_wf_0 n) as [n _ IH]; intros s Hs. assert (n = 0 ∨ 0 < n)%N as [->|Hn] by lia; [rewrite pretty_N_go_0; destruct Hs; [done|lia]|].
  rewrite pretty_N_go_step by done. apply IH; [by apply N.div_lt|]. left. destruct (digit_char _ (N.mod_lt n 10 ltac:(lia))) as (_ & _ & H1 & H2). by eexists _, _.
Qed.

Lemma Atoi_pretty z : - 2 ^ 63 ≤ z < 2 ^ 63 → Atoi (pretty z) = Some z ∧ splitLast (pretty z) = None.
Proof.
  intros Hz. assert (∀ n, Z.of_N n < 2 ^ 63 → Atoi (pretty n) = Some (Z.of_N n)) as Hpos.
  { intros n Hn. destruct (pretty_N_text n) as (H1 & _ & c & s & E & E1 & E2). unfold Atoi. rewrite E in *. rewrite E1, E2. cbn [unsigned]. rewrite H1. cbn. unfold inInt.
    by destruct (Z.leb_spec (- 2 ^ 63) (Z.of_N n)), (Z.ltb_spec (Z.of_N n) (2 ^ 63)); try lia. }
  destruct z as [|p|p].
  - done.
  - split; [apply (Hpos (N.pos p)); lia|]. apply (pretty_N_text (N.pos p)).
  - destruct (pretty_N_text (N.pos p)) as (H1 & H2 & c & s & E & _). change (pretty (Z.neg p)) with (String (Ascii.ascii_of_nat 45) (pretty (N.pos p))). split.
    + unfold Atoi. rewrite Ascii.eqb_refl. unfold unsigned. rewrite E in *. rewrite H1. cbn. unfold inInt. change (- Z.pos p) with (Z.neg p).
      by destruct (Z.leb_spec (- 2 ^ 63) (Z.neg p)), (Z.ltb_spec (Z.neg p) (2 ^ 63)); try lia.
    + cbn [splitLast]. by rewrite H2.
Qed.

Lemma splitLast_prefix s p t t' : splitLast s = Some (p, t) → splitLast t' = None → splitLast (p +:+ t') = Some (p, t').
Proof.
  revert p t. induction s as [|c s IH]; intros p t Hs Ht; [done|]. cbn in Hs. destruct (splitLast s) as [[p0 t0]|] eqn:E.
  - injection Hs as <- <-. change (splitLast (String c (p0 +:+ t')) = Some (String c p0, t')). cbn [splitLast]. by rewrite (IH p0 t0).
  - destruct (Ascii.eqb c colon); [|done]. injection Hs as <- <-. change (splitLast (String colon t') = Some (String colon EmptyString, t')). cbn [splitLast]. by rewrite Ht.
Qed.

(** An offset endpoint has the same prefix and the port moved. *)
Lemma offset_port e prefix port k :
  ParseEndpointPort e = Some (prefix, port) → - 2 ^ 63 ≤ port + k < 2 ^ 63 → ParseEndpointPort (OffsetEndpointPort e k) = Some (prefix, port + k).
Proof.
  intros He Hk. unfold OffsetEndpointPort. rewrite He. rewrite i64_small by lia. destruct (Atoi_pretty (port + k) Hk) as [Ha Hs].
  unfold ParseEndpointPort in *. destruct (splitLast e) as [[p t]|] eqn:E; [|done]. cbn in He. destruct (Atoi t); [|done]. injection He as -> ->.
  rewrite (splitLast_prefix e prefix t _ E Hs). cbn. by rewrite Ha.
Qed.

Lemma ParseEndpointPort_range e prefix port : ParseEndpointPort e = Some (prefix, port) → - 2 ^ 63 ≤ port < 2 ^ 63.
Proof.
  unfold ParseEndpointPort. destruct (splitLast e) as [[p t]|]; [|done]. cbn. destruct (Atoi t) as [z|] eqn:E; [|done]. intros [= _ <-].
  assert (∀ y, inInt y = Some z → - 2 ^ 63 ≤ z < 2 ^ 63) as Hi.
  { intros y. unfold inInt. destruct (Z.leb_spec (- 2 ^ 63) y), (Z.ltb_spec y (2 ^ 63)); cbn; try done. intros [= <-]. lia. }
  unfold Atoi in E. destruct t as [|c t]; [done|]. repeat case_match; (destruct (unsigned _) as [y|]; [|done]); cbn in E; eauto.
Qed.

(** * Validation *)

Lemma firstError_ok l : firstError l = Ok tt ↔ Forall (λ x, x.1 = false) l.
Proof.
  unfold firstError. destruct (list_find _ l) as [[i [b e]]|] eqn:E.
  - apply list_find_Some in E as (Hi & Hb & _). split; [done|]. rewrite Forall_forall. intros H. specialize (H (b, e) (list_elem_of_lookup_2 _ _ _ Hi)). cbn in *. congruence.
  - apply list_find_None in E. split; [|done]. intros _. eapply Forall_impl; [exact E|]. cbn. intros x Hx. by destruct x.1.
Qed.

(** The checks that passed, one after the other. *)
Record Passed (rng : gmap string Z → list (string * Z)) (c c' : Configuration) : Prop := mkPassed {
  pa_model : Model c ≠ ""%string;
  pa_early : Forall (λ x, x.1 = false) (basicChecks c ++ latencyChecks c ++ limitChecks (if MaxCPULoras c =? 0 then MaxLoras c else MaxCPULoras c) c ++ loraChecks c ++ toolChecks c ++ cacheChecks c ++ failureChecks c);
  pa_fakes : validateFakes rng c = Some (Ok (fakeMetrics c'));
  pa_size : 1 ≤ DPSize c ≤ 8; pa_moe : Moe.validateMoE (moe c) = Ok tt; pa_rank : Rank c ≤ 7; pa_ports : validateEndpointPortsDontCollide c = Ok tt;
  pa_final : Forall (λ x, x.1 = false) (finalChecks c);
  pa_result : c' = normalized (match ServedModelNames c with [] => [Model c] | l => l end) (default ""%string (head (match ServedModelNames c with [] => [Model c] | l => l end)))
                     (if MaxCPULoras c =? 0 then MaxLoras c else MaxCPULoras c) (fakeMetrics c') c
}.

Lemma lateChecks_ok c :
  lateChecks c = Ok tt ↔ 1 ≤ DPSize c ≤ 8 ∧ Moe.validateMoE (moe c) = Ok tt ∧ Rank c ≤ 7 ∧ validateEndpointPortsDontCollide c = Ok tt ∧ Forall (λ x, x.1 = false) (finalChecks c).
Proof.
  unfold lateChecks. rewrite <- (firstError_ok (finalChecks c)).
  assert (firstError [refuse (outside 1 8 (DPSize c)) "data parallel size must be between 1 and 8"] = Ok tt ↔ 1 ≤ DPSize c ≤ 8) as H1.
  { rewrite firstError_ok, Forall_singleton. cbn. unfold outside. rewrite orb_false_iff, Z.ltb_ge, Z.ltb_ge. done. }
  assert (firstError [refuse (7 <? Rank c) "data parallel rank must be between 0 and 7"] = Ok tt ↔ Rank c ≤ 7) as H2 by (rewrite firstError_ok, Forall_singleton; cbn; by rewrite Z.ltb_ge).
  rewrite <- H1, <- H2. generalize (firstError [refuse (outside 1 8 (DPSize c)) "data parallel size must be between 1 and 8"]) (firstError [refuse (7 <? Rank c) "data parallel rank must be between 0 and 7"])
    (Moe.validateMoE (moe c)) (validateEndpointPortsDontCollide c) (firstError (finalChecks c)).
  intros [[]|] [[]|] [[]|] [[]|] [[]|]; cbn; naive_solver.
Qed.

Lemma validate_passed rng c c' : validate rng c = Some (Ok c') ↔ Passed rng c c'.
Proof.
  unfold validate. split.
  - intros H. destruct (bool_decide_reflect (Model c = ""%string)); [done|]. destruct (earlyChecks c _) as [[]|] eqn:Ee; [|done]. destruct (validateFakes rng c) as [[fakes|]|] eqn:Ef; [|done|done].
    cbn in H. destruct (lateChecks c) as [[]|] eqn:El; [|done]. cbn in H. injection H as <-. apply lateChecks_ok in El as (H1 & H2 & H3 & H4 & H5). by split; [|apply firstError_ok| | | | | | |].
  - intros [H1 H2 H3 H4 H5 H6 H7 H8 H9]. rewrite bool_decide_eq_false_2 by done. apply firstError_ok in H2. fold (earlyChecks c (if MaxCPULoras c =? 0 then MaxLoras c else MaxCPULoras c)) in H2. rewrite H2, H3. cbn.
    assert (lateChecks c = Ok tt) as -> by by apply lateChecks_ok. cbn. by rewrite <- H9.
Qed.

(** ** Ports *)

Definition collide (n zmq replay : Z) : Prop := ∃ i j, 0 ≤ i < n ∧ 0 ≤ j < n ∧ zmq + i = replay + j.

Lemma ports_exact c zp rp p q :
  1 ≤ DPSize c ≤ 8 → ParseEndpointPort (ZMQEndpoint c) = Some (p, zp) → ParseEndpointPort (KVEventsReplayEndpoint c) = Some (q, rp) → zp < 2 ^ 62 → rp < 2 ^ 62 →
  validateEndpointPortsDontCollide c = Ok tt ↔ ¬ collide (DPSize c) zp rp.
Proof.
  intros Hn Hz Hr Bz Br. pose proof (ParseEndpointPort_range _ _ _ Hz). pose proof (ParseEndpointPort_range _ _ _ Hr). unfold validateEndpointPortsDontCollide.
  assert (ZMQEndpoint c ≠ ""%string ∧ KVEventsReplayEndpoint c ≠ ""%string) as [N1 N2] by (split; intros E; rewrite E in *; done).
  rewrite !bool_decide_eq_false_2 by done. cbn [orb]. rewrite Hz, Hr. rewrite !i64_small by lia.
  destruct (Z.leb_spec zp (rp + (DPSize c - 1))), (Z.leb_spec rp (zp + (DPSize c - 1))); cbn [andb]; split; try done.
  - intros Hc. exfalso. apply Hc. destruct (decide (zp ≤ rp)); [exists (rp - zp), 0|exists 0, (zp - rp)]; lia.
  - intros _ (i & j & ? & ? & ?). lia.
  - intros _ (i & j & ? & ? & ?). lia.
  - intros _ (i & j & ? & ? & ?). lia.
Qed.

(** The endpoint of a rank. *)
Lemma rank_endpoint c i e p port :
  Rank c < 0 → 0 ≤ i < 8 → ParseEndpointPort e = Some (p, port) → port < 2 ^ 62 →
  ParseEndpointPort (if (0 <? (if 0 <=? Rank c then Rank c else i)) && negb (bool_decide (e = ""%string)) then OffsetEndpointPort e (if 0 <=? Rank c then Rank c else i) else e) = Some (p, port + i).
Proof.
  intros Hr Hi He Hp. pose proof (ParseEndpointPort_range _ _ _ He). destruct (Z.leb_spec 0 (Rank c)); [lia|].
  assert (e ≠ ""%string) as Hne by (intros ->; done). rewrite bool_decide_eq_false_2 by done. destruct (Z.ltb_spec 0 i); cbn.
  - apply offset_port; [done|lia].
  - assert (i = 0) as -> by lia. by rewrite Z.add_0_r.
Qed.

(** ** Validation leaves a fixed point *)

Definition OrderOk (rng : gmap string Z → list (string * Z)) : Prop := ∀ m, rng m ≡ₚ map_to_list m.

Lemma validateReasons_ok entries : FakeMetrics.validateReasons entries = Ok tt ↔ ∀ reason count, (reason, count) ∈ entries → 0 ≤ count ∧ reason ∈ FakeMetrics.requiredFinishReasons.
Proof.
  induction entries as [|[r n] entries IH]; cbn [FakeMetrics.validateReasons]; [split; [intros _ ? ? []%not_elem_of_nil|done]|].
  destruct (Z.ltb_spec n 0); [split; [done|intros H'; specialize (H' r n ltac:(by left)); lia]|].
  destruct (bool_decide_reflect (r ∈ FakeMetrics.requiredFinishReasons)); cbn [negb]; [|split; [done|intros H'; by destruct (H' r n ltac:(by left))]].
  rewrite IH. split; [|by intros H' ? ? ?; apply H'; right]. intros H' r' n' [[= -> ->]|Hin]%elem_of_cons; [done|by apply H'].
Qed.

(** The totals after the missing reasons were added. *)
Lemma required_lookup m reason v :
  FakeMetrics.withRequiredReasons m !! reason = Some v ↔ m !! reason = Some v ∨ (m !! reason = None ∧ reason ∈ FakeMetrics.requiredFinishReasons ∧ v = 0).
Proof.
  unfold FakeMetrics.withRequiredReasons. generalize FakeMetrics.requiredFinishReasons as l. intros l. revert m. induction l as [|r l IH]; intros m; cbn [foldl].
  - split; [by left|]. intros [?|(_ & []%not_elem_of_nil & _)]; done.
  - rewrite IH. destruct (m !! r) as [w|] eqn:Er.
    + split; [intros [?|(? & ? & ?)]; [by left|right; split_and!; [done|by right|done]]|]. intros [?|(Hn & [->|?]%elem_of_cons & ->)]; [by left|congruence|by right].
    + destruct (decide (r = reason)) as [->|Hne].
      * rewrite lookup_insert_eq. split; [intros [[= <-]|(? & _)]; [right; split_and!; [done|by left|done]|done]|]. intros [?|(_ & _ & ->)]; [congruence|by left].
      * rewrite lookup_insert_ne by done. split; [intros [?|(? & ? & ?)]; [by left|right; split_and!; [done|by right|done]]|].
        intros [?|(Hn & [->|?]%elem_of_cons & ->)]; [by left|done|by right].
Qed.

Lemma required_idem m : FakeMetrics.withRequiredReasons (FakeMetrics.withRequiredReasons m) = FakeMetrics.withRequiredReasons m.
Proof.
  apply map_eq. intros r. apply option_eq. intros v. rewrite !required_lookup. split; [|tauto]. intros [?|(Hn & Hr & ->)]; [done|].
  destruct (m !! r) as [w|] eqn:E; [exfalso|by right]. assert (FakeMetrics.withRequiredReasons m !! r = Some w) as Hw by (apply required_lookup; by left). congruence.
Qed.

Lemma reasons_again rng rng' m :
  OrderOk rng → OrderOk rng' → FakeMetrics.validateReasons (rng m) = Ok tt → FakeMetrics.validateReasons (rng' (FakeMetrics.withRequiredReasons m)) = Ok tt.
Proof.
  intros Ho Ho'. rewrite !validateReasons_ok. intros H r n Hin. rewrite (Ho' _) in Hin. apply elem_of_map_to_list, required_lookup in Hin as [Hm|(_ & Hr & ->)]; [|done].
  apply H. rewrite (Ho m). by apply elem_of_map_to_list.
Qed.

Section Again.
Import FakeMetrics.

Lemma totals_again rng rng' (o o' : option (gmap string Z)) :
  OrderOk rng → OrderOk rng' →
  match o with None => Ok None | Some m => let! _ := validateReasons (rng m) in Ok (Some (withRequiredReasons m)) end = Ok o' →
  match o' with None => Ok None | Some m => let! _ := validateReasons (rng' m) in Ok (Some (withRequiredReasons m)) end = Ok o'.
Proof.
  intros Ho Ho' H. destruct o as [m|]; [|by injection H as <-]. destruct (validateReasons (rng m)) as [[]|] eqn:Er; [|done]. cbn [res_bind] in H. injection H as <-.
  rewrite (reasons_again rng rng' m Ho Ho' Er). cbn [res_bind]. by rewrite required_idem.
Qed.

Lemma values_again rng rng' f f' :
  OrderOk rng → OrderOk rng' → validateValues rng f = Ok f' → ∃ t, f' = set_RequestSuccessTotal t f ∧ validateValues rng' f' = Ok f'.
Proof.
  intros Ho Ho' H. unfold validateValues in *. destruct (boundedArray _ _ TTFTBucketsBoundaries _) as [[]|] eqn:F1; [|done]. cbn [res_bind] in H.
  destruct (boundedArray _ _ TPOTBucketsBoundaries _) as [[]|] eqn:F2; [|done]. cbn [res_bind] in H.
  destruct (match RequestSuccessTotal f with None => _ | Some m => _ end) as [t|] eqn:Et; [|done]. cbn [res_bind] in H.
  destruct (validateArrays f) as [[]|] eqn:F3; [|done]. cbn [res_bind] in H. destruct (validatePrefixCache f) as [[]|] eqn:F4; [|done]. cbn [res_bind] in H. injection H as <-. exists t. split; [done|].
  change (TTFTBucketValues (set_RequestSuccessTotal t f)) with (TTFTBucketValues f). change (TPOTBucketValues (set_RequestSuccessTotal t f)) with (TPOTBucketValues f).
  change (RequestSuccessTotal (set_RequestSuccessTotal t f)) with t. change (validateArrays (set_RequestSuccessTotal t f)) with (validateArrays f).
  change (validatePrefixCache (set_RequestSuccessTotal t f)) with (validatePrefixCache f). rewrite F1, F2, (totals_again rng rng' _ t Ho Ho' Et), F3, F4. done.
Qed.

Lemma fakes_again rng rng' f f' : OrderOk rng → OrderOk rng' → validate rng f = Some (Ok f') → validate rng' f' = Some (Ok f').
Proof.
  intros Ho Ho' H. unfold validate in *. destruct (fixedBelow (RunningRequests f) || fixedBelow (WaitingRequests f)) eqn:E0; [done|].
  destruct (match KVCacheUsagePercentage f with Some m => outsideUnit (FixedValue m) | None => false end) eqn:E1; [done|].
  destruct (onMetric (RunningRequests f) _) as [[]|] eqn:E2; [|done]. destruct (onMetric (WaitingRequests f) _) as [[]|] eqn:E3; [|done].
  destruct (match KVCacheUsagePercentage f with None => Some (Ok tt) | Some m => validateKVUsage m end) as [[[]|e]|] eqn:E4; [|done|done]. cbn [mbind option_bind res_bind] in H. injection H as H.
  destruct (values_again rng rng' f f' Ho Ho' H) as (t & -> & Hv).
  change (RunningRequests (set_RequestSuccessTotal t f)) with (RunningRequests f). change (WaitingRequests (set_RequestSuccessTotal t f)) with (WaitingRequests f).
  change (KVCacheUsagePercentage (set_RequestSuccessTotal t f)) with (KVCacheUsagePercentage f). rewrite E0, E1, E2, E3, E4. cbn [mbind option_bind res_bind]. by rewrite Hv.
Qed.
End Again.

Lemma passed_again rng rng' c c' : OrderOk rng → OrderOk rng' → Passed rng c c' → Passed rng' c' c'.
Proof.
  intros Ho Ho' [H1 H2 H3 H4 H5 H6 H7 H8 H9]. remember (fakeMetrics c') as fakes eqn:Ef. 
  assert (validateFakes rng' c' = Some (Ok fakes)) as Hf.
  { unfold validateFakes in *. rewrite <- Ef. destruct (fakeMetrics c) as [f|]; [|by injection H3 as <-]. destruct (FakeMetrics.validate rng f) as [[f'|]|] eqn:Ev; [|done|done]. cbn in H3.
    destruct (FakeMetricsRefreshInterval c <=? 0) eqn:Ei; [done|]. injection H3 as <-. rewrite (fakes_again rng rng' f f' Ho Ho' Ev). cbn. rewrite H9. cbn. by rewrite Ei. }
  subst c'. split; try done.
  - cbn [MaxCPULoras MaxLoras normalized]. set (x := if MaxCPULoras c =? 0 then MaxLoras c else MaxCPULoras c) in *.
    replace (if x =? 0 then MaxLoras c else x) with x; [exact H2|]. destruct (Z.eqb_spec x 0) as [E|]; [|done]. unfold x in *. by destruct (MaxCPULoras c =? 0) eqn:E'; [|lia].
  - cbn [MaxCPULoras MaxLoras normalized ServedModelNames Model fakeMetrics]. set (x := if MaxCPULoras c =? 0 then MaxLoras c else MaxCPULoras c) in *.
    assert ((if x =? 0 then MaxLoras c else x) = x) as ->; [destruct (Z.eqb_spec x 0) as [E|]; [|done]; unfold x in *; by destruct (MaxCPULoras c =? 0) eqn:E'; [|lia]|].
    destruct (ServedModelNames c); done.
Qed.

(** ** An example: the defaults with a model and a replay endpoint *)

Definition latency_ex : Latencies.Config := Latencies.mkConfig "" 0 0 0 0 0 0 0 0 0 0 0 0 0 (f_of_Z 1) 5.
Definition moe_ex : Moe.Configuration :=
  Moe.mkConfiguration false 8 60 80 4 24 "split" false (f_const 8 10) 2048 1408 2 (f_of_Z (312 * 10 ^ 12)) (f_of_Z (2 * 10 ^ 12)) (f_of_Z (400 * 10 ^ 9)) 5000.
Definition config_with (size rank replayPort : Z) (threshold : f64) : Configuration :=
  mkConfiguration 8000 "m" "" [] 1 0 1000 1024 [] "random" "" latency_ex 100 0 (f_of_Z 100) f_zero 5 1 50 50 45 16 1024 16 "tcp://127.0.0.1:5557"
    ("tcp://127.0.0.1:" +:+ pretty replayPort) 1024 0 [] 0 None (100 * millisecond) size rank moe_ex "" "" false "" "" threshold 384 4.
Definition config_ex : Configuration := config_with 4 (-1) 5561 f_zero.
Definition config_ok : Configuration := normalized ["m"%string] "m" 1 None config_ex.

Lemma config_ex_valid : validate map_to_list config_ex = Some (Ok config_ok).
Proof. vm_compute. reflexivity. Qed.

(** * Theorems *)

(** The ports of the ranks of one process: with an accepted configuration whose
    endpoints have ports, rank [i] serves on [port + i], publishes on [zmq + i] and
    replays on [replay + i], with the hosts unchanged; so no two ranks share a port of
    one kind, and no publishing port is a replay port of any rank. *)
Theorem ranks_do_not_collide rng c0 c p zp q rp i j :
  validate rng c0 = Some (Ok c) → Rank c < 0 → 0 ≤ i < DPSize c → 0 ≤ j < DPSize c → Port c < 2 ^ 62 →
  ParseEndpointPort (ZMQEndpoint c) = Some (p, zp) → ParseEndpointPort (KVEventsReplayEndpoint c) = Some (q, rp) → zp < 2 ^ 62 → rp < 2 ^ 62 →
  rankConfigs c !! Z.to_nat i = Some (rankConfig c i) ∧ Port (rankConfig c i) = Port c + i ∧
  ParseEndpointPort (ZMQEndpoint (rankConfig c i)) = Some (p, zp + i) ∧ ParseEndpointPort (KVEventsReplayEndpoint (rankConfig c i)) = Some (q, rp + i) ∧
  zp + i ≠ rp + j.
Proof.
  intros Hv Hr Hi Hj Hp Hz Hq Bz Bq. apply validate_passed in Hv. destruct Hv as [_ He _ Hsize _ _ Hports _ Hres]. revert Hres. generalize (fakeMetrics c) as fakes. intros fakes ->. cbn [Rank DPSize Port ZMQEndpoint KVEventsReplayEndpoint normalized] in Hr, Hi, Hj, Hp, Hz, Hq.
  assert (0 < Port c0) as Hport.
  { apply Forall_app in He as [He _]. apply Forall_cons in He as [_ He]. apply Forall_cons in He as [He _]. cbn in He. lia. }
  split_and!.
  - unfold rankConfigs, rankCount. cbn [Rank DPSize normalized]. destruct (Z.leb_spec 0 (Rank c0)); [lia|]. rewrite list_lookup_fmap, lookup_seqZ_lt by lia. cbn. do 2 f_equal. lia.
  - cbn. destruct (Z.ltb_spec 0 i); [rewrite i64_small; lia|lia].
  - cbn [rankConfig placed ZMQEndpoint normalized Rank]. apply (rank_endpoint c0); [done|lia|done|done].
  - cbn [rankConfig placed KVEventsReplayEndpoint normalized Rank]. apply (rank_endpoint c0); [done|lia|done|done].
  - intros E. apply (ports_exact c0 zp rp p q) in Hports; [|done..]. apply Hports. by exists i, j.
Qed.

Lemma ranks_do_not_collide_witness :
  ∃ p q, ParseEndpointPort (ZMQEndpoint (rankConfig config_ok 3)) = Some (p, 5560) ∧ ParseEndpointPort (KVEventsReplayEndpoint (rankConfig config_ok 3)) = Some (q, 5564).
Proof.
  destruct (ranks_do_not_collide map_to_list config_ex config_ok "tcp://127.0.0.1:" 5557 "tcp://127.0.0.1:" 5561 3 3) as (_ & _ & H1 & H2 & _).
  - exact config_ex_valid.
  - vm_compute. reflexivity.
  - vm_compute. split; congruence.
  - vm_compute. split; congruence.
  - vm_compute. reflexivity.
  - vm_compute. reflexivity.
  - vm_compute. reflexivity.
  - vm_compute. reflexivity.
  - vm_compute. reflexivity.
  - exists "tcp://127.0.0.1:"%string, "tcp://127.0.0.1:"%string. split; [exact H1|exact H2].
Defined.

(** The check of the ports is exact: it refuses a configuration exactly when some
    rank would publish on the port on which some rank would replay. *)
Theorem ports_check_exact c zp rp p q :
  1 ≤ DPSize c ≤ 8 → ParseEndpointPort (ZMQEndpoint c) = Some (p, zp) → ParseEndpointPort (KVEventsReplayEndpoint c) = Some (q, rp) → zp < 2 ^ 62 → rp < 2 ^ 62 →
  validateEndpointPortsDontCollide c = Ok tt ↔ ¬ ∃ i j, 0 ≤ i < DPSize c ∧ 0 ≤ j < DPSize c ∧ zp + i = rp + j.
Proof. intros H1 H2 H3 H4 H5. exact (ports_exact c zp rp p q H1 H2 H3 H4 H5). Qed.

Lemma ports_check_exact_witness : ¬ validateEndpointPortsDontCollide (config_with 5 (-1) 5561 f_zero) = Ok tt.
Proof.
  intros H. apply (ports_check_exact (config_with 5 (-1) 5561 f_zero) 5557 5561 "tcp://127.0.0.1:" "tcp://127.0.0.1:") in H.
  - apply H. exists 4, 0. vm_compute. repeat split; congruence.
  - vm_compute. split; congruence.
  - vm_compute. reflexivity.
  - vm_compute. reflexivity.
  - vm_compute. reflexivity.
  - vm_compute. reflexivity.
Defined.

(** C29: an accepted configuration satisfies what follows, and is accepted again, unchanged
    (the defaults that validation fills in are final, whatever order the maps are
    walked in): the displayed name is the first served one, the latency calculator is
    known, the four base times are nonnegative, there is at least one worker, one LoRA
    slot and one token of context, no more LoRA slots than CPU slots, a known block size,
    a failure rate between 0 and 100 with known types, 1 to 8 ranks, and the checks of
    the MoE part pass. That is not all the components need: validation does not see that
    the expert slots are divisible among the GPUs ([MoeProps.validated_config_panics])
    nor that the totals of fake metrics are nonnegative
    ([MetricsProps.negative_total_panics]). *)
Theorem validated_config_ready rng rng' c0 c g :
  OrderOk rng → OrderOk rng' → validate rng c0 = Some (Ok c) →
  head (ServedModelNames c) = Some (DisplayModelName c) ∧ is_Some (Latencies.rebuildLatencyCalculator g (latency c)) ∧
  (0 ≤ Latencies.InterTokenLatency (latency c) ∧ 0 ≤ Latencies.TimeToFirstToken (latency c) ∧ 0 ≤ Latencies.KVCacheTransferLatency (latency c) ∧ 0 ≤ Latencies.PrefillOverhead (latency c)) ∧
  1 ≤ Latencies.MaxNumSeqs (latency c) ∧ 1 ≤ MaxLoras c ≤ MaxCPULoras c ∧ 1 ≤ MaxModelLen c ∧ TokenBlockSize c ∈ [8; 16; 32; 64; 128] ∧ 0 ≤ FailureInjectionRate c ≤ 100 ∧
  (∀ ft, ft ∈ FailureTypes c → ft ∈ failureTypes) ∧ 1 ≤ DPSize c ≤ 8 ∧ Moe.validateMoE (moe c) = Ok tt ∧ validate rng' c = Some (Ok c).
Proof.
  intros Ho Ho' Hv. apply validate_passed in Hv as Hp. assert (validate rng' c = Some (Ok c)) as Hagain by (apply validate_passed; by apply (passed_again rng rng' c0)).
  destruct Hp as [_ He _ Hsize Hmoe _ _ Hfin Hres]. revert Hres. generalize (fakeMetrics c) as fakes. intros fakes ->. rewrite !Forall_app in He. destruct He as (_ & Hl & Hm & _ & _ & Hc & Hft). cbn [latency DisplayModelName ServedModelNames normalized MaxLoras MaxCPULoras MaxModelLen TokenBlockSize FailureInjectionRate FailureTypes DPSize moe].
  unfold latencyChecks, limitChecks, cacheChecks, finalChecks in *. repeat rewrite Forall_cons in *. cbn [fst refuse] in *. unfold outside in *. rewrite ?orb_false_iff, ?negb_false_iff in *.
  destruct Hl as (L1 & _ & _ & L4 & _ & _ & _ & _ & _ & L10 & _ & _ & _ & _ & L15 & _). destruct Hm as (M1 & M2 & M3 & M4 & _). destruct Hc as (C1 & _ & _ & _ & C5 & _). destruct Hfin as (_ & _ & _ & _ & F5 & _).
  split_and!; try lia; try done.
  - by destruct (ServedModelNames c0).
  - unfold Latencies.rebuildLatencyCalculator. rewrite !andb_false_iff, !negb_false_iff, !bool_decide_eq_true in F5. destruct F5 as [[-> | ->]| ->]; cbn; eauto.
  - by apply bool_decide_eq_true in C1.
  - intros ft Hin. unfold failureChecks in Hft. rewrite Forall_fmap, Forall_forall in Hft. specialize (Hft ft Hin). cbn in Hft. rewrite negb_false_iff in Hft. by apply bool_decide_eq_true in Hft.
Qed.

Lemma validated_config_ready_witness : head (ServedModelNames config_ok) = Some "m"%string ∧ validate map_to_list config_ok = Some (Ok config_ok).
Proof.
  destruct (validated_config_ready map_to_list map_to_list config_ex config_ok generator_ex (λ m, reflexivity _) (λ m, reflexivity _) config_ex_valid) as (H1 & _ & _ & _ & _ & _ & _ & _ & _ & _ & _ & H).
  split; [exact H1|exact H].
Defined.

(** ** Admin updates *)

(** The latency fields but for the image times, which no calculator holds. *)
Definition sameCalculator (l l' : Latencies.Config) : Prop :=
  ∃ a b, l' = Latencies.mkConfig (Latencies.LatencyCalculator l) (Latencies.InterTokenLatency l) (Latencies.InterTokenLatencyStdDev l) (Latencies.TimeToFirstToken l) (Latencies.TimeToFirstTokenStdDev l)
    (Latencies.KVCacheTransferLatency l) (Latencies.KVCacheTransferLatencyStdDev l) (Latencies.KVCacheTransferTimePerToken l) (Latencies.KVCacheTransferTimeStdDev l)
    (Latencies.PrefillOverhead l) (Latencies.PrefillTimePerToken l) (Latencies.PrefillTimeStdDev l) a b (Latencies.TimeFactorUnderLoad l) (Latencies.MaxNumSeqs l).

Lemma same_rebuild g l l' : sameCalculator l l' → Latencies.rebuildLatencyCalculator g l' = Latencies.rebuildLatencyCalculator g l.
Proof. by intros (a & b & ->). Qed.

Lemma checkKeys_latency keys changed : checkKeys keys = Ok changed → changed = false → ∀ key, key ∈ keys → rebuildTag key ≠ Some true.
Proof.
  unfold checkKeys. assert (∀ acc changed, foldl (λ acc key, let! changed := acc in match rebuildTag key with None => Err ("field '" +:+ key +:+ "' is not admin-configurable") | Some tag => Ok (changed || tag) end) acc keys = Ok changed →
    changed = false → acc = Ok false ∧ ∀ key, key ∈ keys → rebuildTag key ≠ Some true) as H; [|intros H1 H2; by apply (H (Ok false) changed)].
  induction keys as [|key keys IH]; intros acc ch Hf Hch; [subst; by split; [|intros ? []%not_elem_of_nil]|]. cbn [foldl] in Hf. destruct (IH _ _ Hf Hch) as [Ha Hk].
  destruct acc as [b|]; [|done]. cbn [res_bind] in Ha. destruct (rebuildTag key) as [tag|] eqn:E; [|done]. injection Ha as Ha. apply orb_false_iff in Ha as [-> ->].
  split; [done|]. intros k [->|Hin]%elem_of_cons; [congruence|by apply Hk].
Qed.

Section Updates.
Context {Body : Type}.
Variables (g : generator) (rng : gmap string Z → list (string * Z)) (keysOf : Body → result string (list string)) (overlay : Body → Configuration → result string Configuration).
Variables (fakesOf : Body → option FakeMetrics.FakeMetrics) (showFakes : FakeMetrics.FakeMetrics → Configuration → option string).

(** Decoding a body over a configuration keeps the fields it does not name. *)
Definition OverlayOk : Prop :=
  ∀ body keys c next, keysOf body = Ok keys → overlay body c = Ok next → (∀ key, key ∈ keys → rebuildTag key ≠ Some true) → sameCalculator (latency c) (latency next).

(** The calculator in use is the one of the configuration, which is valid. *)
Definition Fresh (s : SimContext) : Prop :=
  calculator s = Latencies.rebuildLatencyCalculator g (latency (config s)) ∧ validate rng (config s) = Some (Ok (config s)).

Definition updated (s s' : SimContext) : Prop := ∃ body, ApplyConfigUpdate g rng keysOf overlay fakesOf showFakes body s = Some (Ok s').

Lemma update_fresh s s' : OrderOk rng → OverlayOk → Fresh s → updated s s' → Fresh s'.
Proof.
  intros Ho Hov [Hc _] [body H]. unfold ApplyConfigUpdate, Update in H.
  destruct (keysOf body) as [keys|] eqn:Ek; [|done]. cbn [res_bind] in H. destruct (checkKeys keys) as [changed|] eqn:Ec; [|done]. cbn [res_bind] in H.
  destruct (overlay body (config s)) as [next|] eqn:Eo; [|done]. cbn [res_bind] in H. destruct (validate rng next) as [[c|]|] eqn:Ev; [|done|done]. cbn [mbind option_bind res_bind] in H. injection H as H.
  destruct (match fakesOf body with None => _ | Some u => _ end) as [[]|] in H; [|done]. cbn [res_bind] in H. injection H as <-. cbn [fst snd].
  apply validate_passed in Ev as Hp. assert (latency c = latency next) as Hlat.
  { destruct Hp as [_ _ _ _ _ _ _ _ Hres]. revert Hres. generalize (fakeMetrics c) as fakes. by intros fakes ->. }
  split; cbn [calculator config].
  - destruct changed; [done|]. rewrite Hc, Hlat. symmetry. apply same_rebuild. apply (Hov body keys _ next Ek Eo). by eapply checkKeys_latency.
  - apply validate_passed. by apply (passed_again rng rng next).
Qed.

End Updates.

(** Over any sequence of successful admin updates the configuration stays valid and
    the latency calculator in use is the one its current fields describe (in particular
    there is one), although it is rebuilt only when a field marked for it is named. *)
Theorem updates_keep_calculator_fresh {Body} g rng (keysOf : Body → result string (list string)) overlay fakesOf showFakes s s' :
  OrderOk rng → OverlayOk keysOf overlay → Fresh g rng s → rtc (updated g rng keysOf overlay fakesOf showFakes) s s' →
  calculator s' = Latencies.rebuildLatencyCalculator g (latency (config s')) ∧ validate rng (config s') = Some (Ok (config s')) ∧ is_Some (calculator s').
Proof.
  intros Ho Hov Hs Hr. assert (Fresh g rng s') as [H1 H2] by (induction Hr as [|s s1 s' Hu Hr IH]; [done|apply IH; by eapply update_fresh]).
  split_and!; [done|done|]. rewrite H1. apply validate_passed in H2 as [_ _ _ _ _ _ _ Hfin _]. unfold finalChecks in Hfin. repeat rewrite Forall_cons in Hfin. destruct Hfin as (_ & _ & _ & _ & F5 & _).
  cbn [fst refuse] in F5. rewrite !andb_false_iff, !negb_false_iff, !bool_decide_eq_true in F5. unfold Latencies.rebuildLatencyCalculator. destruct F5 as [[-> | ->]| ->]; cbn; eauto.
Qed.

(** An update of the time to first token. *)
Definition withTTFT (t : Z) (c : Configuration) : Configuration :=
  mkConfiguration (Port c) (Model c) (DisplayModelName c) (ServedModelNames c) (MaxLoras c) (MaxCPULoras c) (MaxWaitingQueueLength c) (MaxModelLen c) (LoraModules c) (Mode c) (HashSeed c)
    (Latencies.mkConfig "" 0 0 t 0 0 0 0 0 0 0 0 0 0 (f_of_Z 1) 5)
    (MaxToolCallIntegerParam c) (MinToolCallIntegerParam c) (MaxToolCallNumberParam c) (MinToolCallNumberParam c) (MaxToolCallArrayParamLength c) (MinToolCallArrayParamLength c)
    (ToolCallNotRequiredParamProbability c) (ObjectToolCallNotRequiredParamProbability c) (ToolCallExtraCallProbability c)
    (TokenBlockSize c) (KVCacheSize c) (EventBatchSize c) (ZMQEndpoint c) (KVEventsReplayEndpoint c) (KVEventsReplayQueueSize c)
    (FailureInjectionRate c) (FailureTypes c) (ImageEmissionRate c) (fakeMetrics c) (FakeMetricsRefreshInterval c) (DPSize c) (Rank c) (moe c)
    (SSLCertFile c) (SSLKeyFile c) (SelfSignedCerts c) (DatasetPath c) (DatasetURL c) (GlobalCacheHitThreshold c) (DefaultEmbeddingDimensions c) (MaxRequestBodySizeMB c).
Definition sim_ex (c : Configuration) : SimContext := mkSim c (Latencies.rebuildLatencyCalculator generator_ex (latency c)).

Lemma updates_keep_calculator_fresh_witness :
  calculator (sim_ex (withTTFT 7 config_ok)) = Latencies.rebuildLatencyCalculator generator_ex (latency (withTTFT 7 config_ok)).
Proof.
  apply (updates_keep_calculator_fresh generator_ex map_to_list (λ _ : Z, Ok ["time-to-first-token"%string]) (λ t c, Ok (withTTFT t c)) (λ _, None) (λ _ _, None) (sim_ex config_ok) (sim_ex (withTTFT 7 config_ok))).
  - intros m. reflexivity.
  - intros body keys c next [= <-] _ H. exfalso. apply (H "time-to-first-token"%string); [by left|reflexivity].
  - split; [reflexivity|]. vm_compute. reflexivity.
  - apply rtc_once. exists 7. unfold ApplyConfigUpdate, Update. assert (validate map_to_list (withTTFT 7 config_ok) = Some (Ok (withTTFT 7 config_ok))) as E by (vm_compute; reflexivity).
    cbn [config sim_ex res_bind checkKeys foldl]. change (rebuildTag "time-to-first-token") with (Some true). cbn [res_bind orb]. rewrite E. reflexivity.
Defined.

(** * Command line *)

(** The cache-hit threshold of a configuration file is lost: registering the flag
    assigns its default 0, so without the flag the result has threshold 0, whatever the
    file says. *)
Theorem file_threshold_lost rng newConfig load parseFlags env unmarshalLora unmarshalFakes args c :
  (∀ c0 c' changed, parseFlags args c0 = Ok (c', changed) → GlobalCacheHitThreshold c' = GlobalCacheHitThreshold c0) →
  ParseCommandParamsAndLoadConfig rng newConfig load parseFlags env unmarshalLora unmarshalFakes args = Some (Ok c) →
  GlobalCacheHitThreshold c = f_zero.
Proof.
  intros Hflags H. unfold ParseCommandParamsAndLoadConfig in H. destruct (match getParamValueFromArgs "config" args with Some _ => _ | None => _ end) as [c1|]; [|done].
  destruct (parseFlags args (registerFlags c1)) as [[c2 changed]|] eqn:Ep; [|done]. destruct (match getParamValueFromArgs "lora-modules" args with Some _ => _ | None => _ end) as [loras|]; [|done].
  destruct (fakesFrom unmarshalFakes args c2) as [[fakes|]|]; [|done|done]. cbn [mbind option_bind] in H. apply validate_passed in H as [_ _ _ _ _ _ _ _ Hres].
  revert Hres. generalize (fakeMetrics c) as fk. intros fk ->. cbn [GlobalCacheHitThreshold normalized merged]. by rewrite (Hflags _ _ _ Ep).
Qed.

(** A file with the threshold 0.5, and no flag. *)
Definition file_ex : string → Configuration → result string Configuration := λ _ _, Ok (config_with 4 (-1) 5561 (f_const 1 2)).
Definition parse_ex : option (result string Configuration) :=
  ParseCommandParamsAndLoadConfig map_to_list config_ex file_ex (λ _ c, Ok (c, λ _, false)) (λ _, ""%string) (λ _, Err ""%string) (λ _, Err ""%string) ["--config"; "f.yaml"]%string.

Lemma file_threshold_lost_witness : ∃ c, parse_ex = Some (Ok c) ∧ GlobalCacheHitThreshold c = f_zero.
Proof.
  destruct parse_ex as [[c|e]|] eqn:E; [|vm_compute in E; discriminate E|vm_compute in E; discriminate E]. exists c. split; [reflexivity|].
  apply (file_threshold_lost map_to_list config_ex file_ex (λ _ c, Ok (c, λ _, false)) (λ _, ""%string) (λ _, Err ""%string) (λ _, Err ""%string) ["--config"; "f.yaml"]%string c).
  - intros c0 c' changed [= -> _]. reflexivity.
  - exact E.
Defined.

(** A flag [--fake-metrics] without a value panics, although flags without values are allowed for it. *)
Theorem empty_fake_metrics_panics rng newConfig parseFlags env unmarshalLora unmarshalFakes load args before after c changed :
  args = before ++ ["--fake-metrics"%string] ++ after → (∀ a, a ∈ before → a ≠ "--fake-metrics"%string ∧ String.prefix "--fake-metrics=" a = false) → readValues after = [] →
  getParamValueFromArgs "config" args = None → getParamValueFromArgs "lora-modules" args = None → parseFlags args (registerFlags newConfig) = Ok (c, changed) →
  ParseCommandParamsAndLoadConfig rng newConfig load parseFlags env unmarshalLora unmarshalFakes args = None.
Proof.
  intros -> Hb Ha Hc Hl Hp. unfold ParseCommandParamsAndLoadConfig. rewrite Hc, Hp, Hl. unfold fakesFrom.
  assert (getParamValueFromArgs "fake-metrics" (before ++ ["--fake-metrics"%string] ++ after) = Some []) as ->; [|done]. clear Hc Hl Hp. induction before as [|a before IH].
  - cbn [app getParamValueFromArgs]. change ("--" +:+ "fake-metrics") with "--fake-metrics"%string. by rewrite String.eqb_refl, Ha.
  - destruct (Hb a ltac:(by left)) as [H1 H2]. cbn [app getParamValueFromArgs]. change ("--" +:+ "fake-metrics") with "--fake-metrics"%string. change ("--" +:+ "fake-metrics" +:+ "=") with "--fake-metrics="%string.
    destruct (String.eqb_spec a "--fake-metrics"); [done|]. rewrite H2. apply IH. intros a' Ha'. apply Hb. by right.
Qed.

(** Two processes with a fixed rank each, and the data-parallel size left at 1, are both
    accepted although one publishes on the port on which the other replays. *)
Example fixed_ranks_collide :
  is_Some (validate map_to_list (config_with 1 0 5558 f_zero)) ∧ is_ok (default (Err ""%string) (validate map_to_list (config_with 1 1 5558 f_zero))) = true ∧
  is_ok (default (Err ""%string) (validate map_to_list (config_with 1 0 5558 f_zero))) = true ∧
  ZMQEndpoint (rankConfig (config_with 1 1 5558 f_zero) 0) = KVEventsReplayEndpoint (rankConfig (config_with 1 0 5558 f_zero) 0).
Proof. vm_compute. eauto. Qed.

End ConfigProps.
