(* ===== verification/MetricsRegistry.v ===== *)
(** The collectors of a rank and their registry ([pkg/simulator/metrics.go]): what
    [createAndRegisterPrometheus] creates at startup, and that every later replacement
    of a collector finds the registry as it needs it.  The registry is Prometheus's: it
    refuses a collector only when one of the same name is registered. *)

From S2P Require Import Prelude GoFloat GoFloatInt Latencies FakeMetrics Metrics MetricsProps Config ConfigProps.
Import FakeMetrics Metrics.
Open Scope Z_scope.

Module MetricsRegistry.

(** * Collectors *)

Inductive vecKind := GaugeVec | CounterVec | HistogramVec (buckets : list f64).
Record collector := mkCollector { vecName : string; kind : vecKind; labelNames : list string }.

Definition PromLabelModelName : string := "model_name".
Definition PromLabelFinishReason : string := "finish_reason".
Definition perModel (name : string) (k : vecKind) : collector := mkCollector ("vllm:" +:+ name) k [PromLabelModelName].

Section Collectors.
Variable MaxModelLen : Z.
Let buckets : list f64 := modelBuckets MaxModelLen.

Definition loraInfoVec : collector := mkCollector "vllm:lora_requests_info" GaugeVec ["max_lora"; "running_lora_adapters"; "waiting_lora_adapters"]%string.
Definition runningRequestsVec : collector := perModel "num_requests_running" GaugeVec.
Definition waitingRequestsVec : collector := perModel "num_requests_waiting" GaugeVec.
Definition kvCacheUsageVec : collector := perModel "kv_cache_usage_perc" GaugeVec.
Definition ttftVec : collector := perModel "time_to_first_token_seconds" (HistogramVec TTFTBucketsBoundaries).
Definition tpotVec : collector := perModel "time_per_output_token_seconds" (HistogramVec TPOTBucketsBoundaries).
Definition interTokenLatencyVec : collector := perModel "inter_token_latency_seconds" (HistogramVec TPOTBucketsBoundaries).
Definition e2eReqLatencyVec : collector := perModel "e2e_request_latency_seconds" (HistogramVec RequestLatencyBucketsBoundaries).
Definition reqQueueTimeVec : collector := perModel "request_queue_time_seconds" (HistogramVec RequestLatencyBucketsBoundaries).
Definition reqInferenceTimeVec : collector := perModel "request_inference_time_seconds" (HistogramVec RequestLatencyBucketsBoundaries).
Definition reqPrefillTimeVec : collector := perModel "request_prefill_time_seconds" (HistogramVec RequestLatencyBucketsBoundaries).
Definition reqDecodeTimeVec : collector := perModel "request_decode_time_seconds" (HistogramVec RequestLatencyBucketsBoundaries).
Definition reqTpotVec : collector := perModel "request_time_per_output_token_seconds" (HistogramVec TPOTBucketsBoundaries).
Definition requestPromptTokensVec : collector := perModel "request_prompt_tokens" (HistogramVec buckets).
Definition promptTokensTotalVec : collector := perModel "prompt_tokens_total" CounterVec.
Definition requestGenerationTokensVec : collector := perModel "request_generation_tokens" (HistogramVec buckets).
Definition generationTokensTotalVec : collector := perModel "generation_tokens_total" CounterVec.
Definition requestParamsMaxTokensVec : collector := perModel "request_params_max_tokens" (HistogramVec buckets).
Definition maxNumGenerationTokensVec : collector := perModel "max_num_generation_tokens" (HistogramVec buckets).
Definition requestSuccessTotalVec : collector := mkCollector "vllm:request_success_total" CounterVec [PromLabelModelName; PromLabelFinishReason].
Definition prefixCacheHitsTotalVec : collector := perModel "prefix_cache_hits_total" CounterVec.
Definition prefixCacheQueriesTotalVec : collector := perModel "prefix_cache_queries_total" CounterVec.
Definition cacheConfigVec : collector := mkCollector "vllm:cache_config_info" GaugeVec ["block_size"; "num_gpu_blocks"]%string.

(** The collector a field holds. *)
Definition collectorOf (m : metric) : collector :=
  match m with
  | loraInfo => loraInfoVec | runningRequests => runningRequestsVec | waitingRequests => waitingRequestsVec | kvCacheUsagePercentage => kvCacheUsageVec
  | ttft => ttftVec | tpot => tpotVec | interTokenLatency => interTokenLatencyVec | e2eReqLatency => e2eReqLatencyVec | reqQueueTime => reqQueueTimeVec
  | reqInferenceTime => reqInferenceTimeVec | reqPrefillTime => reqPrefillTimeVec | reqDecodeTime => reqDecodeTimeVec | reqTpot => reqTpotVec
  | requestPromptTokens => requestPromptTokensVec | requestGenerationTokens => requestGenerationTokensVec | promptTokensTotal => promptTokensTotalVec
  | generationTokensTotal => generationTokensTotalVec | maxNumGenerationTokens => maxNumGenerationTokensVec | requestParamsMaxTokens => requestParamsMaxTokensVec
  | requestSuccessTotal => requestSuccessTotalVec | prefixCacheHitsTotal => prefixCacheHitsTotalVec | prefixCacheQueriesTotal => prefixCacheQueriesTotalVec
  | cacheConfig => cacheConfigVec
  end.

End Collectors.

(** * Startup *)

(** A channel, by its capacity. *)
Record Channel := mkChannel { channelName : string; capacity : Z }.

Section Startup.
Variable c : Config.Configuration.
Variable now : f64.
Variable Sin : f64 → f64.
Variable register : list call → metric → option string.
Variable rangeOrder : gmap string Z → list (string * Z).
(** The largest channel that can be allocated. *)
Variable maxChan : Z.

Definition maxNumberOfRequests : Z := i64 (i64 (Latencies.MaxNumSeqs (Config.latency c) + Config.MaxWaitingQueueLength c) * 2).
Definition maxNumberOfRunningRequests : Z := i64 (Latencies.MaxNumSeqs (Config.latency c) * 2).
Definition maxNumberOfWaitingRequests : Z := i64 (Config.MaxWaitingQueueLength c * 2).

Definition lorasChan : Channel := mkChannel "metrics.lorasChan" maxNumberOfRequests.
Definition running (name : string) : Channel := mkChannel ("metrics." +:+ name) maxNumberOfRunningRequests.
Definition waiting (name : string) : Channel := mkChannel ("metrics." +:+ name) maxNumberOfWaitingRequests.
Definition tpotChan : Channel := mkChannel "metrics.tpotChan" (i64 (maxNumberOfRunningRequests * Config.MaxModelLen c)).

(** [make(chan T, n)] panics when the size is negative or too large. *)
Definition makeChan (ch : Channel) : action := λ s, if (capacity ch <? 0) || (maxChan <? capacity ch) then Panicked else Done s.
Local Open Scope action_scope.

Definition createAndRegisterPrometheus : action :=
  create register loraInfo >>> makeChan lorasChan >>>
  create register runningRequests >>> makeChan (running "runReqChan") >>>
  create register waitingRequests >>> makeChan (waiting "waitingReqChan") >>>
  create register ttft >>> makeChan (running "ttftChan") >>>
  createAll register [tpot; interTokenLatency] >>> makeChan tpotChan >>>
  create register e2eReqLatency >>> makeChan (running "e2eReqLatencyChan") >>>
  create register reqQueueTime >>> makeChan (waiting "reqQueueTimeChan") >>>
  create register reqInferenceTime >>> makeChan (running "reqInferenceTimeChan") >>>
  create register reqPrefillTime >>> makeChan (running "reqPrefillTimeChan") >>>
  create register reqDecodeTime >>> makeChan (running "reqDecodeTimeChan") >>>
  create register reqTpot >>> makeChan (running "reqTpotChan") >>>
  create register kvCacheUsagePercentage >>> makeChan (running "kvCacheUsageChan") >>>
  create register prefixCacheHitsTotal >>> create register prefixCacheQueriesTotal >>> makeChan (running "prefixCacheStatsChan") >>>
  create register requestPromptTokens >>> create register promptTokensTotal >>> create register maxNumGenerationTokens >>> create register requestGenerationTokens >>>
  create register requestParamsMaxTokens >>> create register generationTokensTotal >>> create register requestSuccessTotal >>> makeChan (running "requestSuccessChan") >>>
  create register cacheConfig >>>
  setInitialPrometheusMetrics (Config.DisplayModelName c) (Config.MaxLoras c) (Config.MaxModelLen c) now Sin register rangeOrder
    (Config.TokenBlockSize c) (Config.KVCacheSize c) (Config.fakeMetrics c).

End Startup.

(** * The registry *)

(** The collectors registered after a sequence of calls. *)
Definition registeredStep (r : list metric) (x : call) : list metric :=
  match x with Register m => m :: r | Unregister m => filter (λ m', m' ≠ m) r | _ => r end.
Definition registered (l : list call) : list metric := foldl registeredStep [] l.

Definition allMetrics : list metric :=
  [loraInfo; runningRequests; waitingRequests; kvCacheUsagePercentage; ttft; tpot; interTokenLatency; e2eReqLatency; reqQueueTime; reqInferenceTime; reqPrefillTime; reqDecodeTime;
   reqTpot; requestPromptTokens; requestGenerationTokens; promptTokensTotal; generationTokensTotal; maxNumGenerationTokens; requestParamsMaxTokens; requestSuccessTotal;
   prefixCacheHitsTotal; prefixCacheQueriesTotal; cacheConfig].

(** A decidable fact about concrete collectors. *)

Lemma all_metrics m : m ∈ allMetrics.
Proof. destruct m; by_decision. Qed.

Section Registry.
Variable MaxModelLen : Z.

(** No two fields hold collectors of one name. *)
Lemma collector_names_inj m m' : vecName (collectorOf MaxModelLen m) = vecName (collectorOf MaxModelLen m') → m = m'.
Proof. destruct m, m'; intros [=]; done. Qed.

(** The documented registry: a name that is not taken is accepted. *)
Definition RegistryOk (register : list call → metric → option string) : Prop :=
  ∀ l m, (∀ m', m' ∈ registered l → vecName (collectorOf MaxModelLen m') ≠ vecName (collectorOf MaxModelLen m)) → register l m = None.

(** A call that the collector takes: of its kind, with a value for each of its labels,
    and for a counter an increment that is not negative. *)
Definition CallOk (x : call) : Prop :=
  match x with
  | Register _ | Unregister _ => True
  | Observe m labels _ => length labels = length (labelNames (collectorOf MaxModelLen m)) ∧ ∃ b, kind (collectorOf MaxModelLen m) = HistogramVec b
  | Add m labels value => length labels = length (labelNames (collectorOf MaxModelLen m)) ∧ kind (collectorOf MaxModelLen m) = CounterVec ∧ flt value f_zero = false
  | SetGauge m labels _ => length labels = length (labelNames (collectorOf MaxModelLen m)) ∧ kind (collectorOf MaxModelLen m) = GaugeVec
  end.

(** The collectors in [r] are registered, each once, and all calls so far are taken. *)
Definition Holds (r : list metric) (s : metricsData) : Prop := registered (calls s) ≡ₚ r ∧ NoDup r ∧ Forall CallOk (calls s).

(** An action that succeeds and takes the registered collectors from [r] to [r']. *)
Definition Moves (r r' : list metric) (a : action) : Prop := ∀ s, Holds r s → ∃ s', a s = Done s' ∧ Holds r' s'.

Lemma Moves_andThen r1 r2 r3 a b : Moves r1 r2 a → Moves r2 r3 b → Moves r1 r3 (andThen a b).
Proof. intros Ha Hb s Hs. destruct (Ha s Hs) as (s' & E & Hs'). unfold andThen. rewrite E. by apply Hb. Qed.
Lemma Moves_perm r r1 r2 a : r1 ≡ₚ r2 → Moves r r1 a → Moves r r2 a.
Proof. intros Hp Ha s Hs. destruct (Ha s Hs) as (s' & E & H1 & H2 & H3). exists s'. split; [done|]. split; [by rewrite H1|]. by rewrite <- Hp. Qed.
Lemma Moves_skip r : Moves r r skip.
Proof. intros s Hs. by exists s. Qed.

Lemma registered_app l l' : registered (l ++ l') = foldl registeredStep (registered l) l'.
Proof. unfold registered. by rewrite foldl_app. Qed.

(** A call on a value leaves the registry as it is. *)
Definition isValue (x : call) : Prop := match x with Register _ | Unregister _ => False | _ => True end.
Lemma registered_values r l : Forall isValue l → foldl registeredStep r l = r.
Proof. revert r. induction l as [|x l IH]; intros r; [done|]. intros [Hx Hl]%Forall_cons. cbn. destruct x; try done; by apply IH. Qed.

Definition ValuesOk (l : list call) : Prop := Forall (λ x, isValue x ∧ CallOk x) l.
Lemma Holds_values r l s : ValuesOk l → Holds r s → Holds r (emit l s).
Proof.
  intros Hl (H1 & H2 & H3). apply Forall_and in Hl as [Hv Hc]. split; [|split; [done|]].
  - cbn. by rewrite registered_app, registered_values.
  - cbn. by apply Forall_app.
Qed.
Lemma ValuesOk_adds l : ValuesOk l → MetricsProps.AddsOk l.
Proof. intros Hl. eapply Forall_impl; [exact Hl|]. intros x [_ Hx]. destruct x; try done. by destruct Hx as (_ & _ & ?). Qed.
Lemma Moves_values r l : ValuesOk l → Moves r r (calling l).
Proof. intros Hl s Hs. exists (emit l s). split; [by apply MetricsProps.calling_ok, ValuesOk_adds|]. by apply Holds_values. Qed.

Variable register : list call → metric → option string.
Context (Hreg : RegistryOk register).

Lemma Moves_create r m : m ∉ r → Moves r (m :: r) (create register m).
Proof using Hreg.
  intros Hm s (H1 & H2 & H3). unfold create. rewrite Hreg.
  - eexists. split; [done|]. split; [|split; [by constructor|]]; cbn.
    + rewrite registered_app. cbn. by rewrite H1.
    + apply Forall_app. split; [done|]. by repeat constructor.
  - intros m' Hin E. apply collector_names_inj in E as ->. by rewrite H1 in Hin.
Qed.

Lemma Moves_createAll r ms : NoDup ms → (∀ m, m ∈ ms → m ∉ r) → Moves r (ms ++ r) (createAll register ms).
Proof using Hreg.
  revert r. induction ms as [|m ms IH]; intros r Hnd Hdis; [apply Moves_skip|]. apply NoDup_cons in Hnd as [Hm Hnd]. unfold createAll. cbn [foldr].
  eapply Moves_andThen; [apply Moves_create, Hdis; by left|]. eapply Moves_perm; [|apply IH; [done|]]; [cbn; by rewrite Permutation_middle|].
  intros m' Hin Hr. apply elem_of_cons in Hr as [->|Hr]; [done|]. eapply Hdis; [by right|done].
Qed.

Lemma registered_unregister ms r : foldl registeredStep r (Unregister <$> ms) = filter (λ m, m ∉ ms) r.
Proof.
  revert r. induction ms as [|m ms IH]; intros r; cbn; [symmetry; apply list_filter_all; by intros ? _; apply not_elem_of_nil|].
  rewrite IH, list_filter_filter. apply list_filter_iff. intros x. rewrite not_elem_of_cons. tauto.
Qed.

(** Replacing collectors keeps all of them registered. *)
Lemma Moves_recreate had ms r : NoDup ms → (∀ m, m ∈ ms → m ∈ r) → NoDup r → Moves r r (recreate register had ms).
Proof using Hreg.
  intros Hnd Hin Hr. destruct had; [|apply Moves_skip]. unfold recreate. apply (Moves_andThen _ (filter (λ m, m ∉ ms) r)).
  - intros s (H1 & H2 & H3). eexists. split; [apply MetricsProps.calling_ok, MetricsProps.AddsOk_unregister|]. split; [|split]; cbn.
    + rewrite registered_app, registered_unregister. by rewrite H1.
    + by apply NoDup_filter.
    + apply Forall_app. split; [done|]. apply Forall_fmap, Forall_forall. done.
  - eapply Moves_perm; [|apply Moves_createAll; [done|]]; [|intros m Hm [Hn _]%list_elem_of_filter; done].
    rewrite <- (filter_app_complement (λ m, m ∉ ms) r) at 2. rewrite Permutation_app_comm. apply Permutation_app_head. apply NoDup_Permutation; [done|by apply NoDup_filter|].
    intros m. rewrite list_elem_of_filter. split; [intros Hm; split; [tauto|auto]|]. intros [Hm _]. destruct (decide (m ∈ ms)); tauto.
Qed.

(** ** Updates of the fake metrics *)

Variables (display : string) (maxLoras : Z) (now : f64) (Sin : f64 → f64) (rangeOrder : gmap string Z → list (string * Z)).

Lemma ValuesOk_app l l' : ValuesOk l → ValuesOk l' → ValuesOk (l ++ l').
Proof. intros. by apply Forall_app. Qed.
Lemma histogram_values m boundaries counts :
  (∃ b, kind (collectorOf MaxModelLen m) = HistogramVec b) → length (labelNames (collectorOf MaxModelLen m)) = 1%nat → ValuesOk (initFakeHistogram [display] m boundaries counts).1.
Proof.
  intros Hk Hl. unfold initFakeHistogram. destruct (_ || _); [constructor|]. cbn [fst]. apply Forall_concat, Forall_forall. intros l Hin.
  apply elem_of_lookup_imap in Hin as (i & x & -> & _). by apply Forall_replicate.
Qed.

Lemma Moves_histogram r ms boundaries new old :
  NoDup ms → (∀ m, m ∈ ms → m ∈ r) → NoDup r → Forall (λ m, (∃ b, kind (collectorOf MaxModelLen m) = HistogramVec b) ∧ length (labelNames (collectorOf MaxModelLen m)) = 1%nat) ms →
  Moves r r (updateHistogram display register ms boundaries new old).
Proof using Hreg.
  intros Hnd Hin Hr Hms. destruct new as [counts|]; [|apply Moves_skip]. unfold updateHistogram. eapply Moves_andThen; [by apply Moves_recreate|]. apply Moves_values, Forall_concat, Forall_fmap.
  eapply Forall_impl; [exact Hms|]. intros m [H1 H2]. by apply histogram_values.
Qed.

Lemma Moves_tokens r hist counter newHist oldHist newTotal oldTotal :
  MetricsProps.TokenTotalOk MaxModelLen newHist newTotal → hist ∈ r → counter ∈ r → NoDup r → (∃ b, kind (collectorOf MaxModelLen hist) = HistogramVec b) → length (labelNames (collectorOf MaxModelLen hist)) = 1%nat →
  kind (collectorOf MaxModelLen counter) = CounterVec → length (labelNames (collectorOf MaxModelLen counter)) = 1%nat →
  Moves r r (updateTokenMetrics display register hist counter (modelBuckets MaxModelLen) newHist oldHist newTotal oldTotal).
Proof using Hreg.
  intros Ht Hh Hc Hr K1 K2 K3 K4. unfold updateTokenMetrics. eapply Moves_andThen.
  { apply Moves_histogram; [apply NoDup_singleton|by intros m ->%list_elem_of_singleton|done|by repeat constructor]. }
  destruct (_ && _); [apply Moves_skip|]. eapply Moves_andThen; [apply Moves_recreate; [apply NoDup_singleton|by intros m ->%list_elem_of_singleton|done]|].
  match goal with |- Moves _ _ match ?x with Some _ => _ | None => _ end => destruct x as [t|] eqn:E; [|apply Moves_skip] end.
  apply MetricsProps.TokenTotalOk_total in E; [|done]. apply Moves_values. repeat constructor; [done..|]. by apply f_of_Z_not_negative.
Qed.

Lemma Moves_counter r m new old :
  (∀ n, new = Some n → 0 ≤ n) →
  m ∈ r → NoDup r → kind (collectorOf MaxModelLen m) = CounterVec → length (labelNames (collectorOf MaxModelLen m)) = 1%nat → Moves r r (setCounter display register m new old).
Proof using Hreg.
  intros Hn Hm Hr K1 K2. destruct new; [|apply Moves_skip]. unfold setCounter. eapply Moves_andThen; [apply Moves_recreate; [apply NoDup_singleton|by intros ? ->%list_elem_of_singleton|done]|].
  apply Moves_values. repeat constructor; [done..|]. by apply f_of_Z_not_negative, Hn.
Qed.

Lemma Moves_success r new old :
  (∀ totals x, new = Some totals → x ∈ rangeOrder totals → 0 ≤ x.2) → requestSuccessTotal ∈ r → NoDup r → Moves r r (updateSuccess display register rangeOrder new old).
Proof using Hreg.
  intros Hn Hm Hr. destruct new as [totals|]; [|apply Moves_skip]. unfold updateSuccess. eapply Moves_andThen; [apply Moves_recreate; [apply NoDup_singleton|by intros ? ->%list_elem_of_singleton|done]|].
  apply Moves_values, Forall_fmap, Forall_forall. intros x Hx. repeat split. by eapply f_of_Z_not_negative, Hn.
Qed.

Lemma Moves_loras r new : loraInfo ∈ r → NoDup r → Moves r r (updateLoras maxLoras now register new).
Proof using Hreg.
  intros Hm Hr. destruct new as [loras|]; [|apply Moves_skip]. unfold updateLoras. eapply Moves_andThen; [apply Moves_recreate; [apply NoDup_singleton|by intros ? ->%list_elem_of_singleton|done]|].
  apply Moves_values. destruct loras as [|l loras]; [by repeat constructor|]. apply Forall_fmap, Forall_forall. done.
Qed.

Lemma Moves_ticker r b : Moves r r (updateTicker b).
Proof. intros s Hs. unfold updateTicker. repeat case_match; eexists; (split; [done|]); exact Hs. Qed.

Lemma Moves_set r fm m channel round :
  (∀ f, fm = Some f → MetricsProps.Showable f) → kind (collectorOf MaxModelLen m) = GaugeVec → length (labelNames (collectorOf MaxModelLen m)) = 1%nat →
  Moves r r (setOptional display Sin fm m channel round).
Proof.
  intros Hs K1 K2 s Hr. pose proof (MetricsProps.Safe_set display Sin fm m channel round Hs s) as Hsafe. destruct fm as [f|]; [|by exists s]. cbn [setOptional] in *.
  assert (∀ v s0, calls s0 = calls s → Holds r (emit [SetGauge m [display] v] s0)) as Hv.
  { intros v s0 E. apply Holds_values; [by repeat constructor|]. unfold Holds in *. by rewrite E. }
  unfold setFakeMetricWithFunction in *. repeat case_match; try done; eexists; (split; [done|]); by apply Hv.
Qed.

Lemma all_metrics_nodup : NoDup allMetrics.
Proof. by_decision. Qed.

Lemma Moves_update update old :
  MetricsProps.ShowableAll update → MetricsProps.TotalsOk MaxModelLen rangeOrder update → Moves allMetrics allMetrics (updateFakeMetrics display maxLoras MaxModelLen now Sin register rangeOrder update old).
Proof using Hreg.
  intros Hs [T1 T2 T3 T4 T5] s. unfold updateFakeMetrics. revert s. intros s. unfold MetricsProps.ShowableAll in Hs. pose proof all_metrics_nodup as Hnd.
  match goal with |- Holds _ s → ∃ s', ?a s = _ ∧ _ => assert (Moves allMetrics allMetrics a) as Ha; [|apply Ha] end.
  repeat (eapply Moves_andThen;
    [first [eapply Moves_set; [by auto|done|done]
           |apply Moves_histogram; [by_decision|intros; apply all_metrics|done|repeat constructor; by eexists]
           |apply Moves_tokens; [by auto|apply all_metrics|apply all_metrics|done|by eexists|done|done|done]
           |apply Moves_counter; [by auto|apply all_metrics|done|done|done]
           |apply Moves_success; [by auto|apply all_metrics|done]
           |apply Moves_loras; [apply all_metrics|done]]|]).
  apply Moves_ticker.
Qed.

(** ** Messages *)

(** A latency is for one of the histograms that have a channel of their own, and the
    numbers of tokens are numbers of tokens. *)
Definition MessageOk (m : message) : Prop :=
  match m with
  | Latency m _ => m ∈ [ttft; e2eReqLatency; reqQueueTime; reqInferenceTime; reqPrefillTime; reqDecodeTime; reqTpot]
  | PrefixStats queried cached => 0 ≤ queried ∧ 0 ≤ cached
  | RequestSuccess e => 0 ≤ promptTokens e ∧ 0 ≤ generationTokens e
  | _ => True
  end.

Lemma Holds_calls r s s' : calls s' = calls s → Holds r s → Holds r s'.
Proof. intros E (H1 & H2 & H3). unfold Holds. by rewrite E. Qed.

Lemma Holds_handle r fake rangeKeys m s : MessageOk m → Holds r s → Holds r (handle fake display maxLoras now rangeKeys m s).
Proof.
  intros Hm Hs. destruct m as [u|u|u|q k|m v|v|name st|e]; cbn [handle].
  - unfold waitingRequestsUpdater. destruct (negb _); [done|]. apply Holds_values; [by repeat constructor|]. by eapply Holds_calls; [|exact Hs].
  - unfold runningRequestsUpdater. destruct (negb _); [done|]. apply Holds_values; [by repeat constructor|]. by eapply Holds_calls; [|exact Hs].
  - unfold kvCacheUsageUpdater. destruct (Bool.eqb _ _); [|done]. apply Holds_values; [by repeat constructor|done].
  - unfold reportPrefixCacheStats. destruct fake; [done|]. apply Holds_values; [|done]. destruct Hm. repeat constructor; by apply f_of_Z_not_negative.
  - unfold reportHistogramValue. destruct fake; [done|]. apply Holds_values; [|done]. repeat constructor; cbn in Hm; set_unfold in Hm; destruct_or!; subst; try done; by eexists.
  - unfold reportHistogramValue. destruct fake; [done|]. apply Holds_values; [by repeat constructor; eexists|]. apply Holds_values; [by repeat constructor; eexists|done].
  - unfold lorasUpdater, reportLoras. destruct fake; [by destruct st; (eapply Holds_calls; [|exact Hs])|]. apply Holds_values; [by repeat constructor|]. by destruct st; (eapply Holds_calls; [|exact Hs]).
  - unfold recordRequestMetricsOnSuccess. apply Holds_values; [|done]. destruct Hm. repeat apply ValuesOk_app; [repeat constructor; by first [eexists|apply f_of_Z_not_negative]|destruct (maxTokens e); repeat constructor; by eexists|by repeat constructor|].
    destruct (MaxIntSlice _); repeat constructor; by eexists.
Qed.

(** What happens to a rank: a message reaches its updater, or the fake metrics are updated. *)
Inductive event := Message (m : message) | FakeUpdate (update : FakeMetrics) (old : option FakeMetrics).
Definition EventOk (e : event) : Prop :=
  match e with Message m => MessageOk m | FakeUpdate u _ => MetricsProps.ShowableAll u ∧ MetricsProps.TotalsOk MaxModelLen rangeOrder u end.
Definition handleEvent (fake : bool) (rangeKeys : gmap string Z → list string) (e : event) : action :=
  match e with
  | Message m => handling fake display maxLoras now rangeKeys m
  | FakeUpdate u old => updateFakeMetrics display maxLoras MaxModelLen now Sin register rangeOrder u old
  end.
Definition handleEvents (fake : bool) (rangeKeys : gmap string Z → list string) (es : list event) : action := foldr (λ e a, andThen (handleEvent fake rangeKeys e) a) skip es.

Lemma Moves_events fake rangeKeys es : Forall EventOk es → Moves allMetrics allMetrics (handleEvents fake rangeKeys es).
Proof using Hreg.
  induction 1 as [|e es He _ IH]; [apply Moves_skip|]. unfold handleEvents. cbn [foldr]. eapply Moves_andThen; [|exact IH]. destruct e as [m|u old]; cbn [handleEvent]; [|by apply Moves_update; apply He].
  intros s Hs. pose proof (Holds_handle _ fake rangeKeys m s He Hs) as Hs'. eexists. split; [|exact Hs']. unfold handling. cbv zeta.
  rewrite MetricsProps.AddsOk_calls; [done|]. apply Forall_drop. destruct Hs' as (_ & _ & Hc). eapply Forall_impl; [exact Hc|].
  intros x Hx. destruct x; try done. by destruct Hx as (_ & _ & ?).
Qed.

End Registry.

(** ** Startup *)

Lemma Moves_chan c0 limit ch r : 0 ≤ capacity ch ≤ limit → Moves c0 r r (makeChan limit ch).
Proof. intros Hc s Hs. exists s. split; [|done]. unfold makeChan. destruct (Z.ltb_spec (capacity ch) 0); [lia|]. by destruct (Z.ltb_spec limit (capacity ch)); [lia|]. Qed.

Lemma Moves_initial c register now Sin rangeOrder :
  RegistryOk (Config.MaxModelLen c) register → (∀ f, Config.fakeMetrics c = Some f → MetricsProps.ShowableAll f ∧ MetricsProps.TotalsOk (Config.MaxModelLen c) rangeOrder f) →
  Moves (Config.MaxModelLen c) allMetrics allMetrics (setInitialPrometheusMetrics (Config.DisplayModelName c) (Config.MaxLoras c) (Config.MaxModelLen c) now Sin register rangeOrder
    (Config.TokenBlockSize c) (Config.KVCacheSize c) (Config.fakeMetrics c)).
Proof.
  intros Hreg Hf. unfold setInitialPrometheusMetrics. eapply Moves_andThen; [apply Moves_values; by repeat constructor|].
  destruct (Config.fakeMetrics c) as [f|]; [|apply Moves_values; by repeat constructor]. intros s Hs. destruct (Hf f eq_refl) as [Hf1 Hf2]. apply Moves_update; [done|done|by destruct Hf2|]. by eapply Holds_calls; [|exact Hs].
Qed.

(** The sizes that startup computes. *)
Record SizesOk (c : Config.Configuration) (limit : Z) : Prop := mkSizes {
  so_seqs : 0 ≤ Latencies.MaxNumSeqs (Config.latency c); so_queue : 0 ≤ Config.MaxWaitingQueueLength c; so_len : 0 ≤ Config.MaxModelLen c;
  so_all : (Latencies.MaxNumSeqs (Config.latency c) + Config.MaxWaitingQueueLength c) * 2 ≤ limit;
  so_tokens : Latencies.MaxNumSeqs (Config.latency c) * 2 * Config.MaxModelLen c ≤ limit; so_limit : limit < 2 ^ 62
}.

Lemma sizes_ok c limit : SizesOk c limit →
  0 ≤ capacity (lorasChan c) ≤ limit ∧ 0 ≤ capacity (tpotChan c) ≤ limit ∧ (∀ n, 0 ≤ capacity (running c n) ≤ limit) ∧ (∀ n, 0 ≤ capacity (waiting c n) ≤ limit).
Proof.
  intros [H1 H2 H3 H4 H5 H6]. unfold lorasChan, tpotChan, running, waiting, maxNumberOfRequests, maxNumberOfRunningRequests, maxNumberOfWaitingRequests. cbn [capacity].
  rewrite !i64_small by (rewrite ?i64_small; nia). split_and!; intros; nia.
Qed.

Lemma Moves_startup c register now Sin rangeOrder limit :
  RegistryOk (Config.MaxModelLen c) register → SizesOk c limit → (∀ f, Config.fakeMetrics c = Some f → MetricsProps.ShowableAll f ∧ MetricsProps.TotalsOk (Config.MaxModelLen c) rangeOrder f) →
  Moves (Config.MaxModelLen c) [] allMetrics (createAndRegisterPrometheus c now Sin register rangeOrder limit).
Proof.
  intros Hreg Hsz Hf. destruct (sizes_ok c limit Hsz) as (S1 & S2 & S3 & S4). unfold createAndRegisterPrometheus.
  repeat (eapply Moves_andThen; [first [apply Moves_chan; by auto|apply Moves_create; [done|by_decision]|apply Moves_createAll; [done|by_decision|apply Forall_forall; by_decision]]|]).
  intros s Hs. apply Moves_initial; [done|done|]. destruct Hs as (H1 & H2 & H3). split; [|split; [apply all_metrics_nodup|done]]. rewrite H1. apply NoDup_Permutation; [done|apply all_metrics_nodup|].
  intros m. split; [intros; apply all_metrics|]. intros _. destruct m; by_decision.
Qed.

(** The fake metrics of an accepted configuration can be shown. *)
Lemma validated_fakes ParseFloat ParseDuration rng c0 c f :
  (∀ f0, Config.fakeMetrics c0 = Some f0 → MetricsProps.ParsedAll ParseFloat ParseDuration f0) → Config.validate rng c0 = Some (Ok c) → Config.fakeMetrics c = Some f → MetricsProps.ShowableAll f.
Proof.
  intros Hp Hv Hf. apply ConfigProps.validate_passed in Hv as [_ _ Hv _ _ _ _ _ _]. rewrite Hf in Hv. unfold Config.validateFakes in Hv. destruct (Config.fakeMetrics c0) as [f0|]; [|done].
  destruct (Hp f0 eq_refl) as (P1 & P2 & P3). destruct (FakeMetrics.validate rng f0) as [[f1|]|] eqn:E; [|done|done]. cbn in Hv. destruct (_ <=? 0); [done|]. injection Hv as ->.
  destruct (MetricsProps.validate_metrics _ _ _ E) as [Hg [t ->]]. intros m H. cbn in H. eapply MetricsProps.validated_showable; [|by apply Hg].
  destruct H as [H|[H|H]]; [rewrite H in P1|rewrite H in P2|rewrite H in P3]; done.
Qed.

Lemma validated_sizes rng c0 c limit : Config.validate rng c0 = Some (Ok c) →
  (Latencies.MaxNumSeqs (Config.latency c) + Config.MaxWaitingQueueLength c) * 2 ≤ limit → Latencies.MaxNumSeqs (Config.latency c) * 2 * Config.MaxModelLen c ≤ limit → limit < 2 ^ 62 → SizesOk c limit.
Proof.
  intros Hv. apply ConfigProps.validate_passed in Hv as [_ He _ _ _ _ _ _ Hres]. revert Hres. generalize (Config.fakeMetrics c) as fakes. intros fakes ->. rewrite !Forall_app in He. destruct He as (_ & _ & Hl & _).
  unfold Config.limitChecks in Hl. repeat rewrite Forall_cons in Hl. cbn [fst Config.refuse] in Hl. destruct Hl as (_ & _ & H3 & H4 & H5 & _).
  intros. split; cbn [Config.latency Config.MaxWaitingQueueLength Config.MaxModelLen Config.normalized] in *; try done; lia.
Qed.

(** C27: with a registry that refuses only names that are taken, startup on an accepted
    configuration registers all 23 collectors, and after any sequence of metric messages
    and admin updates of the fake metrics every collector is still registered exactly
    once (a replacement never fails, nothing panics), and every call made on one was of
    its kind (observation, increment by a value that is not negative, gauge) with a value
    for each of its labels.  The conditions: the fake metrics were decoded by the JSON
    decoder; the totals they and the updates add to counters are not negative, which the
    validation does not ensure for the token totals (with a negative one the startup
    panics, [MetricsProps.negative_total_panics]); an update's generator functions are
    known and have a positive period; a message of a latency is for one of the seven
    histograms with a channel; and the channels that startup allocates are within [limit]. *)
Theorem metrics_registry_consistent ParseFloat ParseDuration rng c0 c now Sin register rangeOrder limit :
  Config.validate rng c0 = Some (Ok c) → (∀ f, Config.fakeMetrics c0 = Some f → MetricsProps.ParsedAll ParseFloat ParseDuration f) → RegistryOk (Config.MaxModelLen c) register →
  (∀ f, Config.fakeMetrics c = Some f → MetricsProps.TotalsOk (Config.MaxModelLen c) rangeOrder f) →
  (Latencies.MaxNumSeqs (Config.latency c) + Config.MaxWaitingQueueLength c) * 2 ≤ limit → Latencies.MaxNumSeqs (Config.latency c) * 2 * Config.MaxModelLen c ≤ limit → limit < 2 ^ 62 →
  ∃ s, createAndRegisterPrometheus c now Sin register rangeOrder limit MetricsProps.initial = Done s ∧
    ∀ fake rangeKeys es, Forall (EventOk (Config.MaxModelLen c) rangeOrder) es →
      ∃ s', handleEvents (Config.MaxModelLen c) register (Config.DisplayModelName c) (Config.MaxLoras c) now Sin rangeOrder fake rangeKeys es s = Done s' ∧
        registered (calls s') ≡ₚ allMetrics ∧ NoDup allMetrics ∧ Forall (CallOk (Config.MaxModelLen c)) (calls s').
Proof.
  intros Hv Hp Hreg Ht H1 H2 H3. destruct (Moves_startup c register now Sin rangeOrder limit Hreg) with (s := MetricsProps.initial) as (s & E & Hs).
  - by eapply validated_sizes.
  - intros f Hf. split; [by eapply validated_fakes|by apply Ht].
  - split; [done|split; [constructor|constructor]].
  - exists s. split; [done|]. intros fake rangeKeys es Hes.
    by apply (Moves_events (Config.MaxModelLen c) register Hreg (Config.DisplayModelName c) (Config.MaxLoras c) now Sin rangeOrder fake rangeKeys es Hes).
Qed.

(** A registry that keeps to the names. *)
Definition register_ex (l : list call) (m : metric) : option string :=
  if bool_decide (vecName (collectorOf 1024 m) ∈ (λ m', vecName (collectorOf 1024 m')) <$> registered l) then Some "duplicate metrics collector registration attempted"%string else None.

Lemma metrics_registry_consistent_witness :
  ∃ s, createAndRegisterPrometheus ConfigProps.config_ok f_zero (λ x, x) register_ex map_to_list (2 ^ 40) MetricsProps.initial = Done s.
Proof.
  destruct (metrics_registry_consistent MetricsProps.parseFloat_ex (λ _, Ok (5 * second)) map_to_list ConfigProps.config_ex ConfigProps.config_ok f_zero (λ x, x) register_ex map_to_list (2 ^ 40)) as (s & E & _).
  - exact ConfigProps.config_ex_valid.
  - intros f [=].
  - intros l m H. unfold register_ex. rewrite bool_decide_eq_false_2; [reflexivity|]. intros (m' & E & Hin)%list_elem_of_fmap. exact (H m' Hin (eq_sym E)).
  - intros f [=].
  - vm_compute. congruence.
  - vm_compute. congruence.
  - vm_compute. reflexivity.
  - exists s. exact E.
Defined.

End MetricsRegistry.
