(* ===== verification/Tools.v ===== *)
(** Tool calls: the generation of arguments from a tool's JSON schema and of the calls of
    a response ([pkg/simulator/tools_utils.go]).  The JSON encoder and the tokenizer are
    parameters, and so is the order in which a map is ranged over. *)

From stdpp Require Import pretty.
From S2P Require Import Prelude GoFloat GoRandom BlockCache Lora KVEvents Requests Dataset Config.
Import GoRandom Dataset.
Open Scope Z_scope.

Module Tools.

(** * Values *)

(** A decoded JSON value; an object is its fields, with distinct names. *)
Inductive json := JNull | JBool (b : bool) | JNum (x : f64) | JStr (s : string) | JArr (l : list json) | JObj (l : list (string * json)).

(** A generated value: an element of an enumeration is passed on as it is. *)
Inductive arg := AJson (j : json) | AStr (s : string) | AInt (z : Z) | AFloat (x : f64) | ABool (b : bool) | ANull | AArr (l : list arg) | AObj (l : list (string * arg)).

Fixpoint assoc {A} (key : string) (l : list (string * A)) : option A :=
  match l with [] => None | (k, v) :: l => if String.eqb k key then Some v else assoc key l end.

(** [property.(map[string]any)], a nil map for anything else. *)
Definition fieldsOf (p : json) : list (string * json) := match p with JObj l => l | _ => [] end.
Definition field (key : string) (p : json) : option json := assoc key (fieldsOf p).

Definition fakeStringArguments : list string := ["testing"; "hello"; "Boston"; "sunny"; "temperature"; "cloudy"; "question"; "Yorick"; "silence"; "lifetime"]%string.

Definition paramTypeNull : string := "null".

(** The first name in a union that is not null. *)
Fixpoint firstName (members : list json) : string :=
  match members with
  | [] => paramTypeNull
  | JStr name :: members => if String.eqb name paramTypeNull then firstName members else name
  | _ :: members => firstName members
  end.

(** The type of a parameter; [None] is a value that is not a string. *)
Definition resolveParamType (paramType : option json) : option string :=
  match paramType with
  | None | Some JNull => Some "string"%string
  | Some (JArr members) => Some (firstName members)
  | Some (JStr name) => Some name
  | Some _ => None
  end.

(** The cases of the generator. *)
Inductive paramKind := KString | KInteger | KNumber | KBoolean | KNull | KArray | KObject | KOther.
Definition kindOf (t : option string) : paramKind :=
  match t with
  | None => KOther
  | Some name =>
      if String.eqb name "string" then KString else if String.eqb name "integer" then KInteger else if String.eqb name "number" then KNumber
      else if String.eqb name "boolean" then KBoolean else if String.eqb name paramTypeNull then KNull else if String.eqb name "array" then KArray
      else if String.eqb name "object" then KObject else KOther
  end.

Definition getRequiredAsMap (p : json) : list string :=
  match field "required" p with Some (JArr l) => (λ j, match j with JStr s => s | _ => ""%string end) <$> l | _ => [] end.

Inductive toolError :=
| ErrMinItems (minItems maxItems : Z) | ErrUnsupported (paramType : option string) | ErrNoTools | ErrNotFound (name : string) | ErrMarshal (e : string) | ErrTokenize (e : string).

(** A drawing that may failing. *)
Definition fallible (A : Type) : Type := drawing (result toolError A).
Definition failing {A} (e : toolError) : fallible A := ret (Err e).
Definition succeed {A} (a : A) : fallible A := ret (Ok a).
Definition tryBind {A B} (m : fallible A) (f : A → fallible B) : fallible B := bind m (λ r, match r with Ok a => f a | Err e => failing e end).
Notation "x <-? m ; f" := (tryBind m (λ x, f)) (at level 100, m at next level, f at level 200, right associativity) : random_scope.

Record Tool := mkTool { toolName : string; Parameters : json }.
(** The forms of [tool_choice] the code tells apart. *)
Inductive ToolChoice := ChoiceOmitted | ChoiceAuto (value : string) | ChoiceFunction (name : string) | ChoiceOther.
Record ToolCall := mkCall { callName : string; callArguments : list (string * arg); argumentsJson : string; tokenizedArguments : Tokenized; callID : list Z; callIndex : Z }.

Definition isToolChoiceNone (c : ToolChoice) : bool := match c with ChoiceAuto v => bool_decide (v = "none"%string) | _ => false end.

Definition countTokensForToolCalls (calls : list ToolCall) : Z := foldl (λ n tc, n + (3 + Length (tokenizedArguments tc))) 0 calls.

(** * Arguments *)

Section Arguments.
Variable g : generator.
Variable c : Config.Configuration.
Variable rangeOrder : list (string * json) → list (string * json).
Local Open Scope random_scope.

Definition getStringArgument : drawing string := i <- RandomInt g 0 (Z.of_nat (length fakeStringArguments) - 1); index fakeStringArguments i.

(** A bound on the number of elements; anything but a number fails the type assertion. *)
Definition itemBound (key : string) (default : Z) (p : json) : drawing Z :=
  match field key p with None => ret default | Some (JNum x) => ret (f_to_int x) | Some _ => panic end.

Fixpoint elements (n : nat) (create : fallible arg) : fallible (list arg) :=
  match n with O => succeed [] | S n => elem <-? create; rest <-? elements n create; succeed (elem :: rest) end.

(** The fields that are required or drawn. *)
Fixpoint fields (probability : Z) (required : list string) (create : json → fallible arg) (l : list (string * json)) : fallible (list (string * arg)) :=
  match l with
  | [] => succeed []
  | (name, p) :: l =>
      taken <- (if bool_decide (name ∈ required) then ret true else RandomBool g probability);
      if taken : bool then value <-? create p; rest <-? fields probability required create l; succeed ((name, value) :: rest)
      else fields probability required create l
  end.

Definition enumOf (p : json) : option (list json) := match field "enum" p with Some (JArr ((_ :: _) as l)) => Some l | _ => None end.

Fixpoint createArgument (fuel : nat) (p : json) : fallible arg :=
  match fuel with
  | O => λ _, OutOfFuel
  | S fuel =>
      match enumOf p with
      | Some l => i <- RandomInt g 0 (Z.of_nat (length l) - 1); e <- index l i; succeed (AJson e)
      | None =>
          match kindOf (resolveParamType (field "type" p)) with
          | KString => s <- getStringArgument; succeed (AStr s)
          | KInteger => z <- RandomInt g (Config.MinToolCallIntegerParam c) (Config.MaxToolCallIntegerParam c); succeed (AInt z)
          | KNumber => x <- RandomFloat g (Config.MinToolCallNumberParam c) (Config.MaxToolCallNumberParam c); succeed (AFloat x)
          | KBoolean => b <- FlipCoin g; succeed (ABool b)
          | KNull => succeed ANull
          | KArray =>
              match field "items" p with
              | Some (JObj l) =>
                  minItems <- itemBound "minItems" (Config.MinToolCallArrayParamLength c) p;
                  maxItems <- itemBound "maxItems" (Config.MaxToolCallArrayParamLength c) p;
                  if maxItems <? minItems then failing (ErrMinItems minItems maxItems)
                  else
                    n <- RandomInt g minItems maxItems;
                    if n <? 0 then panic
                    else array <-? elements (Z.to_nat n) (createArgument fuel (JObj l)); succeed (AArr array)
              | _ => succeed (AArr [])
              end
          | KObject =>
              match field "properties" p with
              | Some (JObj l) => object <-? fields (Config.ObjectToolCallNotRequiredParamProbability c) (getRequiredAsMap p) (createArgument fuel) (rangeOrder l); succeed (AObj object)
              | _ => succeed (AObj [])
              end
          | KOther => failing (ErrUnsupported (resolveParamType (field "type" p)))
          end
      end
  end.

Definition generateToolArguments (fuel : nat) (t : Tool) : fallible (list (string * arg)) :=
  fields (Config.ToolCallNotRequiredParamProbability c) (getRequiredAsMap (Parameters t)) (createArgument fuel)
    (rangeOrder match field "properties" (Parameters t) with Some (JObj l) => l | _ => [] end).

(** * Calls *)

(** [json.Marshal] and the tokenizer. *)
Variable Marshal : list (string * arg) → result string string.
Variable RenderText : string → result string Tokenized.
Variable idPrefix : list Z.

(** One more call as long as the roll succeeds. *)
Fixpoint extraCalls (room : nat) (n : Z) : drawing Z :=
  match room with
  | O => ret n
  | S room => more <- RandomBool g (Config.ToolCallExtraCallProbability c); if more : bool then extraCalls room (n + 1) else ret n
  end.

Definition oneCall (fuel : nat) (tools : list Tool) (i : Z) : fallible ToolCall :=
  at_ <- (if (1 <? length tools)%nat then RandomInt g 0 (Z.of_nat (length tools) - 1) else ret 0);
  chosen <- index tools at_;
  args <-? generateToolArguments fuel chosen;
  match Marshal args with
  | Err e => failing (ErrMarshal e)
  | Ok argsJson =>
      match RenderText argsJson with
      | Err e => failing (ErrTokenize e)
      | Ok tokenized => id <- RandomNumericString g 10; succeed (mkCall (toolName chosen) args argsJson tokenized (idPrefix ++ id) i)
      end
  end.

Fixpoint someCalls (fuel : nat) (tools : list Tool) (n : nat) (i : Z) : fallible (list ToolCall) :=
  match n with O => succeed [] | S n => call <-? oneCall fuel tools i; rest <-? someCalls fuel tools n (i + 1); succeed (call :: rest) end.

Definition generateCalls (fuel : nat) (tools : list Tool) (minCalls : Z) : fallible (list ToolCall * Z) :=
  match tools with
  | [] => failing ErrNoTools
  | _ =>
      numberOfCalls <- extraCalls (Z.to_nat (Z.of_nat (length tools) - minCalls)) minCalls;
      calls <-? someCalls fuel tools (Z.to_nat numberOfCalls) 0;
      succeed (calls, countTokensForToolCalls calls)
  end.

Definition createToolCalls (fuel : nat) (tools : list Tool) (choice : ToolChoice) : fallible (list ToolCall * Z) :=
  match choice with
  | ChoiceFunction name =>
      match list_find (λ t, toolName t = name) tools with
      | None => failing (ErrNotFound name)
      | Some (_, target) => generateCalls fuel [target] 1
      end
  | ChoiceAuto value => generateCalls fuel tools (if String.eqb value "required" then 1 else 0)
  | _ => generateCalls fuel tools 0
  end.

(** At most one call. *)
Definition createSingleToolCall (fuel : nat) (tools : list Tool) (choice : ToolChoice) : fallible (list ToolCall * Z) :=
  r <-? createToolCalls fuel tools choice;
  match r.1 with (call :: _ :: _) => succeed ([call], countTokensForToolCalls [call]) | _ => succeed r end.

End Arguments.

End Tools.
