(* ===== verification/ToolsProps.v ===== *)
(** The calls that are generated fit the tools: the arguments conform to the schema. *)

From S2P Require Import Prelude GoFloat GoRandom BlockCache Lora KVEvents Requests Dataset FakeMetrics Config ConfigProps Tools.
Import GoRandom Dataset Tools.
Open Scope Z_scope.

Module ToolsProps.

(** * Schemas *)

(** The nesting of a value. *)
Fixpoint jdepth (j : json) : nat :=
  match j with
  | JArr l => S (foldr (λ x n, Nat.max (jdepth x) n) 0%nat l)
  | JObj l => S (foldr (λ x n, Nat.max (jdepth x.2) n) 0%nat l)
  | _ => 1
  end.

Lemma assoc_elem {A} key (l : list (string * A)) v : assoc key l = Some v → (key, v) ∈ l.
Proof. induction l as [|[k w] l IH]; [done|]. cbn. destruct (String.eqb_spec k key) as [->|]; [intros [= ->]; by left|intros ?; right; auto]. Qed.

Lemma depth_elem (l : list (string * json)) k q : (k, q) ∈ l → (jdepth q < jdepth (JObj l))%nat.
Proof. cbn. induction l as [|x l IH]; [by intros ?%not_elem_of_nil|]. intros [<-|Hin]%elem_of_cons; cbn; [lia|]. specialize (IH Hin). lia. Qed.

Lemma field_depth key p v : field key p = Some v → (jdepth v < jdepth p)%nat.
Proof. unfold field. intros H%assoc_elem. destruct p; cbn [fieldsOf] in H; try (by apply not_elem_of_nil in H). by eapply depth_elem. Qed.

(** The bounds that a schema sets: on the elements of an array, and on a number. *)
Definition BoundOk (p : json) (key : string) : Prop := ∀ v, field key p = Some v → ∃ x, v = JNum x ∧ 0 ≤ f_to_int x < 2 ^ 62.
Definition boundOf (key : string) (default : Z) (p : json) : Z := match field key p with Some (JNum x) => f_to_int x | _ => default end.
Definition Limits (p : json) (x : f64) : Prop :=
  (∀ y, field "minimum" p = Some (JNum y) → fle y x = true) ∧ (∀ y, field "maximum" p = Some (JNum y) → fle x y = true).

Section Conformance.
Variable c : Config.Configuration.

(** A schema that can be served, here and in the schemas of its parts. The validator of
    tools guarantees that the bounds on the elements of an array are nonnegative
    numbers. It does not guarantee the last three conditions, which the generator does
    not look at either: the integers of the configured range are within the limits of
    the schema, a number has no limits, and an array without an object for its
    elements may be empty. *)
Inductive Schema : json → Prop :=
| schema p :
    BoundOk p "minItems" → BoundOk p "maxItems" → (∀ l, enumOf p = Some l → Z.of_nat (length l) < 2 ^ 62) →
    (∀ l, field "items" p = Some (JObj l) → Schema (JObj l)) →
    (∀ l k q, field "properties" p = Some (JObj l) → (k, q) ∈ l → Schema q) →
    (kindOf (resolveParamType (field "type" p)) = KInteger → ∀ z, Config.MinToolCallIntegerParam c ≤ z ≤ Config.MaxToolCallIntegerParam c → Limits p (f_of_Z z)) →
    (kindOf (resolveParamType (field "type" p)) = KNumber → ∀ x, Limits p x) →
    (kindOf (resolveParamType (field "type" p)) = KArray → (∀ l, field "items" p ≠ Some (JObj l)) → boundOf "minItems" 0 p ≤ 0) → Schema p.

(** What a schema asks of a value: to be one of the enumeration; or to have the type (the
    first of a union other than null), within the limits of a number; the elements of
    an array as many as [minItems] and [maxItems] say, or as configured, each as
    [items] asks; the fields of an object among [properties], as they ask, with the
    [required] ones. The texts are free: [pattern], [format], [minLength] and
    [maxLength] are not looked at, nor the exclusive limits. *)
Inductive Conforms : json → arg → Prop :=
| conf_enum p l e : enumOf p = Some l → e ∈ l → Conforms p (AJson e)
| conf_string p s : kindOf (resolveParamType (field "type" p)) = KString → Conforms p (AStr s)
| conf_integer p z : kindOf (resolveParamType (field "type" p)) = KInteger → Config.MinToolCallIntegerParam c ≤ z ≤ Config.MaxToolCallIntegerParam c → Limits p (f_of_Z z) → Conforms p (AInt z)
| conf_number p x : kindOf (resolveParamType (field "type" p)) = KNumber → Limits p x → Conforms p (AFloat x)
| conf_boolean p b : kindOf (resolveParamType (field "type" p)) = KBoolean → Conforms p (ABool b)
| conf_null p : kindOf (resolveParamType (field "type" p)) = KNull → Conforms p ANull
| conf_empty p : kindOf (resolveParamType (field "type" p)) = KArray → (∀ l, field "items" p ≠ Some (JObj l)) → boundOf "minItems" 0 p ≤ 0 → Conforms p (AArr [])
| conf_array p items l :
    kindOf (resolveParamType (field "type" p)) = KArray → field "items" p = Some (JObj items) →
    boundOf "minItems" (Config.MinToolCallArrayParamLength c) p ≤ Z.of_nat (length l) ≤ boundOf "maxItems" (Config.MaxToolCallArrayParamLength c) p →
    (∀ a, a ∈ l → Conforms (JObj items) a) → Conforms p (AArr l)
| conf_nothing p : kindOf (resolveParamType (field "type" p)) = KObject → (∀ l, field "properties" p ≠ Some (JObj l)) → Conforms p (AObj [])
| conf_object p props l :
    kindOf (resolveParamType (field "type" p)) = KObject → field "properties" p = Some (JObj props) →
    (∀ k a, (k, a) ∈ l → ∃ q, (k, q) ∈ props ∧ Conforms q a) → (∀ k q, (k, q) ∈ props → k ∈ getRequiredAsMap p → k ∈ l.*1) → l.*1 ⊆+ props.*1 → Conforms p (AObj l).

(** The two reasons why no value is generated. *)
Definition Refused (e : toolError) : Prop := match e with ErrMinItems lo hi => hi < lo | ErrUnsupported t => kindOf t = KOther | _ => False end.

(** A drawing that returns a value with [P] or an error with [Q]. *)
Definition Gives {A} (m : fallible A) (P : A → Prop) (Q : toolError → Prop) : Prop :=
  ∀ k, match m k with Returns (Ok a) _ => P a | Returns (Err e) _ => Q e | _ => False end.

Lemma Gives_try {A B} (m : fallible A) (f : A → fallible B) P P' Q : Gives m P Q → (∀ a, P a → Gives (f a) P' Q) → Gives (tryBind m f) P' Q.
Proof.
  intros Hm Hf k. unfold tryBind, bind. specialize (Hm k). destruct (m k) as [[a|e] k'| |]; try done. by apply Hf.
Qed.
Lemma Gives_bind {A B} (m : drawing A) (f : A → fallible B) (P : A → Prop) P' Q :
  (∀ k, ∃ a k', m k = Returns a k' ∧ P a) → (∀ a, P a → Gives (f a) P' Q) → Gives (bind m f) P' Q.
Proof. intros Hm Hf k. unfold bind. destruct (Hm k) as (a & k' & -> & Ha). by apply Hf. Qed.
Lemma Gives_succeed {A} (a : A) (P : A → Prop) Q : P a → Gives (succeed a) P Q.
Proof. intros H k. exact H. Qed.
Lemma Gives_failing {A} e (P : A → Prop) (Q : toolError → Prop) : Q e → Gives (failing e) P Q.
Proof. intros H k. exact H. Qed.

Variable g : generator.
Variable rangeOrder : list (string * json) → list (string * json).
Context `{!GeneratorOk g} (Hrange : ∀ l, rangeOrder l ≡ₚ l).
Context (Hints : - 2 ^ 62 < Config.MinToolCallIntegerParam c ≤ Config.MaxToolCallIntegerParam c) (Hmax : Config.MaxToolCallIntegerParam c < 2 ^ 62).
Context (Harr : 0 ≤ Config.MinToolCallArrayParamLength c ≤ Config.MaxToolCallArrayParamLength c) (Harr' : Config.MaxToolCallArrayParamLength c < 2 ^ 62).

Lemma itemBound_ok key default p k : BoundOk p key → 0 ≤ default < 2 ^ 62 → itemBound key default p k = Returns (boundOf key default p) k ∧ 0 ≤ boundOf key default p < 2 ^ 62.
Proof.
  intros Hb Hd. unfold itemBound, boundOf. unfold BoundOk in Hb. destruct (field key p) as [v|]; [|done]. by destruct (Hb v eq_refl) as (x & -> & Hx).
Qed.

Lemma elements_ok n create (P : arg → Prop) Q : Gives create P Q → Gives (elements n create) (λ l, length l = n ∧ ∀ a, a ∈ l → P a) Q.
Proof.
  intros Hc. induction n as [|n IH]; cbn [elements]; [apply Gives_succeed; split; [done|by intros a ?%not_elem_of_nil]|].
  eapply Gives_try; [exact Hc|]. intros a Ha. eapply Gives_try; [exact IH|]. intros l [Hl Hp]. apply Gives_succeed. split; [cbn; lia|]. intros b [->|?]%elem_of_cons; auto.
Qed.

Lemma fields_ok probability required create l (P : json → arg → Prop) Q :
  (∀ k q, (k, q) ∈ l → Gives (create q) (P q) Q) →
  Gives (fields g probability required create l)
    (λ r, (∀ k a, (k, a) ∈ r → ∃ q, (k, q) ∈ l ∧ P q a) ∧ (∀ k q, (k, q) ∈ l → k ∈ required → k ∈ r.*1) ∧ r.*1 ⊆+ l.*1) Q.
Proof using GeneratorOk0.
  induction l as [|[k q] l IH]; intros Hc; cbn [fields].
  { apply Gives_succeed. split_and!; [by intros ? ? ?%not_elem_of_nil|by intros ? ? ?%not_elem_of_nil|done]. }
  assert (∀ k' q', (k', q') ∈ l → Gives (create q') (P q') Q) as Hc' by (intros; eapply Hc; by right). specialize (IH Hc').
  apply (Gives_bind _ _ (λ b : bool, k ∈ required → b = true)).
  { intros n. destruct (bool_decide_reflect (k ∈ required)); [by exists true, n|]. eexists _, (S n). split; [done|]. done. }
  intros taken Ht. destruct taken.
  - eapply Gives_try; [eapply Hc; by left|]. intros a Ha. eapply Gives_try; [exact IH|]. intros r (R1 & R2 & R3). apply Gives_succeed. split_and!.
    + intros k' a' [[= -> ->]|Hin]%elem_of_cons; [exists q; split; [by left|done]|]. destruct (R1 _ _ Hin) as (q' & ? & ?). exists q'. split; [by right|done].
    + intros k' q' [[= -> ->]|Hin]%elem_of_cons Hr; cbn; [by left|right; eauto].
    + cbn. by constructor.
  - intros n. specialize (IH n). destruct (fields g probability required create l n) as [[r|e] n'| |]; try done. destruct IH as (R1 & R2 & R3). split_and!.
    + intros k' a' Hin. destruct (R1 _ _ Hin) as (q' & ? & ?). exists q'. split; [by right|done].
    + intros k' q' [[= -> ->]|Hin]%elem_of_cons Hr; [by specialize (Ht Hr)|eauto].
    + cbn. by constructor.
Qed.

Lemma range_ok lo hi : lo ≤ hi → - 2 ^ 62 < lo → hi < 2 ^ 62 → ∀ k, ∃ z k', RandomInt g lo hi k = Returns z k' ∧ lo ≤ z ≤ hi.
Proof using GeneratorOk0. intros H1 H2 H3 k. destruct (RandomInt_ok g lo hi k) as (z & E & Hz); [lia..|]. eauto. Qed.

Lemma pick_ok {A} (l : list A) : l ≠ [] → Z.of_nat (length l) < 2 ^ 62 → ∀ k, ∃ x k', bind (RandomInt g 0 (Z.of_nat (length l) - 1)) (index l) k = Returns x k' ∧ x ∈ l.
Proof using GeneratorOk0.
  intros Hne Hlen k. assert (0 < length l)%nat by (destruct l; [done|cbn; lia]). destruct (range_ok 0 (Z.of_nat (length l) - 1) ltac:(lia) ltac:(lia) ltac:(lia) k) as (i & k' & E & Hi).
  unfold bind. rewrite E. destruct (index_ok l i k' ltac:(lia)) as (x & -> & Hx). eauto.
Qed.

Lemma array_ok p items create fuelled :
  kindOf (resolveParamType (field "type" p)) = KArray → BoundOk p "minItems" → BoundOk p "maxItems" → field "items" p = Some (JObj items) → create = fuelled (JObj items) →
  Gives create (Conforms (JObj items)) Refused →
  Gives (bind (itemBound "minItems" (Config.MinToolCallArrayParamLength c) p) (λ minItems, bind (itemBound "maxItems" (Config.MaxToolCallArrayParamLength c) p) (λ maxItems,
      if maxItems <? minItems then failing (ErrMinItems minItems maxItems)
      else bind (RandomInt g minItems maxItems) (λ n, if n <? 0 then panic else tryBind (elements (Z.to_nat n) create) (λ array, succeed (AArr array)))))) (Conforms p) Refused.
Proof using GeneratorOk0 Harr Harr'.
  intros Hk B1 B2 Hi _ Hc. eapply (Gives_bind _ _ (λ z, z = boundOf "minItems" (Config.MinToolCallArrayParamLength c) p ∧ 0 ≤ z < 2 ^ 62)).
  { intros k. destruct (itemBound_ok "minItems" (Config.MinToolCallArrayParamLength c) p k B1 ltac:(lia)) as [-> H]. by eexists _, _. }
  intros lo [Elo Hlo]. eapply (Gives_bind _ _ (λ z, z = boundOf "maxItems" (Config.MaxToolCallArrayParamLength c) p ∧ 0 ≤ z < 2 ^ 62)).
  { intros k. destruct (itemBound_ok "maxItems" (Config.MaxToolCallArrayParamLength c) p k B2 ltac:(lia)) as [-> H]. by eexists _, _. }
  intros hi [Ehi Hhi]. destruct (Z.ltb_spec hi lo); [by apply Gives_failing|]. eapply (Gives_bind _ _ (λ z, lo ≤ z ≤ hi)); [apply range_ok; lia|].
  intros n Hn. destruct (Z.ltb_spec n 0); [lia|]. eapply Gives_try; [by apply elements_ok|]. intros l [Hl Ha]. apply Gives_succeed. eapply conf_array; [done|done| |done]. lia.
Qed.

Lemma createArgument_ok fuel p : Schema p → (jdepth p ≤ fuel)%nat → Gives (createArgument g c rangeOrder fuel p) (Conforms p) Refused.
Proof using All.
  revert p. induction fuel as [|fuel IH]; intros p Hs Hd; [destruct p; cbn in Hd; lia|]. destruct Hs as [p B1 B2 He Hitems Hprops Hint Hnum Hempty]. cbn [createArgument].
  destruct (enumOf p) as [l|] eqn:Ee.
  { assert (l ≠ []) as Hne by (intros ->; unfold enumOf in Ee; destruct (field "enum" p) as [[| | | |[|]|]|]; done). intros k.
    destruct (pick_ok l Hne (He l eq_refl) k) as (e & k' & E & Hin). unfold bind in *. destruct (RandomInt g 0 _ k); try done. rewrite E. by eapply conf_enum. }
  destruct (kindOf _) eqn:Ek.
  - eapply (Gives_bind _ _ (λ _, True)); [|intros s _; by apply Gives_succeed, conf_string]. intros k. unfold getStringArgument.
    destruct (pick_ok fakeStringArguments ltac:(done) ltac:(vm_compute; reflexivity) k) as (s & k' & E & _). eauto.
  - eapply (Gives_bind _ _ (λ z, Config.MinToolCallIntegerParam c ≤ z ≤ Config.MaxToolCallIntegerParam c)); [apply range_ok; lia|]. intros z Hz. apply Gives_succeed, conf_integer; auto.
  - eapply (Gives_bind _ _ (λ _, True)); [intros k; by eexists _, _|]. intros x _. apply Gives_succeed, conf_number; auto.
  - eapply (Gives_bind _ _ (λ _, True)); [|intros b _; by apply Gives_succeed, conf_boolean]. intros k. unfold FlipCoin, bind.
    destruct (range_ok 0 1 ltac:(lia) ltac:(lia) ltac:(lia) k) as (z & k' & -> & _). by eexists _, _.
  - by apply Gives_succeed, conf_null.
  - destruct (field "items" p) as [[| | | | |items]|] eqn:Ei; try (apply Gives_succeed, conf_empty; [done|congruence|by apply Hempty; [|congruence]]).
    eapply (array_ok p items _ (createArgument g c rangeOrder fuel)); [done..|]. apply IH; [by apply Hitems|]. apply field_depth in Ei. lia.
  - destruct (field "properties" p) as [[| | | | |props]|] eqn:Ep; try (apply Gives_succeed, conf_nothing; [done|congruence]).
    eapply Gives_try; [apply (fields_ok _ _ _ _ Conforms)|].
    + intros k q Hin. rewrite Hrange in Hin. apply IH; [by eapply Hprops|]. apply depth_elem in Hin. apply field_depth in Ep. lia.
    + intros l (R1 & R2 & R3). apply Gives_succeed. eapply conf_object; [done|done| | |].
      * intros k a Hin. destruct (R1 _ _ Hin) as (q & Hq & Ha). rewrite Hrange in Hq. eauto.
      * intros k q Hin. apply (R2 k q). by rewrite Hrange.
      * by rewrite (Hrange props) in R3.
  - by apply Gives_failing.
Qed.

End Conformance.

(** * Calls *)

Section Calls.
Variables (c : Config.Configuration) (g : generator) (rangeOrder : list (string * json) → list (string * json)).
Variables (Marshal : list (string * arg) → result string string) (RenderText : string → result string Tokenized) (idPrefix : list Z).
Context `{!GeneratorOk g} (Hrange : ∀ l, rangeOrder l ≡ₚ l).
Context (Hints : - 2 ^ 62 < Config.MinToolCallIntegerParam c ≤ Config.MaxToolCallIntegerParam c) (Hmax : Config.MaxToolCallIntegerParam c < 2 ^ 62).
Context (Harr : 0 ≤ Config.MinToolCallArrayParamLength c ≤ Config.MaxToolCallArrayParamLength c) (Harr' : Config.MaxToolCallArrayParamLength c < 2 ^ 62).

Definition propertiesOf (t : Tool) : list (string * json) := match field "properties" (Parameters t) with Some (JObj l) => l | _ => [] end.

(** A tool whose parameters are schemas, nested no deeper than the fuel. *)
Definition ToolOk (fuel : nat) (t : Tool) : Prop := ∀ k q, (k, q) ∈ propertiesOf t → Schema c q ∧ (jdepth q ≤ fuel)%nat.

(** The arguments of a call: parameters of the tool with conforming values, none twice, every required one among them. *)
Definition ArgumentsFit (t : Tool) (args : list (string * arg)) : Prop :=
  (∀ k a, (k, a) ∈ args → ∃ q, (k, q) ∈ propertiesOf t ∧ Conforms c q a) ∧
  (∀ k q, (k, q) ∈ propertiesOf t → k ∈ getRequiredAsMap (Parameters t) → k ∈ args.*1) ∧ args.*1 ⊆+ (propertiesOf t).*1.

Definition CallFits (tools : list Tool) (i : Z) (call : ToolCall) : Prop :=
  callIndex call = i ∧ length (callID call) = (length idPrefix + 10)%nat ∧ Marshal (callArguments call) = Ok (argumentsJson call) ∧
  RenderText (argumentsJson call) = Ok (tokenizedArguments call) ∧ ∃ t, t ∈ tools ∧ callName call = toolName t ∧ ArgumentsFit t (callArguments call).

(** The errors: of the schema, of the encoder, of the tokenizer. *)
Definition CallRefused (e : toolError) : Prop :=
  match e with ErrMarshal e => ∃ args, Marshal args = Err e | ErrTokenize e => ∃ s, RenderText s = Err e | ErrNoTools | ErrNotFound _ => False | _ => Refused e end.

Lemma Gives_weaken {A} (m : fallible A) (P P' : A → Prop) (Q Q' : toolError → Prop) : Gives m P Q → (∀ a, P a → P' a) → (∀ e, Q e → Q' e) → Gives m P' Q'.
Proof. intros Hm HP HQ k. specialize (Hm k). destruct (m k) as [[a|e] k'| |]; auto. Qed.

Lemma arguments_ok fuel t : ToolOk fuel t → Gives (generateToolArguments g c rangeOrder fuel t) (ArgumentsFit t) CallRefused.
Proof using GeneratorOk0 Hrange Hints Hmax Harr Harr'.
  intros Ht. unfold generateToolArguments. fold (propertiesOf t). eapply Gives_weaken; [apply (fields_ok g _ _ _ _ (Conforms c) Refused)| |].
  - intros k q Hin. rewrite Hrange in Hin. destruct (Ht k q Hin). by apply createArgument_ok.
  - intros args (R1 & R2 & R3). split_and!.
    + intros k a Hin. destruct (R1 _ _ Hin) as (q & Hq & Ha). rewrite Hrange in Hq. eauto.
    + intros k q Hin. apply (R2 k q). by rewrite Hrange.
    + by rewrite (Hrange (propertiesOf t)) in R3.
  - intros e. by destruct e.
Qed.

Lemma oneCall_ok fuel tools i :
  tools ≠ [] → Z.of_nat (length tools) < 2 ^ 62 → (∀ t, t ∈ tools → ToolOk fuel t) →
  Gives (oneCall g c rangeOrder Marshal RenderText idPrefix fuel tools i) (CallFits tools i) CallRefused.
Proof using GeneratorOk0 Hrange Hints Hmax Harr Harr'.
  intros Hne Hlen Ht. assert (0 < length tools)%nat by (destruct tools; [done|apply Nat.lt_0_succ]). unfold oneCall.
  eapply (Gives_bind _ _ (λ z, 0 ≤ z < Z.of_nat (length tools))).
  { intros k. destruct (Nat.ltb_spec 1 (length tools)); [|exists 0, k; split; [done|lia]].
    destruct (range_ok g 0 (Z.of_nat (length tools) - 1) ltac:(lia) ltac:(lia) ltac:(lia) k) as (z & k' & -> & Hz). exists z, k'. split; [done|lia]. }
  intros at_ Hat. eapply (Gives_bind _ _ (λ t, t ∈ tools)); [intros k; destruct (index_ok tools at_ k Hat) as (t & -> & Hin); eauto|].
  intros t Hin. eapply Gives_try; [by apply arguments_ok; auto|]. intros args Ha. destruct (Marshal args) as [s|e] eqn:Em; [|apply Gives_failing; cbn; eauto].
  destruct (RenderText s) as [tk|e] eqn:Er; [|apply Gives_failing; cbn; eauto]. eapply (Gives_bind _ _ (λ l, length l = 10%nat)).
  { intros k. destruct (RandomNumericString_ok g 10 k) as (l & E & Hl & _). exists l, (k + 10)%nat. split; [exact E|done]. }
  intros id Hid. apply Gives_succeed. split_and!; [done|cbn; rewrite length_app; lia|done|done|]. by exists t.
Qed.

Lemma someCalls_ok fuel tools n i :
  tools ≠ [] → Z.of_nat (length tools) < 2 ^ 62 → (∀ t, t ∈ tools → ToolOk fuel t) →
  Gives (someCalls g c rangeOrder Marshal RenderText idPrefix fuel tools n i) (λ l, length l = n ∧ ∀ j call, l !! j = Some call → CallFits tools (i + Z.of_nat j) call) CallRefused.
Proof using GeneratorOk0 Hrange Hints Hmax Harr Harr'.
  intros Hne Hlen Ht. revert i. induction n as [|n IH]; intros i; cbn [someCalls]; [apply Gives_succeed; by split; [|intros j call Hj; rewrite lookup_nil in Hj]|].
  eapply Gives_try; [by apply oneCall_ok|]. intros call Hc. eapply Gives_try; [apply IH|]. intros l [Hl Hf]. apply Gives_succeed. split; [cbn; lia|].
  intros [|j] call' Hj; cbn in Hj; [injection Hj as <-; by rewrite Z.add_0_r|]. replace (i + Z.of_nat (S j)) with (i + 1 + Z.of_nat j) by lia. by apply Hf.
Qed.

Lemma extraCalls_ok room n k : ∃ m k', extraCalls g c room n k = Returns m k' ∧ n ≤ m ≤ n + Z.of_nat room.
Proof.
  revert n k. induction room as [|room IH]; intros n k; cbn [extraCalls]; [exists n, k; split; [done|lia]|]. unfold bind, RandomBool.
  destruct (flt _ _); [|exists n, (S k); split; [done|lia]]. destruct (IH (n + 1) (S k)) as (m & k' & -> & Hm). exists m, k'. split; [done|lia].
Qed.

Lemma generateCalls_ok fuel tools minCalls :
  0 ≤ minCalls ≤ 1 → tools ≠ [] → Z.of_nat (length tools) < 2 ^ 62 → (∀ t, t ∈ tools → ToolOk fuel t) →
  Gives (generateCalls g c rangeOrder Marshal RenderText idPrefix fuel tools minCalls)
    (λ r, r.2 = countTokensForToolCalls r.1 ∧ minCalls ≤ Z.of_nat (length r.1) ≤ Z.of_nat (length tools) ∧ ∀ j call, r.1 !! j = Some call → CallFits tools (Z.of_nat j) call) CallRefused.
Proof using GeneratorOk0 Hrange Hints Hmax Harr Harr'.
  intros Hmin Hne Hlen Ht. assert (0 < length tools)%nat by (destruct tools; [done|apply Nat.lt_0_succ]). unfold generateCalls. destruct tools as [|t0 ts] eqn:Et; [done|]. rewrite <- Et in *.
  eapply (Gives_bind _ _ (λ n, minCalls ≤ n ≤ Z.of_nat (length tools))).
  { intros k. destruct (extraCalls_ok (Z.to_nat (Z.of_nat (length tools) - minCalls)) minCalls k) as (m & k' & -> & Hm). exists m, k'. split; [done|lia]. }
  intros n Hn. eapply Gives_try; [by apply someCalls_ok|]. intros calls [Hl Hf]. apply Gives_succeed. cbn [fst snd]. split_and!; [done|lia|lia|]. intros j call Hj. specialize (Hf j call Hj). by rewrite Z.add_0_l in Hf.
Qed.

End Calls.

(** A configuration that was accepted has ranges to draw from. *)
Lemma validated_ranges rng c0 c : Config.validate rng c0 = Some (Ok c) →
  Config.MinToolCallIntegerParam c ≤ Config.MaxToolCallIntegerParam c ∧ 0 ≤ Config.MinToolCallArrayParamLength c ≤ Config.MaxToolCallArrayParamLength c.
Proof.
  intros Hv. apply ConfigProps.validate_passed in Hv as [_ He _ _ _ _ _ _ Hres]. revert Hres. generalize (Config.fakeMetrics c) as fakes. intros fakes ->. rewrite !Forall_app in He. destruct He as (_ & _ & _ & _ & Ht & _ & _).
  unfold Config.toolChecks in Ht. repeat rewrite Forall_cons in Ht. cbn [fst Config.refuse] in Ht. destruct Ht as (H1 & _ & H3 & H4 & _).
  cbn [Config.MinToolCallIntegerParam Config.MaxToolCallIntegerParam Config.MinToolCallArrayParamLength Config.MaxToolCallArrayParamLength Config.normalized]. lia.
Qed.

(** The tools a choice leaves, and how many calls it asks for. *)
Definition Allowed (tools : list Tool) (choice : ToolChoice) (t : Tool) : Prop := t ∈ tools ∧ match choice with ChoiceFunction name => toolName t = name | _ => True end.
Definition leastCalls (choice : ToolChoice) : Z := match choice with ChoiceFunction _ => 1 | ChoiceAuto v => if String.eqb v "required" then 1 else 0 | _ => 0 end.
Definition mostCalls (tools : list Tool) (choice : ToolChoice) : Z := match choice with ChoiceFunction _ => 1 | _ => Z.of_nat (length tools) end.

(** The errors of a whole response. *)
Definition ResponseRefused (tools : list Tool) Marshal RenderText (e : toolError) : Prop :=
  match e with ErrNoTools => tools = [] | ErrNotFound name => ∀ t, t ∈ tools → toolName t ≠ name | _ => CallRefused Marshal RenderText e end.

Lemma refused_response tools Marshal RenderText e : CallRefused Marshal RenderText e → ResponseRefused tools Marshal RenderText e.
Proof. by destruct e. Qed.

(** The calls of a response, on every branch. *)
Lemma createToolCalls_ok rng c0 c g rangeOrder Marshal RenderText idPrefix fuel tools choice :
  GeneratorOk g → (∀ l, rangeOrder l ≡ₚ l) → Config.validate rng c0 = Some (Ok c) →
  - 2 ^ 62 < Config.MinToolCallIntegerParam c → Config.MaxToolCallIntegerParam c < 2 ^ 62 → Config.MaxToolCallArrayParamLength c < 2 ^ 62 →
  Z.of_nat (length tools) < 2 ^ 62 → (∀ t, t ∈ tools → ToolOk c fuel t) →
  Gives (createToolCalls g c rangeOrder Marshal RenderText idPrefix fuel tools choice)
    (λ r, r.2 = countTokensForToolCalls r.1 ∧ leastCalls choice ≤ Z.of_nat (length r.1) ≤ mostCalls tools choice ∧
          ∀ j call, r.1 !! j = Some call → CallFits c Marshal RenderText idPrefix tools (Z.of_nat j) call ∧ ∃ t, Allowed tools choice t ∧ callName call = toolName t)
    (ResponseRefused tools Marshal RenderText).
Proof.
  intros Hg Hrange Hv Hmin Hmax Harr Hlen Ht. destruct (validated_ranges _ _ _ Hv) as [Hi Ha].
  assert (∀ least, 0 ≤ least ≤ 1 → (∀ t, t ∈ tools → Allowed tools choice t) → least = leastCalls choice → mostCalls tools choice = Z.of_nat (length tools) →
    Gives (generateCalls g c rangeOrder Marshal RenderText idPrefix fuel tools least)
    (λ r, r.2 = countTokensForToolCalls r.1 ∧ leastCalls choice ≤ Z.of_nat (length r.1) ≤ mostCalls tools choice ∧
          ∀ j call, r.1 !! j = Some call → CallFits c Marshal RenderText idPrefix tools (Z.of_nat j) call ∧ ∃ t, Allowed tools choice t ∧ callName call = toolName t)
    (ResponseRefused tools Marshal RenderText)) as Hgen.
  { intros least Hl Hall -> Hm. destruct (decide (tools = [])) as [->|Hne]; [by apply Gives_failing|].
    eapply Gives_weaken; [apply (generateCalls_ok c g rangeOrder Marshal RenderText idPrefix Hrange); [done..|auto]| |by apply refused_response].
    intros r (R1 & R2 & R3). split_and!; [done|lia|lia|]. intros j call Hj. specialize (R3 j call Hj). split; [done|]. destruct R3 as (_ & _ & _ & _ & t & Hin & En & _). eauto. }
  destruct choice as [|v|name|]; cbn [createToolCalls]; try (apply Hgen; [lia|by split|done|done]).
  { apply Hgen; [by destruct (String.eqb v "required")|by split|done|done]. }
  destruct (list_find _ tools) as [[i t]|] eqn:Ef; [|apply Gives_failing; intros t Hin; by eapply list_find_None in Ef; eapply Forall_forall in Ef].
  apply list_find_Some in Ef as (Hi' & Hname & _). apply list_elem_of_lookup_2 in Hi' as Hin.
  eapply Gives_weaken; [apply (generateCalls_ok c g rangeOrder Marshal RenderText idPrefix Hrange); [done..| |done|done|]| |by apply refused_response].
  - lia.
  - intros t' [->|?%not_elem_of_nil]%elem_of_cons; [auto|done].
  - intros r (R1 & R2 & R3). split_and!; [done|cbn; lia|cbn in *; lia|]. intros j call Hj. specialize (R3 j call Hj) as (C1 & C2 & C3 & C4 & t' & Ht' & En & Hfit).
    apply list_elem_of_singleton in Ht' as ->. split; [split_and!; eauto|]. exists t. by split.
Qed.


(** ** Examples *)

Definition weather : Tool := mkTool "weather" (JObj [("required", JArr [JStr "city"]); ("properties", JObj [("city", JObj [("enum", JArr [JStr "Rome"; JStr "Oslo"])]); ("days", JObj [("type", JStr "integer")])])])%string.

Lemma weather_ok : ToolOk ConfigProps.config_ok 3 weather.
Proof.
  intros k q Hin. change (propertiesOf weather) with [("city", JObj [("enum", JArr [JStr "Rome"; JStr "Oslo"])]); ("days", JObj [("type", JStr "integer")])]%string in Hin.
  apply elem_of_cons in Hin as [[= -> ->]|Hin]; [|apply list_elem_of_singleton in Hin as [= -> ->]]; (split; [constructor|cbn; lia]); try done.
  intros l [= <-]. cbn. lia.
Qed.

Definition calls_ex : GoRandom.outcome (result toolError (list ToolCall * Z)) :=
  createToolCalls generator_ex ConfigProps.config_ok id (λ _, Ok "{}"%string) (λ _, Ok (mkTokenized [7] ["{}"%string])) [] 3 [weather] (ChoiceFunction "weather") 0%nat.


(** What the conditions on schemas exclude: the limits of an integer are ignored, and an
    array whose elements are not described is left empty. *)
Example limits_ignored :
  match createArgument generator_ex ConfigProps.config_ok id 3 (JObj [("type", JStr "integer"); ("minimum", JNum (f_of_Z 1000))]%string) 0%nat with
  | Returns (Ok (AInt z)) _ => z ≤ 100
  | _ => False
  end ∧ createArgument generator_ex ConfigProps.config_ok id 3 (JObj [("type", JStr "array"); ("minItems", JNum (f_of_Z 2))]%string) 0%nat = Returns (Ok (AArr [])) 0%nat.
Proof. vm_compute. split; [discriminate|reflexivity]. Qed.

(** A schema that only asks for more elements than the configured maximum is refused, although it can be satisfied. *)
Example satisfiable_schema_refused :
  createArgument generator_ex ConfigProps.config_ok id 3 (JObj [("type", JStr "array"); ("items", JObj [("type", JStr "boolean")]); ("minItems", JNum (f_of_Z 100))]%string) 0%nat =
  Returns (Err (ErrMinItems 100 (Config.MaxToolCallArrayParamLength ConfigProps.config_ok))) 0%nat.
Proof. vm_compute. reflexivity. Qed.

End ToolsProps.
