(* ===== verification/Logprobs.v ===== *)
(** The synthetic log probabilities of a response ([pkg/common/logprobs_utils.go]), with
    the types that carry them ([pkg/api/response.go]). *)

From stdpp Require Import pretty.
From S2P Require Import Prelude GoFloat.
Open Scope Z_scope.

Module Logprobs.

Inductive LogprobsContent := mkContent { Token : string; Logprob : f64; Bytes : list Z; TopLogprobs : list LogprobsContent }.
Record ChatLogprobs := mkChatLogprobs { Content : list LogprobsContent }.
Record TextLogprobs := mkTextLogprobs { Tokens : list string; TokenLogprobs : list f64; TopMaps : list (gmap string f64); TextOffset : list Z }.
Record TopLogprob := mkTop { tl_Token : string; tl_Logprob : f64; tl_Bytes : list Z }.
Record ResponsesLogprob := mkResponsesLogprob { rl_Token : string; rl_Logprob : f64; rl_Bytes : list Z; rl_TopLogprobs : list TopLogprob }.

Definition defaultLogprob : f64 := f_of_Z (-1).
Definition positionCycle : Z := 3.
Definition positionDecrement : f64 := f_const 1 10.
Definition alternativeDecrement : f64 := f_const 1 2.

Definition calculateLogprob (tokenPosition alternativeIndex : Z) : f64 :=
  let mainLogprob := fsub defaultLogprob (fmul (f_of_Z (Z.rem tokenPosition positionCycle)) positionDecrement) in
  if alternativeIndex =? 0 then mainLogprob else fsub mainLogprob (fmul (f_of_Z alternativeIndex) alternativeDecrement).

Fixpoint stringToIntBytes (s : string) : list Z :=
  match s with EmptyString => [] | String c s => Z.of_nat (Ascii.nat_of_ascii c) :: stringToIntBytes s end.

(** [fmt.Sprintf("%s_%d", token, j)]. *)
Definition altToken (token : string) (j : Z) : string := token +:+ "_" +:+ pretty j.
Definition alternative (token : string) (tokenPosition j : Z) : LogprobsContent :=
  mkContent (altToken token j) (calculateLogprob tokenPosition j) (stringToIntBytes (altToken token j)) [].

(** The content of one token: itself and, when alternatives are asked for, itself first among them. *)
Definition tokenContent (token : string) (tokenPosition topLogprobsCount : Z) : LogprobsContent :=
  let main := calculateLogprob tokenPosition 0 in
  mkContent token main (stringToIntBytes token)
    (if 0 <? topLogprobsCount
     then mkContent token main (stringToIntBytes token) [] :: (alternative token tokenPosition <$> seqZ 1 (topLogprobsCount - 1))
     else []).

Definition GenerateSingleTokenChatLogprobs (token : string) (tokenPosition topLogprobsCount : Z) : option LogprobsContent :=
  if bool_decide (token = ""%string) then None else Some (tokenContent token tokenPosition topLogprobsCount).

(** The map of a token; an alternative of the same text replaces it. *)
Definition topMap (token : string) (tokenPosition logprobsCount : Z) : gmap string f64 :=
  foldl (λ m j, <[altToken token j := calculateLogprob tokenPosition j]> m) {[token := calculateLogprob tokenPosition 0]} (seqZ 1 (logprobsCount - 1)).
Definition atLeastOne (n : Z) : Z := if n <=? 0 then 1 else n.

Definition GenerateSingleTokenTextLogprobs (token : string) (tokenPosition logprobsCount : Z) : option TextLogprobs :=
  if bool_decide (token = ""%string) then None
  else Some (mkTextLogprobs [token] [calculateLogprob tokenPosition 0] [topMap token tokenPosition (atLeastOne logprobsCount)] [0]).

(** Offsets in bytes. *)
Fixpoint offsets (offset : Z) (tokens : list string) : list Z :=
  match tokens with [] => [] | t :: tokens => offset :: offsets (offset + Z.of_nat (String.length t)) tokens end.

Definition GenerateTextLogprobs (tokens : list string) (logprobsCount : Z) : TextLogprobs :=
  mkTextLogprobs tokens (imap (λ i _, calculateLogprob (Z.of_nat i) 0) tokens) (imap (λ i t, topMap t (Z.of_nat i) (atLeastOne logprobsCount)) tokens) (offsets 0 tokens).

Definition GenerateChatLogprobs (tokens : list string) (topLogprobsCount : Z) : ChatLogprobs :=
  mkChatLogprobs (imap (λ i t, tokenContent t (Z.of_nat i) topLogprobsCount) tokens).

Definition asResponses (c : LogprobsContent) : ResponsesLogprob :=
  mkResponsesLogprob (Token c) (Logprob c) (Bytes c) ((λ top, mkTop (Token top) (Logprob top) (Bytes top)) <$> TopLogprobs c).
Definition GenerateMessagesLogprobs (tokens : list string) (topLogprobsCount : Z) : list ResponsesLogprob :=
  asResponses <$> Content (GenerateChatLogprobs tokens topLogprobsCount).

End Logprobs.
