(* ===== verification/Response.v ===== *)
(** Responses: the payloads of [pkg/api/response.go], the context a worker hands over
    ([pkg/simulator/response.go]) and the builders of [pkg/communication/response_builder.go],
    one per endpoint, behind one interface. *)

From S2P Require Import Prelude GoFloat GoRandom BlockCache Lora Scheduler KVEvents Requests Dataset Config Tools Logprobs.
Import Dataset Logprobs.
Open Scope Z_scope.

Module Response.
Export Api.

(** * Payloads *)

Record PromptTokensDetails := mkDetails { CachedTokens : Z }.
Record Usage := mkUsage { PromptTokens : Z; CompletionTokens : Z; TotalTokens : Z; promptTokensDetails : option PromptTokensDetails }.
Record KVTransferParams := mkKV { DoRemoteDecode : bool; DoRemotePrefill : bool; RemoteEngineId : string; RemoteBlockIds : list string; RemoteHost : string; RemotePort : Z; TPSize : Z }.
Record ECTransferParams := mkEC { PeerHost : string; PeerPort : Z; SizeBytes : Z; NixlAgentData : string }.

Record FunctionCall := mkFunctionCall { fc_Name : option string; fc_Arguments : string; fc_tokenized : option Tokenized }.
Record ToolCall := mkToolCall { Function_ : FunctionCall; tc_ID : string; tc_Type : string; tc_Index : Z }.

(** Blocks of a message; audio and video occur only in requests. *)
Record ChatComplAudioBlock := mkAudio { au_Data : string; au_Format : string }.
Record ContentBlock := mkBlock { cb_Type : string; cb_Text : string; cb_ImageURL : option string; cb_InputAudio : option ChatComplAudioBlock; cb_VideoURL : option string }.
Record ChatComplContent := mkChatContent { Raw : string; Structured : list ContentBlock }.
Record Message := mkMessage { Role : string; MContent : ChatComplContent; MToolCalls : list ToolCall; ToolCallID : string }.
Definition noContent : ChatComplContent := mkChatContent "" [].

Record baseResponse := mkBase { ID : string; BModel : string; Object_ : string; KVParams : option KVTransferParams; BRequestID : string; Created : Z; BUsage : option Usage }.
Record TextRespChoice := mkTextChoice { tx_Index : nat; tx_FinishReason : option string; Text : string; tx_Logprobs : option TextLogprobs }.
(** A choice of a chat response, or the delta of a chunk. *)
Record ChatRespChoice := mkChatChoice { ch_Index : nat; ch_FinishReason : option string; ch_Message : Message; ch_Logprobs : option ChatLogprobs }.
Record GenerateRespChoice := mkGenChoice { gn_Index : nat; gn_FinishReason : option string; TokenIDs : list Z }.

Record OutputContent := mkOutput { oc_Type : string; oc_Text : string; oc_Logprobs : option (list ResponsesLogprob) }.
Inductive OutputItem :=
| MessageOutput (id role status : string) (content : list OutputContent)
| FunctionCallOutputItem (id callID name arguments status : string).
Record ResponsesUsage := mkResponsesUsage { InputTokens : Z; OutputTokens : Z; RTotalTokens : Z }.
Record ResponsesResponse := mkResponses { rr_base : baseResponse; CreatedAt : Z; rr_Status : string; Instructions_ : option string; Output : list OutputItem; rr_Usage : option ResponsesUsage }.
Record ResponsesItemEvent := mkItemEvent {
  ie_Type : string; ItemID : string; Item : option OutputItem; Part : option OutputContent; Delta : string; ie_Text : string; ie_Name : string; ie_Arguments : string;
  ie_Logprobs : option (list ResponsesLogprob)
}.

Record MessagesContentBlock := mkMBlock { mb_Type : string; mb_Text : string; mb_ID : string; mb_Name : string; Input : list (string * Tools.json) }.
Record MessagesResponse := mkMessages { ms_ID : string; ms_Role : string; ms_Content : list MessagesContentBlock; ms_Model : string; StopReason : option string; ms_Input : Z; ms_Output : Z; ms_RequestID : string }.

Inductive payload :=
| TextCompletionsResponse (base : baseResponse) (choices : list TextRespChoice)
| ChatCompletionsResponse (base : baseResponse) (choices : list ChatRespChoice) (ec : option (gmap string ECTransferParams))
| ChatCompletionsRespChunk (base : baseResponse) (choices : list ChatRespChoice) (modality : string)
| GenerateResponse (base : baseResponse) (choices : list GenerateRespChoice) (id : string) (ec : option (gmap string ECTransferParams))
| GenerateStreamResponse (id : string) (choices : list GenerateRespChoice) (usage : option Usage)
| Responses (r : ResponsesResponse) | ResponsesResponseEvent (type : string) (r : ResponsesResponse) | ItemEvent (e : ResponsesItemEvent)
| Messages (r : MessagesResponse) | MessageStartEvent (r : MessagesResponse) | ContentBlockStartEvent (index : Z) (block : MessagesContentBlock)
| ContentBlockDeltaEvent (index : Z) (type text partialJSON : string) | ContentBlockStopEvent (index : Z) | MessageDeltaEvent (stopReason : string) (outputTokens : Z)
| MessageStopEvent | PingEvent | ErrorResponse (e : Error).

(** A frame of a stream; the names and the data of a named chunk go together. *)
Inductive sseChunk := jsonDataChunk (data : payload) | namedEventChunk (events : list (string * payload)) | doneMarker.

Definition BuildPrefillKVTransferParams : KVTransferParams := mkKV false true "DUMMY_ID" ["DUMMY_ID"%string] "DUMMY" 1234 1.
(** The object and the id are filled in by the builders. *)
Definition CreateBaseCompletionsResponse (prefix object : string) (created : Z) (model : string) (usage : option Usage) (requestID : string) (doRemoteDecode : bool) : baseResponse :=
  mkBase (prefix +:+ requestID) model object (if doRemoteDecode then Some BuildPrefillKVTransferParams else None) requestID created usage.

Definition chatComplIDPrefix : string := "chatcmpl-".
Definition textComplIDPrefix : string := "cmpl-".
Definition TextCompletionObject : string := "text_completion".
Definition ChatCompletionObject : string := "chat.completion".
Definition ChatCompletionChunkObject : string := "chat.completion.chunk".
Definition RoleAssistant : string := "assistant".
Definition ToolsFinishReason : string := "tool_calls".

(** * The context of a response *)

Record ResponseContext := mkRespCtx {
  RequestID : string; CreationTime : Z; remoteDecode : bool; responseTokens : option Tokenized; DisplayModel : string; FinishReason : option string; UsageData : Usage;
  SendUsageData : bool; TopLogprobs : option Z; ToolCalls : option (list ToolCall); Instructions : option string; ecTransferParams : option (gmap string ECTransferParams); SendImage : bool
}.
Definition SetCreationTime (t : Z) (c : ResponseContext) : ResponseContext :=
  mkRespCtx (RequestID c) t (remoteDecode c) (responseTokens c) (DisplayModel c) (FinishReason c) (UsageData c) (SendUsageData c) (TopLogprobs c) (ToolCalls c) (Instructions c) (ecTransferParams c) (SendImage c).

Definition respIsEmpty (c : ResponseContext) : bool :=
  match responseTokens c with None => bool_decide (ToolCalls c = None) | Some t => (length (Dataset.Tokens t) =? 0)%nat end.


(** ** Usage *)

(** Completion tokens are summed; prompt tokens count once per request id. *)
Definition aggregateStep (acc : Usage * list string) (rc : ResponseContext) : Usage * list string :=
  let '(agg, seen) := acc in
  let u := UsageData rc in
  let completion := CompletionTokens agg + CompletionTokens u in
  if bool_decide (RequestID rc ∈ seen) then (mkUsage (PromptTokens agg) completion (TotalTokens agg) (promptTokensDetails agg), seen)
  else (mkUsage (PromptTokens agg + PromptTokens u) completion (TotalTokens agg)
          (match promptTokensDetails agg with Some d => Some d | None => promptTokensDetails u end), RequestID rc :: seen).
Definition aggregateUsage (l : list ResponseContext) : Usage :=
  match l with
  | [rc] => UsageData rc
  | _ =>
      let agg := (foldl aggregateStep (mkUsage 0 0 0 None, []) l).1 in
      mkUsage (PromptTokens agg) (CompletionTokens agg) (PromptTokens agg + CompletionTokens agg) (promptTokensDetails agg)
  end.

(** * Builders *)

(** [responseBuilder]; [St] is what a builder keeps between calls, and a nil chunk is [None]. *)
Record responseBuilder (St : Type) := mkBuilder {
  start : St;
  createResponse : Z → list ResponseContext → list Tokenized → payload;
  createUsageChunk : St → list ResponseContext → option sseChunk;
  createChunk : St → ResponseContext → option Tokenized → option ToolCall → string → option string → nat → St * option sseChunk;
  createInitialChunk : ResponseContext → option sseChunk;
  createFirstChunk : St → ResponseContext → nat → St * option sseChunk;
  createLastChunk : St → ResponseContext → string → nat → option sseChunk;
  createDoneChunk : option sseChunk;
  sendFinishReasonWithTokens : bool;
  createImageChunk : ResponseContext → nat → option sseChunk
}.
Arguments start {St}. Arguments createResponse {St}. Arguments createUsageChunk {St}. Arguments createChunk {St}. Arguments createInitialChunk {St}.
Arguments createFirstChunk {St}. Arguments createLastChunk {St}. Arguments createDoneChunk {St}. Arguments sendFinishReasonWithTokens {St}. Arguments createImageChunk {St}.

(** The first context of a nonempty list (an index out of range panics; the callers never pass an empty one). *)
Definition emptyCtx : ResponseContext := mkRespCtx "" 0 false None "" None (mkUsage 0 0 0 None) false None None None None false.
Definition firstCtx (l : list ResponseContext) : ResponseContext := default emptyCtx (head l).
Definition noTokens : Tokenized := mkTokenized [] [].
Definition stringsOf (t : option Tokenized) : list string := match t with Some t => Strings t | None => [] end.

(** ** Text completions *)

Definition textLogprobs (rc : ResponseContext) (t : Tokenized) : option TextLogprobs :=
  match TopLogprobs rc with
  | Some n => if 0 <? n then (match Strings t with [] => None | _ => Some (GenerateTextLogprobs (Strings t) n) end) else None
  | None => None
  end.
Definition textResponse (now : Z) (l : list ResponseContext) (tokens : list Tokenized) : payload :=
  let rc := firstCtx l in
  TextCompletionsResponse (CreateBaseCompletionsResponse textComplIDPrefix TextCompletionObject now (DisplayModel rc) (Some (aggregateUsage l)) (RequestID rc) (remoteDecode rc))
    (imap (λ i t, let c := default emptyCtx (l !! i) in mkTextChoice i (FinishReason c) (join (Strings t)) (textLogprobs c t)) tokens).
Definition textUsageChunk (l : list ResponseContext) : option sseChunk :=
  let rc := firstCtx l in
  if SendUsageData rc
  then Some (jsonDataChunk (TextCompletionsResponse
         (CreateBaseCompletionsResponse textComplIDPrefix TextCompletionObject (CreationTime rc) (DisplayModel rc) (Some (aggregateUsage l)) (RequestID rc) false) []))
  else None.
Definition textChunk (rc : ResponseContext) (tokens : option Tokenized) (finishReason : option string) (choiceIdx : nat) : sseChunk :=
  let tokensStr := join (stringsOf tokens) in
  let logprobs := match TopLogprobs rc, stringsOf tokens with
                  | Some n, _ :: _ => if 0 <? n then GenerateSingleTokenTextLogprobs tokensStr (Z.rem (CreationTime rc) 1000) n else None
                  | _, _ => None
                  end in
  jsonDataChunk (TextCompletionsResponse (CreateBaseCompletionsResponse textComplIDPrefix TextCompletionObject (CreationTime rc) (DisplayModel rc) None (RequestID rc) false)
    [mkTextChoice choiceIdx finishReason tokensStr logprobs]).
Definition textLastChunk (rc : ResponseContext) (finishReason : string) (choiceIdx : nat) : option sseChunk :=
  if String.eqb finishReason Requests.CacheThresholdReason then None else Some (textChunk rc None (FinishReason rc) choiceIdx).

Definition textComplHTTPRespBuilder : responseBuilder unit :=
  mkBuilder unit tt textResponse (λ _, textUsageChunk) (λ s rc tokens _ _ reason i, (s, Some (textChunk rc tokens reason i))) (λ _, None) (λ s _ _, (s, None))
    (λ _, textLastChunk) (Some doneMarker) false (λ _ _, None).

(** ** Chat completions *)

Definition imageURL (data : string) : string := "data:image/png;base64," +:+ data.
Definition syntheticImageData : string := "iVBORw0KGgoAAAANSUhEUgAAAAEAAAABCAYAAAAfFcSJAAAADUlEQVR42mNk+M9QDwADhgGAWjR9awAAAABJRU5ErkJggg==".
Definition imageBlock : ContentBlock := mkBlock "image_url" "" (Some (imageURL syntheticImageData)) None None.
Definition textBlock (s : string) : ContentBlock := mkBlock "text" s None None None.

Definition chatMessage (rc : ResponseContext) (t : Tokenized) : Message :=
  match ToolCalls rc with
  | Some calls => mkMessage RoleAssistant (if SendImage rc then mkChatContent "" [imageBlock] else noContent) calls ""
  | None =>
      let respText := join (Strings t) in
      mkMessage RoleAssistant (if SendImage rc then mkChatContent "" [textBlock respText; imageBlock] else mkChatContent respText []) [] ""
  end.
Definition chatLogprobs (rc : ResponseContext) (t : Tokenized) : option ChatLogprobs :=
  match TopLogprobs rc, ToolCalls rc with
  | Some n, None => match Strings t with [] => None | _ => Some (GenerateChatLogprobs (Strings t) n) end
  | _, _ => None
  end.
Definition chatResponse (now : Z) (l : list ResponseContext) (tokens : list Tokenized) : payload :=
  let rc := firstCtx l in
  ChatCompletionsResponse (CreateBaseCompletionsResponse chatComplIDPrefix ChatCompletionObject now (DisplayModel rc) (Some (aggregateUsage l)) (RequestID rc) (remoteDecode rc))
    (imap (λ i t, let c := default emptyCtx (l !! i) in mkChatChoice i (FinishReason c) (chatMessage c t) (chatLogprobs c t)) tokens) (ecTransferParams rc).
Definition chatUsageChunk (l : list ResponseContext) : option sseChunk :=
  let rc := firstCtx l in
  if SendUsageData rc
  then Some (jsonDataChunk (ChatCompletionsResponse
         (CreateBaseCompletionsResponse chatComplIDPrefix ChatCompletionChunkObject (CreationTime rc) (DisplayModel rc) (Some (aggregateUsage l)) (RequestID rc) false) [] None))
  else None.
Definition chunkBase (rc : ResponseContext) : baseResponse :=
  CreateBaseCompletionsResponse chatComplIDPrefix ChatCompletionChunkObject (CreationTime rc) (DisplayModel rc) None (RequestID rc) false.
Definition chatChunk (rc : ResponseContext) (tokens : option Tokenized) (tool : option ToolCall) (role : string) (finishReason : option string) (choiceIdx : nat) : sseChunk :=
  let tokensStr := join (stringsOf tokens) in
  let '(content, calls, logprobs) :=
    match tool, stringsOf tokens with
    | Some tool, _ => (noContent, [tool], None)
    | None, [] => (noContent, [], None)
    | None, _ => (if SendImage rc then mkChatContent "" [textBlock tokensStr] else mkChatContent tokensStr [], [],
                  match TopLogprobs rc with
                  | Some n => option_map (λ c, mkChatLogprobs [c]) (GenerateSingleTokenChatLogprobs tokensStr (Z.rem (CreationTime rc) 1000) n)
                  | None => None
                  end)
    end in
  jsonDataChunk (ChatCompletionsRespChunk (chunkBase rc) [mkChatChoice choiceIdx finishReason (mkMessage role content calls "") logprobs] "").
Definition chatLastChunk (rc : ResponseContext) (finishReason : string) (choiceIdx : nat) : option sseChunk :=
  if String.eqb finishReason ToolsFinishReason || String.eqb finishReason Requests.CacheThresholdReason then None else Some (chatChunk rc None None "" (FinishReason rc) choiceIdx).
Definition chatImageChunk (rc : ResponseContext) (choiceIdx : nat) : sseChunk :=
  jsonDataChunk (ChatCompletionsRespChunk (chunkBase rc) [mkChatChoice choiceIdx None (mkMessage "" (mkChatContent "" [imageBlock]) [] "") None] "image").

Definition chatComplHTTPRespBuilder : responseBuilder unit :=
  mkBuilder unit tt chatResponse (λ _, chatUsageChunk) (λ s rc tokens tool role reason i, (s, Some (chatChunk rc tokens tool role reason i))) (λ _, None)
    (λ s rc i, (s, Some (chatChunk rc None None RoleAssistant None i))) (λ _, chatLastChunk) (Some doneMarker) false (λ rc i, Some (chatImageChunk rc i)).

(** ** Generate *)

Definition generateResponse (_ : Z) (l : list ResponseContext) (tokens : list Tokenized) : payload :=
  let rc := firstCtx l in
  GenerateResponse (mkBase "" "" "" (if remoteDecode rc then Some BuildPrefillKVTransferParams else None) "" 0 None)
    [mkGenChoice 0 (FinishReason rc) (match tokens with t :: _ => Dataset.Tokens t | [] => [] end)] (RequestID rc) (ecTransferParams rc).
Definition generateUsageChunk (l : list ResponseContext) : option sseChunk :=
  let rc := firstCtx l in if SendUsageData rc then Some (jsonDataChunk (GenerateStreamResponse (RequestID rc) [] (Some (aggregateUsage l)))) else None.
Definition generateChunk (rc : ResponseContext) (tokens : option Tokenized) (finishReason : option string) (choiceIdx : nat) : sseChunk :=
  jsonDataChunk (GenerateStreamResponse (RequestID rc) [mkGenChoice choiceIdx finishReason (match tokens with Some t => Dataset.Tokens t | None => [] end)] None).

Definition generateHTTPRespBuilder : responseBuilder unit :=
  mkBuilder unit tt generateResponse (λ _, generateUsageChunk) (λ s rc tokens _ _ reason i, (s, Some (generateChunk rc tokens reason i))) (λ _, None) (λ s _ _, (s, None))
    (λ _ _ _ _, None) (Some doneMarker) true (λ _ _, None).

(** ** Responses *)

Definition ResponsesIDPrefix : string := "resp_".
Definition ResponsesMessageIDPrefix : string := "msg_".
Definition ResponsesFunctionCallIDPrefix : string := "fc_".
Definition ResponsesCallIDPrefix : string := "call_".
Definition ResponsesStatusCompleted : string := "completed".
Definition ResponsesStatusInProgress : string := "in_progress".
Definition ResponsesOutputText : string := "output_text".
Definition ResponsesEventCreated : string := "response.created".
Definition ResponsesEventInProgress : string := "response.in_progress".
Definition ResponsesEventOutputItemAdded : string := "response.output_item.added".
Definition ResponsesEventContentPartAdded : string := "response.content_part.added".
Definition ResponsesEventTextDelta : string := "response.output_text.delta".
Definition ResponsesEventTextDone : string := "response.output_text.done".
Definition ResponsesEventContentPartDone : string := "response.content_part.done".
Definition ResponsesEventFunctionCallArgumentsDelta : string := "response.function_call_arguments.delta".
Definition ResponsesEventFunctionCallArgumentsDone : string := "response.function_call_arguments.done".
Definition ResponsesEventOutputItemDone : string := "response.output_item.done".
Definition ResponsesEventCompleted : string := "response.completed".

Definition CreateResponsesResponse (model requestID : string) (createdAt : Z) (status : string) (instructions : option string) (output : list OutputItem) (usage : option ResponsesUsage) : ResponsesResponse :=
  mkResponses (mkBase (ResponsesIDPrefix +:+ requestID) model "response" None requestID 0 None) createdAt status instructions output usage.

(** [strings.Replace(s, old, new, 1)] for a nonempty [old]. *)
Fixpoint replaceFirst (old new s : string) : string :=
  if String.prefix old s then new +:+ Config.dropString (String.length old) s
  else match s with EmptyString => EmptyString | String c s => String c (replaceFirst old new s) end.

Definition functionCallOutputItem (tc : ToolCall) (status : string) : OutputItem :=
  let callID := replaceFirst ResponsesFunctionCallIDPrefix ResponsesCallIDPrefix (tc_ID tc) in
  let callID := if String.eqb callID (tc_ID tc) then ResponsesCallIDPrefix +:+ tc_ID tc else callID in
  FunctionCallOutputItem (tc_ID tc) callID (default ""%string (fc_Name (Function_ tc))) (fc_Arguments (Function_ tc)) status.

(** What the builder accumulates over a stream. *)
Record responsesState := mkResponsesState {
  accumulated : string; accumulatedTokens : Z; accumulatedLogprobs : list ResponsesLogprob; inToolMode : bool; accumulatedArgs : string; fcID : string; callID_ : string; toolName_ : string
}.

Definition isTools (rc : ResponseContext) : bool := match ToolCalls rc with Some (_ :: _) => true | _ => false end.
Definition responsesUsage (u : Usage) : ResponsesUsage := mkResponsesUsage (PromptTokens u) (CompletionTokens u) (TotalTokens u).

Definition responsesResponse (now : Z) (l : list ResponseContext) (tokens : list Tokenized) : payload :=
  let rc := firstCtx l in
  let strings := Strings (default noTokens (head tokens)) in
  let output :=
    match ToolCalls rc with
    | Some ((_ :: _) as calls) => (λ tc, functionCallOutputItem tc ResponsesStatusCompleted) <$> calls
    | _ => [MessageOutput "" RoleAssistant ResponsesStatusCompleted
              [mkOutput ResponsesOutputText (join strings) (option_map (GenerateMessagesLogprobs strings) (TopLogprobs rc))]]
    end in
  Responses (CreateResponsesResponse (DisplayModel rc) (RequestID rc) now ResponsesStatusCompleted (Instructions rc) output (Some (responsesUsage (UsageData rc)))).

Definition responsesUsageChunk (s : responsesState) (l : list ResponseContext) : option sseChunk :=
  let rc := firstCtx l in
  let output :=
    if inToolMode s then [FunctionCallOutputItem (fcID s) (callID_ s) (toolName_ s) (accumulatedArgs s) ResponsesStatusCompleted]
    else [MessageOutput (ResponsesMessageIDPrefix +:+ RequestID rc) RoleAssistant ResponsesStatusCompleted
            [mkOutput ResponsesOutputText (accumulated s)
               (match TopLogprobs rc, accumulatedLogprobs s with Some _, ((_ :: _) as lp) => Some lp | _, _ => None end)]] in
  Some (namedEventChunk [(ResponsesEventCompleted, ResponsesResponseEvent ResponsesEventCompleted
    (CreateResponsesResponse (DisplayModel rc) (RequestID rc) (CreationTime rc) ResponsesStatusCompleted (Instructions rc) output (Some (responsesUsage (aggregateUsage l)))))]).

Definition itemEvent (type itemID : string) : ResponsesItemEvent := mkItemEvent type itemID None None "" "" "" "" None.
Definition named (e : ResponsesItemEvent) : string * payload := (ie_Type e, ItemEvent e).

(** The log probabilities of the tokens of a delta, at the positions after those sent. *)
Definition deltaLogprobs (n : Z) (position : Z) (strings : list string) : list ResponsesLogprob :=
  omap id (imap (λ i tok, option_map asResponses (GenerateSingleTokenChatLogprobs tok (position + Z.of_nat i) n)) strings).

Definition createToolChunk (s : responsesState) (tool : ToolCall) : responsesState * sseChunk :=
  let args := fc_Arguments (Function_ tool) in
  let '(s, added) :=
    match fc_Name (Function_ tool), functionCallOutputItem tool ResponsesStatusInProgress with
    | Some _, FunctionCallOutputItem id call name _ status =>
        (mkResponsesState (accumulated s) (accumulatedTokens s) (accumulatedLogprobs s) (inToolMode s) (accumulatedArgs s) id call name,
         [named (mkItemEvent ResponsesEventOutputItemAdded "" (Some (FunctionCallOutputItem id call name "" status)) None "" "" "" "" None)])
    | _, _ => (s, [])
    end in
  (mkResponsesState (accumulated s) (accumulatedTokens s) (accumulatedLogprobs s) (inToolMode s) (accumulatedArgs s +:+ args) (fcID s) (callID_ s) (toolName_ s),
   namedEventChunk (added ++ [named (mkItemEvent ResponsesEventFunctionCallArgumentsDelta (fcID s) None None args "" "" "" None)])).

Definition responsesChunk (s : responsesState) (rc : ResponseContext) (tokens : option Tokenized) (tool : option ToolCall) : responsesState * option sseChunk :=
  match tool, stringsOf tokens with
  | Some tool, _ => let '(s, chunk) := createToolChunk s tool in (s, Some chunk)
  | None, [] => (s, None)
  | None, strings =>
      let delta := join strings in
      let logprobs := option_map (λ n, deltaLogprobs n (accumulatedTokens s) strings) (TopLogprobs rc) in
      (mkResponsesState (accumulated s +:+ delta) (accumulatedTokens s + Z.of_nat (length strings)) (accumulatedLogprobs s ++ default [] logprobs) (inToolMode s)
         (accumulatedArgs s) (fcID s) (callID_ s) (toolName_ s),
       Some (namedEventChunk [named (mkItemEvent ResponsesEventTextDelta (ResponsesMessageIDPrefix +:+ RequestID rc) None None delta "" "" "" logprobs)]))
  end.

Definition responsesInitialChunk (rc : ResponseContext) : sseChunk :=
  let resp := CreateResponsesResponse (DisplayModel rc) (RequestID rc) (CreationTime rc) ResponsesStatusInProgress (Instructions rc) [] None in
  namedEventChunk [(ResponsesEventCreated, ResponsesResponseEvent ResponsesEventCreated resp); (ResponsesEventInProgress, ResponsesResponseEvent ResponsesEventInProgress resp)].

Definition responsesFirstChunk (s : responsesState) (rc : ResponseContext) (_ : nat) : responsesState * option sseChunk :=
  let s := mkResponsesState (accumulated s) (accumulatedTokens s) (accumulatedLogprobs s) (isTools rc) (accumulatedArgs s) (fcID s) (callID_ s) (toolName_ s) in
  if isTools rc then (s, None)
  else
    let itemID := ResponsesMessageIDPrefix +:+ RequestID rc in
    let part := mkOutput ResponsesOutputText "" (option_map (λ _, []) (TopLogprobs rc)) in
    (s, Some (namedEventChunk
       [named (mkItemEvent ResponsesEventOutputItemAdded "" (Some (MessageOutput itemID RoleAssistant "in_progress" [])) None "" "" "" "" None);
        named (mkItemEvent ResponsesEventContentPartAdded itemID None (Some part) "" "" "" "" None)])).

Definition responsesLastChunk (s : responsesState) (rc : ResponseContext) (_ : string) (_ : nat) : option sseChunk :=
  Some (namedEventChunk
    (if inToolMode s then
       [named (mkItemEvent ResponsesEventFunctionCallArgumentsDone (fcID s) None None "" "" (toolName_ s) (accumulatedArgs s) None);
        named (mkItemEvent ResponsesEventOutputItemDone "" (Some (FunctionCallOutputItem (fcID s) (callID_ s) (toolName_ s) (accumulatedArgs s) ResponsesStatusCompleted)) None "" "" "" "" None)]
     else
       let itemID := ResponsesMessageIDPrefix +:+ RequestID rc in
       let none := option_map (λ _, []) (TopLogprobs rc) in
       [named (mkItemEvent ResponsesEventTextDone itemID None None "" (accumulated s) "" "" none);
        named (mkItemEvent ResponsesEventContentPartDone itemID None (Some (mkOutput ResponsesOutputText (accumulated s) none)) "" "" "" "" None);
        named (mkItemEvent ResponsesEventOutputItemDone "" (Some (MessageOutput itemID RoleAssistant ResponsesStatusCompleted [mkOutput ResponsesOutputText (accumulated s) none])) None "" "" "" "" None)])).

Definition responsesHTTPRespBuilder : responseBuilder responsesState :=
  mkBuilder responsesState (mkResponsesState "" 0 [] false "" "" "" "") responsesResponse responsesUsageChunk
    (λ s rc tokens tool _ _ _, responsesChunk s rc tokens tool) (λ rc, Some (responsesInitialChunk rc)) responsesFirstChunk responsesLastChunk None false (λ _ _, None).

(** ** Messages *)

Section MessagesBuilder.
(** [json.Unmarshal] of arguments into a map; nil on an error. *)
Variable Unmarshal : string → option (list (string * Tools.json)).

Record messagesState := mkMessagesState { contentBlockIndex : Z; m_inToolMode : bool }.

Definition stopReason (finishReason : string) : string :=
  if String.eqb finishReason ToolsFinishReason then "tool_use"
  else if String.eqb finishReason Requests.LengthFinishReason || String.eqb finishReason Requests.CacheThresholdReason then "max_tokens"
  else "end_turn".

Definition toolUse (tc : ToolCall) (input : list (string * Tools.json)) : MessagesContentBlock := mkMBlock "tool_use" "" (tc_ID tc) (default ""%string (fc_Name (Function_ tc))) input.
Definition messagesResponse (_ : Z) (l : list ResponseContext) (tokens : list Tokenized) : payload :=
  let rc := firstCtx l in
  let content :=
    match ToolCalls rc with
    | Some ((_ :: _) as calls) =>
        (λ tc, toolUse tc (let args := fc_Arguments (Function_ tc) in if String.eqb args "" then [] else default [] (Unmarshal args))) <$> calls
    | _ => [mkMBlock "text" (join (Strings (default noTokens (head tokens)))) "" "" []]
    end in
  Messages (mkMessages ("msg_" +:+ RequestID rc) RoleAssistant content (DisplayModel rc) (Some (stopReason (default ""%string (FinishReason rc))))
    (PromptTokens (UsageData rc)) (CompletionTokens (UsageData rc)) (RequestID rc)).

Definition messagesInitialChunk (rc : ResponseContext) : sseChunk :=
  namedEventChunk [("message_start"%string, MessageStartEvent (mkMessages ("msg_" +:+ RequestID rc) RoleAssistant [] (DisplayModel rc) None (PromptTokens (UsageData rc)) 0 (RequestID rc)))].

Definition ping : string * payload := ("ping"%string, PingEvent).
Definition messagesFirstChunk (s : messagesState) (rc : ResponseContext) (_ : nat) : messagesState * option sseChunk :=
  (mkMessagesState (contentBlockIndex s) (isTools rc),
   Some (namedEventChunk (if isTools rc then [ping] else [("content_block_start"%string, ContentBlockStartEvent 0 (mkMBlock "text" "" "" "" [])); ping]))).

Definition messagesChunk (s : messagesState) (tokens : option Tokenized) (tool : option ToolCall) : messagesState * option sseChunk :=
  match tool, stringsOf tokens with
  | Some tool, _ =>
      let '(s, opened) :=
        match fc_Name (Function_ tool) with
        | Some _ =>
            (mkMessagesState (contentBlockIndex s + 1) (m_inToolMode s),
             (if 0 <? contentBlockIndex s then [("content_block_stop"%string, ContentBlockStopEvent (contentBlockIndex s - 1))] else []) ++
             [("content_block_start"%string, ContentBlockStartEvent (contentBlockIndex s) (toolUse tool []))])
        | None => (s, [])
        end in
      (s, Some (namedEventChunk (opened ++ [("content_block_delta"%string, ContentBlockDeltaEvent (contentBlockIndex s - 1) "input_json_delta" "" (fc_Arguments (Function_ tool)))])))
  | None, [] => (s, None)
  | None, strings => (s, Some (namedEventChunk [("content_block_delta"%string, ContentBlockDeltaEvent 0 "text_delta" (join strings) "")]))
  end.

Definition messagesLastChunk (s : messagesState) (rc : ResponseContext) (finishReason : string) (_ : nat) : option sseChunk :=
  let blockIdx := if m_inToolMode s && (0 <? contentBlockIndex s) then contentBlockIndex s - 1 else 0 in
  Some (namedEventChunk [("content_block_stop"%string, ContentBlockStopEvent blockIdx);
    ("message_delta"%string, MessageDeltaEvent (stopReason finishReason) (CompletionTokens (UsageData rc))); ("message_stop"%string, MessageStopEvent)]).

Definition messagesHTTPRespBuilder : responseBuilder messagesState :=
  mkBuilder messagesState (mkMessagesState 0 false) messagesResponse (λ _ _, None) (λ s _ tokens tool _ _ _, messagesChunk s tokens tool) (λ rc, Some (messagesInitialChunk rc))
    messagesFirstChunk messagesLastChunk None false (λ _ _, None).
End MessagesBuilder.

(** ** Frames on the wire *)

Section Wire.
Variable Marshal : payload → result string string.
Definition newline : string := String (Ascii.ascii_of_nat 10) EmptyString.
Fixpoint eventBytes (events : list (string * payload)) : result string string :=
  match events with
  | [] => Ok ""%string
  | (name, data) :: events => let! b := Marshal data in let! rest := eventBytes events in Ok ("event: " +:+ name +:+ newline +:+ "data: " +:+ b +:+ newline +:+ newline +:+ rest)
  end.
Definition SSEBytes (chunk : sseChunk) : result string string :=
  match chunk with
  | jsonDataChunk data => let! b := Marshal data in Ok ("data: " +:+ b +:+ newline +:+ newline)
  | namedEventChunk events => eventBytes events
  | doneMarker => Ok ("data: [DONE]" +:+ newline +:+ newline)
  end.
End Wire.

End Response.
