(* ===== verification/Streaming.v ===== *)
(** The way of a response to the client: the messages a worker writes for one choice
    ([simulateResponseProcessing] of [pkg/simulator/simulator.go]), and their delivery by
    [pkg/communication/http.go], at once or as a stream of frames.  The channel hands the
    messages of the choices over in some interleaving. *)

From stdpp Require Import pretty.
From S2P Require Import Prelude GoFloat GoRandom BlockCache Lora KVEvents Requests Dataset Config Tools Logprobs Response.
Import Dataset Response.
Open Scope Z_scope.

Module Streaming.

(** * The producer *)

Definition ResponseStatusCreated : string := "created".
Definition ResponseEndOfTokens : string := "eot".

(** A tool call is shared with the context: its position in the list is its address. *)
Record ResponseInfo := mkInfo { Tokens_ : option Tokenized; RespCtx : option ResponseContext; Err_ : option Error; ToolCall_ : option (nat * ToolCall); Status : string; ChoiceIdx : nat }.

(** The messages of tokens [i], [i+1], ...; an index out of range panics. *)
Fixpoint tokenMessages (rc : ResponseContext) (choiceIdx : nat) (strings : list string) (total i : nat) (tokens : list Z) : option (list ResponseInfo) :=
  match tokens with
  | [] => Some []
  | token :: tokens =>
      strs ← (if (length strings =? 0)%nat then Some [] else s ← strings !! i; Some [s]);
      rest ← tokenMessages rc choiceIdx strings total (S i) tokens;
      Some (mkInfo (Some (mkTokenized [token] strs)) (Some rc) None None (if (i =? total - 1)%nat then ResponseEndOfTokens else "") choiceIdx :: rest)
  end.

Fixpoint argumentMessages (rc : ResponseContext) (choiceIdx tcIdx : nat) (tc : ToolCall) (lastCall : bool) (args : Tokenized) (i : nat) (tokens : list Z) : option (list ResponseInfo) :=
  match tokens with
  | [] => Some []
  | token :: tokens =>
      s ← Strings args !! i;
      rest ← argumentMessages rc choiceIdx tcIdx tc lastCall args (S i) tokens;
      Some (mkInfo (Some (mkTokenized [token] [s])) (Some rc) None (Some (tcIdx, tc))
              (if lastCall && (i =? length (Dataset.Tokens args) - 1)%nat then ResponseEndOfTokens else "") choiceIdx :: rest)
  end.

(** Calls without tokenized arguments dereference nil. *)
Fixpoint toolMessages (rc : ResponseContext) (choiceIdx total tcIdx : nat) (calls : list ToolCall) : option (list ResponseInfo) :=
  match calls with
  | [] => Some []
  | tc :: calls =>
      args ← fc_tokenized (Function_ tc);
      messages ← argumentMessages rc choiceIdx tcIdx tc (tcIdx =? total - 1)%nat args 0 (Dataset.Tokens args);
      rest ← toolMessages rc choiceIdx total (S tcIdx) calls;
      Some (messages ++ rest)
  end.

Definition plain (rc : ResponseContext) (choiceIdx : nat) (status : string) : ResponseInfo := mkInfo None (Some rc) None None status choiceIdx.

Definition simulateResponseProcessing (rc : ResponseContext) (choiceIdx : nat) : option (list ResponseInfo) :=
  if bool_decide (FinishReason rc = Some Requests.CacheThresholdReason) then Some [plain rc choiceIdx ""]
  else
    rest ← (if respIsEmpty rc then Some [plain rc choiceIdx ""]
            else match responseTokens rc with
                 | Some t => tokenMessages rc choiceIdx (Strings t) (length (Dataset.Tokens t)) 0 (Dataset.Tokens t)
                 | None => let calls := default [] (ToolCalls rc) in toolMessages rc choiceIdx (length calls) 0 calls
                 end);
    Some (plain rc choiceIdx ResponseStatusCreated :: rest).

(** A traced request has a text for each of its tokens; an index out of range panics, and
    so does a response of tool calls, which has no tokens. *)
Fixpoint traceTokenMessages (rc : ResponseContext) (choiceIdx : nat) (strings : list string) (total i : nat) (tokens : list Z) : option (list ResponseInfo) :=
  match tokens with
  | [] => Some []
  | token :: tokens =>
      s ← strings !! i;
      rest ← traceTokenMessages rc choiceIdx strings total (S i) tokens;
      Some (mkInfo (Some (mkTokenized [token] [s])) (Some rc) None None (if (i =? total - 1)%nat then ResponseEndOfTokens else "") choiceIdx :: rest)
  end.

Definition simulateTraceResponseProcessing (rc : ResponseContext) (choiceIdx : nat) : option (list ResponseInfo) :=
  if bool_decide (FinishReason rc = Some Requests.CacheThresholdReason) then Some [plain rc choiceIdx ""]
  else
    rest ← (if respIsEmpty rc then Some []
            else t ← responseTokens rc; traceTokenMessages rc choiceIdx (Strings t) (length (Dataset.Tokens t)) 0 (Dataset.Tokens t));
    Some (plain rc choiceIdx ResponseStatusCreated :: rest).

(** What [processRequest] sends for a response: a request with a recorded execution is replayed. *)
Definition workerMessages (traced : bool) (rc : ResponseContext) (choiceIdx : nat) : option (list ResponseInfo) :=
  if traced then simulateTraceResponseProcessing rc choiceIdx else simulateResponseProcessing rc choiceIdx.

(** The capacity of the channel of a request, made by [HandleRequest]: a write to a full channel is dropped. *)
Definition responseChannelSize (maxModelLen : Z) (numChoices : nat) : Z := i64 (maxModelLen * Z.of_nat numChoices).

(** * The replies *)

Inductive streamEnd := Complete | Broken (e : Error) | Crashed.
Inductive reply := ErrorReply (e : Error) | Body (p : payload) | Stream (frames : list sseChunk) (how : streamEnd) | HandlerPanic.

Section Delivery.
Context {St : Type}.
Variable b : responseBuilder St.
(** [time.Now().Unix()]. *)
Variable now : Z.

Definition missing (choiceIdx : nat) : Error := NewError ("Response body creation failed: no tokens for choice index: " +:+ pretty (Z.of_nat choiceIdx)) 500.

(** The first choice without a context. *)
Definition firstMissing (l : list (option ResponseContext)) : option nat := fst <$> list_find (λ rc, rc = None) l.

(** ** At once *)

Record collected := mkCollected { texts : list Tokenized; contexts : list (option ResponseContext) }.

(** A message of a choice that does not exist is out of range. *)
Definition collect (m : ResponseInfo) (c : collected) : option collected :=
  old ← texts c !! ChoiceIdx m; ctx ← contexts c !! ChoiceIdx m;
  Some (mkCollected (match Tokens_ m with Some t => <[ChoiceIdx m := Append old t]> (texts c) | None => texts c end)
          (match ctx with None => <[ChoiceIdx m := RespCtx m]> (contexts c) | Some _ => contexts c end)).

Fixpoint collectAll (msgs : list ResponseInfo) (c : collected) : option (result Error collected) :=
  match msgs with
  | [] => Some (Ok c)
  | m :: msgs => match Err_ m with Some e => Some (Err e) | None => c ← collect m c; collectAll msgs c end
  end.

Variable Marshal : payload → result string string.

Definition sendNonStream (numChoices : nat) (msgs : list ResponseInfo) : reply :=
  match collectAll msgs (mkCollected (replicate numChoices noTokens) (replicate numChoices None)) with
  | None => HandlerPanic
  | Some (Err e) => ErrorReply e
  | Some (Ok c) =>
      match firstMissing (contexts c) with
      | Some i => ErrorReply (missing i)
      | None =>
          let resp := createResponse b now (omap id (contexts c)) (texts c) in
          match Marshal resp with Ok _ => Body resp | Err e => ErrorReply (NewError ("Response body creation failed, " +:+ e) 500) end
      end
  end.

(** ** As a stream *)

(** [Some e]: the write of a frame fails after the frames sent before. *)
Variable sendChunk : list sseChunk → sseChunk → option string.

Record streamState := mkStream {
  frames : list sseChunk; builder : St; respCtx : option ResponseContext; initialSent : bool; firstTokens : list bool; lastToolCall : list (option nat); toolCallIndex : list Z;
  respCtxPerChoice : list (option ResponseContext)
}.
Definition newStreamState (numChoices : nat) : streamState :=
  mkStream [] (start b) None false (replicate numChoices true) (replicate numChoices None) (replicate numChoices 0) (replicate numChoices None).

Definition set_frames (f : list sseChunk) (s : streamState) : streamState := mkStream f (builder s) (respCtx s) (initialSent s) (firstTokens s) (lastToolCall s) (toolCallIndex s) (respCtxPerChoice s).
Definition set_builder (x : St) (s : streamState) : streamState := mkStream (frames s) x (respCtx s) (initialSent s) (firstTokens s) (lastToolCall s) (toolCallIndex s) (respCtxPerChoice s).
Definition set_respCtx (c : ResponseContext) (s : streamState) : streamState := mkStream (frames s) (builder s) (Some c) (initialSent s) (firstTokens s) (lastToolCall s) (toolCallIndex s) (respCtxPerChoice s).
Definition set_initialSent (s : streamState) : streamState := mkStream (frames s) (builder s) (respCtx s) true (firstTokens s) (lastToolCall s) (toolCallIndex s) (respCtxPerChoice s).
Definition set_firstTokens (l : list bool) (s : streamState) : streamState := mkStream (frames s) (builder s) (respCtx s) (initialSent s) l (lastToolCall s) (toolCallIndex s) (respCtxPerChoice s).
Definition set_tool (last : list (option nat)) (index : list Z) (s : streamState) : streamState := mkStream (frames s) (builder s) (respCtx s) (initialSent s) (firstTokens s) last index (respCtxPerChoice s).
Definition set_contexts (l : list (option ResponseContext)) (s : streamState) : streamState := mkStream (frames s) (builder s) (respCtx s) (initialSent s) (firstTokens s) (lastToolCall s) (toolCallIndex s) l.

(** A step of the goroutine: it goes on, leaves the loop, ends the stream, or crashes. *)
Inductive progress := Continue (s : streamState) | Break (s : streamState) | End_ (s : streamState) (how : streamEnd) | Panic.
Definition step : Type := streamState → progress.
Definition andThen (a c : step) : step := λ s, match a s with Continue s => c s | p => p end.
Notation "a >>> c" := (andThen a c) (at level 60, right associativity).

(** [sendOrFail]: nil is skipped, and a failed write ends the stream. *)
Definition sendOrFail (failMsg : string) (chunk : option sseChunk) : step :=
  λ s, match chunk with
       | None => Continue s
       | Some chunk =>
           match sendChunk (frames s) chunk with
           | None => Continue (set_frames (frames s ++ [chunk]) s)
           | Some e => End_ s (Broken (NewError (failMsg +:+ e) 500))
           end
       end.

(** A frame with the error and the terminator; failed writes are ignored. *)
Definition tryFrame (chunk : sseChunk) (f : list sseChunk) : list sseChunk := match sendChunk f chunk with None => f ++ [chunk] | Some _ => f end.
Definition sendStreamErrorAndDone (e : Error) : step :=
  λ s, End_ (set_frames (tryFrame doneMarker (tryFrame (jsonDataChunk (ErrorResponse e)) (frames s))) s) (Broken e).

Definition firstChunk (rc : ResponseContext) (choiceIdx : nat) : step :=
  λ s, match firstTokens s !! choiceIdx with
       | None => Panic
       | Some false => Continue s
       | Some true =>
           let '(st, chunk) := createFirstChunk b (builder s) rc choiceIdx in
           (sendOrFail "Sending first stream chunk failed, " chunk >>> (λ s, Continue (set_firstTokens (<[choiceIdx := false]> (firstTokens s)) s))) (set_builder st s)
       end.

Definition sendStreamedTools (rc : ResponseContext) (strings : list string) (tc : ToolCall) (index : Z) (choiceIdx : nat) : step :=
  λ s,
    let insert := mkToolCall (mkFunctionCall (if index =? 0 then fc_Name (Function_ tc) else None) (join strings) None) (tc_ID tc) (tc_Type tc) (tc_Index tc) in
    match fc_tokenized (Function_ tc), FinishReason rc with
    | Some args, Some reason =>
        let finishReasonToSend :=
          if (index =? Length args - 1) && (String.eqb reason Requests.LengthFinishReason || String.eqb reason ToolsFinishReason || String.eqb reason Requests.CacheThresholdReason)
          then Some reason else None in
        let '(st, chunk) := createChunk b (builder s) rc None (Some insert) "" finishReasonToSend choiceIdx in
        match chunk with None => Panic | Some _ => sendOrFail "Sending tools chunk failed, " chunk (set_builder st s) end
    | _, _ => Panic
    end.

Definition emitTool (rc : ResponseContext) (strings : list string) (tcIdx : nat) (tc : ToolCall) (choiceIdx : nat) : step :=
  λ s, match lastToolCall s !! choiceIdx, toolCallIndex s !! choiceIdx with
       | Some last, Some n =>
           let index := if bool_decide (last = Some tcIdx) then n + 1 else 0 in
           (sendStreamedTools rc strings tc index choiceIdx >>>
            (λ s, Continue (set_tool (<[choiceIdx := Some tcIdx]> (lastToolCall s)) (toolCallIndex s) s)))
           (set_tool (lastToolCall s) (<[choiceIdx := index]> (toolCallIndex s)) s)
       | _, _ => Panic
       end.

Definition emitTokens (rc : ResponseContext) (t : Tokenized) (lastTokensChunk : bool) (choiceIdx : nat) : step :=
  λ s, let finishReason := if lastTokensChunk && sendFinishReasonWithTokens b then FinishReason rc else None in
       let '(st, chunk) := createChunk b (builder s) rc (Some t) None "" finishReason choiceIdx in
       sendOrFail "Sending stream chunk failed, " chunk (set_builder st s).

Definition emitResponseChunks (rc : ResponseContext) (m : ResponseInfo) : step :=
  match Tokens_ m with
  | Some t =>
      firstChunk rc (ChoiceIdx m) >>>
      match ToolCall_ m with
      | Some (tcIdx, tc) => emitTool rc (Strings t) tcIdx tc (ChoiceIdx m)
      | None => emitTokens rc t (bool_decide (Status m = ResponseEndOfTokens)) (ChoiceIdx m)
      end
  | None =>
      if bool_decide (FinishReason rc = Some Requests.CacheThresholdReason)
      then (λ s, let '(st, chunk) := createChunk b (builder s) rc None None "" (FinishReason rc) (ChoiceIdx m) in
                 (sendOrFail "Sending finish chunk failed, " chunk >>> Break) (set_builder st s))
      else sendStreamErrorAndDone (NewError "unexpected response part in streaming" 500)
  end.

(** The initial chunk is sent once, by the first choice that was created. *)
Definition createdStep (rc : ResponseContext) : step :=
  λ s, if initialSent s then Continue s else (sendOrFail "Sending first stream chunk failed, " (createInitialChunk b rc) >>> (λ s, Continue (set_initialSent s))) s.

(** The contexts are shared: the first one seen gets its creation time before it is kept for its choice. *)
Definition handleMessage (m : ResponseInfo) : step :=
  λ s, match Err_ m with
       | Some e => sendStreamErrorAndDone e s
       | None =>
           match RespCtx m with
           | None => Panic
           | Some own =>
               let '(rc, own) := match respCtx s with None => (SetCreationTime now own, SetCreationTime now own) | Some rc => (rc, own) end in
               match respCtxPerChoice s !! ChoiceIdx m with
               | None => Panic
               | Some known =>
                   (if bool_decide (Status m = ResponseStatusCreated) then createdStep rc else emitResponseChunks rc m)
                     (set_contexts (match known with None => <[ChoiceIdx m := Some own]> (respCtxPerChoice s) | Some _ => respCtxPerChoice s end) (set_respCtx rc s))
               end
           end
       end.

Fixpoint handleMessages (msgs : list ResponseInfo) (s : streamState) : progress :=
  match msgs with
  | [] => Break s
  | m :: msgs => match handleMessage m s with Continue s => handleMessages msgs s | p => p end
  end.

(** ** After the last message *)

Definition sendImages (rc : ResponseContext) (n : nat) : step :=
  if SendImage rc then foldr (λ i a, sendOrFail "Sending image chunk failed, " (createImageChunk b rc i) >>> a) Continue (seq 0 n) else Continue.

(** A context without a finish reason dereferences nil. *)
Definition lastChunks (rc : ResponseContext) (l : list ResponseContext) : step :=
  foldr (λ x a, (λ s, match FinishReason x.2 with None => Panic | Some reason => sendOrFail "Sending last stream chunk failed, " (createLastChunk b (builder s) rc reason x.1) s end) >>> a)
    Continue (imap pair l).

Definition finalizeStream (rc : ResponseContext) (l : list ResponseContext) : step :=
  lastChunks rc l >>> (λ s, sendOrFail "Sending usage chunk failed, " (createUsageChunk b (builder s) l) s) >>> sendOrFail "Sending [DONE] chunk failed, " (createDoneChunk b) >>> (λ s, End_ s Complete).

Definition sendStream (numChoices : nat) (msgs : list ResponseInfo) : reply :=
  match handleMessages msgs (newStreamState numChoices) with
  | Panic => Stream [] Crashed
  | End_ s how => Stream (frames s) how
  | Continue s | Break s =>
      match firstMissing (respCtxPerChoice s), respCtx s with
      | Some i, _ => Stream (frames s) (Broken (missing i))
      | None, None => Stream (frames s) Crashed
      | None, Some rc =>
          match (sendImages rc numChoices >>> finalizeStream rc (omap id (respCtxPerChoice s))) s with
          | Continue s | Break s => Stream (frames s) Complete
          | End_ s how => Stream (frames s) how
          | Panic => Stream (frames s) Crashed
          end
      end
  end.

(** An error that comes first is replied with its own status. *)
Definition handleStream (numChoices : nat) (msgs : list ResponseInfo) : reply :=
  match msgs with
  | m :: _ => match Err_ m with Some e => ErrorReply e | None => sendStream numChoices msgs end
  | [] => sendStream numChoices msgs
  end.

End Delivery.

End Streaming.
