(* ===== verification/StreamingProps.v ===== *)
(** Streams and plain responses carry the same text. *)

From S2P Require Import Prelude GoFloat GoRandom BlockCache Lora KVEvents Requests Dataset Config Tools Logprobs Response Streaming.
Import Dataset Response Streaming.
Open Scope Z_scope.

Module StreamingProps.

(** * Interleavings *)

(** A merge of the messages of the choices, each in its own order. *)
Inductive Interleaving {A} : list (list A) → list A → Prop :=
| merged_nil ls : Forall (λ l, l = []) ls → Interleaving ls []
| merged_cons ls i x rest l : ls !! i = Some (x :: rest) → Interleaving (<[i := rest]> ls) l → Interleaving ls (x :: l).

(** When every message says which list it is from, the merge restricted to a choice is its list. *)
Lemma interleaving_filter (ls : list (list ResponseInfo)) l :
  Interleaving ls l → (∀ i k m, ls !! i = Some k → m ∈ k → ChoiceIdx m = i) → ∀ i k, ls !! i = Some k → filter (λ m, ChoiceIdx m = i) l = k.
Proof.
  induction 1 as [ls Hnil|ls j x rest l Hj _ IH]; intros Hc i k Hi.
  { rewrite Forall_lookup in Hnil. by rewrite (Hnil i k Hi). }
  assert (ChoiceIdx x = j) as Hx by (eapply Hc; [exact Hj|by left]).
  assert (∀ i' k' m, <[j := rest]> ls !! i' = Some k' → m ∈ k' → ChoiceIdx m = i') as Hc'.
  { intros i' k' m Hi' Hm. destruct (decide (i' = j)) as [->|Hne]; [|rewrite list_lookup_insert_ne in Hi' by done; by eapply Hc].
    rewrite list_lookup_insert_eq in Hi' by (by eapply lookup_lt_Some). injection Hi' as <-. eapply Hc; [exact Hj|by right]. }
  specialize (IH Hc'). rewrite filter_cons. destruct (decide (ChoiceIdx x = i)) as [Hxi|Hxi].
  - subst i. rewrite Hx in *. rewrite Hi in Hj. injection Hj as ->. f_equal. rewrite <- Hx. apply IH. rewrite Hx. apply list_lookup_insert_eq. by eapply lookup_lt_Some.
  - apply IH. rewrite list_lookup_insert_ne; [done|]. intros <-. done.
Qed.

Lemma interleaving_elem {A} (ls : list (list A)) l : Interleaving ls l → ∀ x, x ∈ l → ∃ i k, ls !! i = Some k ∧ x ∈ k.
Proof.
  induction 1 as [ls Hnil|ls j y rest l Hj _ IH]; intros x Hx; [by apply not_elem_of_nil in Hx|].
  apply elem_of_cons in Hx as [->|Hx]; [exists j, (y :: rest); split; [done|by left]|]. destruct (IH x Hx) as (i & k & Hi & Hk).
  destruct (decide (i = j)) as [->|Hne]; [|rewrite list_lookup_insert_ne in Hi by done; eauto].
  rewrite list_lookup_insert_eq in Hi by (by eapply lookup_lt_Some). injection Hi as <-. exists j, (y :: rest). split; [done|by right].
Qed.

(** * What a choice produces *)

(** A response of tokens, with a text for each. *)
Definition TokenResponse (rc : ResponseContext) : Prop :=
  ∃ t reason, responseTokens rc = Some t ∧ Dataset.Tokens t ≠ [] ∧ length (Strings t) = length (Dataset.Tokens t) ∧ FinishReason rc = Some reason ∧ reason ≠ Requests.CacheThresholdReason.

(** The texts and tokens of a choice's messages. *)
Definition textsOf (l : list ResponseInfo) : list string := concat ((λ m, stringsOf (Tokens_ m)) <$> l).
Definition idsOf (l : list ResponseInfo) : list Z := concat ((λ m, match Tokens_ m with Some t => Dataset.Tokens t | None => [] end) <$> l).

(** A message of a token response. *)
Definition Good (cs : list ResponseContext) (m : ResponseInfo) : Prop :=
  Err_ m = None ∧ ToolCall_ m = None ∧ (∃ rc, cs !! ChoiceIdx m = Some rc ∧ RespCtx m = Some rc) ∧
  ((Tokens_ m = None ∧ Status m = ResponseStatusCreated) ∨ ((∃ t, Tokens_ m = Some t) ∧ Status m ≠ ResponseStatusCreated)).

Lemma tokenMessages_ok cs rc i strings total k tokens :
  cs !! i = Some rc → length strings ≠ 0%nat → (k + length tokens)%nat = length strings →
  ∃ l, tokenMessages rc i strings total k tokens = Some l ∧ textsOf l = drop k strings ∧ idsOf l = tokens ∧ Forall (λ m, Good cs m ∧ ChoiceIdx m = i) l.
Proof.
  intros Hi Hne. revert k. induction tokens as [|z tokens IH]; intros k Hk; cbn [tokenMessages].
  { exists []. split_and!; [done| |done|constructor]. rewrite drop_ge; [done|]. cbn in Hk. lia. }
  cbn in Hk. destruct (Nat.eqb_spec (length strings) 0); [done|]. destruct (lookup_lt_is_Some_2 strings k ltac:(lia)) as [s Hs]. rewrite Hs. cbn.
  destruct (IH (S k) ltac:(lia)) as (l & -> & Ht & Hids & Hg). cbn. eexists. split; [done|]. split_and!.
  - cbn. fold (textsOf l). rewrite Ht. symmetry. by apply drop_S.
  - cbn. fold (idsOf l). by rewrite Hids.
  - constructor; [|done]. split; [|done]. split_and!; [done|done|by eexists|]. right. cbn. split; [by eexists|]. by destruct (k =? total - 1)%nat.
Qed.

Lemma produce_ok cs rc i :
  cs !! i = Some rc → TokenResponse rc →
  ∃ t l, responseTokens rc = Some t ∧ simulateResponseProcessing rc i = Some l ∧ l ≠ [] ∧ textsOf l = Strings t ∧ idsOf l = Dataset.Tokens t ∧ Forall (λ m, Good cs m ∧ ChoiceIdx m = i) l.
Proof.
  intros Hi (t & reason & Ht & Hne & Hlen & Hr & Hreason). unfold simulateResponseProcessing. rewrite bool_decide_eq_false_2 by (rewrite Hr; congruence).
  unfold respIsEmpty. rewrite Ht. assert (length (Dataset.Tokens t) ≠ 0)%nat by (destruct (Dataset.Tokens t); [done|cbn; lia]). destruct (Nat.eqb_spec (length (Dataset.Tokens t)) 0); [done|].
  destruct (tokenMessages_ok cs rc i (Strings t) (length (Dataset.Tokens t)) 0 (Dataset.Tokens t) Hi ltac:(lia) ltac:(lia)) as (l & -> & Htx & Hid & Hg).
  cbn. exists t. eexists. split; [done|]. split; [done|]. split_and!; [done|exact Htx|exact Hid|].
  constructor; [|done]. split; [|done]. split_and!; [done|done|by eexists|]. by left.
Qed.

(** A replayed response sends the messages of any other response of tokens. *)
Lemma traceTokenMessages_same rc i strings total k tokens :
  length strings ≠ 0%nat → traceTokenMessages rc i strings total k tokens = tokenMessages rc i strings total k tokens.
Proof.
  intros Hne. revert k. induction tokens as [|z tokens IH]; intros k; [done|]. cbn [tokenMessages traceTokenMessages].
  destruct (Nat.eqb_spec (length strings) 0); [done|]. rewrite IH. by destruct (strings !! k).
Qed.
Lemma workerMessages_same traced rc i : TokenResponse rc → workerMessages traced rc i = simulateResponseProcessing rc i.
Proof.
  destruct traced; [|done]. intros (t & reason & Ht & Hne & Hlen & _). cbn [workerMessages]. unfold simulateTraceResponseProcessing, simulateResponseProcessing.
  case_bool_decide; [done|]. unfold respIsEmpty. rewrite Ht. destruct (Nat.eqb_spec (length (Dataset.Tokens t)) 0); [by destruct (Dataset.Tokens t)|].
  cbn [mbind option_bind]. rewrite traceTokenMessages_same by lia. done.
Qed.

(** * Builders of text *)

Definition ofChunk {A} (f : sseChunk → list A) (c : option sseChunk) : list A := match c with Some c => f c | None => [] end.

(** What the delivery needs of a builder: only the chunks made from tokens carry text
    (as [delta] reads it off a frame), and they carry that of their choice. *)
Class TextBuilder {St} (b : responseBuilder St) (ok : nat → Prop) (delta : nat → sseChunk → list string) : Prop := {
  tb_chunk s rc t reason j i : ok j → ok i → join (ofChunk (delta i) (createChunk b s rc (Some t) None "" reason j).2) = if bool_decide (i = j) then join (Strings t) else "";
  tb_first s rc j i : ok j → ok i → join (ofChunk (delta i) (createFirstChunk b s rc j).2) = "";
  tb_initial rc i : ok i → join (ofChunk (delta i) (createInitialChunk b rc)) = "";
  tb_last s rc reason j i : ok j → ok i → join (ofChunk (delta i) (createLastChunk b s rc reason j)) = "";
  tb_usage s l i : ok i → join (ofChunk (delta i) (createUsageChunk b s l)) = "";
  tb_done i : ok i → join (ofChunk (delta i) (createDoneChunk b)) = "";
  tb_image rc j i : ok j → ok i → join (ofChunk (delta i) (createImageChunk b rc j)) = ""
}.

Section Delivered.
Context {St : Type} (b : responseBuilder St) (ok : nat → Prop) (delta : nat → sseChunk → list string) `{!TextBuilder b ok delta}.
Variable now : Z.
Variable sendChunk : list sseChunk → sseChunk → option string.
Context (Hsend : ∀ f c, sendChunk f c = None).

(** The text of a choice in the frames. *)
Definition streamed (i : nat) (f : list sseChunk) : string := join (concat (delta i <$> f)).

Lemma streamed_snoc i f c : streamed i (f ++ [c]) = streamed i f +:+ join (delta i c).
Proof. unfold streamed. rewrite fmap_app, concat_app, join_app. cbn. by rewrite app_nil_r. Qed.

Lemma sendOrFail_ok msg chunk (s : streamState (St := St)) :
  ∃ f, sendOrFail sendChunk msg chunk s = Continue (set_frames f s) ∧ ∀ i, streamed i f = streamed i (frames s) +:+ join (ofChunk (delta i) chunk).
Proof using Hsend.
  unfold sendOrFail. destruct chunk as [c|].
  - rewrite Hsend. eexists. split; [done|]. intros i. apply streamed_snoc.
  - exists (frames s). split; [by destruct s|]. intros i. cbn. by rewrite append_empty.
Qed.

(** ** The loop *)

Variable cs : list ResponseContext.

Definition of_choice (i : nat) (l : list ResponseInfo) : list ResponseInfo := filter (λ m, ChoiceIdx m = i) l.

(** The state when the texts of the messages [l] are sent and the contexts of [k] are known. *)
Record Sent (l k : list ResponseInfo) (s : streamState (St := St)) : Prop := mkSent {
  se_text : ∀ i, ok i → streamed i (frames s) = join (textsOf (of_choice i l));
  se_first : match k with [] => respCtx s = None | m :: _ => ∃ rc, cs !! ChoiceIdx m = Some rc ∧ respCtx s = Some (SetCreationTime now rc) end;
  se_flags : length (firstTokens s) = length cs; se_len : length (respCtxPerChoice s) = length cs;
  se_known : ∀ m, m ∈ k → ∃ rc t, cs !! ChoiceIdx m = Some rc ∧ respCtxPerChoice s !! ChoiceIdx m = Some (Some (SetCreationTime t rc));
  se_new : ∀ i rc, cs !! i = Some rc → respCtxPerChoice s !! i = Some None ∨ ∃ t, respCtxPerChoice s !! i = Some (Some (SetCreationTime t rc))
}.

Lemma Sent_frames l k s f : Sent l k s → (∀ i, ok i → streamed i f = streamed i (frames s)) → Sent l k (set_frames f s).
Proof. intros [H1 H2 H3 H4 H5 H6] Hf. split; [|done..]. intros i Hi. change (frames (set_frames f s)) with f. by rewrite Hf, H1. Qed.
Lemma Sent_builder l k s x : Sent l k s → Sent l k (set_builder x s).
Proof. by intros [H1 H2 H3 H4 H5 H6]. Qed.

(** A message that carries no text. *)
Lemma created_ok rc l k s : Sent l k s → ∃ s', createdStep b sendChunk rc s = Continue s' ∧ Sent l k s'.
Proof using Hsend TextBuilder0.
  intros Hs. unfold createdStep. destruct (initialSent s); [by exists s|]. unfold andThen.
  destruct (sendOrFail_ok "Sending first stream chunk failed, " (createInitialChunk b rc) s) as (f & -> & Hf). eexists. split; [done|].
  destruct (Sent_frames l k s f Hs) as [H1 H2 H3 H4 H5 H6]; [|by split]. intros i Hi. by rewrite Hf, tb_initial, append_empty.
Qed.

Lemma firstChunk_ok rc j l k s : ok j → (j < length cs)%nat → Sent l k s → ∃ s', firstChunk b sendChunk rc j s = Continue s' ∧ Sent l k s'.
Proof using Hsend TextBuilder0.
  intros Hj Hlt Hs. unfold firstChunk. destruct (lookup_lt_is_Some_2 (firstTokens s) j) as [[] ->]; [rewrite (se_flags _ _ _ Hs); done| |by exists s].
  pose proof (λ i, tb_first (b := b) (builder s) rc j i Hj) as Hd. destruct (createFirstChunk b (builder s) rc j) as [st chunk]. cbn in Hd. unfold andThen.
  destruct (sendOrFail_ok "Sending first stream chunk failed, " chunk (set_builder st s)) as (f & -> & Hf). eexists. split; [done|].
  destruct (Sent_frames l k _ f (Sent_builder l k s st Hs)) as [H1 H2 H3 H4 H5 H6]; [intros i Hi; by rewrite Hf, Hd, append_empty|].
  split; try done. cbn. by rewrite length_insert.
Qed.

(** The tokens of a message are added to the text of its choice. *)
Lemma emitTokens_ok rc m t lastOne l k s :
  ok (ChoiceIdx m) → Tokens_ m = Some t → Sent l k s → ∃ s', emitTokens b sendChunk rc t lastOne (ChoiceIdx m) s = Continue s' ∧ Sent (l ++ [m]) k s'.
Proof using Hsend TextBuilder0.
  intros Hj Ht Hs. unfold emitTokens. set (reason := if lastOne && sendFinishReasonWithTokens b then FinishReason rc else None).
  pose proof (λ i, tb_chunk (b := b) (builder s) rc t reason (ChoiceIdx m) i Hj) as Hd. destruct (createChunk b (builder s) rc (Some t) None "" reason (ChoiceIdx m)) as [st chunk]. cbn in Hd.
  destruct (sendOrFail_ok "Sending stream chunk failed, " chunk (set_builder st s)) as (f & -> & Hf). eexists. split; [done|]. destruct Hs as [H1 H2 H3 H4 H5 H6]. split; try done.
  intros i Hi. change (streamed i f = join (textsOf (of_choice i (l ++ [m])))). rewrite Hf, Hd by done. change (frames (set_builder st s)) with (frames s). rewrite H1 by done.
  unfold of_choice, textsOf. rewrite filter_app, fmap_app, concat_app, join_app. f_equal. rewrite filter_cons, filter_nil.
  destruct (decide (ChoiceIdx m = i)) as [->|Hne]; [|by rewrite bool_decide_eq_false_2]. rewrite bool_decide_eq_true_2 by done. cbn. by rewrite Ht, app_nil_r.
Qed.

Lemma creation_kept rc : rc = SetCreationTime (CreationTime rc) rc.
Proof. by destruct rc. Qed.

(** A message is taken in: its context becomes known. *)
Lemma context_known own m l s :
  cs !! ChoiceIdx m = Some own → Sent l l s →
  let '(rc, own') := match respCtx s with None => (SetCreationTime now own, SetCreationTime now own) | Some rc => (rc, own) end in
  ∃ known, respCtxPerChoice s !! ChoiceIdx m = Some known ∧
    Sent l (l ++ [m]) (set_contexts (match known with None => <[ChoiceIdx m := Some own']> (respCtxPerChoice s) | Some _ => respCtxPerChoice s end) (set_respCtx rc s)).
Proof.
  intros Hown [H1 H2 H3 H4 H5 H6]. assert (ChoiceIdx m < length (respCtxPerChoice s))%nat as Hlt by (rewrite H4; by eapply lookup_lt_Some).
  set (x := match respCtx s with None => (SetCreationTime now own, SetCreationTime now own) | Some rc => (rc, own) end).
  assert (∃ t, x.2 = SetCreationTime t own) as [tm Htm] by (unfold x; destruct (respCtx s); [exists (CreationTime own); apply creation_kept|by exists now]).
  assert (match l ++ [m] with [] => True | m0 :: _ => ∃ rc, cs !! ChoiceIdx m0 = Some rc ∧ x.1 = SetCreationTime now rc end) as Hfirst.
  { unfold x. destruct l as [|m0 l]; [rewrite H2; by exists own|]. destruct H2 as (rc & Hc & ->). by exists rc. }
  destruct x as [rc own']. cbn in Htm, Hfirst. subst own'. destruct (lookup_lt_is_Some_2 _ _ Hlt) as [known Hk]. exists known. split; [done|].
  assert (∀ i c, (i = ChoiceIdx m → c = own) → cs !! i = Some c → ∀ o, respCtxPerChoice s !! i = Some o → (i = ChoiceIdx m ∨ o ≠ None) →
    ∃ t, match known with None => <[ChoiceIdx m := Some (SetCreationTime tm own)]> (respCtxPerChoice s) | Some _ => respCtxPerChoice s end !! i = Some (Some (SetCreationTime t c))) as Hnew.
  { intros i c Hic Hc o Ho Hor. destruct (decide (i = ChoiceIdx m)) as [->|Hne].
    - rewrite (Hic eq_refl). destruct known; [|exists tm; by rewrite list_lookup_insert_eq]. destruct (H6 _ _ Hown) as [E|[t E]]; [congruence|eauto].
    - assert (∃ t, o = Some (SetCreationTime t c)) as [t ->]; [|exists t; destruct known; [done|by rewrite list_lookup_insert_ne]].
      destruct Hor as [|Hn]; [done|]. destruct (H6 i c Hc) as [E|[t E]]; rewrite E in Ho; injection Ho as <-; [done|eauto]. }
  split; try done.
  - destruct (l ++ [m]) eqn:El; [by destruct l|]. destruct Hfirst as (c & Hc & ->). by exists c.
  - cbn. destruct known; [done|]. by rewrite length_insert.
  - cbn. intros m' [Hin|Hin%list_elem_of_singleton]%elem_of_app.
    + destruct (H5 m' Hin) as (c & t & Hc & Ht). exists c. destruct (Hnew (ChoiceIdx m') c) with (o := Some (SetCreationTime t c)) as [t' Ht']; [intros E; rewrite E in Hc; congruence|done|done|by right|]. by exists t'.
    + subst m'. exists own. destruct (Hnew (ChoiceIdx m) own) with (o := known) as [t' Ht']; [done|done|done|by left|]. by exists t'.
  - cbn. intros i c Hc. destruct (H6 i c Hc) as [E|[t E]].
    + destruct (decide (i = ChoiceIdx m)) as [->|Hne]; [right; eapply (Hnew _ c); [congruence|done|done|by left]|]. left. destruct known; [done|by rewrite list_lookup_insert_ne].
    + right. eapply (Hnew i c); [intros ->; congruence|done|done|by right].
Qed.

Lemma handleMessage_ok m l s : Good cs m → ok (ChoiceIdx m) → Sent l l s → ∃ s', handleMessage b now sendChunk m s = Continue s' ∧ Sent (l ++ [m]) (l ++ [m]) s'.
Proof using Hsend TextBuilder0.
  intros (He & Htool & (own & Hown & Hctx) & Hkind) Hok Hs. unfold handleMessage. rewrite He, Hctx. pose proof (context_known own m l s Hown Hs) as Hk.
  destruct (match respCtx s with None => _ | Some rc => _ end) as [rc own']. destruct Hk as (known & -> & Hs1). destruct Hkind as [[Htok ->]|[[t Htok] Hst]].
  - rewrite bool_decide_eq_true_2 by done. destruct (created_ok rc _ _ _ Hs1) as (s' & -> & Hs'). exists s'. split; [done|]. destruct Hs' as [H1 H2 H3 H4 H5 H6]. split; try done.
    intros i Hi. rewrite H1 by done. unfold of_choice, textsOf. rewrite filter_app, fmap_app, concat_app, join_app. rewrite filter_cons, filter_nil.
    destruct (decide (ChoiceIdx m = i)); cbn; rewrite ?Htok; by rewrite append_empty.
  - rewrite bool_decide_eq_false_2 by done. unfold emitResponseChunks. rewrite Htok, Htool. unfold andThen.
    destruct (firstChunk_ok rc (ChoiceIdx m) _ _ _ Hok (lookup_lt_Some _ _ _ Hown) Hs1) as (s2 & -> & Hs2). by apply emitTokens_ok.
Qed.

Lemma handleMessages_ok msgs l s : Forall (λ m, Good cs m ∧ ok (ChoiceIdx m)) msgs → Sent l l s → ∃ s', handleMessages b now sendChunk msgs s = Break s' ∧ Sent (l ++ msgs) (l ++ msgs) s'.
Proof using Hsend TextBuilder0.
  intros Hg. revert l s. induction Hg as [|m msgs [Hm Hok] _ IH]; intros l s Hs; cbn [handleMessages]; [exists s; by rewrite app_nil_r|].
  destruct (handleMessage_ok m l s Hm Hok Hs) as (s' & -> & Hs'). destruct (IH _ _ Hs') as (s'' & -> & Hs''). exists s''. by rewrite <- app_assoc in Hs''.
Qed.

Lemma Sent_start : Sent [] [] (newStreamState b (length cs)).
Proof.
  split; cbn; rewrite ?length_replicate; try done; [by intros m ?%not_elem_of_nil|].
  intros i rc Hi. left. apply lookup_replicate. split; [done|by eapply lookup_lt_Some].
Qed.

(** ** After the loop *)

(** A step that goes on without adding text. *)
Definition Silent (a : step (St := St)) : Prop := ∀ s, ∃ s', a s = Continue s' ∧ ∀ i, ok i → streamed i (frames s') = streamed i (frames s).

Lemma Silent_andThen a c : Silent a → Silent c → Silent (andThen a c).
Proof. intros Ha Hc s. destruct (Ha s) as (s1 & E & H1). unfold andThen. rewrite E. destruct (Hc s1) as (s2 & -> & H2). exists s2. split; [done|]. intros i Hi. by rewrite H2, H1. Qed.
Lemma Silent_send msg (chunk : streamState (St := St) → option sseChunk) : (∀ s i, ok i → join (ofChunk (delta i) (chunk s)) = "") → Silent (λ s, sendOrFail sendChunk msg (chunk s) s).
Proof using Hsend. intros Hd s. destruct (sendOrFail_ok msg (chunk s) s) as (f & -> & Hf). eexists. split; [done|]. intros i Hi. cbn [frames set_frames]. by rewrite Hf, Hd, append_empty. Qed.
Lemma Silent_continue : Silent Continue.
Proof. intros s. by exists s. Qed.

Lemma Silent_images rc n : (∀ j, (j < n)%nat → ok j) → Silent (sendImages b sendChunk rc n).
Proof using Hsend TextBuilder0.
  intros Hok. unfold sendImages. destruct (SendImage rc); [|apply Silent_continue]. assert (Forall ok (seq 0 n)) as Hall by (apply Forall_forall; intros j Hj; apply elem_of_seq in Hj; apply Hok; lia).
  induction Hall as [|j js Hj _ IH]; cbn; [apply Silent_continue|]. apply Silent_andThen; [|done]. apply (Silent_send _ (λ _, createImageChunk b rc j)). intros _ i Hi. by apply tb_image.
Qed.

Lemma Silent_last rc (l : list ResponseContext) : (∀ j, (j < length l)%nat → ok j) → Forall (λ c, is_Some (FinishReason c)) l → Silent (lastChunks b sendChunk rc l).
Proof using Hsend TextBuilder0.
  intros Hok Hr. unfold lastChunks. assert (Forall (λ x : nat * ResponseContext, ok x.1 ∧ is_Some (FinishReason x.2)) (imap pair l)) as Hall.
  { apply Forall_forall. intros x Hx. apply elem_of_lookup_imap in Hx as (i & c & -> & Hi). split; [apply Hok; by eapply lookup_lt_Some|]. by eapply Forall_lookup_1 in Hr. }
  induction Hall as [|x xs [Hj [reason Er]] _ IH]; cbn; [apply Silent_continue|]. apply Silent_andThen; [|done]. rewrite Er.
  apply (Silent_send _ (λ s, createLastChunk b (builder s) rc reason x.1)). intros s i Hi. by apply tb_last.
Qed.

Lemma finalize_ok rc l s : (∀ j, (j < length l)%nat → ok j) → Forall (λ c, is_Some (FinishReason c)) l →
  ∃ s', andThen (sendImages b sendChunk rc (length l)) (finalizeStream b sendChunk rc l) s = End_ s' Complete ∧ ∀ i, ok i → streamed i (frames s') = streamed i (frames s).
Proof using Hsend TextBuilder0.
  intros Hok Hr. destruct (Silent_images rc (length l) Hok s) as (s1 & E1 & H1). unfold andThen at 1. rewrite E1. unfold finalizeStream.
  destruct (Silent_last rc l Hok Hr s1) as (s2 & E2 & H2). unfold andThen at 1. rewrite E2. unfold andThen at 1.
  destruct (Silent_send "Sending usage chunk failed, " (λ s, createUsageChunk b (builder s) l) (λ s i Hi, tb_usage _ _ i Hi) s2) as (s3 & -> & H3). unfold andThen.
  destruct (Silent_send "Sending [DONE] chunk failed, " (λ _, createDoneChunk b) (λ s i Hi, tb_done i Hi) s3) as (s4 & -> & H4).
  exists s4. split; [done|]. intros i Hi. by rewrite H4, H3, H2, H1.
Qed.

Lemma omap_somes (l : list (option ResponseContext)) : (∀ i o, l !! i = Some o → is_Some o) → length (omap id l) = length l ∧ firstMissing l = None.
Proof.
  induction l as [|o l IH]; intros H; [done|]. destruct (H 0%nat o eq_refl) as [c ->]. destruct IH as [IH1 IH2]; [intros i; apply (H (S i))|]. split; [cbn; by rewrite IH1|].
  unfold firstMissing in *. cbn [list_find]. rewrite decide_False by done. destruct (list_find (λ rc, rc = None) l) as [[]|]; done.
Qed.

(** All messages of token responses of all choices: the stream is complete and carries the texts. *)
Lemma stream_ok msgs :
  msgs ≠ [] → Forall (λ m, Good cs m) msgs → (∀ i, (i < length cs)%nat → ok i ∧ ∃ m, m ∈ msgs ∧ ChoiceIdx m = i) → Forall (λ c, is_Some (FinishReason c)) cs →
  ∃ f, handleStream b now sendChunk (length cs) msgs = Stream f Complete ∧ ∀ i, ok i → streamed i f = join (textsOf (of_choice i msgs)).
Proof using Hsend TextBuilder0.
  intros Hne Hg Hall Hr. assert (Forall (λ m, Good cs m ∧ ok (ChoiceIdx m)) msgs) as Hg'.
  { eapply Forall_impl; [exact Hg|]. intros m (H1 & H2 & (rc & Hc & H3) & H4). split; [split_and!; eauto|]. apply Hall. by eapply lookup_lt_Some. }
  assert (handleStream b now sendChunk (length cs) msgs = sendStream b now sendChunk (length cs) msgs) as ->.
  { destruct msgs as [|m msgs]; [done|]. apply Forall_cons in Hg as [(He & _) _]. unfold handleStream. by rewrite He. }
  destruct (handleMessages_ok msgs [] _ Hg' Sent_start) as (s & E & Hs). unfold sendStream. rewrite E. cbn in Hs. destruct Hs as [H1 H2 H3 H4 H5 H6].
  assert (∀ i o, respCtxPerChoice s !! i = Some o → is_Some o ∧ ∃ c, o = Some c ∧ is_Some (FinishReason c)) as Hsome.
  { intros i o Ho. assert (i < length cs)%nat as Hi by (rewrite <- H4; by eapply lookup_lt_Some). destruct (Hall i Hi) as (_ & m & Hin & <-). destruct (H5 m Hin) as (c & t & Hc & Ht).
    rewrite Ht in Ho. injection Ho as <-. split; [done|]. exists (SetCreationTime t c). split; [done|]. exact (Forall_lookup_1 _ _ _ _ Hr Hc). }
  destruct (omap_somes (respCtxPerChoice s)) as [Hlen ->]; [intros i o Ho; by destruct (Hsome i o Ho)|]. destruct msgs as [|m msgs]; [done|]. destruct H2 as (rc & _ & ->).
  destruct (finalize_ok (SetCreationTime now rc) (omap id (respCtxPerChoice s)) s) as (s' & E' & H').
  - intros j Hj. apply Hall. lia.
  - apply Forall_forall. intros c Hc. apply list_elem_of_omap in Hc as (o & Ho & Eo). cbn in Eo. subst o. apply list_elem_of_lookup in Ho as [i Ho]. destruct (Hsome i _ Ho) as (_ & c' & [= ->] & Hc'). done.
  - rewrite <- H4, <- Hlen, E'. eexists. split; [done|]. intros i Hi. by rewrite H', H1.
Qed.

End Delivered.

(** * At once *)

Record Collected (cs : list ResponseContext) (l : list ResponseInfo) (c : collected) : Prop := mkColl {
  co_len : length (texts c) = length cs ∧ length (contexts c) = length cs;
  co_text : ∀ i t, texts c !! i = Some t → t = mkTokenized (idsOf (of_choice i l)) (textsOf (of_choice i l));
  co_ctx : ∀ i o, contexts c !! i = Some o → o = if bool_decide (of_choice i l = []) then None else cs !! i
}.

Lemma of_choice_snoc i l m : of_choice i (l ++ [m]) = of_choice i l ++ (if bool_decide (ChoiceIdx m = i) then [m] else []).
Proof. unfold of_choice. rewrite filter_app, filter_cons, filter_nil. f_equal. destruct (decide (ChoiceIdx m = i)); [by rewrite bool_decide_eq_true_2|by rewrite bool_decide_eq_false_2]. Qed.

Lemma collect_ok cs m l c : Good cs m → Collected cs l c → ∃ c', collect m c = Some c' ∧ Collected cs (l ++ [m]) c'.
Proof.
  intros (_ & _ & (rc & Hrc & Hctx) & _) [[L1 L2] Ht Hc]. assert (ChoiceIdx m < length cs)%nat as Hlt by (by eapply lookup_lt_Some).
  destruct (lookup_lt_is_Some_2 (texts c) (ChoiceIdx m) ltac:(lia)) as [old Ho]. destruct (lookup_lt_is_Some_2 (contexts c) (ChoiceIdx m) ltac:(lia)) as [ctx Hx].
  unfold collect. rewrite Ho, Hx. cbn [mbind option_bind]. eexists. split; [done|]. split; cbn [texts contexts].
  - split; [destruct (Tokens_ m); by rewrite ?length_insert|destruct ctx; by rewrite ?length_insert].
  - intros i t Hi. rewrite of_choice_snoc. unfold idsOf, textsOf. rewrite !fmap_app, !concat_app. fold (idsOf (of_choice i l)) (textsOf (of_choice i l)). destruct (decide (ChoiceIdx m = i)) as [<-|Hne].
    + rewrite bool_decide_eq_true_2 by done. rewrite (Ht _ _ Ho) in Hi. destruct (Tokens_ m) as [t'|] eqn:Em.
      * rewrite list_lookup_insert_eq in Hi by lia. injection Hi as <-. cbn. by rewrite Em, !app_nil_r.
      * rewrite Ho in Hi. injection Hi as <-. rewrite (Ht _ _ Ho). cbn. by rewrite Em, !app_nil_r.
    + rewrite bool_decide_eq_false_2 by done. cbn. rewrite !app_nil_r. apply Ht. destruct (Tokens_ m); [by rewrite list_lookup_insert_ne in Hi|done].
  - intros i o Hi. rewrite of_choice_snoc. destruct (decide (ChoiceIdx m = i)) as [<-|Hne].
    + rewrite (bool_decide_eq_true_2 (ChoiceIdx m = ChoiceIdx m)) by done. rewrite bool_decide_eq_false_2 by (intros En; by apply app_eq_nil in En as [_ ?]). pose proof (Hc _ _ Hx) as Ex. destruct ctx as [x|].
      * rewrite Hx in Hi. injection Hi as <-. by destruct (bool_decide (of_choice (ChoiceIdx m) l = [])).
      * rewrite list_lookup_insert_eq in Hi by lia. injection Hi as <-. congruence.
    + rewrite (bool_decide_eq_false_2 (ChoiceIdx m = i)), app_nil_r by done. apply Hc. destruct ctx; [done|by rewrite list_lookup_insert_ne in Hi].
Qed.

Lemma collectAll_ok cs msgs l c : Forall (Good cs) msgs → Collected cs l c → ∃ c', collectAll msgs c = Some (Ok c') ∧ Collected cs (l ++ msgs) c'.
Proof.
  intros Hg. revert l c. induction Hg as [|m msgs Hm _ IH]; intros l c Hc; cbn [collectAll]; [exists c; by rewrite app_nil_r|].
  destruct (collect_ok cs m l c Hm Hc) as (c' & E & Hc'). destruct Hm as (-> & _). rewrite E. cbn [mbind option_bind]. destruct (IH _ _ Hc') as (c'' & -> & Hc''). exists c''. by rewrite <- app_assoc in Hc''.
Qed.

Lemma Collected_start cs : Collected cs [] (mkCollected (replicate (length cs) noTokens) (replicate (length cs) None)).
Proof. split; cbn [texts contexts]; [by rewrite !length_replicate|intros i t [-> _]%lookup_replicate; done|intros i o [-> _]%lookup_replicate; done]. Qed.

Lemma nonstream_ok {St} (b : responseBuilder St) now Marshal cs msgs :
  Forall (Good cs) msgs → (∀ i, (i < length cs)%nat → of_choice i msgs ≠ []) →
  let body := createResponse b now cs (imap (λ i _, mkTokenized (idsOf (of_choice i msgs)) (textsOf (of_choice i msgs))) cs) in
  (∃ s, Marshal body = Ok s) → sendNonStream b now Marshal (length cs) msgs = Body body.
Proof.
  intros Hg Hall body [bytes HM]. destruct (collectAll_ok cs msgs [] _ Hg (Collected_start cs)) as (c & E & [[L1 L2] Ht Hc]). unfold sendNonStream. rewrite E. cbn in Ht, Hc.
  assert (contexts c = Some <$> cs) as ->.
  { apply list_eq. intros i. rewrite list_lookup_fmap. destruct (decide (i < length cs)%nat) as [Hi|Hi].
    - destruct (lookup_lt_is_Some_2 (contexts c) i ltac:(lia)) as [o Ho]. rewrite Ho, (Hc _ _ Ho), bool_decide_eq_false_2 by (by apply Hall). by destruct (lookup_lt_is_Some_2 cs i Hi) as [x ->].
    - rewrite !lookup_ge_None_2 by lia. done. }
  assert (texts c = imap (λ i _, mkTokenized (idsOf (of_choice i msgs)) (textsOf (of_choice i msgs))) cs) as ->.
  { apply list_eq. intros i. rewrite list_lookup_imap. destruct (decide (i < length cs)%nat) as [Hi|Hi].
    - destruct (lookup_lt_is_Some_2 (texts c) i ltac:(lia)) as [t Htt]. destruct (lookup_lt_is_Some_2 cs i Hi) as [x ->]. cbn. by rewrite Htt, (Ht _ _ Htt).
    - rewrite !lookup_ge_None_2 by lia. done. }
  destruct (omap_somes (Some <$> cs)) as [_ ->]; [intros i o Ho; rewrite list_lookup_fmap in Ho; destruct (cs !! i); by inversion Ho|].
  assert (omap id (Some <$> cs) = cs) as -> by (clear; induction cs as [|x l IH]; [done|cbn; by rewrite IH]). fold body. by rewrite HM.
Qed.

(** * The builders *)

(** The text of a choice in a frame, as a client of the endpoint reads it. *)
Definition textDelta (i : nat) (c : sseChunk) : list string :=
  match c with jsonDataChunk (TextCompletionsResponse _ choices) => concat ((λ ch, if bool_decide (i = tx_Index ch) then [Text ch] else []) <$> choices) | _ => [] end.
Definition chatDelta (i : nat) (c : sseChunk) : list string :=
  match c with
  | jsonDataChunk (ChatCompletionsRespChunk _ choices _) =>
      concat ((λ ch, if bool_decide (i = ch_Index ch) then let content := MContent (ch_Message ch) in Raw content :: (cb_Text <$> Structured content) else []) <$> choices)
  | _ => []
  end.
Definition eventsDelta (f : payload → list string) (c : sseChunk) : list string := match c with namedEventChunk events => concat ((λ e, f e.2) <$> events) | _ => [] end.
Definition responsesDelta (_ : nat) : sseChunk → list string := eventsDelta (λ p, match p with ItemEvent e => if String.eqb (ie_Type e) ResponsesEventTextDelta then [Delta e] else [] | _ => [] end).
Definition messagesDelta (_ : nat) : sseChunk → list string := eventsDelta (λ p, match p with ContentBlockDeltaEvent _ _ text _ => [text] | _ => [] end).

Lemma join_one s : join [s] = s.
Proof. apply append_empty. Qed.
Lemma join_two s : join [""%string; s] = s.
Proof. apply append_empty. Qed.
Lemma join_empty : join [""%string] = "".
Proof. done. Qed.

#[export] Instance text_builder : TextBuilder textComplHTTPRespBuilder (λ _, True) textDelta.
Proof.
  split; intros; cbn -[join]; try done.
  - case_bool_decide; [|done]. apply append_empty.
  - unfold textLastChunk. destruct (String.eqb _ _); [done|]. cbn -[join]. by case_bool_decide.
  - unfold textUsageChunk. by destruct (SendUsageData _).
Qed.

#[export] Instance chat_builder : TextBuilder chatComplHTTPRespBuilder (λ _, True) chatDelta.
Proof.
  split; intros; cbn -[join]; try done.
  - unfold chatChunk. cbn -[join]. destruct (Strings t) as [|x xs] eqn:Es; cbn -[join]; [by case_bool_decide|]. destruct (SendImage rc); cbn -[join]; (case_bool_decide; [|done]).
    + cbn -[join]. by rewrite join_two.
    + cbn -[join]. by rewrite join_one.
  - by case_bool_decide.
  - unfold chatLastChunk. destruct (_ || _); [done|]. cbn -[join]. by case_bool_decide.
  - unfold chatUsageChunk. by destruct (SendUsageData _).
  - by case_bool_decide.
Qed.

#[export] Instance responses_builder : TextBuilder responsesHTTPRespBuilder (λ i, i = 0%nat) responsesDelta.
Proof.
  split; intros; subst; cbn -[join]; try done.
  - unfold responsesChunk. cbn -[join]. destruct (Strings t) as [|x xs] eqn:Es; cbn -[join]; [done|]. by rewrite join_one.
  - unfold responsesFirstChunk. by destruct (isTools rc).
  - by destruct (inToolMode s).
Qed.

#[export] Instance messages_builder Unmarshal : TextBuilder (messagesHTTPRespBuilder Unmarshal) (λ i, i = 0%nat) messagesDelta.
Proof.
  split; intros; subst; cbn -[join]; try done.
  - unfold messagesChunk. cbn -[join]. destruct (Strings t) as [|x xs] eqn:Es; cbn -[join]; [done|]. by rewrite join_one.
  - by destruct (isTools rc).
Qed.

(** * Theorems *)

(** Both ways of delivery, for [n] choices whose messages are interleaved in any way and
    frames that can be written and encoded. *)
Definition Delivers {St} (b : responseBuilder St) (delta : nat → sseChunk → list string) (n : nat) : Prop :=
  ∀ cs ls msgs now sendChunk Marshal,
    length cs = n → Forall TokenResponse cs → length ls = n → (∀ i rc, cs !! i = Some rc → ∃ traced, workerMessages traced rc i = ls !! i) → Interleaving ls msgs →
    (∀ f c, sendChunk f c = None) → (∀ p, ∃ s, Marshal p = Ok s) →
    (∃ f, handleStream b now sendChunk n msgs = Stream f Complete ∧ ∀ i rc t, cs !! i = Some rc → responseTokens rc = Some t → streamed delta i f = join (Strings t)) ∧
    sendNonStream b now Marshal n msgs = Body (createResponse b now cs ((λ rc, default noTokens (responseTokens rc)) <$> cs)).

Lemma delivers_all {St} (b : responseBuilder St) ok delta n : TextBuilder b ok delta → (∀ i, (i < S n)%nat → ok i) → Delivers b delta (S n).
Proof.
  intros Hb Hok cs ls msgs now sendChunk Marshal Hn Htok Hln Hls' Hint Hsend HM.
  assert (∀ i rc, cs !! i = Some rc → simulateResponseProcessing rc i = ls !! i) as Hls.
  { intros i rc Hi. destruct (Hls' i rc Hi) as [traced <-]. symmetry. apply workerMessages_same. by eapply Forall_lookup_1. }
  assert (∀ i k, ls !! i = Some k → ∃ rc t, cs !! i = Some rc ∧ responseTokens rc = Some t ∧ k ≠ [] ∧ textsOf k = Strings t ∧ idsOf k = Dataset.Tokens t ∧ Forall (λ m, Good cs m ∧ ChoiceIdx m = i) k) as Hk.
  { intros i k Hi. destruct (lookup_lt_is_Some_2 cs i) as [rc Hrc]; [rewrite Hn, <- Hln; by eapply lookup_lt_Some|].
    destruct (produce_ok cs rc i Hrc) as (t & l & H1 & H2 & H3); [by eapply Forall_lookup_1 in Htok|]. rewrite (Hls i rc Hrc), Hi in H2. injection H2 as ->. eauto 6. }
  assert (∀ i k m, ls !! i = Some k → m ∈ k → ChoiceIdx m = i) as Hidx.
  { intros i k m Hi Hm. destruct (Hk i k Hi) as (? & ? & _ & _ & _ & _ & _ & Hf). by eapply Forall_forall in Hf as [_ ?]. }
  pose proof (interleaving_filter ls msgs Hint Hidx) as Hfilter.
  assert (Forall (Good cs) msgs) as Hgood.
  { apply Forall_forall. intros m Hm. destruct (interleaving_elem ls msgs Hint m Hm) as (i & k & Hi & Hmk). destruct (Hk i k Hi) as (? & ? & _ & _ & _ & _ & _ & Hf). by eapply Forall_forall in Hf as [? _]. }
  assert (∀ i rc t, cs !! i = Some rc → responseTokens rc = Some t → of_choice i msgs ≠ [] ∧ textsOf (of_choice i msgs) = Strings t ∧ idsOf (of_choice i msgs) = Dataset.Tokens t) as Hchoice.
  { intros i rc t Hi Ht. destruct (lookup_lt_is_Some_2 ls i) as [k Hlk]; [rewrite Hln, <- Hn; by eapply lookup_lt_Some|]. destruct (Hk i k Hlk) as (rc' & t' & Hrc & Ht' & H1 & H2 & H3 & _).
    assert (t' = t) as -> by congruence. unfold of_choice. by rewrite (Hfilter i k Hlk). }
  assert (∀ i, (i < length cs)%nat → of_choice i msgs ≠ []) as Hne.
  { intros i Hi. destruct (lookup_lt_is_Some_2 cs i Hi) as [rc Hrc]. destruct (Forall_lookup_1 _ _ _ _ Htok Hrc) as (t & r & Ht & _). by eapply Hchoice. }
  split.
  - rewrite <- Hn in *. destruct (stream_ok b ok delta now sendChunk Hsend cs msgs) as (f & -> & Hf).
    + intros ->. destruct cs; [done|]. by eapply (Hne 0%nat); [cbn; lia|].
    + done.
    + intros i Hi. split; [by apply Hok|]. specialize (Hne i Hi). destruct (of_choice i msgs) as [|m l] eqn:E; [done|]. exists m. assert (m ∈ of_choice i msgs) as Hm by (rewrite E; by left).
      unfold of_choice in Hm. apply list_elem_of_filter in Hm as [? ?]. done.
    + eapply Forall_impl; [exact Htok|]. intros rc (? & r & _ & _ & _ & -> & _). done.
    + exists f. split; [done|]. intros i rc t Hi Ht. rewrite Hf by (apply Hok; by eapply lookup_lt_Some). destruct (Hchoice i rc t Hi Ht) as (_ & -> & _). done.
  - rewrite <- Hn. rewrite (nonstream_ok b now Marshal cs msgs Hgood Hne); [|by apply HM]. do 2 f_equal. apply list_eq. intros i. rewrite list_lookup_imap, list_lookup_fmap.
    destruct (cs !! i) as [rc|] eqn:Hrc; [|done]. cbn. destruct (Forall_lookup_1 _ _ _ _ Htok Hrc) as (t & r & Ht & _). destruct (Hchoice i rc t Hrc Ht) as (_ & -> & ->). rewrite Ht. by destruct t.
Qed.

(** C5: streaming and plain delivery agree: for every endpoint that returns text (text and
    chat completions with any number of choices, responses and messages), and every
    interleaving of the messages of the choices, the stream is complete and the text read
    off the frames of a choice is exactly the text of its response tokens, and the plain
    response is built from exactly those tokens, choice by choice.  The choices are
    responses of tokens ([TokenResponse]): at least one token, a text for each, and a finish
    reason other than the cache threshold's; a response without tokens breaks a stream
    ([empty_response_breaks_stream]).  They may be replayed from a trace or not.  Every
    message reaches the handler, every frame can be written and every payload encoded. *)
Theorem stream_equals_response :
  (∀ n, Delivers textComplHTTPRespBuilder textDelta (S n)) ∧ (∀ n, Delivers chatComplHTTPRespBuilder chatDelta (S n)) ∧
  Delivers responsesHTTPRespBuilder responsesDelta 1 ∧ ∀ Unmarshal, Delivers (messagesHTTPRespBuilder Unmarshal) messagesDelta 1.
Proof.
  split_and!; [intros n|intros n| |intros Unmarshal].
  - by apply (delivers_all _ (λ _, True)); [apply _|].
  - by apply (delivers_all _ (λ _, True)); [apply _|].
  - apply (delivers_all _ (λ i, i = 0%nat)); [apply _|lia].
  - apply (delivers_all _ (λ i, i = 0%nat)); [apply _|lia].
Qed.

(** ** An example: two choices, one message of each in turn *)

Definition ctx_ex (id reason : string) (ids : list Z) (strings : list string) : ResponseContext :=
  mkRespCtx id 0 false (Some (mkTokenized ids strings)) "m" (Some reason) (mkUsage 3 (Z.of_nat (length ids)) (3 + Z.of_nat (length ids)) None) true None None None None false.
Definition choices_ex : list ResponseContext := [ctx_ex "r" "stop" [1; 2] ["Hello "; "you"]%string; ctx_ex "r" "length" [3] ["Bye"]%string].
Definition producers_ex : list (list ResponseInfo) := omap id (imap (λ i rc, simulateResponseProcessing rc i) choices_ex).
(** A round robin. *)
Fixpoint alternate {A} (l l' : list A) : list A := match l, l' with x :: l, y :: l' => x :: y :: alternate l l' | [], l => l | l, [] => l end.
Definition messages_ex : list ResponseInfo := match producers_ex with [l; l'] => alternate l l' | _ => [] end.

Lemma messages_ex_merged : Interleaving producers_ex messages_ex.
Proof.
  eapply (merged_cons _ 0); [reflexivity|]. eapply (merged_cons _ 1); [reflexivity|]. eapply (merged_cons _ 0); [reflexivity|]. eapply (merged_cons _ 1); [reflexivity|].
  eapply (merged_cons _ 0); [reflexivity|]. apply merged_nil. repeat constructor.
Qed.

Lemma choices_ex_tokens : Forall TokenResponse choices_ex.
Proof. repeat constructor; eexists _, _; (split; [reflexivity|]); split_and!; done. Qed.

Lemma choices_ex_produced i rc : choices_ex !! i = Some rc → simulateResponseProcessing rc i = producers_ex !! i.
Proof. destruct i as [|[|i]]; intros [= <-]; reflexivity. Qed.

Lemma stream_equals_response_witness :
  ∃ f, handleStream textComplHTTPRespBuilder 7 (λ _ _, None) 2 messages_ex = Stream f Complete ∧ streamed textDelta 0 f = "Hello you"%string ∧ streamed textDelta 1 f = "Bye"%string.
Proof.
  destruct (proj1 stream_equals_response 1%nat choices_ex producers_ex messages_ex 7 (λ _ _, None) (λ _, Ok ""%string)) as [(f & E & H) _].
  - reflexivity.
  - exact choices_ex_tokens.
  - reflexivity.
  - intros i rc Hi. exists false. exact (choices_ex_produced i rc Hi).
  - exact messages_ex_merged.
  - reflexivity.
  - intros p. exists ""%string. reflexivity.
  - exists f. split; [exact E|]. split; [rewrite (H 0%nat _ _ eq_refl eq_refl); vm_compute; reflexivity|rewrite (H 1%nat _ _ eq_refl eq_refl); vm_compute; reflexivity].
Defined.

(** ** No message is lost *)

Lemma tokenMessages_length rc i strings total k tokens l : tokenMessages rc i strings total k tokens = Some l → length l = length tokens.
Proof.
  revert k l. induction tokens as [|z tokens IH]; intros k l; cbn [tokenMessages]; [by intros [= <-]|]. intros H.
  apply bind_Some in H as (strs & _ & H). apply bind_Some in H as (rest & Hr & H). injection H as <-. cbn. by rewrite (IH _ _ Hr).
Qed.

Lemma produced_length rc i l t : TokenResponse rc → responseTokens rc = Some t → simulateResponseProcessing rc i = Some l → length l = S (length (Dataset.Tokens t)).
Proof.
  intros (t' & reason & Ht & Hne & Hlen & Hr & Hreason) Htt. assert (t' = t) as -> by congruence. unfold simulateResponseProcessing, respIsEmpty. rewrite bool_decide_eq_false_2 by (rewrite Hr; congruence). rewrite Ht.
  destruct (Nat.eqb_spec (length (Dataset.Tokens t)) 0); [destruct (Dataset.Tokens t); done|]. intros H. apply bind_Some in H as (rest & Hrest & [= <-]). cbn. by rewrite (tokenMessages_length _ _ _ _ _ _ _ Hrest).
Qed.

Lemma interleaving_length {A} (ls : list (list A)) l : Interleaving ls l → length l = list_sum (length <$> ls).
Proof.
  induction 1 as [ls Hnil|ls i x rest l Hi _ IH]; [induction Hnil as [|k ls -> _ IH]; [done|exact IH]|]. cbn [length]. rewrite IH. clear IH. revert i Hi.
  induction ls as [|k ls IH]; intros [|i] Hi; [done|done|by injection Hi as ->|]. specialize (IH i Hi).
  change (S (length k + list_sum (length <$> <[i := rest]> ls)) = (length k + list_sum (length <$> ls))%nat). lia.
Qed.

(** No message of a response is lost: when prompt and response of every choice fit the
    context window and the prompt is not empty (as the datasets guarantee), the channel
    of the request has room for all messages of all choices at once, so that no write to
    it is dropped however slowly the client reads. *)
Theorem responses_fit_channel cs ls msgs maxModelLen :
  Forall (λ rc, TokenResponse rc ∧ ∀ t, responseTokens rc = Some t → 1 ≤ PromptTokens (UsageData rc) ∧ PromptTokens (UsageData rc) + Z.of_nat (length (Dataset.Tokens t)) ≤ maxModelLen) cs →
  length ls = length cs → (∀ i rc, cs !! i = Some rc → simulateResponseProcessing rc i = ls !! i) → Interleaving ls msgs → maxModelLen * Z.of_nat (length cs) < 2 ^ 63 →
  Z.of_nat (length msgs) ≤ responseChannelSize maxModelLen (length cs).
Proof.
  intros Hcs Hlen Hls Hint Hb. rewrite (interleaving_length _ _ Hint). clear Hint msgs.
  assert (Forall (λ l, Z.of_nat (length l) ≤ maxModelLen) ls) as Hall.
  { apply Forall_lookup. intros i l Hi. destruct (lookup_lt_is_Some_2 cs i) as [rc Hrc]; [rewrite <- Hlen; by eapply lookup_lt_Some|].
    destruct (Forall_lookup_1 _ _ _ _ Hcs Hrc) as [Htok Hfit]. pose proof Htok as (t & _ & Ht & _). specialize (Hfit t Ht). rewrite (produced_length rc i l t Htok Ht); [lia|]. by rewrite (Hls i rc Hrc). }
  assert (Z.of_nat (list_sum (length <$> ls)) ≤ maxModelLen * Z.of_nat (length cs)) as Hsum.
  { rewrite <- Hlen. clear -Hall. induction Hall as [|l ls Hl _ IH]; [cbn; lia|]. change (Z.of_nat (length l + list_sum (length <$> ls)) ≤ maxModelLen * Z.of_nat (S (length ls))). lia. }
  unfold responseChannelSize. rewrite i64_small; [done|]. lia.
Qed.

Lemma responses_fit_channel_witness : Z.of_nat (length messages_ex) ≤ responseChannelSize 5 2.
Proof.
  apply (responses_fit_channel choices_ex producers_ex messages_ex 5).
  - apply Forall_lookup. intros i rc Hi. split; [exact (Forall_lookup_1 _ _ _ _ choices_ex_tokens Hi)|].
    destruct i as [|[|i]]; [| |discriminate Hi]; injection Hi as <-; intros t [= <-]; vm_compute; split; congruence.
  - reflexivity.
  - exact choices_ex_produced.
  - exact messages_ex_merged.
  - vm_compute. reflexivity.
Defined.

(** ** Where streams differ from plain responses *)

(** The finish reasons in the frames of a choice. *)
Definition textReasons (i : nat) (f : list sseChunk) : list string :=
  concat ((λ c, match c with jsonDataChunk (TextCompletionsResponse _ choices) => omap (λ ch, if bool_decide (tx_Index ch = i) then tx_FinishReason ch else None) choices | _ => [] end) <$> f).
Definition framesOf (r : reply) : list sseChunk := match r with Stream f _ => f | _ => [] end.

(** The second choice of the example ends with "length", but its stream says "stop", the reason of the first. *)
Example streamed_finish_reason_of_first :
  textReasons 0 (framesOf (handleStream textComplHTTPRespBuilder 7 (λ _ _, None) 2 messages_ex)) = ["stop"%string] ∧
  textReasons 1 (framesOf (handleStream textComplHTTPRespBuilder 7 (λ _ _, None) 2 messages_ex)) = ["stop"%string].
Proof. vm_compute. done. Qed.

(** A response without tokens is a response at once, and an error in a stream. *)
Example empty_response_breaks_stream :
  (∃ l f e p, simulateResponseProcessing (ctx_ex "r" "stop" [] []) 0 = Some l ∧ handleStream textComplHTTPRespBuilder 7 (λ _ _, None) 1 l = Stream f (Broken e) ∧
    sendNonStream textComplHTTPRespBuilder 7 (λ _, Ok ""%string) 1 l = Body p).
Proof. do 4 eexists. split; [reflexivity|]. split; vm_compute; reflexivity. Qed.

End StreamingProps.
