(* ===== verification/Embeddings.v ===== *)
(** The embeddings endpoint: its input ([pkg/api/embeddings.go]), the stub vectors
    ([BuildStubEmbedding] of [pkg/common/utils.go]), the two encodings and the handler
    ([HandleEmbeddings] of [pkg/communication/http.go]); and that a client gets the same
    vectors in both encodings. *)

From Stdlib Require Import Floats.SpecFloat.
From S2P Require Import Prelude GoFloat GoRandom BlockCache Lora TraceFormat Config Tools Response.
Import Response.
Open Scope Z_scope.

Module Embeddings.

(** * Input *)

Record EmbeddingInput := mkInput { textInputs : list string; tokenInputs : list (list Z) }.

(** [None]: some element is not a number. *)
Definition sliceToInt64 (arr : list Tools.json) : option (list Z) := mapM (λ v, match v with Tools.JNum n => Some (f_to_int n) | _ => None end) arr.

(** The rows up to the first that is not an array of numbers; the others stay nil. [None]: an element that is not an array. *)
Fixpoint rows (raw : list Tools.json) : option (list (list Z)) :=
  match raw with
  | [] => Some []
  | Tools.JArr arr :: raw =>
      match sliceToInt64 arr with
      | None => Some ([] :: ((λ _, []) <$> raw))
      | Some tok => rest ← rows raw; Some (tok :: rest)
      end
  | _ => None
  end.

(** [EmbeddingInput.UnmarshalJSON], of a value that was decoded, into a fresh input. *)
Definition UnmarshalJSON (data : Tools.json) : EmbeddingInput :=
  match data with
  | Tools.JStr s => mkInput [s] []
  | Tools.JArr ((Tools.JStr _ :: _) as raw) => match mapM (λ v, match v with Tools.JStr s => Some s | _ => None end) raw with Some l => mkInput l [] | None => mkInput [] [] end
  | Tools.JArr ((Tools.JNum _ :: _) as raw) => match sliceToInt64 raw with Some tok => mkInput [] [tok] | None => mkInput [] [] end
  | Tools.JArr ((Tools.JArr _ :: _) as raw) => match rows raw with Some l => mkInput [] l | None => mkInput [] [] end
  | _ => mkInput [] []
  end.

Definition IsTokenInput (e : EmbeddingInput) : bool := (0 <? length (tokenInputs e))%nat.
Definition Len (e : EmbeddingInput) : nat := if (0 <? length (textInputs e))%nat then length (textInputs e) else length (tokenInputs e).

(** * Vectors *)

Definition f32_sub (x y : spec_float) : spec_float := SFsub 24 128 x y.
Definition f32_div (x y : spec_float) : spec_float := SFdiv 24 128 x y.
(** [2*float32(token%n)/n - 1]. *)
Definition component (n token : Z) : spec_float := f32_sub (f32_div (Config.f32_mul (Config.f32_of_Z 2) (Config.f32_of_Z (token mod n))) (Config.f32_of_Z n)) (Config.f32_of_Z 1).

Definition BuildStubEmbedding (tokens : list Z) (dim : Z) : list spec_float :=
  (λ i, match tokens !! i with
        | Some t => component 1024 t
        | None => match tokens with [] => S754_zero false | _ => component 256 (default 0 (tokens !! (i mod length tokens)%nat)) end
        end) <$> seq 0 (Z.to_nat dim).

(** [math.Float32bits]. *)
Definition Float32bits (x : spec_float) : Z :=
  let signed (s : bool) (z : Z) := if s then 2 ^ 31 + z else z in
  match x with
  | S754_zero s => signed s 0
  | S754_infinity s => signed s (255 * 2 ^ 23)
  | S754_nan => 255 * 2 ^ 23 + 2 ^ 22
  | S754_finite s m e => signed s (if Z.pos m <? 2 ^ 23 then Z.pos m else (e + 150) * 2 ^ 23 + (Z.pos m - 2 ^ 23))
  end.

(** [base64.StdEncoding]. *)
Definition alphabet : list Z := seqZ 65 26 ++ seqZ 97 26 ++ seqZ 48 10 ++ [43; 47].
Definition symbol (i : Z) : Z := alphabet !!! Z.to_nat i.
Definition pad : Z := 61.
Fixpoint EncodeToString (b : list Z) : list Z :=
  match b with
  | x :: y :: z :: r => symbol (x / 4) :: symbol (x mod 4 * 16 + y / 16) :: symbol (y mod 16 * 4 + z / 64) :: symbol (z mod 64) :: EncodeToString r
  | [x; y] => [symbol (x / 4); symbol (x mod 4 * 16 + y / 16); symbol (y mod 16 * 4); pad]
  | [x] => [symbol (x / 4); symbol (x mod 4 * 16); pad; pad]
  | [] => []
  end.

Definition EncodeEmbeddingBase64 (emb : list spec_float) : list Z := EncodeToString (concat ((λ v, TraceFormat.putUint 4 (Float32bits v)) <$> emb)).

(** * The handler *)

Record EmbeddingRequest := mkEmbeddingRequest { Input_ : EmbeddingInput; ModelField : string; Dimensions : option Z; EncodingFormat : string }.
Inductive encoded := AsFloats (v : list spec_float) | AsBase64 (s : list Z).
Record EmbeddingDataItem := mkItem { Index_ : nat; Embedding : encoded }.
Record EmbeddingResponse := mkEmbeddingResponse { Data_ : list EmbeddingDataItem; RModel : string; EPromptTokens : Z; ETotalTokens : Z }.

Section Handler.
Variable c : Config.Configuration.
Variable RenderText : string → result string (list Z).

Definition tokensOf (ids : list Z) : list Z := (λ id, u32 (if id <? 0 then 0 else id)) <$> ids.

(** The tokens of the texts, or the first error. *)
Fixpoint renderTexts (texts : list string) : result Error (list (list Z)) :=
  match texts with
  | [] => Ok []
  | text :: texts =>
      if bool_decide (text = ""%string) then Err (NewError "input cannot be an empty string" 400)
      else match RenderText text with
      | Err e => Err (NewError ("Failed to tokenize input, " +:+ e) 500)
      | Ok tokens => let! rest := renderTexts texts in Ok (tokens :: rest)
      end
  end.

Definition HandleEmbeddings (body : result string EmbeddingRequest) : result Error EmbeddingResponse :=
  match body with
  | Err e => Err (NewError ("Failed to read and parse request body, " +:+ e) 400)
  | Ok req =>
      if (Len (Input_ req) =? 0)%nat then Err (NewError "input is required and must be a non-empty string or array" 400)
      else
        let model := if bool_decide (ModelField req = ""%string) then Config.Model c else ModelField req in
        let! dim := match Dimensions req with
                    | Some d => if d <? 1 then Err (NewError "dimensions must be at least 1" 400) else Ok d
                    | None => Ok (Config.DefaultEmbeddingDimensions c)
                    end in
        let! inputs := if IsTokenInput (Input_ req) then Ok (tokensOf <$> tokenInputs (Input_ req)) else renderTexts (textInputs (Input_ req)) in
        let total := Z.of_nat (length (concat inputs)) in
        Ok (mkEmbeddingResponse
              (imap (λ i tokens, let v := BuildStubEmbedding tokens dim in
                                 mkItem i (if bool_decide (EncodingFormat req = "base64"%string) then AsBase64 (EncodeEmbeddingBase64 v) else AsFloats v)) inputs)
              model total total)
  end.
End Handler.

(** * What a client decodes *)

Definition Float32frombits (b : Z) : spec_float :=
  let s := 2 ^ 31 <=? b in let e := b / 2 ^ 23 mod 256 in let m := b mod 2 ^ 23 in
  if e =? 255 then (if m =? 0 then S754_infinity s else S754_nan)
  else if e =? 0 then (match m with Z.pos m => S754_finite s m (-149) | _ => S754_zero s end)
  else S754_finite s (Z.to_pos (m + 2 ^ 23)) (e - 150).

Definition valueOf (ch : Z) : option Z := (λ x, Z.of_nat x.1) <$> list_find (λ a, a = ch) alphabet.
Fixpoint DecodeString (l : list Z) : option (list Z) :=
  match l with
  | [] => Some []
  | a :: b :: x :: y :: r =>
      va ← valueOf a; vb ← valueOf b;
      if bool_decide (y = pad) then
        if bool_decide (r = []) then
          if bool_decide (x = pad) then Some [va * 4 + vb / 16]
          else vx ← valueOf x; Some [va * 4 + vb / 16; vb mod 16 * 16 + vx / 4]
        else None
      else vx ← valueOf x; vy ← valueOf y; rest ← DecodeString r; Some (va * 4 + vb / 16 :: vb mod 16 * 16 + vx / 4 :: vx mod 4 * 64 + vy :: rest)
  | _ => None
  end.

(** Vectors of little-endian [float32]. *)
Fixpoint floatsOf (b : list Z) : option (list spec_float) :=
  match b with
  | [] => Some []
  | w :: x :: y :: z :: r => rest ← floatsOf r; Some (Float32frombits (TraceFormat.getUint [w; x; y; z]) :: rest)
  | _ => None
  end.
Definition decodeEmbedding (s : list Z) : option (list spec_float) := b ← DecodeString s; floatsOf b.

(** Division by constants. *)
Ltac divlia := Z.div_mod_to_equations; lia.

Lemma value_symbol i : 0 ≤ i < 64 → valueOf (symbol i) = Some i ∧ symbol i ≠ pad.
Proof.
  intros Hi. assert (Forall (λ i, valueOf (symbol i) = Some i ∧ symbol i ≠ pad) (seqZ 0 64)) as H by by_decision.
  rewrite Forall_forall in H. apply H, elem_of_seqZ. lia.
Qed.

(** Base64 is undone. *)
Lemma base64_roundtrip b : Forall (λ x, 0 ≤ x < 256) b → DecodeString (EncodeToString b) = Some b.
Proof.
  remember (length b) as n eqn:Hn. revert b Hn. induction n as [n IH] using lt_wf_ind. intros b -> Hb. destruct b as [|x [|y [|z b]]]; [done| | |].
  - apply Forall_cons in Hb as [Hx _]. cbn [EncodeToString DecodeString]. destruct (value_symbol (x / 4) ltac:(divlia)) as [-> _]. destruct (value_symbol (x mod 4 * 16) ltac:(divlia)) as [-> _]. cbn [mbind option_bind].
    rewrite !bool_decide_eq_true_2 by done. do 2 f_equal. divlia.
  - rewrite !Forall_cons in Hb. destruct Hb as (Hx & Hy & _). cbn [EncodeToString DecodeString]. destruct (value_symbol (x / 4) ltac:(divlia)) as [-> _]. destruct (value_symbol (x mod 4 * 16 + y / 16) ltac:(divlia)) as [-> _]. cbn [mbind option_bind].
    destruct (value_symbol (y mod 16 * 4) ltac:(divlia)) as [-> Hp]. rewrite !bool_decide_eq_true_2, (bool_decide_eq_false_2 (symbol _ = pad)) by done. cbn [mbind option_bind]. repeat f_equal; divlia.
  - rewrite !Forall_cons in Hb. destruct Hb as (Hx & Hy & Hz & Hb). cbn [EncodeToString DecodeString]. destruct (value_symbol (x / 4) ltac:(divlia)) as [-> _]. destruct (value_symbol (x mod 4 * 16 + y / 16) ltac:(divlia)) as [-> _]. cbn [mbind option_bind].
    destruct (value_symbol (z mod 64) ltac:(divlia)) as [Ez Hp]. destruct (value_symbol (y mod 16 * 4 + z / 64) ltac:(divlia)) as [Ey _]. rewrite (bool_decide_eq_false_2 (symbol (z mod 64) = pad)) by done. rewrite Ey, Ez. cbn [mbind option_bind].
    rewrite (IH (length b)) by (cbn; first [lia|done]). cbn [mbind option_bind]. repeat f_equal; divlia.
Qed.

(** The components are exact: [(token mod n) / (n / 2) - 1], in [-1, 1), with bits that decode to them. *)
Definition good (x : spec_float) : Prop :=
  Float32frombits (Float32bits x) = x ∧ 0 ≤ Float32bits x < 2 ^ 32 ∧ SFleb (Config.f32_of_Z (-1)) x = true ∧ SFltb x (Config.f32_of_Z 1) = true.
#[local] Instance spec_float_eq_dec : EqDecision spec_float.
Proof. solve_decision. Defined.
#[local] Instance good_dec x : Decision (good x).
Proof. unfold good. apply _. Defined.

Lemma component_good n t : n = 1024 ∨ n = 256 → good (component n t) ∧ Config.f32_mul (component n t) (Config.f32_of_Z (n / 2)) = Config.f32_of_Z (t mod n - n / 2).
Proof.
  assert (∀ n, 0 < n → Forall (λ r, good (component n r) ∧ Config.f32_mul (component n r) (Config.f32_of_Z (n / 2)) = Config.f32_of_Z (r - n / 2)) (seqZ 0 n) →
    good (component n t) ∧ Config.f32_mul (component n t) (Config.f32_of_Z (n / 2)) = Config.f32_of_Z (t mod n - n / 2)) as H.
  { intros m Hm HF. rewrite Forall_forall in HF. pose proof (Z.mod_pos_bound t m Hm). specialize (HF (t mod m) ltac:(apply elem_of_seqZ; lia)).
    assert (component m (t mod m) = component m t) as E by (unfold component; by rewrite Z.mod_mod by lia). by rewrite E in HF. }
  intros [-> | ->]; (apply H; [lia|]); by_decision.
Qed.

Lemma stub_good tokens dim : Forall good (BuildStubEmbedding tokens dim).
Proof.
  unfold BuildStubEmbedding. apply Forall_fmap, Forall_true. intros i. cbn. destruct (tokens !! i) as [t|]; [by apply component_good; left|].
  destruct tokens; [|by apply component_good; right]. by_decision.
Qed.

Lemma embedding_roundtrip v : Forall good v → decodeEmbedding (EncodeEmbeddingBase64 v) = Some v.
Proof.
  intros Hv. unfold decodeEmbedding, EncodeEmbeddingBase64. rewrite base64_roundtrip by (apply Forall_concat, Forall_fmap, Forall_true; intros x; apply TraceFormat.putUint_bytes). cbn [mbind option_bind].
  induction Hv as [|x v (Hx & Hb & _) _ IH]; [done|]. rewrite fmap_cons. cbn [concat]. pose proof (TraceFormat.getUint_putUint 4 (Float32bits x) Hb) as Hg. pose proof (TraceFormat.putUint_length 4 (Float32bits x)) as Hl.
  destruct (TraceFormat.putUint 4 (Float32bits x)) as [|a [|b [|d [|e [|]]]]]; try done. cbn [app floatsOf]. rewrite IH. cbn [mbind option_bind]. by rewrite Hg, Hx.
Qed.

(** ** The two formats *)

Lemma input_exclusive data : textInputs (UnmarshalJSON data) = [] ∨ tokenInputs (UnmarshalJSON data) = [].
Proof. destruct data as [| | |s|[|[| |n|s|l|l] raw]|]; cbn; auto; case_match; cbn; auto. Qed.

Lemma renderTexts_length RenderText texts l : renderTexts RenderText texts = Ok l → length l = length texts.
Proof.
  revert l. induction texts as [|t texts IH]; intros l; cbn; [by intros [= <-]|]. case_bool_decide; [done|]. destruct (RenderText t); [|done].
  destruct (renderTexts _ texts) as [rest|]; [|done]. cbn. intros [= <-]. cbn. by rewrite (IH rest).
Qed.

(** One sequence of tokens per input. *)
Lemma inputs_length RenderText data l :
  (if IsTokenInput (UnmarshalJSON data) then Ok (tokensOf <$> tokenInputs (UnmarshalJSON data)) else renderTexts RenderText (textInputs (UnmarshalJSON data))) = Ok l → length l = Len (UnmarshalJSON data).
Proof.
  unfold IsTokenInput, Len. destruct (input_exclusive data) as [-> | ->]; cbn.
  - destruct (tokenInputs _) as [|x xs]; cbn; intros [= <-]; [done|]. cbn. by rewrite length_fmap.
  - intros Hl%renderTexts_length. rewrite Hl. by destruct (textInputs _).
Qed.

Definition withFormat (f : string) (req : EmbeddingRequest) : EmbeddingRequest := mkEmbeddingRequest (Input_ req) (ModelField req) (Dimensions req) f.
Definition dimOf (c : Config.Configuration) (req : EmbeddingRequest) : Z := default (Config.DefaultEmbeddingDimensions c) (Dimensions req).

(** The encoding does not change an embedding: a request in base64 is refused exactly
    when it is refused in floats, with the same error, and else a client that decodes
    each string gets the vector of the other format, bit for bit; there is one vector per
    input, numbered, with the dimensions asked for (or configured) and components in
    [-1, 1), and the usage is the number of tokens of all inputs. *)
Theorem embedding_formats_agree c RenderText data model dims :
  let req := mkEmbeddingRequest (UnmarshalJSON data) model dims "" in
  match HandleEmbeddings c RenderText (Ok (withFormat "float" req)), HandleEmbeddings c RenderText (Ok (withFormat "base64" req)) with
  | Ok r, Ok r' =>
      RModel r = RModel r' ∧ ETotalTokens r = ETotalTokens r' ∧ length (Data_ r) = Len (Input_ req) ∧ length (Data_ r') = Len (Input_ req) ∧
      ∀ i, (i < Len (Input_ req))%nat → ∃ v s, Data_ r !! i = Some (mkItem i (AsFloats v)) ∧ Data_ r' !! i = Some (mkItem i (AsBase64 s)) ∧ decodeEmbedding s = Some v ∧
        length v = Z.to_nat (dimOf c req) ∧ Forall (λ x, SFleb (Config.f32_of_Z (-1)) x = true ∧ SFltb x (Config.f32_of_Z 1) = true) v
  | Err e, Err e' => e = e'
  | _, _ => False
  end.
Proof.
  intros req. unfold HandleEmbeddings. cbn [Input_ ModelField Dimensions EncodingFormat withFormat]. destruct (Nat.eqb_spec (Len (Input_ req)) 0) as [|Hlen]; [done|].
  set (dim := match Dimensions req with Some d => if d <? 1 then Err _ else Ok d | None => Ok _ end). assert (∀ d, dim = Ok d → d = dimOf c req) as Hd.
  { unfold dim, dimOf. intros d. destruct (Dimensions req) as [x|]; [destruct (x <? 1)|]; cbn; congruence. }
  destruct dim as [d|e]; [|done]. rewrite (Hd d eq_refl). clear Hd d. cbn [res_bind].
  set (inputs := if IsTokenInput (Input_ req) then _ else _). assert (∀ l, inputs = Ok l → length l = Len (Input_ req)) as Hl.
  { intros l. apply inputs_length. }
  destruct inputs as [l|e]; [|done]. cbn [res_bind]. specialize (Hl l eq_refl). cbn [Data_ RModel ETotalTokens]. rewrite !length_imap. split_and!; [done|done|done|done|].
  intros i Hi. rewrite <- Hl in Hi. destruct (lookup_lt_is_Some_2 l i Hi) as [tokens Ht]. rewrite !list_lookup_imap, Ht. cbn [fmap option_fmap option_map].
  eexists _, _. split; [done|]. split; [done|]. pose proof (stub_good tokens (dimOf c req)) as Hg. split; [by apply embedding_roundtrip|]. split; [unfold BuildStubEmbedding; by rewrite length_fmap, length_seq|].
  eapply Forall_impl; [exact Hg|]. by intros x (_ & _ & ? & ?).
Qed.

(** A row that is not an array of numbers ends the decoding without an error: the rows
    before it are embedded, and the others as empty inputs. *)
Example partial_rows : UnmarshalJSON (Tools.JArr [Tools.JArr [Tools.JNum (f_of_Z 7)]; Tools.JArr [Tools.JStr "a"]; Tools.JArr [Tools.JNum (f_of_Z 8)]]) = mkInput [] [[7]; []; []].
Proof. vm_compute. reflexivity. Qed.

End Embeddings.
