(* ===== verification/Server.v ===== *)
(** The HTTP front: failure injection ([pkg/simulator/failures.go]), the path of a request
    from the handler to the scheduler and of its answer back ([handleHTTP] of
    [pkg/communication/http.go]), the sleep and wake-up handlers, the list of models
    ([CreateModelsResponse] of [pkg/simulator/context.go]) and the small handlers around
    them.  A handler sees one configuration. *)

From stdpp Require Import pretty.
From S2P Require Import Prelude GoFloat GoRandom BlockCache Lora Scheduler Config Response Streaming.
Import GoRandom Response.
Open Scope Z_scope.

Module Server.

(** * Failure injection *)

(** The template with its argument; the table itself holds the template. *)
Definition rateLimitMessageTemplate (model : string) : string :=
  "Rate limit reached for " +:+ model +:+ " in organization org-xxx on requests per min (RPM): Limit 3, Used 3, Requested 1.".
Definition getModelNotFoundMessage (model : string) : string := "The model '" +:+ model +:+ "-nonexistent' does not exist".

Definition predefinedFailures : list (string * Error) :=
  [("rate_limit"%string, NewError (rateLimitMessageTemplate "%s") 429); ("invalid_api_key"%string, NewError "Incorrect API key provided." 401);
   ("context_length"%string, NewErrorFor (Some "messages"%string) "This model's maximum context length is 4096 tokens. However, your messages resulted in 4500 tokens." 400);
   ("server_error"%string, NewError "The server is overloaded or not ready yet." 503);
   ("invalid_request"%string, NewErrorFor (Some "model"%string) "Invalid request: missing required parameter 'model'." 400);
   ("model_not_found"%string, NewErrorFor (Some "model"%string) (getModelNotFoundMessage "%s") 404)].

(** A missing key of the map is the zero value. *)
Definition failureOf (failureType : string) : Error :=
  match list_find (λ x, x.1 = failureType) predefinedFailures with Some (_, (_, e)) => e | None => mkError "" "" None 0 end.
Definition set_Message (m : string) (e : Error) : Error := mkError m (errorType e) (Param e) (Code e).

Section Failures.
Local Open Scope random_scope.
Variable g : generator.
Variable c : Config.Configuration.
(** The order in which the map of the failures is ranged over. *)
Variable rangeKeys : list string.

Definition shouldInjectFailure : drawing bool :=
  if Config.FailureInjectionRate c =? 0 then ret false else x <- RandomInt g 1 100; ret (x <=? Config.FailureInjectionRate c).

Definition customized (failureType : string) : Error :=
  let failure := failureOf failureType in
  if bool_decide (failureType = "rate_limit"%string) && negb (bool_decide (Config.Model c = ""%string)) then set_Message (rateLimitMessageTemplate (Config.Model c)) failure
  else if bool_decide (failureType = "model_not_found"%string) && negb (bool_decide (Config.Model c = ""%string)) then set_Message (getModelNotFoundMessage (Config.Model c)) failure
  else failure.

Definition getRandomFailure : drawing Error :=
  match (match Config.FailureTypes c with [] => rangeKeys | l => l end) with
  | [] => ret (failureOf "server_error")
  | available => i <- RandomInt g 0 (Z.of_nat (length available) - 1); randomType <- index available i; ret (customized randomType)
  end.
End Failures.

(** * The server *)

(** The configuration, with the fields only the front reads. *)
Record settings := mkSettings {
  conf : Config.Configuration; EnableKVCache : bool; EnableSleepMode : bool; VllmDevMode : bool; Omni : bool; EnableRequestIDHeaders : bool;
  PodName : string; PodNameSpace : string; StartupDuration : Z
}.

Record Communication := mkComm { simulator : Scheduler.Simulator; IsSleeping : bool; stopping : bool; startTime : Z; mooncakeEngines : option (list (string * string)) }.
Definition set_simulator (s : Scheduler.Simulator) (c : Communication) : Communication := mkComm s (IsSleeping c) (stopping c) (startTime c) (mooncakeEngines c).
Definition set_IsSleeping (b : bool) (c : Communication) : Communication := mkComm (simulator c) b (stopping c) (startTime c) (mooncakeEngines c).
Definition set_mooncakeEngines (m : list (string * string)) (c : Communication) : Communication := mkComm (simulator c) (IsSleeping c) (stopping c) (startTime c) (Some m).

(** [strconv.ParseBool]. *)
Definition ParseBool (s : string) : option bool :=
  if bool_decide (s ∈ ["1"; "t"; "T"; "TRUE"; "true"; "True"]%string) then Some true
  else if bool_decide (s ∈ ["0"; "f"; "F"; "FALSE"; "false"; "False"]%string) then Some false else None.

(** A request: its body and the headers that are read (empty when absent). *)
Record incoming := mkIncoming { in_body : string; RequestIDHeader : string; XReturnErrorHeader : string; CacheThresholdFinishReasonHeader : string; XSendImageHeader : string }.

(** What a handler decides before the answer is delivered. *)
Inductive front := Refused (e : Error) (injected : bool) | Serving (numChoices : nat) (isStream : bool) (headers : list (string * string)).

Section Front.
Local Open Scope random_scope.
Variable g : generator.
Variable c : settings.
Variable rangeKeys : list string.
(** The decoder of the endpoint, the request ids, and the decoded request as the
    scheduler reads it once its id, a forced cache-threshold end and an image are set. *)
Context {Parsed : Type}.
Variable Unmarshal : string → result string Parsed.
Variable GenerateUUIDString : drawing string.
(** [strconv.Quote], for the message of an error. *)
Variable Quote : string → string.
Variable asRequest : Parsed → string → option bool → option bool → Scheduler.Request.

Definition getRequestID (h : incoming) : drawing string :=
  if EnableRequestIDHeaders c && negb (bool_decide (RequestIDHeader h = ""%string)) then ret (RequestIDHeader h) else GenerateUUIDString.

Definition addResponseHeaders (requestID : string) : list (string * string) :=
  (if bool_decide (PodName c = ""%string) then [] else [("x-inference-pod"%string, PodName c); ("x-inference-port"%string, pretty (Config.Port (conf c)))]) ++
  (if bool_decide (PodNameSpace c = ""%string) then [] else [("x-inference-namespace"%string, PodNameSpace c)]) ++
  (if EnableRequestIDHeaders c then [("X-Request-Id"%string, requestID)] else []).

(** Whether an image is sent; [None] leaves the request as it is. *)
Definition sendImage (h : incoming) : drawing (option bool) :=
  if Omni c then
    let sendImg := default false (ParseBool (XSendImageHeader h)) in
    if negb sendImg && (0 <? Config.ImageEmissionRate (conf c)) then x <- RandomInt g 1 100; ret (Some (x <=? Config.ImageEmissionRate (conf c))) else ret (Some sendImg)
  else ret None.

(** [Simulator.HandleRequest], with the failure drawn. *)
Definition HandleDrawn (req : Scheduler.Request) (requestID : string) (s : Communication) : drawing (Communication * front) :=
  inject <- shouldInjectFailure g (conf c);
  failure <- (if inject : bool then e <- getRandomFailure g (conf c) rangeKeys; ret (Some e) else ret None);
  match Scheduler.HandleRequest failure req (simulator s) with
  | None => panic
  | Some (sim, Scheduler.Failed e injected) => ret (set_simulator sim s, Refused e injected)
  | Some (sim, Scheduler.Accepted numChoices isStream) => ret (set_simulator sim s, Serving numChoices isStream (addResponseHeaders requestID))
  end.

Definition handleHTTP (h : incoming) (s : Communication) : drawing (Communication * front) :=
  if stopping s then ret (s, Refused (NewError "server is shutting down" 503) false)
  else match Unmarshal (in_body h) with
  | Err e => ret (s, Refused (NewError ("Failed to read and parse request body, " +:+ e) 400) false)
  | Ok parsed =>
      requestID <- getRequestID h;
      if negb (bool_decide (XReturnErrorHeader h = ""%string)) then
        ret (s, match Config.Atoi (XReturnErrorHeader h) with
                | None => Refused (NewError ("Invalid X-Return-Error header value " +:+ Quote (XReturnErrorHeader h) +:+ ": must be an integer") 400) false
                | Some code => Refused (NewError ("Simulated error triggered by X-Return-Error header (code " +:+ pretty code +:+ ")") code) true
                end)
      else
        image <- sendImage h;
        HandleDrawn (asRequest parsed requestID (ParseBool (CacheThresholdFinishReasonHeader h)) image) requestID s
  end.

(** The answer, from the messages of the response channel. *)
Definition deliver {St} (b : responseBuilder St) (now : Z) (Marshal : payload → result string string) (sendChunk : list sseChunk → sseChunk → option string)
    (f : front) (msgs : list Streaming.ResponseInfo) : Streaming.reply :=
  match f with
  | Refused e _ => Streaming.ErrorReply e
  | Serving n true _ => Streaming.handleStream b now sendChunk n msgs
  | Serving n false _ => Streaming.sendNonStream b now Marshal n msgs
  end.
End Front.

(** * Sleep and wake-up *)

Section Handlers.
Variable c : settings.

(** The helper of the cache; nil is dereferenced. *)
Definition onCache (f : BlockCache.blockCache → BlockCache.blockCache) (s : Communication) : option Communication :=
  let ctx := Scheduler.Context (simulator s) in
  bc ← Lora.kvcacheHelper ctx;
  Some (set_simulator (Scheduler.set_Context (Lora.set_kvcacheHelper (Some (f bc)) ctx) (simulator s)) s).

Definition HandleSleep (s : Communication) : option Communication :=
  if EnableSleepMode c && VllmDevMode c then
    let s := set_IsSleeping true s in
    if EnableKVCache c then onCache BlockCache.discard s else Some s
  else Some s.

(** [tags]: the query argument, nil when absent. *)
Definition HandleWakeUp (tags : option string) (s : Communication) : option Communication :=
  let wakeUpKVCache := match tags with Some t => bool_decide (t = "kv_cache"%string) | None => true end in
  s ← (if EnableKVCache c && wakeUpKVCache then onCache BlockCache.activate s else Some s);
  Some (set_IsSleeping false s).

(** * Models and adapters *)

Record ModelInfo := mkModelInfo { mi_ID : string; Root : string; Parent : option string; mi_MaxModelLen : Z }.

(** [None]: the first served name of an empty list. *)
Definition CreateModelsResponse (s : Lora.SimContext) : option (list ModelInfo) :=
  parent ← head (Lora.ServedModelNames s);
  Some (((λ alias, mkModelInfo alias (Config.Model (conf c)) None (Config.MaxModelLen (conf c))) <$> Lora.ServedModelNames s) ++
        ((λ lora, mkModelInfo lora (Lora.getLoraPath lora s) (Some parent) (Config.MaxModelLen (conf c))) <$> Lora.getLoras s)).

(** The adapter handlers: 200, or 400 with the decoding error. *)
Definition onContext (f : Lora.SimContext → Lora.SimContext * option string) (s : Communication) : Communication * option Error :=
  let '(ctx, err) := f (Scheduler.Context (simulator s)) in
  (set_simulator (Scheduler.set_Context ctx (simulator s)) s, (λ e, NewError e 400) <$> err).
Definition HandleLoadLora (body : result string (string * string)) : Communication → Communication * option Error := onContext (Lora.LoadLoraAdaptor body).
Definition HandleUnloadLora (body : result string string) : Communication → Communication * option Error := onContext (Lora.UnloadLoraAdaptor body).

(** * Readiness, engine ids, tokenization *)

(** The status of [/health/ready]. *)
Definition HandleHealthReady (now : Z) (s : Communication) : Z :=
  if (0 <? StartupDuration c) && (now - startTime s <? StartupDuration c) then 503 else 200.

(** The ids of the engines by rank, made once. *)
Fixpoint makeEngines (GenerateUUIDString : drawing string) (ranks : list Z) : drawing (list (string * string)) :=
  match ranks with
  | [] => ret []
  | r :: ranks => (id <- GenerateUUIDString; rest <- makeEngines GenerateUUIDString ranks; ret ((pretty r, id) :: rest))%rnd
  end.
Definition mooncakeEngineMap (GenerateUUIDString : drawing string) (s : Communication) : drawing (Communication * list (string * string)) :=
  match mooncakeEngines s with
  | Some m => ret (s, m)
  | None => (m <- makeEngines GenerateUUIDString (seqZ 0 (Config.DPSize (conf c))); ret (set_mooncakeEngines m s, m))%rnd
  end.

Record TokenizeResponse := mkTokenizeResponse { tz_Count : Z; tz_Tokens : list Z; tz_MaxModelLen : Z }.
(** A decoded request has a prompt and, unless nil, messages. *)
Definition HandleTokenize {Msg} (RenderText : string → result string (list Z)) (RenderMessages : list Msg → result string (list Z))
    (body : result string (string * option (list Msg))) : result Error TokenizeResponse :=
  match body with
  | Err e => Err (NewError ("Failed to read and parse tokenize request body, " +:+ e) 400)
  | Ok (prompt, messages) =>
      if negb (bool_decide (prompt = ""%string)) && bool_decide (is_Some messages) then Err (NewError "both prompt and messages fields in tokenize request" 400)
      else match (if negb (bool_decide (prompt = ""%string)) then RenderText prompt else RenderMessages (default [] messages)) with
      | Err e => Err (NewError ("Failed to tokenize, " +:+ e) 500)
      | Ok tokens => Ok (mkTokenizeResponse (Z.of_nat (length tokens)) tokens (Config.MaxModelLen (conf c)))
      end
  end.
End Handlers.

End Server.
