(* ===== verification/ServerProps.v ===== *)
(** What the HTTP front promises: which failures are injected, what becomes of a request,
    what a failed choice does to its request, and the sleep and wake-up of the cache. *)

From stdpp Require Import pretty.
From S2P Require Import Prelude GoFloat GoRandom BlockCache BlockCacheProps Lora Scheduler SchedulerProps Config ConfigProps Dataset Response Streaming StreamingProps Server.
Import GoRandom Response Server.
Open Scope Z_scope.

Module ServerProps.

(** * Failure injection *)

(** What validation gives the front. *)
Lemma accepted_front rng c0 c :
  Config.validate rng c0 = Some (Ok c) →
  Config.Model c ≠ ""%string ∧ 0 ≤ Config.FailureInjectionRate c ≤ 100 ∧ (∀ ft, ft ∈ Config.FailureTypes c → ft ∈ Config.failureTypes) ∧ Config.ServedModelNames c ≠ [].
Proof.
  intros Hv. apply ConfigProps.validate_passed in Hv as [Hm He _ _ _ _ _ _ Hres]. revert Hres. generalize (Config.fakeMetrics c) as fakes. intros fakes ->. rewrite !Forall_app in He.
  destruct He as (_ & _ & _ & _ & _ & Hc & Hft). cbn [Config.Model Config.ServedModelNames Config.normalized Config.FailureInjectionRate Config.FailureTypes].
  unfold Config.cacheChecks in Hc. repeat rewrite Forall_cons in Hc. cbn [fst Config.refuse] in Hc. unfold Config.outside in Hc. rewrite ?orb_false_iff in Hc. destruct Hc as (_ & _ & _ & _ & C5 & _).
  split_and!; [done|lia|lia| |by destruct (Config.ServedModelNames c0)].
  intros ft Hin. unfold Config.failureChecks in Hft. rewrite Forall_fmap, Forall_forall in Hft. specialize (Hft ft Hin). cbn in Hft. rewrite negb_false_iff in Hft. by apply bool_decide_eq_true in Hft.
Qed.

Lemma filter_same {A} (P Q : A → Prop) `{!∀ x, Decision (P x)} `{!∀ x, Decision (Q x)} (l : list A) : (∀ x, x ∈ l → P x ↔ Q x) → filter P l = filter Q l.
Proof.
  induction l as [|x l IH]; intros Hl; [done|]. rewrite !filter_cons. rewrite IH by (intros y Hy; apply Hl; by right). specialize (Hl x ltac:(by left)).
  destruct (decide (P x)), (decide (Q x)); naive_solver.
Qed.

(** A generator whose next number is [d]. *)
Definition fixedDraw (d : Z) : generator := mkGenerator (λ _ _, d) (λ _, f_zero) (λ _, f_zero).
Definition injects (c : Config.Configuration) (d : Z) : bool := match shouldInjectFailure (fixedDraw d) c 0%nat with Returns b _ => b | _ => false end.

Lemma injects_draw c d : 0 ≤ Config.FailureInjectionRate c → 0 ≤ d < 100 → injects c d = bool_decide (d + 1 ≤ Config.FailureInjectionRate c).
Proof.
  intros Hr Hd. unfold injects, shouldInjectFailure, bind, RandomInt, ret. destruct (Z.eqb_spec (Config.FailureInjectionRate c) 0) as [E|E]; [symmetry; apply bool_decide_eq_false; lia|].
  change (i64 (100 - 1 + 1)) with 100. cbn. rewrite i64_small by lia. destruct (Z.leb_spec (d + 1) (Config.FailureInjectionRate c)); symmetry; [by apply bool_decide_eq_true|apply bool_decide_eq_false; lia].
Qed.

Lemma count_below r : 0 ≤ r ≤ 100 → length (filter (λ d, d + 1 ≤ r) (seqZ 0 100)) = Z.to_nat r.
Proof.
  intros Hr. assert (Forall (λ r, length (filter (λ d, d + 1 ≤ r) (seqZ 0 100)) = Z.to_nat r) (seqZ 0 101)) as H by by_decision.
  rewrite Forall_forall in H. apply H, elem_of_seqZ. lia.
Qed.

Lemma shouldInject_draw g c k :
  GeneratorOk g → 0 ≤ Config.FailureInjectionRate c ≤ 100 →
  ∃ k', 0 ≤ Intn g k 100 < 100 ∧ shouldInjectFailure g c k = Returns (injects c (Intn g k 100)) k'.
Proof.
  intros Hg Hr. pose proof (intn_range k 100 ltac:(lia)) as Hd. rewrite injects_draw by lia. unfold shouldInjectFailure, bind, RandomInt, ret. destruct (Z.eqb_spec (Config.FailureInjectionRate c) 0) as [E|E].
  - eexists. split; [done|]. f_equal. symmetry. apply bool_decide_eq_false. lia.
  - change (i64 (100 - 1 + 1)) with 100. cbn. eexists. split; [done|]. f_equal. rewrite i64_small by lia.
    destruct (Z.leb_spec (Intn g k 100 + 1) (Config.FailureInjectionRate c)); symmetry; [by apply bool_decide_eq_true|apply bool_decide_eq_false; lia].
Qed.

(** The errors of the types, in a table of their own: the code, the parameter, and the message. *)
Definition documented (model failureType : string) (e : Error) : Prop :=
  (failureType = "rate_limit"%string ∧ Code e = 429 ∧ Message_ e = rateLimitMessageTemplate model) ∨ (failureType = "invalid_api_key"%string ∧ Code e = 401) ∨
  (failureType = "context_length"%string ∧ Code e = 400 ∧ Param e = Some "messages"%string) ∨ (failureType = "server_error"%string ∧ Code e = 503) ∨
  (failureType = "invalid_request"%string ∧ Code e = 400 ∧ Param e = Some "model"%string) ∨
  (failureType = "model_not_found"%string ∧ Code e = 404 ∧ Param e = Some "model"%string ∧ Message_ e = getModelNotFoundMessage model).

Lemma customized_documented c t : Config.Model c ≠ ""%string → t ∈ Config.failureTypes → documented (Config.Model c) t (customized c t) ∧ errorType (customized c t) = ErrorCodeToType (Code (customized c t)).
Proof.
  intros Hm Ht. unfold customized. rewrite (bool_decide_eq_false_2 (Config.Model c = ""%string)) by done. cbn [negb].
  unfold Config.failureTypes in Ht. rewrite !elem_of_cons, elem_of_nil in Ht. unfold documented. destruct Ht as [->|[->|[->|[->|[->|[->|[]]]]]]]; (split; [|reflexivity]); cbn; naive_solver.
Qed.

Lemma getRandomFailure_ok g c rangeKeys k :
  GeneratorOk g → Config.Model c ≠ ""%string → (∀ ft, ft ∈ Config.FailureTypes c → ft ∈ Config.failureTypes) → rangeKeys ≡ₚ predefinedFailures.*1 → Z.of_nat (length (Config.FailureTypes c)) < 2 ^ 62 →
  ∃ t e, getRandomFailure g c rangeKeys k = Returns e (S k) ∧ (t ∈ Config.FailureTypes c ∨ Config.FailureTypes c = []) ∧ t ∈ Config.failureTypes ∧
    documented (Config.Model c) t e ∧ errorType e = ErrorCodeToType (Code e).
Proof.
  intros Hg Hm Hft Hrange Hlen. unfold getRandomFailure. set (l := match Config.FailureTypes c with [] => rangeKeys | l => l end).
  assert (l ≠ [] ∧ Z.of_nat (length l) < 2 ^ 62 ∧ ∀ t, t ∈ l → (t ∈ Config.FailureTypes c ∨ Config.FailureTypes c = []) ∧ t ∈ Config.failureTypes) as (Hne & Hl & Hin).
  { subst l. destruct (Config.FailureTypes c) as [|x xs] eqn:E.
    - split_and!; [intros ->; by apply Permutation_nil_l in Hrange|rewrite Hrange; cbn; lia|]. intros t Ht. split; [by right|]. by rewrite Hrange in Ht.
    - split_and!; [done|done|]. intros t Ht. split; [by left|]. by apply Hft. }
  destruct l as [|x xs] eqn:El; [done|]. rewrite <- El in *. clear El. unfold bind.
  assert (length l ≠ 0)%nat by (by destruct l).
  destruct (RandomInt_ok g 0 (Z.of_nat (length l) - 1) k ltac:(lia) ltac:(lia) ltac:(lia) ltac:(lia)) as (i & -> & Hi).
  destruct (index_ok l i (S k) ltac:(lia)) as (t & -> & Ht). destruct (Hin t Ht) as [H1 H2]. destruct (customized_documented c t Hm H2) as [D1 D2]. exists t, (customized c t). done.
Qed.

(** Failures are injected at the configured rate: of the hundred numbers the draw may
    give, exactly as many inject as the rate says (none at 0, all at 100), whatever is
    drawn the handler goes on without a panic, and the error is that of one of the
    configured types (any type, if none is configured), with its documented status,
    the error type of that status and the name of the model. *)
Theorem failure_injection_exact rng c0 c g rangeKeys k :
  GeneratorOk g → Config.validate rng c0 = Some (Ok c) → rangeKeys ≡ₚ predefinedFailures.*1 → Z.of_nat (length (Config.FailureTypes c)) < 2 ^ 62 →
  Z.of_nat (length (filter (λ d, injects c d = true) (seqZ 0 100))) = Config.FailureInjectionRate c ∧
  (∃ k', 0 ≤ Intn g k 100 < 100 ∧ shouldInjectFailure g c k = Returns (injects c (Intn g k 100)) k') ∧
  ∃ t e, getRandomFailure g c rangeKeys k = Returns e (S k) ∧ (t ∈ Config.FailureTypes c ∨ Config.FailureTypes c = []) ∧
    documented (Config.Model c) t e ∧ errorType e = ErrorCodeToType (Code e).
Proof.
  intros Hg Hv Hrange Hlen. destruct (accepted_front _ _ _ Hv) as (Hm & Hr & Hft & _). split_and!.
  - transitivity (Z.of_nat (length (filter (λ d, d + 1 ≤ Config.FailureInjectionRate c) (seqZ 0 100)))); [|rewrite count_below by done; lia].
    do 2 f_equal. apply filter_same. intros d ?%elem_of_seqZ. rewrite injects_draw by lia. by rewrite bool_decide_eq_true.
  - by apply shouldInject_draw.
  - destruct (getRandomFailure_ok g c rangeKeys k Hg Hm Hft Hrange Hlen) as (t & e & E & H1 & _ & H2). by exists t, e.
Qed.

Lemma failure_injection_exact_witness :
  length (filter (λ d, injects ConfigProps.config_ok d = true) (seqZ 0 100)) = 0%nat ∧
  ∃ e, getRandomFailure generator_ex ConfigProps.config_ok (predefinedFailures.*1) 3%nat = Returns e 4%nat ∧ errorType e = ErrorCodeToType (Code e).
Proof.
  destruct (failure_injection_exact map_to_list ConfigProps.config_ex ConfigProps.config_ok generator_ex (predefinedFailures.*1) 3%nat generator_ex_ok ConfigProps.config_ex_valid) as (H1 & _ & t & e & H2 & _ & _ & H3); [done|cbn; lia|].
  split; [|by exists e]. change (Config.FailureInjectionRate ConfigProps.config_ok) with 0 in H1. lia.
Defined.

(** * The path of a request *)

Lemma submitAll_submitted subs s : Scheduler.submitted (foldl (λ s r, Scheduler.submitOne r s) s subs) = Scheduler.submitted s ++ subs.
Proof.
  revert s. induction subs as [|r subs IH]; intros s; cbn; [by rewrite app_nil_r|]. rewrite IH. unfold Scheduler.submitOne.
  destruct (WriteToChannelWithError _ _ _) as [ch [e|]]; cbn; by rewrite <- app_assoc.
Qed.

Section Path.
Context (g : generator) `{!GeneratorOk g} (c : settings) (rangeKeys : list string) {Parsed : Type} (Unmarshal : string → result string Parsed).
Context (GenerateUUIDString : drawing string) (Quote : string → string) (asRequest : Parsed → string → option bool → option bool → Scheduler.Request).

(** Which id a request gets. *)
Definition IdOf (h : incoming) (id : string) : Prop :=
  if EnableRequestIDHeaders c && negb (bool_decide (RequestIDHeader h = ""%string)) then id = RequestIDHeader h else ∃ k k', GenerateUUIDString k = Returns id k'.

(** The outcome at the scheduler. *)
Definition Submitted (h : incoming) (s s' : Communication) (n : nat) (isStream : bool) (headers : list (string * string)) : Prop :=
  stopping s = false ∧ XReturnErrorHeader h = ""%string ∧
  ∃ parsed id image d, Unmarshal (in_body h) = Ok parsed ∧ IdOf h id ∧ headers = addResponseHeaders c id ∧
    let req := asRequest parsed id (ParseBool (CacheThresholdFinishReasonHeader h)) image in
    Lora.getDisplayedModelName (Scheduler.req_model req) (Scheduler.Context (simulator s)) = Some d ∧ Scheduler.req_validate req d = None ∧
    n = length (Scheduler.req_split req) ∧ isStream = Scheduler.req_stream req ∧
    Scheduler.submitted (simulator s') = Scheduler.submitted (simulator s) ++ imap (λ i id, Scheduler.mkReqCtx id i d (Scheduler.req_traceErr req)) (Scheduler.req_split req).

(** Why a request is refused. *)
Definition RefusedFor (h : incoming) (s : Communication) (e : Error) (injected : bool) : Prop :=
  if stopping s then Code e = 503 ∧ injected = false
  else match Unmarshal (in_body h) with
  | Err _ => Code e = 400 ∧ injected = false
  | Ok parsed =>
      if bool_decide (XReturnErrorHeader h = ""%string) then
        if injected then Config.FailureInjectionRate (conf c) ≠ 0 ∧ ∃ t, (t ∈ Config.FailureTypes (conf c) ∨ Config.FailureTypes (conf c) = []) ∧ documented (Config.Model (conf c)) t e
        else ∃ id image, IdOf h id ∧
          let req := asRequest parsed id (ParseBool (CacheThresholdFinishReasonHeader h)) image in
          let ctx := Scheduler.Context (simulator s) in
          (Lora.isValidModel (Scheduler.req_model req) ctx = false ∧ Code e = 404) ∨
          (∃ d, Lora.getDisplayedModelName (Scheduler.req_model req) ctx = Some d ∧ Scheduler.req_validate req d = Some e)
      else match Config.Atoi (XReturnErrorHeader h) with Some code => Code e = code ∧ injected = true | None => Code e = 400 ∧ injected = false end
  end.

Lemma set_simulator_same s : set_simulator (simulator s) s = s.
Proof. by destruct s. Qed.

Lemma sendImage_ok h k : ∃ image k', sendImage g c h k = Returns image k'.
Proof using GeneratorOk0.
  unfold sendImage, ret, bind. destruct (Omni c); [|by eexists _, _]. destruct (_ && _); [|by eexists _, _].
  destruct (RandomInt_ok g 1 100 k ltac:(lia) ltac:(lia) ltac:(lia) ltac:(lia)) as (x & -> & _). by eexists _, _.
Qed.

Context (Huuid : ∀ k, ∃ id k', GenerateUUIDString k = Returns id k') (Hrange : rangeKeys ≡ₚ predefinedFailures.*1).

Lemma getRequestID_ok h k : ∃ id k', getRequestID c GenerateUUIDString h k = Returns id k' ∧ IdOf h id.
Proof using Huuid.
  unfold getRequestID, IdOf, ret. destruct (_ && _); [by eexists _, _|]. destruct (Huuid k) as (id & k' & E). exists id, k'. eauto.
Qed.

Lemma handleDrawn_ok rng c0 h s parsed id image k :
  Config.validate rng c0 = Some (Ok (conf c)) → Z.of_nat (length (Config.FailureTypes (conf c))) < 2 ^ 62 →
  Lora.ServedModelNames (Scheduler.Context (simulator s)) = Config.ServedModelNames (conf c) →
  stopping s = false → Unmarshal (in_body h) = Ok parsed → XReturnErrorHeader h = ""%string → IdOf h id →
  ∃ s' f k', HandleDrawn g c rangeKeys (asRequest parsed id (ParseBool (CacheThresholdFinishReasonHeader h)) image) id s k = Returns (s', f) k' ∧
    match f with Refused e injected => s' = s ∧ RefusedFor h s e injected | Serving n isStream headers => Submitted h s s' n isStream headers end.
Proof using GeneratorOk0 Hrange.
  intros Hv Hlen Hserved Hst Hun Hhdr Hid. destruct (accepted_front _ _ _ Hv) as (Hm & Hr & Hft & Hne). set (req := asRequest _ _ _ _).
  unfold HandleDrawn, bind. destruct (shouldInject_draw g (conf c) k _ Hr) as (k1 & Hd & ->).
  assert (injects (conf c) (Intn g k 100) = true → Config.FailureInjectionRate (conf c) ≠ 0) as Hrate by (rewrite injects_draw, bool_decide_eq_true by lia; lia).
  destruct (injects _ _).
  - destruct (getRandomFailure_ok g (conf c) rangeKeys k1 _ Hm Hft Hrange Hlen) as (t & e & -> & H1 & _ & H2 & _). cbn. rewrite set_simulator_same. eexists _, _, _. split; [done|]. split; [done|].
    unfold RefusedFor. rewrite Hst, Hun, bool_decide_eq_true_2 by done. split; [by apply Hrate|]. by exists t.
  - unfold ret at 1. cbn. unfold Scheduler.HandleRequest. destruct (Lora.isValidModel _ _) eqn:Ev; cbn.
    + destruct (Lora.getDisplayedModelName _ _) as [d|] eqn:Ed.
      * destruct (Scheduler.req_validate req d) as [err|] eqn:Ev'; (eexists _, _, _; split; [done|]).
        -- rewrite set_simulator_same. split; [done|]. unfold RefusedFor. rewrite Hst, Hun, bool_decide_eq_true_2 by done. exists id, image. split; [done|]. right. by exists d.
        -- unfold Submitted. split_and!; [done|done|]. exists parsed, id, image, d. split_and!; [done|done|done|done|done|by rewrite length_imap|done|]. apply submitAll_submitted.
      * exfalso. unfold Lora.getDisplayedModelName in Ed. destruct (Lora.isLora _ _); [done|]. rewrite Hserved in Ed. by destruct (Config.ServedModelNames (conf c)).
    + eexists _, _, _. split; [done|]. rewrite set_simulator_same. split; [done|]. unfold RefusedFor. rewrite Hst, Hun, bool_decide_eq_true_2 by done. exists id, image. split; [done|]. by left.
Qed.

(** C7: a request either leaves no trace or is in the hands of the scheduler: on an accepted
    configuration the handler returns; it refuses with the scheduler unchanged, with 503
    while shutting down, 400 for a body it cannot parse, the status asked for by
    X-Return-Error, an injected failure of a configured type, 404 for an unknown model,
    or the error of the validation; otherwise it serves, and has submitted exactly as
    many sub-requests as it waits for, one per part, numbered from zero, under the id
    that the headers report. *)
Theorem http_front_outcome rng c0 h s k :
  Config.validate rng c0 = Some (Ok (conf c)) → Z.of_nat (length (Config.FailureTypes (conf c))) < 2 ^ 62 →
  Lora.ServedModelNames (Scheduler.Context (simulator s)) = Config.ServedModelNames (conf c) →
  ∃ s' f k', handleHTTP g c rangeKeys Unmarshal GenerateUUIDString Quote asRequest h s k = Returns (s', f) k' ∧
    match f with Refused e injected => s' = s ∧ RefusedFor h s e injected | Serving n isStream headers => Submitted h s s' n isStream headers end.
Proof using GeneratorOk0 Huuid Hrange.
  intros Hv Hlen Hserved. unfold handleHTTP. destruct (stopping s) eqn:Hst.
  { eexists _, _, _. split; [done|]. split; [done|]. unfold RefusedFor. by rewrite Hst. }
  destruct (Unmarshal (in_body h)) as [parsed|e] eqn:Hun.
  2: { eexists _, _, _. split; [done|]. split; [done|]. unfold RefusedFor. by rewrite Hst, Hun. }
  unfold bind. destruct (getRequestID_ok h k) as (id & k1 & -> & Hid). destruct (bool_decide_reflect (XReturnErrorHeader h = ""%string)) as [Hh|Hh]; cbn [negb].
  - destruct (sendImage_ok h k1) as (image & k2 & ->). by apply (handleDrawn_ok rng c0).
  - assert (bool_decide (XReturnErrorHeader h = ""%string) = false) as Hb by by apply bool_decide_eq_false.
    destruct (Config.Atoi (XReturnErrorHeader h)) as [code|] eqn:Ea; (eexists _, _, _; split; [done|]; split; [done|]; unfold RefusedFor; by rewrite Hst, Hun, Hb, Ea).
Qed.
End Path.

(** ** An example: a request for the served model, and one with an error code *)

Definition settings_ex : settings := mkSettings ConfigProps.config_ok true true true false true "" "" 0.
Definition sim_ex : Scheduler.Simulator :=
  Scheduler.mkSim (Scheduler.initialize (Scheduler.mkConfiguration ["m"%string] [] 1 1 1) None) (mkChan [] 1) (mkChan [] 1) [] 1 (mkChan [] 2) ∅ false [] [].
Definition comm_ex : Communication := mkComm sim_ex false false 0 None.
Definition request_ex (_ : unit) (id : string) (_ _ : option bool) : Scheduler.Request := Scheduler.mkRequest "m" (λ _, None) [id; id] true false.
Definition front_ex (h : incoming) : outcome (Communication * front) :=
  handleHTTP generator_ex settings_ex (predefinedFailures.*1) (λ _, Ok tt) (ret "uuid"%string) id request_ex h comm_ex 0%nat.

Lemma http_front_outcome_witness :
  (∃ s', front_ex (mkIncoming "{}" "r" "" "" "") = Returns (s', Serving 2 true [("X-Request-Id"%string, "r"%string)]) 0%nat ∧ length (Scheduler.submitted (simulator s')) = 2%nat) ∧
  ∃ e, front_ex (mkIncoming "{}" "r" "418" "" "") = Returns (comm_ex, Refused e true) 0%nat ∧ Code e = 418.
Proof.
  pose proof (λ h, http_front_outcome generator_ex (GeneratorOk0 := generator_ex_ok) settings_ex (predefinedFailures.*1) (λ _, Ok tt) (ret "uuid"%string) id request_ex
    (λ k, ex_intro _ "uuid"%string (ex_intro _ k eq_refl)) (reflexivity _) map_to_list ConfigProps.config_ex h comm_ex 0%nat ConfigProps.config_ex_valid ltac:(cbn; lia) eq_refl) as H. split.
  - destruct (H (mkIncoming "{}" "r" "" "" "")) as (s' & f & k' & E & Hf). vm_compute in E. injection E as <- <- <-. destruct Hf as (_ & _ & parsed & i & image & d & _ & _ & _ & _ & _ & Hn & _ & Hs).
    eexists. split; [vm_compute; reflexivity|reflexivity].
  - destruct (H (mkIncoming "{}" "r" "418" "" "")) as (s' & f & k' & E & Hf). vm_compute in E. injection E as <- <- <-. destruct Hf as [_ Hf]. vm_compute in Hf.
    eexists. split; [vm_compute; reflexivity|reflexivity].
Defined.

(** * Failed choices *)

(** The messages of a choice that fails before it produces anything, or succeeds. *)
Definition produced (o : result Error ResponseContext) (i : nat) : option (list Streaming.ResponseInfo) :=
  match o with Ok rc => Streaming.simulateResponseProcessing rc i | Err e => Some [Streaming.mkInfo None None (Some e) None "" i] end.

(** The first error of the messages decides both deliveries. *)
Definition FailsWhole {St} (b : responseBuilder St) (n : nat) : Prop :=
  ∀ os ls msgs now sendChunk Marshal headers headers',
    length os = n → (∀ rc, Ok rc ∈ os → StreamingProps.TokenResponse rc) → (∃ e, Err e ∈ os) → length ls = n → (∀ i o, os !! i = Some o → produced o i = ls !! i) →
    StreamingProps.Interleaving ls msgs → (∀ f chunk, sendChunk f chunk = None) →
    ∃ e, Err e ∈ os ∧ deliver b now Marshal sendChunk (Serving n false headers) msgs = Streaming.ErrorReply e ∧
      (deliver b now Marshal sendChunk (Serving n true headers') msgs = Streaming.ErrorReply e ∨
       ∃ f, deliver b now Marshal sendChunk (Serving n true headers') msgs = Streaming.Stream (f ++ [jsonDataChunk (ErrorResponse e); doneMarker]) (Streaming.Broken e)).

Lemma collectAll_fails cs pre m post l col e :
  Forall (StreamingProps.Good cs) pre → Streaming.Err_ m = Some e → StreamingProps.Collected cs l col → Streaming.collectAll (pre ++ m :: post) col = Some (Err e).
Proof.
  intros Hg He. revert l col. induction Hg as [|x pre Hx _ IH]; intros l col Hc; cbn [app Streaming.collectAll]; [by rewrite He|].
  destruct (StreamingProps.collect_ok cs x l col Hx Hc) as (col' & E & Hc'). destruct Hx as (-> & _). rewrite E. cbn [mbind option_bind]. by eapply IH.
Qed.

Lemma handleMessages_fail {St} (b : responseBuilder St) ok delta `{!StreamingProps.TextBuilder b ok delta} now sendChunk cs pre m post l s e :
  (∀ f chunk, sendChunk f chunk = None) → Forall (λ m, StreamingProps.Good cs m ∧ ok (Streaming.ChoiceIdx m)) pre → Streaming.Err_ m = Some e → StreamingProps.Sent ok delta now cs l l s →
  ∃ f s', Streaming.handleMessages b now sendChunk (pre ++ m :: post) s = Streaming.End_ s' (Streaming.Broken e) ∧ Streaming.frames s' = f ++ [jsonDataChunk (ErrorResponse e); doneMarker].
Proof.
  intros Hsend Hg He. revert l s. induction Hg as [|x pre [Hx Hok] _ IH]; intros l s Hs; cbn [app Streaming.handleMessages].
  - unfold Streaming.handleMessage. rewrite He. unfold Streaming.sendStreamErrorAndDone, Streaming.tryFrame. rewrite !Hsend. eexists _, _. split; [done|]. cbn. by rewrite <- app_assoc.
  - destruct (StreamingProps.handleMessage_ok b ok delta now sendChunk Hsend cs x l s Hx Hok Hs) as (s' & -> & Hs'). by eapply IH.
Qed.

Definition contextOf (o : result Error ResponseContext) : ResponseContext := match o with Ok rc => rc | Err _ => emptyCtx end.

(** A message is one of a response, or the error of a choice. *)
Lemma produced_messages os i o l m :
  os !! i = Some o → (∀ rc, Ok rc ∈ os → StreamingProps.TokenResponse rc) → produced o i = Some l → m ∈ l →
  Streaming.ChoiceIdx m = i ∧ match Streaming.Err_ m with Some e => Err e ∈ os | None => StreamingProps.Good (contextOf <$> os) m end.
Proof.
  intros Hi Htok Hp Hm. destruct o as [rc|e]; cbn in Hp.
  - assert ((contextOf <$> os) !! i = Some rc) as Hc by (by rewrite list_lookup_fmap, Hi).
    destruct (StreamingProps.produce_ok (contextOf <$> os) rc i Hc) as (t & l' & _ & E & _ & _ & _ & Hg); [apply Htok; by eapply list_elem_of_lookup_2|].
    rewrite Hp in E. injection E as <-. rewrite Forall_forall in Hg. destruct (Hg m Hm) as [G1 G2]. split; [done|]. by rewrite (proj1 G1).
  - injection Hp as <-. apply list_elem_of_singleton in Hm as ->. cbn. split; [done|]. by eapply list_elem_of_lookup_2.
Qed.

Lemma first_error msgs : (∃ m, m ∈ msgs ∧ is_Some (Streaming.Err_ m)) → ∃ pre m e post, msgs = pre ++ m :: post ∧ Streaming.Err_ m = Some e ∧ Forall (λ x, Streaming.Err_ x = None) pre.
Proof.
  induction msgs as [|x msgs IH]; intros (m & Hm & He); [by apply not_elem_of_nil in Hm|]. destruct (Streaming.Err_ x) as [e|] eqn:Ex; [by exists [], x, e, msgs|].
  destruct IH as (pre & m' & e & post & -> & He' & Hp); [apply elem_of_cons in Hm as [->|Hm]; [rewrite Ex in He; by destruct He|by exists m]|]. exists (x :: pre), m', e, post. split_and!; [done|done|by constructor].
Qed.

Lemma fails_whole {St} (b : responseBuilder St) ok delta n : StreamingProps.TextBuilder b ok delta → (∀ i, (i < n)%nat → ok i) → FailsWhole b n.
Proof.
  intros Hb Hok os ls msgs now sendChunk Marshal hs hs' Hn Htok [e0 He0] Hln Hls Hint Hsend. set (cs := contextOf <$> os).
  assert (∀ i l, ls !! i = Some l → ∃ o, os !! i = Some o ∧ produced o i = Some l) as Hprod.
  { intros i l Hi. destruct (lookup_lt_is_Some_2 os i) as [o Ho]; [rewrite Hn, <- Hln; by eapply lookup_lt_Some|]. exists o. split; [done|]. by rewrite (Hls i o Ho). }
  assert (∀ i l m, ls !! i = Some l → m ∈ l → Streaming.ChoiceIdx m = i) as Hidx.
  { intros i l m Hi Hm. destruct (Hprod i l Hi) as (o & Ho & Hp). by eapply produced_messages. }
  assert (∀ m, m ∈ msgs → (Streaming.ChoiceIdx m < n)%nat ∧ match Streaming.Err_ m with Some e => Err e ∈ os | None => StreamingProps.Good cs m end) as Hmsgs.
  { intros m Hm. destruct (StreamingProps.interleaving_elem ls msgs Hint m Hm) as (i & l & Hi & Hml). destruct (Hprod i l Hi) as (o & Ho & Hp).
    destruct (produced_messages os i o l m Ho Htok Hp Hml) as [-> H]. split; [rewrite <- Hln; by eapply lookup_lt_Some|done]. }
  destruct (first_error msgs) as (pre & m & e & post & -> & He & Hno).
  { apply list_elem_of_lookup in He0 as [i Hi]. pose proof (Hls i _ Hi) as Hl. symmetry in Hl. pose proof (StreamingProps.interleaving_filter ls msgs Hint Hidx i _ Hl) as Hf. set (bad := Streaming.mkInfo _ _ _ _ _ _) in *.
    exists bad. split; [|by eexists]. assert (bad ∈ filter (λ m, Streaming.ChoiceIdx m = i) msgs) as Hbad by (rewrite Hf; by left). by apply list_elem_of_filter in Hbad as [_ ?]. }
  exists e. destruct (Hmsgs m) as [_ Hme]; [apply elem_of_app; right; by left|]. rewrite He in Hme. split; [done|].
  assert (Forall (λ x, StreamingProps.Good cs x ∧ ok (Streaming.ChoiceIdx x)) pre) as Hpre.
  { rewrite Forall_forall in Hno |- *. intros x Hx. destruct (Hmsgs x) as [H1 H2]; [apply elem_of_app; by left|]. rewrite (Hno x Hx) in H2. split; [done|by apply Hok]. }
  assert (length cs = n) as Hcs by (unfold cs; by rewrite length_fmap). split.
  - cbn [deliver]. unfold Streaming.sendNonStream. rewrite <- Hcs. erewrite (collectAll_fails cs pre m post [] _ e); [done| |done|apply StreamingProps.Collected_start].
    eapply Forall_impl; [exact Hpre|]. by intros ? [? _].
  - cbn [deliver]. unfold Streaming.handleStream. destruct pre as [|x pre']; cbn [app]; [left; by rewrite He|]. right. rewrite app_comm_cons.
    destruct (handleMessages_fail b ok delta now sendChunk cs (x :: pre') m post [] (Streaming.newStreamState b (length cs)) e Hsend Hpre He) as (f & s' & E & Hf); [apply StreamingProps.Sent_start|].
    exists f. assert (Streaming.sendStream b now sendChunk n ((x :: pre') ++ m :: post) = Streaming.Stream (f ++ [jsonDataChunk (ErrorResponse e); doneMarker]) (Streaming.Broken e)) as Hs by (unfold Streaming.sendStream; by rewrite <- Hcs, E, Hf).
    apply Forall_cons in Hno as [-> _]. exact Hs.
Qed.

(** C23: a request is answered as a whole: when a choice of a request fails (its queue was
    full, or processing it failed) while the others produce their tokens, in whatever
    order the messages arrive, the plain answer is the error of a failed choice with its
    own status, and the streamed one is the same error, with its status if nothing was
    sent yet, and else as a last frame before the terminator; no part of the response of
    another choice is presented as a success. *)
Theorem failed_choice_fails_request :
  (∀ n, FailsWhole textComplHTTPRespBuilder n) ∧ (∀ n, FailsWhole chatComplHTTPRespBuilder n) ∧
  FailsWhole responsesHTTPRespBuilder 1 ∧ ∀ Unmarshal, FailsWhole (messagesHTTPRespBuilder Unmarshal) 1.
Proof.
  split_and!; [intros n|intros n| |intros Unmarshal].
  - by apply (fails_whole _ _ _ n StreamingProps.text_builder).
  - by apply (fails_whole _ _ _ n StreamingProps.chat_builder).
  - apply (fails_whole _ _ _ 1 StreamingProps.responses_builder). lia.
  - apply (fails_whole _ _ _ 1 (StreamingProps.messages_builder Unmarshal)). lia.
Qed.

(** ** An example: the second choice is rejected after the first has begun *)

Definition outcomes_ex : list (result Error ResponseContext) := [Ok (StreamingProps.ctx_ex "r" "stop" [1; 2] ["Hello "; "you"]%string); Err (NewError "Failed to enqueue request" 429)].
Definition lists_ex : list (list Streaming.ResponseInfo) := omap id (imap (λ i o, produced o i) outcomes_ex).
Definition arrivals_ex : list Streaming.ResponseInfo :=
  match lists_ex with [a :: b :: l; l'] => a :: b :: l' ++ l | _ => [] end.

Lemma arrivals_ex_merged : StreamingProps.Interleaving lists_ex arrivals_ex.
Proof.
  eapply (StreamingProps.merged_cons _ 0); [reflexivity|]. eapply (StreamingProps.merged_cons _ 0); [reflexivity|]. eapply (StreamingProps.merged_cons _ 1); [reflexivity|].
  eapply (StreamingProps.merged_cons _ 0); [reflexivity|]. apply StreamingProps.merged_nil. repeat constructor.
Qed.

Lemma failed_choice_fails_request_witness :
  ∃ e f, Code e = 429 ∧ deliver textComplHTTPRespBuilder 7 (λ _, Ok ""%string) (λ _ _, None) (Serving 2 false []) arrivals_ex = Streaming.ErrorReply e ∧
    deliver textComplHTTPRespBuilder 7 (λ _, Ok ""%string) (λ _ _, None) (Serving 2 true []) arrivals_ex = Streaming.Stream (f ++ [jsonDataChunk (ErrorResponse e); doneMarker]) (Streaming.Broken e).
Proof.
  destruct failed_choice_fails_request as [H _].
  destruct (H 2%nat outcomes_ex lists_ex arrivals_ex 7 (λ _ _, None) (λ _, Ok ""%string) [] []) as (e & He & H1 & H2).
  - done.
  - intros rc Hrc. apply elem_of_cons in Hrc as [[= ->]|Hrc]; [|apply list_elem_of_singleton in Hrc; done]. eexists _, _. split; [reflexivity|]. by split_and!.
  - eexists. right. by left.
  - done.
  - intros [|[|i]] o Ho; cbn in Ho; [injection Ho as <-; reflexivity|injection Ho as <-; reflexivity|done].
  - apply arrivals_ex_merged.
  - done.
  - apply elem_of_cons in He as [He|He]; [done|]. apply list_elem_of_singleton in He. injection He as ->. destruct H2 as [H2|[f H2]]; [by vm_compute in H2|]. by exists (NewError "Failed to enqueue request" 429), f.
Defined.

(** * Sleep and wake-up *)

Lemma addBlocks_disabled env toks bs i acc : BlockCache.disabled (BlockCache.addBlocks env toks i bs acc).1.1 = BlockCache.disabled acc.1.1.
Proof.
  revert i acc. induction bs as [|x bs IH]; intros i [[bc hashes] tokens]; [done|]. cbn [BlockCache.addBlocks]. rewrite IH. unfold BlockCache.addBlock. cbn. by case_bool_decide.
Qed.
Lemma foldl_release_disabled tnow ks acc : BlockCache.disabled (foldl (BlockCache.releaseBlock tnow) acc ks).1 = BlockCache.disabled acc.1.
Proof.
  revert acc. induction ks as [|k ks IH]; intros [bc errs]; [done|]. cbn [foldl]. rewrite IH. unfold BlockCache.releaseBlock. destruct (_ !! k) as [n|]; [|done]. by destruct (1 <? n).
Qed.

Lemma startRequest_disabled env req hs toks bc : BlockCache.disabled (BlockCache.startRequest env req hs toks bc).1 = BlockCache.disabled bc.
Proof.
  unfold BlockCache.startRequest. destruct (BlockCache.disabled bc) eqn:Ed; [done|]. case_bool_decide; [done|]. destruct (negb _); [done|]. destruct (_ <? _); [done|].
  pose proof (addBlocks_disabled env toks (BlockCache.blocksToAdd (BlockCache.classify bc (BlockCache.GetDisplayedModel req) hs)) 0
    (BlockCache.reuseBlocks (BlockCache.classify bc (BlockCache.GetDisplayedModel req) hs) bc, [], [])) as Ha.
  destruct (BlockCache.addBlocks _ _ _ _ _) as [[bc' hashes] tokens]. cbn [fst] in Ha. rewrite (proj2 (proj2 (proj2 (proj2 (proj2 (proj2 (BlockCache.reuse_frame _ bc))))))) in Ha.
  unfold BlockCache.reportUsage, BlockCache.emitStore. destruct hashes; cbn; (destruct (BlockCache.usageChan bc'); cbn; congruence).
Qed.
Lemma finishRequest_disabled tnow id bc : BlockCache.disabled (BlockCache.finishRequest tnow id bc).1 = BlockCache.disabled bc.
Proof.
  unfold BlockCache.finishRequest. destruct (BlockCache.disabled bc) eqn:Ed; [done|]. destruct (_ !! id) as [blocks|]; [|done].
  pose proof (foldl_release_disabled tnow blocks (bc, [])) as Hf. destruct (foldl _ _ _) as [bc' errs]. cbn in Hf. unfold BlockCache.reportUsage. destruct errs; (destruct (BlockCache.usageChan bc'); cbn; congruence).
Qed.

(** The operations of the cache that requests and adapters cause. *)
Definition requestOp (o : BlockCacheProps.op) : bool := match o with BlockCacheProps.OpDiscard | BlockCacheProps.OpActivate => false | _ => true end.

(** A cache without contents. *)
Definition Cleared (bc : BlockCache.blockCache) : Prop :=
  BlockCache.requestToBlocks bc = ∅ ∧ BlockCache.usedBlocks bc = ∅ ∧ BlockCache.unusedBlocks bc = ∅ ∧ BlockCache.blockToTokens bc = ∅.

Lemma requestOp_disabled o bc : requestOp o = true → BlockCache.disabled (BlockCacheProps.run o bc) = BlockCache.disabled bc.
Proof. destruct o; intros Ho; cbn; [apply startRequest_disabled|apply finishRequest_disabled|done|done|done|done]. Qed.
Lemma requestOp_cleared o bc : requestOp o = true → BlockCache.disabled bc = true → Cleared bc → Cleared (BlockCacheProps.run o bc).
Proof.
  destruct o; intros Ho Hd Hc; cbn; [unfold BlockCache.startRequest|unfold BlockCache.finishRequest|done|done|exact Hc|exact Hc]; by rewrite Hd.
Qed.

Section Sleep.
Variable c : settings.
(** Whether every wake-up names the cache (or nothing). *)
Variable full : bool.
Definition wakesCache (tags : option string) : bool := match tags with Some t => bool_decide (t = "kv_cache"%string) | None => true end.
Definition cacheOf (s : Communication) : option BlockCache.blockCache := Lora.kvcacheHelper (Scheduler.Context (simulator s)).

(** The steps of a server: the two handlers, the operations of requests on the cache, and
    whatever else the scheduler does. *)
Inductive moves : Communication → Communication → Prop :=
| move_sleep s s' : HandleSleep c s = Some s' → moves s s'
| move_wake tags s s' : HandleWakeUp c tags s = Some s' → (full = true → wakesCache tags = true) → moves s s'
| move_cache o s s' : requestOp o = true → onCache (BlockCacheProps.run o) s = Some s' → moves s s'
| move_other s sim : Lora.kvcacheHelper (Scheduler.Context sim) = cacheOf s → moves s (set_simulator sim s).

(** The state between two steps. *)
Definition SleepOk (s : Communication) : Prop :=
  ∃ bc, cacheOf s = Some bc ∧ (IsSleeping s = true → BlockCache.disabled bc = true) ∧ (BlockCache.disabled bc = true → Cleared bc) ∧ (full = true → BlockCache.disabled bc = IsSleeping s).

Context (Hcache : EnableKVCache c = true).

Lemma onCache_some f s bc : cacheOf s = Some bc → ∃ s', onCache f s = Some s' ∧ cacheOf s' = Some (f bc) ∧ IsSleeping s' = IsSleeping s.
Proof. unfold onCache, cacheOf. intros ->. eexists. done. Qed.

Lemma HandleSleep_ok s : SleepOk s → ∃ s', HandleSleep c s = Some s' ∧ SleepOk s'.
Proof using Hcache.
  intros (bc & Hbc & H1 & H2 & H3). unfold HandleSleep. rewrite Hcache. destruct (_ && _); [|exists s; split; [done|by exists bc]].
  destruct (onCache_some BlockCache.discard (set_IsSleeping true s) bc Hbc) as (s' & -> & Hc & Hs). exists s'. split; [done|]. exists (BlockCache.discard bc). rewrite Hs. done.
Qed.
Lemma HandleWakeUp_ok tags s : (full = true → wakesCache tags = true) → SleepOk s → ∃ s', HandleWakeUp c tags s = Some s' ∧ SleepOk s' ∧ IsSleeping s' = false.
Proof using Hcache.
  intros Hf (bc & Hbc & H1 & H2 & H3). unfold HandleWakeUp. rewrite Hcache. fold (wakesCache tags). cbn [andb]. destruct (wakesCache tags) eqn:Ew.
  - destruct (onCache_some BlockCache.activate s bc Hbc) as (s' & -> & Hc & Hs). eexists. split; [done|]. split; [|done]. exists (BlockCache.activate bc). done.
  - eexists. split; [done|]. split; [|done]. exists bc. split_and!; [done|done|done|]. intros E. specialize (Hf E). congruence.
Qed.
Lemma moves_ok s s' : SleepOk s → moves s s' → SleepOk s'.
Proof using Hcache.
  intros Hs Hm. revert Hs. destruct Hm as [s0 s1 E|tags s0 s1 E Hf|o s0 s1 Ho E|s0 sim E]; intros Hs.
  - destruct (HandleSleep_ok _ Hs) as (? & E' & ?). rewrite E in E'. by injection E' as ->.
  - destruct (HandleWakeUp_ok tags _ Hf Hs) as (? & E' & ? & _). rewrite E in E'. by injection E' as ->.
  - destruct Hs as (bc & Hbc & H1 & H2 & H3). destruct (onCache_some (BlockCacheProps.run o) s0 bc Hbc) as (s' & E' & Hc & Hsl). assert (s1 = s') as -> by congruence.
    exists (BlockCacheProps.run o bc). rewrite requestOp_disabled, Hsl by done. split_and!; [done|done| |done]. intros Hd. apply requestOp_cleared; auto.
  - destruct Hs as (bc & Hbc & Hs). exists bc. split; [|done]. unfold cacheOf at 1. cbn. congruence.
Qed.
End Sleep.

(** C24: a sleeping server has no cache: with the cache enabled and created at start-up, over
    any sequence of sleep and wake-up calls, requests and other steps, the cache is
    disabled and empty while the server sleeps (requests that start find nothing and store
    nothing, those that end succeed), neither handler panics, every wake-up ends the sleep;
    and when every wake-up is a full one (no tags, or the tag of the cache), the cache is
    disabled exactly while the server sleeps.  In the encoder-only mode the cache is enabled
    but not created, and both handlers panic ([sleep_without_cache_panics]). *)
Theorem sleep_wake_cycle c full s s' bc0 :
  EnableKVCache c = true → cacheOf s = Some bc0 → BlockCache.disabled bc0 = false → IsSleeping s = false → rtc (moves c full) s s' →
  (∃ bc, cacheOf s' = Some bc ∧ (IsSleeping s' = true → BlockCache.disabled bc = true) ∧ (full = true → BlockCache.disabled bc = IsSleeping s') ∧
    (BlockCache.disabled bc = true → BlockCache.cached bc = ∅ ∧ ∀ env req hs toks tnow id,
      BlockCache.startRequest env req hs toks bc = (bc, Ok 0) ∧ BlockCache.finishRequest tnow id bc = (bc, Ok tt) ∧ BlockCache.countCachedBlockPrefix hs (BlockCache.GetDisplayedModel req) bc = 0%nat)) ∧
  is_Some (HandleSleep c s') ∧ ∀ tags, ∃ s'', HandleWakeUp c tags s' = Some s'' ∧ IsSleeping s'' = false.
Proof.
  intros Hc Hbc0 Hd0 Hs0 Hr. assert (SleepOk full s) as Hok by (exists bc0; split_and!; [done|congruence|congruence|congruence]).
  assert (SleepOk full s') as Hok'. { clear -Hr Hok Hc. induction Hr as [|s0 s1 s2 Hm _ IH]; [done|]. apply IH. by eapply moves_ok. }
  split_and!.
  - destruct Hok' as (bc & H1 & H2 & H3 & H4). exists bc. split_and!; [done|done|done|]. intros Hd. destruct (H3 Hd) as (R1 & R2 & R3 & R4). split.
    + unfold BlockCache.cached. rewrite R2, R3. set_solver.
    + intros env req hs toks tnow id. unfold BlockCache.startRequest, BlockCache.finishRequest, BlockCache.countCachedBlockPrefix. by rewrite Hd.
  - destruct (HandleSleep_ok c full Hc s' Hok') as (? & -> & _). done.
  - intros tags. destruct (HandleWakeUp_ok c false Hc tags s') as (s'' & E & _ & Hf); [done| |by exists s''].
    destruct Hok' as (bc & H1 & H2 & H3 & H4). by exists bc.
Qed.

Definition cache_ex : BlockCache.blockCache := BlockCache.mkBlockCache ∅ ∅ {[BlockCache.mkBlockKey 1 "m" := 3]} {[BlockCache.mkBlockKey 1 "m" := [1; 2]]} {["m"%string]} 4 (mkChan [] 40) None false.
Definition comm_cached : Communication :=
  set_simulator (Scheduler.set_Context (Lora.set_kvcacheHelper (Some cache_ex) (Scheduler.Context sim_ex)) sim_ex) comm_ex.

Lemma sleep_wake_cycle_witness :
  ∃ s' bc, HandleSleep settings_ex comm_cached = Some s' ∧ IsSleeping s' = true ∧ cacheOf s' = Some bc ∧ BlockCache.disabled bc = true ∧ BlockCache.cached bc = ∅.
Proof.
  eexists. destruct (sleep_wake_cycle settings_ex true comm_cached (default comm_ex (HandleSleep settings_ex comm_cached)) cache_ex) as [(bc & H1 & H2 & H3 & H4) _]; [done|done|done|done| |].
  - eapply rtc_l; [by apply move_sleep|apply rtc_refl].
  - exists bc. split; [reflexivity|]. split; [done|]. split; [exact H1|]. specialize (H2 eq_refl). split; [done|]. by apply H4.
Defined.

(** Where the cache is enabled but has no helper, as in the encoder-only mode, sleep (if it is
    allowed) and every full wake-up dereference nil. *)
Theorem sleep_without_cache_panics c s tags :
  EnableKVCache c = true → cacheOf s = None →
  (EnableSleepMode c = true → VllmDevMode c = true → HandleSleep c s = None) ∧
  (tags = None ∨ tags = Some "kv_cache"%string → HandleWakeUp c tags s = None).
Proof.
  intros Hc Hs. unfold cacheOf in Hs. split.
  - intros H1 H2. unfold HandleSleep, onCache. rewrite H1, H2, Hc. cbn. by rewrite Hs.
  - unfold HandleWakeUp, onCache. rewrite Hc. cbn. by intros [-> | ->]; cbn; rewrite Hs.
Qed.

Lemma sleep_without_cache_panics_witness : HandleSleep settings_ex comm_ex = None ∧ HandleWakeUp settings_ex None comm_ex = None.
Proof.
  destruct (sleep_without_cache_panics settings_ex comm_ex None) as [H1 H2]; [reflexivity|reflexivity|].
  split; [apply H1; reflexivity|apply H2; left; reflexivity].
Defined.

(** * Models *)

Lemma isLora_iff m s : Lora.isLora m s = true ↔ is_Some (Lora.loraAdaptors s !! m).
Proof.
  unfold Lora.isLora, Lora.getLoras. rewrite existsb_exists. split.
  - intros (x & Hx & ->%bool_decide_eq_true). apply list_elem_of_In, list_elem_of_fmap in Hx as ([k v] & -> & Hkv). apply elem_of_map_to_list in Hkv. by eexists.
  - intros [v Hv]. exists m. split; [|by apply bool_decide_eq_true]. apply list_elem_of_In, list_elem_of_fmap. exists (m, v). split; [done|]. by apply elem_of_map_to_list.
Qed.
Lemma isValidModel_iff m s : Lora.isValidModel m s = true ↔ m ∈ Lora.ServedModelNames s ∨ is_Some (Lora.loraAdaptors s !! m).
Proof.
  unfold Lora.isValidModel. rewrite orb_true_iff, <- isLora_iff. apply or_iff_compat_r. rewrite existsb_exists. split.
  - intros (x & Hx & ->%bool_decide_eq_true). by apply list_elem_of_In.
  - intros Hm. exists m. split; [by apply list_elem_of_In|by apply bool_decide_eq_true].
Qed.

(** The list of models is the list of what is served: with a name to serve, a model is
    listed exactly when a request for it is not refused as unknown; a loaded adapter is
    listed and served from then on, and an unloaded one no more (unless a served name). *)
Theorem models_listed_iff_served c s :
  Lora.ServedModelNames (Scheduler.Context (simulator s)) ≠ [] →
  let listed s m := ∃ l i, CreateModelsResponse c (Scheduler.Context (simulator s)) = Some l ∧ i ∈ l ∧ mi_ID i = m in
  let served s m := Lora.isValidModel m (Scheduler.Context (simulator s)) = true in
  (∀ m, listed s m ↔ served s m) ∧
  (∀ name path m, served (HandleLoadLora (Ok (name, path)) s).1 m ↔ m = name ∨ served s m) ∧
  (∀ name m, served (HandleUnloadLora (Ok name) s).1 m ↔ m ∈ Lora.ServedModelNames (Scheduler.Context (simulator s)) ∨ (m ≠ name ∧ served s m)).
Proof.
  intros Hne listed served. split_and!.
  - intros m. unfold listed, served. rewrite isValidModel_iff, <- isLora_iff. unfold CreateModelsResponse. destruct (Lora.ServedModelNames _) as [|x xs] eqn:E; [done|]. cbn [head mbind option_bind]. rewrite <- E.
    unfold Lora.isLora. rewrite existsb_exists. split.
    + intros (l & i & [= <-] & Hi & <-). apply elem_of_app in Hi as [(a & -> & Ha)%list_elem_of_fmap|(a & -> & Ha)%list_elem_of_fmap]; [by left|]. right. exists a. split; [by apply list_elem_of_In|by apply bool_decide_eq_true].
    + intros Hm. eexists. destruct Hm as [Hm|(a & Ha & ->%bool_decide_eq_true)].
      * eexists. split; [done|]. rewrite elem_of_app, !list_elem_of_fmap. split; [left; by exists m|done].
      * eexists. split; [done|]. rewrite elem_of_app, !list_elem_of_fmap. split; [right; exists a; split; [done|by apply list_elem_of_In]|done].
  - intros name path m. unfold served. rewrite !isValidModel_iff. cbn. rewrite lookup_insert_is_Some. destruct (decide (m = name)); naive_solver.
  - intros name m. unfold served. rewrite !isValidModel_iff. cbn. rewrite lookup_delete_is_Some. naive_solver.
Qed.

End ServerProps.
