(* ===== verification/TraceText.v ===== *)
(** Distribution of a trace's generated text over its tokens
    ([distributeTraceText] of [pkg/simulator/moe_trace_runtime.go]), with Go's
    conversions between strings and runes: a string is its bytes, [[]rune(s)]
    decodes UTF-8 with U+FFFD for every invalid byte, [string(runes)] encodes. *)

From Stdlib Require Import Ascii.
From S2P Require Import Prelude.
Open Scope Z_scope.

Module TraceText.

(** * Bytes of a string *)

Definition bytesOf (s : string) : list Z := (λ a, Z.of_N (N_of_ascii a)) <$> String.list_ascii_of_string s.
Definition stringOf (b : list Z) : string := String.string_of_list_ascii ((λ x, ascii_of_N (Z.to_N x)) <$> b).

(** * UTF-8 *)

Definition RuneError : Z := 65533.

(** A rune that is not a surrogate. *)
Definition validRune (r : Z) : bool := ((0 <=? r) && (r <? 55296)) || ((57343 <? r) && (r <=? 1114111)).

(** [utf8.AppendRune]. *)
Definition encodeRune (r : Z) : list Z :=
  let r := if validRune r then r else RuneError in
  if r <? 128 then [r]
  else if r <? 2048 then [192 + r / 64; 128 + r mod 64]
  else if r <? 65536 then [224 + r / 4096; 128 + r / 64 mod 64; 128 + r mod 64]
  else [240 + r / 262144; 128 + r / 4096 mod 64; 128 + r / 64 mod 64; 128 + r mod 64].

Definition within (lo hi x : Z) : bool := (lo <=? x) && (x <=? hi).

(** The accepted second bytes after the first byte of a longer sequence. *)
Definition second (b0 : Z) : Z * Z :=
  if b0 =? 224 then (160, 191) else if b0 =? 237 then (128, 159)
  else if b0 =? 240 then (144, 191) else if b0 =? 244 then (128, 143) else (128, 191).

(** [range] over a string: [utf8.DecodeRune] repeatedly. *)
Fixpoint decodeRunes (b : list Z) : list Z :=
  match b with
  | [] => []
  | b0 :: r0 =>
      if b0 <? 128 then b0 :: decodeRunes r0
      else if within 194 223 b0 then
        match r0 with
        | b1 :: r1 => if within 128 191 b1 then ((b0 - 192) * 64 + (b1 - 128)) :: decodeRunes r1 else RuneError :: decodeRunes r0
        | [] => RuneError :: decodeRunes r0
        end
      else if within 224 239 b0 then
        match r0 with
        | b1 :: (b2 :: r2) =>
            if within (second b0).1 (second b0).2 b1 && within 128 191 b2
            then ((b0 - 224) * 4096 + (b1 - 128) * 64 + (b2 - 128)) :: decodeRunes r2 else RuneError :: decodeRunes r0
        | _ => RuneError :: decodeRunes r0
        end
      else if within 240 244 b0 then
        match r0 with
        | b1 :: (b2 :: (b3 :: r3)) =>
            if within (second b0).1 (second b0).2 b1 && within 128 191 b2 && within 128 191 b3
            then ((b0 - 240) * 262144 + (b1 - 128) * 4096 + (b2 - 128) * 64 + (b3 - 128)) :: decodeRunes r3
            else RuneError :: decodeRunes r0
        | _ => RuneError :: decodeRunes r0
        end
      else RuneError :: decodeRunes r0
  end.

(** [[]rune(s)] and [string(runes)]. *)
Definition runesOf (s : string) : list Z := decodeRunes (bytesOf s).
Definition stringOfRunes (rs : list Z) : string := stringOf (concat (encodeRune <$> rs)).

(** A string that is valid UTF-8, as every JSON string is once decoded. *)
Definition ValidUTF8 (s : string) : Prop := ∃ rs, Forall (λ r, validRune r = true) rs ∧ s = stringOfRunes rs.

(** * The distribution *)

(** [runes[i*len/tokens : (i+1)*len/tokens]]. *)
Definition piece (runes : list Z) (tokens i : nat) : list Z :=
  let start := (i * length runes / tokens)%nat in
  let stop := ((i + 1) * length runes / tokens)%nat in
  take (stop - start) (drop start runes).

Definition distributeTraceText (text : string) (tokens : nat) : list string :=
  if (tokens =? 0)%nat then []
  else if bool_decide (text = ""%string) then replicate tokens ""%string
  else (λ i, stringOfRunes (piece (runesOf text) tokens i)) <$> seq 0 tokens.

(** * Properties *)

(** [lia] on quotients and remainders of constants. *)
Ltac divlia := Z.to_euclidean_division_equations; lia.


Lemma encodeRune_bytes r : Forall (λ b, 0 ≤ b < 256) (encodeRune r).
Proof.
  unfold encodeRune. assert (0 ≤ (if validRune r then r else RuneError) ≤ 1114111) as Hr.
  { unfold validRune, RuneError. destruct (_ || _) eqn:E; divlia. }
  revert Hr. generalize (if validRune r then r else RuneError). intros x Hx.
  destruct (Z.ltb_spec x 128); [rewrite !Forall_cons, Forall_nil; divlia|]. destruct (Z.ltb_spec x 2048); [rewrite !Forall_cons, Forall_nil; divlia|].
  destruct (Z.ltb_spec x 65536); rewrite !Forall_cons, Forall_nil; divlia.
Qed.

Lemma bytesOf_stringOf b : Forall (λ x, 0 ≤ x < 256) b → bytesOf (stringOf b) = b.
Proof.
  intros H. unfold bytesOf, stringOf. rewrite String.list_ascii_of_string_of_list_ascii, <- list_fmap_compose.
  rewrite <- (list_fmap_id b) at 2. apply Forall_fmap_ext_1. eapply Forall_impl; [exact H|]. intros x Hx. simpl in *.
  rewrite N_ascii_embedding by divlia. by rewrite Z2N.id by divlia.
Qed.

Lemma decode_encode r rest : validRune r = true → decodeRunes (encodeRune r ++ rest) = r :: decodeRunes rest.
Proof.
  intros Hv. unfold encodeRune. rewrite Hv. unfold validRune in Hv.
  destruct (Z.ltb_spec r 128).
  { cbn [app decodeRunes]. destruct (Z.ltb_spec r 128); [done|divlia]. }
  destruct (Z.ltb_spec r 2048).
  { cbn [app decodeRunes]. unfold within.
    destruct (Z.ltb_spec (192 + r / 64) 128); [divlia|].
    destruct ((194 <=? 192 + r / 64) && (192 + r / 64 <=? 223)) eqn:E1; [|divlia].
    destruct ((128 <=? 128 + r mod 64) && (128 + r mod 64 <=? 191)) eqn:E2; [f_equal; divlia|divlia]. }
  destruct (Z.ltb_spec r 65536).
  { cbn [app decodeRunes]. unfold within.
    destruct (Z.ltb_spec (224 + r / 4096) 128); [divlia|].
    destruct ((194 <=? 224 + r / 4096) && (224 + r / 4096 <=? 223)) eqn:E1; [divlia|].
    destruct ((224 <=? 224 + r / 4096) && (224 + r / 4096 <=? 239)) eqn:E2; [|divlia].
    destruct (_ && _ && _) eqn:E3; [f_equal; divlia|]. exfalso. revert E3. unfold second.
    destruct (Z.eqb_spec (224 + r / 4096) 224); [cbn [fst snd]; divlia|].
    destruct (Z.eqb_spec (224 + r / 4096) 237); [cbn [fst snd]; divlia|].
    destruct (Z.eqb_spec (224 + r / 4096) 240); [divlia|]. destruct (Z.eqb_spec (224 + r / 4096) 244); cbn [fst snd]; divlia. }
  cbn [app decodeRunes]. unfold within.
  destruct (Z.ltb_spec (240 + r / 262144) 128); [divlia|].
  destruct ((194 <=? 240 + r / 262144) && (240 + r / 262144 <=? 223)) eqn:E1; [divlia|].
  destruct ((224 <=? 240 + r / 262144) && (240 + r / 262144 <=? 239)) eqn:E2; [divlia|].
  destruct ((240 <=? 240 + r / 262144) && (240 + r / 262144 <=? 244)) eqn:E3; [|divlia].
  destruct (_ && _ && _ && _) eqn:E4; [f_equal; divlia|]. exfalso. revert E4. unfold second.
  destruct (Z.eqb_spec (240 + r / 262144) 224); [divlia|]. destruct (Z.eqb_spec (240 + r / 262144) 237); [divlia|].
  destruct (Z.eqb_spec (240 + r / 262144) 240); [cbn [fst snd]; divlia|].
  destruct (Z.eqb_spec (240 + r / 262144) 244); cbn [fst snd]; divlia.
Qed.

Lemma decode_concat rs : Forall (λ r, validRune r = true) rs → decodeRunes (concat (encodeRune <$> rs)) = rs.
Proof. induction 1 as [|r rs Hr Hrs IH]; [done|]. cbn [fmap list_fmap concat]. by rewrite decode_encode, IH. Qed.

Lemma runesOf_stringOfRunes rs : Forall (λ r, validRune r = true) rs → runesOf (stringOfRunes rs) = rs.
Proof.
  intros H. unfold runesOf, stringOfRunes. rewrite bytesOf_stringOf; [by apply decode_concat|].
  clear H. induction rs as [|r rs IH]; [constructor|]. cbn [fmap list_fmap concat]. apply Forall_app. split; [apply encodeRune_bytes|done].
Qed.

Lemma stringOf_app a b : stringOf (a ++ b) = stringOf a +:+ stringOf b.
Proof.
  unfold stringOf. rewrite fmap_app. induction (_ <$> a) as [|x l IH]; [done|]. cbn [app String.string_of_list_ascii].
  rewrite IH. done.
Qed.

Lemma stringOfRunes_app a b : stringOfRunes (a ++ b) = stringOfRunes a +:+ stringOfRunes b.
Proof. unfold stringOfRunes. by rewrite fmap_app, concat_app, stringOf_app. Qed.

(** The pieces up to the [i]-th are a prefix of the text. *)
Lemma pieces_prefix runes tokens i :
  (0 < tokens)%nat → (i ≤ tokens)%nat →
  join ((λ i, stringOfRunes (piece runes tokens i)) <$> seq 0 i) = stringOfRunes (take (i * length runes / tokens) runes).
Proof.
  intros Ht. induction i as [|i IH]; intros Hi; [by rewrite Nat.Div0.div_0_l|].
  rewrite seq_S, fmap_app, join_app, IH by lia. cbn [fmap list_fmap join foldr plus].
  rewrite append_empty, <- stringOfRunes_app. f_equal. unfold piece.
  assert (i * length runes / tokens ≤ S i * length runes / tokens)%nat by (apply Nat.Div0.div_le_mono; lia).
  replace (i + 1)%nat with (S i) by lia. rewrite take_take_drop. f_equal. lia.
Qed.

Lemma pieces_join runes tokens : (0 < tokens)%nat →
  join ((λ i, stringOfRunes (piece runes tokens i)) <$> seq 0 tokens) = stringOfRunes runes.
Proof.
  intros Ht. rewrite pieces_prefix by lia. f_equal. apply take_ge. rewrite Nat.mul_comm, Nat.div_mul by lia. done.
Qed.

Lemma distribute_length text tokens : length (distributeTraceText text tokens) = tokens.
Proof.
  unfold distributeTraceText. destruct (Nat.eqb_spec tokens 0) as [->|]; [done|].
  case_bool_decide; [apply length_replicate|]. by rewrite length_fmap, length_seq.
Qed.

(** [distributeTraceText] preserves the complete generated text: it returns one
    string per token, and their concatenation is the text, for every valid UTF-8
    text and every positive number of tokens; a multi-byte character is never cut. *)
Lemma trace_text_preserved text tokens :
  ValidUTF8 text → (0 < tokens)%nat →
  length (distributeTraceText text tokens) = tokens ∧ join (distributeTraceText text tokens) = text ∧
  ∀ s, s ∈ distributeTraceText text tokens → ValidUTF8 s.
Proof.
  intros (rs & Hrs & ->) Ht. split; [apply distribute_length|]. unfold distributeTraceText.
  destruct (Nat.eqb_spec tokens 0); [lia|]. case_bool_decide as Htext.
  - rewrite Htext. split.
    + clear. induction tokens; [done|]. done.
    + intros s [-> _]%elem_of_replicate. by exists [].
  - rewrite runesOf_stringOfRunes by done. split; [by apply pieces_join|].
    intros s (i & -> & _)%list_elem_of_fmap. eexists. split; [|done]. unfold piece. by apply Forall_take, Forall_drop.
Qed.

(** Three tokens for "aé€", of one, two and three bytes. *)
Lemma trace_text_preserved_witness :
  let text := stringOfRunes [97; 233; 8364] in
  distributeTraceText text 2 = [stringOfRunes [97]; stringOfRunes [233; 8364]] ∧ join (distributeTraceText text 2) = text.
Proof.
  cbv zeta. split; [vm_compute; reflexivity|].
  apply (trace_text_preserved (stringOfRunes [97; 233; 8364]) 2); [|lia].
  exists [97; 233; 8364]. split; [|reflexivity]. apply (bool_decide_unpack (Forall _ [97; 233; 8364])). vm_compute. exact I.
Defined.

End TraceText.
