(* ===== verification/TraceWorkload.v ===== *)
(** The expert workload of a trace: the prompt store of
    [pkg/simulator/moe_trace_runtime.go], the binding of a chat request to a
    recorded prompt, and the loops that turn recorded routes into per-layer
    expert counts and token assignments ([moe_trace_runtime.go],
    [moe_trace_fidelity.go], [moe_trace_virtual.go]).  An index out of range is
    [None]. *)

From S2P Require Import Prelude GoFloat TraceFormat TraceFile Moe TraceText Requests.
Import TraceFormat TraceFile Moe TraceText.
Open Scope nat_scope.

Module TraceWorkload.

(** * Data *)

(** [counts !! layer !! expert]. *)
Abbreviation moeLayerCounts := (list (list f64)).

Record moeTracePrompt := mkTracePrompt {
  tp_data : PromptData; prefillCounts : moeLayerCounts; responseStrings : list string }.

Record moeTraceStore := mkStore {
  st_model : string; st_numExperts : Z; st_topK : Z; st_numLayers : nat; st_prompts : list moeTracePrompt }.

Definition newMoELayerCounts (layers experts : nat) : moeLayerCounts := replicate layers (replicate experts f_zero).

Inductive storeError :=
| ErrOpen (e : traceError) | ErrModel | ErrExperts | ErrTopK | ErrLayers
| ErrReadPrompt (promptID : nat) (e : traceError) | ErrPromptGPU (promptID : nat) (gpu : Z).

Definition prefillCountsAsFloat64 (p : PromptData) (layers experts : nat) : option moeLayerCounts :=
  mapM (λ layer, mapM (λ expert, f_of_Z <$> pd_PrefillCounts p !! (layer * experts + expert)) (seq 0 experts)) (seq 0 layers).

(** A source GPU that is recorded and outside the configured EP size. *)
Definition badSource (ep : Z) (gpu : Z) : bool := negb (gpu =? 255)%Z && (ep <=? gpu)%Z.

Section Store.
Variable unmarshal : bytes → option Metadata.

Definition loadPrompt (c : Configuration) (layers experts : nat) (r : Reader) (i : nat)
  : option (result storeError moeTracePrompt) :=
  match ReadPrompt (Z.of_nat i) r with
  | Err e => Some (Err (ErrReadPrompt i e))
  | Ok p =>
      match find (badSource (MoEExpertParallelSize c)) (pd_PrefillSourceGPUs p ++ pd_DecodeSourceGPUs p) with
      | Some gpu => Some (Err (ErrPromptGPU i gpu))
      | None =>
          counts ← prefillCountsAsFloat64 p layers experts;
          Some (Ok (mkTracePrompt p counts (distributeTraceText (GeneratedText (pd_Metadata p)) (length (pd_DecodeTokenIDs p)))))
      end
  end.

(** The loop over the prompts stops at the first error. *)
Fixpoint loadPrompts (c : Configuration) (layers experts : nat) (r : Reader) (ids : list nat)
  : option (result storeError (list moeTracePrompt)) :=
  match ids with
  | [] => Some (Ok [])
  | i :: ids =>
      p ← loadPrompt c layers experts r i;
      match p with
      | Err e => Some (Err e)
      | Ok p => ps ← loadPrompts c layers experts r ids;
                Some (match ps with Err e => Err e | Ok ps => Ok (p :: ps) end)
      end
  end.

Definition loadMoETraceStore (file : bytes) (model : string) (c : Configuration) : option (result storeError moeTraceStore) :=
  match Open unmarshal file with
  | Err e => Some (Err (ErrOpen e))
  | Ok r =>
      let md := rd_metadata r in
      let layers := length (m_SparseLayers md) in
      if negb (bool_decide (m_Model md = model)) then Some (Err ErrModel)
      else if negb (m_NumExperts md =? MoENumExperts c)%Z then Some (Err ErrExperts)
      else if negb (m_TopK md =? MoETopK c)%Z then Some (Err ErrTopK)
      else if negb (Z.of_nat layers =? MoENumLayers c)%Z then Some (Err ErrLayers)
      else
        ps ← loadPrompts c layers (Z.to_nat (m_NumExperts md)) r (seq 0 (Z.to_nat (m_NumPrompts md)));
        Some (match ps with
              | Err e => Err e
              | Ok ps => Ok (mkStore (m_Model md) (m_NumExperts md) (m_TopK md) layers ps)
              end)
  end.
End Store.

(** * Binding a chat request to a recorded prompt *)

Record traceExecution := mkExecution {
  ex_prompt : moeTracePrompt; ex_promptID : Z; ex_outputTokens : nat; ex_tokens : list Z; ex_strings : list string;
  ex_finishReason : string }.

(** The fields of a chat completions request the trace path uses. *)
Record ChatCompletionsRequest := mkChat {
  cc_base : Requests.Req; cc_TracePromptID : option Z; cc_SendImage : bool; cc_tools : nat; cc_Logprobs : bool;
  cc_nonText : bool; cc_message : option string; cc_trace : option traceExecution }.

Inductive traceRequestError :=
| ErrNoRuntime | ErrTraceEcho | ErrTraceLora | ErrTraceImage | ErrTracePromptID (id : Z) (prompts : nat) | ErrTraceMaxPositive
| ErrTraceMaxTokens (m : Z) (recorded : nat) (id : Z) | ErrTraceContext (id : Z) (input output : nat) (maxModelLen : Z)
| ErrTraceN | ErrTraceTools | ErrTraceRemote | ErrTraceIgnoreEOS | ErrTraceLogprobs | ErrTraceContent
| ErrRequest (e : Requests.reqError).

(** [ChatCompletionsRequest.validate], its tools already validated one by one. *)
Definition validateChat (req : ChatCompletionsRequest) : option traceRequestError :=
  let plain := ErrRequest <$> Requests.validateRequest (cc_base req) in
  match cc_TracePromptID req with
  | None => plain
  | Some _ =>
      if negb (Requests.GetN (cc_base req) =? 1)%Z then Some ErrTraceN
      else if negb (cc_tools req =? 0) then Some ErrTraceTools
      else if Requests.DoRemotePrefill (cc_base req) || Requests.DoRemoteDecode (cc_base req) then Some ErrTraceRemote
      else if Requests.IgnoreEOS (cc_base req) then Some ErrTraceIgnoreEOS
      else if cc_Logprobs req then Some ErrTraceLogprobs
      else if cc_nonText req then Some ErrTraceContent
      else plain
  end.

(** The tokens to replay, or the error of the requested maximum. *)
Definition replayLength (p : PromptData) (id : Z) (maxTokens : option Z) : result traceRequestError nat :=
  let recorded := length (pd_DecodeTokenIDs p) in
  match maxTokens with
  | None => Ok recorded
  | Some m =>
      if (m <? 1)%Z then Err ErrTraceMaxPositive
      else if (Z.of_nat recorded <? m)%Z then Err (ErrTraceMaxTokens m recorded id)
      else Ok (Z.to_nat m)
  end.

(** [runtime] is [None] when the simulator runs without [--moe-trace-path]. *)
Definition bindTraceChatRequest (runtime : option moeTraceStore) (echo isLora : bool) (maxModelLen : Z)
    (req : ChatCompletionsRequest) : result traceRequestError ChatCompletionsRequest :=
  match cc_TracePromptID req with
  | None => Ok req
  | Some id =>
      match runtime with
      | None => Err ErrNoRuntime
      | Some store =>
          if echo then Err ErrTraceEcho
          else if isLora then Err ErrTraceLora
          else if cc_SendImage req then Err ErrTraceImage
          else
            match (if (0 <=? id)%Z then st_prompts store !! Z.to_nat id else None) with
            | None => Err (ErrTracePromptID id (length (st_prompts store)))
            | Some prompt =>
                let data := tp_data prompt in
                let! replay := replayLength data id (Requests.MaxTokens (cc_base req)) in
                if (maxModelLen <? Z.of_nat (length (pd_InputTokenIDs data) + replay))%Z
                then Err (ErrTraceContext id (length (pd_InputTokenIDs data)) replay maxModelLen)
                else
                  let reason := match Requests.MaxTokens (cc_base req) with
                                | Some _ => Requests.LengthFinishReason | None => Requests.StopFinishReason end in
                  Ok (mkChat (Requests.SetTokenizedPrompt (Some (pd_InputTokenIDs data)) (cc_base req)) (cc_TracePromptID req)
                        (cc_SendImage req) (cc_tools req) (cc_Logprobs req) (cc_nonText req)
                        (Some (Prompt (pd_Metadata data)))
                        (Some (mkExecution prompt id replay (take replay (pd_DecodeTokenIDs data))
                                 (take replay (responseStrings prompt)) reason)))
            end
      end
  end.

(** [traceAwareDataset.GetResponseTokens]: tokens, their strings, the finish reason. *)
Definition GetResponseTokens (base : ChatCompletionsRequest → result string (list Z * list string * string))
    (req : ChatCompletionsRequest) : result string (list Z * list string * string) :=
  match cc_trace req with
  | Some ex => Ok (ex_tokens ex, ex_strings ex, ex_finishReason ex)
  | None => base req
  end.

(** * Counting recorded routes *)

(** [counts[layer][expert]++]. *)
Definition countExpert (counts : moeLayerCounts) (layer : nat) (expert : Z) : option moeLayerCounts :=
  row ← counts !! layer; x ← row !! Z.to_nat expert;
  Some (<[layer := <[Z.to_nat expert := fadd x (f_of_Z 1)]> row]> counts).

(** The [topK] routes from [base] on. *)
Definition countRoutes (routes : list Z) (base k layer : nat) (counts : moeLayerCounts) : option moeLayerCounts :=
  foldM (λ counts index, expert ← routes !! (base + index); countExpert counts layer expert) counts (seq 0 k).

(** [for position := start; position < end; position++]. *)
Definition positions (start stop : Z) : list nat := seq (Z.to_nat start) (Z.to_nat (stop - start)).

(** The clamping of a range to the prompt. *)
Definition clampStart (start : Z) : Z := if (start <? 0)%Z then 0%Z else start.
Definition clampEnd (p : PromptData) (stop : Z) : Z :=
  if (Z.of_nat (length (pd_InputTokenIDs p)) <? stop)%Z then Z.of_nat (length (pd_InputTokenIDs p)) else stop.

Definition addTracePrefillRange (m : moeParams) (p : PromptData) (start stop : Z) (counts : moeLayerCounts) : option moeLayerCounts :=
  let inputTokens := length (pd_InputTokenIDs p) in
  foldM (λ counts layer,
    foldM (λ counts position, countRoutes (pd_PrefillRoutes p) ((layer * inputTokens + position) * Z.to_nat (topK m)) (Z.to_nat (topK m)) layer counts)
      counts (positions (clampStart start) (clampEnd p stop))) counts (seq 0 (numLayers m)).

Definition addTraceDecodePosition (m : moeParams) (p : PromptData) (position : nat) (counts : moeLayerCounts) : option moeLayerCounts :=
  foldM (λ counts layer, countRoutes (pd_DecodeRoutes p) ((position * numLayers m + layer) * Z.to_nat (topK m)) (Z.to_nat (topK m)) layer counts)
    counts (seq 0 (numLayers m)).

(** The counts of the prompt tokens that are not cached; [Some None] is a nil result. *)
Definition tracePrefillCounts (m : moeParams) (execution : option traceExecution) (cachedPromptTokens : Z)
  : option (option moeLayerCounts) :=
  match execution with
  | None => Some None
  | Some ex =>
      let prompt := ex_prompt ex in
      let inputTokens := length (pd_InputTokenIDs (tp_data prompt)) in
      if (cachedPromptTokens <=? 0)%Z then Some (Some (prefillCounts prompt))
      else if (Z.of_nat inputTokens <=? cachedPromptTokens)%Z then Some None
      else
        counts ← foldM (λ counts layer,
          foldM (λ counts position,
            countRoutes (pd_PrefillRoutes (tp_data prompt)) ((layer * inputTokens + position) * Z.to_nat (topK m)) (Z.to_nat (topK m)) layer counts)
            counts (positions cachedPromptTokens (Z.of_nat inputTokens)))
          (newMoELayerCounts (numLayers m) (numExperts m)) (seq 0 (numLayers m));
        Some (Some counts)
  end.

(** * Token assignments with their source GPU *)

Definition traceProfilePhasePrefill : string := "prefill".
Definition traceProfilePhaseDecode : string := "decode".

Record traceProfileTokenAssignment := mkAssignment {
  ta_RequestID : Z; ta_Phase : string; ta_TokenPosition : nat; ta_MoELayer : nat; ta_ExpertID : Z; ta_SourceGPU : Z }.

(** [assignments !! layer]. *)
Abbreviation assignmentTable := (list (list traceProfileTokenAssignment)).

(** [position % numGPUs], a division by zero is a panic. *)
Definition defaultSource (position gpus : nat) : option Z := if gpus =? 0 then None else Some (Z.of_nat (position mod gpus)).

(** The recorded source GPU, where there is one. *)
Definition recordedSource {A} (recorded : result A (option Z)) (d : Z) : Z :=
  match recorded with Ok (Some gpu) => gpu | _ => d end.

(** The assignments of the [k] routes from [base] on. *)
Definition appendAssignments (routes : list Z) (base k : nat) (mk : Z → traceProfileTokenAssignment) (layer : nat)
    (table : assignmentTable) : option assignmentTable :=
  foldM (λ table index, expert ← routes !! (base + index); row ← table !! layer;
                        Some (<[layer := row ++ [mk expert]]> table)) table (seq 0 k).

(** [addVirtualPrefillProfileAssignments]. *)
Definition addVirtualPrefillProfileAssignments (m : moeParams) (p : PromptData) (start stop requestID : Z) (table : assignmentTable)
  : option assignmentTable :=
  let inputTokens := length (pd_InputTokenIDs p) in
  foldM (λ table layer,
    foldM (λ table position,
      d ← defaultSource position (numGPUs m);
      let gpu := recordedSource (PrefillSourceGPU (Z.of_nat layer) (Z.of_nat position) p) d in
      appendAssignments (pd_PrefillRoutes p) ((layer * inputTokens + position) * Z.to_nat (topK m)) (Z.to_nat (topK m))
        (λ expert, mkAssignment requestID traceProfilePhasePrefill position layer expert gpu) layer table)
      table (positions (clampStart start) (clampEnd p stop))) table (seq 0 (numLayers m)).

(** [addVirtualDecodeProfileAssignments]. *)
Definition addVirtualDecodeProfileAssignments (m : moeParams) (p : PromptData) (position : nat) (requestID : Z) (table : assignmentTable)
  : option assignmentTable :=
  let tokenPosition := length (pd_InputTokenIDs p) + position in
  foldM (λ table layer,
    d ← defaultSource tokenPosition (numGPUs m);
    let gpu := recordedSource (DecodeSourceGPU (Z.of_nat position) (Z.of_nat layer) p) d in
    appendAssignments (pd_DecodeRoutes p) ((position * numLayers m + layer) * Z.to_nat (topK m)) (Z.to_nat (topK m))
      (λ expert, mkAssignment requestID traceProfilePhaseDecode tokenPosition layer expert gpu) layer table) table (seq 0 (numLayers m)).

(** [addTracePrefillProfileAssignments]: nothing for an empty table; the source is
    looked up once per route, with the same result each time. *)
Definition addTracePrefillProfileAssignments (m : moeParams) (ex : traceExecution) (start stop : Z) (table : assignmentTable)
  : option assignmentTable :=
  if length table =? 0 then Some table
  else
    let p := tp_data (ex_prompt ex) in
    let inputTokens := length (pd_InputTokenIDs p) in
    foldM (λ table layer,
      foldM (λ table position,
        foldM (λ table index,
          expert ← pd_PrefillRoutes p !! ((layer * inputTokens + position) * Z.to_nat (topK m) + index);
          d ← defaultSource position (numGPUs m);
          let gpu := recordedSource (PrefillSourceGPU (Z.of_nat layer) (Z.of_nat position) p) d in
          row ← table !! layer;
          Some (<[layer := row ++ [mkAssignment (ex_promptID ex) traceProfilePhasePrefill position layer expert gpu]]> table))
          table (seq 0 (Z.to_nat (topK m))))
        table (positions (clampStart start) (clampEnd p stop))) table (seq 0 (min (numLayers m) (length table))).

End TraceWorkload.
