(* ===== verification/TraceWorkloadProps.v ===== *)
(** Theorems on the trace workload: the store holds every prompt of the file, a
    bound request replays exactly its prompt, and the counting loops count the
    recorded routes exactly. *)

From S2P Require Import Prelude Sums GoFloat GoFloatInt TraceFormat TraceFile TraceProps TraceReader Moe TraceText Requests TraceWorkload.
Import TraceFormat TraceFile TraceReader Moe TraceText TraceWorkload.
Open Scope nat_scope.

Module TraceWorkloadProps.

(** * Nested loops as one loop over events *)

Lemma foldM_nested {A B C} (g : C → B → option C) (h : A → list B) (l : list A) c :
  foldM (λ c x, foldM g c (h x)) c l = foldM g c (concat (h <$> l)).
Proof.
  revert c. induction l as [|x l IH]; intros c; [done|]. cbn [foldM fmap list_fmap concat]. rewrite foldM_app.
  destruct (foldM g c (h x)); [apply IH|done].
Qed.

Lemma foldM_ext {A B} (f g : B → A → option B) b l : (∀ b x, x ∈ l → f b x = g b x) → foldM f b l = foldM g b l.
Proof.
  revert b. induction l as [|x l IH]; intros b H; [done|]. cbn [foldM]. rewrite H by left.
  destruct (g b x); [|done]. apply IH. intros. apply H. by right.
Qed.

(** A use of [expert] in [layer]. *)
Abbreviation event := (nat * Z)%type.

Definition countEvent (counts : moeLayerCounts) (x : event) : option moeLayerCounts := countExpert counts x.1 x.2.

(** The routes from [base] on, as events of [layer]. *)
Definition routeEvents (routes : list Z) (base k layer : nat) : list event := (pair layer) <$> take k (drop base routes).

Lemma countRoutes_events routes base k layer counts :
  base + k ≤ length routes → countRoutes routes base k layer counts = foldM countEvent counts (routeEvents routes base k layer).
Proof.
  unfold countRoutes, routeEvents. revert base counts. induction k as [|k IH]; intros base counts Hl; [done|].
  destruct (lookup_lt_is_Some_2 routes base) as [e He]; [lia|]. rewrite (drop_S _ _ _ He).
  cbn [seq foldM take fmap list_fmap]. rewrite Nat.add_0_r, He. cbn [mbind option_bind]. unfold countEvent at 1. cbn [fst snd].
  destruct (countExpert counts layer e) as [c|]; [|done].
  rewrite <- (IH (S base)) by lia. rewrite <- (fmap_S_seq 0 k). clear.
  generalize (seq 0 k). intros l. revert c. induction l as [|i l IHl]; intros c; [done|]. cbn [fmap list_fmap foldM].
  rewrite Nat.add_succ_r. change (S base + i) with (S (base + i)). destruct (routes !! S (base + i)); [|done]. cbn [mbind option_bind].
  destruct (countExpert _ _ _); [apply IHl|done].
Qed.

(** * Prompts of the configured shape *)

(** The arrays of a prompt have the lengths of the simulator's dimensions. *)
Record PromptShape (m : moeParams) (p : PromptData) : Prop := mkShape {
  ps_prefill : length (pd_PrefillRoutes p) = numLayers m * length (pd_InputTokenIDs p) * Z.to_nat (topK m);
  ps_decode : length (pd_DecodeRoutes p) = length (pd_DecodeTokenIDs p) * numLayers m * Z.to_nat (topK m) }.

(** Its expert ids are those of the model. *)
Definition RoutesValid (m : moeParams) (p : PromptData) : Prop :=
  Forall (λ e, 0 ≤ e < Z.of_nat (numExperts m))%Z (pd_PrefillRoutes p) ∧
  Forall (λ e, 0 ≤ e < Z.of_nat (numExperts m))%Z (pd_DecodeRoutes p).

(** The events of one prompt token in every layer, and of one decode token. *)
Definition prefillLayerEvents (m : moeParams) (p : PromptData) (ps : list nat) (layer : nat) : list event :=
  concat ((λ position, routeEvents (pd_PrefillRoutes p) ((layer * length (pd_InputTokenIDs p) + position) * Z.to_nat (topK m))
             (Z.to_nat (topK m)) layer) <$> ps).
Definition prefillEvents (m : moeParams) (p : PromptData) (ps : list nat) : list event :=
  concat (prefillLayerEvents m p ps <$> seq 0 (numLayers m)).
Definition decodeEvents (m : moeParams) (p : PromptData) (position : nat) : list event :=
  concat ((λ layer, routeEvents (pd_DecodeRoutes p) ((position * numLayers m + layer) * Z.to_nat (topK m)) (Z.to_nat (topK m)) layer)
    <$> seq 0 (numLayers m)).

Lemma prefill_range_in m p layer position : PromptShape m p → layer < numLayers m → position < length (pd_InputTokenIDs p) →
  (layer * length (pd_InputTokenIDs p) + position) * Z.to_nat (topK m) + Z.to_nat (topK m) ≤ length (pd_PrefillRoutes p).
Proof. intros [-> _] Hl Hp. assert (layer * length (pd_InputTokenIDs p) + position + 1 ≤ numLayers m * length (pd_InputTokenIDs p)) by nia. nia. Qed.

Lemma decode_range_in m p layer position : PromptShape m p → layer < numLayers m → position < length (pd_DecodeTokenIDs p) →
  (position * numLayers m + layer) * Z.to_nat (topK m) + Z.to_nat (topK m) ≤ length (pd_DecodeRoutes p).
Proof. intros [_ ->] Hl Hp. assert (position * numLayers m + layer + 1 ≤ length (pd_DecodeTokenIDs p) * numLayers m) by nia. nia. Qed.

(** The prefill loops of [addTracePrefillRange] and [tracePrefillCounts]. *)
Lemma prefill_loops_events m p ps counts :
  PromptShape m p → (∀ position, position ∈ ps → position < length (pd_InputTokenIDs p)) →
  foldM (λ counts layer,
    foldM (λ counts position, countRoutes (pd_PrefillRoutes p) ((layer * length (pd_InputTokenIDs p) + position) * Z.to_nat (topK m))
             (Z.to_nat (topK m)) layer counts) counts ps) counts (seq 0 (numLayers m)) =
  foldM countEvent counts (prefillEvents m p ps).
Proof.
  intros Hs Hps. unfold prefillEvents. rewrite <- foldM_nested. apply foldM_ext. intros c layer Hl%elem_of_seq.
  unfold prefillLayerEvents. rewrite <- foldM_nested. apply foldM_ext. intros c' position Hp. apply countRoutes_events.
  apply prefill_range_in; [done|lia|by apply Hps].
Qed.

Lemma positions_elem a b i : i ∈ positions a b ↔ (Z.to_nat a ≤ i < Z.to_nat a + Z.to_nat (b - a)).
Proof. apply elem_of_seq. Qed.

Lemma addTracePrefillRange_events m p a b counts :
  PromptShape m p → (0 ≤ a)%Z → (b ≤ Z.of_nat (length (pd_InputTokenIDs p)))%Z →
  addTracePrefillRange m p a b counts = foldM countEvent counts (prefillEvents m p (positions a b)).
Proof.
  intros Hs Ha Hb. unfold addTracePrefillRange, clampStart, clampEnd.
  destruct (Z.ltb_spec a 0); [lia|]. destruct (Z.ltb_spec (Z.of_nat (length (pd_InputTokenIDs p))) b); [lia|].
  apply prefill_loops_events; [done|]. intros i Hi%positions_elem. lia.
Qed.

Lemma addTraceDecodePosition_events m p position counts :
  PromptShape m p → position < length (pd_DecodeTokenIDs p) →
  addTraceDecodePosition m p position counts = foldM countEvent counts (decodeEvents m p position).
Proof.
  intros Hs Hp. unfold addTraceDecodePosition, decodeEvents. rewrite <- foldM_nested. apply foldM_ext.
  intros c layer Hl%elem_of_seq. apply countRoutes_events. apply decode_range_in; [done|lia|done].
Qed.

(** * Exact counts *)

(** The table of integer counts [f]. *)
Definition tableOf (layers experts : nat) (f : nat → nat → Z) : moeLayerCounts :=
  (λ layer, (λ expert, f_of_Z (f layer expert)) <$> seq 0 experts) <$> seq 0 layers.

(** How often [expert] is used in [layer]. *)
Definition uses (evs : list event) (layer expert : nat) : Z :=
  Z.of_nat (length (filter (λ x, x = (layer, Z.of_nat expert)) evs)).

Lemma events_cons x evs layer expert :
  uses (x :: evs) layer expert = ((if decide (x = (layer, Z.of_nat expert)) then 1 else 0) + uses evs layer expert)%Z.
Proof. unfold uses. rewrite filter_cons. case_decide; [cbn [length]|]; lia. Qed.

Lemma uses_app evs1 evs2 layer expert : uses (evs1 ++ evs2) layer expert = (uses evs1 layer expert + uses evs2 layer expert)%Z.
Proof. unfold uses. rewrite filter_app, length_app. lia. Qed.

Lemma events_perm evs1 evs2 layer expert : evs1 ≡ₚ evs2 → uses evs1 layer expert = uses evs2 layer expert.
Proof. intros H. unfold uses. by rewrite H. Qed.

Lemma tableOf_ext layers experts f g :
  (∀ l e, l < layers → e < experts → f l e = g l e) → tableOf layers experts f = tableOf layers experts g.
Proof.
  intros H. unfold tableOf. apply list_fmap_ext. intros i l Hl%lookup_seq. apply list_fmap_ext. intros j e He%lookup_seq.
  f_equal. apply H; lia.
Qed.

Lemma newMoELayerCounts_tableOf layers experts : newMoELayerCounts layers experts = tableOf layers experts (λ _ _, 0%Z).
Proof.
  unfold newMoELayerCounts, tableOf.
  assert (∀ A (x : A) n k, replicate n x = (λ _, x) <$> seq k n) as H.
  { intros A x n. induction n as [|n IH]; intros k; [done|]. cbn. f_equal. apply IH. }
  by rewrite (H _ f_zero _ 0), (H _ ((λ _ : nat, f_zero) <$> seq 0 experts) _ 0).
Qed.

Lemma insert_fmap_seq {A} (f : nat → A) n i x :
  <[i := x]> (f <$> seq 0 n) = (λ j, if decide (j = i) then x else f j) <$> seq 0 n.
Proof.
  apply list_eq. intros j. destruct (decide (j = i)) as [->|Hne].
  - destruct (decide (i < n)).
    + rewrite list_lookup_insert_eq by (rewrite length_fmap, length_seq; lia). rewrite list_lookup_fmap, lookup_seq_lt by lia.
      cbn. by rewrite decide_True.
    + rewrite list_insert_ge by (rewrite length_fmap, length_seq; lia). rewrite !list_lookup_fmap.
      rewrite (lookup_ge_None_2 (seq 0 n)); [done|]. rewrite length_seq. lia.
  - rewrite list_lookup_insert_ne by done. rewrite !list_lookup_fmap. destruct (seq 0 n !! j) as [k|] eqn:E; [|done].
    apply lookup_seq in E as [-> _]. cbn. by rewrite decide_False.
Qed.

Lemma countExpert_tableOf layers experts f layer expert :
  layer < layers → (0 ≤ expert < Z.of_nat experts)%Z → (0 ≤ f layer (Z.to_nat expert))%Z → (f layer (Z.to_nat expert) + 1 < 2 ^ 53)%Z →
  countExpert (tableOf layers experts f) layer expert =
  Some (tableOf layers experts (λ l e, ((if decide ((layer, expert) = (l, Z.of_nat e)) then 1 else 0) + f l e)%Z)).
Proof.
  intros Hl He H0 Hb. unfold countExpert, tableOf. rewrite list_lookup_fmap, lookup_seq_lt by done. cbn [fmap option_fmap option_map mbind option_bind].
  rewrite list_lookup_fmap, lookup_seq_lt by lia. cbn [fmap option_fmap option_map mbind option_bind]. f_equal.
  rewrite insert_fmap_seq. apply list_fmap_ext. intros i l Hi%lookup_seq. rewrite !Nat.add_0_l in *.
  destruct (decide (l = layer)) as [->|Hne].
  - rewrite insert_fmap_seq. apply list_fmap_ext. intros j e Hj%lookup_seq. destruct (decide (e = Z.to_nat expert)) as [->|Hne'].
    + rewrite decide_True by (rewrite Z2Nat.id by lia; done). rewrite fadd_int by lia. f_equal. lia.
    + rewrite decide_False; [done|]. intros [= ->]. lia.
  - apply list_fmap_ext. intros j e Hj. rewrite decide_False; [done|]. congruence.
Qed.

(** The events of a list with valid layers and experts. *)
Definition EventsOk (layers experts : nat) (evs : list event) : Prop :=
  Forall (λ x : event, x.1 < layers ∧ (0 ≤ x.2 < Z.of_nat experts)%Z) evs.

Lemma count_events layers experts evs f :
  EventsOk layers experts evs →
  (∀ l e, 0 ≤ f l e ∧ f l e + Z.of_nat (length evs) < 2 ^ 53)%Z →
  foldM countEvent (tableOf layers experts f) evs = Some (tableOf layers experts (λ l e, f l e + uses evs l e)%Z).
Proof.
  intros Hok. revert f. induction Hok as [|[l0 e0] evs [Hl He] Hok IH]; intros f Hf.
  - cbn [foldM]. f_equal. apply tableOf_ext. intros. unfold uses. cbn. lia.
  - cbn [foldM]. unfold countEvent at 1. cbn [fst snd] in *. rewrite countExpert_tableOf; [|done|done|apply Hf|].
    + rewrite IH.
      * f_equal. apply tableOf_ext. intros. rewrite events_cons. lia.
      * intros l e. specialize (Hf l e). cbn [length] in Hf. destruct (decide _); lia.
    + specialize (Hf l0 (Z.to_nat e0)). cbn [length] in Hf. lia.
Qed.

Lemma routeEvents_ok layers experts routes base k layer :
  layer < layers → Forall (λ e, 0 ≤ e < Z.of_nat experts)%Z routes → EventsOk layers experts (routeEvents routes base k layer).
Proof.
  intros Hl H. unfold EventsOk, routeEvents. apply Forall_fmap. eapply Forall_impl; [by apply Forall_take, Forall_drop|]. by intros e He.
Qed.

Lemma EventsOk_concat layers experts (ls : list (list event)) :
  (∀ l, l ∈ ls → EventsOk layers experts l) → EventsOk layers experts (concat ls).
Proof. intros H. apply Forall_concat, Forall_forall. done. Qed.

Lemma prefillEvents_ok m p ps : RoutesValid m p → EventsOk (numLayers m) (numExperts m) (prefillEvents m p ps).
Proof.
  intros [H _]. apply EventsOk_concat. intros l (layer & -> & Hl%elem_of_seq)%list_elem_of_fmap.
  apply EventsOk_concat. intros l (position & -> & _)%list_elem_of_fmap. apply routeEvents_ok; [lia|done].
Qed.

Lemma decodeEvents_ok m p position : RoutesValid m p → EventsOk (numLayers m) (numExperts m) (decodeEvents m p position).
Proof.
  intros [_ H]. apply EventsOk_concat. intros l (layer & -> & Hl%elem_of_seq)%list_elem_of_fmap. apply routeEvents_ok; [lia|done].
Qed.

Lemma concat_length_const {A} (ls : list (list A)) k : (∀ l, l ∈ ls → length l = k) → length (concat ls) = length ls * k.
Proof.
  induction ls as [|l ls IH]; intros H; [done|]. cbn [concat]. rewrite length_app, IH by (intros; apply H; by right).
  rewrite H by left. cbn [length]. lia.
Qed.

Lemma prefillEvents_length m p ps :
  PromptShape m p → (∀ position, position ∈ ps → position < length (pd_InputTokenIDs p)) →
  length (prefillEvents m p ps) = numLayers m * (length ps * Z.to_nat (topK m)).
Proof.
  intros Hs Hps. unfold prefillEvents. rewrite (concat_length_const _ (length ps * Z.to_nat (topK m))).
  - by rewrite length_fmap, length_seq.
  - intros l (layer & -> & Hl%elem_of_seq)%list_elem_of_fmap. unfold prefillLayerEvents.
    rewrite (concat_length_const _ (Z.to_nat (topK m))); [by rewrite length_fmap|].
    intros l (position & -> & Hp)%list_elem_of_fmap. unfold routeEvents. rewrite length_fmap, length_take, length_drop.
    pose proof (prefill_range_in m p layer position Hs ltac:(lia) (Hps _ Hp)). lia.
Qed.

Lemma decodeEvents_length m p position :
  PromptShape m p → position < length (pd_DecodeTokenIDs p) → length (decodeEvents m p position) = numLayers m * Z.to_nat (topK m).
Proof.
  intros Hs Hp. unfold decodeEvents. rewrite (concat_length_const _ (Z.to_nat (topK m))); [by rewrite length_fmap, length_seq|].
  intros l (layer & -> & Hl%elem_of_seq)%list_elem_of_fmap. unfold routeEvents. rewrite length_fmap, length_take, length_drop.
  pose proof (decode_range_in m p layer position Hs ltac:(lia) Hp). lia.
Qed.

(** Consecutive ranges of prompt tokens add up. *)
Lemma prefillEvents_app m p ps1 ps2 layer expert :
  uses (prefillEvents m p (ps1 ++ ps2)) layer expert = (uses (prefillEvents m p ps1) layer expert + uses (prefillEvents m p ps2) layer expert)%Z.
Proof.
  unfold prefillEvents. induction (seq 0 (numLayers m)) as [|l ls IH]; [done|]. cbn [fmap list_fmap concat].
  rewrite !uses_app, IH. unfold prefillLayerEvents at 1. rewrite fmap_app, concat_app, uses_app. unfold prefillLayerEvents. lia.
Qed.

Lemma prefill_range_exact m p a b f :
  PromptShape m p → RoutesValid m p → (0 ≤ a)%Z → (b ≤ Z.of_nat (length (pd_InputTokenIDs p)))%Z →
  (∀ l e, 0 ≤ f l e ∧ f l e + Z.of_nat (numLayers m * (Z.to_nat (b - a) * Z.to_nat (topK m))) < 2 ^ 53)%Z →
  addTracePrefillRange m p a b (tableOf (numLayers m) (numExperts m) f) =
  Some (tableOf (numLayers m) (numExperts m) (λ l e, f l e + uses (prefillEvents m p (positions a b)) l e)%Z).
Proof.
  intros Hs Hv Ha Hb Hf. rewrite addTracePrefillRange_events by done. apply count_events; [by apply prefillEvents_ok|].
  intros l e. rewrite prefillEvents_length; [unfold positions; rewrite length_seq; apply Hf|done|].
  intros i Hi%positions_elem. lia.
Qed.

(** * Chunked prefill *)

(** Consecutive chunks of the given sizes, from [start] on. *)
Fixpoint prefillChunks (m : moeParams) (p : PromptData) (start : Z) (sizes : list Z) (counts : moeLayerCounts) : option moeLayerCounts :=
  match sizes with
  | [] => Some counts
  | n :: sizes => counts ← addTracePrefillRange m p start (start + n) counts; prefillChunks m p (start + n) sizes counts
  end.

Lemma positions_split a b c : (0 ≤ a ≤ b)%Z → (b ≤ c)%Z → positions a c = positions a b ++ positions b c.
Proof.
  intros. unfold positions. replace (Z.to_nat (c - a)) with (Z.to_nat (b - a) + Z.to_nat (c - b)) by lia.
  rewrite seq_app. do 2 f_equal. lia.
Qed.

Lemma prefillChunks_exact m p sizes start f :
  PromptShape m p → RoutesValid m p → (0 ≤ start)%Z → (∀ n, n ∈ sizes → 0 ≤ n)%Z →
  (start + sumZ sizes ≤ Z.of_nat (length (pd_InputTokenIDs p)))%Z →
  (∀ l e, 0 ≤ f l e ∧ f l e + Z.of_nat (numLayers m * (Z.to_nat (sumZ sizes) * Z.to_nat (topK m))) < 2 ^ 53)%Z →
  prefillChunks m p start sizes (tableOf (numLayers m) (numExperts m) f) =
  Some (tableOf (numLayers m) (numExperts m) (λ l e, f l e + uses (prefillEvents m p (positions start (start + sumZ sizes))) l e)%Z).
Proof.
  intros Hs Hv. revert start f. induction sizes as [|n sizes IH]; intros start f Hst Hn Hsum Hf.
  - cbn [prefillChunks sumZ foldr]. f_equal. apply tableOf_ext. intros l e _ _. unfold positions. rewrite Z.add_0_r, Z.sub_diag. cbn [Z.to_nat seq].
    unfold prefillEvents, prefillLayerEvents. cbn [fmap list_fmap concat]. 
    assert (∀ (ls : list nat), concat ((λ _ : nat, @nil event) <$> ls) = []) as -> by (induction ls; done). unfold uses. cbn. lia.
  - pose proof (Hn n ltac:(left)) as Hn0. assert (∀ x, x ∈ sizes → 0 ≤ x)%Z as Hrest by (intros; apply Hn; by right).
    pose proof (sumZ_nonneg _ Hrest) as Hnn. change (sumZ (n :: sizes)) with (n + sumZ sizes)%Z in *. cbn [prefillChunks].
    assert (Hlen : ∀ l e, (0 ≤ f l e ∧ f l e + Z.of_nat (numLayers m * (Z.to_nat n * Z.to_nat (topK m))) +
      Z.of_nat (numLayers m * (Z.to_nat (sumZ sizes) * Z.to_nat (topK m))) < 2 ^ 53)%Z).
    { intros l e. destruct (Hf l e) as [H1 H2]. split; [done|]. rewrite Z2Nat.inj_add in H2 by lia. nia. }
    rewrite prefill_range_exact; [|done|done|done|lia|].
    + cbn [mbind option_bind]. rewrite IH; [|lia|done|lia|].
      * f_equal. apply tableOf_ext. intros l e _ _. rewrite (positions_split start (start + n) (start + (n + sumZ sizes))) by lia. rewrite prefillEvents_app.
        replace (start + n + sumZ sizes)%Z with (start + (n + sumZ sizes))%Z by lia. lia.
      * intros l e. destruct (Hlen l e) as [H1 H2].
        assert (uses (prefillEvents m p (positions start (start + n))) l e ≤ Z.of_nat (numLayers m * (Z.to_nat n * Z.to_nat (topK m))))%Z.
        { unfold uses. etrans; [apply inj_le, length_filter|]. rewrite prefillEvents_length; [|done|intros i Hi%positions_elem; lia].
          unfold positions. rewrite length_seq. replace (start + n - start)%Z with n by lia. lia. }
        unfold uses in *. lia.
    + intros l e. destruct (Hlen l e) as [H1 H2]. replace (start + n - start)%Z with n by lia. split; [done|].
      eapply Z.le_lt_trans; [|exact H2]. apply Z.le_sub_le_add_l. rewrite Z.sub_diag. apply Nat2Z.is_nonneg.
Qed.

(** The recorded counts of a prompt are those of its routes, as the converter
    writes them. *)
Definition CountsRecorded (m : moeParams) (p : PromptData) : Prop :=
  length (pd_PrefillCounts p) = numLayers m * numExperts m ∧
  ∀ l e, l < numLayers m → e < numExperts m →
    pd_PrefillCounts p !! (l * numExperts m + e) = Some (uses (prefillEvents m p (seq 0 (length (pd_InputTokenIDs p)))) l e).

Lemma mapM_fmap_seq {A} (f : nat → option A) (g : nat → A) n k :
  (∀ i, k ≤ i < k + n → f i = Some (g i)) → mapM f (seq k n) = Some (g <$> seq k n).
Proof.
  revert k. induction n as [|n IH]; intros k H; [done|]. cbn [seq mapM fmap list_fmap]. rewrite H by lia.
  cbn [mbind option_bind]. rewrite IH by (intros; apply H; lia). done.
Qed.

Lemma prefillCountsAsFloat64_recorded m p : CountsRecorded m p →
  prefillCountsAsFloat64 p (numLayers m) (numExperts m) =
  Some (tableOf (numLayers m) (numExperts m) (uses (prefillEvents m p (seq 0 (length (pd_InputTokenIDs p)))))).
Proof.
  intros [_ H]. unfold prefillCountsAsFloat64, tableOf. apply mapM_fmap_seq. intros l Hl. apply mapM_fmap_seq. intros e He.
  rewrite H by lia. done.
Qed.

(** Counting the routes of the uncached prompt tokens gives one result however it
    is done: [tracePrefillCounts], with its shortcut to the recorded counts when
    nothing is cached, agrees with the batched prefill, which adds the same tokens
    chunk by chunk in any partition; and the result is the exact number of uses of
    every expert. *)
Theorem chunked_prefill_exact m ex cached sizes :
  let p := tp_data (ex_prompt ex) in
  PromptShape m p → RoutesValid m p → CountsRecorded m p →
  prefillCountsAsFloat64 p (numLayers m) (numExperts m) = Some (prefillCounts (ex_prompt ex)) →
  (Z.of_nat (numLayers m * (length (pd_InputTokenIDs p) * Z.to_nat (topK m))) < 2 ^ 53)%Z →
  (0 ≤ cached < Z.of_nat (length (pd_InputTokenIDs p)))%Z →
  (∀ n, n ∈ sizes → 0 ≤ n)%Z → (cached + sumZ sizes = Z.of_nat (length (pd_InputTokenIDs p)))%Z →
  let counts := tableOf (numLayers m) (numExperts m) (uses (prefillEvents m p (positions cached (Z.of_nat (length (pd_InputTokenIDs p)))))) in
  tracePrefillCounts m (Some ex) cached = Some (Some counts) ∧
  prefillChunks m p cached sizes (newMoELayerCounts (numLayers m) (numExperts m)) = Some counts.
Proof.
  cbv zeta. set (p := tp_data (ex_prompt ex)). intros Hs Hv Hr Hpc Hb Hc Hn Hsum. rewrite newMoELayerCounts_tableOf.
  assert (∀ x y : Z, (0 ≤ x ≤ y)%Z → (y ≤ Z.of_nat (length (pd_InputTokenIDs p)))%Z →
    (0 ≤ 0 ∧ 0 + Z.of_nat (numLayers m * (Z.to_nat (y - x) * Z.to_nat (topK m))) < 2 ^ 53)%Z) as Hbound.
  { intros x y Hxy Hy. split; [lia|]. assert (Z.to_nat (y - x) ≤ length (pd_InputTokenIDs p)) by lia. nia. }
  split.
  - unfold tracePrefillCounts. fold p. destruct (Z.leb_spec cached 0).
    + assert (cached = 0%Z) as -> by lia. rewrite prefillCountsAsFloat64_recorded in Hpc by done. injection Hpc as <-.
      unfold positions. rewrite Z.sub_0_r, Nat2Z.id. done.
    + destruct (Z.leb_spec (Z.of_nat (length (pd_InputTokenIDs p))) cached); [lia|].
      rewrite prefill_loops_events by (done || intros i Hi%positions_elem; lia). rewrite newMoELayerCounts_tableOf, count_events; [done|by apply prefillEvents_ok|].
      intros l e. rewrite prefillEvents_length by (done || intros i Hi%positions_elem; lia). unfold positions. rewrite length_seq.
      apply Hbound; lia.
  - pose proof (sumZ_nonneg _ Hn). rewrite prefillChunks_exact; [rewrite Hsum; done|done|done|lia|done|lia|]. intros _ _.
    specialize (Hbound cached (Z.of_nat (length (pd_InputTokenIDs p)))%Z ltac:(lia) ltac:(lia)).
    replace (sumZ sizes) with (Z.of_nat (length (pd_InputTokenIDs p)) - cached)%Z by lia. done.
Qed.

(** One layer, three experts, top-2: three prompt tokens and two output tokens. *)
Definition params_ex : moeParams :=
  mkParams 2 3 4 2 1 MoERouterSplit false (f_of_Z (10 ^ 12)) (f_of_Z (10 ^ 11)) (f_of_Z (10 ^ 10)) 5000
    (f_of_Z 12288) (f_of_Z 12288) (f_of_Z 320) (f_of_Z 128) [].
Definition prompt_ex : PromptData :=
  mkPromptData (mkPromptMetadata 0 "hi" 3 2 "ok") [7; 8; 9]%Z [4; 5]%Z [2; 2; 2]%Z [0; 1; 1; 2; 0; 2]%Z [1; 2; 0; 1]%Z [] [] 1 3 2 1.
Definition execution_ex : traceExecution :=
  mkExecution (mkTracePrompt prompt_ex [f_of_Z <$> [2; 2; 2]%Z] ["o"; "k"]%string) 0 2 [4; 5]%Z ["o"; "k"]%string "stop".

Lemma prompt_ex_ok : PromptShape params_ex prompt_ex ∧ RoutesValid params_ex prompt_ex ∧ CountsRecorded params_ex prompt_ex.
Proof.
  split; [by constructor|]. split.
  - split; apply (bool_decide_unpack (Forall _ _)); vm_compute; exact I.
  - split; [done|]. intros [|l] e Hl He; [|cbn in Hl; lia]. destruct e as [|[|[|e]]]; [vm_compute; reflexivity..|cbn in He; lia].
Qed.

Lemma chunked_prefill_exact_witness :
  tracePrefillCounts params_ex (Some execution_ex) 1 = Some (Some [f_of_Z <$> [1; 1; 2]%Z]) ∧
  prefillChunks params_ex prompt_ex 1 [1; 1]%Z (newMoELayerCounts 1 3) = Some [f_of_Z <$> [1; 1; 2]%Z].
Proof.
  pose proof prompt_ex_ok as (H1 & H2 & H3).
  exact (chunked_prefill_exact params_ex execution_ex 1 [1; 1]%Z H1 H2 H3 eq_refl eq_refl
    ltac:(vm_compute; split; [discriminate|reflexivity])
    ltac:(intros n; rewrite !elem_of_cons, elem_of_nil; lia) eq_refl).
Defined.

(** * Loading the store *)

(** What loading guarantees of a prompt: its shape, its text and its source GPUs. *)
Record TracePromptOk (c : Configuration) (tp : moeTracePrompt) : Prop := mkTracePromptOk {
  to_shape : ∀ m, numLayers m = Z.to_nat (MoENumLayers c) → topK m = MoETopK c → PromptShape m (tp_data tp);
  to_counts : prefillCountsAsFloat64 (tp_data tp) (Z.to_nat (MoENumLayers c)) (Z.to_nat (MoENumExperts c)) = Some (prefillCounts tp);
  to_strings : responseStrings tp = distributeTraceText (GeneratedText (pd_Metadata (tp_data tp))) (length (pd_DecodeTokenIDs (tp_data tp)));
  to_sources : ∀ gpu, gpu ∈ pd_PrefillSourceGPUs (tp_data tp) ++ pd_DecodeSourceGPUs (tp_data tp) →
    gpu = 255%Z ∨ (gpu < MoEExpertParallelSize c)%Z }.

Definition StoreOk (model : string) (c : Configuration) (r : Reader) (store : moeTraceStore) : Prop :=
  st_model store = model ∧ st_numExperts store = MoENumExperts c ∧ st_topK store = MoETopK c ∧
  Z.of_nat (st_numLayers store) = MoENumLayers c ∧
  Z.of_nat (length (st_prompts store)) = m_NumPrompts (rd_metadata r) ∧
  ∀ i tp, st_prompts store !! i = Some tp → ReadPrompt (Z.of_nat i) r = Ok (tp_data tp) ∧ TracePromptOk c tp.

Lemma find_None_forall {A} (f : A → bool) l : find f l = None → ∀ x, x ∈ l → f x = false.
Proof. induction l as [|y l IH]; intros H x Hx; [by apply not_elem_of_nil in Hx|]. cbn in H. destruct (f y) eqn:E; [done|]. apply elem_of_cons in Hx as [->|Hx]; auto. Qed.

Lemma mapM_is_some {A B} (f : A → option B) l : (∀ x, x ∈ l → is_Some (f x)) → is_Some (mapM f l).
Proof.
  intros H. apply mapM_is_Some_2, Forall_forall. done.
Qed.

Section Load.
Variable unmarshal : bytes → option Metadata.
Variable file : bytes.
Hypothesis file_bytes : Forall byte_ok file.
Hypothesis file_small : (Z.of_nat (length file) < 2 ^ 63)%Z.

Lemma loadPrompt_ok c r i :
  Open unmarshal file = Ok r → i < Z.to_nat (m_NumPrompts (rd_metadata r)) →
  m_NumExperts (rd_metadata r) = MoENumExperts c → m_TopK (rd_metadata r) = MoETopK c →
  Z.of_nat (length (m_SparseLayers (rd_metadata r))) = MoENumLayers c →
  ∃ res, loadPrompt c (length (m_SparseLayers (rd_metadata r))) (Z.to_nat (m_NumExperts (rd_metadata r))) r i = Some res ∧
    match res with Ok tp => ReadPrompt (Z.of_nat i) r = Ok (tp_data tp) ∧ TracePromptOk c tp | Err _ => True end.
Proof.
  intros Ho Hi HE HK HL. destruct (Open_inv _ _ _ Ho) as (_ & _ & _ & _ & F5 & _).
  destruct (lookup_lt_is_Some_2 (rd_index r) i) as [e He]; [lia|].
  destruct (Open_prompt _ _ _ _ _ file_bytes file_small Ho He) as [pm Hp]. pose proof (ReadPrompt_total _ _ _ _ Hp) as Hr.
  unfold loadPrompt. destruct (ReadPrompt (Z.of_nat i) r) as [pd|err]; [|by eexists].
  destruct (find _ _) eqn:Ef; [by eexists|]. destruct Hr.
  assert (is_Some (prefillCountsAsFloat64 pd (length (m_SparseLayers (rd_metadata r))) (Z.to_nat (m_NumExperts (rd_metadata r))))) as [counts Hc].
  { apply mapM_is_some. intros l Hl%elem_of_seq. apply mapM_is_some. intros x Hx%elem_of_seq. apply fmap_is_Some, lookup_lt_is_Some_2.
    rewrite dk_counts0, dk_layers0, dk_experts0. nia. }
  rewrite Hc. cbn [mbind option_bind]. eexists. split; [done|]. split; [done|]. constructor; cbn [tp_data prefillCounts responseStrings].
  - intros m Hm Ht. assert (numLayers m = length (m_SparseLayers (rd_metadata r))) as Hm' by lia.
    constructor; rewrite Hm', Ht, <- HK, <- dk_layers0, <- dk_topk0; done.
  - rewrite <- HE, <- HL, Nat2Z.id. done.
  - done.
  - intros gpu Hg. pose proof (find_None_forall _ _ Ef _ Hg) as Hb. unfold badSource in Hb. destruct (Z.eqb_spec gpu 255); [by left|right]. cbn in Hb. lia.
Qed.

Lemma loadPrompts_ok c r ids :
  Open unmarshal file = Ok r → (∀ i, i ∈ ids → i < Z.to_nat (m_NumPrompts (rd_metadata r))) →
  m_NumExperts (rd_metadata r) = MoENumExperts c → m_TopK (rd_metadata r) = MoETopK c →
  Z.of_nat (length (m_SparseLayers (rd_metadata r))) = MoENumLayers c →
  ∃ res, loadPrompts c (length (m_SparseLayers (rd_metadata r))) (Z.to_nat (m_NumExperts (rd_metadata r))) r ids = Some res ∧
    match res with
    | Ok tps => length tps = length ids ∧ ∀ j i tp, ids !! j = Some i → tps !! j = Some tp → ReadPrompt (Z.of_nat i) r = Ok (tp_data tp) ∧ TracePromptOk c tp
    | Err _ => True
    end.
Proof.
  intros Ho Hi HE HK HL. induction ids as [|i ids IH]; [by eexists|]. cbn [loadPrompts].
  destruct (loadPrompt_ok c r i Ho (Hi i ltac:(left)) HE HK HL) as (res & -> & Hres). cbn [mbind option_bind].
  destruct res as [tp|]; [|by eexists]. destruct IH as (res & -> & Hrest); [intros; apply Hi; by right|]. cbn [mbind option_bind].
  eexists. split; [done|]. destruct res as [tps|]; [|done]. destruct Hrest as [Hlen Hrest]. split; [cbn; lia|].
  intros [|j] i' tp' E1 E2; [cbn in E1, E2; injection E1 as <-; injection E2 as <-; done|by eapply Hrest].
Qed.
End Load.

Lemma loadMoETraceStore_ok unmarshal file model c :
  Forall byte_ok file → (Z.of_nat (length file) < 2 ^ 63)%Z →
  ∃ res, loadMoETraceStore unmarshal file model c = Some res ∧
  match res with Ok store => ∃ r, Open unmarshal file = Ok r ∧ StoreOk model c r store | Err _ => True end.
Proof.
  intros Hby Hsm. unfold loadMoETraceStore. destruct (Open unmarshal file) as [r|] eqn:Ho; [|by eexists].
  case_bool_decide as Hm; cbn [negb]; [|by eexists]. destruct (Z.eqb_spec (m_NumExperts (rd_metadata r)) (MoENumExperts c)) as [HE|]; cbn [negb]; [|by eexists].
  destruct (Z.eqb_spec (m_TopK (rd_metadata r)) (MoETopK c)) as [HK|]; cbn [negb]; [|by eexists].
  destruct (Z.eqb_spec (Z.of_nat (length (m_SparseLayers (rd_metadata r)))) (MoENumLayers c)) as [HL|]; cbn [negb]; [|by eexists].
  destruct (loadPrompts_ok unmarshal file Hby Hsm c r (seq 0 (Z.to_nat (m_NumPrompts (rd_metadata r)))) Ho) as (res & -> & Hres); [|done..|].
  { intros i Hi%elem_of_seq. lia. }
  cbn [mbind option_bind]. eexists. split; [done|]. destruct res as [tps|]; [|done]. destruct Hres as [Hlen Hres].
  exists r. split; [done|]. destruct (Open_inv _ _ _ Ho) as (_ & _ & _ & _ & F5 & _).
  repeat (split; [done|]). cbn [st_prompts]. split; [rewrite Hlen, length_seq; lia|]. intros i tp Htp.
  apply (Hres i i tp); [|done]. apply lookup_lt_Some in Htp. rewrite Hlen, length_seq in Htp. by apply lookup_seq_lt.
Qed.

(** Loading a trace never panics, whatever bytes the file holds; and a store that
    loads has the model and the dimensions of the configuration and every prompt of
    the file, with arrays as long as the replay indexes, one text piece per output
    token and no recorded source GPU outside the EP ranks. *)
Theorem store_loads unmarshal file model c :
  Forall byte_ok file → (Z.of_nat (length file) < 2 ^ 63)%Z →
  ∃ res, loadMoETraceStore unmarshal file model c = Some res ∧
  match res with Ok store => ∃ r, Open unmarshal file = Ok r ∧ StoreOk model c r store | Err _ => True end.
Proof. apply loadMoETraceStore_ok. Qed.

Lemma store_loads_witness :
  ∃ res, loadMoETraceStore (λ _, Some exDoc) exBytes "m"
    (mkConfiguration true 2 4 4 2 1 MoERouterSplit false f_zero 64 32 2 (f_of_Z 1) (f_of_Z 1) (f_of_Z 1) 0) = Some res ∧ is_ok res = true.
Proof.
  destruct (store_loads (λ _, Some exDoc) exBytes "m"
    (mkConfiguration true 2 4 4 2 1 MoERouterSplit false f_zero 64 32 2 (f_of_Z 1) (f_of_Z 1) (f_of_Z 1) 0)) as (res & E & _).
  - apply (bool_decide_unpack (Forall byte_ok exBytes)). vm_compute. exact I.
  - vm_compute. reflexivity.
  - exists res. split; [exact E|]. assert (is_ok <$> Some res = Some true) as H by (rewrite <- E; vm_compute; reflexivity).
    by injection H.
Defined.

(** * Replay *)

(** The invariant of a loaded store the replay relies on. *)
Definition StoreTexts (store : moeTraceStore) : Prop :=
  ∀ tp, tp ∈ st_prompts store →
    responseStrings tp = distributeTraceText (GeneratedText (pd_Metadata (tp_data tp))) (length (pd_DecodeTokenIDs (tp_data tp))).

Lemma StoreOk_texts model c r store : StoreOk model c r store → StoreTexts store.
Proof. intros (_ & _ & _ & _ & _ & H) tp [i Hi]%list_elem_of_lookup. apply (H i tp Hi). Qed.

(** The response of [req] is the recorded one, cut to [n] tokens. *)
Definition Replays (tp : moeTracePrompt) (n : nat) (reason : string) (req : ChatCompletionsRequest) : Prop :=
  (∀ base, GetResponseTokens base req = Ok (take n (pd_DecodeTokenIDs (tp_data tp)), take n (responseStrings tp), reason)) ∧
  length (take n (pd_DecodeTokenIDs (tp_data tp))) = n ∧ length (take n (responseStrings tp)) = n ∧
  Requests.tokenizedPrompt (cc_base req) = Some (pd_InputTokenIDs (tp_data tp)) ∧
  cc_message req = Some (Prompt (pd_Metadata (tp_data tp))).

(** C33: a chat request with a trace prompt id is either refused with an error or bound
    to the recorded prompt: its prompt is the recorded token ids, its response is the
    first [n] recorded tokens, one string each, where [n] is the requested maximum or
    everything, and prompt and response fit the context window.  A complete replay
    returns exactly the recorded text.  A request without an id is unchanged. *)
Theorem bound_request_replays store echo lora maxModelLen req req' :
  StoreTexts store → bindTraceChatRequest (Some store) echo lora maxModelLen req = Ok req' →
  match cc_TracePromptID req with
  | None => req' = req
  | Some id => ∃ tp n,
      (0 ≤ id)%Z ∧ st_prompts store !! Z.to_nat id = Some tp ∧ echo = false ∧ lora = false ∧
      match Requests.MaxTokens (cc_base req) with
      | Some max => (1 ≤ max)%Z ∧ Z.of_nat n = max ∧ Replays tp n "length" req'
      | None => n = length (pd_DecodeTokenIDs (tp_data tp)) ∧ Replays tp n "stop" req' ∧
          (ValidUTF8 (GeneratedText (pd_Metadata (tp_data tp))) → 0 < n →
           join (take n (responseStrings tp)) = GeneratedText (pd_Metadata (tp_data tp)))
      end ∧
      n ≤ length (pd_DecodeTokenIDs (tp_data tp)) ∧ (Z.of_nat (length (pd_InputTokenIDs (tp_data tp)) + n) ≤ maxModelLen)%Z
  end.
Proof.
  intros Hst. unfold bindTraceChatRequest. destruct (cc_TracePromptID req) as [id|]; [|congruence].
  destruct echo; [done|]. destruct lora; [done|]. destruct (cc_SendImage req); [done|].
  destruct (Z.leb_spec 0 id) as [Hid|]; [|done]. destruct (st_prompts store !! Z.to_nat id) as [tp|] eqn:Etp; [|done].
  specialize (Hst tp ltac:(by eapply list_elem_of_lookup_2)).
  assert (length (responseStrings tp) = length (pd_DecodeTokenIDs (tp_data tp))) as Hlen by (rewrite Hst; apply distribute_length).
  unfold replayLength. destruct (Requests.MaxTokens (cc_base req)) as [max|] eqn:Em.
  - destruct (Z.ltb_spec max 1); [done|]. destruct (Z.ltb_spec (Z.of_nat (length (pd_DecodeTokenIDs (tp_data tp)))) max); [done|].
    cbn [res_bind]. destruct (maxModelLen <? _)%Z eqn:El; [done|]. apply Z.ltb_ge in El. intros [= <-]. exists tp, (Z.to_nat max).
    split_and!; try (done || lia). unfold Replays. cbn. rewrite !length_take. split_and!; (done || lia).
  - cbn [res_bind]. destruct (maxModelLen <? _)%Z eqn:El; [done|]. apply Z.ltb_ge in El. intros [= <-]. exists tp, (length (pd_DecodeTokenIDs (tp_data tp))).
    split_and!; try (done || lia); [unfold Replays; cbn; rewrite !length_take; split_and!; (done || lia)|].
    intros Hv H0. rewrite take_ge by lia. rewrite Hst. by apply trace_text_preserved.
Qed.

Definition store_ex : moeTraceStore := mkStore "m" 3 2 1 [ex_prompt execution_ex].
Definition chat_ex (max : option Z) : ChatCompletionsRequest :=
  mkChat (Requests.mkReq "r" "m" "m" 0 None max false false false false false false None None) (Some 0%Z) false 0 false false None None.

Lemma bound_request_replays_witness :
  ∃ req', bindTraceChatRequest (Some store_ex) false false 4 (chat_ex (Some 1%Z)) = Ok req' ∧
  Replays (ex_prompt execution_ex) 1 "length" req'.
Proof.
  assert (StoreTexts store_ex) as Hst.
  { intros tp. unfold store_ex. cbn [st_prompts]. rewrite list_elem_of_singleton. intros ->. vm_compute. reflexivity. }
  destruct (bindTraceChatRequest (Some store_ex) false false 4 (chat_ex (Some 1%Z))) as [req'|] eqn:E; [|discriminate E].
  exists req'. split; [reflexivity|].
  destruct (bound_request_replays store_ex false false 4 (chat_ex (Some 1%Z)) req' Hst E)
    as (tp & n & _ & Etp & _ & _ & (_ & Hn & H) & _).
  injection Etp as <-. assert (n = 1) as -> by lia. exact H.
Defined.

End TraceWorkloadProps.
