(* ===== verification/TraceFidelity.v ===== *)
(** The routing and cost model of the trace replay
    ([pkg/simulator/moe_trace_fidelity.go] and the EPLB hooks of
    [moe_trace_runtime.go]): routers that keep the tokens of every expert on every
    GPU, distributed routing by source rank, fixed placements, the modelled
    execution of a forward pass, and the timeline of forwards.  A panic is
    [None].  Environment variables, the JSON of a placement file and measured
    router times are inputs; the order in which Go ranges over a map is the
    parameter [iter]. *)

From S2P Require Import Prelude GoFloat Moe TraceWorkload.
Import Moe TraceWorkload.
Open Scope nat_scope.

Module TraceFidelity.

(** * Options *)

Definition defaultTracePrefillBatchTokens : Z := 1024.
Definition defaultTracePrefillCoalesce : Z := 200000.

(** The shared expert, the efficiencies and the batching of the replay; durations in
    nanoseconds. *)
Record traceFidelityConfig := mkFidelity {
  fixedPlacement : bool; countRouterRuntime : bool;
  sharedWeightBytes : f64; sharedFlopsPerToken : f64; sharedActivationBytes : f64;
  memoryEfficiency : f64; computeEfficiency : f64; gemmBlockRows : Z; kernelLaunch : Z;
  prefillBatchTokens : Z; prefillCoalesce : Z }.

(** A variable of the environment: unset, or set to a value that parses or not. *)
Abbreviation envValue A := (option (option A)).

Record fidelityEnv := mkFidelityEnv {
  env_shared : envValue Z; env_memory : envValue f64; env_compute : envValue f64; env_rows : envValue Z;
  env_launch : envValue Z; env_batch : envValue Z; env_coalesce : envValue Z }.

Inductive fidelityError :=
| ErrShared | ErrMemoryEfficiency | ErrComputeEfficiency | ErrBlockRows | ErrKernelLaunch | ErrBatchTokens | ErrCoalesce.

Definition closeRelative (value target tolerance : f64) : bool :=
  fle (f_abs (fsub value target)) (fmul (f_abs target) tolerance).

Definition setSharedExpertCost (c : Configuration) (intermediate : Z) (o : traceFidelityConfig) : traceFidelityConfig :=
  let set w f a := mkFidelity (fixedPlacement o) (countRouterRuntime o) w f a (memoryEfficiency o) (computeEfficiency o)
                     (gemmBlockRows o) (kernelLaunch o) (prefillBatchTokens o) (prefillCoalesce o) in
  if (intermediate <=? 0)%Z then set f_zero f_zero f_zero
  else
    let d := f_of_Z (MoEHiddenSize c) in
    let dff := f_of_Z intermediate in
    let bytesPerElement := f_of_Z (MoEBytesPerElement c) in
    let parameters := fmul (fmul (f_of_Z 3) d) dff in
    set (fmul parameters bytesPerElement) (fmul (f_of_Z 2) parameters) (fmul (fadd (fmul (f_of_Z 2) d) dff) bytesPerElement).

(** [envFloat] with [unitInterval]. *)
Definition envFloat (e : fidelityError) (value : envValue f64) (old : f64) : result fidelityError f64 :=
  match value with
  | None => Ok old
  | Some None => Err e
  | Some (Some parsed) => if fle parsed f_zero || flt (f_of_Z 1) parsed then Err e else Ok parsed
  end.

(** An integer of the environment that must be at least [least]. *)
Definition envInt (e : fidelityError) (least : Z) (value : envValue Z) (old : Z) : result fidelityError Z :=
  match value with
  | None => Ok old
  | Some None => Err e
  | Some (Some parsed) => if (parsed <? least)%Z then Err e else Ok parsed
  end.

Definition applyTraceFidelityEnvironment (env : fidelityEnv) (c : Configuration) (o : traceFidelityConfig)
  : result fidelityError traceFidelityConfig :=
  let! o := match env_shared env with
            | None => Ok o
            | Some None => Err ErrShared
            | Some (Some n) => if (n <? 0)%Z then Err ErrShared else Ok (setSharedExpertCost c n o)
            end in
  let! memory := envFloat ErrMemoryEfficiency (env_memory env) (memoryEfficiency o) in
  let! compute := envFloat ErrComputeEfficiency (env_compute env) (computeEfficiency o) in
  let! rows := envInt ErrBlockRows 0 (env_rows env) (gemmBlockRows o) in
  let! launch := envInt ErrKernelLaunch 0 (env_launch env) (kernelLaunch o) in
  let! batch := envInt ErrBatchTokens 1 (env_batch env) (prefillBatchTokens o) in
  let! coalesce := envInt ErrCoalesce 0 (env_coalesce env) (prefillCoalesce o) in
  Ok (mkFidelity (fixedPlacement o) (countRouterRuntime o) (sharedWeightBytes o) (sharedFlopsPerToken o) (sharedActivationBytes o)
        memory compute rows launch batch coalesce).

(** * Fixed placements *)

Record fixedPlacementFile := mkPlacementFile {
  PhysicalToLogical : list (list Z); NumLayers : Z; NumPhysicalExperts : Z }.

Inductive placementError :=
| ErrPlacementLayers | ErrPlacementSlots | ErrLayerMaps | ErrDivisible | ErrLayerSlots (layer : nat)
| ErrLogical (layer slot : nat) (logical : Z) | ErrDuplicate (layer : nat) (logical gpu : nat) | ErrNoReplica (layer expert : nat).

(** One slot of a layer: the expert gets a copy on the slot's GPU. *)
Definition placeSlot (m : moeParams) (layer slotsPerGPU : nat) (p : placement) (x : nat * Z) : result placementError placement :=
  let '(physical, logical) := x in
  if ((logical <? 0) || (Z.of_nat (numExperts m) <=? logical))%Z then Err (ErrLogical layer physical logical)
  else
    let gpu := physical / slotsPerGPU in
    let ranks := p !!! Z.to_nat logical in
    if bool_decide (gpu ∈ ranks) then Err (ErrDuplicate layer (Z.to_nat logical) gpu)
    else Ok (<[Z.to_nat logical := ranks ++ [gpu]]> p).

Fixpoint placeSlots (m : moeParams) (layer slotsPerGPU : nat) (p : placement) (xs : list (nat * Z)) : result placementError placement :=
  match xs with
  | [] => Ok p
  | x :: xs => let! p := placeSlot m layer slotsPerGPU p x in placeSlots m layer slotsPerGPU p xs
  end.

(** The first expert without a copy. *)
Definition missingExpert (p : placement) : option nat :=
  fst <$> find (λ x, length x.2 =? 0) (enumerate p).

Definition placeLayer (m : moeParams) (layer : nat) (physicalToLogical : list Z) : result placementError placement :=
  if negb (length physicalToLogical =? physicalSlots m) then Err (ErrLayerSlots layer)
  else
    let! p := placeSlots m layer (physicalSlots m / numGPUs m) (replicate (numExperts m) []) (enumerate physicalToLogical) in
    match missingExpert p with
    | Some expert => Err (ErrNoReplica layer expert)
    | None => Ok p
    end.

Fixpoint placeLayers (m : moeParams) (xs : list (nat * list Z)) : result placementError (list placement) :=
  match xs with
  | [] => Ok []
  | (layer, l) :: xs => let! p := placeLayer m layer l in let! ps := placeLayers m xs in Ok (p :: ps)
  end.

(** [installFixedPlacement] on the parsed file. *)
Definition installFixedPlacement (data : fixedPlacementFile) (s : moeSimulator) : result placementError moeSimulator :=
  let m := params s in
  if negb (NumLayers data =? 0)%Z && negb (NumLayers data =? Z.of_nat (numLayers m))%Z then Err ErrPlacementLayers
  else if negb (NumPhysicalExperts data =? 0)%Z && negb (NumPhysicalExperts data =? Z.of_nat (physicalSlots m))%Z then Err ErrPlacementSlots
  else if negb (length (PhysicalToLogical data) =? numLayers m) then Err ErrLayerMaps
  else if negb (physicalSlots m mod numGPUs m =? 0) then Err ErrDivisible
  else
    let! ps := placeLayers m (enumerate (PhysicalToLogical data)) in
    Ok (mkMoe m ps (eplbLoadWindow s) (eplbLoadWindowStep s) (expertRearrangementStep s) (u64 (placementGeneration s + 1)) 0 (latencyCache s)).

(** [strings.Contains(s, sub)]. *)
Fixpoint containsString (sub s : string) : bool :=
  String.prefix sub s || match s with EmptyString => false | String _ r => containsString sub r end.

(** The options before the environment: the shared expert of Qwen1.5-MoE-A2.7B and the
    calibration of two GPU types. *)
Definition presetFidelity (model : string) (c : Configuration) (countRouter : bool) : traceFidelityConfig :=
  let o := mkFidelity false countRouter f_zero f_zero f_zero (f_of_Z 1) (f_of_Z 1) 0%Z 0%Z defaultTracePrefillBatchTokens defaultTracePrefillCoalesce in
  let o := if containsString "Qwen1.5-MoE-A2.7B" model then setSharedExpertCost c 5632 o else o in
  let calibrated (memory compute : f64) (launch : Z) :=
    mkFidelity (fixedPlacement o) (countRouterRuntime o) (sharedWeightBytes o) (sharedFlopsPerToken o) (sharedActivationBytes o)
      memory compute 128%Z launch (prefillBatchTokens o) (prefillCoalesce o) in
  let close (flops bandwidth : f64) : bool := closeRelative (MoEGPUFlops c) flops (f_const 5 100) && closeRelative (MoEGPUMemoryBandwidth c) bandwidth (f_const 5 100) in
  if close (f_of_Z (312 * 10 ^ 12)) (f_of_Z (2 * 10 ^ 12)) then calibrated (f_const 75 100) (f_const 70 100) 9000%Z
  else if close (f_of_Z (990 * 10 ^ 12)) (f_of_Z (335 * 10 ^ 10)) then calibrated (f_const 80 100) (f_const 80 100) 6000%Z
  else o.

(** [placement] is the parsed placement file, where one is configured. *)
Definition configureTraceFidelity (model : string) (c : Configuration) (env : fidelityEnv) (placement : option fixedPlacementFile)
    (countRouter : bool) (s : moeSimulator) : result (fidelityError + placementError) (traceFidelityConfig * moeSimulator) :=
  match applyTraceFidelityEnvironment env c (presetFidelity model c countRouter) with
  | Err e => Err (inl e)
  | Ok o =>
      match placement with
      | None => Ok (o, s)
      | Some data =>
          match installFixedPlacement data s with
          | Err e => Err (inr e)
          | Ok s => Ok (mkFidelity true (countRouterRuntime o) (sharedWeightBytes o) (sharedFlopsPerToken o) (sharedActivationBytes o)
                          (memoryEfficiency o) (computeEfficiency o) (gemmBlockRows o) (kernelLaunch o) (prefillBatchTokens o) (prefillCoalesce o), s)
          end
      end
  end.

(** * Routing state *)

(** [expertLoads !! gpu !! expert] and [loads !! gpu]. *)
Record traceRoutingState := mkTState {
  expertLoads : list (gmap nat f64); tr_loads : list f64; tr_sources : option (list (list f64)) }.

Definition newTraceRoutingState (gpus : nat) : traceRoutingState := mkTState (replicate gpus ∅) (replicate gpus f_zero) None.

(** [traceRoutingState.add]. *)
Definition addTokens (gpu expert : nat) (tokens : f64) (st : traceRoutingState) : option traceRoutingState :=
  if fle tokens f_zero then Some st
  else
    e ← expertLoads st !! gpu; l ← tr_loads st !! gpu;
    Some (mkTState (<[gpu := <[expert := fadd (default f_zero (e !! expert)) tokens]> e]> (expertLoads st))
            (<[gpu := fadd l tokens]> (tr_loads st)) (tr_sources st)).

Section Routers.
Variable m : moeParams.

Definition traceRouterGPUCost (st : traceRoutingState) (gpu : nat) : option f64 :=
  e ← expertLoads st !! gpu; l ← tr_loads st !! gpu; Some (gpuCost m (Z.of_nat (size e)) l).

(** One expert of the split router: a chunk to every holder. *)
Definition splitExpert (p : placement) (st : traceRoutingState) (x : nat * f64) : option traceRoutingState :=
  let '(expert, count) := x in
  if fle count f_zero then Some st
  else
    ranks ← p !! expert;
    foldM (λ st y, addTokens y.1 expert y.2 st) st (zip ranks (distributeReplicaTokens count (length ranks))).

Definition traceRouteSplit (counts : list f64) (p : placement) : option traceRoutingState :=
  foldM (splitExpert p) (newTraceRoutingState (numGPUs m)) (enumerate counts).

(** The cheapest holder so far; [None] is [bestGPU = -1]. *)
Definition traceCheapest (st : traceRoutingState) (expert : nat) (count : f64) (best : option (nat * f64)) (gpu : nat)
  : option (option (nat * f64)) :=
  e ← expertLoads st !! gpu; l ← tr_loads st !! gpu;
  let activeExperts := if bool_decide (is_Some (e !! expert)) then size e else S (size e) in
  let cost := gpuCost m (Z.of_nat activeExperts) (fadd l count) in
  Some (if flt cost (match best with Some (_, bestCost) => bestCost | None => f_inf end) then Some (gpu, cost) else best).

Definition concentrateExpert (counts : list f64) (p : placement) (st : traceRoutingState) (expert : nat) : option traceRoutingState :=
  count ← counts !! expert;
  if fle count f_zero then Some st
  else
    ranks ← p !! expert;
    best ← foldM (traceCheapest st expert count) None ranks;
    match best with
    | Some (bestGPU, _) => addTokens bestGPU expert count st
    | None => None
    end.

Definition traceRouteConcentrate (counts : list f64) (p : placement) : option traceRoutingState :=
  foldM (concentrateExpert counts p) (newTraceRoutingState (numGPUs m)) (expertOrder counts).

Definition traceHeuristicOrder (counts : list f64) : list nat :=
  let solo i := f_max (fdiv (fadd (expertWeightBytes m) (fmul (activationBytes m) (counts !!! i))) (gpuBandwidth m))
                      (fdiv (fmul (flopsPerAssignment m) (counts !!! i)) (gpuFlops m)) in
  SliceStable (λ i j, flt (solo j) (solo i)) (filter (λ i, flt f_zero (counts !!! i) = true) (seq 0 (length counts))).

Definition traceReplicaCount (count : f64) (copies : nat) : nat :=
  let weightSeconds := fdiv (expertWeightBytes m) (gpuBandwidth m) in
  let computeSeconds := fdiv (fmul (flopsPerAssignment m) count) (gpuFlops m) in
  if flt weightSeconds computeSeconds then
    let n := f_to_int (f_round_even (fdiv computeSeconds weightSeconds)) in
    let n := if (n <? 1)%Z then 1%Z else n in
    if (Z.of_nat copies <? n)%Z then copies else Z.to_nat n
  else 1.

(** [assignments !! expert !! gpu]. *)
Abbreviation assignmentMap := (gmap nat (gmap nat f64)).

(** One chunk of an expert. *)
Definition heuristicChunk (expert : nat) (acc : traceRoutingState * assignmentMap) (y : nat * f64) : option (traceRoutingState * assignmentMap) :=
  if fle y.2 f_zero then Some acc
  else
    st ← addTokens y.1 expert y.2 acc.1;
    Some (st, <[expert := <[y.1 := y.2]> (default ∅ (acc.2 !! expert))]> acc.2).

Definition traceHeuristicSplit (counts : list f64) (p : placement) (acc : traceRoutingState * assignmentMap) (expert : nat)
  : option (traceRoutingState * assignmentMap) :=
  let '(st, assignments) := acc in
  count ← counts !! expert;
  ranks ← p !! expert;
  let replicaCount := traceReplicaCount count (length ranks) in
  costs ← mapM (traceRouterGPUCost st) ranks;
  let cost i := default f_zero (traceRouterGPUCost st i) in
  let candidates := SliceStable (λ i j, flt (cost i) (cost j)) ranks in
  if length ranks <? replicaCount then None
  else
    foldM (heuristicChunk expert) (st, <[expert := ∅]> assignments)
      (zip (take replicaCount candidates) (distributeReplicaTokens count replicaCount)).

Definition traceSlowest (st : traceRoutingState) : option (nat * f64) :=
  base ← traceRouterGPUCost st 0;
  foldM (λ acc gpu, cost ← traceRouterGPUCost st gpu; Some (if flt acc.2 cost then (gpu, cost) else acc)) (0, base) (seq 1 (numGPUs m - 1)).

Definition traceOtherCost (st : traceRoutingState) (slow destination : nat) : option f64 :=
  foldM (λ other gpu, if (gpu =? slow) || (gpu =? destination) then Some other
                      else cost ← traceRouterGPUCost st gpu; Some (if flt other cost then cost else other)) f_zero (seq 0 (numGPUs m)).

(** One destination for the chunk of [expert] on the slowest GPU. *)
Definition traceTryMove (st : traceRoutingState) (expertChunks : gmap nat f64) (slow : nat) (base tokens : f64) (expert : nat)
    (best : f64 * option move) (destination : nat) : option (f64 * option move) :=
  if destination =? slow then Some best
  else
    let had := bool_decide (is_Some (expertChunks !! destination)) in
    se ← expertLoads st !! slow; sl ← tr_loads st !! slow;
    de ← expertLoads st !! destination; dl ← tr_loads st !! destination;
    let sourceCost := gpuCost m (Z.of_nat (size se) - 1) (fsub sl tokens) in
    let destinationCost := gpuCost m (Z.of_nat (size de) + (if had then 0 else 1)) (fadd dl tokens) in
    other ← traceOtherCost st slow destination;
    let gain := fsub base (f_max sourceCost (f_max destinationCost other)) in
    Some (if flt best.1 gain then (gain, Some (mkMove expert destination tokens had)) else best).

Definition traceBestMove (st : traceRoutingState) (assignments : assignmentMap) (p : placement) (order : list nat) (slow : nat) (base : f64)
  : option (f64 * option move) :=
  foldM (λ best expert,
    let expertChunks := default ∅ (assignments !! expert) in
    match expertChunks !! slow with
    | None => Some best
    | Some tokens =>
        if fle tokens f_zero then Some best
        else ranks ← p !! expert; foldM (traceTryMove st expertChunks slow base tokens expert) best ranks
    end) (f_const 1 (10 ^ 12), None) order.

Definition traceApplyMove (slow : nat) (mv : move) (acc : traceRoutingState * assignmentMap) : option (traceRoutingState * assignmentMap) :=
  let '(st, assignments) := acc in
  let e := mv_expert mv in
  let chunks := delete slow (default ∅ (assignments !! e)) in
  se ← expertLoads st !! slow; sl ← tr_loads st !! slow;
  let loads1 := <[slow := delete e se]> (expertLoads st) in
  let sums1 := <[slow := fsub sl (mv_tokens mv)]> (tr_loads st) in
  let chunks := <[mv_destination mv := fadd (default f_zero (chunks !! mv_destination mv)) (mv_tokens mv)]> chunks in
  de ← loads1 !! mv_destination mv; dl ← sums1 !! mv_destination mv;
  let de := if mv_hadExpert mv then de else <[e := f_zero]> de in
  Some (mkTState (<[mv_destination mv := <[e := fadd (default f_zero (de !! e)) (mv_tokens mv)]> de]> loads1)
          (<[mv_destination mv := fadd dl (mv_tokens mv)]> sums1) (tr_sources st),
        <[e := chunks]> assignments).

(** At most [n] improving moves. *)
Fixpoint traceLocalSearch (n : nat) (p : placement) (order : list nat) (acc : traceRoutingState * assignmentMap)
  : option (traceRoutingState * assignmentMap) :=
  match n with
  | 0 => Some acc
  | S n =>
      slow ← traceSlowest acc.1;
      best ← traceBestMove acc.1 acc.2 p order slow.1 slow.2;
      match best.2 with
      | None => Some acc
      | Some mv => acc ← traceApplyMove slow.1 mv acc; traceLocalSearch n p order acc
      end
  end.

Definition traceRouteHeuristic (counts : list f64) (p : placement) : option traceRoutingState :=
  let order := traceHeuristicOrder counts in
  acc ← foldM (traceHeuristicSplit counts p) (newTraceRoutingState (numGPUs m), ∅) order;
  acc ← traceLocalSearch 20 p order acc;
  Some acc.1.

Definition traceRouteCentral (counts : list f64) (p : placement) : option traceRoutingState :=
  if bool_decide (router m = MoERouterConcentrate) then traceRouteConcentrate counts p
  else if bool_decide (router m = MoERouterHeuristic) then traceRouteHeuristic counts p
  else traceRouteSplit counts p.
End Routers.

End TraceFidelity.
