(* ===== verification/TraceExecution.v ===== *)
(** The modelled forward pass of the trace replay
    ([pkg/simulator/moe_trace_fidelity.go], with the EPLB hooks of
    [moe_trace_runtime.go]): distributed routing by source rank, the cost of a
    layer, one forward pass with its load balancing, and the reservation of
    forwards on one timeline. *)

From S2P Require Import Prelude GoFloat Moe TraceWorkload TraceFidelity.
Import Moe TraceWorkload TraceFidelity.
Open Scope nat_scope.

Module TraceExecution.

(** * Distributed routing *)

(** [row[i]++] on a matrix of counts. *)
Definition bumpCell (rows : list (list f64)) (i j : nat) (x : f64) : list (list f64) :=
  alter (alter (λ y, fadd y x) j) i rows.

(** The recorded assignments by source, and how many of every expert they cover. *)
Definition coverAssignment (experts gpus : nat) (acc : list (list f64) * list f64) (a : traceProfileTokenAssignment)
  : list (list f64) * list f64 :=
  if ((ta_SourceGPU a <? 0) || (Z.of_nat gpus <=? ta_SourceGPU a) || (ta_ExpertID a <? 0) || (Z.of_nat experts <=? ta_ExpertID a))%Z
  then acc
  else (bumpCell acc.1 (Z.to_nat (ta_SourceGPU a)) (Z.to_nat (ta_ExpertID a)) (f_of_Z 1),
        alter (λ y, fadd y (f_of_Z 1)) (Z.to_nat (ta_ExpertID a)) acc.2).

(** The uncovered rest of an expert is dealt out over all sources. *)
Definition spreadRest (gpus : nat) (covered : list f64) (rows : list (list f64)) (x : nat * f64) : list (list f64) :=
  let '(expert, count) := x in
  let remaining := fsub count (covered !!! expert) in
  if fle remaining (f_const 1 (10 ^ 9)) then rows
  else zip_with (λ row c, alter (λ y, fadd y c) expert row) rows (distributeReplicaTokens remaining gpus).

Definition traceCountsBySource (counts : list f64) (assignments : list traceProfileTokenAssignment) (gpus : nat) : list (list f64) :=
  let experts := length counts in
  let '(rows, covered) := foldl (coverAssignment experts gpus) (replicate gpus (replicate experts f_zero), replicate experts f_zero) assignments in
  foldl (spreadRest gpus covered) rows (enumerate counts).

(** [for expert, tokens := range m2 { m1[expert] += tokens }]; every key is met once. *)
Definition mergeLoads (m1 m2 : gmap nat f64) : gmap nat f64 :=
  merge (λ a b, match b with Some t => Some (fadd (default f_zero a) t) | None => a end) m1 m2.

(** One source of the aggregate. *)
Definition aggregateTraceSource (gpus : nat) (states : list traceRoutingState) (acc : traceRoutingState) (source : nat)
  : option traceRoutingState :=
  let rows := default [] (tr_sources acc) in
  match states !! source with
  | None => Some (mkTState (expertLoads acc) (tr_loads acc) (Some (rows ++ [replicate gpus f_zero])))
  | Some st =>
      if (length (tr_loads st) <? gpus) || (length (expertLoads st) <? gpus) then None
      else Some (mkTState (zip_with mergeLoads (expertLoads acc) (take gpus (expertLoads st)))
                  (zip_with fadd (tr_loads acc) (take gpus (tr_loads st))) (Some (rows ++ [take gpus (tr_loads st)])))
  end.

Definition aggregateDistributedTraceRouting (states : list traceRoutingState) (gpus : nat) : option traceRoutingState :=
  let st := newTraceRoutingState gpus in
  foldM (aggregateTraceSource gpus states) (mkTState (expertLoads st) (tr_loads st) (Some [])) (seq 0 gpus).

Section Layer.
Variable m : moeParams.

(** Without the measured durations. *)
Definition traceRouteDistributedWithTimings (counts : list f64) (p : placement) (assignments : list traceProfileTokenAssignment)
  : option traceRoutingState :=
  states ← mapM (λ c, traceRouteCentral m c p) (traceCountsBySource counts assignments (numGPUs m));
  aggregateDistributedTraceRouting states (numGPUs m).

(** The routing of one layer of a forward. *)
Definition traceRouteLayer (counts : list f64) (p : placement) (assignments : list traceProfileTokenAssignment) : option traceRoutingState :=
  if useDistributedRouting m && (1 <? numGPUs m) then traceRouteDistributedWithTimings counts p assignments
  else traceRouteCentral m counts p.

Definition traceRoute (counts : list f64) (p : placement) : option traceRoutingState := traceRouteLayer counts p [].

(** * The cost of a layer *)

Definition paddedRows (tokens : f64) (blockRows : Z) : f64 :=
  if fle tokens f_zero || (blockRows <=? 0)%Z then tokens
  else fmul (f_ceil (fdiv tokens (f_of_Z blockRows))) (f_of_Z blockRows).

(** The GPU an assignment is shown on: the first with a whole token of its expert left,
    else the one with most left, else the first that has the expert. *)
Definition pickProfileGPU (loads remaining : list (gmap nat f64)) (expert : nat) : option nat :=
  let rest := (λ r : gmap nat f64, default f_zero (r !! expert)) <$> remaining in
  match find (λ x, fle (f_const (10 ^ 9 - 1) (10 ^ 9)) x.2) (enumerate rest) with
  | Some (gpu, _) => Some gpu
  | None =>
      match foldl (λ best x, if flt best.1 x.2 then (x.2, Some x.1) else best) (f_zero, None) (enumerate rest) with
      | (_, Some gpu) => Some gpu
      | (_, None) =>
          fst <$> find (λ x : nat * gmap nat f64, flt f_zero (default f_zero (x.2 !! expert))) (enumerate loads)
      end
  end.

Definition distributeStep (loads : list (gmap nat f64)) (acc : assignmentTable * list (gmap nat f64)) (a : traceProfileTokenAssignment)
  : assignmentTable * list (gmap nat f64) :=
  let expert := Z.to_nat (ta_ExpertID a) in
  match (if (ta_ExpertID a <? 0)%Z then None else pickProfileGPU loads acc.2 expert) with
  | None => acc
  | Some gpu =>
      (alter (λ row, row ++ [a]) gpu acc.1,
       alter (λ r : gmap nat f64, <[expert := fsub (default f_zero (r !! expert)) (f_of_Z 1)]> r) gpu acc.2)
  end.

(** [distributeTraceProfileAssignments]: the assignments of each GPU. *)
Definition distributeTraceProfileAssignments (st : traceRoutingState) (assignments : list traceProfileTokenAssignment) : assignmentTable :=
  (foldl (distributeStep (expertLoads st)) (replicate (length (expertLoads st)) [], expertLoads st) assignments).1.

Record traceGPUExecution := mkGPUExecution {
  ge_gpu : nat; ge_expertLoads : gmap nat f64; ge_tokenAssignments : list traceProfileTokenAssignment; ge_assignments : f64;
  ge_memoryBytes : f64; ge_computeFlops : f64; ge_memoryDuration : Z; ge_computeDuration : Z; ge_duration : Z; ge_vramBytes : f64 }.

Variable o : traceFidelityConfig.

(** The memory traffic and the work of the experts of one GPU, in the order of the range. *)
Definition addExpertWork (acc : f64 * f64) (x : nat * f64) : f64 * f64 :=
  let tokens := x.2 in
  let computeTokens := if (0 <? gemmBlockRows o)%Z then paddedRows tokens (gemmBlockRows o) else tokens in
  (fadd acc.1 (fadd (expertWeightBytes m) (fmul (activationBytes m) tokens)),
   fadd acc.2 (fmul (flopsPerAssignment m) computeTokens)).

(** One GPU: its execution and its cost in seconds. *)
Definition gpuExecution (iter : gmap nat f64 → list (nat * f64)) (st : traceRoutingState) (assignments : assignmentTable)
    (totalTokens : f64) (gpu : nat) : option (traceGPUExecution * f64) :=
  e ← expertLoads st !! gpu; l ← tr_loads st !! gpu; own ← assignments !! gpu;
  let sharedTokensPerGPU := fdiv totalTokens (f_of_Z (Z.of_nat (numGPUs m))) in
  let start := (fadd (sharedWeightBytes o) (fmul (sharedActivationBytes o) sharedTokensPerGPU),
                fmul (sharedFlopsPerToken o) sharedTokensPerGPU) in
  let '(memoryBytes, computeFlops) := foldl addExpertWork start (iter e) in
  let computeFlops :=
    if (0 <? gemmBlockRows o)%Z && flt f_zero (sharedFlopsPerToken o)
    then fadd (fsub computeFlops (fmul (sharedFlopsPerToken o) sharedTokensPerGPU))
              (fmul (sharedFlopsPerToken o) (paddedRows sharedTokensPerGPU (gemmBlockRows o)))
    else computeFlops in
  let memorySeconds := fdiv memoryBytes (fmul (gpuBandwidth m) (memoryEfficiency o)) in
  let computeSeconds := fdiv computeFlops (fmul (gpuFlops m) (computeEfficiency o)) in
  let cost := f_max memorySeconds computeSeconds in
  let cost := if flt f_zero totalTokens then fadd cost (Seconds (kernelLaunch o)) else cost in
  Some (mkGPUExecution gpu e own l memoryBytes computeFlops (durationOf memorySeconds) (durationOf computeSeconds) (durationOf cost)
          (fadd (fmul (f_of_Z (Z.of_nat (physicalSlots m / numGPUs m))) (expertWeightBytes m)) (sharedWeightBytes o)), cost).

Definition traceLayerExecution (iter : nat → gmap nat f64 → list (nat * f64)) (st : traceRoutingState) (counts : list f64)
    (assignments : list traceProfileTokenAssignment) : option (list traceGPUExecution * f64) :=
  let totalAssignments := foldl fadd f_zero counts in
  let totalTokens := fdiv totalAssignments (f_of_Z (topK m)) in
  let byGPU := distributeTraceProfileAssignments st assignments in
  foldM (λ acc gpu,
    x ← gpuExecution (iter gpu) st byGPU totalTokens gpu;
    Some (acc.1 ++ [x.1], if flt acc.2 x.2 then x.2 else acc.2)) ([], f_zero) (seq 0 (numGPUs m)).

Definition traceCommunicationPhaseCost (st : traceRoutingState) : option f64 :=
  if numGPUs m <=? 1 then Some f_zero
  else
    match tr_sources st with
    | Some rows =>
        let maxSend := foldl (λ acc x, f_max acc (remoteSum x.1 x.2)) f_zero (enumerate rows) in
        maxRemote ← foldM (λ acc destination,
          column ← mapM (λ row : list f64, row !! destination) rows;
          Some (f_max acc (remoteSum destination column))) maxSend (seq 0 (numGPUs m));
        if feq maxRemote f_zero then Some f_zero
        else Some (fadd (fdiv (fmul maxRemote (networkBytes m)) (interconnectBW m)) (Seconds (interconnectLatency m)))
    | None =>
        let totalAssignments := foldl fadd f_zero (tr_loads st) in
        if feq totalAssignments f_zero then Some f_zero
        else
          let gpus := f_of_Z (Z.of_nat (numGPUs m)) in
          let remoteFraction := fsub (f_of_Z 1) (fdiv (f_of_Z 1) gpus) in
          let uniformSend := fmul (fdiv totalAssignments gpus) remoteFraction in
          let maxRemote := foldl (λ best load, let receive := fmul load remoteFraction in if flt best receive then receive else best)
                             uniformSend (tr_loads st) in
          Some (fadd (fdiv (fmul maxRemote (networkBytes m)) (interconnectBW m)) (Seconds (interconnectLatency m)))
    end.
End Layer.

(** * Load balancing on layer counts *)

Definition recordEPLBLayerCounts (counts : moeLayerCounts) (s : moeSimulator) : option moeSimulator :=
  let m := params s in
  let stride := numLayers m * numExperts m in
  let base := eplbLoadWindowStep s * stride in
  w ← foldM (λ w layer, row ← counts !! layer; copyInto (base + layer * numExperts m) (numExperts m) row w)
        (eplbLoadWindow s) (seq 0 (numLayers m));
  let step := S (eplbLoadWindowStep s) in
  Some (mkMoe m (placements s) w (if vllmEPLBWindowSize <=? step then 0 else step) (expertRearrangementStep s)
          (placementGeneration s) (lastReplacementMoves s) (latencyCache s)).

Definition advanceEPLBLayerCounts (counts : moeLayerCounts) (s : moeSimulator) : option (moeSimulator * Z) :=
  s ← (if shouldRecordEPLBLoad s then recordEPLBLayerCounts counts s else Some s);
  let s := set_rearrangementStep (S (expertRearrangementStep s)) s in
  if expertRearrangementStep s <? vllmEPLBStepInterval then Some (s, 0%Z)
  else rebalanceExperts (set_rearrangementStep 0 s).

(** * One forward pass *)

(** The router times measured in a layer: of the central router, of every source, of the
    aggregation. *)
Record routerTimes := mkTimes { rt_router : Z; rt_routers : list Z; rt_aggregator : Z }.

Definition layerRouterWall (t : routerTimes) : Z :=
  if length (rt_routers t) =? 0 then rt_router t
  else (foldl Z.max (rt_router t) (rt_routers t) + rt_aggregator t)%Z.

Record traceLayerRecord := mkLayerRecord { le_layer : nat; le_dispatch : Z; le_gpus : list traceGPUExecution; le_duration : Z }.

Record traceModelExecution := mkExecutionResult { me_layers : list traceLayerRecord; me_migration : Z; me_duration : Z }.

Definition emptyExecution : traceModelExecution := mkExecutionResult [] 0 0.

(** The accumulator of the loop over layers: records, seconds, router time. *)
Definition forwardLayer (iter : nat → nat → gmap nat f64 → list (nat * f64)) (times : nat → routerTimes) (o : traceFidelityConfig)
    (m : moeParams) (counts : moeLayerCounts) (ps : list placement) (assignments : assignmentTable)
    (acc : list traceLayerRecord * f64 * Z) (layer : nat) : option (list traceLayerRecord * f64 * Z) :=
  let '(records, totalSeconds, routerLatency) := acc in
  row ← counts !! layer; p ← ps !! layer;
  let own := default [] (assignments !! layer) in
  st ← traceRouteLayer m row p own;
  let routerLatency := if countRouterRuntime o then (routerLatency + layerRouterWall (times layer))%Z else routerLatency in
  x ← traceLayerExecution m o (iter layer) st row own;
  let '(gpus, maxCost) := x in
  phase ← traceCommunicationPhaseCost m st;
  let dispatch := durationOf phase in
  Some (records ++ [mkLayerRecord layer dispatch gpus (i64 (dispatch + durationOf maxCost + dispatch))],
        fadd totalSeconds (fadd (fmul (f_of_Z 2) phase) maxCost), routerLatency).

(** [len(counts) != numLayers] or a row of another length. *)
Definition countsShape (m : moeParams) (counts : moeLayerCounts) : bool :=
  (length counts =? numLayers m) && forallb (λ row, length row =? numExperts m) counts.

(** The sum of all counts, row by row. *)
Definition totalCounts (counts : moeLayerCounts) : f64 := foldl (λ acc row, foldl fadd acc row) f_zero counts.

(** [traceModelExecutionForLayerCountsWithProfile]: the forward runs on the placements
    before the load balancing of this step. *)
Definition traceModelExecutionForLayerCounts (iter : nat → nat → gmap nat f64 → list (nat * f64)) (times : nat → routerTimes)
    (o : traceFidelityConfig) (counts : moeLayerCounts) (assignments : assignmentTable) (s : moeSimulator)
  : option (moeSimulator * traceModelExecution) :=
  let m := params s in
  if negb (countsShape m counts) then Some (s, emptyExecution)
  else if feq (totalCounts counts) f_zero then Some (s, emptyExecution)
  else
    let ps := placements s in
    a ← (if fixedPlacement o then Some (s, 0%Z) else advanceEPLBLayerCounts counts s);
    let '(s, migration) := a : moeSimulator * Z in
    acc ← foldM (forwardLayer iter times o m counts ps assignments) ([], f_zero, 0%Z) (seq 0 (numLayers m));
    let '(records, totalSeconds, routerLatency) := acc : list traceLayerRecord * f64 * Z in
    Some (s, mkExecutionResult records migration (i64 (durationOf totalSeconds + migration + routerLatency))).

(** * The timeline of forwards *)

(** [reserveForward]: the start and the latency seen by the caller; [next] is
    [nextAvailable]. *)
Definition reserveForward (next callStarted modelLatency : Z) : Z * (Z * Z) :=
  let start := if (callStarted <? next)%Z then next else callStarted in
  let finish := (start + modelLatency)%Z in
  (finish, (start, (finish - callStarted)%Z)).

(** [traceLatencyForLayerCountsWithProfile]: a forward of positive duration is put on the
    timeline. *)
Definition traceLatencyForLayerCounts (iter : nat → nat → gmap nat f64 → list (nat * f64)) (times : nat → routerTimes)
    (o : traceFidelityConfig) (callStarted : Z) (counts : moeLayerCounts) (assignments : assignmentTable) (st : moeSimulator * Z)
  : option ((moeSimulator * Z) * Z) :=
  let '(s, next) := st in
  x ← traceModelExecutionForLayerCounts iter times o counts assignments s;
  let d := me_duration x.2 in
  if (d <=? 0)%Z then Some ((x.1, next), d)
  else let '(next, (_, latency)) := reserveForward next callStarted d in Some ((x.1, next), latency).

End TraceExecution.
