(* ===== verification/TraceVirtual.v ===== *)
(** The offline trace benchmark of [pkg/simulator/moe_trace_virtual.go]: the
    vLLM-style scheduler that admits sequences, lets every decoding sequence
    contribute one token and fills the token budget with prefill chunks, one
    aggregate forward per iteration. *)

From S2P Require Import Prelude GoFloat TraceFormat TraceFile Moe TraceWorkload TraceFidelity TraceExecution.
Import TraceFormat TraceFile Moe TraceWorkload TraceFidelity TraceExecution.
Open Scope nat_scope.

Module TraceVirtual.

Inductive virtualPhase := virtualPhaseWaiting | virtualPhasePrefill | virtualPhaseDecode | virtualPhaseDone.

#[global] Instance virtualPhase_eq_dec : EqDecision virtualPhase.
Proof. solve_decision. Defined.

Record virtualTraceSequence := mkSeq {
  vs_prompt : moeTracePrompt; vs_phase : virtualPhase; vs_prefillPos : nat; vs_decodePosition : nat }.

Definition set_phase (ph : virtualPhase) (s : virtualTraceSequence) : virtualTraceSequence :=
  mkSeq (vs_prompt s) ph (vs_prefillPos s) (vs_decodePosition s).
Definition set_prefillPos (n : nat) (s : virtualTraceSequence) : virtualTraceSequence :=
  mkSeq (vs_prompt s) (vs_phase s) n (vs_decodePosition s).
Definition set_decodePosition (n : nat) (s : virtualTraceSequence) : virtualTraceSequence :=
  mkSeq (vs_prompt s) (vs_phase s) (vs_prefillPos s) n.

Definition inputTokensOf (s : virtualTraceSequence) : nat := length (pd_InputTokenIDs (tp_data (vs_prompt s))).
Definition outputTokensOf (s : virtualTraceSequence) : nat := length (pd_DecodeTokenIDs (tp_data (vs_prompt s))).

(** * Admission *)

Definition isActive (s : virtualTraceSequence) : bool :=
  match vs_phase s with virtualPhasePrefill | virtualPhaseDecode => true | _ => false end.

Definition activeVirtualSequences (seqs : list virtualTraceSequence) : nat := length (filter (λ s, isActive s = true) seqs).

Definition hasVirtualWork (seqs : list virtualTraceSequence) : bool :=
  existsb (λ s, negb (bool_decide (vs_phase s = virtualPhaseDone))) seqs.

(** The phase an admitted sequence starts in. *)
Definition admittedPhase (s : virtualTraceSequence) : virtualPhase :=
  if 0 <? inputTokensOf s then virtualPhasePrefill
  else if 1 <? outputTokensOf s then virtualPhaseDecode
  else virtualPhaseDone.

Fixpoint admitFrom (active maxNumSeqs : nat) (seqs : list virtualTraceSequence) : list virtualTraceSequence :=
  match seqs with
  | [] => []
  | s :: r =>
      if maxNumSeqs <=? active then s :: r
      else if bool_decide (vs_phase s = virtualPhaseWaiting) then
        let s := set_phase (admittedPhase s) s in
        s :: admitFrom (if isActive s then S active else active) maxNumSeqs r
      else s :: admitFrom active maxNumSeqs r
  end.

Definition admitVirtualSequences (seqs : list virtualTraceSequence) (maxNumSeqs : nat) : list virtualTraceSequence :=
  admitFrom (activeVirtualSequences seqs) maxNumSeqs seqs.

Definition finishVirtualPrefill (s : virtualTraceSequence) : virtualTraceSequence :=
  set_phase (if 1 <? outputTokensOf s then virtualPhaseDecode else virtualPhaseDone) s.

(** * One iteration *)

(** A decoding sequence without a forward left is done. *)
Definition retireDecode (s : virtualTraceSequence) : virtualTraceSequence :=
  if bool_decide (vs_phase s = virtualPhaseDecode) && (outputTokensOf s - 1 <=? vs_decodePosition s)
  then set_phase virtualPhaseDone s else s.

Definition decodeIndicesOf (seqs : list virtualTraceSequence) : list nat :=
  fst <$> filter (λ x, vs_phase x.2 = virtualPhaseDecode) (enumerate seqs).

(** The workload of a forward: counts and, for distributed routing, assignments. *)
Record workload := mkWorkload { wl_counts : moeLayerCounts; wl_assignments : option assignmentTable }.

Definition addDecode (m : moeParams) (seqs : list virtualTraceSequence) (w : workload) (index : nat) : option workload :=
  s ← seqs !! index;
  let p := tp_data (vs_prompt s) in
  counts ← addTraceDecodePosition m p (vs_decodePosition s) (wl_counts w);
  match wl_assignments w with
  | None => Some (mkWorkload counts None)
  | Some t => t ← addVirtualDecodeProfileAssignments m p (vs_decodePosition s) (Z.of_nat index) t; Some (mkWorkload counts (Some t))
  end.

(** The prefill loop: the sequences, the workload, the budget left, the tokens taken and
    the indices touched. *)
Record prefillState := mkPrefill {
  pf_seqs : list virtualTraceSequence; pf_work : workload; pf_budget : nat; pf_tokens : nat; pf_touched : list nat }.

Definition addPrefill (m : moeParams) (st : prefillState) (index : nat) : option prefillState :=
  if pf_budget st =? 0 then Some st
  else
    s ← pf_seqs st !! index;
    if negb (bool_decide (vs_phase s = virtualPhasePrefill)) then Some st
    else if inputTokensOf s <=? vs_prefillPos s then
      Some (mkPrefill (<[index := finishVirtualPrefill s]> (pf_seqs st)) (pf_work st) (pf_budget st) (pf_tokens st) (pf_touched st))
    else
      let take := min (inputTokensOf s - vs_prefillPos s) (pf_budget st) in
      let p := tp_data (vs_prompt s) in
      let start := Z.of_nat (vs_prefillPos s) in
      let stop := Z.of_nat (vs_prefillPos s + take) in
      counts ← addTracePrefillRange m p start stop (wl_counts (pf_work st));
      w ← match wl_assignments (pf_work st) with
          | None => Some (mkWorkload counts None)
          | Some t => t ← addVirtualPrefillProfileAssignments m p start stop (Z.of_nat index) t; Some (mkWorkload counts (Some t))
          end;
      Some (mkPrefill (<[index := set_prefillPos (vs_prefillPos s + take) s]> (pf_seqs st)) w (pf_budget st - take)
              (pf_tokens st + take) (pf_touched st ++ [index])).

(** After the forward: a decoding sequence moves to its next position. *)
Definition advanceDecode (s : virtualTraceSequence) : virtualTraceSequence :=
  let s := set_decodePosition (S (vs_decodePosition s)) s in
  if outputTokensOf s - 1 <=? vs_decodePosition s then set_phase virtualPhaseDone s else s.

Definition advancePrefill (s : virtualTraceSequence) : virtualTraceSequence :=
  if inputTokensOf s <=? vs_prefillPos s then finishVirtualPrefill s else s.

(** The fields that are set before the first forward. *)
Record virtualTotals := mkTotals { vt_Model : string; vt_Router : string; vt_Requests : Z; vt_PromptTokens : Z; vt_OutputTokens : Z }.

Record MoETraceVirtualResult := mkResult {
  vr_totals : virtualTotals; vr_OutputTokensPerSecond : f64; vr_DecodeForwards : Z; vr_Steps : Z; vr_PrefillSteps : Z; vr_DecodeOnlySteps : Z; vr_MixedSteps : Z;
  vr_ModeledTime : Z; vr_ModeledPrefillTime : Z; vr_ModeledDecodeOnlyTime : Z }.

Definition emptyResult (t : virtualTotals) : MoETraceVirtualResult := mkResult t f_zero 0 0 0 0 0 0 0 0.

(** The accounting of one forward. *)
Definition recordForward (decodes prefillTokens : nat) (modeled : Z) (r : MoETraceVirtualResult) : MoETraceVirtualResult :=
  let time := i64 (vr_ModeledTime r + modeled) in
  let steps := (vr_Steps r + 1)%Z in
  let forwards := (vr_DecodeForwards r + Z.of_nat decodes)%Z in
  if (0 <? prefillTokens) && (0 <? decodes) then
    mkResult (vr_totals r) (vr_OutputTokensPerSecond r) forwards steps (vr_PrefillSteps r) (vr_DecodeOnlySteps r) (vr_MixedSteps r + 1) time
      (i64 (vr_ModeledPrefillTime r + modeled)) (vr_ModeledDecodeOnlyTime r)
  else if 0 <? prefillTokens then
    mkResult (vr_totals r) (vr_OutputTokensPerSecond r) forwards steps (vr_PrefillSteps r + 1) (vr_DecodeOnlySteps r) (vr_MixedSteps r) time
      (i64 (vr_ModeledPrefillTime r + modeled)) (vr_ModeledDecodeOnlyTime r)
  else
    mkResult (vr_totals r) (vr_OutputTokensPerSecond r) forwards steps (vr_PrefillSteps r) (vr_DecodeOnlySteps r + 1) (vr_MixedSteps r) time
      (vr_ModeledPrefillTime r) (i64 (vr_ModeledDecodeOnlyTime r + modeled)).

Inductive virtualError :=
| ErrNoConfig | ErrNoTracePath | ErrVirtualConfig (e : string) | ErrLoadTrace (e : storeError)
| ErrFidelity (e : fidelityError + placementError) | ErrMaxNumSeqs (maxNumSeqs budget : Z) | ErrDecodeBudget (decodes budget : nat) | ErrNoProgress.

(** The state of the loop; [vl_forwards] is the history of the counts given to the cost
    model. *)
Record loopState := mkLoop {
  vl_seqs : list virtualTraceSequence; vl_sim : moeSimulator; vl_result : MoETraceVirtualResult; vl_forwards : list moeLayerCounts }.

(** An iteration ends the run with an error, or goes on. *)
Definition virtualStep (forward : moeLayerCounts → assignmentTable → moeSimulator → option (moeSimulator * Z))
    (budget maxNumSeqs : nat) (st : loopState) : option (result virtualError loopState) :=
  let m := params (vl_sim st) in
  let seqs := retireDecode <$> admitVirtualSequences (vl_seqs st) maxNumSeqs in
  let decodeIndices := decodeIndicesOf seqs in
  if budget <? length decodeIndices then Some (Err (ErrDecodeBudget (length decodeIndices) budget))
  else
    w ← foldM (addDecode m seqs)
          (mkWorkload (newMoELayerCounts (numLayers m) (numExperts m))
             (if useDistributedRouting m then Some (replicate (numLayers m) []) else None)) decodeIndices;
    pf ← foldM (addPrefill m) (mkPrefill seqs w (budget - length decodeIndices) 0 []) (seq 0 (length seqs));
    if length decodeIndices + pf_tokens pf =? 0 then
      let again := admitVirtualSequences (pf_seqs pf) maxNumSeqs in
      if activeVirtualSequences again =? activeVirtualSequences (pf_seqs pf) then Some (Err ErrNoProgress)
      else Some (Ok (mkLoop again (vl_sim st) (vl_result st) (vl_forwards st)))
    else
      x ← forward (wl_counts (pf_work pf)) (default [] (wl_assignments (pf_work pf))) (vl_sim st);
      let '(sim, modeled) := x : moeSimulator * Z in
      let seqs := foldl (λ seqs index, alter advanceDecode index seqs) (pf_seqs pf) decodeIndices in
      let seqs := foldl (λ seqs index, alter advancePrefill index seqs) seqs (pf_touched pf) in
      Some (Ok (mkLoop seqs sim (recordForward (length decodeIndices) (pf_tokens pf) modeled (vl_result st))
                  (vl_forwards st ++ [wl_counts (pf_work pf)]))).

Inductive outcome (A : Type) := Finished (a : A) | Failed (e : virtualError) | Panicked | OutOfFuel.
Arguments Finished {A} a.
Arguments Failed {A} e.
Arguments Panicked {A}.
Arguments OutOfFuel {A}.

(** [for hasVirtualWork(sequences) { ... }]. *)
Fixpoint virtualLoop (forward : moeLayerCounts → assignmentTable → moeSimulator → option (moeSimulator * Z))
    (budget maxNumSeqs fuel : nat) (st : loopState) : outcome loopState :=
  if hasVirtualWork (vl_seqs st) then
    match fuel with
    | 0 => OutOfFuel
    | S fuel =>
        match virtualStep forward budget maxNumSeqs st with
        | None => Panicked
        | Some (Err e) => Failed e
        | Some (Ok st) => virtualLoop forward budget maxNumSeqs fuel st
        end
    end
  else Finished st.

(** * The benchmark *)

Definition validateVirtualMoEConfig (c : Configuration) : result string unit :=
  if negb (EnableMoE c) then Err "virtual MoE trace benchmark requires MoE simulation"%string
  else if ((MoEExpertParallelSize c <? 1) || (MoENumExperts c <? 1) || (MoENumLayers c <? 1))%Z
  then Err "EP size, expert count, and MoE layer count must be positive"%string
  else if ((MoEPhysicalExpertSlots c <? MoENumExperts c) || (i64 (MoENumExperts c * MoEExpertParallelSize c) <? MoEPhysicalExpertSlots c))%Z
  then Err "physical expert slots are outside the valid replica range"%string
  else if negb (Z.rem (MoEPhysicalExpertSlots c) (MoEExpertParallelSize c) =? 0)%Z
  then Err "physical expert slots must be divisible by expert parallel size"%string
  else if ((MoETopK c <? 1) || (MoENumExperts c <? MoETopK c))%Z then Err "top-k must be between one and the logical expert count"%string
  else if negb (bool_decide (MoERouter c = MoERouterSplit)) && negb (bool_decide (MoERouter c = MoERouterConcentrate))
       && negb (bool_decide (MoERouter c = MoERouterHeuristic)) then Err "unknown MoE router"%string
  else if ((MoEHiddenSize c <? 1) || (MoEIntermediateSize c <? 1) || (MoEBytesPerElement c <? 1))%Z
  then Err "MoE dimensions and bytes per element must be positive"%string
  else if fle (MoEGPUFlops c) f_zero || fle (MoEGPUMemoryBandwidth c) f_zero then Err "GPU FLOPS and memory bandwidth must be positive"%string
  else if (1 <? MoEExpertParallelSize c)%Z && fle (MoEInterconnectBandwidth c) f_zero
  then Err "interconnect bandwidth must be positive for multi-GPU EP"%string
  else Ok tt.

(** [Copies] repetitions of the prompts, all waiting. *)
Definition virtualSequences (copies : nat) (ps : list moeTracePrompt) : list virtualTraceSequence :=
  concat (replicate copies ((λ p, mkSeq p virtualPhaseWaiting 0 0) <$> ps)).

(** The totals of the sequences. *)
Definition sequenceTotals (model router : string) (seqs : list virtualTraceSequence) : virtualTotals :=
  mkTotals model router (Z.of_nat (length seqs)) (Z.of_nat (sum_list (inputTokensOf <$> seqs))) (Z.of_nat (sum_list (outputTokensOf <$> seqs))).

(** The throughput, when any time was modelled. *)
Definition finishResult (r : MoETraceVirtualResult) : MoETraceVirtualResult :=
  if (0 <? vr_ModeledTime r)%Z
  then mkResult (vr_totals r) (fdiv (f_of_Z (vt_OutputTokens (vr_totals r))) (Seconds (vr_ModeledTime r))) (vr_DecodeForwards r) (vr_Steps r)
         (vr_PrefillSteps r) (vr_DecodeOnlySteps r) (vr_MixedSteps r) (vr_ModeledTime r) (vr_ModeledPrefillTime r) (vr_ModeledDecodeOnlyTime r)
  else r.

(** The tokens a sequence still has to contribute. *)
Definition seqWork (s : virtualTraceSequence) : nat :=
  match vs_phase s with
  | virtualPhaseWaiting | virtualPhasePrefill => (inputTokensOf s - vs_prefillPos s) + (outputTokensOf s - 1 - vs_decodePosition s)
  | virtualPhaseDecode => outputTokensOf s - 1 - vs_decodePosition s
  | virtualPhaseDone => 0
  end.

Definition totalWork (seqs : list virtualTraceSequence) : nat := sum_list (seqWork <$> seqs).

Record virtualOptions := mkOptions { vo_TokenBudget : Z; vo_MaxNumSeqs : Z; vo_Copies : Z }.

(** The effective budget: the option, the batch size of the fidelity options, the default. *)
Definition effectiveBudget (o : virtualOptions) (f : traceFidelityConfig) : Z :=
  let budget := if (vo_TokenBudget o <=? 0)%Z then prefillBatchTokens f else vo_TokenBudget o in
  if (budget <=? 0)%Z then defaultTracePrefillBatchTokens else budget.

Definition effectiveSeqs (o : virtualOptions) : Z := if (vo_MaxNumSeqs o <=? 0)%Z then 32%Z else vo_MaxNumSeqs o.
Definition effectiveCopies (o : virtualOptions) : Z := if (vo_Copies o <=? 0)%Z then 1%Z else vo_Copies o.

(** The forward pass of the benchmark: router time is not counted. *)
Definition virtualForward (iter : nat → nat → gmap nat f64 → list (nat * f64)) (f : traceFidelityConfig)
    (counts : moeLayerCounts) (assignments : assignmentTable) (s : moeSimulator) : option (moeSimulator * Z) :=
  x ← traceModelExecutionForLayerCounts iter (λ _, mkTimes 0 [] 0) f counts assignments s;
  Some (x.1, me_duration x.2).

(** [RunMoETraceVirtualBenchmark] with a configuration and a readable trace file; the fuel
    is the total work plus one iteration, which the theorems show to be enough. *)
Definition RunMoETraceVirtualBenchmark (Pow : f64 → f64 → f64) (unmarshal : bytes → option Metadata)
    (iter : nat → nat → gmap nat f64 → list (nat * f64)) (env : fidelityEnv) (placement : option fixedPlacementFile)
    (model : string) (c : Configuration) (file : bytes) (o : virtualOptions) : outcome MoETraceVirtualResult :=
  match validateVirtualMoEConfig c with
  | Err e => Failed (ErrVirtualConfig e)
  | Ok _ =>
      match loadMoETraceStore unmarshal file model c with
      | None => Panicked
      | Some (Err e) => Failed (ErrLoadTrace e)
      | Some (Ok store) =>
          match newMoESimulator Pow c with
          | None => Panicked
          | Some sim =>
              match configureTraceFidelity model c env placement false sim with
              | Err e => Failed (ErrFidelity e)
              | Ok (f, sim) =>
                  let budget := effectiveBudget o f in
                  let maxNumSeqs := effectiveSeqs o in
                  if (budget <? maxNumSeqs)%Z then Failed (ErrMaxNumSeqs maxNumSeqs budget)
                  else
                    let seqs := virtualSequences (Z.to_nat (effectiveCopies o)) (st_prompts store) in
                    match virtualLoop (virtualForward iter f) (Z.to_nat budget) (Z.to_nat maxNumSeqs) (S (totalWork seqs))
                            (mkLoop seqs sim (emptyResult (sequenceTotals (st_model store) (MoERouter c) seqs)) []) with
                    | Finished st => Finished (finishResult (vl_result st))
                    | Failed e => Failed e
                    | Panicked => Panicked
                    | OutOfFuel => OutOfFuel
                    end
              end
          end
      end
  end.

End TraceVirtual.
