(* ===== verification/TraceVirtualInv.v ===== *)
(** The invariant of the offline trace scheduler and what each phase of an
    iteration does to it. *)

From S2P Require Import Prelude Sums GoFloat GoFloatInt TraceFormat TraceFile TraceReader Moe TraceWorkload TraceWorkloadProps TraceFidelity TraceExecution TraceVirtual.
Import TraceFormat TraceFile Moe TraceWorkload TraceWorkloadProps TraceFidelity TraceExecution TraceVirtual.
Open Scope nat_scope.

Module TraceVirtualInv.

(** * The invariant *)

(** The prompt of a sequence fits the simulator. *)
Definition PromptOk (m : moeParams) (s : virtualTraceSequence) : Prop :=
  PromptShape m (tp_data (vs_prompt s)) ∧ RoutesValid m (tp_data (vs_prompt s)).

(** A sequence is where its phase says. *)
Definition PhaseOk (s : virtualTraceSequence) : Prop :=
  match vs_phase s with
  | virtualPhaseWaiting => vs_prefillPos s = 0 ∧ vs_decodePosition s = 0
  | virtualPhasePrefill => vs_prefillPos s < inputTokensOf s ∧ vs_decodePosition s = 0
  | virtualPhaseDecode => vs_prefillPos s = inputTokensOf s ∧ vs_decodePosition s < outputTokensOf s - 1
  | virtualPhaseDone => vs_prefillPos s = inputTokensOf s ∧ vs_decodePosition s = outputTokensOf s - 1
  end.

(** A prompt without a token to process. *)
Definition idle (s : virtualTraceSequence) : Prop := inputTokensOf s = 0 ∧ outputTokensOf s ≤ 1.

(** The waiting sequences are the last ones. *)
Definition WaitingSuffix (seqs : list virtualTraceSequence) : Prop :=
  ∀ i j s t, i < j → seqs !! i = Some s → seqs !! j = Some t → vs_phase s = virtualPhaseWaiting → vs_phase t = virtualPhaseWaiting.

Record SeqsInv (m : moeParams) (maxNumSeqs : nat) (seqs : list virtualTraceSequence) : Prop := mkSeqsInv {
  si_prompt : ∀ s, s ∈ seqs → PromptOk m s;
  si_phase : ∀ s, s ∈ seqs → PhaseOk s;
  si_active : activeVirtualSequences seqs ≤ maxNumSeqs;
  si_suffix : WaitingSuffix seqs }.

(** The uses a sequence has contributed so far. *)
Definition seqEvents (m : moeParams) (s : virtualTraceSequence) : list event :=
  prefillEvents m (tp_data (vs_prompt s)) (seq 0 (vs_prefillPos s)) ++
  concat (decodeEvents m (tp_data (vs_prompt s)) <$> seq 0 (vs_decodePosition s)).

Definition contributed (m : moeParams) (seqs : list virtualTraceSequence) (layer expert : nat) : Z :=
  total (λ s, uses (seqEvents m s) layer expert) seqs.

(** Everything a prompt has to contribute: all input tokens and all decode forwards. *)
Definition promptEvents (m : moeParams) (p : PromptData) : list event :=
  prefillEvents m p (seq 0 (length (pd_InputTokenIDs p))) ++
  concat (decodeEvents m p <$> seq 0 (length (pd_DecodeTokenIDs p) - 1)).

(** * Admission *)

Lemma active_cons s l : activeVirtualSequences (s :: l) = (if isActive s then 1 else 0) + activeVirtualSequences l.
Proof. unfold activeVirtualSequences. rewrite filter_cons. case_decide as H; destruct (isActive s); try done. Qed.

Lemma admitted_phase_ok s : PhaseOk s → vs_phase s = virtualPhaseWaiting → PhaseOk (set_phase (admittedPhase s) s).
Proof.
  unfold PhaseOk, admittedPhase. intros H E. rewrite E in H. destruct H as [H1 H2]. cbn [vs_phase set_phase].
  destruct (Nat.ltb_spec 0 (inputTokensOf s)); [cbn; change (inputTokensOf (set_phase _ s)) with (inputTokensOf s); lia|].
  destruct (Nat.ltb_spec 1 (outputTokensOf s)); cbn; change (inputTokensOf (set_phase _ s)) with (inputTokensOf s);
    change (outputTokensOf (set_phase _ s)) with (outputTokensOf s); lia.
Qed.

(** A sequence after admission: unchanged, or it was waiting and got its first phase. *)
Definition Entered (s s' : virtualTraceSequence) : Prop :=
  s' = s ∨ (vs_phase s = virtualPhaseWaiting ∧ s' = set_phase (admittedPhase s) s).

Lemma admitFrom_spec n maxNumSeqs seqs : Forall2 Entered seqs (admitFrom n maxNumSeqs seqs).
Proof.
  revert n. induction seqs as [|s seqs IH]; intros n; cbn [admitFrom]; [constructor|].
  destruct (maxNumSeqs <=? n).
  - constructor; [by left|]. clear. induction seqs; constructor; [by left|done].
  - case_bool_decide; constructor; [by right|apply IH|by left|apply IH].
Qed.

Lemma admitFrom_active n maxNumSeqs seqs :
  n ≤ maxNumSeqs →
  n + activeVirtualSequences (admitFrom n maxNumSeqs seqs) ≤ maxNumSeqs + activeVirtualSequences seqs ∧
  activeVirtualSequences seqs ≤ activeVirtualSequences (admitFrom n maxNumSeqs seqs) ∧
  (n + activeVirtualSequences (admitFrom n maxNumSeqs seqs) = maxNumSeqs + activeVirtualSequences seqs ∨
   ∀ s, s ∈ admitFrom n maxNumSeqs seqs → vs_phase s ≠ virtualPhaseWaiting).
Proof.
  revert n. induction seqs as [|s seqs IH]; intros n Hn; cbn [admitFrom].
  - split_and!; [lia|lia|right]. intros s Hs. by apply not_elem_of_nil in Hs.
  - destruct (Nat.leb_spec maxNumSeqs n); [split_and!; [lia|lia|left; lia]|].
    case_bool_decide as Hw.
    + assert (isActive s = false) as Hs by (unfold isActive; by rewrite Hw). rewrite !active_cons, Hs.
      set (s' := set_phase (admittedPhase s) s). destruct (IH (if isActive s' then S n else n)) as (H1 & H2 & H3); [destruct (isActive s'); lia|].
      destruct (isActive s') eqn:Ea; (split_and!; [lia|lia|]).
      * destruct H3 as [H3|H3]; [left; lia|right]. intros t [->|Ht]%elem_of_cons; [|by apply H3]. intros E. unfold isActive in Ea. by rewrite E in Ea.
      * destruct H3 as [H3|H3]; [left; lia|right]. intros t [->|Ht]%elem_of_cons; [|by apply H3].
        unfold s', admittedPhase. cbn. repeat case_match; done.
    + rewrite !active_cons. destruct (IH n Hn) as (H1 & H2 & H3). split_and!; [lia|lia|].
      destruct H3 as [H3|H3]; [left; lia|right]. intros t [->|Ht]%elem_of_cons; [done|by apply H3].
Qed.

Lemma WaitingSuffix_cons s l :
  WaitingSuffix (s :: l) ↔ (vs_phase s = virtualPhaseWaiting → ∀ t, t ∈ l → vs_phase t = virtualPhaseWaiting) ∧ WaitingSuffix l.
Proof.
  split.
  - intros H. split.
    + intros Hs t [j Hj]%list_elem_of_lookup. by apply (H 0 (S j) s t); [lia| | |].
    + intros i j x y Hij Hx Hy. by apply (H (S i) (S j)); [lia| |].
  - intros [H1 H2] [|i] [|j] x y Hij Hx Hy Hw; [lia| |lia|].
    + injection Hx as <-. cbn in Hy. apply H1; [done|by eapply list_elem_of_lookup_2].
    + by apply (H2 i j x y); [lia| | |].
Qed.

Lemma admitFrom_suffix n maxNumSeqs seqs : WaitingSuffix seqs → WaitingSuffix (admitFrom n maxNumSeqs seqs).
Proof.
  revert n. induction seqs as [|s seqs IH]; intros n H; cbn [admitFrom]; [done|]. destruct (maxNumSeqs <=? n); [done|].
  apply WaitingSuffix_cons in H as [H1 H2]. case_bool_decide as Hw; apply WaitingSuffix_cons; (split; [|by apply IH]).
  - cbn [vs_phase set_phase]. unfold admittedPhase. repeat case_match; done.
  - done.
Qed.

Lemma admit_seqWork s : PhaseOk s → vs_phase s = virtualPhaseWaiting → seqWork (set_phase (admittedPhase s) s) = seqWork s.
Proof.
  intros H E. unfold PhaseOk in H. rewrite E in H. destruct H as [H1 H2]. unfold seqWork at 2. rewrite E, H1, H2.
  unfold seqWork, admittedPhase. cbn [vs_phase set_phase vs_prefillPos vs_decodePosition]. rewrite H1, H2.
  change (inputTokensOf (set_phase _ s)) with (inputTokensOf s). change (outputTokensOf (set_phase _ s)) with (outputTokensOf s).
  destruct (Nat.ltb_spec 0 (inputTokensOf s)); [done|]. destruct (Nat.ltb_spec 1 (outputTokensOf s)); lia.
Qed.

Lemma Forall2_elem {A B} (R : A → B → Prop) l k y : Forall2 R l k → y ∈ k → ∃ x, x ∈ l ∧ R x y.
Proof.
  intros H [i Hi]%list_elem_of_lookup. destruct (Forall2_lookup_r _ _ _ _ _ H Hi) as (x & Hx & HR). exists x. split; [by eapply list_elem_of_lookup_2|done].
Qed.

Lemma Entered_total (F : virtualTraceSequence → Z) l k :
  (∀ s, s ∈ l → vs_phase s = virtualPhaseWaiting → F (set_phase (admittedPhase s) s) = F s) → Forall2 Entered l k → total F k = total F l.
Proof.
  intros H HF. revert H. induction HF as [|s s' l k Hs HF IH]; intros H; [done|]. rewrite !total_cons, IH by (intros; apply H; [by right|done]).
  destruct Hs as [->|[Hw ->]]; [done|]. by rewrite H by (left || done).
Qed.

Lemma totalWork_total seqs : Z.of_nat (totalWork seqs) = total (λ s, Z.of_nat (seqWork s)) seqs.
Proof.
  unfold totalWork. induction seqs as [|s seqs IH]; [done|]. rewrite total_cons. cbn [fmap list_fmap].
  change (sum_list (seqWork s :: ?x)) with (seqWork s + sum_list x). rewrite Nat2Z.inj_add, IH. done.
Qed.

(** Admission keeps the invariant, the contributions and the work; a sequence is active
    after it unless only idle ones were left. *)
Lemma admit_ok m maxNumSeqs seqs :
  SeqsInv m maxNumSeqs seqs → 0 < maxNumSeqs →
  let seqs' := admitVirtualSequences seqs maxNumSeqs in
  SeqsInv m maxNumSeqs seqs' ∧ length seqs' = length seqs ∧ totalWork seqs' = totalWork seqs ∧
  (∀ l e, contributed m seqs' l e = contributed m seqs l e) ∧ Forall2 Entered seqs seqs' ∧
  (activeVirtualSequences seqs' = 0 → ∀ s, s ∈ seqs' → vs_phase s = virtualPhaseDone).
Proof.
  intros [Hp Hph Hact Hsuf] Hmax. cbv zeta. unfold admitVirtualSequences. set (n := activeVirtualSequences seqs) in *.
  pose proof (admitFrom_spec n maxNumSeqs seqs) as HF. destruct (admitFrom_active n maxNumSeqs seqs Hact) as (H1 & H2 & H3). fold n in H1, H2, H3.
  split_and!.
  - constructor.
    + intros s' Hs'. destruct (Forall2_elem _ _ _ _ HF Hs') as (s & Hs & [->|[_ ->]]); [by apply Hp|]. by specialize (Hp s Hs).
    + intros s' Hs'. destruct (Forall2_elem _ _ _ _ HF Hs') as (s & Hs & [->|[Hw ->]]); [by apply Hph|]. apply admitted_phase_ok; auto.
    + lia.
    + by apply admitFrom_suffix.
  - symmetry. by eapply Forall2_length.
  - apply Nat2Z.inj. rewrite !totalWork_total. apply (Entered_total _ seqs); [|done]. intros s Hs Hw. f_equal. apply admit_seqWork; auto.
  - intros l e. apply (Entered_total _ seqs); [|done]. done.
  - done.
  - intros H0 s Hs. destruct H3 as [H3|H3]; [lia|]. specialize (H3 s Hs). destruct (vs_phase s) eqn:E; [done| | |done].
    + exfalso. assert (s ∈ filter (λ s, isActive s = true) (admitFrom n maxNumSeqs seqs)) as Hin.
      { apply list_elem_of_filter. split; [unfold isActive; by rewrite E|done]. }
      unfold activeVirtualSequences in H0. apply nil_length_inv in H0. rewrite H0 in Hin. by apply not_elem_of_nil in Hin.
    + exfalso. assert (s ∈ filter (λ s, isActive s = true) (admitFrom n maxNumSeqs seqs)) as Hin.
      { apply list_elem_of_filter. split; [unfold isActive; by rewrite E|done]. }
      unfold activeVirtualSequences in H0. apply nil_length_inv in H0. rewrite H0 in Hin. by apply not_elem_of_nil in Hin.
Qed.

(** * Decoding sequences *)

Lemma retireDecode_id s : PhaseOk s → retireDecode s = s.
Proof.
  unfold PhaseOk, retireDecode. intros H. case_bool_decide as E; [|done]. rewrite E in H. destruct (Nat.leb_spec (outputTokensOf s - 1) (vs_decodePosition s)); [lia|done].
Qed.

Lemma retire_all (seqs : list virtualTraceSequence) : (∀ s, s ∈ seqs → PhaseOk s) → retireDecode <$> seqs = seqs.
Proof.
  intros H. rewrite <- (list_fmap_id seqs) at 2. apply list_fmap_ext. intros i s Hs. apply retireDecode_id, H. by eapply list_elem_of_lookup_2.
Qed.

Lemma decodeIndices_elem seqs i : i ∈ decodeIndicesOf seqs ↔ ∃ s, seqs !! i = Some s ∧ vs_phase s = virtualPhaseDecode.
Proof.
  unfold decodeIndicesOf. rewrite list_elem_of_fmap. split.
  - intros ([j s] & -> & [Hd Hj]%list_elem_of_filter). apply elem_of_enumerate in Hj. by exists s.
  - intros (s & Hs & Hd). exists (i, s). split; [done|]. apply list_elem_of_filter. split; [done|]. by apply elem_of_enumerate.
Qed.

Lemma enumerate_nodup {A} (l : list A) : NoDup (fst <$> enumerate l).
Proof. rewrite enumerate_fst. apply NoDup_seq. Qed.

Lemma NoDup_fmap_filter {A B} (f : A → B) (P : A → Prop) `{!∀ x, Decision (P x)} (l : list A) :
  NoDup (f <$> l) → NoDup (f <$> filter P l).
Proof.
  induction l as [|x l IH]; [done|]. cbn [fmap list_fmap]. intros [Hx Hl]%NoDup_cons. rewrite filter_cons. case_decide; [|by apply IH].
  cbn [fmap list_fmap]. apply NoDup_cons. split; [|by apply IH]. intros (y & E & [_ Hy]%list_elem_of_filter)%list_elem_of_fmap.
  apply Hx. rewrite E. by apply list_elem_of_fmap_2.
Qed.

Lemma decodeIndices_nodup seqs : NoDup (decodeIndicesOf seqs).
Proof. apply NoDup_fmap_filter, enumerate_nodup. Qed.

Lemma decodeIndices_active seqs : length (decodeIndicesOf seqs) ≤ activeVirtualSequences seqs.
Proof.
  unfold decodeIndicesOf, activeVirtualSequences, enumerate. rewrite length_fmap.
  assert (∀ (f : nat → virtualTraceSequence → nat * virtualTraceSequence), (∀ i s, (f i s).2 = s) →
    length (filter (λ x, vs_phase x.2 = virtualPhaseDecode) (imap f seqs)) ≤ length (filter (λ s, isActive s = true) seqs)) as H.
  { induction seqs as [|s seqs IH]; intros f Hf; [done|]. rewrite imap_cons, !filter_cons, Hf. specialize (IH (f ∘ S) ltac:(intros; apply Hf)).
    repeat case_decide; cbn [length]; try lia. exfalso. match goal with E : vs_phase s = _ |- _ => unfold isActive in *; rewrite E in * end. done. }
  by apply (H pair).
Qed.

(** * The workload of a forward *)

(** The assignment table has a row per layer, where there is one. *)
Definition TableOk (m : moeParams) (t : option assignmentTable) : Prop :=
  match t with Some t => length t = numLayers m | None => True end.

(** A loop over rows whose body keeps the number of rows. *)
Lemma foldM_rows {A} (f : assignmentTable → A → option assignmentTable) (l : list A) (t : assignmentTable) n :
  length t = n → (∀ x (t1 : assignmentTable), x ∈ l → length t1 = n → ∃ t2, f t1 x = Some t2 ∧ length t2 = n) →
  ∃ t', foldM f t l = Some t' ∧ length t' = n.
Proof.
  intros Ht H. destruct (foldM_inv f (λ _ t', length t' = n) l t) as (t' & E & Hl); [done| |by exists t'].
  intros done x rest t1 Eq Ht1. apply H; [|done]. rewrite Eq. apply elem_of_middle.
Qed.

Lemma appendAssignments_ok routes base k mk layer (t : assignmentTable) n :
  length t = n → base + k ≤ length routes → layer < n →
  ∃ t', appendAssignments routes base k mk layer t = Some t' ∧ length t' = n.
Proof.
  intros Ht Hb Hl. apply foldM_rows; [done|]. intros x t1 Hx%elem_of_seq Ht1.
  destruct (lookup_lt_is_Some_2 routes (base + x)) as [e ->]; [lia|]. destruct (lookup_lt_is_Some_2 t1 layer) as [row ->]; [lia|].
  cbn [mbind option_bind]. eexists. split; [done|]. by rewrite length_insert.
Qed.

Lemma decodeAssignments_ok m p position id t :
  PromptShape m p → 0 < numGPUs m → position < length (pd_DecodeTokenIDs p) → length t = numLayers m →
  ∃ t', addVirtualDecodeProfileAssignments m p position id t = Some t' ∧ length t' = numLayers m.
Proof.
  intros Hs Hg Hp Ht. unfold addVirtualDecodeProfileAssignments, defaultSource.
  destruct (Nat.eqb_spec (numGPUs m) 0); [lia|]. cbn [mbind option_bind].
  eapply foldM_rows; [done|]. intros layer t1 Hl%elem_of_seq Ht1. apply appendAssignments_ok; [done| |lia].
  apply decode_range_in; [done|lia|done].
Qed.

Lemma prefillAssignments_ok m p a b id t :
  PromptShape m p → 0 < numGPUs m → (0 ≤ a)%Z → (b ≤ Z.of_nat (length (pd_InputTokenIDs p)))%Z → length t = numLayers m →
  ∃ t', addVirtualPrefillProfileAssignments m p a b id t = Some t' ∧ length t' = numLayers m.
Proof.
  intros Hs Hg Ha Hb Ht. unfold addVirtualPrefillProfileAssignments, defaultSource, clampStart, clampEnd.
  destruct (Nat.eqb_spec (numGPUs m) 0); [lia|]. cbn [mbind option_bind].
  destruct (Z.ltb_spec a 0); [lia|]. destruct (Z.ltb_spec (Z.of_nat (length (pd_InputTokenIDs p))) b); [lia|].
  eapply foldM_rows; [done|]. intros layer t1 Hl%elem_of_seq Ht1. eapply foldM_rows; [done|].
  intros position t2 Hp%positions_elem Ht2. apply appendAssignments_ok; [done| |lia].
  apply prefill_range_in; [done|lia|lia].
Qed.

(** The events of one token. *)
Definition perToken (m : moeParams) : Z := Z.of_nat (numLayers m * Z.to_nat (topK m)).

Lemma uses_bound evs l e : (0 ≤ uses evs l e ≤ Z.of_nat (length evs))%Z.
Proof. unfold uses. pose proof (length_filter (λ x, x = (l, Z.of_nat e)) evs). lia. Qed.

(** The uses of the next decode position of a sequence. *)
Definition nextDecode (m : moeParams) (l e : nat) (s : virtualTraceSequence) : Z :=
  uses (decodeEvents m (tp_data (vs_prompt s)) (vs_decodePosition s)) l e.

Definition atIndex {A} (seqs : list A) (F : A → Z) (i : nat) : Z := match seqs !! i with Some s => F s | None => 0%Z end.

Lemma addDecode_one m seqs w i s f :
  0 < numGPUs m → TableOk m (wl_assignments w) → wl_counts w = tableOf (numLayers m) (numExperts m) f →
  seqs !! i = Some s → PromptOk m s → vs_decodePosition s < outputTokensOf s →
  (∀ l e, 0 ≤ f l e ∧ f l e + perToken m < 2 ^ 53)%Z →
  ∃ w', addDecode m seqs w i = Some w' ∧ TableOk m (wl_assignments w') ∧
    wl_counts w' = tableOf (numLayers m) (numExperts m) (λ l e, f l e + nextDecode m l e s)%Z.
Proof.
  intros Hg Ht Hc Hs [Hsh Hv] Hp Hb. unfold addDecode. rewrite Hs. cbn [mbind option_bind].
  rewrite Hc, addTraceDecodePosition_events, count_events; [|by apply decodeEvents_ok| |done|done].
  2: { intros l e. rewrite decodeEvents_length by done. apply Hb. }
  cbn [mbind option_bind]. destruct (wl_assignments w) as [t|]; [|by eexists].
  destruct (decodeAssignments_ok m (tp_data (vs_prompt s)) (vs_decodePosition s) (Z.of_nat i) t) as (t' & -> & Hl); [done..|].
  by eexists.
Qed.

Lemma addDecode_fold m seqs idx f w :
  0 < numGPUs m → TableOk m (wl_assignments w) → wl_counts w = tableOf (numLayers m) (numExperts m) f →
  (∀ i, i ∈ idx → ∃ s, seqs !! i = Some s ∧ PromptOk m s ∧ vs_decodePosition s < outputTokensOf s) →
  (∀ l e, 0 ≤ f l e ∧ f l e + Z.of_nat (length idx) * perToken m < 2 ^ 53)%Z →
  ∃ w', foldM (addDecode m seqs) w idx = Some w' ∧ TableOk m (wl_assignments w') ∧
    wl_counts w' = tableOf (numLayers m) (numExperts m) (λ l e, f l e + total (atIndex seqs (nextDecode m l e)) idx)%Z.
Proof.
  intros Hg. assert (0 ≤ perToken m)%Z as Hpt by (unfold perToken; lia). revert f w. induction idx as [|i idx IH]; intros f w Ht Hc Hi Hb.
  - exists w. split_and!; [done|done|]. rewrite Hc. apply tableOf_ext. intros. symmetry. apply Z.add_0_r.
  - destruct (Hi i ltac:(left)) as (s & Hs & Hok & Hp). cbn [foldM].
    destruct (addDecode_one m seqs w i s f) as (w1 & -> & Ht1 & Hc1); [done..| |].
    { intros l e. destruct (Hb l e) as [H1 H2]. cbn [length] in H2. nia. }
    destruct (IH (λ l e, f l e + nextDecode m l e s)%Z w1 Ht1 Hc1) as (w2 & E & Ht2 & Hc2).
    + intros j Hj. apply Hi. by right.
    + intros l e. destruct (Hb l e) as [H1 H2]. destruct Hok as [Hsh _].
      pose proof (uses_bound (decodeEvents m (tp_data (vs_prompt s)) (vs_decodePosition s)) l e) as Hu.
      rewrite decodeEvents_length in Hu by done. fold (perToken m) in Hu. cbn [length] in H2. unfold nextDecode. nia.
    + exists w2. split_and!; [done|done|]. rewrite Hc2. apply tableOf_ext. intros l e _ _. rewrite total_cons.
      unfold atIndex at 2. rewrite Hs. lia.
Qed.

(** * The prefill loop *)

(** What the loop does to one sequence: nothing, or a chunk of its prompt. *)
Definition Chunked (s s' : virtualTraceSequence) : Prop :=
  s' = s ∨ (vs_phase s = virtualPhasePrefill ∧ ∃ n, 0 < n ∧ vs_prefillPos s + n ≤ inputTokensOf s ∧ s' = set_prefillPos (vs_prefillPos s + n) s).

Section PrefillLoop.
Variable m : moeParams.
Variable seqs0 : list virtualTraceSequence.
Variable budget0 : nat.
Variable f0 : nat → nat → Z.
Hypothesis gpus_pos : 0 < numGPUs m.
Hypothesis prompts_ok : ∀ s, s ∈ seqs0 → PromptOk m s.
Hypothesis phases_ok : ∀ s, s ∈ seqs0 → PhaseOk s.
Hypothesis counts_small : ∀ l e, (0 ≤ f0 l e ∧ f0 l e + Z.of_nat budget0 * perToken m < 2 ^ 53)%Z.

(** After the indices [processed]. *)
Record PfInv (processed : list nat) (st : prefillState) : Prop := mkPfInv {
  pi_seqs : Forall2 Chunked seqs0 (pf_seqs st);
  pi_rest : ∀ j, j ∉ processed → pf_seqs st !! j = seqs0 !! j;
  pi_budget : pf_budget st + pf_tokens st = budget0;
  pi_table : TableOk m (wl_assignments (pf_work st));
  pi_counts : wl_counts (pf_work st) =
    tableOf (numLayers m) (numExperts m) (λ l e, f0 l e + (contributed m (pf_seqs st) l e - contributed m seqs0 l e))%Z;
  pi_bound : ∀ l e, (0 ≤ contributed m (pf_seqs st) l e - contributed m seqs0 l e ≤ Z.of_nat (pf_tokens st) * perToken m)%Z;
  pi_work : totalWork (pf_seqs st) + pf_tokens st = totalWork seqs0;
  pi_touched : NoDup (pf_touched st) ∧ (∀ j, j ∈ pf_touched st → j ∈ processed);
  pi_untouched : ∀ j, j ∉ pf_touched st → pf_seqs st !! j = seqs0 !! j;
  pi_phase : ∀ j s, j ∈ pf_touched st → seqs0 !! j = Some s → vs_phase s = virtualPhasePrefill;
  pi_idle : pf_tokens st = 0 → 0 < budget0 → ∀ j s, j ∈ processed → seqs0 !! j = Some s → vs_phase s ≠ virtualPhasePrefill }.

Lemma PfInv_start w :
  TableOk m (wl_assignments w) → wl_counts w = tableOf (numLayers m) (numExperts m) f0 →
  PfInv [] (mkPrefill seqs0 w budget0 0 []).
Proof.
  intros Ht Hc. constructor; cbn [pf_seqs pf_work pf_budget pf_tokens pf_touched]; try done; try lia.
  - clear. induction seqs0; constructor; [by left|done].
  - rewrite Hc. apply tableOf_ext. intros. lia.
  - split; [constructor|]. intros j Hj. by apply not_elem_of_nil in Hj.
  - intros j s Hj. by apply not_elem_of_nil in Hj.
  - intros _ _ j s Hj. by apply not_elem_of_nil in Hj.
Qed.

(** A chunk of [n] tokens moves the contribution of its sequence. *)
Lemma chunk_uses s n l e :
  (uses (seqEvents m (set_prefillPos (vs_prefillPos s + n) s)) l e - uses (seqEvents m s) l e =
   uses (prefillEvents m (tp_data (vs_prompt s)) (positions (Z.of_nat (vs_prefillPos s)) (Z.of_nat (vs_prefillPos s + n)))) l e)%Z.
Proof.
  unfold seqEvents. cbn [vs_prompt vs_prefillPos vs_decodePosition set_prefillPos]. rewrite !uses_app, seq_app, prefillEvents_app.
  unfold positions. rewrite Nat2Z.id, Nat.add_0_l. replace (Z.to_nat (Z.of_nat (vs_prefillPos s + n) - Z.of_nat (vs_prefillPos s))) with n by lia. lia.
Qed.

(** Nothing happens to an index that is not prefilling, or without budget. *)
Lemma PfInv_skip done i st :
  PfInv done st → (pf_budget st = 0 ∨ ∀ s, seqs0 !! i = Some s → vs_phase s ≠ virtualPhasePrefill) → PfInv (done ++ [i]) st.
Proof.
  intros [] Hi. constructor; try done.
  - intros j Hj. apply pi_rest0. intros ?. apply Hj, elem_of_app. by left.
  - destruct pi_touched0 as [Hn Ht]. split; [done|]. intros j Hj. apply elem_of_app. left. by apply Ht.
  - intros H0 Hb j s [Hj|Hj%list_elem_of_singleton]%elem_of_app Hs; [by eapply pi_idle0|]. subst j.
    destruct Hi as [Hi|Hi]; [lia|by apply Hi].
Qed.

Lemma PfInv_chunk done i st s n w :
  PfInv done st → i ∉ done → seqs0 !! i = Some s → vs_phase s = virtualPhasePrefill →
  0 < n → n ≤ pf_budget st → vs_prefillPos s + n ≤ inputTokensOf s →
  TableOk m (wl_assignments w) →
  wl_counts w = tableOf (numLayers m) (numExperts m) (λ l e, f0 l e + (contributed m (pf_seqs st) l e - contributed m seqs0 l e) +
    uses (prefillEvents m (tp_data (vs_prompt s)) (positions (Z.of_nat (vs_prefillPos s)) (Z.of_nat (vs_prefillPos s + n)))) l e)%Z →
  PfInv (done ++ [i]) (mkPrefill (<[i := set_prefillPos (vs_prefillPos s + n) s]> (pf_seqs st)) w (pf_budget st - n)
    (pf_tokens st + n) (pf_touched st ++ [i])).
Proof.
  intros [] Hi Hs Hph Hn0 Hnb Hnl Ht Hc. pose proof (pi_rest0 i Hi) as Hsi. rewrite Hs in Hsi.
  assert (∀ l e, contributed m (<[i := set_prefillPos (vs_prefillPos s + n) s]> (pf_seqs st)) l e =
    (contributed m (pf_seqs st) l e + uses (prefillEvents m (tp_data (vs_prompt s)) (positions (Z.of_nat (vs_prefillPos s)) (Z.of_nat (vs_prefillPos s + n)))) l e)%Z) as Hcon.
  { intros l e. unfold contributed. rewrite (total_insert _ _ _ s) by done. rewrite chunk_uses. done. }
  constructor; cbn [pf_seqs pf_work pf_budget pf_tokens pf_touched].
  - rewrite <- (list_insert_id seqs0 i s) by done. apply Forall2_insert; [done|]. right. split; [done|]. by exists n.
  - intros j Hj. rewrite list_lookup_insert_ne; [apply pi_rest0|]; intros ?; apply Hj, elem_of_app; [by left|right; by apply list_elem_of_singleton].
  - lia.
  - done.
  - rewrite Hc. apply tableOf_ext. intros l e _ _. rewrite Hcon. lia.
  - intros l e. rewrite Hcon. specialize (pi_bound0 l e).
    assert (length (prefillEvents m (tp_data (vs_prompt s)) (positions (Z.of_nat (vs_prefillPos s)) (Z.of_nat (vs_prefillPos s + n)))) = numLayers m * (n * Z.to_nat (topK m))) as Hlen.
    { rewrite prefillEvents_length; [|apply prompts_ok; by eapply list_elem_of_lookup_2|].
      - unfold positions. rewrite length_seq. f_equal. f_equal. lia.
      - intros j Hj%positions_elem. unfold inputTokensOf in Hnl. lia. }
    pose proof (uses_bound (prefillEvents m (tp_data (vs_prompt s)) (positions (Z.of_nat (vs_prefillPos s)) (Z.of_nat (vs_prefillPos s + n)))) l e) as Hu.
    rewrite Hlen in Hu. unfold perToken in *. nia.
  - apply Nat2Z.inj. rewrite !Nat2Z.inj_add, totalWork_total, (total_insert _ _ _ s) by done. rewrite <- totalWork_total.
    rewrite <- pi_work0. unfold seqWork. cbn [vs_phase set_prefillPos vs_prefillPos vs_decodePosition]. rewrite Hph.
    change (inputTokensOf (set_prefillPos _ s)) with (inputTokensOf s). change (outputTokensOf (set_prefillPos _ s)) with (outputTokensOf s). lia.
  - destruct pi_touched0 as [Hnd Hin]. split.
    + apply NoDup_app. split; [done|]. split; [|apply NoDup_singleton]. intros j Hj Hji%list_elem_of_singleton. subst j. by apply Hi, Hin.
    + intros j [Hj|Hj]%elem_of_app; apply elem_of_app; [left; by apply Hin|by right].
  - intros j Hj. rewrite list_lookup_insert_ne; [apply pi_untouched0|]; intros ?; apply Hj, elem_of_app; [by left|right; by apply list_elem_of_singleton].
  - intros j t [Hj|Hj%list_elem_of_singleton]%elem_of_app Ht'; [by eapply pi_phase0|congruence].
  - intros ?. lia.
Qed.

Lemma virtualPrefill_ok done i st :
  PfInv done st → i ∉ done → i < length seqs0 → ∃ st', addPrefill m st i = Some st' ∧ PfInv (done ++ [i]) st'.
Proof.
  intros HI Hi Hlt. pose proof HI as []. unfold addPrefill.
  destruct (Nat.eqb_spec (pf_budget st) 0) as [H0|H0]; [exists st; split; [done|]; apply PfInv_skip; [done|by left]|].
  destruct (lookup_lt_is_Some_2 seqs0 i) as [s Hs]; [done|]. rewrite pi_rest0, Hs by done. cbn [mbind option_bind].
  case_bool_decide as Hph; cbn [negb].
  2: { exists st. split; [done|]. apply PfInv_skip; [done|]. right. intros t Ht. congruence. }
  pose proof (list_elem_of_lookup_2 _ _ _ Hs) as Hin. pose proof (phases_ok s Hin) as Hok. unfold PhaseOk in Hok. rewrite Hph in Hok. destruct Hok as [Hpos Hdec].
  destruct (Nat.leb_spec (inputTokensOf s) (vs_prefillPos s)); [lia|].
  set (n := min (inputTokensOf s - vs_prefillPos s) (pf_budget st)). destruct (prompts_ok s Hin) as [Hsh Hv].
  assert (0 < n ∧ n ≤ pf_budget st ∧ vs_prefillPos s + n ≤ inputTokensOf s) as (Hn1 & Hn2 & Hn3) by lia.
  rewrite pi_counts0, prefill_range_exact; [|done|done|lia|unfold inputTokensOf in Hn3; lia|].
  2: { intros l e. destruct (counts_small l e) as [C1 C2]. specialize (pi_bound0 l e).
       replace (Z.to_nat (Z.of_nat (vs_prefillPos s + n) - Z.of_nat (vs_prefillPos s))) with n by lia. unfold perToken in *. nia. }
  cbn [mbind option_bind]. destruct (wl_assignments (pf_work st)) as [t|].
  - destruct (prefillAssignments_ok m (tp_data (vs_prompt s)) (Z.of_nat (vs_prefillPos s)) (Z.of_nat (vs_prefillPos s + n)) (Z.of_nat i) t)
      as (t' & -> & Hl); [done|done|lia|unfold inputTokensOf in Hn3; lia|done|]. cbn [mbind option_bind].
    eexists. split; [done|]. by eapply PfInv_chunk.
  - cbn [mbind option_bind]. eexists. split; [done|]. by eapply PfInv_chunk.
Qed.

Lemma prefill_loop w :
  TableOk m (wl_assignments w) → wl_counts w = tableOf (numLayers m) (numExperts m) f0 →
  ∃ st, foldM (addPrefill m) (mkPrefill seqs0 w budget0 0 []) (seq 0 (length seqs0)) = Some st ∧ PfInv (seq 0 (length seqs0)) st.
Proof.
  intros Ht Hc. apply (foldM_inv (addPrefill m) PfInv); [by apply PfInv_start|].
  intros done i rest st E HI. pose proof (NoDup_seq 0 (length seqs0)) as Hnd. rewrite E in Hnd.
  apply virtualPrefill_ok; [done| |].
  - apply NoDup_app in Hnd as (_ & Hnd & _). intros Hi. apply (Hnd i Hi). by left.
  - assert (i ∈ seq 0 (length seqs0)) as Hin by (rewrite E; apply elem_of_middle). apply elem_of_seq in Hin. lia.
Qed.
End PrefillLoop.

End TraceVirtualInv.
