(* ===== verification/TraceVirtualProps.v ===== *)
(** Theorems on the offline trace benchmark: it terminates, every token of every
    prompt is processed exactly once in forwards within the token budget, and when
    it reports a lack of progress. *)

From S2P Require Import Prelude Sums GoFloat GoFloatInt TraceFormat TraceFile TraceReader Moe TraceWorkload TraceWorkloadProps TraceFidelity TraceExecution TraceVirtual TraceVirtualInv.
Import TraceFormat TraceFile Moe TraceWorkload TraceWorkloadProps TraceFidelity TraceExecution TraceVirtual TraceVirtualInv.
Open Scope nat_scope.

Module TraceVirtualProps.

(** What the scheduler needs of the cost model: an invariant under which a forward
    over any table of counts returns. *)
Class ForwardModel (m : moeParams) (I : moeSimulator → Prop)
    (forward : moeLayerCounts → assignmentTable → moeSimulator → option (moeSimulator * Z)) : Prop := {
  fm_params : ∀ s, I s → params s = m;
  fm_total : ∀ f t s, I s → ∃ s' d, forward (tableOf (numLayers m) (numExperts m) f) t s = Some (s', d) ∧ I s' }.

(** * One sequence over an iteration *)

Inductive Stepped (s : virtualTraceSequence) : virtualTraceSequence → Prop :=
| stepped_same : Stepped s s
| stepped_decode : vs_phase s = virtualPhaseDecode → Stepped s (advanceDecode s)
| stepped_prefill n : vs_phase s = virtualPhasePrefill → 0 < n → vs_prefillPos s + n ≤ inputTokensOf s →
    Stepped s (advancePrefill (set_prefillPos (vs_prefillPos s + n) s)).

Lemma Stepped_prompt s s' : Stepped s s' → vs_prompt s' = vs_prompt s.
Proof.
  intros []; [done| |].
  - unfold advanceDecode. by case_match.
  - unfold advancePrefill. by case_match.
Qed.

Lemma Stepped_waiting s s' : Stepped s s' → (vs_phase s' = virtualPhaseWaiting ↔ vs_phase s = virtualPhaseWaiting).
Proof.
  intros [|E|n E _ _]; [done| |].
  - unfold advanceDecode. case_match; cbn; rewrite E; done.
  - unfold advancePrefill, finishVirtualPrefill. repeat case_match; cbn; rewrite E; done.
Qed.

Lemma Stepped_active s s' : Stepped s s' → isActive s' = true → isActive s = true.
Proof. intros [|E|n E _ _]; [done| |]; unfold isActive; by rewrite E. Qed.

Lemma Stepped_phase s s' : Stepped s s' → PhaseOk s → PhaseOk s'.
Proof.
  intros [|E|n E Hn Hl] H; [done| |]; unfold PhaseOk in H; rewrite E in H; destruct H as [H1 H2].
  - unfold advanceDecode. cbn [vs_decodePosition set_decodePosition].
    change (outputTokensOf (set_decodePosition (S (vs_decodePosition s)) s)) with (outputTokensOf s).
    destruct (Nat.leb_spec (outputTokensOf s - 1) (S (vs_decodePosition s))); unfold PhaseOk; cbn; [|rewrite E];
      unfold inputTokensOf, outputTokensOf in *; cbn; lia.
  - unfold advancePrefill, finishVirtualPrefill. cbn [vs_prefillPos set_prefillPos].
    change (inputTokensOf (set_prefillPos (vs_prefillPos s + n) s)) with (inputTokensOf s).
    change (outputTokensOf (set_prefillPos (vs_prefillPos s + n) s)) with (outputTokensOf s).
    destruct (Nat.leb_spec (inputTokensOf s) (vs_prefillPos s + n)).
    + destruct (Nat.ltb_spec 1 (outputTokensOf s)); unfold PhaseOk; cbn; unfold inputTokensOf, outputTokensOf in *; cbn; lia.
    + unfold PhaseOk. cbn. rewrite E. unfold inputTokensOf in *. cbn. lia.
Qed.

(** One more decode position is contributed. *)
Lemma advanceDecode_uses m s l e : (uses (seqEvents m (advanceDecode s)) l e - uses (seqEvents m s) l e = nextDecode m l e s)%Z.
Proof.
  assert (seqEvents m (advanceDecode s) = prefillEvents m (tp_data (vs_prompt s)) (seq 0 (vs_prefillPos s)) ++
    concat (decodeEvents m (tp_data (vs_prompt s)) <$> seq 0 (S (vs_decodePosition s)))) as -> by (unfold advanceDecode; by case_match).
  unfold seqEvents. rewrite seq_S, fmap_app, concat_app, !uses_app. cbn [fmap list_fmap concat plus]. rewrite app_nil_r. unfold nextDecode. lia.
Qed.

Lemma advancePrefill_uses m s l e : uses (seqEvents m (advancePrefill s)) l e = uses (seqEvents m s) l e.
Proof. unfold advancePrefill. by case_match. Qed.

Lemma advanceDecode_work s : PhaseOk s → vs_phase s = virtualPhaseDecode → seqWork s = S (seqWork (advanceDecode s)).
Proof.
  intros H E. unfold PhaseOk in H. rewrite E in H. destruct H as [H1 H2]. unfold seqWork at 1. rewrite E. unfold advanceDecode.
  change (outputTokensOf (set_decodePosition (S (vs_decodePosition s)) s)) with (outputTokensOf s). cbn [vs_decodePosition set_decodePosition].
  destruct (Nat.leb_spec (outputTokensOf s - 1) (S (vs_decodePosition s))); unfold seqWork; cbn; [|rewrite E]; unfold outputTokensOf in *; cbn; lia.
Qed.

Lemma advancePrefill_work s n : PhaseOk s → vs_phase s = virtualPhasePrefill → vs_prefillPos s + n ≤ inputTokensOf s →
  seqWork (advancePrefill (set_prefillPos (vs_prefillPos s + n) s)) = seqWork (set_prefillPos (vs_prefillPos s + n) s).
Proof.
  intros H E Hn. unfold PhaseOk in H. rewrite E in H. destruct H as [H1 H2]. unfold advancePrefill, finishVirtualPrefill. cbn [vs_prefillPos set_prefillPos].
  change (inputTokensOf (set_prefillPos (vs_prefillPos s + n) s)) with (inputTokensOf s).
  change (outputTokensOf (set_prefillPos (vs_prefillPos s + n) s)) with (outputTokensOf s).
  destruct (Nat.leb_spec (inputTokensOf s) (vs_prefillPos s + n)); [|done].
  destruct (Nat.ltb_spec 1 (outputTokensOf s)); unfold seqWork; cbn; rewrite E; unfold inputTokensOf, outputTokensOf in *; cbn; lia.
Qed.

(** * The invariant over an iteration *)

Lemma Stepped_suffix l k : Forall2 Stepped l k → WaitingSuffix l → WaitingSuffix k.
Proof.
  intros HF H i j s t Hij Hs Ht Hw. destruct (Forall2_lookup_r _ _ _ _ _ HF Hs) as (s0 & Hs0 & HS1).
  destruct (Forall2_lookup_r _ _ _ _ _ HF Ht) as (t0 & Ht0 & HS2). apply (Stepped_waiting _ _ HS2).
  apply (H i j s0 t0); [done..|]. by apply (Stepped_waiting _ _ HS1).
Qed.

Lemma Stepped_active_le l k : Forall2 Stepped l k → activeVirtualSequences k ≤ activeVirtualSequences l.
Proof.
  induction 1 as [|s s' l k HS HF IH]; [done|]. rewrite !active_cons. pose proof (Stepped_active _ _ HS).
  destruct (isActive s'), (isActive s); try lia; naive_solver lia.
Qed.

Lemma Stepped_inv m maxNumSeqs l k : Forall2 Stepped l k → SeqsInv m maxNumSeqs l → SeqsInv m maxNumSeqs k.
Proof.
  intros HF [Hp Hph Ha Hs]. constructor.
  - intros s' Hs'. destruct (Forall2_elem _ _ _ _ HF Hs') as (s & Hin & HS). unfold PromptOk. rewrite (Stepped_prompt _ _ HS). by apply Hp.
  - intros s' Hs'. destruct (Forall2_elem _ _ _ _ HF Hs') as (s & Hin & HS). apply (Stepped_phase _ _ HS). by apply Hph.
  - pose proof (Stepped_active_le _ _ HF). lia.
  - by eapply Stepped_suffix.
Qed.

(** The final updates of an iteration, sequence by sequence. *)
Lemma advance_stepped m seqs budget f processed pf :
  (∀ s, s ∈ seqs → PhaseOk s) → PfInv m seqs budget f processed pf →
  Forall2 Stepped seqs
    (foldl (λ seqs index, alter advancePrefill index seqs)
       (foldl (λ seqs index, alter advanceDecode index seqs) (pf_seqs pf) (decodeIndicesOf seqs)) (pf_touched pf)).
Proof.
  intros Hph [HF _ _ _ _ _ _ [Hnd _] Hun Htp _]. apply Forall2_same_length_lookup. split.
  { rewrite !alter_all_length. by eapply Forall2_length. }
  intros j s t Hs. rewrite alter_all_lookup by done. rewrite alter_all_lookup by apply decodeIndices_nodup.
  destruct (decide (j ∈ pf_touched pf)) as [Ht|Ht].
  - pose proof (Htp j s Ht Hs) as Hpre. rewrite decide_False.
    2: { intros (s' & Hs' & Hd)%decodeIndices_elem. congruence. }
    destruct (Forall2_lookup_l _ _ _ _ _ HF Hs) as (s1 & Hs1 & HC). rewrite Hs1. cbn. intros [= <-].
    destruct HC as [->|(_ & n & Hn & Hl & ->)]; [|by apply stepped_prefill].
    (* a touched sequence that was not changed: its prompt is not finished *)
    pose proof (Hph s (list_elem_of_lookup_2 _ _ _ Hs)) as Hok. unfold PhaseOk in Hok. rewrite Hpre in Hok.
    unfold advancePrefill. destruct (Nat.leb_spec (inputTokensOf s) (vs_prefillPos s)); [lia|apply stepped_same].
  - rewrite Hun, Hs by done. case_decide as Hd; cbn; intros [= <-]; [|apply stepped_same].
    apply stepped_decode. apply decodeIndices_elem in Hd as (s' & Hs' & Hd). congruence.
Qed.

(** With no active sequence there is nothing to decode and nothing to prefill. *)
Lemma inactive_idle seqs i s : activeVirtualSequences seqs = 0 → seqs !! i = Some s → isActive s = false.
Proof.
  intros H Hs. destruct (isActive s) eqn:E; [|done]. apply nil_length_inv in H. exfalso.
  assert (s ∈ filter (λ s, isActive s = true) seqs) as Hin by (apply list_elem_of_filter; split; [done|by eapply list_elem_of_lookup_2]).
  rewrite H in Hin. by apply not_elem_of_nil in Hin.
Qed.

Lemma active_exists seqs : 0 < activeVirtualSequences seqs → ∃ i s, seqs !! i = Some s ∧ isActive s = true.
Proof.
  unfold activeVirtualSequences. intros H. destruct (filter (λ s, isActive s = true) seqs) as [|s l] eqn:E; [cbn in H; lia|].
  assert (s ∈ filter (λ s, isActive s = true) seqs) as [Ha [i Hi]%list_elem_of_lookup]%list_elem_of_filter by (rewrite E; left). by exists i, s.
Qed.

Lemma chunked_positions l k :
  Forall2 Chunked l k → total (λ s, Z.of_nat (vs_decodePosition s)) k = total (λ s, Z.of_nat (vs_decodePosition s)) l.
Proof. induction 1 as [|s s' l k HC HF IH]; [done|]. rewrite !total_cons, IH. f_equal. by destruct HC as [->|(_ & n & _ & _ & ->)]. Qed.

Section FinalUpdates.
Variable m : moeParams.
Variable seqs : list virtualTraceSequence.
Variables (budget : nat) (f : nat → nat → Z) (pf : prefillState).
Hypothesis phases : ∀ s, s ∈ seqs → PhaseOk s.
Hypothesis loop : PfInv m seqs budget f (seq 0 (length seqs)) pf.

Definition afterDecode : list virtualTraceSequence := foldl (λ seqs index, alter advanceDecode index seqs) (pf_seqs pf) (decodeIndicesOf seqs).
Definition afterForward : list virtualTraceSequence := foldl (λ seqs index, alter advancePrefill index seqs) afterDecode (pf_touched pf).

Lemma pf_length : length (pf_seqs pf) = length seqs.
Proof. symmetry. eapply Forall2_length, (pi_seqs _ _ _ _ _ _ loop). Qed.

Lemma decode_untouched i s : seqs !! i = Some s → vs_phase s = virtualPhaseDecode → pf_seqs pf !! i = Some s.
Proof.
  intros Hs Hd. rewrite (pi_untouched _ _ _ _ _ _ loop); [done|]. intros Hi. pose proof (pi_phase _ _ _ _ _ _ loop i s Hi Hs). congruence.
Qed.

Lemma total_afterDecode (F : virtualTraceSequence → Z) (G : virtualTraceSequence → Z) :
  (∀ s, s ∈ seqs → vs_phase s = virtualPhaseDecode → F (advanceDecode s) - F s = G s)%Z →
  total F afterDecode = (total F (pf_seqs pf) + total (atIndex seqs G) (decodeIndicesOf seqs))%Z.
Proof.
  intros H. unfold afterDecode. rewrite total_alter_all.
  - f_equal. apply total_ext. intros i (s & Hs & Hd)%decodeIndices_elem. rewrite (decode_untouched i s) by done.
    unfold atIndex. rewrite Hs. apply H; [by eapply list_elem_of_lookup_2|done].
  - apply decodeIndices_nodup.
  - intros i (s & Hs & _)%decodeIndices_elem. rewrite pf_length. by eapply lookup_lt_Some.
Qed.

Lemma total_afterForward (F : virtualTraceSequence → Z) :
  (∀ s0 n, PhaseOk s0 → vs_phase s0 = virtualPhasePrefill → vs_prefillPos s0 + n ≤ inputTokensOf s0 →
     F (advancePrefill (set_prefillPos (vs_prefillPos s0 + n) s0)) = F (set_prefillPos (vs_prefillPos s0 + n) s0)) →
  total F afterForward = total F afterDecode.
Proof.
  intros H. unfold afterForward. rewrite total_alter_all.
  - rewrite <- (Z.add_0_r (total F afterDecode)) at 2. f_equal. etrans; [apply (total_ext _ (λ _, 0%Z))|].
    2: { induction (pf_touched pf) as [|i l IH]; [done|]. by rewrite total_cons, IH. }
    + intros i Hi. destruct (afterDecode !! i) as [x|] eqn:Ex; [|done]. unfold afterDecode in Ex. rewrite alter_all_lookup in Ex by apply decodeIndices_nodup.
      pose proof (pi_touched _ _ _ _ _ _ loop) as [_ Hin]. pose proof (Hin i Hi) as Hlt%elem_of_seq.
      destruct (lookup_lt_is_Some_2 seqs i) as [s Hs]; [lia|]. pose proof (pi_phase _ _ _ _ _ _ loop i s Hi Hs) as Hpre.
      rewrite decide_False in Ex by (intros (s' & Hs' & Hd)%decodeIndices_elem; congruence).
      destruct (Forall2_lookup_l _ _ _ _ _ (pi_seqs _ _ _ _ _ _ loop) Hs) as (s1 & Hs1 & HC). rewrite Hs1 in Ex. injection Ex as <-.
      pose proof (phases s (list_elem_of_lookup_2 _ _ _ Hs)) as Hok. destruct HC as [->|(_ & n & Hn & Hl & ->)].
      * unfold advancePrefill. unfold PhaseOk in Hok. rewrite Hpre in Hok. destruct (Nat.leb_spec (inputTokensOf s) (vs_prefillPos s)); lia.
      * rewrite H by done. lia.
  - apply (pi_touched _ _ _ _ _ _ loop).
  - intros i Hi. unfold afterDecode. rewrite alter_all_length, pf_length. pose proof (pi_touched _ _ _ _ _ _ loop) as [_ Hin].
    specialize (Hin i Hi). apply elem_of_seq in Hin. lia.
Qed.

Lemma contributed_afterForward l e :
  contributed m afterForward l e = (contributed m (pf_seqs pf) l e + total (atIndex seqs (nextDecode m l e)) (decodeIndicesOf seqs))%Z.
Proof.
  unfold contributed. rewrite total_afterForward; [|intros; apply advancePrefill_uses].
  apply total_afterDecode. intros s _ _. apply advanceDecode_uses.
Qed.

Lemma total_atIndex_const (c : Z) idx : (∀ i, i ∈ idx → i < length seqs) → total (atIndex seqs (λ _, c)) idx = (Z.of_nat (length idx) * c)%Z.
Proof.
  induction idx as [|i idx IH]; intros H; [done|]. rewrite total_cons, IH by (intros; apply H; by right). unfold atIndex.
  destruct (lookup_lt_is_Some_2 seqs i) as [s ->]; [apply H; left|]. cbn [length]. lia.
Qed.

Lemma work_afterForward : totalWork afterForward + length (decodeIndicesOf seqs) + pf_tokens pf = totalWork seqs.
Proof.
  apply Nat2Z.inj. rewrite !Nat2Z.inj_add, totalWork_total, total_afterForward.
  - rewrite (total_afterDecode _ (λ _, - 1)%Z).
    + rewrite <- totalWork_total, total_atIndex_const.
      * pose proof (pi_work _ _ _ _ _ _ loop). lia.
      * intros i (s & Hs & _)%decodeIndices_elem. by eapply lookup_lt_Some.
    + intros s Hs Hd. rewrite (advanceDecode_work s) by (done || by apply phases). lia.
  - intros s0 n Hok Hp Hn. f_equal. by apply advancePrefill_work.
Qed.
Lemma positions_afterForward :
  total (λ s, Z.of_nat (vs_decodePosition s)) afterForward =
  (total (λ s, Z.of_nat (vs_decodePosition s)) seqs + Z.of_nat (length (decodeIndicesOf seqs)))%Z.
Proof.
  rewrite total_afterForward; [|intros s0 n _ _ _; unfold advancePrefill; by case_match].
  rewrite (total_afterDecode _ (λ _, 1%Z)); [|intros s _ _; unfold advanceDecode; case_match; cbn; lia].
  rewrite total_atIndex_const, Z.mul_1_r by (intros i (s & Hs & _)%decodeIndices_elem; by eapply lookup_lt_Some). f_equal.
  apply chunked_positions, (pi_seqs _ _ _ _ _ _ loop).
Qed.

(** A forward without tokens has no active sequence. *)
Lemma no_tokens :
  length (decodeIndicesOf seqs) + pf_tokens pf = 0 → 0 < budget → activeVirtualSequences seqs = 0.
Proof.
  intros H0 Hb. destruct (decide (activeVirtualSequences seqs = 0)) as [|Hne]; [done|]. exfalso.
  destruct (active_exists seqs ltac:(lia)) as (i & s & Hs & Hai). unfold isActive in Hai. destruct (vs_phase s) eqn:Eph; try done.
  - apply (pi_idle _ _ _ _ _ _ loop ltac:(lia) Hb i s); [|done|done]. apply elem_of_seq. apply lookup_lt_Some in Hs. lia.
  - assert (i ∈ decodeIndicesOf seqs) as Hi by (apply decodeIndices_elem; by exists s).
    destruct (decodeIndicesOf seqs); [by apply not_elem_of_nil in Hi|cbn in H0; lia].
Qed.

Lemma inactive_untouched : activeVirtualSequences seqs = 0 → pf_seqs pf = seqs.
Proof.
  intros Ha. apply list_eq. intros j. apply (pi_untouched _ _ _ _ _ _ loop). intros Hj.
  pose proof (pi_touched _ _ _ _ _ _ loop) as [_ Hin]. specialize (Hin j Hj). apply elem_of_seq in Hin.
  destruct (lookup_lt_is_Some_2 seqs j) as [s Hs]; [lia|]. pose proof (pi_phase _ _ _ _ _ _ loop j s Hj Hs) as Hpre.
  pose proof (inactive_idle seqs j s Ha Hs) as Hina. unfold isActive in Hina. by rewrite Hpre in Hina.
Qed.

Lemma inactive_no_tokens : activeVirtualSequences seqs = 0 → length (decodeIndicesOf seqs) + pf_tokens pf = 0.
Proof.
  intros Ha. pose proof (decodeIndices_active seqs). pose proof (pi_work _ _ _ _ _ _ loop) as Hw. rewrite (inactive_untouched Ha) in Hw. lia.
Qed.
End FinalUpdates.

Lemma admit_all_done maxNumSeqs seqs :
  (∀ s, s ∈ seqs → vs_phase s = virtualPhaseDone) → admitVirtualSequences seqs maxNumSeqs = seqs.
Proof.
  unfold admitVirtualSequences. generalize (activeVirtualSequences seqs). induction seqs as [|s l IH]; intros n H; [done|]. cbn [admitFrom].
  destruct (maxNumSeqs <=? n); [done|]. rewrite bool_decide_false by (rewrite (H s ltac:(left)); done). f_equal. apply IH. intros. apply H. by right.
Qed.

(** The uses of the decode tokens of a forward. *)
Lemma decode_uses_bound m seqs l e :
  (∀ s, s ∈ seqs → PromptOk m s) → (∀ s, s ∈ seqs → PhaseOk s) →
  (0 ≤ total (atIndex seqs (nextDecode m l e)) (decodeIndicesOf seqs) ≤ Z.of_nat (length (decodeIndicesOf seqs)) * perToken m)%Z.
Proof.
  intros Hp Hph. apply total_bounded. intros i (s & Hs & Hd)%decodeIndices_elem. unfold atIndex, nextDecode. rewrite Hs.
  pose proof (list_elem_of_lookup_2 _ _ _ Hs) as Hin. pose proof (uses_bound (decodeEvents m (tp_data (vs_prompt s)) (vs_decodePosition s)) l e) as Hu.
  rewrite decodeEvents_length in Hu; [done|by apply Hp|]. pose proof (Hph s Hin) as Hok. unfold PhaseOk, outputTokensOf in Hok. rewrite Hd in Hok. lia.
Qed.

(** * One iteration *)

Section Run.
Context {m : moeParams} {I : moeSimulator → Prop}
  {forward : moeLayerCounts → assignmentTable → moeSimulator → option (moeSimulator * Z)} `{!ForwardModel m I forward}.
Variables budget maxNumSeqs : nat.
Hypothesis seqs_pos : 0 < maxNumSeqs.
Hypothesis seqs_fit : maxNumSeqs ≤ budget.
Hypothesis gpus_pos : 0 < numGPUs m.
Hypothesis budget_small : (Z.of_nat budget * perToken m < 2 ^ 53)%Z.

(** What an iteration that runs a forward does: [decodes] decode tokens and [tokens]
    prompt tokens, at least one and within the budget, and exactly their uses are given
    to the cost model. *)
Record Iteration (st st' : loopState) (decodes tokens : nat) (modeled : Z) (f : nat → nat → Z) : Prop := mkIteration {
  it_inv : SeqsInv m maxNumSeqs (vl_seqs st');
  it_sim : I (vl_sim st');
  it_prompts : vs_prompt <$> vl_seqs st' = vs_prompt <$> vl_seqs st;
  it_tokens : 1 ≤ decodes + tokens ≤ budget;
  it_work : totalWork (vl_seqs st') + decodes + tokens = totalWork (vl_seqs st);
  it_positions : total (λ s, Z.of_nat (vs_decodePosition s)) (vl_seqs st') = (total (λ s, Z.of_nat (vs_decodePosition s)) (vl_seqs st) + Z.of_nat decodes)%Z;
  it_forward : vl_forwards st' = vl_forwards st ++ [tableOf (numLayers m) (numExperts m) f];
  it_uses : ∀ l e, contributed m (vl_seqs st') l e = (contributed m (vl_seqs st) l e + f l e)%Z;
  it_result : vl_result st' = recordForward decodes tokens modeled (vl_result st);
  it_stepped : Forall2 Stepped (admitVirtualSequences (vl_seqs st) maxNumSeqs) (vl_seqs st') }.

Lemma admit_prompts seqs k : Forall2 Entered seqs k → vs_prompt <$> k = vs_prompt <$> seqs.
Proof. induction 1 as [|s s' l k HE HF IH]; [done|]. cbn. rewrite IH. by destruct HE as [->|[_ ->]]. Qed.

Lemma stepped_prompts seqs k : Forall2 Stepped seqs k → vs_prompt <$> k = vs_prompt <$> seqs.
Proof. induction 1 as [|s s' l k HE HF IH]; [done|]. cbn. by rewrite IH, (Stepped_prompt _ _ HE). Qed.

(** The workload of an iteration is defined: the decode tokens, then the prefill loop. *)
Lemma workload_ok seqs :
  SeqsInv m maxNumSeqs seqs →
  ∃ w f pf, foldM (addDecode m seqs)
      (mkWorkload (newMoELayerCounts (numLayers m) (numExperts m)) (if useDistributedRouting m then Some (replicate (numLayers m) []) else None))
      (decodeIndicesOf seqs) = Some w ∧
    foldM (addPrefill m) (mkPrefill seqs w (budget - length (decodeIndicesOf seqs)) 0 []) (seq 0 (length seqs)) = Some pf ∧
    PfInv m seqs (budget - length (decodeIndicesOf seqs)) f (seq 0 (length seqs)) pf ∧
    ∀ l e, f l e = total (atIndex seqs (nextDecode m l e)) (decodeIndicesOf seqs).
Proof.
  intros [Hp Hph Hact _]. pose proof (decodeIndices_active seqs) as Hdec. assert (0 ≤ perToken m)%Z as Hpt by (unfold perToken; lia).
  edestruct (addDecode_fold m seqs (decodeIndicesOf seqs) (λ _ _, 0%Z)) as (w & Ew & Htab & Hcw).
  6: { exists w. rewrite Ew. edestruct (prefill_loop m seqs (budget - length (decodeIndicesOf seqs))) as (pf & Epf & HPF); [done|done|done| |exact Htab|exact Hcw|].
       - intros l e. pose proof (decode_uses_bound m seqs l e Hp Hph). split; [lia|]. cbn beta. nia.
       - eexists _, pf. split_and!; [done|done|exact HPF|]. intros l e. cbn beta. lia. }
  - done.
  - cbn [wl_assignments]. destruct (useDistributedRouting m); [apply length_replicate|done].
  - cbn [wl_counts]. apply newMoELayerCounts_tableOf.
  - intros i (s & Hs & Hd)%decodeIndices_elem. exists s. pose proof (list_elem_of_lookup_2 _ _ _ Hs) as Hin. split_and!; [done|by apply Hp|].
    pose proof (Hph s Hin) as Hok. unfold PhaseOk in Hok. rewrite Hd in Hok. lia.
  - intros l e. split; [lia|]. nia.
Qed.

Lemma virtualStep_ok st :
  SeqsInv m maxNumSeqs (vl_seqs st) → I (vl_sim st) →
  let seqs := admitVirtualSequences (vl_seqs st) maxNumSeqs in
  (activeVirtualSequences seqs = 0 ∧ (∀ s, s ∈ seqs → vs_phase s = virtualPhaseDone) ∧
   virtualStep forward budget maxNumSeqs st = Some (Err ErrNoProgress)) ∨
  (0 < activeVirtualSequences seqs ∧ ∃ st' decodes tokens modeled f,
   virtualStep forward budget maxNumSeqs st = Some (Ok st') ∧ Iteration st st' decodes tokens modeled f).
Proof.
  intros Hinv HI. cbv zeta. destruct (admit_ok m maxNumSeqs (vl_seqs st) Hinv seqs_pos) as (Hinv1 & Hlen & Hwork & Hcon & HE & Hdone).
  set (seqs := admitVirtualSequences (vl_seqs st) maxNumSeqs) in *. pose proof Hinv1 as [Hp Hph Hact _].
  unfold virtualStep. fold seqs. rewrite (fm_params _ HI), (retire_all seqs) by done. pose proof (decodeIndices_active seqs) as Hdec.
  destruct (Nat.ltb_spec budget (length (decodeIndicesOf seqs))); [lia|].
  destruct (workload_ok seqs Hinv1) as (w & f & pf & -> & Epf & HPF & Hf). cbn [mbind option_bind]. rewrite Epf. cbn [mbind option_bind].
  destruct (Nat.eqb_spec (length (decodeIndicesOf seqs) + pf_tokens pf) 0) as [H0|H0].
  - left. pose proof (no_tokens m seqs _ f pf HPF H0 ltac:(lia)) as Ha. specialize (Hdone Ha). split; [done|]. split; [done|].
    rewrite (inactive_untouched m seqs _ f pf HPF Ha), (admit_all_done _ _ Hdone), Nat.eqb_refl. done.
  - right. split; [destruct (decide (activeVirtualSequences seqs = 0)) as [Ha|]; [by apply (inactive_no_tokens m seqs _ f pf HPF) in Ha|lia]|].
    rewrite (pi_counts _ _ _ _ _ _ HPF).
    edestruct (fm_total (λ l e, (f l e + (contributed m (pf_seqs pf) l e - contributed m seqs l e))%Z)) as (sim' & d & Ef & HI'); [done|].
    rewrite Ef. cbn [mbind option_bind]. eexists _, (length (decodeIndicesOf seqs)), (pf_tokens pf), d, _. split; [done|].
    pose proof (advance_stepped m seqs _ _ _ pf Hph HPF) as HS. constructor; cbn [vl_seqs vl_sim vl_result vl_forwards].
    + by eapply Stepped_inv.
    + done.
    + rewrite (stepped_prompts _ _ HS). by apply admit_prompts.
    + pose proof (pi_budget _ _ _ _ _ _ HPF). lia.
    + pose proof (work_afterForward m seqs _ _ pf Hph HPF) as Hw. unfold afterForward, afterDecode in Hw. lia.
    + etrans; [exact (positions_afterForward m seqs _ _ pf Hph HPF)|]. f_equal. by apply (Entered_total _ (vl_seqs st)).
    + done.
    + intros l e. etrans; [exact (contributed_afterForward m seqs _ _ pf Hph HPF l e)|]. rewrite <- Hcon, Hf. lia.
    + done.
    + exact HS.
Qed.
(** * The whole run *)

(** The last sequence has a token to process. *)
Definition LastBusy (seqs : list virtualTraceSequence) : Prop := ∀ s, last seqs = Some s → ¬ idle s.

Lemma busy_active seqs :
  SeqsInv m maxNumSeqs seqs → LastBusy seqs → hasVirtualWork seqs = true → 0 < activeVirtualSequences (admitVirtualSequences seqs maxNumSeqs).
Proof.
  intros Hinv Hlast Hw. destruct (admit_ok m maxNumSeqs seqs Hinv seqs_pos) as (_ & Hlen & _ & _ & HE & Hdone).
  destruct (decide (activeVirtualSequences (admitVirtualSequences seqs maxNumSeqs) = 0)) as [Ha|]; [|lia]. exfalso. specialize (Hdone Ha).
  unfold hasVirtualWork in Hw. apply existsb_exists in Hw as (s & Hin & Hnd). apply list_elem_of_In, list_elem_of_lookup in Hin as [i Hi].
  rewrite negb_true_iff, bool_decide_eq_false in Hnd.
  assert (∀ j t, seqs !! j = Some t → vs_phase t ≠ virtualPhaseDone → vs_phase t = virtualPhaseWaiting ∧ idle t) as Hwait.
  { intros j t Hj Hnt. destruct (Forall2_lookup_l _ _ _ _ _ HE Hj) as (t' & Ht' & HEt). pose proof (Hdone t' (list_elem_of_lookup_2 _ _ _ Ht')) as Hd.
    destruct HEt as [->|[Hwt ->]]; [done|]. split; [done|]. cbn in Hd. unfold admittedPhase in Hd. unfold idle.
    destruct (Nat.ltb_spec 0 (inputTokensOf t)); [done|]. destruct (Nat.ltb_spec 1 (outputTokensOf t)); [done|lia]. }
  destruct (Hwait i s Hi Hnd) as [Hws _]. destruct (last seqs) as [t|] eqn:El.
  2: { apply last_None in El. subst seqs. done. }
  pose proof El as Hl. rewrite last_lookup in Hl. pose proof (lookup_lt_Some _ _ _ Hi). apply (Hlast t El).
  destruct (decide (i = pred (length seqs))) as [->|]; [by apply (Hwait _ _ Hl); congruence|].
  assert (vs_phase t = virtualPhaseWaiting) as Hwt by (by apply (si_suffix _ _ _ Hinv i (pred (length seqs)) s t); [lia|..]).
  apply (Hwait _ _ Hl). by rewrite Hwt.
Qed.

(** What has happened when the loop reaches a state: [fs] are the workloads of the
    forwards and [ns] their token counts. *)
Record Progress (seqs0 : list virtualTraceSequence) (t0 : virtualTotals) (st : loopState) (fs : list (nat → nat → Z)) (ns : list nat) : Prop := mkProgress {
  pr_inv : SeqsInv m maxNumSeqs (vl_seqs st);
  pr_sim : I (vl_sim st);
  pr_prompts : vs_prompt <$> vl_seqs st = vs_prompt <$> seqs0;
  pr_forwards : vl_forwards st = tableOf (numLayers m) (numExperts m) <$> fs;
  pr_lengths : length ns = length fs ∧ Forall (λ n, 1 ≤ n ≤ budget) ns;
  pr_work : totalWork (vl_seqs st) + sum_list ns = totalWork seqs0;
  pr_uses : ∀ l e, contributed m (vl_seqs st) l e = total (λ f : nat → nat → Z, f l e) fs;
  pr_decodes : vr_DecodeForwards (vl_result st) = total (λ s, Z.of_nat (vs_decodePosition s)) (vl_seqs st);
  pr_steps : vr_Steps (vl_result st) = Z.of_nat (length fs) ∧
    vr_Steps (vl_result st) = (vr_PrefillSteps (vl_result st) + vr_DecodeOnlySteps (vl_result st) + vr_MixedSteps (vl_result st))%Z;
  pr_time : vr_ModeledTime (vl_result st) = i64 (vr_ModeledPrefillTime (vl_result st) + vr_ModeledDecodeOnlyTime (vl_result st));
  pr_totals : vr_totals (vl_result st) = t0 }.

Lemma Progress_step seqs0 t0 st st' fs ns decodes tokens modeled f :
  Progress seqs0 t0 st fs ns → Iteration st st' decodes tokens modeled f → Progress seqs0 t0 st' (fs ++ [f]) (ns ++ [decodes + tokens]).
Proof.
  intros [] []. constructor; try done.
  - by rewrite it_prompts0.
  - by rewrite it_forward0, pr_forwards0, fmap_app.
  - rewrite !length_app. cbn. destruct pr_lengths0 as [-> Hn]. split; [done|]. apply Forall_app. split; [done|]. by apply Forall_singleton.
  - rewrite sum_list_with_app. cbn. unfold sum_list in *. lia.
  - intros l e. rewrite it_uses0, pr_uses0, total_app. unfold total at 3. cbn. lia.
  - rewrite it_positions0, <- pr_decodes0, it_result0. unfold recordForward. by repeat case_match.
  - destruct pr_steps0 as [H1 H2]. rewrite it_result0, length_app. unfold recordForward. repeat case_match; cbn; lia.
  - rewrite it_result0. unfold recordForward. repeat case_match; cbn; rewrite pr_time0, i64_i64_add.
    + rewrite i64_i64_add. f_equal. lia.
    + rewrite i64_i64_add. f_equal. lia.
    + rewrite (Z.add_comm (vr_ModeledPrefillTime _) (i64 _)), i64_i64_add. f_equal. lia.
  - rewrite it_result0, <- pr_totals0. unfold recordForward. by repeat case_match.
Qed.

Lemma Progress_last seqs0 t0 st fs ns : Progress seqs0 t0 st fs ns → LastBusy seqs0 → LastBusy (vl_seqs st).
Proof.
  intros HP Hb s Hs. pose proof (pr_prompts _ _ _ _ _ HP) as E. apply (f_equal last) in E. rewrite !fmap_last, Hs in E. cbn in E.
  destruct (last seqs0) as [s0|] eqn:El; [|done]. cbn in E. injection E as E. specialize (Hb s0 El). unfold idle, inputTokensOf, outputTokensOf in *. by rewrite E.
Qed.

Lemma virtualLoop_ok seqs0 t0 fuel st fs ns :
  LastBusy seqs0 → Progress seqs0 t0 st fs ns → totalWork (vl_seqs st) < fuel →
  ∃ st' fs' ns', virtualLoop forward budget maxNumSeqs fuel st = Finished st' ∧ Progress seqs0 t0 st' fs' ns' ∧ hasVirtualWork (vl_seqs st') = false.
Proof.
  intros Hb. revert st fs ns. induction fuel as [|fuel IH]; intros st fs ns HP Hf; [lia|]. cbn [virtualLoop].
  destruct (hasVirtualWork (vl_seqs st)) eqn:Hw; [|by exists st, fs, ns].
  pose proof (busy_active _ (pr_inv _ _ _ _ _ HP) (Progress_last _ _ _ _ _ HP Hb) Hw) as Ha.
  destruct (virtualStep_ok st (pr_inv _ _ _ _ _ HP) (pr_sim _ _ _ _ _ HP)) as [(H0 & _)|(_ & st' & d & t & mo & f & -> & HIt)]; [lia|].
  apply (IH st' (fs ++ [f]) (ns ++ [d + t])); [by eapply Progress_step|]. pose proof (it_work _ _ _ _ _ _ HIt). pose proof (it_tokens _ _ _ _ _ _ HIt). lia.
Qed.

(** ** Idle prompts at the end *)

(** With one sequence at a time, a waiting idle sequence at the end is not admitted
    while another one runs. *)
Lemma admit_one_last seqs s :
  last seqs = Some s → vs_phase s = virtualPhaseWaiting → idle s → 0 < activeVirtualSequences (admitVirtualSequences seqs 1) →
  activeVirtualSequences seqs ≤ 1 → ∃ s', last (admitVirtualSequences seqs 1) = Some s' ∧ vs_phase s' = virtualPhaseWaiting.
Proof.
  unfold admitVirtualSequences. intros Hl Hw [Hi1 Hi2] Ha Hle. destruct (decide (activeVirtualSequences seqs = 0)) as [H0|H0].
  2: { assert (activeVirtualSequences seqs = 1) as -> by lia. exists s. split; [|done]. rewrite <- Hl. by destruct seqs. }
  rewrite H0 in Ha |- *. clear Hle. induction seqs as [|x seqs IH]; [done|]. cbn [admitFrom] in *. destruct (Nat.leb_spec 1 0); [lia|].
  rewrite active_cons in H0. assert (isActive x = false ∧ activeVirtualSequences seqs = 0) as [Hx Hr] by (destruct (isActive x); [lia|done]).
  destruct seqs as [|y seqs].
  - (* the last one *)
    injection Hl as ->. rewrite bool_decide_true in Ha by done. exfalso. cbn [admitFrom] in Ha. rewrite active_cons in Ha. change (activeVirtualSequences []) with 0 in Ha.
    unfold isActive, admittedPhase in Ha. cbn [vs_phase set_phase] in Ha. destruct (Nat.ltb_spec 0 (inputTokensOf s)); [lia|]. destruct (Nat.ltb_spec 1 (outputTokensOf s)); lia.
  - rewrite last_cons_cons in Hl. case_bool_decide as Hxw; rewrite active_cons in Ha.
    + set (x' := set_phase (admittedPhase x) x) in *. destruct (isActive x') eqn:Ex.
      * exists s. split; [|done]. rewrite <- Hl. cbn [admitFrom]. destruct (Nat.leb_spec 1 1); [|lia]. by rewrite last_cons_cons.
      * destruct (IH Hl Ha Hr) as (s' & Hs' & Hw'). exists s'. split; [|done]. rewrite last_cons, Hs'. done.
    + rewrite Hx in Ha. destruct (IH Hl Ha Hr) as (s' & Hs' & Hw'). exists s'. split; [|done]. by rewrite last_cons, Hs'.
Qed.

(** Then the run ends with the error, after the other prompts have been processed. *)
Lemma idle_tail_loop seqs0 t0 fuel st fs ns s :
  maxNumSeqs = 1 → Progress seqs0 t0 st fs ns → last (vl_seqs st) = Some s → vs_phase s = virtualPhaseWaiting → idle s →
  totalWork (vl_seqs st) < fuel → virtualLoop forward budget maxNumSeqs fuel st = Failed ErrNoProgress.
Proof.
  intros Hone. revert st fs ns s. induction fuel as [|fuel IH]; intros st fs ns s HP Hl Hw Hi Hf; [lia|]. cbn [virtualLoop].
  assert (hasVirtualWork (vl_seqs st) = true) as ->.
  { apply existsb_exists. exists s. split; [apply list_elem_of_In; rewrite last_lookup in Hl; by eapply list_elem_of_lookup_2|]. by rewrite bool_decide_false by by rewrite Hw. }
  pose proof (pr_inv _ _ _ _ _ HP) as Hinv. destruct (virtualStep_ok st Hinv (pr_sim _ _ _ _ _ HP)) as [(_ & _ & ->)|(Ha & st' & d & t & mo & f & -> & HIt)]; [done|].
  rewrite Hone in Ha. destruct (admit_one_last (vl_seqs st) s Hl Hw Hi Ha) as (s' & Hl' & Hw'); [pose proof (si_active _ _ _ Hinv); lia|].
  pose proof (it_stepped _ _ _ _ _ _ HIt) as HS. rewrite Hone in HS. rewrite last_lookup in Hl'. rewrite (Forall2_length _ _ _ HS) in Hl'.
  destruct (Forall2_lookup_l _ _ _ _ _ HS Hl') as (s2 & Hs2 & HS2). rewrite <- last_lookup in Hs2.
  apply (IH st' (fs ++ [f]) (ns ++ [d + t]) s2); [by eapply Progress_step|done|by apply (Stepped_waiting _ _ HS2)| |].
  - pose proof (f_equal last (it_prompts _ _ _ _ _ _ HIt)) as E. rewrite !fmap_last, Hs2, Hl in E. cbn in E. injection E as E. unfold idle, inputTokensOf, outputTokensOf in *. by rewrite E.
  - pose proof (it_work _ _ _ _ _ _ HIt). pose proof (it_tokens _ _ _ _ _ _ HIt). lia.
Qed.

(** ** The start *)

Lemma virtualSequences_start copies ps s :
  s ∈ virtualSequences copies ps → ∃ p, p ∈ ps ∧ s = mkSeq p virtualPhaseWaiting 0 0.
Proof.
  unfold virtualSequences. rewrite list_elem_of_In, in_concat. intros (l & Hl & Hs). apply list_elem_of_In, elem_of_replicate in Hl as [-> _].
  apply list_elem_of_In, list_elem_of_fmap in Hs as (p & -> & Hp). by exists p.
Qed.

Lemma virtualSequences_prompts copies ps : vs_prompt <$> virtualSequences copies ps = concat (replicate copies ps).
Proof.
  unfold virtualSequences. induction copies as [|n IH]; [done|]. cbn [replicate concat]. rewrite fmap_app, IH. f_equal.
  rewrite <- list_fmap_compose. apply list_fmap_id.
Qed.

Lemma start_inactive seqs : (∀ s, s ∈ seqs → vs_phase s = virtualPhaseWaiting) → activeVirtualSequences seqs = 0.
Proof.
  induction seqs as [|s l IH]; intros H; [done|]. rewrite active_cons, IH by (intros; apply H; by right).
  unfold isActive. by rewrite (H s ltac:(left)).
Qed.

Lemma start_contributed seqs l e : (∀ s, s ∈ seqs → vs_prefillPos s = 0 ∧ vs_decodePosition s = 0) → contributed m seqs l e = 0%Z.
Proof.
  unfold contributed. induction seqs as [|s k IH]; intros H; [done|]. rewrite total_cons, IH by (intros; apply H; by right).
  unfold seqEvents. destruct (H s ltac:(left)) as [-> ->]. cbn [seq fmap list_fmap concat]. rewrite app_nil_r.
  unfold prefillEvents, prefillLayerEvents. cbn [seq fmap list_fmap concat].
  assert (∀ (ls : list nat), concat ((λ _ : nat, @nil event) <$> ls) = []) as -> by (induction ls; done). done.
Qed.

Lemma Progress_start copies ps sim t0 :
  I sim → (∀ p, p ∈ ps → PromptShape m (tp_data p) ∧ RoutesValid m (tp_data p)) →
  Progress (virtualSequences copies ps) t0 (mkLoop (virtualSequences copies ps) sim (emptyResult t0) []) [] [].
Proof.
  intros HI Hps. assert (∀ s, s ∈ virtualSequences copies ps → vs_phase s = virtualPhaseWaiting) as Hw.
  { by intros s (p & _ & ->)%virtualSequences_start. }
  constructor; cbn [vl_seqs vl_sim vl_result vl_forwards]; try done.
  - constructor.
    + intros s (p & Hp & ->)%virtualSequences_start. by apply Hps.
    + by intros s (p & Hp & ->)%virtualSequences_start.
    + rewrite start_inactive by done. lia.
    + intros i j s t _ _ Ht _. apply Hw. by eapply list_elem_of_lookup_2.
  - intros l e. etrans; [apply start_contributed|done]. by intros s (p & _ & ->)%virtualSequences_start.
  - cbn [vr_DecodeForwards emptyResult]. symmetry. etrans; [apply (total_ext _ (λ _, 0%Z))|].
    + by intros s (p & _ & ->)%virtualSequences_start.
    + clear. induction (virtualSequences copies ps) as [|s l IH]; [done|]. by rewrite total_cons, IH.
Qed.

(** ** The end *)

(** What a finished sequence has contributed is its whole prompt. *)
Lemma done_total (F : virtualTraceSequence → Z) (G : moeTracePrompt → Z) seqs ps :
  vs_prompt <$> seqs = ps → hasVirtualWork seqs = false → (∀ s, s ∈ seqs → PhaseOk s) →
  (∀ s, vs_phase s = virtualPhaseDone → PhaseOk s → F s = G (vs_prompt s)) → total F seqs = total G ps.
Proof.
  intros <- Hw Hph HF. rewrite total_fmap. apply total_ext. intros s Hs. apply HF; [|by apply Hph].
  unfold hasVirtualWork in Hw. destruct (decide (vs_phase s = virtualPhaseDone)) as [|Hne]; [done|]. exfalso.
  enough (existsb (λ s, negb (bool_decide (vs_phase s = virtualPhaseDone))) seqs = true) by congruence.
  apply existsb_exists. exists s. split; [by apply list_elem_of_In|]. by rewrite bool_decide_false.
Qed.

Lemma done_work seqs : hasVirtualWork seqs = false → totalWork seqs = 0.
Proof.
  unfold hasVirtualWork, totalWork. induction seqs as [|s l IH]; [done|]. cbn [existsb fmap list_fmap]. intros [H1 H2]%orb_false_iff.
  change (seqWork s + sum_list (seqWork <$> l) = 0). rewrite (IH H2). rewrite negb_false_iff, bool_decide_eq_true in H1. unfold seqWork. by rewrite H1.
Qed.
End Run.

(** The tokens the forwards of a prompt process: its input tokens and, for all but the
    first output token, one decode token each. *)
Definition promptTokens (p : moeTracePrompt) : nat :=
  length (pd_InputTokenIDs (tp_data p)) + (length (pd_DecodeTokenIDs (tp_data p)) - 1).

Lemma start_work copies ps : totalWork (virtualSequences copies ps) = sum_list (promptTokens <$> concat (replicate copies ps)).
Proof.
  rewrite <- virtualSequences_prompts. unfold totalWork. rewrite <- list_fmap_compose. f_equal. apply list_fmap_ext.
  intros i s Hs. apply list_elem_of_lookup_2, virtualSequences_start in Hs as (p & _ & ->). unfold seqWork, promptTokens. cbn. unfold inputTokensOf, outputTokensOf. cbn. lia.
Qed.

Lemma last_busy copies ps p :
  last ps = Some p → 0 < promptTokens p → LastBusy (virtualSequences copies ps).
Proof.
  intros Hl Hb s Hs. pose proof (f_equal (fmap vs_prompt) Hs) as E. rewrite <- fmap_last, virtualSequences_prompts in E. cbn in E.
  assert (last (concat (replicate copies ps)) = Some p ∨ copies = 0) as [E2|E2].
  { destruct copies as [|n]; [by right|left]. rewrite replicate_S_end, concat_app. cbn [concat]. rewrite app_nil_r, last_app, Hl. done. }
  - rewrite E2 in E. injection E as E. unfold idle, inputTokensOf, outputTokensOf, promptTokens in *. rewrite <- E. lia.
  - subst copies. done.
Qed.

End TraceVirtualProps.
