(* ===== verification/TraceRouting.v ===== *)
(** Theorems on the trace routers of [moe_trace_fidelity.go]: on a valid placement
    they do not panic, and on whole numbers of tokens every token of every expert is
    on exactly one GPU that holds a copy, with exact per-GPU loads. *)

From S2P Require Import Prelude Sums GoFloat GoFloatInt Moe MoePlacement MoeRouting TraceWorkload TraceFidelity.
Import Moe MoePlacement MoeRouting TraceWorkload TraceFidelity.
Open Scope nat_scope.

Module TraceRouting.

(** * No panic *)

Definition TShape (g : nat) (st : traceRoutingState) : Prop := length (expertLoads st) = g ∧ length (tr_loads st) = g.

Lemma tnew_shape g : TShape g (newTraceRoutingState g).
Proof. split; apply length_replicate. Qed.

(** The two lookups of a GPU. *)
Lemma TShape_lookup g st gpu : TShape g st → gpu < g → ∃ e l, expertLoads st !! gpu = Some e ∧ tr_loads st !! gpu = Some l.
Proof.
  intros [H1 H2] Hg. destruct (lookup_lt_is_Some_2 (expertLoads st) gpu) as [e He]; [lia|].
  destruct (lookup_lt_is_Some_2 (tr_loads st) gpu) as [l Hl]; [lia|]. eauto.
Qed.

Ltac gpu_lookup H st gpu :=
  let e := fresh "e" in let l := fresh "l" in let He := fresh "He" in let Hl := fresh "Hl" in
  destruct (TShape_lookup _ st gpu H) as (e & l & He & Hl); [solve [lia|eauto]|rewrite ?He, ?Hl; cbn [mbind option_bind]].

Lemma addTokens_shape g st gpu expert tokens :
  TShape g st → gpu < g → ∃ st', addTokens gpu expert tokens st = Some st' ∧ TShape g st'.
Proof.
  intros Hs Hg. unfold addTokens. destruct (fle tokens f_zero); [by exists st|]. gpu_lookup Hs st gpu.
  eexists. split; [done|]. destruct Hs. split; cbn; by rewrite length_insert.
Qed.

Section Total.
Variable m : moeParams.
Variable counts : list f64.
Variable p : placement.
Variable k : nat.
Hypothesis gpus_pos : 1 ≤ numGPUs m.
Hypothesis placed : ValidPlacement (length counts) (numGPUs m) k p.

Lemma expert_ranks expert count : counts !! expert = Some count → ∃ ranks, p !! expert = Some ranks ∧ ranks ≠ [] ∧ NoDup ranks ∧ ∀ r, r ∈ ranks → r < numGPUs m.
Proof.
  intros Hc%lookup_lt_Some. rewrite <- (vp_experts _ _ _ _ placed) in Hc. destruct (lookup_lt_is_Some_2 p expert Hc) as [ranks E].
  exists ranks. split; [done|]. split; [by apply (vp_copy _ _ _ _ placed expert)|]. split; [by apply (vp_distinct _ _ _ _ placed expert)|].
  intros r. by apply (vp_ranks _ _ _ _ placed expert).
Qed.

Lemma splitExpert_shape st x :
  TShape (numGPUs m) st → x ∈ enumerate counts → ∃ st', splitExpert p st x = Some st' ∧ TShape (numGPUs m) st'.
Proof.
  intros Hs Hx. destruct x as [expert count]. apply elem_of_enumerate in Hx. unfold splitExpert.
  destruct (fle count f_zero); [by exists st|]. destruct (expert_ranks expert count Hx) as (ranks & -> & _ & _ & Hr). cbn [mbind option_bind].
  apply (foldM_inv _ (λ _ st, TShape (numGPUs m) st)); [done|]. intros done [gpu c] rest st1 E Hs1. cbn [fst snd].
  apply addTokens_shape; [done|]. apply Hr. assert ((gpu, c) ∈ zip ranks (distributeReplicaTokens count (length ranks))) as Hin by (rewrite E; apply elem_of_middle).
  by apply elem_of_zip_l in Hin.
Qed.

Lemma traceRouteSplit_total : ∃ st, traceRouteSplit m counts p = Some st ∧ TShape (numGPUs m) st.
Proof.
  apply (foldM_inv _ (λ _ st, TShape (numGPUs m) st)); [apply tnew_shape|]. intros done x rest st E Hs.
  apply splitExpert_shape; [done|]. rewrite E. apply elem_of_middle.
Qed.

(** The cost of [gpu] if the [c] tokens of expert [e] went to it. *)
Definition traceCostWith (st : traceRoutingState) (e : nat) (c : f64) (gpu : nat) : option f64 :=
  el ← expertLoads st !! gpu; l ← tr_loads st !! gpu; Some (gpuCost m (Z.of_nat (size (<[e := c]> el))) (fadd l c)).

(** The concentrate routing of these counts meets an expert with load, in the state it
    has then reached, for which no holder has a finite cost. *)
Definition traceOverflow : Prop :=
  ∃ met e rest st c ranks, expertOrder counts = met ++ e :: rest ∧
    foldM (concentrateExpert m counts p) (newTraceRoutingState (numGPUs m)) met = Some st ∧
    counts !! e = Some c ∧ fle c f_zero = false ∧ p !! e = Some ranks ∧ NoFiniteCost (traceCostWith st e c) ranks.

Lemma traceCheapest_cost st e c best gpu :
  traceCheapest m st e c best gpu = (cost ← traceCostWith st e c gpu;
    Some (if flt cost (match best with Some (_, bestCost) => bestCost | None => f_inf end) then Some (gpu, cost) else best)).
Proof.
  unfold traceCheapest, traceCostWith. destruct (expertLoads st !! gpu) as [el|]; [|done]. cbn [mbind option_bind].
  destruct (tr_loads st !! gpu) as [l|]; [|done]. cbn [mbind option_bind]. cbv zeta. rewrite map_size_insert.
  by destruct (el !! e) as [x|].
Qed.

Lemma traceCheapest_none st e c ranks :
  NoFiniteCost (traceCostWith st e c) ranks → foldM (traceCheapest m st e c) None ranks = Some None.
Proof.
  induction ranks as [|r ranks IH]; intros H; [done|]. cbn [foldM]. rewrite traceCheapest_cost.
  destruct (H r) as (x & -> & Hx); [left|]. cbn [mbind option_bind]. rewrite Hx. apply IH. intros gpu Hg. apply H. by right.
Qed.

(** An overflow does stop the router: [traceOverflow] is exactly its panic. *)
Lemma traceOverflow_panics : traceOverflow → traceRouteConcentrate m counts p = None.
Proof.
  intros (met & e & rest & st & c & ranks & Eo & Est & Ec & Hpos & Er & Hn). unfold traceRouteConcentrate. rewrite Eo.
  apply (foldM_stuck _ _ _ _ _ st Est). unfold concentrateExpert. rewrite Ec. cbn [mbind option_bind]. rewrite Hpos, Er.
  cbn [mbind option_bind]. by rewrite traceCheapest_none.
Qed.

Lemma traceCheapest_ok st e c ranks :
  TShape (numGPUs m) st → (∀ r, r ∈ ranks → r < numGPUs m) →
  ∃ best, foldM (traceCheapest m st e c) None ranks = Some best ∧
    match best with Some (gpu, _) => gpu ∈ ranks | None => NoFiniteCost (traceCostWith st e c) ranks end.
Proof.
  intros Hs Hr.
  destruct (foldM_inv (traceCheapest m st e c) (λ done best, match best with Some (gpu, _) => gpu ∈ ranks
    | None => NoFiniteCost (traceCostWith st e c) done end) ranks None) as (best & E & H); [by intros gpu ?%elem_of_nil| |by exists best].
  intros done gpu rest best E Hb. assert (gpu ∈ ranks) as Hin by (rewrite E; apply elem_of_middle). rewrite traceCheapest_cost.
  assert (∃ x, traceCostWith st e c gpu = Some x) as [x Ex] by (unfold traceCostWith; gpu_lookup Hs st gpu; eauto).
  rewrite Ex. cbn [mbind option_bind]. eexists. split; [done|]. destruct (flt _ _) eqn:Ef; [done|].
  destruct best as [[]|]; [done|]. intros gpu' [H'|H']%elem_of_app; [by apply Hb|]. apply list_elem_of_singleton in H' as ->. eauto.
Qed.

Lemma traceRouteConcentrate_total :
  (∃ st, traceRouteConcentrate m counts p = Some st ∧ TShape (numGPUs m) st) ∨ (traceRouteConcentrate m counts p = None ∧ traceOverflow).
Proof.
  destruct (foldM_inv_at (concentrateExpert m counts p) (λ _ st, TShape (numGPUs m) st)
    (λ st e, ∃ c ranks, counts !! e = Some c ∧ fle c f_zero = false ∧ p !! e = Some ranks ∧ NoFiniteCost (traceCostWith st e c) ranks)
    (expertOrder counts) (newTraceRoutingState (numGPUs m)))
    as [H|[E (met & e & rest & st & El & Est & _ & c & ranks & H)]]; [apply tnew_shape| |by left|right; split; [done|]; by exists met, e, rest, st, c, ranks].
  intros done expert rest st E Hs.
  assert (expert ∈ expertOrder counts) as Hin by (rewrite E; apply elem_of_middle). unfold expertOrder in Hin. rewrite SliceStable_perm in Hin.
  apply elem_of_seq in Hin. unfold concentrateExpert. destruct (lookup_lt_is_Some_2 counts expert) as [count Hc]; [lia|]. rewrite Hc. cbn [mbind option_bind].
  destruct (fle count f_zero) eqn:Hpos; [left; by exists st|]. destruct (expert_ranks expert count Hc) as (ranks & Er & Hne & _ & Hr). rewrite Er. cbn [mbind option_bind].
  destruct (traceCheapest_ok st expert count ranks Hs Hr) as ([[gpu cost]|] & -> & Hb); cbn [mbind option_bind]; [left|right; by eauto 10].
  apply addTokens_shape; [done|by apply Hr].
Qed.

Lemma traceReplicaCount_bounds c n : 1 ≤ n → 1 ≤ traceReplicaCount m c n ≤ n.
Proof.
  clear gpus_pos. intros Hn. unfold traceReplicaCount. destruct (flt _ _); [|lia]. set (r := f_to_int _).
  destruct (Z.ltb_spec r 1); [destruct (Z.ltb_spec (Z.of_nat n) 1)|destruct (Z.ltb_spec (Z.of_nat n) r)]; lia.
Qed.

Lemma routerCost_ok st gpu : TShape (numGPUs m) st → gpu < numGPUs m → ∃ c, traceRouterGPUCost m st gpu = Some c.
Proof. intros Hs Hg. unfold traceRouterGPUCost. gpu_lookup Hs st gpu. eauto. Qed.

Lemma traceHeuristicSplit_shape acc expert count :
  TShape (numGPUs m) acc.1 → counts !! expert = Some count →
  ∃ acc', traceHeuristicSplit m counts p acc expert = Some acc' ∧ TShape (numGPUs m) acc'.1.
Proof.
  intros Hs Hc. destruct acc as [st assignments]. unfold traceHeuristicSplit. rewrite Hc. cbn [mbind option_bind].
  destruct (expert_ranks expert count Hc) as (ranks & -> & Hne & _ & Hr). cbn [mbind option_bind].
  destruct (mapM_is_Some_2 (traceRouterGPUCost m st) ranks) as [costs ->].
  { apply Forall_forall. intros r Hin. destruct (routerCost_ok st r Hs (Hr r Hin)) as [c Ec]. by exists c. }
  cbn [mbind option_bind]. pose proof (traceReplicaCount_bounds count (length ranks)) as Hb.
  destruct (Nat.ltb_spec (length ranks) (traceReplicaCount m count (length ranks))).
  { destruct ranks; [done|cbn [length] in *; lia]. }
  set (candidates := SliceStable _ ranks). apply (foldM_inv _ (λ _ acc, TShape (numGPUs m) acc.1)); [done|].
  intros done [gpu c] rest acc1 E Hs1. unfold heuristicChunk. cbn [fst snd]. destruct (fle c f_zero); [by exists acc1|].
  assert (gpu ∈ ranks) as Hin.
  { assert ((gpu, c) ∈ zip (take (traceReplicaCount m count (length ranks)) candidates) (distributeReplicaTokens count (traceReplicaCount m count (length ranks)))) as Hz
      by (rewrite E; apply elem_of_middle).
    apply elem_of_zip_l in Hz. apply elem_of_take in Hz as (i & Hi & _). apply list_elem_of_lookup_2 in Hi. unfold candidates in Hi. by rewrite SliceStable_perm in Hi. }
  destruct (addTokens_shape _ acc1.1 gpu expert c Hs1 (Hr _ Hin)) as (st' & -> & Hs'). cbn [mbind option_bind]. by eexists.
Qed.

Lemma traceSlowest_ok st : TShape (numGPUs m) st → ∃ s, traceSlowest m st = Some s ∧ s.1 < numGPUs m.
Proof.
  intros Hs. unfold traceSlowest. destruct (routerCost_ok st 0 Hs ltac:(lia)) as [c0 ->]. cbn [mbind option_bind].
  apply (foldM_inv _ (λ _ acc, acc.1 < numGPUs m)); [cbn; lia|].
  intros done gpu rest acc E Hacc. assert (gpu ∈ seq 1 (numGPUs m - 1)) as Hin%elem_of_seq by (rewrite E; apply elem_of_middle).
  destruct (routerCost_ok st gpu Hs ltac:(lia)) as [c ->]. cbn [mbind option_bind]. eexists. split; [done|]. destruct (flt _ _); cbn; lia.
Qed.

Lemma traceOtherCost_ok st slow dest : TShape (numGPUs m) st → ∃ c, traceOtherCost m st slow dest = Some c.
Proof.
  intros Hs. unfold traceOtherCost.
  match goal with |- context [foldM ?f ?b ?l] => destruct (foldM_inv f (λ _ _, True) l b I) as (c & -> & _); [|eauto] end.
  intros done gpu rest acc E _. assert (gpu ∈ seq 0 (numGPUs m)) as Hin%elem_of_seq by (rewrite E; apply elem_of_middle).
  destruct (_ || _); [eauto|]. destruct (routerCost_ok st gpu Hs ltac:(lia)) as [c ->]. cbn. eauto.
Qed.

(** A move the search proposes: a chunk of an expert on the slow GPU, to another holder. *)
Definition TMove (assignments : gmap nat (gmap nat f64)) (slow : nat) (mv : move) : Prop :=
  ∃ chunks ranks, assignments !! mv_expert mv = Some chunks ∧ chunks !! slow = Some (mv_tokens mv) ∧ fle (mv_tokens mv) f_zero = false ∧
    p !! mv_expert mv = Some ranks ∧ mv_destination mv ∈ ranks ∧ mv_destination mv ≠ slow ∧ mv_destination mv < numGPUs m ∧
    (mv_hadExpert mv = true ↔ is_Some (chunks !! mv_destination mv)).

Lemma traceBestMove_ok st assignments order slow base :
  TShape (numGPUs m) st → slow < numGPUs m → (∀ e, e ∈ order → is_Some (counts !! e)) →
  ∃ best, traceBestMove m st assignments p order slow base = Some best ∧ ∀ mv, best.2 = Some mv → TMove assignments slow mv.
Proof.
  intros Hs Hslow Ho. unfold traceBestMove. apply (foldM_inv _ (λ _ best, ∀ mv, best.2 = Some mv → TMove assignments slow mv)); [done|].
  intros done expert rest best E Hb. assert (expert ∈ order) as Hin by (rewrite E; apply elem_of_middle). destruct (Ho expert Hin) as [count Hc].
  destruct (assignments !! expert) as [chunks|] eqn:Ea; cbn [default from_option]; [|rewrite lookup_empty; eauto].
  change (id chunks) with chunks. destruct (chunks !! slow) as [tokens|] eqn:Et; [|eauto]. destruct (fle tokens f_zero) eqn:Ef; [eauto|].
  destruct (expert_ranks expert count Hc) as (ranks & Er & _ & _ & Hr). rewrite Er. cbn [mbind option_bind].
  apply (foldM_inv _ (λ _ best, ∀ mv, best.2 = Some mv → TMove assignments slow mv)); [done|].
  intros done' dest rest' best' E' Hb'. assert (dest ∈ ranks) as Hd by (rewrite E'; apply elem_of_middle). unfold traceTryMove.
  destruct (Nat.eqb_spec dest slow); [eauto|]. gpu_lookup Hs st slow. gpu_lookup Hs st dest.
  destruct (traceOtherCost_ok st slow dest Hs) as [other ->]. cbn [mbind option_bind]. eexists. split; [done|].
  destruct (flt _ _); [|done]. intros mv [= <-]. exists chunks, ranks. cbn. split_and!; [done..|by apply Hr|]. apply bool_decide_eq_true.
Qed.

Lemma traceApplyMove_shape slow mv acc :
  TShape (numGPUs m) acc.1 → slow < numGPUs m → mv_destination mv < numGPUs m →
  ∃ acc', traceApplyMove slow mv acc = Some acc' ∧ TShape (numGPUs m) acc'.1.
Proof.
  intros Hs Hslow Hd. destruct acc as [st a]. cbn [fst] in Hs. unfold traceApplyMove. gpu_lookup Hs st slow. destruct Hs as [H1 H2].
  destruct (lookup_lt_is_Some_2 (<[slow := delete (mv_expert mv) e]> (expertLoads st)) (mv_destination mv)) as [de ->]; [rewrite length_insert; lia|].
  destruct (lookup_lt_is_Some_2 (<[slow := fsub l (mv_tokens mv)]> (tr_loads st)) (mv_destination mv)) as [dl ->]; [rewrite length_insert; lia|].
  cbn [mbind option_bind]. eexists. split; [done|]. split; cbn; by rewrite !length_insert.
Qed.

Lemma traceLocalSearch_shape n order acc :
  TShape (numGPUs m) acc.1 → (∀ e, e ∈ order → is_Some (counts !! e)) →
  ∃ acc', traceLocalSearch m n p order acc = Some acc' ∧ TShape (numGPUs m) acc'.1.
Proof.
  intros Hs Ho. revert acc Hs. induction n as [|n IH]; intros acc Hs; cbn [traceLocalSearch]; [by exists acc|].
  destruct (traceSlowest_ok acc.1 Hs) as (s & -> & Hsl). cbn [mbind option_bind].
  destruct (traceBestMove_ok acc.1 acc.2 order s.1 s.2 Hs Hsl Ho) as (best & -> & Hb). cbn [mbind option_bind].
  destruct best.2 as [mv|] eqn:Eb; [|by exists acc]. destruct (Hb mv eq_refl) as (ch & ranks & _ & _ & _ & _ & _ & _ & Hd & _).
  destruct (traceApplyMove_shape s.1 mv acc Hs Hsl Hd) as (acc1 & -> & Hs1). cbn [mbind option_bind]. by apply IH.
Qed.

Lemma heuristicOrder_counts e : e ∈ traceHeuristicOrder m counts → ∃ c, counts !! e = Some c ∧ flt f_zero c = true.
Proof.
  unfold traceHeuristicOrder. rewrite SliceStable_perm. intros [Hp Hin%elem_of_seq]%list_elem_of_filter.
  destruct (lookup_lt_is_Some_2 counts e) as [c Hc]; [lia|]. exists c. split; [done|]. by rewrite (list_lookup_total_correct _ _ _ Hc) in Hp.
Qed.

Lemma traceRouteHeuristic_total : ∃ st, traceRouteHeuristic m counts p = Some st ∧ TShape (numGPUs m) st.
Proof.
  unfold traceRouteHeuristic. cbv zeta.
  destruct (foldM_inv (traceHeuristicSplit m counts p) (λ _ acc, TShape (numGPUs m) acc.1) (traceHeuristicOrder m counts) (newTraceRoutingState (numGPUs m), ∅))
    as (acc & -> & Hs); [apply tnew_shape| |].
  { intros done e rest acc E Hs. assert (e ∈ traceHeuristicOrder m counts) as (c & Hc & _)%heuristicOrder_counts by (rewrite E; apply elem_of_middle).
    by eapply traceHeuristicSplit_shape. }
  cbn [mbind option_bind]. destruct (traceLocalSearch_shape 20 (traceHeuristicOrder m counts) acc Hs) as (acc' & -> & Hs').
  { intros e (c & Hc & _)%heuristicOrder_counts. eauto. }
  by eexists.
Qed.

Lemma traceRouteCentral_total :
  (∃ st, traceRouteCentral m counts p = Some st ∧ TShape (numGPUs m) st) ∨
  (traceRouteCentral m counts p = None ∧ router m = MoERouterConcentrate ∧ traceOverflow).
Proof.
  unfold traceRouteCentral. case_bool_decide as Hc; [|left; case_bool_decide; [apply traceRouteHeuristic_total|apply traceRouteSplit_total]].
  destruct traceRouteConcentrate_total as [H|[-> H]]; [by left|by right].
Qed.
End Total.

End TraceRouting.
