(* ===== verification/TraceConserve.v ===== *)
(** Token conservation of the trace routers: on whole numbers of tokens every token
    of every expert is on exactly one GPU that holds a copy of it, and the per-GPU
    loads are the exact sums. *)

From S2P Require Import Prelude Sums GoFloat GoFloatInt Moe MoePlacement MoeRouting TraceWorkload TraceFidelity TraceRouting.
Import Moe MoePlacement MoeRouting TraceWorkload TraceFidelity TraceRouting.
Open Scope nat_scope.

Module TraceConserve.

(** * Dealing out whole tokens *)

(** The share of replica [r]. *)
Definition shareOf (c : Z) (replicas r : nat) : Z :=
  (c / Z.of_nat replicas + (if Z.of_nat r <? c mod Z.of_nat replicas then 1 else 0))%Z.

Lemma distributeReplicaTokens_int c replicas :
  ExactInt c → 0 < replicas → distributeReplicaTokens (f_of_Z c) replicas = f_of_Z <$> (shareOf c replicas <$> seq 0 replicas).
Proof.
  intros Hc Hr. unfold distributeReplicaTokens. destruct (Nat.eqb_spec replicas 0); [lia|]. cbn [orb].
  rewrite <- f_of_Z_0, fle_int by (done || (unfold ExactInt; lia)). destruct (Z.leb_spec c 0).
  - assert (c = 0%Z) as -> by (unfold ExactInt in Hc; lia). unfold shareOf. rewrite Z.div_0_l, Z.mod_0_l by lia.
    rewrite <- list_fmap_compose. apply list_eq. intros i. rewrite list_lookup_fmap.
    destruct (decide (i < replicas)); [rewrite lookup_replicate_2, lookup_seq_lt by done|rewrite !lookup_ge_None_2 by (rewrite ?length_replicate, ?length_seq; lia); done].
    cbn. destruct (Z.ltb_spec (Z.of_nat i) 0); [lia|done].
  - rewrite rounding_gap, f_round_int, f_to_int_int by done. rewrite <- list_fmap_compose. apply list_fmap_ext. intros i r Hi%lookup_seq. unfold shareOf. cbn.
    unfold ExactInt in Hc. rewrite Z.quot_div_nonneg, Z.rem_mod_nonneg by lia. pose proof (Z.div_pos c (Z.of_nat replicas) ltac:(lia) ltac:(lia)).
    destruct (Z.ltb_spec (Z.of_nat r) (c mod Z.of_nat replicas)); [|f_equal; lia].
    apply (fadd_int _ 1); [lia|lia|]. destruct (decide (replicas = 1)) as [->|]; [rewrite Z.mod_1_r in *; lia|].
    pose proof (Z.div_lt c (Z.of_nat replicas) ltac:(lia) ltac:(lia)). lia.
Qed.

Lemma share_nonneg c replicas r : (0 ≤ c)%Z → (0 ≤ shareOf c replicas r)%Z.
Proof. intros H. unfold shareOf. destruct replicas as [|n]; [rewrite Z.div_0_r; case_match; lia|]. pose proof (Z.div_pos c (Z.of_nat (S n))). case_match; lia. Qed.

(** The number of the first [n] indices below [k]. *)
Lemma total_below (k : Z) n : (0 ≤ k ≤ Z.of_nat n)%Z → total (λ r, if Z.of_nat r <? k then 1 else 0)%Z (seq 0 n) = k.
Proof.
  revert k. induction n as [|n IH]; intros k H; [cbn; lia|]. rewrite seq_S, total_app, total_cons. cbn [plus].
  destruct (decide (k = Z.of_nat (S n))) as [->|Hne].
  - destruct (Z.ltb_spec (Z.of_nat n) (Z.of_nat (S n))); [|lia]. rewrite (total_ext _ (λ r, if Z.of_nat r <? Z.of_nat n then 1 else 0)%Z).
    + rewrite IH by lia. unfold total. cbn. lia.
    + intros r Hr%elem_of_seq. destruct (Z.ltb_spec (Z.of_nat r) (Z.of_nat (S n))), (Z.ltb_spec (Z.of_nat r) (Z.of_nat n)); lia.
  - destruct (Z.ltb_spec (Z.of_nat n) k); [lia|]. rewrite IH by lia. unfold total. cbn. lia.
Qed.

(** The shares add up to the count. *)
Lemma share_total c replicas : 0 < replicas → total (shareOf c replicas) (seq 0 replicas) = c.
Proof.
  intros Hr. unfold shareOf. rewrite total_add. pose proof (Z.mod_pos_bound c (Z.of_nat replicas) ltac:(lia)). rewrite total_below by lia.
  assert (∀ (x : Z) (l : list nat), total (λ _, x) l = Z.of_nat (length l) * x)%Z as -> by (intros x l; induction l as [|? l IHl]; [done|rewrite total_cons, IHl; cbn [length]; lia]).
  rewrite length_seq. pose proof (Z.div_mod c (Z.of_nat replicas)). lia.
Qed.

(** * Token tables *)

(** [T gpu expert] tokens of [expert] on [gpu]. *)
Abbreviation tokenTable := (nat → nat → Z).

Definition upd (T : tokenTable) (gpu expert : nat) (b : Z) : tokenTable :=
  λ g' e', (T g' e' + (if decide (g' = gpu ∧ e' = expert) then b else 0))%Z.

Lemma upd_eq T gpu e b : upd T gpu e b gpu e = (T gpu e + b)%Z.
Proof. unfold upd. by rewrite decide_True. Qed.

Lemma upd_ne T gpu e b gpu' e' : ¬ (gpu' = gpu ∧ e' = e) → upd T gpu e b gpu' e' = T gpu' e'.
Proof. intros H. unfold upd. rewrite decide_False by done. lia. Qed.

Section Conserve.
Variable m : moeParams.
Variable cs : list Z.
Variable p : placement.
Variable k : nat.
Hypothesis gpus_pos : 1 ≤ numGPUs m.
Hypothesis placed : ValidPlacement (length cs) (numGPUs m) k p.
Hypothesis cs_nonneg : ∀ c, c ∈ cs → (0 ≤ c)%Z.
Hypothesis cs_small : (sumZ cs < 2 ^ 53)%Z.

Definition rowSum (T : tokenTable) (gpu : nat) : Z := total (T gpu) (seq 0 (length cs)).
Definition colSum (T : tokenTable) (expert : nat) : Z := total (λ gpu, T gpu expert) (seq 0 (numGPUs m)).

(** Tokens are on holders only, and no expert has more than its count. *)
Record Held (T : tokenTable) : Prop := mkHeld {
  he_nonneg : ∀ gpu e, (0 ≤ T gpu e)%Z;
  he_holder : ∀ gpu e, (0 < T gpu e)%Z → Holds p gpu e;
  he_bound : ∀ e, e < length cs → (colSum T e ≤ cs !!! e)%Z }.

(** The routing state holds exactly the tokens of [T]. *)
Record Loaded (T : tokenTable) (st : traceRoutingState) : Prop := mkLoaded {
  ld_shape : TShape (numGPUs m) st;
  ld_experts : ∀ gpu em e, expertLoads st !! gpu = Some em → em !! e = if (0 <? T gpu e)%Z then Some (f_of_Z (T gpu e)) else None;
  ld_loads : ∀ gpu l, tr_loads st !! gpu = Some l → l = f_of_Z (rowSum T gpu) }.

Lemma holds_lt gpu e : Holds p gpu e → gpu < numGPUs m ∧ e < length cs.
Proof.
  intros (ranks & Hr & Hin). split; [by apply (vp_ranks _ _ _ _ placed e ranks)|]. rewrite <- (vp_experts _ _ _ _ placed). by eapply lookup_lt_Some.
Qed.

Lemma count_le e : e < length cs → (0 ≤ cs !!! e ≤ sumZ cs)%Z.
Proof.
  intros He. destruct (lookup_lt_is_Some_2 cs e He) as [c Hc]. rewrite (list_lookup_total_correct _ _ _ Hc). pose proof (list_elem_of_lookup_2 _ _ _ Hc) as Hin.
  split; [by apply cs_nonneg|]. rewrite <- (list_fmap_id cs). apply (total_elem_le id cs c cs_nonneg Hin).
Qed.

Lemma colSum_nonneg T e : Held T → (0 ≤ colSum T e)%Z.
Proof. intros H. apply total_nonneg. intros. apply H. Qed.

Lemma cell_le T gpu e : Held T → (0 ≤ T gpu e ≤ sumZ cs)%Z.
Proof.
  intros H. split; [apply H|]. destruct (decide (T gpu e = 0%Z)) as [->|Hne]; [by apply sumZ_nonneg|].
  pose proof (he_nonneg _ H gpu e). destruct (holds_lt gpu e) as [Hg He]; [apply H; lia|].
  pose proof (he_bound _ H e He). pose proof (count_le e He).
  assert (T gpu e ≤ colSum T e)%Z; [|lia]. apply (total_elem_le (λ gpu, T gpu e)); [intros; apply H|apply elem_of_seq; lia].
Qed.

Lemma row_le T gpu : Held T → (0 ≤ rowSum T gpu ≤ sumZ cs)%Z.
Proof.
  intros H. split; [apply total_nonneg; intros; apply H|]. rewrite <- total_lookup. apply total_le. intros e He%elem_of_seq.
  etrans; [|apply (he_bound _ H); lia]. destruct (decide (T gpu e = 0%Z)) as [->|Hne]; [by apply colSum_nonneg|].
  pose proof (he_nonneg _ H gpu e). destruct (holds_lt gpu e) as [Hg _]; [apply H; lia|].
  apply (total_elem_le (λ gpu, T gpu e)); [intros; apply H|apply elem_of_seq; lia].
Qed.

Lemma upd_col T gpu e b e' : gpu < numGPUs m → colSum (upd T gpu e b) e' = (colSum T e' + (if decide (e' = e) then b else 0))%Z.
Proof.
  intros Hg. unfold colSum, upd. rewrite total_add. f_equal. destruct (decide (e' = e)) as [->|Hne].
  - rewrite (total_ext _ (λ g', if decide (g' = gpu) then b else 0%Z)) by (intros x _; repeat case_decide; naive_solver).
    rewrite total_point by apply NoDup_seq. by rewrite decide_True by (apply elem_of_seq; lia).
  - apply total_zero. intros x _. rewrite decide_False; [done|]. by intros [_ ?].
Qed.

Lemma upd_row T gpu e b gpu' : e < length cs → rowSum (upd T gpu e b) gpu' = (rowSum T gpu' + (if decide (gpu' = gpu) then b else 0))%Z.
Proof.
  intros He. unfold rowSum, upd. rewrite total_add. f_equal. destruct (decide (gpu' = gpu)) as [->|Hne].
  - rewrite (total_ext _ (λ e', if decide (e' = e) then b else 0%Z)) by (intros x _; repeat case_decide; naive_solver).
    rewrite total_point by apply NoDup_seq. by rewrite decide_True by (apply elem_of_seq; lia).
  - apply total_zero. intros x _. rewrite decide_False; [done|]. by intros [? _].
Qed.

Lemma Held_upd T gpu e b :
  Held T → (0 ≤ T gpu e + b)%Z → Holds p gpu e → (colSum T e + b ≤ cs !!! e)%Z → Held (upd T gpu e b).
Proof.
  intros H Hb Hh Hc. destruct (holds_lt _ _ Hh) as [Hg He]. constructor.
  - intros g' e'. destruct (decide (g' = gpu ∧ e' = e)) as [[-> ->]|Hne]; [by rewrite upd_eq|]. rewrite upd_ne by done. apply H.
  - intros g' e'. destruct (decide (g' = gpu ∧ e' = e)) as [[-> ->]|Hne]; [done|]. rewrite upd_ne by done. apply H.
  - intros e' He'. rewrite upd_col by done. destruct (decide (e' = e)) as [->|]; [done|]. rewrite Z.add_0_r. by apply H.
Qed.

Lemma Loaded_ext T T' st : (∀ gpu e, T gpu e = T' gpu e) → Loaded T st → Loaded T' st.
Proof.
  intros HT [H1 H2 H3]. constructor; [done|..].
  - intros gpu em e Hem. rewrite <- HT. by apply H2.
  - intros gpu l Hl. rewrite (H3 gpu l Hl). f_equal. by apply total_ext.
Qed.

Lemma exact_of z : (0 ≤ z ≤ sumZ cs)%Z → ExactInt z.
Proof. unfold ExactInt. lia. Qed.

Lemma positive_int z : ExactInt z → fle (f_of_Z z) f_zero = (z <=? 0)%Z.
Proof. intros H. rewrite <- f_of_Z_0. apply fle_int; [done|]. unfold ExactInt. lia. Qed.

Lemma default_cell T gpu e (x : option f64) : Held T → x = (if (0 <? T gpu e)%Z then Some (f_of_Z (T gpu e)) else None) → default f_zero x = f_of_Z (T gpu e).
Proof.
  intros H ->. pose proof (he_nonneg _ H gpu e). destruct (Z.ltb_spec 0 (T gpu e)); [done|]. by replace (T gpu e) with 0%Z by lia.
Qed.

(** [addTokens] of a whole number of tokens. *)
Lemma addTokens_loaded T st gpu e b st' :
  Loaded T st → Held T → (0 ≤ b)%Z → Holds p gpu e → Held (upd T gpu e b) →
  addTokens gpu e (f_of_Z b) st = Some st' → Loaded (upd T gpu e b) st'.
Proof.
  intros HL HT Hb Hh HT'. destruct (holds_lt _ _ Hh) as [Hg He]. pose proof (cell_le _ gpu e HT) as Hc. pose proof (cell_le _ gpu e HT') as Hc'. rewrite upd_eq in Hc'.
  pose proof (row_le _ gpu HT) as Hr. pose proof (row_le _ gpu HT') as Hr'. rewrite upd_row, decide_True in Hr' by done.
  unfold addTokens. rewrite positive_int by (unfold ExactInt; lia). destruct (Z.leb_spec b 0).
  { intros [= <-]. eapply Loaded_ext; [|exact HL]. intros g' e'. unfold upd. destruct (decide _); lia. }
  destruct HL as [Hs HE HLo]. destruct (TShape_lookup _ st gpu Hs Hg) as (em & l & Eem & El). rewrite Eem, El. cbn [mbind option_bind].
  intros [= <-]. constructor; cbn [expertLoads tr_loads].
  - destruct Hs. split; cbn; by rewrite length_insert.
  - intros g' em' e' Hem'. destruct (decide (g' = gpu)) as [->|Hne].
    + rewrite list_lookup_insert_eq in Hem' by (destruct Hs; lia). injection Hem' as <-. destruct (decide (e' = e)) as [->|Hne].
      * rewrite lookup_insert_eq, upd_eq, (default_cell T gpu e (em !! e) HT) by by apply HE. rewrite fadd_int by lia.
        destruct (Z.ltb_spec 0 (T gpu e + b)); [done|lia].
      * rewrite lookup_insert_ne, upd_ne by naive_solver. by apply HE.
    + rewrite list_lookup_insert_ne in Hem' by done. rewrite upd_ne by naive_solver. by apply HE.
  - intros g' l' Hl'. rewrite upd_row by done. destruct (decide (g' = gpu)) as [->|Hne].
    + rewrite list_lookup_insert_eq in Hl' by (destruct Hs; lia). injection Hl' as <-. rewrite (HLo gpu l El). apply fadd_int; lia.
    + rewrite list_lookup_insert_ne in Hl' by done. rewrite Z.add_0_r. by apply HLo.
Qed.

(** * Adding the shares of an expert *)

(** The table with shares added to the GPUs of a list. *)
Definition updAll (T : tokenTable) (e : nat) (shares : list (nat * Z)) : tokenTable := foldl (λ T y, upd T y.1 e y.2) T shares.

Lemma updAll_other T e shares gpu e' : e' ≠ e → updAll T e shares gpu e' = T gpu e'.
Proof.
  intros Hne. unfold updAll. revert T. induction shares as [|y l IH]; intros T; [done|]. cbn [foldl]. rewrite IH. apply upd_ne. by intros [_ ?].
Qed.

Lemma updAll_col T e shares : (∀ y, y ∈ shares → y.1 < numGPUs m) → colSum (updAll T e shares) e = (colSum T e + total snd shares)%Z.
Proof.
  unfold updAll. revert T. induction shares as [|y l IH]; intros T H; [symmetry; apply Z.add_0_r|]. cbn [foldl]. rewrite IH by (intros; apply H; by right).
  rewrite upd_col, decide_True, total_cons by (done || apply H; left). lia.
Qed.

(** The loop that adds shares, for any state around the routing state. *)
Lemma add_shares T e (shares : list (nat * Z)) st st' :
  Loaded T st → Held T → (∀ y, y ∈ shares → Holds p y.1 e ∧ 0 ≤ y.2)%Z → (colSum T e + total snd shares ≤ cs !!! e)%Z →
  foldM (λ st y, addTokens y.1 e y.2 st) st ((λ y : nat * Z, (y.1, f_of_Z y.2)) <$> shares) = Some st' →
  Loaded (updAll T e shares) st' ∧ Held (updAll T e shares).
Proof.
  unfold updAll. revert T st. induction shares as [|[gpu b] l IH]; intros T st HL HT Hs Hb; [by intros [= <-]|].
  rewrite total_cons in Hb. cbn [fmap list_fmap foldM foldl fst snd]. destruct (Hs (gpu, b) ltac:(left)) as [Hh Hb0]. cbn [fst snd] in *.
  assert (0 ≤ total snd l)%Z by (apply total_nonneg; intros y Hy; apply (Hs y); by right).
  assert (Held (upd T gpu e b)) as HT'. { apply Held_upd; [done| |done|lia]. pose proof (he_nonneg _ HT gpu e). lia. }
  destruct (addTokens _ _ _ _) as [st1|] eqn:E; [|done]. apply (IH (upd T gpu e b) st1); [|done|intros; apply Hs; by right|].
  - by eapply addTokens_loaded.
  - rewrite upd_col, decide_True by (done || apply (holds_lt _ _ Hh)). lia.
Qed.

(** The shares of an expert over the first GPUs of a list of holders. *)
Definition sharesOf (c : Z) (ranks : list nat) : list (nat * Z) := zip ranks (shareOf c (length ranks) <$> seq 0 (length ranks)).

Lemma sharesOf_float c ranks : ExactInt c → ranks ≠ [] →
  zip ranks (distributeReplicaTokens (f_of_Z c) (length ranks)) = (λ y : nat * Z, (y.1, f_of_Z y.2)) <$> sharesOf c ranks.
Proof.
  intros Hc Hne. rewrite distributeReplicaTokens_int; [|done|destruct ranks; [done|cbn; lia]]. unfold sharesOf.
  generalize (shareOf c (length ranks) <$> seq 0 (length ranks)). clear. induction ranks as [|r l IH]; intros [|s k]; [done..|]. cbn. f_equal. apply IH.
Qed.

Lemma sharesOf_total c ranks : ranks ≠ [] → total snd (sharesOf c ranks) = c.
Proof.
  intros Hne. unfold total, sharesOf. rewrite snd_zip by (rewrite length_fmap, length_seq; lia). apply (share_total c (length ranks)).
  destruct ranks; [done|cbn; lia].
Qed.

Lemma sharesOf_holders c e ranks ranks' : (0 ≤ c)%Z → p !! e = Some ranks' → (∀ r, r ∈ ranks → r ∈ ranks') →
  ∀ y, y ∈ sharesOf c ranks → Holds p y.1 e ∧ (0 ≤ y.2)%Z.
Proof.
  intros Hc Hp Hin [gpu b] Hy. unfold sharesOf in Hy. split.
  - apply elem_of_zip_l in Hy. exists ranks'. split; [done|]. by apply Hin.
  - apply elem_of_zip_r, list_elem_of_fmap in Hy as (i & -> & _). by apply share_nonneg.
Qed.

(** * The routers *)

(** After the experts [done]: all their tokens are placed, and no others. *)
Definition Served (done : list nat) (T : tokenTable) : Prop :=
  ∀ e, e < length cs → colSum T e = if decide (e ∈ done) then (cs !!! e) else 0%Z.

Definition Conserved (T : tokenTable) : Prop := Held T ∧ ∀ e, e < length cs → colSum T e = cs !!! e.

Lemma count_lookup e : e < length cs → (f_of_Z <$> cs) !! e = Some (f_of_Z (cs !!! e)).
Proof. intros He. destruct (lookup_lt_is_Some_2 cs e He) as [c Hc]. by rewrite list_lookup_fmap, Hc, (list_lookup_total_correct _ _ _ Hc). Qed.

Lemma count_exact e : e < length cs → ExactInt (cs !!! e).
Proof. intros He. apply exact_of. by apply count_le. Qed.

Lemma ranks_of e : e < length cs → ∃ ranks, p !! e = Some ranks ∧ ranks ≠ [] ∧ NoDup ranks.
Proof.
  intros He. rewrite <- (vp_experts _ _ _ _ placed) in He. destruct (lookup_lt_is_Some_2 p e He) as [ranks E]. exists ranks.
  split; [done|]. split; [by apply (vp_copy _ _ _ _ placed e)|by apply (vp_distinct _ _ _ _ placed e)].
Qed.

(** An expert without tokens is served by doing nothing. *)
Lemma Served_skip done T e : Served done T → e < length cs → cs !!! e = 0%Z → Served (done ++ [e]) T.
Proof.
  intros H He H0 e' He'. rewrite (H e' He'). destruct (decide (e' = e)) as [->|Hne]; [rewrite H0; repeat case_decide; done|].
  repeat case_decide; set_solver.
Qed.

Lemma Served_add done T T' e :
  Served done T → (e ∉ done) → e < length cs → colSum T' e = (colSum T e + cs !!! e)%Z → (∀ gpu e', e' ≠ e → T' gpu e' = T gpu e') → Served (done ++ [e]) T'.
Proof.
  intros H Hn He Hc Ho e' He'. destruct (decide (e' = e)) as [->|Hne].
  - rewrite Hc, (H e He), decide_False, decide_True by set_solver. lia.
  - assert (colSum T' e' = colSum T e') as -> by (apply total_ext; intros; by apply Ho). rewrite (H e' He'). repeat case_decide; set_solver.
Qed.

Lemma served_none done T e : Served done T → e < length cs → (e ∉ done) → colSum T e = 0%Z.
Proof. intros H He Hn. by rewrite (H e He), decide_False. Qed.

Lemma new_loaded : Loaded (λ _ _, 0%Z) (newTraceRoutingState (numGPUs m)) ∧ Held (λ _ _, 0%Z) ∧ Served [] (λ _ _, 0%Z).
Proof.
  assert (∀ l : list nat, total (λ _, 0%Z) l = 0%Z) as H0 by (intros; by apply total_zero). split; [|split].
  - constructor; [apply tnew_shape|..].
    + intros gpu em e [-> _]%lookup_replicate. by rewrite lookup_empty.
    + intros gpu l [-> _]%lookup_replicate. unfold rowSum. by rewrite H0.
  - constructor; [done|intros; lia|]. intros e He. unfold colSum. rewrite H0. by apply count_le.
  - intros e He. unfold colSum. rewrite H0, decide_False; [done|]. apply not_elem_of_nil.
Qed.

Lemma Served_all done T : (∀ e, e < length cs → (e ∈ done) ∨ cs !!! e = 0%Z) → Held T → Served done T → Conserved T.
Proof.
  intros Hd HT HS. split; [done|]. intros e He. rewrite (HS e He). destruct (Hd e He) as [H|H]; [by rewrite decide_True|]. rewrite H. by case_decide.
Qed.

(** All tokens of an expert are given to holders. *)
Lemma serve_shares done T st st' e ranks (chosen : list nat) :
  Loaded T st → Held T → Served done T → (e ∉ done) → e < length cs → p !! e = Some ranks → (∀ r, r ∈ chosen → r ∈ ranks) → chosen ≠ [] →
  foldM (λ st y, addTokens y.1 e y.2 st) st (zip chosen (distributeReplicaTokens (f_of_Z (cs !!! e)) (length chosen))) = Some st' →
  ∃ T', Loaded T' st' ∧ Held T' ∧ Served (done ++ [e]) T'.
Proof.
  intros HL HT HS Hn He Hr Hin Hne. rewrite sharesOf_float by (by apply count_exact || done). intros E.
  pose proof (count_le e He) as Hc. pose proof (sharesOf_holders (cs !!! e) e chosen ranks (proj1 Hc) Hr Hin) as Hh.
  assert (colSum T e + total snd (sharesOf (cs !!! e) chosen) ≤ cs !!! e)%Z as Hle by (rewrite (served_none done T e), sharesOf_total by done; lia).
  destruct (add_shares T e _ st st' HL HT Hh Hle E) as [HL' HT'].
  exists (updAll T e (sharesOf (cs !!! e) chosen)). split_and!; [done..|].
  apply (Served_add done T); [done..| |].
  - rewrite updAll_col, sharesOf_total by (done || (intros y Hy; by apply (holds_lt _ e), Hh)). done.
  - intros. by apply updAll_other.
Qed.

Lemma nodup_middle {A} (l done : list A) x rest : NoDup l → l = done ++ x :: rest → x ∉ done.
Proof. intros Hnd ->. apply NoDup_app in Hnd as (_ & Hd & _). intros Hx. apply (Hd x Hx). left. Qed.

Lemma split_conserved st : traceRouteSplit m (f_of_Z <$> cs) p = Some st → ∃ T, Loaded T st ∧ Conserved T.
Proof.
  unfold traceRouteSplit. intros H. destruct new_loaded as (HL0 & HH0 & HS0).
  destruct (foldM_history _ (λ done st, ∃ T, Loaded T st ∧ Held T ∧ Served (fst <$> done) T) _ _ _ H) as (T & HL & HT & HS).
  - by exists (λ _ _, 0%Z).
  - intros done [e c] rest st0 st1 E Hst (T & HL & HT & HS). pose proof (enumerate_fst (f_of_Z <$> cs)) as Ef. rewrite E, fmap_app, length_fmap in Ef. cbn [fmap list_fmap fst] in Ef.
    assert (e ∉ fst <$> done) as Hn by (by apply (nodup_middle (seq 0 (length cs)) _ e (fst <$> rest)); [apply NoDup_seq|]).
    assert ((e, c) ∈ enumerate (f_of_Z <$> cs)) as Hin by (rewrite E; apply elem_of_middle). apply elem_of_enumerate in Hin.
    assert (e < length cs) as He by (apply lookup_lt_Some in Hin; by rewrite length_fmap in Hin). rewrite count_lookup in Hin by done. injection Hin as <-.
    rewrite fmap_app. cbn [fmap list_fmap fst]. unfold splitExpert in Hst. rewrite positive_int in Hst by by apply count_exact. pose proof (count_le e He).
    destruct (Z.leb_spec (cs !!! e) 0); [injection Hst as <-; exists T; split_and!; [done..|]; apply Served_skip; [done..|lia]|].
    destruct (ranks_of e He) as (ranks & Hr & Hne & _). rewrite Hr in Hst. cbn [mbind option_bind] in Hst. by eapply serve_shares.
  - exists T. split; [done|]. apply (Served_all (fst <$> enumerate (f_of_Z <$> cs))); [|done..]. intros e He. left. rewrite enumerate_fst, length_fmap. apply elem_of_seq. lia.
Qed.

Lemma addTokens_share e st gpu c : foldM (λ st y, addTokens y.1 e y.2 st) st (zip [gpu] (distributeReplicaTokens (f_of_Z c) 1)) = addTokens gpu e (f_of_Z c) st ∨ ¬ ExactInt c.
Proof.
  destruct (decide (0 ≤ c < 2 ^ 53)%Z) as [Hc|]; [left|by right]. rewrite distributeReplicaTokens_int by (done || lia). cbn [seq fmap list_fmap zip_with foldM fst snd].
  unfold shareOf. rewrite Z.div_1_r, Z.mod_1_r, Z.add_0_r. by destruct (addTokens _ _ _ _).
Qed.

Lemma concentrate_conserved st : traceRouteConcentrate m (f_of_Z <$> cs) p = Some st → ∃ T, Loaded T st ∧ Conserved T.
Proof.
  unfold traceRouteConcentrate. intros H. destruct new_loaded as (HL0 & HH0 & HS0).
  assert (Hperm : expertOrder (f_of_Z <$> cs) ≡ₚ seq 0 (length cs)) by (unfold expertOrder; rewrite SliceStable_perm, length_fmap; done).
  destruct (foldM_history _ (λ done st, ∃ T, Loaded T st ∧ Held T ∧ Served done T) _ _ _ H) as (T & HL & HT & HS).
  - by exists (λ _ _, 0%Z).
  - intros done e rest st0 st1 E Hst (T & HL & HT & HS).
    assert (e ∉ done) as Hn by (by apply (nodup_middle (expertOrder (f_of_Z <$> cs)) _ e rest); [rewrite Hperm; apply NoDup_seq|]).
    assert (e ∈ expertOrder (f_of_Z <$> cs)) as Hin by (rewrite E; apply elem_of_middle). rewrite Hperm in Hin. apply elem_of_seq in Hin as [_ He].
    unfold concentrateExpert in Hst. rewrite count_lookup in Hst by done. cbn [mbind option_bind] in Hst. rewrite positive_int in Hst by by apply count_exact. pose proof (count_le e He).
    destruct (Z.leb_spec (cs !!! e) 0); [injection Hst as <-; exists T; split_and!; [done..|]; apply Served_skip; [done..|lia]|].
    destruct (ranks_of e He) as (ranks & Hr & Hne & _). rewrite Hr in Hst. cbn [mbind option_bind] in Hst.
    destruct (traceCheapest_ok m st0 e (f_of_Z (cs !!! e)) ranks (ld_shape _ _ HL)) as (best & Eb & Hb).
    { intros r Hrin. by apply (vp_ranks _ _ _ _ placed e ranks). }
    rewrite Eb in Hst. cbn [mbind option_bind] in Hst. destruct best as [[gpu cost]|]; [|done].
    eapply (serve_shares done T st0 st1 e ranks [gpu]); try done.
    + by intros r ->%list_elem_of_singleton.
    + change (length [gpu]) with 1. destruct (addTokens_share e st0 gpu (cs !!! e)) as [->|Hx]; [done|]. by destruct (Hx (count_exact e He)).
  - exists T. split; [done|]. apply (Served_all (expertOrder (f_of_Z <$> cs))); [|done..]. intros e He. left. rewrite Hperm. apply elem_of_seq. lia.
Qed.

(** ** The heuristic router *)

(** The chunk map of an expert describes its column of the table. *)
Definition Chunks (T : tokenTable) (assignments : gmap nat (gmap nat f64)) (e : nat) : Prop :=
  ∃ chunks, assignments !! e = Some chunks ∧ ∀ gpu, chunks !! gpu = if (0 <? T gpu e)%Z then Some (f_of_Z (T gpu e)) else None.

Record HeurOk (done : list nat) (T : tokenTable) (acc : traceRoutingState * gmap nat (gmap nat f64)) : Prop := mkHeurOk {
  ho_loaded : Loaded T acc.1;
  ho_held : Held T;
  ho_served : Served done T;
  ho_done : ∀ e, e ∈ done → e < length cs;
  ho_chunks : ∀ e, e ∈ done → Chunks T acc.2 e;
  ho_dom : ∀ e, is_Some (acc.2 !! e) → e ∈ done }.

(** The chunk loop adds the same tokens as the plain one, and records them. *)
Lemma heuristicChunks_fold e (ys : list (nat * f64)) acc acc' :
  foldM (heuristicChunk e) acc ys = Some acc' → foldM (λ st y, addTokens y.1 e y.2 st) acc.1 ys = Some acc'.1.
Proof.
  revert acc. induction ys as [|y ys IH]; intros [st a]; cbn [foldM]; [by intros [= <-]|]. unfold heuristicChunk at 1. cbn [fst snd].
  assert (fle y.2 f_zero = true → addTokens y.1 e y.2 st = Some st) as Hz by (unfold addTokens; by intros ->).
  destruct (fle y.2 f_zero) eqn:Ef; [rewrite Hz by done; by intros ?%IH|]. destruct (addTokens _ _ _ _) as [st1|]; [|done]. cbn [mbind option_bind]. by intros ?%IH.
Qed.

(** A share list on distinct GPUs, as a map of its positive entries. *)
Definition shareMap (shares : list (nat * Z)) (gpu : nat) : option f64 :=
  match find (λ y : nat * Z, y.1 =? gpu) shares with Some (_, b) => if (0 <? b)%Z then Some (f_of_Z b) else None | None => None end.

Lemma heuristicChunks_map e (shares : list (nat * Z)) acc acc' chunks :
  NoDup (fst <$> shares) → (∀ y, y ∈ shares → ExactInt y.2) → acc.2 !! e = Some chunks →
  foldM (heuristicChunk e) acc ((λ y : nat * Z, (y.1, f_of_Z y.2)) <$> shares) = Some acc' →
  (∀ e', e' ≠ e → acc'.2 !! e' = acc.2 !! e') ∧
  ∃ chunks', acc'.2 !! e = Some chunks' ∧ ∀ gpu, chunks' !! gpu = match shareMap shares gpu with Some x => Some x | None => chunks !! gpu end.
Proof.
  revert acc chunks. induction shares as [|[g b] shares IH]; intros [st a] chunks Hnd Hb Ha; cbn [fmap list_fmap foldM fst snd].
  { intros [= <-]. split; [done|]. by exists chunks. }
  cbn [fmap list_fmap fst] in Hnd. apply NoDup_cons in Hnd as [Hg Hnd]. assert (∀ y, y ∈ shares → ExactInt y.2) as Hb' by (intros; apply Hb; by right).
  pose proof (Hb (g, b) ltac:(left)) as Hbe. cbn [snd] in *. unfold heuristicChunk at 1. cbn [fst snd]. rewrite positive_int by done.
  assert (shareMap shares g = None) as Hng.
  { unfold shareMap. destruct (find _ shares) as [[g' b']|] eqn:Ef; [|done]. apply find_some in Ef as [Hin%list_elem_of_In Eg%Nat.eqb_eq]. cbn in Eg. subst g'.
    destruct Hg. by apply (list_elem_of_fmap_2 fst) in Hin. }
  destruct (Z.leb_spec b 0).
  - intros E. destruct (IH (st, a) chunks Hnd Hb' Ha E) as (Ho & ch & Hch & Hm). split; [done|]. exists ch. split; [done|]. intros gpu. rewrite Hm.
    unfold shareMap at 2. cbn [find fst]. destruct (Nat.eqb_spec g gpu) as [->|]; [|done]. rewrite Hng. by destruct (Z.ltb_spec 0 b); [lia|].
  - destruct (addTokens _ _ _ _) as [st1|]; [|done]. cbn [mbind option_bind]. intros E.
    destruct (IH (st1, <[e := <[g := f_of_Z b]> (default ∅ (a !! e))]> a) (<[g := f_of_Z b]> chunks) Hnd Hb') with (2 := E) as (Ho & ch & Hch & Hm).
    { cbn [snd] in *. rewrite lookup_insert_eq, Ha. done. }
    split; [intros e' Hne; rewrite Ho by done; cbn [snd]; by rewrite lookup_insert_ne by congruence|]. exists ch. split; [done|]. intros gpu. rewrite Hm.
    unfold shareMap at 2. cbn [find fst]. destruct (Nat.eqb_spec g gpu) as [->|Hne].
    + rewrite Hng, lookup_insert_eq. by destruct (Z.ltb_spec 0 b); [|lia].
    + rewrite lookup_insert_ne by done. done.
Qed.

(** Shares added to an empty column are that column. *)
Lemma updAll_shareMap T e shares gpu :
  NoDup (fst <$> shares) → (∀ g, T g e = 0%Z) →
  shareMap shares gpu = if (0 <? updAll T e shares gpu e)%Z then Some (f_of_Z (updAll T e shares gpu e)) else None.
Proof.
  intros Hnd H0.
  assert (∀ T, updAll T e shares gpu e = (T gpu e + match find (λ y : nat * Z, (y.1 =? gpu)%nat) shares with Some (_, b) => b | None => 0 end)%Z) as Hu.
  2: { rewrite Hu, H0, Z.add_0_l. unfold shareMap. by destruct (find _ shares) as [[? ?]|]. }
  clear H0 T. induction shares as [|[g b] shares IH]; intros T; [unfold updAll; cbn; lia|]. cbn [fmap list_fmap fst] in Hnd. apply NoDup_cons in Hnd as [Hg Hnd].
  change (updAll T e ((g, b) :: shares)) with (updAll (upd T g e b) e shares). rewrite IH by done. cbn [find fst]. destruct (Nat.eqb_spec g gpu) as [->|Hne].
  - rewrite upd_eq. destruct (find _ shares) as [[g' b']|] eqn:Ef; [|lia]. apply find_some in Ef as [Hin%list_elem_of_In Eg%Nat.eqb_eq]. cbn in Eg. subst g'.
    destruct Hg. by apply (list_elem_of_fmap_2 fst) in Hin.
  - rewrite upd_ne by (intros [? _]; congruence). done.
Qed.

Lemma sharesOf_fst c ranks : fst <$> sharesOf c ranks = ranks.
Proof. unfold sharesOf. apply fst_zip. rewrite length_fmap, length_seq. lia. Qed.

Lemma col_zero T e gpu : Held T → e < length cs → colSum T e = 0%Z → T gpu e = 0%Z.
Proof.
  intros HT He H0. destruct (decide (gpu < numGPUs m)) as [Hg|Hg].
  - pose proof (he_nonneg _ HT gpu e). assert (T gpu e ≤ colSum T e)%Z; [|lia]. apply (total_elem_le (λ gpu, T gpu e)); [intros; apply HT|apply elem_of_seq; lia].
  - destruct (decide (T gpu e = 0%Z)) as [|Hne]; [done|]. pose proof (he_nonneg _ HT gpu e). destruct (holds_lt gpu e) as [? _]; [apply HT; lia|done].
Qed.

Lemma heuristicSplit_conserved done T acc acc' e :
  HeurOk done T acc → (e ∉ done) → e < length cs → traceHeuristicSplit m (f_of_Z <$> cs) p acc e = Some acc' → ∃ T', HeurOk (done ++ [e]) T' acc'.
Proof.
  intros [HL HT HS Hd HC Hdom] Hn He. destruct acc as [st a]. unfold traceHeuristicSplit. rewrite count_lookup by done. cbn [mbind option_bind].
  destruct (ranks_of e He) as (ranks & Hr & Hne & Hnd). rewrite Hr. cbn [mbind option_bind]. destruct (mapM _ _); [|done]. cbn [mbind option_bind].
  set (n := traceReplicaCount _ _ _). set (candidates := SliceStable _ ranks). assert (Hperm : candidates ≡ₚ ranks) by apply SliceStable_perm.
  assert (1 ≤ length ranks) as Hr1 by (destruct ranks; [done|cbn; lia]). pose proof (traceReplicaCount_bounds m (f_of_Z (cs !!! e)) _ Hr1) as [Hn1 _]. fold n in Hn1. destruct (Nat.ltb_spec (length ranks) n); [done|].
  set (chosen := take n candidates). assert (length chosen = n) as Hlen by (unfold chosen; rewrite length_take, Hperm; lia).
  assert (∀ r, r ∈ chosen → r ∈ ranks) as Hin by (intros r (i & Hi & _)%elem_of_take; rewrite <- Hperm; by eapply list_elem_of_lookup_2).
  assert (NoDup chosen) as Hndc. { rewrite <- Hperm in Hnd. rewrite <- (take_drop n candidates) in Hnd. by apply NoDup_app in Hnd as [? _]. }
  assert (chosen ≠ []) as Hcne by (intros E0; rewrite E0 in Hlen; cbn in Hlen; lia). rewrite <- Hlen. intros E.
  rewrite sharesOf_float in E by (by apply count_exact || done). pose proof (count_le e He) as Hc.
  pose proof (sharesOf_holders (cs !!! e) e chosen ranks (proj1 Hc) Hr Hin) as Hh. pose proof (heuristicChunks_fold _ _ _ _ E) as E1. cbn [fst] in E1.
  assert (colSum T e + total snd (sharesOf (cs !!! e) chosen) ≤ cs !!! e)%Z as Hle by (rewrite (served_none done T e), sharesOf_total by done; lia).
  destruct (add_shares T e _ st acc'.1 HL HT Hh Hle E1) as [HL' HT'].
  destruct (heuristicChunks_map e (sharesOf (cs !!! e) chosen) (st, <[e := ∅]> a) acc' ∅) as (Ho & ch & Hch & Hm); [by rewrite sharesOf_fst| |apply lookup_insert_eq|done|].
  { intros y Hy. apply exact_of. split; [by apply Hh|]. assert (y.2 ≤ total snd (sharesOf (cs !!! e) chosen))%Z as H1 by (apply (total_elem_le snd); [intros; by apply Hh|done]).
    rewrite sharesOf_total in H1 by done. lia. }
  assert (∀ gpu, T gpu e = 0%Z) as H0 by (intros; apply col_zero; [done..|by eapply served_none]).
  exists (updAll T e (sharesOf (cs !!! e) chosen)). constructor; [done|done|..].
  - apply (Served_add done T); [done..| |intros; by apply updAll_other].
    rewrite updAll_col, sharesOf_total by (done || (intros y Hy; by apply (holds_lt _ e), Hh)). done.
  - intros e' [?|He'%list_elem_of_singleton]%elem_of_app; [auto|by subst].
  - intros e' [He'|He'%list_elem_of_singleton]%elem_of_app; [|subst e'].
    + assert (e' ≠ e) as Hne' by (by intros ->). destruct (HC e' He') as (c & Hc1 & Hc2). exists c. rewrite Ho by done. cbn [snd] in *. rewrite lookup_insert_ne by congruence.
      split; [done|]. intros gpu. rewrite updAll_other by done. apply Hc2.
    + exists ch. split; [done|]. intros gpu. rewrite Hm, lookup_empty, (updAll_shareMap T e _ gpu) by (done || by rewrite sharesOf_fst). by destruct (0 <? _)%Z.
  - intros e' He'. destruct (decide (e' = e)) as [->|Hne']; [set_solver|]. rewrite Ho in He' by done. cbn [snd] in *. rewrite lookup_insert_ne in He' by congruence.
    apply elem_of_app. left. by apply Hdom.
Qed.

(** The table after a move. *)
Definition moved (T : tokenTable) (e slow dest : nat) : tokenTable := upd (upd T slow e (- T slow e)) dest e (T slow e).

Lemma moved_at T e slow dest gpu e' : dest ≠ slow →
  moved T e slow dest gpu e' = if decide (e' = e) then (if decide (gpu = slow) then 0 else if decide (gpu = dest) then T dest e + T slow e else T gpu e)%Z else T gpu e'.
Proof.
  intros Hne. unfold moved, upd. repeat case_decide; subst; naive_solver lia.
Qed.

Lemma moved_held T e slow dest : Held T → dest ≠ slow → Holds p slow e → Holds p dest e → Held (moved T e slow dest) ∧ ∀ e', colSum (moved T e slow dest) e' = colSum T e'.
Proof.
  intros HT Hne Hs Hd. destruct (holds_lt _ _ Hs) as [Hsg He]. destruct (holds_lt _ _ Hd) as [Hdg _].
  assert (∀ e', colSum (moved T e slow dest) e' = colSum T e') as Hc. { intros e'. unfold moved. rewrite !upd_col by done. case_decide; lia. }
  split; [|done]. pose proof (he_nonneg _ HT) as Hnn. constructor.
  - intros gpu e'. rewrite moved_at by done. repeat case_decide; try apply Hnn; [lia|]. pose proof (Hnn dest e). pose proof (Hnn slow e). lia.
  - intros gpu e'. rewrite moved_at by done. repeat case_decide; subst; [lia|done|apply HT..].
  - intros e' He'. rewrite Hc. by apply HT.
Qed.

Lemma moved_row T e slow dest gpu : e < length cs → dest ≠ slow →
  rowSum (moved T e slow dest) gpu = (rowSum T gpu + (if decide (gpu = slow) then - T slow e else if decide (gpu = dest) then T slow e else 0))%Z.
Proof. intros He Hne. unfold moved. rewrite !upd_row by done. repeat case_decide; subst; try done; lia. Qed.

Lemma applyMove_conserved done T acc acc' slow mv :
  HeurOk done T acc → slow < numGPUs m → TMove m p acc.2 slow mv → traceApplyMove slow mv acc = Some acc' → ∃ T', HeurOk done T' acc'.
Proof.
  intros [HL HT HS Hd HC Hdom] Hslow (chunks & ranks & Hch & Htok & Hpos & Hr & Hin & Hne & Hdg & Hhad). destruct acc as [st a]. cbn [fst snd] in *.
  set (e := mv_expert mv) in *. set (dest := mv_destination mv) in *. assert (e ∈ done) as Hed by (apply Hdom; eauto). pose proof (Hd e Hed) as He.
  destruct (HC e Hed) as (ch' & Hch' & Hcell). rewrite Hch in Hch'. injection Hch' as <-. pose proof (Hcell slow) as Hs. rewrite Htok in Hs.
  destruct (Z.ltb_spec 0 (T slow e)) as [Hts|]; [|done]. injection Hs as Hmt. assert (Holds p slow e) as Hhs by (by apply HT). assert (Holds p dest e) as Hhd by (by exists ranks).
  destruct (moved_held T e slow dest HT Hne Hhs Hhd) as [HT' Hcol]. pose proof (cell_le _ dest e HT) as Hcd. pose proof (cell_le _ slow e HT) as Hcs.
  pose proof (cell_le _ dest e HT') as Hcd'. rewrite moved_at, decide_True, decide_False, decide_True in Hcd' by done.
  pose proof (row_le _ slow HT) as Hrs. pose proof (row_le _ dest HT) as Hrd. pose proof (row_le _ slow HT') as Hrs'. pose proof (row_le _ dest HT') as Hrd'.
  rewrite moved_row, decide_True in Hrs' by done. rewrite moved_row, decide_False, decide_True in Hrd' by done.
  unfold traceApplyMove. fold e dest. destruct HL as [Hsh HE HLo]. destruct (TShape_lookup _ st slow Hsh Hslow) as (se & sl & Ese & Esl). rewrite Ese, Esl. cbn [mbind option_bind].
  destruct (TShape_lookup _ st dest Hsh Hdg) as (de & dl & Ede & Edl). rewrite !list_lookup_insert_ne by done. rewrite Ede, Edl. cbn [mbind option_bind].
  rewrite Hmt, Hch. change (default ∅ (Some chunks)) with chunks. intros [= <-].
  assert (∀ x, (if mv_hadExpert mv then de else <[e := f_zero]> de) !! x = (if decide (x = e) then (if mv_hadExpert mv then Some (f_of_Z (T dest e)) else Some f_zero) else de !! x)) as Hde'.
  { intros x. pose proof (HE dest de e Ede) as Hx. destruct (mv_hadExpert mv) eqn:Eh.
    - case_decide as E; [subst x|done]. rewrite Hx. destruct (proj1 Hhad eq_refl) as [v Hv]. rewrite Hcell in Hv. by destruct (0 <? T dest e)%Z.
    - case_decide as E; [subst x; apply lookup_insert_eq|by rewrite lookup_insert_ne]. }
  assert (mv_hadExpert mv = false → T dest e = 0%Z) as Hzero.
  { intros Eh. pose proof (Hcell dest) as Hx. destruct (Z.ltb_spec 0 (T dest e)); [|lia]. assert (mv_hadExpert mv = true) by (apply Hhad; eauto). congruence. }
  exists (moved T e slow dest). constructor; cbn [fst snd].
  - constructor; cbn [expertLoads tr_loads].
    + destruct Hsh. split; cbn; by rewrite !length_insert.
    + intros gpu em x Hem. rewrite moved_at by done. destruct (decide (gpu = dest)) as [->|Hgd].
      * rewrite list_lookup_insert_eq in Hem by (rewrite length_insert; destruct Hsh; lia). injection Hem as <-.
        destruct (decide (x = e)) as [->|Hxe].
        -- rewrite lookup_insert_eq, Hde', !decide_True, decide_False by done. destruct (mv_hadExpert mv) eqn:Eh; cbn [default from_option id].
           ++ rewrite fadd_int by lia. destruct (Z.ltb_spec 0 (T dest e + T slow e)); [done|lia].
           ++ rewrite (Hzero eq_refl). change (fadd f_zero (f_of_Z (T slow e))) with (fadd (f_of_Z 0) (f_of_Z (T slow e))). rewrite fadd_int by lia.
              destruct (Z.ltb_spec 0 (0 + T slow e)); [done|lia].
        -- rewrite lookup_insert_ne, Hde', decide_False by done. by apply HE.
      * rewrite list_lookup_insert_ne in Hem by done. destruct (decide (gpu = slow)) as [->|Hgs].
        -- rewrite list_lookup_insert_eq in Hem by (destruct Hsh; lia). injection Hem as <-. destruct (decide (x = e)) as [->|Hxe].
           ++ by rewrite lookup_delete_eq.
           ++ rewrite lookup_delete_ne by done. by apply HE.
        -- rewrite list_lookup_insert_ne in Hem by done. rewrite (HE gpu em x Hem). by destruct (decide (x = e)) as [->|].
    + intros gpu l Hl. rewrite moved_row by done. destruct (decide (gpu = dest)) as [->|Hgd].
      * rewrite list_lookup_insert_eq in Hl by (rewrite length_insert; destruct Hsh; lia). injection Hl as <-. rewrite decide_False by done.
        rewrite (HLo dest dl Edl). apply fadd_int; lia.
      * rewrite list_lookup_insert_ne in Hl by done. destruct (decide (gpu = slow)) as [->|Hgs].
        -- rewrite list_lookup_insert_eq in Hl by (destruct Hsh; lia). injection Hl as <-. rewrite (HLo slow sl Esl). rewrite fsub_int by lia. f_equal; lia.
        -- rewrite list_lookup_insert_ne in Hl by done. rewrite Z.add_0_r. by apply HLo.
  - done.
  - intros e' He'. rewrite Hcol. by apply HS.
  - done.
  - intros e' He'. destruct (decide (e' = e)) as [->|Hne'].
    + eexists. rewrite lookup_insert_eq. split; [done|]. intros gpu. rewrite moved_at, decide_True by done. destruct (decide (gpu = dest)) as [->|Hgd].
      * rewrite lookup_insert_eq, lookup_delete_ne, decide_False by done. rewrite (default_cell T dest e (chunks !! dest) HT) by apply Hcell. rewrite fadd_int by lia.
        destruct (Z.ltb_spec 0 (T dest e + T slow e)); [done|lia].
      * rewrite lookup_insert_ne by done. destruct (decide (gpu = slow)) as [->|Hgs]; [by rewrite lookup_delete_eq|]. by rewrite lookup_delete_ne.
    + destruct (HC e' He') as (c & Hc1 & Hc2). exists c. rewrite lookup_insert_ne by done. split; [done|]. intros gpu. rewrite moved_at, decide_False by done. apply Hc2.
  - intros e' He'. destruct (decide (e' = e)) as [->|Hne']; [done|]. rewrite lookup_insert_ne in He' by done. by apply Hdom.
Qed.

Lemma localSearch_conserved n order done T acc acc' :
  HeurOk done T acc → (∀ e, e ∈ order → e < length cs) → traceLocalSearch m n p order acc = Some acc' → ∃ T', HeurOk done T' acc'.
Proof.
  intros HO Ho. revert T acc HO. induction n as [|n IH]; intros T acc HO; cbn [traceLocalSearch]; [intros [= <-]; eauto|].
  assert (ValidPlacement (length (f_of_Z <$> cs)) (numGPUs m) k p) as Hp by (by rewrite length_fmap). pose proof (ld_shape _ _ (ho_loaded _ _ _ HO)) as Hsh.
  destruct (traceSlowest_ok m gpus_pos acc.1 Hsh) as (s & -> & Hsl). cbn [mbind option_bind].
  destruct (traceBestMove_ok m (f_of_Z <$> cs) p k gpus_pos Hp acc.1 acc.2 order s.1 s.2 Hsh Hsl) as (best & -> & Hb).
  { intros e He. rewrite count_lookup by by apply Ho. eauto. }
  cbn [mbind option_bind]. destruct best.2 as [mv|] eqn:Eb; [|intros [= <-]; eauto]. destruct (traceApplyMove _ _ _) as [acc1|] eqn:Em; [|done]. cbn [mbind option_bind].
  destruct (applyMove_conserved done T acc acc1 s.1 mv HO Hsl (Hb mv eq_refl) Em) as [T1 HO1]. by apply (IH T1).
Qed.

Lemma heuristic_conserved st : traceRouteHeuristic m (f_of_Z <$> cs) p = Some st → ∃ T, Loaded T st ∧ Conserved T.
Proof.
  unfold traceRouteHeuristic. cbv zeta. set (order := traceHeuristicOrder m (f_of_Z <$> cs)). destruct new_loaded as (HL0 & HH0 & HS0).
  assert (Hperm : order ≡ₚ filter (λ i, flt f_zero ((f_of_Z <$> cs) !!! i) = true) (seq 0 (length (f_of_Z <$> cs)))) by apply SliceStable_perm.
  assert (∀ e, e ∈ order → e < length cs) as Ho. { intros e. rewrite Hperm. intros [_ He%elem_of_seq]%list_elem_of_filter. rewrite length_fmap in He. lia. }
  destruct (foldM _ _ _) as [acc|] eqn:E; [|done]. cbn [mbind option_bind].
  destruct (foldM_history _ (λ done acc, ∃ T, HeurOk done T acc) _ _ _ E) as (T & HO).
  - exists (λ _ _, 0%Z). constructor; [done..| | |]; [intros e He; by apply not_elem_of_nil in He..|]. intros e [x Hx]. cbn [snd] in Hx. by rewrite lookup_empty in Hx.
  - intros done e rest acc0 acc1 El Hst (T & HO). apply (heuristicSplit_conserved done T acc0); [done| |apply Ho; rewrite El; apply elem_of_middle|done].
    apply (nodup_middle order _ e rest); [|done]. rewrite Hperm. apply NoDup_filter, NoDup_seq.
  - destruct (traceLocalSearch _ _ _ _ _) as [acc'|] eqn:E2; [|done]. cbn [mbind option_bind]. intros [= <-].
    destruct (localSearch_conserved 20 order order T acc acc' HO Ho E2) as (T' & [HL HT HS _ _ _]). exists T'. split; [done|]. apply (Served_all order); [|done..].
    intros e He. destruct (decide (cs !!! e = 0%Z)) as [|Hne]; [by right|left]. rewrite Hperm. apply list_elem_of_filter. split; [|apply elem_of_seq; rewrite length_fmap; lia].
    rewrite (list_lookup_total_correct _ _ _ (count_lookup e He)), <- f_of_Z_0. rewrite flt_int; [|unfold ExactInt; lia|by apply count_exact].
    apply Z.ltb_lt. pose proof (count_le e He). lia.
Qed.

Lemma central_conserved st : traceRouteCentral m (f_of_Z <$> cs) p = Some st → ∃ T, Loaded T st ∧ Conserved T.
Proof.
  unfold traceRouteCentral. case_bool_decide; [apply concentrate_conserved|]. case_bool_decide; [apply heuristic_conserved|apply split_conserved].
Qed.

End Conserve.
End TraceConserve.
