(* ===== verification/TraceDistributed.v ===== *)
(** Distributed trace routing: the tokens of a layer are split over the source GPUs
    without loss, each source routes its own, and the aggregate holds exactly their
    sum. *)

From S2P Require Import Prelude Sums GoFloat GoFloatInt Moe MoePlacement MoeRouting TraceFormat TraceFile Requests TraceText TraceWorkload TraceWorkloadProps TraceFidelity TraceExecution TraceRouting TraceConserve.
Import Moe MoePlacement MoeRouting TraceWorkload TraceWorkloadProps TraceFidelity TraceExecution TraceRouting TraceConserve.
Open Scope nat_scope.

Module TraceDistributed.

(** * Counts by source *)

Section BySource.
Variables (gpus experts : nat).

(** The assignments of [expert] from [source]. *)
Definition covers (as_ : list traceProfileTokenAssignment) (source expert : nat) : Z :=
  Z.of_nat (length (filter (λ a, ta_SourceGPU a = Z.of_nat source ∧ ta_ExpertID a = Z.of_nat expert) as_)).

Definition covered (as_ : list traceProfileTokenAssignment) (expert : nat) : Z := total (λ source, covers as_ source expert) (seq 0 gpus).

Lemma covers_nonneg as_ s e : (0 ≤ covers as_ s e)%Z.
Proof. unfold covers. lia. Qed.

Lemma covered_nonneg as_ e : (0 ≤ covered as_ e)%Z.
Proof. apply total_nonneg. intros. apply covers_nonneg. Qed.

Lemma covers_cons a as_ s e :
  covers (a :: as_) s e = ((if decide (ta_SourceGPU a = Z.of_nat s ∧ ta_ExpertID a = Z.of_nat e) then 1 else 0) + covers as_ s e)%Z.
Proof. unfold covers. rewrite filter_cons. case_decide; [cbn [length]|]; lia. Qed.

Lemma covers_le as_ s e : s < gpus → (covers as_ s e ≤ covered as_ e)%Z.
Proof. intros Hs. apply (total_elem_le (λ s, covers as_ s e)); [intros; apply covers_nonneg|apply elem_of_seq; lia]. Qed.

(** A list with an entry per index. *)
Definition indexed {A} (n : nat) (f : nat → A) : list A := f <$> seq 0 n.

Lemma indexed_alter {A} n (f : nat → A) (g : A → A) i :
  alter g i (indexed n f) = indexed n (λ j, if decide (j = i) then g (f j) else f j).
Proof.
  apply list_eq. intros j. unfold indexed. destruct (decide (j = i)) as [->|Hne].
  - rewrite list_lookup_alter_eq, !list_lookup_fmap. destruct (seq 0 n !! i) as [k|] eqn:E; [|done]. apply lookup_seq in E as [-> _]. cbn. by rewrite decide_True.
  - rewrite list_lookup_alter_ne, !list_lookup_fmap by done. destruct (seq 0 n !! j) as [k|] eqn:E; [|done]. apply lookup_seq in E as [-> _]. cbn. by rewrite decide_False.
Qed.

Lemma indexed_ext {A} n (f g : nat → A) : (∀ i, i < n → f i = g i) → indexed n f = indexed n g.
Proof. intros H. apply list_fmap_ext. intros i x [-> Hi]%lookup_seq. by apply H. Qed.

Lemma replicate_indexed {A} n (x : A) : replicate n x = indexed n (λ _, x).
Proof. unfold indexed. generalize 0. induction n as [|n IH]; intros i; [done|]. cbn. f_equal. apply IH. Qed.

Lemma tableOf_indexed K : tableOf gpus experts K = indexed gpus (λ s, indexed experts (λ e, f_of_Z (K s e))).
Proof. done. Qed.

Lemma bumpCell_tableOf K s e b :
  s < gpus → e < experts → (0 ≤ K s e)%Z → (0 ≤ b)%Z → (K s e + b < 2 ^ 53)%Z →
  bumpCell (tableOf gpus experts K) s e (f_of_Z b) = tableOf gpus experts (upd K s e b).
Proof.
  intros Hs He H0 Hb Hk. unfold bumpCell. rewrite !tableOf_indexed, indexed_alter. apply indexed_ext. intros s' _. destruct (decide (s' = s)) as [->|Hne].
  - rewrite indexed_alter. apply indexed_ext. intros e' _. destruct (decide (e' = e)) as [->|Hne]; [by rewrite upd_eq, fadd_int|by rewrite upd_ne by naive_solver].
  - apply indexed_ext. intros e' _. by rewrite upd_ne by naive_solver.
Qed.

Lemma cover_fold as_ K C :
  (∀ s e, 0 ≤ K s e ∧ 0 ≤ C e)%Z → (∀ s e, s < gpus → e < experts → (K s e + covers as_ s e < 2 ^ 53)%Z) → (∀ e, e < experts → (C e + covered as_ e < 2 ^ 53)%Z) →
  foldl (coverAssignment experts gpus) (tableOf gpus experts K, indexed experts (λ e, f_of_Z (C e))) as_ =
  (tableOf gpus experts (λ s e, K s e + covers as_ s e)%Z, indexed experts (λ e, f_of_Z (C e + covered as_ e))).
Proof.
  revert K C. induction as_ as [|a as_ IH]; intros K C H0 HK HC.
  - cbn [foldl]. f_equal; [apply tableOf_ext; intros; unfold covers; cbn; lia|]. apply indexed_ext. intros e _. unfold covered. rewrite total_zero by done. by rewrite Z.add_0_r.
  - cbn [foldl]. unfold coverAssignment at 2. cbn [fst snd]. destruct (_ || _) eqn:Eskip.
    + assert (∀ s e, s < gpus → e < experts → covers (a :: as_) s e = covers as_ s e) as Hcov.
      { intros s e Hs He. rewrite covers_cons, decide_False; [done|]. intros [Es Ee]. rewrite !orb_true_iff, !Z.ltb_lt, !Z.leb_le in Eskip. lia. }
      assert (∀ e, e < experts → covered (a :: as_) e = covered as_ e) as Hcd. { intros e He. apply total_ext. intros s Hs%elem_of_seq. apply Hcov; lia. }
      rewrite IH.
      * f_equal; [apply tableOf_ext; intros; by rewrite Hcov|]. apply indexed_ext. intros e He. by rewrite Hcd.
      * done.
      * intros s e Hs He. rewrite <- Hcov by done. by apply HK.
      * intros e He. rewrite <- Hcd by done. by apply HC.
    + rewrite !orb_false_iff, !Z.ltb_ge, !Z.leb_gt in Eskip. set (s0 := Z.to_nat (ta_SourceGPU a)). set (e0 := Z.to_nat (ta_ExpertID a)).
      assert (s0 < gpus ∧ e0 < experts) as [Hs0 He0] by lia.
      assert (∀ s e, covers (a :: as_) s e = ((if decide (s = s0 ∧ e = e0) then 1 else 0) + covers as_ s e)%Z) as Hcov.
      { intros s e. rewrite covers_cons. f_equal. destruct (decide (s = s0 ∧ e = e0)) as [[-> ->]|Hne]; [rewrite decide_True; [done|lia]|rewrite decide_False; [done|lia]]. }
      assert (∀ e, covered (a :: as_) e = ((if decide (e = e0) then 1 else 0) + covered as_ e)%Z) as Hcd.
      { intros e. unfold covered. rewrite (total_ext _ (λ s, (if decide (s = s0 ∧ e = e0) then 1 else 0) + covers as_ s e)%Z) by (intros; apply Hcov). rewrite total_add. f_equal.
        destruct (decide (e = e0)) as [->|Hne]; [|apply total_zero; intros; rewrite decide_False; [done|by intros [_ ?]]].
        rewrite (total_ext _ (λ s, if decide (s = s0) then 1 else 0)%Z) by (intros x _; repeat case_decide; naive_solver). rewrite total_point by apply NoDup_seq.
        by rewrite decide_True by (apply elem_of_seq; lia). }
      pose proof (HK s0 e0 Hs0 He0) as HK0. rewrite Hcov, decide_True in HK0 by done. pose proof (HC e0 He0) as HC0. rewrite Hcd, decide_True in HC0 by done.
      pose proof (covers_nonneg as_ s0 e0). pose proof (covered_nonneg as_ e0). pose proof (H0 s0 e0).
      rewrite (bumpCell_tableOf K s0 e0 1) by (done || lia). rewrite indexed_alter.
      rewrite (indexed_ext experts _ (λ e, f_of_Z (C e + (if decide (e = e0) then 1 else 0)))%Z).
      2: { intros e He. destruct (decide (e = e0)) as [->|]; [rewrite fadd_int by lia; done|by rewrite Z.add_0_r]. }
      rewrite (IH (upd K s0 e0 1) (λ e, C e + (if decide (e = e0) then 1 else 0))%Z).
      * f_equal; [apply tableOf_ext; intros s e _ _; rewrite Hcov; unfold upd; lia|]. apply indexed_ext. intros e He. rewrite Hcd. f_equal. lia.
      * intros s e. specialize (H0 s e). unfold upd. repeat case_decide; lia.
      * intros s e Hs He. pose proof (HK s e Hs He) as HK1. rewrite Hcov in HK1. unfold upd. lia.
      * intros e He. pose proof (HC e He) as HC1. rewrite Hcd in HC1. lia.
Qed.
(** A whole number of tokens is above the threshold unless it is zero. *)
Lemma threshold_int r : ExactInt r → fle (f_of_Z r) (f_const 1 (10 ^ 9)) = (r =? 0)%Z.
Proof.
  unfold ExactInt. intros Hr. destruct (Z.eqb_spec r 0) as [->|Hne]; [vm_compute; reflexivity|].
  assert (f_const 1 (10 ^ 9) = SpecFloat.S754_finite false 4835703278458517%positive (-82)%Z) as -> by (vm_compute; reflexivity).
  rewrite f_of_Z_canonical by lia. unfold fle, SpecFloat.SFleb, SpecFloat.SFcompare, int_exponent. pose proof (Z.log2_nonneg r).
  rewrite (proj2 (Z.compare_gt_iff (Z.log2 r - 52) (-82)%Z)) by lia. done.
Qed.

Lemma shareOf_zero n r : shareOf 0 n r = 0%Z.
Proof. unfold shareOf. destruct n as [|n]; [destruct r; done|]. rewrite Z.div_0_l, Z.mod_0_l by lia. destruct (Z.ltb_spec (Z.of_nat r) 0); lia. Qed.

(** The shares of the uncovered tokens of the experts below [n]. *)
Definition restTable (cs : list Z) (C : nat → Z) (n s e : nat) : Z := if e <? n then shareOf (cs !!! e - C e) gpus s else 0%Z.

Lemma spread_fold (cs : list Z) K C :
  0 < gpus → length cs = experts → (∀ s e, 0 ≤ K s e)%Z →
  (∀ e, e < experts → (0 ≤ C e ≤ cs !!! e ∧ cs !!! e < 2 ^ 53)%Z) →
  (∀ s e, s < gpus → e < experts → (K s e + shareOf (cs !!! e - C e) gpus s < 2 ^ 53)%Z) →
  foldl (spreadRest gpus (indexed experts (λ e, f_of_Z (C e)))) (tableOf gpus experts K) (enumerate (f_of_Z <$> cs)) =
  tableOf gpus experts (λ s e, K s e + restTable cs C experts s e)%Z.
Proof.
  intros Hg Hl H0 HC HK.
  assert (∀ xs, xs `prefix_of` enumerate (f_of_Z <$> cs) → foldl (spreadRest gpus (indexed experts (λ e, f_of_Z (C e)))) (tableOf gpus experts K) xs =
    tableOf gpus experts (λ s e, K s e + restTable cs C (length xs) s e)%Z) as H.
  2: { rewrite H by done. by rewrite length_enumerate, length_fmap, Hl. }
  intros xs. induction xs as [|[e c] xs IH] using rev_ind; intros Hx.
  { cbn [foldl length]. apply tableOf_ext. intros s e _ _. unfold restTable. destruct (Nat.ltb_spec e 0); lia. }
  pose proof Hx as [rest Er]. assert ((e, c) ∈ enumerate (f_of_Z <$> cs)) as Hin by (rewrite Er, <- app_assoc; apply elem_of_middle).
  assert (e = length xs) as He.
  { assert (enumerate (f_of_Z <$> cs) !! length xs = Some (e, c)) as E by (rewrite Er, <- app_assoc; by apply list_lookup_middle).
    rewrite enumerate_lookup in E. destruct ((f_of_Z <$> cs) !! length xs); [|done]. by injection E as -> _. }
  apply elem_of_enumerate in Hin. rewrite list_lookup_fmap in Hin. destruct (cs !! e) as [x|] eqn:Ec; [|done]. injection Hin as <-.
  pose proof (lookup_lt_Some _ _ _ Ec) as Hlt. rewrite Hl in Hlt. pose proof (list_lookup_total_correct _ _ _ Ec) as Et. destruct (HC e Hlt) as [HCe Hsm]. rewrite Et in *.
  rewrite foldl_app, IH by (etrans; [|exact Hx]; by eexists). cbn [foldl]. unfold spreadRest.
  assert (indexed experts (λ e, f_of_Z (C e)) !!! e = f_of_Z (C e)) as ->.
  { apply list_lookup_total_correct. unfold indexed. by rewrite list_lookup_fmap, lookup_seq_lt. }
  rewrite fsub_int by lia. rewrite threshold_int by (unfold ExactInt; lia). rewrite length_app. cbn [length]. destruct (Z.eqb_spec (x - C e) 0) as [Hz|Hnz].
  - apply tableOf_ext. intros s e' _ _. unfold restTable. destruct (Nat.ltb_spec e' (length xs)), (Nat.ltb_spec e' (length xs + 1)); try lia.
    assert (e' = e) as -> by lia. rewrite Et, Hz, shareOf_zero. lia.
  - rewrite distributeReplicaTokens_int by (done || unfold ExactInt; lia). rewrite !tableOf_indexed. unfold indexed at 1 3. apply list_eq. intros s.
    rewrite lookup_zip_with, !list_lookup_fmap. destruct (seq 0 gpus !! s) as [s'|] eqn:Es; [|done]. apply lookup_seq in Es as [-> Hs]. cbn. f_equal. rewrite indexed_alter.
    apply indexed_ext. intros e' He'. unfold restTable. destruct (decide (e' = e)) as [->|Hne].
    + destruct (Nat.ltb_spec e (length xs)), (Nat.ltb_spec e (length xs + 1)); try lia. rewrite Z.add_0_r, Et. pose proof (HK s e Hs Hlt) as Hb. rewrite Et in Hb.
      apply fadd_int; [apply H0|apply share_nonneg; lia|done].
    + destruct (Nat.ltb_spec e' (length xs)), (Nat.ltb_spec e' (length xs + 1)); try lia; done.
Qed.

(** The tokens of [expert] that start on [source]. *)
Definition sourceTokens (cs : list Z) (as_ : list traceProfileTokenAssignment) (source expert : nat) : Z :=
  (covers as_ source expert + shareOf (cs !!! expert - covered as_ expert) gpus source)%Z.

Lemma shareOf_le c n r : (0 ≤ c)%Z → r < n → (shareOf c n r ≤ c)%Z.
Proof.
  intros Hc Hr. rewrite <- (share_total c n) at 2 by lia. apply (total_elem_le (shareOf c n)); [intros; by apply share_nonneg|apply elem_of_seq; lia].
Qed.

Lemma sourceTokens_nonneg cs as_ s e : (covered as_ e ≤ cs !!! e)%Z → (0 ≤ sourceTokens cs as_ s e)%Z.
Proof. intros H. unfold sourceTokens. pose proof (covers_nonneg as_ s e). pose proof (share_nonneg (cs !!! e - covered as_ e) gpus s). lia. Qed.

(** No token is lost: the sources of an expert add up to its count. *)
Lemma sourceTokens_total cs as_ e : 0 < gpus → total (λ s, sourceTokens cs as_ s e) (seq 0 gpus) = cs !!! e.
Proof.
  intros Hg. unfold sourceTokens. rewrite total_add, share_total by done. fold (covered as_ e). lia.
Qed.

Lemma traceCountsBySource_exact cs as_ :
  0 < gpus → length cs = experts → (∀ c, c ∈ cs → 0 ≤ c)%Z → (sumZ cs < 2 ^ 53)%Z → (∀ e, e < experts → (covered as_ e ≤ cs !!! e)%Z) →
  traceCountsBySource (f_of_Z <$> cs) as_ gpus = tableOf gpus experts (sourceTokens cs as_).
Proof.
  intros Hg Hl Hnn Hsum Hcov. assert (∀ e, e < experts → (0 ≤ cs !!! e < 2 ^ 53)%Z) as Hcs.
  { intros e He. destruct (lookup_lt_is_Some_2 cs e) as [c Hc]; [lia|]. rewrite (list_lookup_total_correct _ _ _ Hc). apply list_elem_of_lookup_2 in Hc.
    split; [by apply Hnn|]. eapply Z.le_lt_trans; [|exact Hsum]. rewrite <- (list_fmap_id cs). by apply (total_elem_le id). }
  unfold traceCountsBySource. rewrite length_fmap, Hl.
  assert (replicate experts f_zero = indexed experts (λ e, f_of_Z 0)) as E1.
  { apply replicate_indexed. }
  assert (replicate gpus (replicate experts f_zero) = tableOf gpus experts (λ _ _, 0%Z)) as -> by apply (newMoELayerCounts_tableOf gpus experts).
  rewrite E1, (cover_fold as_ (λ _ _, 0%Z) (λ _, 0%Z)).
  - cbn [Z.add]. rewrite (spread_fold cs (λ s e, 0 + covers as_ s e)%Z (λ e, 0 + covered as_ e)%Z); [|done..| | |].
    + apply tableOf_ext. intros s e _ He. unfold restTable, sourceTokens. rewrite (proj2 (Nat.ltb_lt e experts)) by done. rewrite !Z.add_0_l. done.
    + intros s e. pose proof (covers_nonneg as_ s e). lia.
    + intros e He. pose proof (covered_nonneg as_ e). pose proof (Hcov e He). pose proof (Hcs e He). lia.
    + intros s e Hs He. pose proof (covers_le as_ s e Hs). pose proof (Hcov e He). pose proof (Hcs e He).
      assert (0 ≤ cs !!! e - covered as_ e)%Z as Hrest by lia. pose proof (shareOf_le _ gpus s Hrest Hs). rewrite !Z.add_0_l. lia.
  - done.
  - intros s e Hs He. pose proof (covers_le as_ s e Hs). pose proof (Hcov e He). pose proof (Hcs e He). lia.
  - intros e He. pose proof (Hcov e He). pose proof (Hcs e He). lia.
Qed.
End BySource.

(** * The aggregate *)

(** A choice along the indices of a list. *)
Lemma list_choice {A B} (b0 : B) (P : nat → A → B → Prop) (l : list A) :
  (∀ i x, l !! i = Some x → ∃ y, P i x y) → ∃ f, ∀ i x, l !! i = Some x → P i x (f i).
Proof.
  induction l as [|x l IH] using rev_ind; intros H; [by exists (λ _, b0)|]. destruct IH as [f Hf].
  { intros i y Hi. apply (H i y). by apply lookup_app_l_Some. }
  destruct (H (length l) x) as [y Hy]; [by apply list_lookup_middle|]. exists (λ i, if decide (i = length l) then y else f i). intros i z Hi.
  apply lookup_app_Some in Hi as [Hi|[Hle Hi]].
  - rewrite decide_False; [by apply Hf|]. apply lookup_lt_Some in Hi. lia.
  - apply list_lookup_singleton_Some in Hi as [Hi <-]. assert (i = length l) as -> by lia. by rewrite decide_True.
Qed.

Section Aggregate.
Variable m : moeParams.
Variable cs : list Z.
Variable p : placement.
Variable k : nat.
Variable as_ : list traceProfileTokenAssignment.
Hypothesis gpus_pos : 1 ≤ numGPUs m.
Hypothesis placed : ValidPlacement (length cs) (numGPUs m) k p.
Hypothesis cs_nonneg : ∀ c, c ∈ cs → (0 ≤ c)%Z.
Hypothesis cs_small : (sumZ cs < 2 ^ 53)%Z.
Hypothesis cover_le : ∀ e, e < length cs → (covered (numGPUs m) as_ e ≤ cs !!! e)%Z.

Abbreviation K := (sourceTokens (numGPUs m) cs as_).

(** The counts of one source. *)
Definition sourceCounts (s : nat) : list Z := K s <$> seq 0 (length cs).

Lemma sourceCounts_length s : length (sourceCounts s) = length cs.
Proof. unfold sourceCounts. by rewrite length_fmap, length_seq. Qed.

Lemma sourceCounts_at s e : e < length cs → sourceCounts s !!! e = K s e.
Proof. intros He. apply list_lookup_total_correct. unfold sourceCounts. by rewrite list_lookup_fmap, lookup_seq_lt. Qed.

Lemma sourceCounts_nonneg s c : c ∈ sourceCounts s → (0 ≤ c)%Z.
Proof. intros (e & -> & He%elem_of_seq)%list_elem_of_fmap. apply sourceTokens_nonneg, cover_le. lia. Qed.

Lemma K_le s e : s < numGPUs m → e < length cs → (0 ≤ K s e ≤ cs !!! e)%Z.
Proof.
  intros Hs He. split; [by apply sourceTokens_nonneg, cover_le|]. rewrite <- (sourceTokens_total (numGPUs m) cs as_ e) by lia.
  apply (total_elem_le (λ s, K s e)); [intros; by apply sourceTokens_nonneg, cover_le|apply elem_of_seq; lia].
Qed.

Lemma sourceCounts_small s : s < numGPUs m → (sumZ (sourceCounts s) < 2 ^ 53)%Z.
Proof.
  intros Hs. eapply Z.le_lt_trans; [|exact cs_small]. rewrite <- (total_lookup cs). apply (total_le (K s)). intros e He%elem_of_seq. apply K_le; lia.
Qed.

Lemma bySource_rows s : s < numGPUs m →
  traceCountsBySource (f_of_Z <$> cs) as_ (numGPUs m) !! s = Some (f_of_Z <$> sourceCounts s).
Proof.
  intros Hs. rewrite (traceCountsBySource_exact (numGPUs m) (length cs)) by (done || lia). unfold tableOf, sourceCounts.
  rewrite list_lookup_fmap, lookup_seq_lt by done. cbn. by rewrite <- list_fmap_compose.
Qed.

Lemma bySource_length : length (traceCountsBySource (f_of_Z <$> cs) as_ (numGPUs m)) = numGPUs m.
Proof. rewrite (traceCountsBySource_exact (numGPUs m) (length cs)) by (done || lia). unfold tableOf. by rewrite length_fmap, length_seq. Qed.

(** ** Sums of the sources' tables *)

Variable T : nat → tokenTable.

Definition sumT (n : nat) : tokenTable := λ gpu e, total (λ s, T s gpu e) (seq 0 n).

Definition SourceOk (s : nat) : Prop := Conserved m (sourceCounts s) p (T s).

Lemma sumT_S n gpu e : sumT (S n) gpu e = (sumT n gpu e + T n gpu e)%Z.
Proof. unfold sumT. rewrite seq_S, total_app, total_cons. unfold total at 2. cbn. lia. Qed.

Lemma sumT_col n e : (∀ s, s < n → SourceOk s) → e < length cs → colSum m (sumT n) e = total (λ s, K s e) (seq 0 n).
Proof.
  intros HS He. unfold colSum, sumT. rewrite total_swap. apply total_ext. intros s Hs%elem_of_seq. destruct (HS s ltac:(lia)) as [_ Hc].
  etrans; [apply (Hc e)|]; [by rewrite sourceCounts_length|by apply sourceCounts_at].
Qed.

Lemma sumT_held n : n ≤ numGPUs m → (∀ s, s < n → SourceOk s) → Held m cs p (sumT n).
Proof.
  intros Hn HS. constructor.
  - intros gpu e. apply total_nonneg. intros s Hs%elem_of_seq. destruct (HS s ltac:(lia)) as [[Hnn _ _] _]. apply Hnn.
  - intros gpu e (s & Hs%elem_of_seq & Ht)%total_pos. destruct (HS s ltac:(lia)) as [[_ Hh _] _]. by apply Hh.
  - intros e He. rewrite sumT_col by done. rewrite <- (sourceTokens_total (numGPUs m) cs as_ e) by lia. rewrite <- (take_drop n (seq 0 (numGPUs m))), total_app.
    rewrite take_seq. replace (n `min` numGPUs m) with n by lia. assert (0 ≤ total (λ s, K s e) (drop n (seq 0 (numGPUs m))))%Z; [|lia].
    apply total_nonneg. intros s Hs. apply sourceTokens_nonneg. by apply cover_le.
Qed.

Lemma aggregate_step n states st acc acc' :
  n < numGPUs m → (∀ s, s < S n → SourceOk s) → states !! n = Some st → Loaded m (sourceCounts n) (T n) st → Loaded m cs (sumT n) acc →
  aggregateTraceSource (numGPUs m) states acc n = Some acc' →
  Loaded m cs (sumT (S n)) acc' ∧ tr_sources acc' = Some (default [] (tr_sources acc) ++ [tr_loads st]).
Proof.
  intros Hn HS Est HLs HL. unfold aggregateTraceSource. rewrite Est. pose proof (ld_shape _ _ _ _ HLs) as [Hs1 Hs2]. rewrite Hs1, Hs2, Nat.ltb_irrefl. cbn [orb].
  rewrite !take_ge by lia. intros [= <-]. split; [|done].
  pose proof (sumT_held n ltac:(lia) ltac:(intros; apply HS; lia)) as HT. pose proof (sumT_held (S n) ltac:(lia) HS) as HT'.
  pose proof (ld_shape _ _ _ _ HL) as [Ha1 Ha2]. destruct (HS n ltac:(lia)) as [HTn _].
  assert (∀ gpu, rowSum cs (sumT (S n)) gpu = (rowSum cs (sumT n) gpu + rowSum cs (T n) gpu)%Z) as Hrow.
  { intros gpu. unfold rowSum. rewrite <- total_add. apply total_ext. intros e _. apply sumT_S. }
  constructor; cbn [expertLoads tr_loads].
  - split; cbn; rewrite length_zip_with; lia.
  - intros gpu em e Hem. rewrite lookup_zip_with in Hem. destruct (expertLoads acc !! gpu) as [ea|] eqn:Ea; [|done]. cbn in Hem.
    destruct (expertLoads st !! gpu) as [es|] eqn:Es; [|done]. cbn in Hem. injection Hem as <-. unfold mergeLoads. rewrite lookup_merge.
    rewrite (ld_experts _ _ _ _ HL gpu ea e Ea), (ld_experts _ _ _ _ HLs gpu es e Es), sumT_S.
    pose proof (he_nonneg _ _ _ _ HT gpu e). pose proof (he_nonneg _ _ _ _ HTn gpu e).
    pose proof (cell_le m cs p k gpus_pos placed cs_nonneg (sumT (S n)) gpu e HT') as Hc. rewrite sumT_S in Hc.
    destruct (Z.ltb_spec 0 (T n gpu e)); destruct (Z.ltb_spec 0 (sumT n gpu e)); destruct (Z.ltb_spec 0 (sumT n gpu e + T n gpu e)); try lia; cbn [diag_None default from_option id].
    + f_equal. apply fadd_int; lia.
    + f_equal. replace (sumT n gpu e) with 0%Z by lia. apply (fadd_int 0); lia.
    + by replace (T n gpu e) with 0%Z by lia; rewrite Z.add_0_r.
    + done.
  - intros gpu l Hl. rewrite lookup_zip_with in Hl. destruct (tr_loads acc !! gpu) as [la|] eqn:Ea; [|done]. cbn in Hl.
    destruct (tr_loads st !! gpu) as [ls|] eqn:Es; [|done]. cbn in Hl. injection Hl as <-. rewrite (ld_loads _ _ _ _ HL gpu la Ea), (ld_loads _ _ _ _ HLs gpu ls Es), Hrow.
    unfold rowSum at 2. rewrite sourceCounts_length. fold (rowSum cs (T n) gpu).
    pose proof (row_le m cs p k gpus_pos placed (sumT (S n)) gpu HT') as Hr. rewrite Hrow in Hr.
    apply fadd_int; [apply total_nonneg; intros; apply HT|apply total_nonneg; intros; apply HTn|lia].
Qed.
End Aggregate.

(** * One layer *)

Section Layer.
Variable m : moeParams.
Variable cs : list Z.
Variable p : placement.
Variable k : nat.
Variable as_ : list traceProfileTokenAssignment.
Hypothesis gpus_pos : 1 ≤ numGPUs m.
Hypothesis placed : ValidPlacement (length cs) (numGPUs m) k p.
Hypothesis cs_nonneg : ∀ c, c ∈ cs → (0 ≤ c)%Z.
Hypothesis cs_small : (sumZ cs < 2 ^ 53)%Z.
Hypothesis cover_le : ∀ e, e < length cs → (covered (numGPUs m) as_ e ≤ cs !!! e)%Z.

(** Every source row of the aggregate is the load vector of one source. *)
Lemma distributed_conserved st :
  traceRouteDistributedWithTimings m (f_of_Z <$> cs) p as_ = Some st →
  ∃ T, Loaded m cs T st ∧ Conserved m cs p T ∧ (∀ rows, tr_sources st = Some rows → length rows = numGPUs m ∧ ∀ row, row ∈ rows → length row = numGPUs m).
Proof.
  unfold traceRouteDistributedWithTimings. destruct (mapM _ _) as [states|] eqn:Em; [|done]. cbn [mbind option_bind]. apply mapM_Some_1 in Em.
  pose proof (Forall2_length _ _ _ Em) as Hlen. rewrite (bySource_length m cs as_) in Hlen by done.
  destruct (list_choice (λ _ _, 0%Z) (λ s st (T : tokenTable), Loaded m (sourceCounts m cs as_ s) T st ∧ Conserved m (sourceCounts m cs as_ s) p T) states) as [T HT].
  { intros s st' Hs. pose proof (lookup_lt_Some _ _ _ Hs). destruct (Forall2_lookup_r _ _ _ _ _ Em Hs) as (row & Hrow & Er).
    rewrite (bySource_rows m cs as_) in Hrow by (done || lia). injection Hrow as <-. cbn beta in Er. apply (central_conserved m _ p k gpus_pos) in Er; [done|..].
    - by rewrite sourceCounts_length.
    - intros c. by apply sourceCounts_nonneg.
    - apply sourceCounts_small; [done..|lia]. }
  assert (∀ s, s < numGPUs m → SourceOk m cs p as_ T s) as HS.
  { intros s Hs. destruct (lookup_lt_is_Some_2 states s) as [st' Est]; [lia|]. by apply (HT s st' Est). }
  unfold aggregateDistributedTraceRouting. intros E.
  destruct (foldM_history _ (λ done acc, Loaded m cs (sumT T (length done)) acc ∧ ∃ rows, tr_sources acc = Some rows ∧ length rows = length done ∧ ∀ row, row ∈ rows → length row = numGPUs m) _ _ _ E)
    as (HL & rows & Hrows & Hlr & Hrl).
  - split; [|exists []; split_and!; [done..|intros row Hr; by apply not_elem_of_nil in Hr]]. edestruct (new_loaded m cs p) as (HL0 & _); [done..|].
    eapply Loaded_ext; [|split; apply HL0]. done.
  - intros done n rest acc acc' El Est (HL & rows & Hr & Hlr & Hrl). assert (n = length done) as ->.
    { assert (seq 0 (numGPUs m) !! length done = Some n) as E1 by (rewrite El; by apply list_lookup_middle). apply lookup_seq in E1. lia. }
    assert (length done < numGPUs m) as Hlt. { pose proof (f_equal length El) as E1. rewrite length_seq, length_app in E1. cbn in E1. lia. }
    destruct (lookup_lt_is_Some_2 states (length done)) as [st' Est']; [lia|]. destruct (HT _ _ Est') as [HLs _].
    destruct (aggregate_step m cs p k as_ gpus_pos placed cs_nonneg cs_small cover_le T (length done) states st' acc acc') as [HL' Hsrc]; [done|intros; apply HS; lia|done..|].
    rewrite length_app, Nat.add_1_r. split; [done|]. rewrite Hr in Hsrc. cbn [default from_option id] in Hsrc. eexists. split; [exact Hsrc|]. rewrite length_app, Hlr. cbn. split; [lia|].
    intros row [Hrow|Hrow%list_elem_of_singleton]%elem_of_app; [by apply Hrl|]. subst row. apply (ld_shape _ _ _ _ HLs).
  - rewrite length_seq in *. exists (sumT T (numGPUs m)). split; [done|]. split; [|intros rows' Hr; rewrite Hrows in Hr; by injection Hr as <-]. split.
    + eapply sumT_held; done || lia.
    + intros e He. erewrite sumT_col by done. apply sourceTokens_total. lia.
Qed.

Lemma layer_conserved st : traceRouteLayer m (f_of_Z <$> cs) p as_ = Some st → ∃ T, Loaded m cs T st ∧ Conserved m cs p T.
Proof.
  unfold traceRouteLayer. destruct (_ && _).
  - intros H. destruct (distributed_conserved st H) as (T & HL & HC & _). by exists T.
  - by apply (central_conserved m cs p k).
Qed.
End Layer.

End TraceDistributed.
