(* ===== verification/TraceForward.v ===== *)
(** The forward pass of the trace replay does not panic and keeps the simulator
    well-formed, so it is a cost model for the offline scheduler; the forwards of
    the timeline do not overlap. *)

From S2P Require Import Prelude Sums GoFloat GoFloatInt TraceFormat TraceFile TraceReader Requests TraceText Moe MoePlacement MoeRouting MoeEplb TraceWorkload TraceWorkloadProps TraceFidelity TraceExecution TraceRouting TraceConserve TraceDistributed TraceVirtual TraceVirtualInv TraceVirtualProps.
Import Moe MoePlacement MoeRouting MoeEplb TraceWorkload TraceWorkloadProps TraceFidelity TraceExecution TraceRouting TraceConserve TraceDistributed TraceVirtual TraceVirtualInv TraceVirtualProps.
Open Scope nat_scope.

Module TraceForward.

(** * Distributed routing returns *)

Definition Rows (g n : nat) (rows : list (list f64)) : Prop := length rows = g ∧ ∀ row, row ∈ rows → length row = n.

Lemma Rows_alter g n rows (f : list f64 → list f64) i : (∀ row, length (f row) = length row) → Rows g n rows → Rows g n (alter f i rows).
Proof.
  intros Hf [H1 H2]. split; [by rewrite length_alter|]. intros row [j Hj]%list_elem_of_lookup. destruct (decide (i = j)) as [<-|Hne].
  - rewrite list_lookup_alter_eq in Hj. destruct (rows !! i) as [r|] eqn:Er; [|done]. injection Hj as <-. rewrite Hf. apply H2. by eapply list_elem_of_lookup_2.
  - rewrite list_lookup_alter_ne in Hj by done. apply H2. by eapply list_elem_of_lookup_2.
Qed.

Lemma distributeReplicaTokens_length c n : length (distributeReplicaTokens c n) = n.
Proof. unfold distributeReplicaTokens. destruct (_ || _); [apply length_replicate|]. cbv zeta. destruct (flt _ _); [by rewrite length_fmap, length_seq|apply length_replicate]. Qed.

Lemma foldl_keeps {A B} (P : B → Prop) (f : B → A → B) l b : (∀ b x, P b → P (f b x)) → P b → P (foldl f b l).
Proof. intros Hf. revert b. induction l as [|x l IH]; intros b Hb; [done|]. apply IH. by apply Hf. Qed.

Lemma traceCountsBySource_rows counts as_ g : Rows g (length counts) (traceCountsBySource counts as_ g).
Proof.
  unfold traceCountsBySource. set (n := length counts).
  pose proof (foldl_keeps (λ acc, Rows g n acc.1) (coverAssignment n g) as_ (replicate g (replicate n f_zero), replicate n f_zero)) as Hr.
  destruct (foldl (coverAssignment n g) _ as_) as [rows covered]. apply (foldl_keeps (Rows g n)).
  - intros rs [e c] [H1 H2]. unfold spreadRest. destruct (fle _ _); [done|]. split; [rewrite length_zip_with, distributeReplicaTokens_length; lia|].
    intros row [i Hi]%list_elem_of_lookup. apply lookup_zip_with_Some in Hi as (r & x & -> & Er & _). rewrite length_alter. apply H2. by eapply list_elem_of_lookup_2.
  - apply Hr.
    + intros acc a Ha. unfold coverAssignment. destruct (_ || _); [done|]. apply Rows_alter; [|done]. intros. apply length_alter.
    + split; [apply length_replicate|]. intros row [-> _]%elem_of_replicate. apply length_replicate.
Qed.

(** The rows of the aggregate. *)
Definition SourcesOk (g : nat) (st : traceRoutingState) : Prop := ∀ rows, tr_sources st = Some rows → ∀ row, row ∈ rows → length row = g.

Lemma aggregate_total g states :
  (∀ st, st ∈ states → TShape g st) → ∃ st, aggregateDistributedTraceRouting states g = Some st ∧ TShape g st ∧ SourcesOk g st.
Proof.
  intros Hst. unfold aggregateDistributedTraceRouting.
  apply (foldM_inv _ (λ _ st, TShape g st ∧ SourcesOk g st)).
  { split; [apply tnew_shape|]. intros rows [= <-] row Hr. by apply not_elem_of_nil in Hr. }
  intros done s rest acc E [[H1 H2] Hrows]. unfold aggregateTraceSource.
  assert (∀ x row, row ∈ default [] (tr_sources acc) ++ [x] → length x = g → length row = g) as Happ.
  { intros x row [Hr|Hr%list_elem_of_singleton]%elem_of_app Hx; [|by subst]. unfold SourcesOk in Hrows. destruct (tr_sources acc) as [rows|]; [by apply (Hrows rows)|by apply not_elem_of_nil in Hr]. }
  destruct (states !! s) as [st|] eqn:Es.
  - destruct (Hst st (list_elem_of_lookup_2 _ _ _ Es)) as [Hs1 Hs2]. rewrite Hs1, Hs2, Nat.ltb_irrefl. cbn [orb]. eexists. split; [done|]. rewrite !take_ge by lia. split.
    + split; cbn; rewrite length_zip_with; lia.
    + intros rows [= <-] row Hr. by eapply Happ.
  - eexists. split; [done|]. split; [done|]. intros rows [= <-] row Hr. eapply Happ; [done|]. apply length_replicate.
Qed.

(** No sources are recorded by a central router. *)
Lemma addTokens_sources gpu e t st st' : addTokens gpu e t st = Some st' → tr_sources st' = tr_sources st.
Proof. unfold addTokens. intros H. destruct (fle t f_zero); by simplify_option_eq. Qed.

Lemma central_sources m counts p st : traceRouteCentral m counts p = Some st → tr_sources st = None.
Proof.
  unfold traceRouteCentral. case_bool_decide; [|case_bool_decide].
  - intros H1. eapply (foldM_preserves _ (λ st, tr_sources st = None)); [|exact H1|done]. intros st1 e st2. unfold concentrateExpert.
    destruct (counts !! e); [|done]. cbn [mbind option_bind]. destruct (fle _ _); [congruence|]. destruct (p !! e); [|done]. cbn [mbind option_bind].
    destruct (foldM (traceCheapest _ _ _ _) _ _) as [[[g c]|]|]; [|done..]. cbn [mbind option_bind]. by intros ->%addTokens_sources.
  - unfold traceRouteHeuristic. destruct (foldM _ _ _) as [acc|] eqn:E1; [|done]. cbn [mbind option_bind].
    assert (tr_sources acc.1 = None) as Ha.
    { eapply (foldM_preserves _ (λ acc, tr_sources acc.1 = None)); [|exact E1|done]. intros [st1 a1] e acc2. unfold traceHeuristicSplit.
      destruct (counts !! e); [|done]. cbn [mbind option_bind]. destruct (p !! e); [|done]. cbn [mbind option_bind]. destruct (mapM _ _); [|done]. cbn [mbind option_bind].
      destruct (_ <? _); [done|]. intros E2 H2. eapply (foldM_preserves _ (λ acc, tr_sources acc.1 = None)); [|exact E2|done]. intros [st3 a3] [g c] acc4. unfold heuristicChunk. cbn [fst snd].
      destruct (fle _ _); [by intros [= <-]|]. destruct (addTokens _ _ _ _) as [st5|] eqn:E5; [|done]. cbn [mbind option_bind]. intros [= <-] H5. cbn. by rewrite (addTokens_sources _ _ _ _ _ E5). }
    destruct (traceLocalSearch _ _ _ _ _) as [acc'|] eqn:E2; [|done]. cbn [mbind option_bind]. intros [= <-]. clear E1. revert E2 Ha. generalize (traceHeuristicOrder m counts). intros order.
    generalize 20. intros n. revert acc. induction n as [|n IH]; intros acc; cbn [traceLocalSearch]; [by intros [= <-]|].
    destruct (traceSlowest _ _); [|done]. cbn [mbind option_bind]. destruct (traceBestMove _ _ _ _ _ _ _) as [[g [mv|]]|]; cbn [mbind option_bind snd]; [|by intros [= <-]|done].
    destruct (traceApplyMove _ _ _) as [acc1|] eqn:E3; [|done]. cbn [mbind option_bind]. intros E4 Ha. apply (IH acc1 E4). destruct acc as [st1 a1]. unfold traceApplyMove in E3. by simplify_option_eq.
  - intros H1. eapply (foldM_preserves _ (λ st, tr_sources st = None)); [|exact H1|done]. intros st1 [e c] st2. unfold splitExpert.
    destruct (fle _ _); [congruence|]. destruct (p !! e); [|done]. cbn [mbind option_bind]. intros E2 H2. eapply (foldM_preserves _ (λ st, tr_sources st = None)); [|exact E2|done].
    intros b x b'. by intros ->%addTokens_sources.
Qed.

(** The counts routed on their own: those of every source GPU, or all of them. *)
Definition layerDemands (m : moeParams) (counts : list f64) (as_ : list traceProfileTokenAssignment) : list (list f64) :=
  if useDistributedRouting m && (1 <? numGPUs m) then traceCountsBySource counts as_ (numGPUs m) else [counts].

(** The concentrate routing of a layer, or of one source GPU of it, meets only infinite costs. *)
Definition layerOverflow (m : moeParams) (counts : list f64) (p : placement) (as_ : list traceProfileTokenAssignment) : Prop :=
  router m = MoERouterConcentrate ∧ ∃ d, d ∈ layerDemands m counts as_ ∧ traceOverflow m d p.

(** Routing a layer returns on a valid placement, unless the concentrate router's costs
    overflow. *)
Lemma traceRouteLayer_total m counts p k as_ :
  1 ≤ numGPUs m → ValidPlacement (length counts) (numGPUs m) k p →
  (∃ st, traceRouteLayer m counts p as_ = Some st ∧ TShape (numGPUs m) st ∧ SourcesOk (numGPUs m) st) ∨
  (traceRouteLayer m counts p as_ = None ∧ layerOverflow m counts p as_).
Proof.
  intros Hg Hp. unfold traceRouteLayer, layerOverflow, layerDemands. destruct (_ && _).
  - unfold traceRouteDistributedWithTimings. destruct (traceCountsBySource_rows counts as_ (numGPUs m)) as [_ Hlen].
    assert (∀ c, c ∈ traceCountsBySource counts as_ (numGPUs m) → (∃ st, traceRouteCentral m c p = Some st ∧ TShape (numGPUs m) st) ∨
      (traceRouteCentral m c p = None ∧ router m = MoERouterConcentrate ∧ traceOverflow m c p)) as Hc.
    { intros c Hin. apply (traceRouteCentral_total m c p k Hg). by rewrite Hlen. }
    destruct (mapM _ _) as [states|] eqn:Em.
    + left. cbn [mbind option_bind]. apply aggregate_total. intros st [i Hi]%list_elem_of_lookup. apply mapM_Some_1 in Em.
      destruct (Forall2_lookup_r _ _ _ _ _ Em Hi) as (c & Hci & Ec). destruct (Hc c (list_elem_of_lookup_2 _ _ _ Hci)) as [(st' & E' & H)|[E' _]]; congruence.
    + right. split; [done|]. apply mapM_None_1, Exists_exists in Em as (c & Hin & Ec). destruct (Hc c Hin) as [(st' & E' & _)|(_ & Hr & H)]; [congruence|]. split; [done|]. by exists c.
  - destruct (traceRouteCentral_total m counts p k Hg Hp) as [(st & E & Hs)|(E & Hr & H)]; [left|right; split; [done|]; split; [done|]; exists counts; split; [left|done]]. exists st. split_and!; [done..|].
    intros rows Hr. rewrite (central_sources _ _ _ _ E) in Hr. done.
Qed.

(** * The cost of a layer is defined *)

Lemma replicaTokens_length st as_ : length (distributeTraceProfileAssignments st as_) = length (expertLoads st).
Proof.
  unfold distributeTraceProfileAssignments. apply (foldl_keeps (λ acc, length acc.1 = length (expertLoads st))); [|apply length_replicate].
  intros acc a Ha. unfold distributeStep. cbv zeta. repeat case_match; cbn; by rewrite ?length_alter.
Qed.

Lemma layerExecution_total m o iter st counts as_ : TShape (numGPUs m) st → ∃ x, traceLayerExecution m o iter st counts as_ = Some x.
Proof.
  intros Hs. unfold traceLayerExecution. cbv zeta.
  match goal with |- context [foldM ?f ?b ?l] => destruct (foldM_inv f (λ _ _, True) l b I) as (x & -> & _); [|eauto] end.
  intros done gpu rest acc E _. assert (gpu ∈ seq 0 (numGPUs m)) as [_ Hg]%elem_of_seq by (rewrite E; apply elem_of_middle). unfold gpuExecution.
  gpu_lookup Hs st gpu. destruct (lookup_lt_is_Some_2 (distributeTraceProfileAssignments st as_) gpu) as [own ->]; [rewrite replicaTokens_length; destruct Hs; lia|].
  cbn [mbind option_bind]. cbv zeta. destruct (foldl _ _ _) as [mem flops]. cbn. eauto.
Qed.

Lemma phaseCost_total m st : SourcesOk (numGPUs m) st → ∃ c, traceCommunicationPhaseCost m st = Some c.
Proof.
  intros Hr. unfold traceCommunicationPhaseCost. destruct (_ <=? _); [eauto|]. destruct (tr_sources st) as [rows|] eqn:E.
  2: { destruct (feq _ _); eauto. }
  match goal with |- context [foldM ?f ?b ?l] => destruct (foldM_inv f (λ _ _, True) l b I) as (c & -> & _) end.
  - intros done d rest acc El _. assert (d ∈ seq 0 (numGPUs m)) as [_ H]%elem_of_seq by (rewrite El; apply elem_of_middle).
    destruct (mapM_is_Some_2 (λ row : list f64, row !! d) rows) as [col ->].
    { apply Forall_forall. intros row Hin. apply lookup_lt_is_Some_2. rewrite (Hr rows E row Hin). lia. }
    cbn [mbind option_bind]. eauto.
  - cbn [mbind option_bind]. destruct (feq _ _); eauto.
Qed.

(** * Load balancing on layer counts *)

(** The invariant of the simulator under the trace replay. *)
Record SimOk (m : moeParams) (s : moeSimulator) : Prop := mkSimOk {
  so_params : params s = m;
  so_ok : ParamsOk m;
  so_placements : PlacementsOk m (placements s);
  so_window : WindowLen s;
  so_step : eplbLoadWindowStep s < vllmEPLBWindowSize }.

Lemma copyInto_length off n src w : length src = n → off + n ≤ length w → ∃ w', copyInto off n src w = Some w' ∧ length w' = length w.
Proof.
  intros Hs Hl. unfold copyInto. rewrite (proj2 (Nat.leb_le _ _)) by done. eexists. split; [done|].
  rewrite !length_app, length_drop, !length_take. lia.
Qed.

Lemma window_cell W step layers experts layer : step < W → layer < layers → step * (layers * experts) + layer * experts + experts ≤ W * (layers * experts).
Proof.
  intros Hs Hl. assert (layer * experts + experts ≤ layers * experts) by nia. assert (S step * (layers * experts) ≤ W * (layers * experts)) by (apply Nat.mul_le_mono_r; lia). lia.
Qed.

Lemma recordLayerCounts_total m s counts :
  SimOk m s → countsShape m counts = true → ∃ s', recordEPLBLayerCounts counts s = Some s' ∧ SimOk m s' ∧ placements s' = placements s.
Proof.
  intros [Hp Hok Hpl HW Hst] Hshape. unfold countsShape in Hshape. apply andb_true_iff in Hshape as [Hlen%Nat.eqb_eq Hrows]. unfold recordEPLBLayerCounts. cbv zeta. rewrite Hp.
  unfold WindowLen in HW. rewrite Hp in HW.
  match goal with |- context [foldM ?f ?b ?l] => destruct (foldM_inv f (λ _ w, length w = length (eplbLoadWindow s)) l b) as (w & -> & Hw); [done| |] end.
  { intros done layer rest w E Hw. assert (layer ∈ seq 0 (numLayers m)) as [_ Hl]%elem_of_seq by (rewrite E; apply elem_of_middle).
    destruct (lookup_lt_is_Some_2 counts layer) as [row Hrow]; [lia|]. rewrite Hrow. cbn [mbind option_bind]. rewrite <- Hw. apply copyInto_length.
    - rewrite forallb_forall in Hrows. apply Nat.eqb_eq, Hrows, list_elem_of_In. by eapply list_elem_of_lookup_2.
    - rewrite Hw, HW. by apply window_cell. }
  cbn [mbind option_bind]. eexists. split; [done|]. split; [|done]. constructor; cbn [params placements eplbLoadWindow eplbLoadWindowStep]; try done.
  - unfold WindowLen. cbn. by rewrite Hw, HW.
  - destruct (Nat.leb_spec vllmEPLBWindowSize (S (eplbLoadWindowStep s))); [|done]. destruct eplb_constants as (? & -> & _). lia.
Qed.

Lemma SimOk_step m s n : SimOk m s → SimOk m (set_rearrangementStep n s).
Proof. by intros []. Qed.

Lemma advanceLayerCounts_total m s counts :
  SimOk m s → countsShape m counts = true → ∃ s' d, advanceEPLBLayerCounts counts s = Some (s', d) ∧ SimOk m s'.
Proof.
  intros HI Hshape. unfold advanceEPLBLayerCounts.
  assert (∃ s1, (if shouldRecordEPLBLoad s then recordEPLBLayerCounts counts s else Some s) = Some s1 ∧ SimOk m s1) as (s1 & -> & HI1).
  { destruct (shouldRecordEPLBLoad s); [|by exists s]. destruct (recordLayerCounts_total m s counts HI Hshape) as (s1 & -> & H & _). by exists s1. }
  cbn [mbind option_bind]. cbv zeta. destruct (_ <? _); [eexists _, _; split; [done|by apply SimOk_step]|].
  set (s2 := set_rearrangementStep 0 _). assert (SimOk m s2) as [Hp Hok Hpl HW Hst] by (unfold s2; by do 2 apply SimOk_step). rewrite <- Hp in Hok, Hpl.
  destruct (rebalanceExperts_total s2 Hok HW Hpl) as (s3 & d & -> & H1 & H2 & H3 & _ & H4 & _). exists s3, d. split; [done|].
  constructor; [congruence|by rewrite <- Hp|by rewrite <- Hp| |by rewrite H2]. unfold WindowLen in *. by rewrite H1, H4.
Qed.

(** * One forward *)

(** A layer of the forward is routed only to infinite costs. *)
Definition traceForwardOverflow (m : moeParams) (counts : moeLayerCounts) (ps : list placement) (as_ : assignmentTable) : Prop :=
  ∃ layer row p, counts !! layer = Some row ∧ ps !! layer = Some p ∧ layerOverflow m row p (default [] (as_ !! layer)).

Lemma forwardLayer_total m iter times o counts ps as_ acc layer :
  ParamsOk m → PlacementsOk m ps → countsShape m counts = true → layer < numLayers m →
  (∃ acc', forwardLayer iter times o m counts ps as_ acc layer = Some acc') ∨
  (forwardLayer iter times o m counts ps as_ acc layer = None ∧ traceForwardOverflow m counts ps as_).
Proof.
  intros Hok [Hl Hv] Hshape Hlt. unfold countsShape in Hshape. apply andb_true_iff in Hshape as [Hlen%Nat.eqb_eq Hrows]. rewrite forallb_forall in Hrows.
  destruct acc as [[records secs] wall]. unfold forwardLayer. destruct (lookup_lt_is_Some_2 counts layer) as [row Hrow]; [lia|]. destruct (lookup_lt_is_Some_2 ps layer) as [p Hp]; [lia|].
  rewrite Hrow, Hp. cbn [mbind option_bind]. cbv zeta.
  assert (length row = numExperts m) as Hr by (apply Nat.eqb_eq, Hrows, list_elem_of_In; by eapply list_elem_of_lookup_2).
  pose proof (Hv p (list_elem_of_lookup_2 _ _ _ Hp)) as HV. rewrite <- Hr in HV.
  destruct (traceRouteLayer_total m row p _ (default [] (as_ !! layer)) (po_gpus _ Hok) HV) as [(st & -> & Hs & Hsrc)|[-> H]]; [left|right; split; [done|]; by exists layer, row, p].
  cbn [mbind option_bind]. destruct (layerExecution_total m o (iter layer) st row (default [] (as_ !! layer)) Hs) as [[gpus cost] ->]. cbn [mbind option_bind].
  destruct (phaseCost_total m st Hsrc) as [c ->]. cbn [mbind option_bind]. eauto.
Qed.

(** A forward over any counts returns and keeps the simulator well-formed, unless the
    concentrate router's costs overflow. *)
Lemma forward_total m iter times o counts as_ s :
  SimOk m s →
  (∃ s' x, traceModelExecutionForLayerCounts iter times o counts as_ s = Some (s', x) ∧ SimOk m s') ∨
  (traceModelExecutionForLayerCounts iter times o counts as_ s = None ∧ traceForwardOverflow m counts (placements s) as_).
Proof.
  intros HI. pose proof HI as [Hp Hok Hpl HW Hst]. unfold traceModelExecutionForLayerCounts. cbv zeta. rewrite Hp.
  destruct (countsShape m counts) eqn:Hshape; cbn [negb]; [|left; by eexists _, _]. destruct (feq _ _); [left; by eexists _, _|].
  assert (∃ s1 d, (if fixedPlacement o then Some (s, 0%Z) else advanceEPLBLayerCounts counts s) = Some (s1, d) ∧ SimOk m s1) as (s1 & d & -> & HI1).
  { destruct (fixedPlacement o); [by eexists _, _|by apply advanceLayerCounts_total]. }
  cbn [mbind option_bind].
  destruct (foldM_inv_or (forwardLayer iter times o m counts (placements s) as_) (λ _ _, True) (traceForwardOverflow m counts (placements s) as_) (seq 0 (numLayers m)) ([], f_zero, 0%Z) I)
    as [([[r t] w] & -> & _)|[-> H]]; [|left; eexists _, _; split; [reflexivity|done]|by right].
  intros done layer rest acc E _. assert (layer ∈ seq 0 (numLayers m)) as [_ Hl]%elem_of_seq by (rewrite E; apply elem_of_middle).
  destruct (forwardLayer_total m iter times o counts (placements s) as_ acc layer Hok Hpl Hshape Hl) as [[a Ha]|H]; [left; by exists a|by right].
Qed.

(** The cost model of the benchmark is one for its scheduler. *)
Lemma virtualForward_model m iter f : router m ≠ MoERouterConcentrate → ForwardModel m (SimOk m) (virtualForward iter f).
Proof.
  intros Hr. constructor; [by intros s []|]. intros g t s HI. unfold virtualForward.
  destruct (forward_total m iter (λ _, mkTimes 0 [] 0) f (tableOf (numLayers m) (numExperts m) g) t s HI) as [(s' & x & -> & HI')|(_ & layer & row & p & _ & _ & H & _)]; [|done].
  cbn [mbind option_bind fst snd]. eexists _, _. by split.
Qed.

(** * The timeline *)

(** A sequence of calls, each with its time and the modelled latency of its forward:
    start, finish and the latency the caller sees. *)
Fixpoint timeline (next : Z) (calls : list (Z * Z)) : list (Z * Z * Z) :=
  match calls with
  | [] => []
  | (called, latency) :: calls =>
      let '(next, (start, seen)) := reserveForward next called latency in (start, next, seen) :: timeline next calls
  end.

Lemma timeline_after next calls start finish seen :
  (∀ c, c ∈ calls → 0 ≤ c.2)%Z → (start, finish, seen) ∈ timeline next calls → (next ≤ start)%Z.
Proof.
  revert next. induction calls as [|[called latency] calls IH]; intros next Hc; cbn [timeline]; [by intros ?%not_elem_of_nil|].
  pose proof (Hc (called, latency) ltac:(left)) as H0. cbn in H0. unfold reserveForward. cbn [fst snd]. rewrite elem_of_cons.
  assert (next ≤ if (called <? next)%Z then next else called)%Z by (destruct (Z.ltb_spec called next); lia).
  intros [[= -> _ _]|Hin]; [done|]. apply IH in Hin; [lia|]. intros. apply Hc. by right.
Qed.

(** * Theorems *)

(** C36: routing the tokens of a layer of the trace replay, by any router, central or
    by source GPU, conserves them: with whole counts (of at most 2^53 in all) and recorded
    sources that are among the counted tokens, there is a table of tokens per GPU and
    expert that puts every token of every expert on exactly one GPU holding a copy, and
    the routing state is exactly that table: a map entry for each positive cell, and
    loads that are its exact row sums.  The only panic is the concentrate router's, when
    its run on these very counts and this placement (or on one source GPU's share of
    them) meets an expert with load all of whose holders have, in the state reached
    then, a cost that is not below +Inf. *)
Theorem trace_routing_conserves m cs p k as_ :
  1 ≤ numGPUs m → ValidPlacement (length cs) (numGPUs m) k p → (∀ c, c ∈ cs → (0 ≤ c)%Z) → (sumZ cs < 2 ^ 53)%Z →
  (∀ e, e < length cs → (covered (numGPUs m) as_ e ≤ cs !!! e)%Z) →
  (∃ st (T : nat → nat → Z), traceRouteLayer m (f_of_Z <$> cs) p as_ = Some st ∧
     (∀ gpu e, (0 ≤ T gpu e)%Z ∧ ((0 < T gpu e)%Z → Holds p gpu e)) ∧
     (∀ e, e < length cs → total (λ gpu, T gpu e) (seq 0 (numGPUs m)) = cs !!! e) ∧
     (∀ gpu em e, expertLoads st !! gpu = Some em → em !! e = if (0 <? T gpu e)%Z then Some (f_of_Z (T gpu e)) else None) ∧
     (∀ gpu, gpu < numGPUs m → tr_loads st !! gpu = Some (f_of_Z (total (T gpu) (seq 0 (length cs)))))) ∨
  (traceRouteLayer m (f_of_Z <$> cs) p as_ = None ∧ layerOverflow m (f_of_Z <$> cs) p as_).
Proof.
  intros Hg Hp Hnn Hsm Hcov. destruct (traceRouteLayer_total m (f_of_Z <$> cs) p k as_ Hg) as [(st & E & [_ Hs] & _)|H]; [by rewrite length_fmap|left|by right].
  destruct (layer_conserved m cs p k as_ Hg Hp Hnn Hsm Hcov st E) as (T & [_ HE HL] & [HT1 HT2 HT3] & HC). exists st, T. split_and!; [done| |done|done|].
  - intros gpu e. split; [apply HT1|apply HT2].
  - intros gpu Hlt. destruct (lookup_lt_is_Some_2 (tr_loads st) gpu) as [l Hl]; [lia|]. by rewrite Hl, (HL gpu l Hl).
Qed.

Lemma trace_routing_conserves_witness :
  ∃ st (T : nat → nat → Z), traceRouteLayer params_ex (f_of_Z <$> [8; 4; 2]%Z) placement_ex [] = Some st ∧
    total (λ gpu, T gpu 0) (seq 0 2) = 8%Z ∧ tr_loads st !! 0 = Some (f_of_Z (total (T 0) (seq 0 3))).
Proof.
  destruct (trace_routing_conserves params_ex [8; 4; 2]%Z placement_ex 2 []) as [(st & T & E & _ & H2 & _ & H4)|(E & _)].
  - vm_compute. lia.
  - exact placement_ex_ok.
  - intros c. rewrite !elem_of_cons, elem_of_nil. lia.
  - vm_compute. reflexivity.
  - intros [|[|[|e]]] He; [vm_compute; discriminate..|cbn in He; lia].
  - exists st, T. split; [exact E|]. split; [apply (H2 0); cbn; lia|apply (H4 0); vm_compute; lia].
  - vm_compute in E. discriminate E.
Defined.

(** The modelled forwards of concurrent requests share one timeline: in the order of
    the calls no forward starts before its call or before the previous one has finished,
    and a caller sees the time from its call to the end of its forward, never less than
    the forward's own latency. *)
Theorem forwards_do_not_overlap next calls i j start finish seen start' finish' seen' :
  (∀ c, c ∈ calls → 0 ≤ c.2)%Z →
  timeline next calls !! i = Some (start, finish, seen) → timeline next calls !! j = Some (start', finish', seen') → i < j →
  (finish ≤ start')%Z ∧ ∃ called latency, calls !! i = Some (called, latency) ∧ (called ≤ start ∧ finish = start + latency ∧ seen = finish - called ∧ latency ≤ seen)%Z.
Proof.
  revert next i j. induction calls as [|[called latency] calls IH]; intros next i j Hc Hi Hj Hij; [done|]. cbn [timeline] in Hi, Hj. unfold reserveForward in Hi, Hj.
  set (next' := ((if (called <? next)%Z then next else called) + latency)%Z) in *. assert (∀ c, c ∈ calls → 0 ≤ c.2)%Z as Hc' by (intros; apply Hc; by right).
  destruct j as [|j]; [lia|]. cbn in Hj. destruct i as [|i].
  - injection Hi as <- <- <-. split; [eapply timeline_after; [done|by eapply list_elem_of_lookup_2]|]. exists called, latency. split; [done|].
    unfold next'. destruct (Z.ltb_spec called next); lia.
  - apply (IH next' i j); [done..|lia].
Qed.

Lemma forwards_do_not_overlap_witness :
  timeline 0 [(10, 5); (12, 5); (30, 2)]%Z = [(10, 15, 5); (15, 20, 8); (30, 32, 2)]%Z ∧ (15 ≤ 15)%Z.
Proof.
  split; [reflexivity|]. apply (forwards_do_not_overlap 0 [(10, 5); (12, 5); (30, 2)]%Z 0 1 10 15 5 15 20 8); [|reflexivity|reflexivity|lia].
  intros c. rewrite !elem_of_cons, elem_of_nil. intros [-> | [-> | [-> |[]]]]; cbn; lia.
Defined.

End TraceForward.
