(* ===== verification/TraceBenchmark.v ===== *)
(** The offline benchmark as a whole: fixed placements are valid, the configured
    simulator is well-formed, and a run over a trace completes. *)

From S2P Require Import Prelude Sums GoFloat GoFloatInt TraceFormat TraceFile TraceReader Requests TraceText TraceAccumulator TraceProps Moe MoePlacement MoeRouting MoeEplb MoeProps TraceWorkload TraceWorkloadProps TraceFidelity TraceExecution TraceRouting TraceVirtual TraceVirtualInv TraceVirtualProps TraceForward.
Import TraceFormat TraceAccumulator TraceFile TraceReader Moe MoePlacement MoeRouting MoeEplb TraceWorkload TraceWorkloadProps TraceFidelity TraceExecution TraceRouting TraceVirtual
  TraceVirtualInv TraceVirtualProps TraceForward.
Open Scope nat_scope.

Module TraceBenchmark.

(** * Fixed placements *)

(** After [s] slots of [k] per GPU. *)
Record SlotInv (n k s : nat) (p : placement) : Prop := mkSlot {
  sl_length : length p = n;
  sl_distinct : ∀ e ranks, p !! e = Some ranks → NoDup ranks;
  sl_ranks : ∀ e ranks x, p !! e = Some ranks → x ∈ ranks → ∃ t, t < s ∧ x = t / k;
  sl_slots : ∀ r, occupancy p r = Nat.min k (s - r * k) }.

Lemma placeSlot_ok m layer k s p logical p' :
  0 < k → SlotInv (numExperts m) k s p → placeSlot m layer k p (s, logical) = Ok p' → SlotInv (numExperts m) k (S s) p'.
Proof.
  intros Hk [Hlen Hd Hr Ho]. unfold placeSlot. destruct ((logical <? 0) || (Z.of_nat (numExperts m) <=? logical))%Z eqn:El; [done|].
  rewrite orb_false_iff, Z.ltb_ge, Z.leb_gt in El. set (e := Z.to_nat logical). destruct (lookup_lt_is_Some_2 p e) as [ranks E]; [lia|].
  rewrite (list_lookup_total_correct _ _ _ E). case_bool_decide as Hin; [done|]. intros [= <-].
  assert (∀ e' l, <[e := ranks ++ [s / k]]> p !! e' = Some l → (e' = e ∧ l = ranks ++ [s / k]) ∨ p !! e' = Some l) as Hl.
  { intros e' l. destruct (decide (e' = e)) as [->|]; [rewrite list_lookup_insert_eq by (apply lookup_lt_Some in E; lia); naive_solver|].
    rewrite list_lookup_insert_ne by done. naive_solver. }
  constructor.
  - by rewrite length_insert.
  - intros e' l [[-> ->]|H]%Hl; [|by eapply Hd]. apply NoDup_app. split; [by eapply Hd|]. split; [set_solver|apply NoDup_singleton].
  - intros e' l x [[-> ->]|H]%Hl Hx.
    + apply elem_of_app in Hx as [Hx|Hx%list_elem_of_singleton]; [|subst; exists s; auto]. destruct (Hr _ _ _ E Hx) as (t & ? & ?). exists t. auto.
    + destruct (Hr _ _ _ H Hx) as (t & ? & ?). exists t. auto.
  - intros r. rewrite (occupancy_append _ _ ranks) by done. rewrite Ho. pose proof (Nat.div_mod s k ltac:(lia)). pose proof (Nat.mod_upper_bound s k ltac:(lia)).
    destruct (decide (r = s / k)) as [->|Hne]; [nia|]. destruct (decide (r < s / k)); nia.
Qed.

Lemma placeSlots_ok m layer k (l : list Z) s p p' :
  0 < k → SlotInv (numExperts m) k s p → placeSlots m layer k p (zip (seq s (length l)) l) = Ok p' → SlotInv (numExperts m) k (s + length l) p'.
Proof.
  intros Hk. revert s p. induction l as [|x l IH]; intros s p HI; cbn [length seq zip_with placeSlots]; [intros [= <-]; by rewrite Nat.add_0_r|].
  destruct (placeSlot _ _ _ _ _) as [p1|] eqn:E; [|done]. cbn. rewrite <- Nat.add_succ_comm. apply IH. by eapply placeSlot_ok.
Qed.

Lemma enumerate_zip {A} (l : list A) : enumerate l = zip (seq 0 (length l)) l.
Proof.
  apply list_eq. intros i. rewrite enumerate_lookup, lookup_zip_with. destruct (l !! i) as [x|] eqn:E.
  - rewrite lookup_seq_lt by by eapply lookup_lt_Some. cbn. done.
  - cbn. by destruct (seq _ _ !! i).
Qed.

Lemma missingExpert_none p : missingExpert p = None → ∀ e ranks, p !! e = Some ranks → ranks ≠ [].
Proof.
  unfold missingExpert. destruct (find _ _) as [x|] eqn:Ef; [done|]. intros _ e ranks He ->. eapply find_none in Ef; [|apply list_elem_of_In, elem_of_enumerate, He]. done.
Qed.

Lemma placeLayer_valid m layer l p :
  1 ≤ numGPUs m → 1 ≤ physicalSlots m → physicalSlots m mod numGPUs m = 0 → placeLayer m layer l = Ok p →
  ValidPlacement (numExperts m) (numGPUs m) (slotsPerRank m) p.
Proof.
  intros Hg Hs Hmod. unfold placeLayer, slotsPerRank. destruct (Nat.eqb_spec (length l) (physicalSlots m)) as [Hl|]; [|done]. cbn [negb].
  pose proof (Nat.div_mod (physicalSlots m) (numGPUs m) ltac:(lia)) as Hdiv. rewrite Hmod in Hdiv. set (k := physicalSlots m / numGPUs m) in *. assert (0 < k) as Hk by nia.
  rewrite enumerate_zip. destruct (placeSlots _ _ _ _ _) as [p'|] eqn:E; [|done]. cbn. destruct (missingExpert p') as [e|] eqn:Em; [done|]. intros [= <-].
  apply placeSlots_ok in E as [H1 H2 H3 H4]; [|done|].
  - constructor; [done|done|by apply missingExpert_none| |].
    + intros e ranks r He Hr. destruct (H3 _ _ _ He Hr) as (t & Ht & ->). apply Nat.Div0.div_lt_upper_bound. nia.
    + intros r Hr. rewrite H4. nia.
  - constructor.
    + apply length_replicate.
    + intros e ranks [-> _]%lookup_replicate. constructor.
    + intros e ranks x [-> _]%lookup_replicate. set_solver.
    + intros r. rewrite occupancy_empty. lia.
Qed.

Lemma placeLayers_valid m xs ps :
  1 ≤ numGPUs m → 1 ≤ physicalSlots m → physicalSlots m mod numGPUs m = 0 → placeLayers m xs = Ok ps →
  length ps = length xs ∧ ∀ p, p ∈ ps → ValidPlacement (numExperts m) (numGPUs m) (slotsPerRank m) p.
Proof.
  intros Hg Hs Hmod. revert ps. induction xs as [|[layer l] xs IH]; intros ps; cbn [placeLayers]; [intros [= <-]; split; [done|intros p Hp; by apply not_elem_of_nil in Hp]|].
  destruct (placeLayer _ _ _) as [p|] eqn:Ep; [|done]. cbn. destruct (placeLayers m xs) as [ps'|]; [|done]. cbn. intros [= <-]. destruct (IH ps' eq_refl) as [H1 H2].
  split; [cbn; lia|]. intros q [->|Hq]%elem_of_cons; [by eapply placeLayer_valid|by apply H2].
Qed.

(** An installed placement file keeps the simulator well-formed. *)
Lemma installFixedPlacement_ok m data s s' :
  SimOk m s → 1 ≤ physicalSlots m → installFixedPlacement data s = Ok s' → SimOk m s'.
Proof.
  intros [Hp Hok Hpl HW Hst] Hslots. unfold installFixedPlacement. cbv zeta. rewrite Hp. destruct (_ && _); [done|]. destruct (_ && _); [done|].
  destruct (Nat.eqb_spec (length (PhysicalToLogical data)) (numLayers m)) as [Hl|]; [|done]. cbn [negb]. destruct (Nat.eqb_spec (physicalSlots m mod numGPUs m) 0) as [Hmod|]; [|done]. cbn [negb].
  destruct (placeLayers _ _) as [ps|] eqn:E; [|done]. cbn. intros [= <-]. apply placeLayers_valid in E as [H1 H2]; [|apply Hok|done|done].
  constructor; cbn; [done|done| | |done]; [split; [by rewrite H1, length_enumerate|done]|]. unfold WindowLen in *. cbn. by rewrite Hp in HW.
Qed.

(** * The run of the scheduler *)

(** What a completed run reports: [fs] are the workloads of the forwards and [ns]
    their token counts. *)
Record RunReport (m : moeParams) (budget : nat) (ps : list moeTracePrompt) (t0 : virtualTotals) (st : loopState) (fs : list (nat → nat → Z)) (ns : list nat) : Prop := mkReport {
  rr_forwards : vl_forwards st = tableOf (numLayers m) (numExperts m) <$> fs;
  rr_uses : ∀ l e, total (λ f : nat → nat → Z, f l e) fs = total (λ p, uses (promptEvents m (tp_data p)) l e) ps;
  rr_tokens : length ns = length fs ∧ Forall (λ n, 1 ≤ n ≤ budget) ns ∧ sum_list ns = sum_list (promptTokens <$> ps);
  rr_decodes : vr_DecodeForwards (vl_result st) = total (λ p, Z.of_nat (length (pd_DecodeTokenIDs (tp_data p)) - 1)) ps;
  rr_steps : vr_Steps (vl_result st) = Z.of_nat (length fs) ∧
    vr_Steps (vl_result st) = (vr_PrefillSteps (vl_result st) + vr_DecodeOnlySteps (vl_result st) + vr_MixedSteps (vl_result st))%Z;
  rr_time : vr_ModeledTime (vl_result st) = i64 (vr_ModeledPrefillTime (vl_result st) + vr_ModeledDecodeOnlyTime (vl_result st));
  rr_totals : vr_totals (vl_result st) = t0 }.

Lemma virtualRun_ok {m I forward} `{!ForwardModel m I forward} budget maxNumSeqs copies ps p sim t0 :
  0 < maxNumSeqs ≤ budget → 0 < numGPUs m → (Z.of_nat budget * perToken m < 2 ^ 53)%Z →
  (∀ q, q ∈ ps → PromptShape m (tp_data q) ∧ RoutesValid m (tp_data q)) → last ps = Some p → 0 < promptTokens p → I sim →
  ∃ st fs ns,
    virtualLoop forward budget maxNumSeqs (S (totalWork (virtualSequences copies ps)))
      (mkLoop (virtualSequences copies ps) sim (emptyResult t0) []) = Finished st ∧
    RunReport m budget (concat (replicate copies ps)) t0 st fs ns.
Proof.
  intros [Hm Hb] Hg Hsmall Hps Hlast Hbusy HI.
  destruct (virtualLoop_ok budget maxNumSeqs Hm Hb Hg Hsmall _ t0 (S (totalWork (virtualSequences copies ps))) _ [] []
    (last_busy copies ps p Hlast Hbusy) (Progress_start budget maxNumSeqs Hm Hb Hg copies ps sim t0 HI Hps)) as (st & fs & ns & E & HP & Hw); [cbn [vl_seqs]; lia|].
  exists st, fs, ns. split; [exact E|]. destruct HP as [[_ Hph _ _] _ Hpr Hf [Hl Hn] Hwork Hu Hd Hs Ht H0]. rewrite virtualSequences_prompts in Hpr.
  constructor; try done.
  - intros l e. rewrite <- Hu. unfold contributed. apply (done_total _ _ (vl_seqs st)); [done..|]. intros s Hdone Hok. unfold PhaseOk in Hok. rewrite Hdone in Hok.
    destruct Hok as [H1 H2]. unfold seqEvents, promptEvents. by rewrite H1, H2.
  - split_and!; [done..|]. rewrite (done_work _ Hw), start_work in Hwork. done.
  - rewrite Hd. apply (done_total _ _ (vl_seqs st)); [done..|]. intros s Hdone Hok. unfold PhaseOk in Hok. rewrite Hdone in Hok. by destruct Hok as [_ ->].
Qed.

(** * The configured simulator *)

Lemma SimOk_of_RunInv s : RunInv (params s) [] 0 s → SimOk (params s) s.
Proof.
  intros [_ Hok Hpl _ _ (recorded & HW & _) _ _]. constructor; [done|done|done|by eapply WindowOk_length|].
  rewrite (wo_step _ _ HW). apply Nat.mod_upper_bound. destruct eplb_constants as (? & -> & _). lia.
Qed.

Lemma virtualConfig_sim Pow c :
  validateVirtualMoEConfig c = Ok tt → (MoENumExperts c * MoEExpertParallelSize c < 2 ^ 63)%Z →
  ∃ s, newMoESimulator Pow c = Some s ∧ SimOk (params s) s ∧ router (params s) = MoERouter c ∧ 1 ≤ physicalSlots (params s) ∧
    numLayers (params s) = Z.to_nat (MoENumLayers c) ∧ topK (params s) = MoETopK c.
Proof.
  intros Hval Hov. unfold validateVirtualMoEConfig in Hval. inv_ok Hval. repeat match goal with H : _ || _ = false |- _ => apply orb_false_iff in H as [? ?] end.
  rewrite i64_small in * by (repeat match goal with H : (_ <? _)%Z = false |- _ => apply Z.ltb_ge in H end; nia).
  repeat match goal with H : (_ <? _)%Z = false |- _ => apply Z.ltb_ge in H | H : negb (_ =? _)%Z = false |- _ => apply negb_false_iff, Z.eqb_eq in H end.
  destruct (newMoESimulator_dims Pow c) as (s & Es & HR & Hr); [lia|lia|lia|rewrite <- Z.rem_mod_nonneg by lia; done|].
  exists s. split; [done|]. split; [by apply SimOk_of_RunInv|]. split; [done|]. unfold newMoESimulator in Es. destruct (vllmInitialPlacementOneLayer _ _ _); [|done].
  cbn [mbind option_bind] in Es. injection Es as <-. cbn. split_and!; [lia|done|done].
Qed.

(** The options keep the simulator well-formed, with or without a placement file. *)
Lemma configure_sim m model c env placement countRouter s f s' :
  SimOk m s → 1 ≤ physicalSlots m → configureTraceFidelity model c env placement countRouter s = Ok (f, s') → SimOk m s'.
Proof.
  intros HI Hs. unfold configureTraceFidelity. destruct (applyTraceFidelityEnvironment _ _ _) as [o|]; [|done]. destruct placement as [data|]; [|by intros [= _ <-]].
  destruct (installFixedPlacement data s) as [s1|] eqn:E; [|done]. intros [= _ <-]. by eapply installFixedPlacement_ok.
Qed.

(** * An example: one prompt of two input and three output tokens *)

Definition exampleFile (d : list PromptMetadata) (rs : list sourceTraceRecord) : bytes :=
  match Convert (λ _, [123%Z])
    [fModel (Some "m"%string); fNumExperts (Some 4%Z); fTopK (Some 2%Z); fSparseLayers (Some [3%Z]); fNumSparseLayers (Some 1%Z);
     fNumPrompts (Some (Z.of_nat (length d))); fPrompts (Some d); fOther true; fTrace (mkArray true (Some <$> rs) true)] 9 TraceProps.exHash with
  | Ok x => fst x
  | Err _ => []
  end.
Definition busyPrompt : PromptMetadata := mkPromptMetadata 0 "p" 2 3 "tuv".
Definition busyRecords : list sourceTraceRecord :=
  [mkRecord 0 "prefill" 0 7 3 [2; 1]%Z []; mkRecord 0 "prefill" 1 8 3 [2; 3]%Z []; mkRecord 0 "decode" 2 9 3 [0; 3]%Z [];
   mkRecord 0 "decode" 3 9 3 [2; 3]%Z []; mkRecord 0 "decode" 4 9 3 [2; 1]%Z []].
Definition busyBytes : bytes := Eval vm_compute in exampleFile [busyPrompt] busyRecords.
Definition busyDoc : Metadata := mkMetadata 1 "m" 4 2 [3%Z] 1 1 0 [busyPrompt].
Definition exConfig : Configuration :=
  mkConfiguration true 2 4 4 2 1 MoERouterHeuristic false (f_const 8 10) 64 32 2 (f_of_Z (10 ^ 12)) (f_of_Z (10 ^ 11)) (f_of_Z (10 ^ 10)) 5000.
Definition exEnv : fidelityEnv := mkFidelityEnv None None None None None None None.
Definition exIter : nat → nat → gmap nat f64 → list (nat * f64) := λ _ _ x, map_to_list x.
Definition exSim : option moeSimulator := newMoESimulator MoeProps.Pow_ex exConfig.
Definition exFidelity : traceFidelityConfig := presetFidelity "m" exConfig false.

(** The last prompt of the other example is empty. *)
Definition storeOf (doc : Metadata) (file : bytes) : moeTraceStore :=
  match loadMoETraceStore (λ _, Some doc) file "m" exConfig with Some (Ok s) => s | _ => mkStore "" 0 0 0 [] end.

(** The simulator of the example, and its prompts. *)
Lemma ex_sim : ∃ s, newMoESimulator MoeProps.Pow_ex exConfig = Some s ∧ SimOk (params s) s ∧ router (params s) ≠ MoERouterConcentrate ∧
  numGPUs (params s) = 2 ∧ numExperts (params s) = 4 ∧ numLayers (params s) = 1 ∧ topK (params s) = 2%Z.
Proof.
  destruct (virtualConfig_sim MoeProps.Pow_ex exConfig) as (s & Es & HI & Hr & _ & HL & HK); [vm_compute; reflexivity|vm_compute; reflexivity|].
  exists s. split; [done|]. split; [done|]. rewrite Hr, HL, HK. split; [done|].
  assert ((λ s, (numGPUs (params s), numExperts (params s))) <$> newMoESimulator MoeProps.Pow_ex exConfig = Some (2, 4)) as E by (vm_compute; reflexivity).
  rewrite Es in E. injection E as -> ->. done.
Qed.

(** The shape and the routes of a prompt, decided. *)
Definition promptFits (layers experts topk : nat) (q : moeTracePrompt) : bool :=
  let d := tp_data q in
  bool_decide (length (pd_PrefillRoutes d) = layers * length (pd_InputTokenIDs d) * topk ∧ length (pd_DecodeRoutes d) = length (pd_DecodeTokenIDs d) * layers * topk) &&
  forallb (λ e, (0 <=? e) && (e <? Z.of_nat experts))%Z (pd_PrefillRoutes d ++ pd_DecodeRoutes d).

Lemma promptFits_ok m layers experts topk q :
  numLayers m = layers → numExperts m = experts → topK m = Z.of_nat topk → promptFits layers experts topk q = true → PromptShape m (tp_data q) ∧ RoutesValid m (tp_data q).
Proof.
  intros HL HE HK [[H1 H2]%bool_decide_eq_true H3]%andb_true_iff. split; [constructor; by rewrite HL, HK, Nat2Z.id|].
  rewrite forallb_app, andb_true_iff, !forallb_forall in H3. destruct H3 as [H3 H4]. split; apply Forall_forall; intros e He%list_elem_of_In; rewrite HE;
    [specialize (H3 e He); rename H3 into H5|specialize (H4 e He); rename H4 into H5]; apply andb_true_iff in H5 as [?%Z.leb_le ?%Z.ltb_lt]; lia.
Qed.

Lemma ex_prompts m doc file :
  numLayers m = 1 → numExperts m = 4 → topK m = 2%Z → forallb (promptFits 1 4 2) (st_prompts (storeOf doc file)) = true →
  ∀ q, q ∈ st_prompts (storeOf doc file) → PromptShape m (tp_data q) ∧ RoutesValid m (tp_data q).
Proof. intros HL HE HK H q Hq%list_elem_of_In. rewrite forallb_forall in H. by apply (promptFits_ok m 1 4 2), H. Qed.

(** * Theorems *)

(** A forward of the trace replay keeps the simulator well-formed (same
    parameters, every layer placed with each expert on distinct ranks and every rank
    with its share of the slots, a load window of the right size), whatever counts it
    is given, and does not panic unless the concentrate router's costs overflow. *)
Theorem forward_keeps_simulator m iter times o counts as_ s :
  SimOk m s →
  (∃ s' x, traceModelExecutionForLayerCounts iter times o counts as_ s = Some (s', x) ∧ SimOk m s') ∨
  (traceModelExecutionForLayerCounts iter times o counts as_ s = None ∧ traceForwardOverflow m counts (placements s) as_).
Proof. apply forward_total. Qed.

Lemma forward_keeps_simulator_witness :
  ∃ s s' x, exSim = Some s ∧
    traceModelExecutionForLayerCounts exIter (λ _, mkTimes 0 [] 0) exFidelity [f_of_Z <$> [3; 1; 2; 0]%Z] [] s = Some (s', x) ∧ SimOk (params s) s'.
Proof.
  destruct ex_sim as (s & Es & HI & Hr & _). exists s.
  destruct (forward_keeps_simulator (params s) exIter (λ _, mkTimes 0 [] 0) exFidelity [f_of_Z <$> [3; 1; 2; 0]%Z] [] s HI) as [(s' & x & E & HI')|(_ & layer & row & p & _ & _ & Hc & _)]; [|done].
  exists s', x. split; [exact Es|]. split; [exact E|exact HI'].
Defined.

(** C4: for any cost model that returns on every workload, the offline scheduler
    terminates (its fuel, the tokens still to process plus one, is never exhausted) and
    processes every token of every copy of every prompt exactly once: the expert uses
    of its forwards add up to those of the recorded routes, layer by layer and expert by
    expert; every forward has between one token and the token budget; and the reported
    decode forwards, steps and times are those of the run.  The last prompt must have a
    token to process. *)
Theorem virtual_run_complete m I forward budget maxNumSeqs copies ps p sim t0 :
  ForwardModel m I forward → I sim →
  0 < maxNumSeqs ≤ budget → 0 < numGPUs m → (Z.of_nat budget * perToken m < 2 ^ 53)%Z →
  (∀ q, q ∈ ps → PromptShape m (tp_data q) ∧ RoutesValid m (tp_data q)) → last ps = Some p → 0 < promptTokens p →
  ∃ st fs ns,
    virtualLoop forward budget maxNumSeqs (S (totalWork (virtualSequences copies ps)))
      (mkLoop (virtualSequences copies ps) sim (emptyResult t0) []) = Finished st ∧
    RunReport m budget (concat (replicate copies ps)) t0 st fs ns.
Proof. intros ? ? ? ? ? ? ? ?. by eapply virtualRun_ok. Qed.

Lemma virtual_run_complete_witness :
  ∃ sim, exSim = Some sim ∧ ∃ st fs ns,
    virtualLoop (virtualForward exIter exFidelity) 8 1 (S (totalWork (virtualSequences 2 (st_prompts (storeOf busyDoc busyBytes)))))
      (mkLoop (virtualSequences 2 (st_prompts (storeOf busyDoc busyBytes))) sim (emptyResult (mkTotals "m" "heuristic" 0 0 0)) []) = Finished st ∧
    RunReport (params sim) 8 (concat (replicate 2 (st_prompts (storeOf busyDoc busyBytes)))) (mkTotals "m" "heuristic" 0 0 0) st fs ns ∧
    sum_list ns = 8.
Proof.
  destruct ex_sim as (sim & Es & HI & Hr & HG & HE & HL & HK). exists sim. split; [exact Es|].
  destruct (last (st_prompts (storeOf busyDoc busyBytes))) as [p|] eqn:Ep; [|vm_compute in Ep; discriminate Ep].
  destruct (virtual_run_complete (params sim) (SimOk (params sim)) (virtualForward exIter exFidelity) 8 1 2 (st_prompts (storeOf busyDoc busyBytes)) p sim
    (mkTotals "m" "heuristic" 0 0 0)) as (st & fs & ns & E & HR).
  - by apply virtualForward_model.
  - exact HI.
  - lia.
  - lia.
  - unfold perToken. rewrite HL, HK. vm_compute. reflexivity.
  - apply ex_prompts; [done..|]. vm_compute. reflexivity.
  - exact Ep.
  - assert (promptTokens <$> last (st_prompts (storeOf busyDoc busyBytes)) = Some 4) as H by (vm_compute; reflexivity). rewrite Ep in H. injection H as ->. lia.
  - exists st, fs, ns. split; [exact E|]. split; [exact HR|]. destruct (rr_tokens _ _ _ _ _ _ _ HR) as (_ & _ & ->). vm_compute. reflexivity.
Defined.

(** With one sequence at a time, a trace whose last prompt has no token to process
    (the converter writes such prompts) makes the offline benchmark fail with "made no
    progress", although all the other prompts are processed before. *)
Theorem virtual_idle_tail_fails m I forward budget copies ps p sim t0 :
  ForwardModel m I forward → I sim → 0 < budget → 0 < numGPUs m → (Z.of_nat budget * perToken m < 2 ^ 53)%Z →
  (∀ q, q ∈ ps → PromptShape m (tp_data q) ∧ RoutesValid m (tp_data q)) → last ps = Some p → promptTokens p = 0 → 0 < copies →
  virtualLoop forward budget 1 (S (totalWork (virtualSequences copies ps)))
    (mkLoop (virtualSequences copies ps) sim (emptyResult t0) []) = Failed ErrNoProgress.
Proof.
  intros HF HI Hb Hg Hsmall Hps Hl Hidle Hc.
  assert (last (virtualSequences copies ps) = Some (mkSeq p virtualPhaseWaiting 0 0)) as Hlast.
  { unfold virtualSequences. destruct copies as [|n]; [lia|]. rewrite replicate_S_end, concat_app. cbn [concat]. rewrite app_nil_r, last_app, fmap_last, Hl. done. }
  eapply (idle_tail_loop budget 1 ltac:(lia) ltac:(lia) Hg Hsmall); [done|exact (Progress_start budget 1 ltac:(lia) ltac:(lia) Hg copies ps sim t0 HI Hps)|exact Hlast|done| |cbn [vl_seqs]; lia].
  unfold idle, promptTokens, inputTokensOf, outputTokensOf in *. cbn. lia.
Qed.

Lemma virtual_idle_tail_fails_witness :
  ∃ sim, exSim = Some sim ∧ promptTokens <$> st_prompts (storeOf exDoc exBytes) = [1; 0] ∧
  virtualLoop (virtualForward exIter exFidelity) 8 1 (S (totalWork (virtualSequences 1 (st_prompts (storeOf exDoc exBytes)))))
    (mkLoop (virtualSequences 1 (st_prompts (storeOf exDoc exBytes))) sim (emptyResult (mkTotals "m" "heuristic" 0 0 0)) []) = Failed ErrNoProgress.
Proof.
  destruct ex_sim as (sim & Es & HI & Hr & HG & HE & HL & HK). exists sim. split; [exact Es|]. split; [vm_compute; reflexivity|].
  destruct (last (st_prompts (storeOf exDoc exBytes))) as [p|] eqn:Ep; [|vm_compute in Ep; discriminate Ep].
  apply (virtual_idle_tail_fails (params sim) (SimOk (params sim)) (virtualForward exIter exFidelity) 8 1 (st_prompts (storeOf exDoc exBytes)) p sim).
  - by apply virtualForward_model.
  - exact HI.
  - lia.
  - lia.
  - unfold perToken. rewrite HL, HK. vm_compute. reflexivity.
  - apply ex_prompts; [done..|]. vm_compute. reflexivity.
  - exact Ep.
  - assert (promptTokens <$> last (st_prompts (storeOf exDoc exBytes)) = Some 0) as H by (vm_compute; reflexivity). rewrite Ep in H. by injection H.
  - lia.
Defined.

(** The whole offline benchmark, on a valid configuration with the split or the
    heuristic router, a trace that loads and whose last prompt has a token, and options
    that fit: it returns a result (it neither panics nor stops early), whose totals are
    those of the trace, whose decode forwards are one per output token after the first,
    and whose number of forwards is between tokens / budget and tokens. *)
Theorem benchmark_completes Pow unmarshal iter env placement model c file o store sim f sim' p :
  Forall byte_ok file → (Z.of_nat (length file) < 2 ^ 63)%Z →
  validateVirtualMoEConfig c = Ok tt → (MoENumExperts c * MoEExpertParallelSize c < 2 ^ 63)%Z → MoERouter c ≠ MoERouterConcentrate →
  loadMoETraceStore unmarshal file model c = Some (Ok store) → newMoESimulator Pow c = Some sim →
  configureTraceFidelity model c env placement false sim = Ok (f, sim') →
  (effectiveSeqs o ≤ effectiveBudget o f)%Z → (effectiveBudget o f * perToken (params sim) < 2 ^ 53)%Z →
  (∀ q, q ∈ st_prompts store → RoutesValid (params sim) (tp_data q)) → last (st_prompts store) = Some p → 0 < promptTokens p →
  let ps := concat (replicate (Z.to_nat (effectiveCopies o)) (st_prompts store)) in
  ∃ r, RunMoETraceVirtualBenchmark Pow unmarshal iter env placement model c file o = Finished r ∧
    vr_totals r = mkTotals model (MoERouter c) (Z.of_nat (length ps)) (Z.of_nat (sum_list ((λ q, length (pd_InputTokenIDs (tp_data q))) <$> ps)))
      (Z.of_nat (sum_list ((λ q, length (pd_DecodeTokenIDs (tp_data q))) <$> ps))) ∧
    vr_DecodeForwards r = total (λ q, Z.of_nat (length (pd_DecodeTokenIDs (tp_data q)) - 1)) ps ∧
    vr_Steps r = (vr_PrefillSteps r + vr_DecodeOnlySteps r + vr_MixedSteps r)%Z ∧
    (vr_Steps r ≤ Z.of_nat (sum_list (promptTokens <$> ps)) ≤ vr_Steps r * effectiveBudget o f)%Z.
Proof.
  intros Hby Hsm Hval Hov Hr Hload Hsim Hconf Hfit Hsmall Hroutes Hlast Hbusy ps. unfold RunMoETraceVirtualBenchmark. rewrite Hval, Hload, Hsim, Hconf.
  destruct (Z.ltb_spec (effectiveBudget o f) (effectiveSeqs o)); [lia|].
  destruct (virtualConfig_sim Pow c Hval Hov) as (s & Es & HI & Hrt & Hsl & HL & HK). rewrite Hsim in Es. injection Es as <-.
  destruct (loadMoETraceStore_ok unmarshal file model c Hby Hsm) as (res & Eres & Hres). rewrite Hload in Eres. injection Eres as <-.
  destruct Hres as (rd & _ & Hmodel & _ & _ & _ & _ & Hprompts).
  assert (∀ q, q ∈ st_prompts store → PromptShape (params sim) (tp_data q) ∧ RoutesValid (params sim) (tp_data q)) as Hps.
  { intros q Hq. split; [|by apply Hroutes]. apply list_elem_of_lookup in Hq as [i Hi]. destruct (Hprompts i q Hi) as [_ [Hsh _ _ _]]. by apply Hsh. }
  assert (1 ≤ effectiveSeqs o)%Z as Hseqs by (unfold effectiveSeqs; destruct (Z.leb_spec (vo_MaxNumSeqs o) 0); lia).
  pose proof (virtualForward_model (params sim) iter f ltac:(by rewrite Hrt)) as HF. pose proof (po_gpus _ (so_ok _ _ HI)) as Hg.
  destruct (virtualRun_ok (Z.to_nat (effectiveBudget o f)) (Z.to_nat (effectiveSeqs o)) (Z.to_nat (effectiveCopies o)) (st_prompts store) p sim'
    (sequenceTotals (st_model store) (MoERouter c) (virtualSequences (Z.to_nat (effectiveCopies o)) (st_prompts store)))) as (st & fs & ns & -> & HR);
    [lia|lia|rewrite Z2Nat.id by lia; done|done|done|done|by eapply configure_sim|].
  eexists. split; [done|]. destruct HR as [_ _ (Hn1 & Hn2 & Hn3) Hd [Hs1 Hs2] _ Ht]. fold ps in Hd, Hn3.
  assert (∀ r, vr_totals (finishResult r) = vr_totals r ∧ vr_DecodeForwards (finishResult r) = vr_DecodeForwards r ∧ vr_Steps (finishResult r) = vr_Steps r ∧
    vr_PrefillSteps (finishResult r) = vr_PrefillSteps r ∧ vr_DecodeOnlySteps (finishResult r) = vr_DecodeOnlySteps r ∧ vr_MixedSteps (finishResult r) = vr_MixedSteps r) as Hfin.
  { intros r. unfold finishResult. by destruct (_ <? _)%Z. }
  destruct (Hfin (vl_result st)) as (-> & -> & -> & -> & -> & ->). split_and!; [|done|done|..].
  - rewrite Ht. unfold sequenceTotals. rewrite Hmodel. unfold ps. rewrite <- virtualSequences_prompts. rewrite length_fmap, <- !list_fmap_compose. done.
  - rewrite Hs1, <- Hn3, <- Hn1. apply inj_le. rewrite <- (Nat.mul_1_r (length ns)). apply sum_list_at_least. rewrite Forall_forall in Hn2. intros n Hin. by apply Hn2.
  - rewrite Hs1, <- Hn3, <- Hn1. rewrite <- (Z2Nat.id (effectiveBudget o f)) by lia. rewrite <- Nat2Z.inj_mul. apply inj_le, sum_list_at_most.
    rewrite Forall_forall in Hn2. intros n Hin. by apply Hn2.
Qed.

Lemma benchmark_completes_witness :
  ∃ r, RunMoETraceVirtualBenchmark MoeProps.Pow_ex (λ _, Some busyDoc) exIter exEnv None "m" exConfig busyBytes (mkOptions 8 1 2) = Finished r ∧
    vr_totals r = mkTotals "m" "heuristic" 2 4 6 ∧ vr_DecodeForwards r = 4%Z.
Proof.
  destruct ex_sim as (sim & Es & HI & Hr & HG & HE & HL & HK).
  destruct (last (st_prompts (storeOf busyDoc busyBytes))) as [p|] eqn:Ep; [|vm_compute in Ep; discriminate Ep].
  assert (∃ f, configureTraceFidelity "m" exConfig exEnv None false sim = Ok (f, sim) ∧ prefillBatchTokens f = defaultTracePrefillBatchTokens) as (f & Ef & Hf).
  { eexists. split; [vm_compute; reflexivity|]. reflexivity. }
  destruct (benchmark_completes MoeProps.Pow_ex (λ _, Some busyDoc) exIter exEnv None "m" exConfig busyBytes (mkOptions 8 1 2) (storeOf busyDoc busyBytes) sim f sim p)
    as (r & E & Ht & Hd & _).
  - apply (bool_decide_unpack (Forall byte_ok busyBytes)). vm_compute. exact I.
  - vm_compute. reflexivity.
  - vm_compute. reflexivity.
  - vm_compute. reflexivity.
  - discriminate.
  - vm_compute. reflexivity.
  - exact Es.
  - exact Ef.
  - vm_compute. discriminate.
  - unfold perToken. rewrite HL, HK. vm_compute. reflexivity.
  - intros q Hq. apply (ex_prompts (params sim) busyDoc busyBytes); [done..| |done]. vm_compute. reflexivity.
  - exact Ep.
  - assert (promptTokens <$> last (st_prompts (storeOf busyDoc busyBytes)) = Some 4) as H by (vm_compute; reflexivity). rewrite Ep in H. injection H as ->. lia.
  - exists r. split; [exact E|]. rewrite Ht, Hd. split; vm_compute; reflexivity.
Defined.

(** A placement file is either refused, or installed as a placement in which every
    layer has every expert on at least one rank, at most one copy per rank, and every
    rank exactly its share of the physical slots. *)
Theorem fixed_placement_valid m data s :
  SimOk m s → 1 ≤ physicalSlots m →
  match installFixedPlacement data s with
  | Ok s' => SimOk m s' ∧ ∀ layer pl, placements s' !! layer = Some pl → ValidPlacement (numExperts m) (numGPUs m) (physicalSlots m / numGPUs m) pl
  | Err _ => True
  end.
Proof.
  intros HI Hs. destruct (installFixedPlacement data s) as [s'|] eqn:E; [|done]. pose proof (installFixedPlacement_ok m data s s' HI Hs E) as HI'. split; [done|].
  intros layer pl Hl. apply (so_placements _ _ HI'). by eapply list_elem_of_lookup_2.
Qed.

Lemma fixed_placement_valid_witness :
  ∃ s s', exSim = Some s ∧ installFixedPlacement (mkPlacementFile [[3; 2; 1; 0]%Z] 1 4) s = Ok s' ∧ placements s' = [[[1]; [1]; [0]; [0]]] ∧ SimOk (params s) s'.
Proof.
  destruct ex_sim as (s & Es & HI & Hr & HG & HE & HL & HK). exists s.
  assert ((λ s, (physicalSlots (params s), match installFixedPlacement (mkPlacementFile [[3; 2; 1; 0]%Z] 1 4) s with Ok s' => Some (placements s') | Err _ => None end)) <$>
    newMoESimulator MoeProps.Pow_ex exConfig = Some (4, Some [[[1]; [1]; [0]; [0]]])) as E by (vm_compute; reflexivity).
  rewrite Es in E. cbn [fmap option_fmap option_map] in E. injection E as Eslots Epl.
  pose proof (fixed_placement_valid (params s) (mkPlacementFile [[3; 2; 1; 0]%Z] 1 4) s HI ltac:(rewrite Eslots; lia)) as H.
  destruct (installFixedPlacement _ s) as [s'|]; [|done]. injection Epl as Epl. exists s'. split; [exact Es|]. split; [reflexivity|]. split; [exact Epl|apply H].
Defined.

End TraceBenchmark.
