(* ===== verification/TraceRegistry.v ===== *)
(** The shared decode steps of the trace replay
    ([traceActiveRegistry] of [pkg/simulator/moe_trace_runtime.go]): requests that
    are decoding join one modelled forward, and none enters its next forward before
    all participants have finished the current one.  Each locked section of the Go
    code is one atomic operation on the registry; a request's worker is a thread whose
    program counter says between which sections it is, and channels are flags that
    waiting threads poll.  [None] is a panic: an index out of range, or the close of a
    closed channel.  The generation counter is modelled without its 64-bit wrap. *)

From S2P Require Import Prelude GoFloat TraceFormat TraceFile Moe Requests TraceText TraceWorkload.
Import TraceFormat TraceFile Moe TraceText TraceWorkload.
Open Scope nat_scope.

Module TraceRegistry.

(** * State *)

Record activeTraceRequest := mkActive { ar_execution : traceExecution; ar_decodePosition : nat }.

(** A step; [ready] and [done] say whether the channel is closed. *)
Record traceDecodeStep := mkStep {
  ds_generation : nat; ds_participants : gset string; ds_remaining : gset string; ds_ready : bool; ds_done : bool;
  ds_startedAt : Z; ds_modeledLatency : Z; ds_finishAt : Z }.

Record traceDecodeTiming := mkTiming { tm_generation : nat; tm_modeledLatency : Z; tm_finishAt : Z }.

(** Steps outlive [current], since threads keep pointers to them: a pointer is an index
    of [rg_steps]. *)
Record traceActiveRegistry := mkRegistry {
  rg_requests : gmap string activeTraceRequest; rg_current : option nat; rg_nextGeneration : nat; rg_steps : list traceDecodeStep }.

Definition emptyRegistry : traceActiveRegistry := mkRegistry ∅ None 0 [].

Definition set_requests (q : gmap string activeTraceRequest) (r : traceActiveRegistry) : traceActiveRegistry :=
  mkRegistry q (rg_current r) (rg_nextGeneration r) (rg_steps r).
Definition set_current (c : option nat) (r : traceActiveRegistry) : traceActiveRegistry :=
  mkRegistry (rg_requests r) c (rg_nextGeneration r) (rg_steps r).
Definition set_steps (l : list traceDecodeStep) (r : traceActiveRegistry) : traceActiveRegistry :=
  mkRegistry (rg_requests r) (rg_current r) (rg_nextGeneration r) l.

Definition set_remaining (q : gset string) (s : traceDecodeStep) : traceDecodeStep :=
  mkStep (ds_generation s) (ds_participants s) q (ds_ready s) (ds_done s) (ds_startedAt s) (ds_modeledLatency s) (ds_finishAt s).
Definition set_done (s : traceDecodeStep) : traceDecodeStep :=
  mkStep (ds_generation s) (ds_participants s) (ds_remaining s) (ds_ready s) true (ds_startedAt s) (ds_modeledLatency s) (ds_finishAt s).

(** * Operations under the lock *)

Definition activate (requestID : string) (ex : traceExecution) (r : traceActiveRegistry) : traceActiveRegistry :=
  if ex_outputTokens ex <=? 1 then r
  else set_requests (<[requestID := mkActive ex 0]> (rg_requests r)) r.

(** The step leaves [current] and its waiters are released; closing twice panics. *)
Definition closeStep (ptr : nat) (s : traceDecodeStep) (r : traceActiveRegistry) : option traceActiveRegistry :=
  if ds_done s then None else Some (set_current None (set_steps (<[ptr := set_done s]> (rg_steps r)) r)).

(** A participant is through with its step; the last one closes it. *)
Definition dropParticipant (requestID : string) (ptr : nat) (s : traceDecodeStep) (r : traceActiveRegistry) : option traceActiveRegistry :=
  let s := set_remaining (ds_remaining s ∖ {[requestID]}) s in
  let r := set_steps (<[ptr := s]> (rg_steps r)) r in
  if decide (ds_remaining s = ∅) then closeStep ptr s r else Some r.

Definition deactivate (requestID : string) (r : traceActiveRegistry) : option traceActiveRegistry :=
  let r := set_requests (delete requestID (rg_requests r)) r in
  match rg_current r with
  | None => Some r
  | Some ptr =>
      s ← rg_steps r !! ptr;
      if decide (requestID ∈ ds_remaining s) then dropParticipant requestID ptr s r else Some r
  end.

(** The next position of a request, which leaves after its last forward. *)
Definition advanceRequest (requestID : string) (q : gmap string activeTraceRequest) : gmap string activeTraceRequest :=
  match q !! requestID with
  | None => q
  | Some a =>
      let position := S (ar_decodePosition a) in
      if ex_outputTokens (ar_execution a) - 1 <=? position then delete requestID q
      else <[requestID := mkActive (ar_execution a) position]> q
  end.

Definition advance (requestID : string) (r : traceActiveRegistry) : traceActiveRegistry := set_requests (advanceRequest requestID (rg_requests r)) r.

Definition completeDecodeStep (requestID : string) (generation : nat) (r : traceActiveRegistry) : option traceActiveRegistry :=
  match rg_current r with
  | None => Some r
  | Some ptr =>
      s ← rg_steps r !! ptr;
      if negb (ds_generation s =? generation) then Some r
      else if decide (requestID ∈ ds_remaining s) then
        dropParticipant requestID ptr s (advance requestID r)
      else Some r
  end.

(** ** The workload of a step *)

(** A request with a decode forward left. *)
Definition decoding (a : activeTraceRequest) : bool := ar_decodePosition a <? ex_outputTokens (ar_execution a) - 1.

(** The requests that take part in a step that starts now. *)
Definition participantsOf (q : gmap string activeTraceRequest) : gset string := dom (filter (λ x, decoding x.2 = true) q).

Record stepWorkload := mkStepWorkload { sw_counts : moeLayerCounts; sw_assignments : option assignmentTable; sw_active : nat }.

(** One request of the loop; the routes of a token are counted and, when assignments are
    recorded, listed with their source GPU. *)
Definition addActive (m : moeParams) (w : stepWorkload) (x : string * activeTraceRequest) : option stepWorkload :=
  let '(_, a) := x in
  if negb (decoding a) then Some w
  else
    let p := tp_data (ex_prompt (ar_execution a)) in
    let position := ar_decodePosition a in
    _ ← (if numLayers m =? 0 then Some 0%Z else defaultSource (length (pd_InputTokenIDs p) + position) (numGPUs m));
    counts ← addTraceDecodePosition m p position (sw_counts w);
    t ← match sw_assignments w with
        | None => Some None
        | Some t => Some <$> addVirtualDecodeProfileAssignments m p position (ex_promptID (ar_execution a)) t
        end;
    Some (mkStepWorkload counts t (S (sw_active w))).

(** The requests without a recorded trace, by the synthetic distribution. *)
Definition addSynthetic (m : moeParams) (syntheticTokens : Z) (counts : moeLayerCounts) : option moeLayerCounts :=
  if (syntheticTokens <=? 0)%Z then Some counts
  else
    let assignments := f_of_Z (i64 (syntheticTokens * topK m)) in
    foldM (λ counts layer,
      foldM (λ counts x,
        row ← counts !! layer; c ← row !! x.1;
        Some (<[layer := <[x.1 := fadd c (fmul assignments x.2)]> row]> counts)) counts (enumerate (probabilities m)))
      counts (seq 0 (numLayers m)).

Section Operations.
Variable m : moeParams.
(** The order in which Go ranges over the requests. *)
Variable iter : gmap string activeTraceRequest → list (string * activeTraceRequest).
(** Assignments are recorded for distributed routing and for the profiler. *)
Variable profiling : bool.

(** [Some None] is a result that is not ok. *)
Definition decodeCountsLocked (runningReqs : Z) (r : traceActiveRegistry)
  : option (option (moeLayerCounts * gset string * option assignmentTable)) :=
  if size (rg_requests r) =? 0 then Some None
  else
    w ← foldM (addActive m)
          (mkStepWorkload (newMoELayerCounts (numLayers m) (numExperts m))
             (if useDistributedRouting m || profiling then Some (replicate (numLayers m) []) else None) 0) (iter (rg_requests r));
    if sw_active w =? 0 then Some None
    else
      counts ← addSynthetic m (i64 (runningReqs - Z.of_nat (sw_active w))) (sw_counts w);
      Some (Some (counts, participantsOf (rg_requests r), sw_assignments w)).

(** The prompts of the participants, each once, in increasing order. *)
Definition profileRequestIDsLocked (participants : gset string) (r : traceActiveRegistry) : list Z :=
  merge_sort Z.le (remove_dups (omap (λ id, ex_promptID ∘ ar_execution <$> rg_requests r !! id) (elements participants))).

(** What the locked section of [acquireDecodeStep] decides: no trace step for this
    request, join the step at [ptr], wait for the step at [ptr] to end, or lead a new
    step with these counts. *)
Inductive acquired :=
| NoStep
| Join (ptr : nat)
| Busy (ptr : nat)
| Lead (ptr : nat) (counts : moeLayerCounts) (assignments : option assignmentTable).

Definition acquireLocked (requestID : string) (runningReqs now : Z) (r : traceActiveRegistry) : option (traceActiveRegistry * acquired) :=
  match rg_requests r !! requestID with
  | None => Some (r, NoStep)
  | Some _ =>
      match rg_current r with
      | Some ptr =>
          s ← rg_steps r !! ptr;
          if decide (requestID ∈ ds_participants s ∧ requestID ∈ ds_remaining s) then Some (r, Join ptr) else Some (r, Busy ptr)
      | None =>
          d ← decodeCountsLocked runningReqs r;
          match d with
          | None => Some (r, NoStep)
          | Some (counts, participants, assignments) =>
              let s := mkStep (rg_nextGeneration r) participants participants false false now 0 0 in
              let ptr := length (rg_steps r) in
              Some (mkRegistry (rg_requests r) (Some ptr) (S (rg_nextGeneration r)) (rg_steps r ++ [s]), Lead ptr counts assignments)
          end
      end
  end.

(** The leader publishes the latency. *)
Definition publishStep (ptr : nat) (modeledLatency : Z) (r : traceActiveRegistry) : option traceActiveRegistry :=
  s ← rg_steps r !! ptr;
  if ds_ready s then None
  else Some (set_steps (<[ptr := mkStep (ds_generation s) (ds_participants s) (ds_remaining s) true (ds_done s) (ds_startedAt s) modeledLatency
                                    (ds_startedAt s + modeledLatency)]> (rg_steps r)) r).

Definition timingOf (s : traceDecodeStep) : traceDecodeTiming := mkTiming (ds_generation s) (ds_modeledLatency s) (ds_finishAt s).

(** * Threads *)

(** Where the worker of a request is; [calls] inter-token waits are left, the one under
    way included. *)
Inductive pc :=
| Prefilling
| Entering (calls : nat)
| Computing (calls ptr : nat) (counts : moeLayerCounts) (assignments : option assignmentTable)
| WaitReady (calls ptr : nat)
| WaitDone (calls ptr : nat)
| Holding (calls : nat) (timing : traceDecodeTiming)
| Leaving
| Exited.

Record thread := mkThread { th_id : string; th_exec : traceExecution; th_pc : pc }.

Definition set_pc (c : pc) (t : thread) : thread := mkThread (th_id t) (th_exec t) c.

(** The loop over the output tokens: one wait per token after the first. *)
Definition nextCall (calls : nat) : pc := match calls with 0 => Leaving | S _ => Entering calls end.

(** The next atomic step of a worker ([simulateTraceResponseProcessing] with
    [simulateTraceInterTokenLatency]); it is blocked on an open channel, and a wait without
    a trace step does not touch the registry. *)
Inductive move := Blocked | Panics | Moved (r : traceActiveRegistry) (t : thread).

Definition moved (r : option traceActiveRegistry) (t : thread) : move := match r with Some r => Moved r t | None => Panics end.

Definition threadStep (runningReqs now latency : Z) (r : traceActiveRegistry) (t : thread) : move :=
  match th_pc t with
  | Prefilling => Moved (activate (th_id t) (th_exec t) r) (set_pc (nextCall (ex_outputTokens (th_exec t) - 1)) t)
  | Entering calls =>
      match acquireLocked (th_id t) runningReqs now r with
      | None => Panics
      | Some (r, NoStep) => Moved r (set_pc (nextCall (calls - 1)) t)
      | Some (r, Join ptr) => Moved r (set_pc (WaitReady calls ptr) t)
      | Some (r, Busy ptr) => Moved r (set_pc (WaitDone calls ptr) t)
      | Some (r, Lead ptr counts assignments) => Moved r (set_pc (Computing calls ptr counts assignments) t)
      end
  | Computing calls ptr _ _ =>
      match publishStep ptr latency r with
      | None => Panics
      | Some r => match rg_steps r !! ptr with None => Panics | Some s => Moved r (set_pc (Holding calls (timingOf s)) t) end
      end
  | WaitReady calls ptr =>
      match rg_steps r !! ptr with
      | None => Panics
      | Some s => if ds_ready s then Moved r (set_pc (Holding calls (timingOf s)) t) else Blocked
      end
  | WaitDone calls ptr =>
      match rg_steps r !! ptr with
      | None => Panics
      | Some s => if ds_done s then Moved r (set_pc (Entering calls) t) else Blocked
      end
  | Holding calls timing => moved (completeDecodeStep (th_id t) (tm_generation timing) r) (set_pc (nextCall (calls - 1)) t)
  | Leaving => moved (deactivate (th_id t) r) (set_pc Exited t)
  | Exited => Blocked
  end.

(** The registry and the workers of all requests. *)
Record system := mkSystem { sy_registry : traceActiveRegistry; sy_threads : list thread }.

(** Any worker may take its next step at any time. *)
Inductive step : system → system → Prop :=
| step_thread r ts i t runningReqs now latency r' t' :
    ts !! i = Some t → threadStep runningReqs now latency r t = Moved r' t' →
    step (mkSystem r ts) (mkSystem r' (<[i := t']> ts)).

Definition start (requests : list (string * traceExecution)) : system :=
  mkSystem emptyRegistry ((λ x, mkThread x.1 x.2 Prefilling) <$> requests).

Definition finished (s : system) : Prop := ∀ t, t ∈ sy_threads s → th_pc t = Exited.

End Operations.

End TraceRegistry.
