(* ===== verification/TraceRegistryInv.v ===== *)
(** The invariant of the shared decode steps, over every interleaving of the workers. *)

From S2P Require Import Prelude Sums GoFloat GoFloatInt TraceFormat TraceFile Moe Requests TraceText TraceWorkload TraceWorkloadProps TraceVirtualInv TraceRegistry.
Import TraceFormat TraceFile Moe TraceText TraceWorkload TraceWorkloadProps TraceVirtualInv TraceRegistry.
Open Scope nat_scope.

Module TraceRegistryInv.

(** * The workload of a step *)

(** The execution of a request fits the simulator. *)
Record ExecOk (m : moeParams) (ex : traceExecution) : Prop := mkExecOk {
  xo_shape : PromptShape m (tp_data (ex_prompt ex));
  xo_routes : RoutesValid m (tp_data (ex_prompt ex));
  xo_output : ex_outputTokens ex ≤ length (pd_DecodeTokenIDs (tp_data (ex_prompt ex))) }.

(** The uses of the next decode forward of a request. *)
Definition activeUses (m : moeParams) (l e : nat) (x : string * activeTraceRequest) : Z :=
  if decoding x.2 then uses (decodeEvents m (tp_data (ex_prompt (ar_execution x.2))) (ar_decodePosition x.2)) l e else 0%Z.

Lemma activeUses_bound m l e x : ExecOk m (ar_execution x.2) → (0 ≤ activeUses m l e x ≤ perToken m)%Z.
Proof.
  intros [Hs Hr Ho]. unfold activeUses, perToken. destruct (decoding x.2) eqn:E; [|lia]. unfold decoding in E. apply Nat.ltb_lt in E.
  pose proof (uses_bound (decodeEvents m (tp_data (ex_prompt (ar_execution x.2))) (ar_decodePosition x.2)) l e) as H. rewrite decodeEvents_length in H by (done || lia). lia.
Qed.

Lemma addActive_ok m w x f :
  0 < numGPUs m → TableOk m (sw_assignments w) → sw_counts w = tableOf (numLayers m) (numExperts m) f → ExecOk m (ar_execution x.2) →
  (∀ l e, 0 ≤ f l e ∧ f l e + perToken m < 2 ^ 53)%Z →
  ∃ w', addActive m w x = Some w' ∧ TableOk m (sw_assignments w') ∧
    sw_counts w' = tableOf (numLayers m) (numExperts m) (λ l e, f l e + activeUses m l e x)%Z ∧
    sw_active w' = sw_active w + (if decoding x.2 then 1 else 0).
Proof.
  intros Hg Ht Hc [Hs Hv Ho] Hb. destruct x as [id a]. cbn [snd] in *. unfold addActive, activeUses. cbn [snd]. destruct (decoding a) eqn:Ed; cbn [negb].
  - unfold decoding in Ed. apply Nat.ltb_lt in Ed. set (p := tp_data (ex_prompt (ar_execution a))) in *.
    assert (∃ g, (if numLayers m =? 0 then Some 0%Z else defaultSource (length (pd_InputTokenIDs p) + ar_decodePosition a) (numGPUs m)) = Some g) as [g ->].
    { destruct (numLayers m =? 0); [eauto|]. unfold defaultSource. destruct (Nat.eqb_spec (numGPUs m) 0); [lia|eauto]. }
    cbn [mbind option_bind]. rewrite Hc, addTraceDecodePosition_events by (done || lia). rewrite count_events; [|by apply decodeEvents_ok|].
    2: { intros l e. rewrite decodeEvents_length by (done || lia). apply Hb. }
    cbn [mbind option_bind]. destruct (sw_assignments w) as [t|].
    + destruct (decodeAssignments_ok m p (ar_decodePosition a) (ex_promptID (ar_execution a)) t) as (t' & -> & Hl); [done|done|lia|done|]. cbn. eexists. split_and!; [done..|]. cbn. lia.
    + cbn. eexists. split_and!; [done..|]. cbn. lia.
  - eexists. split_and!; [done|done| |lia]. rewrite Hc. apply tableOf_ext. intros. lia.
Qed.

Lemma addActive_fold m xs w f :
  0 < numGPUs m → TableOk m (sw_assignments w) → sw_counts w = tableOf (numLayers m) (numExperts m) f → (∀ x, x ∈ xs → ExecOk m (ar_execution x.2)) →
  (∀ l e, 0 ≤ f l e ∧ f l e + Z.of_nat (length xs) * perToken m < 2 ^ 53)%Z →
  ∃ w', foldM (addActive m) w xs = Some w' ∧ TableOk m (sw_assignments w') ∧
    sw_counts w' = tableOf (numLayers m) (numExperts m) (λ l e, f l e + total (activeUses m l e) xs)%Z ∧
    sw_active w' = sw_active w + length (filter (λ x, decoding x.2 = true) xs).
Proof.
  intros Hg. revert w f. induction xs as [|x xs IH]; intros w f Ht Hc Hx Hb.
  - exists w. split_and!; [done|done| |cbn; lia]. rewrite Hc. apply tableOf_ext. intros. symmetry. apply Z.add_0_r.
  - assert (0 ≤ perToken m)%Z as Hpt by (unfold perToken; lia). pose proof (Hx x ltac:(left)) as Hxo.
    destruct (addActive_ok m w x f Hg Ht Hc Hxo) as (w1 & E1 & Ht1 & Hc1 & Hn1); [intros l e; destruct (Hb l e); cbn [length] in *; split; [done|nia]|].
    cbn [foldM]. rewrite E1. destruct (IH w1 _ Ht1 Hc1) as (w2 & E2 & Ht2 & Hc2 & Hn2).
    + intros y Hy. apply Hx. by right.
    + intros l e. destruct (Hb l e). pose proof (activeUses_bound m l e x Hxo). cbn [length] in *. nia.
    + exists w2. split_and!; [done|done| |].
      * rewrite Hc2. apply tableOf_ext. intros l e _ _. rewrite total_cons. lia.
      * rewrite Hn2, Hn1, filter_cons. destruct (decoding x.2) eqn:Ed; [rewrite decide_True by done; cbn [length]; lia|rewrite decide_False by done; lia].
Qed.

Lemma addSynthetic_total m tokens counts :
  length counts = numLayers m → (∀ row, row ∈ counts → length row = numExperts m) → length (probabilities m) = numExperts m → ∃ counts', addSynthetic m tokens counts = Some counts'.
Proof.
  intros Hl Hr Hp. unfold addSynthetic. destruct (_ <=? _)%Z; [eauto|]. set (P (c : moeLayerCounts) := length c = numLayers m ∧ ∀ row, row ∈ c → length row = numExperts m).
  match goal with |- context [foldM ?f ?b ?l] => destruct (foldM_inv f (λ _, P) l b) as (c & -> & _); [done| |eauto] end.
  intros done layer rest c E HP. assert (layer ∈ seq 0 (numLayers m)) as [_ Hlt]%elem_of_seq by (rewrite E; apply elem_of_middle).
  apply (foldM_inv _ (λ _, P)); [done|]. intros done' [e pr] rest' c' E' [H1 H2].
  assert ((e, pr) ∈ enumerate (probabilities m)) as He%elem_of_enumerate by (rewrite E'; apply elem_of_middle). apply lookup_lt_Some in He.
  destruct (lookup_lt_is_Some_2 c' layer) as [row Hrow]; [lia|]. rewrite Hrow. cbn [mbind option_bind fst snd]. pose proof (H2 row (list_elem_of_lookup_2 _ _ _ Hrow)) as Hlen.
  destruct (lookup_lt_is_Some_2 row e) as [x ->]; [lia|]. cbn [mbind option_bind]. eexists. split; [done|]. split; [by rewrite length_insert|].
  intros row' Hin. apply list_elem_of_lookup in Hin as [i Hi]. destruct (decide (i = layer)) as [->|Hne].
  - rewrite list_lookup_insert_eq in Hi by lia. injection Hi as <-. by rewrite length_insert.
  - rewrite list_lookup_insert_ne in Hi by done. apply H2. by eapply list_elem_of_lookup_2.
Qed.

Lemma tableOf_rows L E f : length (tableOf L E f) = L ∧ ∀ row, row ∈ tableOf L E f → length row = E.
Proof. unfold tableOf. split; [by rewrite length_fmap, length_seq|]. intros row (l & -> & _)%list_elem_of_fmap. by rewrite length_fmap, length_seq. Qed.

(** The order of the range is one of the map. *)
Definition IterOk (iter : gmap string activeTraceRequest → list (string * activeTraceRequest)) : Prop := ∀ q, iter q ≡ₚ map_to_list q.

Lemma participants_elem q id : id ∈ participantsOf q ↔ ∃ a, q !! id = Some a ∧ decoding a = true.
Proof.
  unfold participantsOf. rewrite elem_of_dom. split.
  - intros [a [H1 H2]%map_lookup_filter_Some]. by exists a.
  - intros (a & H1 & H2). exists a. by apply map_lookup_filter_Some.
Qed.

(** The locked computation of a step returns: not ok exactly without a decoding request,
    otherwise with the decoding requests as participants. *)
Lemma decodeCountsLocked_ok m iter profiling runningReqs r :
  IterOk iter → 0 < numGPUs m → length (probabilities m) = numExperts m → (∀ id a, rg_requests r !! id = Some a → ExecOk m (ar_execution a)) →
  (Z.of_nat (size (rg_requests r)) * perToken m < 2 ^ 53)%Z →
  (decodeCountsLocked m iter profiling runningReqs r = Some None ∧ participantsOf (rg_requests r) = ∅) ∨
  ∃ counts t, decodeCountsLocked m iter profiling runningReqs r = Some (Some (counts, participantsOf (rg_requests r), t)) ∧ participantsOf (rg_requests r) ≠ ∅ ∧
    ((runningReqs ≤ Z.of_nat (size (participantsOf (rg_requests r))))%Z → (- 2 ^ 62 ≤ runningReqs)%Z → (Z.of_nat (size (rg_requests r)) < 2 ^ 62)%Z →
      counts = tableOf (numLayers m) (numExperts m) (λ l e, total (activeUses m l e) (map_to_list (rg_requests r)))).
Proof.
  intros Hit Hg Hpr Hex Hsmall. set (q := rg_requests r) in *. unfold decodeCountsLocked. fold q. destruct (Nat.eqb_spec (size q) 0) as [H0|H0].
  { left. split; [done|]. apply map_size_empty_inv in H0. rewrite H0. done. }
  pose proof (Hit q) as Hperm. assert (length (iter q) = size q) as Hlen by (rewrite Hperm; apply length_map_to_list).
  destruct (addActive_fold m (iter q) (mkStepWorkload (newMoELayerCounts (numLayers m) (numExperts m))
    (if useDistributedRouting m || profiling then Some (replicate (numLayers m) []) else None) 0) (λ _ _, 0%Z)) as (w & -> & _ & Hc & Hn).
  - done.
  - cbn. destruct (_ || _); [apply length_replicate|done].
  - apply newMoELayerCounts_tableOf.
  - intros [id a] Hin. rewrite Hperm in Hin. apply elem_of_map_to_list in Hin. by eapply Hex.
  - intros l e. rewrite Hlen. lia.
  - cbn [mbind option_bind]. cbn [sw_active] in Hn. rewrite Nat.add_0_l in Hn.
    assert (sw_active w = size (participantsOf q)) as Hact.
    { rewrite Hn, Hperm. unfold participantsOf. rewrite size_dom, <- length_map_to_list. rewrite map_filter_alt. rewrite map_to_list_to_map; [done|].
      apply NoDup_fmap_filter, NoDup_fst_map_to_list. }
    rewrite Hact. destruct (Nat.eqb_spec (size (participantsOf q)) 0) as [Hz|Hz].
    + left. split; [done|]. by apply size_empty_iff, leibniz_equiv in Hz.
    + right. assert (participantsOf q ≠ ∅) as Hne by (intros E; by rewrite E, size_empty in Hz).
      destruct (tableOf_rows (numLayers m) (numExperts m) (λ l e, 0 + total (activeUses m l e) (iter q))%Z) as [Hr1 Hr2]. rewrite <- Hc in Hr1, Hr2.
      destruct (addSynthetic_total m (i64 (runningReqs - Z.of_nat (size (participantsOf q)))) (sw_counts w) Hr1 Hr2 Hpr) as [counts Hcounts]. rewrite Hcounts. cbn [mbind option_bind].
      eexists _, _. split; [done|]. split; [done|]. intros Hrun Hlo Hsz. unfold addSynthetic in Hcounts.
      assert (size (participantsOf q) ≤ size q) as Hle by (rewrite <- Hact, Hn, Hperm, <- length_map_to_list; apply length_filter).
      rewrite i64_small in Hcounts by lia. destruct (Z.leb_spec (runningReqs - Z.of_nat (size (participantsOf q))) 0); [|lia]. injection Hcounts as <-.
      rewrite Hc. apply tableOf_ext. intros l e _ _. rewrite Z.add_0_l. by rewrite Hperm.
Qed.

(** * The registry *)

Record RegOk (r : traceActiveRegistry) : Prop := mkRegOk {
  rk_generation : ∀ p s, rg_steps r !! p = Some s → ds_generation s = p;
  rk_next : rg_nextGeneration r = length (rg_steps r);
  rk_current : ∀ p, rg_current r = Some p → ∃ s, rg_steps r !! p = Some s ∧ ds_done s = false ∧ ds_remaining s ≠ ∅ ∧ ds_remaining s ⊆ ds_participants s;
  rk_old : ∀ p s, rg_steps r !! p = Some s → rg_current r ≠ Some p → ds_done s = true }.

(** How a step may change: it loses participants, becomes ready once, and keeps its
    latency from then on. *)
Record Evolves (s s' : traceDecodeStep) : Prop := mkEvolves {
  ev_generation : ds_generation s' = ds_generation s;
  ev_participants : ds_participants s' = ds_participants s;
  ev_remaining : ds_remaining s' ⊆ ds_remaining s;
  ev_ready : ds_ready s = true → timingOf s' = timingOf s ∧ ds_ready s' = true;
  ev_done : ds_done s = true → ds_done s' = true }.

Lemma Evolves_refl s : Evolves s s.
Proof. by constructor. Qed.

(** What a section does to the registry. *)
Record Trans (r r' : traceActiveRegistry) : Prop := mkTrans {
  tr_steps : ∀ p s, rg_steps r !! p = Some s → ∃ s', rg_steps r' !! p = Some s' ∧ Evolves s s';
  tr_current : ∀ p, rg_current r' = Some p → rg_current r = Some p ∨ p = length (rg_steps r) }.

Lemma Trans_same r r' : rg_steps r' = rg_steps r → rg_current r' = rg_current r → Trans r r'.
Proof. intros H1 H2. constructor; rewrite ?H1, ?H2; [|by left]. intros p s Hs. exists s. split; [done|apply Evolves_refl]. Qed.

Lemma RegOk_same r r' :
  rg_steps r' = rg_steps r → rg_current r' = rg_current r → rg_nextGeneration r' = rg_nextGeneration r → RegOk r → RegOk r'.
Proof. intros H1 H2 H3 []. constructor; rewrite ?H1, ?H2, ?H3; done. Qed.

(** The effect of a participant leaving its step. *)
Record Dropped (id : string) (ptr : nat) (r r' : traceActiveRegistry) : Prop := mkDropped {
  dr_ok : RegOk r';
  dr_trans : Trans r r';
  dr_requests : rg_requests r' = rg_requests r;
  dr_length : length (rg_steps r') = length (rg_steps r);
  dr_current : rg_current r' = Some ptr ∨ rg_current r' = None;
  dr_ready : ∀ p s s', rg_steps r !! p = Some s → rg_steps r' !! p = Some s' → ds_ready s' = ds_ready s;
  dr_remaining : ∀ s s', rg_steps r !! ptr = Some s → rg_steps r' !! ptr = Some s' → ds_remaining s' = ds_remaining s ∖ {[id]} }.

Lemma dropParticipant_ok id ptr s r :
  RegOk r → rg_current r = Some ptr → rg_steps r !! ptr = Some s → id ∈ ds_remaining s →
  ∃ r', dropParticipant id ptr s r = Some r' ∧ Dropped id ptr r r'.
Proof.
  intros [Hg Hn Hc Ho] Hcur Hs Hid. destruct (Hc ptr Hcur) as (s0 & Hs0 & Hd & Hr & Hsub). rewrite Hs in Hs0. injection Hs0 as <-.
  pose proof (lookup_lt_Some _ _ _ Hs) as Hlt. unfold dropParticipant, closeStep. cbn [ds_remaining ds_done set_remaining]. rewrite Hd.
  set (s1 := set_remaining (ds_remaining s ∖ {[id]}) s).
  assert (∀ x, (∀ p s', <[ptr := x]> (rg_steps r) !! p = Some s' → (p = ptr ∧ s' = x) ∨ (p ≠ ptr ∧ rg_steps r !! p = Some s'))) as Hins.
  { intros x p s' H. destruct (decide (p = ptr)) as [->|Hne]; [rewrite list_lookup_insert_eq in H by done; left; naive_solver|right]. by rewrite list_lookup_insert_ne in H. }
  assert (∀ x, ds_generation x = ds_generation s → ds_participants x = ds_participants s → ds_ready x = ds_ready s → timingOf x = timingOf s →
    ds_remaining x ⊆ ds_remaining s → ∀ p y, rg_steps r !! p = Some y → ∃ y', <[ptr := x]> (rg_steps r) !! p = Some y' ∧ Evolves y y') as Hev.
  { intros x H1 H2 H3 H4 H5 p y Hy. destruct (decide (p = ptr)) as [->|Hne].
    - rewrite Hs in Hy. injection Hy as <-. exists x. rewrite list_lookup_insert_eq by done. split; [done|]. constructor; [done..| |congruence]. by rewrite H3, H4.
    - exists y. rewrite list_lookup_insert_ne by done. split; [done|apply Evolves_refl]. }
  case_decide as Hempty.
  - eexists. split; [done|]. cbn [set_steps set_current rg_steps rg_current rg_requests rg_nextGeneration]. rewrite list_insert_insert_eq. constructor; cbn [rg_steps rg_current rg_requests rg_nextGeneration].
    + constructor; cbn; [|by rewrite length_insert|done|].
      * intros p s' [[-> ->]|[_ H]]%Hins; [exact (Hg ptr s Hs)|by apply Hg].
      * intros p s' [[-> ->]|[Hne H]]%Hins _; [done|]. apply (Ho p s' H). congruence.
    + constructor; cbn; [|done]. apply Hev; try done. cbn. set_solver.
    + done.
    + cbn. by rewrite length_insert.
    + cbn. by right.
    + cbn. intros p y y' Hy [[-> ->]|[_ H]]%Hins; [rewrite Hs in Hy; by injection Hy as <-|congruence].
    + intros y y' Hy Hy'. cbn in Hy'. rewrite Hs in Hy. injection Hy as <-. rewrite list_lookup_insert_eq in Hy' by done. by injection Hy' as <-.
  - eexists. split; [done|]. cbn [set_steps rg_steps rg_current rg_requests rg_nextGeneration]. constructor; cbn [rg_steps rg_current rg_requests rg_nextGeneration].
    + constructor; cbn; [|by rewrite length_insert| |].
      * intros p s' [[-> ->]|[_ H]]%Hins; [exact (Hg ptr s Hs)|by apply Hg].
      * intros p Hp. rewrite Hcur in Hp. injection Hp as <-. exists s1. rewrite list_lookup_insert_eq by done. split_and!; [done..|]. cbn. set_solver.
      * intros p s' [[-> ->]|[Hne H]]%Hins Hp; [congruence|]. by apply (Ho p s' H).
    + constructor; cbn; [|by left]. apply Hev; try done. cbn. set_solver.
    + done.
    + cbn. by rewrite length_insert.
    + cbn. by left.
    + cbn. intros p y y' Hy [[-> ->]|[_ H]]%Hins; [rewrite Hs in Hy; by injection Hy as <-|congruence].
    + intros y y' Hy Hy'. cbn in Hy'. rewrite Hs in Hy. injection Hy as <-. rewrite list_lookup_insert_eq in Hy' by done. by injection Hy' as <-.
Qed.

(** * The threads *)

(** Between [activate] and [deactivate]. *)
Definition live (t : thread) : Prop := match th_pc t with Prefilling | Exited => False | _ => True end.

(** The leader of the step at [p]. *)
Definition leads (t : thread) (p : nat) : Prop := match th_pc t with Computing _ q _ _ => q = p | _ => False end.

Definition callsLeft (t : thread) : nat :=
  match th_pc t with
  | Prefilling => ex_outputTokens (th_exec t) - 1
  | Entering c | Computing c _ _ _ | WaitReady c _ | WaitDone c _ | Holding c _ => c
  | Leaving | Exited => 0
  end.

Definition ThreadOk (r : traceActiveRegistry) (t : thread) : Prop :=
  match th_pc t with
  | Prefilling | Leaving | Exited => True
  | Entering c => 0 < c
  | Computing c p _ _ => 0 < c ∧ ∃ s, rg_steps r !! p = Some s ∧ ds_ready s = false
  | WaitReady c p => 0 < c ∧ is_Some (rg_steps r !! p)
  | WaitDone c p => 0 < c ∧ ∃ s, rg_steps r !! p = Some s ∧ (rg_current r = Some p → th_id t ∉ ds_remaining s)
  | Holding c tm => 0 < c ∧ ∃ s, rg_steps r !! tm_generation tm = Some s ∧ ds_ready s = true ∧ tm = timingOf s
  end.

(** A thread is not disturbed by the others, as long as nobody publishes for it. *)
Lemma ThreadOk_frame r r' t :
  Trans r r' → (∀ p s', leads t p → rg_steps r' !! p = Some s' → ds_ready s' = false) → ThreadOk r t → ThreadOk r' t.
Proof.
  intros [Hs Hc] Hl. unfold ThreadOk, leads in *. destruct (th_pc t) as [|c|c p ? ?|c p|c p|c tm| |]; try done.
  - intros [H0 (s & Hp & _)]. split; [done|]. destruct (Hs p s Hp) as (s' & Hp' & _). exists s'. split; [done|]. by eapply Hl.
  - intros [H0 [s Hp]]. split; [done|]. destruct (Hs p s Hp) as (s' & Hp' & _). eauto.
  - intros [H0 (s & Hp & Hr)]. split; [done|]. destruct (Hs p s Hp) as (s' & Hp' & Hev). exists s'. split; [done|]. intros Hcur.
    destruct (Hc p Hcur) as [Hcur'| ->]; [|apply lookup_lt_Some in Hp; lia]. specialize (Hr Hcur'). pose proof (ev_remaining _ _ Hev). set_solver.
  - intros [H0 (s & Hp & Hr & ->)]. split; [done|]. destruct (Hs _ s Hp) as (s' & Hp' & Hev). exists s'. split; [done|]. destruct (ev_ready _ _ Hev Hr) as [Ht Hr']. by rewrite Ht.
Qed.

(** * The system *)

Section System.
Variable m : moeParams.
Variable iter : gmap string activeTraceRequest → list (string * activeTraceRequest).
Variable profiling : bool.
Hypothesis iter_ok : IterOk iter.
Hypothesis gpus_pos : 0 < numGPUs m.
Hypothesis probs_ok : length (probabilities m) = numExperts m.

Record Inv (sy : system) : Prop := mkInv {
  iv_reg : RegOk (sy_registry sy);
  iv_thread : ∀ t, t ∈ sy_threads sy → ThreadOk (sy_registry sy) t;
  iv_exec : ∀ t, t ∈ sy_threads sy → ExecOk m (th_exec t);
  iv_leader : ∀ p s, rg_steps (sy_registry sy) !! p = Some s → ds_ready s = false → ∃ t, t ∈ sy_threads sy ∧ leads t p;
  iv_unique : ∀ i j t t' p, sy_threads sy !! i = Some t → sy_threads sy !! j = Some t' → leads t p → leads t' p → i = j;
  iv_requests : ∀ id a, rg_requests (sy_registry sy) !! id = Some a →
    ∃ t, t ∈ sy_threads sy ∧ live t ∧ th_id t = id ∧ ExecOk m (ar_execution a);
  iv_remaining : ∀ p s id, rg_current (sy_registry sy) = Some p → rg_steps (sy_registry sy) !! p = Some s → id ∈ ds_remaining s →
    ∃ t, t ∈ sy_threads sy ∧ live t ∧ th_id t = id;
  iv_small : (Z.of_nat (length (sy_threads sy)) * perToken m < 2 ^ 53)%Z }.

(** There are no more active requests than threads. *)
Lemma requests_le sy : Inv sy → size (rg_requests (sy_registry sy)) ≤ length (sy_threads sy).
Proof.
  intros HI. rewrite <- size_dom. assert (dom (rg_requests (sy_registry sy)) ⊆ list_to_set (C := gset string) (th_id <$> sy_threads sy)) as Hsub.
  { intros id [a Ha]%elem_of_dom. destruct (iv_requests _ HI id a Ha) as (t & Ht & _ & <- & _). apply elem_of_list_to_set. by apply list_elem_of_fmap_2. }
  apply subseteq_size in Hsub. etrans; [exact Hsub|]. rewrite <- (length_fmap th_id). generalize (th_id <$> sy_threads sy). intros l.
  induction l as [|x l IH]; [done|]. cbn [list_to_set length]. rewrite size_union_alt. pose proof (subseteq_size (list_to_set l ∖ {[x]} : gset string) (list_to_set l) ltac:(set_solver)).
  rewrite size_singleton. lia.
Qed.

(** Replacing a thread by its next state. *)
Lemma elem_insert {A} (l : list A) i x y z : l !! i = Some x → z ∈ <[i := y]> l → z = y ∨ ∃ j, j ≠ i ∧ l !! j = Some z.
Proof.
  intros Hx [j Hj]%list_elem_of_lookup. destruct (decide (j = i)) as [->|Hne].
  - rewrite list_lookup_insert_eq in Hj by by eapply lookup_lt_Some. left. congruence.
  - rewrite list_lookup_insert_ne in Hj by done. right. by exists j.
Qed.

Lemma elem_insert_new {A} (l : list A) i x y : l !! i = Some x → y ∈ <[i := y]> l.
Proof. intros Hx. apply (list_elem_of_lookup_2 _ i). apply list_lookup_insert_eq. by eapply lookup_lt_Some. Qed.

(** A witness thread survives when the moving one keeps the property. *)
Lemma witness_insert {A} (P : A → Prop) (l : list A) i x y z : l !! i = Some x → z ∈ l → P z → (z = x → P y) → ∃ w, w ∈ <[i := y]> l ∧ P w.
Proof.
  intros Hx [j Hj]%list_elem_of_lookup Hz Hy. destruct (decide (j = i)) as [->|Hne].
  - exists y. split; [by eapply elem_insert_new|]. apply Hy. congruence.
  - exists z. split; [|done]. apply (list_elem_of_lookup_2 _ j). by rewrite list_lookup_insert_ne.
Qed.

(** What a thread's step guarantees, from which the invariant follows. *)
Record Goes (r : traceActiveRegistry) (t : thread) (r' : traceActiveRegistry) (t' : thread) : Prop := mkGoes {
  go_id : th_id t' = th_id t;
  go_exec : th_exec t' = th_exec t;
  go_reg : RegOk r';
  go_trans : Trans r r';
  go_thread : ThreadOk r' t';
  go_publish : ∀ p s s', rg_steps r !! p = Some s → rg_steps r' !! p = Some s' → ds_ready s = false → ds_ready s' = true → leads t p;
  go_unready : ∀ p s', rg_steps r' !! p = Some s' → ds_ready s' = false → leads t' p ∨ (¬ leads t p ∧ ∃ s, rg_steps r !! p = Some s ∧ ds_ready s = false);
  go_leads : ∀ p, leads t' p → leads t p ∨ p = length (rg_steps r);
  go_requests : ∀ id a, rg_requests r' !! id = Some a →
    (th_id t = id ∧ live t' ∧ ar_execution a = th_exec t) ∨
    (∃ a0, rg_requests r !! id = Some a0 ∧ ar_execution a = ar_execution a0) ∧ (live t → live t' ∨ th_id t ≠ id);
  go_remaining : ∀ p s' id, rg_current r' = Some p → rg_steps r' !! p = Some s' → id ∈ ds_remaining s' →
    (rg_current r = Some p ∧ (∃ s, rg_steps r !! p = Some s ∧ id ∈ ds_remaining s) ∧ (live t → live t' ∨ th_id t ≠ id)) ∨
    (rg_requests r' = rg_requests r ∧ live t' ∧ is_Some (rg_requests r !! id)) }.

Lemma Goes_inv r ts i t r' t' : Inv (mkSystem r ts) → ts !! i = Some t → Goes r t r' t' → Inv (mkSystem r' (<[i := t']> ts)).
Proof.
  intros [Hreg Hth Hex Hld Hun Hrq Hrm Hsm] Hi [Gid Gex Greg Gtr Gth Gpub Gun Gl Grq Grm]. cbn [sy_registry sy_threads] in *. constructor; cbn [sy_registry sy_threads].
  - done.
  - intros u Hu. destruct (elem_insert ts i t t' u Hi Hu) as [->|(j & Hne & Hj)]; [done|]. apply (ThreadOk_frame r); [done| |apply Hth; by eapply list_elem_of_lookup_2].
    intros p s' Hlu Hs'. destruct (ds_ready s') eqn:Er; [|done]. exfalso. pose proof (Hth u (list_elem_of_lookup_2 _ _ _ Hj)) as Hok. unfold ThreadOk in Hok. unfold leads in Hlu.
    destruct (th_pc u) as [| |c q ? ?| | | | |] eqn:Eu; try done. subst q. destruct Hok as [_ (s & Hs & Hr)]. assert (leads t p) as Ht by (by eapply Gpub).
    apply Hne. apply (Hun j i u t p); [done|done| |done]. unfold leads. by rewrite Eu.
  - intros u Hu. destruct (elem_insert ts i t t' u Hi Hu) as [->|(j & _ & Hj)]; [rewrite Gex; apply Hex; by eapply list_elem_of_lookup_2|apply Hex; by eapply list_elem_of_lookup_2].
  - intros p s' Hs' Hr'. destruct (Gun p s' Hs' Hr') as [Hl|(Hnl & s & Hs & Hr)]; [exists t'; split; [by eapply elem_insert_new|done]|].
    destruct (Hld p s Hs Hr) as (u & Hu & Hlu). apply (witness_insert _ ts i t t' u); [done..|]. by intros ->.
  - intros j j' u u' p Hj Hj' Hu Hu'. assert (∀ j0 u0, j0 ≠ i → ts !! j0 = Some u0 → leads u0 p → leads t' p → False) as Hx.
    { intros j0 u0 Hne H0 Hl0 Hlt. destruct (Gl p Hlt) as [Ht|Hlen]; [by apply Hne, (Hun j0 i u0 t p)|].
      pose proof (Hth u0 (list_elem_of_lookup_2 _ _ _ H0)) as Hok. unfold ThreadOk in Hok. unfold leads in Hl0. destruct (th_pc u0); try done. subst p. destruct Hok as [_ (s & Hs & _)].
      apply lookup_lt_Some in Hs. lia. }
    pose proof (lookup_lt_Some _ _ _ Hi). destruct (decide (j = i)) as [->|Hne], (decide (j' = i)) as [->|Hne']; [done|..].
    + rewrite list_lookup_insert_eq in Hj by done. injection Hj as <-. rewrite list_lookup_insert_ne in Hj' by done. by destruct (Hx j' u').
    + rewrite list_lookup_insert_eq in Hj' by done. injection Hj' as <-. rewrite list_lookup_insert_ne in Hj by done. by destruct (Hx j u).
    + rewrite list_lookup_insert_ne in Hj, Hj' by done. by apply (Hun j j' u u' p).
  - intros id a Ha. destruct (Grq id a Ha) as [(<- & Hl & ->)|((a0 & Ha0 & ->) & Hl)].
    + exists t'. split_and!; [by eapply elem_insert_new|done|done|]. apply Hex. by eapply list_elem_of_lookup_2.
    + destruct (Hrq id a0 Ha0) as (u & Hu & Hlu & Hid & Hxo).
      destruct (witness_insert (λ u, live u ∧ th_id u = id) ts i t t' u) as (w & Hw & Hlw & Hidw); [done..| |by exists w].
      intros ->. split; [by destruct (Hl Hlu)|congruence].
  - intros p s' id Hc Hs' Hid. assert (∀ u, u ∈ ts → live u → th_id u = id → (live t → live t' ∨ th_id t ≠ id) → ∃ w, w ∈ <[i := t']> ts ∧ live w ∧ th_id w = id) as Hsurv.
    { intros u Hu Hlu Hidu Hl. destruct (witness_insert (λ u, live u ∧ th_id u = id) ts i t t' u) as (w & Hw & Hlw & Hidw); [done..| |by exists w].
      intros ->. split; [by destruct (Hl Hlu)|congruence]. }
    destruct (Grm p s' id Hc Hs' Hid) as [(Hc0 & (s & Hs & Hids) & Hl)|(Hrqe & Hl & [a Ha])].
    + destruct (Hrm p s id Hc0 Hs Hids) as (u & Hu & Hlu & Hidu). by eapply Hsurv.
    + destruct (Hrq id a Ha) as (u & Hu & Hlu & Hidu & _). eapply Hsurv; [done..|]. by left.
  - by rewrite length_insert.
Qed.

(** A step that does not touch the steps of the registry. *)
Lemma Goes_local r t r' t' :
  RegOk r → rg_steps r' = rg_steps r → rg_current r' = rg_current r → rg_nextGeneration r' = rg_nextGeneration r → (∀ p, ¬ leads t p) → (∀ p, ¬ leads t' p) → live t' →
  th_id t' = th_id t → th_exec t' = th_exec t → ThreadOk r' t' →
  (∀ id a, rg_requests r' !! id = Some a → (th_id t = id ∧ ar_execution a = th_exec t) ∨ (∃ a0, rg_requests r !! id = Some a0 ∧ ar_execution a = ar_execution a0)) →
  Goes r t r' t'.
Proof.
  intros Hreg Hs Hc Hn Hl Hl' Hlv Hid Hex Hth Hrq. constructor; [done|done|by eapply RegOk_same|by apply Trans_same|done|..].
  - intros p s s' H1 H2. rewrite Hs in H2. congruence.
  - intros p s' H1 H2. right. split; [apply Hl|]. rewrite Hs in H1. eauto.
  - intros p H. by destruct (Hl' p).
  - intros id a Ha. destruct (Hrq id a Ha) as [[H1 H2]|H1]; [left|right; split]; auto.
  - intros p s' id H1 H2 H3. left. rewrite Hc in H1. rewrite Hs in H2. split_and!; [done|eauto|auto].
Qed.

Lemma nextCall_ok r t c : ThreadOk r (set_pc (nextCall c) t) ∧ live (set_pc (nextCall c) t) ∧ (∀ p, ¬ leads (set_pc (nextCall c) t) p).
Proof. destruct c as [|c]; (split; [unfold ThreadOk; cbn; first [done|lia]|split; [done|intros p []]]). Qed.

(** A drop by the thread that is through with its step, or that leaves. *)
Lemma Goes_drop r t r0 r' t' ptr :
  RegOk r0 → rg_steps r0 = rg_steps r → rg_current r0 = rg_current r → rg_current r = Some ptr → Dropped (th_id t) ptr r0 r' →
  (∀ p, ¬ leads t p) → (∀ p, ¬ leads t' p) → th_id t' = th_id t → th_exec t' = th_exec t → ThreadOk r' t' →
  (∀ id a, rg_requests r0 !! id = Some a → (∃ a0, rg_requests r !! id = Some a0 ∧ ar_execution a = ar_execution a0) ∧ (live t → live t' ∨ th_id t ≠ id)) →
  Goes r t r' t'.
Proof.
  intros Hreg Hs Hc Hcur [Dok [Dst Dcu] Drq Dlen Dcur Drd Drm] Hl Hl' Hid Hex Hth Hrq. constructor; [done|done|done| |done|..].
  - constructor; rewrite <- Hs, <- ?Hc; done.
  - intros p s s' H1 H2 H3 H4. rewrite <- Hs in H1. rewrite (Drd p s s' H1 H2) in H4. congruence.
  - intros p s' H1 H2. right. split; [apply Hl|]. rewrite <- Hs. assert (p < length (rg_steps r0)) as Hlt by (rewrite <- Dlen; by eapply lookup_lt_Some).
    destruct (lookup_lt_is_Some_2 _ _ Hlt) as [s Hs0]. exists s. split; [done|]. by rewrite <- (Drd p s s').
  - intros p H. by destruct (Hl' p).
  - intros id a Ha. right. apply Hrq. by rewrite <- Drq.
  - intros p s' id H1 H2 H3. left. destruct Dcur as [Dcur|Dcur]; [|congruence]. rewrite H1 in Dcur. injection Dcur as ->. rewrite Hcur.
    destruct (rk_current _ Hreg ptr) as (s & Hs0 & _); [congruence|]. rewrite (Drm s s' Hs0 H2) in H3. split_and!; [done|exists s; split; [congruence|set_solver]|]. intros _. right. set_solver.
Qed.

Lemma not_leading t p : (match th_pc t with Computing _ _ _ _ => false | _ => true end) = true → ¬ leads t p.
Proof. unfold leads. intros H Hl. by destruct (th_pc t). Qed.

(** ** The locked section of a wait *)

Lemma acquire_ok r ts t runningReqs now c :
  Inv (mkSystem r ts) → t ∈ ts → th_pc t = Entering c →
  ∃ r' x, acquireLocked m iter profiling (th_id t) runningReqs now r = Some (r', x) ∧
    match x with
    | NoStep => r' = r ∧ (rg_requests r !! th_id t = None ∨ participantsOf (rg_requests r) = ∅)
    | Join p => r' = r ∧ rg_current r = Some p ∧ ∃ s, rg_steps r !! p = Some s ∧ th_id t ∈ ds_remaining s
    | Busy p => r' = r ∧ rg_current r = Some p ∧ ∃ s, rg_steps r !! p = Some s ∧ th_id t ∉ ds_remaining s
    | Lead p counts assignments =>
        rg_current r = None ∧ p = length (rg_steps r) ∧ participantsOf (rg_requests r) ≠ ∅ ∧
        r' = mkRegistry (rg_requests r) (Some p) (S (rg_nextGeneration r))
               (rg_steps r ++ [mkStep (rg_nextGeneration r) (participantsOf (rg_requests r)) (participantsOf (rg_requests r)) false false now 0 0])
    end.
Proof.
  intros HI Ht Hpc. unfold acquireLocked. destruct (rg_requests r !! th_id t) as [a|] eqn:Ea; [|exists r, NoStep; auto].
  destruct (rg_current r) as [p|] eqn:Ec.
  - destruct (rk_current _ (iv_reg _ HI) p Ec) as (s & Hs & Hd & Hne & Hsub). cbn in Hs. rewrite Hs. cbn [mbind option_bind]. destruct (decide _) as [[H1 H2]|Hn].
    + eexists _, (Join p). split; [done|]. split_and!; [done..|]. by exists s.
    + eexists _, (Busy p). split; [done|]. split_and!; [done..|]. exists s. split; [done|]. intros H2. apply Hn. set_solver.
  - destruct (decodeCountsLocked_ok m iter profiling runningReqs r iter_ok gpus_pos probs_ok) as [[-> Hno]|(counts & as_ & -> & Hne & _)].
    + intros id b Hb. by destruct (iv_requests _ HI id b Hb) as (_ & _ & _ & _ & H).
    + pose proof (requests_le _ HI) as Hle. pose proof (iv_small _ HI) as Hsm. cbn in Hle, Hsm. assert (0 ≤ perToken m)%Z by (unfold perToken; lia). nia.
    + exists r, NoStep; auto.
    + cbn [mbind option_bind]. eexists _, (Lead _ _ _). split; [done|]. done.
Qed.

Lemma Goes_acquire r ts t runningReqs now latency c :
  Inv (mkSystem r ts) → t ∈ ts → th_pc t = Entering c →
  ∃ r' t', threadStep m iter profiling runningReqs now latency r t = Moved r' t' ∧ Goes r t r' t'.
Proof.
  intros HI Ht Hpc. pose proof (iv_reg _ HI) as Hreg. cbn in Hreg. pose proof (iv_thread _ HI t Ht) as Hok. unfold ThreadOk in Hok. rewrite Hpc in Hok.
  assert (∀ p, ¬ leads t p) as Hl by (intros p; apply not_leading; by rewrite Hpc).
  unfold threadStep. rewrite Hpc. destruct (acquire_ok r ts t runningReqs now c HI Ht Hpc) as (r' & x & -> & Hx).
  assert (∀ id a, rg_requests r !! id = Some a → (th_id t = id ∧ ar_execution a = th_exec t) ∨ (∃ a0, rg_requests r !! id = Some a0 ∧ ar_execution a = ar_execution a0)) as Hrq by eauto.
  destruct x as [|p|p|p counts as_].
  - destruct Hx as [-> _]. eexists _, _. split; [done|]. destruct (nextCall_ok r t (c - 1)) as (H1 & H2 & H3). by apply Goes_local.
  - destruct Hx as (-> & Hc & s & Hs & Hin). eexists _, _. split; [done|]. apply Goes_local; try done. intros q [].
  - destruct Hx as (-> & Hc & s & Hs & Hin). eexists _, _. split; [done|]. apply Goes_local; try done; [intros q []|]. unfold ThreadOk. cbn. eauto.
  - destruct Hx as (Hc & -> & Hne & ->). eexists _, _. split; [done|]. set (s := mkStep _ _ _ _ _ _ _ _). destruct Hreg as [Hg Hn Hcur Ho]. constructor; try done; cbn [rg_steps rg_current rg_requests rg_nextGeneration].
    + constructor; cbn [rg_steps rg_current rg_requests rg_nextGeneration].
      * intros p s' [H|[Hle H]]%lookup_app_Some; [by apply Hg|]. apply list_lookup_singleton_Some in H as [H <-]. cbn. rewrite Hn. lia.
      * rewrite length_app, Hn. cbn. lia.
      * intros p [= <-]. exists s. rewrite lookup_app_r, Nat.sub_diag by done. split_and!; [done..|]. done.
      * intros p s' [H|[Hle H]]%lookup_app_Some Hp; [apply (Ho p s' H); congruence|]. apply list_lookup_singleton_Some in H as [H <-]. exfalso. apply Hp. f_equal. lia.
    + constructor; cbn; [|intros p [= <-]; by right]. intros p s' Hs'. exists s'. split; [by apply lookup_app_l_Some|apply Evolves_refl].
    + unfold ThreadOk. cbn. split; [done|]. exists s. split; [|done]. by rewrite lookup_app_r, Nat.sub_diag by done.
    + intros p s1 s2 H1 H2 H3 H4. rewrite lookup_app_l in H2 by by eapply lookup_lt_Some. congruence.
    + intros p s' [H|[Hle H]]%lookup_app_Some Hr; [right; split; [apply Hl|eauto]|left]. apply list_lookup_singleton_Some in H as [H <-]. unfold leads. cbn. lia.
    + intros p H. right. unfold leads in H. cbn in H. done.
    + intros id a Ha. right. split; [eauto|]. intros _. by left.
    + intros p s' id [= <-] H Hin. right. rewrite lookup_app_r, Nat.sub_diag in H by done. injection H as <-. cbn in Hin. apply participants_elem in Hin as (a & Ha & _).
      split_and!; [done|done|eauto].
Qed.

(** ** Every step *)

Lemma Goes_publish r ts t runningReqs now latency c p counts as_ :
  Inv (mkSystem r ts) → t ∈ ts → th_pc t = Computing c p counts as_ →
  ∃ r' t', threadStep m iter profiling runningReqs now latency r t = Moved r' t' ∧ Goes r t r' t'.
Proof.
  intros HI Ht Hpc. pose proof (iv_reg _ HI) as Hreg. cbn in Hreg. pose proof (iv_thread _ HI t Ht) as Hok. unfold ThreadOk in Hok. rewrite Hpc in Hok. cbn in Hok.
  destruct Hok as [Hc (s & Hs & Hr)]. pose proof (lookup_lt_Some _ _ _ Hs) as Hlt. unfold threadStep, publishStep. rewrite Hpc, Hs. cbn [mbind option_bind]. rewrite Hr.
  set (s1 := mkStep _ _ _ true _ _ _ _). cbn [rg_steps set_steps]. rewrite list_lookup_insert_eq by done. eexists _, _. split; [done|]. destruct Hreg as [Hg Hn Hcur Ho].
  assert (∀ q s', <[p := s1]> (rg_steps r) !! q = Some s' → (q = p ∧ s' = s1) ∨ (q ≠ p ∧ rg_steps r !! q = Some s')) as Hins.
  { intros q s' H. destruct (decide (q = p)) as [->|Hne]; [rewrite list_lookup_insert_eq in H by done; left; naive_solver|right]. by rewrite list_lookup_insert_ne in H. }
  constructor; try done; cbn [set_steps rg_steps rg_current rg_requests rg_nextGeneration].
  - constructor; cbn [set_steps rg_steps rg_current rg_requests rg_nextGeneration].
    + intros q s' [[-> ->]|[_ H]]%Hins; [exact (Hg p s Hs)|by apply Hg].
    + by rewrite length_insert.
    + intros q Hq. destruct (Hcur q Hq) as (s0 & Hs0 & H1 & H2 & H3). destruct (decide (q = p)) as [->|Hne].
      * rewrite Hs in Hs0. injection Hs0 as <-. exists s1. rewrite list_lookup_insert_eq by done. done.
      * exists s0. by rewrite list_lookup_insert_ne.
    + intros q s' [[-> ->]|[_ H]]%Hins Hq; [exact (Ho p s Hs Hq)|by apply (Ho q)].
  - constructor; cbn; [|by left]. intros q s' Hs'. destruct (decide (q = p)) as [->|Hne].
    + rewrite Hs in Hs'. injection Hs' as <-. exists s1. rewrite list_lookup_insert_eq by done. split; [done|]. constructor; [done..|congruence|done].
    + exists s'. rewrite list_lookup_insert_ne by done. split; [done|apply Evolves_refl].
  - unfold ThreadOk. cbn. split; [done|]. exists s1. rewrite (Hg p s Hs). rewrite list_lookup_insert_eq by done. done.
  - intros q s' s2 H1 [[-> ->]|[_ H]]%Hins H3 H4; [unfold leads; by rewrite Hpc|congruence].
  - intros q s' [[-> ->]|[Hne H]]%Hins H2; [done|]. right. split; [unfold leads; rewrite Hpc; congruence|eauto].
  - intros id a Ha. right. split; [eauto|]. intros _. by left.
  - intros q s' id H1 [[-> ->]|[_ H]]%Hins H3; left; (split_and!; [done| |intros _; by left]); [exists s; by split|eauto].
Qed.

Lemma threadStep_ok r ts i t runningReqs now latency :
  Inv (mkSystem r ts) → ts !! i = Some t →
  match threadStep m iter profiling runningReqs now latency r t with
  | Panics => False
  | Blocked => True
  | Moved r' t' => Goes r t r' t'
  end.
Proof.
  intros HI Hi. pose proof (list_elem_of_lookup_2 _ _ _ Hi) as Ht. pose proof (iv_reg _ HI) as Hreg. cbn in Hreg. pose proof (iv_thread _ HI t Ht) as Hok. unfold ThreadOk in Hok. cbn in Hok.
  destruct (th_pc t) as [|c|c p counts as_|c p|c p|c tm| |] eqn:Hpc.
  - unfold threadStep. rewrite Hpc. destruct (nextCall_ok (activate (th_id t) (th_exec t) r) t (ex_outputTokens (th_exec t) - 1)) as (H1 & H2 & H3).
    apply Goes_local; try done; try (unfold activate; by case_match); [intros p; apply not_leading; by rewrite Hpc|].
    intros id a. unfold activate. case_match; [eauto|]. cbn. destruct (decide (id = th_id t)) as [->|Hne]; [rewrite lookup_insert_eq; intros [= <-]; by left|].
    rewrite lookup_insert_ne by done. eauto.
  - destruct (Goes_acquire r ts t runningReqs now latency c HI Ht Hpc) as (r' & t' & -> & H). done.
  - destruct (Goes_publish r ts t runningReqs now latency c p counts as_ HI Ht Hpc) as (r' & t' & -> & H). done.
  - destruct Hok as [Hc [s Hs]]. unfold threadStep. rewrite Hpc, Hs. destruct (ds_ready s) eqn:Er; [|done].
    apply Goes_local; try done; [intros q; apply not_leading; by rewrite Hpc|intros q []| |eauto]. unfold ThreadOk. cbn. split; [done|]. exists s. by rewrite (rk_generation _ Hreg p s Hs).
  - destruct Hok as [Hc (s & Hs & _)]. unfold threadStep. rewrite Hpc, Hs. destruct (ds_done s) eqn:Er; [|done].
    apply Goes_local; try done; [intros q; apply not_leading; by rewrite Hpc|intros q []|eauto].
  - (* completing *)
    unfold threadStep. rewrite Hpc. assert (∀ p, ¬ leads t p) as Hl by (intros p; apply not_leading; by rewrite Hpc).
    assert (∀ r', ThreadOk r' (set_pc (nextCall (c - 1)) t) ∧ live (set_pc (nextCall (c - 1)) t) ∧ (∀ p, ¬ leads (set_pc (nextCall (c - 1)) t) p)) as Hnx by (intros; apply nextCall_ok).
    assert (Goes r t r (set_pc (nextCall (c - 1)) t)) as Hsame by (destruct (Hnx r) as (H1 & H2 & H3); apply Goes_local; eauto).
    unfold completeDecodeStep, moved. destruct (rg_current r) as [p|] eqn:Ec; [|done]. destruct (rk_current _ Hreg p Ec) as (s & Hs & _). rewrite Hs. cbn [mbind option_bind].
    destruct (negb _); [done|]. destruct (decide _) as [Hin|]; [|done].
    assert (RegOk (advance (th_id t) r)) as Hreg' by by apply (RegOk_same r).
    destruct (dropParticipant_ok (th_id t) p s (advance (th_id t) r) Hreg' Ec Hs Hin) as (r' & -> & HD). destruct (Hnx r') as (H1 & H2 & H3).
    apply (Goes_drop r t (advance (th_id t) r) r' _ p); try done. intros id a Ha. split; [|intros _; by left]. unfold advance in Ha. cbn in Ha. unfold advanceRequest in Ha.
    destruct (rg_requests r !! th_id t) as [a0|] eqn:Ea; [|eauto]. destruct (_ <=? _).
    + apply lookup_delete_Some in Ha as [_ Ha]. eauto.
    + destruct (decide (id = th_id t)) as [->|Hne]; [rewrite lookup_insert_eq in Ha; injection Ha as <-; eauto|]. rewrite lookup_insert_ne in Ha by done. eauto.
  - (* leaving *)
    unfold threadStep. rewrite Hpc. assert (∀ p, ¬ leads t p) as Hl by (intros p; apply not_leading; by rewrite Hpc).
    unfold deactivate, moved. cbn [set_requests rg_current rg_steps]. set (r0 := set_requests (delete (th_id t) (rg_requests r)) r).
    assert (∀ id a, rg_requests r0 !! id = Some a → (∃ a0, rg_requests r !! id = Some a0 ∧ ar_execution a = ar_execution a0) ∧ (live t → live (set_pc Exited t) ∨ th_id t ≠ id)) as Hrq.
    { intros id a Ha. cbn in Ha. apply lookup_delete_Some in Ha as [Hne Ha]. split; [eauto|]. intros _. by right. }
    assert ((∀ p s id, rg_current r = Some p → rg_steps r !! p = Some s → id ∈ ds_remaining s → th_id t ≠ id) → Goes r t r0 (set_pc Exited t)) as Hsame.
    { intros Hno. constructor; try done; [by apply (RegOk_same r)|by apply Trans_same|..].
      - intros p s s' H1 H2. cbn in H2. congruence.
      - intros p s' H1 H2. right. split; [apply Hl|eauto].
      - intros id a Ha. right. by apply Hrq.
      - intros p s' id H1 H2 H3. left. cbn in H1, H2. split_and!; [done|eauto|]. intros _. right. by eapply Hno. }
    destruct (rg_current r) as [p|] eqn:Ec; [|apply Hsame; congruence]. destruct (rk_current _ Hreg p Ec) as (s & Hs & _). rewrite Hs. cbn [mbind option_bind].
    destruct (decide _) as [Hin|Hnin]; [|apply Hsame; intros p' s' id [= <-] H Hid; rewrite Hs in H; injection H as <-; congruence].
    assert (RegOk r0) as Hreg' by by apply (RegOk_same r). destruct (dropParticipant_ok (th_id t) p s r0 Hreg' Ec Hs Hin) as (r' & -> & HD).
    apply (Goes_drop r t r0 r' _ p); try done. intros q [].
  - unfold threadStep. by rewrite Hpc.
Qed.

(** The invariant holds in every reachable state. *)
Lemma Inv_step sy sy' : Inv sy → step m iter profiling sy sy' → Inv sy'.
Proof.
  intros HI Hst. destruct Hst as [r ts i t rr now lat r' t' Hi E]. pose proof (threadStep_ok r ts i t rr now lat HI Hi) as H. rewrite E in H. by eapply Goes_inv.
Qed.

Lemma Inv_start requests :
  (∀ x, x ∈ requests → ExecOk m x.2) → (Z.of_nat (length requests) * perToken m < 2 ^ 53)%Z → Inv (start requests).
Proof.
  intros Hex Hsm. unfold start. constructor; cbn [sy_registry sy_threads emptyRegistry rg_requests rg_current rg_steps].
  - by constructor.
  - by intros t (x & -> & _)%list_elem_of_fmap.
  - intros t (x & -> & Hx)%list_elem_of_fmap. by apply Hex.
  - done.
  - intros i j t t' p Hi _ Hl. apply list_elem_of_lookup_2, list_elem_of_fmap in Hi as (x & -> & _). done.
  - done.
  - done.
  - by rewrite length_fmap.
Qed.

End System.

End TraceRegistryInv.
