(* ===== verification/TraceRegistryProps.v ===== *)
(** Liveness of the shared decode steps: whatever the interleaving of the workers, no
    locked section panics, some worker can move until all have left, every run ends, and
    a request takes part in exactly one step per output token after the first. *)

From S2P Require Import Prelude Sums GoFloat GoFloatInt TraceFormat TraceFile Moe Requests TraceText TraceWorkload TraceWorkloadProps TraceVirtualInv TraceRegistry TraceRegistryInv.
Import TraceFormat TraceFile Moe TraceText TraceWorkload TraceWorkloadProps TraceVirtualInv TraceRegistry TraceRegistryInv.
Open Scope nat_scope.

Module TraceRegistryProps.

(** * A measure of the work left *)

Definition stepDone (r : traceActiveRegistry) (p : nat) : bool := match rg_steps r !! p with Some s => ds_done s | None => false end.

(** With [N] workers, a wait for the end of a step that has ended counts more than one
    for a step that has not, since the worker goes round its loop again; a worker that
    ends a step may wake all others, and pays for them with one wait or with its exit. *)
Definition inCall (r : traceActiveRegistry) (c : pc) : nat :=
  match c with
  | Prefilling => 6
  | Entering _ => 4
  | Computing _ _ _ _ | WaitReady _ _ => 3
  | Holding _ _ => 2
  | WaitDone _ p => if stepDone r p then 5 else 1
  | Leaving | Exited => 0
  end.

Definition rank (N : nat) (r : traceActiveRegistry) (t : thread) : nat :=
  callsLeft t * (4 * N + 3) + (match th_pc t with Exited => 0 | _ => 4 * N + 1 end) + inCall r (th_pc t).

Definition work (sy : system) : nat := sum_list_with (rank (length (sy_threads sy)) (sy_registry sy)) (sy_threads sy).

(** No step ends. *)
Definition SameDone (r r' : traceActiveRegistry) : Prop := ∀ p, is_Some (rg_steps r !! p) → stepDone r' p = stepDone r p.

Lemma rank_frame N r r' t : ThreadOk r t → rank N r' t ≤ rank N r t + 4 ∧ (SameDone r r' → rank N r' t = rank N r t).
Proof.
  intros Hok. unfold rank. assert (inCall r' (th_pc t) ≤ inCall r (th_pc t) + 4 ∧ (SameDone r r' → inCall r' (th_pc t) = inCall r (th_pc t))) as [H1 H2].
  { unfold ThreadOk in Hok. destruct (th_pc t) as [| | | |c p| | |]; cbn [inCall]; try (split; [lia|done]). split; [repeat case_match; lia|].
    destruct Hok as [_ (s & Hs & _)]. intros H. by rewrite H by eauto. }
  split; [lia|]. intros H. by rewrite H2.
Qed.

Lemma sum_list_insert {A} (f : A → nat) (l : list A) i x y : l !! i = Some x → sum_list_with f (<[i := y]> l) + f x = sum_list_with f l + f y.
Proof.
  revert i. induction l as [|z l IH]; intros [|i] H; [done..| |].
  - injection H as ->. cbn. lia.
  - specialize (IH i H). change (f z + sum_list_with f (<[i := y]> l) + f x = f z + sum_list_with f l + f y). lia.
Qed.

Lemma sum_list_with_le {A} (f g : A → nat) (l : list A) k :
  (∀ x, x ∈ l → f x ≤ g x + k) → sum_list_with f l ≤ sum_list_with g l + k * length l.
Proof.
  induction l as [|x l IH]; intros H; cbn; [lia|]. pose proof (H x ltac:(left)). assert (∀ y, y ∈ l → f y ≤ g y + k) as H1 by (intros; apply H; by right).
  specialize (IH H1). lia.
Qed.

Lemma nextCall_rank N r t c : rank N r (set_pc (nextCall c) t) ≤ c * (4 * N + 3) + (4 * N + 1) + 4.
Proof. destruct c; unfold rank; cbn; lia. Qed.

Section Runs.
Variable m : moeParams.
Variable iter : gmap string activeTraceRequest → list (string * activeTraceRequest).
Variable profiling : bool.
Hypothesis iter_ok : IterOk iter.
Hypothesis gpus_pos : 0 < numGPUs m.
Hypothesis probs_ok : length (probabilities m) = numExperts m.

(** Every step of a worker lowers the measure, by enough to wake the others when it may
    end a step. *)
Lemma threadStep_rank r ts i t runningReqs now latency r' t' N :
  Inv m (mkSystem r ts) → ts !! i = Some t → threadStep m iter profiling runningReqs now latency r t = Moved r' t' →
  (rank N r' t' + 4 * N < rank N r t ∧ rank N r' t = rank N r t) ∨ (SameDone r r' ∧ rank N r' t' < rank N r t).
Proof.
  intros HI Hi E. pose proof (list_elem_of_lookup_2 _ _ _ Hi) as Ht. pose proof (iv_reg _ _ HI) as Hreg. cbn in Hreg. pose proof (iv_thread _ _ HI t Ht) as Hok. unfold ThreadOk in Hok. cbn in Hok.
  assert (∀ r1, rg_steps r1 = rg_steps r → SameDone r r1) as Hsame by (intros r1 H p _; unfold stepDone; by rewrite H).
  destruct (th_pc t) as [|c|c p counts as_|c p|c p|c tm| |] eqn:Hpc.
  - unfold threadStep in E. rewrite Hpc in E. injection E as <- <-. right. split; [apply Hsame; unfold activate; by case_match|].
    pose proof (nextCall_rank N (activate (th_id t) (th_exec t) r) t (ex_outputTokens (th_exec t) - 1)). unfold rank at 2, callsLeft. rewrite Hpc. cbn [inCall]. lia.
  - unfold threadStep in E. rewrite Hpc in E. destruct (acquire_ok m iter profiling iter_ok gpus_pos probs_ok r ts t runningReqs now c HI Ht Hpc) as (r1 & x & Hx & Hr).
    rewrite Hx in E. destruct x as [|p|p|p counts as_]; injection E as <- <-.
    + destruct Hr as [-> _]. left. split; [|done]. pose proof (nextCall_rank N r t (c - 1)). unfold rank at 2, callsLeft. rewrite Hpc. cbn [inCall]. nia.
    + destruct Hr as (-> & _). right. split; [by apply Hsame|]. unfold rank, callsLeft. rewrite Hpc. cbn. lia.
    + destruct Hr as (-> & Hc & _). right. split; [by apply Hsame|]. unfold rank, callsLeft. rewrite Hpc. cbn.
      destruct (rk_current _ Hreg p Hc) as (s & Hs & Hd & _). unfold stepDone. rewrite Hs, Hd. lia.
    + destruct Hr as (Hc & -> & _ & ->). right. split; [|unfold rank, callsLeft; rewrite Hpc; cbn; lia]. intros p [s Hs]. unfold stepDone. cbn. by rewrite lookup_app_l by by eapply lookup_lt_Some.
  - destruct Hok as [Hc (s & Hs & Hr)]. unfold threadStep, publishStep in E. rewrite Hpc, Hs in E. cbn [mbind option_bind] in E. rewrite Hr in E. cbn [rg_steps set_steps] in E.
    pose proof (lookup_lt_Some _ _ _ Hs) as Hlt. rewrite list_lookup_insert_eq in E by done. injection E as <- <-. right. split; [|unfold rank, callsLeft; rewrite Hpc; cbn; lia].
    intros q [s' Hs']. unfold stepDone. cbn. destruct (decide (q = p)) as [->|Hne]; [by rewrite list_lookup_insert_eq, Hs by done|]. by rewrite list_lookup_insert_ne.
  - destruct Hok as [Hc [s Hs]]. unfold threadStep in E. rewrite Hpc, Hs in E. destruct (ds_ready s); [|done]. injection E as <- <-. right. split; [by apply Hsame|].
    unfold rank, callsLeft. rewrite Hpc. cbn. lia.
  - destruct Hok as [Hc (s & Hs & _)]. unfold threadStep in E. rewrite Hpc, Hs in E. destruct (ds_done s) eqn:Ed; [|done]. injection E as <- <-. right. split; [by apply Hsame|].
    unfold rank, callsLeft. rewrite Hpc. cbn. unfold stepDone. rewrite Hs, Ed. lia.
  - left. destruct Hok as [Hc _]. unfold threadStep, moved in E. rewrite Hpc in E. destruct (completeDecodeStep _ _ _) as [r1|]; [|done]. injection E as <- <-.
    split; [|unfold rank; by rewrite Hpc]. pose proof (nextCall_rank N r1 t (c - 1)). unfold rank at 2, callsLeft. rewrite Hpc. cbn [inCall]. nia.
  - left. unfold threadStep, moved in E. rewrite Hpc in E. destruct (deactivate _ _) as [r1|]; [|done]. injection E as <- <-. split; [|unfold rank; by rewrite Hpc].
    unfold rank, callsLeft. rewrite Hpc. cbn. lia.
  - unfold threadStep in E. by rewrite Hpc in E.
Qed.

Lemma step_work sy sy' : Inv m sy → step m iter profiling sy sy' → work sy' < work sy.
Proof.
  intros HI Hst. destruct Hst as [r ts i t rr now lat r' t' Hi E]. unfold work. cbn [sy_threads sy_registry]. rewrite length_insert. set (N := length ts).
  pose proof (sum_list_insert (rank N r') ts i t t' Hi) as Hsum.
  assert (∀ u, u ∈ ts → rank N r' u ≤ rank N r u + 4 ∧ (SameDone r r' → rank N r' u = rank N r u)) as Hfr by (intros u Hu; apply rank_frame; by apply (iv_thread _ _ HI)).
  destruct (threadStep_rank r ts i t rr now lat r' t' N HI Hi E) as [[Hlt Heq]|[Hsd Hlt]].
  - pose proof (sum_list_with_le (rank N r') (rank N r) ts 4 (λ u Hu, proj1 (Hfr u Hu))) as Hle. fold N in Hle. lia.
  - assert (∀ u, u ∈ ts → rank N r' u ≤ rank N r u + 0) as Heq by (intros u Hu; destruct (Hfr u Hu) as [_ H]; rewrite H by done; lia).
    pose proof (sum_list_with_le (rank N r') (rank N r) ts 0 Heq). pose proof (proj2 (Hfr t (list_elem_of_lookup_2 _ _ _ Hi)) Hsd). lia.
Qed.

(** * Progress *)

(** A worker that is not blocked. *)
Definition canMove (r : traceActiveRegistry) (t : thread) : Prop := ∃ r' t', threadStep m iter profiling 0 0 0 r t = Moved r' t'.

Lemma unblocked r ts t :
  Inv m (mkSystem r ts) → t ∈ ts → threadStep m iter profiling 0 0 0 r t ≠ Blocked → canMove r t.
Proof.
  intros HI [i Hi]%list_elem_of_lookup Hb. pose proof (threadStep_ok m iter profiling iter_ok gpus_pos probs_ok r ts i t 0 0 0 HI Hi) as H. unfold canMove.
  destruct (threadStep m iter profiling 0 0 0 r t); [done|done|eauto].
Qed.

(** The leader of a step that is not ready can move; a worker waits for it or moves. *)
Lemma waiting_ready r ts t c p :
  Inv m (mkSystem r ts) → t ∈ ts → th_pc t = WaitReady c p → ∃ u, u ∈ ts ∧ canMove r u.
Proof.
  intros HI Ht Hpc. pose proof (iv_thread _ _ HI t Ht) as Hok. unfold ThreadOk in Hok. rewrite Hpc in Hok. destruct Hok as [_ [s Hs]]. cbn in Hs. destruct (ds_ready s) eqn:Er.
  - exists t. split; [done|]. apply (unblocked r ts); [done..|]. unfold threadStep. by rewrite Hpc, Hs, Er.
  - destruct (iv_leader _ _ HI p s Hs Er) as (u & Hu & Hl). cbn in Hu. exists u. split; [done|]. apply (unblocked r ts); [done..|]. unfold leads in Hl. unfold threadStep.
    destruct (th_pc u); try done. repeat case_match; done.
Qed.

(** A live worker that does not wait for the end of a step moves, or waits for one that
    does. *)
Lemma live_moves r ts t :
  Inv m (mkSystem r ts) → t ∈ ts → th_pc t ≠ Exited → (∀ c p, th_pc t ≠ WaitDone c p) → ∃ u, u ∈ ts ∧ canMove r u.
Proof.
  intros HI Ht Hne Hw. destruct (th_pc t) as [|c|c p counts as_|c p|c p|c tm| |] eqn:Hpc; try done.
  4: by eapply waiting_ready. 4: by destruct (Hw c p).
  all: exists t; split; [done|]; apply (unblocked r ts); [done..|]; unfold threadStep, moved; rewrite Hpc; repeat case_match; done.
Qed.

(** A worker that waits for the end of a step that is not over waits for the current
    step, in which it has no part left. *)
Lemma waiting_done r ts t c p :
  Inv m (mkSystem r ts) → t ∈ ts → th_pc t = WaitDone c p →
  canMove r t ∨ (rg_current r = Some p ∧ ∃ s, rg_steps r !! p = Some s ∧ (th_id t ∉ ds_remaining s) ∧ ds_remaining s ≠ ∅).
Proof.
  intros HI Ht Hpc. pose proof (iv_thread _ _ HI t Ht) as Hok. unfold ThreadOk in Hok. rewrite Hpc in Hok. destruct Hok as [_ (s & Hs & Hx)]. cbn in Hs, Hx. destruct (ds_done s) eqn:Ed.
  { left. apply (unblocked r ts); [done..|]. unfold threadStep. by rewrite Hpc, Hs, Ed. }
  assert (rg_current r = Some p) as Hc.
  { destruct (decide (rg_current r = Some p)) as [|Hn]; [done|]. pose proof (rk_old _ (iv_reg _ _ HI) p s Hs Hn). congruence. }
  right. split; [done|]. exists s. split_and!; [done|auto|]. destruct (rk_current _ (iv_reg _ _ HI) p Hc) as (s0 & Hs0 & _ & Hrem & _). cbn in Hs0. congruence.
Qed.

Definition exited (t : thread) : bool := match th_pc t with Exited => true | _ => false end.

Lemma system_progress sy : Inv m sy → finished sy ∨ ∃ sy', step m iter profiling sy sy'.
Proof.
  intros HI. destruct sy as [r ts]. destruct (decide (Forall (λ t, exited t = true) ts)) as [Hf|Hf].
  { left. intros t Ht. cbn in Ht. rewrite Forall_forall in Hf. specialize (Hf t Ht). unfold exited in Hf. by destruct (th_pc t). }
  right. assert (∃ u, u ∈ ts ∧ canMove r u) as (u & [i Hi]%list_elem_of_lookup & r' & t' & E); [|by eexists; econstructor].
  apply not_Forall_Exists, Exists_exists in Hf as (t & Ht & Hne); [|apply _]. unfold exited, compose in Hne.
  destruct (th_pc t) as [|c|c p counts as_|c p|c p|c tm| |] eqn:Hpc; try (apply (live_moves r ts t HI Ht); by rewrite Hpc).
  destruct (waiting_done r ts t c p HI Ht Hpc) as [Hm|(Hc & s & Hs & _ & Hrem)]; [by exists t|].
  apply set_choose_L in Hrem as [id Hid]. destruct (iv_remaining _ _ HI p s id Hc Hs Hid) as (u & Hu & Hlu & Hidu). cbn in Hu.
  destruct (th_pc u) as [|c'|c' q counts as_|c' q|c' q|c' tm| |] eqn:Hu'; try (apply (live_moves r ts u HI Hu); by rewrite Hu'); [|unfold live in Hlu; by rewrite Hu' in Hlu].
  destruct (waiting_done r ts u c' q HI Hu Hu') as [Hm|(Hc' & s' & Hs' & Hx & _)]; [by exists u|]. exfalso. congruence.
Qed.

(** * Runs *)

Lemma run_bounded n sy sy' : Inv m sy → nsteps (step m iter profiling) n sy sy' → n + work sy' ≤ work sy.
Proof.
  intros HI H. induction H as [|n x y z Hxy _ IH]; [done|]. pose proof (step_work x y HI Hxy). pose proof (IH (Inv_step m iter profiling iter_ok gpus_pos probs_ok x y HI Hxy)). lia.
Qed.

(** From every state the workers can finish. *)
Lemma finishes sy : Inv m sy → ∃ sy', rtc (step m iter profiling) sy sy' ∧ finished sy'.
Proof.
  remember (work sy) as n eqn:E. revert sy E. induction (lt_wf n) as [n _ IH]. intros sy -> HI. destruct (system_progress sy HI) as [Hf|[sy' Hst]]; [by exists sy|].
  destruct (IH (work sy') (step_work sy sy' HI Hst) sy' eq_refl) as (sy2 & H & Hf); [by apply (Inv_step m iter profiling iter_ok gpus_pos probs_ok sy)|].
  exists sy2. split; [by eapply rtc_l|done].
Qed.

Section Reachable.
Variable requests : list (string * traceExecution).
Hypothesis requests_fit : ∀ x, x ∈ requests → ExecOk m x.2.
Hypothesis requests_small : (Z.of_nat (length requests) * perToken m < 2 ^ 53)%Z.

Lemma registry_reachable sy : rtc (step m iter profiling) (start requests) sy → Inv m sy.
Proof.
  intros H. remember (start requests) as s0 eqn:E. assert (Inv m s0) as H0 by (subst; by apply Inv_start). clear E. induction H as [|x y z Hxy _ IH]; [done|].
  apply IH. by apply (Inv_step m iter profiling iter_ok gpus_pos probs_ok x).
Qed.

End Reachable.
End Runs.
End TraceRegistryProps.
