(* ===== verification/TraceRegistryServed.v ===== *)
(** How many shared steps each request takes part in: with distinct request ids, exactly
    one per output token after the first, in the order of the recorded positions. *)

From S2P Require Import Prelude Sums GoFloat GoFloatInt TraceFormat TraceFile Moe Requests TraceText TraceWorkload TraceWorkloadProps TraceVirtualInv TraceRegistry TraceRegistryInv TraceRegistryProps.
Import TraceFormat TraceFile Moe TraceText TraceWorkload TraceWorkloadProps TraceVirtualInv TraceRegistry TraceRegistryInv TraceRegistryProps.
Open Scope nat_scope.

Module TraceRegistryServed.

(** The step under way in which a request has work left, and the number of steps that
    counted it as a participant. *)
Definition inStep (r : traceActiveRegistry) (id : string) : option nat :=
  p ← rg_current r; s ← rg_steps r !! p; if decide (id ∈ ds_remaining s) then Some p else None.

Definition joined (r : traceActiveRegistry) (id : string) : nat := length (filter (λ q, id ∈ q) (ds_participants <$> rg_steps r)).

(** A request that decodes: [c] of its waits are left, the registry has its position, and
    it has taken part in one step per position before it, and in the one under way. *)
Definition Decoding (r : traceActiveRegistry) (t : thread) (c : nat) : Prop :=
  0 < c ≤ ex_outputTokens (th_exec t) - 1 ∧
  rg_requests r !! th_id t = Some (mkActive (th_exec t) (ex_outputTokens (th_exec t) - 1 - c)) ∧
  joined r (th_id t) = ex_outputTokens (th_exec t) - 1 - c + (match inStep r (th_id t) with Some _ => 1 | None => 0 end).

Definition Absent (r : traceActiveRegistry) (t : thread) (n : nat) : Prop :=
  rg_requests r !! th_id t = None ∧ joined r (th_id t) = n ∧ inStep r (th_id t) = None.

Definition Sync (r : traceActiveRegistry) (t : thread) : Prop :=
  match th_pc t with
  | Prefilling => Absent r t 0
  | Leaving | Exited => Absent r t (ex_outputTokens (th_exec t) - 1)
  | Entering c | WaitDone c _ => Decoding r t c
  | Computing c p _ _ | WaitReady c p => Decoding r t c ∧ inStep r (th_id t) = Some p
  | Holding c tm => Decoding r t c ∧ inStep r (th_id t) = Some (tm_generation tm)
  end.

(** What a section leaves as it was for a request. *)
Definition SameFor (r r' : traceActiveRegistry) (id : string) : Prop :=
  rg_requests r' !! id = rg_requests r !! id ∧ joined r' id = joined r id ∧ inStep r' id = inStep r id.

Lemma Sync_same r r' t : SameFor r r' (th_id t) → Sync r t → Sync r' t.
Proof. intros (H1 & H2 & H3). unfold Sync, Decoding, Absent. by rewrite H1, H2, H3. Qed.

(** Overwriting a step without changing its participants. *)
Lemma joined_insert r p s s' id : rg_steps r !! p = Some s → ds_participants s' = ds_participants s →
  length (filter (λ q, id ∈ q) (ds_participants <$> <[p := s']> (rg_steps r))) = joined r id.
Proof.
  intros Hs Hp. unfold joined. rewrite list_fmap_insert, Hp. f_equal. f_equal. apply list_insert_id. by rewrite list_lookup_fmap, Hs.
Qed.

(** A participant leaves the current step: nothing changes for the others. *)
Lemma drop_effect x p s r r' :
  rg_current r = Some p → rg_steps r !! p = Some s → dropParticipant x p s r = Some r' →
  (∀ id, joined r' id = joined r id) ∧ (∀ id, inStep r' id = if decide (id = x) then None else inStep r id) ∧ rg_requests r' = rg_requests r.
Proof.
  intros Hc Hs. pose proof (lookup_lt_Some _ _ _ Hs) as Hlt. unfold dropParticipant, closeStep. cbn [ds_remaining ds_done set_remaining]. case_decide as He.
  - destruct (ds_done s); [done|]. cbn [set_steps rg_steps]. rewrite list_insert_insert_eq. intros [= <-]. split_and!; [|intros id|done].
    + intros id. unfold joined at 1. cbn [set_steps set_current rg_steps]. by apply (joined_insert r p s).
    + unfold inStep. cbn [set_current rg_current]. rewrite Hc. cbn [mbind option_bind]. rewrite Hs. cbn [mbind option_bind]. repeat case_decide; try done. set_solver.
  - intros [= <-]. split_and!; [|intros id|done].
    + intros id. unfold joined at 1. cbn [set_steps rg_steps]. by apply (joined_insert r p s).
    + unfold inStep. cbn [set_steps rg_current rg_steps]. rewrite Hc. cbn [mbind option_bind]. rewrite Hs, list_lookup_insert_eq by done. cbn [mbind option_bind set_remaining ds_remaining].
      repeat case_decide; try done; set_solver.
Qed.

(** The leader's publication changes nothing for anybody. *)
Lemma publish_same p latency r r' id : publishStep p latency r = Some r' → SameFor r r' id.
Proof.
  unfold publishStep. destruct (rg_steps r !! p) as [s|] eqn:Hs; [|done]. cbn [mbind option_bind]. destruct (ds_ready s); [done|]. intros [= <-]. pose proof (lookup_lt_Some _ _ _ Hs) as Hlt.
  split_and!; [done|unfold joined at 1; cbn [set_steps rg_steps]; by apply (joined_insert r p s)|].
  unfold inStep. cbn [set_steps rg_current rg_steps]. destruct (rg_current r) as [q|]; [|done]. cbn [mbind option_bind]. destruct (decide (q = p)) as [->|Hne].
  - rewrite list_lookup_insert_eq, Hs by done. done.
  - by rewrite list_lookup_insert_ne.
Qed.

(** A new step: its participants are those that decode. *)
Lemma lead_effect r now r' id :
  rg_current r = None →
  r' = mkRegistry (rg_requests r) (Some (length (rg_steps r))) (S (rg_nextGeneration r))
         (rg_steps r ++ [mkStep (rg_nextGeneration r) (participantsOf (rg_requests r)) (participantsOf (rg_requests r)) false false now 0 0]) →
  rg_requests r' = rg_requests r ∧ inStep r id = None ∧
  (if decide (id ∈ participantsOf (rg_requests r)) then joined r' id = S (joined r id) ∧ inStep r' id = Some (length (rg_steps r))
   else joined r' id = joined r id ∧ inStep r' id = None).
Proof.
  intros Hc ->. split; [done|]. split; [unfold inStep; by rewrite Hc|]. unfold joined, inStep. cbn [rg_current rg_steps mbind option_bind].
  rewrite fmap_app, filter_app, length_app, lookup_app_r, Nat.sub_diag by done. cbn [fmap list_fmap ds_participants list_lookup mbind option_bind ds_remaining lookup]. case_decide as Hd.
  - rewrite filter_cons_True by done. cbn. split; [lia|done].
  - rewrite filter_cons_False by done. cbn. split; [lia|done].
Qed.

(** The workers of other requests after a new step. *)
Lemma Sync_lead r now r' t :
  rg_current r = None →
  r' = mkRegistry (rg_requests r) (Some (length (rg_steps r))) (S (rg_nextGeneration r))
         (rg_steps r ++ [mkStep (rg_nextGeneration r) (participantsOf (rg_requests r)) (participantsOf (rg_requests r)) false false now 0 0]) →
  Sync r t → Sync r' t.
Proof.
  intros Hc Hr. destruct (lead_effect r now r' (th_id t) Hc Hr) as (H1 & H2 & H3).
  assert (∀ n, Absent r t n → Absent r' t n) as Habs.
  { intros n (Ha & Hb & Hd). rewrite decide_False in H3 by (rewrite participants_elem; intros (a & Ha' & _); congruence). unfold Absent. rewrite H1. destruct H3 as [-> ->]. done. }
  assert (∀ c, Decoding r t c → Decoding r' t c) as Hdec.
  { intros c (Ha & Hb & Hd). rewrite decide_True in H3.
    - unfold Decoding. rewrite H1. destruct H3 as [-> ->]. rewrite H2 in Hd. split_and!; [lia|lia|done|lia].
    - apply participants_elem. eexists. split; [exact Hb|]. unfold decoding. cbn. apply Nat.ltb_lt. lia. }
  unfold Sync. rewrite H2. destruct (th_pc t); try (intros H; by auto); by intros [_ H].
Qed.

(** * Every section keeps the books *)

(** A request is through with its forward: its position advances, and it leaves after the
    last one. *)
Lemma complete_sync r t c tm r' :
  RegOk r → Decoding r t c → inStep r (th_id t) = Some (tm_generation tm) → completeDecodeStep (th_id t) (tm_generation tm) r = Some r' →
  (∀ id, id ≠ th_id t → SameFor r r' id) ∧ Sync r' (set_pc (nextCall (c - 1)) t).
Proof.
  intros Hreg (Hc & Hq & Hj) Hin E. rewrite Hin in Hj. unfold inStep in Hin. destruct (rg_current r) as [p|] eqn:Ec; [|done]. cbn [mbind option_bind] in Hin.
  destruct (rg_steps r !! p) as [s|] eqn:Es; [|done]. cbn [mbind option_bind] in Hin. case_decide as Hid; [|done]. injection Hin as ->.
  unfold completeDecodeStep in E. rewrite Ec, Es in E. cbn [mbind option_bind] in E. rewrite (rk_generation _ Hreg _ _ Es), Nat.eqb_refl, decide_True in E by done. cbn [negb] in E.
  destruct (drop_effect (th_id t) _ s (advance (th_id t) r) r' Ec Es E) as (Dj & Di & Dr).
  assert (∀ id, joined (advance (th_id t) r) id = joined r id) as Aj by done. assert (∀ id, inStep (advance (th_id t) r) id = inStep r id) as Ai by done.
  assert (rg_requests (advance (th_id t) r) = advanceRequest (th_id t) (rg_requests r)) as Ar by done. unfold advanceRequest in Ar. rewrite Hq in Ar. cbn [ar_decodePosition ar_execution] in Ar.
  split.
  - intros id Hne. split_and!; [|by rewrite Dj|by rewrite Di, decide_False]. rewrite Dr, Ar. case_match; [by rewrite lookup_delete_ne|by rewrite lookup_insert_ne].
  - pose proof (Dj (th_id t)) as Dj1. pose proof (Di (th_id t)) as Di1. rewrite decide_True in Di1 by done. rewrite Aj in Dj1.
    destruct (Nat.leb_spec (ex_outputTokens (th_exec t) - 1) (S (ex_outputTokens (th_exec t) - 1 - c))) as [Hle|Hgt].
    + assert (c - 1 = 0) as -> by lia. unfold Sync. cbn [th_pc set_pc nextCall]. split_and!; cbn [th_id th_exec set_pc]; [by rewrite Dr, Ar, lookup_delete_eq|lia|done].
    + unfold nextCall. destruct (c - 1) as [|k] eqn:Ek; [lia|]. unfold Sync. cbn [th_pc set_pc]. unfold Decoding. cbn [th_id th_exec set_pc]. rewrite Dr, Ar, lookup_insert_eq, Dj1, Di1.
      split_and!; [lia|lia|do 2 f_equal; lia|lia].
Qed.

Section Served.
Variable m : moeParams.
Variable iter : gmap string activeTraceRequest → list (string * activeTraceRequest).
Variable profiling : bool.
Hypothesis iter_ok : IterOk iter.
Hypothesis gpus_pos : 0 < numGPUs m.
Hypothesis probs_ok : length (probabilities m) = numExperts m.

Lemma SameFor_refl r id : SameFor r r id.
Proof. done. Qed.

(** The acting worker keeps its own books; for the others nothing changes, or a step starts. *)
Lemma threadStep_sync r ts i t runningReqs now latency r' t' :
  Inv m (mkSystem r ts) → ts !! i = Some t → threadStep m iter profiling runningReqs now latency r t = Moved r' t' → Sync r t →
  (∀ u, th_id u ≠ th_id t → Sync r u → Sync r' u) ∧ Sync r' t'.
Proof.
  intros HI Hi E HS. pose proof (list_elem_of_lookup_2 _ _ _ Hi) as Ht. pose proof (iv_reg _ _ HI) as Hreg. cbn in Hreg. unfold threadStep in E.
  assert (∀ r1, (∀ id, id ≠ th_id t → SameFor r r1 id) → ∀ u, th_id u ≠ th_id t → Sync r u → Sync r1 u) as Hframe by (intros r1 H u Hu; apply Sync_same; auto).
  assert (∀ u : thread, th_id u ≠ th_id t → Sync r u → Sync r u) as Hid by auto.
  pose proof HS as HS0. unfold Sync in HS. destruct (th_pc t) as [|c|c p counts as_|c p|c p|c tm| |] eqn:Hpc.
  - injection E as <- <-. destruct HS as (H1 & H2 & H3). unfold activate. destruct (Nat.leb_spec (ex_outputTokens (th_exec t)) 1) as [Hle|Hgt].
    + split; [done|]. assert (ex_outputTokens (th_exec t) - 1 = 0) as Hz by lia. rewrite Hz. unfold Sync, Absent. cbn. by rewrite Hz.
    + split; [apply Hframe; intros id Hne; split_and!; [|done..]; cbn; by rewrite lookup_insert_ne|].
      unfold nextCall. destruct (ex_outputTokens (th_exec t) - 1) as [|k] eqn:Ek; [lia|]. unfold Sync, Decoding. cbn [th_pc th_id th_exec set_pc]. cbn [rg_requests set_requests].
      rewrite lookup_insert_eq. change (joined (set_requests _ r) (th_id t)) with (joined r (th_id t)). change (inStep (set_requests _ r) (th_id t)) with (inStep r (th_id t)).
      rewrite H2, H3, Ek, Nat.sub_diag. split_and!; [lia|lia|done|done].
  - destruct (acquire_ok m iter profiling iter_ok gpus_pos probs_ok r ts t runningReqs now c HI Ht Hpc) as (r1 & x & Hx & Hr).
    rewrite Hx in E. destruct x as [|p|p|p counts as_]; injection E as <- <-.
    + exfalso. destruct HS as (H1 & H2 & _), Hr as [_ [Hn|Hn]]; [congruence|]. assert (th_id t ∈ participantsOf (rg_requests r)) as Hp; [|rewrite Hn in Hp; set_solver].
      apply participants_elem. eexists. split; [exact H2|]. unfold decoding. cbn. apply Nat.ltb_lt. lia.
    + destruct Hr as (-> & Hc & s & Hs & Hin). split; [done|]. split; [done|]. unfold inStep. cbn. rewrite Hc. cbn. rewrite Hs. cbn. by rewrite decide_True.
    + destruct Hr as (-> & _). by split.
    + destruct Hr as (Hc & -> & _ & Hr). assert (∀ u, Sync r u → Sync r1 u) as Hall by (intros u; by apply (Sync_lead r now r1 u Hc Hr)). split; [auto|].
      pose proof (Hall t HS0) as H1. unfold Sync in H1. rewrite Hpc in H1. split; [exact H1|]. destruct (lead_effect r now r1 (th_id t) Hc Hr) as (_ & _ & H2). rewrite decide_True in H2; [by destruct H2|].
      destruct HS as (HS1 & HS2 & _). apply participants_elem. eexists. split; [exact HS2|]. unfold decoding. cbn. apply Nat.ltb_lt. lia.
  - destruct (publishStep p latency r) as [r1|] eqn:Ep; [|done]. destruct (rg_steps r1 !! p) as [s|] eqn:Es; [|done]. injection E as <- <-.
    assert (∀ id, SameFor r r1 id) as Hsame by (intros id; by apply (publish_same p latency)). split; [apply Hframe; auto|].
    assert (ds_generation s = p) as Hg.
    { unfold publishStep in Ep. destruct (rg_steps r !! p) as [s0|] eqn:Es0; [|done]. cbn [mbind option_bind] in Ep. destruct (ds_ready s0); [done|]. injection Ep as <-. cbn [set_steps rg_steps] in Es.
      rewrite list_lookup_insert_eq in Es by by eapply lookup_lt_Some. injection Es as <-. exact (rk_generation _ Hreg p s0 Es0). }
    destruct (Hsame (th_id t)) as (E1 & E2 & E3). unfold Sync, Decoding. cbn. rewrite Hg, E1, E2, E3. exact HS.
  - destruct (rg_steps r !! p) as [s|] eqn:Es; [|done]. destruct (ds_ready s); [|done]. injection E as <- <-. split; [done|].
    unfold Sync. cbn. rewrite (rk_generation _ Hreg p s Es). exact HS.
  - destruct (rg_steps r !! p) as [s|] eqn:Es; [|done]. destruct (ds_done s); [|done]. injection E as <- <-. by split.
  - destruct HS as [HD Hin]. unfold moved in E. destruct (completeDecodeStep _ _ _) as [r1|] eqn:Ec; [|done]. injection E as <- <-.
    destruct (complete_sync r t c tm r1 Hreg HD Hin Ec) as [H1 H2]. split; [by apply Hframe|done].
  - destruct HS as (H1 & H2 & H3). assert (deactivate (th_id t) r = Some (set_requests (delete (th_id t) (rg_requests r)) r)) as Hde.
    { unfold deactivate. cbn [set_requests rg_current rg_steps]. unfold inStep in H3. destruct (rg_current r) as [p|] eqn:Ec; [|done]. cbn [mbind option_bind] in H3.
      destruct (rk_current _ Hreg p Ec) as (s & Hs & _). rewrite Hs in *. cbn [mbind option_bind] in *. by case_decide. }
    rewrite Hde in E. injection E as <- <-. split; [apply Hframe; intros id Hne; split_and!; [|done..]; cbn; by rewrite lookup_delete_ne|].
    unfold Sync, Absent. cbn. rewrite lookup_delete_eq. done.
  - done.
Qed.

(** Distinct ids, and the books of every worker. *)
Definition Books (sy : system) : Prop := NoDup (th_id <$> sy_threads sy) ∧ ∀ t, t ∈ sy_threads sy → Sync (sy_registry sy) t.

Lemma Books_step sy sy' : Inv m sy → Books sy → step m iter profiling sy sy' → Books sy'.
Proof.
  intros HI [Hnd HS] Hst. destruct Hst as [r ts i t rr now lat r' t' Hi E]. cbn [sy_threads sy_registry] in *. pose proof (list_elem_of_lookup_2 _ _ _ Hi) as Ht.
  destruct (threadStep_sync r ts i t rr now lat r' t' HI Hi E (HS t Ht)) as [Ho Hn].
  pose proof (threadStep_ok m iter profiling iter_ok gpus_pos probs_ok r ts i t rr now lat HI Hi) as Hgo. rewrite E in Hgo. split; cbn [sy_threads sy_registry].
  - rewrite list_fmap_insert, (go_id _ _ _ _ Hgo). rewrite list_insert_id; [done|]. by rewrite list_lookup_fmap, Hi.
  - intros u Hu. destruct (elem_insert ts i t t' u Hi Hu) as [->|(j & Hne & Hj)]; [done|]. apply Ho; [|apply HS; by eapply list_elem_of_lookup_2].
    intros Heq. apply Hne. apply (NoDup_lookup (th_id <$> ts) j i (th_id t)); [done|rewrite list_lookup_fmap, Hj; cbn; by rewrite Heq|by rewrite list_lookup_fmap, Hi].
Qed.

Lemma Books_start requests : NoDup requests.*1 → Books (start requests).
Proof.
  intros Hnd. split; cbn [start sy_threads sy_registry].
  - by rewrite <- list_fmap_compose.
  - by intros t (x & -> & _)%list_elem_of_fmap.
Qed.

Section Reachable.
Variable requests : list (string * traceExecution).
Hypothesis requests_fit : ∀ x, x ∈ requests → ExecOk m x.2.
Hypothesis requests_small : (Z.of_nat (length requests) * perToken m < 2 ^ 53)%Z.

Lemma Books_reachable sy : NoDup requests.*1 → rtc (step m iter profiling) (start requests) sy → Inv m sy ∧ Books sy.
Proof.
  intros Hnd H. remember (start requests) as s0 eqn:E. assert (Inv m s0 ∧ Books s0) as H0 by (subst; split; [by apply Inv_start|by apply Books_start]). clear E.
  induction H as [|x y z Hxy _ IH]; [done|]. destruct H0 as [H1 H2]. apply IH. split; [by apply (Inv_step m iter profiling iter_ok gpus_pos probs_ok x)|by eapply Books_step].
Qed.

(** The threads keep their requests. *)
Lemma reachable_threads sy : rtc (step m iter profiling) (start requests) sy → ((λ t, (th_id t, th_exec t)) <$> sy_threads sy) = requests.
Proof.
  intros H. assert (((λ t, (th_id t, th_exec t)) <$> sy_threads (start requests)) = requests) as H0.
  { cbn. rewrite <- list_fmap_compose. rewrite <- (list_fmap_id requests) at 2. apply list_fmap_ext. intros ? [? ?]; done. }
  assert (Inv m (start requests)) as HI by by apply Inv_start. revert H0. induction H as [|x y z Hxy _ IH]; [done|]. intros H0. apply IH; [by apply (Inv_step m iter profiling iter_ok gpus_pos probs_ok x)|].
  destruct Hxy as [r ts i t rr now lat r' t' Hi E]. cbn [sy_threads] in *. pose proof (threadStep_ok m iter profiling iter_ok gpus_pos probs_ok r ts i t rr now lat HI Hi) as Hgo. rewrite E in Hgo.
  rewrite list_fmap_insert, (go_id _ _ _ _ Hgo), (go_exec _ _ _ _ Hgo), list_insert_id; [done|]. by rewrite list_lookup_fmap, Hi.
Qed.

End Reachable.
End Served.

(** A chat request that was bound to a recorded prompt of the model can be replayed. *)
Lemma bound_exec_ok m store echo lora maxModelLen req req' ex :
  (∀ tp, tp ∈ st_prompts store → PromptShape m (tp_data tp) ∧ RoutesValid m (tp_data tp)) →
  cc_trace req = None → bindTraceChatRequest (Some store) echo lora maxModelLen req = Ok req' → cc_trace req' = Some ex → ExecOk m ex.
Proof.
  intros Hst Hno. unfold bindTraceChatRequest. destruct (cc_TracePromptID req) as [id|]; [|intros [= <-]; congruence].
  destruct echo; [done|]. destruct lora; [done|]. destruct (cc_SendImage req); [done|].
  destruct (Z.leb_spec 0 id) as [Hid|]; [|done]. destruct (st_prompts store !! Z.to_nat id) as [tp|] eqn:Etp; [|done]. destruct (Hst tp ltac:(by eapply list_elem_of_lookup_2)) as [Hsh Hr].
  unfold replayLength. destruct (Requests.MaxTokens (cc_base req)) as [max|] eqn:Em.
  - destruct (Z.ltb_spec max 1); [done|]. destruct (Z.ltb_spec (Z.of_nat (length (pd_DecodeTokenIDs (tp_data tp)))) max); [done|].
    cbn [res_bind]. destruct (maxModelLen <? _)%Z eqn:El; [done|]. intros [= <-]. cbn. intros [= <-]. constructor; cbn; [done|done|lia].
  - cbn [res_bind]. destruct (maxModelLen <? _)%Z eqn:El; [done|]. intros [= <-]. cbn. intros [= <-]. constructor; cbn; [done|done|lia].
Qed.

(** ** An example: two requests that replay the same recorded prompt *)

Definition params_reg : moeParams :=
  mkParams 2 3 4 2 1 MoERouterSplit false (f_of_Z (10 ^ 12)) (f_of_Z (10 ^ 11)) (f_of_Z (10 ^ 10)) 5000
    (f_of_Z 12288) (f_of_Z 12288) (f_of_Z 320) (f_of_Z 128) [f_const 5 10; f_const 3 10; f_const 2 10].
Definition requests_ex : list (string * traceExecution) := [("a"%string, execution_ex); ("b"%string, execution_ex)].
Definition iter_ex : gmap string activeTraceRequest → list (string * activeTraceRequest) := map_to_list.

(** The workers at the given indices move in turn. *)
Fixpoint runSchedule (l : list nat) (sy : system) : option system :=
  match l with
  | [] => Some sy
  | i :: l =>
      t ← sy_threads sy !! i;
      match threadStep params_reg iter_ex false 2 100 7 (sy_registry sy) t with
      | Moved r t' => runSchedule l (mkSystem r (<[i := t']> (sy_threads sy)))
      | _ => None
      end
  end.

Lemma runSchedule_nsteps l sy sy' : runSchedule l sy = Some sy' → nsteps (step params_reg iter_ex false) (length l) sy sy'.
Proof.
  revert sy. induction l as [|i l IH]; intros [r ts] H; [injection H as <-; constructor|]. cbn [runSchedule sy_threads sy_registry] in H. destruct (ts !! i) as [t|] eqn:Hi; [|done].
  cbn [mbind option_bind] in H. destruct (threadStep _ _ _ _ _ _ r t) as [| |r' t'] eqn:E; [done..|]. cbn. econstructor; [by eapply (step_thread _ _ _ r ts i t 2 100 7 r' t')|by apply IH].
Qed.

Lemma requests_ex_ok : IterOk iter_ex ∧ 0 < numGPUs params_reg ∧ length (probabilities params_reg) = numExperts params_reg ∧
  (∀ x, x ∈ requests_ex → ExecOk params_reg x.2) ∧ (Z.of_nat (length requests_ex) * perToken params_reg < 2 ^ 53)%Z ∧ NoDup requests_ex.*1.
Proof.
  split_and!; [by intros q|cbn; lia|done| |done|apply (bool_decide_unpack (NoDup _)); vm_compute; exact I].
  destruct prompt_ex_ok as ([H1 H2] & H3 & _). intros x [-> |[-> |[]%not_elem_of_nil]%elem_of_cons]%elem_of_cons; (constructor; [by constructor|exact H3|cbn; lia]).
Qed.

(** * Theorems *)

(** Whatever the interleaving, no section of a worker panics (no index is out of
    range, no channel is closed twice), and until all workers have left at least one of
    them can move: the shared steps never deadlock. *)
Theorem registry_never_stuck m iter profiling requests sy :
  IterOk iter → 0 < numGPUs m → length (probabilities m) = numExperts m →
  (∀ x, x ∈ requests → ExecOk m x.2) → (Z.of_nat (length requests) * perToken m < 2 ^ 53)%Z →
  rtc (step m iter profiling) (start requests) sy →
  (∀ t runningReqs now latency, t ∈ sy_threads sy → threadStep m iter profiling runningReqs now latency (sy_registry sy) t ≠ Panics) ∧
  (finished sy ∨ ∃ sy', step m iter profiling sy sy').
Proof.
  intros Hit Hg Hp Hfit Hsm Hr. assert (Inv m sy) as HI by by eapply registry_reachable. split; [|by apply system_progress].
  intros t rr now lat [i Hi]%list_elem_of_lookup Hpan. destruct sy as [r ts]. pose proof (threadStep_ok m iter profiling Hit Hg Hp r ts i t rr now lat HI Hi) as H. cbn in Hpan. by rewrite Hpan in H.
Qed.

Lemma registry_never_stuck_witness :
  ∃ sy, runSchedule [0; 1; 0; 1; 0; 1] (start requests_ex) = Some sy ∧ (finished sy ∨ ∃ sy', step params_reg iter_ex false sy sy').
Proof.
  destruct requests_ex_ok as (H1 & H2 & H3 & H4 & H5 & _). destruct (runSchedule [0; 1; 0; 1; 0; 1] (start requests_ex)) as [sy|] eqn:E; [|vm_compute in E; discriminate E].
  exists sy. split; [reflexivity|]. apply (registry_never_stuck params_reg iter_ex false requests_ex sy H1 H2 H3 H4 H5).
  apply rtc_nsteps. exists 6. exact (runSchedule_nsteps _ _ _ E).
Defined.

(** C16: every run is finite, with at most
    [(4 N + 3) (n - 1) + 4 N + 7] sections per request of [n] output tokens among [N]
    requests, and every state reached can be run to the end. *)
Theorem registry_terminates m iter profiling requests k sy :
  IterOk iter → 0 < numGPUs m → length (probabilities m) = numExperts m →
  (∀ x, x ∈ requests → ExecOk m x.2) → (Z.of_nat (length requests) * perToken m < 2 ^ 53)%Z →
  nsteps (step m iter profiling) k (start requests) sy →
  k ≤ sum_list_with (λ x, (ex_outputTokens x.2 - 1) * (4 * length requests + 3) + 4 * length requests + 7) requests ∧
  ∃ sy', rtc (step m iter profiling) sy sy' ∧ finished sy'.
Proof.
  intros Hit Hg Hp Hfit Hsm Hr. assert (Inv m (start requests)) as H0 by by apply Inv_start. split.
  - pose proof (run_bounded m iter profiling Hit Hg Hp k _ _ H0 Hr) as Hb. assert (work (start requests) = sum_list_with (λ x, (ex_outputTokens x.2 - 1) * (4 * length requests + 3) + 4 * length requests + 7) requests) as <-; [|lia].
    unfold work. cbn [start sy_threads sy_registry]. rewrite length_fmap. generalize (length requests) as N. intros N. clear. induction requests as [|x l IH]; [done|].
    cbn [fmap list_fmap sum_list_with]. rewrite IH. f_equal. unfold rank. cbn. lia.
  - apply (finishes m iter profiling Hit Hg Hp). eapply registry_reachable; try done. eapply rtc_nsteps. by exists k.
Qed.

Lemma registry_terminates_witness :
  ∃ sy, runSchedule [0; 1; 0; 1; 0; 1] (start requests_ex) = Some sy ∧ ∃ sy', rtc (step params_reg iter_ex false) sy sy' ∧ finished sy'.
Proof.
  destruct requests_ex_ok as (H1 & H2 & H3 & H4 & H5 & _). destruct (runSchedule [0; 1; 0; 1; 0; 1] (start requests_ex)) as [sy|] eqn:E; [|vm_compute in E; discriminate E].
  exists sy. split; [reflexivity|]. exact (proj2 (registry_terminates params_reg iter_ex false requests_ex 6 sy H1 H2 H3 H4 H5 (runSchedule_nsteps _ _ _ E))).
Defined.

(** With distinct request ids, all workers that are inside a step hold the same
    timing, that of the current step: every request active when a forward started gets
    the same modelled latency, and none enters its next forward before all participants
    have completed the current one. *)
Theorem registry_lockstep m iter profiling requests sy t u c c' tm tm' :
  IterOk iter → 0 < numGPUs m → length (probabilities m) = numExperts m →
  (∀ x, x ∈ requests → ExecOk m x.2) → (Z.of_nat (length requests) * perToken m < 2 ^ 53)%Z → NoDup requests.*1 →
  rtc (step m iter profiling) (start requests) sy →
  t ∈ sy_threads sy → u ∈ sy_threads sy → th_pc t = Holding c tm → th_pc u = Holding c' tm' →
  tm = tm' ∧ rg_current (sy_registry sy) = Some (tm_generation tm).
Proof.
  intros Hit Hg Hp Hfit Hsm Hnd Hr Ht Hu Htp Hup. destruct (Books_reachable m iter profiling Hit Hg Hp requests Hfit Hsm sy Hnd Hr) as [HI [_ HB]].
  assert (∀ v c tm, v ∈ sy_threads sy → th_pc v = Holding c tm → rg_current (sy_registry sy) = Some (tm_generation tm) ∧
    ∃ s, rg_steps (sy_registry sy) !! tm_generation tm = Some s ∧ tm = timingOf s) as H.
  { intros v k w Hv Hw. pose proof (HB v Hv) as HS. unfold Sync in HS. rewrite Hw in HS. destruct HS as [_ Hin]. pose proof (iv_thread _ _ HI v Hv) as Hok. unfold ThreadOk in Hok. rewrite Hw in Hok.
    destruct Hok as [_ (s & Hs & _ & Hts)]. split; [|eauto]. unfold inStep in Hin. destruct (rg_current _) as [p|]; [|done]. cbn [mbind option_bind] in Hin.
    destruct (rg_steps _ !! p); [|done]. cbn [mbind option_bind] in Hin. case_decide; [done|done]. }
  destruct (H t c tm Ht Htp) as (H1 & s1 & Hs1 & E1), (H u c' tm' Hu Hup) as (H2 & s2 & Hs2 & E2). split; [|done].
  rewrite H1 in H2. injection H2 as H2. rewrite H2 in Hs1. rewrite Hs1 in Hs2. injection Hs2 as <-. by rewrite E1, E2.
Qed.

Lemma registry_lockstep_witness :
  ∃ sy t u tm, runSchedule [0; 1; 0; 1; 0; 1] (start requests_ex) = Some sy ∧ sy_threads sy = [t; u] ∧
    th_pc t = Holding 1 tm ∧ th_pc u = Holding 1 tm ∧ tm = mkTiming 0 7 107 ∧ rg_current (sy_registry sy) = Some 0.
Proof.
  destruct requests_ex_ok as (H1 & H2 & H3 & H4 & H5 & H6). destruct (runSchedule [0; 1; 0; 1; 0; 1] (start requests_ex)) as [sy|] eqn:E; [|vm_compute in E; discriminate E].
  assert (rtc (step params_reg iter_ex false) (start requests_ex) sy) as Hr by (apply rtc_nsteps; exists 6; exact (runSchedule_nsteps _ _ _ E)).
  assert (th_pc <$> sy_threads sy = [Holding 1 (mkTiming 0 7 107); Holding 1 (mkTiming 0 7 107)]) as Hpc.
  { assert ((λ s, th_pc <$> sy_threads s) <$> runSchedule [0; 1; 0; 1; 0; 1] (start requests_ex) = Some [Holding 1 (mkTiming 0 7 107); Holding 1 (mkTiming 0 7 107)]) as H by (vm_compute; reflexivity).
    rewrite E in H. by injection H. }
  destruct (sy_threads sy) as [|t [|u [|]]] eqn:Et; try discriminate Hpc. injection Hpc as Ht Hu. exists sy, t, u, (mkTiming 0 7 107).
  destruct (registry_lockstep params_reg iter_ex false requests_ex sy t u 1 1 (mkTiming 0 7 107) (mkTiming 0 7 107)) as [_ Hc]; try done; rewrite Et; set_solver.
Defined.

(** C3: with distinct request ids, when all workers have left, every request has taken
    part in exactly one step per output token after the first. *)
Theorem registry_serves_all m iter profiling requests sy :
  IterOk iter → 0 < numGPUs m → length (probabilities m) = numExperts m →
  (∀ x, x ∈ requests → ExecOk m x.2) → (Z.of_nat (length requests) * perToken m < 2 ^ 53)%Z → NoDup requests.*1 →
  rtc (step m iter profiling) (start requests) sy → finished sy →
  (∀ x, x ∈ requests → joined (sy_registry sy) x.1 = ex_outputTokens x.2 - 1) ∧ rg_current (sy_registry sy) = None ∧ dom (rg_requests (sy_registry sy)) = ∅.
Proof.
  intros Hit Hg Hp Hfit Hsm Hnd Hr Hfin. destruct (Books_reachable m iter profiling Hit Hg Hp requests Hfit Hsm sy Hnd Hr) as [HI [_ HB]].
  assert (∀ t, t ∈ sy_threads sy → ¬ live t) as Hdead by (intros t Ht; unfold live; rewrite (Hfin t Ht); intros []). split_and!.
  - intros x Hx. rewrite <- (reachable_threads m iter profiling Hit Hg Hp requests Hfit Hsm sy Hr) in Hx. apply list_elem_of_fmap in Hx as (t & -> & Ht).
    pose proof (HB t Ht) as HS. unfold Sync in HS. rewrite (Hfin t Ht) in HS. by destruct HS as (_ & HS & _).
  - destruct (rg_current (sy_registry sy)) as [p|] eqn:Ec; [|done]. destruct (rk_current _ (iv_reg _ _ HI) p Ec) as (s & Hs & _ & Hrem & _). apply set_choose_L in Hrem as [id Hid].
    destruct (iv_remaining _ _ HI p s id Ec Hs Hid) as (t & Ht & Hl & _). by destruct (Hdead t Ht Hl).
  - apply set_eq. intros id. split; [|set_solver]. intros [a Ha]%elem_of_dom. destruct (iv_requests _ _ HI id a Ha) as (t & Ht & Hl & _). by destruct (Hdead t Ht Hl).
Qed.

Lemma registry_serves_all_witness :
  ∃ sy, runSchedule [0; 1; 0; 1; 0; 1; 1; 0; 0; 1] (start requests_ex) = Some sy ∧ joined (sy_registry sy) "b" = 1.
Proof.
  destruct requests_ex_ok as (H1 & H2 & H3 & H4 & H5 & H6). destruct (runSchedule [0; 1; 0; 1; 0; 1; 1; 0; 0; 1] (start requests_ex)) as [sy|] eqn:E; [|vm_compute in E; discriminate E].
  exists sy. split; [reflexivity|]. assert (rtc (step params_reg iter_ex false) (start requests_ex) sy) as Hr by (apply rtc_nsteps; exists 10; exact (runSchedule_nsteps _ _ _ E)).
  assert (th_pc <$> sy_threads sy = [Exited; Exited]) as Hpc.
  { assert ((λ s, th_pc <$> sy_threads s) <$> runSchedule [0; 1; 0; 1; 0; 1; 1; 0; 0; 1] (start requests_ex) = Some [Exited; Exited]) as H by (vm_compute; reflexivity).
    rewrite E in H. by injection H. }
  apply (registry_serves_all params_reg iter_ex false requests_ex sy H1 H2 H3 H4 H5 H6 Hr) with (x := ("b"%string, execution_ex)); [|set_solver].
  intros t Ht. apply (list_elem_of_fmap_2 th_pc) in Ht. rewrite Hpc in Ht. set_solver.
Defined.

End TraceRegistryServed.
