(* ===== verification/TracePrefill.v ===== *)
(** The prefill batcher of the trace replay ([tracePrefillBatcher] of
    [pkg/simulator/moe_trace_fidelity.go]): requests queue their uncached prompt tokens,
    and one processor goroutine at a time serves the queue in forwards of bounded size.
    Each locked section is one atomic operation, and so is the work between two of them,
    which touches only what the processor owns (position and elapsed time of the jobs it
    has taken).  [None] is a panic. *)

From S2P Require Import Prelude GoFloat TraceFormat TraceFile Moe Requests TraceText TraceWorkload TraceFidelity TraceVirtual.
Import TraceFormat TraceFile Moe TraceText TraceWorkload TraceFidelity TraceVirtual.
Open Scope nat_scope.

Module TracePrefill.

(** * Jobs and the queue *)

(** A job; [pj_done] is the value sent on its channel. *)
Record tracePrefillJob := mkJob {
  pj_execution : traceExecution; pj_position : nat; pj_end : nat; pj_elapsed : Z; pj_done : option Z }.

(** The jobs that were ever queued, by pointer, and the queue of pointers. *)
Record tracePrefillBatcher := mkBatcher {
  pb_jobs : list tracePrefillJob; pb_pending : list nat; pb_running : bool; pb_maxTokens : Z; pb_coalesce : Z }.

Definition tracePrefillBatcherFor (f : traceFidelityConfig) : tracePrefillBatcher := mkBatcher [] [] false (prefillBatchTokens f) (prefillCoalesce f).

Definition set_jobs (l : list tracePrefillJob) (b : tracePrefillBatcher) : tracePrefillBatcher :=
  mkBatcher l (pb_pending b) (pb_running b) (pb_maxTokens b) (pb_coalesce b).
Definition set_pending (l : list nat) (b : tracePrefillBatcher) : tracePrefillBatcher :=
  mkBatcher (pb_jobs b) l (pb_running b) (pb_maxTokens b) (pb_coalesce b).
Definition set_running (r : bool) (b : tracePrefillBatcher) : tracePrefillBatcher :=
  mkBatcher (pb_jobs b) (pb_pending b) r (pb_maxTokens b) (pb_coalesce b).

(** [traceBatchedPrefillLatency] up to the wait for the result: [None] when the latency
    is zero without a job, else the new job, queued, and whether the caller starts the
    processor. *)
Definition enqueuePrefill (ex : traceExecution) (cachedPromptTokens : Z) (b : tracePrefillBatcher) : option (tracePrefillBatcher * bool) :=
  let inputTokens := length (pd_InputTokenIDs (tp_data (ex_prompt ex))) in
  let cached := Z.max cachedPromptTokens 0 in
  if (Z.of_nat inputTokens <=? cached)%Z then None
  else
    let ptr := length (pb_jobs b) in
    let leader := negb (pb_running b) in
    Some (set_running true (set_pending (pb_pending b ++ [ptr]) (set_jobs (pb_jobs b ++ [mkJob ex (Z.to_nat cached) inputTokens 0 None]) b)), leader).

(** * One forward *)

Definition set_position (n : nat) (j : tracePrefillJob) : tracePrefillJob := mkJob (pj_execution j) n (pj_end j) (pj_elapsed j) (pj_done j).
Definition add_elapsed (d : Z) (j : tracePrefillJob) : tracePrefillJob := mkJob (pj_execution j) (pj_position j) (pj_end j) (pj_elapsed j + d) (pj_done j).
Definition send_done (j : tracePrefillJob) : tracePrefillJob := mkJob (pj_execution j) (pj_position j) (pj_end j) (pj_elapsed j) (Some (pj_elapsed j)).

(** The forward under construction. *)
Record prefillBatch := mkBatch {
  bt_jobs : list tracePrefillJob; bt_counts : moeLayerCounts; bt_assignments : option assignmentTable; bt_budget : nat;
  bt_completed : gset nat; bt_requestIDs : list Z }.

(** The share of one job of the snapshot. *)
Definition batchJob (m : moeParams) (st : prefillBatch) (ptr : nat) : option prefillBatch :=
  if bt_budget st =? 0 then Some st
  else
    job ← bt_jobs st !! ptr;
    if pj_end job <=? pj_position job then
      Some (mkBatch (bt_jobs st) (bt_counts st) (bt_assignments st) (bt_budget st) ({[ptr]} ∪ bt_completed st) (bt_requestIDs st))
    else
      let take := min (pj_end job - pj_position job) (bt_budget st) in
      let start := Z.of_nat (pj_position job) in
      let stop := Z.of_nat (pj_position job + take) in
      counts ← addTracePrefillRange m (tp_data (ex_prompt (pj_execution job))) start stop (bt_counts st);
      assignments ← match bt_assignments st with
                    | None => Some None
                    | Some t => Some <$> addTracePrefillProfileAssignments m (pj_execution job) start stop t
                    end;
      let requestID := ex_promptID (pj_execution job) in
      let job := set_position (pj_position job + take) job in
      Some (mkBatch (<[ptr := job]> (bt_jobs st)) counts assignments (bt_budget st - take)
              (if pj_end job <=? pj_position job then {[ptr]} ∪ bt_completed st else bt_completed st)
              (if decide (requestID ∈ bt_requestIDs st) then bt_requestIDs st else bt_requestIDs st ++ [requestID])).

Definition effectiveMaxTokens (b : tracePrefillBatcher) : Z := if (pb_maxTokens b <? 1)%Z then defaultTracePrefillBatchTokens else pb_maxTokens b.

(** The forward of a snapshot of the queue; assignments are recorded for distributed
    routing and for the profiler. *)
Definition batchForward (m : moeParams) (profiling : bool) (snapshot : list nat) (b : tracePrefillBatcher) : option prefillBatch :=
  foldM (batchJob m)
    (mkBatch (pb_jobs b) (newMoELayerCounts (numLayers m) (numExperts m))
       (if profiling || useDistributedRouting m then Some (replicate (numLayers m) []) else None)
       (Z.to_nat (effectiveMaxTokens b)) ∅ []) snapshot.

Definition chargeAll (latency : Z) (snapshot : list nat) (jobs : list tracePrefillJob) : list tracePrefillJob :=
  foldl (λ jobs ptr, alter (add_elapsed latency) ptr jobs) jobs snapshot.

(** Completed jobs leave the queue with their elapsed time as result. *)
Definition retire (completed : gset nat) (b : tracePrefillBatcher) : tracePrefillBatcher :=
  set_pending (filter (λ ptr, ptr ∉ completed) (pb_pending b))
    (set_jobs (foldl (λ jobs ptr, alter send_done ptr jobs) (pb_jobs b) (filter (λ ptr, ptr ∈ completed) (pb_pending b))) b).

(** * The processor *)

(** Where [process] is: not running, before its sleep or at the head of its loop, with a
    snapshot, or with a forward whose completed jobs are to be retired. *)
Inductive processor := Off | Looping | Taken (snapshot : list nat) | Ran (completed : gset nat).

#[global] Instance processor_eq_dec : EqDecision processor.
Proof. solve_decision. Defined.

(** The batcher with its processor.  Two fields only record history: the first prompt
    position of every job, and the expert counts of every forward. *)
Record prefillSystem := mkPrefillSystem {
  px_batcher : tracePrefillBatcher; px_processor : processor; px_starts : list nat; px_forwards : list moeLayerCounts }.

Inductive processed := PNone | PPanics | PMoved (s : prefillSystem).

(** The next section of [process]; the latency of a forward is any value. *)
Definition processStep (m : moeParams) (profiling : bool) (latency : Z) (s : prefillSystem) : processed :=
  let b := px_batcher s in
  match px_processor s with
  | Off => PNone
  | Looping =>
      if length (pb_pending b) =? 0 then PMoved (mkPrefillSystem (set_running false b) Off (px_starts s) (px_forwards s))
      else PMoved (mkPrefillSystem b (Taken (pb_pending b)) (px_starts s) (px_forwards s))
  | Taken snapshot =>
      match batchForward m profiling snapshot b with
      | None => PPanics
      | Some st => PMoved (mkPrefillSystem (set_jobs (chargeAll latency snapshot (bt_jobs st)) b) (Ran (bt_completed st)) (px_starts s) (px_forwards s ++ [bt_counts st]))
      end
  | Ran completed => PMoved (mkPrefillSystem (retire completed b) Looping (px_starts s) (px_forwards s))
  end.

(** A request queues its prompt, at any time. *)
Definition submit (ex : traceExecution) (cachedPromptTokens : Z) (s : prefillSystem) : prefillSystem :=
  match enqueuePrefill ex cachedPromptTokens (px_batcher s) with
  | None => s
  | Some (b, leader) => mkPrefillSystem b (if leader then Looping else px_processor s) (px_starts s ++ [Z.to_nat (Z.max cachedPromptTokens 0)]) (px_forwards s)
  end.

Inductive prefillStep (m : moeParams) (profiling : bool) (fits : traceExecution → Prop) : prefillSystem → prefillSystem → Prop :=
| prefill_submit ex cached s : fits ex → prefillStep m profiling fits s (submit ex cached s)
| prefill_process latency s s' : processStep m profiling latency s = PMoved s' → prefillStep m profiling fits s s'.

(** The processor alone. *)
Inductive workStep (m : moeParams) (profiling : bool) : prefillSystem → prefillSystem → Prop :=
| work_process latency s s' : processStep m profiling latency s = PMoved s' → workStep m profiling s s'.

End TracePrefill.
