(* ===== verification/TracePrefillProps.v ===== *)
(** The prefill batcher serves every queued prompt token exactly once, in forwards of
    bounded size and in queue order, and comes to rest with every job answered. *)

From S2P Require Import Prelude Sums GoFloat GoFloatInt TraceFormat TraceFile Moe Requests TraceText TraceWorkload TraceWorkloadProps TraceFidelity TraceVirtual TraceVirtualInv TracePrefill.
Import TraceFormat TraceFile Moe TraceText TraceWorkload TraceWorkloadProps TraceFidelity TraceVirtual TraceVirtualInv TracePrefill.
Open Scope nat_scope.

Module TracePrefillProps.

Section Batcher.
Variable m : moeParams.
Variable profiling : bool.
Hypothesis gpus_pos : 0 < numGPUs m.

(** A prompt of the model. *)
Definition Fits (ex : traceExecution) : Prop := PromptShape m (tp_data (ex_prompt ex)) ∧ RoutesValid m (tp_data (ex_prompt ex)).

Lemma batchAssignments_ok ex a b t :
  PromptShape m (tp_data (ex_prompt ex)) → (0 ≤ a)%Z → (b ≤ Z.of_nat (length (pd_InputTokenIDs (tp_data (ex_prompt ex)))))%Z → length t = numLayers m →
  ∃ t', addTracePrefillProfileAssignments m ex a b t = Some t' ∧ length t' = numLayers m.
Proof.
  intros Hs Ha Hb Ht. unfold addTracePrefillProfileAssignments, clampStart, clampEnd. destruct (Nat.eqb_spec (length t) 0); [eauto|].
  destruct (Z.ltb_spec a 0); [lia|]. destruct (Z.ltb_spec (Z.of_nat (length (pd_InputTokenIDs (tp_data (ex_prompt ex))))) b); [lia|].
  eapply foldM_rows; [done|]. intros layer t1 Hl%elem_of_seq Ht1. eapply foldM_rows; [done|]. intros position t2 Hp%positions_elem Ht2. eapply foldM_rows; [done|].
  intros index t3 Hi%elem_of_seq Ht3. pose proof (prefill_range_in m (tp_data (ex_prompt ex)) layer position Hs ltac:(lia) ltac:(lia)) as Hr.
  destruct (lookup_lt_is_Some_2 (pd_PrefillRoutes (tp_data (ex_prompt ex))) ((layer * length (pd_InputTokenIDs (tp_data (ex_prompt ex))) + position) * Z.to_nat (topK m) + index)) as [e ->]; [lia|].
  destruct (lookup_lt_is_Some_2 t3 layer) as [row Hrow]; [lia|]. unfold defaultSource. destruct (Nat.eqb_spec (numGPUs m) 0); [lia|]. cbn [mbind option_bind]. rewrite Hrow. cbn [mbind option_bind].
  eexists. split; [done|]. by rewrite length_insert.
Qed.

(** * What has been served *)

Definition jobUses (l e : nat) (x : nat * tracePrefillJob) : Z :=
  uses (prefillEvents m (tp_data (ex_prompt (pj_execution x.2))) (positions (Z.of_nat x.1) (Z.of_nat (pj_position x.2)))) l e.

Definition servedUses (starts : list nat) (jobs : list tracePrefillJob) (l e : nat) : Z := total (jobUses l e) (zip starts jobs).

Definition tokensLeft (jobs : list tracePrefillJob) : Z := total (λ j, Z.of_nat (pj_end j - pj_position j)) jobs.

Record JobOk (start : nat) (j : tracePrefillJob) : Prop := mkJobOk {
  jo_fits : Fits (pj_execution j);
  jo_end : pj_end j = length (pd_InputTokenIDs (tp_data (ex_prompt (pj_execution j))));
  jo_pos : start ≤ pj_position j ≤ pj_end j }.

Definition JobsOk (starts : list nat) (jobs : list tracePrefillJob) : Prop := Forall2 JobOk starts jobs.

Lemma zip_insert_r {A B} (l : list A) (k : list B) i x y : l !! i = Some x → zip l (<[i := y]> k) = <[i := (x, y)]> (zip l k).
Proof. intros H. rewrite insert_zip_with. by rewrite (list_insert_id l i x). Qed.

(** A job whose position advances. *)
Lemma advance_job starts jobs p s j n :
  JobsOk starts jobs → starts !! p = Some s → jobs !! p = Some j → pj_position j + n ≤ pj_end j →
  let jobs' := <[p := set_position (pj_position j + n) j]> jobs in
  JobsOk starts jobs' ∧ tokensLeft jobs' = (tokensLeft jobs - Z.of_nat n)%Z ∧
  ∀ l e, servedUses starts jobs' l e =
    (servedUses starts jobs l e + uses (prefillEvents m (tp_data (ex_prompt (pj_execution j))) (positions (Z.of_nat (pj_position j)) (Z.of_nat (pj_position j + n)))) l e)%Z.
Proof.
  intros HJ Hs Hj Hn. cbv zeta. destruct (Forall2_lookup_lr _ _ _ _ _ _ HJ Hs Hj) as [Hf He Hp]. split_and!.
  - rewrite <- (list_insert_id starts p s) by done. apply Forall2_insert; [done|]. constructor; cbn; [done|done|lia].
  - unfold tokensLeft. rewrite (total_insert _ jobs p j) by done. cbn. lia.
  - intros l e. unfold servedUses. rewrite zip_insert_r with (x := s) by done. rewrite (total_insert _ _ p (s, j)) by (rewrite lookup_zip_with, Hs; cbn; by rewrite Hj).
    unfold jobUses at 2 3. cbn [fst snd set_position pj_position pj_execution]. rewrite (positions_split (Z.of_nat s) (Z.of_nat (pj_position j)) (Z.of_nat (pj_position j + n))) by lia.
    rewrite prefillEvents_app. lia.
Qed.

(** * One forward *)

Section Forward.
Variable starts : list nat.
Variable jobs0 : list tracePrefillJob.
Variable budget0 : nat.
Hypothesis jobs_ok : JobsOk starts jobs0.
Hypothesis budget_pos : 0 < budget0.
Hypothesis budget_small : (Z.of_nat budget0 * perToken m < 2 ^ 53)%Z.

Record BatchInv (seen : list nat) (st : prefillBatch) (f : nat → nat → Z) : Prop := mkBatchInv {
  bi_jobs : JobsOk starts (bt_jobs st);
  bi_rest : ∀ p, p ∉ seen → bt_jobs st !! p = jobs0 !! p;
  bi_seen : ∀ p j, jobs0 !! p = Some j → ∃ n, bt_jobs st !! p = Some (set_position n j);
  bi_completed : ∀ p, p ∈ bt_completed st ↔ p ∈ seen ∧ ∃ j, bt_jobs st !! p = Some j ∧ pj_position j = pj_end j;
  bi_counts : bt_counts st = tableOf (numLayers m) (numExperts m) f;
  bi_uses : ∀ l e, servedUses starts (bt_jobs st) l e = (servedUses starts jobs0 l e + f l e)%Z ∧ (0 ≤ f l e ≤ Z.of_nat (budget0 - bt_budget st) * perToken m)%Z;
  bi_table : TableOk m (bt_assignments st);
  bi_budget : bt_budget st ≤ budget0 ∧ tokensLeft (bt_jobs st) = (tokensLeft jobs0 - Z.of_nat (budget0 - bt_budget st))%Z;
  bi_progress : seen ≠ [] → bt_budget st < budget0;
  bi_order : bt_budget st = 0 ∨ ∀ p, p ∈ seen → p ∈ bt_completed st }.

Lemma batchJob_ok seen p st f s j :
  BatchInv seen st f → p ∉ seen → starts !! p = Some s → jobs0 !! p = Some j → pj_position j < pj_end j →
  ∃ st' f', batchJob m st p = Some st' ∧ BatchInv (seen ++ [p]) st' f'.
Proof.
  intros HI Hp Hs Hj Hlt. pose proof HI as [Bj Br Bs Bc Bt Bu Ba [Bb Bl] Bp Bo]. unfold batchJob. destruct (Nat.eqb_spec (bt_budget st) 0) as [H0|H0].
  { exists st, f. split; [done|]. constructor; try done; [intros q Hq; apply Br; set_solver| |intros _; lia|by left].
    intros q. rewrite Bc. split; [intros [? ?]; split; [set_solver|done]|]. intros [Hq (j' & Hj' & He)]. split; [|eauto]. apply elem_of_app in Hq as [Hq|Hq%list_elem_of_singleton]; [done|subst q].
    rewrite Br, Hj in Hj' by done. injection Hj' as <-. lia. }
  rewrite Br, Hj by done. cbn [mbind option_bind]. destruct (Nat.leb_spec (pj_end j) (pj_position j)); [lia|].
  set (n := min (pj_end j - pj_position j) (bt_budget st)). assert (bt_jobs st !! p = Some j) as Hj' by by rewrite Br.
  destruct (Forall2_lookup_lr _ _ _ _ _ _ jobs_ok Hs Hj) as [[Hsh Hv] He Hpos].
  assert (0 < n ∧ n ≤ bt_budget st ∧ pj_position j + n ≤ pj_end j) as (Hn1 & Hn2 & Hn3) by lia. assert (0 ≤ perToken m)%Z as Hpt by (unfold perToken; lia).
  rewrite Bt, prefill_range_exact; [|done|done|lia|rewrite <- He; lia|].
  2: { intros l e. destruct (Bu l e) as [_ [B1 B2]]. split; [done|]. replace (Z.to_nat (Z.of_nat (pj_position j + n) - Z.of_nat (pj_position j))) with n by lia.
       assert (Z.of_nat (numLayers m * (n * Z.to_nat (topK m))) = Z.of_nat n * perToken m)%Z as -> by (unfold perToken; lia). nia. }
  cbn [mbind option_bind]. set (u := prefillEvents m _ _).
  assert (∀ l e, 0 ≤ uses u l e ≤ Z.of_nat n * perToken m)%Z as Hu.
  { intros l e. pose proof (uses_bound u l e) as Hb. assert (length u = numLayers m * (length (positions (Z.of_nat (pj_position j)) (Z.of_nat (pj_position j + n))) * Z.to_nat (topK m))) as Hlen.
    { apply prefillEvents_length; [done|intros i Hi%positions_elem; rewrite <- He; lia]. }
    unfold positions in Hlen. rewrite length_seq in Hlen. replace (Z.to_nat (Z.of_nat (pj_position j + n) - Z.of_nat (pj_position j))) with n in Hlen by lia. unfold perToken. nia. }
  destruct (advance_job starts (bt_jobs st) p s j n Bj Hs Hj' Hn3) as (A1 & A2 & A3). pose proof (lookup_lt_Some _ _ _ Hj') as Hltp.
  assert (∃ t', match bt_assignments st with None => Some None | Some t => Some <$> addTracePrefillProfileAssignments m (pj_execution j) (Z.of_nat (pj_position j)) (Z.of_nat (pj_position j + n)) t end = Some t' ∧ TableOk m t')
    as (t' & -> & Ht').
  { destruct (bt_assignments st) as [t|]; [|by exists None]. destruct (batchAssignments_ok (pj_execution j) (Z.of_nat (pj_position j)) (Z.of_nat (pj_position j + n)) t) as (t' & -> & Hl); [done|lia|rewrite <- He; lia|done|].
    by exists (Some t'). }
  cbn [mbind option_bind]. eexists _, (λ l e, f l e + uses u l e)%Z. split; [reflexivity|]. constructor; cbn [bt_jobs bt_counts bt_assignments bt_budget bt_completed]; try done.
  - intros q Hq. rewrite list_lookup_insert_ne by set_solver. apply Br. set_solver.
  - intros q j0 Hj0. destruct (decide (q = p)) as [->|Hne]; [rewrite list_lookup_insert_eq by done; rewrite Hj in Hj0; injection Hj0 as <-; eauto|]. rewrite list_lookup_insert_ne by done. by apply Bs.
  - intros q. cbn [pj_end pj_position set_position]. destruct (decide (q = p)) as [->|Hne].
    + rewrite list_lookup_insert_eq by done. destruct (Nat.leb_spec (pj_end j) (pj_position j + n)) as [Hle|Hgt].
      * split; [|set_solver]. intros _. split; [set_solver|]. eexists. split; [done|]. cbn. lia.
      * rewrite Bc. split; [intros [Hx _]; done|]. intros [_ (j1 & [= <-] & Hx)]. cbn in Hx. lia.
    + rewrite list_lookup_insert_ne by done. assert (q ∈ seen ++ [p] ↔ q ∈ seen) as -> by set_solver. rewrite <- Bc. case_match; set_solver.
  - intros l e. rewrite A3. destruct (Bu l e) as [B1 B2], (Hu l e). fold u. rewrite B1. split; [lia|]. replace (budget0 - (bt_budget st - n)) with (budget0 - bt_budget st + n) by lia. lia.
  - rewrite A2, Bl. lia.
  - intros _. lia.
  - cbn [pj_end pj_position set_position]. destruct (Nat.leb_spec (pj_end j) (pj_position j + n)) as [Hle|Hgt]; [|left; lia]. destruct Bo as [Bo|Bo]; [lia|]. right.
    intros q [Hq|Hq%list_elem_of_singleton]%elem_of_app; set_solver.
Qed.

Lemma batchFold_ok sn st f :
  BatchInv [] st f → NoDup sn → (∀ p, p ∈ sn → ∃ j, jobs0 !! p = Some j ∧ pj_position j < pj_end j) →
  ∃ st' f', foldM (batchJob m) st sn = Some st' ∧ BatchInv sn st' f'.
Proof.
  intros H0 Hnd Hsn. destruct (foldM_inv (batchJob m) (λ seen st, ∃ f, BatchInv seen st f) sn st) as (st' & E & f' & H); [eauto| |eauto].
  intros seen p rest st1 El [f1 H1]. destruct (Hsn p ltac:(rewrite El; apply elem_of_middle)) as (j & Hj & Hlt).
  destruct (Forall2_lookup_r _ _ _ _ _ jobs_ok Hj) as (s & Hs & _). rewrite El in Hnd. apply NoDup_app in Hnd as (_ & Hnd & _).
  destruct (batchJob_ok seen p st1 f1 s j H1) as (st2 & f2 & E2 & H2); [intros Hp; apply (Hnd p Hp); left|done..|]. eauto.
Qed.

End Forward.

(** * The system *)

Definition startPrefill (f : traceFidelityConfig) : prefillSystem := mkPrefillSystem (tracePrefillBatcherFor f) Off [] [].

(** Every queued job has tokens left. *)
Definition Open (b : tracePrefillBatcher) : Prop := ∀ p j, p ∈ pb_pending b → pb_jobs b !! p = Some j → pj_position j < pj_end j.

Definition ProcOk (b : tracePrefillBatcher) (x : processor) : Prop :=
  match x with
  | Off => pb_running b = false ∧ pb_pending b = []
  | Looping => pb_running b = true ∧ Open b
  | Taken sn => pb_running b = true ∧ Open b ∧ sn ≠ [] ∧ sn `prefix_of` pb_pending b
  | Ran c => pb_running b = true ∧ (∀ p, p ∈ c → p < length (pb_jobs b)) ∧
      ∀ p j, p ∈ pb_pending b → pb_jobs b !! p = Some j → (p ∈ c ↔ pj_position j = pj_end j)
  end.

Record PInv (maxTokens : Z) (s : prefillSystem) : Prop := mkPInv {
  pv_jobs : JobsOk (px_starts s) (pb_jobs (px_batcher s));
  pv_nodup : NoDup (pb_pending (px_batcher s));
  pv_pending : ∀ p, p ∈ pb_pending (px_batcher s) → ∃ j, pb_jobs (px_batcher s) !! p = Some j ∧ pj_done j = None;
  pv_done : ∀ p j, pb_jobs (px_batcher s) !! p = Some j → p ∉ pb_pending (px_batcher s) → pj_position j = pj_end j ∧ pj_done j = Some (pj_elapsed j);
  pv_proc : ProcOk (px_batcher s) (px_processor s);
  pv_log : ∃ fs, px_forwards s = tableOf (numLayers m) (numExperts m) <$> fs ∧
    ∀ l e, total (λ f : nat → nat → Z, f l e) fs = servedUses (px_starts s) (pb_jobs (px_batcher s)) l e;
  pv_max : pb_maxTokens (px_batcher s) = maxTokens }.

Lemma PInv_start f : PInv (prefillBatchTokens f) (startPrefill f).
Proof. constructor; cbn; try done; [constructor|constructor|set_solver|by exists []]. Qed.

Lemma PInv_submit k ex cached s : Fits ex → PInv k s → PInv k (submit ex cached s).
Proof.
  intros Hf HI. unfold submit, enqueuePrefill. destruct (Z.leb_spec (Z.of_nat (length (pd_InputTokenIDs (tp_data (ex_prompt ex))))) (Z.max cached 0)) as [|Hlt]; [done|].
  destruct HI as [Hj Hnd Hp Hd Hpr (fs & Hfs & Hu) Hm]. destruct s as [b x starts fws]. cbn [px_batcher px_processor px_starts px_forwards] in *. pose proof (Forall2_length _ _ _ Hj) as Hlen.
  set (ptr := length (pb_jobs b)). set (n := Z.to_nat (Z.max cached 0)). assert (ptr ∉ pb_pending b) as Hnew by (intros (j & H & _)%Hp; apply lookup_lt_Some in H; unfold ptr in H; lia).
  assert (∀ p j0 j, (pb_jobs b ++ [j0]) !! p = Some j → pb_jobs b !! p = Some j ∨ (p = ptr ∧ j = j0)) as Happ.
  { intros p j0 j [H|[Hle H]]%lookup_app_Some; [by left|right]. apply list_lookup_singleton_Some in H as [H <-]. split; [unfold ptr; lia|done]. }
  set (j0 := mkJob _ _ _ _ _) in *. assert (pj_position j0 < pj_end j0) as Hj0 by (cbn; lia).
  assert (∀ p j, p ∈ pb_pending b ++ [ptr] → (pb_jobs b ++ [j0]) !! p = Some j → (p ∈ pb_pending b ∧ pb_jobs b !! p = Some j) ∨ (p = ptr ∧ j = j0)) as Hq.
  { intros p j Hin H. destruct (Happ p j0 j H) as [H1|[-> ->]]; [left|by right]. split; [|done]. apply elem_of_app in Hin as [Hin|Hin%list_elem_of_singleton]; [done|subst p].
    apply lookup_lt_Some in H1. unfold ptr in H1. lia. }
  constructor; cbn [px_batcher px_processor px_starts px_forwards set_running set_pending set_jobs pb_jobs pb_pending pb_running pb_maxTokens].
  - apply Forall2_app; [done|]. constructor; [|constructor]. constructor; cbn; [done|done|lia].
  - apply NoDup_app. split_and!; [done|set_solver|apply NoDup_singleton].
  - intros p [Hin|Hin%list_elem_of_singleton]%elem_of_app; [destruct (Hp p Hin) as (j & H & Hx); exists j; split; [by apply lookup_app_l_Some|done]|subst p].
    exists j0. split; [|done]. unfold ptr. by rewrite lookup_app_r, Nat.sub_diag by done.
  - intros p j H Hn. destruct (Happ p j0 j H) as [H1|[-> _]]; [apply (Hd p j); [done|set_solver]|set_solver].
  - unfold ProcOk in *. destruct (pb_running b) eqn:Er; cbn [negb].
    + destruct x as [| |sn|c]; cbn [pb_running pb_pending pb_jobs set_running set_pending set_jobs]; [by destruct Hpr|..].
      * destruct Hpr as [_ Ho]. split; [done|]. intros p j Hin H. destruct (Hq p j Hin H) as [[H1 H2]|[-> ->]]; [by eapply Ho|done].
      * destruct Hpr as (_ & Ho & Hne & Hpre). split_and!; [done| |done|by apply prefix_app_r]. intros p j Hin H. destruct (Hq p j Hin H) as [[H1 H2]|[-> ->]]; [by eapply Ho|done].
      * destruct Hpr as (_ & Hc & Hx). split_and!; [done|intros p Hpc; rewrite length_app; specialize (Hc p Hpc); lia|]. intros p j Hin H. destruct (Hq p j Hin H) as [[H1 H2]|[-> ->]]; [by apply Hx|].
        split; [intros Hpc%Hc; unfold ptr in Hpc; lia|cbn in *; lia].
    + split; [done|]. assert (pb_pending b = []) as He by (destruct x; destruct Hpr as [? Hpr]; congruence). intros p j Hin H. destruct (Hq p j Hin H) as [[H1 H2]|[-> ->]]; [|done]. rewrite He in H1. set_solver.
  - exists fs. split; [done|]. intros l e. rewrite Hu. unfold servedUses. rewrite zip_with_app by done. rewrite total_app. cbn [zip_with]. rewrite total_cons. unfold jobUses at 3. cbn [fst snd pj_position j0].
    fold n. unfold positions. rewrite Z.sub_diag. cbn [Z.to_nat seq]. change (total (jobUses l e) []) with 0%Z.
    assert (uses (prefillEvents m (tp_data (ex_prompt ex)) []) l e = 0%Z) as H; [|change (seq (Z.to_nat (Z.of_nat n)) (Z.to_nat 0)) with (@nil nat); change (pj_execution j0) with ex; lia].
    pose proof (prefillEvents_app m (tp_data (ex_prompt ex)) [] [] l e) as H. cbn [app] in H. lia.
  - done.
Qed.

(** Charging and answering jobs moves no position. *)
Definition Similar (j j' : tracePrefillJob) : Prop :=
  pj_execution j' = pj_execution j ∧ pj_position j' = pj_position j ∧ pj_end j' = pj_end j.

Lemma similar_jobs starts jobs jobs' :
  Forall2 Similar jobs jobs' → JobsOk starts jobs → JobsOk starts jobs' ∧ tokensLeft jobs' = tokensLeft jobs ∧ ∀ l e, servedUses starts jobs' l e = servedUses starts jobs l e.
Proof.
  intros H. revert starts. induction H as [|j j' jobs jobs' (H1 & H2 & H3) _ IH]; intros starts HJ; [inversion HJ; subst; done|].
  inversion HJ as [|s ? starts' ? [Hf He Hp] HJ']; subst. destruct (IH _ HJ') as (I1 & I2 & I3). split_and!.
  - constructor; [|done]. constructor; rewrite ?H1, ?H2, ?H3; done.
  - unfold tokensLeft in *. rewrite !total_cons, I2, H2, H3. done.
  - intros l e. unfold servedUses in *. cbn [zip_with]. rewrite !total_cons, I3. unfold jobUses at 1 3. cbn [fst snd]. by rewrite H1, H2.
Qed.

Lemma similar_alter_all g idx jobs : (∀ j, Similar j (g j)) → Forall2 Similar jobs (foldl (λ l i, alter g i l) jobs idx).
Proof.
  intros Hg. assert (∀ l, Forall2 Similar l l) as Hrefl by (intros l; induction l; constructor; done). revert jobs. induction idx as [|i idx IH]; intros jobs; [apply Hrefl|]. cbn [foldl].
  assert (Forall2 Similar jobs (alter g i jobs)) as H1.
  { clear IH. revert i. induction jobs as [|j jobs IHj]; intros [|i]; [constructor|constructor| |].
    - change (alter g 0 (j :: jobs)) with (g j :: jobs). constructor; [apply Hg|apply Hrefl].
    - change (alter g (S i) (j :: jobs)) with (j :: alter g i jobs). constructor; [done|apply IHj]. }
  pose proof (IH (alter g i jobs)) as H2. revert H1 H2. generalize (foldl (λ l i0, alter g i0 l) (alter g i jobs) idx) as l3. generalize (alter g i jobs) as l2. clear.
  intros l2 l3 H1. revert l3. induction H1 as [|x y l1 l2 (A1 & A2 & A3) _ IH]; intros l3 H2; inversion H2 as [|? z ? ? (B1 & B2 & B3) H3]; subst; constructor; [|by apply IH].
  unfold Similar. by rewrite B1, B2, B3.
Qed.

(** * The processor's sections *)

Definition phaseWork (x : processor) : Z := match x with Off | Taken _ => 0 | Looping => 1 | Ran _ => 2 end.
Definition workLeft (s : prefillSystem) : Z := (4 * tokensLeft (pb_jobs (px_batcher s)) + phaseWork (px_processor s))%Z.

Lemma tokensLeft_nonneg jobs : (0 ≤ tokensLeft jobs)%Z.
Proof. apply total_nonneg. intros j _. apply Zle_0_nat. Qed.

Definition Small (maxTokens : Z) : Prop := ((if (maxTokens <? 1)%Z then defaultTracePrefillBatchTokens else maxTokens) * perToken m < 2 ^ 53)%Z.

(** A forward of a snapshot: how far each job gets. *)
Lemma batchForward_ok k s sn :
  PInv k s → Small k → px_processor s = Taken sn →
  ∃ st f, batchForward m profiling sn (px_batcher s) = Some st ∧
    BatchInv (px_starts s) (pb_jobs (px_batcher s)) (Z.to_nat (effectiveMaxTokens (px_batcher s))) sn st f.
Proof.
  intros HI Hsm Hpc. destruct HI as [Hj Hnd Hp _ Hpr _ Hm]. rewrite Hpc in Hpr. destruct Hpr as (_ & Ho & _ & [tl Htl]). set (b := px_batcher s) in *.
  assert (1 ≤ effectiveMaxTokens b ∧ effectiveMaxTokens b * perToken m < 2 ^ 53)%Z as [He1 He2].
  { unfold effectiveMaxTokens. rewrite Hm. split; [|exact Hsm]. destruct (Z.ltb_spec k 1); [unfold defaultTracePrefillBatchTokens|]; lia. }
  assert (Z.of_nat (Z.to_nat (effectiveMaxTokens b)) * perToken m < 2 ^ 53)%Z as He3 by (rewrite Z2Nat.id by lia; done).
  assert (0 < Z.to_nat (effectiveMaxTokens b)) as He4 by lia. unfold batchForward. apply (batchFold_ok (px_starts s) (pb_jobs b) _ Hj He4 He3 sn _ (λ _ _, 0%Z)).
  - constructor; cbn [bt_jobs bt_counts bt_assignments bt_budget bt_completed]; try done.
    + intros p j H. exists (pj_position j). by destruct j.
    + intros p. split; [set_solver|]. intros [[]%not_elem_of_nil _].
    + apply newMoELayerCounts_tableOf.
    + intros l e. rewrite Nat.sub_diag. lia.
    + case_match; [|done]. cbn. apply length_replicate.
    + rewrite Nat.sub_diag. lia.
    + right. intros p []%not_elem_of_nil.
  - rewrite Htl in Hnd. by apply NoDup_app in Hnd as [Hnd _].
  - intros p Hin. assert (p ∈ pb_pending b) as Hpin by (rewrite Htl; apply elem_of_app; by left). destruct (Hp p Hpin) as (j & Hjp & _). eauto.
Qed.

Lemma PInv_forward k latency s sn :
  PInv k s → Small k → px_processor s = Taken sn →
  ∃ s', processStep m profiling latency s = PMoved s' ∧ PInv k s' ∧ (workLeft s' < workLeft s)%Z.
Proof.
  intros HI Hsm Hpc. destruct (batchForward_ok k s sn HI Hsm Hpc) as (st & f & E & [Bj Br Bs Bc Bt Bu Ba [Bb Bl] Bp Bo]). destruct HI as [Hj Hnd Hp Hd Hpr (fs & Hfs & Hu) Hm].
  unfold processStep, workLeft. rewrite Hpc, E. eexists. split; [reflexivity|]. rewrite Hpc in Hpr. destruct Hpr as (Hrun & Ho & Hne & [tl Htl]). cbn [px_batcher px_processor px_starts px_forwards set_jobs pb_jobs pb_pending phaseWork].
  assert (NoDup sn) as Hnds by (rewrite Htl in Hnd; by apply NoDup_app in Hnd as [Hnd _]). unfold chargeAll.
  destruct (similar_jobs (px_starts s) (bt_jobs st) (foldl (λ l i, alter (add_elapsed latency) i l) (bt_jobs st) sn)) as (S1 & S2 & S3); [by apply similar_alter_all|done|].
  assert (∀ p, p ∈ sn → p ∈ pb_pending (px_batcher s)) as Hsub by (intros p Hin; rewrite Htl; apply elem_of_app; by left).
  split; [|specialize (Bp Hne); rewrite S2, Bl; lia].
  constructor; cbn [px_batcher px_processor px_starts px_forwards set_jobs pb_jobs pb_pending pb_running pb_maxTokens]; try done.
  - intros p Hin. destruct (Hp p Hin) as (j & Hjp & Hdn). destruct (Bs p j Hjp) as [n Hn]. rewrite alter_all_lookup, Hn by done. case_decide; eexists; (split; [done|]); done.
  - intros p j H Hn. rewrite alter_all_lookup, decide_False in H by (done || auto). rewrite Br in H by auto. by apply Hd in H.
  - unfold ProcOk. cbn [set_jobs pb_jobs pb_pending pb_running]. split_and!; [done| |].
    + intros p [_ (j & H & _)]%Bc. rewrite alter_all_length. by eapply lookup_lt_Some.
    + intros p j Hin H. rewrite alter_all_lookup in H by done. rewrite Bc. case_decide as Hsn.
      * destruct (bt_jobs st !! p) as [j1|] eqn:E1; [|done]. cbn in H. injection H as <-. cbn. split; [intros [_ (j2 & [= <-] & Hx)]; done|]. intros Hx. split; [done|eauto].
      * split; [by intros [? _]|]. intros Hx. rewrite Br in H by done. specialize (Ho p j Hin H). lia.
  - exists (fs ++ [f]). rewrite Hfs, Bt, fmap_app. split; [done|]. intros l e. rewrite total_app, total_cons, Hu, S3. destruct (Bu l e) as [-> _]. change (total (λ g : nat → nat → Z, g l e) []) with 0%Z. lia.
Qed.

Lemma PInv_retire k latency s c :
  PInv k s → px_processor s = Ran c → ∃ s', processStep m profiling latency s = PMoved s' ∧ PInv k s' ∧ (workLeft s' < workLeft s)%Z.
Proof.
  intros HI Hpc. destruct HI as [Hj Hnd Hp Hd Hpr (fs & Hfs & Hu) Hm]. unfold processStep, workLeft. rewrite Hpc. eexists. split; [reflexivity|]. rewrite Hpc in Hpr. destruct Hpr as (Hrun & _ & Hx).
  unfold retire. cbn [px_batcher px_processor px_starts px_forwards set_pending set_jobs pb_jobs pb_pending phaseWork]. set (b := px_batcher s) in *.
  destruct (similar_jobs (px_starts s) (pb_jobs b) (foldl (λ l i, alter send_done i l) (pb_jobs b) (filter (λ ptr, ptr ∈ c) (pb_pending b)))) as (S1 & S2 & S3); [by apply similar_alter_all|done|].
  assert (NoDup (filter (λ ptr, ptr ∈ c) (pb_pending b))) as Hndf by by apply NoDup_filter.
  assert (∀ p, foldl (λ l i, alter send_done i l) (pb_jobs b) (filter (λ ptr, ptr ∈ c) (pb_pending b)) !! p =
    if decide (p ∈ c ∧ p ∈ pb_pending b) then send_done <$> pb_jobs b !! p else pb_jobs b !! p) as Hlook.
  { intros p. rewrite alter_all_lookup by done. apply decide_ext. by rewrite list_elem_of_filter. }
  split; [|rewrite S2; lia].
  constructor; cbn [px_batcher px_processor px_starts px_forwards set_pending set_jobs pb_jobs pb_pending pb_running pb_maxTokens]; try done.
  - by apply NoDup_filter.
  - intros p [Hc Hin]%list_elem_of_filter. rewrite Hlook, decide_False by tauto. by apply Hp.
  - intros p j H Hn. rewrite Hlook in H. rewrite list_elem_of_filter in Hn. case_decide as Hcp.
    + destruct Hcp as [Hc Hin]. destruct (pb_jobs b !! p) as [j1|] eqn:E1; [|done]. cbn in H. injection H as <-. cbn. split; [|done]. by apply (Hx p j1).
    + apply (Hd p j); [done|]. intros Hin. destruct (decide (p ∈ c)); tauto.
  - split; [done|]. intros p j [Hc Hin]%list_elem_of_filter H. cbn [pb_jobs set_pending set_jobs] in H. rewrite Hlook, decide_False in H by tauto.
    destruct (Forall2_lookup_r _ _ _ _ _ Hj H) as (st & _ & [_ _ Hpos]). assert (pj_position j ≠ pj_end j) by (intros He; by apply Hc, (Hx p j)). lia.
  - exists fs. split; [done|]. intros l e. by rewrite S3.
Qed.

Lemma processStep_ok k latency s :
  PInv k s → Small k → px_processor s ≠ Off → ∃ s', processStep m profiling latency s = PMoved s' ∧ PInv k s' ∧ (workLeft s' < workLeft s)%Z.
Proof.
  intros HI Hsm Hne. destruct (px_processor s) as [| |sn|c] eqn:Hpc; [done| |by eapply PInv_forward|by eapply PInv_retire].
  destruct HI as [Hj Hnd Hp Hd Hpr Hlog Hm]. unfold processStep, workLeft. rewrite Hpc. rewrite Hpc in Hpr. destruct Hpr as [Hrun Ho]. destruct (Nat.eqb_spec (length (pb_pending (px_batcher s))) 0) as [H0|H0].
  - eexists. split; [reflexivity|]. cbn [px_batcher px_processor set_running pb_jobs phaseWork]. split; [|lia]. apply nil_length_inv in H0. constructor; cbn; try done.
  - eexists. split; [reflexivity|]. cbn [px_batcher px_processor set_running pb_jobs phaseWork]. split; [|lia]. constructor; cbn; try done. split_and!; try done. intros He. by rewrite He in H0.
Qed.

Lemma PInv_reachable f s : Small (prefillBatchTokens f) → rtc (prefillStep m profiling Fits) (startPrefill f) s → PInv (prefillBatchTokens f) s.
Proof.
  intros Hsm H. remember (startPrefill f) as s0 eqn:E. assert (PInv (prefillBatchTokens f) s0) as H0 by (subst; apply PInv_start). clear E.
  induction H as [|x y z Hxy _ IH]; [done|]. apply IH. destruct Hxy as [ex cached x Hf|latency x x' Hst]; [by apply PInv_submit|].
  destruct (decide (px_processor x = Off)) as [Hoff|Hon]; [unfold processStep in Hst; by rewrite Hoff in Hst|].
  destruct (processStep_ok _ latency x H0 Hsm Hon) as (x'' & E & HI & _). rewrite Hst in E. by injection E as ->.
Qed.

(** The processor alone: bounded, and it comes to rest. *)
Lemma work_bounded k n s s' : PInv k s → Small k → nsteps (workStep m profiling) n s s' → (Z.of_nat n + workLeft s' ≤ workLeft s)%Z.
Proof.
  intros HI Hsm H. induction H as [|n x y z Hxy _ IH]; [lia|]. destruct Hxy as [latency x x' Hst]. assert (px_processor x ≠ Off) as Hon by (intros Hoff; unfold processStep in Hst; by rewrite Hoff in Hst).
  destruct (processStep_ok _ latency x HI Hsm Hon) as (x'' & E & HI' & Hw). rewrite Hst in E. injection E as ->. specialize (IH HI'). lia.
Qed.

Lemma work_rests k s : PInv k s → Small k → ∃ s', rtc (workStep m profiling) s s' ∧ px_processor s' = Off ∧ PInv k s'.
Proof.
  remember (Z.to_nat (workLeft s)) as n eqn:En. revert s En. induction (lt_wf n) as [n _ IH]. intros s -> HI Hsm. destruct (decide (px_processor s = Off)) as [Hoff|Hon]; [by exists s|].
  destruct (processStep_ok _ 0 s HI Hsm Hon) as (s1 & E & HI1 & Hw). assert (0 ≤ workLeft s1)%Z as Hnn by (unfold workLeft; pose proof (tokensLeft_nonneg (pb_jobs (px_batcher s1))); destruct (px_processor s1); cbn; lia).
  destruct (IH (Z.to_nat (workLeft s1)) ltac:(lia) s1 eq_refl HI1 Hsm) as (s2 & H & Hx). exists s2. split; [|done]. eapply rtc_l; [|done]. by econstructor.
Qed.

End Batcher.

(** ** An example: two requests for the same prompt of three tokens, one with a cached
    token, in forwards of two tokens *)

Definition fidelity_ex : traceFidelityConfig := mkFidelity false false f_zero f_zero f_zero (f_of_Z 1) (f_of_Z 1) 1 0 2 0.
Definition queued_ex : prefillSystem := submit execution_ex 0 (submit execution_ex 1 (startPrefill fidelity_ex)).

Fixpoint runWork (n : nat) (s : prefillSystem) : option prefillSystem :=
  match n with
  | O => Some s
  | S n => match processStep params_ex false 7 s with PMoved s => runWork n s | _ => None end
  end.

Lemma runWork_reachable n s s0 s' :
  runWork n s = Some s' → rtc (prefillStep params_ex false (Fits params_ex)) s0 s → rtc (prefillStep params_ex false (Fits params_ex)) s0 s'.
Proof.
  revert s. induction n as [|n IH]; intros s H Hr; [by injection H as <-|]. cbn in H. destruct (processStep params_ex false 7 s) as [| |s1] eqn:E; [done..|].
  apply (IH s1 H). eapply rtc_r; [exact Hr|]. by eapply prefill_process.
Qed.

Lemma queued_ex_reachable : rtc (prefillStep params_ex false (Fits params_ex)) (startPrefill fidelity_ex) queued_ex.
Proof.
  assert (Fits params_ex execution_ex) as Hf by (destruct prompt_ex_ok as (H1 & H2 & _); by split).
  eapply rtc_l; [by apply (prefill_submit _ _ _ execution_ex 1)|]. eapply rtc_l; [by apply (prefill_submit _ _ _ execution_ex 0)|]. apply rtc_refl.
Qed.

(** * Theorems *)

Definition initialUses (m : moeParams) (l e : nat) (x : nat * tracePrefillJob) : Z :=
  uses (prefillEvents m (tp_data (ex_prompt (pj_execution x.2))) (positions (Z.of_nat x.1) (Z.of_nat (length (pd_InputTokenIDs (tp_data (ex_prompt (pj_execution x.2)))))))) l e.

(** C17: whatever the interleaving of requests and processor, the batcher never panics;
    the processor alone takes at most four sections per token left and two more, and can
    always be run until it stops.  Whenever it is stopped, every job has been answered
    with its elapsed time, and the expert uses of the forwards add up, layer by layer and
    expert by expert, to those of the prompt tokens from each job's cached position to
    the end of its prompt: every uncached token is processed exactly once. *)
Theorem prefill_batches_complete m profiling f s :
  0 < numGPUs m → Small m (prefillBatchTokens f) → rtc (prefillStep m profiling (Fits m)) (startPrefill f) s →
  (∀ latency, processStep m profiling latency s ≠ PPanics) ∧
  (∀ n s', nsteps (workStep m profiling) n s s' → Z.of_nat n ≤ 4 * tokensLeft (pb_jobs (px_batcher s)) + 2)%Z ∧
  (∃ s', rtc (workStep m profiling) s s' ∧ px_processor s' = Off) ∧
  (px_processor s = Off →
    (∀ j, j ∈ pb_jobs (px_batcher s) → pj_position j = pj_end j ∧ pj_done j = Some (pj_elapsed j)) ∧
    ∃ fs, px_forwards s = tableOf (numLayers m) (numExperts m) <$> fs ∧
      ∀ l e, total (λ g : nat → nat → Z, g l e) fs = total (initialUses m l e) (zip (px_starts s) (pb_jobs (px_batcher s)))).
Proof.
  intros Hg Hsm Hr. pose proof (PInv_reachable m profiling Hg f s Hsm Hr) as HI. split_and!.
  - intros latency Hp. destruct (decide (px_processor s = Off)) as [Hoff|Hon]; [unfold processStep in Hp; by rewrite Hoff in Hp|].
    destruct (processStep_ok m profiling Hg _ latency s HI Hsm Hon) as (s' & E & _). congruence.
  - intros n s' Hn. pose proof (work_bounded m profiling Hg _ n s s' HI Hsm Hn) as H. unfold workLeft in H. pose proof (tokensLeft_nonneg (pb_jobs (px_batcher s'))).
    destruct (px_processor s), (px_processor s'); cbn in H; lia.
  - destruct (work_rests m profiling Hg _ s HI Hsm) as (s' & H1 & H2 & _). eauto.
  - intros Hoff. destruct HI as [Hj _ _ Hd Hpr (fs & Hfs & Hu) _]. rewrite Hoff in Hpr. destruct Hpr as [_ Hempty].
    assert (∀ p j, pb_jobs (px_batcher s) !! p = Some j → pj_position j = pj_end j ∧ pj_done j = Some (pj_elapsed j)) as Hall.
    { intros p j H. apply (Hd p j H). rewrite Hempty. apply not_elem_of_nil. }
    split; [intros j [p Hp]%list_elem_of_lookup; by eapply Hall|]. exists fs. split; [done|]. intros l e. rewrite Hu. unfold servedUses. apply total_ext.
    intros [st j] [p Hp]%list_elem_of_lookup. apply lookup_zip_with_Some in Hp as (st' & j' & [= <- <-] & H1 & H2). destruct (Forall2_lookup_lr _ _ _ _ _ _ Hj H1 H2) as [_ He _].
    destruct (Hall p j H2) as [Hpe _]. unfold jobUses, initialUses. cbn [fst snd]. by rewrite Hpe, He.
Qed.

Lemma prefill_batches_complete_witness :
  ∃ s, runWork 10 queued_ex = Some s ∧ px_processor s = Off ∧ length (px_forwards s) = 3 ∧ ∀ j, j ∈ pb_jobs (px_batcher s) → pj_done j = Some (pj_elapsed j).
Proof.
  destruct (runWork 10 queued_ex) as [s|] eqn:E; [|vm_compute in E; discriminate E]. exists s.
  assert ((λ s, (px_processor s, length (px_forwards s))) <$> runWork 10 queued_ex = Some (Off, 3)) as H by (vm_compute; reflexivity). rewrite E in H. injection H as Hoff Hlen.
  split; [reflexivity|]. split; [exact Hoff|]. split; [exact Hlen|].
  pose proof (runWork_reachable 10 queued_ex (startPrefill fidelity_ex) s E queued_ex_reachable) as Hr.
  destruct (prefill_batches_complete params_ex false fidelity_ex s ltac:(cbn; lia) ltac:(vm_compute; reflexivity) Hr) as (_ & _ & _ & H). intros j Hj. apply (H Hoff), Hj.
Defined.

(** A forward of the batcher takes between one token and its budget, and serves
    the queue in order: a job is left unfinished only when the budget is used up. *)
Theorem prefill_forward_fair m profiling f s sn :
  0 < numGPUs m → Small m (prefillBatchTokens f) → rtc (prefillStep m profiling (Fits m)) (startPrefill f) s → px_processor s = Taken sn →
  ∃ st, batchForward m profiling sn (px_batcher s) = Some st ∧
    let taken := (tokensLeft (pb_jobs (px_batcher s)) - tokensLeft (bt_jobs st))%Z in
    (1 ≤ taken ≤ effectiveMaxTokens (px_batcher s))%Z ∧
    (taken = effectiveMaxTokens (px_batcher s) ∨ ∀ p, p ∈ sn → p ∈ bt_completed st) ∧
    ∀ p, p ∈ bt_completed st → p ∈ sn ∧ ∃ j, bt_jobs st !! p = Some j ∧ pj_position j = pj_end j.
Proof.
  intros Hg Hsm Hr Hpc. pose proof (PInv_reachable m profiling Hg f s Hsm Hr) as HI. destruct (batchForward_ok m profiling Hg _ s sn HI Hsm Hpc) as (st & g & E & HB).
  exists st. split; [done|]. cbv zeta. destruct HB as [_ _ _ Bc _ _ _ [Bb Bl] Bp Bo]. pose proof (pv_proc _ _ _ HI) as Hpr. rewrite Hpc in Hpr. destruct Hpr as (_ & _ & Hne & _). specialize (Bp Hne). rewrite Bl.
  split_and!; [lia|lia| |intros p Hp; by apply Bc]. destruct Bo as [Bo|Bo]; [left; lia|by right].
Qed.

Lemma prefill_forward_fair_witness :
  ∃ s st, runWork 1 queued_ex = Some s ∧ px_processor s = Taken [0; 1] ∧ batchForward params_ex false [0; 1] (px_batcher s) = Some st ∧
    (1 ≤ tokensLeft (pb_jobs (px_batcher s)) - tokensLeft (bt_jobs st) ≤ 2)%Z.
Proof.
  destruct (runWork 1 queued_ex) as [s|] eqn:E; [|vm_compute in E; discriminate E].
  assert ((λ s, (px_processor s, effectiveMaxTokens (px_batcher s))) <$> runWork 1 queued_ex = Some (Taken [0; 1], 2%Z)) as H by (vm_compute; reflexivity). rewrite E in H. injection H as Ht Hb.
  pose proof (runWork_reachable 1 queued_ex (startPrefill fidelity_ex) s E queued_ex_reachable) as Hr.
  destruct (prefill_forward_fair params_ex false fidelity_ex s [0; 1] ltac:(cbn; lia) ltac:(vm_compute; reflexivity) Hr Ht) as (st & Est & H & _).
  rewrite Hb in H. exists s, st. split; [reflexivity|]. split; [exact Ht|]. split; [exact Est|exact H].
Defined.

End TracePrefillProps.
