(* ===== verification/Wire.v ===== *)
(** JSON bodies as [encoding/json] decodes them into Go values: a body is a tree, and the
    decoder of a field gets the value the field has so far, as a repeated key assigns
    again and a null leaves a string, a number or a struct as it is.  Parsing text into
    the tree is not modelled; integer literals keep their sign and digits, because
    [-0], [1.0] and [1e3] are no unsigned integers to the decoder. *)

From S2P Require Import Prelude GoFloat Tools.
Open Scope Z_scope.

Module Wire.

Inductive wire := WNull | WBool (b : bool) | WInt (negative : bool) (digits : N) | WFrac (x : f64) | WStr (s : string) | WArr (l : list wire) | WObj (l : list (string * wire)).

(** * Decoding into Go values *)

(** [None]: an error, whichever. *)
Definition decoder (A : Type) : Type := A → wire → option A.

Section Loops.
Context {A B : Type}.
Variable f : B → A → option B.
(** A loop that an error ends. *)
Fixpoint each (b : B) (l : list A) : option B := match l with [] => Some b | a :: l => match f b a with Some b => each b l | None => None end end.
End Loops.

Definition decString : decoder string := λ cur w, match w with WNull => Some cur | WStr s => Some s | _ => None end.
Definition decBool : decoder bool := λ cur w, match w with WNull => Some cur | WBool b => Some b | _ => None end.

Definition literal (negative : bool) (digits : N) : Z := if negative then - Z.of_N digits else Z.of_N digits.
(** [int] and [int64]. *)
Definition decInt : decoder Z := λ cur w,
  match w with
  | WNull => Some cur
  | WInt s d => if (- 2 ^ 63 <=? literal s d) && (literal s d <? 2 ^ 63) then Some (literal s d) else None
  | _ => None
  end.
Definition decUint32 : decoder Z := λ cur w,
  match w with WNull => Some cur | WInt false d => if Z.of_N d <? 2 ^ 32 then Some (Z.of_N d) else None | _ => None end.

(** A number literal as a [float64]; one that is too large is an error. *)
Definition float (w : wire) : option f64 :=
  match w with
  | WInt s d => match f_of_Z (Z.of_N d) with SpecFloat.S754_infinity _ => None | x => Some (if s then SpecFloat.SFopp x else x) end
  | WFrac x => Some x
  | _ => None
  end.
Definition decFloat : decoder f64 := λ cur w, match w with WNull => Some cur | _ => float w end.

(** A pointer: null is nil, anything else is decoded into what it points to. *)
Definition decPtr {A} (zero : A) (dec : decoder A) : decoder (option A) := λ cur w,
  match w with WNull => Some None | _ => Some <$> dec (default zero cur) w end.

(** A slice: null is nil ([None]); elements are decoded afresh. *)
Definition decElems {A} (zero : A) (dec : decoder A) (l : list wire) : option (list A) :=
  each (λ acc w, match dec zero w with Some a => Some (acc ++ [a]) | None => None end) [] l.
Definition decSlice {A} (zero : A) (dec : decoder A) : decoder (option (list A)) := λ _ w,
  match w with WNull => Some None | WArr l => Some <$> decElems zero dec l | _ => None end.
(** Where nil and empty are the same to the code. *)
Definition decList {A} (zero : A) (dec : decoder A) : decoder (list A) := λ _ w, default [] <$> decSlice zero dec None w.

(** The assignment of a map key. *)
Fixpoint put {A} (k : string) (v : A) (l : list (string * A)) : list (string * A) :=
  match l with [] => [(k, v)] | (k', v') :: l => if String.eqb k' k then (k', v) :: l else (k', v') :: put k v l end.

(** Into [any]. *)
Fixpoint decAny (w : wire) : option Tools.json :=
  match w with
  | WNull => Some Tools.JNull
  | WBool b => Some (Tools.JBool b)
  | WInt _ _ | WFrac _ => Tools.JNum <$> float w
  | WStr s => Some (Tools.JStr s)
  | WArr l => Tools.JArr <$> each (λ acc w, match decAny w with Some j => Some (acc ++ [j]) | None => None end) [] l
  | WObj l => Tools.JObj <$> each (λ m kv, match decAny kv.2 with Some j => Some (put kv.1 j m) | None => None end) [] l
  end.
(** Into [map[string]any]; null is nil. *)
Definition decMap : decoder (option (list (string * Tools.json))) := λ cur w,
  match w with
  | WNull => Some None
  | WObj l => Some <$> each (λ m kv, match decAny kv.2 with Some j => Some (put kv.1 j m) | None => None end) (default [] cur) l
  | _ => None
  end.

(** Into a map with elements of one type. *)
Definition decMapOf {A} (zero : A) (dec : decoder A) : decoder (list (string * A)) := λ cur w,
  match w with
  | WNull => Some []
  | WObj l => each (λ m kv, match dec zero kv.2 with Some a => Some (put kv.1 a m) | None => None end) cur l
  | _ => None
  end.

(** * Structs *)

Definition lowerAscii (a : Ascii.ascii) : Ascii.ascii :=
  let n := Ascii.N_of_ascii a in if (65 <=? n)%N && (n <=? 90)%N then Ascii.ascii_of_N (n + 32) else a.
Fixpoint lower (s : string) : string := match s with EmptyString => EmptyString | String a s => String (lowerAscii a) (lower s) end.
(** A key names a field also when only the case of ASCII letters differs; [name] is in lower case. *)
Definition names (name key : string) : bool := String.eqb (lower key) name.

(** The value of a field after all keys of the object; other keys are ignored. *)
Definition field {A} (name : string) (dec : decoder A) (obj : list (string * wire)) (cur : A) : option A :=
  each (λ a kv, if names name kv.1 then dec a kv.2 else Some a) cur obj.

(** A struct decoded field by field. *)
Definition decStruct {A} (fields : list (string * wire) → A → option A) : decoder A := λ cur w,
  match w with WNull => Some cur | WObj l => fields l cur | _ => None end.

(** [json.RawMessage]: the value itself; [None] when the key is absent. *)
Definition decRaw : decoder (option wire) := λ _ w, Some (Some w).
(** What the code tests for: absent or null. *)
Definition present (raw : option wire) : option wire := match raw with Some WNull | None => None | Some w => Some w end.

(** * Encoding *)

Definition encInt (z : Z) : wire := WInt (z <? 0) (Z.to_N (Z.abs z)).
Definition encPtr {A} (enc : A → wire) (o : option A) : wire := match o with Some a => enc a | None => WNull end.
(** A field tagged [omitempty] of pointer type. *)
Definition omitNil {A} (key : string) (enc : A → wire) (o : option A) : list (string * wire) := match o with Some a => [(key, enc a)] | None => [] end.

(** * Round trips *)

(** A codec: the values [P] are read back, whatever the target held. *)
Class Codec {A} (enc : A → wire) (dec : decoder A) (P : A → Prop) : Prop := decode_encode a cur : P a → dec cur (enc a) = Some a.

#[export] Instance string_codec : Codec WStr decString (λ _, True).
Proof. by intros s cur _. Qed.
#[export] Instance bool_codec : Codec WBool decBool (λ _, True).
Proof. by intros s cur _. Qed.

Lemma literal_encInt z : literal (z <? 0) (Z.to_N (Z.abs z)) = z.
Proof. unfold literal. destruct (Z.ltb_spec z 0); lia. Qed.
#[export] Instance int_codec : Codec encInt decInt (λ z, - 2 ^ 63 ≤ z < 2 ^ 63).
Proof.
  intros z cur Hz. unfold encInt, decInt. rewrite literal_encInt.
  destruct (Z.leb_spec (- 2 ^ 63) z); [|lia]. destruct (Z.ltb_spec z (2 ^ 63)); [done|lia].
Qed.
#[export] Instance uint32_codec : Codec encInt decUint32 (λ z, 0 ≤ z < 2 ^ 32).
Proof.
  intros z cur Hz. unfold encInt. destruct (Z.ltb_spec z 0); [lia|]. cbn [decUint32]. 
  rewrite Z.abs_eq, Z2N.id by lia. destruct (Z.ltb_spec z (2 ^ 32)); [done|lia].
Qed.
#[export] Instance float_codec : Codec WFrac decFloat (λ _, True).
Proof. by intros s cur _. Qed.

(** An encoding that is never null goes through a pointer. *)
Lemma ptr_codec {A} zero (enc : A → wire) dec P (HC : Codec enc dec P) : (∀ a, enc a ≠ WNull) →
  Codec (encPtr enc) (decPtr zero dec) (λ o, match o with Some a => P a | None => True end).
Proof.
  intros Hn [a|] cur Ha; [|done]. cbn [encPtr]. unfold decPtr. specialize (Hn a). destruct (enc a) eqn:E; try done; rewrite <- E, (decode_encode a) by done; done.
Qed.

Lemma each_app {A B} (f : B → A → option B) b l k : each f b (l ++ k) = match each f b l with Some b => each f b k | None => None end.
Proof. revert b. induction l as [|a l IH]; intros b; [done|]. cbn. by destruct (f b a). Qed.

Lemma decElems_at {A} zero (enc : A → wire) (dec : decoder A) l : Forall (λ a, dec zero (enc a) = Some a) l → decElems zero dec (enc <$> l) = Some l.
Proof.
  intros H. unfold decElems. set (step := λ acc w, _). assert (∀ acc, each step acc (enc <$> l) = Some (acc ++ l)) as E; [|exact (E [])].
  induction H as [|a l Ha _ IH]; intros acc; [by rewrite app_nil_r|]. subst step.
  rewrite fmap_cons. cbn [each]. by rewrite Ha, IH, <- app_assoc.
Qed.
Lemma decElems_ok {A} zero (enc : A → wire) dec P (HC : Codec enc dec P) l : Forall P l → decElems zero dec (enc <$> l) = Some l.
Proof. intros H. apply decElems_at. eapply Forall_impl; [exact H|]. intros a Ha. by apply decode_encode. Qed.
(** One element that is refused is enough. *)
Lemma decElems_None {A} zero (dec : decoder A) w l : w ∈ l → dec zero w = None → decElems zero dec l = None.
Proof.
  intros Hin Hw. unfold decElems. set (step := λ acc w, _). assert (∀ acc, each step acc l = None) as E; [|exact (E [])]. subst step. induction l as [|v l IH]; intros acc; [by apply elem_of_nil in Hin|].
  cbn. apply elem_of_cons in Hin as [<-|Hin]; [by rewrite Hw|]. destruct (dec zero v); [by apply IH|done].
Qed.

End Wire.
