(* ===== verification/ApiRequests.v ===== *)
(** The request kinds of the API ([pkg/api/request.go], [pkg/api/tool_choice.go]): their
    data, how a JSON body becomes one ([UnmarshalJSON]) and back, the conversions of
    Responses and Anthropic Messages requests to chat messages, and what the simulator
    does per kind ([pkg/simulator/chat_completion.go], [text_completion.go],
    [responses.go], [messages.go], [generate.go]).  The OpenAI library that decodes the
    custom forms of [tool_choice], the JSON schema of tools and the tokenizer are
    parameters. *)

From stdpp Require Import pretty.
From S2P Require Import Prelude GoFloat GoRandom BlockCache Lora KVEvents Requests Dataset Config Tools Logprobs Response TraceWorkload Wire.
Import GoRandom Dataset Response Wire.
Open Scope Z_scope.

Module ApiRequests.

(** Equality of Go strings. *)
Notation "s =? t" := (String.eqb s t) (at level 70) : string_scope.

(** * Requests *)

Record baseRequest := mkBaseRequest {
  RequestID : string; Model : string; DisplayedModel : string; Stream : bool; b_KVParams : option KVTransferParams; IgnoreEOS : bool }.
(** [StreamOptions] is its only field, [include_usage]. *)
Record baseCompletionsRequest := mkCompletions { cr_base : baseRequest; StreamOptions : option bool; CacheHitThreshold : option f64; N_ : option Z }.

(** A [Tool]; the parameters are a JSON object. *)
Record Tool := mkApiTool { t_Name : string; t_Parameters : option (list (string * Tools.json)); t_Description : string; t_Type : string }.

Record ChatCompletionsRequest := mkChatRequest {
  ch_base : baseCompletionsRequest; ch_Messages : list Message; ch_MaxTokens : option Z; MaxCompletionTokens : option Z;
  ch_Tools : option (list Tool); ch_ToolChoice : Tools.ToolChoice; ch_Logprobs_ : bool; ch_TopLogprobs : option Z }.

Record TextCompletionsParsedRequest := mkTextRequest {
  tx_base : baseCompletionsRequest; tx_MaxTokens : option Z; tx_Logprobs_ : option Z; Prompt : list Requests.PromptInput }.

Record InputContent := mkInputContent { ic_Type : string; ic_Text : string; ic_ImageURL : string; AudioData : string; AudioFormat : string }.
Record InputMessage := mkInputMessage { im_Type : string; im_Role : string; im_Status : string; im_Content : list InputContent }.
Record InputFunctionCall := mkInputCall { if_Type : string; if_ID : string; if_CallID : string; if_Name : string; if_Arguments : string; if_Status : string }.
Record InputFunctionCallOutput := mkInputOutput { io_Type : string; io_CallID : string; io_Output : string }.
Inductive InputItem := ItemMessage (m : InputMessage) | ItemCall (f : InputFunctionCall) | ItemOutput (f : InputFunctionCallOutput).

Record JSONSchemaSpec := mkSchema { js_Name : string; Strict : option bool; js_Schema : option (list (string * Tools.json)) }.
Record TextFormat := mkFormat { tf_Type : string; JsonSchema : option JSONSchemaSpec }.
Record ResponsesRequest := mkResponsesRequest {
  rq_base : baseRequest; rq_Input : list InputItem; Instructions : string; MaxOutputTokens : option Z; rq_Text : option (option TextFormat);
  Include : list string; rq_TopLogprobs : option Z; rq_Tools : list Tool; rq_ToolChoice : Tools.ToolChoice }.

Record SamplingParams := mkSampling { sp_MaxTokens : option Z; ExtraArgs : option (option KVTransferParams) }.
(** [tokenizedPrompt] is the unexported field that [Unmarshal] sets. *)
Record GenerateRequest := mkGenerate {
  ge_base : baseRequest; ge_TokenIDs : option (list Z); ge_SamplingParams : option SamplingParams; Features : option (list (string * list string));
  ge_StreamOptions : option bool; ge_tokenizedPrompt : option Tokenized }.

(** The request of the gRPC endpoint. *)
Record GenerationRequest := mkGeneration { gn_base : baseRequest; gn_Prompt : string; gn_MaxTokens : option Z; gn_tokenizedPrompt : option Tokenized }.
Definition NewGenerationRequest (requestID : string) (stream : bool) (model : string) (maxTokens : option Z) : GenerationRequest :=
  mkGeneration (mkBaseRequest requestID model "" stream None false) "" maxTokens None.

(** ** Anthropic Messages *)

Record AnthropicImageSource := mkSource { as_Type : string; MediaType : string; as_Data : string; as_URL : string }.
Inductive AnthropicContentBlock :=
  mkABlock (type text : string) (source : option AnthropicImageSource) (id name : string) (input : option (list (string * Tools.json)))
           (toolUseID : string) (content : option AnthropicToolResultContent)
with AnthropicToolResultContent := mkAResult (raw : string) (blocks : list AnthropicContentBlock).

Definition ab_Type (b : AnthropicContentBlock) : string := let 'mkABlock t _ _ _ _ _ _ _ := b in t.
Definition ab_Text (b : AnthropicContentBlock) : string := let 'mkABlock _ t _ _ _ _ _ _ := b in t.
Definition ab_Source (b : AnthropicContentBlock) : option AnthropicImageSource := let 'mkABlock _ _ s _ _ _ _ _ := b in s.
Definition ab_ID (b : AnthropicContentBlock) : string := let 'mkABlock _ _ _ i _ _ _ _ := b in i.
Definition ab_Name (b : AnthropicContentBlock) : string := let 'mkABlock _ _ _ _ n _ _ _ := b in n.
Definition ab_Input (b : AnthropicContentBlock) : option (list (string * Tools.json)) := let 'mkABlock _ _ _ _ _ i _ _ := b in i.
Definition ab_ToolUseID (b : AnthropicContentBlock) : string := let 'mkABlock _ _ _ _ _ _ u _ := b in u.
Definition ab_Content (b : AnthropicContentBlock) : option AnthropicToolResultContent := let 'mkABlock _ _ _ _ _ _ _ c := b in c.

(** [AnthropicMessageContent] has the fields of a tool result. *)
Record AnthropicMessage := mkAMessage { am_Role : string; am_Raw : string; am_Blocks : list AnthropicContentBlock }.
Record AnthropicTool := mkATool { at_Name : string; at_Description : string; InputSchema : option (list (string * Tools.json)) }.
Record AnthropicToolChoice := mkAChoice { ac_Type : string; ac_Name : string }.
Record MessagesRequest := mkMessagesRequest {
  mq_base : baseRequest; mq_Messages : list AnthropicMessage; System : string; mq_MaxTokens : option Z; mq_Tools : list AnthropicTool;
  mq_ToolChoice : option AnthropicToolChoice }.

(** * Decoding *)

Definition zeroBase : baseRequest := mkBaseRequest "" "" "" false None false.
Definition zeroCompletions : baseCompletionsRequest := mkCompletions zeroBase None None None.

Definition decKV : decoder KVTransferParams := decStruct (λ l p,
  decode ← field "do_remote_decode" decBool l (DoRemoteDecode p); prefill ← field "do_remote_prefill" decBool l (DoRemotePrefill p);
  engine ← field "remote_engine_id" decString l (RemoteEngineId p); blocks ← field "remote_block_ids" (decList ""%string decString) l (RemoteBlockIds p);
  host ← field "remote_host" decString l (RemoteHost p); port ← field "remote_port" decInt l (RemotePort p); tp ← field "tp_size" decInt l (TPSize p);
  Some (mkKV decode prefill engine blocks host port tp)).
Definition zeroKV : KVTransferParams := mkKV false false "" [] "" 0 0.

(** Untagged fields go by their Go names. *)
Definition decBase (l : list (string * wire)) (b : baseRequest) : option baseRequest :=
  id ← field "requestid" decString l (RequestID b); model ← field "model" decString l (Model b); displayed ← field "displayedmodel" decString l (DisplayedModel b);
  stream ← field "stream" decBool l (Stream b); kv ← field "kv_transfer_params" (decPtr zeroKV decKV) l (b_KVParams b); eos ← field "ignore_eos" decBool l (IgnoreEOS b);
  Some (mkBaseRequest id model displayed stream kv eos).
Definition decStreamOptions : decoder (option bool) := decPtr false (decStruct (field "include_usage" decBool)).
Definition decCompletions (l : list (string * wire)) (b : baseCompletionsRequest) : option baseCompletionsRequest :=
  base ← decBase l (cr_base b); options ← field "stream_options" decStreamOptions l (StreamOptions b);
  threshold ← field "cache_hit_threshold" (decPtr f_zero decFloat) l (CacheHitThreshold b); n ← field "n" (decPtr 0 decInt) l (N_ b);
  Some (mkCompletions base options threshold n).

(** ** Chat *)

Definition decURL : decoder string := decStruct (field "url" decString).
Definition decAudio : decoder ChatComplAudioBlock := decStruct (λ l a,
  data ← field "data" decString l (au_Data a); format ← field "format" decString l (au_Format a); Some (mkAudio data format)).
Definition decBlock : decoder ContentBlock := decStruct (λ l b,
  type ← field "type" decString l (cb_Type b); text ← field "text" decString l (cb_Text b); image ← field "image_url" (decPtr ""%string decURL) l (cb_ImageURL b);
  audio ← field "input_audio" (decPtr (mkAudio "" "") decAudio) l (cb_InputAudio b); video ← field "video_url" (decPtr ""%string decURL) l (cb_VideoURL b); Some (mkBlock type text image audio video)).
(** [ChatComplContent.UnmarshalJSON]: a string, null being the empty one, or blocks. *)
Definition decContent : decoder ChatComplContent := λ cur w,
  match decString ""%string w with
  | Some str => Some (mkChatContent str (Structured cur))
  | None => match decList (mkBlock "" "" None None None) decBlock [] w with Some blocks => Some (mkChatContent (Raw cur) blocks) | None => None end
  end.
Definition decFunctionCall : decoder FunctionCall := decStruct (λ l f,
  name ← field "name" (decPtr ""%string decString) l (fc_Name f); args ← field "arguments" decString l (fc_Arguments f); Some (mkFunctionCall name args None)).
Definition decToolCall : decoder ToolCall := decStruct (λ l t,
  f ← field "function" decFunctionCall l (Function_ t); id ← field "id" decString l (tc_ID t); type ← field "type" decString l (tc_Type t);
  index ← field "index" decInt l (tc_Index t); Some (mkToolCall f id type index)).
Definition decMessage : decoder Message := decStruct (λ l m,
  role ← field "role" decString l (Role m); content ← field "content" decContent l (MContent m);
  calls ← field "tool_calls" (decList (mkToolCall (mkFunctionCall None "" None) "" "" 0) decToolCall) l (MToolCalls m);
  id ← field "tool_call_id" decString l (ToolCallID m); Some (mkMessage role content calls id)).

Definition decTool : decoder Tool := decStruct (λ l t,
  f ← field "function" (decStruct (λ l f, name ← field "name" decString l f.1.1; params ← field "parameters" decMap l f.1.2; desc ← field "description" decString l f.2; Some (name, params, desc)))
        l (t_Name t, t_Parameters t, t_Description t);
  type ← field "type" decString l (t_Type t); Some (mkApiTool f.1.1 f.1.2 f.2 type)).
Definition zeroTool : Tool := mkApiTool "" None "" "".

Section Decoding.
(** The OpenAI library decodes a custom or an allowed-tools choice. *)
Variable libraryDecodes : wire → bool.

(** [ToolChoice.UnmarshalJSON]: it is called for a null too, and has no case for it. *)
Definition decToolChoice : decoder Tools.ToolChoice := λ _ w,
  match w with
  | WStr s => Some (Tools.ChoiceAuto s)
  | WObj l =>
      type ← field "type" decString l ""%string;
      if (type =? "function")%string then
        flat ← field "name" decString l ""%string; f ← field "function" (decPtr ""%string (decStruct (field "name" decString))) l None;
        let name := match f with Some n => if (n =? "")%string then flat else n | None => flat end in
        if (name =? "")%string then None else Some (Tools.ChoiceFunction name)
      else if (type =? "custom")%string || (type =? "allowed_tools")%string then (if libraryDecodes w then Some Tools.ChoiceOther else None)
      else None
  | _ => None
  end.

Definition decChat : decoder ChatCompletionsRequest := decStruct (λ l c,
  base ← decCompletions l (ch_base c); messages ← field "messages" (decList (mkMessage "" noContent [] "") decMessage) l (ch_Messages c);
  maxTokens ← field "max_tokens" (decPtr 0 decInt) l (ch_MaxTokens c); maxCompletion ← field "max_completion_tokens" (decPtr 0 decInt) l (MaxCompletionTokens c);
  tools ← field "tools" (decSlice zeroTool decTool) l (ch_Tools c); choice ← field "tool_choice" decToolChoice l (ch_ToolChoice c);
  logprobs ← field "logprobs" decBool l (ch_Logprobs_ c); top ← field "top_logprobs" (decPtr 0 decInt) l (ch_TopLogprobs c);
  Some (mkChatRequest base messages maxTokens maxCompletion tools choice logprobs top)).
Definition zeroChat : ChatCompletionsRequest := mkChatRequest zeroCompletions [] None None None Tools.ChoiceOmitted false None.

(** [simulator.ChatCompletionsRequest] adds the id of a recorded prompt. *)
Definition unmarshalChat (w : wire) : option (ChatCompletionsRequest * option Z) :=
  c ← decChat zeroChat w; id ← decStruct (field "trace_prompt_id" (decPtr 0 decInt)) None w; Some (c, id).

(** ** Text *)

(** The four forms of [prompt], tried in this order. *)
Definition promptOf (w : wire) : option (list Requests.PromptInput) :=
  match decString ""%string w with
  | Some str => Some [Requests.PromptText str]
  | None =>
      match decSlice ""%string decString None w with
      | Some strs => Some (Requests.PromptText <$> default [] strs)
      | None =>
          match decSlice 0 decUint32 None w with
          | Some tokens => Some [Requests.PromptTokens (default [] tokens)]
          | None =>
              match decSlice None (decSlice 0 decUint32) None w with
              | Some lists => Some ((λ ids, match ids with Some ids => Requests.PromptTokens ids | None => Requests.PromptText "" end) <$> default [] lists)
              | None => None
              end
          end
      end
  end.

(** [TextCompletionsParsedRequest.UnmarshalJSON]. *)
Definition unmarshalText (w : wire) : option TextCompletionsParsedRequest :=
  a ← decStruct (λ l a,
        base ← decCompletions l a.1.1.1; maxTokens ← field "max_tokens" (decPtr 0 decInt) l a.1.1.2; logprobs ← field "logprobs" (decPtr 0 decInt) l a.1.2;
        prompt ← field "prompt" decRaw l a.2; Some (base, maxTokens, logprobs, prompt)) (zeroCompletions, None, None, None) w;
  let '(base, maxTokens, logprobs, raw) := a in
  match present raw with
  | None => Some (mkTextRequest base maxTokens logprobs [])
  | Some raw => prompt ← promptOf raw; Some (mkTextRequest base maxTokens logprobs prompt)
  end.

(** ** Responses *)

Definition inputItemMessage : string := "message".
Definition inputItemFunctionCall : string := "function_call".
Definition inputItemFunctionCallOutput : string := "function_call_output".
Definition ResponsesInputText : string := "input_text".
Definition ResponsesInputImage : string := "input_image".
Definition ResponsesInputAudio : string := "input_audio".
Definition RoleUser : string := "user".

(** [InputContent.UnmarshalJSON]. *)
Definition decInputContent : decoder InputContent := λ c w,
  raw ← decStruct (λ l r,
          type ← field "type" decString l (ic_Type r); text ← field "text" decString l (ic_Text r); url ← field "image_url" decString l (ic_ImageURL r);
          data ← field "data" decString l (AudioData r); format ← field "format" decString l (AudioFormat r); Some (mkInputContent type text url data format))
        (mkInputContent "" "" "" "" "") w;
  let type := ic_Type raw in
  if (type =? "")%string || (type =? ResponsesInputText)%string || (type =? ResponsesOutputText)%string
  then Some (mkInputContent ResponsesInputText (ic_Text raw) (ic_ImageURL c) (AudioData c) (AudioFormat c))
  else if (type =? ResponsesInputImage)%string then Some (mkInputContent ResponsesInputImage (ic_Text c) (ic_ImageURL raw) (AudioData c) (AudioFormat c))
  else if (type =? ResponsesInputAudio)%string then Some (mkInputContent ResponsesInputAudio (ic_Text c) (ic_ImageURL c) (AudioData raw) (AudioFormat raw))
  else None.

(** [InputMessage.UnmarshalJSON]. *)
Definition decInputMessage (w : wire) : option InputMessage :=
  raw ← decStruct (λ l r,
          type ← field "type" decString l r.1.1.1; role ← field "role" decString l r.1.1.2; status ← field "status" decString l r.1.2;
          content ← field "content" decRaw l r.2; Some (type, role, status, content)) (""%string, ""%string, ""%string, None) w;
  let '(type, role, status, content) := raw in
  if negb (type =? "")%string && negb (type =? inputItemMessage)%string then None
  else
    let msg := mkInputMessage inputItemMessage role status in
    match present content with
    | None => Some (msg [])
    | Some content =>
        match decString ""%string content with
        | Some str => Some (msg [mkInputContent ResponsesInputText str "" "" ""])
        | None => msg <$> decList (mkInputContent "" "" "" "" "") decInputContent [] content
        end
    end.

(** [InputFunctionCall.UnmarshalJSON]. *)
Definition decInputFunctionCall (w : wire) : option InputFunctionCall :=
  a ← decStruct (λ l a,
        type ← field "type" decString l (if_Type a); id ← field "id" decString l (if_ID a); call ← field "call_id" decString l (if_CallID a);
        name ← field "name" decString l (if_Name a); args ← field "arguments" decString l (if_Arguments a); status ← field "status" decString l (if_Status a);
        Some (mkInputCall type id call name args status)) (mkInputCall "" "" "" "" "" "") w;
  if negb (if_Type a =? "")%string && negb (if_Type a =? inputItemFunctionCall)%string then None
  else Some (mkInputCall inputItemFunctionCall (if_ID a) (if_CallID a) (if_Name a) (if_Arguments a) (if_Status a)).

(** [InputFunctionCallOutput.UnmarshalJSON]. *)
Definition decInputFunctionCallOutput (w : wire) : option InputFunctionCallOutput :=
  a ← decStruct (λ l a,
        type ← field "type" decString l (io_Type a); call ← field "call_id" decString l (io_CallID a); output ← field "output" decString l (io_Output a);
        Some (mkInputOutput type call output)) (mkInputOutput "" "" "") w;
  if negb (io_Type a =? "")%string && negb (io_Type a =? inputItemFunctionCallOutput)%string then None
  else Some (mkInputOutput inputItemFunctionCallOutput (io_CallID a) (io_Output a)).

(** The dispatch on the type of an item. *)
Definition unmarshalInputItem (w : wire) : option InputItem :=
  type ← decStruct (field "type" decString) ""%string w;
  if (type =? "")%string || (type =? inputItemMessage)%string then ItemMessage <$> decInputMessage w
  else if (type =? inputItemFunctionCall)%string then ItemCall <$> decInputFunctionCall w
  else if (type =? inputItemFunctionCallOutput)%string then ItemOutput <$> decInputFunctionCallOutput w
  else None.

Definition toolChoiceTypeFunction : string := "function".

(** One entry of [tools]: the nested shape, else the flat one. *)
Definition unmarshalResponsesTool (r : wire) : option Tool :=
  let flat :=
    f ← decStruct (λ l f,
          type ← field "type" decString l (t_Type f); name ← field "name" decString l (t_Name f); desc ← field "description" decString l (t_Description f);
          params ← field "parameters" decMap l (t_Parameters f); Some (mkApiTool name params desc type)) zeroTool r;
    if negb (t_Type f =? "")%string && negb (t_Type f =? toolChoiceTypeFunction)%string then None
    else if (t_Name f =? "")%string then None
    else Some (mkApiTool (t_Name f) (t_Parameters f) (t_Description f) toolChoiceTypeFunction) in
  match decTool zeroTool r with
  | Some nested =>
      if (t_Name nested =? "")%string then flat
      else if negb (t_Type nested =? "")%string && negb (t_Type nested =? toolChoiceTypeFunction)%string then None
      else Some (mkApiTool (t_Name nested) (t_Parameters nested) (t_Description nested) toolChoiceTypeFunction)
  | None => flat
  end.
Definition unmarshalResponsesTools (w : wire) : option (list Tool) :=
  match w with WArr l => mapM unmarshalResponsesTool l | _ => None end.

Definition decTextSettings : decoder (option TextFormat) := decStruct (field "format" (decPtr (mkFormat "" None) (decStruct (λ l f,
  type ← field "type" decString l (tf_Type f);
  schema ← field "json_schema" (decPtr (mkSchema "" None None) (decStruct (λ l j,
             name ← field "name" decString l (js_Name j); strict ← field "strict" (decPtr false decBool) l (Strict j); schema ← field "schema" decMap l (js_Schema j);
             Some (mkSchema name strict schema)))) l (JsonSchema f);
  Some (mkFormat type schema))))).

(** [input]: a string is one user message. *)
Definition inputOf (w : wire) : option (list InputItem) :=
  match decString ""%string w with
  | Some str => Some [ItemMessage (mkInputMessage inputItemMessage RoleUser "" [mkInputContent ResponsesInputText str "" "" ""])]
  | None => match w with WArr raw => mapM unmarshalInputItem raw | _ => None end
  end.

(** [ResponsesRequest.UnmarshalJSON]. *)
Definition unmarshalResponses (w : wire) : option ResponsesRequest :=
  a ← decStruct (λ l a,
        let '(r, input, tools) := a in
        base ← decBase l (rq_base r); input ← field "input" decRaw l input; instr ← field "instructions" decString l (Instructions r);
        maxTokens ← field "max_output_tokens" (decPtr 0 decInt) l (MaxOutputTokens r); text ← field "text" (decPtr None decTextSettings) l (rq_Text r);
        include ← field "include" (decList ""%string decString) l (Include r); top ← field "top_logprobs" (decPtr 0 decInt) l (rq_TopLogprobs r);
        tools ← field "tools" decRaw l tools; choice ← field "tool_choice" decToolChoice l (rq_ToolChoice r);
        Some (mkResponsesRequest base [] instr maxTokens text include top [] choice, input, tools))
      (mkResponsesRequest zeroBase [] "" None None [] None [] Tools.ChoiceOmitted, None, None) w;
  let '(r, input, tools) := a in
  tools ← match present tools with Some tools => unmarshalResponsesTools tools | None => Some [] end;
  input ← present input;
  items ← inputOf input;
  Some (mkResponsesRequest (rq_base r) items (Instructions r) (MaxOutputTokens r) (rq_Text r) (Include r) (rq_TopLogprobs r) tools (rq_ToolChoice r)).

(** ** Generate *)

Definition decHashes : decoder (list (string * list string)) := decMapOf [] (decList ""%string decString).
Definition decSampling : decoder SamplingParams := decStruct (λ l p,
  maxTokens ← field "max_tokens" (decPtr 0 decInt) l (sp_MaxTokens p);
  extra ← field "extra_args" (decPtr None (decStruct (field "kv_transfer_params" (decPtr zeroKV decKV)))) l (ExtraArgs p);
  Some (mkSampling maxTokens extra)).

(** [GenerateRequest.Unmarshal]: the transfer parameters may come in [extra_args]. *)
Definition unmarshalGenerate (w : wire) : option GenerateRequest :=
  g ← decStruct (λ l g,
        base ← decBase l (ge_base g); ids ← field "token_ids" (decSlice 0 decUint32) l (ge_TokenIDs g);
        sampling ← field "sampling_params" (decPtr (mkSampling None None) decSampling) l (ge_SamplingParams g);
        features ← field "features" (decPtr [] (decStruct (field "mm_hashes" decHashes))) l (Features g);
        options ← field "stream_options" decStreamOptions l (ge_StreamOptions g);
        Some (mkGenerate base ids sampling features options None))
      (mkGenerate zeroBase None None None None None) w;
  let b := ge_base g in
  let kv := match b_KVParams b, ge_SamplingParams g with None, Some (mkSampling _ (Some extra)) => extra | kv, _ => kv end in
  Some (mkGenerate (mkBaseRequest (RequestID b) (Model b) (DisplayedModel b) (Stream b) kv (IgnoreEOS b)) (ge_TokenIDs g) (ge_SamplingParams g) (Features g)
          (ge_StreamOptions g) (Some (mkTokenized (default [] (ge_TokenIDs g)) []))).

End Decoding.

(** ** Anthropic Messages *)

Definition decSource : decoder AnthropicImageSource := decStruct (λ l a,
  type ← field "type" decString l (as_Type a); media ← field "media_type" decString l (MediaType a); data ← field "data" decString l (as_Data a);
  url ← field "url" decString l (as_URL a); Some (mkSource type media data url)).

(** A block; [content] is a pointer to a string or to blocks again
    ([AnthropicToolResultContent.UnmarshalJSON]). *)
Fixpoint decABlock (w : wire) : option AnthropicContentBlock :=
  match w with
  | WNull => Some (mkABlock "" "" None "" "" None "" None)
  | WObj l =>
      type ← field "type" decString l ""%string; text ← field "text" decString l ""%string; source ← field "source" (decPtr (mkSource "" "" "" "") decSource) l None;
      id ← field "id" decString l ""%string; name ← field "name" decString l ""%string; input ← field "input" decMap l None; use ← field "tool_use_id" decString l ""%string;
      content ← field "content" (λ cur v,
                  let '(mkAResult raw blocks) := default (mkAResult "" []) cur in
                  match v with
                  | WNull => Some None
                  | WStr s => Some (Some (mkAResult s blocks))
                  | WArr bs =>
                      match each (λ acc b, match decABlock b with Some b => Some (acc ++ [b]) | None => None end) [] bs with
                      | Some blocks => Some (Some (mkAResult raw blocks))
                      | None => None
                      end
                  | _ => None
                  end) l None;
      Some (mkABlock type text source id name input use content)
  | _ => None
  end.

(** [AnthropicMessageContent.UnmarshalJSON]: the string and the blocks. *)
Definition decAContent : decoder (string * list AnthropicContentBlock) := λ cur w,
  match decString ""%string w with
  | Some str => Some (str, cur.2)
  | None => match decList (mkABlock "" "" None "" "" None "" None) (λ _, decABlock) [] w with Some blocks => Some (cur.1, blocks) | None => None end
  end.
Definition decAMessage : decoder AnthropicMessage := decStruct (λ l m,
  role ← field "role" decString l (am_Role m); content ← field "content" decAContent l (am_Raw m, am_Blocks m); Some (mkAMessage role content.1 content.2)).
Definition decATool : decoder AnthropicTool := decStruct (λ l t,
  name ← field "name" decString l (at_Name t); desc ← field "description" decString l (at_Description t); schema ← field "input_schema" decMap l (InputSchema t);
  Some (mkATool name desc schema)).
Definition decAChoice : decoder AnthropicToolChoice := decStruct (λ l c,
  type ← field "type" decString l (ac_Type c); name ← field "name" decString l (ac_Name c); Some (mkAChoice type name)).
Definition decMessages (w : wire) : option MessagesRequest :=
  decStruct (λ l m,
    base ← decBase l (mq_base m); messages ← field "messages" (decList (mkAMessage "" "" []) decAMessage) l (mq_Messages m); system ← field "system" decString l (System m);
    maxTokens ← field "max_tokens" (decPtr 0 decInt) l (mq_MaxTokens m); tools ← field "tools" (decList (mkATool "" "" None) decATool) l (mq_Tools m);
    choice ← field "tool_choice" (decPtr (mkAChoice "" "") decAChoice) l (mq_ToolChoice m); Some (mkMessagesRequest base messages system maxTokens tools choice))
  (mkMessagesRequest zeroBase [] "" None [] None) w.

(** * Encoding a text request *)

Definition encKV (p : KVTransferParams) : wire := WObj
  [("do_remote_decode", WBool (DoRemoteDecode p)); ("do_remote_prefill", WBool (DoRemotePrefill p)); ("remote_engine_id", WStr (RemoteEngineId p));
   ("remote_block_ids", WArr (WStr <$> RemoteBlockIds p)); ("remote_host", WStr (RemoteHost p)); ("remote_port", encInt (RemotePort p)); ("tp_size", encInt (TPSize p))]%string.
Definition encCompletions (b : baseCompletionsRequest) : list (string * wire) :=
  [("RequestID", WStr (RequestID (cr_base b))); ("model", WStr (Model (cr_base b))); ("DisplayedModel", WStr (DisplayedModel (cr_base b))); ("stream", WBool (Stream (cr_base b)))]%string ++
  omitNil "kv_transfer_params" encKV (b_KVParams (cr_base b)) ++ [("ignore_eos"%string, WBool (IgnoreEOS (cr_base b)))] ++
  omitNil "stream_options" (λ u, WObj [("include_usage"%string, WBool u)]) (StreamOptions b) ++ omitNil "cache_hit_threshold" WFrac (CacheHitThreshold b) ++ omitNil "n" encInt (N_ b).

Definition IsTokens (p : Requests.PromptInput) : bool := match p with Requests.PromptTokens _ => true | Requests.PromptText _ => false end.
Definition encTokens (p : Requests.PromptInput) : wire := match p with Requests.PromptTokens ts => WArr (encInt <$> ts) | Requests.PromptText _ => WNull end.
Definition encText (p : Requests.PromptInput) : wire := match p with Requests.PromptText s => WStr s | Requests.PromptTokens _ => WStr "" end.

(** The form of [prompt] on the wire; [None] is the error of a mixed array. *)
Definition encPrompt (l : list Requests.PromptInput) : option wire :=
  match l with
  | [] => Some WNull
  | [p] => Some (if IsTokens p then encTokens p else encText p)
  | p :: rest =>
      if forallb (λ q, Bool.eqb (IsTokens q) (IsTokens p)) rest
      then Some (WArr (if IsTokens p then encTokens <$> l else encText <$> l)) else None
  end.

(** An infinity and a NaN have no JSON form. *)
Definition encodable (x : f64) : bool := match x with SpecFloat.S754_zero _ | SpecFloat.S754_finite _ _ _ => true | _ => false end.

(** [TextCompletionsParsedRequest.MarshalJSON]. *)
Definition marshalText (t : TextCompletionsParsedRequest) : option wire :=
  prompt ← encPrompt (Prompt t);
  if match CacheHitThreshold (tx_base t) with Some x => negb (encodable x) | None => false end then None else
  Some (WObj (encCompletions (tx_base t) ++ [("max_tokens"%string, encPtr encInt (tx_MaxTokens t))] ++ omitNil "logprobs" encInt (tx_Logprobs_ t) ++ [("prompt"%string, prompt)])).

(** * Encoding chat messages *)

(** A field tagged [omitempty]: left out when it is empty. *)
Definition omitEmpty (key : string) (s : string) : list (string * wire) := if (s =? "")%string then [] else [(key, WStr s)].
Definition encURL (url : string) : wire := WObj (omitEmpty "url" url).
Definition encAudio (a : ChatComplAudioBlock) : wire := WObj (omitEmpty "data" (au_Data a) ++ omitEmpty "format" (au_Format a)).
Definition encBlock (b : ContentBlock) : wire :=
  WObj (("type"%string, WStr (cb_Type b)) :: omitEmpty "text" (cb_Text b) ++ omitNil "image_url" encURL (cb_ImageURL b) ++ omitNil "input_audio" encAudio (cb_InputAudio b) ++
        omitNil "video_url" encURL (cb_VideoURL b)).
(** [ChatComplContent.MarshalJSON], nil blocks. *)
Definition encContent (c : ChatComplContent) : wire :=
  if (Raw c =? "")%string then match Structured c with [] => WStr "" | blocks => WArr (encBlock <$> blocks) end else WStr (Raw c).
Definition encToolCall (tc : ToolCall) : wire := WObj
  [("function", WObj (("name", encPtr WStr (fc_Name (Function_ tc))) :: omitEmpty "arguments" (fc_Arguments (Function_ tc)))); ("id", WStr (tc_ID tc)); ("type", WStr (tc_Type tc));
   ("index", encInt (tc_Index tc))]%string.
(** The content is left out when it carries no data. *)
Definition contentField (c : ChatComplContent) : list (string * wire) :=
  if negb (Raw c =? "")%string || (0 <? length (Structured c))%nat then [("content"%string, encContent c)] else [].
Definition callsField (calls : list ToolCall) : list (string * wire) := match calls with [] => [] | calls => [("tool_calls"%string, WArr (encToolCall <$> calls))] end.
(** [Message.MarshalJSON]. *)
Definition encMessage (m : Message) : wire := WObj (omitEmpty "role" (Role m) ++ contentField (MContent m) ++ callsField (MToolCalls m) ++ omitEmpty "tool_call_id" (ToolCallID m)).

(** * Plain text *)

Definition ContentTypeText : string := "text".
(** [strings.Join(parts, "\n")]. *)
Fixpoint lines (parts : list string) : string := match parts with [] => "" | [p] => p | p :: ps => p +:+ newline +:+ lines ps end.

Definition blockText (b : ContentBlock) : list string :=
  if (cb_Type b =? ContentTypeText)%string then [cb_Text b]
  else if (cb_Type b =? "image_url")%string then match cb_ImageURL b with Some url => ["image: " +:+ url] | None => [] end
  else [].
Definition callText (tc : ToolCall) : string :=
  match fc_Name (Function_ tc) with Some name => "[" +:+ name +:+ "(" +:+ fc_Arguments (Function_ tc) +:+ ")]" | None => "" end.
(** [Message.PlainText]. *)
Definition PlainText (includeRole : bool) (m : Message) : string :=
  (if includeRole then Role m +:+ (if (ToolCallID m =? "")%string then "" else "(" +:+ ToolCallID m +:+ ")") +:+ ": " else "") +:+
  (if (Raw (MContent m) =? "")%string then lines (concat (blockText <$> Structured (MContent m))) else Raw (MContent m)) +:+
  join (callText <$> MToolCalls m).

Definition contentText (c : InputContent) : list string :=
  if (ic_Type c =? ResponsesInputText)%string then [ic_Text c] else if (ic_Type c =? ResponsesInputImage)%string then ["image: " +:+ ic_ImageURL c]
  else if (ic_Type c =? ResponsesInputAudio)%string then ["audio: " +:+ AudioFormat c] else [].
(** [InputMessage.PlainText]. *)
Definition inputPlainText (includeRole : bool) (m : InputMessage) : string :=
  (if includeRole then im_Role m +:+ ": " else "") +:+ lines (concat (contentText <$> im_Content m)).

Definition textOf (b : AnthropicContentBlock) : list string := if (ab_Type b =? ContentTypeText)%string then [ab_Text b] else [].
(** [AnthropicToolResultContent.PlainText]. *)
Definition resultPlainText (c : AnthropicToolResultContent) : string :=
  let '(mkAResult raw blocks) := c in if (raw =? "")%string then lines (concat (textOf <$> blocks)) else raw.

(** [AnthropicMessageContent.PlainText] and [AnthropicMessage.PlainText]. *)
Definition anthropicPlainText (includeRole : bool) (m : AnthropicMessage) : string :=
  (if includeRole then am_Role m +:+ ": " else "") +:+ (if (am_Raw m =? "")%string then lines (concat (textOf <$> am_Blocks m)) else am_Raw m).

(** * Conversions to chat messages *)

(** [convertInputToMessages], one item. *)
Definition convertContent (c : InputContent) : list ContentBlock :=
  if (ic_Type c =? ResponsesInputText)%string then [mkBlock "text" (ic_Text c) None None None]
  else if (ic_Type c =? ResponsesInputImage)%string then [mkBlock "image_url" "" (Some (ic_ImageURL c)) None None]
  else if (ic_Type c =? ResponsesInputAudio)%string then [mkBlock "input_audio" "" None (Some (mkAudio (AudioData c) (AudioFormat c))) None] else [].
Definition convertItem (item : InputItem) : Message :=
  match item with
  | ItemMessage v =>
      let structured := mkChatContent "" (concat (convertContent <$> im_Content v)) in
      mkMessage (im_Role v)
        match im_Content v with [c] => if (ic_Type c =? ResponsesInputText)%string then mkChatContent (ic_Text c) [] else structured | _ => structured end [] ""
  | ItemCall v =>
      mkMessage RoleAssistant noContent
        [mkToolCall (mkFunctionCall (Some (if_Name v)) (if_Arguments v) None) (if (if_ID v =? "")%string then if_CallID v else if_ID v) "function" 0] ""
  | ItemOutput v => mkMessage "tool" (mkChatContent (io_Output v) []) [] (io_CallID v)
  end.
Definition convertInputToMessages (input : list InputItem) : list Message := convertItem <$> input.

Definition HasFunctionCallOutput (input : list InputItem) : bool := existsb (λ item, match item with ItemOutput _ => true | _ => false end) input.

Section ToChat.
(** [json.Marshal] of a map; an error and no bytes are the same to the code. *)
Variable MarshalMap : list (string * Tools.json) → string.

(** The URL of an image block. *)
Definition sourceURL (s : AnthropicImageSource) : string := if (as_Type s =? "base64")%string then "data:" +:+ MediaType s +:+ ";base64," +:+ as_Data s else as_URL s.
Definition toContentBlock (b : AnthropicContentBlock) : list ContentBlock :=
  if (ab_Type b =? ContentTypeText)%string then [mkBlock ContentTypeText (ab_Text b) None None None]
  else if (ab_Type b =? "image")%string then match ab_Source b with Some s => [mkBlock "image_url" "" (Some (sourceURL s)) None None] | None => [] end else [].
Definition argumentsOf (b : AnthropicContentBlock) : string :=
  let args := match ab_Input b with Some input => MarshalMap input | None => ""%string end in if (args =? "")%string then "{}" else args.
Definition toToolCall (b : AnthropicContentBlock) : list ToolCall :=
  if (ab_Type b =? "tool_use")%string then [mkToolCall (mkFunctionCall (Some (ab_Name b)) (argumentsOf b) None) (ab_ID b) "function" 0] else [].
Definition toToolResult (b : AnthropicContentBlock) : list Message :=
  if (ab_Type b =? "tool_result")%string
  then [mkMessage "tool" (mkChatContent match ab_Content b with Some c => resultPlainText c | None => "" end []) [] (ab_ToolUseID b)] else [].

(** The messages of one Anthropic message. *)
Definition toMessages (am : AnthropicMessage) : list Message :=
  if negb (am_Raw am =? "")%string then [mkMessage (am_Role am) (mkChatContent (am_Raw am) []) [] ""]
  else
    let contentBlocks := concat (toContentBlock <$> am_Blocks am) in
    let toolCalls := concat (toToolCall <$> am_Blocks am) in
    match contentBlocks, toolCalls with
    | [], [] => []
    | _, _ => [mkMessage (am_Role am) (mkChatContent "" contentBlocks) toolCalls ""]
    end ++ concat (toToolResult <$> am_Blocks am).

Definition toTool (t : AnthropicTool) : Tool := mkApiTool (at_Name t) (InputSchema t) (at_Description t) "function".
Definition toToolChoice (c : option AnthropicToolChoice) : Tools.ToolChoice :=
  match c with
  | None => Tools.ChoiceOmitted
  | Some c =>
      if (ac_Type c =? "any")%string then Tools.ChoiceAuto "required" else if (ac_Type c =? "none")%string then Tools.ChoiceAuto "none"
      else if (ac_Type c =? "tool")%string && negb (ac_Name c =? "")%string then Tools.ChoiceFunction (ac_Name c) else Tools.ChoiceOmitted
  end.

(** [MessagesRequest.ToChatCompletionsRequest]. *)
Definition ToChatCompletionsRequest (m : MessagesRequest) : ChatCompletionsRequest :=
  mkChatRequest (mkCompletions (mq_base m) None None None)
    ((if (System m =? "")%string then [] else [mkMessage "system" (mkChatContent (System m) []) [] ""]) ++ concat (toMessages <$> mq_Messages m))
    None (mq_MaxTokens m) (match mq_Tools m with [] => None | tools => Some (toTool <$> tools) end) (toToolChoice (mq_ToolChoice m)) false None.

End ToChat.

(** * What the simulator does per kind *)

(** The methods of the [Request] interface that differ between the kinds; those that
    read the body of a request.  A nil dereference is [None]. *)
Class RequestMethods (R : Type) := mkMethods {
  baseOf : R → baseRequest;
  GetRawN : R → option Z;
  GetCacheHitThreshold : R → option f64;
  usageRequested : R → bool;                       (** [IncludeUsage] of a stream *)
  GetTools : R → option (list Tool);
  GetToolChoice : R → Tools.ToolChoice;
  GetMaxCompletionTokens : R → option (option Z);
  GetLogprobs : R → option Z;
  TokenizedPrompt : R → option Tokenized }.

Definition ChatRequest : RequestMethods ChatCompletionsRequest := {|
  baseOf c := cr_base (ch_base c); GetRawN c := N_ (ch_base c); GetCacheHitThreshold c := CacheHitThreshold (ch_base c);
  usageRequested c := default false (StreamOptions (ch_base c)); GetTools := ch_Tools; GetToolChoice := ch_ToolChoice;
  GetMaxCompletionTokens c := Some (match MaxCompletionTokens c with Some m => Some m | None => ch_MaxTokens c end);
  GetLogprobs c := if ch_Logprobs_ c then Some (default 1 (ch_TopLogprobs c)) else None; TokenizedPrompt _ := None |}.
#[export] Existing Instance ChatRequest.

Definition TextRequest : RequestMethods TextCompletionsParsedRequest := {|
  baseOf t := cr_base (tx_base t); GetRawN t := N_ (tx_base t); GetCacheHitThreshold t := CacheHitThreshold (tx_base t);
  usageRequested t := default false (StreamOptions (tx_base t)); GetTools _ := None; GetToolChoice _ := Tools.ChoiceOmitted;
  GetMaxCompletionTokens t := Some (tx_MaxTokens t); GetLogprobs := tx_Logprobs_; TokenizedPrompt _ := None |}.
#[export] Existing Instance TextRequest.

Definition ResponsesIncludeLogprobs : string := "message.output_text.logprobs".
Definition ResponsesKind : RequestMethods ResponsesRequest := {|
  baseOf := rq_base; GetRawN _ := None; GetCacheHitThreshold _ := None; usageRequested _ := true; GetTools r := Some (rq_Tools r); GetToolChoice := rq_ToolChoice;
  GetMaxCompletionTokens r := Some (MaxOutputTokens r);
  GetLogprobs r := if existsb (String.eqb ResponsesIncludeLogprobs) (Include r) then Some (default 0 (rq_TopLogprobs r)) else None; TokenizedPrompt _ := None |}.
#[export] Existing Instance ResponsesKind.

Definition GenerateKind : RequestMethods GenerateRequest := {|
  baseOf := ge_base; GetRawN _ := None; GetCacheHitThreshold _ := None; usageRequested g := default false (ge_StreamOptions g); GetTools _ := None;
  GetToolChoice _ := Tools.ChoiceOmitted; GetMaxCompletionTokens g := sp_MaxTokens <$> ge_SamplingParams g; GetLogprobs _ := None; TokenizedPrompt := ge_tokenizedPrompt |}.
#[export] Existing Instance GenerateKind.

Definition GenerationKind : RequestMethods GenerationRequest := {|
  baseOf := gn_base; GetRawN _ := None; GetCacheHitThreshold _ := None; usageRequested _ := true; GetTools _ := None; GetToolChoice _ := Tools.ChoiceOmitted;
  GetMaxCompletionTokens g := Some (gn_MaxTokens g); GetLogprobs _ := None; TokenizedPrompt := gn_tokenizedPrompt |}.
#[export] Existing Instance GenerationKind.

Definition IsDoRemoteDecode (b : baseRequest) : bool := match b_KVParams b with Some p => DoRemoteDecode p | None => false end.
Definition IsDoRemotePrefill (b : baseRequest) : bool := match b_KVParams b with Some p => DoRemotePrefill p | None => false end.

(** The request as the scheduler and the workers see it, before a LoRA id and the tokens are set. *)
Definition asReq {R} `{RequestMethods R} (r : R) : option Requests.Req :=
  maxTokens ← GetMaxCompletionTokens r;
  let b := baseOf r in
  Some (Requests.mkReq (RequestID b) (DisplayedModel b) (Model b) 0 (GetRawN r) maxTokens (Stream b) (usageRequested r) (IsDoRemoteDecode b) (IsDoRemotePrefill b) (IgnoreEOS b)
          false (GetCacheHitThreshold r) (Dataset.Tokens <$> TokenizedPrompt r)).

(** ** Validation *)

(** Every refusal is a 400. *)
Inductive refusal := Invalid (message : string) | BadRequest (e : Requests.reqError) | BadTrace (e : TraceWorkload.traceRequestError).

(** [validateRequest]; [None] is a panic. *)
Definition validateFor {R} `{RequestMethods R} (r : R) : option (option refusal) := q ← asReq r; Some (BadRequest <$> Requests.validateRequest q).

Section Validation.
(** [toolsValidator.validateTool] of the marshalled function: a message, if it is refused. *)
Variable validateTool : Tool → option string.

Fixpoint validateTools (tools : list Tool) : option refusal :=
  match tools with [] => None | t :: tools => match validateTool t with Some err => Some (Invalid ("Tool validation failed: " +:+ err)) | None => validateTools tools end end.

Definition hasNonTextContent (messages : list Message) : bool := existsb (λ m, existsb (λ b, negb (cb_Type b =? "text")%string) (Structured (MContent m))) messages.

(** The view of a chat request the trace path has. *)
Definition traceView (tracePromptID : option Z) (c : ChatCompletionsRequest) (q : Requests.Req) : TraceWorkload.ChatCompletionsRequest :=
  TraceWorkload.mkChat q tracePromptID false (length (default [] (ch_Tools c))) (ch_Logprobs_ c) (hasNonTextContent (ch_Messages c)) None None.

(** [ChatCompletionsRequest.validate]. *)
Definition validateChatRequest (tracePromptID : option Z) (c : ChatCompletionsRequest) : option (option refusal) :=
  match validateTools (default [] (ch_Tools c)) with
  | Some e => Some (Some e)
  | None =>
      q ← asReq c;
      Some (match TraceWorkload.validateChat (traceView tracePromptID c q) with
            | Some (TraceWorkload.ErrRequest e) => Some (BadRequest e)
            | Some e => Some (BadTrace e)
            | None => None
            end)
  end.

(** [TextCompletionsParsedRequest.ValidateBody] and [validate]. *)
Fixpoint emptyPrompt (prompts : list Requests.PromptInput) : option string :=
  match prompts with
  | [] => None
  | Requests.PromptTokens [] :: _ => Some "prompt must not contain an empty token-id array"%string
  | Requests.PromptText EmptyString :: _ => Some "prompt must not contain an empty string"%string
  | _ :: prompts => emptyPrompt prompts
  end.
Definition validateTextBody (t : TextCompletionsParsedRequest) : option string :=
  match Prompt t with [] => Some "prompt array must contain at least one prompt"%string | prompts => emptyPrompt prompts end.
Definition validateText (t : TextCompletionsParsedRequest) : option (option refusal) :=
  match validateTextBody t with Some e => Some (Some (Invalid e)) | None => validateFor t end.

(** [ResponsesRequest.validate]. *)
Definition validateResponses (r : ResponsesRequest) : option (option refusal) :=
  match validateTools (rq_Tools r) with Some e => Some (Some e) | None => validateFor r end.

(** [GenerateRequest.validate]. *)
Definition validateGenerate (g : GenerateRequest) : option (option refusal) :=
  match ge_TokenIDs g, ge_SamplingParams g with
  | None, _ => Some (Some (Invalid "Missing input token_ids"))
  | _, None => Some (Some (Invalid "Missing sampling_params field"))
  | _, _ => validateFor g
  end.

(** [MessagesRequest]: the Anthropic request and its conversion. *)
Definition validateBlocks (orig : MessagesRequest) : option refusal :=
  if existsb (λ msg, existsb (λ b, (ab_Type b =? "image")%string && bool_decide (ab_Source b = None)) (am_Blocks msg)) (mq_Messages orig)
  then Some (Invalid "image content block is missing required 'source' field")
  else match mq_ToolChoice orig with
       | Some c => if (ac_Type c =? "tool")%string && (ac_Name c =? "")%string then Some (Invalid "tool_choice of type 'tool' requires a non-empty 'name'") else None
       | None => None
       end.
Definition validateMessages (orig : MessagesRequest) (converted : ChatCompletionsRequest) : option (option refusal) :=
  match validateBlocks orig with
  | Some e => Some (Some e)
  | None =>
      match ch_Messages converted with
      | [] => Some (Some (Invalid "messages must not be empty"))
      | _ =>
          maxTokens ← GetMaxCompletionTokens converted;
          match maxTokens with None => Some (Some (Invalid "max_tokens is required")) | Some _ => validateChatRequest None converted end
      end
  end.
End Validation.

(** ** Prompts *)

Section Prompts.
(** The tokenizer: ids and strings, and for messages the multimodal features. *)
Context {MM : Type}.
Variable RenderText : string → result string Tokenized.
Variable RenderMessages : list Message → result string (Tokenized * option MM).

(** [encode] of the request contexts. *)
Definition encodeChat (c : ChatCompletionsRequest) : result string (Tokenized * option MM) := RenderMessages (ch_Messages c).
Definition encodeResponses (r : ResponsesRequest) : result string (Tokenized * option MM) := RenderMessages (convertInputToMessages (rq_Input r)).
Definition encodeText_ (p : Requests.PromptInput) : result string Tokenized :=
  match p with Requests.PromptTokens ts => Ok (mkTokenized ts []) | Requests.PromptText s => RenderText s end.
(** [Unmarshal] set the tokens; without it the pointer is nil. *)
Definition encodeGenerate (g : GenerateRequest) : option Tokenized := ge_tokenizedPrompt g.

Definition encodeGeneration (g : GenerationRequest) : result string Tokenized :=
  match gn_tokenizedPrompt g with Some t => Ok t | None => RenderText (gn_Prompt g) end.

(** The decimal ids, separated by commas. *)
Fixpoint idStrings (ids : list Z) : list string :=
  match ids with [] => [] | [id] => [pretty id] | id :: ids => (pretty id +:+ ",") :: idStrings ids end.

(** [tokenizedPromptForEcho] of the request contexts. *)
Definition echoText (p : Requests.PromptInput) (tokenized : option Tokenized) : option Tokenized :=
  match p with Requests.PromptTokens ids => Some (mkTokenized ids (idStrings ids)) | Requests.PromptText _ => tokenized end.
Definition echoChat (c : ChatCompletionsRequest) : result string Tokenized := RenderText match last (ch_Messages c) with Some m => PlainText false m | None => "" end.
Definition lastInput (r : ResponsesRequest) : string :=
  match last (rq_Input r) with
  | Some (ItemMessage m) => inputPlainText false m
  | Some (ItemOutput f) => io_Output f
  | Some (ItemCall f) => if_Name f +:+ "(" +:+ if_Arguments f +:+ ")"
  | None => ""
  end.
Definition echoResponses (r : ResponsesRequest) : result string Tokenized := RenderText (lastInput r).

(** [Render] of the render endpoints: one token list per prompt. *)
Fixpoint renderPrompts (prompts : list Requests.PromptInput) : result string (list (list Z)) :=
  match prompts with
  | [] => Ok []
  | p :: prompts =>
      let! tokens := match p with Requests.PromptTokens ts => Ok ts | Requests.PromptText s => let! t := RenderText s in Ok (Dataset.Tokens t) end in
      let! rest := renderPrompts prompts in Ok (tokens :: rest)
  end.
Definition renderChat (c : ChatCompletionsRequest) : result string (list (list Z) * option MM) :=
  let! r := RenderMessages (ch_Messages c) in Ok ([Dataset.Tokens r.1], r.2).

(** [ValidateBaseModel]. *)
Definition ValidateBaseModel (model : string) (s : Lora.SimContext) : option Error :=
  if negb (Lora.isValidModel model s) then Some (NewError ("The model `" +:+ model +:+ "` does not exist.") 404)
  else if Lora.isLora model s then Some (NewError ("The model `" +:+ model +:+ "` is a LoRA adapter and is not supported by the render endpoints.") 400)
  else None.

(** [handleRender]: the body, its shape, the model, the tokens.  The text of a decoding
    error, which the message of the first refusal ends with, is left out. *)
Definition handleRender {R Out} `{RequestMethods R} (unmarshal : option R) (ValidateBody : R → option string) (Render : R → result string Out) (s : Lora.SimContext) : result Error Out :=
  match unmarshal with
  | None => Err (NewError "Failed to read and parse request body, " 400)
  | Some req =>
      match ValidateBody req with
      | Some m => Err (NewError m 400)
      | None =>
          match ValidateBaseModel (Model (baseOf req)) s with
          | Some e => Err e
          | None => match Render req with Err e => Err (NewError ("Render failed, " +:+ e) 500) | Ok out => Ok out end
          end
      end
  end.
(** [ChatCompletionsRequest.ValidateBody]. *)
Definition validateChatBody (c : ChatCompletionsRequest) : option string :=
  match ch_Messages c with [] => Some "messages must not be empty"%string | _ => None end.
Definition HandleTextCompletionsRender (body : wire) : Lora.SimContext → result Error (list (list Z)) :=
  handleRender (unmarshalText body) validateTextBody (λ t, renderPrompts (Prompt t)).
(** The chat response is one object: the tokens of the only prompt, [tokens[0]]. *)
Definition HandleChatCompletionsRender (libraryDecodes : wire → bool) (body : wire) (s : Lora.SimContext) : result Error (list Z * option MM) :=
  let! r := handleRender (decChat libraryDecodes zeroChat body) validateChatBody renderChat s in Ok (default [] (head r.1), r.2).

End Prompts.

(** ** Tool calls *)

Section Calls.
Variable g : generator.
Variable c : Config.Configuration.
Variable rangeOrder : list (string * Tools.json) → list (string * Tools.json).
Variable Marshal : list (string * Tools.arg) → result string string.
Variable RenderText : string → result string Tokenized.
Variable fuel : nat.

Definition schemaOf (t : Tool) : Tools.Tool := Tools.mkTool (t_Name t) match t_Parameters t with Some l => Tools.JObj l | None => Tools.JNull end.

(** [chatCompletionReqCtx.createToolCalls]: no calls, or calls, their tokens and the finish reason. *)
Definition createToolCallsChat (idPrefix : list Z) (req : ChatCompletionsRequest) : Tools.fallible (list Tools.ToolCall * Z * string) :=
  match Tools.isToolChoiceNone (ch_ToolChoice req), ch_Tools req with
  | false, Some tools =>
      Tools.tryBind (Tools.createToolCalls g c rangeOrder Marshal RenderText idPrefix fuel (schemaOf <$> tools) (ch_ToolChoice req)) (λ r, Tools.succeed (r, ToolsFinishReason))
  | _, _ => Tools.succeed ([], 0, ""%string)
  end.

Definition shouldForceRequiredToolChoice (choice : Tools.ToolChoice) : bool :=
  match choice with Tools.ChoiceOmitted => true | Tools.ChoiceAuto v => (v =? "auto")%string | _ => false end.

(** [responsesReqCtx.createToolCalls]. *)
Definition createToolCallsResponses (idPrefix : list Z) (req : ResponsesRequest) : Tools.fallible (list Tools.ToolCall * Z * string) :=
  if Tools.isToolChoiceNone (rq_ToolChoice req) || (length (rq_Tools req) =? 0)%nat then Tools.succeed ([], 0, ""%string)
  else if HasFunctionCallOutput (rq_Input req) then Tools.succeed ([], 0, ""%string)
  else
    let choice := if shouldForceRequiredToolChoice (rq_ToolChoice req) then Tools.ChoiceAuto "required" else rq_ToolChoice req in
    Tools.tryBind (Tools.createSingleToolCall g c rangeOrder Marshal RenderText idPrefix fuel (schemaOf <$> rq_Tools req) choice)
      (λ r, Tools.succeed match r.1 with [] => ([], 0, ""%string) | _ => (r, ToolsFinishReason) end).
End Calls.

End ApiRequests.
