(* ===== verification/ApiRequestsProps.v ===== *)
(** The request kinds of the API: a text request is read back as it was written, the
    conversions of Messages and Responses requests keep the conversation, a Responses
    turn calls at most one tool, and what is refused. *)

From stdpp Require Import pretty.
From S2P Require Import Prelude GoFloat GoRandom BlockCache Lora KVEvents Requests Dataset Config ConfigProps Tools ToolsProps Logprobs Response TraceWorkload Wire ApiRequests.
Import GoRandom Dataset Response Wire ApiRequests.
Open Scope Z_scope.

Module ApiRequestsProps.

(** * Fields of an encoded struct *)

Lemma field_skip {A} name (dec : decoder A) k v l cur : names name k = false → field name dec ((k, v) :: l) cur = field name dec l cur.
Proof. intros E. unfold field. cbn [each fst snd]. by rewrite E. Qed.
Lemma field_hit {A} name (enc : A → wire) (dec : decoder A) P (HC : Codec enc dec P) k a l cur :
  names name k = true → P a → field name dec ((k, enc a) :: l) cur = field name dec l a.
Proof. intros E Ha. unfold field. cbn [each fst snd]. by rewrite E, (decode_encode a). Qed.
Lemma field_raw name k w l cur : names name k = true → field name decRaw ((k, w) :: l) cur = field name decRaw l (Some w).
Proof. intros E. unfold field. cbn [each fst snd]. by rewrite E. Qed.
Lemma field_omit_skip {A B} name (dec : decoder A) k (enc : B → wire) o l cur : names name k = false → field name dec (omitNil k enc o ++ l) cur = field name dec l cur.
Proof. intros E. destruct o; [by apply field_skip|done]. Qed.
Lemma field_omit_hit {A} name zero (enc : A → wire) (dec : decoder A) P (HC : Codec (encPtr enc) (decPtr zero dec) P) k o l :
  names name k = true → P o → field name (decPtr zero dec) (omitNil k enc o ++ l) None = field name (decPtr zero dec) l o.
Proof.
  intros E Ho. destruct o as [a|]; [|done]. change (omitNil k enc (Some a) ++ l) with ((k, encPtr enc (Some a)) :: l). by apply (field_hit _ _ _ _ HC).
Qed.
Lemma field_nil {A} name (dec : decoder A) cur : field name dec [] cur = Some cur.
Proof. done. Qed.

Lemma field_value {A} name (dec : decoder A) k w l cur a : names name k = true → dec cur w = Some a → field name dec ((k, w) :: l) cur = field name dec l a.
Proof. intros E Ea. unfold field. cbn [each fst snd]. by rewrite E, Ea. Qed.
Lemma field_empty_skip {A} name (dec : decoder A) k s l cur : names name k = false → field name dec (omitEmpty k s ++ l) cur = field name dec l cur.
Proof. intros E. unfold omitEmpty. destruct (String.eqb s ""); [done|by apply field_skip]. Qed.
Lemma field_empty_hit name k s l : names name k = true → field name decString (omitEmpty k s ++ l) ""%string = field name decString l s.
Proof. intros E. unfold omitEmpty. destruct (String.eqb_spec s "") as [->|]; [done|]. by apply field_value. Qed.
Lemma field_nil_hit {A} name zero (dec : decoder A) k (enc : A → wire) o l : names name k = true → (∀ a, enc a ≠ WNull) → (∀ a, o = Some a → dec zero (enc a) = Some a) →
  field name (decPtr zero dec) (omitNil k enc o ++ l) None = field name (decPtr zero dec) l o.
Proof.
  intros E Hn Ho. destruct o as [a|]; [|done]. apply field_value; [done|]. unfold decPtr. cbn [default]. specialize (Hn a). specialize (Ho a eq_refl). destruct (enc a); try done; by rewrite Ho.
Qed.

(** Pass over the keys of other fields. *)
Ltac skip_keys :=
  repeat first [rewrite field_skip by (vm_compute; reflexivity) | rewrite field_omit_skip by (vm_compute; reflexivity) | rewrite field_empty_skip by (vm_compute; reflexivity)]; rewrite ?field_nil.

(** * A text request is read back *)

Definition int64 (z : Z) : Prop := - 2 ^ 63 ≤ z < 2 ^ 63.
Definition maybe (P : Z → Prop) (o : option Z) : Prop := match o with Some z => P z | None => True end.
Definition PromptFits (p : Requests.PromptInput) : Prop := match p with Requests.PromptTokens ts => Forall (λ t, 0 ≤ t < 2 ^ 32) ts | Requests.PromptText _ => True end.
(** The fields have values of their Go types that JSON can express. *)
Record Fits (t : TextCompletionsParsedRequest) : Prop := mkFits {
  fit_kv : match b_KVParams (cr_base (tx_base t)) with Some p => int64 (RemotePort p) ∧ int64 (TPSize p) | None => True end;
  fit_n : maybe int64 (N_ (tx_base t)); fit_max : maybe int64 (tx_MaxTokens t); fit_logprobs : maybe int64 (tx_Logprobs_ t);
  fit_threshold : ∀ x, CacheHitThreshold (tx_base t) = Some x → encodable x = true;
  fit_prompt : Forall PromptFits (Prompt t) }.

#[local] Instance int_ptr_codec : Codec (encPtr encInt) (decPtr 0 decInt) (maybe int64).
Proof. exact (ptr_codec 0 encInt decInt _ int_codec (λ _, ltac:(done))). Qed.
#[local] Instance float_ptr_codec : Codec (encPtr WFrac) (decPtr f_zero decFloat) (λ o, match o with Some _ => True | None => True end).
Proof. exact (ptr_codec f_zero WFrac decFloat _ float_codec (λ _, ltac:(done))). Qed.
#[local] Instance strings_codec : Codec (λ l, WArr (WStr <$> l)) (decList ""%string decString) (λ _, True).
Proof. intros l cur _. unfold decList, decSlice. by rewrite (decElems_ok ""%string WStr decString (λ _, True) string_codec) by (by apply Forall_forall). Qed.

(** The value [a] of the next field, read by [tac]. *)
Ltac next_field tac :=
  match goal with |- mbind _ (field ?name ?dec ?l ?cur) = _ =>
    let E := fresh "E" in eassert (field name dec l cur = Some _) as E; [skip_keys; tac; skip_keys; reflexivity|]; rewrite E; clear E; cbn [mbind option_bind]
  end.
Ltac side := first [done | assumption | vm_compute; reflexivity].
Ltac read_field C := next_field ltac:(rewrite (field_hit _ _ _ _ C) by side).

Lemma kv_codec : Codec encKV decKV (λ p, int64 (RemotePort p) ∧ int64 (TPSize p)).
Proof.
  intros p cur [H1 H2]. unfold encKV, decKV, decStruct.
  do 2 read_field bool_codec. read_field string_codec. read_field strings_codec. read_field string_codec. do 2 read_field int_codec. by destruct p.
Qed.
#[local] Instance kv_ptr_codec : Codec (encPtr encKV) (decPtr zeroKV decKV) (λ o, match o with Some p => int64 (RemotePort p) ∧ int64 (TPSize p) | None => True end).
Proof. exact (ptr_codec zeroKV encKV decKV _ kv_codec (λ _, ltac:(done))). Qed.
Lemma usage_codec : Codec (λ u, WObj [("include_usage"%string, WBool u)]) (decStruct (field "include_usage" decBool)) (λ _, True).
Proof. intros u cur _. unfold decStruct. by rewrite (field_hit _ _ _ _ bool_codec) by side. Qed.
#[local] Instance options_codec : Codec (encPtr (λ u, WObj [("include_usage"%string, WBool u)])) decStreamOptions (λ o, match o with Some _ => True | None => True end).
Proof. exact (ptr_codec false _ _ _ usage_codec (λ _, ltac:(done))). Qed.

Section Envelope.
Context (b : baseCompletionsRequest) (rest : list (string * wire)).
Hypothesis Hkv : match b_KVParams (cr_base b) with Some p => int64 (RemotePort p) ∧ int64 (TPSize p) | None => True end.
Hypothesis Hn : maybe int64 (N_ b).

(** A field that is not of the envelope. *)
Lemma field_envelope {A} name (dec : decoder A) cur :
  forallb (λ key, negb (names name key)) ["RequestID"; "model"; "DisplayedModel"; "stream"; "kv_transfer_params"; "ignore_eos"; "stream_options"; "cache_hit_threshold"; "n"]%string = true →
  field name dec (encCompletions b ++ rest) cur = field name dec rest cur.
Proof.
  cbn [forallb]. rewrite !andb_true_iff, !negb_true_iff. intros (H1 & H2 & H3 & H4 & H5 & H6 & H7 & H8 & H9 & _). unfold encCompletions. rewrite <- !app_assoc. cbn [app].
  rewrite 4!field_skip by done. rewrite field_omit_skip by done. rewrite field_skip by done. by rewrite 3!field_omit_skip by done.
Qed.

(** The fields of the envelope, from keys that name none of them in [rest]. *)
Definition envelopeNames : list string := ["requestid"; "model"; "displayedmodel"; "stream"; "kv_transfer_params"; "ignore_eos"; "stream_options"; "cache_hit_threshold"; "n"]%string.
Hypothesis Hrest : forallb (λ kv, forallb (λ name, negb (names name kv.1)) envelopeNames) rest = true.

Lemma field_rest {A} name (dec : decoder A) cur : existsb (String.eqb name) envelopeNames = true → field name dec rest cur = Some cur.
Proof using Hrest.
  intros (n & Hn' & ->%String.eqb_eq)%existsb_exists. clear Hkv Hn. induction rest as [|[k v] l IH]; [done|]. cbn [forallb] in Hrest. apply andb_true_iff in Hrest as [Hk Hl].
  rewrite field_skip; [by apply IH|]. rewrite forallb_forall in Hk. by apply negb_true_iff, Hk.
Qed.

Ltac last_keys := skip_keys; apply field_rest; vm_compute; reflexivity.
Ltac read_first C := next_field ltac:(rewrite (field_hit _ _ _ _ C) by side; last_keys).

Lemma envelope_read : decCompletions (encCompletions b ++ rest) zeroCompletions = Some b.
Proof using Hkv Hn Hrest.
  unfold decCompletions, decBase, encCompletions, zeroCompletions, zeroBase. cbn [cr_base RequestID Model DisplayedModel Stream b_KVParams IgnoreEOS StreamOptions CacheHitThreshold N_]. rewrite <- !app_assoc. cbn [app].
  eassert (_ = Some (cr_base b)) as ->.
  { do 3 (read_first string_codec). read_first bool_codec. next_field ltac:(rewrite (field_omit_hit _ _ _ _ _ kv_ptr_codec) by side; last_keys). read_first bool_codec. by destruct (cr_base b). }
  cbn [mbind option_bind]. unfold decStreamOptions.
  next_field ltac:(rewrite (field_omit_hit _ _ _ _ _ options_codec) by (first [by destruct (StreamOptions b) | side]); last_keys).
  next_field ltac:(rewrite (field_omit_hit _ _ _ _ _ float_ptr_codec) by (first [by destruct (CacheHitThreshold b) | side]); last_keys).
  next_field ltac:(rewrite (field_omit_hit _ _ _ _ _ int_ptr_codec) by side; last_keys). by destruct b.
Qed.
End Envelope.

Definition Homogeneous (l : list Requests.PromptInput) : Prop := ∀ p q, p ∈ l → q ∈ l → IsTokens p = IsTokens q.
(** A lone empty list of token ids is an empty array on the wire. *)
Definition readBack (l : list Requests.PromptInput) : list Requests.PromptInput := match l with [Requests.PromptTokens []] => [] | _ => l end.

Lemma homogeneous_forms l : Homogeneous l → (∃ ss, l = Requests.PromptText <$> ss) ∨ (∃ tss, l = Requests.PromptTokens <$> tss).
Proof.
  induction l as [|p l IH]; intros H; [by left; exists []|]. destruct IH as [[ss ->]|[tss ->]]; [intros q q' ? ?; apply H; set_solver|..].
  - destruct p as [s|ts]; [left; by exists (s :: ss)|]. destruct ss as [|s ss]; [right; by exists [ts]|].
    discriminate (H (Requests.PromptTokens ts) (Requests.PromptText s) ltac:(set_solver) ltac:(set_solver)).
  - destruct p as [s|ts]; [|right; by exists (ts :: tss)]. destruct tss as [|ts tss]; [left; by exists [s]|].
    discriminate (H (Requests.PromptText s) (Requests.PromptTokens ts) ltac:(set_solver) ltac:(set_solver)).
Qed.

Lemma encPrompt_homogeneous l : Homogeneous l → encPrompt l = Some match l with [] => WNull | [p] => if IsTokens p then encTokens p else encText p | p :: _ => WArr (if IsTokens p then encTokens <$> l else encText <$> l) end.
Proof.
  intros H. destruct l as [|p [|q l]]; [done..|]. cbn [encPrompt]. replace (forallb _ _) with true; [done|]. symmetry. apply forallb_forall.
  intros x Hx%list_elem_of_In. apply Bool.eqb_true_iff, H; set_solver.
Qed.
Lemma encPrompt_mixed l : ¬ Homogeneous l → encPrompt l = None.
Proof.
  intros H. destruct l as [|p [|q l]]; [destruct H; intros ? ? []%elem_of_nil|destruct H; by intros ? ? ->%list_elem_of_singleton ->%list_elem_of_singleton|].
  cbn [encPrompt]. destruct (forallb _ (q :: l)) eqn:E; [|done]. destruct H. rewrite forallb_forall in E.
  assert (∀ x, x ∈ p :: q :: l → IsTokens x = IsTokens p) as Hp; [|intros x y Hx Hy; by rewrite (Hp x), (Hp y)].
  intros x [->|Hx]%elem_of_cons; [done|]. by apply Bool.eqb_true_iff, E, list_elem_of_In.
Qed.

(** Reading the three array forms. *)
Lemma promptOf_strings ss : promptOf (WArr (WStr <$> ss)) = Some (Requests.PromptText <$> ss).
Proof. unfold promptOf, decSlice. cbn [decString]. by rewrite (decElems_ok ""%string WStr decString (λ _, True) string_codec) by (by apply Forall_forall). Qed.
Lemma tokens_codec : Codec (λ o, WArr (encInt <$> default [] o)) (decSlice 0 decUint32) (λ o, is_Some o ∧ Forall (λ t, 0 ≤ t < 2 ^ 32) (default [] o)).
Proof. intros o cur [[l ->] Hl]. unfold decSlice. cbn [default]. by rewrite (decElems_ok 0 encInt decUint32 _ uint32_codec). Qed.
Lemma promptOf_tokens t ts : Forall (λ t, 0 ≤ t < 2 ^ 32) (t :: ts) → promptOf (WArr (encInt <$> t :: ts)) = Some [Requests.PromptTokens (t :: ts)].
Proof.
  intros H. unfold promptOf. cbn [decString]. replace (decSlice ""%string decString None _) with (@None (option (list string))).
  - change (WArr (encInt <$> t :: ts)) with (WArr (encInt <$> default [] (Some (t :: ts)))). rewrite (tokens_codec (Some (t :: ts)) None) by (by split). done.
  - unfold decSlice. rewrite (decElems_None _ _ (encInt t)); [done|apply elem_of_cons; by left|done].
Qed.
Lemma promptOf_lists ts tss : Forall (Forall (λ t, 0 ≤ t < 2 ^ 32)) (ts :: tss) →
  promptOf (WArr ((λ ts, WArr (encInt <$> ts)) <$> ts :: tss)) = Some (Requests.PromptTokens <$> ts :: tss).
Proof.
  intros H. unfold promptOf. cbn [decString].
  replace (decSlice ""%string decString None _) with (@None (option (list string))); [|unfold decSlice; rewrite (decElems_None _ _ (WArr (encInt <$> ts))); [done|apply elem_of_cons; by left|done]].
  replace (decSlice 0 decUint32 None _) with (@None (option (list Z))); [|unfold decSlice; rewrite (decElems_None _ _ (WArr (encInt <$> ts))); [done|apply elem_of_cons; by left|done]].
  unfold decSlice at 1. replace ((λ ts, WArr (encInt <$> ts)) <$> ts :: tss) with ((λ o, WArr (encInt <$> default [] o)) <$> (Some <$> ts :: tss)) by (rewrite <- list_fmap_compose; done).
  rewrite (decElems_ok None _ _ _ tokens_codec); [|rewrite Forall_fmap; eapply Forall_impl; [exact H|]; intros l Hl; by split].
  change (Some ((λ ids, match ids with Some ids => Requests.PromptTokens ids | None => Requests.PromptText "" end) <$> (Some <$> ts :: tss)) = Some (Requests.PromptTokens <$> ts :: tss)).
  by rewrite <- list_fmap_compose.
Qed.

Lemma prompt_read l w : Forall PromptFits l → Homogeneous l → encPrompt l = Some w →
  match present (Some w) with None => l = [] | Some w' => promptOf w' = Some (readBack l) end.
Proof.
  intros Hf Hh. rewrite (encPrompt_homogeneous l Hh). intros [= <-]. destruct (homogeneous_forms l Hh) as [[ss ->]|[tss ->]].
  - destruct ss as [|s [|s' ss]]; [done..|].
    cbn [IsTokens fmap list_fmap present]. change (promptOf (WArr (encText <$> (Requests.PromptText <$> s :: s' :: ss))) = Some (Requests.PromptText <$> s :: s' :: ss)).
    rewrite <- list_fmap_compose. apply promptOf_strings.
  - rewrite Forall_fmap in Hf. change (Forall (Forall (λ t, 0 ≤ t < 2 ^ 32)) tss) in Hf. destruct tss as [|ts [|ts' tss]]; [done| |].
    + rewrite Forall_singleton in Hf. destruct ts as [|t ts]; [done|]. exact (promptOf_tokens t ts Hf).
    + replace (readBack _) with (Requests.PromptTokens <$> ts :: ts' :: tss) by (by destruct ts). cbn [IsTokens fmap list_fmap present]. change (promptOf (WArr (encTokens <$> (Requests.PromptTokens <$> ts :: ts' :: tss))) = Some (Requests.PromptTokens <$> ts :: ts' :: tss)).
      rewrite <- list_fmap_compose. by apply promptOf_lists.
Qed.

(** C10: a text request is read back as it was written: with prompts of one form, marshalling
    succeeds and unmarshalling the result gives the same request, field by field, except
    that a lone empty list of token ids reads back as no prompt; prompts of mixed
    forms are refused. *)
Theorem text_request_roundtrip t : Fits t →
  (Homogeneous (Prompt t) → ∃ w, marshalText t = Some w ∧ unmarshalText w = Some (mkTextRequest (tx_base t) (tx_MaxTokens t) (tx_Logprobs_ t) (readBack (Prompt t)))) ∧
  (¬ Homogeneous (Prompt t) → marshalText t = None).
Proof.
  intros [Hkv Hn Hm Hl Ht Hp]. split; [|intros H; unfold marshalText; by rewrite (encPrompt_mixed _ H)].
  intros Hh. pose proof (prompt_read (Prompt t)) as Hr. unfold marshalText. rewrite (encPrompt_homogeneous _ Hh) in *. set (w := match Prompt t with [] => _ | _ => _ end) in *. specialize (Hr w Hp Hh eq_refl).
  cbn [mbind option_bind]. replace (match CacheHitThreshold (tx_base t) with Some x => negb (encodable x) | None => false end) with false by (destruct (CacheHitThreshold (tx_base t)) as [x|]; [by rewrite Ht|done]).
  eexists. split; [reflexivity|]. unfold unmarshalText, decStruct.
  match goal with |- mbind _ ?m = _ => assert (m = Some (tx_base t, tx_MaxTokens t, tx_Logprobs_ t, Some w)) as -> end.
  { rewrite envelope_read; [|done|done|by destruct (tx_Logprobs_ t)]. cbn [mbind option_bind fst snd]. rewrite !field_envelope by (vm_compute; reflexivity). cbn [app].
    read_field int_ptr_codec. next_field ltac:(rewrite (field_omit_hit _ _ _ _ _ int_ptr_codec) by side). next_field ltac:(rewrite field_raw by (vm_compute; reflexivity)). done. }
  cbn [mbind option_bind].
  destruct (present (Some w)) as [w'|]; [by rewrite Hr|]. by rewrite Hr.
Qed.

(** * Chat messages are read back *)

Ltac read_string := next_field ltac:(rewrite field_empty_hit by (vm_compute; reflexivity)).
Ltac end_list := match goal with |- context [WObj ?l] => rewrite <- (app_nil_r l) end; rewrite <- ?app_assoc; cbn [app]; rewrite <- ?app_assoc.

Lemma url_read u : decURL ""%string (encURL u) = Some u.
Proof. unfold encURL. end_list. unfold decURL, decStruct. by rewrite field_empty_hit by done. Qed.
Lemma audio_read a : decAudio (mkAudio "" "") (encAudio a) = Some a.
Proof. unfold encAudio. end_list. unfold decAudio, decStruct. cbn [au_Data au_Format]. do 2 read_string. by destruct a. Qed.
Lemma block_read b : decBlock (mkBlock "" "" None None None) (encBlock b) = Some b.
Proof.
  unfold encBlock. end_list. unfold decBlock, decStruct. cbn [cb_Type cb_Text cb_ImageURL cb_InputAudio cb_VideoURL]. read_field string_codec. read_string.
  next_field ltac:(rewrite field_nil_hit by first [done | intros; apply url_read | vm_compute; reflexivity]).
  next_field ltac:(rewrite field_nil_hit by first [done | intros; apply audio_read | vm_compute; reflexivity]).
  next_field ltac:(rewrite field_nil_hit by first [done | intros; apply url_read | vm_compute; reflexivity]). by destruct b.
Qed.

#[local] Instance string_ptr_codec : Codec (encPtr WStr) (decPtr ""%string decString) (λ o, match o with Some _ => True | None => True end).
Proof. exact (ptr_codec ""%string WStr decString _ string_codec (λ _, ltac:(done))). Qed.

(** A call as a client sends it: its arguments are not tokenized. *)
Definition CallSent (tc : ToolCall) : Prop := fc_tokenized (Function_ tc) = None ∧ int64 (tc_Index tc).
Definition noCall : ToolCall := mkToolCall (mkFunctionCall None "" None) "" "" 0.

Lemma function_read f : fc_tokenized f = None →
  decFunctionCall (mkFunctionCall None "" None) (WObj (("name"%string, encPtr WStr (fc_Name f)) :: omitEmpty "arguments" (fc_Arguments f))) = Some f.
Proof.
  intros Ht. end_list. unfold decFunctionCall, decStruct. cbn [fc_Name fc_Arguments].
  next_field ltac:(rewrite (field_hit _ _ _ _ string_ptr_codec) by (first [by destruct (fc_Name f) | vm_compute; reflexivity])). read_string. destruct f. cbn in Ht. by rewrite Ht.
Qed.
Lemma call_read tc : CallSent tc → decToolCall noCall (encToolCall tc) = Some tc.
Proof.
  intros [Ht Hi]. unfold encToolCall, decToolCall, decStruct, noCall. cbn [Function_ tc_ID tc_Type tc_Index].
  next_field ltac:(rewrite (field_value _ _ _ _ _ _ (Function_ tc)) by (first [by apply function_read | vm_compute; reflexivity])).
  do 2 read_field string_codec. read_field int_codec. by destruct tc.
Qed.

(** A message in the form clients send and the conversions build. *)
Record MessageSent (m : Message) : Prop := mkSent { sent_content : Raw (MContent m) = ""%string ∨ Structured (MContent m) = []; sent_calls : Forall CallSent (MToolCalls m) }.
Definition noMessage : Message := mkMessage "" noContent [] "".

Lemma content_read c : Raw c = ""%string ∨ Structured c = [] → decContent noContent (encContent c) = Some c.
Proof.
  destruct c as [raw blocks]. cbn [Raw Structured]. intros H. unfold encContent. cbn [Raw Structured]. destruct (String.eqb_spec raw "") as [->|Hr].
  - destruct blocks as [|b bs]; [done|]. unfold decContent. cbn [decString]. unfold decList, decSlice. rewrite decElems_at; [done|]. apply Forall_forall. intros x _. apply block_read.
  - destruct H as [->| ->]; done.
Qed.

Lemma contentField_skip {A} name (dec : decoder A) c l cur : names name "content" = false → field name dec (contentField c ++ l) cur = field name dec l cur.
Proof. intros E. unfold contentField. destruct (_ || _); [by apply field_skip|done]. Qed.
Lemma contentField_hit c l : Raw c = ""%string ∨ Structured c = [] → field "content" decContent (contentField c ++ l) noContent = field "content" decContent l c.
Proof.
  intros H. unfold contentField. destruct (_ || _) eqn:E; [apply field_value; [done|by apply content_read]|]. apply orb_false_iff in E as [E1 E2]. apply negb_false_iff, String.eqb_eq in E1.
  destruct c as [raw [|b bs]]; [|done]. cbn in E1. by subst raw.
Qed.
Lemma callsField_skip {A} name (dec : decoder A) calls l cur : names name "tool_calls" = false → field name dec (callsField calls ++ l) cur = field name dec l cur.
Proof. intros E. destruct calls; [done|by apply field_skip]. Qed.
Lemma callsField_hit calls l : Forall CallSent calls → field "tool_calls" (decList noCall decToolCall) (callsField calls ++ l) [] = field "tool_calls" (decList noCall decToolCall) l calls.
Proof.
  intros H. destruct calls as [|tc calls]; [done|]. apply field_value; [done|]. unfold decList, decSlice. rewrite decElems_at; [done|]. eapply Forall_impl; [exact H|]. exact call_read.
Qed.

Ltac over_message := repeat (skip_keys; first [rewrite contentField_skip by (vm_compute; reflexivity) | rewrite callsField_skip by (vm_compute; reflexivity)]); skip_keys.

(** A message written for the render service is read back as it was. *)
Theorem message_roundtrip m : MessageSent m → decMessage noMessage (encMessage m) = Some m.
Proof.
  intros [Hc Hcalls]. unfold encMessage. end_list. unfold decMessage, decStruct, noMessage. cbn [Role MContent MToolCalls ToolCallID]. fold noCall.
  next_field ltac:(rewrite field_empty_hit by (vm_compute; reflexivity); over_message). next_field ltac:(rewrite contentField_hit by done; over_message).
  next_field ltac:(over_message; rewrite callsField_hit by done). next_field ltac:(over_message; rewrite field_empty_hit by (vm_compute; reflexivity)). by destruct m.
Qed.

(** * Messages requests keep the conversation *)

(** What a conversation consists of, whatever the API it is written for. *)
Inductive event := Said (role text : string) | Shown (role url : string) | Called (role id name arguments : string) | Answered (id text : string).
Definition content (e : event) : bool := match e with Said _ _ | Shown _ _ => true | _ => false end.
Definition call (e : event) : bool := match e with Called _ _ _ _ => true | _ => false end.
Definition answer (e : event) : bool := match e with Answered _ _ => true | _ => false end.
(** Content, then calls, then answers, each in their order. *)
Definition inOrder (l : list event) : list event := List.filter content l ++ List.filter call l ++ List.filter answer l.

Lemma inOrder_perm l : inOrder l ≡ₚ l.
Proof.
  unfold inOrder. induction l as [|e l IH]; [done|]. destruct e; cbn [List.filter content call answer app]; (etrans; [|apply Permutation_skip, IH]); [done..|symmetry; apply Permutation_middle|].
  rewrite !app_assoc. symmetry. apply Permutation_middle.
Qed.

Section Conversation.
Variable MarshalMap : list (string * Tools.json) → string.

(** The conversation of an Anthropic request. *)
Definition blockEvents (role : string) (b : AnthropicContentBlock) : list event :=
  if (ab_Type b =? "text")%string then [Said role (ab_Text b)]
  else if (ab_Type b =? "image")%string then match ab_Source b with Some s => [Shown role (sourceURL s)] | None => [] end
  else if (ab_Type b =? "tool_use")%string then [Called role (ab_ID b) (ab_Name b) (argumentsOf MarshalMap b)]
  else if (ab_Type b =? "tool_result")%string then [Answered (ab_ToolUseID b) match ab_Content b with Some c => resultPlainText c | None => "" end]
  else [].
Definition spoken (am : AnthropicMessage) : list event :=
  if (am_Raw am =? "")%string then concat (blockEvents (am_Role am) <$> am_Blocks am) else [Said (am_Role am) (am_Raw am)].
Definition systemSaid (m : MessagesRequest) : list event := if (System m =? "")%string then [] else [Said "system" (System m)].

(** The conversation of chat messages. *)
Definition chatBlockEvents (role : string) (b : ContentBlock) : list event :=
  if (cb_Type b =? "text")%string then [Said role (cb_Text b)]
  else if (cb_Type b =? "image_url")%string then match cb_ImageURL b with Some url => [Shown role url] | None => [] end else [].
Definition chatEvents (m : Message) : list event :=
  if (Role m =? "tool")%string then [Answered (ToolCallID m) (Raw (MContent m))]
  else (if (Raw (MContent m) =? "")%string then concat (chatBlockEvents (Role m) <$> Structured (MContent m)) else [Said (Role m) (Raw (MContent m))]) ++
       ((λ tc, Called (Role m) (tc_ID tc) (default "" (fc_Name (Function_ tc))) (fc_Arguments (Function_ tc))) <$> MToolCalls m).

Definition knownTypes : list string := ["text"; "image"; "tool_use"; "tool_result"]%string.
Ltac by_type b := unfold blockEvents, toContentBlock, toToolCall, toToolResult, ContentTypeText;
  repeat match goal with |- context [String.eqb (ab_Type b) ?t] => let E := fresh "E" in destruct (String.eqb_spec (ab_Type b) t) as [E|E]; [rewrite ?E; cbn [String.eqb Ascii.eqb Bool.eqb]|] end.

(** The three parts of a message, block by block. *)
Lemma content_events role b : concat (chatBlockEvents role <$> toContentBlock b) = List.filter content (blockEvents role b).
Proof. by_type b; try done. by destruct (ab_Source b). Qed.
Lemma call_events role b : (λ tc, Called role (tc_ID tc) (default ""%string (fc_Name (Function_ tc))) (fc_Arguments (Function_ tc))) <$> toToolCall MarshalMap b = List.filter call (blockEvents role b).
Proof. by_type b; try done. by destruct (ab_Source b). Qed.
Lemma answer_events role b : concat (chatEvents <$> toToolResult b) = List.filter answer (blockEvents role b).
Proof. by_type b; try done. by destruct (ab_Source b). Qed.

Lemma filter_concat {A} (f : A → bool) (ls : list (list A)) : List.filter f (concat ls) = concat (List.filter f <$> ls).
Proof. induction ls as [|l ls IH]; [done|]. cbn. by rewrite List.filter_app, IH. Qed.
Lemma concat_concat_fmap {A B C} (f : B → list C) (h : A → list B) l : concat (f <$> concat (h <$> l)) = concat ((λ a, concat (f <$> h a)) <$> l).
Proof. induction l as [|a l IH]; [done|]. cbn. by rewrite fmap_app, concat_app, IH. Qed.
Lemma fmap_concat {A B C} (f : B → C) (h : A → list B) l : f <$> concat (h <$> l) = concat ((λ a, f <$> h a) <$> l).
Proof. induction l as [|a l IH]; [done|]. cbn. by rewrite fmap_app, IH. Qed.
Lemma concat_fmap_ext {A B} (f h : A → list B) l : (∀ a, a ∈ l → f a = h a) → concat (f <$> l) = concat (h <$> l).
Proof. intros H. f_equal. apply list_fmap_ext. intros i a Ha. by apply H, list_elem_of_lookup_2 with i. Qed.

Lemma message_events am : am_Role am ≠ "tool"%string → concat (chatEvents <$> toMessages MarshalMap am) = inOrder (spoken am).
Proof.
  intros Hrole. unfold toMessages, spoken. destruct (String.eqb_spec (am_Raw am) "") as [Hraw|Hraw]; cbn [negb].
  2: { cbn. unfold chatEvents. cbn [Role MContent Raw MToolCalls]. destruct (String.eqb_spec (am_Role am) "tool"); [done|]. by destruct (String.eqb_spec (am_Raw am) ""). }
  rewrite fmap_app, concat_app. unfold inOrder. rewrite !filter_concat, app_assoc. f_equal.
  2: { rewrite concat_concat_fmap, <- list_fmap_compose. apply concat_fmap_ext. intros b _. apply answer_events. }
  set (blocks := concat (toContentBlock <$> _)). set (calls := concat (toToolCall _ <$> _)).
  assert (∀ l, l = [mkMessage (am_Role am) (mkChatContent "" blocks) calls ""] → concat (chatEvents <$> l) = concat (List.filter content <$> (blockEvents (am_Role am) <$> am_Blocks am)) ++ concat (List.filter call <$> (blockEvents (am_Role am) <$> am_Blocks am))) as Hone.
  { intros l ->. cbn. rewrite app_nil_r. unfold chatEvents. cbn [Role MContent Raw Structured MToolCalls]. destruct (String.eqb_spec (am_Role am) "tool"); [done|]. cbn [String.eqb]. f_equal.
    - subst blocks. rewrite concat_concat_fmap, <- list_fmap_compose. apply concat_fmap_ext. intros b _. apply content_events.
    - subst calls. rewrite fmap_concat, <- list_fmap_compose. apply concat_fmap_ext. intros b _. apply call_events. }
  specialize (Hone _ eq_refl). rewrite <- Hone. destruct blocks as [|? ?]; [destruct calls as [|? ?]; [|done]|done].
  cbn. unfold chatEvents. cbn [Role MContent Raw Structured MToolCalls]. by destruct (String.eqb_spec (am_Role am) "tool").
Qed.
End Conversation.

(** * Validation *)

(** What the workers rely on. *)
Record Ready (q : Requests.Req) : Prop := mkReady {
  ready_n : maybe (λ n, 0 < n) (Requests.N q);
  ready_max : maybe (λ n, 0 < n) (Requests.MaxTokens q);
  ready_prefill : Requests.DoRemoteDecode q = true → Requests.Stream q = false;
  ready_eos : Requests.IgnoreEOS q = true → is_Some (Requests.MaxTokens q) }.

Lemma union_None_inv {A} (x y : option A) : x ∪ y = None → x = None ∧ y = None.
Proof. by destruct x, y. Qed.
Lemma validateRequest_ready q : Requests.validateRequest q = None → Ready q.
Proof.
  unfold Requests.validateRequest. intros [[[H1 H2]%union_None_inv H3]%union_None_inv H4]%union_None_inv. split.
  - destruct (Requests.N q) as [n|]; [|done]. cbn. destruct (Z.leb_spec n 0); [done|lia].
  - destruct (Requests.MaxTokens q) as [n|]; [|done]. cbn. destruct (Z.leb_spec n 0); [done|lia].
  - intros E. rewrite E in H3. by destruct (Requests.Stream q).
  - intros E. rewrite E in H4. cbn in H4. case_bool_decide; done.
Qed.
Lemma validateChatRequest_accepts validateTool id c : validateChatRequest validateTool id c = Some None → ∃ q, asReq c = Some q ∧ Ready q.
Proof.
  unfold validateChatRequest. destruct (validateTools _ _); [done|]. destruct (asReq c) as [q|]; [|done]. cbn [mbind option_bind]. intros Hv. exists q. split; [done|]. apply validateRequest_ready. revert Hv.
  unfold TraceWorkload.validateChat, traceView. cbn [TraceWorkload.cc_TracePromptID TraceWorkload.cc_base]. destruct (Requests.validateRequest q); [|done]. by repeat case_match.
Qed.

(** What an accepted Messages request has. *)
Lemma accepted_messages validateTool orig chat : validateMessages validateTool orig chat = Some None →
  (∀ am b, am ∈ mq_Messages orig → b ∈ am_Blocks am → ab_Type b = "image"%string → ab_Source b ≠ None) ∧
  (∀ c, mq_ToolChoice orig = Some c → ac_Type c = "tool"%string → ac_Name c ≠ ""%string) ∧ ch_Messages chat ≠ [] ∧
  ∃ n, GetMaxCompletionTokens chat = Some (Some n) ∧ 0 < n.
Proof.
  unfold validateMessages. destruct (validateBlocks orig) eqn:Eb; [done|]. unfold validateBlocks in Eb. destruct (existsb _ _) eqn:Ei; [done|].
  destruct (ch_Messages chat) as [|m ms] eqn:Em; [done|]. cbn [GetMaxCompletionTokens ChatRequest mbind option_bind]. set (mx := match MaxCompletionTokens chat with Some _ => _ | None => _ end).
  destruct mx as [n|] eqn:Emx; [|done]. intros Hv. split_and!; [| |done|].
  - intros am b Ham Hb Ht Hs. enough (true = false) by done. rewrite <- Ei. symmetry. apply existsb_exists. exists am. split; [by apply list_elem_of_In|].
    apply existsb_exists. exists b. split; [by apply list_elem_of_In|]. rewrite Ht. by rewrite bool_decide_eq_true_2.
  - intros c Hc Ht Hn. rewrite Hc, Ht, Hn in Eb. done.
  - exists n. split; [done|]. destruct (validateChatRequest_accepts _ _ _ Hv) as (q & Hq & Hr). unfold asReq in Hq. cbn [GetMaxCompletionTokens ChatRequest mbind option_bind] in Hq. fold mx in Hq. rewrite Emx in Hq.
    injection Hq as <-. exact (ready_max _ Hr).
Qed.

(** C9: the chat request made of an accepted Anthropic Messages request holds the same
    conversation: the system prompt first and then, message by message, what was said and
    shown, the tool calls, and the tool results, each group in its order; only blocks of
    unknown types are left out, a tool that was asked for by name is the forced function,
    and the request has a message and a positive token limit. *)
Theorem messages_conversation_kept validateTool MarshalMap m :
  (∀ am, am ∈ mq_Messages m → am_Role am ≠ "tool"%string) → validateMessages validateTool m (ToChatCompletionsRequest MarshalMap m) = Some None →
  let chat := ToChatCompletionsRequest MarshalMap m in
  concat (chatEvents <$> ch_Messages chat) = systemSaid m ++ concat ((λ am, inOrder (spoken MarshalMap am)) <$> mq_Messages m) ∧
  concat (chatEvents <$> ch_Messages chat) ≡ₚ systemSaid m ++ concat (spoken MarshalMap <$> mq_Messages m) ∧
  (∀ am b, am ∈ mq_Messages m → b ∈ am_Blocks am → blockEvents MarshalMap (am_Role am) b = [] → ab_Type b ∉ knownTypes) ∧
  (∀ c, mq_ToolChoice m = Some c → ac_Type c = "tool"%string → ch_ToolChoice chat = Tools.ChoiceFunction (ac_Name c)) ∧
  ch_Messages chat ≠ [] ∧ ∃ n, mq_MaxTokens m = Some n ∧ 0 < n.
Proof.
  intros Hroles Hv chat. destruct (accepted_messages _ _ _ Hv) as (Himg & Hname & Hne & n & Hn & Hpos).
  assert (concat (chatEvents <$> ch_Messages chat) = systemSaid m ++ concat ((λ am, inOrder (spoken MarshalMap am)) <$> mq_Messages m)) as He.
  { cbn [chat ToChatCompletionsRequest ch_Messages]. rewrite fmap_app, concat_app. f_equal; [unfold systemSaid; by destruct (String.eqb_spec (System m) "") as [E|E]; [|cbn; destruct (String.eqb_spec (System m) "")]|].
    rewrite concat_concat_fmap. apply concat_fmap_ext. intros am Ham. by apply message_events, Hroles. }
  split_and!; [done|rewrite He; f_equiv; clear; induction (mq_Messages m) as [|am l IH]; [done|cbn; by rewrite inOrder_perm, IH]| | |done|].
  - intros am b Ham Hb Hnil Hin. specialize (Himg am b Ham Hb). revert Hnil. unfold blockEvents, knownTypes in *.
    repeat (apply elem_of_cons in Hin as [E|Hin]); try (rewrite E; cbn; done); [|by apply elem_of_nil in Hin]. rewrite E. cbn. specialize (Himg E). by destruct (ab_Source b).
  - intros c Hc Ht. specialize (Hname c Hc Ht). cbn. rewrite Hc. cbn [toToolChoice]. rewrite Ht. cbn. by destruct (String.eqb_spec (ac_Name c) "").
  - exists n. split; [|done]. cbn in Hn. destruct (mq_MaxTokens m); congruence.
Qed.

(** * A Responses request is processed as a chat request *)

(** The chat request with the converted input. *)
Definition chatOf (r : ResponsesRequest) : ChatCompletionsRequest :=
  mkChatRequest (mkCompletions (rq_base r) None None None) (convertInputToMessages (rq_Input r)) None (MaxOutputTokens r) (Some (rq_Tools r)) (rq_ToolChoice r) false None.
Definition noAudio (c : InputContent) : Prop := ic_Type c ≠ ResponsesInputAudio.

Lemma content_text c : noAudio c → concat (blockText <$> convertContent c) = contentText c.
Proof.
  unfold noAudio, convertContent, contentText. intros H. destruct (String.eqb_spec (ic_Type c) ResponsesInputText); [done|]. destruct (String.eqb_spec (ic_Type c) ResponsesInputImage); [done|].
  by destruct (String.eqb_spec (ic_Type c) ResponsesInputAudio).
Qed.
Lemma item_text b m : Forall noAudio (im_Content m) → PlainText b (convertItem (ItemMessage m)) = inputPlainText b m.
Proof.
  intros H. unfold PlainText, inputPlainText. cbn [convertItem Role ToolCallID MContent MToolCalls]. cbn [fmap list_fmap join foldr String.eqb]. rewrite append_empty. f_equal.
  assert (lines (concat (blockText <$> concat (convertContent <$> im_Content m))) = lines (concat (contentText <$> im_Content m))) as E.
  { f_equal. rewrite concat_concat_fmap. apply concat_fmap_ext. intros c Hc. rewrite Forall_forall in H. by apply content_text, H. }
  destruct (im_Content m) as [|c [|c' l]]; cbn [Raw Structured]; [exact E| |exact E].
  destruct (String.eqb_spec (ic_Type c) ResponsesInputText) as [Et|Et]; [|exact E]. cbn [Raw Structured fmap list_fmap concat]. unfold contentText. rewrite Et. cbn.
  by destruct (String.eqb_spec (ic_Text c) "") as [->|].
Qed.

(** A Responses request is tokenized as the chat request of its converted input, one
    message per item; a message without audio has the same plain text there, a tool
    result keeps its call id and its text, so that the echo of such an item is that of the
    chat request. *)
Theorem responses_as_chat {MM} RenderText (RenderMessages : list Message → result string (Tokenized * option MM)) r :
  encodeResponses RenderMessages r = encodeChat RenderMessages (chatOf r) ∧ length (ch_Messages (chatOf r)) = length (rq_Input r) ∧
  (∀ i item, rq_Input r !! i = Some item → ∃ msg, ch_Messages (chatOf r) !! i = Some msg ∧
     match item with
     | ItemMessage m => Role msg = im_Role m ∧ (Forall noAudio (im_Content m) → ∀ includeRole, PlainText includeRole msg = inputPlainText includeRole m)
     | ItemCall f => Role msg = "assistant"%string ∧ PlainText false msg = "[" +:+ if_Name f +:+ "(" +:+ if_Arguments f +:+ ")]"
     | ItemOutput f => Role msg = "tool"%string ∧ ToolCallID msg = io_CallID f ∧ PlainText false msg = io_Output f
     end) ∧
  (match last (rq_Input r) with Some (ItemMessage m) => Forall noAudio (im_Content m) | Some (ItemCall _) => False | _ => True end →
     echoResponses RenderText r = echoChat RenderText (chatOf r)).
Proof.
  assert (∀ f, PlainText false (convertItem (ItemOutput f)) = io_Output f) as Hout.
  { intros f. unfold PlainText. cbn [convertItem Role MContent MToolCalls Raw Structured fmap list_fmap concat join foldr]. rewrite append_empty. by destruct (String.eqb_spec (io_Output f) "") as [->|]. }
  split_and!; [done|by unfold chatOf, convertInputToMessages; cbn [ch_Messages]; rewrite length_fmap| |].
  - intros i item Hi. exists (convertItem item). split; [unfold chatOf, convertInputToMessages; cbn [ch_Messages]; by rewrite list_lookup_fmap, Hi|].
    destruct item as [m|f|f]; [split; [done|intros; by apply item_text]|split; [done|]|split_and!; [done..|apply Hout]].
    unfold PlainText. cbn. by rewrite append_empty.
  - unfold echoResponses, echoChat, lastInput, chatOf, convertInputToMessages. cbn [ch_Messages]. rewrite fmap_last. intros H. f_equal. destruct (last (rq_Input r)) as [[m|f|f]|]; cbn [fmap option_fmap option_map]; [|done|by rewrite Hout|done].
    by rewrite item_text.
Qed.

(** * At most one tool call per Responses turn *)

(** The turn answers with text. *)
Definition MustAnswer (r : ResponsesRequest) : Prop := Tools.isToolChoiceNone (rq_ToolChoice r) = true ∨ rq_Tools r = [] ∨ HasFunctionCallOutput (rq_Input r) = true.
(** The choice asks for a call: omitted, "auto", "required" or a function by name. *)
Definition AsksForCall (choice : Tools.ToolChoice) : Prop :=
  match choice with Tools.ChoiceOmitted | Tools.ChoiceFunction _ => True | Tools.ChoiceAuto v => v = "auto"%string ∨ v = "required"%string | Tools.ChoiceOther => False end.

Lemma createSingle_ok rng c0 c g rangeOrder Marshal RenderText idPrefix fuel tools choice :
  GeneratorOk g → (∀ l, rangeOrder l ≡ₚ l) → Config.validate rng c0 = Some (Ok c) →
  - 2 ^ 62 < Config.MinToolCallIntegerParam c → Config.MaxToolCallIntegerParam c < 2 ^ 62 → Config.MaxToolCallArrayParamLength c < 2 ^ 62 →
  Z.of_nat (length tools) < 2 ^ 62 → (∀ t, t ∈ tools → ToolsProps.ToolOk c fuel t) →
  ToolsProps.Gives (Tools.createSingleToolCall g c rangeOrder Marshal RenderText idPrefix fuel tools choice)
    (λ r, r.2 = Tools.countTokensForToolCalls r.1 ∧ ToolsProps.leastCalls choice ≤ Z.of_nat (length r.1) ≤ 1 ∧
          ∀ call, head r.1 = Some call → ToolsProps.CallFits c Marshal RenderText idPrefix tools 0 call ∧ ∃ t, ToolsProps.Allowed tools choice t ∧ Tools.callName call = Tools.toolName t)
    (ToolsProps.ResponseRefused tools Marshal RenderText).
Proof.
  intros Hg Hr Hv Hmin Hmax Harr Hlen Ht. unfold Tools.createSingleToolCall.
  eapply ToolsProps.Gives_try; [by eapply (ToolsProps.createToolCalls_ok rng c0 c g rangeOrder Marshal RenderText idPrefix fuel tools choice)|].
  intros [calls n] (H1 & H2 & H3). cbn [fst snd] in *.
  assert (ToolsProps.leastCalls choice ≤ 1) by (destruct choice as [|v| |]; cbn; [lia|destruct (String.eqb v "required"); lia|lia|lia]).
  destruct calls as [|call [|call' calls]]; apply ToolsProps.Gives_succeed; cbn [fst snd length head] in *.
  - split_and!; [done|lia|lia|done].
  - split_and!; [done|lia|lia|]. intros call' [= <-]. exact (H3 0%nat call eq_refl).
  - split_and!; [done|lia|lia|]. intros call'' [= <-]. exact (H3 0%nat call eq_refl).
Qed.

(** A Responses turn makes at most one tool call: none, and the text answer follows,
    when the choice is "none", there are no tools or a tool result is in the input; exactly
    one when the choice is omitted, "auto", "required" or names a function, to a tool the
    choice allows with arguments that fit its schema, counted in tokens and with the finish
    reason of tool calls; it never panics and fails only for the reasons of the
    generator. *)
Theorem responses_tool_turn rng c0 c g rangeOrder Marshal RenderText idPrefix fuel r :
  GeneratorOk g → (∀ l, rangeOrder l ≡ₚ l) → Config.validate rng c0 = Some (Ok c) →
  - 2 ^ 62 < Config.MinToolCallIntegerParam c → Config.MaxToolCallIntegerParam c < 2 ^ 62 → Config.MaxToolCallArrayParamLength c < 2 ^ 62 →
  Z.of_nat (length (rq_Tools r)) < 2 ^ 62 → (∀ t, t ∈ rq_Tools r → ToolsProps.ToolOk c fuel (schemaOf t)) →
  ToolsProps.Gives (createToolCallsResponses g c rangeOrder Marshal RenderText fuel idPrefix r)
    (λ '(calls, tokens, reason),
       match calls with
       | [] => tokens = 0 ∧ reason = ""%string ∧ (MustAnswer r ∨ ¬ AsksForCall (rq_ToolChoice r))
       | [call] => tokens = Tools.countTokensForToolCalls [call] ∧ reason = "tool_calls"%string ∧ ¬ MustAnswer r ∧
                   ToolsProps.CallFits c Marshal RenderText idPrefix (schemaOf <$> rq_Tools r) 0 call ∧
                   ∃ t, ToolsProps.Allowed (schemaOf <$> rq_Tools r) (rq_ToolChoice r) t ∧ Tools.callName call = Tools.toolName t
       | _ => False
       end)
    (λ e, ¬ MustAnswer r ∧ ToolsProps.ResponseRefused (schemaOf <$> rq_Tools r) Marshal RenderText e).
Proof.
  intros Hg Hrange Hv Hmin Hmax Harr Hlen Ht. unfold createToolCallsResponses.
  destruct (Tools.isToolChoiceNone (rq_ToolChoice r)) eqn:En; [apply ToolsProps.Gives_succeed; split_and!; [done..|left; by left]|]. cbn [orb].
  destruct (Nat.eqb_spec (length (rq_Tools r)) 0) as [El|El]; [apply ToolsProps.Gives_succeed; split_and!; [done..|left; right; left; by apply nil_length_inv]|].
  destruct (HasFunctionCallOutput (rq_Input r)) eqn:Eo; [apply ToolsProps.Gives_succeed; split_and!; [done..|left; by right; right]|].
  assert (¬ MustAnswer r) as Hans by (intros [?|[Hn|?]]; [congruence|by rewrite Hn in El|congruence]).
  set (choice := if shouldForceRequiredToolChoice _ then _ else _).
  pose proof (createSingle_ok rng c0 c g rangeOrder Marshal RenderText idPrefix fuel (schemaOf <$> rq_Tools r) choice Hg Hrange Hv Hmin Hmax Harr) as Hone. rewrite length_fmap in Hone. specialize (Hone Hlen).
  assert (∀ t, t ∈ schemaOf <$> rq_Tools r → ToolsProps.ToolOk c fuel t) as Ht' by (intros t (u & -> & Hu)%list_elem_of_fmap; by apply Ht). specialize (Hone Ht'). clear Ht Ht'.
  eapply ToolsProps.Gives_try; [eapply ToolsProps.Gives_weaken; [exact Hone|exact (λ r H, H)|exact (λ e He, conj Hans He)]|].
  intros [calls n] (H1 & H2 & H3). cbn [fst snd] in *. apply ToolsProps.Gives_succeed. destruct calls as [|call [|? ?]]; [|cbn [length] in *|cbn [length] in H2; lia].
  - split_and!; [done..|right]. intros Hask. cbn [length] in H2. subst choice. destruct (rq_ToolChoice r) as [|v|name|]; cbn in H2, Hask; [lia| |lia|done].
      by destruct Hask as [->| ->]; cbn in H2; lia.
  - destruct (H3 call eq_refl) as (Hfit & t & [Hin Hc] & Hname). split_and!; [done..|]. exists t. split; [|done]. split; [done|]. subst choice.
      destruct (rq_ToolChoice r) as [|v|name|]; done.
Qed.

(** * Validation returns *)

Lemma validateFor_total {R} `{RequestMethods R} (r : R) q : asReq r = Some q → ∃ o, validateFor r = Some o ∧ (o = None → Ready q).
Proof. intros E. unfold validateFor. rewrite E. cbn [mbind option_bind]. eexists. split; [done|]. intros Ho. apply validateRequest_ready. by destruct (Requests.validateRequest q). Qed.

(** Validation never dereferences nil, and a request it accepts is ready to be processed; a
    generate request comes with its tokens and its sampling parameters. *)
Theorem validation_safe validateTool :
  (∀ id c, ∃ o, validateChatRequest validateTool id c = Some o ∧ (o = None → ∃ q, asReq c = Some q ∧ Ready q)) ∧
  (∀ t, ∃ o, validateText t = Some o ∧ (o = None → ∃ q, asReq t = Some q ∧ Ready q ∧ Prompt t ≠ [])) ∧
  (∀ r, ∃ o, validateResponses validateTool r = Some o ∧ (o = None → ∃ q, asReq r = Some q ∧ Ready q)) ∧
  (∀ w g, unmarshalGenerate w = Some g → ∃ o, validateGenerate g = Some o ∧
     (o = None → ∃ q ids, asReq g = Some q ∧ Ready q ∧ ge_TokenIDs g = Some ids ∧ Requests.tokenizedPrompt q = Some ids ∧ encodeGenerate g = Some (mkTokenized ids []))).
Proof.
  split_and!.
  - intros id c. destruct (validateChatRequest validateTool id c) as [o|] eqn:E; [exists o; split; [done|intros ->; by eapply validateChatRequest_accepts]|].
    revert E. unfold validateChatRequest. by destruct (validateTools _ _).
  - intros t. unfold validateText, validateTextBody. destruct (Prompt t) eqn:Ep; [by eexists|]. destruct (emptyPrompt _); [by eexists|].
    eassert (asReq t = Some _) as Hq by (unfold asReq; cbn; reflexivity).
    destruct (validateFor_total t _ Hq) as (o & -> & Ho). exists o. split; [done|]. intros Hn. eexists. split_and!; [exact Hq|by apply Ho|done].
  - intros r. unfold validateResponses. destruct (validateTools _ _); [by eexists|].
    eassert (asReq r = Some _) as Hq by (unfold asReq; cbn; reflexivity).
    destruct (validateFor_total r _ Hq) as (o & -> & Ho). exists o. split; [done|]. intros Hn. eexists. split; [exact Hq|by apply Ho].
  - intros w g Hg. assert (ge_tokenizedPrompt g = Some (mkTokenized (default [] (ge_TokenIDs g)) [])) as Htok.
    { unfold unmarshalGenerate in Hg. match type of Hg with mbind _ ?m = _ => destruct m as [g0|]; [|done] end. cbn [mbind option_bind] in Hg. by injection Hg as <-. }
    unfold validateGenerate. destruct (ge_TokenIDs g) as [ids|] eqn:Ei; [|by eexists]. destruct (ge_SamplingParams g) as [sp|] eqn:Es; [|by eexists].
    eassert (asReq g = Some _) as Hq by (unfold asReq; cbn [GetMaxCompletionTokens GenerateKind]; rewrite Es; reflexivity).
    destruct (validateFor_total g _ Hq) as (o & -> & Ho). exists o. split; [done|]. intros Hn. eexists _, ids. split_and!; [exact Hq|by apply Ho|done|cbn; by rewrite Htok|done].
Qed.

(** * Examples *)

Definition text_ex : TextCompletionsParsedRequest :=
  mkTextRequest (mkCompletions (mkBaseRequest "id" "m" "" true (Some (mkKV true false "e" ["b"%string] "h" 80 1)) false) (Some true) None (Some 2)) (Some 5) None
    [Requests.PromptTokens [1; 4294967295]; Requests.PromptTokens []].

Lemma text_request_roundtrip_witness : ∃ w, marshalText text_ex = Some w ∧ unmarshalText w = Some text_ex.
Proof.
  assert (Fits text_ex) as H by (split; cbn; unfold int64; first [done | lia | repeat constructor; lia]).
  apply (text_request_roundtrip text_ex H). intros p q Hp Hq. cbn [text_ex Prompt] in Hp, Hq. set_unfold in Hp. set_unfold in Hq. naive_solver.
Defined.

(** A lone empty list of token ids is lost; a null among token lists becomes a text prompt. *)
Example empty_prompt_lost : promptOf (encTokens (Requests.PromptTokens [])) = Some [] ∧
  promptOf (WArr [WArr [encInt 1]; WNull]) = Some [Requests.PromptTokens [1]; Requests.PromptText ""].
Proof. by split. Qed.

Definition block (type text id name use : string) (content : option AnthropicToolResultContent) : AnthropicContentBlock := mkABlock type text None id name None use content.
Definition messages_ex : MessagesRequest :=
  mkMessagesRequest (mkBaseRequest "" "m" "" false None false)
    [mkAMessage "user" "hi" []; mkAMessage "assistant" "" [block "tool_use" "" "c1" "f" "" None; block "text" "wait" "" "" "" None; block "thinking" "" "" "" "" None];
     mkAMessage "user" "" [block "tool_result" "" "" "" "c1" (Some (mkAResult "" [block "text" "a" "" "" "" None; block "text" "b" "" "" "" None]))]]
    "be brief" (Some 9) [] (Some (mkAChoice "tool" "f")).

Lemma messages_conversation_kept_witness :
  concat (chatEvents <$> ch_Messages (ToChatCompletionsRequest (λ _, "{}"%string) messages_ex)) =
  [Said "system" "be brief"; Said "user" "hi"; Said "assistant" "wait"; Called "assistant" "c1" "f" "{}"; Answered "c1" ("a" +:+ newline +:+ "b")].
Proof.
  destruct (messages_conversation_kept (λ _, None) (λ _, "{}"%string) messages_ex) as [H _]; [|vm_compute; reflexivity|rewrite H; vm_compute; reflexivity].
  intros am Ham. cbn [messages_ex mq_Messages] in Ham. repeat (apply elem_of_cons in Ham as [->|Ham]; [done|]). by apply elem_of_nil in Ham.
Defined.

(** A request with only a system prompt passes the check for messages. *)
Example only_system_accepted : validateMessages (λ _, None) (mkMessagesRequest zeroBase [] "be brief" (Some 9) [] None)
  (ToChatCompletionsRequest (λ _, ""%string) (mkMessagesRequest zeroBase [] "be brief" (Some 9) [] None)) = Some None.
Proof. vm_compute. reflexivity. Qed.

Definition responses_ex (choice : Tools.ToolChoice) : ResponsesRequest :=
  mkResponsesRequest (mkBaseRequest "" "m" "" false None false)
    [ItemCall (mkInputCall inputItemFunctionCall "" "c1" "f" "{}" ""); ItemMessage (mkInputMessage inputItemMessage "user" "" [mkInputContent ResponsesInputText "hi" "" "" ""])]
    "" None None [] None [mkApiTool "weather" (Some (Tools.fieldsOf (Tools.Parameters ToolsProps.weather))) "" "function"] choice.

Lemma responses_as_chat_witness : echoResponses (λ s, Err s) (responses_ex Tools.ChoiceOmitted) = Err "hi"%string.
Proof.
  destruct (responses_as_chat (λ s, Err s) (λ _, @Err string (Tokenized * option unit) ""%string) (responses_ex Tools.ChoiceOmitted)) as (_ & _ & _ & H).
  rewrite H; [vm_compute; reflexivity|]. by constructor.
Defined.

(** The text of an audio item is in the Responses message and not in the chat message. *)
Example audio_text_lost : let m := mkInputMessage inputItemMessage "user" "" [mkInputContent ResponsesInputAudio "" "" "AAAA" "wav"] in
  inputPlainText false m = "audio: wav"%string ∧ PlainText false (convertItem (ItemMessage m)) = ""%string.
Proof. by split. Qed.

Definition turn_ex : outcome (result Tools.toolError (list Tools.ToolCall * Z * string)) :=
  createToolCallsResponses generator_ex ConfigProps.config_ok id (λ _, Ok "{}"%string) (λ _, Ok (mkTokenized [7] ["{}"%string])) 3 [] (responses_ex Tools.ChoiceOmitted) 0%nat.

Lemma responses_tool_turn_witness : match turn_ex with Returns (Ok (calls, n, reason)) _ => length calls = 1%nat ∧ n = 4 ∧ reason = "tool_calls"%string | _ => False end.
Proof.
  pose proof (responses_tool_turn map_to_list ConfigProps.config_ex ConfigProps.config_ok generator_ex id (λ _, Ok "{}"%string) (λ _, Ok (mkTokenized [7] ["{}"%string])) [] 3 (responses_ex Tools.ChoiceOmitted)
    generator_ex_ok (λ l, reflexivity _) ConfigProps.config_ex_valid ltac:(vm_compute; reflexivity) ltac:(vm_compute; reflexivity) ltac:(vm_compute; reflexivity) ltac:(vm_compute; reflexivity)) as H.
  assert (∀ t, t ∈ rq_Tools (responses_ex Tools.ChoiceOmitted) → ToolsProps.ToolOk ConfigProps.config_ok 3 (schemaOf t)) as Ht by (intros t ->%list_elem_of_singleton; exact ToolsProps.weather_ok).
  specialize (H Ht 0%nat). clear Ht. fold turn_ex in H.
  assert (match turn_ex with Returns (Ok ([call], n, reason)) _ => (n =? 4)%Z && String.eqb reason "tool_calls" | _ => false end = true) as E by (vm_compute; reflexivity).
  destruct turn_ex as [[[[calls n] reason]|e] k| |]; try discriminate E. destruct calls as [|call [|? ?]]; try discriminate E.
  destruct H as (H1 & H2 & _). split_and!; [done| |exact H2]. apply andb_true_iff in E as [E _]. by apply Z.eqb_eq in E.
Defined.

(** A chat request with an empty array of tools fails, while the same tools are none to the other endpoints. *)
Example empty_tools_fail : createToolCallsChat generator_ex ConfigProps.config_ok id (λ _, Ok "{}"%string) (λ _, Ok (mkTokenized [] [])) 3 []
  (mkChatRequest zeroCompletions [] None None (Some []) Tools.ChoiceOmitted false None) 0%nat = Returns (Err Tools.ErrNoTools) 0%nat.
Proof. vm_compute. reflexivity. Qed.

(** A null [tool_choice] is refused, where an absent one is accepted. *)
Example null_tool_choice_refused : decChat (λ _, true) zeroChat (WObj [("tool_choice"%string, WNull)]) = None ∧ decChat (λ _, true) zeroChat (WObj []) = Some zeroChat.
Proof. by split. Qed.

(** The shapes of a Responses body: a string input, a flat and a nested tool, and their refusals. *)
Example responses_shapes :
  (length ∘ rq_Tools <$> unmarshalResponses (λ _, true) (WObj [("input", WStr "hi"); ("tools", WArr [WObj [("type", WStr "function"); ("name", WStr "f")]; WObj [("function", WObj [("name", WStr "g")])]])]))%string = Some 2%nat ∧
  unmarshalResponses (λ _, true) (WObj [("input"%string, WNull)]) = None ∧
  unmarshalResponsesTools (WArr [WObj [("type"%string, WStr "web_search")]]) = None ∧
  unmarshalInputItem (WObj [("type"%string, WStr "reasoning")]) = None ∧
  unmarshalInputItem (WObj [("role"%string, WStr "user"); ("content"%string, WStr "hi")]) = Some (ItemMessage (mkInputMessage "message" "user" "" [mkInputContent "input_text" "hi" "" "" ""])).
Proof. vm_compute. done. Qed.

End ApiRequestsProps.
