(* ===== verification/Tokenizer.v ===== *)
(** Tokenizers ([pkg/tokenizer]): the simulated tokenizer, which cuts a text at the matches
    of a regular expression and hashes them, its stub features of multimodal messages, and
    the client of a render service ([hf_tokenizer.go], [render_client.go]), whose HTTP call
    is a parameter. *)

From Stdlib Require Import Ascii.
From stdpp Require Import pretty.
From S2P Require Import Prelude GoFloat GoRandom BlockCache Lora KVEvents Requests Dataset Config Tools Logprobs Response TraceText Embeddings Wire ApiRequests.
Import Dataset Response Wire.
Open Scope Z_scope.

Module Tokenizer.

(** * The regular expression *)

(** One of the listed characters, or a word, and the white space after it.  In the
    alternation a single underscore comes before a word. *)
Definition separators : list Ascii.ascii :=
  ["{"; "}"; ":"; ","; "-"; "."; "?"; "!"; ";"; "@"; "#"; "$"; "%"; "^"; "&"; "*"; "("; ")"; "+"; "_"; "~"; "/"; "\"; ">"; "<"; "["; "]"; "="; "034"; "'"]%char.
Definition isSeparator (a : Ascii.ascii) : bool := existsb (Ascii.eqb a) separators.
Definition inRange (lo hi : N) (a : Ascii.ascii) : bool := (lo <=? Ascii.N_of_ascii a)%N && (Ascii.N_of_ascii a <=? hi)%N.
(** [\w] and [\s] are ASCII classes. *)
Definition isWord (a : Ascii.ascii) : bool := inRange 48 57 a || inRange 65 90 a || inRange 97 122 a || Ascii.eqb a "_".
Definition isSpace (a : Ascii.ascii) : bool := existsb (λ n, (Ascii.N_of_ascii a =? n)%N) [9; 10; 12; 13; 32]%N.

(** The longest prefix of characters in a class, and the rest. *)
Fixpoint span (p : Ascii.ascii → bool) (s : string) : string * string :=
  match s with
  | EmptyString => (EmptyString, EmptyString)
  | String a s' => if p a then let '(x, y) := span p s' in (String a x, y) else (EmptyString, s)
  end.

(** The match that starts here, and what follows it. *)
Definition matchHere (s : string) : option (string * string) :=
  match s with
  | EmptyString => None
  | String a s' =>
      if isSeparator a then let '(sp, rest) := span isSpace s' in Some (String a sp, rest)
      else if isWord a then let '(w, r) := span isWord s in let '(sp, rest) := span isSpace r in Some (w +:+ sp, rest)
      else None
  end.

(** [FindAllString(s, -1)]; the length of the text bounds the number of steps. *)
Fixpoint findFrom (fuel : nat) (s : string) : list string :=
  match fuel with
  | O => []
  | S fuel =>
      match matchHere s with
      | Some (token, rest) => token :: findFrom fuel rest
      | None => match s with EmptyString => [] | String _ s' => findFrom fuel s' end
      end
  end.
Definition FindAllString (s : string) : list string := findFrom (String.length s) s.

(** * Tokens *)

(** [splitIntoTokens]; [None]: the index [count-1] is out of range. *)
Definition splitIntoTokens (input : string) (count : Z) : option (list string) :=
  let tokens := FindAllString input in
  let n := Z.of_nat (length tokens) in
  if (count =? -1) || (count =? n) then Some tokens
  else if n <? count then Some (tokens ++ replicate (Z.to_nat (count - n)) ""%string)
  else if count - 1 <? 0 then None
  else let k := Z.to_nat (count - 1) in Some (take k tokens ++ [join (drop k tokens)]).

(** [fnv.New32a] over the bytes of a string. *)
Definition fnvStep (h b : Z) : Z := u32 (Z.lxor h b * 16777619).
Definition fnv32 (s : string) : Z := foldl fnvStep 2166136261 (TraceText.bytesOf s).
Definition stringsToUint32sHash (l : list string) : list Z := fnv32 <$> l.

(** [tokenize]: ids and strings. *)
Definition tokenize (input : string) : Tokenized := let strTokens := FindAllString input in mkTokenized (stringsToUint32sHash strTokens) strTokens.
Definition RenderText (text : string) : result string Tokenized := Ok (tokenize text).

(** ** Messages *)

Definition StartMessageSeparator : string := "### ".
Definition EndMessageSeparator : string := Response.newline.
Definition renderMessage (m : Message) : string := StartMessageSeparator +:+ ApiRequests.PlainText true m +:+ EndMessageSeparator.

Record RenderPlaceholder := mkPlaceholder { Offset : Z; pl_Length : Z }.
Record RenderMMFeatures := mkMMFeatures { MMHashes : gmap string (list string); MMPlaceholders : gmap string (list RenderPlaceholder); KwargsData : gmap string (list string) }.

Record item := mkItem { modality : string; prefix : string; identifier : string; modalIndex : nat }.
(** The items so far and the next index of each modality. *)
Record collected := mkCollected { items : list item; imgIdx : nat; audIdx : nat; vidIdx : nat }.
Definition collectBlock (c : collected) (b : ContentBlock) : collected :=
  if String.eqb (cb_Type b) "image_url" then
    match cb_ImageURL b with
    | None | Some EmptyString => c
    | Some url => mkCollected (items c ++ [mkItem "image" "img" url (imgIdx c)]) (S (imgIdx c)) (audIdx c) (vidIdx c)
    end
  else if String.eqb (cb_Type b) "input_audio" then
    match cb_InputAudio b with
    | None | Some (mkAudio EmptyString _) => c
    | Some a => mkCollected (items c ++ [mkItem "audio" "audio" (au_Data a) (audIdx c)]) (imgIdx c) (S (audIdx c)) (vidIdx c)
    end
  else if String.eqb (cb_Type b) "video_url" then
    match cb_VideoURL b with
    | None | Some EmptyString => c
    | Some url => mkCollected (items c ++ [mkItem "video" "video" url (vidIdx c)]) (imgIdx c) (audIdx c) (S (vidIdx c))
    end
  else c.
Definition collectItems (messages : list Message) : collected := foldl collectBlock (mkCollected [] 0 0 0) (concat ((λ m, Structured (MContent m)) <$> messages)).

(** [%x]. *)
Definition hexDigit (d : Z) : Ascii.ascii := Ascii.ascii_of_N (Z.to_N (if d <? 10 then 48 + d else 87 + d)).
Fixpoint hexFrom (fuel : nat) (z : Z) (acc : string) : string :=
  match fuel with O => acc | S fuel => let acc := String (hexDigit (z mod 16)) acc in if z / 16 =? 0 then acc else hexFrom fuel (z / 16) acc end.
(** Eight digits are enough for 32 bits. *)
Definition hex32 (z : Z) : string := hexFrom 8 z "".
Definition itemHash (it : item) : string := "sim_" +:+ prefix it +:+ "_" +:+ pretty (modalIndex it) +:+ "_" +:+ hex32 (fnv32 (identifier it)).

Definition placeholder (totalTokens span : Z) (i : nat) : RenderPlaceholder :=
  let offset := Z.of_nat i * span in
  let offset := if totalTokens <=? offset then totalTokens - 1 else offset in
  let offset := if offset <? 0 then 0 else offset in
  let length := if totalTokens <? offset + span then totalTokens - offset else span in
  mkPlaceholder offset (if length <? 1 then 1 else length).

(** Append to the list of a key. *)
Definition pushTo {A} (k : string) (a : A) (m : gmap string (list A)) : gmap string (list A) := <[k := default [] (m !! k) ++ [a]]> m.
Definition addFeature (totalTokens span : Z) (f : RenderMMFeatures) (it : nat * item) : RenderMMFeatures :=
  let hash := itemHash it.2 in
  mkMMFeatures (pushTo (modality it.2) hash (MMHashes f)) (pushTo (modality it.2) (placeholder totalTokens span it.1) (MMPlaceholders f))
    (pushTo (modality it.2) (TraceText.stringOf (Embeddings.EncodeToString (TraceText.bytesOf hash))) (KwargsData f)).
Definition stubMMFeaturesForMessages (messages : list Message) (totalTokens : Z) : option RenderMMFeatures :=
  match items (collectItems messages) with
  | [] => None
  | l => Some (foldl (addFeature totalTokens (Z.max (totalTokens / Z.of_nat (length l)) 1)) (mkMMFeatures ∅ ∅ ∅) (enumerate l))
  end.

(** [SimpleTokenizer.RenderMessages]. *)
Definition RenderMessages (messages : list Message) : result string (Tokenized * option RenderMMFeatures) :=
  let t := tokenize (join (renderMessage <$> messages)) in Ok (t, stubMMFeaturesForMessages messages (Z.of_nat (length (Dataset.Tokens t)))).

Definition FlattenMessages (messages : list Message) : string := join (ApiRequests.PlainText true <$> messages).

(** * The client of a render service *)

Section Client.
(** The answer to a POST: an error, or the JSON body ([None]: no body). *)
Variable post : string → wire → bool → result string (option wire).
Variable baseModel : string.

(** [RenderResponse]. *)
Definition decPlaceholder : decoder RenderPlaceholder := decStruct (λ l p, offset ← field "offset" decInt l (Offset p); len ← field "length" decInt l (pl_Length p); Some (mkPlaceholder offset len)).
Definition decFeatures : decoder RenderMMFeatures := decStruct (λ l f,
  hashes ← field "mm_hashes" ApiRequests.decHashes l (map_to_list (MMHashes f));
  places ← field "mm_placeholders" (decMapOf [] (decList (mkPlaceholder 0 0) decPlaceholder)) l (map_to_list (MMPlaceholders f));
  kwargs ← field "kwargs_data" ApiRequests.decHashes l (map_to_list (KwargsData f)); Some (mkMMFeatures (list_to_map hashes) (list_to_map places) (list_to_map kwargs))).
Definition decResponse : decoder (list Z * option RenderMMFeatures) := decStruct (λ l r,
  ids ← field "token_ids" (decList 0 decUint32) l r.1; features ← field "features" (decPtr (mkMMFeatures ∅ ∅ ∅) decFeatures) l r.2; Some (ids, features)).

(** [parseRenderResponse]: the first of an array, or an object. *)
Definition parseRenderResponse (body : option wire) : result string (list Z * option RenderMMFeatures) :=
  match body with
  | None => Err "empty response body"%string
  | Some (WArr arr) =>
      match decElems ([], None) decResponse arr with
      | None => Err "unmarshal array response"%string
      | Some [] => Err "render returned empty array"%string
      | Some (r :: _) => Ok r
      end
  | Some w => match decResponse ([], None) w with Some r => Ok r | None => Err "unmarshal response"%string end
  end.

(** [renderClient.render]. *)
Definition render (endpoint : string) (payload : wire) (mm : bool) : result string (list Z * option RenderMMFeatures) :=
  if String.eqb endpoint "" then Err "render endpoint is empty"%string
  else let! body := post (endpoint +:+ "/render") payload mm in
       match parseRenderResponse body with Ok r => Ok r | Err e => Err ("RenderRequest: " +:+ e) end.

(** [renderRequest]; [None] is the panic of [splitIntoTokens]. *)
Definition renderRequest (endpoint : string) (payload : wire) (mm : bool) (plainText : string) : option (result string (Tokenized * option RenderMMFeatures)) :=
  if String.eqb endpoint "" then Some (Err "renderRequest: render endpoint is empty"%string)
  else match render endpoint payload mm with
       | Err e => Some (Err ("RenderRequest: " +:+ e))
       | Ok (ids, features) => strs ← splitIntoTokens plainText (Z.of_nat (length ids)); Some (Ok (mkTokenized ids strs, features))
       end.

Definition isMultiModal (messages : list Message) : bool := existsb (λ m, existsb (λ b, String.eqb (cb_Type b) "image_url") (Structured (MContent m))) messages.
Definition HFRenderText (text : string) : option (result string (Tokenized * option RenderMMFeatures)) :=
  renderRequest "/v1/completions" (WObj [("model", WStr baseModel); ("prompt", WStr text)]%string) false text.
Definition HFRenderMessages (messages : list Message) : option (result string (Tokenized * option RenderMMFeatures)) :=
  renderRequest "/v1/chat/completions" (WObj [("model", WStr baseModel); ("messages", WArr (ApiRequests.encMessage <$> messages))]%string) (isMultiModal messages) (FlattenMessages messages).
End Client.

(** [New]: which tokenizer a configuration gets. *)
Inductive kind := Simple | HF (url : string).
Definition New (forceDummy : bool) (renderURL : string) : kind := if forceDummy then Simple else if String.eqb renderURL "" then Simple else HF renderURL.

End Tokenizer.
