(* ===== verification/TokenizerProps.v ===== *)
(** The tokenizers: which text the tokens of the simulated tokenizer hold, that the tokens of
    a conversation are those of its messages one after the other, that placeholders of
    multimodal items are within the prompt, and that a render service gets one string per
    token. *)

From Stdlib Require Import Ascii.
From stdpp Require Import pretty.
From S2P Require Import Prelude GoFloat GoRandom BlockCache Lora KVEvents Requests Dataset Config Tools Logprobs Response TraceText Embeddings Wire ApiRequests Tokenizer.
Import Dataset Response Wire Tokenizer.
Open Scope Z_scope.

Module TokenizerProps.

(** * Spans *)

Fixpoint all (p : ascii → bool) (s : string) : bool := match s with EmptyString => true | String a s => p a && all p s end.
(** The text ends or goes on with a character outside the class. *)
Definition stops (p : ascii → bool) (s : string) : Prop := match s with EmptyString => True | String a _ => p a = false end.

Lemma span_spec p s : s = (span p s).1 +:+ (span p s).2 ∧ all p (span p s).1 = true ∧ stops p (span p s).2.
Proof.
  induction s as [|a s IH]; [done|]. cbn [span]. destruct (p a) eqn:E; [|by split_and!]. destruct (span p s) as [x y]. cbn [fst snd] in *. destruct IH as (-> & H1 & H2).
  split_and!; [done|cbn; by rewrite E|done].
Qed.
Lemma span_app p s t : stops p t → span p (s +:+ t) = ((span p s).1, (span p s).2 +:+ t).
Proof.
  intros Ht. induction s as [|a s IH]; [destruct t as [|a t]; [done|]; change (span p (String a t) = (""%string, String a t)); cbn [span]; by rewrite Ht|].
  change (String a s +:+ t) with (String a (s +:+ t)). cbn [span]. destruct (p a); [|done]. rewrite IH. by destruct (span p s).
Qed.

(** * Matches *)

Lemma length_append s t : String.length (s +:+ t) = (String.length s + String.length t)%nat.
Proof. induction s as [|a s IH]; [done|]. exact (f_equal S IH). Qed.

(** A match: a separator or a word, then white space, and the text goes on with something else. *)
Lemma matchHere_spec s t r : matchHere s = Some (t, r) →
  ∃ a w sp, t = String a w +:+ sp ∧ s = t +:+ r ∧ all (λ a, isSeparator a || isWord a) (String a w) = true ∧ all isSpace sp = true ∧ stops isSpace r.
Proof.
  destruct s as [|a s]; [done|]. cbn [matchHere]. destruct (isSeparator a) eqn:Es.
  - destruct (span_spec isSpace s) as (H1 & H2 & H3). destruct (span isSpace s) as [sp rest]. intros [= <- <-]. cbn [fst snd] in *.
    exists a, ""%string, sp. split_and!; [done|by rewrite H1|cbn [all]; by rewrite Es|done..].
  - destruct (isWord a) eqn:Ew; [|done]. destruct (span_spec isWord (String a s)) as (H1 & H2 & _). cbn [span] in *. rewrite Ew in *. destruct (span isWord s) as [w r0]. cbn [fst snd] in *.
    destruct (span_spec isSpace r0) as (H4 & H5 & H6). destruct (span isSpace r0) as [sp rest]. cbn [fst snd] in *. intros [= <- <-].
    exists a, w, sp. split_and!; [done|rewrite H1, H4; apply append_assoc| |done..].
    clear -H2. revert H2. generalize (String a w). intros x. induction x as [|b x IH]; [done|]. cbn [all]. intros [-> Hx]%andb_true_iff. rewrite orb_true_r. by apply IH.
Qed.
Lemma matchHere_shorter s t r : matchHere s = Some (t, r) → s = t +:+ r ∧ (String.length r < String.length s)%nat.
Proof. intros (a & w & sp & -> & -> & _)%matchHere_spec. split; [done|]. rewrite !length_append. cbn. lia. Qed.

(** The fuel is enough. *)
Lemma findFrom_enough n m s : (String.length s ≤ n)%nat → (String.length s ≤ m)%nat → findFrom n s = findFrom m s.
Proof.
  revert m s. induction n as [|n IH]; intros m s Hn Hm; [destruct s; [|cbn in Hn; lia]; by destruct m|].
  destruct m as [|m]; [destruct s; [done|cbn in Hm; lia]|]. cbn [findFrom]. destruct (matchHere s) as [[t r]|] eqn:E; [apply matchHere_shorter in E as [_ E]; f_equal; apply IH; lia|].
  destruct s as [|a s]; [done|]. cbn in Hn, Hm. apply IH; lia.
Qed.
Lemma find_unfold s : FindAllString s = match matchHere s with Some (t, r) => t :: FindAllString r | None => match s with EmptyString => [] | String _ s' => FindAllString s' end end.
Proof.
  unfold FindAllString at 1. destruct s as [|a s]; [done|]. cbn [String.length findFrom]. destruct (matchHere (String a s)) as [[t r]|] eqn:E; [|done].
  apply matchHere_shorter in E as [_ E]. f_equal. apply findFrom_enough; cbn in E; lia.
Qed.

(** Induction along the matches. *)
Lemma find_ind (P : string → list string → Prop) :
  P ""%string [] → (∀ s t r, matchHere s = Some (t, r) → P r (FindAllString r) → P s (t :: FindAllString r)) →
  (∀ a s, matchHere (String a s) = None → P s (FindAllString s) → P (String a s) (FindAllString s)) → ∀ s, P s (FindAllString s).
Proof.
  intros H0 H1 H2 s. remember (String.length s) as n eqn:En. revert s En. induction (lt_wf n) as [n _ IH]. intros s ->. rewrite find_unfold.
  destruct (matchHere s) as [[t r]|] eqn:E; [apply H1; [done|]; apply matchHere_shorter in E as [_ E]; by eapply IH|].
  destruct s as [|a s]; [done|]. apply H2; [done|]. eapply IH; [|done]. cbn. lia.
Qed.

(** * The text of the tokens *)

(** What is left of a text: separators and words, and white space right after what is left. *)
Fixpoint keep (after : bool) (s : string) : string :=
  match s with
  | EmptyString => EmptyString
  | String a s => if isSeparator a || isWord a then String a (keep true s) else if isSpace a && after then String a (keep true s) else keep false s
  end.

Lemma keep_token b x r : x ≠ ""%string → all (λ a, isSeparator a || isWord a) x = true → keep b (x +:+ r) = x +:+ keep true r.
Proof.
  intros Hx H. destruct x as [|a x]; [done|]. clear Hx. revert a b H. induction x as [|a' x IH]; intros a b H; cbn [all] in H; apply andb_true_iff in H as [H1 H2].
  - change (keep b (String a r) = String a (keep true r)). cbn [keep]. by rewrite H1.
  - change (String a (String a' x) +:+ r) with (String a (String a' x +:+ r)). cbn [keep]. rewrite H1. by rewrite (IH a' true H2).
Qed.
Lemma space_is_other a : isSpace a = true → isSeparator a || isWord a = false.
Proof. destruct a as [[] [] [] [] [] [] [] []]; vm_compute; congruence. Qed.
Lemma keep_space x r : all isSpace x = true → keep true (x +:+ r) = x +:+ keep true r.
Proof.
  induction x as [|a x IH]; [done|]. intros [H1 H2]%andb_true_iff. change (String a x +:+ r) with (String a (x +:+ r)). cbn [keep]. rewrite (space_is_other _ H1), H1. cbn [andb].
  by rewrite (IH H2).
Qed.
Lemma keep_stops r : stops isSpace r → keep true r = keep false r.
Proof. destruct r as [|a r]; [done|]. cbn [stops keep]. intros ->. by rewrite !andb_false_l. Qed.

Lemma join_find s : join (FindAllString s) = keep false s.
Proof.
  apply (find_ind (λ s l, join l = keep false s)); clear s; [done| |].
  - intros s t r (a & w & sp & -> & -> & Hw & Hs & Hr)%matchHere_spec IH. change (join (_ :: FindAllString r)) with ((String a w +:+ sp) +:+ join (FindAllString r)). rewrite IH.
    rewrite <- !append_assoc. rewrite keep_token by done. rewrite (keep_space sp r Hs). by rewrite (keep_stops r Hr).
  - intros a s Hn IH. rewrite IH. cbn [matchHere] in Hn. destruct (isSeparator a) eqn:E1; [by destruct (span isSpace s)|]. destruct (isWord a) eqn:E2.
    + cbn [span] in Hn. rewrite E2 in Hn. destruct (span isWord s) as [w r]. by destruct (span isSpace r).
    + cbn [keep]. rewrite E1, E2. cbn [orb]. by rewrite andb_false_r.
Qed.

Lemma tokens_nonempty s : Forall (λ t, t ≠ ""%string) (FindAllString s).
Proof.
  apply (find_ind (λ _ l, Forall (λ t, t ≠ ""%string) l)); clear s; [done| |done]. intros s t r (a & w & sp & -> & _)%matchHere_spec IH. by constructor.
Qed.

Lemma fnv32_range s : 0 ≤ fnv32 s ≤ max_u32.
Proof.
  unfold fnv32. assert (∀ l h, 0 ≤ h ≤ max_u32 → 0 ≤ foldl fnvStep h l ≤ max_u32) as H; [|apply H; vm_compute; by split].
  induction l as [|b l IH]; intros h Hh; [done|]. apply IH. apply u32_range.
Qed.

Definition supported (a : ascii) : bool := isSeparator a || isWord a || isSpace a.
Lemma keep_all s : all supported s = true → keep true s = s.
Proof.
  induction s as [|a s IH]; [done|]. intros [H1 H2]%andb_true_iff. cbn [keep]. unfold supported in H1. destruct (isSeparator a || isWord a); [by rewrite IH|]. cbn [orb] in H1. rewrite H1. cbn [andb]. by rewrite IH.
Qed.

(** The simulated tokenizer gives one 32-bit id per string, every string is non-empty,
    and the strings joined are the text without the characters it does not know and without
    white space that follows no token: the text itself when it has only known characters and
    does not begin with white space. *)
Theorem simple_tokens_keep_text s :
  let t := tokenize s in
  length (Dataset.Tokens t) = length (Strings t) ∧ Forall (λ id, 0 ≤ id ≤ max_u32) (Dataset.Tokens t) ∧ Forall (λ x, x ≠ ""%string) (Strings t) ∧
  join (Strings t) = keep false s ∧ (all supported s = true → stops isSpace s → join (Strings t) = s).
Proof.
  cbn [tokenize Dataset.Tokens Strings]. unfold stringsToUint32sHash. split_and!; [apply length_fmap|apply Forall_fmap, Forall_forall; intros x _; apply fnv32_range|apply tokens_nonempty|apply join_find|].
  intros Ha Hs. rewrite join_find, <- keep_stops by done. by apply keep_all.
Qed.

(** * Conversations *)

Section Boundary.
(** A text that begins with a separator that is no word character. *)
Context (u : string).
Hypothesis Hword : stops isWord u.
Hypothesis Hspace : stops isSpace u.

Lemma matchHere_app s t r : matchHere s = Some (t, r) → matchHere (s +:+ u) = Some (t, r +:+ u).
Proof using Hword Hspace.
  destruct s as [|a s]; [done|]. change (String a s +:+ u) with (String a (s +:+ u)). cbn [matchHere]. destruct (isSeparator a).
  - rewrite (span_app _ _ _ Hspace). destruct (span isSpace s). by intros [= <- <-].
  - destruct (isWord a) eqn:Ew; [|done]. change (String a (s +:+ u)) with (String a s +:+ u). rewrite (span_app _ _ _ Hword). destruct (span isWord (String a s)) as [w r0]. cbn [fst snd].
    rewrite (span_app _ _ _ Hspace). destruct (span isSpace r0). by intros [= <- <-].
Qed.
Lemma matchHere_none a s : matchHere (String a s) = None → matchHere (String a (s +:+ u)) = None.
Proof using Type.
  cbn [matchHere]. destruct (isSeparator a); [by destruct (span isSpace s)|]. destruct (isWord a); [|done]. destruct (span isWord (String a s)) as [w r]. by destruct (span isSpace r).
Qed.
Lemma find_app s : FindAllString (s +:+ u) = FindAllString s ++ FindAllString u.
Proof using Hword Hspace.
  apply (find_ind (λ s l, FindAllString (s +:+ u) = l ++ FindAllString u)); clear s; [done| |].
  - intros s t r Hm IH. rewrite find_unfold, (matchHere_app _ _ _ Hm). cbn [app]. by rewrite IH.
  - intros a s Hm IH. rewrite find_unfold. change (String a s +:+ u) with (String a (s +:+ u)). by rewrite (matchHere_none _ _ Hm).
Qed.
End Boundary.

Lemma conversation_find l k : FindAllString (join (renderMessage <$> l ++ k)) = FindAllString (join (renderMessage <$> l)) ++ FindAllString (join (renderMessage <$> k)).
Proof.
  rewrite fmap_app, join_app. destruct k as [|m k]; [by rewrite append_empty, app_nil_r|]. by apply find_app.
Qed.
(** Every message has tokens: the separator before it. *)
Lemma find_hash x : FindAllString (String "#" x) = String "#" (span isSpace x).1 :: FindAllString (span isSpace x).2.
Proof. rewrite find_unfold. cbn [matchHere]. replace (isSeparator "#") with true by done. by destruct (span isSpace x). Qed.
Lemma message_tokens m k : (3 ≤ length (FindAllString (join (renderMessage <$> m :: k))))%nat.
Proof.
  rewrite fmap_cons. change (join (renderMessage m :: (renderMessage <$> k))) with (String "#" (String "#" (String "#" (String " " ((ApiRequests.PlainText true m +:+ EndMessageSeparator) +:+ join (renderMessage <$> k)))))).
  do 3 (rewrite find_hash; cbn [fst snd span]; try (replace (isSpace "#") with false by done; cbn [fst snd])). cbn [length]. lia.
Qed.

(** C8: the tokens of a conversation are the tokens of its messages, one after the other:
    what a turn adds comes after the tokens of the conversation so far, which stay as they
    were, for chat messages and for the items of a Responses request alike; every message
    adds at least three tokens. *)
Theorem conversation_tokens_extend :
  (∀ l k, ∃ tl fl tk fk t f, RenderMessages l = Ok (tl, fl) ∧ RenderMessages k = Ok (tk, fk) ∧ RenderMessages (l ++ k) = Ok (t, f) ∧
     Dataset.Tokens t = Dataset.Tokens tl ++ Dataset.Tokens tk ∧ Strings t = Strings tl ++ Strings tk ∧ (3 * length k ≤ length (Dataset.Tokens tk))%nat) ∧
  (∀ r l k, ApiRequests.rq_Input r = l ++ k → ∃ tl fl tk fk t f,
     RenderMessages (ApiRequests.convertInputToMessages l) = Ok (tl, fl) ∧ RenderMessages (ApiRequests.convertInputToMessages k) = Ok (tk, fk) ∧
     ApiRequests.encodeResponses RenderMessages r = Ok (t, f) ∧ Dataset.Tokens t = Dataset.Tokens tl ++ Dataset.Tokens tk).
Proof.
  assert (∀ k, 3 * length k ≤ length (FindAllString (join (renderMessage <$> k))))%nat as Hmin.
  { induction k as [|m k IH]; [done|]. change (m :: k) with ([m] ++ k). rewrite conversation_find, !length_app. pose proof (message_tokens m []). cbn [length]. lia. }
  assert (∀ l k, ∃ tl fl tk fk t f, RenderMessages l = Ok (tl, fl) ∧ RenderMessages k = Ok (tk, fk) ∧ RenderMessages (l ++ k) = Ok (t, f) ∧
     Dataset.Tokens t = Dataset.Tokens tl ++ Dataset.Tokens tk ∧ Strings t = Strings tl ++ Strings tk ∧ (3 * length k ≤ length (Dataset.Tokens tk))%nat) as H.
  { intros l k. do 6 eexists. split_and!; [reflexivity..| | |]; cbn [tokenize Dataset.Tokens Strings]; unfold stringsToUint32sHash; [by rewrite conversation_find, fmap_app|apply conversation_find|rewrite length_fmap; apply Hmin]. }
  split; [exact H|]. intros r l k Hr. unfold ApiRequests.encodeResponses. rewrite Hr. unfold ApiRequests.convertInputToMessages. rewrite fmap_app.
  destruct (H (ApiRequests.convertItem <$> l) (ApiRequests.convertItem <$> k)) as (tl & fl & tk & fk & t & f & H1 & H2 & H3 & H4 & _). by exists tl, fl, tk, fk, t, f.
Qed.

(** * Placeholders *)

Definition Within (total : Z) (p : RenderPlaceholder) : Prop := 0 ≤ Offset p ∧ 1 ≤ pl_Length p ∧ Offset p + pl_Length p ≤ total.

Lemma placeholder_within total span i : 1 ≤ total → 1 ≤ span → Within total (placeholder total span i).
Proof.
  intros Ht Hs. unfold Within, placeholder. cbn [Offset pl_Length]. destruct (Z.leb_spec total (Z.of_nat i * span)).
  - destruct (Z.ltb_spec (total - 1) 0); [lia|]. destruct (Z.ltb_spec total (total - 1 + span)); [destruct (Z.ltb_spec (total - (total - 1)) 1)|destruct (Z.ltb_spec span 1)]; lia.
  - destruct (Z.ltb_spec (Z.of_nat i * span) 0); [lia|].
    destruct (Z.ltb_spec total (Z.of_nat i * span + span)); [destruct (Z.ltb_spec (total - Z.of_nat i * span) 1)|destruct (Z.ltb_spec span 1)]; lia.
Qed.
Lemma placeholders_disjoint total n i j : (0 < n)%nat → Z.of_nat n ≤ total → (i < j < n)%nat →
  let p := placeholder total (Z.max (total / Z.of_nat n) 1) in Offset (p i) + pl_Length (p i) ≤ Offset (p j).
Proof.
  intros Hn Ht Hij p. assert (1 ≤ total / Z.of_nat n) by (apply Z.div_le_lower_bound; lia). assert (Z.of_nat n * (total / Z.of_nat n) ≤ total) by (apply Z.mul_div_le; lia).
  subst p. rewrite Z.max_l by done. set (w := total / Z.of_nat n) in *.
  assert (∀ x, (x < n)%nat → placeholder total w x = mkPlaceholder (Z.of_nat x * w) w) as Hp; [|rewrite !Hp by lia; cbn [Offset pl_Length]; nia].
  intros x Hx. assert (Z.of_nat x * w + w ≤ total) by nia. unfold placeholder. destruct (Z.leb_spec total (Z.of_nat x * w)); [lia|]. destruct (Z.ltb_spec (Z.of_nat x * w) 0); [lia|].
  destruct (Z.ltb_spec total (Z.of_nat x * w + w)); [lia|]. by destruct (Z.ltb_spec w 1); [lia|].
Qed.

Lemma push_lookup {A} k (a : A) m k' : default [] (pushTo k a m !! k') = default [] (m !! k') ++ (if decide (k = k') then [a] else []).
Proof. unfold pushTo. destruct (decide (k = k')) as [->|Hk]; [by rewrite lookup_insert_eq|]. by rewrite lookup_insert_ne, app_nil_r. Qed.

(** The features after the items: the same keys, and only placeholders of the items. *)
Lemma features_inv total span l f :
  (∀ k, length (default [] (MMHashes f !! k)) = length (default [] (MMPlaceholders f !! k)) ∧ length (default [] (KwargsData f !! k)) = length (default [] (MMPlaceholders f !! k)) ∧
        Forall (Within total) (default [] (MMPlaceholders f !! k))) → 1 ≤ total → 1 ≤ span →
  let f' := foldl (addFeature total span) f l in
  ∀ k, length (default [] (MMHashes f' !! k)) = length (default [] (MMPlaceholders f' !! k)) ∧ length (default [] (KwargsData f' !! k)) = length (default [] (MMPlaceholders f' !! k)) ∧
       Forall (Within total) (default [] (MMPlaceholders f' !! k)).
Proof.
  intros H Ht Hs. revert f H. induction l as [|[i it] l IH]; intros f H; [done|]. cbn [foldl]. apply IH. intros k. destruct (H k) as (H1 & H2 & H3). unfold addFeature. cbn [MMHashes MMPlaceholders KwargsData fst snd].
  rewrite !push_lookup, !length_app, H1, H2. destruct (decide (modality it = k)); cbn [length]; split_and!; try done. 1: apply Forall_app; split; [done|]; apply Forall_singleton; by apply placeholder_within.
  by rewrite app_nil_r.
Qed.

(** The features of multimodal messages name as many hashes as placeholders and arguments
    per modality, and every placeholder is a non-empty range within the tokens of the
    prompt. *)
Theorem placeholders_within_prompt messages t f : RenderMessages messages = Ok (t, Some f) → ∀ k,
  length (default [] (MMHashes f !! k)) = length (default [] (MMPlaceholders f !! k)) ∧ length (default [] (KwargsData f !! k)) = length (default [] (MMPlaceholders f !! k)) ∧
  Forall (Within (Z.of_nat (length (Dataset.Tokens t)))) (default [] (MMPlaceholders f !! k)).
Proof.
  intros [= <- Hf]. cbn [tokenize Dataset.Tokens] in *. unfold stubMMFeaturesForMessages in Hf. set (total := Z.of_nat _) in *.
  assert (1 ≤ total) as Ht.
  { subst total. unfold stringsToUint32sHash. rewrite length_fmap. destruct messages as [|m l]; [done|]. pose proof (message_tokens m l). lia. }
  destruct (items (collectItems messages)) as [|it its]; [done|]. injection Hf as <-.
  apply (features_inv total (Z.max (total / Z.of_nat (length (it :: its))) 1) (enumerate (it :: its)) (mkMMFeatures ∅ ∅ ∅)); [|done|lia].
  intros k. cbn [MMHashes MMPlaceholders KwargsData]. rewrite !lookup_empty. by split_and!.
Qed.

(** * The render service *)

Lemma join_replicate n : join (replicate n ""%string) = ""%string.
Proof. induction n as [|n IH]; [done|]. exact IH. Qed.

Lemma split_spec text n :
  match splitIntoTokens text (Z.of_nat n) with
  | Some l => length l = n ∧ join l = keep false text
  | None => n = 0%nat ∧ keep false text ≠ ""%string
  end.
Proof.
  unfold splitIntoTokens. pose proof (join_find text) as Hj. pose proof (tokens_nonempty text) as Hne. set (l := FindAllString text) in *. destruct (Z.eqb_spec (Z.of_nat n) (-1)); [lia|]. cbn [orb].
  destruct (Z.eqb_spec (Z.of_nat n) (Z.of_nat (length l))); [split; [lia|done]|]. destruct (Z.ltb_spec (Z.of_nat (length l)) (Z.of_nat n)).
  { rewrite length_app, length_replicate, join_app, join_replicate, append_empty. split; [lia|done]. }
  destruct (Z.ltb_spec (Z.of_nat n - 1) 0).
  - split; [lia|]. rewrite <- Hj. destruct l as [|t l']; [cbn in *; lia|]. apply Forall_cons in Hne as [Ht _]. by destruct t.
  - rewrite length_app, length_take. cbn [length]. split; [lia|]. rewrite join_app. change (join [join (drop (Z.to_nat (Z.of_nat n - 1)) l)]) with (join (drop (Z.to_nat (Z.of_nat n - 1)) l) +:+ ""%string).
    by rewrite append_empty, <- join_app, take_drop.
Qed.

(** C26: a text rendered by the service gets its ids and one string per id, which joined are
    the text the simulated tokenizer would keep; it fails when the service does; and it
    panics exactly when the service gives no ids for a text that has tokens. *)
Theorem rendered_strings_match post endpoint payload mm text : endpoint ≠ ""%string →
  match renderRequest post endpoint payload mm text with
  | Some (Ok (t, f)) => render post endpoint payload mm = Ok (Dataset.Tokens t, f) ∧ length (Strings t) = length (Dataset.Tokens t) ∧ join (Strings t) = keep false text
  | Some (Err _) => is_ok (render post endpoint payload mm) = false
  | None => ∃ f, render post endpoint payload mm = Ok ([], f) ∧ keep false text ≠ ""%string
  end.
Proof.
  intros He. unfold renderRequest. destruct (String.eqb_spec endpoint ""); [done|]. destruct (render post endpoint payload mm) as [[ids f]|e]; [|done].
  pose proof (split_spec text (length ids)) as Hs. destruct (splitIntoTokens text _) as [l|]; cbn [mbind option_bind]; [by destruct Hs|]. destruct Hs as [H1 H2]. exists f. by apply nil_length_inv in H1 as ->.
Qed.

(** * Examples *)

Lemma placeholders_within_prompt_witness :
  let m := mkMessage "user" (mkChatContent "" [mkBlock "text" "look" None None None; mkBlock "image_url" "" (Some "http://a/b"%string) None None]) [] "" in
  match RenderMessages [m] with Ok (t, Some f) => Forall (Within (Z.of_nat (length (Dataset.Tokens t)))) (default [] (MMPlaceholders f !! "image"%string)) ∧ length (default [] (MMHashes f !! "image"%string)) = 1%nat | _ => False end.
Proof.
  intros m. destruct (RenderMessages [m]) as [[t [f|]]|e] eqn:E; [|by vm_compute in E..].
  pose proof (placeholders_within_prompt [m] t f E "image"%string) as (H1 & _ & H3). split; [exact H3|]. injection E as <- <-. vm_compute. reflexivity.
Defined.

Lemma rendered_strings_match_witness :
  match renderRequest (λ _ _ _, Ok (Some (WArr [WObj [("token_ids"%string, WArr [encInt 5; encInt 6])]]))) "/v1/completions" WNull false "a, b!" with
  | Some (Ok (t, _)) => length (Strings t) = 2%nat ∧ join (Strings t) = "a, b!"%string
  | _ => False
  end.
Proof.
  pose proof (rendered_strings_match (λ _ _ _, Ok (Some (WArr [WObj [("token_ids"%string, WArr [encInt 5; encInt 6])]]))) "/v1/completions" WNull false "a, b!" ltac:(done)) as H.
  destruct (renderRequest _ _ _ _ _) as [[[t f]|e]|] eqn:E; [|by vm_compute in E..]. destruct H as (H1 & H2 & H3). rewrite H2, H3. injection E as <- <-. by split.
Defined.

Lemma simple_tokens_keep_text_witness : join (Strings (tokenize "_a_b: it's (1.5)")) = "_a_b: it's (1.5)"%string ∧ Strings (tokenize "_a_b: it's (1.5)") = ["_"; "a_b"; ": "; "it"; "'"; "s "; "("; "1"; "."; "5"; ")"]%string.
Proof. destruct (simple_tokens_keep_text "_a_b: it's (1.5)") as (_ & _ & _ & _ & H). split; [by apply H|vm_compute; reflexivity]. Defined.

(** Text in other scripts, bars and backquotes have no tokens; an underscore before a word is a token of its own. *)
Example unknown_characters_lost : Strings (tokenize "日本 a|b `c`") = ["a"; "b "; "c"]%string ∧ Dataset.Tokens (tokenize "日本語") = [].
Proof. vm_compute. done. Qed.

(** No ids for a text with tokens: an index out of range. *)
Example no_ids_panic : renderRequest (λ _ _ _, Ok (Some (WObj [("token_ids"%string, WArr [])]))) "/v1/completions" WNull false "hi" = None.
Proof. reflexivity. Qed.

(** FNV-1a of known inputs, and a hash of an image. *)
Example fnv32_values : fnv32 "" = 2166136261 ∧ fnv32 "a" = 0xe40c292c ∧ fnv32 "foobar" = 0xbf9cf968 ∧ itemHash (mkItem "image" "img" "foobar" 2) = "sim_img_2_bf9cf968"%string.
Proof. vm_compute. done. Qed.

End TokenizerProps.
