(* ===== verification/Grpc.v ===== *)
(** The gRPC endpoint ([pkg/communication/grpc.go] and the gRPC builder of
    [response_builder.go]): a request becomes a generation request, its messages become
    chunks or one answer, errors become status codes.  The connection is a parameter. *)

From S2P Require Import Prelude GoFloat GoRandom BlockCache Lora KVEvents Requests Dataset Config Scheduler Tools Logprobs Response Streaming StreamingProps Server Wire ApiRequests.
Import GoRandom Dataset Response Streaming.
Open Scope Z_scope.

Module Grpc.

(** * Messages of the protocol *)

Inductive pbInput := InputTokenized (ids : list Z) | InputText (text : string).
(** [max_tokens] is a [uint32] of the sampling parameters. *)
Record pbRequest := mkPbRequest { RequestId : string; pb_Stream : bool; pb_MaxTokens : option Z; pb_Input : pbInput }.
Record GenerateComplete := mkComplete { OutputIds : list Z; pc_PromptTokens : Z; pc_CompletionTokens : Z; pc_CachedTokens : Z; pc_FinishReason : string }.
Record GenerateStreamChunk := mkChunk { ch_TokenIds : list Z; pk_PromptTokens : Z; pk_CachedTokens : Z; pk_CompletionTokens : Z }.
Inductive pbResponse := CompleteMsg (c : GenerateComplete) | ChunkMsg (c : GenerateStreamChunk).

Inductive code := InvalidArgument | Unauthenticated | PermissionDenied | NotFound | Aborted | ResourceExhausted | Unimplemented | Unavailable | DeadlineExceeded | Internal | Unknown.
Definition extractGRPCCode (e : Error) : code :=
  match Code e with
  | 400 => InvalidArgument | 401 => Unauthenticated | 403 => PermissionDenied | 404 => NotFound | 409 => Aborted | 429 => ResourceExhausted
  | 501 => Unimplemented | 503 => Unavailable | 504 => DeadlineExceeded | 500 => Internal | _ => Unknown
  end.

Definition pbRequestToRequest (model : string) (req : pbRequest) : ApiRequests.GenerationRequest :=
  let r := ApiRequests.NewGenerationRequest (RequestId req) (pb_Stream req) model (pb_MaxTokens req) in
  match pb_Input req with
  | InputTokenized ids => ApiRequests.mkGeneration (ApiRequests.gn_base r) (ApiRequests.gn_Prompt r) (ApiRequests.gn_MaxTokens r) (Some (mkTokenized ids []))
  | InputText text => ApiRequests.mkGeneration (ApiRequests.gn_base r) text (ApiRequests.gn_MaxTokens r) None
  end.

(** * The call *)

(** How a call ends: what was sent, and the status ([None]: success). *)
Inductive how := Success | Failed (c : code) (message : string) | Cancelled.
Record call := mkCallResult { sent : list pbResponse; ended : how }.

Section Call.
(** The cached tokens of a context, the text of [status.Errorf], whether the context of
    the call is done when the n-th message arrives, and an error of the n-th send. *)
Variable NumberCachedPromptTokens : ResponseContext → Z.
Variable Errorf : string → Error → string.
Variable isDone : nat → bool.
Variable Send : nat → option string.

Definition createChunk (rc : ResponseContext) (t : Tokenized) : pbResponse :=
  ChunkMsg (mkChunk (Dataset.Tokens t) (u32 (PromptTokens (UsageData rc))) (u32 (NumberCachedPromptTokens rc)) (u32 (Z.of_nat (length (Dataset.Tokens t))))).
(** [None]: no finish reason to dereference. *)
Definition createResponse (rc : ResponseContext) (t : option Tokenized) : option pbResponse :=
  reason ← FinishReason rc;
  Some (CompleteMsg (mkComplete match t with Some t => Dataset.Tokens t | None => [] end (u32 (PromptTokens (UsageData rc)))
          match t with Some _ => u32 (CompletionTokens (UsageData rc)) | None => 0 end (u32 (NumberCachedPromptTokens rc)) reason)).
Definition createLastChunk (rc : ResponseContext) : option pbResponse := createResponse rc None.

Definition sendResponse (r : pbResponse) (l : list pbResponse) : result string (list pbResponse) :=
  match Send (length l) with None => Ok (l ++ [r]) | Some e => Err ("send failed: " +:+ e) end.

(** The state of the loop over the messages: what was sent, the last context, the tokens. *)
Record loop := mkLoop { lp_sent : list pbResponse; lp_ctx : option ResponseContext; lp_tokens : Tokenized }.
Definition failWith (e : Error) (l : list pbResponse) : call := mkCallResult l (Failed (extractGRPCCode e) (Errorf (Message_ e) e)).

(** One message: go on, or end the call.  A stream sends a chunk; its context may be nil. *)
Definition onMessage (stream : bool) (n : nat) (m : ResponseInfo) (s : loop) : option (loop + call) :=
  if isDone n then Some (inr (mkCallResult (lp_sent s) Cancelled))
  else match Err_ m with
  | Some e => Some (inr (failWith e (lp_sent s)))
  | None =>
      match Tokens_ m with
      | None => Some (inl (mkLoop (lp_sent s) (RespCtx m) (lp_tokens s)))
      | Some t =>
          if stream then
            rc ← RespCtx m;
            Some (match sendResponse (createChunk rc t) (lp_sent s) with
                  | Ok l => inl (mkLoop l (RespCtx m) (lp_tokens s))
                  | Err e => inr (mkCallResult (lp_sent s) (Failed Internal e))
                  end)
          else Some (inl (mkLoop (lp_sent s) (RespCtx m) (Append (lp_tokens s) t)))
      end
  end.
Fixpoint onMessages (stream : bool) (n : nat) (msgs : list ResponseInfo) (s : loop) : option (loop + call) :=
  match msgs with
  | [] => Some (inl s)
  | m :: msgs => r ← onMessage stream n m s; match r with inl s => onMessages stream (S n) msgs s | inr c => Some (inr c) end
  end.

(** After the channel is closed; [None]: a nil context. *)
Definition answer (stream : bool) (msgs : list ResponseInfo) : option call :=
  r ← onMessages stream 0 msgs (mkLoop [] None noTokens);
  match r with
  | inr c => Some c
  | inl s =>
      rc ← lp_ctx s;
      resp ← (if stream then createLastChunk rc else createResponse rc (Some (lp_tokens s)));
      Some (match sendResponse resp (lp_sent s) with Ok l => mkCallResult l Success | Err e => mkCallResult (lp_sent s) (Failed Internal e) end)
  end.

(** [Generate]: the front, with the outcome of [HandleRequest]. *)
Definition Generate (stopping : bool) (req : pbRequest) (handled : Server.front) (msgs : list ResponseInfo) : option call :=
  if stopping then Some (mkCallResult [] (Failed Unavailable "server is shutting down"))
  else match handled with
       | Server.Refused e _ => Some (failWith e [])
       | Server.Serving _ _ _ => answer (pb_Stream req) msgs
       end.
End Call.

(** * Properties *)

Section Delivery.
Variable NumberCachedPromptTokens : ResponseContext → Z.
Variable Errorf : string → Error → string.

Definition chunkIds (r : pbResponse) : list Z := match r with ChunkMsg c => ch_TokenIds c | CompleteMsg _ => [] end.

(** Messages without errors, with contexts. *)
Definition Clean (rc : ResponseContext) (m : ResponseInfo) : Prop := Err_ m = None ∧ RespCtx m = Some rc.

Lemma stream_loop rc n msgs s : Forall (Clean rc) msgs →
  ∃ l, onMessages NumberCachedPromptTokens Errorf (λ _, false) (λ _, None) true n msgs s = Some (inl (mkLoop (lp_sent s ++ l) (if decide (msgs = []) then lp_ctx s else Some rc) (lp_tokens s))) ∧
       concat (chunkIds <$> l) = StreamingProps.idsOf msgs ∧ Forall (λ r, ∃ c, r = ChunkMsg c ∧ pk_PromptTokens c = u32 (PromptTokens (UsageData rc))) l.
Proof.
  intros H. revert n s. induction H as [|m msgs [He Hc] _ IH]; intros n s; [exists []; split_and!; [cbn; by destruct s; rewrite app_nil_r|done..]|].
  cbn [onMessages]. unfold onMessage. rewrite He, Hc. destruct (Tokens_ m) as [t|] eqn:Et; cbn [mbind option_bind sendResponse].
  - destruct (IH (S n) (mkLoop (lp_sent s ++ [createChunk NumberCachedPromptTokens rc t]) (Some rc) (lp_tokens s))) as (l & -> & Hl & Hf).
    exists (createChunk NumberCachedPromptTokens rc t :: l). cbn [lp_sent lp_ctx lp_tokens]. split_and!.
    + rewrite <- app_assoc. by destruct (decide (msgs = [])).
    + unfold StreamingProps.idsOf in *. cbn. rewrite Et. by rewrite Hl.
    + constructor; [by eexists|done].
  - destruct (IH (S n) (mkLoop (lp_sent s) (Some rc) (lp_tokens s))) as (l & -> & Hl & Hf). exists l. cbn [lp_sent lp_ctx lp_tokens]. split_and!; [by destruct (decide (msgs = []))| |done].
    unfold StreamingProps.idsOf in *. cbn. by rewrite Et.
Qed.
Lemma plain_loop rc n msgs s : Forall (Clean rc) msgs →
  onMessages NumberCachedPromptTokens Errorf (λ _, false) (λ _, None) false n msgs s =
  Some (inl (mkLoop (lp_sent s) (if decide (msgs = []) then lp_ctx s else Some rc) (mkTokenized (Dataset.Tokens (lp_tokens s) ++ StreamingProps.idsOf msgs) (Strings (lp_tokens s) ++ StreamingProps.textsOf msgs)))).
Proof.
  intros H. revert n s. induction H as [|m msgs [He Hc] _ IH]; intros n s; [cbn; destruct s as [? ? []]; cbn; by rewrite !app_nil_r|].
  cbn [onMessages]. unfold onMessage. rewrite He, Hc. unfold StreamingProps.idsOf, StreamingProps.textsOf in *. destruct (Tokens_ m) as [t|] eqn:Et; cbn [mbind option_bind]; rewrite IH; cbn [lp_sent lp_ctx lp_tokens]; cbn; rewrite Et; cbn.
  - rewrite !app_assoc. by destruct (decide (msgs = [])).
  - by destruct (decide (msgs = [])).
Qed.
End Delivery.

(** An error among the messages ends the call with its status. *)
Lemma error_ends NumberCachedPromptTokens Errorf stream n rc pre m post e s : Forall (Clean rc) pre → Err_ m = Some e →
  ∃ l, onMessages NumberCachedPromptTokens Errorf (λ _, false) (λ _, None) stream n (pre ++ m :: post) s = Some (inr (failWith Errorf e l)).
Proof.
  intros H He. revert n s. induction H as [|x pre [Hx Hc] _ IH]; intros n s; cbn [app onMessages]; unfold onMessage at 1; [rewrite He; by eexists|].
  rewrite Hx, Hc. destruct (Tokens_ x) as [t|]; [destruct stream|]; cbn [mbind option_bind sendResponse]; apply IH.
Qed.

Lemma tokenMessages_clean rc i strings total k tokens l : tokenMessages rc i strings total k tokens = Some l → StreamingProps.idsOf l = tokens ∧ Forall (Clean rc) l.
Proof.
  revert k l. induction tokens as [|z tokens IH]; intros k l; cbn [tokenMessages]; [intros [= <-]; by split|].
  destruct (if (length strings =? 0)%nat then Some [] else _) as [strs|]; [|done]. cbn [mbind option_bind]. destruct (tokenMessages _ _ _ _ _ _) as [rest|] eqn:E; [|done]. intros [= <-].
  destruct (IH (S k) rest E) as [<- H]. split; [done|]. by constructor.
Qed.
(** The tokens a response sends: none when it ended at the cache threshold. *)
Definition tokensSent (rc : ResponseContext) (t : Tokenized) : list Z := if bool_decide (FinishReason rc = Some Requests.CacheThresholdReason) then [] else Dataset.Tokens t.
Lemma produced_clean rc i t l : responseTokens rc = Some t → simulateResponseProcessing rc i = Some l → l ≠ [] ∧ StreamingProps.idsOf l = tokensSent rc t ∧ Forall (Clean rc) l.
Proof.
  intros Ht. unfold simulateResponseProcessing, tokensSent. case_bool_decide; [intros [= <-]; split_and!; [done..|by constructor]|]. unfold respIsEmpty. rewrite Ht.
  destruct (Nat.eqb_spec (length (Dataset.Tokens t)) 0) as [E|E].
  { cbn [mbind option_bind]. intros [= <-]. apply nil_length_inv in E as ->. split_and!; [done..|by repeat constructor]. }
  destruct (tokenMessages _ _ _ _ _ _) as [rest|] eqn:Er; [|done]. intros [= <-]. destruct (tokenMessages_clean _ _ _ _ _ _ _ Er) as [Hi Hc]. split_and!; [done|exact Hi|by constructor].
Qed.

(** C25: the gRPC endpoint streams and answers alike: over a connection that holds, the
    token ids of the chunks of a stream are, in order, those of the plain answer and of the
    response, every chunk and the last message carry the prompt size, and both end with the
    finish reason; a message with an error ends the call with the status of the error; an
    injected failure has a status of its own; and a server that stops is unavailable. *)
Theorem grpc_stream_equals_plain NumberCachedPromptTokens Errorf rc t reason msgs :
  responseTokens rc = Some t → FinishReason rc = Some reason → simulateResponseProcessing rc 0 = Some msgs →
  let run := answer NumberCachedPromptTokens Errorf (λ _, false) (λ _, None) in
  (∃ chunks last whole,
     run true msgs = Some (mkCallResult (chunks ++ [CompleteMsg last]) Success) ∧ run false msgs = Some (mkCallResult [CompleteMsg whole] Success) ∧
     concat (chunkIds <$> chunks) = tokensSent rc t ∧ OutputIds whole = tokensSent rc t ∧
     Forall (λ r, ∃ c, r = ChunkMsg c ∧ pk_PromptTokens c = pc_PromptTokens whole) chunks ∧ pc_PromptTokens last = pc_PromptTokens whole ∧
     pc_FinishReason last = reason ∧ pc_FinishReason whole = reason) ∧
  (∀ stream pre m post e, Forall (Clean rc) pre → Err_ m = Some e → ∃ l, run stream (pre ++ m :: post) = Some (mkCallResult l (Failed (extractGRPCCode e) (Errorf (Message_ e) e)))) ∧
  Forall (λ f, extractGRPCCode f.2 ≠ Unknown) Server.predefinedFailures ∧
  (∀ req handled, Generate NumberCachedPromptTokens Errorf (λ _, false) (λ _, None) true req handled msgs = Some (mkCallResult [] (Failed Unavailable "server is shutting down"))).
Proof.
  intros Ht Hr Hm run. destruct (produced_clean _ _ _ _ Ht Hm) as (Hne & Hids & Hclean). split_and!; [| |repeat constructor; done|done].
  - destruct (stream_loop NumberCachedPromptTokens Errorf rc 0 msgs (mkLoop [] None noTokens) Hclean) as (l & Hs & Hl & Hf).
    eexists l, _, _. unfold run, answer. rewrite Hs, (plain_loop _ _ rc 0 msgs (mkLoop [] None noTokens) Hclean), !decide_False by done.
    cbn [mbind option_bind lp_ctx lp_sent lp_tokens]. unfold createLastChunk, createResponse. rewrite Hr. cbn [mbind option_bind sendResponse].
    split_and!; [reflexivity|reflexivity|by rewrite Hl|exact Hids|exact Hf|done..].
  - intros stream pre m post e Hp He. unfold run, answer. destruct (error_ends NumberCachedPromptTokens Errorf stream 0 rc pre m post e (mkLoop [] None noTokens) Hp He) as [l ->]. by exists l.
Qed.

Lemma grpc_stream_equals_plain_witness :
  let rc := StreamingProps.ctx_ex "r" "stop" [1; 2] ["Hello "; "you"]%string in
  ∃ msgs, simulateResponseProcessing rc 0 = Some msgs ∧
    ∃ chunks last, answer (λ _, 0) (λ m _, m) (λ _, false) (λ _, None) true msgs = Some (mkCallResult (chunks ++ [CompleteMsg last]) Success) ∧ concat (chunkIds <$> chunks) = [1; 2].
Proof.
  intros rc. eexists. split; [reflexivity|].
  destruct (grpc_stream_equals_plain (λ _, 0) (λ m _, m) rc (mkTokenized [1; 2] ["Hello "; "you"]%string) "stop" _ eq_refl eq_refl eq_refl) as ((chunks & last & whole & H1 & _ & H3 & _) & _).
  exists chunks, last. split; [exact H1|exact H3].
Defined.

(** A text prompt is tokenized, a tokenized one is passed on, and a stream ends with no completion tokens counted. *)
Example generation_prompts :
  ApiRequests.encodeGeneration (λ s, Err s) (pbRequestToRequest "m" (mkPbRequest "id" false (Some 4) (InputTokenized [7; 8]))) = Ok (mkTokenized [7; 8] []) ∧
  ApiRequests.encodeGeneration (λ s, Err s) (pbRequestToRequest "m" (mkPbRequest "id" false None (InputText "hi"))) = Err "hi"%string ∧
  createLastChunk (λ _, 0) (StreamingProps.ctx_ex "r" "stop" [1; 2] ["Hello "; "you"]%string) = Some (CompleteMsg (mkComplete [] 3 0 0 "stop")).
Proof. done. Qed.

End Grpc.
