(* ===== verification/MoeProfile.v ===== *)
(** Execution profiles of the trace replay ([pkg/simulator/moe_profile.go] and
    [moe_profile_decode.go]): the recorder, the drawing of a forward on the tracks
    of a timeline, the rebuilt file, its publication, and the token assignments
    added to the decode forwards.  A time is its distance in nanoseconds from a fixed
    instant. *)

From S2P Require Import Prelude GoFloat TraceFormat TraceFile Moe TraceText TraceWorkload TraceFidelity TraceExecution Config.
From stdpp Require Import pretty.
Import TraceFile Moe TraceWorkload TraceExecution.
Open Scope Z_scope.

Module MoeProfile.

(** * Events *)

Definition profilePIDSimulated : Z := 1.
Definition profileTIDRouter : Z := 100.
Definition profileTIDEPLB : Z := 101.
Definition profileTIDAggregator : Z := 102.
Definition profileTIDDispatch : Z := 200.
Definition profileTIDCombine : Z := 201.
Definition profileTIDMigration : Z := 202.
Definition profileTIDGPUBase : Z := 1000.
Definition gpuTrack (gpu : nat) : Z := profileTIDGPUBase + Z.of_nat gpu * 10.

(** A value of a [map[string]any]; [AParsed] is an object of numbers under text keys. *)
Inductive argValue :=
| AInt (z : Z) | AFloat (x : f64) | AStr (s : string) | AInts (l : list Z) | ALoads (m : gmap nat f64)
| AParsed (l : list (string * option f64)) | ATokens (l : list traceProfileTokenAssignment).
Abbreviation eventArgs := (gmap string argValue).

Record chromeTraceEvent := mkEvent {
  Name : string; Cat : string; Ph : string; Ts : f64; Dur : f64; Pid : Z; Tid : Z; ID : Z; BP : string; Args : option eventArgs }.

(** [Time.Sub] saturates at the range of a duration. *)
Definition Sub (t u : Z) : Z := Z.max (- 2 ^ 63) (Z.min (2 ^ 63 - 1) (t - u)).
Definition durationMicros (d : Z) : f64 := fdiv (f_of_Z d) (f_of_Z 1000).
Definition timestampMicros (origin at_ : Z) : f64 := durationMicros (Sub at_ origin).

(** What the recorder is asked to draw: [span], [instant], [flow], [counter]. *)
Inductive mark :=
| Span (name category : string) (tid start duration : Z) (args : eventArgs)
| Instant (name category : string) (tid at_ : Z) (args : eventArgs)
| Flow (name phase : string) (tid at_ id : Z)
| Counter (name : string) (tid at_ : Z) (value : f64).

Definition eventOf (origin : Z) (k : mark) : chromeTraceEvent :=
  match k with
  | Span name category tid start duration args =>
      mkEvent name category "X" (timestampMicros origin start) (durationMicros duration) profilePIDSimulated tid 0 "" (Some args)
  | Instant name category tid at_ args =>
      mkEvent name category "i" (timestampMicros origin at_) f_zero profilePIDSimulated tid 0 "" (Some args)
  | Flow name phase tid at_ id =>
      mkEvent name "flow" phase (timestampMicros origin at_) f_zero profilePIDSimulated tid id (if (phase =? "f")%string then "e" else "") None
  | Counter name tid at_ value =>
      mkEvent name "" "C" (timestampMicros origin at_) f_zero profilePIDSimulated tid 0 "" (Some {[ "value"%string := AFloat value ]})
  end.

Definition metadataForProcess (pid : Z) (name : string) (tid : Z) (label : string) : chromeTraceEvent :=
  mkEvent name "" "M" f_zero f_zero pid tid 0 "" (Some {[ "name"%string := AStr label ]}).
Definition threadMetadata : Z → string → chromeTraceEvent := metadataForProcess profilePIDSimulated "thread_name".

Definition gpuTracks (gpu : nat) : list chromeTraceEvent :=
  let tid := gpuTrack gpu in
  let label what := ("GPU " +:+ pretty gpu +:+ " / " +:+ what)%string in
  [threadMetadata tid (label "Operations"); threadMetadata (tid + 1) (label "Compute utilization"); threadMetadata (tid + 2) (label "HBM utilization");
   threadMetadata (tid + 3) (label "HBM GB/s"); threadMetadata (tid + 4) (label "VRAM")].
Definition initializeTracks (numGPUs : nat) : list chromeTraceEvent :=
  [metadataForProcess profilePIDSimulated "process_name" 0 "Simulated system"; threadMetadata profileTIDRouter "CPU / Router"; threadMetadata profileTIDEPLB "CPU / EPLB";
   threadMetadata profileTIDAggregator "CPU / Routing aggregator"; threadMetadata profileTIDDispatch "Network / Dispatch";
   threadMetadata profileTIDCombine "Network / Combine"; threadMetadata profileTIDMigration "Network / Expert migration"]
  ++ concat (gpuTracks <$> seq 0 numGPUs).

(** * Drawing: marks are appended and flow ids are numbered from the last one *)

Definition draw (A : Type) : Type := Z → A * Z * list mark.
Definition runDraw {A} (d : draw A) (n : Z) : A * Z * list mark := d n.
#[export] Instance draw_ret : MRet draw := λ A a n, (a, n, []).
#[export] Instance draw_bind : MBind draw := λ A B f d n,
  let '(a, n, l) := d n in let '(b, n, k) := f a n in (b, n, l ++ k).
Definition put (l : list mark) : draw () := λ n, ((), n, l).
Definition newFlowID : draw Z := λ n, (n + 1, n + 1, []).
Definition when (b : bool) (d : draw ()) : draw () := if b then d else mret ().
Definition forEach {A} (f : A → draw ()) (l : list A) : draw () := foldr (λ x rest, _ ← f x; rest) (mret ()) l.

(** * A forward *)

Record layerExecution := mkLayerExecution {
  xl_layer : nat; xl_times : routerTimes; xl_dispatch : Z; xl_combine : Z; xl_gpus : list traceGPUExecution }.
Record forwardExecution := mkForwardExecution {
  xf_requestIDs : list Z; xf_phase : string; xf_layers : list layerExecution; xf_eplbDuration : Z; xf_migration : Z }.

(** The execution given to the recorder by a forward: combining takes as long as dispatching. *)
Definition executionOf (requestIDs : list Z) (phase : string) (eplbDuration : Z) (times : nat → routerTimes) (x : traceModelExecution) : forwardExecution :=
  mkForwardExecution requestIDs phase ((λ l, mkLayerExecution (le_layer l) (times (le_layer l)) (le_dispatch l) (le_dispatch l) (le_gpus l)) <$> me_layers x)
    eplbDuration (me_migration x).

Definition midpoint (start duration : Z) : Z := if duration <=? 0 then start else start + duration / 2.

Definition ratio (numerator denominator : Z) : f64 :=
  if denominator <=? 0 then f_zero
  else let value := fdiv (f_of_Z numerator) (f_of_Z denominator) in
       if flt (f_of_Z 1) value then f_of_Z 1 else if flt value f_zero then f_zero else value.

Definition profileArgs (requestIDs : list Z) (phase : string) (values : eventArgs) : eventArgs :=
  let args := match requestIDs with [r] => <["request_id"%string := AInt r]> values | _ => values end in
  let args := match requestIDs with [] => args | _ => <["request_ids"%string := AInts requestIDs]> args end in
  if (phase =? "")%string then args else <["phase"%string := AStr phase]> args.

Definition measured (duration : Z) (values : eventArgs) : eventArgs :=
  <["measured_us"%string := AFloat (durationMicros duration)]> (<["timing_source"%string := AStr "simulator_host_cpu"]> values).
Definition layerValues (layer : nat) : eventArgs :=
  <["layer"%string := AInt (Z.of_nat layer)]> {[ "moe_layer"%string := AInt (Z.of_nat layer) ]}.

(** [recordGPU]. *)
Definition gpuArgs (layer : nat) (g : traceGPUExecution) (requestIDs : list Z) (phase : string) : eventArgs :=
  let args := profileArgs requestIDs phase
    (<["gpu"%string := AInt (Z.of_nat (ge_gpu g))]> (<["experts"%string := AInts (SliceStable Z.ltb (Z.of_nat <$> (map_to_list (ge_expertLoads g)).*1))]>
    (<["expert_token_counts"%string := ALoads (ge_expertLoads g)]> (<["assignments"%string := AFloat (ge_assignments g)]>
    (<["flops"%string := AFloat (ge_computeFlops g)]> (<["hbm_bytes"%string := AFloat (ge_memoryBytes g)]>
    (<["compute_us"%string := AFloat (durationMicros (ge_computeDuration g))]> (<["hbm_us"%string := AFloat (durationMicros (ge_memoryDuration g))]>
    (<["vram_bytes"%string := AFloat (ge_vramBytes g)]> (layerValues layer)))))))))) in
  let args := match ge_tokenAssignments g with [] => args | l => <["token_assignments"%string := ATokens l]> args end in
  if ge_duration g <=? 0 then args
  else <["compute_utilization"%string := AFloat (ratio (ge_computeDuration g) (ge_duration g))]>
       (<["hbm_utilization"%string := AFloat (ratio (ge_memoryDuration g) (ge_duration g))]>
       (<["bottleneck"%string := AStr (if ge_computeDuration g <=? ge_memoryDuration g then "hbm" else "compute")]> args)).

Definition gpuCounters (start : Z) (g : traceGPUExecution) : list mark :=
  let tid := gpuTrack (ge_gpu g) in
  let stop := start + ge_duration g in
  [Counter "Compute utilization" (tid + 1) start (fmul (f_of_Z 100) (ratio (ge_computeDuration g) (ge_duration g)));
   Counter "HBM utilization" (tid + 2) start (fmul (f_of_Z 100) (ratio (ge_memoryDuration g) (ge_duration g)));
   Counter "HBM GB/s" (tid + 3) start (fdiv (fdiv (ge_memoryBytes g) (Seconds (ge_duration g))) (f_of_Z (10 ^ 9)));
   Counter "VRAM bytes" (tid + 4) start (ge_vramBytes g);
   Counter "Compute utilization" (tid + 1) stop f_zero; Counter "HBM utilization" (tid + 2) stop f_zero; Counter "HBM GB/s" (tid + 3) stop f_zero].
Definition recordGPU (start : Z) (layer : nat) (requestIDs : list Z) (phase : string) (g : traceGPUExecution) : list mark :=
  Span "MoE MLP" "gpu.mlp" (gpuTrack (ge_gpu g)) start (ge_duration g) (gpuArgs layer g requestIDs phase)
  :: if ge_duration g <=? 0 then [] else gpuCounters start g.

Section Forward.
Variable x : forwardExecution.
Definition argsFor (values : eventArgs) : eventArgs := profileArgs (xf_requestIDs x) (xf_phase x) values.

(** The router of one source, on the track of its GPU. *)
Definition routerMark (layer : nat) (routerStart : Z) (source : nat) (duration : Z) : mark :=
  let args := argsFor (measured duration (<["gpu"%string := AInt (Z.of_nat source)]> (<["source_gpu"%string := AInt (Z.of_nat source)]> (layerValues layer)))) in
  if 0 <? duration then Span "MoE Router" "gpu.router" (gpuTrack source) routerStart duration args
  else Instant "MoE Router" "gpu.router" (gpuTrack source) routerStart args.

(** The routing of a layer: its marks and the time after it. *)
Definition renderRouting (routerStart : Z) (l : layerExecution) : draw Z :=
  let t := xl_times l in
  match rt_routers t with
  | [] =>
      if 0 <? rt_router t
      then _ ← put [Span "Route layer" "cpu.router" profileTIDRouter routerStart (rt_router t) (argsFor (measured (rt_router t) (layerValues (xl_layer l))))];
           mret (routerStart + rt_router t)
      else _ ← put [Instant "Route layer" "cpu.router" profileTIDRouter routerStart (argsFor (layerValues (xl_layer l)))]; mret routerStart
  | routers =>
      let aggregatorStart := routerStart + foldl Z.max 0 routers in
      _ ← put (imap (routerMark (xl_layer l) routerStart) routers);
      _ ← put [if 0 <? rt_aggregator t
               then Span "Routing aggregator" "cpu.router_aggregator" profileTIDAggregator aggregatorStart (rt_aggregator t) (argsFor (measured (rt_aggregator t) (layerValues (xl_layer l))))
               else Instant "Routing aggregator" "cpu.router_aggregator" profileTIDAggregator aggregatorStart (argsFor (layerValues (xl_layer l)))];
      mret (aggregatorStart + rt_aggregator t)
  end.

(** A flow between two slices, each end at the middle of its slice. *)
Definition connect (name : string) (tid start duration tid' start' duration' : Z) : draw () :=
  id ← newFlowID; put [Flow name "s" tid (midpoint start duration) id; Flow name "f" tid' (midpoint start' duration') id].

Definition renderDispatch (routerStart dispatchStart : Z) (l : layerExecution) : draw Z :=
  if 0 <? xl_dispatch l then
    _ ← put [Span "Expert dispatch" "network.dispatch" profileTIDDispatch dispatchStart (xl_dispatch l) (argsFor (layerValues (xl_layer l)))];
    _ ← when ((length (rt_routers (xl_times l)) =? 0)%nat && (0 <? rt_router (xl_times l)))
          (connect "Route to dispatch" profileTIDRouter routerStart (rt_router (xl_times l)) profileTIDDispatch dispatchStart (xl_dispatch l));
    mret (dispatchStart + xl_dispatch l)
  else mret dispatchStart.

Definition gpuDuration (l : layerExecution) : Z := foldl Z.max 0 (ge_duration <$> xl_gpus l).

Definition renderGPU (dispatchStart gpuStart : Z) (l : layerExecution) (g : traceGPUExecution) : draw () :=
  _ ← put (recordGPU gpuStart (xl_layer l) (xf_requestIDs x) (xf_phase x) g);
  when ((0 <? xl_dispatch l) && (0 <? ge_duration g))
    (connect "Dispatch to GPU" profileTIDDispatch dispatchStart (xl_dispatch l) (gpuTrack (ge_gpu g)) gpuStart (ge_duration g)).

Definition renderCombine (gpuStart combineStart : Z) (l : layerExecution) : draw Z :=
  if 0 <? xl_combine l then
    _ ← put [Span "Expert combine" "network.combine" profileTIDCombine combineStart (xl_combine l) (argsFor (layerValues (xl_layer l)))];
    _ ← forEach (λ g, when (0 <? ge_duration g)
          (connect "GPU to combine" (gpuTrack (ge_gpu g)) gpuStart (ge_duration g) profileTIDCombine combineStart (xl_combine l))) (xl_gpus l);
    mret (combineStart + xl_combine l)
  else mret combineStart.

Definition renderLayer (routerStart : Z) (l : layerExecution) : draw Z :=
  dispatchStart ← renderRouting routerStart l;
  gpuStart ← renderDispatch routerStart dispatchStart l;
  _ ← forEach (renderGPU dispatchStart gpuStart l) (xl_gpus l);
  renderCombine gpuStart (gpuStart + gpuDuration l) l.

Fixpoint renderLayers (cursor : Z) (ls : list layerExecution) : draw Z :=
  match ls with [] => mret cursor | l :: ls => cursor ← renderLayer cursor l; renderLayers cursor ls end.

(** [renderExecution]: the marks of a forward, and the time after it. *)
Definition renderExecution (start : Z) : draw Z :=
  cursor ← (if 0 <? xf_eplbDuration x
            then _ ← put [Span "EPLB update" "cpu.eplb" profileTIDEPLB start (xf_eplbDuration x) (argsFor (measured (xf_eplbDuration x) ∅))];
                 mret (start + xf_eplbDuration x)
            else mret start);
  cursor ← renderLayers cursor (xf_layers x);
  if 0 <? xf_migration x
  then _ ← put [Span "Expert migration" "network.migration" profileTIDMigration cursor (xf_migration x) (argsFor ∅)]; mret (cursor + xf_migration x)
  else mret cursor.
End Forward.

(** * The recorder *)

Record profiledExecution := mkProfiled { pe_callStarted : Z; pe_start : Z; pe_execution : forwardExecution }.
Record moeProfileRecorder := mkRecorder {
  path : string; origin : Z; events : list chromeTraceEvent; executions : list profiledExecution; initialized : bool; nextFlowID : Z }.

Definition newMoEProfileRecorder (file : string) (now : Z) : moeProfileRecorder := mkRecorder file now [] [] false 0.

(** [renderExecution] on the recorder. *)
Definition drawOn (start : Z) (x : forwardExecution) (r : moeProfileRecorder) : moeProfileRecorder * Z :=
  let '(cursor, n, marks) := runDraw (renderExecution x start) (nextFlowID r) in
  (mkRecorder (path r) (origin r) (events r ++ (eventOf (origin r) <$> marks)) (executions r) (initialized r) n, cursor).

Definition recordExecution (callStarted start : Z) (x : forwardExecution) (r : moeProfileRecorder) : moeProfileRecorder :=
  let tracks := match xf_layers x with l :: _ => initializeTracks (length (xl_gpus l)) | [] => initializeTracks 0 end in
  let r := if initialized r then r else mkRecorder (path r) (origin r) (events r ++ tracks) (executions r) true (nextFlowID r) in
  (drawOn start x (mkRecorder (path r) (origin r) (events r) (executions r ++ [mkProfiled callStarted start x]) (initialized r) (nextFlowID r))).1.

(** The order of the rebuilt profile. *)
Definition earlier (a b : profiledExecution) : bool :=
  if pe_start a =? pe_start b then pe_callStarted a <? pe_callStarted b else pe_start a <? pe_start b.

(** A forward starts when the one before it has ended; [None] is the zero time. *)
Definition rebuildStep (acc : moeProfileRecorder * option Z) (record : profiledExecution) : moeProfileRecorder * option Z :=
  let profileStart := match acc.2 with Some t => Z.max t (pe_start record) | None => pe_start record end in
  let '(r, cursor) := drawOn profileStart (pe_execution record) acc.1 in (r, Some cursor).
Definition isMetadata (e : chromeTraceEvent) : bool := (Ph e =? "M")%string.
Definition rebuiltEventsLocked (r : moeProfileRecorder) : list chromeTraceEvent :=
  let base := mkRecorder (path r) (origin r) (List.filter isMetadata (events r)) (executions r) (initialized r) 0 in
  events (foldl rebuildStep (base, None) (SliceStable earlier (executions r))).1.

(** * Decode tokens *)

Record decodeProfileState := mkDecodeState {
  nextPosition : gmap Z Z; current : gmap Z Z; remaining : gmap string (list traceProfileTokenAssignment) }.

Definition profileEventRequestIDs (args : eventArgs) : list Z :=
  match args !! "request_ids"%string with
  | Some (AInts l) => l
  | _ => match args !! "request_id"%string with Some (AInt r) => [r] | _ => [] end
  end.
Definition profileEventInt (args : eventArgs) (key : string) : option Z :=
  match args !! key with Some (AInt z) => Some z | Some (AFloat x) => Some (f_to_int x) | _ => None end.
Definition decodeProfileKey (requestIDs : list Z) (layer : Z) : string := String.concat ":" (pretty layer :: (pretty <$> requestIDs)).

(** Indexing with an int; [None] is a panic. *)
Definition at_ {A} (l : list A) (i : Z) : option A := if i <? 0 then None else l !! Z.to_nat i.

(** The recorded routes of one decode token in one layer. *)
Definition tokenAssignments (store : moeTraceStore) (p : PromptData) (requestID position layer : Z) : option (list traceProfileTokenAssignment) :=
  let base := (position * Z.of_nat (st_numLayers store) + layer) * st_topK store in
  mapM (λ k, expert ← at_ (pd_DecodeRoutes p) (base + Z.of_nat k);
             Some (mkAssignment requestID traceProfilePhaseDecode (length (pd_InputTokenIDs p) + Z.to_nat position) (Z.to_nat layer) expert
                     (recordedSource (DecodeSourceGPU position layer p) (-1)))) (seq 0 (Z.to_nat (st_topK store))).

Definition requestAssignments (store : moeTraceStore) (positions : gmap Z Z) (layer requestID : Z) : option (list traceProfileTokenAssignment) :=
  if (requestID <? 0) || (Z.of_nat (length (st_prompts store)) <=? requestID) then Some []
  else
    prompt ← st_prompts store !! Z.to_nat requestID;
    let p := tp_data prompt in
    let position := default 0 (positions !! requestID) in
    if (position <? 0) || (Z.of_nat (length (pd_DecodeTokenIDs p)) <=? position) then Some []
    else tokenAssignments store p requestID position layer.
Definition decodeAssignmentsForLayer (store : moeTraceStore) (requestIDs : list Z) (positions : gmap Z Z) (layer : Z) : option (list traceProfileTokenAssignment) :=
  (λ l, concat l) <$> mapM (requestAssignments store positions layer) (SliceStable Z.ltb requestIDs).

(** [int(tokens + 1e-9)]. *)
Definition quotaOf (tokens : f64) : Z := f_to_int (fadd tokens (f_const 1 (10 ^ 9))).
Definition quotasOf (loads : option argValue) : gmap Z Z :=
  match loads with
  | Some (ALoads m) => map_fold (λ expert tokens (q : gmap Z Z), <[Z.of_nat expert := quotaOf tokens]> q) ∅ m
  | Some (AParsed l) => foldl (λ (q : gmap Z Z) '(expert, tokens), match Config.Atoi expert, tokens with Some e, Some t => <[e := quotaOf t]> q | _, _ => q end) ∅ l
  | _ => ∅
  end.
Fixpoint consume (quotas : gmap Z Z) (assignments : list traceProfileTokenAssignment) : list traceProfileTokenAssignment * list traceProfileTokenAssignment :=
  match assignments with
  | [] => ([], [])
  | a :: rest =>
      let quota := default 0 (quotas !! ta_ExpertID a) in
      if 0 <? quota then let '(assigned, remaining) := consume (<[ta_ExpertID a := quota - 1]> quotas) rest in (a :: assigned, remaining)
      else let '(assigned, remaining) := consume quotas rest in (assigned, a :: remaining)
  end.
Definition consumeGPUAssignments (assignments : list traceProfileTokenAssignment) (loads : option argValue) := consume (quotasOf loads) assignments.

Section Enrich.
Variable store : moeTraceStore.

Definition setArgs (args : eventArgs) (e : chromeTraceEvent) : chromeTraceEvent :=
  mkEvent (Name e) (Cat e) (Ph e) (Ts e) (Dur e) (Pid e) (Tid e) (ID e) (BP e) (Some args).

(** The next position of every request of a forward. *)
Definition advancePositions (requestIDs : list Z) (st : decodeProfileState) : decodeProfileState :=
  foldl (λ st r, let p := default 0 (nextPosition st !! r) in mkDecodeState (<[r := p + 1]> (nextPosition st)) (<[r := p]> (current st)) (remaining st)) st requestIDs.

(** The operations of one GPU in one layer. *)
Definition enrichMLP (requestIDs : list Z) (layer gpu : Z) (args : eventArgs) (st : decodeProfileState) : option (decodeProfileState * eventArgs) :=
  let st := if (layer =? 0) && (gpu =? 0) then advancePositions requestIDs st else st in
  let key := decodeProfileKey requestIDs layer in
  assignments ← match remaining st !! key with
                | Some l => if gpu =? 0 then decodeAssignmentsForLayer store requestIDs (current st) layer else Some l
                | None => decodeAssignmentsForLayer store requestIDs (current st) layer
                end;
  let '(assigned, rest) := consumeGPUAssignments assignments (args !! "expert_token_counts"%string) in
  Some (mkDecodeState (nextPosition st) (current st) (<[key := rest]> (remaining st)),
        match assigned with [] => args | _ => <["token_assignments"%string := ATokens assigned]> args end).

Definition enrichEvent (st : decodeProfileState) (e : chromeTraceEvent) : option (decodeProfileState * chromeTraceEvent) :=
  match Args e with
  | None => Some (st, e)
  | Some args =>
      if (Ph e =? "M")%string || (Ph e =? "C")%string || (Cat e =? "flow")%string then Some (st, e)
      else
        match profileEventRequestIDs args, args !! "phase"%string with
        | [], _ | _, Some _ => Some (st, e)
        | requestIDs, None =>
            let args := <["phase"%string := AStr traceProfilePhaseDecode]> args in
            if negb (Name e =? "MoE MLP")%string then Some (st, setArgs args e)
            else match profileEventInt args "moe_layer", profileEventInt args "gpu" with
                 | Some layer, Some gpu => x ← enrichMLP requestIDs layer gpu args st; Some (x.1, setArgs x.2 e)
                 | _, _ => Some (st, setArgs args e)
                 end
        end
  end.

Fixpoint enrichFrom (st : decodeProfileState) (events : list chromeTraceEvent) : option (decodeProfileState * list chromeTraceEvent) :=
  match events with
  | [] => Some (st, [])
  | e :: events => x ← enrichEvent st e; y ← enrichFrom x.1 events; Some (y.1, x.2 :: y.2)
  end.
Definition enrichDecodeProfileEvents (events : list chromeTraceEvent) : option (list chromeTraceEvent) :=
  snd <$> enrichFrom (mkDecodeState ∅ ∅ ∅) events.
End Enrich.

(** [chromeTraceFile.MarshalJSON]: the events that are encoded, with the store of a running
    replay if there is one. *)
Definition marshalled (store : option moeTraceStore) (events : list chromeTraceEvent) : option (list chromeTraceEvent) :=
  match store with Some s => enrichDecodeProfileEvents s events | None => Some events end.

(** * Publication *)

Definition HasSuffix (s suffix : string) : bool :=
  (String.length suffix <=? String.length s)%nat && (String.substring (String.length s - String.length suffix) (String.length suffix) s =? suffix)%string.

(** What the calls of the file system and of the encoder return; the name of the temporary
    file. *)
Record fileCalls := mkCalls { tempName : string; createTempOk : bool; encodeOk : bool; gzipCloseOk : bool; closeOk : bool; renameOk : bool }.
Section Files.
Context {Content : Type}.
(** The content of a file after a complete and after an interrupted encoding. *)
Variable encoded : list chromeTraceEvent → Content.
Variable partial : Content.

(** [flushLocked]: written to a temporary file that replaces the profile when it is complete,
    and is removed in any case; [None] is a panic of the encoder. *)
Definition flushLocked (c : fileCalls) (store : option moeTraceStore) (r : moeProfileRecorder) (fs : gmap string Content)
  : option (gmap string Content * result string ()) :=
  if (path r =? "")%string then Some (fs, Ok ())
  else if negb (createTempOk c) then Some (fs, Err "create MoE profile"%string)
  else
    file ← encoded <$> marshalled store (rebuiltEventsLocked r);
    let finish (x : gmap string Content * result string ()) := Some (delete (tempName c) x.1, x.2) in
    finish
      (if negb (encodeOk c) then (<[tempName c := partial]> fs, Err "write MoE profile"%string)
       else if HasSuffix (path r) ".gz" && negb (gzipCloseOk c) then (<[tempName c := partial]> fs, Err "close MoE profile compressor"%string)
       else
         let fs := <[tempName c := file]> fs in
         if negb (closeOk c) then (fs, Err "close MoE profile"%string)
         else if negb (renameOk c) then (fs, Err "publish MoE profile"%string)
         else (<[path r := file]> (delete (tempName c) fs), Ok ())).
End Files.

End MoeProfile.
