(* ===== verification/MoeProfileProps.v ===== *)
(** Properties of the execution profiles: the rebuilt timeline has no overlapping slices
    and well-formed flows, does not depend on the order of recording, is published
    atomically, and its decode forwards carry the recorded routes. *)

From S2P Require Import Prelude GoFloat GoFloatInt GoFloatOrder GoFloatRound TraceFormat TraceFile Moe TraceText TraceWorkload TraceFidelity TraceExecution Config MoeProfile.
From stdpp Require Import pretty.
Import TraceFile Moe TraceWorkload TraceExecution MoeProfile.
Open Scope Z_scope.

Module MoeProfileProps.

(** * Reasoning about drawings *)

Definition Draws {A} (d : draw A) (n : Z) (Q : A → Z → list mark → Prop) : Prop := let '(a, n', l) := runDraw d n in Q a n' l.

Lemma draws_bind {A B} (d : draw A) (f : A → draw B) n Q :
  Draws d n (λ a n1 l, Draws (f a) n1 (λ b n2 k, Q b n2 (l ++ k))) → Draws (d ≫= f) n Q.
Proof. unfold Draws, runDraw, mbind, draw_bind. destruct (d n) as [[a n1] l]. by destruct (f a n1) as [[b n2] k]. Qed.
Lemma draws_conseq {A} (d : draw A) n (P Q : A → Z → list mark → Prop) : Draws d n P → (∀ a n' l, P a n' l → Q a n' l) → Draws d n Q.
Proof. unfold Draws. destruct (runDraw d n) as [[a n'] l]. eauto. Qed.

(** * Slices and flows *)

(** What a mark occupies on the timeline; a flow has its ends in slices. *)
Definition extent (k : mark) : option (Z * Z) :=
  match k with
  | Span _ _ _ start duration _ => Some (start, start + duration)
  | Instant _ _ _ t _ | Counter _ _ t _ => Some (t, t)
  | Flow _ _ _ _ _ => None
  end.
Definition slice (k : mark) : option (Z * Z * Z) := match k with Span _ _ tid start duration _ => Some (tid, start, start + duration) | _ => None end.
Definition Within (lo hi : Z) (l : list mark) : Prop := ∀ k a b, k ∈ l → extent k = Some (a, b) → lo ≤ a ≤ b ∧ b ≤ hi.

(** Of two slices on a track, the one drawn first ends before the other begins. *)
Definition Before (s t : Z * Z * Z) : Prop := s.1.1 = t.1.1 → s.2 ≤ t.1.2.
Definition Apart (l : list mark) : Prop := StronglySorted Before (omap slice l).

Definition flowEnd (k : mark) : option (Z * string) := match k with Flow _ phase _ _ id => Some (id, phase) | _ => None end.
(** The flows numbered from [n + 1] to [n'], each with its two ends. *)
Definition flowPairs (n n' : Z) : list (Z * string) := concat ((λ id, [(id, "s"); (id, "f")]) <$> seqZ (n + 1) (n' - n)).
(** Every end of a flow is inside a slice of its track. *)
Definition Attached (all l : list mark) : Prop := ∀ name phase tid t id, Flow name phase tid t id ∈ l → ∃ k start stop, k ∈ all ∧ slice k = Some (tid, start, stop) ∧ start ≤ t ≤ stop.

Record Drawn (lo hi n n' : Z) (l : list mark) : Prop := mkDrawn {
  dr_order : lo ≤ hi; dr_count : n ≤ n'; dr_within : Within lo hi l; dr_apart : Apart l; dr_flows : omap flowEnd l = flowPairs n n' }.

Lemma within_app lo hi l k : Within lo hi l → Within lo hi k → Within lo hi (l ++ k).
Proof. intros H1 H2 m a b [H|H]%elem_of_app E; [by eapply H1|by eapply H2]. Qed.
Lemma within_weaken lo hi lo' hi' l : Within lo hi l → lo' ≤ lo → hi ≤ hi' → Within lo' hi' l.
Proof. intros H ? ? k a b Hk E. destruct (H k a b Hk E). lia. Qed.
Lemma within_nil lo hi : Within lo hi [].
Proof. intros k a b H. by apply elem_of_nil in H. Qed.
Lemma slice_extent k tid a b : slice k = Some (tid, a, b) → extent k = Some (a, b).
Proof. by destruct k; intros [= <- <- <-]. Qed.
Lemma within_slice lo hi l s : Within lo hi l → s ∈ omap slice l → lo ≤ s.1.2 ∧ s.2 ≤ hi ∧ s.1.2 ≤ s.2.
Proof. intros H [k [Hk E]]%list_elem_of_omap. destruct s as [[tid a] b]. apply slice_extent in E. destruct (H k a b Hk E). cbn. lia. Qed.

Lemma sorted_app {A} (R : A → A → Prop) l k : StronglySorted R l → StronglySorted R k → (∀ x y, x ∈ l → y ∈ k → R x y) → StronglySorted R (l ++ k).
Proof.
  induction 1 as [|x l Hl IH Hx]; intros Hk Hr; cbn; [done|]. constructor; [apply IH; [done|]; intros; apply Hr; [by right|done]|].
  apply Forall_app. split; [done|]. apply Forall_forall. intros y Hy. apply Hr; [left|done].
Qed.
Lemma sorted_lookup {A} (R : A → A → Prop) l i j x y : StronglySorted R l → (i < j)%nat → l !! i = Some x → l !! j = Some y → R x y.
Proof.
  intros Hl. revert i j. induction Hl as [|z l Hl IH Hz]; intros i j Hij Hi Hj; [done|]. destruct j as [|j]; [lia|]. destruct i as [|i]; cbn in Hi, Hj.
  - injection Hi as ->. rewrite Forall_forall in Hz. by eapply Hz, list_elem_of_lookup_2.
  - apply (IH i j); [lia|done|done].
Qed.
Lemma apart_app lo mid hi l k : Within lo mid l → Within mid hi k → Apart l → Apart k → Apart (l ++ k).
Proof.
  intros Wl Wk Hl Hk. unfold Apart. rewrite omap_app. apply sorted_app; [done|done|]. intros s t Hs Ht _.
  pose proof (within_slice _ _ _ _ Wl Hs). pose proof (within_slice _ _ _ _ Wk Ht). lia.
Qed.
Lemma flowPairs_app n m k : n ≤ m → m ≤ k → flowPairs n m ++ flowPairs m k = flowPairs n k.
Proof.
  intros. unfold flowPairs. replace (k - n) with ((m - n) + (k - m)) by lia. rewrite seqZ_app, fmap_app, concat_app by lia. do 4 f_equal. lia.
Qed.
Lemma flowPairs_same n : flowPairs n n = [].
Proof. unfold flowPairs. by rewrite Z.sub_diag. Qed.
Lemma flowPairs_next n : flowPairs n (n + 1) = [(n + 1, "s"); (n + 1, "f")]%string.
Proof. unfold flowPairs. by replace (n + 1 - n) with 1 by lia. Qed.

Lemma drawn_app lo mid hi n m n' l k : Drawn lo mid n m l → Drawn mid hi m n' k → Drawn lo hi n n' (l ++ k).
Proof.
  intros [? ? Wl Al Fl] [? ? Wk Ak Fk]. constructor; [lia|lia| |by eapply apart_app|by rewrite omap_app, Fl, Fk, flowPairs_app].
  apply within_app; [eapply within_weaken; [exact Wl|lia..]|eapply within_weaken; [exact Wk|lia..]].
Qed.
Lemma drawn_nil t n : Drawn t t n n [].
Proof. constructor; [lia|lia|apply within_nil|constructor|by rewrite flowPairs_same]. Qed.
Lemma drawn_one k lo hi n : lo ≤ hi → flowEnd k = None → (∀ a b, extent k = Some (a, b) → lo ≤ a ≤ b ∧ b ≤ hi) → Drawn lo hi n n [k].
Proof.
  intros Ho Hf He. constructor; [done|lia|intros m a b ->%list_elem_of_singleton; apply He| |rewrite flowPairs_same; cbn; by rewrite Hf].
  unfold Apart. cbn. destruct (slice k); repeat constructor.
Qed.
Lemma attached_app all l k : Attached all l → Attached all k → Attached all (l ++ k).
Proof. intros H1 H2 name phase tid t id [H|H]%elem_of_app; eauto. Qed.
Lemma attached_mono all all' l : Attached all l → all ⊆ all' → Attached all' l.
Proof. intros H Hs name phase tid t id Hk. destruct (H _ _ _ _ _ Hk) as (k & a & b & Hin & E & Ht). exists k, a, b. split; [by apply Hs|done]. Qed.
Lemma attached_none all l : omap flowEnd l = [] → Attached all l.
Proof.
  intros H name phase tid t id Hk. exfalso. assert ((id, phase) ∈ omap flowEnd l) as Hin by (apply list_elem_of_omap; by eexists). rewrite H in Hin. by apply elem_of_nil in Hin.
Qed.

(** * The parts of a layer *)

Lemma max_above l a : a ≤ foldl Z.max a l ∧ ∀ y, y ∈ l → y ≤ foldl Z.max a l.
Proof.
  revert a. induction l as [|z l IH]; intros a; cbn; [split; [lia|intros y H; by apply elem_of_nil in H]|].
  destruct (IH (Z.max a z)) as [H1 H2]. split; [lia|]. intros y [->|Hy]%elem_of_cons; [lia|by apply H2].
Qed.
Lemma midpoint_inside s d : 0 ≤ d → s ≤ midpoint s d ≤ s + d.
Proof. intros. unfold midpoint. destruct (Z.leb_spec d 0); [lia|]. pose proof (Z.div_pos d 2). assert (d / 2 ≤ d) by (apply Z.div_le_upper_bound; lia). lia. Qed.

(** Slices on tracks of their own. *)
Lemma apart_tracks (l : list (Z * Z * Z)) : NoDup (l.*1.*1) → StronglySorted Before l.
Proof.
  induction l as [|s l IH]; cbn; intros Hn; [constructor|]. apply NoDup_cons in Hn as [Hs Hn]. constructor; [by apply IH|].
  apply Forall_forall. intros t Ht E. destruct Hs. rewrite E. by apply list_elem_of_fmap_2, list_elem_of_fmap_2.
Qed.
Lemma drawn_parallel lo hi n l : lo ≤ hi → Within lo hi l → omap flowEnd l = [] → NoDup ((omap slice l).*1.*1) → Drawn lo hi n n l.
Proof. intros. constructor; [done|lia|done|by apply apart_tracks|by rewrite flowPairs_same]. Qed.

Lemma tracks_sublist {A} (f : A → mark) (g : A → Z) (l : list A) : (∀ a s, a ∈ l → slice (f a) = Some s → s.1.1 = g a) → (omap slice (f <$> l)).*1.*1 `sublist_of` (g <$> l).
Proof.
  induction l as [|a l IH]; intros H; cbn; [constructor|]. assert ((omap slice (f <$> l)).*1.*1 `sublist_of` (g <$> l)) as Hs by (apply IH; intros b s Hb; apply H; by right).
  destruct (slice (f a)) as [s|] eqn:E; cbn; [|by apply sublist_cons]. rewrite (H a s) by (done || left). by apply sublist_skip.
Qed.
Lemma gpuTrack_inj a b : gpuTrack a = gpuTrack b → a = b.
Proof. unfold gpuTrack, profileTIDGPUBase. lia. Qed.
Lemma imap_fmap {A B} (f : nat → A → B) l : imap f l = (λ x : nat * A, f x.1 x.2) <$> imap pair l.
Proof. rewrite fmap_imap. by apply imap_ext. Qed.

Record LayerTimed (l : layerExecution) : Prop := mkLayerTimed {
  lt_aggregator : 0 ≤ rt_aggregator (xl_times l); lt_durations : Forall (λ g, 0 ≤ ge_duration g) (xl_gpus l); lt_distinct : NoDup (ge_gpu <$> xl_gpus l) }.

Section Layer.
Variable x : forwardExecution.

Definition HasSlice (l : list mark) (tid start stop : Z) : Prop := ∃ k, k ∈ l ∧ slice k = Some (tid, start, stop).

Lemma routers_no_flow layer s (ps : list (nat * Z)) : omap flowEnd ((λ p, routerMark x layer s p.1 p.2) <$> ps) = [].
Proof. induction ps as [|[i y] ps IH]; cbn; [done|]. unfold routerMark at 1. by destruct (0 <? y). Qed.

Lemma draws_routing s l n : LayerTimed l → Draws (renderRouting x s l) n (λ c n' k,
  Drawn s c n n' k ∧ omap flowEnd k = [] ∧ (rt_routers (xl_times l) = [] → 0 < rt_router (xl_times l) → HasSlice k profileTIDRouter s (s + rt_router (xl_times l)))).
Proof.
  intros [Ha _ _]. unfold renderRouting. destruct (rt_routers (xl_times l)) as [|d ds].
  - destruct (Z.ltb_spec 0 (rt_router (xl_times l))); apply draws_bind; cbn; (split; [|split; [done|]]).
    + apply drawn_one; [lia|done|]. intros a b [= <- <-]. lia.
    + intros _ _. eexists. split; [left|done].
    + apply drawn_one; [lia|done|]. intros a b [= <- <-]. lia.
    + lia.
  - remember (d :: ds) as routers eqn:Ers. destruct (max_above routers 0) as [Hm Hr]. set (M := foldl Z.max 0 routers) in *.
    apply draws_bind. unfold Draws at 1. cbn [runDraw put]. apply draws_bind. unfold Draws, runDraw, mret, draw_ret, put. rewrite app_nil_r. split; [|split; [|by rewrite Ers]].
    + apply drawn_app with (mid := s + M) (m := n).
      * rewrite imap_fmap. apply drawn_parallel; [lia| | |].
        -- intros k a b Hk E. apply list_elem_of_fmap in Hk as [[i y] [-> Hy]]. apply elem_of_lookup_imap in Hy as (j & z & [= -> ->] & Hz).
           apply list_elem_of_lookup_2, Hr in Hz. cbn in E. unfold routerMark in E. destruct (Z.ltb_spec 0 z); injection E as <- <-; lia.
        -- apply routers_no_flow.
        -- eapply sublist_NoDup; [|apply (tracks_sublist _ (λ a : nat * Z, gpuTrack a.1))].
           ++ rewrite fmap_imap. change (NoDup (imap (λ i (_ : Z), gpuTrack i) routers)). rewrite imap_seq_0. apply NoDup_fmap_2; [exact gpuTrack_inj|apply NoDup_seq].
           ++ intros [i y] t _ Ht. cbn in *. unfold routerMark in Ht. destruct (0 <? y); [by injection Ht as <-|done].
      * apply drawn_one; [lia|by destruct (0 <? _)|]. intros a b E. destruct (Z.ltb_spec 0 (rt_aggregator (xl_times l))); injection E as <- <-; lia.
    + rewrite omap_app, imap_fmap. cbn. destruct (0 <? rt_aggregator _); cbn; rewrite app_nil_r; by apply routers_no_flow.
Qed.

Lemma draws_connect name tid s d tid' s' d' n all : 0 ≤ d → 0 ≤ d' → HasSlice all tid s (s + d) → HasSlice all tid' s' (s' + d') →
  Draws (connect name tid s d tid' s' d') n (λ _ n' k, n' = n + 1 ∧ omap extent k = [] ∧ omap flowEnd k = flowPairs n n' ∧ Attached all k).
Proof.
  intros Hd Hd' (k & Hk & E) (k' & Hk' & E'). unfold connect, Draws, runDraw, mbind, draw_bind, newFlowID, put. cbn. rewrite flowPairs_next. split_and!; [done..|].
  intros name0 phase tid0 t id Hin. repeat (apply elem_of_cons in Hin as [[= -> -> -> -> ->]|Hin]); [| |by apply elem_of_nil in Hin].
  - exists k, s, (s + d). split_and!; [done|done|by apply midpoint_inside..].
  - exists k', s', (s' + d'). split_and!; [done|done|by apply midpoint_inside..].
Qed.

Lemma no_extent k : omap extent k = [] → omap slice k = [] ∧ ∀ lo hi, Within lo hi k.
Proof.
  induction k as [|m k IH]; cbn; [split; [done|intros; apply within_nil]|]. destruct m; try done. intros H. destruct (IH H) as [H1 H2]. split; [done|].
  intros lo hi m a b [->|Hm]%elem_of_cons E; [done|by apply (H2 lo hi m)].
Qed.

Lemma draws_when b d n (Q : () → Z → list mark → Prop) : (b = true → Draws d n Q) → (b = false → Q () n []) → Draws (when b d) n Q.
Proof. destruct b; cbn; eauto. Qed.

(** The routing before, then the dispatch. *)
Lemma draws_dispatch rs s l n before :
  (rt_routers (xl_times l) = [] → 0 < rt_router (xl_times l) → HasSlice before profileTIDRouter rs (rs + rt_router (xl_times l))) →
  Draws (renderDispatch x rs s l) n (λ c n' k, Drawn s c n n' k ∧ Attached (before ++ k) k ∧ (0 < xl_dispatch l → HasSlice k profileTIDDispatch s (s + xl_dispatch l))).
Proof.
  intros Hb. unfold renderDispatch. destruct (Z.ltb_spec 0 (xl_dispatch l)) as [Hd|Hd]; [|cbn; split_and!; [apply drawn_nil|by apply attached_none|lia]].
  apply draws_bind. unfold Draws at 1. cbn [runDraw put]. set (sp := Span _ _ _ _ _ _). assert (HasSlice (before ++ [sp]) profileTIDDispatch s (s + xl_dispatch l)) as Hs.
  { exists sp. split; [apply elem_of_app; right; left|done]. }
  assert (∀ k n', n ≤ n' → omap extent k = [] → omap flowEnd k = flowPairs n n' → Attached (before ++ [sp]) k →
    Drawn s (s + xl_dispatch l) n n' ([sp] ++ k) ∧ Attached (before ++ [sp] ++ k) ([sp] ++ k) ∧ (0 < xl_dispatch l → HasSlice ([sp] ++ k) profileTIDDispatch s (s + xl_dispatch l))) as Hk.
  { intros k n' Hn He Hf Ha. destruct (no_extent k He) as [Hsl Hw]. split_and!.
    - constructor; [lia|done|apply within_app; [|apply Hw]; intros m a b ->%list_elem_of_singleton [= <- <-]; lia| |by rewrite omap_app].
      unfold Apart. rewrite omap_app, Hsl. repeat constructor.
    - apply attached_app; [by apply attached_none|]. eapply attached_mono; [exact Ha|set_solver].
    - intros _. exists sp. split; [left|done]. }
  apply draws_bind. apply draws_when.
  - intros [Hr%Nat.eqb_eq Hpos%Z.ltb_lt]%andb_true_iff. apply nil_length_inv in Hr. eapply draws_conseq; [apply (draws_connect _ _ _ _ _ _ _ n (before ++ [sp])); [lia|lia| |done]|].
    + destruct (Hb Hr Hpos) as (m & Hm & E). exists m. split; [apply elem_of_app; by left|done].
    + intros [] n' k (-> & He & Hf & Ha). cbn. rewrite app_nil_r. apply (Hk k); [lia|done..].
  - intros _. cbn. apply (Hk []); [lia|done|by rewrite flowPairs_same|by apply attached_none].
Qed.

Lemma counters_plain s g : omap flowEnd (gpuCounters s g) = [] ∧ omap slice (gpuCounters s g) = [].
Proof. done. Qed.
Lemma counters_within s g hi : 0 ≤ ge_duration g → s + ge_duration g ≤ hi → Within s hi (gpuCounters s g).
Proof. intros H1 H2 k a b Hk E. unfold gpuCounters in Hk. repeat (apply elem_of_cons in Hk as [->|Hk]; [injection E as <- <-; lia|]). by apply elem_of_nil in Hk. Qed.

Definition gpuSlice (s : Z) (g : traceGPUExecution) : Z * Z * Z := (gpuTrack (ge_gpu g), s, s + ge_duration g).
Lemma recordGPU_spec s layer g hi : 0 ≤ ge_duration g → s + ge_duration g ≤ hi → let k := recordGPU s layer (xf_requestIDs x) (xf_phase x) g in
  Within s hi k ∧ omap slice k = [gpuSlice s g] ∧ omap flowEnd k = [].
Proof.
  intros H1 H2. cbv zeta. unfold recordGPU. destruct (Z.leb_spec (ge_duration g) 0).
  - split_and!; [|done..]. intros k a b ->%list_elem_of_singleton [= <- <-]. lia.
  - split_and!; [|done..]. intros k a b [->|Hk]%elem_of_cons E; [injection E as <- <-; lia|by apply (counters_within s g hi H1 H2 k)].
Qed.

(** The GPUs of a layer, with the dispatch before them. *)
Lemma draws_gpus ds s l hi before gs n : Forall (λ g, 0 ≤ ge_duration g ∧ s + ge_duration g ≤ hi) gs →
  (0 < xl_dispatch l → HasSlice before profileTIDDispatch ds (ds + xl_dispatch l)) →
  Draws (forEach (renderGPU x ds s l) gs) n (λ _ n' k, n ≤ n' ∧ Within s hi k ∧ omap slice k = gpuSlice s <$> gs ∧ omap flowEnd k = flowPairs n n' ∧ Attached (before ++ k) k).
Proof.
  intros Hg Hb. revert n. induction Hg as [|g gs [H1 H2] Hg IH]; intros n; cbn [forEach foldr]; [cbn; rewrite flowPairs_same; split_and!; [lia|apply within_nil|done|done|by apply attached_none]|].
  apply draws_bind. unfold renderGPU at 1. apply draws_bind. unfold Draws at 1. cbn [runDraw put]. destruct (recordGPU_spec s (xl_layer l) g hi H1 H2) as (W & S & F).
  set (r := recordGPU _ _ _ _ _) in *.
  assert (∀ n1 k1, n ≤ n1 → omap extent k1 = [] → omap flowEnd k1 = flowPairs n n1 → Attached (before ++ r) k1 →
     Draws (forEach (renderGPU x ds s l) gs) n1 (λ _ n' k, n ≤ n' ∧ Within s hi ((r ++ k1) ++ k) ∧ omap slice ((r ++ k1) ++ k) = gpuSlice s <$> g :: gs ∧
       omap flowEnd ((r ++ k1) ++ k) = flowPairs n n' ∧ Attached (before ++ (r ++ k1) ++ k) ((r ++ k1) ++ k))) as Hrest.
  { intros n1 k1 Hn He Hf Ha. destruct (no_extent k1 He) as [Hs Hw]. eapply draws_conseq; [apply IH|]. intros [] n' k (Hn' & Wk & Sk & Fk & Ak). split_and!; [lia| | | |].
    - by repeat apply within_app.
    - rewrite !omap_app, S, Hs, Sk. done.
    - rewrite !omap_app, F, Hf, Fk. cbn. by rewrite flowPairs_app.
    - repeat apply attached_app; [by apply attached_none|eapply attached_mono; [exact Ha|set_solver]|eapply attached_mono; [exact Ak|set_solver]]. }
  apply draws_when.
  - intros [Hd%Z.ltb_lt Hp%Z.ltb_lt]%andb_true_iff. eapply draws_conseq; [apply (draws_connect _ _ _ _ _ _ _ n (before ++ r)); [lia|lia| |]|].
    + destruct (Hb Hd) as (m & Hm & E). exists m. split; [apply elem_of_app; by left|done].
    + assert (gpuSlice s g ∈ omap slice r) as [m [Hm E]]%list_elem_of_omap by (rewrite S; left). exists m. split; [apply elem_of_app; by right|done].
    + intros [] n' k (-> & He & Hf & Ha). apply Hrest; [lia|done..].
  - intros _. apply Hrest; [lia|done|by rewrite flowPairs_same|by apply attached_none].
Qed.

Lemma draws_combine_flows s cs l all gs n : 0 < xl_combine l → HasSlice all profileTIDCombine cs (cs + xl_combine l) →
  Forall (λ g, 0 ≤ ge_duration g ∧ gpuSlice s g ∈ omap slice all) gs →
  Draws (forEach (λ g, when (0 <? ge_duration g) (connect "GPU to combine" (gpuTrack (ge_gpu g)) s (ge_duration g) profileTIDCombine cs (xl_combine l))) gs) n
    (λ _ n' k, n ≤ n' ∧ omap extent k = [] ∧ omap flowEnd k = flowPairs n n' ∧ Attached all k).
Proof.
  intros Hc Ha Hg. revert n. induction Hg as [|g gs [H1 H2] Hg IH]; intros n; cbn [forEach foldr]; [cbn; rewrite flowPairs_same; split_and!; [lia|done|done|by apply attached_none]|].
  apply draws_bind, draws_when.
  - intros Hp%Z.ltb_lt. eapply draws_conseq; [apply (draws_connect _ _ _ _ _ _ _ n all); [lia|lia| |done]|].
    + apply list_elem_of_omap in H2 as [m [Hm E]]. by exists m.
    + intros [] n1 k1 (-> & He & Hf & Ha1). eapply draws_conseq; [apply IH|]. intros [] n' k (Hn & Ek & Fk & Ak).
      rewrite !omap_app, He, Ek, Hf, Fk, flowPairs_app by lia. split_and!; [lia|done|done|by apply attached_app].
  - intros _. eapply draws_conseq; [apply IH|]. done.
Qed.

Lemma draws_combine s cs l all n : Forall (λ g, 0 ≤ ge_duration g ∧ gpuSlice s g ∈ omap slice all) (xl_gpus l) →
  Draws (renderCombine x s cs l) n (λ c n' k, Drawn cs c n n' k ∧ Attached (all ++ k) k).
Proof.
  intros Hg. unfold renderCombine. destruct (Z.ltb_spec 0 (xl_combine l)) as [Hc|]; [|cbn; split; [apply drawn_nil|by apply attached_none]].
  apply draws_bind. unfold Draws at 1. cbn [runDraw put]. set (sp := Span _ _ _ _ _ _). apply draws_bind.
  eapply draws_conseq; [apply (draws_combine_flows s cs l (all ++ [sp])); [done| |]|].
  - exists sp. split; [apply elem_of_app; right; left|done].
  - eapply Forall_impl; [exact Hg|]. intros g [H1 H2]. split; [done|]. rewrite omap_app. apply elem_of_app. by left.
  - intros [] n' k (Hn & He & Hf & Ha). destruct (no_extent k He) as [Hs Hw]. cbn. rewrite app_nil_r. split.
    + constructor; [lia|done|apply (within_app _ _ [sp]); [|apply Hw]; intros m a b ->%list_elem_of_singleton [= <- <-]; lia| |done].
      unfold Apart. cbn. rewrite Hs. repeat constructor.
    + apply (attached_app _ [sp]); [by apply attached_none|]. eapply attached_mono; [exact Ha|set_solver].
Qed.

Lemma attached_weaken_app all l k k' : Attached (all ++ k) k' → all ⊆ l → k ⊆ l → Attached l k'.
Proof. intros H H1 H2. eapply attached_mono; [exact H|]. intros m [Hm|Hm]%elem_of_app; auto. Qed.

Lemma draws_layer s l n : LayerTimed l → Draws (renderLayer x s l) n (λ c n' k, Drawn s c n n' k ∧ Attached k k).
Proof.
  intros Hl. unfold renderLayer. apply draws_bind. eapply draws_conseq; [by apply draws_routing|]. intros ds n1 k1 (D1 & F1 & R1).
  apply draws_bind. eapply draws_conseq; [apply (draws_dispatch s ds l n1 k1 R1)|]. intros gs n2 k2 (D2 & A2 & S2).
  destruct Hl as [_ Hd Hids]. destruct (max_above (ge_duration <$> xl_gpus l) 0) as [Hm Hg]. fold (gpuDuration l) in Hm, Hg.
  assert (Forall (λ g, 0 ≤ ge_duration g ∧ gs + ge_duration g ≤ gs + gpuDuration l) (xl_gpus l)) as Hb.
  { rewrite Forall_forall in Hd |- *. intros g Hin. split; [by apply Hd|]. pose proof (Hg (ge_duration g) (list_elem_of_fmap_2 _ _ _ Hin)). lia. }
  apply draws_bind. eapply draws_conseq; [apply (draws_gpus ds gs l _ k2 _ n2 Hb S2)|]. intros [] n3 k3 (N3 & W3 & S3 & F3 & A3).
  assert (Drawn gs (gs + gpuDuration l) n2 n3 k3) as D3.
  { constructor; [lia|done|done| |done]. unfold Apart. rewrite S3. apply apart_tracks. rewrite <- !list_fmap_compose. change (NoDup ((λ g, gpuTrack (ge_gpu g)) <$> xl_gpus l)).
    rewrite (list_fmap_compose ge_gpu gpuTrack). apply NoDup_fmap_2; [exact gpuTrack_inj|done]. }
  eapply draws_conseq; [apply (draws_combine gs _ l k3)|].
  { rewrite Forall_forall in Hb |- *. intros g Hin. split; [by apply Hb|]. rewrite S3. by apply list_elem_of_fmap_2. }
  intros c n4 k4 (D4 & A4). split.
  - eapply drawn_app; [exact D1|]. eapply drawn_app; [exact D2|]. by eapply drawn_app.
  - repeat apply attached_app; [by apply attached_none|eapply attached_weaken_app; [eassumption|set_solver..]..].
Qed.

Lemma draws_layers ls s n : Forall LayerTimed ls → Draws (renderLayers x s ls) n (λ c n' k, Drawn s c n n' k ∧ Attached k k).
Proof.
  intros Hls. revert s n. induction Hls as [|l ls Hl Hls IH]; intros s n; cbn [renderLayers]; [cbn; split; [apply drawn_nil|by apply attached_none]|].
  apply draws_bind. eapply draws_conseq; [by apply draws_layer|]. intros c n1 k1 (D1 & A1). eapply draws_conseq; [apply IH|]. intros c' n2 k2 (D2 & A2).
  split; [by eapply drawn_app|]. apply attached_app; (eapply attached_mono; [eassumption|set_solver]).
Qed.
End Layer.

(** A forward whose durations are not negative, on GPUs with names of their own. *)
Definition Timed (x : forwardExecution) : Prop := Forall LayerTimed (xf_layers x).

Lemma draws_execution x s n : Timed x → Draws (renderExecution x s) n (λ c n' k, Drawn s c n n' k ∧ Attached k k).
Proof.
  intros Hx. unfold renderExecution. apply draws_bind.
  assert (∀ name cat tid s d args m, 0 < d → Drawn s (s + d) m m [Span name cat tid s d args]) as Hspan.
  { intros name cat tid t d args m Hd. apply drawn_one; [lia|done|]. intros a b [= <- <-]. lia. }
  eapply draws_conseq with (P := λ c n' k, Drawn s c n n' k ∧ omap flowEnd k = []).
  { destruct (Z.ltb_spec 0 (xf_eplbDuration x)); cbn; split; [by apply Hspan|done|apply drawn_nil|done]. }
  intros c n1 k1 (D1 & F1). apply draws_bind. eapply draws_conseq; [by apply draws_layers|]. intros c2 n2 k2 (D2 & A2).
  eapply draws_conseq with (P := λ c3 n3 k, Drawn c2 c3 n2 n3 k ∧ omap flowEnd k = []).
  { destruct (Z.ltb_spec 0 (xf_migration x)); cbn; split; [by apply Hspan|done|apply drawn_nil|done]. }
  intros c3 n3 k3 (D3 & F3). split; [eapply drawn_app; [exact D1|by eapply drawn_app]|].
  repeat apply attached_app; [by apply attached_none| |by apply attached_none]. eapply attached_mono; [exact A2|set_solver].
Qed.

(** * The rebuilt profile *)

Definition recordAll (r : moeProfileRecorder) (calls : list profiledExecution) : moeProfileRecorder :=
  foldl (λ r c, recordExecution (pe_callStarted c) (pe_start c) (pe_execution c) r) r calls.
(** The names of the tracks come with the first forward. *)
Definition tracksOf (calls : list profiledExecution) : list chromeTraceEvent :=
  match calls with
  | [] => []
  | c :: _ => initializeTracks match xf_layers (pe_execution c) with l :: _ => length (xl_gpus l) | [] => 0%nat end
  end.

Lemma flowPairs_phase n n' id phase : (id, phase) ∈ flowPairs n n' → phase = "s"%string ∨ phase = "f"%string.
Proof.
  assert (Forall (λ p, p.2 = "s" ∨ p.2 = "f")%string (flowPairs n n')) as H by (apply Forall_concat, Forall_fmap, Forall_forall; intros i _; repeat constructor; auto).
  rewrite Forall_forall in H. apply H.
Qed.
Lemma drawn_not_metadata o lo hi n n' l : Drawn lo hi n n' l → List.filter isMetadata (eventOf o <$> l) = [].
Proof.
  intros [_ _ _ _ F]. assert (∀ name phase tid t id, Flow name phase tid t id ∈ l → phase = "s" ∨ phase = "f")%string as H.
  { intros name phase tid t id Hk. apply (flowPairs_phase n n' id). rewrite <- F. apply list_elem_of_omap. by eexists. }
  clear F. induction l as [|k l IH]; [done|]. cbn. assert (isMetadata (eventOf o k) = false) as ->.
  { destruct k as [| |name phase tid t id|]; try done. destruct (H name phase tid t id) as [-> | ->]; [left|done|done]. }
  apply IH. intros name phase tid t id Hk. apply (H name phase tid t id). by right.
Qed.
Lemma filter_metadata_all l : Forall (λ e, isMetadata e = true) l → List.filter isMetadata l = l.
Proof. induction 1 as [|e l He _ IH]; cbn; [done|]. by rewrite He, IH. Qed.
Lemma tracks_metadata n : Forall (λ e, isMetadata e = true) (initializeTracks n).
Proof.
  unfold initializeTracks. apply Forall_app. split; [repeat constructor|]. apply Forall_concat, Forall_fmap, Forall_forall. intros g _. cbn. repeat constructor.
Qed.

Lemma recordExecution_spec c s x r : Timed x → let r' := recordExecution c s x r in
  origin r' = origin r ∧ path r' = path r ∧ executions r' = executions r ++ [mkProfiled c s x] ∧ initialized r' = true ∧
  List.filter isMetadata (events r') = List.filter isMetadata (events r) ++ (if initialized r then [] else tracksOf [mkProfiled c s x]).
Proof.
  intros Hx. cbv zeta. unfold recordExecution, drawOn. cbn [nextFlowID origin path events executions initialized].
  set (r1 := if initialized r then r else _).
  pose proof (draws_execution x s (nextFlowID r1) Hx) as Hd. unfold Draws in Hd. destruct (runDraw (renderExecution x s) (nextFlowID r1)) as [[cur n] k]. destruct Hd as [D _].
  cbn [fst origin path events executions initialized]. rewrite List.filter_app, (drawn_not_metadata _ _ _ _ _ _ D), app_nil_r.
  subst r1. destruct (initialized r) eqn:E; cbn [origin path events executions initialized nextFlowID]; rewrite ?E, ?app_nil_r; [done|]. split_and!; [done..|]. rewrite List.filter_app. f_equal. unfold tracksOf. cbn [pe_execution]. destruct (xf_layers x); apply filter_metadata_all; exact (tracks_metadata _).
Qed.
Lemma recordAll_spec calls r : Forall (λ c, Timed (pe_execution c)) calls → let r' := recordAll r calls in
  origin r' = origin r ∧ executions r' = executions r ++ calls ∧ List.filter isMetadata (events r') = List.filter isMetadata (events r) ++ (if initialized r then [] else tracksOf calls).
Proof.
  intros H. revert r. induction H as [|c calls Hc _ IH]; intros r; cbv zeta; [cbn; by rewrite app_nil_r; destruct (initialized r); rewrite app_nil_r|].
  change (recordAll r (c :: calls)) with (recordAll (recordExecution (pe_callStarted c) (pe_start c) (pe_execution c) r) calls).
  destruct (recordExecution_spec (pe_callStarted c) (pe_start c) (pe_execution c) r Hc) as (E1 & _ & E2 & E3 & E4). destruct (IH (recordExecution (pe_callStarted c) (pe_start c) (pe_execution c) r)) as (I1 & I2 & I3).
  rewrite I1, I2, I3, E1, E2, E3, E4, app_nil_r, <- app_assoc. destruct c. by destruct (initialized r).
Qed.

(** The forward of a record is drawn as a whole, not before its start. *)
Definition DrawnWhole (marks : list mark) (c : profiledExecution) : Prop :=
  ∃ start n before after, pe_start c ≤ start ∧ marks = before ++ (runDraw (renderExecution (pe_execution c) start) n).2 ++ after.

Lemma rebuild_spec records r t : Forall (λ c, Timed (pe_execution c)) records → ∃ r' t' marks,
  foldl rebuildStep (r, Some t) records = (r', Some t') ∧ events r' = events r ++ (eventOf (origin r) <$> marks) ∧
  Drawn t t' (nextFlowID r) (nextFlowID r') marks ∧ Attached marks marks ∧ Forall (DrawnWhole marks) records.
Proof.
  intros H. revert r t. induction H as [|c records Hc _ IH]; intros r t; cbn [foldl].
  - exists r, t, []. cbn. rewrite app_nil_r. split_and!; [done|done|apply drawn_nil|by apply attached_none|constructor].
  - unfold rebuildStep at 2. cbn [snd fst]. unfold drawOn. set (start := Z.max t (pe_start c)). pose proof (draws_execution (pe_execution c) start (nextFlowID r) Hc) as Hd. unfold Draws in Hd.
    destruct (runDraw (renderExecution (pe_execution c) start) (nextFlowID r)) as [[cur n] k] eqn:Er. destruct Hd as [D A].
    destruct (IH (mkRecorder (path r) (origin r) (events r ++ (eventOf (origin r) <$> k)) (executions r) (initialized r) n) cur) as (r' & t' & marks & E & Ev & D' & A' & F'). cbn in Ev, D'.
    exists r', t', (k ++ marks). split_and!; [done|by rewrite Ev, fmap_app, app_assoc| | |].
    + eapply drawn_app with (mid := cur); [|exact D']. destruct D as [? ? W ? ?]. constructor; [lia|done|eapply within_weaken; [exact W|lia..]|done|done].
    + apply attached_app; (eapply attached_mono; [eassumption|set_solver]).
    + constructor.
      * exists start, (nextFlowID r), [], marks. split; [lia|]. by rewrite Er.
      * eapply Forall_impl; [exact F'|]. intros c' (s' & n1 & b & a & Hs & ->). exists s', n1, (k ++ b), a. split; [done|by rewrite <- app_assoc].
Qed.
Lemma rebuild_first records r : Forall (λ c, Timed (pe_execution c)) records → ∃ r' lo hi marks,
  (foldl rebuildStep (r, None) records).1 = r' ∧ events r' = events r ++ (eventOf (origin r) <$> marks) ∧
  Drawn lo hi (nextFlowID r) (nextFlowID r') marks ∧ Attached marks marks ∧ Forall (DrawnWhole marks) records.
Proof.
  destruct records as [|c records]; intros H.
  - exists r, 0, 0, []. cbn. rewrite app_nil_r. split_and!; [done|done|apply drawn_nil|by apply attached_none|constructor].
  - destruct (rebuild_spec (c :: records) r (pe_start c) H) as (r' & t' & marks & E & Hrest). exists r', (pe_start c), t', marks. split; [|done].
    assert (foldl rebuildStep (r, None) (c :: records) = foldl rebuildStep (r, Some (pe_start c)) (c :: records)) as ->; [|by rewrite E].
    cbn [foldl]. unfold rebuildStep at 2 4. cbn [snd fst]. by rewrite Z.max_id.
Qed.

(** C18: the profile rebuilt from any recorded forwards is a proper timeline: the names of the
    tracks first, then every forward drawn as a whole and not before its start, such that no two
    slices of a track overlap, whatever the measured and the modelled durations; the flows are
    numbered from 1, each with a start and a finish, and both ends of each lie within a slice of
    their track. *)
Theorem profile_timeline file now calls : Forall (λ c, Timed (pe_execution c)) calls → ∃ marks flows,
  rebuiltEventsLocked (recordAll (newMoEProfileRecorder file now) calls) = tracksOf calls ++ (eventOf now <$> marks) ∧
  (∀ i j s t, (i < j)%nat → omap slice marks !! i = Some s → omap slice marks !! j = Some t → s.1.1 = t.1.1 → s.1.2 ≤ s.2 ∧ s.2 ≤ t.1.2) ∧
  omap flowEnd marks = flowPairs 0 flows ∧ Attached marks marks ∧ Forall (DrawnWhole marks) calls.
Proof.
  intros H. destruct (recordAll_spec calls (newMoEProfileRecorder file now) H) as (E1 & E2 & E3). cbn in E1, E2, E3.
  unfold rebuiltEventsLocked. rewrite E2, E3. assert (Forall (λ c, Timed (pe_execution c)) (SliceStable earlier calls)) as Hs by (by rewrite SliceStable_perm).
  set (base := mkRecorder _ _ _ _ _ _). destruct (rebuild_first _ base Hs) as (r' & lo & hi & marks & <- & Ev & D & A & F).
  exists marks, (nextFlowID (foldl rebuildStep (base, None) (SliceStable earlier calls)).1). destruct D as [_ _ W Ap Fl]. split_and!; [by rewrite Ev, <- E1| |done|done|by rewrite SliceStable_perm in F].
  intros i j s t Hij Hi Hj E. split; [by eapply within_slice, list_elem_of_lookup_2|]. eapply (sorted_lookup Before); eauto.
Qed.

(** ** The order of recording *)

Lemma sorted_rev {A} (R : A → A → Prop) l : StronglySorted R l → StronglySorted (flip R) (rev l).
Proof.
  induction 1 as [|x l Hl IH Hx]; cbn; [constructor|]. apply sorted_app; [done|repeat constructor|]. intros y z Hy ->%list_elem_of_singleton.
  rewrite Forall_forall in Hx. apply Hx. by rewrite <- Permutation_rev in Hy.
Qed.
Lemma SliceStable_strict {A} (less : A → A → bool) l :
  (∀ x y, less x y = true → less y x = false) → (∀ x y z, less x y = false → less y z = false → less x z = false) →
  StronglySorted (λ a b, less b a = false) (SliceStable less l).
Proof.
  intros Hasym Htrans. unfold SliceStable. apply (sorted_rev (λ a b, less a b = false)).
  assert (∀ x acc, StronglySorted (λ a b, less a b = false) acc → StronglySorted (λ a b, less a b = false) (insertBack less x acc)) as Hins.
  { intros x acc. induction 1 as [|y acc Hs IH Hy]; cbn; [repeat constructor|]. destruct (less x y) eqn:E.
    - constructor; [done|]. rewrite insertBack_perm. constructor; [by apply Hasym|done].
    - constructor; [by constructor|]. constructor; [done|]. eapply Forall_impl; [exact Hy|]. intros z Hz. by eapply Htrans. }
  assert (∀ acc, StronglySorted (λ a b, less a b = false) acc → StronglySorted (λ a b, less a b = false) (foldl (λ acc x, insertBack less x acc) acc l)) as H.
  { induction l as [|x l IH]; intros acc Ha; cbn; [done|]. by apply IH, Hins. }
  apply H. constructor.
Qed.
Lemma sorted_unique {A} (R : A → A → Prop) l k : (∀ x y, x ∈ l → y ∈ l → R x y → R y x → x = y) → StronglySorted R l → StronglySorted R k → l ≡ₚ k → l = k.
Proof.
  intros Ha Hl. revert k Ha. induction Hl as [|x l Hl IH Hx]; intros k Ha Hk Hp; [by apply Permutation_nil_l in Hp|].
  inversion Hk as [|y k' Hk' Hy]; subst; [by apply Permutation_nil_r in Hp|]. rewrite Forall_forall in Hx, Hy.
  assert (x = y) as <-.
  { assert (x ∈ y :: k') as [?|Hxk]%elem_of_cons by (rewrite <- Hp; left); [done|]. assert (y ∈ x :: l) as Hyl by (rewrite Hp; left).
    pose proof Hyl as [?|Hyl']%elem_of_cons; [done|]. apply Ha; [left|done|by apply Hx|by apply Hy]. }
  f_equal. apply IH; [|done|by eapply Permutation_cons_inv]. intros u v Hu Hv. apply Ha; by right.
Qed.
Lemma earlier_strict : (∀ x y, earlier x y = true → earlier y x = false) ∧ (∀ x y z, earlier x y = false → earlier y z = false → earlier x z = false).
Proof.
  split; intros *; unfold earlier; repeat match goal with |- context [?a =? ?b] => destruct (Z.eqb_spec a b) | |- context [?a <? ?b] => destruct (Z.ltb_spec a b) end; intros; try done; lia.
Qed.
Lemma SliceStable_order_free calls calls' : calls ≡ₚ calls' →
  (∀ a b, a ∈ calls → b ∈ calls → pe_start a = pe_start b → pe_callStarted a = pe_callStarted b → a = b) → SliceStable earlier calls = SliceStable earlier calls'.
Proof.
  intros Hp Hd. destruct earlier_strict as [H1 H2]. apply (sorted_unique (λ a b, earlier b a = false)).
  - intros x y. rewrite SliceStable_perm. intros Hx Hy E1 E2. revert E1 E2. unfold earlier.
    destruct (Z.eqb_spec (pe_start x) (pe_start y)) as [E|E]; destruct (Z.eqb_spec (pe_start y) (pe_start x)); try lia.
    intros ?%Z.ltb_ge ?%Z.ltb_ge. apply Hd; [done|done|done|lia].
  - by apply SliceStable_strict.
  - by apply SliceStable_strict.
  - by rewrite !SliceStable_perm.
Qed.

(** C22: the profile does not depend on the order in which concurrent workers record their
    forwards: with distinct times, and the same tracks, every order gives the same file. *)
Theorem profile_order_free file now calls calls' : Forall (λ c, Timed (pe_execution c)) calls → calls ≡ₚ calls' →
  (∀ a b, a ∈ calls → b ∈ calls → pe_start a = pe_start b → pe_callStarted a = pe_callStarted b → a = b) → tracksOf calls = tracksOf calls' →
  rebuiltEventsLocked (recordAll (newMoEProfileRecorder file now) calls) = rebuiltEventsLocked (recordAll (newMoEProfileRecorder file now) calls').
Proof.
  intros Ht Hp Hd Htr. pose proof Ht as Ht'. rewrite Hp in Ht'. pose proof (recordAll_spec calls (newMoEProfileRecorder file now) Ht) as (E1 & E2 & E3).
  pose proof (recordAll_spec calls' (newMoEProfileRecorder file now) Ht') as (E1' & E2' & E3'). cbn in *.
  unfold rebuiltEventsLocked. rewrite E1, E2, E3, E1', E2', E3', (SliceStable_order_free calls calls') by done. rewrite Htr.
  assert (∀ l a b t, events a = events b → origin a = origin b → nextFlowID a = nextFlowID b →
    events (foldl rebuildStep (a, t) l).1 = events (foldl rebuildStep (b, t) l).1) as Hext; [|by apply Hext].
  clear. induction l as [|c l IH]; intros a b t He Ho Hn; [done|]. cbn [foldl]. unfold rebuildStep at 2 4. cbn [fst snd]. unfold drawOn. rewrite He, Ho, Hn.
  destruct (runDraw _ _) as [[cur n] k]. by apply IH.
Qed.

(** ** Publication *)

(** A flush replaces the profile by the complete new one, or fails and leaves it as it was;
    no temporary file stays and no other file changes. *)
Theorem flush_atomic {Content} encoded (partial : Content) c store r fs fs' res : tempName c ≠ path r → fs !! tempName c = None →
  flushLocked encoded partial c store r fs = Some (fs', res) →
  (∀ f, f ≠ path r → fs' !! f = fs !! f) ∧
  match res with
  | Ok _ => path r = ""%string ∨ ∃ evs, marshalled store (rebuiltEventsLocked r) = Some evs ∧ fs' !! path r = Some (encoded evs)
  | Err _ => fs' !! path r = fs !! path r
  end.
Proof.
  intros Hne Hfresh. unfold flushLocked. destruct (String.eqb_spec (path r) ""); [intros [= <- <-]; auto|]. destruct (createTempOk c); cbn; [|intros [= <- <-]; auto].
  destruct (marshalled store _) as [evs|]; cbn; [|done]. assert (∀ f v, f ≠ path r → delete (tempName c) (<[tempName c := v]> fs) !! f = fs !! f) as Hdel.
  { intros f v _. rewrite delete_insert_eq. destruct (decide (f = tempName c)) as [->|]; [by rewrite lookup_delete_eq|by rewrite lookup_delete_ne]. }
  assert (∀ v, delete (tempName c) (<[tempName c := v]> fs) !! path r = fs !! path r) as Hp by (intros v; rewrite lookup_delete_ne, lookup_insert_ne by done; done).
  destruct (encodeOk c); cbn; [|intros [= <- <-]; cbn; auto]. destruct (_ && _); [intros [= <- <-]; cbn; auto|]. destruct (closeOk c); cbn; [|intros [= <- <-]; cbn; auto].
  destruct (renameOk c); cbn; intros [= <- <-]; cbn; [|by auto]. rewrite delete_insert_eq. split; [|right; exists evs; split; [done|by rewrite lookup_delete_ne, lookup_insert_eq]].
  intros f Hf. destruct (decide (f = tempName c)) as [->|]; [by rewrite lookup_delete_eq|]. by rewrite lookup_delete_ne, lookup_insert_ne, lookup_delete_ne by done.
Qed.

End MoeProfileProps.
