(* ===== verification/MoeProfileDecode.v ===== *)
(** The decode forwards of a profile: the token assignments that are added to the operations
    of the GPUs are the recorded routes of the tokens, each GPU as many per expert as it was
    routed, at positions that count the decode forwards of every request. *)

From S2P Require Import Prelude GoFloat GoFloatInt GoFloatOrder GoFloatRound TraceFormat TraceFile Moe TraceText TraceWorkload TraceWorkloadProps TraceFidelity TraceExecution Config MoeProfile MoeProfileProps.
From Stdlib Require Import SpecFloat.
From stdpp Require Import pretty.
Import TraceFile Moe TraceWorkload TraceFidelity TraceExecution MoeProfile MoeProfileProps.
Open Scope Z_scope.

Module MoeProfileDecode.

(** * Sharing the assignments of a layer among its GPUs *)

Definition countOf (e : Z) (l : list traceProfileTokenAssignment) : Z := Z.of_nat (length (filter (λ a, ta_ExpertID a = e) l)).
Lemma countOf_app e l k : countOf e (l ++ k) = countOf e l + countOf e k.
Proof. unfold countOf. rewrite filter_app, length_app. lia. Qed.
Lemma countOf_perm e l k : l ≡ₚ k → countOf e l = countOf e k.
Proof. unfold countOf. by intros ->. Qed.
Lemma countOf_nonneg e l : 0 ≤ countOf e l.
Proof. unfold countOf. lia. Qed.
Lemma countOf_cons e a l : countOf e (a :: l) = (if decide (ta_ExpertID a = e) then 1 else 0) + countOf e l.
Proof. unfold countOf. rewrite filter_cons. destruct (decide _); cbn [length]; lia. Qed.

(** Every expert gets what its quota allows; the rest stays, in order. *)
Lemma consume_spec l q : let r := consume q l in r.1 ++ r.2 ≡ₚ l ∧ ∀ e, countOf e r.1 = Z.min (Z.max 0 (default 0 (q !! e))) (countOf e l).
Proof.
  revert q. induction l as [|a l IH]; intros q; cbv zeta; [cbn; split; [done|]; intros e; unfold countOf; cbn; lia|]. cbn [consume].
  set (quota := default 0 (q !! ta_ExpertID a)). destruct (Z.ltb_spec 0 quota) as [Hq|Hq].
  - specialize (IH (<[ta_ExpertID a := quota - 1]> q)). destruct (consume _ l) as [x r]. destruct IH as [Hp Hc]. cbn in *. split; [by rewrite Hp|].
    intros e. rewrite !countOf_cons, Hc. pose proof (countOf_nonneg e l). destruct (decide (ta_ExpertID a = e)) as [<-|Hne]; [rewrite lookup_insert_eq; cbn; fold quota; lia|].
    rewrite lookup_insert_ne by done. lia.
  - specialize (IH q). destruct (consume q l) as [x r]. destruct IH as [Hp Hc]. cbn in *. split; [by rewrite <- Permutation_middle, Hp|].
    intros e. rewrite countOf_cons, Hc. pose proof (countOf_nonneg e l). destruct (decide (ta_ExpertID a = e)) as [<-|Hne]; [fold quota; lia|lia].
Qed.

Definition quotaFor (g : traceGPUExecution) (e : Z) : Z := Z.max 0 (default 0 (quotasOf (Some (ALoads (ge_expertLoads g))) !! e)).

(** What each GPU of a layer gets, in the order of the GPUs. *)
Fixpoint shareOut (l : list traceProfileTokenAssignment) (gs : list traceGPUExecution) : list (list traceProfileTokenAssignment) :=
  match gs with
  | [] => []
  | g :: gs => let r := consumeGPUAssignments l (Some (ALoads (ge_expertLoads g))) in r.1 :: shareOut r.2 gs
  end.
Definition totalQuota (gs : list traceGPUExecution) (e : Z) : Z := foldr Z.add 0 ((λ g, quotaFor g e) <$> gs).

Lemma totalQuota_nonneg gs e : 0 ≤ totalQuota gs e.
Proof. induction gs as [|g gs IH]; cbn; [lia|]. unfold quotaFor at 1. unfold totalQuota in IH. lia. Qed.

Lemma no_counts l : (∀ e, countOf e l = 0) → l = [].
Proof. destruct l as [|a l]; [done|]. intros H. specialize (H (ta_ExpertID a)). rewrite countOf_cons, decide_True in H by done. pose proof (countOf_nonneg (ta_ExpertID a) l). lia. Qed.

Lemma shareOut_spec gs l : (∀ e, totalQuota gs e = countOf e l) →
  concat (shareOut l gs) ≡ₚ l ∧ Forall2 (λ g own, ∀ e, countOf e own = quotaFor g e) gs (shareOut l gs).
Proof.
  revert l. induction gs as [|g gs IH]; intros l Hq.
  - cbn. rewrite (no_counts l) by (intros e; by rewrite <- Hq). split; constructor.
  - cbn [shareOut concat]. unfold consumeGPUAssignments. destruct (consume_spec l (quotasOf (Some (ALoads (ge_expertLoads g))))) as [Hp Hc].
    set (r := consume _ l) in *. assert (∀ e, countOf e r.1 = quotaFor g e) as Hown.
    { intros e. rewrite Hc, <- Hq. fold (quotaFor g e). pose proof (totalQuota_nonneg gs e). unfold totalQuota in *. cbn. lia. }
    destruct (IH r.2) as [Hp' Hf].
    { intros e. pose proof (countOf_perm e _ _ Hp) as H. rewrite countOf_app, Hown, <- Hq in H. unfold totalQuota in *. cbn in H. lia. }
    split; [by rewrite Hp', Hp|by constructor].
Qed.

(** * Events of a forward *)

(** What holds of every mark of a forward. *)
Section Marks.
Variable x : forwardExecution.
Variable P : mark → Prop.
Hypothesis Pflow : ∀ name phase tid t id, P (Flow name phase tid t id).
Hypothesis Pspan : ∀ name cat tid s d values, name ≠ "MoE MLP"%string → P (Span name cat tid s d (argsFor x values)).
Hypothesis Pinstant : ∀ name cat tid t values, name ≠ "MoE MLP"%string → P (Instant name cat tid t (argsFor x values)).

Lemma marks_connect name tid s d tid' s' d' n : Draws (connect name tid s d tid' s' d') n (λ _ _ k, Forall P k).
Proof. cbn. by repeat constructor. Qed.
Lemma marks_when b d n : Draws d n (λ _ _ k, Forall P k) → Draws (when b d) n (λ _ _ k, Forall P k).
Proof. destruct b; [done|]. constructor. Qed.
Lemma marks_forEach {A} (f : A → draw ()) l n : (∀ a m, Draws (f a) m (λ _ _ k, Forall P k)) → Draws (forEach f l) n (λ _ _ k, Forall P k).
Proof.
  intros H. revert n. induction l as [|a l IH]; intros n; cbn [forEach foldr]; [constructor|]. apply draws_bind. eapply draws_conseq; [apply H|]. intros [] m k Hk.
  eapply draws_conseq; [apply IH|]. intros [] m' k' Hk'. by apply Forall_app.
Qed.
Lemma marks_routing s l n : Draws (renderRouting x s l) n (λ _ _ k, Forall P k).
Proof.
  unfold renderRouting. destruct (rt_routers (xl_times l)) as [|d ds].
  - destruct (0 <? _); cbn; (constructor; [|constructor]); [by apply Pspan|by apply Pinstant].
  - apply draws_bind. unfold Draws at 1. cbn [runDraw put]. apply draws_bind. unfold Draws, runDraw, mret, draw_ret, put. rewrite app_nil_r. apply Forall_app. split.
    + apply Forall_forall. intros m (i & y & -> & _)%elem_of_lookup_imap. unfold routerMark. destruct (0 <? y); [by apply Pspan|by apply Pinstant].
    + destruct (0 <? _); (constructor; [|constructor]); [by apply Pspan|by apply Pinstant].
Qed.
Lemma marks_dispatch rs s l n : Draws (renderDispatch x rs s l) n (λ _ _ k, Forall P k).
Proof.
  unfold renderDispatch. destruct (0 <? xl_dispatch l); [|constructor]. apply draws_bind. unfold Draws at 1. cbn [runDraw put]. apply draws_bind.
  eapply draws_conseq; [apply marks_when, marks_connect|]. intros [] n' k Hk. cbn. rewrite app_nil_r. constructor; [by apply Pspan|done].
Qed.
Lemma marks_combine s cs l n : Draws (renderCombine x s cs l) n (λ _ _ k, Forall P k).
Proof.
  unfold renderCombine. destruct (0 <? xl_combine l); [|constructor]. apply draws_bind. unfold Draws at 1. cbn [runDraw put]. apply draws_bind.
  eapply draws_conseq; [apply marks_forEach; intros; apply marks_when, marks_connect|]. intros [] n' k Hk. cbn. rewrite app_nil_r. constructor; [by apply Pspan|done].
Qed.

Hypothesis Pgpu : ∀ s layer g, Forall P (recordGPU s layer (xf_requestIDs x) (xf_phase x) g).
Lemma marks_layers s ls n : Draws (renderLayers x s ls) n (λ _ _ k, Forall P k).
Proof.
  revert s n. induction ls as [|l ls IH]; intros s n; cbn [renderLayers]; [constructor|]. apply draws_bind. unfold renderLayer.
  apply draws_bind. eapply draws_conseq; [apply marks_routing|]. intros ds n1 k1 H1. apply draws_bind. eapply draws_conseq; [apply marks_dispatch|]. intros gs n2 k2 H2.
  apply draws_bind. eapply draws_conseq; [apply marks_forEach|].
  { intros g m. unfold renderGPU. apply draws_bind. unfold Draws at 1. cbn [runDraw put]. eapply draws_conseq; [apply marks_when, marks_connect|]. intros [] m' k Hk. apply Forall_app. split; [apply Pgpu|done]. }
  intros [] n3 k3 H3. eapply draws_conseq; [apply marks_combine|]. intros c n4 k4 H4. eapply draws_conseq; [apply IH|]. intros c' n5 k5 H5. rewrite !Forall_app. done.
Qed.
Lemma marks_eplb s n : Draws (if 0 <? xf_eplbDuration x
            then _ ← put [Span "EPLB update" "cpu.eplb" profileTIDEPLB s (xf_eplbDuration x) (argsFor x (measured (xf_eplbDuration x) ∅))];
                 mret (s + xf_eplbDuration x)
            else mret s) n (λ _ _ k, Forall P k).
Proof. destruct (0 <? _); [|constructor]. cbn. constructor; [by apply Pspan|constructor]. Qed.
Lemma marks_migration s n : Draws (if 0 <? xf_migration x
  then _ ← put [Span "Expert migration" "network.migration" profileTIDMigration s (xf_migration x) (argsFor x ∅)]; mret (s + xf_migration x)
  else mret s) n (λ _ _ k, Forall P k).
Proof. destruct (0 <? _); [|constructor]. cbn. constructor; [by apply Pspan|constructor]. Qed.
Lemma marks_execution s n : Draws (renderExecution x s) n (λ _ _ k, Forall P k).
Proof.
  unfold renderExecution. apply draws_bind. eapply draws_conseq; [apply marks_eplb|]. intros c n1 k1 H1. apply draws_bind. eapply draws_conseq; [apply marks_layers|]. intros c2 n2 k2 H2.
  eapply draws_conseq; [apply marks_migration|]. intros c3 n3 k3 H3. rewrite !Forall_app. done.
Qed.
End Marks.

Section Enrich.
Variable store : moeTraceStore.
Variable o : Z.

Lemma enrichFrom_app st l k : enrichFrom store st (l ++ k) = x ← enrichFrom store st l; y ← enrichFrom store x.1 k; Some (y.1, x.2 ++ y.2).
Proof.
  revert st. induction l as [|e l IH]; intros st; cbn; [by destruct (enrichFrom store st k) as [[]|]|]. destruct (enrichEvent store st e) as [[st1 e1]|]; cbn; [|done].
  rewrite IH. destruct (enrichFrom store st1 l) as [[st2 l2]|]; cbn; [|done]. by destruct (enrichFrom store st2 k) as [[]|].
Qed.

(** The token assignments an event carries for a layer. *)
Definition carriedTokens (layer : Z) (e : chromeTraceEvent) : list (list traceProfileTokenAssignment) :=
  match Args e with
  | Some args =>
      if (Name e =? "MoE MLP")%string && match profileEventInt args "moe_layer" with Some n => n =? layer | None => false end
      then [match args !! "token_assignments"%string with Some (ATokens l) => l | _ => [] end] else []
  | None => []
  end.

Definition Inert (m : mark) : Prop :=
  match m with Span name _ _ _ _ _ | Instant name _ _ _ _ => name ≠ "MoE MLP"%string | Counter name _ _ _ => name ≠ "MoE MLP"%string | Flow _ _ _ _ _ => True end.

Lemma no_carried layer e : Name e ≠ "MoE MLP"%string → carriedTokens layer e = [].
Proof. intros Hn. unfold carriedTokens. rewrite (proj2 (String.eqb_neq _ _) Hn). by destruct (Args e). Qed.
Lemma inert_event st m : Inert m → ∃ e, enrichEvent store st (eventOf o m) = Some (st, e) ∧ ∀ layer, carriedTokens layer e = [].
Proof.
  intros Hn. assert (Name (eventOf o m) = "MoE MLP"%string → Args (eventOf o m) = None) as Hm by (by destruct m).
  unfold enrichEvent. destruct (Args (eventOf o m)) as [args|] eqn:Ea; [|eexists; split; [done|]; intros; unfold carriedTokens; by rewrite Ea].
  assert (Name (eventOf o m) ≠ "MoE MLP"%string) as Hname by (intros E; by apply Hm in E). rewrite (proj2 (String.eqb_neq _ _) Hname). cbn [negb].
  destruct (_ || _); [eexists; split; [done|]; intros; by apply no_carried|].
  destruct (profileEventRequestIDs args), (args !! "phase"%string); (eexists; split; [done|]; intros; by apply no_carried).
Qed.
Lemma inert_events st l : Forall Inert l → ∃ es, enrichFrom store st (eventOf o <$> l) = Some (st, es) ∧ ∀ layer, concat (carriedTokens layer <$> es) = [].
Proof.
  induction 1 as [|m l Hm _ [es [E H]]]; cbn; [by exists []|]. destruct (inert_event st m Hm) as (e & -> & He). cbn. rewrite E. cbn. exists (e :: es). split; [done|]. intros layer. cbn. by rewrite He, H.
Qed.

(** Enriching the events of [k] leads from a state to another and gives these assignments to the
    GPUs of each layer. *)
Definition Pass (k : list mark) (st st' : decodeProfileState) (f : Z → list (list traceProfileTokenAssignment)) : Prop :=
  ∃ es, enrichFrom store st (eventOf o <$> k) = Some (st', es) ∧ ∀ layer, concat (carriedTokens layer <$> es) = f layer.
Lemma pass_app k1 k2 st st1 st2 f1 f2 : Pass k1 st st1 f1 → Pass k2 st1 st2 f2 → Pass (k1 ++ k2) st st2 (λ layer, f1 layer ++ f2 layer).
Proof.
  intros (es & E & H) (es' & E' & H'). exists (es ++ es'). rewrite fmap_app, enrichFrom_app, E. cbn. rewrite E'. split; [done|]. intros layer. by rewrite fmap_app, concat_app, H, H'.
Qed.
Lemma pass_ext k st st' f g : Pass k st st' f → (∀ layer, f layer = g layer) → Pass k st st' g.
Proof. intros (es & E & H) Hg. exists es. split; [done|]. intros layer. by rewrite H. Qed.
Lemma pass_inert k st : Forall Inert k → Pass k st st (λ _, []).
Proof. intros (es & E & H)%(inert_events st). by exists es. Qed.
Lemma pass_around k1 k k2 st st' f : Forall Inert k1 → Forall Inert k2 → Pass k st st' f → Pass (k1 ++ k ++ k2) st st' f.
Proof.
  intros H1 H2 H. eapply pass_ext; [eapply pass_app; [by apply pass_inert|eapply pass_app; [exact H|by apply pass_inert]]|]. intros layer. cbn. by rewrite app_nil_r.
Qed.

(** ** One GPU *)

Definition assignmentArgs (l : list traceProfileTokenAssignment) : option argValue := match l with [] => None | _ => Some (ATokens l) end.
Lemma gpuArgs_lookup layer g ids : ids ≠ [] → let args := gpuArgs layer g ids "" in
  profileEventRequestIDs args = ids ∧ args !! "phase"%string = None ∧ profileEventInt args "moe_layer" = Some (Z.of_nat layer) ∧
  profileEventInt args "gpu" = Some (Z.of_nat (ge_gpu g)) ∧ args !! "expert_token_counts"%string = Some (ALoads (ge_expertLoads g)) ∧
  args !! "token_assignments"%string = assignmentArgs (ge_tokenAssignments g).
Proof.
  intros Hids. cbv zeta. unfold profileEventRequestIDs, profileEventInt, gpuArgs, profileArgs. cbn [String.eqb].
  destruct ids as [|r [|r' rs]]; [done|..]; destruct (ge_tokenAssignments g), (ge_duration g <=? 0); unfold layerValues;
    repeat first [rewrite lookup_insert_eq | rewrite lookup_insert_ne by done]; rewrite ?lookup_singleton_eq, ?lookup_singleton_ne by done; done.
Qed.

Variable x : forwardExecution.
Hypothesis (Hids : xf_requestIDs x ≠ []) (Hphase : xf_phase x = ""%string).
Abbreviation ids := (xf_requestIDs x).

Definition mlp (s : Z) (layer : nat) (g : traceGPUExecution) : mark := Span "MoE MLP" "gpu.mlp" (gpuTrack (ge_gpu g)) s (ge_duration g) (gpuArgs layer g ids (xf_phase x)).

(** The assignments an operation is given, and the state it leaves. *)
Lemma pass_mlp s layer g st st1 l : ge_tokenAssignments g = [] →
  st1 = (if (Z.of_nat layer =? 0) && (Z.of_nat (ge_gpu g) =? 0) then advancePositions ids st else st) →
  match remaining st1 !! decodeProfileKey ids (Z.of_nat layer) with
  | Some rest => if Z.of_nat (ge_gpu g) =? 0 then decodeAssignmentsForLayer store ids (current st1) (Z.of_nat layer) else Some rest
  | None => decodeAssignmentsForLayer store ids (current st1) (Z.of_nat layer)
  end = Some l →
  let r := consumeGPUAssignments l (Some (ALoads (ge_expertLoads g))) in
  Pass [mlp s layer g] st (mkDecodeState (nextPosition st1) (current st1) (<[decodeProfileKey ids (Z.of_nat layer) := r.2]> (remaining st1)))
    (λ layer', if Z.of_nat layer =? layer' then [r.1] else []).
Proof.
  intros Hg Hst1 Hl r. unfold mlp. rewrite Hphase. destruct (gpuArgs_lookup layer g ids Hids) as (E1 & E2 & E3 & E4 & E5 & E6). set (args := gpuArgs layer g ids "") in *.
  rewrite Hg in E6. cbn in E6. unfold profileEventInt in E3, E4.
  assert (∀ key, key ≠ "phase"%string → profileEventInt (<["phase"%string := AStr traceProfilePhaseDecode]> args) key = profileEventInt args key) as Hph by (intros; unfold profileEventInt; by rewrite lookup_insert_ne).
  unfold Pass. cbn [fmap list_fmap enrichFrom eventOf]. unfold enrichEvent. cbn [Args Ph Cat Name]. rewrite E1, E2. cbn [String.eqb Ascii.eqb Bool.eqb orb negb].
  rewrite !Hph by done. unfold profileEventInt at 1 2. rewrite E3, E4. destruct ids as [|r0 rs] eqn:Eids; [done|]. rewrite <- Eids in *.
  unfold enrichMLP. rewrite <- Hst1. rewrite lookup_insert_ne, E5, Hl by done. cbn [mbind option_bind]. fold r. destruct r as [assigned rest]. cbn [fst snd].
  eexists. split; [done|]. intros layer'. cbn [concat fmap list_fmap]. rewrite app_nil_r. unfold carriedTokens. cbn [Args Name setArgs fst snd String.eqb Ascii.eqb Bool.eqb andb].
  assert (∀ m, profileEventInt match assigned with [] => m | _ :: _ => <["token_assignments"%string := ATokens assigned]> m end "moe_layer" = profileEventInt m "moe_layer") as ->.
  { intros m. unfold profileEventInt. destruct assigned; [done|]. by rewrite lookup_insert_ne. }
  rewrite Hph by done. unfold profileEventInt. rewrite E3. destruct (Z.of_nat layer =? layer'); [|done]. f_equal.
  destruct assigned; [by rewrite lookup_insert_ne, E6|by rewrite lookup_insert_eq].
Qed.

(** ** A layer *)

Lemma inert_counters s g : Forall Inert (gpuCounters s g).
Proof. repeat constructor; done. Qed.
Lemma recordGPU_mlp s layer g : ∃ k, recordGPU s layer ids (xf_phase x) g = mlp s layer g :: k ∧ Forall Inert k.
Proof. unfold recordGPU. eexists. split; [done|]. destruct (ge_duration g <=? 0); [constructor|apply inert_counters]. Qed.

Definition Numbered (i : nat) (gs : list traceGPUExecution) : Prop := ge_gpu <$> gs = seq i (length gs) ∧ Forall (λ g, ge_tokenAssignments g = []) gs.

(** The state with other assignments left. *)
Definition withRemaining (r : gmap string (list traceProfileTokenAssignment)) (st : decodeProfileState) : decodeProfileState := mkDecodeState (nextPosition st) (current st) r.

(** One GPU with the marks around it: of another GPU than the first, the rest is shared on. *)
Lemma draws_one_gpu ds s l g n : Draws (renderGPU x ds s l g) n (λ _ _ k, ∃ k', k = mlp s (xl_layer l) g :: k' ∧ Forall Inert k').
Proof.
  unfold renderGPU. apply draws_bind. unfold Draws at 1. cbn [runDraw put]. destruct (recordGPU_mlp s (xl_layer l) g) as (k & -> & Hk).
  eapply draws_conseq; [apply (marks_when Inert); apply (marks_connect Inert); done|]. intros [] n' k' Hk'. exists (k ++ k'). split; [done|by apply Forall_app].
Qed.
Lemma pass_cons m k st st1 st2 f1 f2 : Pass [m] st st1 f1 → Pass k st1 st2 f2 → Pass (m :: k) st st2 (λ layer, f1 layer ++ f2 layer).
Proof. intros H1 H2. by apply (pass_app [m] k st st1 st2). Qed.

Lemma draws_more_gpus ds s l gs i n : (0 < i)%nat → Numbered i gs → Draws (forEach (renderGPU x ds s l) gs) n (λ _ _ k,
  ∀ st rest, remaining st !! decodeProfileKey ids (Z.of_nat (xl_layer l)) = Some rest →
    ∃ r, Pass k st (withRemaining r st) (λ layer, if Z.of_nat (xl_layer l) =? layer then shareOut rest gs else [])).
Proof.
  revert i n. induction gs as [|g gs IH]; intros i n Hi [Hn Ht].
  - cbn. intros st rest _. exists (remaining st). destruct st. eapply pass_ext; [apply pass_inert; constructor|]. intros. cbn. by destruct (_ =? _).
  - cbn [fmap list_fmap length seq] in Hn. injection Hn as Hg Hn. apply Forall_cons in Ht as [Htg Ht]. cbn [forEach foldr]. apply draws_bind. eapply draws_conseq; [apply draws_one_gpu|].
    intros [] n1 k1 (k1' & -> & Hk1). eapply draws_conseq; [apply (IH (S i)); [lia|done]|]. intros [] n2 k2 H2 st rest Hrest.
    pose proof (pass_mlp s (xl_layer l) g st st rest Htg) as Hm. assert ((Z.of_nat (ge_gpu g) =? 0) = false) as Hz by (apply Z.eqb_neq; lia). rewrite Hz, andb_false_r, Hrest in Hm.
    specialize (Hm eq_refl eq_refl). cbn in Hm. set (st1 := mkDecodeState _ _ _) in Hm. destruct (H2 st1 (consumeGPUAssignments rest (Some (ALoads (ge_expertLoads g)))).2) as [r Hr].
    { cbn. by rewrite lookup_insert_eq. }
    exists r. eapply pass_ext; [eapply pass_app; [eapply pass_cons; [exact Hm|by apply pass_inert]|exact Hr]|]. intros layer. cbn. rewrite app_nil_r. by destruct (_ =? layer).
Qed.

Lemma draws_all_gpus ds s l gs n : Numbered 0 gs → gs ≠ [] → Draws (forEach (renderGPU x ds s l) gs) n (λ _ _ k,
  ∀ st st1 routes, st1 = (if Z.of_nat (xl_layer l) =? 0 then advancePositions ids st else st) →
    decodeAssignmentsForLayer store ids (current st1) (Z.of_nat (xl_layer l)) = Some routes →
    ∃ r, Pass k st (withRemaining r st1) (λ layer, if Z.of_nat (xl_layer l) =? layer then shareOut routes gs else [])).
Proof.
  intros [Hn Ht] Hne. destruct gs as [|g gs]; [done|]. cbn [fmap list_fmap length seq] in Hn. injection Hn as Hg Hn. apply Forall_cons in Ht as [Htg Ht].
  cbn [forEach foldr]. apply draws_bind. eapply draws_conseq; [apply draws_one_gpu|]. intros [] n1 k1 (k1' & -> & Hk1).
  eapply draws_conseq; [apply (draws_more_gpus ds s l gs 1); [lia|done]|]. intros [] n2 k2 H2 st st1 routes Hst1 Hr.
  pose proof (pass_mlp s (xl_layer l) g st st1 routes Htg) as Hm. rewrite Hg in Hm. cbn [Z.of_nat Z.eqb] in Hm. rewrite andb_true_r in Hm. specialize (Hm Hst1).
  assert (∀ m : option (list traceProfileTokenAssignment), match m with Some _ => decodeAssignmentsForLayer store ids (current st1) (Z.of_nat (xl_layer l)) | None => decodeAssignmentsForLayer store ids (current st1) (Z.of_nat (xl_layer l)) end = Some routes) as Hany by (by intros []).
  specialize (Hm (Hany _)). cbn in Hm. set (st2 := mkDecodeState _ _ _) in Hm. destruct (H2 st2 (consumeGPUAssignments routes (Some (ALoads (ge_expertLoads g)))).2) as [r Hp].
  { cbn. by rewrite lookup_insert_eq. }
  exists r. eapply pass_ext; [eapply pass_app; [eapply pass_cons; [exact Hm|by apply pass_inert]|exact Hp]|]. intros layer. cbn. rewrite app_nil_r. by destruct (_ =? layer).
Qed.

Lemma inert_routing s l n : Draws (renderRouting x s l) n (λ _ _ k, Forall Inert k).
Proof. by apply marks_routing. Qed.
Lemma inert_dispatch rs s l n : Draws (renderDispatch x rs s l) n (λ _ _ k, Forall Inert k).
Proof. by apply marks_dispatch. Qed.
Lemma inert_combine s cs l n : Draws (renderCombine x s cs l) n (λ _ _ k, Forall Inert k).
Proof. by apply marks_combine. Qed.

Lemma draws_decode_layer s l n : Numbered 0 (xl_gpus l) → xl_gpus l ≠ [] → Draws (renderLayer x s l) n (λ _ _ k,
  ∀ st st1 routes, st1 = (if Z.of_nat (xl_layer l) =? 0 then advancePositions ids st else st) →
    decodeAssignmentsForLayer store ids (current st1) (Z.of_nat (xl_layer l)) = Some routes →
    ∃ r, Pass k st (withRemaining r st1) (λ layer, if Z.of_nat (xl_layer l) =? layer then shareOut routes (xl_gpus l) else [])).
Proof.
  intros Hn Hne. unfold renderLayer. apply draws_bind. eapply draws_conseq; [apply inert_routing|]. intros ds n1 k1 H1. apply draws_bind. eapply draws_conseq; [apply inert_dispatch|]. intros gs n2 k2 H2.
  apply draws_bind. eapply draws_conseq; [by apply draws_all_gpus|]. intros [] n3 k3 H3. eapply draws_conseq; [apply inert_combine|]. intros c n4 k4 H4 st st1 routes Hst Hr.
  destruct (H3 st st1 routes Hst Hr) as [r Hp]. exists r. rewrite app_assoc. apply pass_around; [by apply Forall_app|done|done].
Qed.

(** ** A forward *)

Definition layerShares (routes : nat → list traceProfileTokenAssignment) (ls : list layerExecution) (layer : Z) : list (list traceProfileTokenAssignment) :=
  concat ((λ l, if Z.of_nat (xl_layer l) =? layer then shareOut (routes (xl_layer l)) (xl_gpus l) else []) <$> ls).
Definition LayerOk (l : layerExecution) : Prop := Numbered 0 (xl_gpus l) ∧ xl_gpus l ≠ [].

Lemma draws_decode_layers s ls i n : (0 < i)%nat → xl_layer <$> ls = seq i (length ls) → Forall LayerOk ls → Draws (renderLayers x s ls) n (λ _ _ k,
  ∀ st routes, (∀ l, l ∈ ls → decodeAssignmentsForLayer store ids (current st) (Z.of_nat (xl_layer l)) = Some (routes (xl_layer l))) →
    ∃ r, Pass k st (withRemaining r st) (layerShares routes ls)).
Proof.
  revert s i n. induction ls as [|l ls IH]; intros s i n Hi Hn Hok; cbn [renderLayers].
  - cbn. intros st routes _. exists (remaining st). destruct st. by apply pass_inert.
  - cbn [fmap list_fmap length seq] in Hn. injection Hn as Hl Hn. apply Forall_cons in Hok as [[H1 H2] Hok]. apply draws_bind. eapply draws_conseq; [by apply draws_decode_layer|].
    intros c n1 k1 P1. eapply draws_conseq; [by apply (IH c (S i)); [lia|..]|]. intros c' n2 k2 P2 st routes Hr.
    assert ((Z.of_nat (xl_layer l) =? 0) = false) as Hz by (apply Z.eqb_neq; lia). destruct (P1 st st (routes (xl_layer l))) as [r1 Hp1]; [by rewrite Hz|apply Hr; left|].
    destruct (P2 (withRemaining r1 st) routes) as [r2 Hp2]; [intros l' Hl'; apply Hr; by right|]. exists r2. by eapply pass_app.
Qed.

Lemma draws_decode_execution s n : xf_layers x ≠ [] → xl_layer <$> xf_layers x = seq 0 (length (xf_layers x)) → Forall LayerOk (xf_layers x) → Draws (renderExecution x s) n (λ _ _ k,
  ∀ st routes, (∀ l, l ∈ xf_layers x → decodeAssignmentsForLayer store ids (current (advancePositions ids st)) (Z.of_nat (xl_layer l)) = Some (routes (xl_layer l))) →
    ∃ r, Pass k st (withRemaining r (advancePositions ids st)) (layerShares routes (xf_layers x))).
Proof.
  destruct (xf_layers x) as [|l ls] eqn:Els; [done|]. intros _ Hn Hok. cbn [fmap list_fmap length seq] in Hn. injection Hn as Hl Hn. apply Forall_cons in Hok as [[H1 H2] Hok].
  unfold renderExecution. rewrite Els. apply draws_bind. eapply draws_conseq; [by apply (marks_eplb x Inert)|]. intros c n1 k1 I1. apply draws_bind. cbn [renderLayers]. apply draws_bind.
  eapply draws_conseq; [by apply draws_decode_layer|]. intros c2 n2 k2 P2. eapply draws_conseq; [by apply (draws_decode_layers c2 ls 1); [lia|..]|]. intros c3 n3 k3 P3.
  eapply draws_conseq; [by apply (marks_migration x Inert)|]. intros c4 n4 k4 I4 st routes Hr.
  destruct (P2 st (advancePositions ids st) (routes (xl_layer l))) as [r2 Hp2]; [by rewrite Hl|apply Hr; left|]. destruct (P3 (withRemaining r2 (advancePositions ids st)) routes) as [r3 Hp3]; [intros l' Hl'; apply Hr; by right|].
  exists r3. apply pass_around; [done|done|]. by eapply pass_app.
Qed.
End Enrich.

(** * A profile of forwards *)

Lemma advance_spec l st : NoDup l → ∀ r,
  default 0 (nextPosition (advancePositions l st) !! r) = default 0 (nextPosition st !! r) + (if bool_decide (r ∈ l) then 1 else 0) ∧
  (r ∈ l → default 0 (current (advancePositions l st) !! r) = default 0 (nextPosition st !! r)) ∧ (r ∉ l → current (advancePositions l st) !! r = current st !! r).
Proof.
  intros Hl r. revert st. induction Hl as [|a l Ha Hl IH]; intros st; [cbn; rewrite bool_decide_false by (by intros ?%elem_of_nil); split_and!; [lia|by intros ?%elem_of_nil|done]|].
  cbn [advancePositions foldl]. fold (advancePositions l). set (st1 := mkDecodeState _ _ _). destruct (IH st1) as (I1 & I2 & I3). change (foldl _ st1 l) with (advancePositions l st1).
  rewrite I1. destruct (decide (a = r)) as [->|Hne].
  - rewrite I3 by done. cbn. rewrite !lookup_insert_eq, bool_decide_false, bool_decide_true by (done || left). cbn. split_and!; [lia|done|]. intros H. destruct H. left.
  - cbn in *. rewrite lookup_insert_ne in I1, I2, I3 |- * by done. split_and!.
    + f_equal. rewrite (bool_decide_ext (r ∈ l) (r ∈ a :: l)); [done|]. rewrite elem_of_cons. naive_solver.
    + intros [->|Hr]%elem_of_cons; [done|by apply I2].
    + intros Hr. apply I3. intros H. apply Hr. by right.
Qed.
Lemma decodeAssignments_ext store l p q layer : (∀ r, r ∈ l → default 0 (p !! r) = default 0 (q !! r)) → decodeAssignmentsForLayer store l p layer = decodeAssignmentsForLayer store l q layer.
Proof.
  intros H. unfold decodeAssignmentsForLayer. f_equal. assert (∀ r, r ∈ SliceStable Z.ltb l → default 0 (p !! r) = default 0 (q !! r)) as H' by (intros r; rewrite SliceStable_perm; apply H).
  clear H. induction (SliceStable Z.ltb l) as [|r k IH]; [done|]. cbn. assert (requestAssignments store p layer r = requestAssignments store q layer r) as -> by (unfold requestAssignments; by rewrite (H' r) by left). rewrite IH; [done|]. intros r' Hr'. apply H'. by right.
Qed.

Record DecodeForward (x : forwardExecution) : Prop := mkDecodeForward {
  df_ids : xf_requestIDs x ≠ []; df_distinct : NoDup (xf_requestIDs x); df_phase : xf_phase x = ""%string; df_layers : xf_layers x ≠ [];
  df_numbered : xl_layer <$> xf_layers x = seq 0 (length (xf_layers x)); df_gpus : Forall LayerOk (xf_layers x) }.

(** A forward that has a phase is left as it is. *)
Definition Phased (m : mark) : Prop := match m with Span _ _ _ _ _ args | Instant _ _ _ _ args => is_Some (args !! "phase"%string) | _ => True end.
Lemma phased_args ids phase values : phase ≠ ""%string → is_Some (profileArgs ids phase values !! "phase"%string).
Proof. intros H. unfold profileArgs. rewrite (proj2 (String.eqb_neq _ _) H), lookup_insert_eq. eauto. Qed.
Lemma phased_execution x s n : xf_phase x ≠ ""%string → Draws (renderExecution x s) n (λ _ _ k, Forall Phased k).
Proof.
  intros H. apply marks_execution; [done|intros; by apply phased_args..|]. intros t layer g. unfold recordGPU. constructor; [|destruct (ge_duration g <=? 0); repeat constructor].
  cbn. unfold gpuArgs. destruct (ge_tokenAssignments g), (ge_duration g <=? 0); repeat rewrite lookup_insert_ne by done; by apply phased_args.
Qed.
Lemma phased_kept store o st k : Forall Phased k → enrichFrom store st (eventOf o <$> k) = Some (st, eventOf o <$> k).
Proof.
  induction 1 as [|m k Hm _ IH]; [done|]. cbn [fmap list_fmap enrichFrom]. assert (enrichEvent store st (eventOf o m) = Some (st, eventOf o m)) as ->.
  { unfold enrichEvent. destruct m as [name cat tid s d args|name cat tid t args| |]; cbn in *; try done; destruct Hm as [v ->]; destruct (_ =? "flow")%string; try done; by destruct (profileEventRequestIDs args). }
  cbn. by rewrite IH.
Qed.

(** The events of a forward drawn at a time, after [n] flows. *)
Definition forwardEvents (o : Z) (f : forwardExecution * Z * Z) : list chromeTraceEvent := eventOf o <$> (runDraw (renderExecution f.1.1 f.1.2) f.2).2.
Definition isDecode (x : forwardExecution) : bool := (xf_phase x =? "")%string.
(** How many decode forwards a request was part of. *)
Definition decoded (fs : list (forwardExecution * Z * Z)) (r : Z) : Z := Z.of_nat (length (filter (λ f, isDecode f.1.1 = true ∧ r ∈ xf_requestIDs f.1.1) fs)).

(** The GPUs of a forward were routed as many tokens of every expert as the trace records. *)
Definition FollowsTrace (store : moeTraceStore) (positions : Z → Z) (x : forwardExecution) : Prop := ∀ p l, (∀ r, default 0 (p !! r) = positions r) → l ∈ xf_layers x →
  ∃ routes, decodeAssignmentsForLayer store (xf_requestIDs x) p (Z.of_nat (xl_layer l)) = Some routes ∧ ∀ e, totalQuota (xl_gpus l) e = countOf e routes.

Lemma forward_pass store o f st : DecodeForward f.1.1 → FollowsTrace store (λ r, default 0 (nextPosition st !! r)) f.1.1 → ∃ st' es,
  enrichFrom store st (forwardEvents o f) = Some (st', es) ∧
  (∀ r, default 0 (nextPosition st' !! r) = default 0 (nextPosition st !! r) + (if bool_decide (r ∈ xf_requestIDs f.1.1) then 1 else 0)) ∧
  ∀ l, l ∈ xf_layers f.1.1 → ∃ routes, decodeAssignmentsForLayer store (xf_requestIDs f.1.1) (nextPosition st) (Z.of_nat (xl_layer l)) = Some routes ∧
    let shares := concat (carriedTokens (Z.of_nat (xl_layer l)) <$> es) in concat shares ≡ₚ routes ∧ Forall2 (λ g own, ∀ e, countOf e own = quotaFor g e) (xl_gpus l) shares.
Proof.
  destruct f as [[x s] n]. cbn [fst snd]. intros [H1 H2 H3 H4 H5 H6] Hf. pose proof (draws_decode_execution store o x H1 H3 s n H4 H5 H6) as Hd. unfold Draws in Hd. unfold forwardEvents. cbn [fst snd].
  destruct (runDraw (renderExecution x s) n) as [[c n'] k]. cbn [snd]. set (ids := xf_requestIDs x) in *. specialize (Hf (nextPosition st)).
  set (routes := λ i, default [] (decodeAssignmentsForLayer store ids (nextPosition st) (Z.of_nat i))). assert (∀ l, l ∈ xf_layers x → decodeAssignmentsForLayer store ids (nextPosition st) (Z.of_nat (xl_layer l)) = Some (routes (xl_layer l))) as Hr.
  { intros l Hl. destruct (Hf l ltac:(done) Hl) as (as_ & E & _). change (xf_requestIDs x) with ids in E. unfold routes. by rewrite E. }
  destruct (Hd st routes) as (r & es & E & Hes).
  { intros l Hl. rewrite <- Hr by done. apply decodeAssignments_ext. intros q Hq. by apply (advance_spec ids st H2 q). }
  exists (withRemaining r (advancePositions ids st)), es. split_and!; [done|intros q; cbn; by apply (advance_spec ids st H2 q)|].
  intros l Hl. exists (routes (xl_layer l)). split; [by apply Hr|]. cbv zeta. rewrite Hes.
  assert (layerShares routes (xf_layers x) (Z.of_nat (xl_layer l)) = shareOut (routes (xl_layer l)) (xl_gpus l)) as ->.
  { assert (NoDup (xl_layer <$> xf_layers x)) as Hnd by (rewrite H5; apply NoDup_seq). clear -Hl Hnd. unfold layerShares. induction (xf_layers x) as [|m ls IH]; [by apply elem_of_nil in Hl|].
    cbn in Hnd |- *. apply NoDup_cons in Hnd as [Hm Hnd]. destruct (decide (xl_layer m = xl_layer l)) as [Em|Hne].
    - rewrite Em, Z.eqb_refl. assert (l = m ∨ l ∈ ls) as [->|Hin] by (by apply elem_of_cons in Hl); [|destruct Hm; rewrite Em; by apply list_elem_of_fmap_2].
      rewrite <- (app_nil_r (shareOut (routes (xl_layer m)) (xl_gpus m))) at 2. f_equal. clear -Hm. induction ls as [|y ls IH]; [done|]. cbn in Hm |- *.
      rewrite (proj2 (Z.eqb_neq _ _)); [apply IH; set_solver|]. intros E%Nat2Z.inj. destruct Hm. rewrite E. left.
    - rewrite (proj2 (Z.eqb_neq _ _)) by lia. apply elem_of_cons in Hl as [->|Hl]; [done|]. by apply IH. }
  destruct (Hf l ltac:(done) Hl) as (as_ & E' & Hq). apply shareOut_spec. pose proof (Hr l Hl) as E2. change (xf_requestIDs x) with ids in E'. rewrite E' in E2. by injection E2 as <-.
Qed.

Definition PartOf (store : moeTraceStore) (o : Z) (positions : Z → Z) (f : forwardExecution * Z * Z) (part : list chromeTraceEvent) : Prop :=
  if isDecode f.1.1 then
    ∀ l p, l ∈ xf_layers f.1.1 → (∀ r, default 0 (p !! r) = positions r) →
      ∃ routes, decodeAssignmentsForLayer store (xf_requestIDs f.1.1) p (Z.of_nat (xl_layer l)) = Some routes ∧
        let shares := concat (carriedTokens (Z.of_nat (xl_layer l)) <$> part) in concat shares ≡ₚ routes ∧ Forall2 (λ g own, ∀ e, countOf e own = quotaFor g e) (xl_gpus l) shares
  else part = forwardEvents o f.

Lemma one_part store o f st : (isDecode f.1.1 = true → DecodeForward f.1.1) → (isDecode f.1.1 = true → FollowsTrace store (λ r, default 0 (nextPosition st !! r)) f.1.1) → ∃ st' part,
  enrichFrom store st (forwardEvents o f) = Some (st', part) ∧ PartOf store o (λ r, default 0 (nextPosition st !! r)) f part ∧
  ∀ r, default 0 (nextPosition st' !! r) = default 0 (nextPosition st !! r) + decoded [f] r.
Proof.
  intros Hd Hf. unfold PartOf, decoded. destruct (isDecode f.1.1) eqn:E.
  - destruct (forward_pass store o f st (Hd eq_refl) (Hf eq_refl)) as (st' & es & E1 & E2 & E3). exists st', es. split_and!; [done| |].
    + intros l p Hl Hp. destruct (E3 l Hl) as (routes & Er & H). exists routes. split; [|done]. rewrite <- Er. apply decodeAssignments_ext. intros r _. apply Hp.
    + intros r. rewrite E2, filter_cons, E. destruct (bool_decide_reflect (r ∈ xf_requestIDs f.1.1)); destruct (decide _) as [H|H]; cbn; try lia; naive_solver.
  - exists st, (forwardEvents o f). split_and!; [|done|].
    + apply phased_kept. destruct f as [[x s] n]. assert (xf_phase x ≠ ""%string) as H by (intros H; unfold isDecode in E; cbn in E; by rewrite H in E).
      pose proof (phased_execution x s n H) as Hk. unfold Draws in Hk. cbn. by destruct (runDraw _ _) as [[c n'] k].
    + intros r. rewrite filter_cons, E. destruct (decide _) as [[H _]|_]; [done|]. cbn. lia.
Qed.
Lemma decoded_app fs gs r : decoded (fs ++ gs) r = decoded fs r + decoded gs r.
Proof. unfold decoded. rewrite filter_app, length_app. lia. Qed.
Lemma PartOf_ext store o p q f part : (∀ r, p r = q r) → PartOf store o p f part → PartOf store o q f part.
Proof. intros H. unfold PartOf. destruct (isDecode f.1.1); [|done]. intros Hp l m Hl Hm. apply Hp; [done|]. intros r. by rewrite Hm, H. Qed.

Lemma all_parts store o fs pre st : (∀ r, default 0 (nextPosition st !! r) = decoded pre r) →
  Forall (λ f, isDecode f.1.1 = true → DecodeForward f.1.1) fs →
  (∀ before f after, fs = before ++ f :: after → isDecode f.1.1 = true → FollowsTrace store (decoded (pre ++ before)) f.1.1) →
  ∃ st' parts, enrichFrom store st (concat (forwardEvents o <$> fs)) = Some (st', concat parts) ∧ length parts = length fs ∧
  ∀ before f after, fs = before ++ f :: after → ∃ part, parts !! length before = Some part ∧ PartOf store o (decoded (pre ++ before)) f part.
Proof.
  intros Hst Hd. revert pre st Hst. induction Hd as [|f fs Hf _ IH]; intros pre st Hst Ht; [exists st, []; split_and!; [done|done|]; by intros [] ? ?|].
  destruct (one_part store o f st Hf) as (st1 & part & E1 & P1 & N1).
  { intros Hdec p l Hp Hl. apply (Ht [] f fs); [done|done| |done]. intros r. rewrite app_nil_r, Hp. apply Hst. }
  destruct (IH (pre ++ [f]) st1) as (st2 & parts & E2 & L2 & P2).
  { intros r. by rewrite N1, Hst, decoded_app. }
  { intros before g after -> Hdec. rewrite <- app_assoc. by apply (Ht (f :: before) g after). }
  exists st2, (part :: parts). cbn [fmap list_fmap concat length]. rewrite enrichFrom_app, E1. cbn [mbind option_bind fst snd]. rewrite E2. split_and!; [done|by rewrite L2|].
  intros [|g before] h after; cbn; intros [= <- E].
  - exists part. split; [done|]. rewrite app_nil_r. eapply PartOf_ext; [|exact P1]. done.
  - destruct (P2 before h after E) as (part' & Hl & Hp). exists part'. split; [done|]. by rewrite <- app_assoc in Hp.
Qed.

(** C19: in the published profile the operations of every decode forward carry exactly the
    recorded routes of its tokens: over the GPUs of a layer together the routes of each request
    of the forward at its next position, which counts its decode forwards so far, and each GPU as
    many assignments of every expert as it was routed; forwards with a phase of their own keep
    what the prefill batcher gave them.  Two conditions on the recorded forwards are needed.  A
    decode forward names its requests, each once, and its layers are numbered from zero, with GPUs
    whose loads are whole numbers of tokens ([DecodeForward]; half tokens are lost, [half_tokens_lost]).
    And at the positions that count the decode forwards of a request, the GPUs were routed as many
    tokens of every expert as the trace records ([FollowsTrace]); this fails for a prompt that is
    replayed a second time, whose positions go on from the first replay ([second_replay_bare]). *)
Theorem decode_profile_routes store o fs :
  Forall (λ f, isDecode f.1.1 = true → DecodeForward f.1.1) fs →
  (∀ before f after, fs = before ++ f :: after → isDecode f.1.1 = true → FollowsTrace store (decoded before) f.1.1) →
  ∃ parts, enrichDecodeProfileEvents store (concat (forwardEvents o <$> fs)) = Some (concat parts) ∧ length parts = length fs ∧
  ∀ before f after, fs = before ++ f :: after → ∃ part, parts !! length before = Some part ∧ PartOf store o (decoded before) f part.
Proof.
  intros Hd Hf. destruct (all_parts store o fs [] (mkDecodeState ∅ ∅ ∅)) as (st & parts & E & L & P); [by intros r; cbn; rewrite lookup_empty|done|done|].
  exists parts. unfold enrichDecodeProfileEvents. rewrite E. split_and!; [done|done|exact P].
Qed.

(** * Loads that are counts *)

Lemma billionth : f_const 1 (10 ^ 9) = S754_finite false 4835703278458517 (-82).
Proof. vm_compute. reflexivity. Qed.

(** A count plus a billionth truncates to the count. *)
Lemma count_kept k : 0 ≤ k < 2 ^ 50 → f_to_int (fadd (f_of_Z k) (f_const 1 (10 ^ 9))) = k.
Proof.
  intros Hk. rewrite billionth. destruct (decide (k = 0)) as [->|Hk0]; [vm_compute; reflexivity|].
  assert (0 < k < 2 ^ 53) as Hk' by lia. rewrite f_of_Z_canonical by done. assert (0 ≤ Z.log2 k < 50) as Hl by (split; [apply Z.log2_nonneg|apply Z.log2_lt_pow2; lia]).
  unfold fadd, SFadd. assert (Z.min (int_exponent k) (-82) = -82) as -> by (unfold int_exponent; lia). rewrite aligned_mantissa by (done || unfold int_exponent; lia).
  change (Z.pos (shl_align 4835703278458517 (-82) (-82)).1) with 4835703278458517. cbn [cond_Zopp]. change (- -82) with 82. set (p := k * 2 ^ 82 + 4835703278458517).
  pose proof (Z.log2_spec k ltac:(lia)) as [K1 K2]. assert (Z.log2 p = Z.log2 k + 82) as Hp.
  { apply Z.log2_unique; [lia|]. rewrite <- Z.add_succ_l, !Z.pow_add_r by lia. unfold p. nia. }
  assert (ulp_shift p (-82) = Z.log2 k + 30) as Hn by (unfold ulp_shift; lia).
  assert (binary_normalize f64_prec f64_emax p (-82) false = binary_round_aux f64_prec f64_emax false p (-82) loc_Exact) as ->.
  { assert (0 < p) as Hpos by (unfold p; lia). destruct p as [|pp|pp]; [lia| |lia]. cbn [binary_normalize]. unfold binary_round. rewrite digits2_log2, fexp_eq, Hp.
    unfold shl_align. by destruct (Z.max _ _ - -82) eqn:E; [lia| |lia]. }
  destruct (round_aux_spec false p (-82)) as (q & -> & Hd & Hq & Hq2); [unfold p; lia|lia|]. rewrite Hn in *. set (n := Z.log2 k + 30) in *.
  destruct (rounded_units q (-82 + n) Hq ltac:(lia)) as [U1 U2].
  assert (Representable (rounded false q (-82 + n))) as Hr by (apply rounded_representable; [done|lia|done]).
  set (N := 2 ^ n) in *. set (j := 2 ^ (82 - n)). assert (2 ^ 82 = N * j) as HD by (unfold N, j; rewrite <- Z.pow_add_r by lia; f_equal; lia).
  assert (4 ≤ j) as Hj by (apply (Z.pow_le_mono_r 2 2); lia). assert (2 ^ 30 ≤ N) as HN by (apply (Z.pow_le_mono_r 2 30); lia).
  assert (k * j ≤ q < (k + 1) * j) as [H1 H2].
  { unfold p in Hd. rewrite HD in Hd. assert (4835703278458517 < N * j - N) as Hc by (assert (4 * N ≤ N * j) by nia; assert (2 ^ 82 = N * j) by done; assert (2 ^ 82 - 2 ^ 80 ≤ N * j - N) by (assert (4 * N ≤ 2 ^ 82) by lia; lia); lia).
    clearbody N j. split.
    - assert (k * j < q + 1); [|lia]. apply (Z.mul_lt_mono_pos_r N); nia.
    - apply (Z.mul_lt_mono_pos_r N); nia. }
  assert (units (rounded false q (-82 + n)) < 2 ^ (63 + 1074)) as Hu.
  { rewrite U2. eapply Z.le_lt_trans; [apply (Z.mul_le_mono_nonneg_r q (2 ^ 53)); [apply Z.pow_nonneg; lia|lia]|]. rewrite <- Z.pow_add_r by lia. apply Z.pow_lt_mono_r; lia. }
  rewrite f_to_int_units, U2 by done. replace (-82 + n + 1074) with (n + 992) by lia. change 1074 with (82 + 992). rewrite !Z.pow_add_r, Z.mul_assoc by lia. rewrite Z.div_mul_cancel_r by (apply Z.pow_nonzero; lia).
  fold N. rewrite HD. symmetry. apply (Z.div_unique _ _ _ ((q - k * j) * N)); [left; nia|lia].
Qed.

Lemma quotas_lookup (m : gmap nat f64) e : quotasOf (Some (ALoads m)) !! Z.of_nat e = quotaOf <$> m !! e.
Proof.
  cbn. revert m. apply (map_fold_weak_ind (λ (q : gmap Z Z) m, q !! Z.of_nat e = quotaOf <$> m !! e)); [done|]. intros i x m q Hm IH.
  destruct (decide (i = e)) as [->|]; [by rewrite !lookup_insert_eq|]. by rewrite !lookup_insert_ne by lia.
Qed.
Lemma quotas_negative (m : gmap nat f64) e : e < 0 → quotasOf (Some (ALoads m)) !! e = None.
Proof.
  intros He. cbn. revert m. apply (map_fold_weak_ind (λ (q : gmap Z Z) m, q !! e = None)); [done|]. intros i x m q Hm IH. by rewrite lookup_insert_ne by lia.
Qed.

(** The quota of an expert that was routed a whole number of tokens is that number, of any other 0. *)
Lemma quotaFor_count g e k : 0 ≤ k < 2 ^ 50 → ge_expertLoads g !! e = Some (f_of_Z k) → quotaFor g (Z.of_nat e) = k.
Proof. intros Hk E. unfold quotaFor. rewrite quotas_lookup, E. cbn. unfold quotaOf. rewrite count_kept by done. lia. Qed.
Lemma quotaFor_none g e : ge_expertLoads g !! Z.to_nat e = None → quotaFor g e = 0.
Proof.
  intros E. unfold quotaFor. destruct (decide (e < 0)); [by rewrite quotas_negative|]. by rewrite <- (Z2Nat.id e), quotas_lookup, E by lia.
Qed.

(** * The forwards of the replay are such forwards *)

Lemma distribute_none st : distributeTraceProfileAssignments st [] = replicate (length (expertLoads st)) [].
Proof. done. Qed.
Lemma gpus_numbered m f iter st counts gs c : traceLayerExecution m f iter st counts [] = Some (gs, c) → Numbered 0 gs ∧ length gs = numGPUs m.
Proof.
  unfold traceLayerExecution. rewrite distribute_none. set (totalTokens := fdiv _ _). intros H.
  assert (∀ l acc r, foldM (λ acc gpu, x ← gpuExecution m f (iter gpu) st (replicate (length (expertLoads st)) []) totalTokens gpu; Some (acc.1 ++ [x.1], if flt acc.2 x.2 then x.2 else acc.2)) acc l = Some r →
    Forall (λ g, ge_tokenAssignments g = []) acc.1 → ge_gpu <$> r.1 = (ge_gpu <$> acc.1) ++ l ∧ Forall (λ g, ge_tokenAssignments g = []) r.1) as Hall.
  { clear. induction l as [|i l IH]; intros acc r H Ha; cbn in H; [injection H as <-; by rewrite app_nil_r|].
    destruct (gpuExecution _ _ _ _ _ _ _) as [[g c]|] eqn:E; cbn in H; [|done]. unfold gpuExecution in E. destruct (expertLoads st !! i); cbn in E; [|done]. destruct (tr_loads st !! i); cbn in E; [|done].
    destruct (replicate _ _ !! i) as [own|] eqn:Eo; cbn in E; [|done]. apply lookup_replicate in Eo as [-> _]. destruct (foldl (addExpertWork _ _) _ _). cbv zeta in E. injection E as <- _.
    apply IH in H as [H1 H2]; [|cbn; apply Forall_app; split; [done|by repeat constructor]]. cbn in H1. rewrite fmap_app, <- app_assoc in H1. done. }
  destruct (Hall _ _ _ H) as [H1 H2]; [constructor|]. cbn in H1. assert (length gs = numGPUs m) as Hl by (rewrite <- (length_fmap ge_gpu), H1; apply length_seq).
  split; [|done]. split; [by rewrite H1, Hl|done].
Qed.
Lemma layers_numbered iter times f m counts ps l acc r : foldM (forwardLayer iter times f m counts ps []) acc l = Some r →
  Forall (λ x, Numbered 0 (le_gpus x) ∧ length (le_gpus x) = numGPUs m) acc.1.1 →
  le_layer <$> r.1.1 = (le_layer <$> acc.1.1) ++ l ∧ Forall (λ x, Numbered 0 (le_gpus x) ∧ length (le_gpus x) = numGPUs m) r.1.1.
Proof.
  revert acc r. induction l as [|i l IH]; intros acc r H Ha; cbn in H; [injection H as <-; by rewrite app_nil_r|].
  destruct (forwardLayer _ _ _ _ _ _ _ _ _) as [acc'|] eqn:E; cbn in H; [|done]. destruct acc as [[records secs] lat]. unfold forwardLayer in E. cbn [fst] in *.
  destruct (counts !! i); cbn in E; [|done]. destruct (ps !! i); cbn in E; [|done]. destruct (traceRouteLayer _ _ _ _); cbn in E; [|done].
  rewrite lookup_nil in E. cbn in E. destruct (traceLayerExecution _ _ _ _ _ _) as [[gs c]|] eqn:Eg; cbn in E; [|done]. apply gpus_numbered in Eg. destruct (traceCommunicationPhaseCost _ _); cbn in E; [|done].
  injection E as <-. apply IH in H as [H1 H2]; [|cbn; apply Forall_app; split; [done|constructor; [exact Eg|constructor]]]. cbn in H1. rewrite fmap_app, <- app_assoc in H1. done.
Qed.

(** A decode forward of the replay, recorded without a phase, is a [DecodeForward]. *)
Theorem replay_forwards_decode iter times f counts s s' y ids eplb : ids ≠ [] → NoDup ids → (0 < numGPUs (params s))%nat → me_layers y ≠ [] →
  traceModelExecutionForLayerCounts iter times f counts [] s = Some (s', y) → DecodeForward (executionOf ids "" eplb times y).
Proof.
  intros Hi Hn Hg Hl H. unfold traceModelExecutionForLayerCounts in H. destruct (negb _); [by injection H as <- <-|]. destruct (feq _ _); [by injection H as <- <-|].
  destruct (if fixedPlacement f then _ else _) as [[s1 mig]|]; cbn in H; [|done]. destruct (foldM _ _ _) as [[[records secs] lat]|] eqn:E; cbn in H; [|done]. injection H as <- <-.
  apply layers_numbered in E as [H1 H2]; [|constructor]. cbn in H1, H2, Hl. constructor; cbn; [done|done|done|by destruct records| |].
  - rewrite <- list_fmap_compose. change (le_layer <$> records = seq 0 (length ((λ l, mkLayerExecution (le_layer l) (times (le_layer l)) (le_dispatch l) (le_dispatch l) (le_gpus l)) <$> records))).
    rewrite length_fmap, H1. f_equal. by rewrite <- (length_fmap le_layer), H1, length_seq.
  - apply Forall_fmap. eapply Forall_impl; [exact H2|]. intros l [Hnum Hlen]. split; [done|]. cbn. intros E. rewrite E in Hlen. cbn in Hlen. lia.
Qed.

(** * Examples *)

Definition gpu_ex (gpu : nat) (loads : gmap nat f64) (d : Z) : traceGPUExecution := mkGPUExecution gpu loads [] f_zero f_zero f_zero d d d f_zero.
Definition forward_ex (phase : string) (a b : gmap nat f64) : forwardExecution :=
  mkForwardExecution [0] phase [mkLayerExecution 0 (mkTimes 5 [] 0) 10 10 [gpu_ex 0 a 7; gpu_ex 1 b 9]] 3 0.
Definition one : f64 := f_of_Z 1.
Definition forwards_ex : list (forwardExecution * Z * Z) :=
  [(forward_ex "" {[1%nat := one]} {[2%nat := one]}, 100, 0); (forward_ex "prefill" ∅ ∅, 200, 5); (forward_ex "" {[0%nat := one]} {[1%nat := one]}, 300, 10)].

Lemma forward_ex_decode a b : DecodeForward (forward_ex "" a b).
Proof. constructor; [done|repeat constructor; by intros ?%elem_of_nil|done|done|done|]. constructor; [|constructor]. split; [|done]. split; [done|repeat constructor]. Qed.
Lemma quotaFor_one gpu e d k : quotaFor (gpu_ex gpu {[e := one]} d) k = (if decide (k = Z.of_nat e) then 1 else 0).
Proof.
  destruct (decide (k = Z.of_nat e)) as [->|Hne]; [apply quotaFor_count; [lia|cbn; by rewrite lookup_singleton_eq]|]. destruct (decide (k < 0)).
  - unfold quotaFor. by rewrite quotas_negative.
  - apply quotaFor_none. cbn. rewrite lookup_singleton_ne; [done|lia].
Qed.
Lemma follows_ex a b position : position = 0 ∧ a = 1%nat ∧ b = 2%nat ∨ position = 1 ∧ a = 0%nat ∧ b = 1%nat →
  ∀ positions, positions 0 = position → FollowsTrace TraceWorkloadProps.store_ex positions (forward_ex "" {[a := one]} {[b := one]}).
Proof.
  intros H positions Hpos p l Hp ->%list_elem_of_singleton. specialize (Hp 0). rewrite Hpos in Hp. destruct H as [(-> & -> & ->)|(-> & -> & ->)].
  all: unfold decodeAssignmentsForLayer; cbn [xf_requestIDs forward_ex SliceStable foldl insertBack rev app mapM]; unfold requestAssignments; rewrite Hp; eexists; (split; [vm_compute; reflexivity|]).
  all: intros e; unfold totalQuota; cbn [xl_gpus fmap list_fmap foldr]; rewrite !quotaFor_one, !countOf_cons; cbn [ta_ExpertID]; change (countOf e []) with 0.
  all: repeat destruct (decide _); lia.
Qed.

(** Two decode forwards of a request with a prefill forward between them: the routes of both of its
    tokens are in the profile. *)
Lemma decode_profile_routes_witness : ∃ parts,
  enrichDecodeProfileEvents TraceWorkloadProps.store_ex (concat (forwardEvents 0 <$> forwards_ex)) = Some (concat parts) ∧ length parts = length forwards_ex ∧
  ∀ before f after, forwards_ex = before ++ f :: after → ∃ part, parts !! length before = Some part ∧ PartOf TraceWorkloadProps.store_ex 0 (decoded before) f part.
Proof.
  apply (decode_profile_routes TraceWorkloadProps.store_ex 0 forwards_ex).
  - constructor; [|constructor; [|constructor; [|constructor]]]; cbn [fst]; intros H; first [apply forward_ex_decode | by vm_compute in H].
  - intros before f after E Hd. destruct before as [|f0 [|f1 [|f2 [|f3 before]]]]; try done; cbn in E.
    + injection E as <- <-. apply (follows_ex 1 2 0); [by left|done].
    + injection E as <- <- <-. done.
    + injection E as <- <- <- <-. apply (follows_ex 0 1 1); [by right|vm_compute; reflexivity].
Defined.

(** A token that is routed in halves to two replicas is in the profile of neither. *)
Example half_tokens_lost :
  let a := mkAssignment 0 traceProfilePhaseDecode 3 0 1 (-1) in
  shareOut [a] [gpu_ex 0 {[1%nat := f_const 1 2]} 7; gpu_ex 1 {[1%nat := f_const 1 2]} 9] = [[]; []].
Proof. vm_compute. reflexivity. Qed.

(** The forwards of a second replay of a prompt have no routes: the positions run on. *)
Example second_replay_bare : decodeAssignmentsForLayer TraceWorkloadProps.store_ex [0] {[0 := 2]} 0 = Some [].
Proof. vm_compute. reflexivity. Qed.

(** The timeline of two forwards recorded out of order, the second starting within the first. *)
Definition calls_ex : list profiledExecution :=
  [mkProfiled 120 120 (forward_ex "" {[0%nat := one]} {[1%nat := one]}); mkProfiled 100 100 (forward_ex "" {[1%nat := one]} {[2%nat := one]})].
Lemma calls_ex_timed : Forall (λ c, Timed (pe_execution c)) calls_ex.
Proof.
  assert (∀ phase a b, Timed (forward_ex phase a b)) as H; [|constructor; [apply H|constructor; [apply H|constructor]]].
  intros phase a b. constructor; [|constructor]. split; cbn; [lia|constructor; [cbn; lia|constructor; [cbn; lia|constructor]]|by apply (NoDup_seq 0 2)].
Qed.
Lemma profile_timeline_witness : ∃ marks flows,
  rebuiltEventsLocked (recordAll (newMoEProfileRecorder "p" 0) calls_ex) = tracksOf calls_ex ++ (eventOf 0 <$> marks) ∧
  (∀ i j s t, (i < j)%nat → omap slice marks !! i = Some s → omap slice marks !! j = Some t → s.1.1 = t.1.1 → s.1.2 ≤ s.2 ∧ s.2 ≤ t.1.2) ∧
  omap flowEnd marks = flowPairs 0 flows ∧ Attached marks marks ∧ Forall (DrawnWhole marks) calls_ex.
Proof. apply (profile_timeline "p" 0 calls_ex). exact calls_ex_timed. Defined.
Lemma profile_order_free_witness :
  rebuiltEventsLocked (recordAll (newMoEProfileRecorder "p" 0) calls_ex) = rebuiltEventsLocked (recordAll (newMoEProfileRecorder "p" 0) (rev calls_ex)).
Proof.
  apply (profile_order_free "p" 0 calls_ex (rev calls_ex)); [exact calls_ex_timed|apply Permutation_rev| |done].
  intros a b Ha Hb. unfold calls_ex in *. repeat (apply elem_of_cons in Ha as [->|Ha]); repeat (apply elem_of_cons in Hb as [->|Hb]); try done; by (apply elem_of_nil in Ha || apply elem_of_nil in Hb).
Defined.

End MoeProfileDecode.
