(* ===== verification/DatasetTool.v ===== *)
(** The dataset tool and the database of the custom dataset ([pkg/dataset/ds_tool.go],
    [ds_tool_config.go], [sqlite_helper.go], [utils.go]): the records made of recorded
    conversations, the transaction that stores them, the check of a database and the queries
    of the custom dataset.  The tokenizer, the hash and the database engine are parameters. *)

From S2P Require Import Prelude GoRandom TraceFormat Requests Dataset Response Wire ApiRequests Tokenizer.
From stdpp Require Import pretty.
Import Response Wire.
Open Scope Z_scope.

Module DatasetTool.

(** * Records *)

Record conversation := mkConversation { cv_Role : string; Value : string }.
Record datasetRecord := mkDatasetRecord { dr_ID : string; Conversations : list conversation }.
Record outputRecord := mkOutputRecord { PromptHash : list Z; NumGenTokens : Z; GenTokens : Dataset.Tokenized; InputText : string; Generated : string }.

(** [parseSourceJson]. *)
Definition decConversation : decoder conversation := decStruct (λ l c,
  role ← field "from" decString l (cv_Role c); value ← field "value" decString l (Value c); Some (mkConversation role value)).
Definition decRecord : decoder datasetRecord := decStruct (λ l r,
  id ← field "id" decString l (dr_ID r); cs ← field "conversations" (decList (mkConversation "" "") decConversation) l (Conversations r); Some (mkDatasetRecord id cs)).
Definition parseSourceJson (w : wire) : option (list datasetRecord) := decList (mkDatasetRecord "" []) decRecord [] w.

Section Tool.
Context {MM : Type}.
(** The tokenizer, and SHA-256. *)
Variable RenderText : string → result string Dataset.Tokenized.
Variable RenderMessages : list Message → result string (Dataset.Tokenized * option MM).
Variable Sum256 : list Z → list Z.

(** [getInputHash]: of the ids, four bytes each. *)
Definition hashInput (tokens : list Z) : list Z := concat (TraceFormat.putUint 4 <$> tokens).
Definition getInputHash (tokens : list Z) : list Z := Sum256 (hashInput tokens).

Definition createOutputRecord (inputTokens : list Z) (generatedText rawInput : string) : result string outputRecord :=
  match RenderText generatedText with
  | Err e => Err e
  | Ok t => Ok (mkOutputRecord (getInputHash inputTokens) (Z.of_nat (length (Dataset.Tokens t))) t rawInput generatedText)
  end.

Definition plainMessage (role text : string) : Message := mkMessage role (mkChatContent text []) [] "".

(** [conversationToOutputRecords]: the messages of the chat so far grow in place, with the
    question even where the records fail. *)
Definition conversationToOutputRecords (userTxt assistantTxt : string) (messages : list Message) : list Message * result string (list outputRecord) :=
  let messages := messages ++ [plainMessage "user" userTxt] in
  match RenderText userTxt with
  | Err e => (messages, Err e)
  | Ok input =>
      match createOutputRecord (Dataset.Tokens input) assistantTxt userTxt with
      | Err e => (messages, Err e)
      | Ok text =>
          match RenderMessages messages with
          | Err e => (messages, Err e)
          | Ok (input, _) =>
              match createOutputRecord (Dataset.Tokens input) assistantTxt (Tokenizer.FlattenMessages messages) with
              | Err e => (messages, Err e)
              | Ok chat => (messages ++ [plainMessage "assistant" assistantTxt], Ok [text; chat])
              end
          end
      end
  end.

Definition validConversationRole (question answer : conversation) : bool := (cv_Role question =? "human")%string && (cv_Role answer =? "gpt")%string.

(** The pairs of one source record. *)
Fixpoint recordsOfPairs (conversations : list conversation) (messages : list Message) : list outputRecord :=
  match conversations with
  | question :: answer :: rest =>
      if validConversationRole question answer then
        let '(messages, r) := conversationToOutputRecords (Value question) (Value answer) messages in
        match r with Ok l => l | Err _ => [] end ++ recordsOfPairs rest messages
      else []
  | _ => []
  end.
Definition toOutputRecords (records : list datasetRecord) : list outputRecord := concat ((λ r, recordsOfPairs (Conversations r) []) <$> records).

(** [loadData] after the file was read; [None] is the panic of a negative limit. *)
Definition limitRecords (maxRecords : Z) (records : list datasetRecord) : option (list datasetRecord) :=
  if maxRecords <=? Z.of_nat (length records) then (if maxRecords <? 0 then None else Some (take (Z.to_nat maxRecords) records)) else Some records.
Definition loadData (maxRecords : Z) (source : result string wire) : option (result string (list datasetRecord)) :=
  match source with
  | Err e => Some (Err e)
  | Ok w => match parseSourceJson w with None => Some (Err "unmarshal"%string) | Some records => Ok <$> limitRecords maxRecords records end
  end.

(** * The database *)

(** A row of the table: the JSON of the tokens is a tree. *)
Record row := mkRow { prompt_hash : list Z; gen_tokens : wire; n_gen_tokens : Z }.

(** The JSON form of [api.Tokenized], which has no field tags. *)
Definition encTokenized (t : Dataset.Tokenized) : wire := WObj [("Tokens"%string, WArr (encInt <$> Dataset.Tokens t)); ("Strings"%string, WArr (WStr <$> Dataset.Strings t))].
Definition decTokenized : decoder Dataset.Tokenized := decStruct (λ l t,
  tokens ← field "tokens" (decList 0 decUint32) l (Dataset.Tokens t); strings ← field "strings" (decList ""%string decString) l (Dataset.Strings t); Some (Dataset.mkTokenized tokens strings)).
Definition rowOf (r : outputRecord) : row := mkRow (PromptHash r) (encTokenized (GenTokens r)) (NumGenTokens r).

(** What the calls on the database return while records are stored; [executed i] is the insertion of
    record [i], [cancelled i] the context before it. *)
Record storeCalls := mkStoreCalls {
  openOk : bool; pingOk : bool; createOk : bool; beginOk : bool; prepareOk : bool; cancelled : nat → bool; executed : nat → bool; commitOk : bool }.

Fixpoint insertAll (c : storeCalls) (i : nat) (records : list outputRecord) : result string (list row) :=
  match records with
  | [] => Ok []
  | r :: records =>
      if cancelled c i then Err "operation cancelled"%string
      else if negb (executed c i) then Err "failed to insert record"%string
      else match insertAll c (S i) records with Err e => Err e | Ok rows => Ok (rowOf r :: rows) end
  end.

(** [storeToSQLite]: the rows of the table, if there is one; what is not committed is rolled back. *)
Definition storeToSQLite (c : storeCalls) (records : list outputRecord) (table : option (list row)) : option (list row) * result string () :=
  if negb (openOk c) then (table, Err "cannot open database"%string)
  else if negb (pingOk c) then (table, Err "failed to ping database"%string)
  else if negb (createOk c) then (table, Err "failed to create table"%string)
  else
    let rows := default [] table in
    if negb (beginOk c) then (Some rows, Err "failed to begin transaction"%string)
    else if negb (prepareOk c) then (Some rows, Err "failed to prepare statement"%string)
    else match insertAll c 0 records with
         | Err e => (Some rows, Err e)
         | Ok new => if commitOk c then (Some (rows ++ new), Ok ()) else (Some rows, Err "failed to commit transaction"%string)
         end.

(** ** Opening a database *)

Definition expectedColumns : list (string * string) :=
  [("id"%string, "INTEGER"%string); ("prompt_hash"%string, "BLOB"%string); ("gen_tokens"%string, "JSON"%string); ("n_gen_tokens"%string, "INTEGER"%string)].
Definition expectedType (name : string) : option string := snd <$> find (λ c, (c.1 =? name)%string) expectedColumns.

(** [verifyDB] on the rows of [PRAGMA table_info], each a name and a type. *)
Fixpoint scanColumns (rows : list (string * string)) (found : list string) : result string (list string) :=
  match rows with
  | [] => Ok found
  | (name, type) :: rows =>
      match expectedType name with
      | Some expected => if (type =? expected)%string then scanColumns rows (name :: found) else Err "incorrect type"%string
      | None => scanColumns rows found
      end
  end.
Definition verifyDB (info : result string (list (string * string))) : result string () :=
  match info with
  | Err e => Err e
  | Ok rows =>
      match scanColumns rows [] with
      | Err e => Err e
      | Ok found => if forallb (λ c, bool_decide (c.1 ∈ found)) expectedColumns then Ok () else Err "missing expected column"%string
      end
  end.

(** ** Queries *)

Variable tableName : string.
Definition buildQuery (where_ : string) (isRand isLimitOne : bool) : string :=
  "SELECT gen_tokens FROM " +:+ tableName +:+ (if (where_ =? "")%string then "" else " WHERE " +:+ where_) +:+ (if isRand then " ORDER BY RANDOM()" else "") +:+
  (if isLimitOne then " LIMIT 1" else "") +:+ ";".

(** [hex.EncodeToString]. *)
Definition hexByte (b : Z) : list Ascii.ascii := [Tokenizer.hexDigit (b / 16); Tokenizer.hexDigit (b mod 16)].
Definition getPromptHashHex (hash : list Z) : string := String.string_of_list_ascii (concat (hexByte <$> hash)).

Definition promptQuery (promptHashHex : string) : string := buildQuery ("prompt_hash=X'" +:+ promptHashHex +:+ "'") false false.
Definition lengthQuery (maxLen : Z) (isExact : bool) : string := buildQuery ("n_gen_tokens" +:+ (if isExact then "=" else "<=") +:+ pretty maxLen) true true.
Definition anyQuery : string := buildQuery "" true true.

(** [unmarshalAllRecords]. *)
Fixpoint unmarshalAllRecords (rows : list wire) : result string (list Dataset.Tokenized) :=
  match rows with
  | [] => Ok []
  | w :: rows =>
      match decTokenized (Dataset.mkTokenized [] []) w with
      | None => Err "failed to unmarshal tokens JSON"%string
      | Some t => match unmarshalAllRecords rows with Err e => Err e | Ok l => Ok (t :: l) end
      end
  end.

(** The engine: the column of the rows a query selects. *)
Variable Query : string → result string (list wire).
Definition query (q : string) : result string (list Dataset.Tokenized) := match Query q with Err e => Err e | Ok rows => unmarshalAllRecords rows end.
Definition getResponsesForPrompt (tokens : list Z) : result string (list Dataset.Tokenized) := query (promptQuery (getPromptHashHex (getInputHash tokens))).
Definition getResponsesForLen (maxLen : Z) (isExact : bool) : result string (list Dataset.Tokenized) := query (lengthQuery maxLen isExact).
Definition getRandomAnswer : result string (list Dataset.Tokenized) := query anyQuery.
End Tool.

(** * The configuration of the tool *)

Record DSToolConfiguration := mkToolConfig {
  hfRepo : string; localPath : string; inputFile : string; token : string; maxRecords : Z; renderURL : string; renderTimeout : Z; mmRenderTimeout : Z; tc_model : string; outputPath : string; outputFile : string; tc_tableName : string }.
Definition NewDefaultDSToolConfiguration : DSToolConfiguration := mkToolConfig "" "" "" "" 10000 "" 5000000000 30000000000 "" "" "inference-sim-dataset" "llmd".

Definition setHfRepo (v : string) (c : DSToolConfiguration) : DSToolConfiguration :=
  mkToolConfig v (localPath c) (inputFile c) (token c) (maxRecords c) (renderURL c) (renderTimeout c) (mmRenderTimeout c) (tc_model c) (outputPath c) (outputFile c) (tc_tableName c).
Definition setLocalPath (v : string) (c : DSToolConfiguration) : DSToolConfiguration :=
  mkToolConfig (hfRepo c) v (inputFile c) (token c) (maxRecords c) (renderURL c) (renderTimeout c) (mmRenderTimeout c) (tc_model c) (outputPath c) (outputFile c) (tc_tableName c).
Definition setInputFile (v : string) (c : DSToolConfiguration) : DSToolConfiguration :=
  mkToolConfig (hfRepo c) (localPath c) v (token c) (maxRecords c) (renderURL c) (renderTimeout c) (mmRenderTimeout c) (tc_model c) (outputPath c) (outputFile c) (tc_tableName c).
Definition setToken (v : string) (c : DSToolConfiguration) : DSToolConfiguration :=
  mkToolConfig (hfRepo c) (localPath c) (inputFile c) v (maxRecords c) (renderURL c) (renderTimeout c) (mmRenderTimeout c) (tc_model c) (outputPath c) (outputFile c) (tc_tableName c).
Definition setMaxRecords (v : Z) (c : DSToolConfiguration) : DSToolConfiguration :=
  mkToolConfig (hfRepo c) (localPath c) (inputFile c) (token c) v (renderURL c) (renderTimeout c) (mmRenderTimeout c) (tc_model c) (outputPath c) (outputFile c) (tc_tableName c).
Definition setRenderURL (v : string) (c : DSToolConfiguration) : DSToolConfiguration :=
  mkToolConfig (hfRepo c) (localPath c) (inputFile c) (token c) (maxRecords c) v (renderTimeout c) (mmRenderTimeout c) (tc_model c) (outputPath c) (outputFile c) (tc_tableName c).
Definition setRenderTimeout (v : Z) (c : DSToolConfiguration) : DSToolConfiguration :=
  mkToolConfig (hfRepo c) (localPath c) (inputFile c) (token c) (maxRecords c) (renderURL c) v (mmRenderTimeout c) (tc_model c) (outputPath c) (outputFile c) (tc_tableName c).
Definition setMmRenderTimeout (v : Z) (c : DSToolConfiguration) : DSToolConfiguration :=
  mkToolConfig (hfRepo c) (localPath c) (inputFile c) (token c) (maxRecords c) (renderURL c) (renderTimeout c) v (tc_model c) (outputPath c) (outputFile c) (tc_tableName c).
Definition setToolModel (v : string) (c : DSToolConfiguration) : DSToolConfiguration :=
  mkToolConfig (hfRepo c) (localPath c) (inputFile c) (token c) (maxRecords c) (renderURL c) (renderTimeout c) (mmRenderTimeout c) v (outputPath c) (outputFile c) (tc_tableName c).
Definition setOutputPath (v : string) (c : DSToolConfiguration) : DSToolConfiguration :=
  mkToolConfig (hfRepo c) (localPath c) (inputFile c) (token c) (maxRecords c) (renderURL c) (renderTimeout c) (mmRenderTimeout c) (tc_model c) v (outputFile c) (tc_tableName c).
Definition setOutputFile (v : string) (c : DSToolConfiguration) : DSToolConfiguration :=
  mkToolConfig (hfRepo c) (localPath c) (inputFile c) (token c) (maxRecords c) (renderURL c) (renderTimeout c) (mmRenderTimeout c) (tc_model c) (outputPath c) v (tc_tableName c).

(** The flags: a name, and the field and default it is bound to. *)
Inductive toolFlag :=
| StringVar (set : string → DSToolConfiguration → DSToolConfiguration) (default_ : string)
| IntVar (set : Z → DSToolConfiguration → DSToolConfiguration) (default_ : Z)
| DurationVar (set : Z → DSToolConfiguration → DSToolConfiguration) (default_ : Z).

(** The flags of [LoadConfig], in the order of their declarations; some defaults are the fields of
    the configuration. *)
Definition toolFlags (c : DSToolConfiguration) : list (string * toolFlag) :=
  [("hf-repo"%string, StringVar setHfRepo ""); ("local-path"%string, StringVar setLocalPath ""); ("input-file"%string, StringVar setInputFile "");
   ("output-file"%string, StringVar setOutputFile "inference-sim-dataset"); ("output-path"%string, StringVar setOutputPath ""); ("table-name"%string, StringVar setOutputPath "llmd");
   ("max-records"%string, IntVar setMaxRecords 10000); ("render-url"%string, StringVar setRenderURL (renderURL c)); ("render-timeout"%string, DurationVar setRenderTimeout (renderTimeout c));
   ("mm-render-timeout"%string, DurationVar setMmRenderTimeout (mmRenderTimeout c)); ("model"%string, StringVar setToolModel "")].

(** Declaring a flag assigns its default. *)
Definition declareFlag (c : DSToolConfiguration) (f : string * toolFlag) : DSToolConfiguration :=
  match f.2 with StringVar set d => set d c | IntVar set d | DurationVar set d => set d c end.
Definition declareFlags (c : DSToolConfiguration) : DSToolConfiguration := foldl declareFlag c (toolFlags c).

Section Load.
(** [path.Join], whether a file exists ([None]: it cannot be told), and the values of the flags
    library that are not text. *)
Variable Join : string → string → string.
Variable exists_ : string → option bool.
Variables parseInt parseDuration : string → option Z.

Definition assignFlag (f : toolFlag) (value : string) (c : DSToolConfiguration) : option DSToolConfiguration :=
  match f with StringVar set _ => Some (set value c) | IntVar set _ => (λ n, set n c) <$> parseInt value | DurationVar set _ => (λ n, set n c) <$> parseDuration value end.
(** The given flags are assigned in order; a flag that is not declared is an error. *)
Fixpoint assignFlags (args : list (string * string)) (declared : list (string * toolFlag)) (c : DSToolConfiguration) : option DSToolConfiguration :=
  match args with
  | [] => Some c
  | (name, value) :: args => f ← find (λ f, (f.1 =? name)%string) declared; c ← assignFlag f.2 value c; assignFlags args declared c
  end.

Definition getOutputFileName (c : DSToolConfiguration) (extension : string) : string := Join (outputPath c) (outputFile c +:+ extension).
Definition validateFileNotExist (path : string) : bool := match exists_ path with Some false => true | _ => false end.
Definition validateTool (c : DSToolConfiguration) : bool :=
  negb (tc_model c =? "")%string &&
  negb ((hfRepo c =? "")%string && (localPath c =? "")%string) && negb (negb (hfRepo c =? "")%string && negb (localPath c =? "")%string) &&
  negb (negb (hfRepo c =? "")%string && (inputFile c =? "")%string) && negb (negb (localPath c =? "")%string && (inputFile c =? "")%string) &&
  negb (renderURL c =? "")%string &&
  validateFileNotExist (getOutputFileName c ".sqlite3") && validateFileNotExist (getOutputFileName c ".json") && validateFileNotExist (getOutputFileName c ".md").

(** [LoadConfig] on parsed arguments. *)
Definition LoadConfig (args : list (string * string)) (HF_TOKEN : string) (c : DSToolConfiguration) : option DSToolConfiguration :=
  c ← assignFlags args (toolFlags c) (declareFlags c);
  let c := setToken HF_TOKEN c in if validateTool c then Some c else None.
End Load.

End DatasetTool.
