(* ===== verification/DatasetToolProps.v ===== *)
(** Properties of the dataset tool: the records of a conversation, their storage in one
    transaction, and the answers of the custom dataset to the prompts of the source. *)

From S2P Require Import Prelude GoFloat GoRandom TraceFormat Requests Dataset DatasetProps Response Wire ApiRequests Tokenizer DatasetTool.
From stdpp Require Import pretty.
Import GoRandom Response Wire DatasetTool.
Open Scope Z_scope.

Module DatasetToolProps.

(** * What a conversation holds *)

(** The turns before the first pair with other roles. *)
Fixpoint turns (conversations : list conversation) : list (string * string) :=
  match conversations with
  | q :: a :: rest => if validConversationRole q a then (Value q, Value a) :: turns rest else []
  | _ => []
  end.
Definition history (l : list (string * string)) : list Message := concat ((λ t, [plainMessage "user" t.1; plainMessage "assistant" t.2]) <$> l).

Section Tool.
Context {MM : Type}.
Variable text : string → Dataset.Tokenized.
Variable chat : list Message → Dataset.Tokenized.
Variable features : list Message → option MM.
Variable Sum256 : list Z → list Z.
Abbreviation RenderText := (λ s : string, Ok (E := string) (text s)).
Abbreviation RenderMessages := (λ l : list Message, Ok (E := string) (chat l, features l)).

Definition recordFor (tokens : Dataset.Tokenized) (answer input : string) : outputRecord :=
  mkOutputRecord (getInputHash Sum256 (Dataset.Tokens tokens)) (Z.of_nat (length (Dataset.Tokens (text answer)))) (text answer) input answer.

(** The two records of a turn: of the question alone and of the chat so far. *)
Definition recordsOfTurn (before : list (string * string)) (t : string * string) : list outputRecord :=
  let messages := history before ++ [plainMessage "user" t.1] in
  [recordFor (text t.1) t.2 t.1; recordFor (chat messages) t.2 (Tokenizer.FlattenMessages messages)].

Lemma history_snoc l t : history (l ++ [t]) = (history l ++ [plainMessage "user" t.1]) ++ [plainMessage "assistant" t.2].
Proof. unfold history. rewrite fmap_app, concat_app. cbn. by rewrite <- app_assoc. Qed.

Lemma pairs_ind {A} (P : list A → Prop) : P [] → (∀ a, P [a]) → (∀ a b l, P l → P (a :: b :: l)) → ∀ l, P l.
Proof. intros H0 H1 H2. fix IH 1. intros [|a [|b l]]; [done|done|]. apply H2, IH. Qed.

Lemma records_of_pairs conversations before :
  recordsOfPairs RenderText RenderMessages Sum256 conversations (history before) = concat (imap (λ i t, recordsOfTurn (before ++ take i (turns conversations)) t) (turns conversations)).
Proof.
  revert before. induction conversations as [|a|q a rest IH] using pairs_ind; intros before; [done|done|]. cbn [recordsOfPairs turns].
  destruct (validConversationRole q a); [|done]. unfold conversationToOutputRecords, createOutputRecord. cbn [imap concat]. rewrite app_nil_r.
  pose proof (history_snoc before (Value q, Value a)) as Hh. cbn [fst snd] in Hh. rewrite <- Hh, IH. apply (f_equal2 app); [done|]. f_equal. apply imap_ext. intros i t _. cbn [compose take]. by rewrite <- app_assoc.
Qed.
Lemma records_of_record conversations :
  recordsOfPairs RenderText RenderMessages Sum256 conversations [] = concat (imap (λ i t, recordsOfTurn (take i (turns conversations)) t) (turns conversations)).
Proof. exact (records_of_pairs conversations []). Qed.

(** * Storing and finding *)

Definition TokensOk (t : Dataset.Tokenized) : Prop := Forall (λ z, 0 ≤ z < 2 ^ 32) (Dataset.Tokens t).
Lemma list_read {A} zero (enc : A → wire) dec P (HC : Codec enc dec P) l cur : Forall P l → decList zero dec cur (WArr (enc <$> l)) = Some l.
Proof. intros H. unfold decList, decSlice. by rewrite (decElems_ok zero enc dec P HC l H). Qed.
Lemma tokenized_roundtrip t : TokensOk t → decTokenized (Dataset.mkTokenized [] []) (encTokenized t) = Some t.
Proof.
  intros Ht. destruct t as [tokens strings]. unfold decTokenized, encTokenized, decStruct. cbn [Dataset.Tokens Dataset.Strings] in *.
  assert (∀ {A} name (dec : decoder A) l cur, names name "Tokens" = true → names name "Strings" = false → field name dec [("Tokens"%string, l); ("Strings"%string, WArr (WStr <$> strings))] cur = dec cur l) as H1
    by (intros A name dec l cur E1 E2; unfold field; cbn [each fst snd]; rewrite E1, E2; by destruct (dec cur l)).
  rewrite (H1 _ "tokens"%string) by (vm_compute; reflexivity). rewrite (list_read 0 encInt decUint32 _ uint32_codec) by done. cbn [mbind option_bind].
  unfold field. cbn [each fst snd]. change (names "strings" "Tokens") with false. change (names "strings" "Strings") with true. cbn iota.
  rewrite (list_read ""%string WStr decString _ string_codec) by (by apply Forall_true). done.
Qed.
Lemma unmarshal_all l : Forall TokensOk l → unmarshalAllRecords (encTokenized <$> l) = Ok l.
Proof. induction 1 as [|t l Ht _ IH]; [done|]. cbn [fmap list_fmap unmarshalAllRecords]. by rewrite tokenized_roundtrip, IH. Qed.

Lemma insertAll_ok c i records new : insertAll c i records = Ok new → new = rowOf <$> records.
Proof.
  revert i new. induction records as [|r records IH]; intros i new; cbn [insertAll]; [by intros [= <-]|]. destruct (cancelled c i); [done|]. destruct (executed c i); [|done]. cbn.
  destruct (insertAll c (S i) records) as [rows|] eqn:E; [|done]. intros [= <-]. by rewrite (IH _ _ E).
Qed.

(** Records are stored all together or not at all. *)
Theorem store_all_or_nothing c records table table' res : storeToSQLite c records table = (table', res) →
  match res with Ok _ => table' = Some (default [] table ++ (rowOf <$> records)) | Err _ => default [] table' = default [] table end.
Proof.
  unfold storeToSQLite. destruct (openOk c), (pingOk c), (createOk c), (beginOk c), (prepareOk c); cbn; try (by intros [= <- <-]). destruct (insertAll c 0 records) as [new|] eqn:E; [|by intros [= <- <-]].
  destruct (commitOk c); intros [= <- <-]; [|done]. by rewrite (insertAll_ok _ _ _ _ E).
Qed.

Variable tableName : string.
Variable Query : string → result string (list wire).
Abbreviation records ds := (toOutputRecords RenderText RenderMessages Sum256 ds).

(** The engine selects the rows with the hash of the query. *)
Definition SelectsByHash (rows : list row) : Prop := ∀ tokens,
  Query (promptQuery tableName (getPromptHashHex (getInputHash Sum256 tokens))) = Ok (gen_tokens <$> filter (λ r, prompt_hash r = getInputHash Sum256 tokens) rows).

Lemma answers_of_prompt ds rows tokens : (∀ s, TokensOk (text s)) → rows = rowOf <$> records ds → SelectsByHash rows →
  getResponsesForPrompt Sum256 tableName Query tokens = Ok (GenTokens <$> filter (λ r, PromptHash r = getInputHash Sum256 tokens) (records ds)).
Proof.
  intros Ht -> Hq. unfold getResponsesForPrompt, query. rewrite Hq.
  assert (gen_tokens <$> filter (λ r, prompt_hash r = getInputHash Sum256 tokens) (rowOf <$> records ds) = encTokenized <$> (GenTokens <$> filter (λ r, PromptHash r = getInputHash Sum256 tokens) (records ds))) as ->.
  { clear Hq. induction (records ds) as [|r l IH]; [done|]. cbn [fmap list_fmap]. rewrite !filter_cons. change (prompt_hash (rowOf r)) with (PromptHash r). destruct (decide _); cbn [fmap list_fmap]; by rewrite IH. }
  apply unmarshal_all, Forall_fmap, Forall_forall. intros r Hr. apply list_elem_of_filter in Hr as [_ Hr]. unfold toOutputRecords in Hr.
  assert (∀ r, r ∈ records ds → ∃ s, GenTokens r = text s) as Hall; [|destruct (Hall r Hr) as [s E]; cbn; rewrite E; apply Ht].
  clear. intros r Hr. unfold toOutputRecords in Hr. apply list_elem_of_In, in_concat in Hr as (l & Hl & Hr). apply list_elem_of_In, list_elem_of_fmap in Hl as (dr & -> & _). rewrite records_of_record in Hr.
  apply in_concat in Hr as (k & Hk & Hr). apply list_elem_of_In, elem_of_lookup_imap in Hk as (i & t & -> & _). apply list_elem_of_In in Hr.
  repeat (apply elem_of_cons in Hr as [->|Hr]; [by eexists|]). by apply elem_of_nil in Hr.
Qed.

(** The prompts of a turn: the question as a text, and the chat so far with the question. *)
Definition PromptOf (r : datasetRecord) (answer : string) (prompt : Dataset.Tokenized) : Prop :=
  ∃ i question, turns (Conversations r) !! i = Some (question, answer) ∧ (prompt = text question ∨ prompt = chat (history (take i (turns (Conversations r))) ++ [plainMessage "user" question])).

Lemma turn_recorded ds r answer prompt : r ∈ ds → PromptOf r answer prompt → ∃ rec, rec ∈ records ds ∧ GenTokens rec = text answer ∧ PromptHash rec = getInputHash Sum256 (Dataset.Tokens prompt).
Proof.
  intros Hr (i & question & Hi & Hp). assert (∀ rec, rec ∈ recordsOfTurn (take i (turns (Conversations r))) (question, answer) → rec ∈ records ds) as Hin.
  { intros rec Hrec. unfold toOutputRecords. apply list_elem_of_In, in_concat. exists (recordsOfPairs RenderText RenderMessages Sum256 (Conversations r) []). split; [apply list_elem_of_In, list_elem_of_fmap; by exists r|].
    rewrite records_of_record. apply in_concat. eexists. split; [|by apply list_elem_of_In]. apply list_elem_of_In, elem_of_lookup_imap. by exists i, (question, answer). }
  destruct Hp as [-> | ->]; (eexists; split; [apply Hin|]); [left| |right; left|]; done.
Qed.

End Tool.

(** C21: what the dataset tool stores is what the custom dataset finds: after the records of a
    source were stored in a fresh database, asking with the tokens of any question of the source,
    alone or with its conversation so far, finds the recorded answer; every response it finds is one
    recorded for a prompt with the same hash (for the same tokens, if the hash has no collision); and
    the response to a request that has room for the answer and does not ignore the end of the text is
    one of the responses found that fit, complete, without a panic.  The tokenizer does not fail (a turn
    it fails on is not stored, and changes the chats after it) and its ids fit 32 bits; the database
    was written without an error, selects the rows with the hash asked for, and finds less than 2^62 of
    them; the random numbers are in their range. *)
Theorem stored_answers_found {MM} text chat (features : list Message → option MM) Sum256 tableName Query c ds rows r answer prompt :
  (∀ s, TokensOk (text s)) → storeToSQLite c (toOutputRecords (λ s, Ok (text s)) (λ l, Ok (chat l, features l)) Sum256 ds) None = (Some rows, Ok ()) →
  SelectsByHash Sum256 tableName Query rows → r ∈ ds → PromptOf text chat r answer prompt →
  let tokens := Dataset.Tokens prompt in
  ∃ l, getResponsesForPrompt Sum256 tableName Query tokens = Ok l ∧ text answer ∈ l ∧
    (∀ t, t ∈ l → ∃ rec, rec ∈ toOutputRecords (λ s, Ok (text s)) (λ l, Ok (chat l, features l)) Sum256 ds ∧ GenTokens rec = t ∧ PromptHash rec = getInputHash Sum256 tokens) ∧
    ∀ g d req k, GeneratorOk g → Requests.tokenizedPrompt req = Some tokens → Requests.IgnoreEOS req = false → Z.of_nat (length l) < 2 ^ 62 →
      Dataset.Length (text answer) ≤ (Dataset.calculateResponseMaxLen d req).1 →
      ∃ t reason k', Dataset.customResponse g (getResponsesForPrompt Sum256 tableName Query) (getResponsesForLen tableName Query) (getRandomAnswer tableName Query) d req k = Returns (Ok (t, reason)) k' ∧
        t ∈ l ∧ Dataset.Length t ≤ (Dataset.calculateResponseMaxLen d req).1.
Proof.
  intros Ht Hstore Hq Hr Hp tokens. pose proof (store_all_or_nothing _ _ _ _ _ Hstore) as [= Hrows].
  pose proof (answers_of_prompt text chat features Sum256 tableName Query ds rows tokens Ht Hrows Hq) as El. set (l := GenTokens <$> _) in El.
  destruct (turn_recorded text chat features Sum256 ds r answer prompt Hr Hp) as (rec & Hrec & Hg & Hh).
  assert (text answer ∈ l) as Hin. { rewrite <- Hg. apply list_elem_of_fmap_2, list_elem_of_filter. by split. }
  exists l. split_and!; [done|done| |].
  - intros t (rec' & -> & [H1 H2]%list_elem_of_filter)%list_elem_of_fmap. by exists rec'.
  - intros g d req k Hgen Hreq Heos Hlen Hfit. unfold Dataset.customResponse. destruct (Dataset.calculateResponseMaxLen d req) as [maxLen isMax]. cbn [fst] in *. rewrite Hreq. change (default [] (Some tokens)) with tokens. rewrite El.
    destruct l as [|t0 l0] eqn:E; [by apply elem_of_nil in Hin|]. rewrite <- E in *. clear E. rewrite Heos. unfold Dataset.matchedResponse, Dataset.categorizeResponses.
    destruct (filter (λ t, Dataset.Length t ≤ maxLen) l) as [|e es] eqn:Ef.
    { exfalso. assert (text answer ∈ filter (λ t, Dataset.Length t ≤ maxLen) l) as H by (apply list_elem_of_filter; by split). rewrite Ef in H. by apply elem_of_nil in H. }
    rewrite <- Ef. destruct (DatasetProps.getRandomResponse_ok g (filter (λ t, Dataset.Length t ≤ maxLen) l) k) as (t & E & Hin'); [by rewrite Ef|pose proof (length_filter (λ t, Dataset.Length t ≤ maxLen) l); lia|].
    unfold bind. rewrite E. apply list_elem_of_filter in Hin' as [H1 H2]. eexists _, _, _. split; [reflexivity|]. done.
Qed.

(** * Hashes *)

Lemma hashInput_inj a b : Forall (λ z, 0 ≤ z < 2 ^ 32) a → Forall (λ z, 0 ≤ z < 2 ^ 32) b → hashInput a = hashInput b → a = b.
Proof.
  intros Ha. revert b. induction Ha as [|x a Hx _ IH]; intros b Hb E; destruct Hb as [|y b Hy Hb]; [done|..]; cbn in E.
  - by apply (f_equal length) in E.
  - by apply (f_equal length) in E.
  - assert (TraceFormat.putUint 4 x = TraceFormat.putUint 4 y ∧ hashInput a = hashInput b) as [E1 E2] by (apply app_inj_1; [by rewrite !TraceFormat.putUint_length|exact E]).
    f_equal; [|by apply IH]. rewrite <- (TraceFormat.getUint_putUint 4 x), <- (TraceFormat.getUint_putUint 4 y), E1 by (cbn; lia). done.
Qed.

Definition IsByte (b : Z) : Prop := 0 ≤ b < 256.
Lemma hexDigit_inj d e : 0 ≤ d < 16 → 0 ≤ e < 16 → Tokenizer.hexDigit d = Tokenizer.hexDigit e → d = e.
Proof.
  intros Hd He E. apply (f_equal Ascii.N_of_ascii) in E. unfold Tokenizer.hexDigit in E. rewrite !Ascii.N_ascii_embedding in E by (destruct (d <? 10), (e <? 10); lia).
  destruct (Z.ltb_spec d 10), (Z.ltb_spec e 10); lia.
Qed.
Lemma hex_inj a b : Forall IsByte a → Forall IsByte b → getPromptHashHex a = getPromptHashHex b → a = b.
Proof.
  unfold getPromptHashHex. intros Ha Hb E. apply (f_equal String.list_ascii_of_string) in E. rewrite !String.list_ascii_of_string_of_list_ascii in E. revert b Hb E.
  induction Ha as [|x a Hx _ IH]; intros b Hb E; destruct Hb as [|y b Hy Hb]; [done..|]. cbn in E. injection E as E1 E2 E3. f_equal; [|by apply IH].
  unfold IsByte in *. pose proof (Z.div_mod x 16). pose proof (Z.div_mod y 16). pose proof (Z.mod_pos_bound x 16). pose proof (Z.mod_pos_bound y 16).
  apply hexDigit_inj in E1; [|split; [apply Z.div_pos; lia|apply Z.div_lt_upper_bound; lia]..]. apply hexDigit_inj in E2; lia.
Qed.

Lemma promptQuery_inj tableName a b : promptQuery tableName a = promptQuery tableName b → a = b.
Proof.
  unfold promptQuery, buildQuery. intros E. apply append_inj_l, append_inj_l in E. cbn [String.eqb String.append] in E. injection E as E. apply append_inj_r in E. exact (append_inj_r a b "'" E).
Qed.

(** An engine that compares texts selects by hash. *)
Definition engine (tableName : string) (rows : list row) (q : string) : result string (list wire) :=
  Ok (gen_tokens <$> filter (λ r, promptQuery tableName (getPromptHashHex (prompt_hash r)) = q) rows).
Lemma engine_selects Sum256 tableName rows : (∀ tokens, Forall IsByte (getInputHash Sum256 tokens)) → Forall (λ r, Forall IsByte (prompt_hash r)) rows → SelectsByHash Sum256 tableName (engine tableName rows) rows.
Proof.
  intros Hs Hr tokens. unfold engine. do 2 f_equal. induction Hr as [|r rows Hb _ IH]; [done|]. rewrite !filter_cons, IH.
  destruct (decide (promptQuery _ _ = _)) as [E|E], (decide (prompt_hash r = _)) as [E'|E']; [done| | |done].
  - destruct E'. apply hex_inj; [done|apply Hs|]. by apply promptQuery_inj in E.
  - destruct E. by rewrite E'.
Qed.

(** ** The check of a database *)

Lemma scanColumns_spec rows found : match scanColumns rows found with
  | Ok l => (∀ c t e, (c, t) ∈ rows → expectedType c = Some e → t = e) ∧ ∀ c, c ∈ l ↔ c ∈ found ∨ (is_Some (expectedType c) ∧ c ∈ rows.*1)
  | Err _ => ∃ c t e, (c, t) ∈ rows ∧ expectedType c = Some e ∧ t ≠ e
  end.
Proof.
  revert found. induction rows as [|[name type] rows IH]; intros found; cbn [scanColumns].
  - split; [by intros c t e ?%elem_of_nil|]. intros c. cbn. rewrite elem_of_nil. naive_solver.
  - destruct (expectedType name) as [e|] eqn:Ee.
    + destruct (String.eqb_spec type e) as [->|Hne]; [|exists name, type, e; split_and!; [left|done|done]]. specialize (IH (name :: found)). destruct (scanColumns rows (name :: found)) as [l|].
      * destruct IH as [H1 H2]. split; [intros c t e' [[= -> ->]|Hin]%elem_of_cons E'; [congruence|by eapply H1]|]. intros c. rewrite H2. cbn [fmap list_fmap fst]. rewrite !elem_of_cons. split; [|naive_solver].
        intros [[->|?]|[? ?]]; [right; split; [by exists e|by left]|by left|by auto].
      * destruct IH as (c & t & e' & Hin & H). exists c, t, e'. split; [by right|done].
    + specialize (IH found). destruct (scanColumns rows found) as [l|].
      * destruct IH as [H1 H2]. split; [intros c t e' [[= -> ->]|Hin]%elem_of_cons E'; [congruence|by eapply H1]|]. intros c. rewrite H2. cbn [fmap list_fmap fst]. rewrite elem_of_cons. split; [naive_solver|].
        intros [?|[[e' E'] [Ec|?]]]; [by left|subst c; by rewrite Ee in E'|by eauto].
      * destruct IH as (c & t & e' & Hin & H). exists c, t, e'. split; [by right|done].
Qed.

(** A database is accepted exactly when it has the expected columns with their types. *)
Theorem verifyDB_exact rows : verifyDB (Ok rows) = Ok () ↔
  (∀ c e, expectedType c = Some e → c ∈ rows.*1) ∧ (∀ c t e, (c, t) ∈ rows → expectedType c = Some e → t = e).
Proof.
  unfold verifyDB. pose proof (scanColumns_spec rows []) as H. destruct (scanColumns rows []) as [found|].
  - destruct H as [H1 H2]. assert (forallb (λ c, bool_decide (c.1 ∈ found)) expectedColumns = true ↔ ∀ c e, expectedType c = Some e → c ∈ rows.*1) as Hiff.
    { rewrite forallb_forall. split.
      - intros Hall c e E. unfold expectedType in E. destruct (find _ _) as [[n t]|] eqn:Ef; [|done]. apply find_some in Ef as [Hin En%String.eqb_eq]. cbn in En. subst n.
        specialize (Hall _ Hin). apply bool_decide_eq_true in Hall. cbn in Hall. apply H2 in Hall as [[]%elem_of_nil|[_ Hc]]. done.
      - intros Hall [n t] Hin. apply bool_decide_eq_true. cbn. apply H2. right. assert (is_Some (expectedType n)) as Hs by (repeat (destruct Hin as [[= <- <-]|Hin]; [by eexists|]); done).
        split; [done|]. destruct Hs as [e He]. by eapply Hall. }
    destruct (forallb _ _); split; [intros _; split; [by apply Hiff|exact H1]|done|done|]. intros [Hall _]. exfalso. by apply Hiff in Hall.
  - split; [done|]. intros [_ Hall]. destruct H as (c & t & ty & Hin & E & Hne). by destruct Hne; eapply Hall.
Qed.
Example created_table_accepted : verifyDB (Ok expectedColumns) = Ok ().
Proof. reflexivity. Qed.

(** * Examples *)

Definition source_ex : list datasetRecord :=
  [mkDatasetRecord "test" [mkConversation "human" "human q1"; mkConversation "gpt" "gpt a1"; mkConversation "human" "human q2"; mkConversation "gpt" "gpt a2"; mkConversation "system" "end"]].
Definition chat_ex (l : list Message) : Dataset.Tokenized := match Tokenizer.RenderMessages l with Ok (t, _) => t | Err _ => Dataset.mkTokenized [] [] end.
Definition records_ex : list outputRecord := toOutputRecords (λ s, Ok (Tokenizer.tokenize s)) (λ l, Ok (chat_ex l, @None ())) (λ l, l) source_ex.
Definition calls_ok : storeCalls := mkStoreCalls true true true true true (λ _, false) (λ _, true) true.

Lemma simple_tokens_ok s : TokensOk (Tokenizer.tokenize s).
Proof.
  unfold TokensOk, Tokenizer.tokenize, Tokenizer.stringsToUint32sHash. cbn. apply Forall_fmap, Forall_forall. intros x _. cbn. unfold Tokenizer.fnv32.
  assert (∀ l h, 0 ≤ h < 2 ^ 32 → 0 ≤ foldl Tokenizer.fnvStep h l < 2 ^ 32) as H; [|by apply H].
  induction l as [|b l IH]; intros h Hh; [done|]. cbn. apply IH. unfold Tokenizer.fnvStep. pose proof (u32_range (Z.lxor h b * 16777619)). unfold max_u32 in *. lia.
Qed.

(** The second answer of a conversation is found by its whole history. *)
Lemma stored_answers_found_witness :
  let chat := chat_ex ([plainMessage "user" "human q1"; plainMessage "assistant" "gpt a1"] ++ [plainMessage "user" "human q2"]) in
  let tokens := Dataset.Tokens chat in let rows := rowOf <$> records_ex in
  ∃ l, getResponsesForPrompt (λ l, l) "llmd" (engine "llmd" rows) tokens = Ok l ∧ Tokenizer.tokenize "gpt a2" ∈ l ∧
    (∀ t, t ∈ l → ∃ rec, rec ∈ records_ex ∧ GenTokens rec = t ∧ PromptHash rec = getInputHash (λ l, l) tokens) ∧
    ∀ g d req k, GeneratorOk g → Requests.tokenizedPrompt req = Some tokens → Requests.IgnoreEOS req = false → Z.of_nat (length l) < 2 ^ 62 →
      Dataset.Length (Tokenizer.tokenize "gpt a2") ≤ (Dataset.calculateResponseMaxLen d req).1 →
      ∃ t reason k', Dataset.customResponse g (getResponsesForPrompt (λ l, l) "llmd" (engine "llmd" rows)) (getResponsesForLen "llmd" (engine "llmd" rows)) (getRandomAnswer "llmd" (engine "llmd" rows)) d req k = Returns (Ok (t, reason)) k' ∧
        t ∈ l ∧ Dataset.Length t ≤ (Dataset.calculateResponseMaxLen d req).1.
Proof.
  cbv zeta. apply (stored_answers_found Tokenizer.tokenize chat_ex (λ _, @None ()) (λ l, l) "llmd" (engine "llmd" (rowOf <$> records_ex)) calls_ok source_ex (rowOf <$> records_ex)
    (mkDatasetRecord "test" [mkConversation "human" "human q1"; mkConversation "gpt" "gpt a1"; mkConversation "human" "human q2"; mkConversation "gpt" "gpt a2"; mkConversation "system" "end"]) "gpt a2").
  - exact simple_tokens_ok.
  - vm_compute. reflexivity.
  - assert (∀ tokens, Forall IsByte (getInputHash (λ l, l) tokens)) as Hb.
    { intros tokens. apply Forall_concat, Forall_fmap, Forall_forall. intros z _. exact (TraceFormat.putUint_bytes 4 z). }
    apply engine_selects; [exact Hb|]. apply Forall_fmap. repeat (constructor; [apply Hb|]). constructor.
  - left.
  - exists 1%nat, "human q2"%string. split; [reflexivity|]. right. reflexivity.
Defined.

(** The flag for the name of the table is bound to the output path: its default replaces the default
    path, and a name given for the table becomes the directory of the output. *)
Example table_name_is_path :
  outputPath (declareFlags NewDefaultDSToolConfiguration) = "llmd"%string ∧
  (λ c, (outputPath c, tc_tableName c)) <$> LoadConfig (λ a b, a +:+ "/" +:+ b) (λ _, Some false) (λ _, None) (λ _, None)
    [("model", "m"); ("local-path", "in"); ("input-file", "f.json"); ("render-url", "http://r"); ("output-path", "/data"); ("table-name", "mine")]%string ""
    NewDefaultDSToolConfiguration = Some ("mine", "llmd")%string.
Proof. done. Qed.

(** The reference text of a chat record has no separators between its messages. *)
Example flattened_history : InputText <$> records_ex = ["human q1"; "user: human q1"; "human q2"; "user: human q1assistant: gpt a1user: human q2"]%string.
Proof. vm_compute. reflexivity. Qed.

End DatasetToolProps.
