(* ===== verification/StartOptions.v ===== *)
(** The options that are only read at start-up ([pkg/simulator/start_options.go]): their
    extraction from the command line, and the start of the simulators with them. *)

From S2P Require Import Prelude GoFloat TraceFormat TraceFile Moe TraceWorkload TraceFidelity.
From stdpp Require Import pretty.
Import TraceFormat TraceFile Moe TraceWorkload TraceFidelity.

Module StartOptions.

Record StartOptions := mkStartOptions { MoETracePath : string; MoEFixedPlacementPath : string; MoEProfileOutput : string; MoECountRouterRuntime : bool }.

(** * Command line *)

Inductive pathFlag := Trace | Placement | Profile.
#[export] Instance pathFlag_eq : EqDecision pathFlag.
Proof. solve_decision. Defined.
Definition flagName (f : pathFlag) : string :=
  match f with Trace => "--moe-trace-path" | Placement => "--moe-fixed-placement-path" | Profile => "--moe-profile-output" end.
Definition countName : string := "--moe-count-router-runtime".

(** What was seen so far; a flag that was not seen has no value. *)
Record seen := mkSeen { seenPath : pathFlag → option string; seenCount : option bool }.
Definition nothing : seen := mkSeen (λ _, None) None.
Definition setPath (f : pathFlag) (v : string) (s : seen) : seen := mkSeen (λ g, if decide (g = f) then Some v else seenPath s g) (seenCount s).
Definition setCount (b : bool) (s : seen) : seen := mkSeen (seenPath s) (Some b).

(** [strings.TrimPrefix] after [strings.HasPrefix]. *)
Fixpoint after (prefix arg : string) : option string :=
  match prefix, arg with
  | EmptyString, _ => Some arg
  | String a p, String b s => if Ascii.eqb a b then after p s else None
  | _, _ => None
  end.

(** [strconv.ParseBool]. *)
Definition ParseBool (s : string) : option bool :=
  if existsb (String.eqb s) ["1"; "t"; "T"; "TRUE"; "true"; "True"]%string then Some true
  else if existsb (String.eqb s) ["0"; "f"; "F"; "FALSE"; "false"; "False"]%string then Some false else None.

Inductive optionError :=
| ErrTwice (name : string) | ErrNoPath (f : pathFlag) | ErrNotBool (value : string) | ErrEmptyPath (f : pathFlag) | ErrNeedsTrace (name : string).

(** How an argument is written. *)
Inductive form := FlagAlone (f : pathFlag) | FlagWith (f : pathFlag) (v : string) | CountAlone | CountWith (v : string) | Plain.
Definition pathForm (f : pathFlag) (arg : string) : option form :=
  if (arg =? flagName f)%string then Some (FlagAlone f) else FlagWith f <$> after (flagName f +:+ "=") arg.
(** The cases of the switch, in order. *)
Definition formOf (arg : string) : form :=
  match pathForm Trace arg with
  | Some x => x
  | None =>
      match pathForm Placement arg with
      | Some x => x
      | None =>
          match pathForm Profile arg with
          | Some x => x
          | None =>
              if (arg =? countName)%string then CountAlone
              else match after (countName +:+ "=") arg with Some v => CountWith v | None => Plain end
          end
      end
  end.

Fixpoint scan (args : list string) (s : seen) (remaining : list string) : result optionError (seen * list string) :=
  match args with
  | [] => Ok (s, remaining)
  | arg :: rest =>
      if (arg =? "--")%string then Ok (s, remaining ++ args)
      else
        match formOf arg with
        | FlagAlone f =>
            match seenPath s f with
            | Some _ => Err (ErrTwice (flagName f))
            | None => match rest with [] => Err (ErrNoPath f) | v :: rest => scan rest (setPath f v s) remaining end
            end
        | FlagWith f v => match seenPath s f with Some _ => Err (ErrTwice (flagName f)) | None => scan rest (setPath f v s) remaining end
        | CountAlone => match seenCount s with Some _ => Err (ErrTwice countName) | None => scan rest (setCount true s) remaining end
        | CountWith v =>
            match seenCount s with
            | Some _ => Err (ErrTwice countName)
            | None => match ParseBool v with Some b => scan rest (setCount b s) remaining | None => Err (ErrNotBool v) end
            end
        | Plain => scan rest s (remaining ++ [arg])
        end
  end.

Definition pathOf (s : seen) (f : pathFlag) : string := default "" (seenPath s f).
Definition emptyPath (s : seen) (f : pathFlag) : bool := match seenPath s f with Some v => (v =? "")%string | None => false end.

(** The checks after the scan. *)
Definition finishOptions (s : seen) (remaining : list string) : result optionError (StartOptions * list string) :=
  if emptyPath s Trace then Err (ErrEmptyPath Trace)
  else if emptyPath s Placement then Err (ErrEmptyPath Placement)
  else if emptyPath s Profile then Err (ErrEmptyPath Profile)
  else if negb (pathOf s Placement =? "")%string && (pathOf s Trace =? "")%string then Err (ErrNeedsTrace (flagName Placement))
  else if negb (pathOf s Profile =? "")%string && (pathOf s Trace =? "")%string then Err (ErrNeedsTrace (flagName Profile))
  else if match seenCount s with Some _ => true | None => false end && (pathOf s Trace =? "")%string then Err (ErrNeedsTrace countName)
  else Ok (mkStartOptions (pathOf s Trace) (pathOf s Placement) (pathOf s Profile) (default false (seenCount s)), remaining).

(** [ParseStartOptions]. *)
Definition ParseStartOptions (args : list string) : result optionError (StartOptions * list string) :=
  match scan args nothing [] with Err e => Err e | Ok (s, remaining) => finishOptions s remaining end.

(** * Starting *)

Definition trimGz (s : string) : string * string :=
  let n := String.length s in
  if (3 <=? n)%nat && (String.substring (n - 3) 3 s =? ".gz")%string then (String.substring 0 (n - 3) s, ".gz"%string) else (s, ""%string).

(** The file of the profile of a rank. *)
Definition profilePathOf (output : string) (ranks index : nat) : string :=
  if (1 <? ranks)%nat then let '(base, suffix) := trimGz output in base +:+ "." +:+ pretty index +:+ suffix else output.

Inductive startError :=
| ErrEnableMoE | ErrParallelSize | ErrSlotsDivisible | ErrTraceFile | ErrTraceStore (e : storeError) | ErrStart (message : string)
| ErrPlacementFile | ErrFidelity (e : fidelityError + placementError) | ErrProfiler (path : string).

(** A rank: its MoE simulator if it has one, and what it is given: the options of the replay, the
    file of its profile, and the store of its data set. *)
Record rank := mkRank { rk_moe : option moeSimulator; rk_fidelity : option traceFidelityConfig; rk_profile : option string; rk_store : option moeTraceStore }.
Definition bareRank (moe : option moeSimulator) : rank := mkRank moe None None None.
(** A simulator that [InitializeSim] has started: whether its goroutines still run, and
    its MoE simulator.  [Stop] cancels their context. *)
Record simulator := mkSim { sim_running : bool; sim_moe : option moeSimulator }.
Definition stopSim (s : simulator) : simulator := mkSim false (sim_moe s).
(** The outcome: the ranks that serve, or an error and the simulators that were started. *)
Inductive started := Running (ranks : list rank) | Failed (e : startError) (sims : list simulator).

Section Start.
Variable model : string.
Variable c : Configuration.
(** The files that can be read, the documents in them, and the environment; the number of
    simulators that [Start] builds, or the error of the data set, the tokenizer or one of
    them; what [InitializeSim] of a rank returns; the files that can be created. *)
Variable readTrace : string → option bytes.
Variable unmarshal : bytes → option Metadata.
Variable readPlacement : string → option fixedPlacementFile.
Variable env : fidelityEnv.
Variable build : result string nat.
Variable InitializeSim : nat → result string (option moeSimulator).
Variable creates : string → bool.

(** [configureTraceFidelity] of a rank, with the file of the placement; [None] is a placement for a
    rank without a simulator. *)
Definition configureRank (o : StartOptions) (moe : option moeSimulator) : option (result startError (traceFidelityConfig * option moeSimulator)) :=
  match applyTraceFidelityEnvironment env c (presetFidelity model c (MoECountRouterRuntime o)) with
  | Err e => Some (Err (ErrFidelity (inl e)))
  | Ok f =>
      if (MoEFixedPlacementPath o =? "")%string then Some (Ok (f, moe))
      else match readPlacement (MoEFixedPlacementPath o) with
           | None => Some (Err ErrPlacementFile)
           | Some data =>
               s ← moe;
               Some (match configureTraceFidelity model c env (Some data) (MoECountRouterRuntime o) s with
                     | Err e => Err (ErrFidelity e) | Ok (f, s) => Ok (f, Some s) end)
           end
  end.

Definition installRank (o : StartOptions) (store : moeTraceStore) (ranks index : nat) (moe : option moeSimulator) : option (result startError rank) :=
  r ← configureRank o moe;
  Some (match r with
        | Err e => Err e
        | Ok (f, moe) =>
            if (MoEProfileOutput o =? "")%string then Ok (mkRank moe (Some f) None (Some store))
            else
              let profilePath := profilePathOf (MoEProfileOutput o) ranks index in
              if creates profilePath then Ok (mkRank moe (Some f) (Some profilePath) (Some store)) else Err (ErrProfiler profilePath)
        end).

(** The loop over the ranks stops at the first error. *)
Fixpoint installAll (o : StartOptions) (store : moeTraceStore) (ranks index : nat) (moes : list (option moeSimulator)) : option (result startError (list rank)) :=
  match moes with
  | [] => Some (Ok [])
  | moe :: moes =>
      r ← installRank o store ranks index moe;
      match r with
      | Err e => Some (Err e)
      | Ok r => rest ← installAll o store ranks (S index) moes; Some (match rest with Err e => Err e | Ok l => Ok (r :: l) end)
      end
  end.

(** The part before the ranks are started. *)
Definition loadTrace (o : StartOptions) : option (result startError (option moeTraceStore)) :=
  if (MoETracePath o =? "")%string then Some (Ok None)
  else if negb (EnableMoE c) then Some (Err ErrEnableMoE)
  else if (MoEExpertParallelSize c <=? 0)%Z then Some (Err ErrParallelSize)
  else if negb (Z.rem (MoEPhysicalExpertSlots c) (MoEExpertParallelSize c) =? 0)%Z then Some (Err ErrSlotsDivisible)
  else match readTrace (MoETracePath o) with
       | None => Some (Err ErrTraceFile)
       | Some file => r ← loadMoETraceStore unmarshal file model c; Some (match r with Err e => Err (ErrTraceStore e) | Ok s => Ok (Some s) end)
       end.

(** The second loop of [Start]: the ranks are initialised in turn; an error returns at
    once, with the earlier ranks running. *)
Fixpoint initializeAll (index n : nat) : list simulator * option string :=
  match n with
  | O => ([], None)
  | S n =>
      match InitializeSim index with
      | Err e => ([], Some e)
      | Ok moe => let '(sims, e) := initializeAll (S index) n in (mkSim true moe :: sims, e)
      end
  end.
Definition Start : list simulator * option string :=
  match build with Err e => ([], Some e) | Ok n => initializeAll 0 n end.

(** [StartWithOptions]; [None] is a panic. *)
Definition StartWithOptions (o : StartOptions) : option started :=
  store ← loadTrace o;
  match store with
  | Err e => Some (Failed e [])
  | Ok store =>
      match Start with
      | (sims, Some e) => Some (Failed (ErrStart e) sims)
      | (sims, None) =>
          match store with
          | None => Some (Running (bareRank ∘ sim_moe <$> sims))
          | Some store =>
              let cleanup := stopSim <$> sims in
              r ← installAll o store (length sims) 0 (sim_moe <$> sims);
              Some (match r with Err e => Failed e cleanup | Ok l => Running l end)
          end
      end
  end.
End Start.

End StartOptions.
