(* ===== verification/StartOptionsProps.v ===== *)
(** The command lines that are accepted by [ParseStartOptions], and what they mean; the files
    of the profiles of the ranks. *)

From S2P Require Import Prelude GoFloat TraceFormat TraceFile Moe MoeProps TraceWorkload TraceWorkloadProps TraceFidelity TraceForward TraceBenchmark StartOptions.
From stdpp Require Import pretty.
Import TraceFormat TraceFile Moe MoeProps TraceWorkload TraceWorkloadProps TraceFidelity TraceForward TraceBenchmark.
Import StartOptions.

Module StartOptionsProps.

(** * Command lines as lists of options *)

Inductive argument := Arg (a : string) | PathArg (f : pathFlag) (inline : bool) (v : string) | CountArg (v : option string).
Definition spell (x : argument) : list string :=
  match x with
  | Arg a => [a]
  | PathArg f true v => [flagName f +:+ "=" +:+ v]
  | PathArg f false v => [flagName f; v]
  | CountArg None => [countName]
  | CountArg (Some v) => [countName +:+ "=" +:+ v]
  end.
(** An argument of the other parser is none of the options and does not end them. *)
Definition Other (a : string) : Prop := a ≠ "--"%string ∧ formOf a = Plain.
Definition ItemOk (x : argument) : Prop := match x with Arg a => Other a | _ => True end.
Definition plains (l : list argument) : list string := omap (λ x, match x with Arg a => Some a | _ => None end) l.
Definition pathsOf (f : pathFlag) (l : list argument) : list string := omap (λ x, match x with PathArg g _ v => if decide (g = f) then Some v else None | _ => None end) l.
Definition countOf (v : option string) : option bool := match v with None => Some true | Some v => ParseBool v end.
Definition countValues (l : list argument) : list (option bool) := omap (λ x, match x with CountArg v => Some (countOf v) | _ => None end) l.

(** * Spelling *)

Lemma after_app p v : after p (p +:+ v) = Some v.
Proof. induction p as [|a p IH]; [done|]. change (String a p +:+ v) with (String a (p +:+ v)). cbn [after]. by rewrite Ascii.eqb_refl. Qed.
Lemma after_Some p a v : after p a = Some v → a = p +:+ v.
Proof.
  revert a. induction p as [|x p IH]; intros a; [by intros [= ->]|]. destruct a as [|y a]; [done|]. cbn [after]. destruct (Ascii.eqb_spec x y) as [->|]; [|done]. intros E%IH. exact (f_equal (String y) E).
Qed.

Lemma form_path f v : formOf (flagName f +:+ "=" +:+ v) = FlagWith f v.
Proof. by destruct f. Qed.
Lemma form_alone f : formOf (flagName f) = FlagAlone f.
Proof. by destruct f. Qed.
Lemma form_count v : formOf (countName +:+ "=" +:+ v) = CountWith v.
Proof. done. Qed.
Lemma formOf_inv a : match formOf a with
  | FlagAlone f => a = flagName f | FlagWith f v => a = flagName f +:+ "=" +:+ v
  | CountAlone => a = countName | CountWith v => a = countName +:+ "=" +:+ v | Plain => True end.
Proof.
  assert (∀ f x, pathForm f a = Some x → match x with FlagAlone g => a = flagName g | FlagWith g v => a = flagName g +:+ "=" +:+ v | _ => False end) as Hp.
  { intros f x. unfold pathForm. destruct (String.eqb_spec a (flagName f)) as [->|]; [by intros [= <-]|]. destruct (after _ a) as [v|] eqn:E; [|done]. intros [= <-]. apply after_Some in E. by rewrite <- append_assoc in E. }
  unfold formOf. destruct (pathForm Trace a) as [x|] eqn:E1; [apply Hp in E1; by destruct x|]. destruct (pathForm Placement a) as [x|] eqn:E2; [apply Hp in E2; by destruct x|].
  destruct (pathForm Profile a) as [x|] eqn:E3; [apply Hp in E3; by destruct x|]. destruct (String.eqb_spec a countName); [done|]. destruct (after _ a) as [v|] eqn:E; [|done]. apply after_Some in E. by rewrite <- append_assoc in E.
Qed.
Lemma not_dashes f v : (flagName f =? "--")%string = false ∧ (flagName f +:+ "=" +:+ v =? "--")%string = false.
Proof. by destruct f. Qed.

(** * What the scan has seen *)

Definition Described (s : seen) (paths : pathFlag → list string) (counts : list (option bool)) : Prop :=
  (∀ f, seenPath s f = head (paths f) ∧ length (paths f) ≤ 1) ∧ (Some <$> seenCount s) = head counts ∧ length counts ≤ 1.

(** The state after some options: none of them twice, and every count a boolean. *)
Fixpoint run (l : list argument) (s : seen) : option seen :=
  match l with
  | [] => Some s
  | Arg _ :: l => run l s
  | PathArg f _ v :: l => match seenPath s f with Some _ => None | None => run l (setPath f v s) end
  | CountArg v :: l => match seenCount s, countOf v with None, Some b => run l (setCount b s) | _, _ => None end
  end.

Lemma scan_run l tail s remaining : Forall ItemOk l → match run l s with
  | Some s' => scan (concat (spell <$> l) ++ tail) s remaining = scan tail s' (remaining ++ plains l)
  | None => is_ok (scan (concat (spell <$> l) ++ tail) s remaining) = false
  end.
Proof.
  intros H. revert s remaining. induction H as [|x l Hx _ IH]; intros s remaining; [cbn; by rewrite app_nil_r|]. cbn [fmap list_fmap concat run]. rewrite <- app_assoc.
  destruct x as [a|f inline v|v]; cbn [ItemOk] in Hx.
  - destruct Hx as [Hd Hf]. cbn [spell app scan]. rewrite (proj2 (String.eqb_neq _ _) Hd), Hf. specialize (IH s (remaining ++ [a])). destruct (run l s) as [s'|]; [|done]. rewrite IH, <- app_assoc. done.
  - assert (scan (spell (PathArg f inline v) ++ concat (spell <$> l) ++ tail) s remaining = match seenPath s f with Some _ => Err (ErrTwice (flagName f)) | None => scan (concat (spell <$> l) ++ tail) (setPath f v s) remaining end) as ->.
    { destruct (not_dashes f v) as [E1 E2]. destruct inline; cbn [spell app scan]; [by rewrite E2, form_path|by rewrite E1, form_alone]. }
    destruct (seenPath s f); [done|]. apply IH.
  - assert (scan (spell (CountArg v) ++ concat (spell <$> l) ++ tail) s remaining =
      match seenCount s with Some _ => Err (ErrTwice countName) | None => match countOf v with Some b => scan (concat (spell <$> l) ++ tail) (setCount b s) remaining | None => Err (ErrNotBool (default "" v)) end end) as -> by (by destruct v).
    destruct (seenCount s); [done|]. destruct (countOf v); [apply IH|done].
Qed.

Lemma run_described l s paths counts : Described s paths counts → match run l s with
  | Some s' => Described s' (λ f, paths f ++ pathsOf f l) (counts ++ countValues l) ∧ Forall is_Some (countValues l)
  | None => ¬ (∀ f, length (paths f ++ pathsOf f l) ≤ 1) ∨ ¬ length (counts ++ countValues l) ≤ 1 ∨ None ∈ countValues l
  end.
Proof.
  revert s paths counts. induction l as [|x l IH]; intros s paths counts Hs; cbn [run].
  - cbn. rewrite app_nil_r. split; [|constructor]. destruct Hs as (H1 & H2 & H3). split_and!; [intros f; rewrite app_nil_r; apply H1|done|done].
  - destruct x as [a|f inline v|v]; [exact (IH s paths counts Hs)| |].
    + destruct Hs as (H1 & H2 & H3). destruct (seenPath s f) as [w|] eqn:E.
      { left. intros Hall. specialize (Hall f). destruct (H1 f) as [E1 _]. rewrite E in E1. cbn in Hall. rewrite decide_True, length_app in Hall by done. destruct (paths f); [done|]. cbn in Hall. lia. }
      specialize (IH (setPath f v s) (λ g, paths g ++ if decide (f = g) then [v] else []) counts).
      assert (∀ g, (paths g ++ if decide (f = g) then [v] else []) ++ pathsOf g l = paths g ++ pathsOf g (PathArg f inline v :: l)) as Hg.
      { intros g. rewrite <- app_assoc. cbn. by destruct (decide (f = g)). }
      destruct (run l (setPath f v s)) as [s'|].
      * destruct IH as [(I1 & I2) I3]; [|split; [split; [intros g; rewrite <- Hg; apply I1|exact I2]|exact I3]]. split; [|by split]. intros g. cbn. destruct (H1 g) as [E1 E2].
        destruct (decide (g = f)) as [->|Hne]; [rewrite decide_True by done; rewrite E in E1; by destruct (paths f)|]. rewrite decide_False, app_nil_r by done. done.
      * destruct IH as [Hn|Hn]; [|left; intros Hall; apply Hn; intros g; rewrite Hg; apply Hall|by right].
        split; [|by split]. intros g. cbn. destruct (H1 g) as [E1 E2]. destruct (decide (g = f)) as [->|Hne]; [rewrite decide_True by done; rewrite E in E1; by destruct (paths f)|]. rewrite decide_False, app_nil_r by done. done.
    + destruct Hs as (H1 & H2 & H3). destruct (seenCount s) as [b|] eqn:E.
      { right. left. cbn. rewrite length_app. destruct counts; [done|]. cbn. lia. }
      destruct (countOf v) as [b|] eqn:Ev; [|right; right; cbn; rewrite Ev; left]. assert (counts = []) as -> by (by destruct counts).
      assert (Described (setCount b s) paths [Some b]) as Hd by (split; [done|by cbn; auto]). specialize (IH (setCount b s) paths [Some b] Hd). cbn [countValues omap list_omap]. rewrite Ev.
      destruct (run l (setCount b s)) as [s'|]; [destruct IH as [I1 I2]; split; [exact I1|by constructor; [eexists|]]|].
      destruct IH as [?|[?|?]]; [by left|by right; left|right; right; by right].
Qed.

(** * The accepted command lines *)

(** What follows the options: nothing, or two dashes and anything. *)
Definition Ends (tail : list string) : Prop := match tail with [] => True | a :: _ => a = "--"%string end.

Lemma cons_item x l tail : spell x ++ concat (spell <$> l) ++ tail = concat (spell <$> x :: l) ++ tail.
Proof. cbn. by rewrite <- app_assoc. Qed.
Lemma split_args args : ∃ l tail, args = concat (spell <$> l) ++ tail ∧ Forall ItemOk l ∧ (Ends tail ∨ ∃ f, tail = [flagName f]).
Proof.
  induction args as [args IH] using (induction_ltof1 _ length). unfold ltof in IH. destruct args as [|a args]; [exists [], []; split_and!; [done|constructor|by left]|].
  destruct (decide (a = "--"%string)) as [->|Hd]; [exists [], ("--"%string :: args); split_and!; [done|constructor|by left]|].
  assert (∀ x rest, a :: args = spell x ++ rest → ItemOk x → length rest < length (a :: args) → ∃ l tail, a :: args = concat (spell <$> l) ++ tail ∧ Forall ItemOk l ∧ (Ends tail ∨ ∃ f, tail = [flagName f])) as Hone.
  { intros x rest E Hx Hlen. destruct (IH rest Hlen) as (l & tail & -> & Hl & Ht). exists (x :: l), tail. rewrite E, cons_item. split_and!; [done|by constructor|done]. }
  pose proof (formOf_inv a) as Hf. destruct (formOf a) as [f|f v| |v|] eqn:E.
  - subst a. destruct args as [|v args]; [exists [], [flagName f]; split_and!; [done|constructor|right; by exists f]|]. apply (Hone (PathArg f false v) args); [done|done|cbn; lia].
  - subst a. by apply (Hone (PathArg f true v) args); [|done|cbn; lia].
  - subst a. by apply (Hone (CountArg None) args); [|done|cbn; lia].
  - subst a. by apply (Hone (CountArg (Some v)) args); [|done|cbn; lia].
  - by apply (Hone (Arg a) args); [|split|cbn; lia].
Qed.

(** Each option once and with a value, and the trace where another option needs it. *)
Record Accepted (l : list argument) : Prop := mkAccepted {
  ac_once : ∀ f, length (pathsOf f l) ≤ 1; ac_count : length (countValues l) ≤ 1; ac_paths : ∀ f, ""%string ∉ pathsOf f l; ac_bool : None ∉ countValues l;
  ac_trace : pathsOf Trace l = [] → pathsOf Placement l = [] ∧ pathsOf Profile l = [] ∧ countValues l = [] }.
Definition optionsOf (l : list argument) : StartOptions :=
  mkStartOptions (default "" (head (pathsOf Trace l))) (default "" (head (pathsOf Placement l))) (default "" (head (pathsOf Profile l))) (default false (mjoin (head (countValues l)))).

Lemma finishOptions_eq l s rest : Described s (λ f, pathsOf f l) (countValues l) → finishOptions s rest =
  if match head (pathsOf Trace l) with Some v => (v =? "")%string | None => false end then Err (ErrEmptyPath Trace)
  else if match head (pathsOf Placement l) with Some v => (v =? "")%string | None => false end then Err (ErrEmptyPath Placement)
  else if match head (pathsOf Profile l) with Some v => (v =? "")%string | None => false end then Err (ErrEmptyPath Profile)
  else if negb (default "" (head (pathsOf Placement l)) =? "")%string && (default "" (head (pathsOf Trace l)) =? "")%string then Err (ErrNeedsTrace (flagName Placement))
  else if negb (default "" (head (pathsOf Profile l)) =? "")%string && (default "" (head (pathsOf Trace l)) =? "")%string then Err (ErrNeedsTrace (flagName Profile))
  else if match countValues l with [] => false | _ => true end && (default "" (head (pathsOf Trace l)) =? "")%string then Err (ErrNeedsTrace countName)
  else Ok (optionsOf l, rest).
Proof.
  intros (Hp & Hc & _). unfold finishOptions, emptyPath, pathOf, optionsOf. destruct (Hp Trace) as [-> _], (Hp Placement) as [-> _], (Hp Profile) as [-> _].
  assert (default false (seenCount s) = default false (mjoin (head (countValues l)))) as -> by (rewrite <- Hc; by destruct (seenCount s)).
  by assert (match seenCount s with Some _ => true | None => false end = match countValues l with [] => false | _ => true end) as -> by (by destruct (seenCount s), (countValues l)).
Qed.
Lemma at_most_one {A} (l : list A) : length l ≤ 1 → l = [] ∨ ∃ v, l = [v].
Proof. destruct l as [|v [|w l]]; cbn; [by left|right; by exists v|lia]. Qed.

Lemma finishOptions_ok l s rest : Described s (λ f, pathsOf f l) (countValues l) → Accepted l → finishOptions s rest = Ok (optionsOf l, rest).
Proof.
  intros Hd [H1 H2 H3 H4 H5]. rewrite (finishOptions_eq l s rest Hd). clear Hd H4.
  assert (∀ f, pathsOf f l = [] ∨ ∃ v, pathsOf f l = [v] ∧ (v =? "")%string = false) as Hf.
  { intros f. destruct (at_most_one _ (H1 f)) as [E|[v E]]; [by left|]. right. exists v. split; [done|]. apply String.eqb_neq. intros ->. apply (H3 f). rewrite E. left. }
  destruct (Hf Trace) as [E|(v & E & Ev)].
  - destruct (H5 E) as (-> & -> & ->). by rewrite E.
  - rewrite E. cbn [head hd_error default]. rewrite !Ev. destruct (Hf Placement) as [->|(p & -> & Ep)], (Hf Profile) as [->|(o & -> & Eo)]; cbn [head hd_error default id]; rewrite ?Ep, ?Eo, ?Ev, ?andb_false_r; cbn [negb andb]; done.
Qed.
Lemma finishOptions_inv l s rest x : Described s (λ f, pathsOf f l) (countValues l) → None ∉ countValues l → finishOptions s rest = Ok x → Accepted l ∧ x = (optionsOf l, rest).
Proof.
  intros Hd Hb. rewrite (finishOptions_eq l s rest Hd). destruct Hd as (Hp & _ & Hn). assert (∀ f, length (pathsOf f l) ≤ 1) as H1 by (intros f; apply Hp). clear Hp s.
  assert (∀ f, pathsOf f l = [] ∨ ∃ v, pathsOf f l = [v]) as Hf by (intros f; by apply at_most_one).
  destruct (match head (pathsOf Trace l) with Some v => _ | None => _ end) eqn:E1; [done|]. destruct (match head (pathsOf Placement l) with Some v => _ | None => _ end) eqn:E2; [done|].
  destruct (match head (pathsOf Profile l) with Some v => _ | None => _ end) eqn:E3; [done|].
  destruct (_ && _) eqn:E4; [done|]. destruct (_ && _) eqn:E5 in |- *; [done|]. destruct (_ && _) eqn:E6 in |- *; [done|]. intros [= <-]. split; [|done].
  assert (∀ f, match head (pathsOf f l) with Some v => (v =? "")%string | None => false end = false) as He by (by intros []).
  assert (∀ f, ""%string ∉ pathsOf f l) as H3.
  { intros f Hin. specialize (He f). destruct (Hf f) as [E|[v E]]; rewrite E in Hin, He; [by apply elem_of_nil in Hin|]. apply list_elem_of_singleton in Hin. subst v. done. }
  constructor; [done|done|done|done|]. intros Et. rewrite Et in E4, E5, E6. cbn in E4, E5, E6. rewrite andb_true_r in E4, E5, E6. split_and!.
  - destruct (Hf Placement) as [?|[v E]]; [done|]. exfalso. apply (H3 Placement). rewrite E in E4 |- *. cbn in E4. apply negb_false_iff, String.eqb_eq in E4 as ->. left.
  - destruct (Hf Profile) as [?|[v E]]; [done|]. exfalso. apply (H3 Profile). rewrite E in E5 |- *. cbn in E5. apply negb_false_iff, String.eqb_eq in E5 as ->. left.
  - by destruct (countValues l).
Qed.

Lemma scan_ends tail s remaining : Ends tail → scan tail s remaining = Ok (s, remaining ++ tail).
Proof. destruct tail as [|a tail]; cbn; [by rewrite app_nil_r|]. by intros ->. Qed.
Lemma described_nothing : Described nothing (λ _, []) [].
Proof. split; [by cbn; auto|by cbn; auto]. Qed.

(** C35: a command line is accepted exactly when it is a sequence of start-up options, in either
    spelling, and of arguments for the other parser, up to the end or to two dashes, in which every
    start-up option occurs at most once with a value, and none without the trace; the options are then
    those written, and the other parser gets all other arguments in their order. *)
Theorem start_options_exact args o rest : ParseStartOptions args = Ok (o, rest) ↔
  ∃ l tail, args = concat (spell <$> l) ++ tail ∧ Forall ItemOk l ∧ Ends tail ∧ Accepted l ∧ o = optionsOf l ∧ rest = plains l ++ tail.
Proof.
  unfold ParseStartOptions. split.
  - destruct (split_args args) as (l & tail & -> & Hl & Ht). pose proof (scan_run l tail nothing [] Hl) as Hs. pose proof (run_described l nothing _ _ described_nothing) as Hr.
    destruct (run l nothing) as [s|]; [|intros H; by destruct (scan _ _ _)]. rewrite Hs. destruct Hr as [Hd Hb]. cbn [app] in Hd. destruct Ht as [He|[f ->]].
    + rewrite scan_ends by done. intros H. apply (finishOptions_inv l) in H as [Ha [= -> ->]]; [|done|intros Hin; rewrite Forall_forall in Hb; by apply Hb in Hin as [? ?]].
      exists l, tail. done.
    + cbn [scan]. destruct (not_dashes f "") as [-> _]. rewrite form_alone. by destruct (seenPath s f).
  - intros (l & tail & -> & Hl & He & Ha & -> & ->). pose proof (scan_run l tail nothing [] Hl) as Hs. pose proof (run_described l nothing _ _ described_nothing) as Hr.
    destruct (run l nothing) as [s|]; [|destruct Ha as [A1 A2 _ A4 _]; cbn in Hr; by destruct Hr as [Hr|[Hr|Hr]]]. rewrite Hs, scan_ends by done. destruct Hr as [Hd _]. by apply finishOptions_ok.
Qed.

(** * The ranks *)

(** The options of the replay keep what the command line asked for. *)
Lemma preset_keeps model c count : countRouterRuntime (presetFidelity model c count) = count ∧ fixedPlacement (presetFidelity model c count) = false.
Proof.
  unfold presetFidelity. set (o := if containsString _ _ then _ else _). assert (countRouterRuntime o = count ∧ fixedPlacement o = false) as [E1 E2] by (unfold o; by destruct (containsString _ _)).
  destruct (_ && _); [done|]. by destruct (_ && _).
Qed.
Lemma environment_keeps env c f f' : applyTraceFidelityEnvironment env c f = Ok f' → countRouterRuntime f' = countRouterRuntime f ∧ fixedPlacement f' = fixedPlacement f.
Proof.
  unfold applyTraceFidelityEnvironment. intros H. destruct (match env_shared env with None => _ | Some _ => _ end) as [o|] eqn:Eo; [|done]. cbn [res_bind] in H.
  assert (countRouterRuntime o = countRouterRuntime f ∧ fixedPlacement o = fixedPlacement f) as [E1 E2].
  { destruct (env_shared env) as [[n|]|]; [|done|by injection Eo as <-]. destruct (n <? 0)%Z; [done|]. injection Eo as <-. unfold setSharedExpertCost. by destruct (n <=? 0)%Z. }
  repeat (match type of H with context [envFloat ?a ?b ?d] => destruct (envFloat a b d) | context [envInt ?a ?b ?d ?e] => destruct (envInt a b d e) end; [|done]). by injection H as <-.
Qed.

Section Ranks.
Variables (model : string) (c : Configuration) (env : fidelityEnv) (readPlacement : string → option fixedPlacementFile) (creates : string → bool) (m : moeParams).
Hypothesis Hslots : 1 ≤ physicalSlots m.

(** What a rank is given. *)
Record Installed (o : StartOptions) (store : moeTraceStore) (ranks index : nat) (r : rank) : Prop := mkInstalled {
  in_moe : ∃ s, rk_moe r = Some s ∧ SimOk m s;
  in_fidelity : ∃ f, rk_fidelity r = Some f ∧ countRouterRuntime f = MoECountRouterRuntime o ∧ fixedPlacement f = negb (MoEFixedPlacementPath o =? "")%string;
  in_profile : rk_profile r = if (MoEProfileOutput o =? "")%string then None else Some (profilePathOf (MoEProfileOutput o) ranks index);
  in_store : rk_store r = Some store }.

Lemma configureRank_ok o s : SimOk m s → ∃ r, configureRank model c readPlacement env o (Some s) = Some r ∧
  match r with Ok (f, s') => (∃ s2, s' = Some s2 ∧ SimOk m s2) ∧ countRouterRuntime f = MoECountRouterRuntime o ∧ fixedPlacement f = negb (MoEFixedPlacementPath o =? "")%string | Err _ => True end.
Proof.
  intros Hs. unfold configureRank. destruct (applyTraceFidelityEnvironment _ _ _) as [f|] eqn:E; [|by eexists]. destruct (preset_keeps model c (MoECountRouterRuntime o)) as [P1 P2].
  destruct (environment_keeps _ _ _ _ E) as [E1 E2]. destruct (MoEFixedPlacementPath o =? "")%string; [eexists; split; [done|]; split; [by exists s|by rewrite E1, E2]|].
  destruct (readPlacement _) as [data|]; [|by eexists]. cbn [mbind option_bind]. eexists. split; [done|]. destruct (configureTraceFidelity _ _ _ _ _ _) as [[f' s']|] eqn:Ec; [|done].
  split; [exists s'; split; [done|]; by eapply configure_sim|]. unfold configureTraceFidelity in Ec. rewrite E in Ec. destruct (installFixedPlacement data s); [|done]. injection Ec as <- _. cbn. by rewrite E1.
Qed.

Lemma installAll_ok o store ranks moes index : Forall (λ x, ∃ s, x = Some s ∧ SimOk m s) moes → ∃ r, installAll model c readPlacement env creates o store ranks index moes = Some r ∧
  match r with Ok l => length l = length moes ∧ ∀ i x, l !! i = Some x → Installed o store ranks (index + i) x | Err _ => True end.
Proof.
  intros H. revert index. induction H as [|x moes (s & -> & Hs) _ IH]; intros index; cbn [installAll]; [by eexists|]. unfold installRank.
  destruct (configureRank_ok o s Hs) as (r & -> & Hr). cbn [mbind option_bind]. destruct r as [[f s']|]; [|by eexists]. destruct Hr as (Hm & Hc & Hp).
  assert (∀ x, Installed o store ranks index x → ∃ r, (rest ← installAll model c readPlacement env creates o store ranks (S index) moes; Some (match rest with Err e => Err e | Ok l => Ok (x :: l) end)) = Some r ∧
    match r with Ok l => length l = length (Some s :: moes) ∧ ∀ i x, l !! i = Some x → Installed o store ranks (index + i) x | Err _ => True end) as Hrest.
  { intros x Hx. destruct (IH (S index)) as (rest & -> & Hl). cbn [mbind option_bind]. eexists. split; [done|]. destruct rest as [l|]; [|done]. destruct Hl as [Hlen Hl]. cbn. split; [by rewrite Hlen|].
    intros [|i] y; [intros [= <-]; by rewrite Nat.add_0_r|]. intros Hy. rewrite <- Nat.add_succ_comm. by apply Hl. }
  destruct (MoEProfileOutput o =? "")%string eqn:Ee; [apply Hrest; constructor; eauto; by rewrite Ee|]. destruct (creates _); [|by eexists]. apply Hrest. constructor; eauto. by rewrite Ee.
Qed.
End Ranks.

(** The files of the profiles of different ranks are different. *)
Lemma profile_paths_differ output n i j : i < n → j < n → profilePathOf output n i = profilePathOf output n j → i = j.
Proof.
  unfold profilePathOf. destruct (Nat.ltb_spec 1 n); [|lia]. intros _ _. destruct (trimGz output) as [base suffix]. intros E. apply append_inj_l, append_inj_l, append_inj_r in E. by apply (inj pretty) in E.
Qed.

(** The ranks that [Start] leaves running, up to the first that fails. *)
Lemma initializeAll_ok (P : option moeSimulator → Prop) init index n :
  (∀ i x, init i = Ok x → P x) →
  let '(sims, e) := initializeAll init index n in
  Forall (λ s, sim_running s = true ∧ P (sim_moe s)) sims ∧
  match e with None => length sims = n | Some e => length sims < n ∧ init (index + length sims) = Err e end.
Proof.
  intros HP. revert index. induction n as [|n IH]; intros index; cbn [initializeAll]; [done|].
  destruct (init index) as [x|e] eqn:E; [|split; [done|]; cbn; rewrite Nat.add_0_r; split; [lia|done]].
  specialize (IH (S index)). destruct (initializeAll init (S index) n) as [sims e]. destruct IH as [Hs He]. split; [constructor; [split; [done|by eapply HP]|done]|].
  destruct e as [e|]; cbn; [rewrite <- Nat.add_succ_comm; destruct He; split; [lia|done]|by rewrite He].
Qed.

(** What is left of a start that failed with the error [e]: nothing was started, or all
    the ranks were started and all are stopped, or the initialisation of a rank failed,
    and the ranks before it are running. *)
Definition LeftBehind (build : result string nat) (init : nat → result string (option moeSimulator)) (e : startError) (sims : list simulator) : Prop :=
  (sims = [] ∧ ((∀ msg, e ≠ ErrStart msg) ∨ ∃ msg, e = ErrStart msg ∧ build = Err msg)) ∨
  (build = Ok (length sims) ∧ (∀ msg, e ≠ ErrStart msg) ∧ Forall (λ s, sim_running s = false) sims) ∨
  (∃ n msg, build = Ok n ∧ length sims < n ∧ init (length sims) = Err msg ∧ e = ErrStart msg ∧ Forall (λ s, sim_running s = true) sims).

Lemma installAll_error model c readPlacement env creates o store ranks moes index e :
  installAll model c readPlacement env creates o store ranks index moes = Some (Err e) → ∀ msg, e ≠ ErrStart msg.
Proof.
  revert index. induction moes as [|moe moes IH]; intros index; cbn [installAll]; [done|].
  destruct (installRank _ _ _ _ _ _ _ _ _ _) as [[r|e']|] eqn:E; [| |done]; cbn [mbind option_bind].
  - destruct (installAll _ _ _ _ _ _ _ _ (S index) _) as [[l|e']|] eqn:E'; [done| |done]. cbn [mbind option_bind]. intros [= ->]. by eapply IH.
  - intros [= ->] msg. unfold installRank, configureRank in E. simplify_option_eq. repeat case_match; simplify_option_eq; repeat case_match; by simplify_eq.
Qed.

(** C34: a start with a trace that can be read, over a machine whose ranks come up with
    well-formed simulators where they come up, does not panic.  It gives every rank the
    one loaded store, the replay options asked for and a profile file of its own, and
    keeps its simulator well-formed; or it fails before any rank is started; or it fails
    on a rank's options or profile, and every rank that was started is stopped; or a rank
    cannot be initialised, and then exactly the ranks before it are left running, since
    [Start] returns without stopping them ([failed_start_leaks]). *)
Theorem start_installs_trace model c readTrace unmarshal readPlacement env creates m o file build init :
  MoETracePath o ≠ ""%string → readTrace (MoETracePath o) = Some file → Forall byte_ok file → (Z.of_nat (length file) < 2 ^ 63)%Z →
  1 ≤ physicalSlots m → (∀ i x, init i = Ok x → ∃ s, x = Some s ∧ SimOk m s) →
  ∃ r, StartWithOptions model c readTrace unmarshal readPlacement env build init creates o = Some r ∧
  match r with
  | Running ranks => EnableMoE c = true ∧ (0 < MoEExpertParallelSize c)%Z ∧ Z.rem (MoEPhysicalExpertSlots c) (MoEExpertParallelSize c) = 0%Z ∧ build = Ok (length ranks) ∧
      ∃ rd store, Open unmarshal file = Ok rd ∧ StoreOk model c rd store ∧
        (∀ i x, ranks !! i = Some x → Installed m o store (length ranks) i x) ∧
        ∀ i j x y, ranks !! i = Some x → ranks !! j = Some y → is_Some (rk_profile x) → rk_profile x = rk_profile y → i = j
  | Failed e sims => LeftBehind build init e sims
  end.
Proof.
  intros Ht Hr Hby Hsz Hslots Hinit. unfold StartWithOptions, loadTrace. rewrite (proj2 (String.eqb_neq _ _) Ht), Hr.
  destruct (EnableMoE c); [|by eexists; split; [done|left; split; [done|left]]]. cbn [negb].
  destruct (Z.leb_spec (MoEExpertParallelSize c) 0); [by eexists; split; [done|left; split; [done|left]]|].
  destruct (Z.eqb_spec (Z.rem (MoEPhysicalExpertSlots c) (MoEExpertParallelSize c)) 0); [|by eexists; split; [done|left; split; [done|left]]]. cbn [negb].
  destruct (loadMoETraceStore_ok unmarshal file model c Hby Hsz) as (res & -> & Hres). cbn [mbind option_bind].
  destruct res as [store|]; [|by eexists; split; [done|left; split; [done|left]]]. destruct Hres as (rd & Ho & Hst).
  unfold Start. destruct build as [n|msg]; [|eexists; split; [done|]; left; split; [done|]; right; by exists msg].
  pose proof (initializeAll_ok (λ x, ∃ s, x = Some s ∧ SimOk m s) init 0 n Hinit) as Hs. destruct (initializeAll init 0 n) as [sims [msg|]]; destruct Hs as [Hs Hn].
  { eexists. split; [done|]. right; right. exists n, msg. destruct Hn. split_and!; [done..|]. eapply Forall_impl; [exact Hs|]. by intros x []. }
  assert (Forall (λ x, ∃ s, x = Some s ∧ SimOk m s) (sim_moe <$> sims)) as Hm by (apply Forall_fmap; eapply Forall_impl; [exact Hs|]; by intros x []).
  destruct (installAll_ok model c env readPlacement creates m Hslots o store (length sims) _ 0 Hm) as (r & E & Hl). rewrite E. cbn [mbind option_bind]. eexists. split; [done|].
  destruct r as [ranks|e0]. 2: { right; left. rewrite length_fmap, Hn. split_and!; [done|by eapply installAll_error|]. by apply Forall_fmap, Forall_true. }
  destruct Hl as [Hlen Hl]. rewrite length_fmap in Hlen. cbn [Nat.add] in Hl. rewrite <- Hlen in Hl. split_and!; [done|lia|done|by rewrite Hlen, Hn|]. exists rd, store. split_and!; [done|done|done|].
  intros i j x y Hx Hy Hp E'. rewrite (in_profile _ _ _ _ _ _ (Hl _ _ Hx)) in E', Hp. rewrite (in_profile _ _ _ _ _ _ (Hl _ _ Hy)) in E'.
  destruct (MoEProfileOutput o =? "")%string; [by destruct Hp|]. injection E' as E'. apply lookup_lt_Some in Hx, Hy. by eapply profile_paths_differ; [..|exact E'].
Qed.

(** * Examples *)

Definition items_ex : list argument := [Arg "--model"; Arg "m"; PathArg Trace false "t.moetrace"; CountArg (Some "false"%string); PathArg Profile true "p.json.gz"].
Example parse_ex : ParseStartOptions ["--model"; "m"; "--moe-trace-path"; "t.moetrace"; "--moe-count-router-runtime=false"; "--moe-profile-output=p.json.gz"; "--"; "--moe-trace-path"]%string =
  Ok (mkStartOptions "t.moetrace" "" "p.json.gz" false, ["--model"; "m"; "--"; "--moe-trace-path"]%string).
Proof. reflexivity. Qed.
(** An option that needs the trace is refused without it even where it asks for the default. *)
Example count_needs_trace : ParseStartOptions ["--moe-count-router-runtime=false"]%string = Err (ErrNeedsTrace countName).
Proof. reflexivity. Qed.
Example rank_files : profilePathOf "p.json.gz" 2 1 = "p.json.1.gz"%string ∧ profilePathOf "p.json.gz" 1 0 = "p.json.gz"%string.
Proof. done. Qed.

Definition start_ex : StartOptions := mkStartOptions "t.moetrace" "" "p.json.gz" true.
Definition trace_ex (path : string) : option bytes := if (path =? "t.moetrace")%string then Some busyBytes else None.
(** Two ranks of the example: the second writes its own profile. *)
Lemma start_installs_trace_witness : ∃ s ranks, newMoESimulator MoeProps.Pow_ex exConfig = Some s ∧
  StartWithOptions "m" exConfig trace_ex (λ _, Some busyDoc) (λ _, None) exEnv (Ok 2) (λ _, Ok (Some s)) (λ _, true) start_ex = Some (Running ranks) ∧
  ∃ rd store, Open (λ _, Some busyDoc) busyBytes = Ok rd ∧ StoreOk "m" exConfig rd store ∧ ∀ i x, ranks !! i = Some x → Installed (params s) start_ex store 2 i x.
Proof.
  destruct ex_sim as (s & Es & HI & _).
  assert (1 ≤ physicalSlots (params s)) as Hslots.
  { assert ((λ s, physicalSlots (params s)) <$> newMoESimulator MoeProps.Pow_ex exConfig = Some 4) as E by (vm_compute; reflexivity). rewrite Es in E. injection E as ->. lia. }
  destruct (start_installs_trace "m" exConfig trace_ex (λ _, Some busyDoc) (λ _, None) exEnv (λ _, true) (params s) start_ex busyBytes (Ok 2) (λ _, Ok (Some s))) as (r & E & Hr).
  - done.
  - reflexivity.
  - apply Forall_forall. intros b Hb. assert (forallb (λ b, (0 <=? b) && (b <? 256))%Z busyBytes = true) as Hall by (vm_compute; reflexivity). rewrite forallb_forall in Hall. apply list_elem_of_In in Hb. apply Hall in Hb. unfold byte_ok. lia.
  - vm_compute. reflexivity.
  - exact Hslots.
  - intros i x [= <-]. by exists s.
  - destruct r as [ranks|e n]; [|exfalso; clear - E; vm_compute in E; discriminate E].
    exists s, ranks. split; [exact Es|]. split; [exact E|]. destruct Hr as (_ & _ & _ & Hn & rd & store & Ho & Hst & Hl & _). exists rd, store. split_and!; [exact Ho|exact Hst|]. injection Hn as Hn. rewrite Hn. exact Hl.
Defined.

(** A rank that cannot be initialised leaves the ranks before it running. *)
Example failed_start_leaks :
  StartWithOptions "m" exConfig trace_ex (λ _, Some busyDoc) (λ _, None) exEnv (Ok 2)
    (λ i, if decide (i = 1) then Err "address already in use"%string else Ok None) (λ _, true) (mkStartOptions "" "" "" false) =
  Some (Failed (ErrStart "address already in use") [mkSim true None]).
Proof. vm_compute. reflexivity. Qed.

End StartOptionsProps.
