(* ===== verification/BenchClient.v ===== *)
(** The benchmark clients ([scripts/moe_trace_all_prompts_benchmark/main.go] and
    [scripts/moe_simulated_expert_mapping_benchmark/main.go]): the reading of a stream of a
    chat completion, the times taken from it, the collection of the results and their
    summary.  The two clients differ in what they expect of a stream.  Clocks, the HTTP
    client and the parser of JSON texts are parameters. *)

From S2P Require Import Prelude GoFloat TraceFormat Moe Logprobs Response Wire ApiRequests.
Import Response Wire.
Open Scope Z_scope.

Module BenchClient.

(** * Lines *)

(** [bufio.ScanLines]: the lines of a text; an empty last one is none. *)
Definition isNewline (a : Ascii.ascii) : bool := Ascii.eqb a (Ascii.ascii_of_nat 10).
Fixpoint scanLines (s : string) : list string :=
  match s with
  | EmptyString => []
  | String a r => if isNewline a then ""%string :: scanLines r else match scanLines r with [] => [String a ""] | l :: ls => String a l :: ls end
  end.
(** The scanner fails on a line that does not fit its buffer with its end. *)
Definition maxLine : Z := 2 ^ 20.
Definition tooLong (line : string) : bool := maxLine <=? Z.of_nat (String.length line).

(** [strings.TrimSpace] on UTF-8: the white space of Unicode has one, two or three bytes. *)
Definition space1 (a : Z) : bool := ((9 <=? a) && (a <=? 13)) || (a =? 32).
Definition space2 (a b : Z) : bool := (a =? 194) && ((b =? 133) || (b =? 160)).
Definition space3 (a b c : Z) : bool :=
  ((a =? 225) && (b =? 154) && (c =? 128)) ||
  ((a =? 226) && (b =? 128) && (((128 <=? c) && (c <=? 138)) || (c =? 168) || (c =? 169) || (c =? 175))) ||
  ((a =? 226) && (b =? 129) && (c =? 159)) || ((a =? 227) && (b =? 128) && (c =? 128)).
Fixpoint trimLeft (l : list Z) : list Z :=
  match l with
  | a :: r =>
      if space1 a then trimLeft r
      else match r with
           | b :: r2 => if space2 a b then trimLeft r2 else match r2 with c :: r3 => if space3 a b c then trimLeft r3 else l | [] => l end
           | [] => l
           end
  | [] => []
  end.
(** On the reversed text. *)
Fixpoint trimLast (l : list Z) : list Z :=
  match l with
  | c :: r =>
      if space1 c then trimLast r
      else match r with
           | b :: r2 => if space2 b c then trimLast r2 else match r2 with a :: r3 => if space3 a b c then trimLast r3 else l | [] => l end
           | [] => l
           end
  | [] => []
  end.
Definition bytesOf (s : string) : list Z := (λ a, Z.of_nat (Ascii.nat_of_ascii a)) <$> String.list_ascii_of_string s.
Definition textOf (l : list Z) : string := String.string_of_list_ascii ((λ b, Ascii.ascii_of_nat (Z.to_nat b)) <$> l).
Definition TrimSpace (s : string) : string := textOf (rev (trimLast (rev (trimLeft (bytesOf s))))).

(** [strings.TrimPrefix] after [strings.HasPrefix]. *)
Fixpoint withoutPrefix (prefix s : string) : option string :=
  match prefix, s with
  | EmptyString, _ => Some s
  | String a p, String b r => if Ascii.eqb a b then withoutPrefix p r else None
  | _, _ => None
  end.

(** * Chunks *)

Inductive client := TraceReplay | SimulatedMapping.

Record streamChoice := mkStreamChoice { Delta_ : option (list (string * wire)); sc_FinishReason : option string }.
Record streamUsage := mkStreamUsage { su_PromptTokens : Z; su_CompletionTokens : Z; su_TotalTokens : Z }.
Record streamChunk := mkStreamChunk { Choices : list streamChoice; sk_Error : option string; sk_Usage : option streamUsage }.

(** [map[string]json.RawMessage]; null is nil. *)
Definition decRawMap : decoder (option (list (string * wire))) := λ cur w,
  match w with
  | WNull => Some None
  | WObj l => Some (Some (foldl (λ m kv, put kv.1 kv.2 m) (default [] cur) l))
  | _ => None
  end.
Definition decStreamChoice : decoder streamChoice := decStruct (λ l c,
  delta ← field "delta" decRawMap l (Delta_ c); reason ← field "finish_reason" (decPtr ""%string decString) l (sc_FinishReason c); Some (mkStreamChoice delta reason)).
Definition decStreamError : decoder string := decStruct (λ l m, field "message" decString l m).
Definition decStreamUsage : decoder streamUsage := decStruct (λ l u,
  prompt ← field "prompt_tokens" decInt l (su_PromptTokens u); completion ← field "completion_tokens" decInt l (su_CompletionTokens u);
  total ← field "total_tokens" decInt l (su_TotalTokens u); Some (mkStreamUsage prompt completion total)).
(** The chunk of the trace client has no usage. *)
Definition decStreamChunk (c : client) : decoder streamChunk := decStruct (λ l k,
  choices ← field "choices" (decList (mkStreamChoice None None) decStreamChoice) l (Choices k);
  e ← field "error" (decPtr ""%string decStreamError) l (sk_Error k);
  u ← match c with TraceReplay => Some None | SimulatedMapping => field "usage" (decPtr (mkStreamUsage 0 0 0) decStreamUsage) l (sk_Usage k) end;
  Some (mkStreamChunk choices e u)).

Definition hasKey (k : string) (m : list (string * wire)) : bool := existsb (λ kv, (kv.1 =? k)%string) m.

(** [isOutputToken], and the end of [classifyStreamChunk] of the trace client. *)
Definition isOutputToken (k : streamChunk) : bool :=
  match Choices k with
  | [] => false
  | choice :: _ =>
      match sc_FinishReason choice, Delta_ choice with
      | Some _, _ | _, None => false
      | None, Some delta => negb (hasKey "role" delta) && negb (hasKey "tool_calls" delta)
      end
  end.
Definition streamErrorText (message : string) : string := if (message =? "")%string then "stream returned an error" else message.

(** * The chunks of the server *)

(** The JSON forms of the payloads of a chat stream ([pkg/api/response.go]); other payloads have none here. *)
Fixpoint encLogprob (c : Logprobs.LogprobsContent) : wire :=
  match c with
  | Logprobs.mkContent token lp bs top =>
      WObj ([("token", WStr token); ("logprob", WFrac lp); ("bytes", WArr (encInt <$> bs))]%string ++ match top with [] => [] | _ => [("top_logprobs"%string, WArr (encLogprob <$> top))] end)
  end.
Definition encUsage (u : Usage) : wire := WObj
  [("prompt_tokens", encInt (PromptTokens u)); ("completion_tokens", encInt (CompletionTokens u)); ("total_tokens", encInt (TotalTokens u));
   ("prompt_tokens_details", encPtr (λ d, WObj [("cached_tokens"%string, encInt (CachedTokens d))]) (promptTokensDetails u))]%string.
Definition encBase (b : baseResponse) : list (string * wire) :=
  ApiRequests.omitEmpty "id" (ID b) ++ ApiRequests.omitEmpty "model" (BModel b) ++ ApiRequests.omitEmpty "object" (Object_ b) ++ omitNil "kv_transfer_params" ApiRequests.encKV (KVParams b) ++
  [("created", encInt (Created b)); ("usage", encPtr encUsage (BUsage b))]%string.
(** A choice; its message is named [delta] in a chunk. *)
Definition encChoice (name : string) (ch : ChatRespChoice) : wire := WObj
  ([("index", encInt (Z.of_nat (ch_Index ch))); ("finish_reason", encPtr WStr (ch_FinishReason ch))]%string ++ [(name, ApiRequests.encMessage (ch_Message ch))] ++
   omitNil "logprobs" (λ l, WObj [("content"%string, WArr (encLogprob <$> Logprobs.Content l))]) (ch_Logprobs ch)).
Definition encError (e : Error) : wire := WObj
  ([("message", WStr (Message_ e)); ("type", WStr (errorType e)); ("param", encPtr WStr (Param e))]%string ++ (if Code e =? 0 then [] else [("code"%string, encInt (Code e))])).
Definition encChat (p : payload) : option wire :=
  match p with
  | ChatCompletionsRespChunk base choices modality => Some (WObj (encBase base ++ [("choices"%string, WArr (encChoice "delta" <$> choices))] ++ ApiRequests.omitEmpty "modality" modality))
  | ChatCompletionsResponse base choices None => Some (WObj (encBase base ++ [("choices"%string, WArr (encChoice "message" <$> choices))]))
  | ErrorResponse e => Some (WObj [("error"%string, encError e)])
  | _ => None
  end.

(** * One request *)

(** The bodies the clients send. *)
Definition userMessage (content : string) : wire := WArr [WObj [("role", WStr "user"); ("content", WStr content)]%string].
Definition traceRequest (model : string) (promptID : Z) : wire :=
  WObj [("model", WStr model); ("messages", userMessage "trace replay"); ("trace_prompt_id", encInt promptID); ("stream", WBool true)]%string.
Definition mappingRequest (model prompt : string) (maxCompletionTokens : Z) : wire :=
  WObj [("model", WStr model); ("messages", userMessage prompt); ("max_completion_tokens", encInt maxCompletionTokens); ("stream", WBool true);
        ("stream_options", WObj [("include_usage"%string, WBool true)])]%string.

Inductive clientError :=
| ErrCreate (e : string) | ErrHTTP (e : string) | ErrStatus (code : Z) (body : string) | ErrChunk | ErrStream (e : string) | ErrRead (e : string)
| ErrNoDone | ErrNoUsage | ErrCount (got expected : Z).

Record requestResult := mkResult {
  PromptID : nat; Success : bool; StatusCode : Z; Error_ : option clientError; PromptTokens_ : Z;
  (** the output tokens of the trace, or the most that were asked for *) Wanted : Z; OutputTokens_ : Z; LatencySeconds : f64;
  TTFTMilliseconds : option f64; TPOTMilliseconds : option f64; PrefillMilliseconds : option f64; DecodeMilliseconds : option f64;
  E2EMilliseconds : f64; StartOffsetMS : f64; ITLMilliseconds : list f64 }.

(** The readings of the clock: the start of the benchmark and of the request, the token events, the end. *)
Record clock := mkClock { benchmarkStart : Z; requestStart : Z; tokenAt : nat → Z; finishedAt : Z }.
Definition milliseconds (d : Z) : f64 := fmul (Moe.Seconds d) (f_of_Z 1000).

(** What the HTTP call returns; a read of the body may fail after its bytes, or along with the last of them. *)
Inductive answer := NotCreated (e : string) | NotSent (e : string) | Answered (code : Z) (body : string) (readError : option string) (along : bool).

(** The variables of the loop. *)
Record reading := mkReading { tokens : nat; firstToken : Z; lastToken : Z; ttft : option f64; itl : list f64; usage : option streamUsage }.
Definition nothingRead : reading := mkReading 0 0 0 None [] None.

Section Request.
Variable Unmarshal : string → option wire.
Variable c : client.
Variable ck : clock.

(** A token event. *)
Definition onToken (r : reading) : reading :=
  let now := tokenAt ck (tokens r) in
  if (tokens r =? 0)%nat then mkReading 1 now now (Some (milliseconds (now - requestStart ck))) (itl r) (usage r)
  else mkReading (S (tokens r)) (firstToken r) now (ttft r) (itl r ++ [milliseconds (now - lastToken r)]) (usage r).

Definition onData (data : string) (r : reading) : result clientError reading :=
  match w ← Unmarshal data; decStreamChunk c (mkStreamChunk [] None None) w with
  | None => Err ErrChunk
  | Some k =>
      match sk_Error k with
      | Some message => Err (ErrStream (streamErrorText message))
      | None =>
          let r := match sk_Usage k with Some u => mkReading (tokens r) (firstToken r) (lastToken r) (ttft r) (itl r) (Some u) | None => r end in
          Ok (if isOutputToken k then onToken r else r)
      end
  end.

(** How the loop over the lines ends: at the end marker, with the body, or with an error. *)
Inductive loopEnd := DoneSeen (r : reading) | BodyEnded (r : reading) | LineTooLong (r : reading) | Stopped (r : reading) (e : clientError).
Fixpoint readLines (lines : list string) (r : reading) : loopEnd :=
  match lines with
  | [] => BodyEnded r
  | line :: lines =>
      if tooLong line then LineTooLong r
      else match withoutPrefix "data:" (TrimSpace line) with
           | None => readLines lines r
           | Some data =>
               let data := TrimSpace data in
               if (data =? "[DONE]")%string then DoneSeen r
               else match onData data r with Err e => Stopped r e | Ok r => readLines lines r end
           end
  end.

Definition maxErrorBodyBytes : nat := Z.to_nat (64 * 1024).

Section Prompt.
Variables (id : nat) (promptTokens wanted : Z).

(** The result with what was read; the prompt tokens are those of the usage where there is one. *)
Definition resultOf (code : Z) (r : reading) (outcome : result clientError ()) : requestResult :=
  let latency := Moe.Seconds (finishedAt ck - requestStart ck) in
  let ok := is_ok outcome in
  let decode := milliseconds (lastToken r - firstToken r) in
  mkResult id ok code (match outcome with Err e => Some e | Ok _ => None end) (match usage r with Some u => su_PromptTokens u | None => promptTokens end) wanted (Z.of_nat (tokens r))
    latency (ttft r) (if ok && (1 <? tokens r)%nat then Some (fdiv decode (f_of_Z (Z.of_nat (tokens r) - 1))) else None) (ttft r)
    (if ok && (0 <? tokens r)%nat then Some decode else None) (fmul latency (f_of_Z 1000)) (milliseconds (requestStart ck - benchmarkStart ck)) (itl r).

(** The checks after the loop. *)
Definition completeStream (r : reading) : result clientError () :=
  match c with
  | TraceReplay => if Z.of_nat (tokens r) =? wanted then Ok () else Err (ErrCount (Z.of_nat (tokens r)) wanted)
  | SimulatedMapping =>
      match usage r with
      | None => Err ErrNoUsage
      | Some u => if su_CompletionTokens u =? Z.of_nat (tokens r) then Ok () else Err (ErrCount (Z.of_nat (tokens r)) (su_CompletionTokens u))
      end
  end.

(** [executePrompt], with the request already encoded. *)
Definition executePrompt (a : answer) : requestResult :=
  match a with
  | NotCreated e => resultOf 0 nothingRead (Err (ErrCreate e))
  | NotSent e => resultOf 0 nothingRead (Err (ErrHTTP e))
  | Answered code body readError along =>
      if (code <? 200) || (300 <=? code) then resultOf code nothingRead (Err (ErrStatus code (TrimSpace (String.substring 0 maxErrorBodyBytes body))))
      else match readLines (scanLines body) nothingRead with
           | Stopped r e => resultOf code r (Err e)
           | LineTooLong r => resultOf code r (Err (ErrRead "bufio.Scanner: token too long"))
           | BodyEnded r => resultOf code r (Err (match readError with Some e => ErrRead e | None => ErrNoDone end))
           | DoneSeen r =>
               match readError, along with
               | Some e, true => resultOf code r (Err (ErrRead e))
               | _, _ => resultOf code r (completeStream r)
               end
           end
  end.
End Prompt.
End Request.

(** * Prompts *)

(** A line of the dataset: a prompt, and the most tokens to ask for. *)
Record datasetLine := mkDatasetLine { dl_Prompt : string; dl_MaxCompletionTokens : option Z }.
Record benchmarkPrompt := mkBenchPrompt { bp_ID : nat; bp_Prompt : string; bp_MaxCompletionTokens : Z }.
Definition decDatasetLine : decoder datasetLine := decStruct (λ l r,
  prompt ← field "prompt" decString l (dl_Prompt r); m ← field "max_completion_tokens" (decPtr 0 decInt) l (dl_MaxCompletionTokens r); Some (mkDatasetLine prompt m)).

Inductive datasetError := ErrDecodeLine (line : nat) | ErrEmptyPrompt (line : nat) | ErrMaxTokens (line : nat) | ErrLineTooLong | ErrNoPrompts.
Definition maxDatasetLine : Z := 2 ^ 24.

Section Dataset.
Variable Unmarshal : string → option wire.
Variables defaultMaxCompletionTokens limit : Z.

(** The prompt of a line; [None] is an empty line. *)
Definition promptOfLine (number : nat) (line : string) : option (result datasetError (string * Z)) :=
  let line := TrimSpace line in
  if (line =? "")%string then None
  else Some match w ← Unmarshal line; decDatasetLine (mkDatasetLine "" None) w with
       | None => Err (ErrDecodeLine number)
       | Some r =>
           if (TrimSpace (dl_Prompt r) =? "")%string then Err (ErrEmptyPrompt number)
           else match dl_MaxCompletionTokens r with
                | Some m => if m <=? 0 then Err (ErrMaxTokens number) else Ok (dl_Prompt r, m)
                | None => Ok (dl_Prompt r, defaultMaxCompletionTokens)
                end
       end.
Fixpoint loadLines (number : nat) (lines : list string) (prompts : list benchmarkPrompt) : result datasetError (list benchmarkPrompt) :=
  match lines with
  | [] => Ok prompts
  | line :: lines =>
      if maxDatasetLine <=? Z.of_nat (String.length line) then Err ErrLineTooLong
      else match promptOfLine number line with
           | None => loadLines (S number) lines prompts
           | Some (Err e) => Err e
           | Some (Ok (prompt, m)) =>
               let prompts := prompts ++ [mkBenchPrompt (length prompts) prompt m] in
               if (0 <? limit) && (limit <=? Z.of_nat (length prompts)) then Ok prompts else loadLines (S number) lines prompts
           end
  end.
(** [loadDataset] on the text of the file. *)
Definition loadDataset (text : string) : result datasetError (list benchmarkPrompt) := loadLines 1 (scanLines text) [].
End Dataset.

(** What the trace client needs to know of the trace. *)
Record traceSummary := mkTraceSummary { ts_PromptTokens : Z; ts_DecodeTokens : Z; ts_MaxContextLen : Z }.
Definition summaryStep (s : traceSummary) (p : TraceFormat.PromptMetadata) : traceSummary :=
  let contextLen := i64 (TraceFormat.InputTokens p + TraceFormat.DecodeTokens p) in
  mkTraceSummary (i64 (ts_PromptTokens s + TraceFormat.InputTokens p)) (i64 (ts_DecodeTokens s + TraceFormat.DecodeTokens p)) (if ts_MaxContextLen s <? contextLen then contextLen else ts_MaxContextLen s).
Definition buildTraceSummary (md : TraceFormat.Metadata) : traceSummary := foldl summaryStep (mkTraceSummary 0 0 0) (TraceFormat.m_Prompts md).

(** The configuration of the server, as far as it is checked. *)
Record serverConfig := mkServerConfig {
  sv_Model : string; MaxNumSeqs : Z; MaxWaitingQueueLength : Z; sv_MaxModelLen : Z; sv_EnableMoE : bool; sv_MoENumExperts : Z; sv_MoETopK : Z; sv_MoENumLayers : Z }.
Inductive preflightError := ErrMoEDisabled | ErrServerModel | ErrServerExperts | ErrServerTopK | ErrServerLayers | ErrServerMaxModelLen.
(** The checks of [preflight] of the trace client, and of the other one. *)
Definition checkTraceServer (s : serverConfig) (md : TraceFormat.Metadata) (maxContextLen : Z) : result preflightError () :=
  if negb (sv_EnableMoE s) then Err ErrMoEDisabled
  else if negb (sv_Model s =? TraceFormat.m_Model md)%string then Err ErrServerModel
  else if negb (sv_MoENumExperts s =? TraceFormat.m_NumExperts md) then Err ErrServerExperts
  else if negb (sv_MoETopK s =? TraceFormat.m_TopK md) then Err ErrServerTopK
  else if negb (sv_MoENumLayers s =? Z.of_nat (length (TraceFormat.m_SparseLayers md))) then Err ErrServerLayers
  else if sv_MaxModelLen s <? maxContextLen then Err ErrServerMaxModelLen
  else Ok ().
Definition checkServer (s : serverConfig) (requestedModel : string) : result preflightError () :=
  if negb (sv_EnableMoE s) then Err ErrMoEDisabled
  else if negb (requestedModel =? "")%string && negb (sv_Model s =? requestedModel)%string then Err ErrServerModel
  else Ok ().
(** The warning of [run]: not every prompt has a place on the server. *)
Definition mayReject (s : serverConfig) (prompts : Z) : bool := MaxWaitingQueueLength s <? Z.max 0 (i64 (prompts - MaxNumSeqs s)).

(** * The summary *)

Record distribution := mkDistribution { Count : Z; Mean : f64; Median : f64; P95 : f64; P99 : f64; Min : f64; Max : f64 }.
Definition noDistribution : distribution := mkDistribution 0 f_zero f_zero f_zero f_zero f_zero f_zero.

(** [math.Floor]. *)
Definition f_floor (x : f64) : f64 := f_opp (f_ceil (f_opp x)).
(** [sort.Float64s]. *)
Definition lessFloat (x y : f64) : bool := flt x y || (f_is_nan x && negb (f_is_nan y)).
Definition Float64s (l : list f64) : list f64 := SliceStable lessFloat l.

(** [percentile]; an index out of range is [None]. *)
Definition percentile (sorted : list f64) (p : Z) : option f64 :=
  match sorted with
  | [] => Some f_zero
  | [x] => Some x
  | _ =>
      let position := fmul (fdiv (f_of_Z p) (f_of_Z 100)) (f_of_Z (Z.of_nat (length sorted) - 1)) in
      let lower := f_to_int (f_floor position) in
      let upper := f_to_int (f_ceil position) in
      if lower =? upper then sorted !! Z.to_nat lower
      else
        let weight := fsub position (f_of_Z lower) in
        a ← sorted !! Z.to_nat lower; b ← sorted !! Z.to_nat upper;
        Some (fadd (fmul a (fsub (f_of_Z 1) weight)) (fmul b weight))
  end.
Definition describe (values : list f64) : option distribution :=
  match values with
  | [] => Some noDistribution
  | _ =>
      let sorted := Float64s values in
      let sum := foldl fadd f_zero sorted in
      median ← percentile sorted 50; p95 ← percentile sorted 95; p99 ← percentile sorted 99; least ← head sorted; most ← last sorted;
      Some (mkDistribution (Z.of_nat (length sorted)) (fdiv sum (f_of_Z (Z.of_nat (length sorted)))) median p95 p99 least most)
  end.

(** The variables of the loop of [summarize]. *)
Record tally := mkTally {
  t_latency : list f64; t_ttft : list f64; t_tpot : list f64; t_itl : list f64; t_prefill : list f64; t_decode : list f64; t_e2e : list f64; t_length : list f64; t_offsets : list f64;
  t_promptTokens : Z; t_outputTokens : Z; t_failures : list (nat * Z * option clientError); t_successful : Z }.
Definition noTally : tally := mkTally [] [] [] [] [] [] [] [] [] 0 0 [] 0.
Definition maxExamples : nat := 20.
Definition tallyStep (t : tally) (r : requestResult) : tally :=
  let offsets := t_offsets t ++ [StartOffsetMS r] in
  if negb (Success r)
  then mkTally (t_latency t) (t_ttft t) (t_tpot t) (t_itl t) (t_prefill t) (t_decode t) (t_e2e t) (t_length t) offsets (t_promptTokens t) (t_outputTokens t)
         (if (length (t_failures t) <? maxExamples)%nat then t_failures t ++ [(PromptID r, StatusCode r, Error_ r)] else t_failures t) (t_successful t)
  else mkTally (t_latency t ++ [LatencySeconds r]) (t_ttft t ++ option_list (TTFTMilliseconds r)) (t_tpot t ++ option_list (TPOTMilliseconds r)) (t_itl t ++ ITLMilliseconds r)
         (t_prefill t ++ option_list (PrefillMilliseconds r)) (t_decode t ++ option_list (DecodeMilliseconds r)) (t_e2e t ++ [E2EMilliseconds r])
         (t_length t ++ [f_of_Z (OutputTokens_ r)]) offsets (i64 (t_promptTokens t + PromptTokens_ r)) (i64 (t_outputTokens t + OutputTokens_ r)) (t_failures t) (t_successful t + 1).

(** The measured part of the summary. *)
Record benchmarkSummary := mkSummary {
  Requested : Z; Successful : Z; Failed : Z; WallTimeSeconds : f64; sm_PromptTokens : Z; sm_OutputTokens : Z; sm_TotalTokens : Z;
  RequestsPerSecond : f64; OutputTokensPerSecond : f64; TotalTokensPerSecond : f64;
  RequestLatencySeconds : distribution; sm_TTFT : distribution; sm_TPOT : distribution; StreamingITL : distribution; sm_Prefill : distribution; sm_Decode : distribution;
  sm_E2E : distribution; OutputLengthTokens : distribution; LaunchStartOffset : distribution; FailureExamples : list (nat * Z * option clientError) }.
Definition perSecond (n : Z) (wallSeconds : f64) : f64 := if flt f_zero wallSeconds then fdiv (f_of_Z n) wallSeconds else f_zero.
Definition summarize (results : list requestResult) (wallTime : Z) : option benchmarkSummary :=
  let t := foldl tallyStep noTally results in
  let wall := Moe.Seconds wallTime in
  let total := i64 (t_promptTokens t + t_outputTokens t) in
  latency ← describe (t_latency t); ttft ← describe (t_ttft t); tpot ← describe (t_tpot t); itl ← describe (t_itl t); prefill ← describe (t_prefill t);
  decode ← describe (t_decode t); e2e ← describe (t_e2e t); output ← describe (t_length t); offsets ← describe (t_offsets t);
  Some (mkSummary (Z.of_nat (length results)) (t_successful t) (Z.of_nat (length results) - t_successful t) wall (t_promptTokens t) (t_outputTokens t) total
    (perSecond (t_successful t) wall) (perSecond (t_outputTokens t) wall) (perSecond total wall) latency ttft tpot itl prefill decode e2e output offsets (t_failures t)).

(** The loop of [run] that receives the results in the order of their arrival; an id out of range panics. *)
Definition zeroResult : requestResult := mkResult 0 false 0 None 0 0 0 f_zero None None None None f_zero f_zero [].
Fixpoint receiveAll (arrivals : list requestResult) (results : list requestResult) : option (list requestResult) :=
  match arrivals with
  | [] => Some results
  | r :: arrivals => if (PromptID r <? length results)%nat then receiveAll arrivals (<[PromptID r := r]> results) else None
  end.
(** The end of [run]: the summary, and whether every request succeeded. *)
Definition finishRun (prompts : nat) (arrivals : list requestResult) (wallTime : Z) : option (benchmarkSummary * bool) :=
  results ← receiveAll arrivals (replicate prompts zeroResult); s ← summarize results wallTime; Some (s, Failed s =? 0).

End BenchClient.
