(* ===== verification/BenchClientProps.v ===== *)
(** The benchmark clients against the server: what they read from a stream of a chat
    completion is what the server sent.  [BenchSummary]: their summaries do not depend on
    the order in which the requests end, no index is out of range, and the counts are those
    of the results. *)

From S2P Require Import Prelude Sums GoFloat GoFloatInt GoFloatOrder GoFloatRound TraceFormat Requests Dataset Tools Moe Logprobs Response Streaming StreamingProps Wire ApiRequests ApiRequestsProps Tokenizer TokenizerProps BenchClient.
Import Dataset Response Wire Streaming StreamingProps.
Import ApiRequestsProps(field_skip, field_value, field_nil, field_empty_skip, field_omit_skip, contentField_skip, callsField_skip).
Import BenchClient.
Open Scope Z_scope.

Module BenchClientProps.

(** * Texts *)

(** Without line ends. *)
Definition OneLine (s : string) : Prop := Forall (λ a, isNewline a = false) (String.list_ascii_of_string s).

Lemma scan_line p q : OneLine p → scanLines (p +:+ newline +:+ q) = p :: scanLines q.
Proof.
  unfold OneLine. induction p as [|a p IH]; [done|]. change (String.list_ascii_of_string (String a p)) with (a :: String.list_ascii_of_string p). intros [Ha Hp]%Forall_cons.
  change (String a p +:+ newline +:+ q) with (String a (p +:+ newline +:+ q)). cbn [scanLines]. by rewrite Ha, IH.
Qed.

Lemma bytes_app s t : bytesOf (s +:+ t) = bytesOf s ++ bytesOf t.
Proof. unfold bytesOf. rewrite <- fmap_app. f_equal. induction s as [|a s IH]; [done|]. exact (f_equal (cons a) IH). Qed.
Lemma text_bytes s : textOf (bytesOf s) = s.
Proof.
  unfold textOf, bytesOf. rewrite <- list_fmap_compose. rewrite <- (String.string_of_list_ascii_of_string s) at 2. f_equal.
  induction (String.list_ascii_of_string s) as [|a l IH]; [done|]. cbn. rewrite IH. by rewrite Nat2Z.id, Ascii.ascii_nat_embedding.
Qed.

(** A first byte in ASCII that is no space is kept, and so is a last one. *)
Definition Plain (b : Z) : Prop := 32 < b < 128.
Lemma trimLeft_plain b l : Plain b → trimLeft (b :: l) = b :: l.
Proof.
  intros Hb. assert (space1 b = false ∧ (∀ x, space2 b x = false) ∧ ∀ x y, space3 b x y = false) as (E1 & E2 & E3).
  { unfold Plain in Hb. unfold space1, space2, space3. split_and!; intros; lia. }
  cbn [trimLeft]. rewrite E1. destruct l as [|x [|y l]]; rewrite ?E2, ?E3; done.
Qed.
Lemma trimLast_plain b l : Plain b → trimLast (b :: l) = b :: l.
Proof.
  intros Hb. assert (space1 b = false ∧ (∀ x, space2 x b = false) ∧ ∀ x y, space3 x y b = false) as (E1 & E2 & E3).
  { unfold Plain in Hb. unfold space1, space2, space3. split_and!; intros; lia. }
  cbn [trimLast]. rewrite E1. destruct l as [|x [|y l]]; rewrite ?E2, ?E3; done.
Qed.

(** A text between two such bytes is not trimmed, with or without spaces before it. *)
Lemma trim_bytes a l b : Plain a → Plain b → rev (trimLast (rev (trimLeft (a :: l ++ [b])))) = a :: l ++ [b].
Proof.
  intros Ha Hb. rewrite trimLeft_plain by done. change (a :: l ++ [b]) with ((a :: l) ++ [b]). rewrite rev_app_distr. cbn [rev app].
  rewrite trimLast_plain by done. cbn [rev]. rewrite !rev_app_distr, rev_involutive. done.
Qed.
Lemma trim_plain s a l b : bytesOf s = a :: l ++ [b] → Plain a → Plain b → TrimSpace s = s.
Proof. intros E Ha Hb. unfold TrimSpace. rewrite E, trim_bytes by done. rewrite <- E. apply text_bytes. Qed.
Lemma trim_space s : TrimSpace (" " +:+ s) = TrimSpace s.
Proof. unfold TrimSpace. by rewrite bytes_app. Qed.

(** * The line of a frame *)

Definition braces (mid : string) : string := "{" +:+ mid +:+ "}".
Lemma bytes_braces p mid : bytesOf (p +:+ braces mid) = bytesOf p ++ 123 :: bytesOf mid ++ [125].
Proof. unfold braces. by rewrite !bytes_app. Qed.
Lemma data_line mid : withoutPrefix "data:" (TrimSpace ("data: " +:+ braces mid)) = Some (" " +:+ braces mid).
Proof. rewrite (trim_plain _ 100 (bytesOf "ata: " ++ 123 :: bytesOf mid) 125); [done| |done|done]. rewrite bytes_braces. done. Qed.
Lemma data_text mid : TrimSpace (" " +:+ braces mid) = braces mid.
Proof. rewrite trim_space. apply (trim_plain _ 123 (bytesOf mid) 125); [apply (bytes_braces "")|done|done]. Qed.

Lemma one_line_app s t : OneLine s → OneLine t → OneLine (s +:+ t).
Proof. unfold OneLine. induction s as [|a s IH]; [done|]. intros [Ha Hs]%Forall_cons Ht. constructor; [done|]. by apply IH. Qed.

(** * Chunks as the client decodes them *)

Lemma hasKey_cons k k' v m : hasKey k ((k', v) :: m) = (k' =? k)%string || hasKey k m.
Proof. done. Qed.
Lemma hasKey_put k k' v m : hasKey k (put k' v m) = (k' =? k)%string || hasKey k m.
Proof.
  induction m as [|[x y] m IH]; [done|]. cbn [put]. rewrite hasKey_cons. destruct (String.eqb_spec x k') as [->|]; rewrite hasKey_cons; [by destruct (k' =? k)%string|].
  rewrite IH. by destruct (x =? k)%string, (k' =? k)%string.
Qed.
Lemma hasKey_all k l m : hasKey k (foldl (λ m kv, put kv.1 kv.2 m) m l) = hasKey k m || hasKey k l.
Proof.
  revert m. induction l as [|[x y] l IH]; intros m; [cbn; by rewrite orb_false_r|]. cbn [foldl fst snd]. rewrite IH, hasKey_put, hasKey_cons. by destruct (x =? k)%string, (hasKey k m).
Qed.
Lemma hasKey_app k l m : hasKey k (l ++ m) = hasKey k l || hasKey k m.
Proof. apply existsb_app. Qed.

(** The keys of a message that the client looks for. *)
Lemma message_keys m : ∃ l, ApiRequests.encMessage m = WObj l ∧ hasKey "role" l = negb (Role m =? "")%string ∧ hasKey "tool_calls" l = match MToolCalls m with [] => false | _ => true end.
Proof.
  eexists. split; [reflexivity|]. rewrite !hasKey_app. unfold ApiRequests.omitEmpty, ApiRequests.contentField, ApiRequests.callsField.
  destruct (Role m =? "")%string, (negb (Raw (MContent m) =? "")%string || _), (MToolCalls m), (ToolCallID m =? "")%string; done.
Qed.

Lemma choice_decoded ch : ∃ delta, decStreamChoice (mkStreamChoice None None) (encChoice "delta" ch) = Some (mkStreamChoice (Some delta) (ch_FinishReason ch)) ∧
  hasKey "role" delta = negb (Role (ch_Message ch) =? "")%string ∧ hasKey "tool_calls" delta = match MToolCalls (ch_Message ch) with [] => false | _ => true end.
Proof.
  destruct (message_keys (ch_Message ch)) as (l & El & H1 & H2). exists (foldl (λ m kv, put kv.1 kv.2 m) [] l). rewrite !hasKey_all. split; [|by split].
  unfold decStreamChoice, encChoice, decStruct. cbn [app Delta_ sc_FinishReason]. rewrite El.
  rewrite (field_skip "delta" _ "index"), (field_skip "delta" _ "finish_reason"), (field_value "delta" decRawMap "delta" (WObj l) _ _ (Some (foldl (λ m kv, put kv.1 kv.2 m) [] l))) by done.
  rewrite <- (app_nil_r (omitNil "logprobs" _ _)), field_omit_skip, field_nil by done. cbn [mbind option_bind].
  rewrite (field_skip "finish_reason" _ "index"), (field_value "finish_reason" _ "finish_reason" _ _ _ (ch_FinishReason ch)) by (done || by destruct (ch_FinishReason ch)).
  rewrite field_skip, field_omit_skip, field_nil by done. done.
Qed.

Lemma base_field {A} name (dec : decoder A) b l cur : existsb (names name) ["id"; "model"; "object"; "kv_transfer_params"; "created"]%string = false →
  field name dec (encBase b ++ l) cur = field name dec (("usage"%string, encPtr encUsage (BUsage b)) :: l) cur.
Proof.
  cbn [existsb]. rewrite !orb_false_iff. intros (H1 & H2 & H3 & H4 & H5 & _). unfold encBase. rewrite <- !app_assoc.
  rewrite !field_empty_skip, field_omit_skip by done. cbn [app]. by rewrite field_skip.
Qed.

(** Counts that fit an int. *)
Definition UsageFits (u : Usage) : Prop := Forall (λ z, - 2 ^ 63 ≤ z < 2 ^ 63) [PromptTokens u; CompletionTokens u; TotalTokens u].
Definition readUsage (u : Usage) : streamUsage := mkStreamUsage (PromptTokens u) (CompletionTokens u) (TotalTokens u).
Lemma usage_decoded u : UsageFits u → decPtr (mkStreamUsage 0 0 0) decStreamUsage None (encUsage u) = Some (Some (readUsage u)).
Proof.
  unfold UsageFits. rewrite !Forall_cons. intros (H1 & H2 & H3 & _). unfold decPtr, encUsage, decStreamUsage, decStruct. cbn [default].
  assert (∀ z cur, - 2 ^ 63 ≤ z < 2 ^ 63 → decInt cur (encInt z) = Some z) as Hd by (intros; by apply (decode_encode (Codec := int_codec))).
  rewrite (field_value "prompt_tokens" decInt "prompt_tokens" _ _ _ _ eq_refl (Hd _ _ H1)), !(field_skip "prompt_tokens"), field_nil by done. cbn [mbind option_bind].
  rewrite (field_skip "completion_tokens"), (field_value "completion_tokens" decInt "completion_tokens" _ _ _ _ eq_refl (Hd _ _ H2)), !(field_skip "completion_tokens"), field_nil by done. cbn [mbind option_bind].
  rewrite !(field_skip "total_tokens"), (field_value "total_tokens" decInt "total_tokens" _ _ _ _ eq_refl (Hd _ _ H3)), (field_skip "total_tokens"), field_nil by done. done.
Qed.

(** The usage a client takes from a chunk. *)
Definition usageOf (c : client) (o : option Usage) : option streamUsage := match c with TraceReplay => None | SimulatedMapping => readUsage <$> o end.

Lemma payload_decoded c base choices tail dec : Forall (λ kv, existsb (λ n, names n kv.1) ["choices"; "error"; "usage"]%string = false) tail →
  match BUsage base with Some u => UsageFits u | None => True end → decElems (mkStreamChoice None None) decStreamChoice choices = Some dec →
  decStreamChunk c (mkStreamChunk [] None None) (WObj (encBase base ++ [("choices"%string, WArr choices)] ++ tail)) = Some (mkStreamChunk dec None (usageOf c (BUsage base))).
Proof.
  intros Ht Hu Hc. assert (∀ A name (d : decoder A) cur, name = "choices"%string ∨ name = "error"%string ∨ name = "usage"%string → field name d tail cur = Some cur) as Hs.
  { intros A name d cur Hn. revert cur. induction Ht as [|[k v] l Hk _ IH]; intros cur; [done|]. cbn [existsb fst] in Hk. rewrite !orb_false_iff in Hk. destruct Hk as (K1 & K2 & K3 & _).
    rewrite field_skip by (destruct Hn as [->|[->| ->]]; done). apply IH. }
  unfold decStreamChunk, decStruct. rewrite !base_field by done. cbn [app Choices sk_Error sk_Usage].
  rewrite (field_skip "choices"), (field_value "choices" _ "choices" _ _ _ dec), Hs by (done || by (unfold decList, decSlice; rewrite Hc) || auto). cbn [mbind option_bind].
  rewrite !(field_skip "error"), Hs by (done || auto). cbn [mbind option_bind]. destruct c; [done|].
  rewrite (field_value "usage" _ "usage" _ _ _ (usageOf SimulatedMapping (BUsage base))), (field_skip "usage"), Hs by (done || auto || by (destruct (BUsage base); [apply usage_decoded|])). done.
Qed.

(** * The frames of the server *)

Section Frames.
Variables (rc : ResponseContext) (now : Z) (sendChunk : list sseChunk → sseChunk → option string).
Hypothesis Hsend : ∀ f k, sendChunk f k = None.
Let rc' : ResponseContext := SetCreationTime now rc.

Definition roleFrame : sseChunk := chatChunk rc' None None RoleAssistant None 0.
Definition tokenFrame (t : Tokenized) : sseChunk := chatChunk rc' (Some t) None "" None 0.
Definition endFrames (reason : string) : list sseChunk := option_list (chatLastChunk rc' reason 0) ++ option_list (chatUsageChunk [rc']) ++ [doneMarker].

(** The stream of one choice after its context was seen. *)
Definition streaming (f : list sseChunk) (first : bool) : streamState (St := unit) := mkStream f tt (Some rc') true [first] [None] [0] [Some rc'].

Lemma send_ok {St} msg k (s : streamState (St := St)) : sendOrFail sendChunk msg (Some k) s = Continue (set_frames (frames s ++ [k]) s).
Proof using Hsend. unfold sendOrFail. by rewrite Hsend. Qed.
Lemma send_none {St} msg (s : streamState (St := St)) : sendOrFail sendChunk msg None s = Continue s.
Proof. done. Qed.

Lemma token_message f first t status : status ≠ ResponseStatusCreated →
  handleMessage chatComplHTTPRespBuilder now sendChunk (mkInfo (Some t) (Some rc) None None status 0) (streaming f first) =
  Continue (streaming (f ++ (if first then [roleFrame] else []) ++ [tokenFrame t]) false).
Proof using Hsend.
  intros Hs. unfold handleMessage, streaming. cbn [Err_ RespCtx respCtx respCtxPerChoice ChoiceIdx Status]. rewrite bool_decide_eq_false_2 by done.
  unfold emitResponseChunks, firstChunk, emitTokens, andThen, roleFrame, tokenFrame. cbn -[chatChunk sendOrFail].
  destruct first; cbn -[chatChunk sendOrFail]; rewrite ?send_ok; cbn -[chatChunk sendOrFail]; rewrite ?send_ok; rewrite andb_false_r; [by rewrite <- app_assoc|done].
Qed.

Lemma token_messages strings total k ids l f first : tokenMessages rc 0 strings total k ids = Some l → ∃ pieces, length pieces = length ids ∧
  handleMessages chatComplHTTPRespBuilder now sendChunk l (streaming f first) =
  Break (streaming (f ++ match pieces with [] => [] | _ => (if first then [roleFrame] else []) ++ (tokenFrame <$> pieces) end) (match pieces with [] => first | _ => false end)).
Proof using Hsend.
  revert k l f first. induction ids as [|z ids IH]; intros k l f first; cbn [tokenMessages]; [intros [= <-]; exists []; cbn; by rewrite app_nil_r|].
  intros H. apply bind_Some in H as (strs & _ & H). apply bind_Some in H as (rest & Hr & H). injection H as <-.
  cbn [handleMessages]. rewrite token_message by (by destruct (_ =? _)%nat). destruct (IH _ _ (f ++ (if first then [roleFrame] else []) ++ [tokenFrame (mkTokenized [z] strs)]) false Hr) as (pieces & Hl & ->).
  exists (mkTokenized [z] strs :: pieces). split; [by cbn; rewrite Hl|]. f_equal. unfold streaming. f_equal; [|by destruct pieces]. rewrite <- !app_assoc. by destruct pieces.
Qed.

Lemma chat_frames t l reason : TokenResponse rc → responseTokens rc = Some t → FinishReason rc = Some reason → SendImage rc = false → simulateResponseProcessing rc 0 = Some l →
  ∃ pieces, length pieces = length (Dataset.Tokens t) ∧ handleStream chatComplHTTPRespBuilder now sendChunk 1 l = Stream (roleFrame :: (tokenFrame <$> pieces) ++ endFrames reason) Complete.
Proof using Hsend.
  intros (t' & reason' & Ht & Hne & Hlen & Hr & Hreason) Htt Hre Himg. assert (t' = t) as -> by congruence. assert (reason' = reason) as -> by congruence.
  unfold simulateResponseProcessing, respIsEmpty. rewrite bool_decide_eq_false_2 by (rewrite Hr; congruence). rewrite Ht.
  destruct (Nat.eqb_spec (length (Dataset.Tokens t)) 0); [by destruct (Dataset.Tokens t)|]. intros H. apply bind_Some in H as (rest & Hrest & [= <-]).
  destruct (token_messages _ _ _ _ _ [] true Hrest) as (pieces & Hl & Hm). exists pieces. split; [done|]. unfold handleStream, sendStream. cbn [Err_ plain handleMessages].
  assert (handleMessage chatComplHTTPRespBuilder now sendChunk (plain rc 0 ResponseStatusCreated) (newStreamState chatComplHTTPRespBuilder 1) = Continue (streaming [] true)) as -> by done.
  rewrite Hm. destruct pieces as [|p pieces]; [cbn in Hl; lia|]. cbn [streaming respCtxPerChoice respCtx].
  unfold sendImages, finalizeStream, lastChunks. change (SendImage rc') with (SendImage rc). rewrite Himg. unfold firstMissing. cbn -[chatLastChunk chatUsageChunk sendOrFail app].
  change (FinishReason rc') with (FinishReason rc). rewrite Hr. unfold andThen, endFrames. cbn -[chatLastChunk chatUsageChunk sendOrFail app].
  destruct (chatLastChunk rc' reason 0), (chatUsageChunk [rc']); repeat (first [rewrite send_ok|rewrite send_none]; cbn -[chatLastChunk chatUsageChunk sendOrFail app]).
  all: rewrite decide_False by done; cbn -[chatChunk]; by rewrite <- ?app_assoc.
Qed.
End Frames.

(** * Reading the body *)

Section Read.
Variable Marshal : payload → result string string.
Variable Unmarshal : string → option wire.

(** The text of a payload: an object on one line that fits the buffer of the client and is read back. *)
Definition JsonText (p : payload) (w : wire) : Prop :=
  ∃ mid, Marshal p = Ok (braces mid) ∧ OneLine mid ∧ Z.of_nat (String.length mid) + 8 < maxLine ∧ encChat p = Some w ∧ Unmarshal (braces mid) = Some w.
(** The body of a stream. *)
Fixpoint bodyOf (f : list sseChunk) : result string string :=
  match f with [] => Ok ""%string | k :: f => let! b := SSEBytes Marshal k in let! rest := bodyOf f in Ok (b +:+ rest) end.

Variable c : client.
Variable ck : clock.

Lemma read_line line rest r : OneLine line → tooLong line = false →
  readLines Unmarshal c ck (scanLines (line +:+ newline +:+ newline +:+ rest)) r =
  match withoutPrefix "data:" (TrimSpace line) with
  | None => readLines Unmarshal c ck (scanLines rest) r
  | Some data =>
      if (TrimSpace data =? "[DONE]")%string then DoneSeen r
      else match onData Unmarshal c ck (TrimSpace data) r with Err e => Stopped r e | Ok r => readLines Unmarshal c ck (scanLines rest) r end
  end.
Proof.
  intros Hl Hs. rewrite scan_line by done. change (newline +:+ rest) with ("" +:+ newline +:+ rest). rewrite scan_line by constructor. cbn [readLines]. rewrite Hs.
  change (tooLong "") with false. change (withoutPrefix "data:" (TrimSpace "")) with (@None string). done.
Qed.

(** What a frame does to the client. *)
Definition afterChunk (k : streamChunk) (r : reading) : reading :=
  let r := match sk_Usage k with Some u => mkReading (tokens r) (firstToken r) (lastToken r) (ttft r) (itl r) (Some u) | None => r end in
  if isOutputToken k then onToken ck r else r.

Lemma read_frame p w k rest r : JsonText p w → decStreamChunk c (mkStreamChunk [] None None) w = Some k →
  ∃ b, SSEBytes Marshal (jsonDataChunk p) = Ok b ∧ readLines Unmarshal c ck (scanLines (b +:+ rest)) r =
    match sk_Error k with Some message => Stopped r (ErrStream (streamErrorText message)) | None => readLines Unmarshal c ck (scanLines rest) (afterChunk k r) end.
Proof.
  intros (mid & Hm & Hl & Hlen & _ & Hu) Hk. eexists. split; [cbn; rewrite Hm; reflexivity|].
  assert (("data: " +:+ braces mid +:+ newline +:+ newline) +:+ rest = ("data: " +:+ braces mid) +:+ newline +:+ newline +:+ rest) as -> by (by rewrite <- !append_assoc).
  rewrite read_line.
  - rewrite data_line, data_text. change (braces mid =? "[DONE]")%string with false. unfold onData. rewrite Hu. cbn [mbind option_bind]. rewrite Hk. by destruct (sk_Error k).
  - apply one_line_app; [repeat constructor|]. apply one_line_app; [repeat constructor|]. apply one_line_app; [done|repeat constructor].
  - unfold tooLong. apply Z.leb_gt. unfold braces. rewrite !TokenizerProps.TokenizerProps.length_append. cbn [String.length]. lia.
Qed.
Lemma read_done r : ∃ b, SSEBytes Marshal doneMarker = Ok b ∧ readLines Unmarshal c ck (scanLines b) r = DoneSeen r.
Proof. eexists. split; [done|]. reflexivity. Qed.

(** A chunk of one choice. *)
Lemma chunk_read base ch w : BUsage base = None → encChat (ChatCompletionsRespChunk base [ch] "") = Some w → ∃ k,
  decStreamChunk c (mkStreamChunk [] None None) w = Some k ∧ sk_Error k = None ∧
  ∀ r, afterChunk k r = if bool_decide (ch_FinishReason ch = None) && (Role (ch_Message ch) =? "")%string && match MToolCalls (ch_Message ch) with [] => true | _ => false end then onToken ck r else r.
Proof.
  intros Hb [= <-]. destruct (choice_decoded ch) as (delta & Hd & H1 & H2). eexists. split.
  { apply payload_decoded; [constructor|by rewrite Hb|]. change [encChoice "delta" ch] with (encChoice "delta" <$> [ch]). unfold decElems. cbn [fmap list_fmap each]. rewrite Hd. reflexivity. }
  split; [done|]. intros r. unfold afterChunk, isOutputToken. rewrite Hb. destruct c; cbn [sk_Usage usageOf fmap option_fmap option_map Choices app sc_FinishReason Delta_]; rewrite H1, H2, !negb_involutive;
    (destruct (ch_FinishReason ch); [done|]); by destruct (Role (ch_Message ch) =? "")%string, (MToolCalls (ch_Message ch)).
Qed.
Lemma usage_read base w : match BUsage base with Some u => UsageFits u | None => True end → encChat (ChatCompletionsResponse base [] None) = Some w → ∃ k,
  decStreamChunk c (mkStreamChunk [] None None) w = Some k ∧ sk_Error k = None ∧
  ∀ r, afterChunk k r = match usageOf c (BUsage base) with Some u => mkReading (tokens r) (firstToken r) (lastToken r) (ttft r) (itl r) (Some u) | None => r end.
Proof. intros Hb [= <-]. eexists. split; [by apply (payload_decoded c base [] [] [])|]. by split. Qed.

Lemma body_app f g : bodyOf (f ++ g) = let! b := bodyOf f in let! b' := bodyOf g in Ok (b +:+ b').
Proof.
  induction f as [|k f IH]; cbn [app bodyOf]; [by destruct (bodyOf g)|]. rewrite IH. destruct (SSEBytes Marshal k); [|done]. cbn. destruct (bodyOf f); [|done]. cbn. destruct (bodyOf g); [|done]. cbn. by rewrite append_assoc.
Qed.

(** Frames that the client reads one after the other. *)
Definition Reads (k : sseChunk) (g : reading → reading) : Prop :=
  ∃ b, SSEBytes Marshal k = Ok b ∧ ∀ rest r, readLines Unmarshal c ck (scanLines (b +:+ rest)) r = readLines Unmarshal c ck (scanLines rest) (g r).
Lemma reads_all f gs : Forall2 Reads f gs → ∃ b, bodyOf f = Ok b ∧ ∀ rest r, readLines Unmarshal c ck (scanLines (b +:+ rest)) r = readLines Unmarshal c ck (scanLines rest) (foldl (λ r g, g r) r gs).
Proof.
  induction 1 as [|k g f gs (b & Eb & Hb) _ (b' & Eb' & Hb')]; [by exists ""%string|]. exists (b +:+ b'). cbn [bodyOf]. rewrite Eb, Eb'. split; [done|]. intros rest r. by rewrite <- append_assoc, Hb, Hb'.
Qed.
Lemma reads_chunk p w k : JsonText p w → decStreamChunk c (mkStreamChunk [] None None) w = Some k → sk_Error k = None → Reads (jsonDataChunk p) (afterChunk k).
Proof.
  intros Hj Hk He. destruct (read_frame p w k ""%string nothingRead Hj Hk) as (b & Eb & _). exists b. split; [done|]. intros rest r.
  destruct (read_frame p w k rest r Hj Hk) as (b' & Eb' & H). rewrite Eb in Eb'. injection Eb' as <-. by rewrite H, He.
Qed.

Lemma reads_ext k g g' : (∀ r, g r = g' r) → Reads k g → Reads k g'.
Proof. intros E (b & Eb & H). exists b. split; [done|]. intros rest r. by rewrite H, E. Qed.

(** The frames of a chat stream. *)
Definition Texts (f : list sseChunk) : Prop := ∀ p, jsonDataChunk p ∈ f → ∃ w, JsonText p w.
Section Served.
Variables (rc : ResponseContext) (now : Z).

Lemma text_encoded p w : JsonText p w → encChat p = Some w.
Proof. by intros (mid & _ & _ & _ & H & _). Qed.

Lemma reads_role : Texts [roleFrame rc now] → Reads (roleFrame rc now) id.
Proof.
  intros Ht. destruct (Ht _ ltac:(left)) as [w Hw]. destruct (chunk_read (chunkBase (SetCreationTime now rc)) _ w eq_refl (text_encoded _ _ Hw)) as (k & Hk & He & Ha).
  apply (reads_ext _ (afterChunk k)); [intros r; by rewrite Ha|]. by eapply reads_chunk.
Qed.
Lemma token_payload t : ∃ content logprobs, tokenFrame rc now t =
  jsonDataChunk (ChatCompletionsRespChunk (chunkBase (SetCreationTime now rc)) [mkChatChoice 0 None (mkMessage "" content [] "") logprobs] "").
Proof. unfold tokenFrame, chatChunk. destruct (stringsOf (Some t)); eauto. Qed.
Lemma reads_token t : Texts [tokenFrame rc now t] → Reads (tokenFrame rc now t) (onToken ck).
Proof.
  destruct (token_payload t) as (content & logprobs & ->). intros Ht. destruct (Ht _ ltac:(left)) as [w Hw]. destruct (chunk_read (chunkBase (SetCreationTime now rc)) _ w eq_refl (text_encoded _ _ Hw)) as (k & Hk & He & Ha).
  apply (reads_ext _ (afterChunk k)); [intros r; by rewrite Ha|]. by eapply reads_chunk.
Qed.
Lemma reads_last reason : Texts (option_list (chatLastChunk (SetCreationTime now rc) reason 0)) → FinishReason rc = Some reason →
  Forall2 Reads (option_list (chatLastChunk (SetCreationTime now rc) reason 0)) (option_list ((λ _, @id reading) <$> chatLastChunk (SetCreationTime now rc) reason 0)).
Proof.
  unfold chatLastChunk. destruct (_ || _); [constructor|]. intros Ht Hr. constructor; [|constructor]. destruct (Ht _ ltac:(left)) as [w Hw].
  destruct (chunk_read (chunkBase (SetCreationTime now rc)) _ w eq_refl (text_encoded _ _ Hw)) as (k & Hk & He & Ha).
  apply (reads_ext _ (afterChunk k)); [intros r; rewrite Ha; change (ch_FinishReason _) with (FinishReason rc); by rewrite Hr|]. by eapply reads_chunk.
Qed.

(** The usage after the stream. *)
Definition setUsage (r : reading) : reading :=
  match (if SendUsageData rc then usageOf c (Some (UsageData rc)) else None) with Some u => mkReading (tokens r) (firstToken r) (lastToken r) (ttft r) (itl r) (Some u) | None => r end.
Lemma reads_usage : UsageFits (UsageData rc) → Texts (option_list (chatUsageChunk [SetCreationTime now rc])) →
  ∃ gs, Forall2 Reads (option_list (chatUsageChunk [SetCreationTime now rc])) gs ∧ ∀ r, foldl (λ r g, g r) r gs = setUsage r.
Proof.
  unfold chatUsageChunk, setUsage. change (SendUsageData (firstCtx [SetCreationTime now rc])) with (SendUsageData rc). destruct (SendUsageData rc); [|exists []; split; [constructor|done]].
  intros Hu Ht. destruct (Ht _ ltac:(left)) as [w Hw]. pose proof (text_encoded _ _ Hw) as Ew. apply usage_read in Ew as (k & Hk & He & Ha); [|exact Hu].
  exists [afterChunk k]. split; [constructor; [by eapply reads_chunk|constructor]|]. intros r. cbn [foldl]. rewrite Ha. done.
Qed.

Lemma stream_read pieces reason : UsageFits (UsageData rc) → FinishReason rc = Some reason → let f := roleFrame rc now :: (tokenFrame rc now <$> pieces) ++ endFrames rc now reason in Texts f →
  ∃ body, bodyOf f = Ok body ∧ readLines Unmarshal c ck (scanLines body) nothingRead = DoneSeen (setUsage (Nat.iter (length pieces) (onToken ck) nothingRead)).
Proof.
  intros Hu Hr f Ht. assert (∀ g, (∀ k, k ∈ g → k ∈ f) → Texts g) as Hsub by (intros g Hg p Hp; apply Ht, Hg, Hp). unfold f, endFrames in *.
  destruct reads_usage as (gs & Hgs & Egs); [done|apply Hsub; set_solver|]. set (ks := replicate (length pieces) (onToken ck)).
  assert (Forall2 Reads (tokenFrame rc now <$> pieces) ks) as Hks.
  { apply Forall2_fmap_l, Forall2_same_length_lookup. subst ks. rewrite length_replicate. split; [done|]. intros i t g Hi [-> _]%lookup_replicate. apply reads_token, Hsub.
    intros k ->%list_elem_of_singleton. right. apply elem_of_app. left. apply list_elem_of_fmap. exists t. split; [done|]. by eapply list_elem_of_lookup_2. }
  destruct (reads_all ([roleFrame rc now] ++ (tokenFrame rc now <$> pieces) ++ option_list (chatLastChunk (SetCreationTime now rc) reason 0) ++ option_list (chatUsageChunk [SetCreationTime now rc]))
    ([id] ++ ks ++ option_list ((λ _, @id reading) <$> chatLastChunk (SetCreationTime now rc) reason 0) ++ gs)) as (b & Eb & Hb).
  { repeat apply Forall2_app; [constructor; [apply reads_role, Hsub; set_solver|constructor]|done|apply reads_last; [apply Hsub; set_solver|done]|done]. }
  destruct (read_done (setUsage (Nat.iter (length pieces) (onToken ck) nothingRead))) as (d & Ed & Hd). exists (b +:+ d). split.
  - change (roleFrame rc now :: ?x) with ([roleFrame rc now] ++ x). rewrite !app_assoc, body_app, <- !app_assoc, Eb. cbn. rewrite append_empty. by injection Ed as <-.
  - rewrite Hb, <- Hd. f_equal. rewrite !foldl_app. cbn [foldl]. rewrite Egs. f_equal. replace (foldl _ _ (option_list ((λ _, @id reading) <$> _))) with (foldl (λ r g, g r) (id nothingRead) ks) by (by destruct (chatLastChunk _ _ _)).
    subst ks. clear. generalize (length pieces). intros n. unfold id. generalize nothingRead. induction n as [|n IH]; intros r; [done|]. cbn [replicate foldl]. rewrite IH. symmetry. apply Nat.iter_succ_r.
Qed.
End Served.
End Read.

(** * The measurements *)

Definition gaps (ck : clock) (n : nat) : list f64 := (λ i, milliseconds (tokenAt ck (S i) - tokenAt ck i)) <$> seq 0 (n - 1).
Definition firstDelay (ck : clock) : f64 := milliseconds (tokenAt ck 0 - requestStart ck).
Lemma tokens_counted ck n : Nat.iter (S n) (onToken ck) nothingRead = mkReading (S n) (tokenAt ck 0) (tokenAt ck n) (Some (firstDelay ck)) (gaps ck (S n)) None.
Proof.
  induction n as [|n IH]; [done|]. rewrite Nat.iter_succ, IH. unfold onToken. cbn [tokens Nat.eqb firstToken lastToken ttft itl usage]. f_equal.
  unfold gaps. rewrite !Nat.sub_succ, !Nat.sub_0_r, seq_S, fmap_app. done.
Qed.

(** What a client reports of a complete stream of [n] tokens. *)
Record Measured (ck : clock) (n : nat) (r : requestResult) : Prop := mkMeasured {
  me_status : StatusCode r = 200; me_count : OutputTokens_ r = Z.of_nat n; me_first : TTFTMilliseconds r = Some (firstDelay ck); me_gaps : ITLMilliseconds r = gaps ck n;
  me_decode : Success r = true → DecodeMilliseconds r = Some (milliseconds (tokenAt ck (n - 1) - tokenAt ck 0));
  me_latency : LatencySeconds r = Moe.Seconds (finishedAt ck - requestStart ck) }.

(** C6: on the body of a chat stream of the server, with one choice, replayed from a trace or not, both
    benchmark clients count exactly the tokens of the response and time them one by one; the trace client
    succeeds exactly when they are as many as the trace records, the other client exactly when the stream
    carries a usage with that count, whose prompt tokens it reports.  The conditions: a response of tokens
    ([TokenResponse]: at least one, a text for each, not ended by the cache threshold) without an image,
    whose chunk the clients would count as a token ([image_chunk_counted]); a stream that was written
    completely, with JSON texts that decode to what was encoded; and usage numbers that fit an [int]. *)
Theorem benchmark_counts_stream Marshal Unmarshal rc t traced now sendChunk l f body ck id :
  (∀ f k, sendChunk f k = None) → TokenResponse rc → responseTokens rc = Some t → SendImage rc = false → UsageFits (UsageData rc) → workerMessages traced rc 0 = Some l →
  handleStream chatComplHTTPRespBuilder now sendChunk 1 l = Stream f Complete → bodyOf Marshal f = Ok body → Texts Marshal Unmarshal f →
  let n := length (Dataset.Tokens t) in
  (∀ prompt wanted, let r := executePrompt Unmarshal TraceReplay ck id prompt wanted (Answered 200 body None false) in Measured ck n r ∧ Success r = (Z.of_nat n =? wanted) ∧ PromptTokens_ r = prompt) ∧
  (∀ wanted, let r := executePrompt Unmarshal SimulatedMapping ck id 0 wanted (Answered 200 body None false) in
     Measured ck n r ∧ Success r = SendUsageData rc && (CompletionTokens (UsageData rc) =? Z.of_nat n) ∧ (SendUsageData rc = true → PromptTokens_ r = PromptTokens (UsageData rc))).
Proof.
  intros Hsend Htr Ht Himg Hu Hl Hf Hbody Htexts n. rewrite workerMessages_same in Hl by done. pose proof Htr as (t' & reason & Et & Hne & _ & Hr & _). assert (t' = t) as -> by congruence.
  destruct (chat_frames rc now sendChunk Hsend t l reason Htr Ht Hr Himg Hl) as (pieces & Hp & Ef). rewrite Hf in Ef. injection Ef as ->.
  assert (∀ c, readLines Unmarshal c ck (scanLines body) nothingRead = DoneSeen (setUsage c rc (Nat.iter n (onToken ck) nothingRead))) as Hread.
  { intros c. destruct (stream_read Marshal Unmarshal c ck rc now pieces reason Hu Hr Htexts) as (b & Eb & E). rewrite Hbody in Eb. injection Eb as <-. by rewrite E, Hp. }
  assert (∃ k, n = S k) as [k Hk] by (unfold n; destruct (Dataset.Tokens t); [done|by eexists]). rewrite Hk in Hread |- *. rewrite tokens_counted in Hread.
  split; [intros prompt wanted r|intros wanted r]; subst r; unfold executePrompt; cbn [Z.ltb Z.leb Z.compare orb Pos.compare Pos.compare_cont]; rewrite Hread.
  - unfold setUsage. assert ((if SendUsageData rc then usageOf TraceReplay (Some (UsageData rc)) else None) = None) as -> by (by destruct (SendUsageData rc)).
    unfold completeStream. cbn [tokens]. destruct (Z.of_nat (S k) =? wanted); (split; [constructor|split]); try done. cbn. by rewrite Nat.sub_0_r.
  - unfold setUsage. destruct (SendUsageData rc); cbn [usageOf fmap option_fmap option_map]; [|split; [constructor|split]; done].
    unfold completeStream. cbn [tokens usage]. cbn [readUsage su_CompletionTokens andb]. destruct (CompletionTokens (UsageData rc) =? Z.of_nat (S k)); (split; [constructor|split]); try done. cbn. by rewrite Nat.sub_0_r.
Qed.

(** * The requests *)

(** The server reads the requests of the clients as they mean them: one message, as a stream, with the
    recorded prompt, or with the usage and the most tokens asked for. *)
Theorem requests_understood known model prompt id m : - 2 ^ 63 ≤ id < 2 ^ 63 → - 2 ^ 63 ≤ m < 2 ^ 63 →
  let base usage := ApiRequests.mkCompletions (ApiRequests.mkBaseRequest "" model "" true None false) usage None None in
  let message text := mkMessage "user" (mkChatContent text []) [] "" in
  ApiRequests.unmarshalChat known (traceRequest model id) = Some (ApiRequests.mkChatRequest (base None) [message "trace replay"%string] None None None Tools.ChoiceOmitted false None, Some id) ∧
  ApiRequests.unmarshalChat known (mappingRequest model prompt m) = Some (ApiRequests.mkChatRequest (base (Some true)) [message prompt] None (Some m) None Tools.ChoiceOmitted false None, None).
Proof.
  intros Hid Hm. pose proof (decode_encode (Codec := int_codec) id 0 Hid) as E1. pose proof (decode_encode (Codec := int_codec) m 0 Hm) as E2.
  unfold traceRequest, mappingRequest. revert E1 E2. unfold encInt. generalize (id <? 0), (Z.to_N (Z.abs id)), (m <? 0), (Z.to_N (Z.abs m)). intros b1 d1 b2 d2 E1 E2. split.
  - unfold ApiRequests.unmarshalChat. change (ApiRequests.decChat known ApiRequests.zeroChat _) with (Some (ApiRequests.mkChatRequest (ApiRequests.mkCompletions (ApiRequests.mkBaseRequest "" model "" true None false) None None None) [mkMessage "user" (mkChatContent "trace replay" []) [] ""] None None None Tools.ChoiceOmitted false None)).
    cbn [mbind option_bind]. unfold decStruct. rewrite !(field_skip "trace_prompt_id") by done.
    rewrite (field_value "trace_prompt_id" _ "trace_prompt_id" _ _ _ (Some id)), field_skip, field_nil by (done || by (unfold decPtr; cbn [default]; rewrite E1)). done.
  - set (body := [("model"%string, WStr model); _; _; _; _]).
    assert (field "max_completion_tokens" (decPtr 0 decInt) body None = Some (Some m)) as Em.
    { subst body. rewrite !(field_skip "max_completion_tokens" _ "model"), (field_skip "max_completion_tokens" _ "messages") by done.
      rewrite (field_value "max_completion_tokens" _ "max_completion_tokens" _ _ _ (Some m)), !field_skip, field_nil by (done || by (unfold decPtr; cbn [default]; rewrite E2)). done. }
    unfold ApiRequests.unmarshalChat, ApiRequests.decChat. cbn [decStruct]. change (ApiRequests.MaxCompletionTokens ApiRequests.zeroChat) with (@None Z). rewrite Em. reflexivity.
Qed.

(** * An example *)

Definition answer_ex : ResponseContext := ctx_ex "r" "stop" [1; 2] ["Hello "; "you"]%string.
Definition messages_bench : list ResponseInfo := default [] (workerMessages true answer_ex 0).
Definition frames_bench : list sseChunk := framesOf (handleStream chatComplHTTPRespBuilder 7 (λ _ _, None) 1 messages_bench).
(** Texts that tell the payloads of the example apart. *)
Definition tagOf (p : payload) : string :=
  match p with
  | ChatCompletionsRespChunk _ [ch] _ => if (Role (ch_Message ch) =? "")%string then match ch_FinishReason ch with Some _ => "last" | None => Raw (MContent (ch_Message ch)) end else "role"
  | _ => "usage"
  end.
Definition marshal_ex (p : payload) : result string string := Ok (braces (tagOf p)).
Definition unmarshal_ex (s : string) : option wire :=
  p ← find (λ p, (braces (tagOf p) =? s)%string) (omap (λ k, match k with jsonDataChunk p => Some p | _ => None end) frames_bench); encChat p.
Definition body_ex : string := match bodyOf marshal_ex frames_bench with Ok b => b | Err _ => "" end.
Definition clock_ex : clock := mkClock 0 1000000 (λ i, 51000000 + 10000000 * Z.of_nat i) 70000000.

Lemma texts_ex : Texts marshal_ex unmarshal_ex frames_bench.
Proof.
  assert (Forall (λ k, match k with jsonDataChunk p => ∃ w, JsonText marshal_ex unmarshal_ex p w | _ => True end) frames_bench) as H.
  { repeat (apply Forall_cons_2; [first [exact I | eexists; eexists; split; [reflexivity|]; split; [repeat constructor|]; split; [vm_compute; reflexivity|]; split; [reflexivity|vm_compute; reflexivity]]|]). constructor. }
  intros p Hp. rewrite Forall_forall in H. exact (H _ Hp).
Qed.

(** Two replayed tokens are counted by both clients, and timed. *)
Lemma benchmark_counts_stream_witness :
  let r := executePrompt unmarshal_ex TraceReplay clock_ex 4 3 2 (Answered 200 body_ex None false) in
  Measured clock_ex 2 r ∧ Success r = true ∧ Success (executePrompt unmarshal_ex SimulatedMapping clock_ex 4 0 2 (Answered 200 body_ex None false)) = true.
Proof.
  destruct (benchmark_counts_stream marshal_ex unmarshal_ex answer_ex (mkTokenized [1; 2] ["Hello "; "you"]%string) true 7 (λ _ _, None) messages_bench frames_bench body_ex clock_ex 4) as [H1 H2].
  - reflexivity.
  - eexists _, _. split; [reflexivity|]. split_and!; [discriminate|reflexivity|reflexivity|discriminate].
  - reflexivity.
  - reflexivity.
  - repeat constructor; cbn; lia.
  - reflexivity.
  - vm_compute. reflexivity.
  - vm_compute. reflexivity.
  - exact texts_ex.
  - destruct (H1 3 2) as (M & S1 & _). destruct (H2 2) as (_ & S2 & _). split; [exact M|]. split; [exact S1|exact S2].
Defined.

(** An answer with an image has one chunk more that looks like a token: the clients refuse the stream. *)
Definition image_ex : ResponseContext :=
  mkRespCtx "r" 0 false (Some (mkTokenized [1; 2] ["Hello "; "you"]%string)) "m" (Some "stop"%string) (mkUsage 3 2 5 None) true None None None None true.
Example image_chunk_counted :
  omap (λ k, match k with jsonDataChunk p => isOutputToken <$> (w ← encChat p; decStreamChunk SimulatedMapping (mkStreamChunk [] None None) w) | _ => None end)
    (framesOf (handleStream chatComplHTTPRespBuilder 7 (λ _ _, None) 1 (default [] (simulateResponseProcessing image_ex 0)))) = [false; true; true; true; false; false].
Proof. vm_compute. reflexivity. Qed.
End BenchClientProps.

Module BenchSummary.

(** * Percentiles *)

(** The shares the summary asks for. *)
Lemma share_constants : fdiv (f_of_Z 50) (f_of_Z 100) = SpecFloat.S754_finite false 4503599627370496 (-53) ∧
  fdiv (f_of_Z 95) (f_of_Z 100) = SpecFloat.S754_finite false 8556839292003942 (-53) ∧ fdiv (f_of_Z 99) (f_of_Z 100) = SpecFloat.S754_finite false 8917127262193582 (-53).
Proof. vm_compute. done. Qed.

Definition Share (p : Z) : Prop := p = 50 ∨ p = 95 ∨ p = 99.

Lemma percentile_total l p : Share p → Z.of_nat (length l) < 2 ^ 48 → is_Some (percentile l p).
Proof.
  intros Hp Hl. unfold percentile. destruct l as [|x [|y l]]; [done|done|]. set (s := x :: y :: l) in *. set (m := Z.of_nat (length s) - 1).
  assert (0 < m < 2 ^ 48) as Hm by (unfold m, s in *; cbn [length] in *; lia).
  assert (∃ mc, 2 ^ 52 ≤ Z.pos mc < 2 ^ 53 ∧ fdiv (f_of_Z p) (f_of_Z 100) = SpecFloat.S754_finite false mc (-53)) as (mc & Hc & ->).
  { destruct share_constants as (E1 & E2 & E3). destruct Hp as [->|[->| ->]]; eexists; (split; [|eassumption]); lia. }
  destruct (fmul_share mc m Hc Hm) as (H1 & H2 & H3). set (position := fmul _ _) in *.
  destruct (floor_ceil_between position m H2 H1 ltac:(lia) H3) as [HL HU]. fold (f_floor position) in HL.
  assert (∀ i, 0 ≤ i ≤ m → is_Some (s !! Z.to_nat i)) as Hi by (intros i Hi; apply lookup_lt_is_Some_2; lia).
  destruct (Hi (f_to_int (f_floor position)) ltac:(lia)) as [a ->], (Hi (f_to_int (f_ceil position)) ltac:(lia)) as [b ->]. by destruct (_ =? _).
Qed.

Lemma Float64s_perm l : Float64s l ≡ₚ l.
Proof. apply SliceStable_perm. Qed.

Lemma describe_total l : Z.of_nat (length l) < 2 ^ 48 → ∃ d, describe l = Some d ∧ Count d = Z.of_nat (length l).
Proof.
  intros Hl. unfold describe. destruct l as [|x l]; [by eexists|]. set (s := Float64s (x :: l)). assert (length s = length (x :: l)) as Hs by (apply Permutation_length, Float64s_perm).
  destruct (percentile_total s 50) as [m ->]; [by left|by rewrite Hs|]. destruct (percentile_total s 95) as [p ->]; [by right; left|by rewrite Hs|].
  destruct (percentile_total s 99) as [q ->]; [by right; right|by rewrite Hs|]. cbn [mbind option_bind].
  destruct s as [|y s'] eqn:E; [done|]. cbn [head mbind option_bind hd_error]. destruct (last (y :: s')) as [z|] eqn:Ez; [|by apply last_None in Ez].
  cbn [mbind option_bind]. eexists. split; [reflexivity|]. cbn [Count]. by rewrite Hs.
Qed.

(** * Tallies *)

Definition succeeded (l : list requestResult) : list requestResult := filter (λ r, Success r = true) l.
Definition refused (l : list requestResult) : list requestResult := filter (λ r, Success r = false) l.

Record Tallied (l : list requestResult) (t : tally) : Prop := mkTallied {
  ta_latency : t_latency t = LatencySeconds <$> succeeded l; ta_ttft : t_ttft t = omap TTFTMilliseconds (succeeded l); ta_tpot : t_tpot t = omap TPOTMilliseconds (succeeded l);
  ta_itl : t_itl t = concat (ITLMilliseconds <$> succeeded l); ta_prefill : t_prefill t = omap PrefillMilliseconds (succeeded l); ta_decode : t_decode t = omap DecodeMilliseconds (succeeded l);
  ta_e2e : t_e2e t = E2EMilliseconds <$> succeeded l; ta_length : t_length t = (λ r, f_of_Z (OutputTokens_ r)) <$> succeeded l; ta_offsets : t_offsets t = StartOffsetMS <$> l;
  ta_prompt : t_promptTokens t = total PromptTokens_ (succeeded l); ta_output : t_outputTokens t = total OutputTokens_ (succeeded l);
  ta_failures : t_failures t = take maxExamples ((λ r, (PromptID r, StatusCode r, Error_ r)) <$> refused l); ta_successful : t_successful t = Z.of_nat (length (succeeded l)) }.

(** Counts that do not overflow together. *)
Definition CountsFit (l : list requestResult) : Prop :=
  (∀ r, r ∈ l → 0 ≤ PromptTokens_ r ∧ 0 ≤ OutputTokens_ r) ∧ total PromptTokens_ l + total OutputTokens_ l < 2 ^ 63.

Lemma succeeded_sum F l : (∀ r, r ∈ l → 0 ≤ F r) → 0 ≤ total F (succeeded l) ≤ total F l.
Proof.
  unfold succeeded. induction l as [|r l IH]; intros H; [done|]. rewrite filter_cons. pose proof (H r ltac:(left)). specialize (IH ltac:(intros; apply H; by right)).
  destruct (decide _); rewrite !total_cons; lia.
Qed.

Lemma tallied l : CountsFit l → Tallied l (foldl tallyStep noTally l).
Proof.
  induction l as [|r l IH] using rev_ind; [done|]. intros [Hn Hb]. rewrite !total_app in Hb. cbn [total fmap list_fmap sumZ foldr] in Hb.
  assert (0 ≤ PromptTokens_ r ∧ 0 ≤ OutputTokens_ r) as [Hp Ho] by (apply Hn, elem_of_app; right; left).
  assert (∀ q, q ∈ l → 0 ≤ PromptTokens_ q ∧ 0 ≤ OutputTokens_ q) as Hn' by (intros q Hq; apply Hn, elem_of_app; by left).
  pose proof (succeeded_sum PromptTokens_ l ltac:(intros q Hq; by apply Hn')). pose proof (succeeded_sum OutputTokens_ l ltac:(intros q Hq; by apply Hn')).
  unfold total in Hb. cbn in Hb. fold (total PromptTokens_ l) (total OutputTokens_ l) in Hb.
  destruct IH as [A1 A2 A3 A4 A5 A6 A7 A8 A9 A10 A11 A12 A13]; [split; [done|lia]|].
  rewrite foldl_app. cbn [foldl]. set (t := foldl tallyStep noTally l) in *. unfold tallyStep. destruct (Success r) eqn:Es; cbn [negb].
  - assert (succeeded (l ++ [r]) = succeeded l ++ [r]) as E1 by (unfold succeeded; rewrite filter_app, filter_cons, decide_True by done; done).
    assert (refused (l ++ [r]) = refused l) as E2 by (unfold refused; rewrite filter_app, filter_cons, decide_False by congruence; apply app_nil_r).
    constructor; cbn [t_latency t_ttft t_tpot t_itl t_prefill t_decode t_e2e t_length t_offsets t_promptTokens t_outputTokens t_failures t_successful];
      rewrite ?E1, ?E2, ?omap_app, ?fmap_app, ?concat_app, ?total_app, ?length_app, ?A1, ?A2, ?A3, ?A4, ?A5, ?A6, ?A7, ?A8, ?A9, ?A10, ?A11, ?A13; try done.
    all: try (rewrite i64_small by lia; unfold total; cbn; lia). all: cbn; rewrite ?app_nil_r; try done; try lia.
    all: first [by destruct (TTFTMilliseconds r) | by destruct (TPOTMilliseconds r) | by destruct (PrefillMilliseconds r) | by destruct (DecodeMilliseconds r)].
  - assert (succeeded (l ++ [r]) = succeeded l) as E1 by (unfold succeeded; rewrite filter_app, filter_cons, decide_False by congruence; apply app_nil_r).
    assert (refused (l ++ [r]) = refused l ++ [r]) as E2 by (unfold refused; rewrite filter_app, filter_cons, decide_True by done; done).
    constructor; cbn [t_latency t_ttft t_tpot t_itl t_prefill t_decode t_e2e t_length t_offsets t_promptTokens t_outputTokens t_failures t_successful]; rewrite ?E1, ?E2, ?fmap_app, ?A9; try done.
    rewrite A12, length_take. set (k := (λ r, (PromptID r, StatusCode r, Error_ r)) <$> refused l). destruct (Nat.ltb_spec (maxExamples `min` length k) maxExamples).
    + rewrite !take_ge by (rewrite ?length_app; cbn [fmap list_fmap length]; lia). done.
    + rewrite take_app_le by lia. done.
Qed.

(** * Arrivals *)

Lemma received arrivals results : NoDup (PromptID <$> arrivals) → (∀ r, r ∈ arrivals → (PromptID r < length results)%nat) →
  ∃ rs, receiveAll arrivals results = Some rs ∧ length rs = length results ∧ (∀ r, r ∈ arrivals → rs !! PromptID r = Some r) ∧ ∀ i, i ∉ PromptID <$> arrivals → rs !! i = results !! i.
Proof.
  revert results. induction arrivals as [|r l IH]; intros results Hd Hlt; cbn [receiveAll]; [exists results; split_and!; [done|done|intros r []%elem_of_nil|done]|].
  rewrite fmap_cons, NoDup_cons in Hd. destruct Hd as [Hr Hd]. pose proof (Hlt r ltac:(left)) as H. rewrite (proj2 (Nat.ltb_lt _ _) H).
  destruct (IH (<[PromptID r := r]> results) Hd) as (rs & -> & Hl & Hin & Hout); [intros q Hq; rewrite length_insert; apply Hlt; by right|]. rewrite length_insert in Hl.
  exists rs. split_and!; [done|done| |].
  - intros q [->|Hq]%elem_of_cons; [|by apply Hin]. rewrite Hout by done. by apply list_lookup_insert_eq.
  - intros i Hi. rewrite fmap_cons, not_elem_of_cons in Hi. destruct Hi as [Hne Hi]. rewrite Hout by done. by apply list_lookup_insert_ne.
Qed.

(** Every prompt answered once. *)
Definition AllArrived (n : nat) (arrivals : list requestResult) : Prop := PromptID <$> arrivals ≡ₚ seq 0 n.

Lemma arrived_nodup n arrivals : AllArrived n arrivals → NoDup (PromptID <$> arrivals) ∧ ∀ i, i ∈ PromptID <$> arrivals ↔ (i < n)%nat.
Proof. unfold AllArrived. intros H. split; [rewrite H; apply NoDup_seq|]. intros i. rewrite H, elem_of_seq. lia. Qed.

Lemma received_all n arrivals : AllArrived n arrivals → ∃ rs, receiveAll arrivals (replicate n zeroResult) = Some rs ∧ rs ≡ₚ arrivals ∧ length rs = n ∧ ∀ r, r ∈ arrivals → rs !! PromptID r = Some r.
Proof.
  intros Ha. destruct (arrived_nodup _ _ Ha) as [Hd Hi]. destruct (received arrivals (replicate n zeroResult) Hd) as (rs & E & Hl & Hin & _).
  { intros r Hr. rewrite length_replicate. apply Hi, list_elem_of_fmap. by exists r. }
  rewrite length_replicate in Hl. exists rs. split_and!; [done| |done|done].
  assert (∀ i x, rs !! i = Some x → x ∈ arrivals ∧ PromptID x = i) as Hx.
  { intros i x Hix. assert (i ∈ PromptID <$> arrivals) as (r & -> & Hr)%list_elem_of_fmap by (apply Hi; rewrite <- Hl; by eapply lookup_lt_Some). rewrite Hin in Hix by done. by injection Hix as <-. }
  apply NoDup_Permutation; [|by eapply NoDup_fmap_1|].
  - apply NoDup_alt. intros i j x H1 H2. destruct (Hx _ _ H1) as [_ <-], (Hx _ _ H2) as [_ <-]. done.
  - intros x. split; [intros (i & Hix)%list_elem_of_lookup; by eapply Hx|]. intros H. apply list_elem_of_lookup. exists (PromptID x). by apply Hin.
Qed.

Lemma arrival_order n arrivals arrivals' : AllArrived n arrivals → arrivals' ≡ₚ arrivals → receiveAll arrivals' (replicate n zeroResult) = receiveAll arrivals (replicate n zeroResult).
Proof.
  intros Ha Hp. assert (AllArrived n arrivals') as Ha' by (unfold AllArrived in *; by rewrite Hp). destruct (arrived_nodup _ _ Ha) as [_ Hi].
  destruct (received_all _ _ Ha) as (rs & -> & _ & Hl & Hin), (received_all _ _ Ha') as (rs' & -> & _ & Hl' & Hin'). f_equal. apply list_eq. intros i.
  destruct (decide (i < n)%nat) as [H|H]; [|rewrite !lookup_ge_None_2 by lia; done]. apply Hi, list_elem_of_fmap in H as (r & -> & Hr). rewrite Hin, Hin' by (done || by rewrite Hp). done.
Qed.

(** C32: whatever the order in which the requests end, the summary of a run is made without a panic and
    is the same: it counts every request as succeeded or failed, adds up the tokens of those that
    succeeded, has one latency for each of them and one gap for each pair of their tokens, and shows
    the first failures; the run succeeds exactly when all requests did. *)
Theorem benchmark_summary_exact n arrivals wallTime :
  AllArrived n arrivals → Z.of_nat n < 2 ^ 48 → total (λ r, Z.of_nat (length (ITLMilliseconds r))) arrivals < 2 ^ 48 → CountsFit arrivals →
  ∃ s, finishRun n arrivals wallTime = Some (s, forallb Success arrivals) ∧
    Requested s = Z.of_nat n ∧ Successful s = Z.of_nat (length (succeeded arrivals)) ∧ Failed s = Z.of_nat (length (refused arrivals)) ∧
    sm_PromptTokens s = total PromptTokens_ (succeeded arrivals) ∧ sm_OutputTokens s = total OutputTokens_ (succeeded arrivals) ∧ sm_TotalTokens s = sm_PromptTokens s + sm_OutputTokens s ∧
    Count (RequestLatencySeconds s) = Successful s ∧ Count (StreamingITL s) = total (λ r, Z.of_nat (length (ITLMilliseconds r))) (succeeded arrivals) ∧ Count (LaunchStartOffset s) = Requested s ∧
    Z.of_nat (length (FailureExamples s)) = Z.min 20 (Failed s) ∧
    ∀ arrivals', arrivals' ≡ₚ arrivals → finishRun n arrivals' wallTime = finishRun n arrivals wallTime.
Proof.
  intros Ha Hn Hitl Hfit. destruct (received_all n arrivals Ha) as (rs & Er & Hp & Hl & _). unfold finishRun at 1. rewrite Er. cbn [mbind option_bind].
  assert (CountsFit rs) as Hfit'. { destruct Hfit as [F1 F2]. split; [intros r Hr; apply F1; by rewrite <- Hp|by rewrite Hp]. }
  destruct (tallied rs Hfit') as [A1 A2 A3 A4 A5 A6 A7 A8 A9 A10 A11 A12 A13].
  assert (length (succeeded rs) + length (refused rs) = length rs)%nat as Hsplit.
  { unfold succeeded, refused. clear. induction rs as [|r rs IH]; [done|]. rewrite !filter_cons. destruct (Success r) eqn:E; [rewrite decide_True, decide_False by congruence|rewrite decide_False, decide_True by congruence]; cbn; lia. }
  assert (length (t_itl (foldl tallyStep noTally rs)) = Z.to_nat (total (λ r, Z.of_nat (length (ITLMilliseconds r))) (succeeded rs))) as Litl.
  { rewrite A4. clear. generalize (succeeded rs). intros l. induction l as [|r l IH]; [done|]. cbn [fmap list_fmap concat]. rewrite length_app, IH, total_cons. pose proof (total_nonneg (λ r, Z.of_nat (length (ITLMilliseconds r))) l ltac:(intros; cbv beta; lia)) as Ht. cbv beta in Ht |- *. lia. }
  pose proof (succeeded_sum (λ r, Z.of_nat (length (ITLMilliseconds r))) rs ltac:(intros; cbv beta; lia)) as [I1 I2]. rewrite (total_perm (λ r, Z.of_nat (length (ITLMilliseconds r))) rs arrivals Hp) in I2.
  pose proof (succeeded_sum PromptTokens_ rs ltac:(intros q Hq; by apply Hfit')) as B1. pose proof (succeeded_sum OutputTokens_ rs ltac:(intros q Hq; by apply Hfit')) as B2. destruct Hfit' as [_ Hb].
  assert (∀ f : requestResult → option f64, (length (omap f (succeeded rs)) ≤ length (succeeded rs))%nat) as Hom.
  { intros f. clear. generalize (succeeded rs). intros l. induction l as [|r l IH]; [done|]. cbn. destruct (f r); cbn; lia. }
  unfold summarize. set (t := foldl tallyStep noTally rs) in *.
  destruct (describe_total (t_latency t)) as (d1 & -> & C1); [rewrite A1, length_fmap; lia|]. destruct (describe_total (t_ttft t)) as (d2 & -> & _); [rewrite A2; specialize (Hom TTFTMilliseconds); lia|].
  destruct (describe_total (t_tpot t)) as (d3 & -> & _); [rewrite A3; specialize (Hom TPOTMilliseconds); lia|]. destruct (describe_total (t_itl t)) as (d4 & -> & C4); [rewrite Litl; lia|].
  destruct (describe_total (t_prefill t)) as (d5 & -> & _); [rewrite A5; specialize (Hom PrefillMilliseconds); lia|]. destruct (describe_total (t_decode t)) as (d6 & -> & _); [rewrite A6; specialize (Hom DecodeMilliseconds); lia|].
  destruct (describe_total (t_e2e t)) as (d7 & -> & _); [rewrite A7, length_fmap; lia|]. destruct (describe_total (t_length t)) as (d8 & -> & _); [rewrite A8, length_fmap; lia|].
  destruct (describe_total (t_offsets t)) as (d9 & -> & C9); [rewrite A9, length_fmap; lia|]. cbn [mbind option_bind].
  assert (succeeded rs ≡ₚ succeeded arrivals) as P1 by (unfold succeeded; by rewrite Hp). assert (refused rs ≡ₚ refused arrivals) as P2 by (unfold refused; by rewrite Hp).
  eexists. split.
  { f_equal. f_equal. cbn [Failed]. rewrite A13, <- Hsplit.
    assert (forallb Success arrivals = (length (refused rs) =? 0)%nat) as ->; [|destruct (Nat.eqb_spec (length (refused rs)) 0); [apply Z.eqb_eq|apply Z.eqb_neq]; lia].
    rewrite P2. clear. unfold refused. induction arrivals as [|r l IH]; [done|]. cbn [forallb]. rewrite filter_cons. destruct (Success r) eqn:E; [by rewrite decide_False by congruence|by rewrite decide_True by done]. }
  cbn [Requested Successful Failed sm_PromptTokens sm_OutputTokens sm_TotalTokens RequestLatencySeconds StreamingITL LaunchStartOffset FailureExamples].
  rewrite A13, C1, C4, C9, A1, A9, Litl, A12, length_take, !length_fmap, A10, A11, <- P1, <- P2, <- Hsplit. rewrite i64_small by lia.
  split_and!; [lia|done|lia|done|done|done|done|lia|lia|unfold maxExamples; lia|].
  intros arrivals' Hp'. unfold finishRun. by rewrite (arrival_order n arrivals arrivals' Ha Hp').
Qed.

(** * Prompts *)

(** The prompts of a dataset are numbered by their places, positive in what they ask for, and at most [limit]. *)
Theorem dataset_prompts Unmarshal defaultMax limit text l : loadDataset Unmarshal defaultMax limit text = Ok l → 0 < defaultMax →
  (∀ i p, l !! i = Some p → bp_ID p = i ∧ 0 < bp_MaxCompletionTokens p ∧ TrimSpace (bp_Prompt p) ≠ ""%string) ∧ (0 < limit → Z.of_nat (length l) ≤ limit).
Proof.
  intros H Hd. unfold loadDataset in H. set (P := λ l : list benchmarkPrompt, ∀ i p, l !! i = Some p → bp_ID p = i ∧ 0 < bp_MaxCompletionTokens p ∧ TrimSpace (bp_Prompt p) ≠ ""%string).
  assert (∀ lines number prompts, P prompts → (0 < limit → Z.of_nat (length prompts) < limit) → loadLines Unmarshal defaultMax limit number lines prompts = Ok l → P l ∧ (0 < limit → Z.of_nat (length l) ≤ limit)) as Hall.
  { clear H. induction lines as [|line lines IH]; intros number prompts Hp Hl; cbn [loadLines]; [intros [= <-]; split; [done|]; intros Hz; specialize (Hl Hz); lia|].
    destruct (_ <=? _); [done|]. destruct (promptOfLine _ _ _ _) as [[[prompt m]|]|] eqn:E; [|done|by apply IH].
    assert (0 < m ∧ TrimSpace prompt ≠ ""%string) as [Hm Hne].
    { unfold promptOfLine in E. destruct (_ =? "")%string; [done|]. injection E as E. destruct (_ ≫= _) as [r|]; [|done]. destruct (String.eqb_spec (TrimSpace (dl_Prompt r)) ""); [done|].
      destruct (dl_MaxCompletionTokens r) as [m'|]; [|by injection E as <- <-]. destruct (Z.leb_spec m' 0); [done|]. injection E as <- <-. split; [lia|done]. }
    assert (P (prompts ++ [mkBenchPrompt (length prompts) prompt m])) as Hp'.
    { intros i p [Hi|[Hi Hx]]%lookup_app_Some; [by apply Hp|]. apply list_lookup_singleton_Some in Hx as [Hx <-]. cbn. split_and!; [lia|done|done]. }
    rewrite length_app. cbn [length]. destruct (Z.ltb_spec 0 limit), (Z.leb_spec limit (Z.of_nat (length prompts + 1))); cbn [andb];
      [intros [= <-]; split; [done|]; rewrite length_app; cbn; lia|apply IH; [done|]; rewrite length_app; cbn; lia|apply IH; [done|lia]|apply IH; [done|lia]]. }
  apply (Hall _ _ _) in H; [done|by intros i p Hi|cbn; lia].
Qed.

(** A server that passes the check has room for every prompt of the trace. *)
Theorem checked_server_fits s md : checkTraceServer s md (ts_MaxContextLen (buildTraceSummary md)) = Ok () →
  ∀ p, p ∈ TraceFormat.m_Prompts md → i64 (TraceFormat.InputTokens p + TraceFormat.DecodeTokens p) ≤ sv_MaxModelLen s.
Proof.
  unfold checkTraceServer. do 5 (destruct (negb _); [done|]). destruct (Z.ltb_spec (sv_MaxModelLen s) (ts_MaxContextLen (buildTraceSummary md))) as [|H]; [done|]. intros _ p Hp. etransitivity; [|exact H].
  unfold buildTraceSummary. generalize (mkTraceSummary 0 0 0). clear H. induction (TraceFormat.m_Prompts md) as [|q l IH]; intros t; [by apply elem_of_nil in Hp|]. cbn [foldl].
  assert (∀ l t, ts_MaxContextLen t ≤ ts_MaxContextLen (foldl summaryStep t l)) as Hmono.
  { clear. induction l as [|q l IH]; intros t; [done|]. cbn [foldl]. etransitivity; [|apply IH]. cbn. destruct (Z.ltb_spec (ts_MaxContextLen t) (i64 (TraceFormat.InputTokens q + TraceFormat.DecodeTokens q))); lia. }
  apply elem_of_cons in Hp as [->|Hp]; [|by apply IH]. etransitivity; [|apply Hmono]. cbn. destruct (Z.ltb_spec (ts_MaxContextLen t) (i64 (TraceFormat.InputTokens q + TraceFormat.DecodeTokens q))); lia.
Qed.

(** * An example: two requests, of which the second fails *)

Definition result_ok : requestResult := mkResult 0 true 200 None 3 2 2 (f_const 69 1000) (Some (f_of_Z 50)) (Some (f_of_Z 10)) (Some (f_of_Z 50)) (Some (f_of_Z 10)) (f_of_Z 69) (f_of_Z 1) [f_of_Z 10].
Definition result_bad : requestResult := mkResult 1 false 429 (Some (ErrStatus 429 "busy")) 0 2 0 (f_const 1 1000) None None None None (f_of_Z 1) (f_of_Z 1) [].
Lemma benchmark_summary_exact_witness : ∃ s, finishRun 2 [result_bad; result_ok] 70000000 = Some (s, false) ∧ Requested s = 2 ∧ Successful s = 1 ∧ Failed s = 1 ∧
  sm_TotalTokens s = 5 ∧ finishRun 2 [result_ok; result_bad] 70000000 = Some (s, false).
Proof.
  destruct (benchmark_summary_exact 2 [result_bad; result_ok] 70000000) as (s & E & H1 & H2 & H3 & H4 & H5 & H6 & _ & _ & _ & _ & Hp).
  - apply perm_swap.
  - lia.
  - vm_compute. reflexivity.
  - split; [|vm_compute; reflexivity]. intros r [->|[->|[]%elem_of_nil]%elem_of_cons]%elem_of_cons; cbn; lia.
  - exists s. split; [exact E|]. split; [exact H1|]. split; [exact H2|]. split; [exact H3|]. split; [rewrite H6, H4, H5; reflexivity|].
    rewrite Hp; [exact E|]. apply perm_swap.
Defined.
Example median_between : percentile [f_of_Z 1; f_of_Z 2; f_of_Z 3; f_of_Z 4] 50 = Some (f_const 5 2).
Proof. vm_compute. reflexivity. Qed.
End BenchSummary.
